(* ===== verification/_CoqProject ===== *)
-Q . S2P
Prelude.v
Bytes.v
Lists.v
Locks.v
SrxDefs.v
Crc32.v
SrxIdentifier.v
BgpsecPath.v
RpkiQueue.v
AspaTrie.v
AspaValidation.v
UtHash.v
AspathCache.v
UpdateCache.v
UpdateCacheLemmas.v
UpdateCacheTheorems.v
HashMessage.v
HashMessageTheorems.v
KeyStorage.v
KeyStorageTheorems.v
KeyRemoval.v
BgpsecOpenssl.v
BgpsecOpensslTheorems.v
BgpsecHandler.v
AspaPdu.v
ClientSocket.v
RtrClient.v
RtrClientTheorems.v
RtrSession.v
EndOfData.v
EndOfDataAll.v
SkiCache.v
SkiCacheLemmas.v
SkiRegister.v
CacheWitness.v
Patricia.v
SList.v
SListHeap.v
CommandQueue.v
PacketQueue.v
SrxPackets.v
PacketSender.v
ProxyApi.v
ProxyMap.v
ProxyMapTheorems.v
PrefixCache.v
PrefixTree.v
PrefixSteps.v
PrefixInv.v
PrefixEntries.v
PrefixWalks.v
PrefixAdd.v
PrefixRoa.v
PrefixAnnounce.v
PrefixWithdraw.v
PrefixCover.v
PrefixRequest.v
PrefixSpec.v
RoaNotify.v
PrefixWitness.v
QueueWitness.v
Server.v
ValidationRequest.v
CommandHandler.v
CommandTheorems.v
Handshake.v
RequestTheorems.v
Connections.v
RpkiHandler.v
ServerWitness.v
CryptoWitness.v
RtrWitness.v
RouterConfig.v
RouterAsPath.v
RouterTable.v
RouterDecision.v
RouterState.v
RouterRun.v
RouterProcess.v
RouterWitness.v
