(* ===== verification/Prelude.v ===== *)
(** * NIST BGP-SRx server: a verification library

    BGP-SRx validates BGP updates on behalf of routers.  A router (through the
    SRx proxy) sends an update to the SRx server; the server stores it, has it
    validated three ways - origin validation against ROAs, BGPsec path validation
    against router keys, ASPA validation of the AS path - and notifies the router
    when one of the results changes.  This library models the core of the server
    in C, src/srx-server/src/, of the crypto library it validates paths with,
    src/srx-crypto-api/, and of the router that uses the results, the changes to
    Quagga in src/quagga-srx/bgpd/, as pure Rocq functions and proves what they do.

    ** The parts of the program and the files that model them

    - shared/srx_identifier.c, shared/crc32.c.  Updates are known by a 32-bit
      identifier, the CRC-32 of a text built from the origin AS, the prefix and
      the path data.  Files Crc32 and SrxIdentifier.
    - server/update_cache.c.  The update cache: identifier to results, default
      results, path data and registered clients.  File UpdateCache holds data and
      operations, UpdateCacheLemmas the invariant, UpdateCacheTheorems the
      properties, Module UpdateCacheWitness of CacheWitness a concrete cache.
    - server/aspath_cache.c.  The AS path cache: path identifier to AS path and
      ASPA result.  File AspathCache.
    - server/aspa_trie.c.  The ASPA database, a trie over the decimal digits of
      the customer AS.  File AspaTrie.  The function handleAspaPdu of
      server/rpki_handler.c, which announces and withdraws objects: AspaPdu.
    - validateASPA in server/command_handler.c.  The ASPA validation of a path:
      AspaValidation.
    - server/ski_cache.c.  The SKI cache: router key to the number of keys
      received and the updates whose BGPsec path uses it.  The parser of the
      BGPsec_PATH attribute is in BgpsecPath; Lists has the theory of the
      sorted linked lists the cache is made of; SkiCache holds data and
      operations, SkiCacheLemmas the invariant and the search, SkiRegister the
      properties, Module SkiWitness of CacheWitness a concrete cache.
    - server/prefix_cache.c and handlePrefix of server/rpki_handler.c.  The
      prefix cache: white-list entries (ROAs) and updates on the nodes of a
      Patricia tree, and the origin validation of the updates.  Patricia is the
      interface of the tree, an external library, with a tree that satisfies its
      laws; SList the linked lists of util/slist.c; PrefixCache
      holds data and operations.  PrefixTree is the forest of the stored prefixes
      and the rule for walks over it, PrefixSteps what the list operations do to
      one prefix, Lists (sums) and PrefixInv the invariant, PrefixEntries the entries of
      one prefix, PrefixWalks the walks down, PrefixCover the walk up, PrefixAdd
      and PrefixAnnounce the announcement, PrefixRoa and PrefixWithdraw the
      withdrawal, PrefixRequest the validation of an update, PrefixSpec the
      specification and the properties.  RoaNotify stores the results in the
      update cache; PrefixWitness is a concrete server.
    - server/rpki_queue.c.  The queue of updates whose validation state may have
      changed.  File RpkiQueue.
    - handleEndOfData in server/rpki_handler.c and process_ASPA_EndOfData_main in
      server/aspa_trie.c.  What connects the parts: when the validation cache
      has sent all its data, the paths are validated again, changed updates are
      queued, and the queue is drained into notifications.  EndOfData holds the
      definitions and the step for one update, EndOfDataAll the invariant of the
      iteration over all updates and the theorem about the whole handler,
      Module EndOfDataWitness of CacheWitness a concrete run.
    - util/slist.c over nodes in memory: SListHeap (SList is the view of a client
      that owns the list).  server/command_queue.c: CommandQueue.  The queue of
      server/srx_packet_sender.c, whose text server/server_connection_handler.c
      repeats for received packets: PacketQueue.
    - shared/srx_packets.h, the packets between proxy and server as bytes:
      SrxPackets.  util/server_socket.c and server/srx_packet_sender.c, the
      connections and what is written to them: PacketSender.  client/srx_api.c,
      the requests and callbacks of the proxy library: ProxyApi.
    - server/server_connection_handler.c.  The mapping of proxies to clients:
      ProxyMap, ProxyMapTheorems.  The packet handler, validation and signature
      requests, connecting and disconnecting: ValidationRequest; the theorems
      about requests: RequestTheorems.  QueueWitness has concrete lists, queues
      and mappings.
    - server/command_handler.c.  The state of the whole server and the broadcast
      of results: Server, with its invariant in Module ServerLemmas.  The loop over the commands, handshake,
      validation, deletion, goodbye: CommandHandler; its theorems: Handshake,
      CommandTheorems, Connections.  server/bgpsec_handler.c: BgpsecHandler.
      ServerWitness is a concrete server.
    - src/srx-crypto-api/srxcryptoapi.c.  The octets of RFC 8205 that are signed,
      built from the BGPsec_PATH attribute: HashMessage, HashMessageTheorems.
    - src/srx-crypto-api/bgpsec_openssl/key_storage.c.  The keys by AS number and
      identifier, 256 buckets of sorted lists: KeyStorage; storing and searching
      are proved in KeyStorageTheorems, removal in KeyRemoval.
    - src/srx-crypto-api/bgpsec_openssl/bgpsec_openssl.c.  The plug-in that
      validates and signs: BgpsecOpenssl, BgpsecOpensslTheorems.  Module BgpsecPlugin of
      BgpsecHandler puts it behind the interface of the server's BGPsec handler.  CryptoWitness has
      concrete paths and keys.
    - util/client_socket.c, util/socket.c: ClientSocket, the connection to another
      host as the octets that wait to be read and those that were written.
      server/rpki_router_client.c, the client of the RPKI-to-router protocol: RtrClient
      holds state and operations, RtrClientTheorems typed PDUs and the loop over
      received octets, RtrSession what a session with the validation cache does.
      The callbacks of server/rpki_handler.c that connect it with the caches of
      the server: RpkiHandler, with Module RpkiHandlerTheorems.  RtrWitness has concrete PDUs
      and sessions.
    - src/quagga-srx/bgpd/.  The router.  bgpd.c, bgpd.h and bgp_vty.c, the settings of
      the validation and the commands that change them: RouterConfig, whose Module
      ConfigFile is the configuration file, as bgpd.c writes it and lib/command.c reads it.  bgp_aspath.c, the
      AS paths: RouterAsPath, whose Module RouterAsPath holds the functions the decision
      process uses, Module AsPathWire parsing, the normal form and writing over the
      streams of lib/stream.c, and Module AsPathOps the checks, the changes, the
      reconciliation of two- and four-octet paths and the aggregation.  bgp_route.c, bgp_info_hash.c
      and the callbacks of bgpd.c, the routes of a prefix, the identifiers they wait
      under, the requests, the answers and what updates and withdrawals do: RouterTable.
      The policies for the local preference, the comparison of routes and the selection:
      RouterDecision.  RouterState describes the operations as changes of the state and
      holds the invariant, RouterRun what updates, withdrawals and answers do to it,
      RouterProcess the processing of a node and the properties, RouterWitness a
      concrete router.
    - util/rwlock.c, util/mutex.c, POSIX semaphores: Locks.  Result codes and
      shared records, shared/srx_defs.h and util/prefix.h: SrxDefs.  Numbers of 2
      and 4 octets in either byte order, buffers read at an offset, and the flag macros
      of lib/zebra.h: Bytes.

    How they interact: the update cache calls the SKI cache through the class
    [SkiUpdates] of UpdateCache, which SkiCache implements; the SKI cache and the
    end of data put updates on the RPKI queue; the end of data reads the update
    cache and the AS path cache, validates against the ASPA database and writes
    results back.  A packet of a proxy reaches the packet handler, which answers it
    or puts a command on the command queue; the command handler takes the command,
    asks the prefix cache, the crypto library (the class [SRxCryptoAPI], whose
    instance is the OpenSSL plug-in, and which passes on the fault of a call that has no
    defined behaviour) and the ASPA validation, and stores the results, and the update cache calls back to
    notify the clients.  The plug-in takes its octets from HashMessage and its
    keys from the key storage; reading and converting key files is the class
    [EcKeys], SHA-256 and ECDSA the class [Openssl].  The protocol client reaches the server
    through its callbacks only, the record [RPKIRouterClientParams]; createRPKIHandler
    fills it with the functions of RpkiHandler, which hand the received data to the
    prefix cache, the SKI cache, the crypto library and the ASPA database and start
    the end of data processing.  The prefix cache stores its
    results through the class
    [RoaSink], which the bare update cache (RoaNotify) and the whole server
    (Server) implement.  The router sends the packets of ProxyApi and is called back
    with what ProxyApi reads from the packets of the server
    (handleSRxValidationResult); its local path validation is the class
    [LocalCrypto] of RouterTable.  Definitions carry the names of the C functions, types and
    fields; a definition that models part of a function (a loop, a branch) has a
    name of its own and a comment that says which part.

    ** Modelling conventions

    - Every function that can meet undefined behaviour or block for ever returns
      an [outcome]: [Ok], or [Fault] with what went wrong (a NULL pointer, an
      uninitialised variable, a read or write out of bounds, a lock that its
      owner acquires again, a destroyed lock).  Theorems that state [Ok] also say
      that none of this happens.
    - State is passed explicitly.  A mutable structure that is shared lives in a
      heap, a finite map from addresses ([positive]); a list that only one
      structure owns is a Rocq list.  Allocation never fails.
    - Integers are [Z] with the wrap-around of their width ([u8], [u16], [u32],
      [signed]) where an operation can leave the range.  The host is
      little-endian.  Bytes are [Z] in 0..255, C strings lists of their codes.
    - Locks are modelled as one thread sees them: each operation is a critical
      section, so operations interleave only as a whole.
    - Log output is left out.
    - The hash table of the caches is uthash, which is not part of the server's
      own code: the class [UTHash] of UtHash is its interface, [UTHashLaws] its
      documented behaviour, [ut_list] an instance that satisfies the laws and is
      used for the concrete runs.

    ** What the theorems show

    - Crc32: the table computes the reflected CRC-32, and one differing byte
      always changes it.  SrxIdentifier: which text an identifier is the CRC of,
      that path bytes above 0x7f do not enter it and that the text overruns its
      buffer; the order of identifiers.
    - AspaValidation: the upstream and downstream procedures decide the
      declarative conditions on the hops of a path of at most 255 hops; length and
      counters have 8 bits in the code and in the model.  AspaTrie: insertion,
      removal and lookup against the map from words to objects; AspaPdu: a lookup
      after an announcement or a withdrawal.
    - AspathCache: a stored path is read back, recorded results are reported,
      and a path identifier does not depend on the byte order of the input.
    - UpdateCacheTheorems: every operation as a change of the map from
      identifiers to entries, with its error paths; the growth of the client
      array; removal of clients.
    - BgpsecPath: parsing an encoded attribute gives its content back.
      SkiRegister: registering and unregistering updates and keys as changes of
      two counters, that unregistering undoes registering, which updates are
      queued, and what cleaning leaves.
    - PrefixSpec: the prefix cache refines a list of announced VRPs and of
      requested updates, and the result stored for every update is the one
      [origin_by_bits] decides from the bits of the prefixes; this is the one of RFC
      6811, [rfc6811], as long as all prefixes are of one address family, which the cache
      does not tell apart.  What announcing, withdrawing and requesting do to the two
      lists.  The rules of [reach] exclude the runs in which the code fails: a
      request after a withdrawal that left no object for its prefix, the first request of
      a prefix below an entry that was announced twice, and counters that overflow; both
      failures are theorems of their own.  A maximum length is not below the length of its
      prefix, and an update is stored and always requested with the same prefix and
      origin.
      RoaNotify: storing a result, notifying and queueing.
    - SListHeap, PacketQueue: lists and queues in memory refine sequences.
      CommandQueue: under any interleaving commands are fetched once and in order;
      two cases in which a freed node is left reachable.
    - ProxyApi: what the router is told is what the server put into a
      notification.  ProxyMapTheorems: the invariant of the proxy map, and the
      counter that wraps around.  Handshake: which hello is accepted and what
      follows.  RequestTheorems: what the first request for an update stores,
      answers and queues.  CommandTheorems: what a validation command stores and
      who is notified, over the specification of the prefix cache.  Connections:
      who gets a notification, what a goodbye removes, and what the late end of a
      connection destroys.
    - HashMessageTheorems: the buffer holds the octets RFC 8205 prescribes for
      every signer, for one or two signature blocks, and a false length overflows
      it.  KeyStorageTheorems, KeyRemoval: the storage refines a map from AS number
      and identifier to keys under registration and search, and under removal as
      long as no AS has two identifiers; what happens then.  BgpsecOpensslTheorems:
      validation is the conjunction of the ECDSA checks of all signatures over
      those octets; a signed origination validates at the next router; the path
      without signers.  BgpsecPlugin: the verdict stored in the server.
    - RtrClientTheorems: receiving the octets of a list of PDUs is handling the PDUs
      in order, and it returns.  RtrSession: a session that a Cache Response opens and an
      End of Data closes; what a silent cache, a changed session identifier and a
      PDU shorter than its type do.  RpkiHandlerTheorems: a session leaves the caches
      as if every VRP had been announced or withdrawn by itself; what a router key
      does to the SKI cache and the key storage.
    - RouterConfig: the commands turn the evaluations on and off and keep every policy in
      its array and range; what comes back of settings that are written to the
      configuration file and read at the next start, and when the router does not start.  RouterDecision: the
      local preference after the policies, without wrap-around, and that a route that
      wins a comparison does not rank lower.  RouterProcess: whatever updates, withdrawals,
      answers and processing steps come in whatever order, the selection of every node
      that is not waiting follows the validation ([event_ok] says for which events); an answer changes the selection once
      the queue is drained; the route an answer reaches; a route that changes before its
      answer, and a path that is too long for the request.
    - RouterAsPath: the parser accepts exactly the encodings of paths and returns the
      one path in normal form that says the same; a path that is written is parsed back,
      for segments of up to 510 numbers, and what is sent for longer ones; what
      prepending, filtering, reconciling and aggregating do to the numbers and hops.
    - RpkiQueue: the queue merges reasons and keeps order.  EndOfData: draining
      it terminates and notifies every queued update once, with the cached
      results and, for an update that was queued because of a key, the result of a
      new path validation; how an update's ASPA result follows the validation of its path.
      EndOfDataAll: after the whole handler every update carries the result of its
      path and every queued or changed update was notified with it.

    ** Fuel and bounds

    Loops over structures are structural.  Fuel is used for [rq_drain] and
    [dequeue_loop] (one round per queued element and a last one), [read_blocks]
    (the two elements of the array and a last round), [dec_digits] (ten digits
    are enough for 32 bits), the walks in the Patricia tree ([tree_fuel]: a tree
    of 128-bit keys is at most 129 nodes deep), the walks over linked lists
    ([walk_fuel], [drain]: one round per node in memory), the search for a signature
    block (one round per octet of the rest), the loop over received PDUs (a round
    reads eight octets or more, or ends it), and parsing and writing of AS paths (one
    round per octet, per segment and per number of a segment); the theorems show results, so the
    fuel is enough.  The search for a free identifier has [collision_fuel], since every
    round meets another stored update; the theorems about requests take one round.
    Hypotheses such as a queue of fewer than 2^32 - 1 elements or an update
    registered fewer than 2^16 times for a key keep the counters of the code from
    wrapping around; [room] of PrefixInv is the one of the prefix cache.

    ** What is not modelled

    Releasing the prefix cache, the connection handler and the command handler,
    which happens at shutdown; of the crypto API the loading of plug-ins and the
    reading of key files; of the protocol client the debug callbacks, the printing of
    packets, the signal handlers and the delay before a reconnect; of sockets the
    name lookup; threads (one round of each thread
    loop is a definition, and so is the end of a connection); console and
    configuration; the gRPC services in Go and C, so that the code is the one
    compiled without USE_GRPC; the connection of the proxy library.  Of the router:
    sessions and messages, the parsing of attributes but AS_PATH (among them the one of BGPsec),
    the text and the hash table of AS paths,
    filters, route maps, dampening, aggregation, the limit for prefixes, multiple paths,
    route server clients, advertisements to other routers, keys, the address of the
    server and the connection to it (also their lines in the configuration file), and the
    display commands.  The theorems about runs are for routers without
    deterministic-med and for updates that do not change a route that waits for its
    first answer ([event_ok]); what happens otherwise is a theorem of its own. *)

From stdpp Require Export base tactics option list numbers gmap sorting.
From stdpp Require Export strings.
#[global] Open Scope Z_scope.

(** ** Outcomes of C code

    A function of the model either returns a value or reaches a point at which
    the C program has no defined behaviour (or blocks for ever on a lock it
    already holds).  [fault] names these points. *)
Inductive fault :=
| NullDeref       (** a NULL pointer is dereferenced *)
| UninitRead      (** an uninitialised local variable is read *)
| OutOfBounds     (** an array is read outside its bounds *)
| BufferOverflow  (** a buffer is written outside its bounds *)
| Deadlock        (** a lock the caller already holds is acquired *)
| UseAfterDestroy (** a lock or object is used after it was destroyed *)
| AssertFailed    (** an assertion of the program fails *)
| OutOfFuel.      (** the model ran out of fuel: excluded by theorems *)

Inductive outcome (A : Type) :=
| Ok (a : A)
| Fault (f : fault).
Arguments Ok {A} _.
Arguments Fault {A} _.

#[global] Instance outcome_ret : MRet outcome := fun A a => Ok a.
#[global] Instance outcome_bind : MBind outcome := fun A B f m =>
  match m with Ok a => f a | Fault e => Fault e end.
#[global] Instance outcome_fmap : FMap outcome := fun A B f m =>
  match m with Ok a => Ok (f a) | Fault e => Fault e end.

#[global] Instance fault_eq_dec : EqDecision fault.
Proof. solve_decision. Defined.

Definition is_ok {A} (m : outcome A) : bool :=
  match m with Ok _ => true | Fault _ => false end.

(** ** Machine integers: unsigned wrap-around and the signed views *)
Definition wrap (w x : Z) : Z := x mod 2 ^ w.
Abbreviation u8 := (wrap 8).
Abbreviation u16 := (wrap 16).
Abbreviation u32 := (wrap 32).

(** Two's complement reading of a [w]-bit pattern ([int], [char] on the
    supported platforms). *)
Definition signed (w x : Z) : Z :=
  let y := wrap w x in if y <? 2 ^ (w - 1) then y else y - 2 ^ w.

Definition in_u (w x : Z) : Prop := 0 <= x < 2 ^ w.
#[global] Instance in_u_dec w x : Decision (in_u w x).
Proof. unfold in_u. apply _. Defined.

(** ** Memory bytes

    Multi-byte loads on the little-endian hosts the server is built for, and
    network-order loads ([ntohs], [ntohl] of a packed field). *)
Definition le_bytes32 (x : Z) : list Z :=
  [ x mod 256; (x / 2 ^ 8) mod 256; (x / 2 ^ 16) mod 256; (x / 2 ^ 24) mod 256 ].
Definition le_load32 (bs : list Z) : Z :=
  match bs with
  | b0 :: b1 :: b2 :: b3 :: _ => b0 + 2 ^ 8 * b1 + 2 ^ 16 * b2 + 2 ^ 24 * b3
  | _ => 0
  end.
(** [ntohl] / [htonl] on a little-endian host. *)
Definition ntohl (x : Z) : Z :=
  match le_bytes32 x with
  | [b0; b1; b2; b3] => b3 + 2 ^ 8 * b2 + 2 ^ 16 * b1 + 2 ^ 24 * b0
  | _ => 0
  end.
(** [ntohs] / [htons] on a little-endian host. *)
Definition ntohs (x : Z) : Z := (x / 2 ^ 8) mod 256 + 2 ^ 8 * (x mod 256).

(** Bounds-checked read of an array element. *)
Definition arr_get {A} (l : list A) (i : nat) : outcome A :=
  match l !! i with Some x => Ok x | None => Fault OutOfBounds end.

(** Dereference of a heap object: a heap maps the addresses of live objects to
    their contents. *)
Definition deref {A} (heap : gmap positive A) (p : positive) : outcome A :=
  match heap !! p with Some x => Ok x | None => Fault UseAfterDestroy end.

(** Bounds-checked byte reads of a memory area. *)
Definition read8 (mem : list Z) (off : nat) : outcome Z :=
  match mem !! off with Some b => Ok b | None => Fault OutOfBounds end.
Definition read16be (mem : list Z) (off : nat) : outcome Z :=
  hi ← read8 mem off; lo ← read8 mem (S off); Ok (2 ^ 8 * hi + lo).
Definition read32be (mem : list Z) (off : nat) : outcome Z :=
  hi ← read16be mem off; lo ← read16be mem (S (S off)); Ok (2 ^ 16 * hi + lo).
Definition read_bytes (mem : list Z) (off len : nat) : outcome (list Z) :=
  if decide (off + len <= length mem)%nat then Ok (take len (drop off mem))
  else Fault OutOfBounds.

(** Bounds-checked write: [memcpy] to an offset of an allocated area. *)
Definition write_bytes (mem : list Z) (off : nat) (bs : list Z) : outcome (list Z) :=
  if decide (off + length bs <= length mem)%nat then Ok (take off mem ++ bs ++ drop (off + length bs) mem)
  else Fault BufferOverflow.

(** [memcmp] of two areas of the same length: the sign of the first
    difference. *)
Fixpoint memcmp (a b : list Z) : Z :=
  match a, b with
  | x :: a', y :: b' => if x =? y then memcmp a' b' else x - y
  | _, _ => 0
  end.

(** ** Formatting: the conversions of [sprintf] the code uses *)
Definition ascii_code (c : Ascii.ascii) : Z := Z.of_nat (Ascii.nat_of_ascii c).
(** A digit of "%X": '0'..'9', 'A'..'F'. *)
Definition hex_digit (d : Z) : Z := if d <? 10 then 48 + d else 55 + d.
Definition hex2 (b : Z) : list Z := [hex_digit ((b / 16) mod 16); hex_digit (b mod 16)].
(** "%08X" of a 32-bit value. *)
Definition hex8 (x : Z) : list Z :=
  hex2 (x / 2 ^ 24) ++ hex2 (x / 2 ^ 16) ++ hex2 (x / 2 ^ 8) ++ hex2 x.
(** "%02X" of an [unsigned int]: at least two digits. *)
Definition fmt_02X (x : Z) : list Z :=
  if x <? 2 ^ 8 then hex2 x
  else if x <? 2 ^ 12 then hex_digit ((x / 2 ^ 8) mod 16) :: hex2 x
  else if x <? 2 ^ 16 then hex2 (x / 2 ^ 8) ++ hex2 x
  else if x <? 2 ^ 20 then hex_digit ((x / 2 ^ 16) mod 16) :: hex2 (x / 2 ^ 8) ++ hex2 x
  else if x <? 2 ^ 24 then hex2 (x / 2 ^ 16) ++ hex2 (x / 2 ^ 8) ++ hex2 x
  else if x <? 2 ^ 28 then
    hex_digit ((x / 2 ^ 24) mod 16) :: hex2 (x / 2 ^ 16) ++ hex2 (x / 2 ^ 8) ++ hex2 x
  else hex8 x.

(** "%d" of an [int]: a C string is the list of its character codes without
    the terminating NUL.  Ten digits are enough for any 32-bit value. *)
Fixpoint dec_digits (fuel : nat) (x : Z) : list Z :=
  match fuel with
  | O => []
  | S n => if x <? 10 then [48 + x] else dec_digits n (x / 10) ++ [48 + x mod 10]
  end.
Definition fmt_d (x : Z) : list Z :=
  if x <? 0 then 45 :: dec_digits 10 (- x) else dec_digits 10 x.
(** [sprintf(buf, "%d", x)] into a buffer of [size] bytes: the C string, when
    it and its NUL fit. *)
Definition sprintf_d (size : nat) (x : Z) : outcome (list Z) :=
  if decide (length (fmt_d (signed 32 x)) < size)%nat then Ok (fmt_d (signed 32 x))
  else Fault BufferOverflow.

(** The decimal value of a digit string. *)
Definition dec_value (ds : list Z) : Z := fold_left (fun a d => 10 * a + (d - 48)) ds 0.

(** ** Results that are known to exist

    [returns m Q]: the function has a result, and it satisfies [Q]. *)
Definition returns {A} (m : outcome A) (Q : A -> Prop) : Prop := exists a, m = Ok a /\ Q a.
Lemma returns_Ok {A} (a : A) (Q : A -> Prop) : Q a -> returns (Ok a) Q.
Proof. intros HQ. by exists a. Qed.
Lemma returns_bind {A B} (m : outcome A) (k : A -> outcome B) (P : A -> Prop) (Q : B -> Prop) :
  returns m P -> (forall a, P a -> returns (k a) Q) -> returns (mbind k m) Q.
Proof. intros (a & -> & Ha) Hk. by apply Hk. Qed.
Lemma returns_mono {A} (m : outcome A) (P Q : A -> Prop) : returns m P -> (forall a, P a -> Q a) -> returns m Q.
Proof. intros (a & Hm & Ha) HPQ. exists a. auto. Qed.

(** ** Automation *)
Ltac simpl_outcome :=
  repeat (progress (cbn [mbind outcome_bind mret outcome_ret fmap outcome_fmap] in *)).

(** Case analysis of the monadic hypothesis [H : (x ← m; k) = Ok r]. *)
Ltac bind_inv H :=
  lazymatch type of H with
  | mbind _ ?m = Ok _ =>
      let E := fresh "E" in
      destruct m eqn:E; [cbn [mbind outcome_bind] in H | discriminate H]
  end.

(** Case analysis on every integer comparison in the goal. *)
Ltac eqb_cases :=
  repeat match goal with
  | |- context [?x =? ?y] => destruct (Z.eqb_spec x y); cbn [negb andb orb]
  end.

Create HintDb srx.
Create Rewrite HintDb srx.

(** Linear arithmetic with division and modulo by constants. *)
Ltac zdiv := Z.to_euclidean_division_equations; lia.

(** ** Lemmas: outcomes *)
Lemma bind_Ok {A B} (m : outcome A) (f : A -> outcome B) r :
  (m ≫= f) = Ok r <-> exists a, m = Ok a /\ f a = Ok r.
Proof. destruct m; simpl; naive_solver. Qed.

Lemma arr_get_Ok {A} `{Inhabited A} (l : list A) i :
  (i < length l)%nat -> arr_get l i = Ok (l !!! i).
Proof. intros Hi. unfold arr_get. by rewrite (list_lookup_lookup_total_lt l i Hi). Qed.

(** ** Lemmas: lists *)
Lemma list_filter_all {A} (P : A -> Prop) `{forall x, Decision (P x)} l :
  Forall P l -> filter P l = l.
Proof. induction 1 as [|x l Hx _ IH]; [done|]. by rewrite filter_cons_True, IH by done. Qed.

Lemma lookup_middle {A} (pre : list A) x l : (pre ++ x :: l) !! length pre = Some x.
Proof. rewrite lookup_app_r by lia. by rewrite Nat.sub_diag. Qed.

Lemma insert_middle {A} (pre : list A) x y l : <[length pre := y]> (pre ++ x :: l) = pre ++ y :: l.
Proof. rewrite insert_app_r_alt by lia. by rewrite Nat.sub_diag. Qed.

Lemma sublist_fmap {A B} (f : A -> B) (l k : list A) : l `sublist_of` k -> f <$> l `sublist_of` f <$> k.
Proof. induction 1; cbn; by constructor. Qed.

(** ** Lemmas: machine integers *)
Lemma wrap_small w x : in_u w x -> wrap w x = x.
Proof. intros H. by apply Z.mod_small. Qed.

Lemma wrap_in_u w x : 0 <= w -> in_u w (wrap w x).
Proof. intros H. apply Z.mod_pos_bound. by apply Z.pow_pos_nonneg. Qed.

Lemma signed_small w x : 0 <= x < 2 ^ (w - 1) -> 1 <= w -> signed w x = x.
Proof.
  intros H Hw. assert (2 ^ w = 2 * 2 ^ (w - 1)) as E.
  { rewrite <- Z.pow_succ_r by lia. f_equal. lia. }
  unfold signed. rewrite wrap_small by (unfold in_u; lia).
  destruct (Z.ltb_spec x (2 ^ (w - 1))); lia.
Qed.
#[export] Hint Rewrite wrap_small signed_small using (unfold in_u; lia) : srx.
#[export] Hint Resolve wrap_in_u : srx.

(** ** Lemmas: bytes *)
Lemma length_le_bytes32 x : length (le_bytes32 x) = 4%nat.
Proof. reflexivity. Qed.

Lemma le_load_bytes32 x : in_u 32 x -> le_load32 (le_bytes32 x) = x.
Proof. unfold in_u, le_load32, le_bytes32. intros. zdiv. Qed.

Lemma le_bytes32_inj x y : in_u 32 x -> in_u 32 y -> le_bytes32 x = le_bytes32 y -> x = y.
Proof. intros Hx Hy H. by rewrite <- (le_load_bytes32 x), H, le_load_bytes32. Qed.

Lemma ntohl_involutive x : in_u 32 x -> ntohl (ntohl x) = x.
Proof. unfold in_u, ntohl, le_bytes32. intros. zdiv. Qed.

(** Filling a zeroed area from the left. *)
Lemma write_bytes_zeros pre k bs :
  (length bs <= k)%nat ->
  write_bytes (pre ++ replicate k 0) (length pre) bs = Ok ((pre ++ bs) ++ replicate (k - length bs) 0).
Proof.
  intros Hk. unfold write_bytes. rewrite length_app, length_replicate, decide_True by lia.
  by rewrite take_app_length, drop_app_add, drop_replicate, (assoc_L (++)).
Qed.

Lemma write_bytes_overflow mem off bs :
  (length mem < off + length bs)%nat -> write_bytes mem off bs = Fault BufferOverflow.
Proof. intros H. unfold write_bytes. by rewrite decide_False by lia. Qed.

Lemma write_bytes_length mem off bs mem' : write_bytes mem off bs = Ok mem' -> length mem' = length mem.
Proof.
  unfold write_bytes. destruct (decide _); [|done]. intros [= <-].
  rewrite !length_app, length_take, length_drop. lia.
Qed.

(** ** Lemmas: [memcmp] is a total order on areas of one length *)
Lemma memcmp_refl a : memcmp a a = 0.
Proof. induction a as [|x a IH]; simpl; [done|]. by rewrite Z.eqb_refl. Qed.

Lemma memcmp_0 a b : length a = length b -> memcmp a b = 0 -> a = b.
Proof.
  revert b. induction a as [|x a IH]; intros [|y b] Hl H; simplify_eq/=; [done|].
  destruct (Z.eqb_spec x y); [|lia]. f_equal; auto.
Qed.

Lemma memcmp_0_iff a b : length a = length b -> memcmp a b = 0 <-> a = b.
Proof. split; [by apply memcmp_0|intros ->; apply memcmp_refl]. Qed.

Lemma memcmp_antisym a b : memcmp b a = - memcmp a b.
Proof.
  revert b. induction a as [|x a IH]; intros [|y b]; simpl; [done..|].
  destruct (Z.eqb_spec x y), (Z.eqb_spec y x); try lia. apply IH.
Qed.

Lemma memcmp_trans a b c :
  length a = length b -> memcmp a b < 0 -> memcmp b c < 0 -> memcmp a c < 0.
Proof.
  revert b c. induction a as [|x a IH]; intros [|y b] [|z c] Hl H1 H2; simplify_eq/=;
    try lia.
  destruct (Z.eqb_spec x y), (Z.eqb_spec y z), (Z.eqb_spec x z); subst; try lia.
  eapply IH; eauto.
Qed.

(** ** Lemmas: decimal formatting *)
Lemma dec_digits_digit n x : 0 <= x -> Forall (fun d => 48 <= d <= 57) (dec_digits n x).
Proof.
  revert x. induction n as [|n IH]; intros x Hx; simpl; [by constructor|].
  destruct (Z.ltb_spec x 10).
  - repeat constructor; lia.
  - apply Forall_app; split; [apply IH; zdiv|repeat constructor; zdiv].
Qed.

Lemma dec_value_digits n x : 0 <= x < 10 ^ Z.of_nat n -> dec_value (dec_digits n x) = x.
Proof.
  revert x. induction n as [|n IH]; intros x Hx; [by assert (x = 0) as -> by (simpl in Hx; lia)|].
  rewrite Nat2Z.inj_succ, Z.pow_succ_r in Hx by lia. cbn [dec_digits].
  destruct (Z.ltb_spec x 10).
  - change (dec_value [48 + x]) with (10 * 0 + (48 + x - 48)). lia.
  - unfold dec_value. rewrite fold_left_app. fold (dec_value (dec_digits n (x / 10))).
    rewrite IH by zdiv. cbn [fold_left]. zdiv.
Qed.

Lemma dec_digits_length n k x :
  (1 <= k <= n)%nat -> 0 <= x < 10 ^ Z.of_nat k -> (1 <= length (dec_digits n x) <= k)%nat.
Proof.
  revert k x. induction n as [|n IH]; intros k x Hk Hx; [lia|]. cbn [dec_digits].
  destruct (Z.ltb_spec x 10); [simpl; lia|].
  rewrite length_app. simpl (length [_]).
  destruct k as [|[|k]]; [lia|simpl in Hx; lia|].
  rewrite Nat2Z.inj_succ, Z.pow_succ_r in Hx by lia.
  specialize (IH (S k) (x / 10)).
  assert (0 <= x / 10 < 10 ^ Z.of_nat (S k)) by zdiv. lia.
Qed.

Lemma dec_digits_length_ge n k x :
  (k < n)%nat -> 10 ^ Z.of_nat k <= x -> (k < length (dec_digits n x))%nat.
Proof.
  revert k x. induction n as [|n IH]; intros k x Hk Hx; [lia|]. cbn [dec_digits].
  destruct k as [|k].
  - destruct (x <? 10); [simpl; lia|]. rewrite length_app. simpl. lia.
  - rewrite Nat2Z.inj_succ, Z.pow_succ_r in Hx by lia.
    assert (0 < 10 ^ Z.of_nat k) by (apply Z.pow_pos_nonneg; lia).
    destruct (Z.ltb_spec x 10); [nia|].
    rewrite length_app. simpl (length [_]).
    specialize (IH k (x / 10)). assert (10 ^ Z.of_nat k <= x / 10) by zdiv. lia.
Qed.

Lemma fmt_d_nonneg x : 0 <= x -> fmt_d x = dec_digits 10 x.
Proof. intros. unfold fmt_d. by destruct (Z.ltb_spec x 0); [lia|]. Qed.

Lemma fmt_d_digit x : 0 <= x -> Forall (fun d => 48 <= d <= 57) (fmt_d x).
Proof. intros. rewrite fmt_d_nonneg by done. by apply dec_digits_digit. Qed.

Lemma fmt_d_inj x y :
  0 <= x < 10 ^ 10 -> 0 <= y < 10 ^ 10 -> fmt_d x = fmt_d y -> x = y.
Proof.
  intros Hx Hy H. rewrite !fmt_d_nonneg in H by lia.
  rewrite <- (dec_value_digits 10 x), <- (dec_value_digits 10 y) by (simpl; lia).
  by rewrite H.
Qed.

(** The buffer is large enough exactly when the number has fewer digits than
    bytes. *)
Lemma sprintf_d_ok (k : nat) x :
  (1 <= k <= 9)%nat -> 0 <= x < 10 ^ Z.of_nat k -> sprintf_d (S k) x = Ok (fmt_d x).
Proof.
  intros Hk Hx. assert (10 ^ Z.of_nat k <= 10 ^ 9) by (apply Z.pow_le_mono_r; lia).
  unfold sprintf_d. rewrite signed_small by lia.
  rewrite decide_True; [done|]. rewrite fmt_d_nonneg by lia.
  pose proof (dec_digits_length 10 k x). lia.
Qed.

Lemma sprintf_d_overflow (k : nat) x :
  (k <= 9)%nat -> 10 ^ Z.of_nat k <= x < 2 ^ 31 -> sprintf_d (S k) x = Fault BufferOverflow.
Proof.
  intros Hk Hx. assert (0 < 10 ^ Z.of_nat k) by (apply Z.pow_pos_nonneg; lia).
  unfold sprintf_d. rewrite signed_small by lia.
  rewrite decide_False; [done|]. rewrite fmt_d_nonneg by lia.
  pose proof (dec_digits_length_ge 10 k x). lia.
Qed.
