(* ===== verification/Bytes.v ===== *)
(** * Fields of network packets

    Numbers in network order as the octets of a packet, loads of fields in the
    byte order of the host, and the octets at an offset of an area. *)
From S2P Require Import Prelude.

Definition be16 (x : Z) : list Z := [x / 2 ^ 8; x mod 2 ^ 8].
Definition be32 (x : Z) : list Z := be16 (x / 2 ^ 16) ++ be16 (x mod 2 ^ 16).

(** Loads in the byte order of the host, without [ntohs] and [ntohl]. *)
Definition read16le (mem : list Z) (off : nat) : outcome Z :=
  lo ← read8 mem off; hi ← read8 mem (S off); Ok (lo + 2 ^ 8 * hi).
Definition read32le (mem : list Z) (off : nat) : outcome Z :=
  bs ← read_bytes mem off 4; Ok (le_load32 bs).
(** A 16-bit number as the host stores it. *)
Definition le_bytes16 (x : Z) : list Z := [x mod 256; (x / 256) mod 256].

(** ** Loads behind a known part *)
Lemma read8_at pre x l off : off = length pre -> read8 (pre ++ x :: l) off = Ok x.
Proof. intros ->. unfold read8. by rewrite lookup_middle. Qed.

Lemma read16be_at pre x l off : off = length pre -> read16be (pre ++ be16 x ++ l) off = Ok x.
Proof.
  intros ->. unfold read16be, be16. cbn [app].
  rewrite (read8_at _ _ _ (length pre)) by done. simpl_outcome.
  rewrite (cons_middle (x / 2 ^ 8)), (assoc_L (++)), read8_at by (rewrite length_app; cbn [length]; lia).
  simpl_outcome. f_equal. zdiv.
Qed.

Lemma read32be_at pre x l off : off = length pre -> read32be (pre ++ be32 x ++ l) off = Ok x.
Proof.
  intros ->. unfold read32be, be32. rewrite <- (assoc_L (++)).
  rewrite (read16be_at _ _ _ (length pre)) by done. simpl_outcome.
  rewrite (assoc_L (++)), read16be_at by (rewrite length_app; simpl; lia). simpl_outcome.
  f_equal. zdiv.
Qed.

Lemma read_bytes_at pre s l off n :
  off = length pre -> n = length s -> read_bytes (pre ++ s ++ l) off n = Ok s.
Proof.
  intros -> ->. unfold read_bytes. rewrite !length_app, decide_True by lia.
  by rewrite drop_app_length, take_app_length.
Qed.

(** ** Bytes at an offset of an area *)
Definition bytes_at (mem : list Z) (off : nat) (bs : list Z) : Prop :=
  (off + length bs <= length mem)%nat /\ take (length bs) (drop off mem) = bs.

Lemma bytes_at_app mem off a b :
  bytes_at mem off (a ++ b) <-> bytes_at mem off a /\ bytes_at mem (off + length a) b.
Proof.
  unfold bytes_at. rewrite length_app. split.
  - intros [Hl E]. rewrite <- (take_drop (length a) (drop off mem)), take_app, drop_drop in E.
    rewrite !length_take, !length_drop in E.
    replace (length a + length b - _)%nat with (length b) in E by lia.
    rewrite firstn_all2 in E by (rewrite length_take, length_drop; lia).
    apply app_inj_1 in E as [E1 E2]; [|rewrite length_take, length_drop; lia].
    repeat split; try lia; done.
  - intros [[Hl1 E1] [Hl2 E2]]. split; [lia|].
    rewrite <- (take_drop (length a) (drop off mem)), take_app, drop_drop, length_take, length_drop.
    replace (length a + length b - _)%nat with (length b) by lia.
    rewrite firstn_all2 by (rewrite length_take, length_drop; lia). by rewrite E1, E2.
Qed.

Lemma bytes_at_middle pre bs l off : off = length pre -> bytes_at (pre ++ bs ++ l) off bs.
Proof.
  intros ->. split; [rewrite !length_app; lia|]. by rewrite drop_app_length, take_app_length.
Qed.

Lemma bytes_at_refl bs : bytes_at bs 0 bs.
Proof. split; [done|]. by rewrite drop_0, firstn_all. Qed.

Lemma read_bytes_bytes_at mem off bs n : bytes_at mem off bs -> n = length bs -> read_bytes mem off n = Ok bs.
Proof. intros [Hl E] ->. unfold read_bytes. by rewrite decide_True, E by done. Qed.

Lemma read8_bytes_at mem off x : bytes_at mem off [x] -> read8 mem off = Ok x.
Proof.
  intros [Hl E]. unfold read8. cbn [length] in *.
  destruct (drop off mem) as [|y t] eqn:Ed; [done|]. injection E as ->.
  by rewrite <- (Nat.add_0_r off), <- lookup_drop, Ed.
Qed.

Lemma read16be_bytes_at mem off x : bytes_at mem off (be16 x) -> read16be mem off = Ok x.
Proof.
  unfold be16. intros H. change [x / 2 ^ 8; x mod 2 ^ 8] with ([x / 2 ^ 8] ++ [x mod 2 ^ 8]) in H.
  apply bytes_at_app in H as [H1 H2]. cbn [length] in H2. rewrite Nat.add_1_r in H2.
  unfold read16be. rewrite (read8_bytes_at _ _ _ H1). cbn [mbind outcome_bind].
  rewrite (read8_bytes_at _ _ _ H2). cbn [mbind outcome_bind]. f_equal. zdiv.
Qed.

Lemma read32be_bytes_at mem off x : bytes_at mem off (be32 x) -> read32be mem off = Ok x.
Proof.
  unfold be32. intros [H1 H2]%bytes_at_app. cbn [length be16] in H2.
  replace (off + 2)%nat with (S (S off)) in H2 by lia.
  unfold read32be. rewrite (read16be_bytes_at _ _ _ H1). cbn [mbind outcome_bind].
  rewrite (read16be_bytes_at _ _ _ H2). cbn [mbind outcome_bind]. f_equal. zdiv.
Qed.

Lemma read16le_bytes_at mem off x : in_u 16 x -> bytes_at mem off (le_bytes16 x) -> read16le mem off = Ok x.
Proof.
  unfold le_bytes16, in_u. intros Hx H.
  change [x mod 256; (x / 256) mod 256] with ([x mod 256] ++ [(x / 256) mod 256]) in H.
  apply bytes_at_app in H as [H1 H2]. cbn [length] in H2. rewrite Nat.add_1_r in H2.
  unfold read16le. rewrite (read8_bytes_at _ _ _ H1). cbn [mbind outcome_bind].
  rewrite (read8_bytes_at _ _ _ H2). cbn [mbind outcome_bind]. f_equal. zdiv.
Qed.

Lemma read32le_bytes_at mem off x : in_u 32 x -> bytes_at mem off (le_bytes32 x) -> read32le mem off = Ok x.
Proof.
  intros Hx H. unfold read32le. rewrite (read_bytes_bytes_at _ _ _ _ H) by done. cbn [mbind outcome_bind].
  by rewrite le_load_bytes32.
Qed.

(** * Flags (quagga-srx/lib/zebra.h)

    The macros the router tests and changes bits with, and their laws: a flag of
    one bit behaves like a boolean, independent of the other bits. *)

(** [CHECK_FLAG] is true when any of the bits is set. *)
Definition CHECK_FLAG (v f : Z) : bool := negb (Z.land v f =? 0).
Definition SET_FLAG (v f : Z) : Z := Z.lor v f.
Definition UNSET_FLAG (v f : Z) : Z := Z.land v (Z.lnot f).

Lemma testbit_pow2 k i : 0 <= k -> Z.testbit (2 ^ k) i = bool_decide (i = k).
Proof. intros Hk. rewrite Z.pow2_bits_eqb by done. destruct (Z.eqb_spec k i); case_bool_decide; congruence || done. Qed.

Lemma CHECK_FLAG_bit v k : 0 <= k -> CHECK_FLAG v (2 ^ k) = Z.testbit v k.
Proof.
  intros Hk. unfold CHECK_FLAG. destruct (Z.testbit v k) eqn:E.
  - destruct (Z.eqb_spec (Z.land v (2 ^ k)) 0) as [H|]; [|done]. exfalso.
    assert (Z.testbit (Z.land v (2 ^ k)) k = false) as H' by (by rewrite H, Z.bits_0).
    rewrite Z.land_spec, E, testbit_pow2, bool_decide_eq_true_2 in H' by done. done.
  - assert (Z.land v (2 ^ k) = 0) as ->; [|done]. apply Z.bits_inj'. intros i Hi.
    rewrite Z.land_spec, Z.bits_0, testbit_pow2 by done. case_bool_decide; [by subst; rewrite E|apply andb_false_r].
Qed.

(** Several flags at once. *)
Lemma CHECK_FLAG_lor v f g : CHECK_FLAG v (Z.lor f g) = CHECK_FLAG v f || CHECK_FLAG v g.
Proof.
  unfold CHECK_FLAG. rewrite Z.land_lor_distr_r. rewrite <- negb_andb. f_equal.
  destruct (Z.eqb_spec (Z.land v f) 0) as [->|H]; [by rewrite Z.lor_0_l|]. cbn [andb].
  apply Z.eqb_neq. intros E. by apply Z.lor_eq_0_iff in E as [? _].
Qed.
Lemma CHECK_FLAG_0 f : CHECK_FLAG 0 f = false.
Proof. unfold CHECK_FLAG. by rewrite Z.land_0_l. Qed.

Lemma testbit_SET_FLAG v k i : 0 <= k -> Z.testbit (SET_FLAG v (2 ^ k)) i = Z.testbit v i || bool_decide (i = k).
Proof. intros Hk. unfold SET_FLAG. by rewrite Z.lor_spec, testbit_pow2. Qed.
Lemma testbit_UNSET_FLAG v k i : 0 <= k -> 0 <= i -> Z.testbit (UNSET_FLAG v (2 ^ k)) i = Z.testbit v i && negb (bool_decide (i = k)).
Proof. intros Hk Hi. unfold UNSET_FLAG. by rewrite Z.land_spec, Z.lnot_spec, testbit_pow2. Qed.

Lemma testbit_wrap w v i : 0 <= w -> i < w -> Z.testbit (wrap w v) i = Z.testbit v i.
Proof. intros Hw Hi. by apply Z.mod_pow2_bits_low. Qed.

(** Numbers of one width that agree on the bits of the width. *)
Lemma bits_ext w a b : 0 <= w -> in_u w a -> in_u w b -> (forall i, 0 <= i < w -> Z.testbit a i = Z.testbit b i) -> a = b.
Proof.
  intros Hw Ha Hb H. apply Z.bits_inj'. intros i Hi. destruct (decide (i < w)); [by apply H|].
  rewrite <- (wrap_small w a Ha), <- (wrap_small w b Hb). unfold wrap. by rewrite !Z.mod_pow2_bits_high by lia.
Qed.

(** Reading a flag after setting or clearing one. *)
Lemma CHECK_SET v k i : 0 <= k -> 0 <= i -> CHECK_FLAG (SET_FLAG v (2 ^ k)) (2 ^ i) = CHECK_FLAG v (2 ^ i) || bool_decide (i = k).
Proof. intros Hk Hi. by rewrite !CHECK_FLAG_bit, testbit_SET_FLAG. Qed.
Lemma CHECK_UNSET v k i : 0 <= k -> 0 <= i -> CHECK_FLAG (UNSET_FLAG v (2 ^ k)) (2 ^ i) = CHECK_FLAG v (2 ^ i) && negb (bool_decide (i = k)).
Proof. intros Hk Hi. by rewrite !CHECK_FLAG_bit, testbit_UNSET_FLAG. Qed.
