(* ===== verification/Lists.v ===== *)
(** * Sums over lists and finite maps

    Counters of the prefix cache are sums over the objects it holds. *)
From S2P Require Import Prelude.

Definition zsum {A} (f : A -> Z) (l : list A) : Z := foldr (fun x acc => f x + acc) 0 l.

Section zsum.
Context {A : Type}.
Implicit Types (f g : A -> Z) (l : list A).

Lemma zsum_cons f x l : zsum f (x :: l) = f x + zsum f l.
Proof. done. Qed.

Lemma zsum_app f l k : zsum f (l ++ k) = zsum f l + zsum f k.
Proof. induction l as [|x l IH]; simpl; [done|]. unfold zsum in *. rewrite IH. lia. Qed.

Lemma zsum_ext f g l : (forall x, x ∈ l -> f x = g x) -> zsum f l = zsum g l.
Proof.
  induction l as [|x l IH]; [done|]. intros E. rewrite !zsum_cons, IH, E; [done|by left|].
  intros y Hy. apply E. by right.
Qed.

Lemma zsum_le f g l : (forall x, x ∈ l -> f x <= g x) -> zsum f l <= zsum g l.
Proof.
  induction l as [|x l IH]; [done|]. intros E. rewrite !zsum_cons.
  assert (f x <= g x) by (apply E; by left). assert (zsum f l <= zsum g l); [|lia].
  apply IH. intros y Hy. apply E. by right.
Qed.

Lemma zsum_plus f g l : zsum (fun x => f x + g x) l = zsum f l + zsum g l.
Proof. induction l as [|x l IH]; [done|]. rewrite !zsum_cons, IH. lia. Qed.

Lemma zsum_0 l : zsum (fun _ => 0) l = 0.
Proof. induction l as [|x l IH]; [done|]. by rewrite zsum_cons, IH. Qed.

Lemma zsum_nonneg f l : (forall x, x ∈ l -> 0 <= f x) -> 0 <= zsum f l.
Proof. intros E. rewrite <- (zsum_0 l). by apply zsum_le. Qed.

Lemma zsum_Permutation f l k : l ≡ₚ k -> zsum f l = zsum f k.
Proof. induction 1 as [|x l k _ IH|x y l|l k m _ IH1 _ IH2]; rewrite ?zsum_cons; lia. Qed.

Lemma zsum_elem f l x : (forall y, y ∈ l -> 0 <= f y) -> x ∈ l -> f x <= zsum f l.
Proof.
  intros Hf. induction l as [|y l IH]; intros Hx; [by apply elem_of_nil in Hx|]. rewrite zsum_cons.
  assert (0 <= zsum f l) by (apply zsum_nonneg; intros z Hz; apply Hf; by right).
  apply elem_of_cons in Hx as [->|Hx]; [lia|]. assert (0 <= f y) by (apply Hf; by left).
  assert (f x <= zsum f l); [|lia]. apply IH; [|done]. intros z Hz. apply Hf. by right.
Qed.

(** A positive sum has a positive term. *)
Lemma zsum_pos f l : 0 < zsum f l -> exists x, x ∈ l /\ 0 < f x.
Proof.
  induction l as [|x l IH]; [done|]. rewrite zsum_cons. intros Hs.
  destruct (Z.ltb_spec 0 (f x)); [exists x; by split; [left|]|].
  destruct IH as (y & Hy & ?); [lia|]. exists y. by split; [right|].
Qed.

Lemma zsum_insert f l i x y : l !! i = Some x -> zsum f (<[i := y]> l) = zsum f l - f x + f y.
Proof.
  revert i. induction l as [|z l IH]; intros [|i] E; simplify_eq/=; [lia|].
  fold (zsum f (<[i := y]> l)) (zsum f l). rewrite (IH i E). lia.
Qed.

Lemma zsum_delete f l i x : l !! i = Some x -> zsum f (delete i l) = zsum f l - f x.
Proof.
  revert i. induction l as [|z l IH]; intros [|i] E; simplify_eq/=; [lia|].
  fold (zsum f (delete i l)) (zsum f l). rewrite (IH i E). lia.
Qed.
End zsum.

Lemma zsum_fmap {A B} (f : B -> Z) (g : A -> B) l : zsum f (g <$> l) = zsum (fun x => f (g x)) l.
Proof. induction l as [|x l IH]; [done|]. by rewrite fmap_cons, !zsum_cons, IH. Qed.

Lemma zsum_bind {A B} (f : B -> Z) (g : A -> list B) l :
  zsum f (l ≫= g) = zsum (fun x => zsum f (g x)) l.
Proof. induction l as [|x l IH]; [done|]. by rewrite bind_cons, zsum_app, zsum_cons, IH. Qed.

(** ** Sums over a finite map *)
Definition map_zsum {K A} `{Countable K} (f : K -> A -> Z) (m : gmap K A) : Z :=
  zsum (fun '(k, x) => f k x) (map_to_list m).

Section map_zsum.
Context {K A : Type} `{Countable K}.
Implicit Types (f g : K -> A -> Z) (m : gmap K A).

Lemma map_zsum_empty f : map_zsum f ∅ = 0.
Proof. unfold map_zsum. by rewrite map_to_list_empty. Qed.

Lemma map_zsum_insert f m k x : m !! k = None -> map_zsum f (<[k := x]> m) = f k x + map_zsum f m.
Proof.
  intros Hk. unfold map_zsum. by rewrite (zsum_Permutation _ _ _ (map_to_list_insert m k x Hk)).
Qed.

Lemma map_zsum_delete f m k x : m !! k = Some x -> map_zsum f (delete k m) = map_zsum f m - f k x.
Proof.
  intros Hk. rewrite <- (insert_delete_id m k x Hk) at 2.
  rewrite map_zsum_insert by apply lookup_delete_eq. lia.
Qed.

Lemma map_zsum_update f m k x y :
  m !! k = Some x -> map_zsum f (<[k := y]> m) = map_zsum f m - f k x + f k y.
Proof.
  intros Hk. rewrite <- insert_delete_eq. rewrite map_zsum_insert by apply lookup_delete_eq.
  rewrite (map_zsum_delete f m k x Hk). lia.
Qed.

Lemma map_zsum_ext f g m : (forall k x, m !! k = Some x -> f k x = g k x) -> map_zsum f m = map_zsum g m.
Proof. intros E. apply zsum_ext. intros [k x] Hk%elem_of_map_to_list. by apply E. Qed.

Lemma map_zsum_le f g m : (forall k x, m !! k = Some x -> f k x <= g k x) -> map_zsum f m <= map_zsum g m.
Proof. intros E. apply zsum_le. intros [k x] Hk%elem_of_map_to_list. by apply E. Qed.

Lemma map_zsum_plus f g m : map_zsum (fun k x => f k x + g k x) m = map_zsum f m + map_zsum g m.
Proof.
  unfold map_zsum. rewrite <- zsum_plus. apply zsum_ext. by intros [k x] _.
Qed.

Lemma map_zsum_0 m : map_zsum (fun _ _ => 0) m = 0.
Proof.
  transitivity (zsum (fun _ : K * A => 0) (map_to_list m)); [|by apply zsum_0].
  apply zsum_ext. by intros [k x] _.
Qed.

Lemma map_zsum_nonneg f m : (forall k x, m !! k = Some x -> 0 <= f k x) -> 0 <= map_zsum f m.
Proof. intros E. apply zsum_nonneg. intros [k x] Hk%elem_of_map_to_list. by apply E. Qed.

Lemma map_zsum_elem f m k x :
  (forall k x, m !! k = Some x -> 0 <= f k x) -> m !! k = Some x -> f k x <= map_zsum f m.
Proof.
  intros E Hk. apply (zsum_elem (fun '(k, x) => f k x) _ (k, x)); [|by apply elem_of_map_to_list].
  intros [k' x'] Hk'%elem_of_map_to_list. by apply E.
Qed.

Lemma map_zsum_pos f m : 0 < map_zsum f m -> exists k x, m !! k = Some x /\ 0 < f k x.
Proof. intros ([k x] & Hk%elem_of_map_to_list & Hx)%zsum_pos. by exists k, x. Qed.

End map_zsum.

(** Two maps with the same keys. *)
Lemma map_zsum_pointwise {K A B} `{Countable K} (f : K -> A -> Z) (g : K -> B -> Z) m (m' : gmap K B) :
  (forall k, match m !! k, m' !! k with
             | Some x, Some y => f k x = g k y | None, None => True | _, _ => False end) ->
  map_zsum f m = map_zsum g m'.
Proof.
  revert m'. induction m as [|k x m Hk IH] using map_ind; intros m' E.
  - assert (m' = ∅) as ->; [|by rewrite !map_zsum_empty].
    { apply map_empty. intros k. specialize (E k). rewrite lookup_empty in E. by destruct (m' !! k). }
  - pose proof (E k) as Ek. rewrite lookup_insert_eq in Ek. destruct (m' !! k) as [y|] eqn:Hy; [|done].
    rewrite map_zsum_insert by done. rewrite <- (insert_delete_id m' k y Hy).
    rewrite map_zsum_insert by apply lookup_delete_eq. rewrite Ek. f_equal. apply IH.
    intros k'. specialize (E k'). destruct (decide (k' = k)) as [->|Hne].
    + by rewrite Hk, lookup_delete_eq.
    + by rewrite lookup_insert_ne, lookup_delete_ne in * by done.
Qed.

(** * Sorted linked lists

    The SKI cache keeps its nodes, algorithm identifiers, key data and update
    registrations in linked lists sorted by a key, and walks each of them with
    the same find-or-insert scheme.  This file states the scheme once, for any
    comparison function with the laws of [KeyOrder], and proves what the walk
    promises. *)

(** A comparison in the style of [memcmp]: its sign orders the valid keys. *)
Class KeyOrder {K} (cmp : K -> K -> Z) (valid : K -> Prop) := {
  ko_eq a b : valid a -> valid b -> cmp a b = 0 <-> a = b;
  ko_antisym a b : cmp b a = - cmp a b;
  ko_trans a b c : valid a -> valid b -> valid c ->
    cmp a b < 0 -> cmp b c < 0 -> cmp a c < 0
}.

#[export] Instance sub_order : KeyOrder Z.sub (fun _ => True).
Proof. split; intros; lia. Qed.

Section sorted_list.
Context {A K : Type} `{EqDecision K} {cmp : K -> K -> Z} {valid : K -> Prop}.
Context `{!KeyOrder cmp valid} (key : A -> K).
Implicit Types (l : list A) (x y : A) (k : K).

(** The element with key [k]. *)
Fixpoint sl_get (k : K) (l : list A) : option A :=
  match l with
  | [] => None
  | x :: l' => if decide (key x = k) then Some x else sl_get k l'
  end.

(** The find-or-insert walk: the list, and the position of the element with key
    [k] if there is one (now). *)
Fixpoint sl_walk (create : bool) (new : A) (k : K) (l : list A) : list A * option nat :=
  match l with
  | [] => if create then ([new], Some O) else ([], None)
  | x :: l' =>
      if cmp k (key x) <? 0 then if create then (new :: l, Some O) else (l, None)
      else if cmp k (key x) =? 0 then (l, Some O)
      else let '(l'', p) := sl_walk create new k l' in (x :: l'', option_map S p)
  end.

Lemma sl_walk_cons create new k x l :
  sl_walk create new k (x :: l)
  = if cmp k (key x) <? 0 then if create then (new :: x :: l, Some O) else (x :: l, None)
    else if cmp k (key x) =? 0 then (x :: l, Some O)
    else let '(l'', p) := sl_walk create new k l in (x :: l'', option_map S p).
Proof. reflexivity. Qed.

Definition sl_lt (x y : A) : Prop := cmp (key x) (key y) < 0.
Definition sl_wf (l : list A) : Prop :=
  Forall (fun x => valid (key x)) l /\ StronglySorted sl_lt l.

Lemma sl_wf_nil : sl_wf [].
Proof. split; constructor. Qed.

Lemma sl_wf_cons x l :
  sl_wf (x :: l) <-> valid (key x) /\ Forall (sl_lt x) l /\ sl_wf l.
Proof.
  unfold sl_wf. rewrite Forall_cons. split.
  - intros [[Hv Hl] Hs]. apply StronglySorted_inv in Hs as [Hs Hx]. done.
  - intros (Hv & Hx & Hl & Hs). split; [done|]. by constructor.
Qed.

Lemma sl_get_Some k l x : sl_get k l = Some x -> key x = k /\ x ∈ l.
Proof.
  induction l as [|y l IH]; simpl; [done|]. rewrite elem_of_cons.
  intros H. case_decide; [simplify_eq; auto|destruct (IH H); auto].
Qed.

Lemma sl_get_None k l : sl_get k l = None <-> Forall (fun x => key x <> k) l.
Proof.
  induction l as [|y l IH]; simpl; [by split|]. rewrite Forall_cons.
  case_decide; [split; [done|by intros []]|]. rewrite IH. by split; [|intros []].
Qed.

(** Keys below the head are not in the list. *)
Lemma sl_get_below k l :
  valid k -> sl_wf l -> Forall (fun x => cmp k (key x) < 0) l -> sl_get k l = None.
Proof.
  intros Hk [Hv _] Hl. apply sl_get_None. rewrite Forall_forall in *. intros x Hx <-.
  specialize (Hl x Hx). simpl in Hl. assert (cmp (key x) (key x) = 0); [by apply ko_eq; auto|lia].
Qed.

Lemma sl_below_trans k x l :
  valid k -> sl_wf (x :: l) -> cmp k (key x) < 0 -> Forall (fun x => cmp k (key x) < 0) (x :: l).
Proof.
  intros Hk (Hv & Hx & [Hl _])%sl_wf_cons Hc. constructor; [done|].
  rewrite Forall_forall in *. intros y Hy. eapply ko_trans; [..|apply Hx]; eauto.
Qed.

Lemma sl_get_head x l : sl_wf (x :: l) -> sl_get (key x) l = None.
Proof.
  intros (Hv & Hx & Hl)%sl_wf_cons. by apply sl_get_below.
Qed.

Lemma sl_get_lookup l i x : sl_wf l -> l !! i = Some x -> sl_get (key x) l = Some x.
Proof.
  revert i. induction l as [|y l IH]; intros [|i] Hl H; simplify_eq/=.
  - by rewrite decide_True.
  - rewrite decide_False; [eapply IH; [|done]; by apply sl_wf_cons in Hl as (_ & _ & Hl)|].
    intros E. apply sl_get_head in Hl. rewrite E, sl_get_None, Forall_forall in Hl.
    by apply (Hl x); [eapply list_elem_of_lookup_2|].
Qed.

(** A property of every element, by key. *)
Lemma sl_Forall (P : A -> Prop) l :
  sl_wf l -> Forall P l <-> (forall k x, sl_get k l = Some x -> P x).
Proof.
  intros Hl. split.
  - rewrite Forall_forall. intros Hf k x [_ Hx]%sl_get_Some. auto.
  - intros Hg. apply Forall_lookup. intros i x Hi. eapply Hg. by eapply sl_get_lookup.
Qed.

(** What the walk promises. *)
Record walk_spec (create : bool) (new : A) (k : K) (l l' : list A) (p : option nat) : Prop := {
  ws_wf : sl_wf l';
  ws_get k' : sl_get k' l' = if decide (k' = k)
                             then match sl_get k l with
                                  | Some x => Some x
                                  | None => if create then Some new else None
                                  end
                             else sl_get k' l;
  ws_pos : (x ← p; l' !! x) = sl_get k l';
  ws_found : is_Some p <-> is_Some (sl_get k l');
  ws_frame : create = false -> l' = l
}.

Lemma sl_walk_spec create new k l :
  valid k -> key new = k -> sl_wf l ->
  walk_spec create new k l (sl_walk create new k l).1 (sl_walk create new k l).2.
Proof.
  intros Hk Hn. induction l as [|x l IH]; intros Hl; simpl.
  { destruct create; split; simpl; try done; try (by constructor); try naive_solver.
    - apply sl_wf_cons. rewrite Hn. split_and!; [done|constructor|apply sl_wf_nil].
    - intros k'. repeat case_decide; congruence.
    - by rewrite decide_True.
    - rewrite decide_True by done. by split.
    - intros k'. by case_decide. }
  destruct (Z.ltb_spec (cmp k (key x)) 0) as [Hlt|Hge].
  { pose proof (sl_get_below _ _ Hk Hl (sl_below_trans _ _ _ Hk Hl Hlt)) as Hno.
    destruct create; split; simpl in *; try done.
    - apply sl_wf_cons. rewrite Hn. split_and!; [done| |done].
      pose proof (sl_below_trans _ _ _ Hk Hl Hlt). unfold sl_lt. by rewrite Hn.
    - intros k'. rewrite Hno, Hn. repeat case_decide; congruence.
    - by rewrite decide_True.
    - rewrite decide_True by done. by split.
    - intros k'. rewrite Hno. repeat case_decide; congruence.
    - by rewrite Hno. }
  assert (valid (key x)) as Hvx by (by apply sl_wf_cons in Hl as [? _]).
  destruct (Z.eqb_spec (cmp k (key x)) 0) as [Heq|Hne].
  { apply (ko_eq k (key x) Hk Hvx) in Heq. subst k. split; simpl; try done.
    - rewrite decide_True by done. intros k'. repeat case_decide; congruence.
    - by rewrite decide_True.
    - rewrite decide_True by done. by split. }
  assert (key x <> k) as Hkx by (intros E; by apply Hne, (ko_eq k (key x) Hk Hvx)).
  pose proof Hl as (_ & Hx & Hl')%sl_wf_cons. destruct (IH Hl') as [W G P F R].
  destruct (sl_walk create new k l) as [l'' p]. simpl in *. split; simpl.
  - apply sl_wf_cons. split_and!; [done| |done].
    apply Forall_forall. intros y Hy. apply list_elem_of_lookup in Hy as [i Hi].
    pose proof (sl_get_lookup _ _ _ W Hi) as Hg. rewrite G in Hg. unfold sl_lt.
    destruct (decide (key y = k)) as [E|E].
    + rewrite E. pose proof (ko_antisym k (key x)). lia.
    + apply sl_get_Some in Hg as [_ Hg]. rewrite Forall_forall in Hx. by apply Hx.
  - intros k'. rewrite (decide_False (P := key x = k)) by done.
    destruct (decide (key x = k')) as [<-|]; [by rewrite decide_False by done|apply G].
  - rewrite decide_False by done. rewrite <- P. by destruct p.
  - rewrite decide_False by done. rewrite <- F, fmap_is_Some. done.
  - intros E. by rewrite R.
Qed.

(** Without [create] the walk finds the element that is there. *)
Lemma sl_walk_find new k l :
  valid k -> key new = k -> sl_wf l ->
  exists p, sl_walk false new k l = (l, p) /\ (x ← p; l !! x) = sl_get k l
            /\ (is_Some p <-> is_Some (sl_get k l)).
Proof.
  intros Hk Hn Hl. destruct (sl_walk_spec false new k l) as [W G P F R]; [done..|].
  destruct (sl_walk false new k l) as [l' p]. simpl in *. rewrite R in * by done. eauto.
Qed.

(** Replacing an element by one with the same key. *)
Lemma sl_get_insert k l i x y :
  sl_wf l -> l !! i = Some x -> key y = key x ->
  sl_get k (<[i := y]> l) = if decide (k = key x) then Some y else sl_get k l.
Proof.
  revert i. induction l as [|z l IH]; intros [|i] Hl H E; simplify_eq/=.
  - rewrite E. repeat case_decide; congruence.
  - assert (key z <> key x).
    { intros E'. pose proof (sl_get_head _ _ Hl) as Hn. apply sl_wf_cons in Hl as (_ & _ & Hl).
      rewrite E', (sl_get_lookup _ _ _ Hl H) in Hn. done. }
    apply sl_wf_cons in Hl as (_ & _ & Hl). rewrite IH by done. repeat case_decide; congruence.
Qed.

Lemma sl_wf_insert l i x y :
  sl_wf l -> l !! i = Some x -> key y = key x -> sl_wf (<[i := y]> l).
Proof.
  revert i. induction l as [|z l IH]; intros [|i] Hl H E; simplify_eq/=;
    apply sl_wf_cons in Hl as (Hv & Hx & Hl); apply sl_wf_cons.
  - unfold sl_lt. rewrite E. done.
  - split_and!; [done| |by eapply IH].
    apply Forall_insert; [done|]. unfold sl_lt. rewrite E.
    rewrite Forall_lookup in Hx. by apply (Hx i).
Qed.

(** Removing an element. *)
Lemma sl_get_delete k l i x :
  sl_wf l -> l !! i = Some x ->
  sl_get k (delete i l) = if decide (k = key x) then None else sl_get k l.
Proof.
  revert i. induction l as [|z l IH]; intros [|i] Hl H; simplify_eq/=.
  - case_decide; subst; [by apply sl_get_head|]. by rewrite decide_False by congruence.
  - assert (key z <> key x).
    { intros E'. pose proof (sl_get_head _ _ Hl) as Hn. apply sl_wf_cons in Hl as (_ & _ & Hl).
      rewrite E', (sl_get_lookup _ _ _ Hl H) in Hn. done. }
    apply sl_wf_cons in Hl as (_ & _ & Hl). specialize (IH i Hl H).
    rewrite IH. repeat case_decide; congruence.
Qed.

Lemma sl_wf_sublist l l' : sublist l' l -> sl_wf l -> sl_wf l'.
Proof.
  induction 1 as [|x l1 l2 Hs IH|x l1 l2 Hs IH]; [done| |]; rewrite ?sl_wf_cons; [|by intros (_ & _ & H); auto].
  intros (Hv & Hx & Hl). split_and!; [done| |auto].
  rewrite Forall_forall in *. intros y Hy. apply Hx.
  by apply (elem_of_sublist l1 l2).
Qed.

Lemma sl_wf_delete l i : sl_wf l -> sl_wf (delete i l).
Proof. apply sl_wf_sublist, sublist_delete. Qed.

(** Mapping and dropping elements, keys kept. *)
Lemma sl_omap (f : A -> option A) l :
  (forall x y, f x = Some y -> key y = key x) -> sl_wf l ->
  sl_wf (omap f l) /\ forall k, sl_get k (omap f l) = sl_get k l ≫= f.
Proof.
  intros Hf. induction l as [|x l IH]; intros Hl; [by split; [apply sl_wf_nil|]|].
  pose proof (sl_get_head _ _ Hl) as Hh. apply sl_wf_cons in Hl as (Hv & Hx & Hl).
  destruct (IH Hl) as [W G]. cbn [omap list_omap]. destruct (f x) as [y|] eqn:E.
  - pose proof (Hf _ _ E) as Ey. split.
    + apply sl_wf_cons. rewrite Ey. split_and!; [done| |done].
      apply Forall_forall. intros z (z' & Hz' & Ez)%list_elem_of_omap.
      unfold sl_lt. rewrite Ey, (Hf _ _ Ez). rewrite Forall_forall in Hx. by apply Hx.
    + intros k. cbn [sl_get]. rewrite Ey. destruct (decide (key x = k)); [by simpl; rewrite E|apply G].
  - split; [done|]. intros k. cbn [sl_get]. rewrite G.
    destruct (decide (key x = k)) as [<-|]; [|done]. by simpl; rewrite Hh, E.
Qed.
End sorted_list.
