(* ===== verification/Locks.v ===== *)
(** * Locks (util/rwlock.c, util/mutex.c, POSIX semaphores)

    The lock objects as one thread sees them: an operation either changes the
    lock state, blocks for ever because the calling thread already holds the
    lock ([Deadlock]), or touches a destroyed object ([UseAfterDestroy]). *)
From S2P Require Import Prelude.

(** A read/write lock ([pthread_rwlock_t]). *)
Inductive RWLock :=
| RW_free
| RW_read (holders : nat)   (** held for reading [S holders] times *)
| RW_write
| RW_destroyed.

(** A mutex ([pthread_mutex_t]). *)
Inductive Mutex := MX_free | MX_locked | MX_destroyed.

#[global] Instance RWLock_eq_dec : EqDecision RWLock.
Proof. solve_decision. Defined.
#[global] Instance Mutex_eq_dec : EqDecision Mutex.
Proof. solve_decision. Defined.

Definition createRWLock : RWLock := RW_free.

(** Destroying a busy lock unlocks it until the destruction succeeds. *)
Definition releaseRWLock (self : RWLock) : outcome RWLock :=
  match self with
  | RW_destroyed => Fault UseAfterDestroy
  | _ => Ok RW_destroyed
  end.

Definition acquireReadLock (self : RWLock) : outcome RWLock :=
  match self with
  | RW_free => Ok (RW_read 0)
  | RW_read n => Ok (RW_read (S n))
  | RW_write => Fault Deadlock
  | RW_destroyed => Fault UseAfterDestroy
  end.

(** [unlockReadLock] and [unlockWriteLock] are the same
    [pthread_rwlock_unlock]. *)
Definition unlockRWLock (self : RWLock) : outcome RWLock :=
  match self with
  | RW_free => Ok RW_free
  | RW_read (S n) => Ok (RW_read n)
  | RW_read O | RW_write => Ok RW_free
  | RW_destroyed => Fault UseAfterDestroy
  end.
Definition unlockReadLock : RWLock -> outcome RWLock := unlockRWLock.
Definition unlockWriteLock : RWLock -> outcome RWLock := unlockRWLock.

Definition acquireWriteLock (self : RWLock) : outcome RWLock :=
  match self with
  | RW_free => Ok RW_write
  | RW_read _ | RW_write => Fault Deadlock
  | RW_destroyed => Fault UseAfterDestroy
  end.

Definition initMutex : Mutex := MX_free.

Definition releaseMutex (self : Mutex) : Mutex := MX_destroyed.

Definition lockMutex (self : Mutex) : outcome Mutex :=
  match self with
  | MX_free => Ok MX_locked
  | MX_locked => Fault Deadlock
  | MX_destroyed => Fault UseAfterDestroy
  end.

Definition unlockMutex (self : Mutex) : outcome Mutex :=
  match self with
  | MX_destroyed => Fault UseAfterDestroy
  | _ => Ok MX_free
  end.

(** A POSIX semaphore is its value; [sem_wait] on 0 blocks the only thread
    that could post. *)
Definition sem_wait (value : Z) : outcome Z :=
  if value =? 0 then Fault Deadlock else Ok (value - 1).
Definition sem_post (value : Z) : Z := value + 1.
