(* ===== verification/SrxDefs.v ===== *)
(** * Shared definitions (shared/srx_defs.h, util/prefix.h)

    The result codes, flags and plain data records the server components
    exchange.  Enumerations whose values are stored in [uint8_t] fields or
    combined as bit masks are kept as the integers the code uses. *)
From S2P Require Import Prelude.

(** ** Validation results ([SRxValidationResultVal]) *)
Definition SRx_RESULT_VALID : Z := 0.
Definition SRx_RESULT_NOTFOUND : Z := 1.
Definition SRx_RESULT_INVALID : Z := 2.
Definition SRx_RESULT_UNDEFINED : Z := 3.
Definition SRx_RESULT_DONOTUSE : Z := 4.
Definition SRx_RESULT_UNKNOWN : Z := 5.
Definition SRx_RESULT_UNVERIFIABLE : Z := 6.

(** ** Result types ([ValidationResultType], a bit mask) *)
Definition VRT_NONE : Z := 0.
Definition VRT_ROA : Z := 1.
Definition VRT_BGPSEC : Z := 2.
Definition VRT_ASPA : Z := 4.

(** ** Result sources ([SRxResultSource]) *)
Definition SRxRS_SRX : Z := 0.
Definition SRxRS_ROUTER : Z := 1.
Definition SRxRS_IGP : Z := 2.
Definition SRxRS_UNKNOWN : Z := 3.
Definition SRxRS_DONOTUSE : Z := 128.

Record SRxResult := mkSRxResult {
  roaResult : Z;
  bgpsecResult : Z;
  aspaResult : Z
}.

Record SRxDefaultResult := mkSRxDefaultResult {
  resSourceROA : Z;
  resSourceBGPSEC : Z;
  resSourceASPA : Z;
  result : SRxResult
}.

Record SRxValidationResult := mkSRxValidationResult {
  valType : Z;
  valResult : SRxResult;
  valUpdateID : Z
}.

(** ** AS path segment types, relationship directions, address families *)
Definition AS_SET : Z := 1.
Definition AS_SEQUENCE : Z := 2.
Definition AS_CONFED_SEQUENCE : Z := 3.
Definition AS_CONFED_SET : Z := 4.

Definition ASPA_UNKNOWNSTREAM : Z := 0.
Definition ASPA_UPSTREAM : Z := 1.
Definition ASPA_DOWNSTREAM : Z := 2.

Definition AFI_IP : Z := 1.
Definition AFI_IP6 : Z := 2.

(** ** ASPA lookup results ([ASPA_ValidationResult], a bit mask) *)
Definition ASPA_RESULT_VALID : Z := 0.
Definition ASPA_RESULT_INVALID : Z := 1.
Definition ASPA_RESULT_UNDEFINED : Z := 2.
Definition ASPA_RESULT_UNKNOWN : Z := 4.
Definition ASPA_RESULT_UNVERIFIABLE : Z := 8.
Definition ASPA_RESULT_NIBBLE_ZERO : Z := 16.

(** ** Prefixes: the 16 bytes of the address union, shared by v4 and v6 *)
Record IPAddress := mkIPAddress {
  version : Z;
  addr_u8 : list Z
}.
Record IPPrefix := mkIPPrefix {
  ip : IPAddress;
  length_bits : Z
}.
(** The [u32] view of the union: the first four bytes as loaded by the host. *)
Definition v4_u32 (a : IPAddress) : Z := le_load32 (addr_u8 a).

(** ** The BGP / BGPsec data of an update.  The AS path is the list of the
    [uint32_t] values as loaded by the host; [None] is a NULL pointer. *)
Record BGPSecData := mkBGPSecData {
  numberHops : Z;
  asPath : option (list Z);
  attr_length : Z;
  bgp_afi : Z;
  bgp_safi : Z;
  local_as : Z;
  bgpsec_path_attr : option (list Z)
}.

(** The bytes of an array of [uint32_t]. *)
Definition u32s_bytes (l : list Z) : list Z := l ≫= le_bytes32.

#[global] Instance SRxResult_eq_dec : EqDecision SRxResult.
Proof. solve_decision. Defined.
#[global] Instance SRxDefaultResult_eq_dec : EqDecision SRxDefaultResult.
Proof. solve_decision. Defined.
#[global] Instance SRxValidationResult_eq_dec : EqDecision SRxValidationResult.
Proof. solve_decision. Defined.
#[global] Instance IPAddress_eq_dec : EqDecision IPAddress.
Proof. solve_decision. Defined.
#[global] Instance IPPrefix_eq_dec : EqDecision IPPrefix.
Proof. solve_decision. Defined.

#[export] Hint Unfold SRx_RESULT_VALID SRx_RESULT_NOTFOUND SRx_RESULT_INVALID
  SRx_RESULT_UNDEFINED SRx_RESULT_DONOTUSE SRx_RESULT_UNKNOWN SRx_RESULT_UNVERIFIABLE
  VRT_NONE VRT_ROA VRT_BGPSEC VRT_ASPA AS_SET AS_SEQUENCE ASPA_UNKNOWNSTREAM
  ASPA_UPSTREAM ASPA_DOWNSTREAM AFI_IP AFI_IP6 ASPA_RESULT_VALID ASPA_RESULT_INVALID
  ASPA_RESULT_UNDEFINED ASPA_RESULT_UNKNOWN ASPA_RESULT_UNVERIFIABLE
  ASPA_RESULT_NIBBLE_ZERO : srx.
