(* ===== verification/Crc32.v ===== *)
(** * CRC-32 (shared/crc32.c)

    The table-driven CRC the server derives its update and path identifiers
    from, its bitwise reference definition, the equivalence of the two, and the
    detection of single-byte differences. *)
From S2P Require Import Prelude.

(** The lookup table, as listed in the source. *)
Definition crc32tab : list Z := [
  0x00000000; 0x77073096; 0xee0e612c; 0x990951ba; 0x076dc419; 0x706af48f;
  0xe963a535; 0x9e6495a3; 0x0edb8832; 0x79dcb8a4; 0xe0d5e91e; 0x97d2d988;
  0x09b64c2b; 0x7eb17cbd; 0xe7b82d07; 0x90bf1d91; 0x1db71064; 0x6ab020f2;
  0xf3b97148; 0x84be41de; 0x1adad47d; 0x6ddde4eb; 0xf4d4b551; 0x83d385c7;
  0x136c9856; 0x646ba8c0; 0xfd62f97a; 0x8a65c9ec; 0x14015c4f; 0x63066cd9;
  0xfa0f3d63; 0x8d080df5; 0x3b6e20c8; 0x4c69105e; 0xd56041e4; 0xa2677172;
  0x3c03e4d1; 0x4b04d447; 0xd20d85fd; 0xa50ab56b; 0x35b5a8fa; 0x42b2986c;
  0xdbbbc9d6; 0xacbcf940; 0x32d86ce3; 0x45df5c75; 0xdcd60dcf; 0xabd13d59;
  0x26d930ac; 0x51de003a; 0xc8d75180; 0xbfd06116; 0x21b4f4b5; 0x56b3c423;
  0xcfba9599; 0xb8bda50f; 0x2802b89e; 0x5f058808; 0xc60cd9b2; 0xb10be924;
  0x2f6f7c87; 0x58684c11; 0xc1611dab; 0xb6662d3d; 0x76dc4190; 0x01db7106;
  0x98d220bc; 0xefd5102a; 0x71b18589; 0x06b6b51f; 0x9fbfe4a5; 0xe8b8d433;
  0x7807c9a2; 0x0f00f934; 0x9609a88e; 0xe10e9818; 0x7f6a0dbb; 0x086d3d2d;
  0x91646c97; 0xe6635c01; 0x6b6b51f4; 0x1c6c6162; 0x856530d8; 0xf262004e;
  0x6c0695ed; 0x1b01a57b; 0x8208f4c1; 0xf50fc457; 0x65b0d9c6; 0x12b7e950;
  0x8bbeb8ea; 0xfcb9887c; 0x62dd1ddf; 0x15da2d49; 0x8cd37cf3; 0xfbd44c65;
  0x4db26158; 0x3ab551ce; 0xa3bc0074; 0xd4bb30e2; 0x4adfa541; 0x3dd895d7;
  0xa4d1c46d; 0xd3d6f4fb; 0x4369e96a; 0x346ed9fc; 0xad678846; 0xda60b8d0;
  0x44042d73; 0x33031de5; 0xaa0a4c5f; 0xdd0d7cc9; 0x5005713c; 0x270241aa;
  0xbe0b1010; 0xc90c2086; 0x5768b525; 0x206f85b3; 0xb966d409; 0xce61e49f;
  0x5edef90e; 0x29d9c998; 0xb0d09822; 0xc7d7a8b4; 0x59b33d17; 0x2eb40d81;
  0xb7bd5c3b; 0xc0ba6cad; 0xedb88320; 0x9abfb3b6; 0x03b6e20c; 0x74b1d29a;
  0xead54739; 0x9dd277af; 0x04db2615; 0x73dc1683; 0xe3630b12; 0x94643b84;
  0x0d6d6a3e; 0x7a6a5aa8; 0xe40ecf0b; 0x9309ff9d; 0x0a00ae27; 0x7d079eb1;
  0xf00f9344; 0x8708a3d2; 0x1e01f268; 0x6906c2fe; 0xf762575d; 0x806567cb;
  0x196c3671; 0x6e6b06e7; 0xfed41b76; 0x89d32be0; 0x10da7a5a; 0x67dd4acc;
  0xf9b9df6f; 0x8ebeeff9; 0x17b7be43; 0x60b08ed5; 0xd6d6a3e8; 0xa1d1937e;
  0x38d8c2c4; 0x4fdff252; 0xd1bb67f1; 0xa6bc5767; 0x3fb506dd; 0x48b2364b;
  0xd80d2bda; 0xaf0a1b4c; 0x36034af6; 0x41047a60; 0xdf60efc3; 0xa867df55;
  0x316e8eef; 0x4669be79; 0xcb61b38c; 0xbc66831a; 0x256fd2a0; 0x5268e236;
  0xcc0c7795; 0xbb0b4703; 0x220216b9; 0x5505262f; 0xc5ba3bbe; 0xb2bd0b28;
  0x2bb45a92; 0x5cb36a04; 0xc2d7ffa7; 0xb5d0cf31; 0x2cd99e8b; 0x5bdeae1d;
  0x9b64c2b0; 0xec63f226; 0x756aa39c; 0x026d930a; 0x9c0906a9; 0xeb0e363f;
  0x72076785; 0x05005713; 0x95bf4a82; 0xe2b87a14; 0x7bb12bae; 0x0cb61b38;
  0x92d28e9b; 0xe5d5be0d; 0x7cdcefb7; 0x0bdbdf21; 0x86d3d2d4; 0xf1d4e242;
  0x68ddb3f8; 0x1fda836e; 0x81be16cd; 0xf6b9265b; 0x6fb077e1; 0x18b74777;
  0x88085ae6; 0xff0f6a70; 0x66063bca; 0x11010b5c; 0x8f659eff; 0xf862ae69;
  0x616bffd3; 0x166ccf45; 0xa00ae278; 0xd70dd2ee; 0x4e048354; 0x3903b3c2;
  0xa7672661; 0xd06016f7; 0x4969474d; 0x3e6e77db; 0xaed16a4a; 0xd9d65adc;
  0x40df0b66; 0x37d83bf0; 0xa9bcae53; 0xdebb9ec5; 0x47b2cf7f; 0x30b5ffe9;
  0xbdbdf21c; 0xcabac28a; 0x53b39330; 0x24b4a3a6; 0xbad03605; 0xcdd70693;
  0x54de5729; 0x23d967bf; 0xb3667a2e; 0xc4614ab8; 0x5d681b02; 0x2a6f2b94;
  0xb40bbe37; 0xc30c8ea1; 0x5a05df1b; 0x2d02ef8d
].

(** One iteration of the loop of [crc32]. *)
Definition crc32_step (pCrc32 b : Z) : Z :=
  Z.lxor (Z.shiftr pCrc32 8) (nth (Z.to_nat (Z.lxor b (Z.land pCrc32 0xff))) crc32tab 0).

(** [crc32(pData, uSize)]: the first [uSize] bytes of [pData] are read. *)
Definition crc32 (pData : list Z) (uSize : Z) : outcome Z :=
  if decide (Z.to_nat uSize <= length pData)%nat
  then Ok (Z.lxor (fold_left crc32_step (take (Z.to_nat uSize) pData) 0xffffffff) 0xffffffff)
  else Fault OutOfBounds.

(** ** Reference definition: the reflected polynomial, one bit at a time *)
Definition crc_poly : Z := 0xedb88320.
Definition crc_bit (c : Z) : Z :=
  if Z.odd c then Z.lxor (Z.shiftr c 1) crc_poly else Z.shiftr c 1.
Fixpoint crc_bits (n : nat) (c : Z) : Z :=
  match n with O => c | S m => crc_bits m (crc_bit c) end.
Definition crc_byte (c b : Z) : Z := crc_bits 8 (Z.lxor c b).
Definition crc32_spec (data : list Z) : Z :=
  Z.lxor (fold_left crc_byte data 0xffffffff) 0xffffffff.

(** ** The table agrees with the polynomial *)
Definition is_byte (b : Z) : Prop := in_u 8 b.

Lemma crc32tab_spec i : 0 <= i < 256 -> nth (Z.to_nat i) crc32tab 0 = crc_bits 8 i.
Proof.
  assert (forallb (fun n => nth n crc32tab 0 =? crc_bits 8 (Z.of_nat n)) (seq 0 256) = true)
    as H by by vm_compute.
  intros Hi. rewrite forallb_forall in H.
  specialize (H (Z.to_nat i)). rewrite Z2Nat.id in H by lia.
  apply Z.eqb_eq, H. apply in_seq. lia.
Qed.

Lemma crc_bit_lxor a b : crc_bit (Z.lxor a b) = Z.lxor (crc_bit a) (crc_bit b).
Proof.
  unfold crc_bit. rewrite <- !Z.bit0_odd, Z.lxor_spec, Z.shiftr_lxor.
  destruct (Z.testbit a 0), (Z.testbit b 0); simpl xorb; cbv iota;
    apply Z.bits_inj'; intros n Hn; rewrite !Z.lxor_spec;
    repeat match goal with |- context [Z.testbit ?x n] => destruct (Z.testbit x n) end; done.
Qed.

Lemma crc_bits_lxor n a b : crc_bits n (Z.lxor a b) = Z.lxor (crc_bits n a) (crc_bits n b).
Proof. revert a b. induction n; intros; simpl; [done|]. by rewrite crc_bit_lxor, IHn. Qed.

Lemma crc_bits_shiftl n h : crc_bits n (Z.shiftl h (Z.of_nat n)) = h.
Proof.
  revert h. induction n as [|n IH]; intros h; [by rewrite Z.shiftl_0_r|].
  cbn [crc_bits]. rewrite <- (IH h) at 2. f_equal. unfold crc_bit.
  rewrite <- Z.bit0_odd, Z.shiftl_spec_low by lia.
  rewrite Z.shiftr_shiftl_l by lia. f_equal. lia.
Qed.

Lemma split_low_byte c : Z.lxor (Z.shiftl (Z.shiftr c 8) 8) (Z.land c 0xff) = c.
Proof.
  apply Z.bits_inj'. intros n Hn. rewrite Z.lxor_spec, Z.land_spec.
  change 0xff with (Z.ones 8). destruct (decide (n < 8)).
  - by rewrite Z.shiftl_spec_low, Z.ones_spec_low, andb_true_r by lia.
  - rewrite Z.shiftl_spec_high, Z.shiftr_spec, Z.ones_spec_high, andb_false_r, xorb_false_r by lia.
    f_equal. lia.
Qed.

Lemma in_u_lxor w a b : 0 <= w -> in_u w a -> in_u w b -> in_u w (Z.lxor a b).
Proof.
  unfold in_u. intros Hw Ha Hb. split; [by apply Z.lxor_nonneg; split; intros; lia|].
  destruct (decide (Z.lxor a b = 0)) as [->|Hne]; [by apply Z.pow_pos_nonneg|].
  assert (0 <= Z.lxor a b) by (apply Z.lxor_nonneg; split; intros; lia).
  destruct (decide (w = 0)) as [->|].
  { assert (a = 0) as -> by (simpl in *; lia). assert (b = 0) as -> by (simpl in *; lia).
    by destruct Hne. }
  assert (forall x, 0 <= x < 2 ^ w -> Z.log2 x < w) as Hlog.
  { intros x Hx. destruct (decide (x = 0)) as [->|]; [simpl; lia|].
    apply Z.log2_lt_pow2; lia. }
  apply Z.log2_lt_pow2; [lia|].
  pose proof (Z.log2_lxor a b). pose proof (Hlog a Ha). pose proof (Hlog b Hb). lia.
Qed.

Lemma crc32_step_spec c b : 0 <= c -> is_byte b -> crc32_step c b = crc_byte c b.
Proof.
  unfold is_byte, in_u. intros Hc Hb. unfold crc32_step, crc_byte.
  assert (in_u 8 (Z.land c 0xff)) as Hl.
  { change 0xff with (Z.ones 8). rewrite Z.land_ones by lia. by apply wrap_in_u. }
  rewrite crc32tab_spec by by apply (in_u_lxor 8).
  rewrite <- (crc_bits_shiftl 8 (Z.shiftr c 8)) at 1.
  rewrite <- crc_bits_lxor. f_equal.
  rewrite <- (split_low_byte c) at 3.
  by rewrite (Z.lxor_comm b), Z.lxor_assoc.
Qed.

Lemma crc_bit_in_u c : in_u 32 c -> in_u 32 (crc_bit c).
Proof.
  intros Hc. assert (in_u 32 (Z.shiftr c 1)).
  { unfold in_u in *. rewrite Z.shiftr_div_pow2 by lia. zdiv. }
  unfold crc_bit. destruct (Z.odd c); [|done]. by apply in_u_lxor.
Qed.

Lemma crc_bits_in_u n c : in_u 32 c -> in_u 32 (crc_bits n c).
Proof. revert c. induction n; intros; simpl; auto using crc_bit_in_u. Qed.

Lemma byte_in_u32 b : is_byte b -> in_u 32 b.
Proof. unfold is_byte, in_u. lia. Qed.
#[export] Hint Resolve crc_bit_in_u crc_bits_in_u in_u_lxor byte_in_u32 : srx.

Lemma crc_byte_in_u c b : in_u 32 c -> is_byte b -> in_u 32 (crc_byte c b).
Proof. intros. unfold crc_byte. apply crc_bits_in_u, in_u_lxor; auto with srx; lia. Qed.

Lemma fold_crc_in_u data c :
  in_u 32 c -> Forall is_byte data -> in_u 32 (fold_left crc_byte data c).
Proof. intros Hc H. revert c Hc. induction H; simpl; auto using crc_byte_in_u. Qed.

Lemma fold_crc_step_spec data c :
  in_u 32 c -> Forall is_byte data ->
  fold_left crc32_step data c = fold_left crc_byte data c.
Proof.
  intros Hc H. revert c Hc. induction H as [|b data Hb H IH]; intros c Hc; simpl; [done|].
  rewrite crc32_step_spec by (done || apply Hc). auto using crc_byte_in_u.
Qed.

Lemma crc32_eq pData uSize :
  Forall is_byte pData -> 0 <= uSize <= Z.of_nat (length pData) ->
  crc32 pData uSize = Ok (crc32_spec (take (Z.to_nat uSize) pData)).
Proof.
  intros Hb Hl. unfold crc32, crc32_spec. rewrite decide_True by lia.
  by rewrite fold_crc_step_spec by (done || by apply Forall_take).
Qed.

(** C39 The table-driven [crc32] computes the bitwise reflected CRC-32 of the
    first [uSize] bytes, for every buffer of at least that many bytes; of a
    shorter buffer it reads past the end. *)
Theorem crc32_table_correct pData uSize :
  Forall is_byte pData -> 0 <= uSize ->
  crc32 pData uSize
  = if uSize <=? Z.of_nat (length pData) then Ok (crc32_spec (take (Z.to_nat uSize) pData))
    else Fault OutOfBounds.
Proof.
  intros Hb Hl. destruct (Z.leb_spec uSize (Z.of_nat (length pData))).
  - by apply crc32_eq.
  - unfold crc32. by rewrite decide_False by lia.
Qed.

Lemma crc32_table_correct_witness :
  crc32 [49; 50; 51; 52; 53; 54; 55; 56; 57] 9
  = Ok (crc32_spec [49; 50; 51; 52; 53; 54; 55; 56; 57]).
Proof.
  apply (crc32_table_correct [49; 50; 51; 52; 53; 54; 55; 56; 57] 9).
  - repeat constructor; unfold is_byte, in_u; lia.
  - lia.
Defined.

(** The check value of the CRC-32 catalogue, for the ASCII text "123456789". *)
Example crc32_check : crc32 [49; 50; 51; 52; 53; 54; 55; 56; 57] 9 = Ok 0xcbf43926.
Proof. by vm_compute. Qed.

(** ** Detection of a single differing byte *)
Lemma crc_bit_inj a b : in_u 32 a -> in_u 32 b -> crc_bit a = crc_bit b -> a = b.
Proof.
  intros Ha Hb H.
  assert (forall c, in_u 32 c -> Z.testbit (crc_bit c) 31 = Z.odd c) as Htop.
  { intros c Hc. unfold crc_bit. destruct (Z.odd c).
    - rewrite Z.lxor_spec, Z.shiftr_spec by lia.
      rewrite (Z.bits_above_log2 c (31 + 1)); [done|apply Hc|].
      destruct (decide (c = 0)) as [->|]; [done|].
      apply Z.log2_lt_pow2; unfold in_u in *; lia.
    - rewrite Z.shiftr_spec by lia.
      apply Z.bits_above_log2; [apply Hc|].
      destruct (decide (c = 0)) as [->|]; [done|].
      apply Z.log2_lt_pow2; unfold in_u in *; lia. }
  assert (Z.odd a = Z.odd b) as Ho by (rewrite <- !Htop by done; by rewrite H).
  unfold crc_bit in H. rewrite Ho in H.
  assert (Z.shiftr a 1 = Z.shiftr b 1) as Hs.
  { destruct (Z.odd b); [|done].
    apply (f_equal (fun x => Z.lxor x crc_poly)) in H.
    by rewrite !Z.lxor_assoc, Z.lxor_nilpotent, !Z.lxor_0_r in H. }
  rewrite !Z.shiftr_div_pow2 in Hs by lia. change (2 ^ 1) with 2 in Hs.
  rewrite (Zdiv2_odd_eqn a), (Zdiv2_odd_eqn b), !Z.div2_div, Hs, Ho. done.
Qed.

Lemma crc_bits_inj n a b : in_u 32 a -> in_u 32 b -> crc_bits n a = crc_bits n b -> a = b.
Proof.
  revert a b. induction n; intros a b Ha Hb H; simpl in H; [done|].
  apply IHn in H; auto using crc_bit_inj with srx.
Qed.

Lemma lxor_cancel_l a b c : Z.lxor a b = Z.lxor a c -> b = c.
Proof.
  intros H. apply (f_equal (Z.lxor a)) in H.
  by rewrite <- !Z.lxor_assoc, Z.lxor_nilpotent, !Z.lxor_0_l in H.
Qed.

Lemma crc_byte_inj c d b : in_u 32 c -> in_u 32 d -> is_byte b ->
  crc_byte c b = crc_byte d b -> c = d.
Proof.
  intros Hc Hd Hb H. apply crc_bits_inj in H; [|apply in_u_lxor; auto with srx; lia..].
  rewrite (Z.lxor_comm c), (Z.lxor_comm d) in H. by apply lxor_cancel_l in H.
Qed.

Lemma fold_crc_inj data c d : Forall is_byte data -> in_u 32 c -> in_u 32 d ->
  fold_left crc_byte data c = fold_left crc_byte data d -> c = d.
Proof.
  intros H. revert c d. induction H as [|b data Hb H IH]; intros c d Hc Hd E; simpl in E; [done|].
  apply IH in E; auto using crc_byte_in_u. by eapply crc_byte_inj.
Qed.

(** Two buffers that differ in exactly one byte never have the same CRC:
    no single-byte difference between two texts can produce equal
    identifiers. *)
Theorem crc32_detects_one_byte l1 x y l2 :
  Forall is_byte (l1 ++ x :: l2) -> is_byte y -> x <> y ->
  crc32 (l1 ++ x :: l2) (Z.of_nat (length (l1 ++ x :: l2)))
  <> crc32 (l1 ++ y :: l2) (Z.of_nat (length (l1 ++ y :: l2))).
Proof.
  intros Hl Hy Hne. apply Forall_app in Hl as [H1 [Hx H2]%Forall_cons].
  rewrite !crc32_eq
    by (lia || (apply Forall_app; split; [done|by constructor])).
  rewrite !Nat2Z.id, !firstn_all. unfold crc32_spec. intros [= E].
  rewrite !(Z.lxor_comm _ 0xffffffff) in E. apply lxor_cancel_l in E.
  rewrite !fold_left_app in E. simpl in E.
  assert (in_u 32 (fold_left crc_byte l1 0xffffffff)) as Hs by by apply fold_crc_in_u.
  apply fold_crc_inj in E; [|done|by apply crc_byte_in_u..].
  apply crc_bits_inj in E; [|apply in_u_lxor; auto with srx; lia..].
  by apply lxor_cancel_l in E.
Qed.

Lemma crc32_detects_one_byte_witness :
  crc32 ([1; 2] ++ 3 :: [4]) 4 <> crc32 ([1; 2] ++ 5 :: [4]) 4.
Proof.
  apply (crc32_detects_one_byte [1; 2] 3 5 [4]).
  - repeat constructor; unfold is_byte, in_u; lia.
  - unfold is_byte, in_u; lia.
  - lia.
Defined.
