(* ===== verification/SrxIdentifier.v ===== *)
(** * Update identifiers (shared/srx_identifier.c)

    [generateIdentifier] prints the origin AS, the prefix and the path data of
    an update as hexadecimal text into a stack buffer and takes the CRC-32 of
    that buffer; [compareSrxUpdateID] orders identifiers by their bytes in
    memory.  The model keeps the memory image the [sprintf] calls leave behind,
    including what they write past the end of the buffer. *)
From S2P Require Import Prelude SrxDefs Crc32.

(** ** Comparison *)
Inductive e_SRx_uID_Compare := SRX_UID_OV | SRX_UID_PV | SRX_UID_BOTH.

Definition compareSrxUpdateID (u1 u2 : Z) (cmpType : e_SRx_uID_Compare) : Z :=
  memcmp (le_bytes32 u1) (le_bytes32 u2).

(** ** Generation *)

(** Store [bs] at offset [off]; the image grows when the store runs past the
    end of the buffer it started from. *)
Definition mem_write (mem : list Z) (off : nat) (bs : list Z) : list Z :=
  take off mem ++ bs ++ drop (off + length bs) mem.

(** [sprintf(dataPtr, ...)]: the text and its terminating NUL. *)
Definition mem_sprintf (mem : list Z) (off : nat) (text : list Z) : list Z :=
  mem_write mem off (text ++ [0]).

(** The part of the update data the identifier is derived from: the BGPsec_PATH
    attribute when there is one, the AS path otherwise. *)
Definition id_blob (data : BGPSecData) : outcome (list Z) :=
  let '(blobLength, blob) :=
    match bgpsec_path_attr data with
    | Some attr => (attr_length data, Some attr)
    | None => (numberHops data * 4, u32s_bytes <$> asPath data)
    end in
  if decide (blobLength = 0) then Ok []
  else match blob with
       | None => Fault NullDeref
       | Some bs => read_bytes bs 0 (Z.to_nat blobLength)
       end.

(** One iteration of the blob loop: "%02X" of [*(char* )blob], where [char] is
    signed and the value is promoted to [int]. *)
Definition print_blob_byte (st : list Z * nat) (b : Z) : list Z * nat :=
  (mem_sprintf (fst st) (snd st) (fmt_02X (u32 (signed 8 b))), (snd st + 2)%nat).

(** One iteration of the IPv6 address loop. *)
Definition print_addr_byte (st : list Z * nat) (b : Z) : list Z * nat :=
  (mem_sprintf (fst st) (snd st) (fmt_02X b), (snd st + 2)%nat).

Definition id_prefixSize (prefix : IPPrefix) : Z :=
  if version (ip prefix) =? 4 then 4 else 16.

(** [length]: the size of the buffer, and of the area the CRC is taken of. *)
Definition id_length (prefix : IPPrefix) (blob : list Z) : Z :=
  (4 + id_prefixSize prefix + 1 + Z.of_nat (length blob)) * 2.

(** The [sprintf] calls for the origin AS and the prefix, into a zeroed buffer
    of [size] bytes. *)
Definition id_header (size : nat) (originAS : Z) (prefix : IPPrefix) : list Z * nat :=
  let m1 := mem_sprintf (replicate size 0) 0 (hex8 originAS) in
  if version (ip prefix) =? 4 then
    (mem_sprintf m1 8 (hex8 (v4_u32 (ip prefix)) ++ fmt_02X (length_bits prefix)), 18%nat)
  else
    let '(m2, off) := fold_left print_addr_byte (take 16 (addr_u8 (ip prefix))) (m1, 8%nat) in
    (mem_sprintf m2 off (fmt_02X (length_bits prefix)), (off + 2)%nat).

(** The memory image after the last [sprintf]. *)
Definition id_image (originAS : Z) (prefix : IPPrefix) (blob : list Z) : list Z :=
  fst (fold_left print_blob_byte blob
         (id_header (Z.to_nat (id_length prefix blob)) originAS prefix)).

Definition generateIdentifier (originAS : Z) (prefix : IPPrefix) (data : BGPSecData)
    : outcome Z :=
  blob ← id_blob data;
  crc32 (id_image originAS prefix blob) (id_length prefix blob).

(** ** Reference text *)
Definition id_byte_text (b : Z) : list Z := if b <? 128 then hex2 b else hex2 255.
Definition id_header_text (originAS : Z) (prefix : IPPrefix) : list Z :=
  hex8 originAS
  ++ (if version (ip prefix) =? 4 then hex8 (v4_u32 (ip prefix))
      else addr_u8 (ip prefix) ≫= hex2)
  ++ hex2 (length_bits prefix).
Definition id_spec_text (originAS : Z) (prefix : IPPrefix) (blob : list Z) : list Z :=
  id_header_text originAS prefix ++ (blob ≫= id_byte_text).

(** A prefix record as the callers build it. *)
Definition prefix_wf (p : IPPrefix) : Prop :=
  length (addr_u8 (ip p)) = 16%nat /\ Forall is_byte (addr_u8 (ip p))
  /\ is_byte (length_bits p).

(** ** The memory image *)
Lemma length_mem_write mem off bs :
  (off <= length mem)%nat ->
  length (mem_write mem off bs) = Nat.max (length mem) (off + length bs).
Proof.
  intros. unfold mem_write. rewrite !length_app, length_take, length_drop. lia.
Qed.

Lemma take_mem_write mem off bs k :
  (off <= length mem)%nat -> (k <= length bs)%nat ->
  take (off + k) (mem_write mem off bs) = take off mem ++ take k bs.
Proof.
  intros. unfold mem_write.
  rewrite take_app_ge by (rewrite length_take; lia).
  rewrite length_take, Nat.min_l by lia.
  replace (off + k - off)%nat with k by lia.
  by rewrite take_app_le by lia.
Qed.

(** Writing text piece by piece: the first [off] bytes hold the text so far. *)
Definition image_at (text : list Z) (st : list Z * nat) : Prop :=
  snd st = length text /\ (snd st < length (fst st))%nat /\ take (snd st) (fst st) = text.

Lemma image_at_sprintf text mem out keep :
  image_at text (mem, length text) -> (keep <= length out)%nat ->
  image_at (text ++ take keep out)
    (mem_sprintf mem (length text) out, (length text + keep)%nat).
Proof.
  intros (_ & Hle & Ht) Hk. simpl in *. unfold mem_sprintf. split; [|split]; simpl.
  - rewrite length_app, length_take. lia.
  - rewrite length_mem_write, length_app by lia. simpl. lia.
  - rewrite take_mem_write by (rewrite ?length_app; simpl; lia).
    rewrite Ht. f_equal. by rewrite take_app_le.
Qed.

Lemma fmt_02X_byte b : is_byte b -> fmt_02X b = hex2 b.
Proof. unfold is_byte, in_u, fmt_02X. intros. by destruct (Z.ltb_spec b (2 ^ 8)); [|lia]. Qed.

Lemma fmt_02X_char b : is_byte b ->
  fmt_02X (u32 (signed 8 b)) = if b <? 128 then hex2 b else hex8 (b + 2 ^ 32 - 256).
Proof.
  unfold is_byte, in_u. intros Hb.
  destruct (Z.ltb_spec b 128).
  - rewrite signed_small, wrap_small by (unfold in_u; lia). apply fmt_02X_byte.
    unfold is_byte, in_u. lia.
  - unfold signed. rewrite (wrap_small 8) by (unfold in_u; lia).
    destruct (Z.ltb_spec b (2 ^ (8 - 1))); [lia|].
    replace (u32 (b - 2 ^ 8)) with (b + 2 ^ 32 - 256) by (unfold wrap; zdiv).
    unfold fmt_02X.
    repeat (match goal with |- context [?x <? ?y] => destruct (Z.ltb_spec x y); [lia|] end).
    done.
Qed.

Lemma take_2_fmt_char b : is_byte b -> take 2 (fmt_02X (u32 (signed 8 b))) = id_byte_text b.
Proof.
  intros Hb. rewrite fmt_02X_char by done. unfold id_byte_text.
  destruct (Z.ltb_spec b 128); [done|]. unfold is_byte, in_u in Hb.
  unfold hex8, hex2. simpl take. f_equal; [|f_equal]; f_equal; zdiv.
Qed.

Lemma length_fmt_char b : is_byte b ->
  length (fmt_02X (u32 (signed 8 b))) = if b <? 128 then 2%nat else 8%nat.
Proof. intros. rewrite fmt_02X_char by done. by destruct (b <? 128). Qed.

Lemma image_at_blob blob text st :
  Forall is_byte blob -> image_at text st ->
  image_at (text ++ (blob ≫= id_byte_text)) (fold_left print_blob_byte blob st).
Proof.
  intros Hb. revert text st. induction Hb as [|b blob Hb _ IH]; intros text [mem off] Hi.
  { by rewrite app_nil_r. }
  rewrite bind_cons, (assoc_L (++)). cbn [fold_left]. apply IH.
  destruct (Hi) as (Hoff & _). simpl in Hoff. subst off.
  rewrite <- take_2_fmt_char by done. apply (image_at_sprintf _ _ _ 2); [done|].
  rewrite length_fmt_char by done. destruct (b <? 128); lia.
Qed.

Lemma image_at_addr bs text st :
  Forall is_byte bs -> image_at text st ->
  image_at (text ++ (bs ≫= hex2)) (fold_left print_addr_byte bs st).
Proof.
  intros Hb. revert text st. induction Hb as [|b bs Hb _ IH]; intros text [mem off] Hi.
  { by rewrite app_nil_r. }
  rewrite bind_cons, (assoc_L (++)). cbn [fold_left]. apply IH.
  destruct (Hi) as (Hoff & _). simpl in Hoff. subst off.
  unfold print_addr_byte. cbn [fst snd]. rewrite fmt_02X_byte by done.
  by apply (image_at_sprintf _ _ (hex2 b) 2).
Qed.

Lemma length_bind_const {A B} (f : A -> list B) (k : nat) (l : list A) :
  (forall x, length (f x) = k) -> length (l ≫= f) = (k * length l)%nat.
Proof.
  intros Hf. induction l as [|x l IH]; [simpl; lia|].
  rewrite bind_cons, length_app, Hf, IH. simpl. lia.
Qed.

Lemma length_id_spec_text oas p blob : prefix_wf p ->
  length (id_spec_text oas p blob) = Z.to_nat (id_length p blob).
Proof.
  intros (Hl & _ & _). unfold id_spec_text, id_header_text, id_length, id_prefixSize.
  rewrite !length_app, (length_bind_const id_byte_text 2)
    by (intros b; unfold id_byte_text; by destruct (b <? 128)).
  destruct (version (ip p) =? 4).
  - simpl length. lia.
  - rewrite (length_bind_const hex2 2), Hl by done. simpl length. lia.
Qed.

Lemma id_header_at size oas p : prefix_wf p -> (0 < size)%nat ->
  image_at (id_header_text oas p) (id_header size oas p).
Proof.
  intros (Hl & Ha & Hn) Hs. unfold id_header, id_header_text.
  assert (image_at (hex8 oas) (mem_sprintf (replicate size 0) 0 (hex8 oas), 8%nat)) as H1.
  { apply (image_at_sprintf [] _ (hex8 oas) 8); [|done].
    repeat split; simpl; rewrite ?length_replicate; lia. }
  destruct (version (ip p) =? 4).
  - apply (image_at_sprintf (hex8 oas) _
      (hex8 (v4_u32 (ip p)) ++ fmt_02X (length_bits p)) 10) in H1;
      rewrite fmt_02X_byte in * by done; [done|simpl; lia].
  - rewrite take_ge by lia. apply (image_at_addr (addr_u8 (ip p))) in H1; [|done].
    destruct (fold_left print_addr_byte _ _) as [m2 off] eqn:E2.
    destruct (H1) as (Hoff & _). cbn [snd] in Hoff. subst off.
    apply (image_at_sprintf _ _ (hex2 (length_bits p)) 2) in H1; [|done].
    rewrite fmt_02X_byte by done. by rewrite (assoc_L (++)).
Qed.

Lemma id_image_at size oas p blob : prefix_wf p -> Forall is_byte blob -> (0 < size)%nat ->
  image_at (id_spec_text oas p blob)
    (fold_left print_blob_byte blob (id_header size oas p)).
Proof. intros. apply image_at_blob; [done|]. by apply id_header_at. Qed.

Lemma id_length_pos p blob : (0 < Z.to_nat (id_length p blob))%nat.
Proof. unfold id_length, id_prefixSize. destruct (_ =? 4); lia. Qed.

Lemma generateIdentifier_eq oas p data blob :
  prefix_wf p -> id_blob data = Ok blob -> Forall is_byte blob ->
  generateIdentifier oas p data
  = crc32 (id_spec_text oas p blob) (Z.of_nat (length (id_spec_text oas p blob))).
Proof.
  intros Hwf Hd Hb. unfold generateIdentifier. rewrite Hd. simpl_outcome.
  pose proof (id_image_at _ oas p blob Hwf Hb (id_length_pos p blob)) as (Ho & Hle & Ht).
  pose proof (length_id_spec_text oas p blob Hwf) as Hlen. rewrite Ho in *.
  unfold crc32, id_image. rewrite Nat2Z.id, Hlen in *.
  rewrite !decide_True by lia. by rewrite Ht, <- Hlen, firstn_all.
Qed.

(** The identifier of an update is the CRC-32 of the reference text: the
    hexadecimal origin AS, address and prefix length followed by two characters
    per byte of the path data, where every byte from 0x80 on contributes "FF"
    whatever its value.  Path data the record promises but does not hold make
    the call fail. *)
Theorem generateIdentifier_correct oas p data :
  prefix_wf p -> (forall blob, id_blob data = Ok blob -> Forall is_byte blob) ->
  generateIdentifier oas p data
  = blob ← id_blob data;
    crc32 (id_spec_text oas p blob) (Z.of_nat (length (id_spec_text oas p blob))).
Proof.
  intros Hwf Hb. destruct (id_blob data) as [blob|f] eqn:E.
  - apply generateIdentifier_eq; auto.
  - unfold generateIdentifier. by rewrite E.
Qed.

Definition example_prefix : IPPrefix :=
  mkIPPrefix (mkIPAddress 4 ([10; 1; 2; 0] ++ replicate 12 0)) 24.
Definition example_bgp (path : list Z) : BGPSecData :=
  mkBGPSecData 0 None (Z.of_nat (length path)) 1 1 65000 (Some path).

Lemma generateIdentifier_correct_witness :
  generateIdentifier 65001 example_prefix (example_bgp [1; 200])
  = crc32 (id_spec_text 65001 example_prefix [1; 200])
      (Z.of_nat (length (id_spec_text 65001 example_prefix [1; 200]))).
Proof.
  apply (generateIdentifier_correct 65001 example_prefix (example_bgp [1; 200])).
  - repeat split; try (repeat constructor; unfold is_byte, in_u; simpl; lia).
  - intros blob [= <-]. repeat constructor; unfold is_byte, in_u; lia.
Defined.

(** Two updates whose path data differ only in bytes that are at least
    0x80 on both sides receive the same identifier: the sign extension in
    "%02X" of a [char] removes these bytes from the identifier. *)
Theorem generateIdentifier_high_bytes_collide oas p d1 d2 b1 b2 :
  prefix_wf p -> id_blob d1 = Ok b1 -> id_blob d2 = Ok b2 ->
  Forall is_byte b1 -> Forall is_byte b2 ->
  Forall2 (fun x y => x = y \/ (128 <= x /\ 128 <= y)) b1 b2 ->
  generateIdentifier oas p d1 = generateIdentifier oas p d2.
Proof.
  intros Hwf H1 H2 F1 F2 H.
  rewrite (generateIdentifier_eq oas p d1 b1), (generateIdentifier_eq oas p d2 b2)
    by done.
  assert (b1 ≫= id_byte_text = b2 ≫= id_byte_text) as E.
  { clear -H. induction H as [|x y l1 l2 Hxy _ IH]; [done|].
    rewrite !bind_cons, IH. f_equal. unfold id_byte_text.
    destruct Hxy as [->|[Hx Hy]]; [done|].
    destruct (Z.ltb_spec x 128), (Z.ltb_spec y 128); lia || done. }
  unfold id_spec_text. by rewrite E.
Qed.

Lemma generateIdentifier_high_bytes_collide_witness :
  generateIdentifier 65001 example_prefix (example_bgp [1; 128])
  = generateIdentifier 65001 example_prefix (example_bgp [1; 255]).
Proof.
  apply (generateIdentifier_high_bytes_collide 65001 example_prefix
           (example_bgp [1; 128]) (example_bgp [1; 255]) [1; 128] [1; 255]).
  - repeat split; try (repeat constructor; unfold is_byte, in_u; simpl; lia).
  - reflexivity.
  - reflexivity.
  - repeat constructor; unfold is_byte, in_u; lia.
  - repeat constructor; unfold is_byte, in_u; lia.
  - repeat constructor; lia.
Defined.

Lemma length_mem_write_ge mem off bs :
  (off <= length mem)%nat -> (off + length bs <= length (mem_write mem off bs))%nat.
Proof. intros. rewrite length_mem_write by done. lia. Qed.

(** Every call writes past the end of the stack buffer: the NUL of the last
    [sprintf] never fits, and when the last byte of the path data is at least
    0x80 at least seven bytes land outside. *)
Theorem generateIdentifier_overruns oas p blob :
  prefix_wf p -> Forall is_byte blob ->
  (Z.to_nat (id_length p blob) < length (id_image oas p blob))%nat
  /\ (forall b0 b, blob = b0 ++ [b] -> 128 <= b ->
      (Z.to_nat (id_length p blob) + 7 <= length (id_image oas p blob))%nat).
Proof.
  intros Hwf Hb. pose proof (length_id_spec_text oas p blob Hwf) as Hlen.
  pose proof (id_image_at _ oas p blob Hwf Hb (id_length_pos p blob)) as (Ho & Hlt & _).
  unfold id_image. split; [lia|]. intros b0 b -> Hhigh.
  apply Forall_app in Hb as [Hb0 Hb]. apply Forall_cons in Hb as [Hb _].
  rewrite fold_left_app. cbn [fold_left].
  set (size := Z.to_nat (id_length p (b0 ++ [b]))) in *.
  destruct (id_image_at size oas p b0 Hwf Hb0 (id_length_pos _ _)) as (Ho0 & Hl0 & _).
  unfold print_blob_byte at 1. cbn [fst]. unfold mem_sprintf.
  eapply Nat.le_trans; [|apply length_mem_write_ge; lia].
  rewrite length_app, length_fmt_char by done.
  destruct (Z.ltb_spec b 128); [lia|]. cbn [length].
  rewrite Ho0, length_id_spec_text by done.
  subst size. unfold id_length in *. rewrite length_app in *. cbn [length] in *. lia.
Qed.

Lemma generateIdentifier_overruns_witness :
  (Z.to_nat (id_length example_prefix [1; 200]%Z)
   < length (id_image 65001 example_prefix [1; 200]%Z))%nat.
Proof.
  apply (generateIdentifier_overruns 65001 example_prefix [1; 200]).
  - repeat split; try (repeat constructor; unfold is_byte, in_u; simpl; lia).
  - repeat constructor; unfold is_byte, in_u; lia.
Defined.

(** ** Comparison *)
Lemma compareSrxUpdateID_refl u t : compareSrxUpdateID u u t = 0.
Proof. apply memcmp_refl. Qed.

Lemma compareSrxUpdateID_eq u1 u2 t : in_u 32 u1 -> in_u 32 u2 ->
  compareSrxUpdateID u1 u2 t = 0 <-> u1 = u2.
Proof.
  intros H1 H2. unfold compareSrxUpdateID. split; [|intros ->; apply memcmp_refl].
  intros H. apply le_bytes32_inj; [done..|]. by apply memcmp_0.
Qed.

Lemma compareSrxUpdateID_antisym u1 u2 t :
  compareSrxUpdateID u2 u1 t = - compareSrxUpdateID u1 u2 t.
Proof. apply memcmp_antisym. Qed.

Lemma compareSrxUpdateID_trans u1 u2 u3 t :
  compareSrxUpdateID u1 u2 t < 0 -> compareSrxUpdateID u2 u3 t < 0 ->
  compareSrxUpdateID u1 u3 t < 0.
Proof. by apply memcmp_trans. Qed.

Lemma memcmp_zeros n b : Forall (fun x => 0 <= x) b -> memcmp (replicate n 0) b <= 0.
Proof.
  intros H. revert n. induction H as [|x b Hx _ IH]; intros [|n]; cbn [replicate memcmp]; try lia.
  destruct (Z.eqb_spec 0 x); [apply IH|lia].
Qed.

(** The zero identifier is below every other one. *)
Lemma compareSrxUpdateID_zero u t : in_u 32 u -> u <> 0 -> compareSrxUpdateID 0 u t < 0.
Proof.
  intros Hu Hne.
  assert (compareSrxUpdateID 0 u t <> 0).
  { rewrite compareSrxUpdateID_eq; [congruence|unfold in_u; lia|done]. }
  assert (compareSrxUpdateID 0 u t <= 0); [|lia].
  apply (memcmp_zeros 4). unfold in_u in Hu. repeat constructor; zdiv.
Qed.

(** [compareSrxUpdateID] is a strict total order on identifiers whatever
    the comparison type, but not the numeric one its description promises: 256
    is reported smaller than 1. *)
Theorem compareSrxUpdateID_order t :
  (forall u1 u2, in_u 32 u1 -> in_u 32 u2 -> compareSrxUpdateID u1 u2 t = 0 <-> u1 = u2)
  /\ (forall u1 u2, compareSrxUpdateID u2 u1 t = - compareSrxUpdateID u1 u2 t)
  /\ (forall u1 u2 u3, compareSrxUpdateID u1 u2 t < 0 -> compareSrxUpdateID u2 u3 t < 0 ->
       compareSrxUpdateID u1 u3 t < 0)
  /\ compareSrxUpdateID 256 1 t < 0.
Proof.
  split; [|split; [|split]]; eauto using compareSrxUpdateID_eq, compareSrxUpdateID_antisym,
    compareSrxUpdateID_trans. by vm_compute.
Qed.
