(* ===== verification/BgpsecPath.v ===== *)
(** * Parsing a BGPsec_PATH attribute (server/ski_cache.c)

    [_ski_parseBGPsec_PATH] extracts the AS numbers, algorithm identifiers and
    SKIs of a BGPsec_PATH attribute.  The attribute is the memory area it
    occupies; every load is checked against the area, and lengths are the
    16-bit unsigned integers of the source. *)
From S2P Require Import Prelude Bytes SrxDefs.

Module BgpsecPath.

(** ** Data *)
Definition SKI_LENGTH : nat := 20.
Definition SCA_BGP_UPD_A_FLAGS_EXT_LENGTH : Z := 16.
Definition _BGPSEC_MAX_SIG_BLOCKS : nat := 2.

(** [e_Upd_RegRes] *)
Definition REGVAL_ERROR : Z := 0.
Definition REGVAL_INVALID : Z := 1.
Definition REGVAL_UNKNOWN : Z := 2.

(** [_SKI_TMP_UPD_INFO]; [None] is a NULL array. *)
Record _SKI_TMP_UPD_INFO := mkUpdInfo {
  status : Z;
  nrSegments : Z;
  nrSigBlocks : Z;
  asn : option (list Z);
  algoID : list Z;
  ski : option (list Z)
}.

(** ** Operations *)

(** The arrays are wiped and freed, the structure is zeroed. *)
Definition _ski_initializeUpdInfo (tmpBGPsecInfo : _SKI_TMP_UPD_INFO) : _SKI_TMP_UPD_INFO :=
  mkUpdInfo 0 0 0 None [0; 0] None.

(** The attribute header: the remaining length and the offset behind it. *)
Definition parse_header (mem : list Z) : outcome (Z * nat) :=
  flags ← read8 mem 0;
  if Z.land flags SCA_BGP_UPD_A_FLAGS_EXT_LENGTH =? 0
  then r ← read8 mem 2; Ok (r, 3%nat)
  else r ← read16be mem 2; Ok (r, 4%nat).

(** The AS number of [n] path segments, six bytes each, from [off] on. *)
Fixpoint read_asns (mem : list Z) (off n : nat) : outcome (list Z) :=
  match n with
  | O => Ok []
  | S n' => a ← read32be mem (off + 2); l ← read_asns mem (off + 6) n'; Ok (a :: l)
  end.

(** The SKIs of [n] signature segments from [off] on; a segment is the SKI, the
    length of the signature and the signature. *)
Fixpoint read_skis (mem : list Z) (off n : nat) : outcome (list Z) :=
  match n with
  | O => Ok []
  | S n' =>
      s ← read_bytes mem off SKI_LENGTH;
      siglen ← read16be mem (off + 20);
      l ← read_skis mem (off + 22 + Z.to_nat siglen) n';
      Ok (s ++ l)
  end.

(** The loop [while (sigBlocks[blockIdx] != NULL)]: the array has
    [_BGPSEC_MAX_SIG_BLOCKS] elements and no terminator, so with every element
    set the loop reads behind it.  The fuel is the number of elements plus one. *)
Fixpoint read_blocks (fuel : nat) (mem : list Z) (sigBlocks : list (option nat)) (n blockIdx : nat)
    (algos skis : list Z) : outcome (list Z * list Z) :=
  match fuel with
  | O => Fault OutOfFuel
  | S fuel' =>
      b ← arr_get sigBlocks blockIdx;
      match b with
      | None => Ok (algos, skis)
      | Some blk =>
          a ← read8 mem (blk + 2);
          s ← read_skis mem (blk + 3) n;
          read_blocks fuel' mem sigBlocks n (S blockIdx) (<[blockIdx := a]> algos) (skis ++ s)
      end
  end.

(** The signature blocks of the attribute: their number, their addresses, and
    the remainder left behind them. *)
Definition find_blocks (mem : list Z) (stream : nat) (remainder : Z)
    : outcome (Z * list (option nat) * Z) :=
  if 0 <? remainder then
    length ← read16be mem stream;
    let stream2 := (stream + Z.to_nat length)%nat in
    let remainder := u16 (remainder - length) in
    if 0 <? remainder then
      length ← read16be mem stream2;
      Ok (2, [Some stream; Some stream2], u16 (remainder - length))
    else Ok (1, [Some stream; None], remainder)
  else Ok (0, [None; None], remainder).

Definition _ski_parseBGPsec_PATH (updInfo : _SKI_TMP_UPD_INFO) (pathAttr : option (list Z))
    : outcome _SKI_TMP_UPD_INFO :=
  let updInfo := _ski_initializeUpdInfo updInfo in
  match pathAttr with
  | None => Ok updInfo
  | Some mem =>
      '(remainder, stream) ← parse_header mem;
      if remainder <=? 0 then Ok updInfo else
      plen ← read16be mem stream;
      let nr := u16 (Z.quot (plen - 2) 6) in
      let remainder := u16 (remainder - 2) in
      if remainder <=? 0 then Ok (mkUpdInfo REGVAL_ERROR nr 0 None [0; 0] None) else
      let pathSegment := (stream + 2)%nat in
      let remainder := u16 (remainder - nr * 6) in
      '(nb, sigBlocks, remainder') ← find_blocks mem (pathSegment + Z.to_nat nr * 6) remainder;
      if (0 <? remainder) && negb (remainder' =? 0)
      then Ok (mkUpdInfo REGVAL_ERROR nr nb None [0; 0] None)
      else
        asns ← read_asns mem pathSegment (Z.to_nat nr);
        '(algos, skis) ← read_blocks (S _BGPSEC_MAX_SIG_BLOCKS) mem sigBlocks (Z.to_nat nr) 0
                           [0; 0] [];
        Ok (mkUpdInfo REGVAL_INVALID nr nb (Some asns) algos (Some skis))
  end.

(** ** Specification: the wire format (RFC 8205) *)
Record segment := mkSegment { sg_pCount : Z; sg_flags : Z; sg_asn : Z }.
Record sig_segment := mkSig { ss_ski : list Z; ss_signature : list Z }.
Record sig_block := mkBlock { sb_algo : Z; sb_sigs : list sig_segment }.

Definition enc_segment (s : segment) : list Z := [sg_pCount s; sg_flags s] ++ be32 (sg_asn s).
Definition enc_sig (s : sig_segment) : list Z :=
  ss_ski s ++ be16 (Z.of_nat (length (ss_signature s))) ++ ss_signature s.
Definition enc_block (b : sig_block) : list Z :=
  let body := sb_sigs b ≫= enc_sig in
  be16 (3 + Z.of_nat (length body)) ++ [sb_algo b] ++ body.
Definition enc_body (segs : list segment) (blocks : list sig_block) : list Z :=
  be16 (2 + 6 * Z.of_nat (length segs)) ++ (segs ≫= enc_segment) ++ (blocks ≫= enc_block).
(** The attribute with a one byte or a two byte length field. *)
Definition enc_attr (ext : bool) (segs : list segment) (blocks : list sig_block) : list Z :=
  let body := enc_body segs blocks in
  if ext then [144; 33] ++ be16 (Z.of_nat (length body)) ++ body
  else [128; 33; Z.of_nat (length body)] ++ body.

Definition block_wf (n : nat) (b : sig_block) : Prop :=
  length (sb_sigs b) = n
  /\ Forall (fun s => length (ss_ski s) = SKI_LENGTH /\ Z.of_nat (length (ss_signature s)) < 2 ^ 16)
       (sb_sigs b).

(** ** Reading back what was encoded *)
Lemma read_asns_at segs pre l off :
  off = length pre ->
  read_asns (pre ++ (segs ≫= enc_segment) ++ l) off (length segs) = Ok (sg_asn <$> segs).
Proof.
  revert pre off. induction segs as [|s segs IH]; intros pre off ->; [done|].
  rewrite bind_cons, <- (assoc_L (++)). cbn [length read_asns].
  set (rest := (segs ≫= enc_segment) ++ l).
  assert (pre ++ enc_segment s ++ rest
          = (pre ++ [sg_pCount s; sg_flags s]) ++ be32 (sg_asn s) ++ rest) as E
    by (unfold enc_segment; by rewrite <- !(assoc_L (++))).
  rewrite E at 1. rewrite read32be_at by (rewrite length_app; simpl; lia). simpl_outcome.
  subst rest. rewrite (assoc_L (++)), IH; [done|].
  unfold enc_segment. rewrite !length_app. simpl. lia.
Qed.

Lemma read_skis_at sigs pre l off :
  off = length pre ->
  Forall (fun s => length (ss_ski s) = SKI_LENGTH /\ Z.of_nat (length (ss_signature s)) < 2 ^ 16) sigs ->
  read_skis (pre ++ (sigs ≫= enc_sig) ++ l) off (length sigs) = Ok (sigs ≫= ss_ski).
Proof.
  intros Ho Hw. revert pre off Ho. induction Hw as [|s sigs [Hk _] _ IH]; intros pre off ->; [done|].
  rewrite !bind_cons, <- (assoc_L (++)). cbn [length read_skis].
  set (rest := (sigs ≫= enc_sig) ++ l). pose (n := be16 (Z.of_nat (length (ss_signature s)))).
  assert (pre ++ enc_sig s ++ rest = pre ++ ss_ski s ++ n ++ ss_signature s ++ rest) as E1
    by (unfold enc_sig; by rewrite <- !(assoc_L (++))).
  assert (pre ++ enc_sig s ++ rest = (pre ++ ss_ski s) ++ n ++ ss_signature s ++ rest) as E2
    by (by rewrite E1, <- !(assoc_L (++))).
  rewrite E1 at 1. rewrite (read_bytes_at pre (ss_ski s)) by done. cbn [mbind outcome_bind].
  rewrite E2 at 1. unfold n. rewrite read16be_at by (rewrite length_app, Hk; done). cbn [mbind outcome_bind].
  subst rest. rewrite (assoc_L (++)), IH; [done|].
  unfold enc_sig. rewrite !length_app, Nat2Z.id, Hk. unfold SKI_LENGTH. simpl. lia.
Qed.

Lemma length_enc_segments segs : length (segs ≫= enc_segment) = (6 * length segs)%nat.
Proof. induction segs as [|s segs IH]; [done|]. rewrite bind_cons, length_app, IH. simpl. lia. Qed.

Lemma length_enc_block b : length (enc_block b) = (3 + length (sb_sigs b ≫= enc_sig))%nat.
Proof. unfold enc_block. rewrite !length_app. simpl. lia. Qed.

(** The addresses of at most two blocks from [off] on. *)
Definition block_addrs (off : nat) (blocks : list sig_block) : list (option nat) :=
  match blocks with
  | [] => [None; None]
  | [b] => [Some off; None]
  | b :: _ => [Some off; Some (off + length (enc_block b))%nat]
  end.

Lemma read16be_block pre b l off :
  off = length pre -> read16be (pre ++ enc_block b ++ l) off = Ok (Z.of_nat (length (enc_block b))).
Proof.
  intros Ho. rewrite length_enc_block. unfold enc_block. rewrite <- !(assoc_L (++)).
  rewrite read16be_at by done. f_equal. lia.
Qed.

Lemma find_blocks_at pre blocks l off :
  off = length pre -> (length blocks <= 2)%nat ->
  Z.of_nat (length (blocks ≫= enc_block)) < 2 ^ 16 ->
  find_blocks (pre ++ (blocks ≫= enc_block) ++ l) off (Z.of_nat (length (blocks ≫= enc_block)))
  = Ok (Z.of_nat (length blocks), block_addrs off blocks, 0).
Proof.
  intros Ho Hn Hl. unfold find_blocks.
  destruct blocks as [|b1 [|b2 [|]]]; [done| | |simpl in Hn; lia];
    rewrite ?bind_cons, ?bind_nil, ?app_nil_r in *; rewrite ?length_app in *;
    pose proof (length_enc_block b1) as L1; rewrite (proj2 (Z.ltb_lt 0 _)) by lia.
  - rewrite read16be_block by done. cbn [mbind outcome_bind]. rewrite Z.sub_diag. done.
  - pose proof (length_enc_block b2) as L2.
    rewrite <- (assoc_L (++)), read16be_block by done. cbn [mbind outcome_bind].
    rewrite Nat2Z.id, Nat2Z.inj_add, Z.add_simpl_l, wrap_small by (unfold in_u; lia).
    rewrite (proj2 (Z.ltb_lt 0 _)) by lia.
    rewrite (assoc_L (++)), read16be_block by (rewrite length_app; lia).
    cbn [mbind outcome_bind]. by rewrite Z.sub_diag.
Qed.

Lemma read_block_at pre b l off n :
  off = length pre -> block_wf n b ->
  read8 (pre ++ enc_block b ++ l) (off + 2) = Ok (sb_algo b)
  /\ read_skis (pre ++ enc_block b ++ l) (off + 3) n = Ok (sb_sigs b ≫= ss_ski).
Proof.
  intros -> [<- Hw]. unfold enc_block. set (len := 3 + _). rewrite <- !(assoc_L (++)). split.
  - rewrite (assoc_L (++) pre). apply read8_at. rewrite length_app. simpl. lia.
  - rewrite (assoc_L (++) pre), (assoc_L (++) (pre ++ _)).
    apply read_skis_at; [rewrite !length_app; simpl; lia|done].
Qed.

(** With two blocks the loop runs off the array. *)
Lemma read_blocks_at pre blocks l off n :
  off = length pre -> (length blocks <= 2)%nat -> Forall (block_wf n) blocks ->
  read_blocks (S _BGPSEC_MAX_SIG_BLOCKS) (pre ++ (blocks ≫= enc_block) ++ l)
    (block_addrs off blocks) n 0 [0; 0] []
  = match blocks with
    | [] => Ok ([0; 0], [])
    | [b] => Ok ([sb_algo b; 0], sb_sigs b ≫= ss_ski)
    | _ => Fault OutOfBounds
    end.
Proof.
  intros Ho Hn Hw. destruct blocks as [|b1 [|b2 [|]]]; [done| | |simpl in Hn; lia];
    apply Forall_cons in Hw as [Hw1 Hw]; rewrite ?bind_cons, ?bind_nil, ?app_nil_r in *.
  - destruct (read_block_at pre b1 l off n) as [E1 E2]; [done..|].
    cbn [read_blocks block_addrs arr_get lookup list_lookup _BGPSEC_MAX_SIG_BLOCKS mbind outcome_bind].
    rewrite E1. cbn [mbind outcome_bind]. rewrite E2. done.
  - apply Forall_cons in Hw as [Hw2 _]. rewrite <- (assoc_L (++)).
    destruct (read_block_at pre b1 (enc_block b2 ++ l) off n) as [E1 E2]; [done..|].
    destruct (read_block_at (pre ++ enc_block b1) b2 l (off + length (enc_block b1)) n)
      as [E3 E4]; [by rewrite length_app; subst|done|].
    rewrite <- (assoc_L (++)) in E3, E4.
    cbn [read_blocks block_addrs arr_get lookup list_lookup _BGPSEC_MAX_SIG_BLOCKS mbind outcome_bind].
    rewrite E1. cbn [mbind outcome_bind]. rewrite E2. cbn [mbind outcome_bind].
    rewrite E3. cbn [mbind outcome_bind]. rewrite E4. done.
Qed.

(** The two bytes of flags and type and the length field. *)
Definition enc_hdr (ext : bool) (len : nat) : list Z :=
  if ext then [144; 33] ++ be16 (Z.of_nat len) else [128; 33; Z.of_nat len].

Lemma enc_attr_hdr ext segs blocks :
  enc_attr ext segs blocks = enc_hdr ext (length (enc_body segs blocks)) ++ enc_body segs blocks.
Proof. by destruct ext. Qed.

Lemma parse_header_at ext len l :
  parse_header (enc_hdr ext len ++ l) = Ok (Z.of_nat len, length (enc_hdr ext len)).
Proof.
  destruct ext; unfold parse_header, enc_hdr.
  - change (read8 _ 0) with (Ok 144). cbn [mbind outcome_bind].
    change (Z.land 144 _ =? 0) with false. cbv iota.
    rewrite <- (assoc_L (++)), read16be_at by done. done.
  - change (read8 _ 0) with (Ok 128). done.
Qed.

Lemma length_enc_body segs blocks :
  length (enc_body segs blocks)
  = (2 + 6 * length segs + length (blocks ≫= enc_block))%nat.
Proof. unfold enc_body. rewrite !length_app, length_enc_segments. simpl. lia. Qed.

Lemma parse_encoded updInfo ext segs blocks l :
  segs <> [] -> (length blocks <= 2)%nat -> Forall (block_wf (length segs)) blocks ->
  Z.of_nat (length (enc_body segs blocks)) < 2 ^ (if ext : bool then 16 else 8) ->
  _ski_parseBGPsec_PATH updInfo (Some (enc_attr ext segs blocks ++ l))
  = match blocks with
    | [] => Ok (mkUpdInfo REGVAL_INVALID (Z.of_nat (length segs)) 0
                  (Some (sg_asn <$> segs)) [0; 0] (Some []))
    | [b] => Ok (mkUpdInfo REGVAL_INVALID (Z.of_nat (length segs)) 1
                   (Some (sg_asn <$> segs)) [sb_algo b; 0] (Some (sb_sigs b ≫= ss_ski)))
    | _ => Fault OutOfBounds
    end.
Proof.
  intros Hs Hn Hw Hl.
  assert (Z.of_nat (length (enc_body segs blocks)) < 2 ^ 16) as Hl' by (destruct ext; lia).
  clear Hl. pose proof (length_enc_body segs blocks) as Hb.
  assert (0 < length segs)%nat as Hs' by (destruct segs; [done|simpl; lia]).
  rewrite enc_attr_hdr, <- (assoc_L (++)). unfold _ski_parseBGPsec_PATH.
  set (len := length (enc_body segs blocks)) in *.
  rewrite parse_header_at. cbn [mbind outcome_bind]. set (hdr := enc_hdr ext len).
  rewrite (proj2 (Z.leb_gt (Z.of_nat len) 0)) by lia.
  set (p := be16 (2 + 6 * Z.of_nat (length segs))).
  assert (hdr ++ enc_body segs blocks ++ l
          = (hdr ++ p) ++ (segs ≫= enc_segment) ++ (blocks ≫= enc_block) ++ l) as E1
    by (unfold enc_body; by rewrite <- !(assoc_L (++))).
  assert (hdr ++ enc_body segs blocks ++ l
          = hdr ++ p ++ (segs ≫= enc_segment) ++ (blocks ≫= enc_block) ++ l) as E2
    by (by rewrite E1, <- !(assoc_L (++))).
  assert (hdr ++ enc_body segs blocks ++ l
          = ((hdr ++ p) ++ (segs ≫= enc_segment)) ++ (blocks ≫= enc_block) ++ l) as E3
    by (by rewrite E1, <- !(assoc_L (++))).
  assert (read16be (hdr ++ enc_body segs blocks ++ l) (length hdr)
          = Ok (2 + 6 * Z.of_nat (length segs))) as -> by (rewrite E2; by apply read16be_at).
  cbn [mbind outcome_bind].
  assert (u16 (Z.quot (2 + 6 * Z.of_nat (length segs) - 2) 6) = Z.of_nat (length segs)) as ->.
  { rewrite Z.add_simpl_l, (Z.mul_comm 6), Z.quot_mul, wrap_small by (unfold in_u; lia). lia. }
  rewrite (wrap_small 16 (Z.of_nat len - 2)) by (unfold in_u; lia).
  rewrite (proj2 (Z.leb_gt (Z.of_nat len - 2) 0)) by lia.
  replace (u16 (Z.of_nat len - 2 - Z.of_nat (length segs) * 6))
    with (Z.of_nat (length (blocks ≫= enc_block)))
    by (rewrite wrap_small by (unfold in_u; lia); lia).
  rewrite Nat2Z.id. rewrite E3 at 1.
  rewrite find_blocks_at;
    [|rewrite !length_app, length_enc_segments; simpl; lia|done|lia].
  cbn [mbind outcome_bind]. rewrite Z.eqb_refl, andb_false_r.
  rewrite E1 at 1. rewrite read_asns_at by (rewrite length_app; simpl; lia).
  cbn [mbind outcome_bind]. rewrite E3 at 1.
  rewrite read_blocks_at;
    [|rewrite !length_app, length_enc_segments; simpl; lia|done|done].
  by destruct blocks as [|b1 [|]].
Qed.

(** C38 Reading back an encoded BGPsec_PATH attribute: parsing yields the AS
    numbers, the algorithm and the SKIs of the attribute, for a short or a long
    length field and whatever follows the attribute in memory, when it has no
    or one signature block.  With two signature blocks, which RFC 8205 allows,
    the terminator the loop looks for lies behind the end of the two element
    array and the parser reads out of bounds. *)
Theorem parse_roundtrip updInfo ext segs blocks l :
  segs <> [] -> (length blocks <= 2)%nat -> Forall (block_wf (length segs)) blocks ->
  Z.of_nat (length (enc_body segs blocks)) < 2 ^ (if ext : bool then 16 else 8) ->
  _ski_parseBGPsec_PATH updInfo (Some (enc_attr ext segs blocks ++ l))
  = match blocks with
    | [] => Ok (mkUpdInfo REGVAL_INVALID (Z.of_nat (length segs)) 0
                  (Some (sg_asn <$> segs)) [0; 0] (Some []))
    | [b] => Ok (mkUpdInfo REGVAL_INVALID (Z.of_nat (length segs)) 1
                   (Some (sg_asn <$> segs)) [sb_algo b; 0] (Some (sb_sigs b ≫= ss_ski)))
    | _ => Fault OutOfBounds
    end.
Proof. apply parse_encoded. Qed.

Definition seg_ex : list segment := [mkSegment 1 0 65010; mkSegment 1 0 64512].
Definition block_ex (a : Z) : sig_block :=
  mkBlock a [mkSig (replicate 20 7) [1; 2; 3]; mkSig (replicate 20 9) [4; 5]].

Lemma parse_roundtrip_witness :
  _ski_parseBGPsec_PATH (mkUpdInfo 0 0 0 None [0; 0] None) (Some (enc_attr true seg_ex [block_ex 1]))
  = Ok (mkUpdInfo 1 2 1 (Some [65010; 64512]) [1; 0] (Some (replicate 20 7 ++ replicate 20 9)))
  /\ _ski_parseBGPsec_PATH (mkUpdInfo 0 0 0 None [0; 0] None)
       (Some (enc_attr true seg_ex [block_ex 1; block_ex 2])) = Fault OutOfBounds.
Proof.
  assert (forall a, block_wf (length seg_ex) (block_ex a)) as W.
  { intros a. split; [done|]. apply Forall_cons; split; [by vm_compute|].
    apply Forall_cons; split; [by vm_compute|done]. }
  split.
  - rewrite <- (app_nil_r (enc_attr _ _ _)).
    rewrite (parse_roundtrip _ true seg_ex [block_ex 1] []);
      [done|done|simpl; lia|by repeat (apply Forall_cons; split; [apply W|])|by vm_compute].
  - rewrite <- (app_nil_r (enc_attr _ _ _)).
    rewrite (parse_roundtrip _ true seg_ex [block_ex 1; block_ex 2] []);
      [done|done|simpl; lia|by repeat (apply Forall_cons; split; [apply W|])|by vm_compute].
Defined.

(** An attribute whose first signature block claims one byte more than there
    is: the remainder wraps around and the parser looks for a second block
    behind the attribute. *)
Example parse_short_remainder :
  _ski_parseBGPsec_PATH (mkUpdInfo 0 0 0 None [0; 0] None)
    (Some ([128; 33; 11] ++ be16 8 ++ [1; 0; 0; 0; 0; 1] ++ be16 4 ++ [1]))
  = Fault OutOfBounds.
Proof. reflexivity. Qed.

End BgpsecPath.
