(* ===== verification/RpkiQueue.v ===== *)
(** * RPKI queue (server/rpki_queue.c)

    The queue of updates whose validation state may have changed.  The linked
    list is the Rocq list of its elements in order; the queue carries the
    [size] counter and the binary semaphore of the source. *)
From S2P Require Import Prelude Locks SrxIdentifier.

Module RpkiQueue.

(** ** Data *)

(** [e_RPKI_QUEUE_REASON]: a bit mask. *)
Definition RQ_ROA : Z := 1.
Definition RQ_KEY : Z := 2.
Definition RQ_BOTH : Z := 3.
Definition RQ_ASPA : Z := 4.
Definition RQ_ALL : Z := 7.

Record RPKI_QUEUE_ELEM := mkElem { reason : Z; updateID : Z }.

(** [_RPKI_QUEUE]: the list starting at [head], the counter, the semaphore. *)
Record _RPKI_QUEUE := mkQueue {
  elems : list RPKI_QUEUE_ELEM;
  size : Z;
  semaphore : Z
}.

#[export] Instance RPKI_QUEUE_ELEM_eq_dec : EqDecision RPKI_QUEUE_ELEM.
Proof. solve_decision. Defined.

(** ** Operations *)

(** [_rq_lock] (its argument is not NULL at the callers). *)
Definition _rq_lock (rQueue : _RPKI_QUEUE) : outcome _RPKI_QUEUE :=
  v ← sem_wait (semaphore rQueue);
  Ok (mkQueue (elems rQueue) (size rQueue) v).

(** [_rq_unlock] posts only when the semaphore is taken; its return value is
    ignored by every caller. *)
Definition _rq_unlock (rQueue : _RPKI_QUEUE) : _RPKI_QUEUE :=
  if semaphore rQueue =? 0
  then mkQueue (elems rQueue) (size rQueue) (sem_post (semaphore rQueue))
  else rQueue.

Definition __rq_createQueueElem (r id : Z) : RPKI_QUEUE_ELEM := mkElem r id.

Definition rq_createQueue : _RPKI_QUEUE := mkQueue [] 0 1.

(** [_rq_dequeue]: the element copied out, if any. *)
Definition _rq_dequeue (rQueue : _RPKI_QUEUE)
    : outcome (_RPKI_QUEUE * option RPKI_QUEUE_ELEM) :=
  if size rQueue =? 0 then Ok (rQueue, None)
  else match elems rQueue with
       | [] => Fault NullDeref
       | listElem :: next =>
           Ok (mkQueue next (u32 (size rQueue - 1)) (semaphore rQueue), Some listElem)
       end.

(** The walk of [rq_queue] from [listElem] on: the new list, and whether an
    element was appended (and [size] incremented). *)
Fixpoint rq_queue_walk (r id : Z) (listElem : RPKI_QUEUE_ELEM)
    (next : list RPKI_QUEUE_ELEM) : list RPKI_QUEUE_ELEM * bool :=
  if negb (compareSrxUpdateID (updateID listElem) id SRX_UID_BOTH =? 0) then
    match next with
    | e :: next' =>
        let '(l, added) := rq_queue_walk r id e next' in (listElem :: l, added)
    | [] => ([listElem; __rq_createQueueElem r id], true)
    end
  else if negb (reason listElem =? r)
       then (mkElem RQ_ALL (updateID listElem) :: next, false)
       else (listElem :: next, false).

(** A queue pointer as the interface functions receive it ([RPKI_QUEUE*]);
    [None] is NULL. *)
Definition RPKI_QUEUE : Type := option _RPKI_QUEUE.

Definition rq_queue (queue : RPKI_QUEUE) (r id : Z) : outcome RPKI_QUEUE :=
  match queue with
  | None => Ok None
  | Some rQueue =>
      rQueue ← _rq_lock rQueue;
      let rQueue :=
        match elems rQueue with
        | listElem :: next =>
            let '(l, added) := rq_queue_walk r id listElem next in
            mkQueue l (if added then u32 (size rQueue + 1) else size rQueue) (semaphore rQueue)
        | [] => mkQueue [__rq_createQueueElem r id] (u32 (size rQueue + 1)) (semaphore rQueue)
        end in
      Ok (Some (_rq_unlock rQueue))
  end.

(** The element copied out ([None]: the return value is [false]). *)
Definition rq_dequeue (queue : RPKI_QUEUE) : outcome (RPKI_QUEUE * option RPKI_QUEUE_ELEM) :=
  match queue with
  | None => Ok (None, None)
  | Some rQueue =>
      rQueue ← _rq_lock rQueue;
      '(rQueue, e) ← _rq_dequeue rQueue;
      Ok (Some (_rq_unlock rQueue), e)
  end.

(** The loop [while (_rq_dequeue(rQueue, &elem)) {}]. *)
Fixpoint rq_drain (fuel : nat) (rQueue : _RPKI_QUEUE) : outcome _RPKI_QUEUE :=
  match fuel with
  | O => Fault OutOfFuel
  | S n => '(q, e) ← _rq_dequeue rQueue;
           match e with Some _ => rq_drain n q | None => Ok q end
  end.

(** Fuel: one round per element and one that finds the queue empty. *)
Definition rq_empty (queue : RPKI_QUEUE) : outcome RPKI_QUEUE :=
  match queue with
  | None => Ok None
  | Some rQueue =>
      rQueue ← _rq_lock rQueue;
      rQueue ← rq_drain (S (length (elems rQueue))) rQueue;
      Ok (Some (_rq_unlock rQueue))
  end.

(** [rq_releaseQueue]: everything is freed; the caller keeps a dangling pointer,
    for which the model has no value. *)
Definition rq_releaseQueue (queue : RPKI_QUEUE) : outcome unit :=
  match queue with
  | None => Ok ()
  | Some _ => _ ← rq_empty queue; Ok ()
  end.

(** The return type [int] reads the counter as signed. *)
Definition rq_size (queue : RPKI_QUEUE) : Z :=
  match queue with None => 0 | Some rQueue => signed 32 (size rQueue) end.

(** ** Specification *)

(** Well-formed queue between operations: the counter counts, no identifier is
    listed twice, the semaphore is free. *)
Record rq_wf (q : _RPKI_QUEUE) : Prop := mk_rq_wf {
  rq_wf_size : size q = Z.of_nat (length (elems q)) /\ in_u 32 (size q);
  rq_wf_ids : Forall (fun e => in_u 32 (updateID e)) (elems q);
  rq_wf_nodup : NoDup (updateID <$> elems q);
  rq_wf_sem : semaphore q = 1
}.

(** What [rq_queue] promises: the reason of a queued update becomes [RQ_ALL]
    when another reason arrives, a new update goes to the end. *)
Definition merge_reason (old new : Z) : Z := if old =? new then old else RQ_ALL.
Fixpoint queue_spec (r id : Z) (l : list RPKI_QUEUE_ELEM) : list RPKI_QUEUE_ELEM :=
  match l with
  | [] => [mkElem r id]
  | e :: l' => if decide (updateID e = id)
               then mkElem (merge_reason (reason e) r) id :: l'
               else e :: queue_spec r id l'
  end.
(** The reason under which an update is queued. *)
Fixpoint queued (l : list RPKI_QUEUE_ELEM) (id : Z) : option Z :=
  match l with
  | [] => None
  | e :: l' => if decide (updateID e = id) then Some (reason e) else queued l' id
  end.

(** ** The walk implements the specification *)
Lemma rq_queue_walk_spec r id e next :
  in_u 32 id -> Forall (fun e => in_u 32 (updateID e)) (e :: next) ->
  rq_queue_walk r id e next
  = (queue_spec r id (e :: next), bool_decide (queued (e :: next) id = None)).
Proof.
  intros Hid. revert e. induction next as [|e' next IH]; intros e [He Hn]%Forall_cons.
  - simpl. destruct (Z.eqb_spec (compareSrxUpdateID (updateID e) id SRX_UID_BOTH) 0) as [E|E];
      rewrite compareSrxUpdateID_eq in E by done; simpl.
    + rewrite !decide_True by done. unfold merge_reason.
      destruct (Z.eqb_spec (reason e) r); simpl; subst; [by destruct e|done].
    + by rewrite !decide_False by done.
  - cbn [rq_queue_walk queue_spec queued].
    destruct (Z.eqb_spec (compareSrxUpdateID (updateID e) id SRX_UID_BOTH) 0) as [E|E];
      rewrite compareSrxUpdateID_eq in E by done; cbn [negb].
    + rewrite !decide_True by done. unfold merge_reason.
      destruct (Z.eqb_spec (reason e) r); simpl; subst; [by destruct e|done].
    + rewrite IH by done. cbn [queue_spec queued].
      by rewrite !(decide_False (P := updateID e = id)) by done.
Qed.

Lemma queued_None l id : queued l id = None <-> id ∉ (updateID <$> l).
Proof.
  induction l as [|e l IH]; simpl; [set_solver|].
  rewrite not_elem_of_cons. destruct (decide (updateID e = id)); [|rewrite IH]; naive_solver.
Qed.

Lemma queued_Some l id r : queued l id = Some r -> exists e, e ∈ l /\ updateID e = id /\ reason e = r.
Proof.
  induction l as [|e l IH]; [done|]. cbn [queued]. case_decide as E.
  - intros [= <-]. exists e. split; [by left|done].
  - intros (e' & Hin & Heq)%IH. exists e'. split; [by right|done].
Qed.

Lemma queued_elem l e : NoDup (updateID <$> l) -> e ∈ l -> queued l (updateID e) = Some (reason e).
Proof.
  induction l as [|x l IH]; [by intros _ ?%elem_of_nil|]. cbn [queued fmap list_fmap].
  intros [Hx Hnd]%NoDup_cons [->|Hin]%elem_of_cons; [by rewrite decide_True|].
  rewrite decide_False; [by apply IH|]. intros E. apply Hx. rewrite E.
  apply list_elem_of_fmap. by exists e.
Qed.

Lemma queue_spec_queued r id l id' :
  queued (queue_spec r id l) id'
  = if decide (id' = id)
    then Some (from_option (fun old => merge_reason old r) r (queued l id))
    else queued l id'.
Proof.
  induction l as [|e l IH]; simpl.
  - repeat case_decide; naive_solver.
  - destruct (decide (updateID e = id)) as [E|E]; simpl.
    + repeat case_decide; naive_solver.
    + rewrite IH. repeat case_decide; naive_solver.
Qed.

Lemma queue_spec_ids r id l :
  updateID <$> queue_spec r id l
  = (updateID <$> l) ++ (if decide (queued l id = None) then [id] else []).
Proof.
  induction l as [|e l IH]; [done|]. cbn [queue_spec queued].
  destruct (decide (updateID e = id)) as [E|E]; rewrite !fmap_cons.
  - cbn [updateID]. by rewrite app_nil_r, E.
  - by rewrite IH.
Qed.

Lemma rq_lock_wf q : rq_wf q -> _rq_lock q = Ok (mkQueue (elems q) (size q) 0).
Proof. intros H. unfold _rq_lock. by rewrite (rq_wf_sem q H). Qed.

Lemma rq_queue_eq q r id : rq_wf q -> in_u 32 id ->
  rq_queue (Some q) r id
  = Ok (Some (mkQueue (queue_spec r id (elems q))
      (if decide (queued (elems q) id = None) then u32 (size q + 1) else size q) 1)).
Proof.
  intros Hw Hid. unfold rq_queue. rewrite rq_lock_wf by done. simpl_outcome. cbn [elems size].
  destruct (elems q) as [|e l] eqn:E; [done|].
  rewrite rq_queue_walk_spec by (done || (rewrite <- E; apply Hw)).
  unfold _rq_unlock. cbn [semaphore elems size]. do 4 f_equal.
  by repeat (case_decide || case_bool_decide).
Qed.

Lemma rq_queue_wf q r id : rq_wf q -> in_u 32 id ->
  Z.of_nat (length (elems q)) < 2 ^ 32 - 1 ->
  rq_wf (mkQueue (queue_spec r id (elems q))
      (if decide (queued (elems q) id = None) then u32 (size q + 1) else size q) 1).
Proof.
  intros [[Hs Hb] Hi Hn Hse] Hid Hlen.
  assert (length (queue_spec r id (elems q)) = length (updateID <$> queue_spec r id (elems q)))
    as Hl by by rewrite length_fmap.
  rewrite queue_spec_ids, length_app, length_fmap in Hl.
  constructor; cbn [elems size semaphore]; [| |rewrite queue_spec_ids|done].
  - destruct (decide _); simpl in Hl; [|split; [lia|done]].
    rewrite wrap_small by (unfold in_u in *; lia). unfold in_u in *. lia.
  - clear -Hi Hid. induction Hi as [|e l He Hl IH]; simpl; [by constructor|].
    destruct (decide _); constructor; simpl; auto.
  - destruct (decide _) as [E|E]; [|by rewrite app_nil_r].
    apply NoDup_app. split; [done|]. split; [|apply NoDup_singleton].
    apply queued_None in E. set_solver.
Qed.

(** ** The properties of the queue *)

(** [rq_queue] on a well-formed queue always succeeds and keeps it
    well-formed; the update is queued under its reason, or under [RQ_ALL] when
    it was queued for another one, and every other update keeps its reason. *)
Theorem rq_queue_correct q r id :
  rq_wf q -> in_u 32 id -> Z.of_nat (length (elems q)) < 2 ^ 32 - 1 ->
  exists q', rq_queue (Some q) r id = Ok (Some q') /\ rq_wf q'
    /\ (forall id', queued (elems q') id'
         = if decide (id' = id)
           then Some (from_option (fun old => merge_reason old r) r (queued (elems q) id))
           else queued (elems q) id')
    /\ (updateID <$> elems q')
       = (updateID <$> elems q) ++ (if decide (queued (elems q) id = None) then [id] else []).
Proof.
  intros Hw Hid Hlen. eexists. split; [by apply rq_queue_eq|].
  split; [by apply rq_queue_wf|]. split; [intros; apply queue_spec_queued|].
  apply queue_spec_ids.
Qed.

Definition example_queue : _RPKI_QUEUE := mkQueue [mkElem RQ_ROA 7; mkElem RQ_KEY 9] 2 1.
Lemma example_queue_wf : rq_wf example_queue.
Proof.
  constructor; simpl; [split; [done|unfold in_u; lia]| | |done].
  - repeat constructor; unfold in_u; simpl; lia.
  - by apply (bool_decide_unpack _), I.
Qed.

Lemma rq_queue_correct_witness :
  exists q', rq_queue (Some example_queue) RQ_KEY 7 = Ok (Some q')
    /\ queued (elems q') 7 = Some RQ_ALL.
Proof.
  destruct (rq_queue_correct example_queue RQ_KEY 7) as (q' & H1 & _ & H2 & _).
  - apply example_queue_wf.
  - unfold in_u; lia.
  - simpl. lia.
  - exists q'. split; [exact H1|]. exact (H2 7).
Defined.

Lemma rq_dequeue_raw l n s : n <> 0 ->
  _rq_dequeue (mkQueue l n s)
  = match l with [] => Fault NullDeref | e :: l' => Ok (mkQueue l' (u32 (n - 1)) s, Some e) end.
Proof. intros. unfold _rq_dequeue. cbn [size elems]. by destruct (Z.eqb_spec n 0). Qed.

Lemma rq_dequeue_nil q : rq_wf q -> elems q = [] -> rq_dequeue (Some q) = Ok (Some q, None).
Proof.
  intros Hw E. unfold rq_dequeue. rewrite rq_lock_wf by done. simpl_outcome.
  destruct Hw as [[Hs _] _ _ Hse]. rewrite E in *. simpl in Hs.
  destruct q as [l n s]. simpl in *. subst. done.
Qed.

Lemma rq_dequeue_cons q e l : rq_wf q -> elems q = e :: l ->
  let q' := mkQueue l (size q - 1) 1 in rq_dequeue (Some q) = Ok (Some q', Some e) /\ rq_wf q'.
Proof.
  intros Hw E q'. unfold rq_dequeue. rewrite rq_lock_wf by done. simpl_outcome.
  destruct (Hw) as [[Hs Hb] Hi Hn Hse]. rewrite E in *. cbn [length] in Hs. unfold in_u in *.
  rewrite rq_dequeue_raw by lia. simpl_outcome. rewrite wrap_small by (unfold in_u; lia).
  split; [done|]. subst q'. apply Forall_cons in Hi as [_ Hi]. apply NoDup_cons in Hn as [_ Hn].
  constructor; cbn [size elems semaphore]; try done. unfold in_u. lia.
Qed.

(** [rq_dequeue] on a well-formed queue returns the oldest element and
    removes exactly it, or reports the empty queue; the result is well-formed. *)
Theorem rq_dequeue_correct q : rq_wf q ->
  exists q', rq_dequeue (Some q) = Ok (Some q', head (elems q))
    /\ elems q' = tail (elems q) /\ rq_wf q'.
Proof.
  intros Hw. destruct (elems q) as [|e l] eqn:E.
  - exists q. split; [by apply rq_dequeue_nil|]. by rewrite E.
  - destruct (rq_dequeue_cons q e l Hw E) as [Hq Hwf]. eexists. by split; [exact Hq|].
Qed.

Lemma rq_dequeue_correct_witness :
  exists q', rq_dequeue (Some example_queue) = Ok (Some q', Some (mkElem RQ_ROA 7)).
Proof.
  destruct (rq_dequeue_correct example_queue example_queue_wf) as (q' & H & _).
  exists q'. exact H.
Defined.

Lemma rq_drain_wf fuel l s :
  in_u 32 (Z.of_nat (length l)) -> (length l < fuel)%nat ->
  rq_drain fuel (mkQueue l (Z.of_nat (length l)) s) = Ok (mkQueue [] 0 s).
Proof.
  revert l. induction fuel as [|fuel IH]; intros [|e l] Hb Hf; [simpl in Hf; lia..|done|].
  cbn [rq_drain]. rewrite rq_dequeue_raw by (simpl; lia). simpl_outcome.
  unfold in_u in *. simpl length in *.
  replace (u32 (Z.of_nat (S (length l)) - 1)) with (Z.of_nat (length l)).
  - apply IH; lia.
  - rewrite wrap_small by (unfold in_u; lia). lia.
Qed.

(** [rq_empty] terminates on every well-formed queue (the fuel of the model is
    enough) and leaves an empty well-formed queue. *)
Lemma rq_empty_correct q : rq_wf q -> rq_empty (Some q) = Ok (Some rq_createQueue).
Proof.
  intros Hw. unfold rq_empty. rewrite rq_lock_wf by done. simpl_outcome.
  destruct Hw as [[Hs Hb] _ _ _]. cbn [elems]. rewrite Hs, rq_drain_wf by (try lia; congruence).
  done.
Qed.

End RpkiQueue.
