(* ===== verification/AspaTrie.v ===== *)
(** * ASPA database (server/aspa_trie.c, server/aspa_trie.h)

    The trie of ASPA objects, keyed by the decimal digits of the customer AS
    number.  A pointer to an ASPA object is its address with the object: the
    code compares addresses and never writes to an object it has stored. *)
From S2P Require Import Prelude Locks SrxDefs.

Module AspaTrie.

(** ** Data *)

(** The number of children of a node. *)
Definition N : nat := 10.

(** [providerAsns] is NULL ([None]) only when its allocation fails. *)
Record ASPA_Object := mkASPA_Object {
  customerAsn : Z;
  providerAsCount : Z;
  providerAsns : option (list Z);
  afi : Z
}.
Record ASPA_Ptr := mkASPA_Ptr { address : Z; object : ASPA_Object }.

#[export] Instance ASPA_Object_eq_dec : EqDecision ASPA_Object.
Proof. solve_decision. Defined.
#[export] Instance ASPA_Ptr_eq_dec : EqDecision ASPA_Ptr.
Proof. solve_decision. Defined.

(** [userData] is the C string it pointed to when it was stored. *)
#[warnings="-register-all"] Inductive TrieNode :=
  mkTrieNode (data : Z) (children : list (option TrieNode)) (is_leaf : Z)
             (userData : option (list Z)) (aspaObjects : option ASPA_Ptr).

Definition children (n : TrieNode) := let 'mkTrieNode _ cs _ _ _ := n in cs.
Definition is_leaf (n : TrieNode) := let 'mkTrieNode _ _ l _ _ := n in l.
Definition aspaObjects (n : TrieNode) := let 'mkTrieNode _ _ _ _ o := n in o.

(** The manager; [countTrieNode] is the static counter of the file. *)
Record ASPA_DBManager := mkManager {
  tableRoot : option TrieNode;
  countAspaObj : Z;
  countTrieNode : Z;
  tableLock : RWLock
}.

(** ** Creation and release *)

(** Every field of a new node is zeroed except [data]: the two other
    arguments are not stored. *)
Definition make_trienode (data : Z) (userData : option (list Z)) (obj : option ASPA_Ptr)
    : TrieNode :=
  mkTrieNode data (replicate N None) 0 None None.

Definition newAspaTrie : TrieNode := make_trienode 0 None None.

Definition initializeAspaDBManager (counter : Z) : ASPA_DBManager :=
  mkManager (Some newAspaTrie) 0 counter createRWLock.

(** [newASPAObject] at the address the allocator returns.  The copy reads
    [pAsCount] entries of the caller's array; without one the providers stay 0. *)
Definition newASPAObject (addr cusAsn pAsCount : Z) (provAsns : option (list Z)) (afi : Z)
    : outcome ASPA_Ptr :=
  let n := Z.to_nat pAsCount in
  match provAsns with
  | None => Ok (mkASPA_Ptr addr (mkASPA_Object cusAsn pAsCount (Some (replicate n 0)) afi))
  | Some l =>
      if decide (n <= length l)%nat
      then Ok (mkASPA_Ptr addr (mkASPA_Object cusAsn pAsCount (Some (take n l)) afi))
      else Fault OutOfBounds
  end.

(** [deleteASPAObject]: the object is freed and the counter decremented. *)
Definition deleteASPAObject (self : ASPA_DBManager) (obj : option ASPA_Ptr)
    : ASPA_DBManager * bool :=
  match obj with
  | Some _ => (mkManager (tableRoot self) (u32 (countAspaObj self - 1))
                         (countTrieNode self) (tableLock self), true)
  | None => (self, false)
  end.

(** [free_trienode] frees the nodes below [node]; the objects they point to are
    not freed.  The result lists the objects that become unreachable. *)
Fixpoint free_trienode (node : TrieNode) : list ASPA_Ptr :=
  let 'mkTrieNode _ cs _ _ o := node in
  flat_map (fun c => match c with Some n => free_trienode n | None => [] end) cs
  ++ option_list o.

(** [emptyAspaDB]; [free_trienode] dereferences its argument. *)
Definition emptyAspaDB (self : ASPA_DBManager) : outcome ASPA_DBManager :=
  lock ← acquireWriteLock (tableLock self);
  match tableRoot self with
  | None => Fault NullDeref
  | Some _ => lock ← unlockWriteLock lock; Ok (mkManager None 0 (countTrieNode self) lock)
  end.

(** [releaseAspaDBManager] destroys the lock before it empties the database. *)
Definition releaseAspaDBManager (self : option ASPA_DBManager)
    : outcome (option ASPA_DBManager) :=
  match self with
  | None => Ok None
  | Some self =>
      lock ← releaseRWLock (tableLock self);
      self ← emptyAspaDB (mkManager (tableRoot self) (countAspaObj self)
                                    (countTrieNode self) lock);
      Ok (Some self)
  end.

(** ** Comparison of objects *)
Fixpoint compare_providers (n : nat) (l1 l2 : list Z) : outcome bool :=
  match n with
  | O => Ok true
  | S n => match l1, l2 with
           | x :: l1', y :: l2' => if negb (x =? y) then Ok false else compare_providers n l1' l2'
           | _, _ => Fault OutOfBounds
           end
  end.

Definition compareAspaObject (obj1 obj2 : option ASPA_Ptr) : outcome bool :=
  match obj1, obj2 with
  | Some p1, Some p2 =>
      let o1 := object p1 in let o2 := object p2 in
      if negb (customerAsn o1 =? customerAsn o2) then Ok false
      else if negb (providerAsCount o1 =? providerAsCount o2) then Ok false
      else if negb (afi o1 =? afi o2) then Ok false
      else match Z.to_nat (providerAsCount o1), providerAsns o1, providerAsns o2 with
           | O, _, _ => Ok true
           | n, Some l1, Some l2 => compare_providers n l1 l2
           | _, _, _ => Fault NullDeref
           end
  | _, _ => Ok false
  end.

(** ** The walk down the trie *)

(** [temp->children[position]] *)
Definition child_at (node : TrieNode) (position : Z) : outcome (option TrieNode) :=
  if position <? 0 then Fault OutOfBounds
  else match children node !! Z.to_nat position with
       | Some c => Ok c
       | None => Fault OutOfBounds
       end.
Definition set_child (node : TrieNode) (position : Z) (c : option TrieNode) : TrieNode :=
  let 'mkTrieNode d cs l u o := node in mkTrieNode d (<[Z.to_nat position := c]> cs) l u o.

(** The loop of [search_trie], [findAspaObject] and [delete_TrieNode_AspaObj]:
    the node the word leads to, [None] when a child is missing. *)
Fixpoint find_node (temp : TrieNode) (word : list Z) : outcome (option TrieNode) :=
  match word with
  | [] => Ok (Some temp)
  | c :: word' =>
      child ← child_at temp (c - 48);
      match child with
      | None => Ok None
      | Some n => find_node n word'
      end
  end.
(** The same loop from [tableRoot], which may be NULL. *)
Definition find_from (root : option TrieNode) (word : list Z) : outcome (option TrieNode) :=
  match root, word with
  | Some r, _ => find_node r word
  | None, [] => Ok None
  | None, _ :: _ => Fault NullDeref
  end.

Definition search_trie (root : option TrieNode) (word : list Z) : outcome Z :=
  temp ← find_from root word;
  match temp with
  | Some n => Ok (if is_leaf n =? 1 then 1 else 0)
  | None => Ok 0
  end.

Definition findAspaObject (self : ASPA_DBManager) (word : list Z)
    : outcome (ASPA_DBManager * option ASPA_Ptr) :=
  lock ← acquireWriteLock (tableLock self);
  temp ← find_from (tableRoot self) word;
  let obj := match temp with
             | Some n => if is_leaf n =? 1 then aspaObjects n else None
             | None => None
             end in
  lock ← unlockWriteLock lock;
  Ok (mkManager (tableRoot self) (countAspaObj self) (countTrieNode self) lock, obj).

(** ** Insertion: missing nodes are created; the node of the word becomes a
    leaf holding the object.  The object it held before is returned. *)
Fixpoint insert_walk (word : list Z) (userData : option (list Z)) (obj : option ASPA_Ptr)
    (temp : TrieNode) : outcome (TrieNode * option ASPA_Ptr) :=
  match word with
  | [] => let 'mkTrieNode d cs _ _ old := temp in Ok (mkTrieNode d cs 1 userData obj, old)
  | c :: word' =>
      let idx := c - 48 in
      child ← child_at temp idx;
      let next := match child with Some n => n | None => make_trienode c userData obj end in
      '(next, old) ← insert_walk word' userData obj next;
      Ok (set_child temp idx (Some next), old)
  end.

(** The returned flag tells whether the returned node pointer is not NULL. *)
Definition insertAspaObj (self : ASPA_DBManager) (word : list Z) (userData : option (list Z))
    (obj : option ASPA_Ptr) : outcome (ASPA_DBManager * bool) :=
  lock ← acquireWriteLock (tableLock self);
  match tableRoot self, word with
  | None, [] => lock ← unlockWriteLock lock;
                Ok (mkManager None (countAspaObj self) (countTrieNode self) lock, false)
  | None, _ :: _ => Fault NullDeref
  | Some root, _ =>
      '(root, old) ← insert_walk word userData obj root;
      let self := mkManager (Some root) (countAspaObj self) (countTrieNode self) lock in
      let self :=
        if bool_decide (is_Some old /\ old <> obj)
        then let self := (deleteASPAObject self old).1 in
             mkManager (tableRoot self) (countAspaObj self) (u32 (countTrieNode self - 1))
                       (tableLock self)
        else self in
      lock ← unlockWriteLock (tableLock self);
      Ok (mkManager (tableRoot self) (u32 (countAspaObj self + 1))
                    (u32 (countTrieNode self + 1)) lock, true)
  end.

Definition getCountTrieNode (self : ASPA_DBManager) : Z := countTrieNode self.

(** ** Deletion *)

(** [parent->children[position] = NULL] for the parent of the word's node;
    the parent of the root is NULL. *)
Fixpoint prune (node : TrieNode) (word : list Z) : outcome TrieNode :=
  match word with
  | [] => Fault NullDeref
  | [c] => Ok (set_child node (c - 48) None)
  | c :: word' =>
      child ← child_at node (c - 48);
      match child with
      | None => Fault NullDeref
      | Some n => n ← prune n word'; Ok (set_child node (c - 48) (Some n))
      end
  end.

Definition delete_TrieNode_AspaObj (self : ASPA_DBManager) (word : list Z)
    (obj : option ASPA_Ptr) : outcome (ASPA_DBManager * bool) :=
  lock ← acquireWriteLock (tableLock self);
  let self := mkManager (tableRoot self) (countAspaObj self) (countTrieNode self) lock in
  temp ← find_from (tableRoot self) word;
  match temp, tableRoot self with
  | Some n, Some root =>
      same ← (if (is_leaf n =? 1) && bool_decide (is_Some (aspaObjects n))
              then compareAspaObject (aspaObjects n) obj else Ok false);
      if (same : bool) then
        let self := (deleteASPAObject self (aspaObjects n)).1 in
        root ← prune root word;
        lock ← unlockWriteLock (tableLock self);
        Ok (mkManager (Some root) (countAspaObj self) (countTrieNode self) lock, true)
      else
        lock ← unlockWriteLock (tableLock self);
        Ok (mkManager (tableRoot self) (countAspaObj self) (countTrieNode self) lock, false)
  | _, _ =>
      lock ← unlockWriteLock (tableLock self);
      Ok (mkManager (tableRoot self) (countAspaObj self) (countTrieNode self) lock, false)
  end.

(** ** The lookup of a customer-provider pair *)
Definition MAX_ASN_LENGTH : nat := 7.

Fixpoint provider_loop (n : nat) (l : list Z) (obj_afi providerAsn a : Z) : outcome Z :=
  match n with
  | O => Ok ASPA_RESULT_INVALID
  | S n => match l with
           | p :: l' => if (p =? providerAsn) && (obj_afi =? a) then Ok ASPA_RESULT_VALID
                        else provider_loop n l' obj_afi providerAsn a
           | [] => Fault OutOfBounds
           end
  end.

Definition ASPA_DB_lookup (self : ASPA_DBManager) (cusAsn providerAsn a : Z)
    : outcome (ASPA_DBManager * Z) :=
  strCusAsn ← sprintf_d MAX_ASN_LENGTH cusAsn;
  '(self, obj) ← findAspaObject self strCusAsn;
  match obj with
  | None => Ok (self, ASPA_RESULT_UNKNOWN)
  | Some p =>
      match providerAsns (object p) with
      | Some l => r ← provider_loop (Z.to_nat (providerAsCount (object p))) l
                                    (afi (object p)) providerAsn a;
                  Ok (self, r)
      | None => Ok (self, ASPA_RESULT_UNDEFINED)
      end
  end.

(** ** The abstract database: a partial map from words to objects *)

Definition digit (c : Z) : Prop := 48 <= c <= 57.
Abbreviation digits := (Forall digit).

(** The object stored under a word. *)
Definition trie_get (t : TrieNode) (word : list Z) : option ASPA_Ptr :=
  match find_node t word with
  | Ok (Some n) => if is_leaf n =? 1 then aspaObjects n else None
  | _ => None
  end.

(** The number of objects stored in a trie, or below a child. *)
Definition trie_count (t : TrieNode) : nat := length (free_trienode t).
Definition child_count (c : option TrieNode) : nat :=
  match c with Some n => trie_count n | None => 0%nat end.

(** Every node has [N] children and only leaves hold an object. *)
Inductive trie_wf : TrieNode -> Prop :=
| trie_wf_node d cs l u o :
    length cs = N ->
    (is_Some o -> l = 1) ->
    (forall i n, cs !! i = Some (Some n) -> trie_wf n) ->
    trie_wf (mkTrieNode d cs l u o).

(** ** The walk *)
Lemma child_at_wf t c : trie_wf t -> digit c ->
  exists ch, children t !! Z.to_nat (c - 48) = Some ch /\ child_at t (c - 48) = Ok ch
    /\ (forall n, ch = Some n -> trie_wf n).
Proof.
  unfold digit. intros [d cs l u o Hl _ Hcs] Hc. unfold child_at. cbn [children].
  destruct (Z.ltb_spec (c - 48) 0); [lia|].
  destruct (cs !! Z.to_nat (c - 48)) as [ch|] eqn:E.
  - exists ch. split; [done|]. split; [done|]. intros n ->. by eapply Hcs.
  - apply lookup_ge_None in E. unfold N in Hl. lia.
Qed.

Lemma digit_index_inj c c' : digit c -> digit c' ->
  Z.to_nat (c - 48) = Z.to_nat (c' - 48) -> c = c'.
Proof. unfold digit. lia. Qed.

Lemma trie_get_cons t c w : trie_wf t -> digit c ->
  trie_get t (c :: w)
  = match children t !! Z.to_nat (c - 48) with Some (Some n) => trie_get n w | _ => None end.
Proof.
  intros Ht Hc. destruct (child_at_wf t c Ht Hc) as (ch & E1 & E2 & _).
  unfold trie_get. cbn [find_node]. rewrite E1, E2. by destruct ch.
Qed.

Lemma trie_get_nil t : trie_wf t -> trie_get t [] = aspaObjects t.
Proof.
  intros [d cs l u o _ Ho _]. unfold trie_get. cbn.
  destruct o; [by rewrite Ho|by destruct (l =? 1)].
Qed.

Lemma make_trienode_wf c u o : trie_wf (make_trienode c u o).
Proof.
  constructor; [done|by intros []|].
  intros i n H. by apply lookup_replicate in H as [? _].
Qed.

Lemma trie_get_new c u o w : digits w -> trie_get (make_trienode c u o) w = None.
Proof.
  intros Hw. destruct Hw as [|d w Hd Hw]; [done|].
  rewrite trie_get_cons by (done || apply make_trienode_wf). cbn [children make_trienode].
  by destruct (replicate N None !! _) as [[n|]|] eqn:E;
    [by apply lookup_replicate in E as [? _]|..].
Qed.

(** On a well-formed trie the walk of a digit word never faults. *)
Lemma find_node_wf t w : trie_wf t -> digits w ->
  exists r, find_node t w = Ok r /\ forall n, r = Some n -> trie_wf n.
Proof.
  intros Ht Hw. revert t Ht. induction Hw as [|c w Hc Hw IH]; intros t Ht; cbn [find_node].
  - exists (Some t). split; [done|]. intros n ?. by simplify_eq.
  - destruct (child_at_wf t c Ht Hc) as (ch & _ & -> & Hn). simpl_outcome.
    destruct ch as [n|]; [by apply IH, Hn|]. by exists None.
Qed.

Lemma set_child_wf t i c : trie_wf t -> (forall n, c = Some n -> trie_wf n) ->
  trie_wf (set_child t i c).
Proof.
  intros [d cs l u o Hl Ho Hcs] Hc. constructor; [by rewrite length_insert|done|].
  intros j n [(_ & -> & _)|[_ E]]%list_lookup_insert_Some; [by apply Hc|by eapply Hcs].
Qed.

Lemma children_set_child t i c :
  children (set_child t i c) = <[Z.to_nat i := c]> (children t).
Proof. by destruct t. Qed.

Lemma aspaObjects_set_child t i c : aspaObjects (set_child t i c) = aspaObjects t.
Proof. by destruct t. Qed.

(** Reading a trie in which one child was replaced. *)
Lemma trie_get_set_child t c ch w : trie_wf t -> digit c ->
  (forall n, ch = Some n -> trie_wf n) -> digits w ->
  trie_get (set_child t (c - 48) ch) w
  = match w with
    | c' :: w' => if decide (c' = c)
                  then match ch with Some n => trie_get n w' | None => None end
                  else trie_get t w
    | [] => trie_get t w
    end.
Proof.
  intros Ht Hc Hch Hw. destruct Hw as [|c' w Hc' Hw].
  - rewrite !trie_get_nil by auto using set_child_wf. by rewrite aspaObjects_set_child.
  - rewrite !trie_get_cons by auto using set_child_wf. rewrite children_set_child.
    destruct (decide (c' = c)) as [->|Hne].
    + destruct (child_at_wf t c Ht Hc) as (? & E & _ & _).
      rewrite list_lookup_insert_eq by (by eapply lookup_lt_Some). done.
    + rewrite list_lookup_insert_ne; [done|]. intros E. apply Hne. symmetry.
      by apply digit_index_inj.
Qed.

Lemma length_flat_map_insert {A B} (f : A -> list B) l i x y :
  l !! i = Some y ->
  (length (flat_map f (<[i := x]> l)) + length (f y) = length (flat_map f l) + length (f x))%nat.
Proof.
  revert i. induction l as [|z l IH]; intros [|i] H; simplify_eq/=; rewrite ?length_app; [lia|].
  specialize (IH _ H). lia.
Qed.

Lemma trie_count_set_child t i c old :
  children t !! Z.to_nat i = Some old ->
  (trie_count (set_child t i c) + child_count old = trie_count t + child_count c)%nat.
Proof.
  destruct t as [d cs l u o]. cbn [children]. intros H. unfold trie_count.
  cbn [set_child free_trienode]. rewrite !length_app.
  pose proof (length_flat_map_insert
    (fun c => match c with Some n => free_trienode n | None => [] end) cs _ c old H) as E.
  destruct c, old; cbn [child_count length] in *; unfold trie_count; lia.
Qed.

(** ** Insertion *)
Lemma insert_walk_spec w u obj : digits w -> forall t, trie_wf t ->
  exists t', insert_walk w u obj t = Ok (t', trie_get t w) /\ trie_wf t'
    /\ (forall w', digits w' -> trie_get t' w' = if decide (w' = w) then obj else trie_get t w')
    /\ (trie_count t' + length (option_list (trie_get t w))
        = trie_count t + length (option_list obj))%nat.
Proof.
  induction 1 as [|c w Hc Hw IH]; intros t Ht; cbn [insert_walk].
  - rewrite trie_get_nil by done. destruct t as [d cs l ud o]. inversion Ht; subst.
    eexists. split; [done|].
    assert (trie_wf (mkTrieNode d cs 1 u obj)) as Hwf by by constructor.
    split; [done|]. split.
    + intros [|c w'] Hw'; [by rewrite trie_get_nil, decide_True|].
      apply Forall_cons in Hw' as [Hc Hw'].
      by rewrite decide_False, !trie_get_cons by done.
    + unfold trie_count. cbn [free_trienode aspaObjects]. rewrite !length_app. lia.
  - destruct (child_at_wf t c Ht Hc) as (ch & E1 & -> & Hn). simpl_outcome.
    set (next := match ch with Some n => n | None => make_trienode c u obj end).
    assert (trie_wf next) as Hnext by (unfold next; destruct ch; auto using make_trienode_wf).
    assert (trie_get t (c :: w) = trie_get next w) as ->.
    { rewrite trie_get_cons, E1 by done. subst next. destruct ch; [done|].
      by rewrite trie_get_new. }
    destruct (IH next Hnext) as (t' & -> & Hwf & Hget & Hcnt). simpl_outcome.
    eexists. split; [done|]. split; [apply set_child_wf; naive_solver|]. split.
    + intros w' Hw'. rewrite trie_get_set_child by naive_solver.
      destruct Hw' as [|c' w' Hc' Hw']; [done|].
      destruct (decide (c' = c)) as [->|Hne]; [|by rewrite decide_False by congruence].
      rewrite Hget by done. destruct (decide (w' = w)) as [->|Hne].
      * by rewrite decide_True.
      * rewrite decide_False by congruence. rewrite trie_get_cons, E1 by done.
        subst next. destruct ch; [done|]. by rewrite trie_get_new.
    + pose proof (trie_count_set_child t (c - 48) (Some t') ch E1) as Hc2.
      subst next. destruct ch; simpl in Hc2; [lia|].
      change (trie_count (make_trienode c u obj)) with 0%nat in Hcnt. lia.
Qed.

(** ** Deletion: the whole subtree of the word goes *)
Lemma prune_spec w : digits w -> w <> [] -> forall t n, trie_wf t ->
  find_node t w = Ok (Some n) ->
  exists t', prune t w = Ok t' /\ trie_wf t'
    /\ (forall w', digits w' ->
          trie_get t' w' = if decide (w `prefix_of` w') then None else trie_get t w')
    /\ (trie_count t' + trie_count n = trie_count t)%nat.
Proof.
  induction 1 as [|c w Hc Hw IH]; [done|]. intros _ t n Ht Hfind. cbn [find_node] in Hfind.
  destruct (child_at_wf t c Ht Hc) as (ch & E1 & E2 & Hn). rewrite E2 in Hfind.
  destruct ch as [m|]; [|discriminate]. cbn [mbind outcome_bind] in Hfind.
  destruct w as [|c2 w].
  - injection Hfind as ->. cbn [prune]. eexists. split; [done|].
    split; [by apply set_child_wf|]. split.
    + intros w' Hw'. rewrite trie_get_set_child by done.
      destruct Hw' as [|c' w' Hc' Hw']; [by rewrite decide_False by (by intros [? ?])|].
      destruct (decide (c' = c)) as [->|Hne]; [by rewrite decide_True by (by exists w')|].
      rewrite decide_False; [done|]. by intros [? [= ? ?]].
    + pose proof (trie_count_set_child t (c - 48) None (Some n) E1) as E. simpl in E. lia.
  - assert (trie_wf m) as Hm by auto.
    destruct (IH ltac:(done) m n Hm Hfind) as (t' & Hp & Hwf & Hget & Hcnt).
    exists (set_child t (c - 48) (Some t')).
    split; [change (prune t (c :: c2 :: w)) with
      (child ← child_at t (c - 48);
       match child with
       | None => Fault NullDeref
       | Some n => n ← prune n (c2 :: w); Ok (set_child t (c - 48) (Some n))
       end); by rewrite E2; simpl_outcome; rewrite Hp|].
    split; [apply set_child_wf; naive_solver|]. split.
    + intros w' Hw'. rewrite trie_get_set_child by naive_solver.
      destruct Hw' as [|c' w' Hc' Hw']; [by rewrite decide_False by (by intros [? ?])|].
      destruct (decide (c' = c)) as [->|Hne].
      * rewrite Hget by done. rewrite (trie_get_cons t c w') by done. rewrite E1.
        destruct (decide (c2 :: w `prefix_of` w')) as [Hpre|Hpre].
        -- by rewrite decide_True by (by apply prefix_cons).
        -- rewrite decide_False; [done|]. intros H. by apply prefix_cons_inv_2 in H.
      * rewrite decide_False; [done|]. intros H. by apply prefix_cons_inv_1 in H.
    + pose proof (trie_count_set_child t (c - 48) (Some t') (Some m) E1) as E. simpl in E. lia.
Qed.

(** ** The database *)

Definition object_wf (o : ASPA_Object) : Prop :=
  exists l, providerAsns o = Some l /\ providerAsCount o = Z.of_nat (length l).

Definition db_get (self : ASPA_DBManager) (word : list Z) : option ASPA_Ptr :=
  match tableRoot self with Some r => trie_get r word | None => None end.
Definition db_count (self : ASPA_DBManager) : nat :=
  match tableRoot self with Some r => trie_count r | None => 0%nat end.

(** Between operations: a well-formed trie of well-formed objects whose number
    the counter holds, and a free lock. *)
Record db_wf (self : ASPA_DBManager) : Prop := mk_db_wf {
  db_wf_root : exists r, tableRoot self = Some r /\ trie_wf r;
  db_wf_objects : forall w p, digits w -> db_get self w = Some p -> object_wf (object p);
  db_wf_count : countAspaObj self = u32 (Z.of_nat (db_count self));
  db_wf_lock : tableLock self = RW_free
}.

Lemma initialize_wf k : db_wf (initializeAspaDBManager k).
Proof.
  constructor; [|..|done|done].
  - eexists. split; [done|]. apply make_trienode_wf.
  - intros w p Hw. unfold db_get. cbn [tableRoot initializeAspaDBManager].
    change (trie_get newAspaTrie w = Some p -> object_wf (object p)).
    unfold newAspaTrie. by rewrite trie_get_new.
Qed.

Lemma u32_succ_of x y : x = u32 y -> u32 (x + 1) = u32 (y + 1).
Proof. intros ->. unfold wrap. by rewrite Zplus_mod_idemp_l. Qed.
Lemma u32_pred_of x y : x = u32 y -> u32 (x - 1) = u32 (y - 1).
Proof. intros ->. unfold wrap. by rewrite Zminus_mod_idemp_l. Qed.

Lemma findAspaObject_eq self w : db_wf self -> digits w ->
  findAspaObject self w = Ok (self, db_get self w).
Proof.
  intros [(r & Hr & Ht) _ _ Hl] Hw. destruct self as [root cnt cnt2 lock].
  simpl in Hr, Hl. subst root lock. unfold findAspaObject, db_get. simpl_outcome.
  cbn [tableRoot tableLock acquireWriteLock]. simpl_outcome.
  cbn [find_from]. unfold trie_get.
  destruct (find_node_wf r w Ht Hw) as (n & E & _). rewrite !E. simpl_outcome.
  cbn [unlockWriteLock unlockRWLock countAspaObj countTrieNode]. simpl_outcome.
  by destruct n.
Qed.

Lemma db_get_root self r w : tableRoot self = Some r -> db_get self w = trie_get r w.
Proof. unfold db_get. by intros ->. Qed.

(** ** Comparison *)
Lemma compare_providers_eq l1 l2 : length l1 = length l2 ->
  compare_providers (length l1) l1 l2 = Ok (bool_decide (l1 = l2)).
Proof.
  revert l2. induction l1 as [|x l1 IH]; intros [|y l2] Hl; simplify_eq/=; [done|].
  destruct (Z.eqb_spec x y); simpl.
  - rewrite IH by done. f_equal. apply bool_decide_ext. naive_solver.
  - by rewrite bool_decide_false by congruence.
Qed.

Lemma compareAspaObject_eq p1 p2 : object_wf (object p1) -> object_wf (object p2) ->
  compareAspaObject (Some p1) (Some p2) = Ok (bool_decide (object p1 = object p2)).
Proof.
  destruct p1 as [a1 [c1 n1 ? f1]], p2 as [a2 [c2 n2 ? f2]].
  intros (l1 & H1 & Hn1) (l2 & H2 & Hn2). simpl in *. subst.
  unfold compareAspaObject. cbn [object customerAsn providerAsCount providerAsns afi].
  destruct (Z.eqb_spec c1 c2); simpl; [subst|by rewrite bool_decide_false by congruence].
  destruct (Z.eqb_spec (Z.of_nat (length l1)) (Z.of_nat (length l2))) as [E|E]; simpl;
    [|by rewrite bool_decide_false by congruence].
  destruct (Z.eqb_spec f1 f2); simpl; [subst|by rewrite bool_decide_false by congruence].
  rewrite Nat2Z.id. apply Nat2Z.inj in E.
  transitivity (compare_providers (length l1) l1 l2); [by destruct l1|].
  rewrite compare_providers_eq by done. f_equal. apply bool_decide_ext. naive_solver.
Qed.

(** ** Insertion into the database *)
Definition replaced_count (n : Z) (old : option ASPA_Ptr) : Z :=
  match old with Some _ => u32 (n - 1) | None => n end.

Lemma insertAspaObj_eq self r r' w u p :
  tableRoot self = Some r -> tableLock self = RW_free ->
  insert_walk w u (Some p) r = Ok (r', trie_get r w) -> trie_get r w <> Some p ->
  insertAspaObj self w u (Some p)
  = Ok (mkManager (Some r') (u32 (replaced_count (countAspaObj self) (trie_get r w) + 1))
          (u32 (replaced_count (countTrieNode self) (trie_get r w) + 1)) RW_free, true).
Proof.
  intros Hr Hl Hi Hne. unfold insertAspaObj. rewrite Hl, Hr. cbn [acquireWriteLock].
  simpl_outcome. rewrite Hi. simpl_outcome. destruct (trie_get r w) as [q|].
  - rewrite bool_decide_true by naive_solver. done.
  - by rewrite bool_decide_false by (by intros [[? ?] _]).
Qed.

(** ** The properties of the database *)

(** The database after an insertion is well-formed again. *)
Lemma insert_walk_db self w u p k :
  db_wf self -> digits w -> object_wf (object p) ->
  exists r r', tableRoot self = Some r /\ insert_walk w u (Some p) r = Ok (r', trie_get r w)
    /\ let self' := mkManager (Some r')
                      (u32 (replaced_count (countAspaObj self) (trie_get r w) + 1)) k RW_free in
       db_wf self'
       /\ (forall w', digits w' ->
             db_get self' w' = if decide (w' = w) then Some p else db_get self w')
       /\ (db_count self' + length (option_list (trie_get r w)) = db_count self + 1)%nat.
Proof.
  intros [(r & Hr & Ht) Ho Hc _] Hw Hp.
  destruct (insert_walk_spec w u (Some p) Hw r Ht) as (r' & Hi & Ht' & Hget & Hcnt).
  exists r, r'. split; [done|]. split; [done|]. intros self'.
  assert (db_count self = trie_count r) as Hdc by (unfold db_count; by rewrite Hr).
  assert (forall w', digits w' ->
    db_get self' w' = if decide (w' = w) then Some p else db_get self w') as Hg.
  { intros w' Hw'. rewrite (db_get_root _ r'), (db_get_root self r) by done. by apply Hget. }
  assert (db_count self' + length (option_list (trie_get r w)) = db_count self + 1)%nat as Hn.
  { rewrite Hdc. unfold db_count. simpl in *. lia. }
  split; [constructor|by split].
  - by exists r'.
  - intros w' q Hw'. rewrite Hg by done. case_decide; [by intros [= <-]|by apply Ho].
  - subst self'. cbn [countAspaObj]. unfold replaced_count. destruct (trie_get r w); simpl in Hn.
    + apply u32_pred_of, u32_succ_of in Hc. etrans; [exact Hc|]. f_equal. lia.
    + apply u32_succ_of in Hc. etrans; [exact Hc|]. f_equal. lia.
  - done.
Qed.

(** Storing an object under a word of digits always succeeds and keeps the
    database well-formed: the word now maps to the object, whatever was stored
    there before, every other word keeps its object, and the counter counts. *)
Theorem insertAspaObj_correct self w u p :
  db_wf self -> digits w -> object_wf (object p) -> db_get self w <> Some p ->
  exists self', insertAspaObj self w u (Some p) = Ok (self', true) /\ db_wf self'
    /\ (forall w', digits w' ->
          db_get self' w' = if decide (w' = w) then Some p else db_get self w')
    /\ (db_count self' + length (option_list (db_get self w)) = db_count self + 1)%nat.
Proof.
  intros Hdb Hw Hp Hfresh.
  destruct (insert_walk_db self w u p
    (u32 (replaced_count (countTrieNode self) (db_get self w) + 1)) Hdb Hw Hp)
    as (r & r' & Hr & Hi & Hwf & Hget & Hcnt).
  rewrite (db_get_root self r) in * by done.
  eexists. split; [|by split].
  eapply insertAspaObj_eq; eauto using db_wf_lock.
Qed.

(** An example: the objects of the customers 65 and 650. *)
Definition object_65 : ASPA_Ptr := mkASPA_Ptr 1 (mkASPA_Object 65 2 (Some [10; 20]) AFI_IP).
Definition object_650 : ASPA_Ptr := mkASPA_Ptr 2 (mkASPA_Object 650 1 (Some [30]) AFI_IP).
Lemma object_65_wf : object_wf (object object_65).
Proof. by exists [10; 20]. Qed.
Lemma object_650_wf : object_wf (object object_650).
Proof. by exists [30]. Qed.

Lemma insertAspaObj_correct_witness :
  exists self', insertAspaObj (initializeAspaDBManager 0) [54; 53] None (Some object_65)
                = Ok (self', true)
    /\ db_get self' [54; 53] = Some object_65.
Proof.
  destruct (insertAspaObj_correct (initializeAspaDBManager 0) [54; 53] None object_65)
    as (self' & H1 & _ & H2 & _).
  - apply initialize_wf.
  - repeat constructor; unfold digit; lia.
  - exact object_65_wf.
  - discriminate.
  - exists self'. split; [exact H1|]. apply (H2 [54; 53]). repeat constructor; unfold digit; lia.
Defined.

Definition example_db : ASPA_DBManager :=
  match (r ← insert_walk [54; 53] None (Some object_65) newAspaTrie;
         insert_walk [54; 53; 48] None (Some object_650) r.1) with
  | Ok (r, _) => mkManager (Some r) 2 2 RW_free
  | Fault _ => initializeAspaDBManager 0
  end.
Lemma example_db_wf : db_wf example_db.
Proof.
  assert (digits [54; 53] /\ digits [54; 53; 48]) as [H1 H2]
    by (split; repeat constructor; unfold digit; lia).
  destruct (insert_walk_db (initializeAspaDBManager 0) [54; 53] None object_65 1)
    as (r & r1 & Hr & Hi & Hwf & _); [apply initialize_wf|done|apply object_65_wf|].
  injection Hr as <-. vm_compute in Hi. injection Hi as <-.
  destruct (insert_walk_db _ [54; 53; 48] None object_650 2 Hwf H2 object_650_wf)
    as (r & r2 & Hr & Hi & Hwf2 & _).
  injection Hr as <-. vm_compute in Hi. injection Hi as <-. exact Hwf2.
Qed.

(** ** Deletion from the database *)

(** The objects below the node of a word: what a deletion drops. *)
Definition db_below (self : ASPA_DBManager) (word : list Z) : nat :=
  match tableRoot self with
  | Some r => match find_node r word with Ok (Some n) => trie_count n | _ => 0%nat end
  | None => 0%nat
  end.

Lemma find_from_wf self w : db_wf self -> digits w ->
  exists n, find_from (tableRoot self) w = Ok n
    /\ db_get self w = match n with
                       | Some n => if is_leaf n =? 1 then aspaObjects n else None
                       | None => None
                       end
    /\ db_below self w = child_count n.
Proof.
  intros [(r & Hr & Ht) _ _ _] Hw. rewrite (db_get_root self r) by done.
  unfold db_below, trie_get. rewrite Hr. cbn [find_from].
  destruct (find_node_wf r w Ht Hw) as (n & -> & _). exists n. by destruct n.
Qed.

(** The outcome of the deletion: a match is an object with the same contents. *)
Lemma delete_TrieNode_AspaObj_eq self w p :
  db_wf self -> digits w -> object_wf (object p) ->
  delete_TrieNode_AspaObj self w (Some p)
  = if bool_decide (object <$> db_get self w = Some (object p))
    then match tableRoot self with
         | Some r => r' ← prune r w;
                     Ok (mkManager (Some r') (u32 (countAspaObj self - 1))
                           (countTrieNode self) RW_free, true)
         | None => Fault NullDeref
         end
    else Ok (self, false).
Proof.
  intros Hdb Hw Hp. destruct (find_from_wf self w Hdb Hw) as (n & Hf & Hget & _).
  pose proof (db_wf_objects self Hdb w) as Ho.
  destruct Hdb as [(r & Hr & Ht) _ _ Hl]. destruct self as [root cnt cnt2 lock].
  simpl in Hr, Hl, Hf. subst root lock. unfold delete_TrieNode_AspaObj. simpl_outcome.
  cbn [acquireWriteLock tableLock tableRoot countAspaObj countTrieNode]. simpl_outcome.
  rewrite Hf. simpl_outcome. rewrite Hget in *.
  destruct n as [n|]; [|done]. destruct (is_leaf n =? 1); cbn [andb]; [|done].
  destruct (aspaObjects n) as [q|]; cbn -[compareAspaObject wrap]; [|done].
  rewrite compareAspaObject_eq by eauto. simpl_outcome.
  repeat case_bool_decide; try congruence; done.
Qed.

(** Withdrawing an object succeeds exactly when the word maps to an object
    with the same contents, and otherwise changes nothing.  When it succeeds,
    not only that word but every word that extends it is gone, all others keep
    their objects; the counter is decremented by one only, however many objects
    were dropped, and the file's own count of leaves is not touched at all. *)
Theorem delete_TrieNode_AspaObj_correct self w p :
  db_wf self -> digits w -> w <> [] -> object_wf (object p) ->
  (object <$> db_get self w <> Some (object p) ->
     delete_TrieNode_AspaObj self w (Some p) = Ok (self, false))
  /\ (object <$> db_get self w = Some (object p) ->
     exists self', delete_TrieNode_AspaObj self w (Some p) = Ok (self', true)
       /\ (exists r', tableRoot self' = Some r' /\ trie_wf r')
       /\ (forall w', digits w' ->
             db_get self' w' = if decide (w `prefix_of` w') then None else db_get self w')
       /\ (db_count self' + db_below self w = db_count self)%nat
       /\ countAspaObj self' = u32 (Z.of_nat (db_count self' + db_below self w) - 1)
       /\ countTrieNode self' = countTrieNode self).
Proof.
  intros Hdb Hw Hne Hp. rewrite delete_TrieNode_AspaObj_eq by done.
  destruct (find_from_wf self w Hdb Hw) as (n & Hf & Hget & Hbelow).
  destruct Hdb as [(r & Hr & Ht) _ Hc Hl].
  split; intros Hm; [by rewrite bool_decide_false|]. rewrite bool_decide_true, Hr by done.
  destruct n as [n|]; [|by rewrite Hget in Hm]. rewrite Hr in Hf.
  destruct (prune_spec w Hw Hne r n Ht Hf) as (r' & -> & Ht' & Hget' & Hcnt). simpl_outcome.
  eexists. split; [done|]. split; [by exists r'|].
  assert (db_count self = trie_count r) as Hdc by (unfold db_count; by rewrite Hr).
  rewrite Hdc in *. unfold db_count. cbn [tableRoot countAspaObj countTrieNode].
  rewrite Hbelow. cbn [child_count]. split; [|split; [done|split; [|done]]].
  - intros w' Hw'. rewrite (db_get_root _ r'), (db_get_root self r) by done. by apply Hget'.
  - rewrite Hcnt. by apply u32_pred_of.
Qed.

Lemma delete_TrieNode_AspaObj_correct_witness :
  exists self', delete_TrieNode_AspaObj example_db [54; 53] (Some object_65) = Ok (self', true)
    /\ db_get self' [54; 53; 48] = None.
Proof.
  destruct (delete_TrieNode_AspaObj_correct example_db [54; 53] object_65) as [_ H].
  - apply example_db_wf.
  - repeat constructor; unfold digit; lia.
  - discriminate.
  - exact object_65_wf.
  - destruct (H eq_refl) as (self' & H1 & _ & H2 & _).
    exists self'. split; [exact H1|]. apply (H2 [54; 53; 48]).
    repeat constructor; unfold digit; lia.
Defined.

(** ** Lookups *)
Lemma provider_loop_eq l f c a :
  provider_loop (length l) l f c a
  = Ok (if decide (c ∈ l /\ f = a) then ASPA_RESULT_VALID else ASPA_RESULT_INVALID).
Proof.
  induction l as [|x l IH]; [by rewrite decide_False by set_solver|].
  cbn [length provider_loop].
  destruct (Z.eqb_spec x c) as [->|]; simpl; [destruct (Z.eqb_spec f a)|].
  - by rewrite decide_True by (split; [left|done]).
  - rewrite IH. by rewrite !decide_False by naive_solver.
  - rewrite IH. by repeat case_decide; set_solver.
Qed.

(** What a lookup answers from the abstract database. *)
Definition lookup_spec (self : ASPA_DBManager) (cusAsn providerAsn a : Z) : Z :=
  match db_get self (fmt_d cusAsn) with
  | None => ASPA_RESULT_UNKNOWN
  | Some p => if decide (providerAsn ∈ default [] (providerAsns (object p)) /\ afi (object p) = a)
              then ASPA_RESULT_VALID else ASPA_RESULT_INVALID
  end.

Lemma ASPA_DB_lookup_eq self cusAsn providerAsn a :
  db_wf self -> 0 <= cusAsn < 10 ^ 6 ->
  ASPA_DB_lookup self cusAsn providerAsn a = Ok (self, lookup_spec self cusAsn providerAsn a).
Proof.
  intros Hdb Hc. unfold ASPA_DB_lookup, MAX_ASN_LENGTH, lookup_spec.
  rewrite sprintf_d_ok by (simpl; lia). simpl_outcome.
  assert (digits (fmt_d cusAsn)) as Hd by (apply fmt_d_digit; lia).
  rewrite findAspaObject_eq by done. simpl_outcome.
  destruct (db_get self (fmt_d cusAsn)) as [p|] eqn:E; [|done].
  destruct (db_wf_objects self Hdb _ _ Hd E) as (l & -> & ->).
  by rewrite Nat2Z.id, provider_loop_eq.
Qed.

(** A lookup answers from the object stored for the customer: unknown
    without one, valid when the provider is listed and the object is for the
    address family, invalid otherwise; it never changes the database.  This
    holds for AS numbers of up to six digits: longer ones overflow the buffer of
    seven bytes before the database is consulted. *)
Theorem ASPA_DB_lookup_correct self cusAsn providerAsn a :
  db_wf self -> 0 <= cusAsn < 2 ^ 31 ->
  ASPA_DB_lookup self cusAsn providerAsn a
  = if cusAsn <? 10 ^ 6 then Ok (self, lookup_spec self cusAsn providerAsn a)
    else Fault BufferOverflow.
Proof.
  intros Hdb Hc. destruct (Z.ltb_spec cusAsn (10 ^ 6)); [apply ASPA_DB_lookup_eq; [done|lia]|].
  unfold ASPA_DB_lookup, MAX_ASN_LENGTH. by rewrite sprintf_d_overflow by (simpl; lia).
Qed.

Lemma ASPA_DB_lookup_correct_witness :
  ASPA_DB_lookup example_db 65 20 AFI_IP = Ok (example_db, ASPA_RESULT_VALID).
Proof. apply (ASPA_DB_lookup_correct example_db 65 20 AFI_IP example_db_wf). lia. Defined.

(** [releaseAspaDBManager] always uses the lock after destroying it, as it
    is called before the database is emptied. *)
Theorem releaseAspaDBManager_use_after_destroy self :
  releaseAspaDBManager (Some self) = Fault UseAfterDestroy.
Proof. by destruct self as [? ? ? []]. Qed.

End AspaTrie.
