(* ===== verification/AspaValidation.v ===== *)
(** * ASPA path validation (validateASPA in server/command_handler.c)

    The upstream and downstream procedures over the ASPA database, and their
    declarative specification by the hops of the path. *)
From S2P Require Import Prelude Locks SrxDefs AspaTrie.

Module AspaValidation.
Import AspaTrie.

(** ** The path, origin first *)

(** [reverse(arr, i, n)]; [k] is the recursion depth left, [n - i]. *)
Fixpoint reverse_from (k : nat) (arr : list Z) (i n : nat) : outcome (list Z) :=
  match k with
  | O => Ok arr
  | S k =>
      value ← arr_get arr i;
      arr ← reverse_from k arr (S i) n;
      if decide (n - i - 1 < length arr)%nat
      then Ok (<[(n - i - 1)%nat := value]> arr) else Fault OutOfBounds
  end.
Definition reverse (arr : list Z) (i n : nat) : outcome (list Z) :=
  reverse_from (n - i) arr i n.

(** ** The loops.  [n] is the number of iterations left.

    The length and the counters have 8 bits ([counter8] where one is assigned), but for
    [idx] and the counters of the two checks between the ramps, which are [int]. *)
Definition counter8 (n : nat) : nat := Z.to_nat (u8 (Z.of_nat n)).

(** Upstream: [None] is the early return of "invalid". *)
Fixpoint upstream_loop (n idx : nat) (self : ASPA_DBManager) (list : list Z) (a result : Z)
    : outcome (ASPA_DBManager * option Z) :=
  match n with
  | O => Ok (self, Some result)
  | S n =>
      customerAS ← arr_get list idx;
      providerAS ← arr_get list (idx + 1);
      '(self, currentResult) ← ASPA_DB_lookup self customerAS providerAS a;
      let result := Z.lor result currentResult in
      if (currentResult =? ASPA_RESULT_VALID) || (currentResult =? ASPA_RESULT_UNKNOWN)
      then upstream_loop n (S idx) self list a result
      else if currentResult =? ASPA_RESULT_INVALID then Ok (self, None)
      else upstream_loop n (S idx) self list a result
  end.

(** Downstream: the search of K; the result is [iMax]. *)
Fixpoint K_loop (n i_val iMax : nat) (self : ASPA_DBManager) (list : list Z) (a : Z)
    : outcome (ASPA_DBManager * nat) :=
  match n with
  | O => Ok (self, iMax)
  | S n =>
      customerAS ← arr_get list (i_val - 1);
      providerAS ← arr_get list i_val;
      '(self, tempResult) ← ASPA_DB_lookup self customerAS providerAS a;
      if tempResult =? ASPA_RESULT_VALID then K_loop n (counter8 (S i_val)) i_val self list a
      else Ok (self, iMax)
  end.

(** Downstream: the search of L; the result is [jMax]. *)
Fixpoint L_loop (n j_val jMax len : nat) (self : ASPA_DBManager) (list : list Z) (a : Z)
    : outcome (ASPA_DBManager * nat) :=
  match n with
  | O => Ok (self, jMax)
  | S n =>
      customerAS ← arr_get list (len - j_val);
      providerAS ← arr_get list (len - (j_val + 1));
      '(self, tempResult) ← ASPA_DB_lookup self customerAS providerAS a;
      if tempResult =? ASPA_RESULT_VALID then L_loop n (counter8 (S j_val)) j_val len self list a
      else Ok (self, jMax)
  end.

(** Downstream: the forward check between K and L; the result is [u_val] with
    the accumulated result. *)
Fixpoint forward_loop (n i_val : nat) (self : ASPA_DBManager) (list : list Z) (a result : Z)
    : outcome (ASPA_DBManager * (nat * Z)) :=
  match n with
  | O => Ok (self, (O, result))
  | S n =>
      customerAS ← arr_get list (i_val - 1);
      providerAS ← arr_get list i_val;
      '(self, tempResult) ← ASPA_DB_lookup self customerAS providerAS a;
      if tempResult =? ASPA_RESULT_INVALID then Ok (self, (counter8 i_val, result))
      else forward_loop n (S i_val) self list a (Z.lor result ASPA_RESULT_UNKNOWN)
  end.

(** Downstream: the reverse check from [u_val] on; [None] is the early return. *)
Fixpoint reverse_loop (n j_val : nat) (self : ASPA_DBManager) (list : list Z) (a result : Z)
    : outcome (ASPA_DBManager * option Z) :=
  match n with
  | O => Ok (self, Some result)
  | S n =>
      customerAS ← arr_get list j_val;
      providerAS ← arr_get list (j_val - 1);
      '(self, tempResult) ← ASPA_DB_lookup self customerAS providerAS a;
      if tempResult =? ASPA_RESULT_INVALID then Ok (self, None)
      else reverse_loop n (S j_val) self list a (Z.lor result ASPA_RESULT_UNKNOWN)
  end.

(** ** The final result *)
Definition Validation_Result (result : Z) : Z :=
  let result := Z.land result 15 in
  let unknown := negb (Z.land result ASPA_RESULT_UNKNOWN =? 0) in
  let unverifiable := negb (Z.land result ASPA_RESULT_UNVERIFIABLE =? 0) in
  if result =? ASPA_RESULT_VALID then SRx_RESULT_VALID
  else if unknown && negb unverifiable then SRx_RESULT_UNKNOWN
  else if unverifiable && negb unknown then SRx_RESULT_UNVERIFIABLE
  else if unverifiable && unknown then SRx_RESULT_UNVERIFIABLE
  else SRx_RESULT_UNDEFINED.

Definition finish (r : ASPA_DBManager * option Z) : ASPA_DBManager * Z :=
  (r.1, match r.2 with Some result => Validation_Result result | None => SRx_RESULT_INVALID end).

(** The downstream procedure on a path of [len] hops. *)
Definition downstream (self : ASPA_DBManager) (list : list Z) (len : nat) (a result : Z)
    : outcome (ASPA_DBManager * Z) :=
  if decide (len = 1)%nat then Ok (self, Validation_Result (Z.lor result ASPA_RESULT_VALID))
  else
    '(self, iMax) ← K_loop (len - 2) 1 0 self list a;
    let K_val := counter8 (S iMax) in
    if decide (K_val = len - 1)%nat
    then Ok (self, Validation_Result (Z.lor result ASPA_RESULT_VALID))
    else
      '(self, jMax) ← L_loop (len - K_val - 1) 1 0 len self list a;
      let L_val := counter8 (len - jMax) in
      if decide (L_val <= K_val + 1)%nat
      then Ok (self, Validation_Result (Z.lor result ASPA_RESULT_VALID))
      else
        '(self, (u_val, result)) ← forward_loop (L_val - 1 - K_val) K_val self list a result;
        if decide (u_val = 0)%nat then Ok (self, Validation_Result result)
        else r ← reverse_loop (L_val - 1 - u_val) (u_val + 1) self list a result;
             Ok (finish r).

(** [validateASPA].  The array [hopResult] is written within bounds except for
    the empty path, and never read back; the reads of the log messages are
    left out. *)
Definition validateASPA (asPathList : list Z) (length : Z) (asType direction a : Z)
    (self : ASPA_DBManager) : outcome (ASPA_DBManager * Z) :=
  let length := u8 length in
  let len := Z.to_nat length in
  result ← (if (asType =? AS_SET) || negb (asType =? AS_SEQUENCE)
            then if length =? 0 then Fault OutOfBounds
                 else Ok (Z.lor ASPA_RESULT_NIBBLE_ZERO ASPA_RESULT_UNVERIFIABLE)
            else Ok ASPA_RESULT_NIBBLE_ZERO);
  list ← (if decide (len <= List.length asPathList)%nat then Ok (take len asPathList)
          else Fault OutOfBounds);
  list ← reverse list 0 len;
  isUpStream ← (if (direction =? ASPA_UNKNOWNSTREAM) || (direction =? ASPA_UPSTREAM) then Ok true
                else if direction =? ASPA_DOWNSTREAM then Ok false
                else Fault UninitRead);
  if isUpStream : bool
  then r ← upstream_loop (len - 1) 0 self list a result; Ok (finish r)
  else downstream self list len a result.

(** ** Specification

    [path] lists the AS numbers from the origin on; its hop [i] (from 1) leads
    from the [i]-th AS to the next one. *)
Section spec.
Context (self : ASPA_DBManager) (a : Z) (path : list Z).

Definition hop_up (i : nat) : Z := lookup_spec self (path !!! (i - 1)%nat) (path !!! i) a.
Definition hop_down (i : nat) : Z := lookup_spec self (path !!! i) (path !!! (i - 1)%nat) a.

(** The length of the run of valid hops [f i], [f (i + 1)], ..., at most [n]. *)
Fixpoint valid_run (f : nat -> Z) (i n : nat) : nat :=
  match n with
  | O => O
  | S n => if f i =? ASPA_RESULT_VALID then S (valid_run f (S i) n) else O
  end.

(** The AS numbers 1..K are an up-ramp, L..N a down-ramp. *)
Definition K_of : nat := S (valid_run hop_up 1 (length path - 2)).
Definition L_of : nat :=
  length path - valid_run (fun j => hop_down (length path - j)) 1 (length path - K_of - 1).

Definition upstream_spec (unverifiable : bool) : Z :=
  let hops := hop_up <$> seq 1 (length path - 1) in
  if decide (ASPA_RESULT_INVALID ∈ hops) then SRx_RESULT_INVALID
  else if unverifiable then SRx_RESULT_UNVERIFIABLE
  else if decide (Forall (eq ASPA_RESULT_VALID) hops) then SRx_RESULT_VALID
  else SRx_RESULT_UNKNOWN.

(** A hop that is invalid upwards followed by one that is invalid downwards. *)
Definition valley : Prop :=
  exists u v, (K_of <= u < L_of - 1)%nat /\ (u < v < L_of)%nat
    /\ hop_up u = ASPA_RESULT_INVALID /\ hop_down v = ASPA_RESULT_INVALID.

Definition downstream_spec (unverifiable : bool) (r : Z) : Prop :=
  if decide (length path = 1 \/ L_of <= K_of + 1)%nat
  then r = (if unverifiable then SRx_RESULT_UNVERIFIABLE else SRx_RESULT_VALID)
  else (valley -> r = SRx_RESULT_INVALID)
       /\ (~ valley -> r = if unverifiable then SRx_RESULT_UNVERIFIABLE else SRx_RESULT_UNKNOWN).
End spec.

(** ** [reverse] reverses *)
Lemma reverse_from_spec k arr i n : (i + k = n)%nat -> (n <= length arr)%nat ->
  reverse_from k arr i n = Ok (rev (take k (drop i arr)) ++ drop k arr).
Proof.
  revert i. induction k as [|k IH]; intros i Hi Hn; cbn [reverse_from]; [done|].
  unfold arr_get. destruct (arr !! i) as [v|] eqn:E; [|apply lookup_ge_None in E; lia].
  simpl_outcome. rewrite IH by lia. simpl_outcome.
  assert (length (rev (take k (drop (S i) arr))) = k) as Hr
    by (rewrite length_rev, length_take, length_drop; lia).
  replace (n - i - 1)%nat with k by lia.
  rewrite decide_True by (rewrite length_app, Hr, length_drop; lia).
  rewrite (drop_S arr v i E). cbn [take]. cbn [rev]. rewrite <- app_assoc.
  rewrite insert_app_r_alt by lia. rewrite Hr, Nat.sub_diag.
  destruct (arr !! k) as [x|] eqn:Ek; [|apply lookup_ge_None in Ek; lia].
  by rewrite (drop_S arr x k Ek).
Qed.

(** The recursive in-place [reverse] reverses the array. *)
Theorem reverse_correct arr : reverse arr 0 (length arr) = Ok (rev arr).
Proof.
  unfold reverse. rewrite Nat.sub_0_r, reverse_from_spec by lia.
  by rewrite drop_0, firstn_all, drop_all, app_nil_r.
Qed.

(** ** The accumulated result: the two flags it can carry *)
Definition acc (unverifiable unknown : bool) : Z :=
  16 + (if unverifiable then 8 else 0) + (if unknown then 4 else 0).

Lemma acc_valid v u : Z.lor (acc v u) ASPA_RESULT_VALID = acc v u.
Proof. by destruct v, u. Qed.
Lemma acc_unknown v u : Z.lor (acc v u) ASPA_RESULT_UNKNOWN = acc v true.
Proof. by destruct v, u. Qed.
Lemma Validation_Result_acc v u :
  Validation_Result (acc v u)
  = if v then SRx_RESULT_UNVERIFIABLE else if u then SRx_RESULT_UNKNOWN else SRx_RESULT_VALID.
Proof. by destruct v, u. Qed.

Lemma lookup_spec_cases self c p a :
  lookup_spec self c p a = ASPA_RESULT_VALID \/ lookup_spec self c p a = ASPA_RESULT_INVALID
  \/ lookup_spec self c p a = ASPA_RESULT_UNKNOWN.
Proof. unfold lookup_spec. repeat case_match; auto. Qed.

Lemma counter8_id n : (n <= 255)%nat -> counter8 n = n.
Proof. intros Hn. unfold counter8. rewrite wrap_small by (unfold in_u; lia). lia. Qed.

(** ** The loops over a well-formed database and a path of short AS numbers *)
Section loops.
Context (self : ASPA_DBManager) (a : Z) (path : list Z).
Hypothesis Hdb : db_wf self.
Hypothesis Hpath : Forall (fun n => 0 <= n < 10 ^ 6) path.
Hypothesis Hlen : (length path <= 255)%nat.

Local Abbreviation hop_up := (hop_up self a path).
Local Abbreviation hop_down := (hop_down self a path).

Lemma path_lookup {B} i j (k : ASPA_DBManager * Z -> outcome B) :
  (i < length path)%nat -> (j < length path)%nat ->
  (customerAS ← arr_get path i; providerAS ← arr_get path j;
   r ← ASPA_DB_lookup self customerAS providerAS a; k r)
  = k (self, lookup_spec self (path !!! i) (path !!! j) a).
Proof.
  intros Hi Hj. rewrite !arr_get_Ok by done. simpl_outcome.
  assert (0 <= path !!! i < 10 ^ 6) as Hr.
  { apply (Forall_lookup_1 _ _ i _ Hpath). by apply list_lookup_lookup_total_lt. }
  by rewrite ASPA_DB_lookup_eq by (done || lia).
Qed.

Lemma upstream_loop_spec n idx v u : (idx + n = length path - 1)%nat ->
  upstream_loop n idx self path a (acc v u)
  = Ok (self, if decide (ASPA_RESULT_INVALID ∈ hop_up <$> seq (S idx) n) then None
              else Some (acc v (u || negb (bool_decide
                     (Forall (eq ASPA_RESULT_VALID) (hop_up <$> seq (S idx) n)))))).
Proof.
  revert idx u. induction n as [|n IH]; intros idx u Hn; cbn [upstream_loop].
  - by rewrite orb_false_r.
  - rewrite path_lookup by lia.
    assert (lookup_spec self (path !!! idx) (path !!! (idx + 1)%nat) a = hop_up (S idx)) as ->
      by (unfold AspaValidation.hop_up; do 2 f_equal; lia).
    cbn [seq]. rewrite fmap_cons.
    assert (hop_up (S idx) = 0 \/ hop_up (S idx) = 1 \/ hop_up (S idx) = 4) as [E|[E|E]]
      by apply lookup_spec_cases.
    + rewrite E. cbn [Z.eqb orb ASPA_RESULT_VALID]. rewrite acc_valid, IH by lia.
      repeat case_decide; try set_solver. do 6 f_equal.
      apply bool_decide_ext. rewrite Forall_cons. naive_solver.
    + rewrite E. cbn. rewrite decide_True by left. done.
    + rewrite E. cbn [Z.eqb orb ASPA_RESULT_VALID ASPA_RESULT_UNKNOWN Pos.eqb].
      change (Z.lor (acc v u) 4) with (Z.lor (acc v u) ASPA_RESULT_UNKNOWN).
      rewrite acc_unknown, IH by lia.
      repeat case_decide; try set_solver. do 4 f_equal. cbn [orb].
      rewrite (bool_decide_false (Forall _ (4 :: _))) by (rewrite Forall_cons; by intros [? _]).
      by rewrite orb_true_r.
Qed.

Lemma K_loop_spec n i : (1 <= i)%nat -> (i + n <= length path)%nat ->
  K_loop n i (i - 1) self path a = Ok (self, i - 1 + valid_run hop_up i n)%nat.
Proof.
  revert i. induction n as [|n IH]; intros i Hi Hn; cbn [K_loop valid_run].
  - by rewrite Nat.add_0_r.
  - rewrite path_lookup by lia.
    change (lookup_spec self (path !!! (i - 1)%nat) (path !!! i) a) with (hop_up i).
    rewrite counter8_id by lia. destruct (hop_up i =? ASPA_RESULT_VALID); [|by rewrite Nat.add_0_r].
    replace i with (S i - 1)%nat at 2 by lia. rewrite IH by lia. do 2 f_equal. lia.
Qed.

Lemma L_loop_spec n j : (1 <= j)%nat -> (j + n <= length path)%nat ->
  L_loop n j (j - 1) (length path) self path a
  = Ok (self, j - 1 + valid_run (fun j => hop_down (length path - j)) j n)%nat.
Proof.
  revert j. induction n as [|n IH]; intros j Hj Hn; cbn [L_loop valid_run].
  - by rewrite Nat.add_0_r.
  - rewrite path_lookup by lia.
    replace (length path - (j + 1))%nat with (length path - j - 1)%nat by lia.
    change (lookup_spec self _ (path !!! (length path - j - 1)%nat) a)
      with (hop_down (length path - j)).
    rewrite counter8_id by lia. destruct (hop_down (length path - j) =? ASPA_RESULT_VALID); [|by rewrite Nat.add_0_r].
    replace j with (S j - 1)%nat at 2 by lia. rewrite IH by lia. do 2 f_equal. lia.
Qed.

(** The forward check finds the first invalid hop, if there is one. *)
Lemma forward_loop_spec n i v u : (1 <= i)%nat -> (i + n <= length path)%nat ->
  (exists k u', forward_loop n i self path a (acc v u) = Ok (self, (k, acc v u'))
     /\ (i <= k < i + n)%nat /\ hop_up k = ASPA_RESULT_INVALID
     /\ forall m, (i <= m < k)%nat -> hop_up m <> ASPA_RESULT_INVALID)
  \/ (forward_loop n i self path a (acc v u) = Ok (self, (O, acc v (u || (0 <? n)%nat)))
     /\ forall m, (i <= m < i + n)%nat -> hop_up m <> ASPA_RESULT_INVALID).
Proof.
  revert i u. induction n as [|n IH]; intros i u Hi Hn; cbn [forward_loop].
  - right. rewrite orb_false_r. split; [done|lia].
  - rewrite path_lookup by lia.
    change (lookup_spec self (path !!! (i - 1)%nat) (path !!! i) a) with (hop_up i).
    destruct (Z.eqb_spec (hop_up i) ASPA_RESULT_INVALID) as [E|E].
    + left. rewrite counter8_id by lia. exists i, u. split; [done|]. split; [lia|]. split; [done|lia].
    + rewrite acc_unknown. destruct (IH (S i) true) as [(k & u' & -> & Hk & Hv & Hm)|[-> Hm]];
        [lia|lia|left|right].
      * exists k, u'. split; [done|]. split; [lia|]. split; [done|].
        intros m Hm'. destruct (decide (m = i)) as [->|]; [done|]. apply Hm. lia.
      * split; [by rewrite orb_true_r|].
        intros m Hm'. destruct (decide (m = i)) as [->|]; [done|]. apply Hm. lia.
Qed.

Lemma reverse_loop_spec n j v u : (1 <= j)%nat -> (j + n <= length path)%nat ->
  (reverse_loop n j self path a (acc v u) = Ok (self, None)
     /\ exists k, (j <= k < j + n)%nat /\ hop_down k = ASPA_RESULT_INVALID)
  \/ (reverse_loop n j self path a (acc v u) = Ok (self, Some (acc v (u || (0 <? n)%nat)))
     /\ forall k, (j <= k < j + n)%nat -> hop_down k <> ASPA_RESULT_INVALID).
Proof.
  revert j u. induction n as [|n IH]; intros j u Hj Hn; cbn [reverse_loop].
  - right. rewrite orb_false_r. split; [done|lia].
  - rewrite path_lookup by lia.
    change (lookup_spec self (path !!! j) (path !!! (j - 1)%nat) a) with (hop_down j).
    destruct (Z.eqb_spec (hop_down j) ASPA_RESULT_INVALID) as [E|E].
    + left. split; [done|]. exists j. split; [lia|done].
    + rewrite acc_unknown.
      destruct (IH (S j) true) as [[-> (k & Hk & Hv)]|[-> Hm]]; [lia|lia|left|right].
      * split; [done|]. exists k. split; [lia|done].
      * split; [by rewrite orb_true_r|].
        intros m Hm'. destruct (decide (m = j)) as [->|]; [done|]. apply Hm. lia.
Qed.

Lemma valid_run_le f i n : (valid_run f i n <= n)%nat.
Proof. revert i. induction n as [|n IH]; intros i; simpl; [lia|]. destruct (_ =? _); [specialize (IH (S i))|]; lia. Qed.

(** The ramps of a path of at least two AS numbers do not cross. *)
Lemma ramps_order : (2 <= length path)%nat ->
  (1 <= K_of self a path <= length path - 1)%nat
  /\ (K_of self a path < L_of self a path <= length path)%nat.
Proof.
  intros Hl. unfold L_of, K_of.
  pose proof (valid_run_le hop_up 1 (length path - 2)).
  pose proof (valid_run_le (fun j => hop_down (length path - j)) 1
    (length path - S (valid_run hop_up 1 (length path - 2)) - 1)). lia.
Qed.

(** The check between the ramps. *)
Lemma interim_spec K L v :
  K_of self a path = K -> L_of self a path = L ->
  (1 <= K)%nat -> (K + 1 < L)%nat -> (L <= length path)%nat ->
  exists r,
    ('(self, (u_val, result)) ← forward_loop (L - 1 - K) K self path a (acc v false);
     if decide (u_val = 0)%nat then Ok (self, Validation_Result result)
     else r ← reverse_loop (L - 1 - u_val) (u_val + 1) self path a result;
          Ok (finish r)) = Ok (self, r)
    /\ (valley self a path -> r = SRx_RESULT_INVALID)
    /\ (~ valley self a path -> r = if v then SRx_RESULT_UNVERIFIABLE else SRx_RESULT_UNKNOWN).
Proof.
  intros HK HL H1 H2 H3. unfold valley. rewrite HK, HL.
  destruct (forward_loop_spec (L - 1 - K) K v false) as [(u & u' & -> & Hu & Hinv & Hfirst)|[-> Hno]];
    [lia|lia|..]; simpl_outcome.
  - rewrite decide_False by lia.
    destruct (reverse_loop_spec (L - 1 - u) (u + 1) v u') as [[-> (w & Hw & Hdn)]|[-> Hno]];
      [lia|lia|..]; simpl_outcome; eexists; (split; [done|]).
    + split; [done|]. intros Hn. exfalso. apply Hn. exists u, w. repeat split; done || lia.
    + cbn [snd]. rewrite Validation_Result_acc, (proj2 (Nat.ltb_lt 0 (L - 1 - u))), orb_true_r by lia.
      split; [|done]. intros (u2 & w & Hu2 & Hw & Hup & Hdn).
      destruct (decide (u2 < u)%nat); [by destruct (Hfirst u2); [lia|]|].
      by destruct (Hno w); [lia|].
  - eexists. rewrite decide_True by done. split; [done|].
    rewrite Validation_Result_acc, (proj2 (Nat.ltb_lt 0 (L - 1 - K))) by lia.
    split; [|done]. intros (u & w & Hu & Hw & Hup & _). by destruct (Hno u); [lia|].
Qed.

Lemma downstream_correct v : (1 <= length path)%nat ->
  exists r, downstream self path (length path) a (acc v false) = Ok (self, r)
    /\ downstream_spec self a path v r.
Proof.
  intros Hl. unfold downstream, downstream_spec.
  assert (forall n, (1 + n <= length path)%nat ->
    K_loop n 1 0 self path a = Ok (self, valid_run hop_up 1 n)) as HKl
    by (intros n Hn; apply (K_loop_spec n 1); lia).
  assert (forall n, (1 + n <= length path)%nat ->
    L_loop n 1 0 (length path) self path a
    = Ok (self, valid_run (fun j => hop_down (length path - j)) 1 n)) as HLl
    by (intros n Hn; apply (L_loop_spec n 1); lia).
  assert (Validation_Result (Z.lor (acc v false) ASPA_RESULT_VALID)
          = if v then SRx_RESULT_UNVERIFIABLE else SRx_RESULT_VALID) as Hvalid
    by (rewrite acc_valid; apply Validation_Result_acc).
  destruct (decide (length path = 1)%nat) as [E1|E1].
  { eexists. split; [done|]. rewrite decide_True by auto. done. }
  destruct ramps_order as [HK HL]; [lia|].
  rewrite HKl by lia. simpl_outcome. fold (K_of self a path). rewrite (counter8_id (K_of self a path)) by lia.
  destruct (decide (K_of self a path = length path - 1)%nat) as [E2|E2].
  { eexists. split; [done|]. rewrite decide_True by lia. done. }
  rewrite HLl by lia. simpl_outcome. fold (L_of self a path). rewrite (counter8_id (L_of self a path)) by lia.
  destruct (decide (L_of self a path <= K_of self a path + 1)%nat) as [E3|E3].
  { eexists. split; [done|]. rewrite decide_True by auto. done. }
  destruct (interim_spec (K_of self a path) (L_of self a path) v) as (r & Hr & Hv); [done|done|lia..|].
  exists r. split; [exact Hr|]. rewrite decide_False by lia. exact Hv.
Qed.
End loops.

(** ** The properties of the validation *)

Definition not_sequence (asType : Z) : bool := negb (asType =? AS_SEQUENCE).

(** The first steps are the same for both directions. *)
Lemma validateASPA_start asPath asType direction a self :
  (1 <= length asPath <= 255)%nat ->
  validateASPA asPath (Z.of_nat (length asPath)) asType direction a self
  = (isUpStream ← (if (direction =? ASPA_UNKNOWNSTREAM) || (direction =? ASPA_UPSTREAM) then Ok true
                   else if direction =? ASPA_DOWNSTREAM then Ok false
                   else Fault UninitRead);
     if isUpStream : bool
     then r ← upstream_loop (length asPath - 1) 0 self (rev asPath) a
                            (acc (not_sequence asType) false); Ok (finish r)
     else downstream self (rev asPath) (length asPath) a (acc (not_sequence asType) false)).
Proof.
  intros Hl. unfold validateASPA, not_sequence. change u8 with (wrap 8). rewrite wrap_small, Nat2Z.id, decide_True by (unfold in_u; lia).
  rewrite firstn_all.
  assert ((asType =? AS_SET) || negb (asType =? AS_SEQUENCE) = negb (asType =? AS_SEQUENCE)) as ->.
  { unfold AS_SET, AS_SEQUENCE. destruct (Z.eqb_spec asType 1); [by subst|done]. }
  pose proof (reverse_from_spec (length asPath) asPath 0 (length asPath) ltac:(lia) ltac:(lia)) as Hr.
  rewrite drop_0, firstn_all, drop_all, app_nil_r in Hr. unfold reverse.
  destruct (negb (asType =? AS_SEQUENCE)); [destruct (Z.eqb_spec (Z.of_nat (length asPath)) 0); [lia|]|];
    simpl_outcome; rewrite Nat.sub_0_r, Hr; done.
Qed.

(** C26 Upstream validation (also used for an unknown direction) of a
    path of 1 to 255 AS numbers below one million, over a well-formed database: invalid exactly when some hop from a
    customer to the next AS is invalid; otherwise unverifiable for a path that
    is not a sequence; otherwise valid when every hop is valid, else unknown. *)
Theorem validateASPA_upstream asPath asType direction a self :
  db_wf self -> Forall (fun n => 0 <= n < 10 ^ 6) asPath -> (1 <= length asPath <= 255)%nat ->
  direction = ASPA_UPSTREAM \/ direction = ASPA_UNKNOWNSTREAM ->
  validateASPA asPath (Z.of_nat (length asPath)) asType direction a self
  = Ok (self, upstream_spec self a (rev asPath) (not_sequence asType)).
Proof.
  intros Hdb Hp Hl Hd. rewrite validateASPA_start by done.
  assert ((direction =? ASPA_UNKNOWNSTREAM) || (direction =? ASPA_UPSTREAM) = true) as ->
    by (by destruct Hd as [-> | ->]).
  simpl_outcome. rewrite <- (length_rev asPath) in *.
  rewrite (upstream_loop_spec self a (rev asPath) Hdb) by (by apply Forall_rev || lia).
  simpl_outcome. unfold finish, upstream_spec. cbn [fst snd orb].
  repeat case_decide; [done|..]; rewrite Validation_Result_acc; do 2 f_equal;
    destruct (not_sequence asType); try done.
  - by rewrite bool_decide_true.
  - by rewrite bool_decide_false.
Qed.

(** C25 Downstream validation of a path of 1 to 255 AS numbers below one
    million (and a well-formed database) terminates with the answer of the ramps: valid (unverifiable for a
    path that is not a sequence) when the up-ramp and the down-ramp leave at
    most one hop between them; otherwise invalid exactly when between the ramps
    a hop that is invalid upwards comes before one that is invalid downwards,
    and unknown (unverifiable) if there is none. *)
Theorem validateASPA_downstream asPath asType a self :
  db_wf self -> Forall (fun n => 0 <= n < 10 ^ 6) asPath -> (1 <= length asPath <= 255)%nat ->
  exists r,
    validateASPA asPath (Z.of_nat (length asPath)) asType ASPA_DOWNSTREAM a self = Ok (self, r)
    /\ downstream_spec self a (rev asPath) (not_sequence asType) r.
Proof.
  intros Hdb Hp Hl. rewrite validateASPA_start by done. simpl_outcome.
  cbn [Z.eqb ASPA_DOWNSTREAM ASPA_UNKNOWNSTREAM ASPA_UPSTREAM Pos.eqb orb]. simpl_outcome.
  rewrite <- (length_rev asPath) in *. apply downstream_correct; [done|by apply Forall_rev|lia|lia].
Qed.

Lemma validateASPA_upstream_witness :
  validateASPA [20; 65] 2 AS_SEQUENCE ASPA_UPSTREAM AFI_IP example_db
  = Ok (example_db, SRx_RESULT_VALID).
Proof.
  apply (validateASPA_upstream [20; 65] AS_SEQUENCE ASPA_UPSTREAM AFI_IP example_db).
  - apply example_db_wf.
  - repeat constructor; lia.
  - simpl. lia.
  - by left.
Defined.

Lemma validateASPA_downstream_witness :
  exists r, validateASPA [65; 30; 40; 650] 4 AS_SEQUENCE ASPA_DOWNSTREAM AFI_IP example_db
            = Ok (example_db, r).
Proof.
  destruct (validateASPA_downstream [65; 30; 40; 650] AS_SEQUENCE AFI_IP example_db)
    as (r & H & _).
  - apply example_db_wf.
  - repeat constructor; lia.
  - simpl. lia.
  - exists r. exact H.
Defined.

End AspaValidation.
