(* ===== verification/UtHash.v ===== *)
(** * The hash table interface (uthash.h, third party)

    The caches keep their entries in a uthash table: items linked in the order
    in which they were added and indexed by a key.  The library is not part of
    the repository, so a table is an arbitrary type [H] with the operations of
    the macros the code uses and their documented behaviour.  Items are
    addresses; the structures they point to live in a heap of the cache. *)
From S2P Require Import Prelude.

(** [HASH_FIND], [HASH_ADD], [HASH_DEL], [HASH_COUNT] and [HASH_ITER] over items
    with a 32-bit key. *)
Class UTHash (H : Type) := {
  ut_empty : H;                               (** the NULL head *)
  ut_find : Z -> H -> option positive;
  ut_add : Z -> positive -> H -> H;
  ut_del : positive -> H -> H;
  ut_items : H -> list (Z * positive)         (** the iteration order *)
}.

Definition ut_count {H} `{UTHash H} (h : H) : Z := Z.of_nat (length (ut_items h)).

(** The documented behaviour: the iteration order is the order of insertion, and a
    lookup finds an item of the key when there is one. *)
Class UTHashLaws (H : Type) `{UTHash H} := {
  ut_items_empty : ut_items ut_empty = [];
  ut_items_add k p h : ut_items (ut_add k p h) = ut_items h ++ [(k, p)];
  ut_items_del p h : ut_items (ut_del p h) = filter (fun i => i.2 <> p) (ut_items h);
  ut_find_Some k h p : ut_find k h = Some p -> (k, p) ∈ ut_items h;
  ut_find_None k h : ut_find k h = None -> k ∉ (ut_items h).*1
}.

(** ** What follows for tables without duplicates *)
Section laws.
Context {H : Type} `{UTHashLaws H}.

Lemma ut_find_iff k h p : NoDup (ut_items h).*1 -> ut_find k h = Some p <-> (k, p) ∈ ut_items h.
Proof.
  intros Hn. split; [apply ut_find_Some|]. intros Hin.
  destruct (ut_find k h) as [q|] eqn:E.
  - apply ut_find_Some in E. f_equal. apply list_elem_of_lookup in E as [i Hi].
    apply list_elem_of_lookup in Hin as [j Hj].
    assert (i = j) as ->; [|congruence].
    eapply NoDup_lookup; [exact Hn|by rewrite list_lookup_fmap, Hi|by rewrite list_lookup_fmap, Hj].
  - apply ut_find_None in E. exfalso. apply E. apply list_elem_of_fmap. by exists (k, p).
Qed.
End laws.

(** ** Tables of heap objects

    The caches use a table in one way: its items point to live objects of a
    heap, each stored under the key it carries.  [key] reads the key of an
    object and [P] is the invariant of the objects. *)
Section keyed.
Context {H : Type} `{UTHashLaws H} {E : Type} (key : E -> Z) (P : E -> Prop).
Implicit Types (t : H) (h : gmap positive E).

Record kt_wf t h : Prop := mk_kt_wf {
  kt_nodup : NoDup (ut_items t).*1;
  kt_items : forall k p, (k, p) ∈ ut_items t -> exists e, h !! p = Some e /\ key e = k /\ P e
}.

(** The abstract map from keys to objects. *)
Definition kt_get t h (k : Z) : option E :=
  match ut_find k t with Some p => h !! p | None => None end.

Lemma kt_find t h k : kt_wf t h ->
  match ut_find k t with
  | Some p => (k, p) ∈ ut_items t
              /\ exists e, h !! p = Some e /\ kt_get t h k = Some e /\ key e = k /\ P e
  | None => k ∉ (ut_items t).*1 /\ kt_get t h k = None
  end.
Proof.
  intros [Hn He]. unfold kt_get. destruct (ut_find k _) as [p|] eqn:F.
  - apply ut_find_Some in F. split; [done|].
    destruct (He k p F) as (e & He1 & Hid & Hwf). exists e. by rewrite He1.
  - split; [by apply ut_find_None|done].
Qed.

Lemma kt_get_items t h k e : kt_wf t h ->
  kt_get t h k = Some e <-> exists p, (k, p) ∈ ut_items t /\ h !! p = Some e.
Proof.
  intros Hw. unfold kt_get. split.
  - destruct (ut_find k _) as [p|] eqn:F; [|done]. exists p. split; [by apply ut_find_Some|done].
  - intros (p & Hin & He). by rewrite (proj2 (ut_find_iff k _ p (kt_nodup _ _ Hw)) Hin).
Qed.

Lemma kt_get_key t h k e : kt_wf t h -> kt_get t h k = Some e -> key e = k /\ P e.
Proof.
  intros Hw Hg. pose proof (kt_find t h k Hw) as Hf.
  destruct (ut_find k _); [|naive_solver]. destruct Hf as (_ & e' & _ & Hg' & He). naive_solver.
Qed.

Lemma ut_items_NotIn t k p : k ∉ (ut_items t).*1 -> (k, p) ∉ ut_items t.
Proof. intros Hk Hin. apply Hk. apply list_elem_of_fmap. by exists (k, p). Qed.

(** Two items of one key or of one address are the same item. *)
Lemma kt_items_inj t h k1 k2 p1 p2 : kt_wf t h ->
  (k1, p1) ∈ ut_items t -> (k2, p2) ∈ ut_items t -> k1 = k2 <-> p1 = p2.
Proof.
  intros Hw H1' H2'. split; intros ->.
  - rewrite <- (ut_find_iff k2) in H1', H2' by apply Hw. congruence.
  - destruct (kt_items _ _ Hw _ _ H1') as (e1 & E1 & <- & _).
    destruct (kt_items _ _ Hw _ _ H2') as (e2 & E2 & <- & _). congruence.
Qed.

Lemma kt_nodup_addresses t h : kt_wf t h -> NoDup (ut_items t).*2.
Proof.
  intros Hw. apply NoDup_fmap_2_strong; [|by apply (NoDup_fmap_1 fst), Hw].
  intros [k1 p1] [k2 p2] H1' H2' E'. simpl in E'. subst.
  f_equal. by apply (kt_items_inj t h k1 k2 p2 p2).
Qed.

Lemma kt_empty h : kt_wf ut_empty h.
Proof. constructor; rewrite ut_items_empty; [apply NoDup_nil_2|set_solver]. Qed.

(** Adding an object of a new key at a new address. *)
Lemma kt_add t h p e :
  kt_wf t h -> kt_get t h (key e) = None -> P e -> h !! p = None ->
  kt_wf (ut_add (key e) p t) (<[p := e]> h)
  /\ forall k, kt_get (ut_add (key e) p t) (<[p := e]> h) k
               = if decide (k = key e) then Some e else kt_get t h k.
Proof.
  intros Hw Hg He Hp.
  assert (key e ∉ (ut_items t).*1) as Hnew.
  { pose proof (kt_find t h (key e) Hw) as Hf. destruct (ut_find _ _); [|by destruct Hf].
    destruct Hf as (_ & e' & _ & Hg' & _). congruence. }
  assert (forall k q, (k, q) ∈ ut_items t -> (<[p := e]> h) !! q = h !! q) as Hold.
  { intros k q Hin. rewrite lookup_insert_ne; [done|]. intros ->.
    destruct (kt_items _ _ Hw _ _ Hin) as (? & ? & _). congruence. }
  assert (kt_wf (ut_add (key e) p t) (<[p := e]> h)) as Hw'.
  { constructor.
    - rewrite ut_items_add, fmap_app. apply NoDup_app.
      split; [apply Hw|]. split; [set_solver|apply NoDup_singleton].
    - intros k q. rewrite ut_items_add, elem_of_app. intros [Hin|Hin].
      + rewrite (Hold k q Hin). by apply Hw.
      + apply list_elem_of_singleton in Hin. simplify_eq. exists e. by rewrite lookup_insert_eq. }
  split; [done|]. intros k. apply option_eq. intros e'. rewrite kt_get_items by done.
  setoid_rewrite ut_items_add. setoid_rewrite elem_of_app.
  setoid_rewrite list_elem_of_singleton. destruct (decide (k = key e)) as [->|Hne].
  - split.
    + intros (q & [Hin|Hin] & Hq); [by apply ut_items_NotIn in Hin|].
      simplify_eq. by rewrite lookup_insert_eq in Hq.
    + intros [= <-]. exists p. rewrite lookup_insert_eq. auto.
  - rewrite kt_get_items by done. split.
    + intros (q & [Hin|Hin] & Hq); [|by simplify_eq]. exists q. by rewrite <- (Hold k q Hin).
    + intros (q & Hin & Hq). exists q. by rewrite (Hold k q Hin); auto.
Qed.

(** Modifying an object in place. *)
Lemma kt_set t h k p e :
  kt_wf t h -> (k, p) ∈ ut_items t -> key e = k -> P e ->
  kt_wf t (<[p := e]> h)
  /\ forall k', kt_get t (<[p := e]> h) k' = if decide (k' = k) then Some e else kt_get t h k'.
Proof.
  intros Hw Hin Hk He.
  assert (forall k' q, (k', q) ∈ ut_items t -> k' <> k -> (<[p := e]> h) !! q = h !! q) as Hold.
  { intros k' q Hin' Hne. rewrite lookup_insert_ne; [done|]. intros <-.
    apply Hne. by apply (kt_items_inj t h k' k p p). }
  assert (forall q, (k, q) ∈ ut_items t -> q = p) as Hp
    by (intros q Hq; by apply (kt_items_inj t h k k q p)).
  assert (kt_wf t (<[p := e]> h)) as Hw'.
  { constructor; [apply Hw|]. intros k' q Hin'. destruct (decide (k' = k)) as [->|Hne].
    - rewrite (Hp q Hin'). exists e. by rewrite lookup_insert_eq.
    - rewrite (Hold k' q) by done. by apply Hw. }
  split; [done|]. intros k'. apply option_eq. intros e'. rewrite kt_get_items by done.
  destruct (decide (k' = k)) as [->|Hne].
  - split.
    + intros (q & Hq & Hl). rewrite (Hp q Hq), lookup_insert_eq in Hl. done.
    + intros [= <-]. exists p. by rewrite lookup_insert_eq.
  - rewrite kt_get_items by done. split; intros (q & Hq & Hl); exists q;
      [rewrite <- (Hold k' q)|rewrite (Hold k' q)]; done.
Qed.

(** Removing an item from the table. *)
Lemma kt_del t h k p :
  kt_wf t h -> (k, p) ∈ ut_items t ->
  kt_wf (ut_del p t) h
  /\ forall k', kt_get (ut_del p t) h k' = if decide (k' = k) then None else kt_get t h k'.
Proof.
  intros Hw Hin.
  assert (kt_wf (ut_del p t) h) as Hw'.
  { constructor.
    - rewrite ut_items_del. eapply sublist_NoDup; [apply Hw|].
      apply fmap_sublist, sublist_filter.
    - intros k' q. rewrite ut_items_del, list_elem_of_filter. intros [_ Hin']. by apply Hw. }
  split; [done|]. intros k'. apply option_eq. intros e'. rewrite kt_get_items by done.
  setoid_rewrite ut_items_del. setoid_rewrite list_elem_of_filter. cbn [snd].
  destruct (decide (k' = k)) as [->|Hne].
  - split; [|done]. intros (q & [Hne Hq] & _). exfalso. apply Hne.
    by apply (kt_items_inj t h k k q p).
  - rewrite kt_get_items by done. split; [naive_solver|].
    intros (q & Hq & Hl). exists q. split; [|done]. split; [|done]. intros ->.
    apply Hne. by apply (kt_items_inj t h k' k p p).
Qed.
End keyed.

(** ** A concrete table: the list of its items *)
#[export] Instance ut_list : UTHash (list (Z * positive)) := {|
  ut_empty := [];
  ut_find k h := snd <$> head (filter (fun i => i.1 = k) h);
  ut_add k p h := h ++ [(k, p)];
  ut_del p h := filter (fun i => i.2 <> p) h;
  ut_items h := h
|}.

#[export] Instance ut_list_laws : UTHashLaws (list (Z * positive)).
Proof.
  split; cbn [ut_empty ut_find ut_add ut_del ut_items ut_list]; try done.
  - intros k h p Hf. destruct (filter _ h) as [|[k' q] l] eqn:E; [done|].
    assert ((k', q) ∈ filter (fun i => i.1 = k) h) as Hin by (rewrite E; left).
    apply list_elem_of_filter in Hin as [Hk Hin]. simpl in *. by simplify_eq.
  - intros k h Hf [[k' p] [-> Hin]]%list_elem_of_fmap. simpl in Hf.
    assert ((k', p) ∈ filter (fun i => i.1 = k') h) as Hfil by by apply list_elem_of_filter.
    destruct (filter _ h); [by apply not_elem_of_nil in Hfil|done].
Qed.
