(* ===== verification/AspathCache.v ===== *)
(** * AS path cache (server/aspath_cache.c, server/aspath_cache.h)

    AS paths with their ASPA validation result, stored by path identifier.  The
    table holds the addresses of the entries, which live in a heap; the code
    modifies entries in place and never frees one it removed. *)
From S2P Require Import Prelude Locks SrxDefs Crc32 UtHash.

Module AspathCache.

(** ** Data *)

(** [AS_PATH_LIST], the copy handed out to callers. *)
Record AS_PATH_LIST := mkAS_PATH_LIST {
  pathID : Z;
  asPathLength : Z;
  asPathList : option (list Z);
  aspaValResult : Z;
  asType : Z;
  asRelDir : Z;
  afi : Z;
  lastModified : Z
}.

(** [PathListCacheTable] with its [AC_PathListData]. *)
Record PathListCacheTable := mkPathListCacheTable {
  pathId : Z;
  hops : Z;
  data_asPathList : option (list Z);
  e_aspaResult : Z;
  e_asType : Z;
  e_asRelDir : Z;
  e_afi : Z;
  e_lastModified : Z
}.

Section cache.
Context {H : Type} `{UTHash H}.

Record AspathCache := mkAspathCache {
  aspathCacheTable : H;
  entries : gmap positive PathListCacheTable;
  tableLock : RWLock
}.

(** ** Operations *)
Definition createAspathCache : AspathCache := mkAspathCache ut_empty ∅ createRWLock.

Definition emptyAspathCache (self : AspathCache) : outcome AspathCache :=
  lock ← acquireWriteLock (tableLock self);
  lock ← unlockWriteLock lock;
  Ok (mkAspathCache ut_empty (entries self) lock).

(** The lock is destroyed before the table is emptied under it. *)
Definition releaseAspathCache (self : option AspathCache) : outcome (option AspathCache) :=
  match self with
  | None => Ok None
  | Some self =>
      lock ← releaseRWLock (tableLock self);
      self ← emptyAspathCache (mkAspathCache (aspathCacheTable self) (entries self) lock);
      Ok (Some self)
  end.

(** [add_AspathList] of the entry at address [p]. *)
Definition add_AspathList (self : AspathCache) (p : positive) : outcome AspathCache :=
  lock ← acquireWriteLock (tableLock self);
  cacheTable ← deref (entries self) p;
  let table := ut_add (pathId cacheTable) p (aspathCacheTable self) in
  lock ← unlockWriteLock lock;
  Ok (mkAspathCache table (entries self) lock).

Definition find_AspathList (self : AspathCache) (id : Z)
    : outcome (AspathCache * option positive) :=
  lock ← acquireReadLock (tableLock self);
  let p := ut_find id (aspathCacheTable self) in
  lock ← unlockReadLock lock;
  Ok (mkAspathCache (aspathCacheTable self) (entries self) lock, p).

Definition del_AspathList (self : AspathCache) (p : positive) : outcome AspathCache :=
  lock ← acquireWriteLock (tableLock self);
  let table := ut_del p (aspathCacheTable self) in
  lock ← unlockWriteLock lock;
  Ok (mkAspathCache table (entries self) lock).

(** The copy loops: the first [n] entries of an array. *)
Definition copy_array (n : nat) (l : list Z) : outcome (list Z) :=
  if decide (n <= length l)%nat then Ok (take n l) else Fault OutOfBounds.

(** [newAspathListEntry]: the length parameter has 32 bits, the field has 8;
    [None] is the NULL result for the empty path. *)
Definition newAspathListEntry (length : Z) (pathData : list Z) (id type dir a : Z)
    (bBigEndian : bool) : outcome (option AS_PATH_LIST) :=
  if length =? 0 then Ok None
  else
    l ← copy_array (Z.to_nat length) pathData;
    Ok (Some (mkAS_PATH_LIST id (u8 length)
                (Some (if bBigEndian then ntohl <$> l else l)) 0 type dir
                (if bBigEndian then ntohs a else a) 0)).

Definition deleteAspathListEntry (aspl : option AS_PATH_LIST) : bool :=
  match aspl with None => false | Some _ => true end.

Definition modifyAspaValidationResultToAspathCache (self : AspathCache) (id modAspaResult : Z)
    (pathlistEntry : AS_PATH_LIST) : outcome (AspathCache * bool) :=
  '(self, plCacheTable) ← find_AspathList self id;
  match plCacheTable with
  | None => Ok (self, false)
  | Some p =>
      e ← deref (entries self) p;
      if negb (modAspaResult =? SRx_RESULT_DONOTUSE) then
        let result := if negb (modAspaResult =? e_aspaResult e) then modAspaResult
                      else e_aspaResult e in
        let e := mkPathListCacheTable (pathId e) (hops e) (data_asPathList e) result
                   (e_asType e) (e_asRelDir e) (e_afi e) (lastModified pathlistEntry) in
        Ok (mkAspathCache (aspathCacheTable self) (<[p := e]> (entries self)) (tableLock self), true)
      else Ok (self, true)
  end.

(** [storeAspathList]: -1 without an entry, 0 when the identifier is taken, 1
    when the entry was added.  The new entry is zeroed before it is filled. *)
Definition storeAspathList (self : AspathCache) (srxRes : option SRxDefaultResult)
    (id type : Z) (pathlistEntry : option AS_PATH_LIST) : outcome (AspathCache * Z) :=
  match pathlistEntry with
  | None => Ok (self, -1)
  | Some entry =>
      '(self, plCacheTable) ← find_AspathList self id;
      match plCacheTable with
      | Some _ => Ok (self, 0)
      | None =>
          let length := asPathLength entry in
          data ← match asPathList entry with
                 | Some l => if 0 <? length
                             then l ← copy_array (Z.to_nat length) l; Ok (Some l)
                             else Ok None
                 | None => Ok None
                 end;
          let e := mkPathListCacheTable id length data
                     (match srxRes with Some d => aspaResult (result d) | None => 0 end)
                     type (asRelDir entry) (afi entry) (lastModified entry) in
          let p := fresh (dom (entries self)) in
          self ← add_AspathList
                   (mkAspathCache (aspathCacheTable self) (<[p := e]> (entries self))
                                  (tableLock self)) p;
          Ok (self, 1)
      end
  end.

Definition deleteAspathCache (self : AspathCache) (id : Z) : outcome (AspathCache * bool) :=
  '(self, plCacheTable) ← find_AspathList self id;
  match plCacheTable with
  | Some p => self ← del_AspathList self p; Ok (self, true)
  | None => Ok (self, false)
  end.

(** The result record of the caller is returned with the copy. *)
Definition getAspathListFromAspathCache (self : AspathCache) (id : Z) (srxRes : SRxResult)
    : outcome (AspathCache * SRxResult * option AS_PATH_LIST) :=
  if id =? 0 then Ok (self, srxRes, None)
  else
    '(self, plCacheTable) ← find_AspathList self id;
    match plCacheTable with
    | Some p =>
        e ← deref (entries self) p;
        let length := u8 (hops e) in
        l ← match data_asPathList e with
            | Some l => if 0 <? length then copy_array (Z.to_nat length) l
                        else Ok (replicate (Z.to_nat length) 0)
            | None => Ok (replicate (Z.to_nat length) 0)
            end;
        let aspl := mkAS_PATH_LIST (pathId e) (u8 (hops e)) (Some l) (e_aspaResult e)
                      (e_asType e) (e_asRelDir e) (e_afi e) (e_lastModified e) in
        let srxRes := if negb (aspaResult srxRes =? aspaValResult aspl)
                      then mkSRxResult (roaResult srxRes) (bgpsecResult srxRes) (aspaValResult aspl)
                      else srxRes in
        Ok (self, srxRes, Some aspl)
    | None =>
        Ok (self, mkSRxResult (roaResult srxRes) (bgpsecResult srxRes) SRx_RESULT_UNDEFINED, None)
    end.

(** The counter is read into eight bits. *)
Definition getCountAsPathCache (self : AspathCache) : outcome (AspathCache * Z) :=
  lock ← acquireWriteLock (tableLock self);
  let numRecords := u8 (ut_count (aspathCacheTable self)) in
  lock ← unlockWriteLock lock;
  Ok (mkAspathCache (aspathCacheTable self) (entries self) lock, numRecords).
End cache.
Arguments AspathCache : clear implicits.

(** ** Path identifiers: the CRC of the hexadecimal AS numbers and the type *)

(** "%X" of a small value. *)
Definition fmt_X1 (x : Z) : list Z := [hex_digit (x mod 16)].

(** The string and its terminating NUL; [None] for a NULL list.  [asType] is
    below 16, as every [AS_TYPE] is. *)
Definition path_string (asPathLength : Z) (asPathList : list Z) (asType : Z) (bBigEndian : bool)
    : outcome (list Z) :=
  l ← copy_array (Z.to_nat asPathLength) asPathList;
  Ok ((l ≫= fun asn => hex8 (if bBigEndian then ntohl asn else asn)) ++ fmt_X1 asType ++ [0]).

Definition makePathId (asPathLength : Z) (asPathList : option (list Z)) (asType : Z)
    (bBigEndian : bool) : outcome Z :=
  match asPathList with
  | None => Ok 0
  | Some l => strBuf ← path_string asPathLength l asType bBigEndian;
              crc32 strBuf (asPathLength * 4 * 2 + 1 + 1)
  end.

(** The comparison of [sortByPathId]: the difference of two [uint32_t] as an
    [int]. *)
Definition idSort (a b : PathListCacheTable) : Z := signed 32 (u32 (pathId a - pathId b)).

(** ** The abstract cache: a partial map from path identifiers to entries *)
Section proofs.
Context {H : Type} `{UTHashLaws H}.

Definition entry_wf (e : PathListCacheTable) : Prop :=
  in_u 8 (hops e) /\ forall l, data_asPathList e = Some l -> Z.of_nat (length l) = hops e.

(** Between operations: no identifier is stored twice, every address of the
    table points to a well-formed entry of that identifier, the lock is free. *)
Record ac_wf (self : AspathCache H) : Prop := mk_ac_wf {
  ac_wf_table : kt_wf pathId entry_wf (aspathCacheTable self) (entries self);
  ac_wf_lock : tableLock self = RW_free
}.

Definition ac_get (self : AspathCache H) (k : Z) : option PathListCacheTable :=
  kt_get (aspathCacheTable self) (entries self) k.

Lemma find_AspathList_eq self k : ac_wf self ->
  find_AspathList self k = Ok (self, ut_find k (aspathCacheTable self)).
Proof. intros [_ Hl]. destruct self; simpl in *; subst. done. Qed.

(** What a lookup finds. *)
Lemma ac_find self k : ac_wf self ->
  match ut_find k (aspathCacheTable self) with
  | Some p => (k, p) ∈ ut_items (aspathCacheTable self)
              /\ exists e, entries self !! p = Some e /\ ac_get self k = Some e
                    /\ pathId e = k /\ entry_wf e
  | None => k ∉ (ut_items (aspathCacheTable self)).*1 /\ ac_get self k = None
  end.
Proof. intros [Hw _]. apply (kt_find pathId entry_wf _ _ _ Hw). Qed.

(** ** The operations, on the abstract cache *)

(** The path list an entry is copied to, and the entry a path list is stored
    as. *)
Definition to_list (e : PathListCacheTable) : AS_PATH_LIST :=
  mkAS_PATH_LIST (pathId e) (hops e)
    (Some (default (replicate (Z.to_nat (hops e)) 0) (data_asPathList e)))
    (e_aspaResult e) (e_asType e) (e_asRelDir e) (e_afi e) (e_lastModified e).
Definition to_entry (id type res : Z) (l : AS_PATH_LIST) : PathListCacheTable :=
  mkPathListCacheTable id (asPathLength l) (if 0 <? asPathLength l then asPathList l else None)
    res type (asRelDir l) (afi l) (lastModified l).

(** A path list as [newAspathListEntry] builds it for at most 255 hops. *)
Definition list_wf (l : AS_PATH_LIST) : Prop :=
  in_u 8 (asPathLength l)
  /\ exists p, asPathList l = Some p /\ Z.of_nat (length p) = asPathLength l.

Definition default_result (d : option SRxDefaultResult) : Z :=
  match d with Some d => aspaResult (result d) | None => 0 end.

Lemma to_entry_wf id type res l : list_wf l -> entry_wf (to_entry id type res l).
Proof.
  intros [Hb (p & Hp & Hl)]. split; [done|]. intros q. cbn [data_asPathList to_entry hops].
  rewrite Hp. destruct (0 <? asPathLength l); [by intros [= <-]|done].
Qed.

Lemma copy_array_all (l : list Z) n : Z.of_nat (length l) = n -> copy_array (Z.to_nat n) l = Ok l.
Proof.
  intros <-. unfold copy_array. rewrite Nat2Z.id, decide_True by lia. by rewrite firstn_all.
Qed.

Lemma fresh_entries (self : AspathCache H) : entries self !! fresh (dom (entries self)) = None.
Proof. apply not_elem_of_dom, is_fresh. Qed.

(** [storeAspathList] on a well-formed cache and path list always succeeds:
    an identifier already stored is refused with 0 and nothing changes; a new
    one is added with 1, holding the list, the type, the direction, the address
    family and the default result; all other identifiers are unaffected. *)
Lemma storeAspathList_spec self d id type l :
  ac_wf self -> list_wf l ->
  exists self' r, storeAspathList self d id type (Some l) = Ok (self', r) /\ ac_wf self'
    /\ r = (if decide (is_Some (ac_get self id)) then 0 else 1)
    /\ forall k, ac_get self' k
         = if decide (k = id /\ ac_get self id = None)
           then Some (to_entry id type (default_result d) l) else ac_get self k.
Proof.
  intros Hw Hl. unfold storeAspathList. rewrite find_AspathList_eq by done. simpl_outcome.
  pose proof (ac_find self id Hw) as Hf. destruct (ut_find id _) as [p|].
  - destruct Hf as (_ & e & _ & Hg & _). exists self, 0. split; [done|]. split; [done|].
    rewrite Hg. split; [by rewrite decide_True by eauto|].
    intros k. by rewrite decide_False by (intros [_ ?]; congruence).
  - destruct Hf as [_ Hg]. destruct (Hl) as [Hb (q & Hq & Hlen)].
    set (e := to_entry id type (default_result d) l).
    destruct (kt_add pathId entry_wf (aspathCacheTable self) (entries self)
      (fresh (dom (entries self))) e) as [Hw' Hget];
      [apply Hw|done|by apply to_entry_wf|apply fresh_entries|].
    eexists (mkAspathCache _ _ RW_free), 1. split; [|split; [by constructor|split]].
    + assert ((if 0 <? asPathLength l then l ← copy_array (Z.to_nat (asPathLength l)) q; Ok (Some l)
               else Ok None) = Ok (data_asPathList e)) as Hdata.
      { subst e. cbn [to_entry data_asPathList]. rewrite Hq, copy_array_all by done.
        by destruct (0 <? asPathLength l). }
      rewrite Hq, Hdata. simpl_outcome. fold (default_result d).
      change (mkPathListCacheTable id (asPathLength l) (data_asPathList e) (default_result d) type
                (asRelDir l) (afi l) (lastModified l)) with e.
      unfold add_AspathList. cbn [tableLock entries aspathCacheTable].
      rewrite (ac_wf_lock self Hw). cbn [acquireWriteLock]. simpl_outcome.
      unfold deref. rewrite lookup_insert_eq. simpl_outcome. done.
    + rewrite Hg. by rewrite decide_False by (by intros [? ?]).
    + intros k. unfold ac_get. cbn [aspathCacheTable entries].
      change (pathId e) with id in Hget. rewrite Hget. fold (ac_get self id).
      by repeat case_decide; naive_solver.
Qed.

(** [getAspathListFromAspathCache] never changes the cache: for a stored
    identifier other than 0 it returns a copy of the entry and passes its result
    on, for an unknown one it reports the result "undefined", and for 0 it
    returns NULL without touching the result. *)
Lemma getAspathListFromAspathCache_spec self id res :
  ac_wf self ->
  getAspathListFromAspathCache self id res
  = Ok (self,
        if id =? 0 then res
        else mkSRxResult (roaResult res) (bgpsecResult res)
               (match ac_get self id with Some e => e_aspaResult e | None => SRx_RESULT_UNDEFINED end),
        if id =? 0 then None else to_list <$> ac_get self id).
Proof.
  intros Hw. unfold getAspathListFromAspathCache. destruct (id =? 0); [done|].
  rewrite find_AspathList_eq by done. simpl_outcome.
  pose proof (ac_find self id Hw) as Hf. destruct (ut_find id _) as [p|]; [|by destruct Hf as [_ ->]].
  destruct Hf as (_ & e & He & -> & _ & Hb & Hlen). unfold deref. rewrite He. simpl_outcome.
  rewrite wrap_small by done.
  assert (match data_asPathList e with
          | Some l => if 0 <? hops e then copy_array (Z.to_nat (hops e)) l
                      else Ok (replicate (Z.to_nat (hops e)) 0)
          | None => Ok (replicate (Z.to_nat (hops e)) 0)
          end = Ok (default (replicate (Z.to_nat (hops e)) 0) (data_asPathList e))) as ->.
  { destruct (data_asPathList e) as [l|] eqn:El; [|done]. specialize (Hlen l eq_refl).
    destruct (Z.ltb_spec 0 (hops e)); [by apply copy_array_all|].
    destruct l; [|simpl in Hlen; unfold in_u in Hb; lia]. simpl in Hlen. by rewrite <- Hlen. }
  simpl_outcome. cbn [aspaValResult]. destruct res as [r b a]. cbn [aspaResult roaResult bgpsecResult].
  by destruct (Z.eqb_spec a (e_aspaResult e)); simpl; subst.
Qed.

(** Recording a validation result updates the result and the time of that
    identifier only; the value "do not use" and an unknown identifier leave the
    cache as it is. *)
Lemma modifyAspaValidationResult_spec self id res l :
  ac_wf self ->
  exists self', modifyAspaValidationResultToAspathCache self id res l
                = Ok (self', bool_decide (is_Some (ac_get self id)))
    /\ ac_wf self'
    /\ forall k, ac_get self' k
         = if decide (k = id /\ res <> SRx_RESULT_DONOTUSE)
           then (fun e => mkPathListCacheTable (pathId e) (hops e) (data_asPathList e) res
                            (e_asType e) (e_asRelDir e) (e_afi e) (lastModified l))
                <$> ac_get self id
           else ac_get self k.
Proof.
  intros Hw. unfold modifyAspaValidationResultToAspathCache.
  rewrite find_AspathList_eq by done. simpl_outcome.
  pose proof (ac_find self id Hw) as Hf. destruct (ut_find id _) as [p|].
  - destruct Hf as (Hin & e & He & Hg & Hid & Hwf). rewrite Hg.
    unfold deref. rewrite He. simpl_outcome. rewrite bool_decide_true by eauto.
    destruct (Z.eqb_spec res SRx_RESULT_DONOTUSE) as [->|Hne]; cbn [negb].
    + exists self. split; [done|]. split; [done|]. intros k. by rewrite decide_False by naive_solver.
    + rewrite (ac_wf_lock self Hw).
      assert ((if negb (res =? e_aspaResult e) then res else e_aspaResult e) = res) as ->
        by (by destruct (Z.eqb_spec res (e_aspaResult e))).
      destruct (kt_set pathId entry_wf (aspathCacheTable self) (entries self) id p (mkPathListCacheTable (pathId e) (hops e) (data_asPathList e) res
        (e_asType e) (e_asRelDir e) (e_afi e) (lastModified l))) as [Hw' Hget]; [apply Hw|done..|].
      eexists. split; [done|]. split; [by constructor|]. intros k. unfold ac_get.
      cbn [aspathCacheTable entries]. rewrite Hget. by repeat case_decide; naive_solver.
  - destruct Hf as [_ Hg]. exists self. rewrite Hg.
    split; [by rewrite bool_decide_false by (by intros [? ?])|].
    split; [done|]. intros k. case_decide; [|done]. by destruct_and!; subst.
Qed.

(** Deleting an identifier removes exactly it and reports whether it was
    stored. *)
Lemma deleteAspathCache_spec self id :
  ac_wf self ->
  exists self', deleteAspathCache self id = Ok (self', bool_decide (is_Some (ac_get self id)))
    /\ ac_wf self'
    /\ forall k, ac_get self' k = if decide (k = id) then None else ac_get self k.
Proof.
  intros Hw. unfold deleteAspathCache. rewrite find_AspathList_eq by done. simpl_outcome.
  pose proof (ac_find self id Hw) as Hf. destruct (ut_find id _) as [p|].
  - destruct Hf as (Hin & e & He & Hg & _). rewrite Hg, bool_decide_true by eauto.
    destruct (kt_del pathId entry_wf _ (entries self) id p (ac_wf_table self Hw) Hin) as [Hw' Hget].
    unfold del_AspathList.
    rewrite (ac_wf_lock self Hw). cbn [acquireWriteLock]. simpl_outcome.
    eexists. split; [done|]. split; [by constructor|exact Hget].
  - destruct Hf as [_ Hg]. exists self. rewrite Hg.
    split; [by rewrite bool_decide_false by (by intros [? ?])|]. split; [done|].
    intros k. by case_decide; subst.
Qed.

Lemma create_ac_wf : ac_wf createAspathCache.
Proof. constructor; [apply kt_empty|done]. Qed.

(** ** The properties of the cache *)

(** Storing a path list and reading it back under its identifier returns the
    same path, type, direction, address family and time, with the default result
    that came with it; reading any other identifier answers as before.  Storing
    under an identifier already taken is refused and changes nothing. *)
Theorem store_get_roundtrip self d id type l p res :
  ac_wf self -> list_wf l -> asPathList l = Some p -> id <> 0 ->
  match ac_get self id with
  | Some _ => storeAspathList self d id type (Some l) = Ok (self, 0)
  | None =>
      exists self', storeAspathList self d id type (Some l) = Ok (self', 1) /\ ac_wf self'
      /\ getAspathListFromAspathCache self' id res
         = Ok (self', mkSRxResult (roaResult res) (bgpsecResult res) (default_result d),
               Some (mkAS_PATH_LIST id (asPathLength l) (Some p) (default_result d) type
                       (asRelDir l) (afi l) (lastModified l)))
      /\ forall k, k <> id ->
           exists r a, getAspathListFromAspathCache self k res = Ok (self, r, a)
             /\ getAspathListFromAspathCache self' k res = Ok (self', r, a)
  end.
Proof.
  intros Hw Hl Hp Hid. destruct (storeAspathList_spec self d id type l Hw Hl)
    as (self' & r & Hs & Hw' & -> & Hg).
  destruct (ac_get self id) as [e|] eqn:E.
  { rewrite Hs. rewrite decide_True by eauto. f_equal. f_equal.
    unfold storeAspathList in Hs. rewrite find_AspathList_eq in Hs by done.
    pose proof (ac_find self id Hw) as Hf. simpl_outcome.
    destruct (ut_find id _); [by injection Hs as <-|destruct Hf; congruence]. }
  rewrite decide_False in Hs by (by intros [? ?]). exists self'. split; [done|]. split; [done|]. split.
  - rewrite getAspathListFromAspathCache_spec by done. rewrite (proj2 (Z.eqb_neq id 0)) by done.
    rewrite Hg, decide_True by done. simpl. unfold to_list, to_entry. cbn.
    destruct Hl as [Hb (q & Hq & Hlen)]. rewrite Hp in *. simplify_eq.
    destruct (Z.ltb_spec 0 (asPathLength l)); [done|]. unfold in_u in Hb.
    destruct q as [|x q]; [|simpl in Hlen; lia]. simpl in Hlen. by rewrite <- Hlen.
  - intros k Hk. rewrite !getAspathListFromAspathCache_spec by done.
    rewrite Hg, decide_False by naive_solver. by eexists _, _.
Qed.

(** A recorded validation result is what the next read of that identifier
    reports, together with the recorded time, the path being unchanged; after a
    deletion the read finds nothing and reports "undefined".  No other
    identifier is affected by either. *)
Theorem modify_delete_get self id v l e res :
  ac_wf self -> ac_get self id = Some e -> id <> 0 -> v <> SRx_RESULT_DONOTUSE ->
  (exists self' a, modifyAspaValidationResultToAspathCache self id v l = Ok (self', true)
     /\ ac_wf self'
     /\ getAspathListFromAspathCache self' id res
        = Ok (self', mkSRxResult (roaResult res) (bgpsecResult res) v, Some a)
     /\ aspaValResult a = v /\ lastModified a = lastModified l
     /\ asPathList a = asPathList (to_list e)
     /\ forall k, k <> id -> ac_get self' k = ac_get self k)
  /\ (exists self', deleteAspathCache self id = Ok (self', true) /\ ac_wf self'
     /\ getAspathListFromAspathCache self' id res
        = Ok (self', mkSRxResult (roaResult res) (bgpsecResult res) SRx_RESULT_UNDEFINED, None)
     /\ forall k, k <> id -> ac_get self' k = ac_get self k).
Proof.
  intros Hw He Hid Hv. split.
  - destruct (modifyAspaValidationResult_spec self id v l Hw) as (self' & Hm & Hw' & Hg).
    rewrite He, bool_decide_true in Hm by eauto. eexists self', _. split; [done|]. split; [done|].
    rewrite getAspathListFromAspathCache_spec by done. rewrite (proj2 (Z.eqb_neq id 0)) by done.
    rewrite Hg, He, decide_True by done. split; [done|]. do 3 (split; [done|]).
    intros k Hk. by rewrite Hg, decide_False by naive_solver.
  - destruct (deleteAspathCache_spec self id Hw) as (self' & Hm & Hw' & Hg).
    rewrite He, bool_decide_true in Hm by eauto. exists self'. split; [done|]. split; [done|].
    rewrite getAspathListFromAspathCache_spec by done. rewrite (proj2 (Z.eqb_neq id 0)) by done.
    rewrite Hg, decide_True by done. split; [done|].
    intros k Hk. by rewrite Hg, decide_False by done.
Qed.
End proofs.

(** ** Path identifiers *)

Lemma copy_array_fmap (f : Z -> Z) n (l : list Z) : copy_array n (list_fmap _ _ f l) = (q ← copy_array n l; Ok (list_fmap _ _ f q)).
Proof.
  unfold copy_array. rewrite length_fmap. case_decide; [|done]. simpl_outcome.
  by rewrite fmap_take.
Qed.

Lemma hex8_length x : length (hex8 x) = 8%nat.
Proof. reflexivity. Qed.

Lemma hex8_inj x y : in_u 32 x -> in_u 32 y -> hex8 x = hex8 y -> x = y.
Proof.
  assert (forall d e, 0 <= d < 16 -> 0 <= e < 16 -> hex_digit d = hex_digit e -> d = e) as Hd.
  { intros d e Hd He. unfold hex_digit.
    destruct (Z.ltb_spec d 10), (Z.ltb_spec e 10); lia. }
  unfold in_u, hex8, hex2. intros Hx Hy. cbn [app].
  intros [= E1 E2 E3 E4 E5 E6 E7 E8].
  apply Hd in E1, E2, E3, E4, E5, E6, E7, E8; zdiv.
Qed.

Lemma hex_digit_inj d e : 0 <= d < 16 -> 0 <= e < 16 -> hex_digit d = hex_digit e -> d = e.
Proof. intros Hd He. unfold hex_digit. destruct (Z.ltb_spec d 10), (Z.ltb_spec e 10); lia. Qed.

Lemma path_string_eq l t : path_string (Z.of_nat (length l)) l t false = Ok ((l ≫= hex8) ++ fmt_X1 t ++ [0]).
Proof. unfold path_string. by rewrite copy_array_all. Qed.

Lemma path_string_network l t : Forall (in_u 32) l ->
  path_string (Z.of_nat (length l)) (ntohl <$> l) t true
  = path_string (Z.of_nat (length l)) l t false.
Proof.
  intros Hl. rewrite path_string_eq. unfold path_string.
  change (ntohl <$> l) with (list_fmap _ _ ntohl l). rewrite copy_array_fmap, copy_array_all by done.
  transitivity (Ok (((ntohl <$> l) ≫= (fun asn => hex8 (ntohl asn))) ++ fmt_X1 t ++ [0])); [done|].
  do 2 f_equal. induction Hl as [|x l Hx _ IH]; [done|].
  rewrite fmap_cons, !bind_cons, IH. by rewrite ntohl_involutive.
Qed.

Lemma length_bind_hex8 l : length (l ≫= hex8) = (8 * length l)%nat.
Proof. induction l as [|x l IH]; [done|]. rewrite bind_cons, length_app, IH, hex8_length. simpl. lia. Qed.

Lemma bind_hex8_inj l1 l2 : Forall (in_u 32) l1 -> Forall (in_u 32) l2 ->
  l1 ≫= hex8 = l2 ≫= hex8 -> l1 = l2.
Proof.
  intros H1. revert l2. induction H1 as [|x l1 Hx H1 IH]; intros l2 H2 E.
  - destruct H2; [done|]. rewrite bind_cons in E. discriminate.
  - destruct H2 as [|y l2 Hy H2]; [rewrite bind_cons in E; discriminate|].
    rewrite !bind_cons in E. apply app_inj_1 in E as [E1 E2]; [|done].
    f_equal; [by apply hex8_inj|by apply IH].
Qed.

(** The identifier of a path does not depend on the byte order in which the
    AS numbers are handed over, and the hashed string determines the path: two
    paths get the same identifier only through a collision of the CRC. *)
Theorem makePathId_correct (l1 l2 : list Z) t1 t2 :
  Forall (in_u 32) l1 -> Forall (in_u 32) l2 -> 0 <= t1 < 16 -> 0 <= t2 < 16 ->
  let len (l : list Z) := Z.of_nat (length l) in
  makePathId (len l1) (Some (ntohl <$> l1)) t1 true = makePathId (len l1) (Some l1) t1 false
  /\ exists s1 s2, path_string (len l1) l1 t1 false = Ok s1
       /\ path_string (len l2) l2 t2 false = Ok s2
       /\ makePathId (len l1) (Some l1) t1 false = crc32 s1 (len s1)
       /\ (s1 = s2 <-> l1 = l2 /\ t1 = t2).
Proof.
  intros Hl1 Hl2 Ht1 Ht2 len. unfold len. split.
  - unfold makePathId. by rewrite path_string_network.
  - rewrite !path_string_eq. eexists _, _. split; [done|]. split; [done|]. split.
    + unfold makePathId. rewrite path_string_eq. simpl_outcome. f_equal.
      rewrite length_app, length_bind_hex8. cbn [length app fmt_X1]. lia.
    + split; [|by intros [-> ->]]. intros E.
      assert (length l1 = length l2) as Hlen.
      { apply (f_equal length) in E. rewrite !length_app, !length_bind_hex8 in E.
        cbn [length app fmt_X1] in E. lia. }
      apply app_inj_1 in E as [E1 E2]; [|by rewrite !length_bind_hex8, Hlen].
      split; [by apply bind_hex8_inj|].
      injection E2 as E2. apply hex_digit_inj in E2; zdiv.
Qed.

Lemma makePathId_correct_witness :
  makePathId 2 (Some [ntohl 65001; ntohl 65002]) AS_SEQUENCE true
  = makePathId 2 (Some [65001; 65002]) AS_SEQUENCE false.
Proof.
  refine (proj1 (makePathId_correct [65001; 65002] [] AS_SEQUENCE AS_SEQUENCE _ _ _ _)).
  all: try (unfold AS_SEQUENCE; lia). all: repeat constructor; lia.
Defined.

(** ** Witnesses *)
Definition example_list : AS_PATH_LIST :=
  mkAS_PATH_LIST 77 2 (Some [65001; 65002]) 0 AS_SEQUENCE ASPA_UPSTREAM AFI_IP 0.
Lemma example_list_wf : list_wf example_list.
Proof. split; [unfold in_u; simpl; lia|]. by exists [65001; 65002]. Qed.

Definition example_entry : PathListCacheTable :=
  to_entry 77 AS_SEQUENCE SRx_RESULT_UNDEFINED example_list.
Definition example_cache : AspathCache (list (Z * positive)) :=
  mkAspathCache [(77, 1%positive)] {[ 1%positive := example_entry ]} RW_free.
Lemma example_cache_wf : ac_wf example_cache.
Proof.
  constructor; [constructor; [by apply NoDup_singleton|]|done].
  intros k p Hin. apply list_elem_of_singleton in Hin. simplify_eq.
  exists example_entry. split; [done|]. split; [done|]. apply to_entry_wf, example_list_wf.
Qed.

Lemma store_get_roundtrip_witness :
  exists self', storeAspathList example_cache None 78 AS_SEQUENCE (Some example_list) = Ok (self', 1)
    /\ getAspathListFromAspathCache self' 78 (mkSRxResult 0 0 0)
       = Ok (self', mkSRxResult 0 0 0,
             Some (mkAS_PATH_LIST 78 2 (Some [65001; 65002]) 0 AS_SEQUENCE ASPA_UPSTREAM AFI_IP 0)).
Proof.
  destruct (store_get_roundtrip example_cache None 78 AS_SEQUENCE example_list [65001; 65002]
    (mkSRxResult 0 0 0) example_cache_wf example_list_wf eq_refl ltac:(lia))
    as (self' & H1 & _ & H2 & _).
  exists self'. split; [exact H1|exact H2].
Defined.

Lemma modify_delete_get_witness :
  exists self', deleteAspathCache example_cache 77 = Ok (self', true).
Proof.
  destruct (modify_delete_get example_cache 77 SRx_RESULT_VALID example_list example_entry
    (mkSRxResult 0 0 0) example_cache_wf eq_refl ltac:(lia) ltac:(done)) as [_ (self' & H1 & _)].
  exists self'. exact H1.
Defined.

End AspathCache.
