(* ===== verification/UpdateCache.v ===== *)
(** * Update cache (server/update_cache.c, server/update_cache.h): data and operations

    The updates known to the server, with their validation results and the
    clients they are registered for.  The hash table and the list [allItems]
    hold the addresses of the cache entries, which live in a heap.  An entry is
    allocated without being cleared: the fields the code does not set are
    [None] until they are.  The theorems are in UpdateCacheLemmas and
    UpdateCacheTheorems. *)
From S2P Require Import Prelude Locks SrxDefs UtHash.

(** The part of the SKI cache the update cache calls. *)
Class SkiUpdates (K : Type) := {
  ski_registerUpdate : K -> Z -> option (list Z) -> outcome (K * Z);
  ski_unregisterUpdate : K -> Z -> option (list Z) -> outcome (K * bool);
  ski_clean_updates : K -> outcome K
}.

Module UpdateCache.

(** ** Data *)
Definition NUM_PREALLOC : Z := 1.
Definition MAX_PROXY_CLIENT_ELEMENTS : Z := 256.

Record SCA_Prefix := mkSCA_Prefix { s_afi : Z; s_safi : Z; s_length : Z; s_addr : list Z }.
Definition zero_SCA_Prefix : SCA_Prefix := mkSCA_Prefix 0 0 0 (replicate 16 0).

Record UC_UpdateData := mkUC_UpdateData {
  hops : Z;
  asn_path : option (list Z);
  myAS : Z;
  nlri : SCA_Prefix;
  data_length : Z;
  bgpsec_path : option (list Z)
}.
Definition zero_UC_UpdateData : UC_UpdateData := mkUC_UpdateData 0 None 0 zero_SCA_Prefix 0 None.

Record CacheEntry := mkCacheEntry {
  clients : option (list Z);
  noPossibleClients : Z;
  updateID : Z;
  asn : Z;
  prefix : option IPPrefix;
  srxResult : SRxResult;
  defaultResult : SRxDefaultResult;
  roaRefCount : option Z;
  gcFlag : option Z;
  pathData : option UC_UpdateData;
  aspathCacheID : Z
}.

(** The entry with other clients, and with another result. *)
Definition set_clients (e : CacheEntry) (cs : option (list Z)) (n : Z) (gc : option Z) : CacheEntry :=
  mkCacheEntry cs n (updateID e) (asn e) (prefix e) (srxResult e) (defaultResult e)
    (roaRefCount e) gc (pathData e) (aspathCacheID e).
Definition set_srxResult (e : CacheEntry) (r : SRxResult) : CacheEntry :=
  mkCacheEntry (clients e) (noPossibleClients e) (updateID e) (asn e) (prefix e) r
    (defaultResult e) (roaRefCount e) (gcFlag e) (pathData e) (aspathCacheID e).

(** [setGCFlag] *)
Definition setGCFlag (e : CacheEntry) (timeOfDeletion : Z) : CacheEntry :=
  set_clients e (clients e) (noPossibleClients e) (Some timeOfDeletion).

Record UpdSigResult := mkUpdSigResult {
  containsError : bool;
  errorCode : Z;
  signatureLength : Z;
  signatureBlock : option (list Z)
}.
Definition SRXERR_ALGO_NOT_SUPPORTED : Z := 4.
Definition SRXERR_UPDATE_NOT_FOUND : Z := 5.

(** The statistics record without the caller's [updateID]. *)
Record UC_UpdateStatistics := mkUC_UpdateStatistics {
  st_asn : Z;
  st_roa_count : option Z;
  st_defResult : SRxDefaultResult;
  st_result : SRxResult;
  st_prefix : option IPPrefix;
  st_bgpsecResult : UpdSigResult
}.

(** A client mapping as the cache uses it: its [updateCount]; [None] is NULL. *)
Definition ProxyClientMapping : Type := option Z.

Section cache.
Context {H K : Type} `{UTHash H} `{SkiUpdates K}.

(** [lockedClients] lists the 256 bytes that were allocated for it;
    [hasCallback] tells whether [resChangedCallback] is set. *)
Record UpdateCache := mkUpdateCache {
  hasCallback : bool;
  itemMutex : Mutex;
  allItems : list positive;
  availItems : option positive;
  itemsUsed : Z;
  tableLock : RWLock;
  table : H;
  minNumberOfClients : Z;
  lockedClients : list Z;
  defaultKeepWindow : Z;
  entries : gmap positive CacheEntry
}.

Definition set_entries (self : UpdateCache) (es : gmap positive CacheEntry) : UpdateCache :=
  mkUpdateCache (hasCallback self) (itemMutex self) (allItems self) (availItems self)
    (itemsUsed self) (tableLock self) (table self) (minNumberOfClients self)
    (lockedClients self) (defaultKeepWindow self) es.
Definition set_itemMutex (self : UpdateCache) (m : Mutex) : UpdateCache :=
  mkUpdateCache (hasCallback self) m (allItems self) (availItems self)
    (itemsUsed self) (tableLock self) (table self) (minNumberOfClients self)
    (lockedClients self) (defaultKeepWindow self) (entries self).
Definition set_table (self : UpdateCache) (l : RWLock) (t : H) : UpdateCache :=
  mkUpdateCache (hasCallback self) (itemMutex self) (allItems self) (availItems self)
    (itemsUsed self) l t (minNumberOfClients self)
    (lockedClients self) (defaultKeepWindow self) (entries self).
Definition set_items (self : UpdateCache) (l : list positive) (a : option positive) (n : Z) : UpdateCache :=
  mkUpdateCache (hasCallback self) (itemMutex self) l a n (tableLock self) (table self)
    (minNumberOfClients self) (lockedClients self) (defaultKeepWindow self) (entries self).
Definition set_lockedClients (self : UpdateCache) (l : list Z) : UpdateCache :=
  mkUpdateCache (hasCallback self) (itemMutex self) (allItems self) (availItems self)
    (itemsUsed self) (tableLock self) (table self) (minNumberOfClients self)
    l (defaultKeepWindow self) (entries self).

(** ** The hash table *)
Definition tableFind (self : UpdateCache) (id : Z) : outcome (UpdateCache * option positive) :=
  lock ← acquireReadLock (tableLock self);
  let out := ut_find id (table self) in
  lock ← unlockReadLock lock;
  Ok (set_table self lock (table self), out).

Definition tableAdd (self : UpdateCache) (p : positive) : outcome UpdateCache :=
  lock ← acquireWriteLock (tableLock self);
  cEntry ← deref (entries self) p;
  let t := ut_add (updateID cEntry) p (table self) in
  lock ← unlockWriteLock lock;
  Ok (set_table self lock t).

Definition tableDel (self : UpdateCache) (p : positive) : outcome UpdateCache :=
  lock ← acquireWriteLock (tableLock self);
  let t := ut_del p (table self) in
  lock ← unlockWriteLock lock;
  Ok (set_table self lock t).

(** ** Creation *)
Definition createUpdateCache (callback : bool) (minClients keepWindow : Z) : UpdateCache :=
  mkUpdateCache callback initMutex [] None NUM_PREALLOC createRWLock ut_empty minClients
    (replicate (Z.to_nat MAX_PROXY_CLIENT_ELEMENTS) 0) keepWindow ∅.

Definition setMinClients (self : UpdateCache) (noClients : Z) : UpdateCache :=
  mkUpdateCache (hasCallback self) (itemMutex self) (allItems self) (availItems self)
    (itemsUsed self) (tableLock self) (table self) noClients
    (lockedClients self) (defaultKeepWindow self) (entries self).

(** ** Path data *)
Definition _cleanCachPathData (data : UC_UpdateData) : UC_UpdateData := zero_UC_UpdateData.

(** [memcpy] of the first [n] elements of an area behind a pointer. *)
Definition copy_from (n : nat) (src : option (list Z)) : outcome (list Z) :=
  match src with
  | None => match n with O => Ok [] | _ => Fault NullDeref end
  | Some l => if decide (n <= length l)%nat then Ok (take n l) else Fault OutOfBounds
  end.

(** [storeCacheEntryBlob]: the new path data and the return value. *)
Definition storeCacheEntryBlob (data : UC_UpdateData) (bgpData : BGPSecData)
    (pfx : option IPPrefix) : outcome (UC_UpdateData * bool) :=
  match asn_path data, bgpsec_path data with
  | None, None =>
      let n := match pfx with
               | None => zero_SCA_Prefix
               | Some p =>
                   let size := if version (ip p) =? 4 then 4%nat else 16%nat in
                   mkSCA_Prefix (bgp_afi bgpData) (bgp_safi bgpData) (length_bits p)
                     (take size (addr_u8 (ip p)) ++ replicate (16 - size) 0)
               end in
      '(h, path) ← (if 0 <? numberHops bgpData
                    then l ← copy_from (Z.to_nat (numberHops bgpData)) (asPath bgpData);
                         Ok (numberHops bgpData, Some l)
                    else Ok (hops data, None));
      '(len, sec) ← (if negb (attr_length bgpData =? 0)
                     then l ← copy_from (Z.to_nat (attr_length bgpData)) (bgpsec_path_attr bgpData);
                          Ok (attr_length bgpData, Some l)
                     else Ok (data_length data, None));
      Ok (mkUC_UpdateData h path (local_as bgpData) n len sec, true)
  | _, _ => Ok (data, false)
  end.

(** ** Clients of an update *)

(** The search for a free slot: the new array and what was found; [None] when
    all slots are taken by other clients. *)
Inductive slot := Slot_new | Slot_present | Slot_none.
Fixpoint client_slot (n : nat) (cs : list Z) (clientID : Z) : outcome (list Z * slot) :=
  match n with
  | O => Ok (cs, Slot_none)
  | S n =>
      match cs with
      | [] => Fault OutOfBounds
      | c :: cs' =>
          if c =? 0 then Ok (clientID :: cs', Slot_new)
          else if c =? clientID then Ok (cs, Slot_present)
          else '(l, s) ← client_slot n cs' clientID; Ok (c :: l, s)
      end
  end.

(** [realloc] of the array to [n] bytes, the added ones still unset (shown as
    0, which is what the loop that follows stores). *)
Definition realloc (cs : option (list Z)) (n : nat) : option (list Z) :=
  match cs, n with
  | Some _, O => None
  | None, _ => Some (replicate n 0)
  | Some l, _ => Some (take n l ++ replicate (n - length l) 0)
  end.

Definition _addClientReference (self : UpdateCache) (cEntry : CacheEntry) (clientID : Z)
    (clientMapping : ProxyClientMapping) : outcome (CacheEntry * ProxyClientMapping * bool) :=
  let n := Z.to_nat (noPossibleClients cEntry) in
  '(cs, s) ← (match clients cEntry with
              | Some l => '(l, s) ← client_slot n l clientID; Ok (Some l, s)
              | None => match n with O => Ok (None, Slot_none) | _ => Fault NullDeref end
              end);
  match s with
  | Slot_new =>
      match clientMapping with
      | None => Fault NullDeref
      | Some updateCount =>
          Ok (set_clients cEntry cs (noPossibleClients cEntry) (Some 0),
              Some (u32 (updateCount + 1)), true)
      end
  | Slot_present => Ok (set_clients cEntry cs (noPossibleClients cEntry) (Some 0), clientMapping, true)
  | Slot_none =>
      let newSize := noPossibleClients cEntry + minNumberOfClients self in
      match realloc cs (Z.to_nat newSize) with
      | Some l =>
          (* the slots from the old size on are cleared, the first one is used *)
          if decide (n < Z.to_nat newSize)%nat
          then let l := take n l ++ replicate (Z.to_nat newSize - n) 0 in
               Ok (set_clients cEntry (Some (<[n := clientID]> l)) (u8 newSize) (gcFlag cEntry),
                   clientMapping, true)
          else Fault BufferOverflow
      | None => Ok (set_clients cEntry None (noPossibleClients cEntry) (gcFlag cEntry),
                    clientMapping, false)
      end
  end.

(** ** Queries *)
Definition undefined_result : SRxResult :=
  mkSRxResult SRx_RESULT_UNDEFINED SRx_RESULT_UNDEFINED SRx_RESULT_UNDEFINED.
Definition donotuse_default : SRxDefaultResult :=
  mkSRxDefaultResult SRxRS_DONOTUSE SRxRS_DONOTUSE SRxRS_DONOTUSE
    (mkSRxResult SRx_RESULT_DONOTUSE SRx_RESULT_DONOTUSE SRx_RESULT_DONOTUSE).

(** What [getUpdateResult] writes through its pointers and returns. *)
Record query := mkQuery {
  q_found : bool;
  q_result : SRxResult;
  q_default : SRxDefaultResult;
  q_pathId : option Z     (** [None]: not written *)
}.

Definition getUpdateResult (self : UpdateCache) (id clientID : Z) (clientMapping : ProxyClientMapping)
    (wantPathId : bool) : outcome (UpdateCache * ProxyClientMapping * query) :=
  '(self, out) ← tableFind self id;
  match out with
  | Some p =>
      cEntry ← deref (entries self) p;
      let q := mkQuery true (srxResult cEntry) (defaultResult cEntry)
                 (if wantPathId then Some (aspathCacheID cEntry) else None) in
      if 0 <? clientID then
        '(cEntry, clientMapping, _) ← _addClientReference self cEntry clientID clientMapping;
        Ok (set_entries self (<[p := cEntry]> (entries self)), clientMapping, q)
      else Ok (self, clientMapping, q)
  | None => Ok (self, clientMapping, mkQuery false undefined_result donotuse_default None)
  end.

Definition getUpdateSignature (self : UpdateCache) (id : Z) : outcome (UpdateCache * UpdSigResult) :=
  '(self, out) ← tableFind self id;
  Ok (self, mkUpdSigResult true
              (match out with Some _ => SRXERR_ALGO_NOT_SUPPORTED | None => SRXERR_UPDATE_NOT_FOUND end)
              0 None).

(** [None]: the return value is [false] and nothing was written.  The ASPA
    results of the caller's record are not written. *)
Definition getUpdateStats (self : UpdateCache) (id : Z) (st : UC_UpdateStatistics)
    : outcome (UpdateCache * option UC_UpdateStatistics) :=
  if id =? 0 then Ok (self, None)
  else
    '(self, out) ← tableFind self id;
    match out with
    | None => Ok (self, None)
    | Some p =>
        e ← deref (entries self) p;
        let d := defaultResult e in
        Ok (self, Some (mkUC_UpdateStatistics (asn e) (roaRefCount e)
          (mkSRxDefaultResult (resSourceROA d) (resSourceBGPSEC d) (resSourceASPA (st_defResult st))
             (mkSRxResult (roaResult (result d)) (bgpsecResult (result d))
                (aspaResult (result (st_defResult st)))))
          (mkSRxResult (roaResult (srxResult e)) (bgpsecResult (srxResult e))
             (aspaResult (st_result st)))
          (prefix e) (mkUpdSigResult false 0 0 None)))
    end.

(** The internal path data of an update; [None] for an unknown update. *)
Definition getUpdateData (self : UpdateCache) (id : Z)
    : outcome (UpdateCache * option UC_UpdateData) :=
  '(self, out) ← tableFind self id;
  match out with
  | None => Ok (self, None)
  | Some p => e ← deref (entries self) p;
              match pathData e with
              | Some d => Ok (self, Some d)
              | None => Fault UninitRead
              end
  end.

(** [getClientIDsOfUpdate]: the return value with the client identifiers written
    to the caller's array of [size] elements. *)
Definition getClientIDsOfUpdate (self : UpdateCache) (id size : Z)
    : outcome (UpdateCache * Z * list Z) :=
  '(self, out) ← tableFind self id;
  match out with
  | None => Ok (self, 0, [])
  | Some p =>
      e ← deref (entries self) p;
      if noPossibleClients e <=? size then
        l ← copy_from (Z.to_nat (noPossibleClients e)) (clients e);
        let ids := filter (fun c => c <> 0) l in
        Ok (self, Z.of_nat (length ids), ids)
      else Ok (self, -1, [])
  end.

(** ** Storing an update *)

(** [getGCTime] at the time [now]. *)
Definition getGCTime (now keepTime : Z) : Z := u16 (now + keepTime).

Definition unknown_default : SRxDefaultResult :=
  mkSRxDefaultResult SRxRS_UNKNOWN SRxRS_UNKNOWN SRxRS_UNKNOWN undefined_result.

(** [storeUpdate].  [mem] tells whether the list node can be allocated.  The new
    entry is not cleared: without BGP data the code reads the pointers of the
    unset path data to free them. *)
Definition storeUpdate (self : UpdateCache) (sCache : K) (now : Z) (mem : bool) (clientID : Z)
    (clientMapping : ProxyClientMapping) (id : Z) (pfx : option IPPrefix) (as_ : Z)
    (defRes : option SRxDefaultResult) (bgpData : option BGPSecData) (pathId : Z)
    : outcome (UpdateCache * K * ProxyClientMapping * Z) :=
  '(self, out) ← tableFind self id;
  match out with
  | Some _ => Ok (self, sCache, clientMapping, 0)
  | None =>
      m ← lockMutex (itemMutex self);
      let self := set_itemMutex self m in
      if (itemsUsed self =? NUM_PREALLOC) && negb mem then Ok (self, sCache, clientMapping, -1)
      else
        let fresh_node := fresh (dom (entries self)) in
        let self := if itemsUsed self =? NUM_PREALLOC
                    then set_items self (allItems self ++ [fresh_node]) (Some fresh_node) 0
                    else self in
        match availItems self with
        | None => Fault NullDeref
        | Some p =>
            let self := set_items self (allItems self) (availItems self) (itemsUsed self + 1) in
            '(data, sCache) ←
              (match bgpData with
               | Some b =>
                   '(data, stored) ← storeCacheEntryBlob zero_UC_UpdateData b pfx;
                   if (stored : bool)
                   then '(sCache, _) ← ski_registerUpdate sCache id (bgpsec_path_attr b);
                        Ok (data, sCache)
                   else Ok (data, sCache)
               | None => Fault UninitRead
               end);
            let minC := minNumberOfClients self in
            let cEntry := mkCacheEntry (Some (replicate (Z.to_nat minC) 0)) minC id as_ pfx
              undefined_result (match defRes with Some d => d | None => unknown_default end)
              None None (Some data) pathId in
            '(cEntry, clientMapping, retVal) ←
              (if 0 <? clientID then
                 '(cEntry, clientMapping, added) ← _addClientReference self cEntry clientID clientMapping;
                 Ok (cEntry, clientMapping, if (added : bool) then 1 else -1)
               else Ok (setGCFlag cEntry (getGCTime now (u16 (defaultKeepWindow self))),
                        clientMapping, 1));
            self ← tableAdd (set_entries self (<[p := cEntry]> (entries self))) p;
            m ← unlockMutex (itemMutex self);
            Ok (set_itemMutex self m, sCache, clientMapping, retVal)
        end
  end.

(** ** Modifying results *)

(** [modifyUpdateResult]: the notifications passed to the callback are listed in
    the result. *)
Definition modifyUpdateResult (self : UpdateCache) (id : Z) (res : SRxResult)
    (suppressNotification : bool) : outcome (UpdateCache * bool * list SRxValidationResult) :=
  '(self, out) ← tableFind self id;
  match out with
  | None => Ok (self, false, [])
  | Some p =>
      m ← lockMutex (itemMutex self);
      cEntry ← deref (entries self) p;
      let r := srxResult cEntry in
      let roa := negb (roaResult res =? SRx_RESULT_DONOTUSE)
                 && negb (roaResult res =? roaResult r) in
      let sec := negb (bgpsecResult res =? SRx_RESULT_DONOTUSE)
                 && negb (bgpsecResult res =? bgpsecResult r) in
      let aspa := negb (aspaResult res =? SRx_RESULT_DONOTUSE) in
      let type := Z.lor (Z.lor (if roa then VRT_ROA else VRT_NONE) (if sec then VRT_BGPSEC else VRT_NONE))
                    (if aspa then VRT_ASPA else VRT_NONE) in
      let new := mkSRxResult (if roa then roaResult res else roaResult r)
                   (if sec then bgpsecResult res else bgpsecResult r)
                   (if aspa then aspaResult res else aspaResult r) in
      let self := set_entries self (<[p := set_srxResult cEntry new]> (entries self)) in
      let notify := negb suppressNotification && negb (type =? VRT_NONE) in
      let retVal := negb (notify && negb (hasCallback self)) in
      m ← unlockMutex m;
      Ok (set_itemMutex self m, retVal,
          if notify && hasCallback self then [mkSRxValidationResult type new id] else [])
  end.

Definition modifyUpdateCacheResultWithAspaVal (self : UpdateCache) (id : Z) (res : SRxResult)
    : outcome (UpdateCache * bool) :=
  '(self, out) ← tableFind self id;
  match out with
  | None => Ok (self, false)
  | Some p =>
      m ← lockMutex (itemMutex self);
      cEntry ← deref (entries self) p;
      let r := srxResult cEntry in
      let change := negb (aspaResult res =? SRx_RESULT_DONOTUSE)
                    && negb (aspaResult res =? aspaResult r) in
      let self := if change
                  then set_entries self (<[p := set_srxResult cEntry
                         (mkSRxResult (roaResult r) (bgpsecResult r) (aspaResult res))]> (entries self))
                  else self in
      m ← unlockMutex m;
      Ok (set_itemMutex self m, change)
  end.

(** ** Removing clients *)

(** The loop of [_deleteUpdateFromCache_clientMgmt] from [idx] on: the array and
    the flags [found], [others]. *)
Fixpoint client_remove (n idx : nat) (cs : list Z) (clientID : Z) (found others : bool)
    : outcome (list Z * bool * bool) :=
  match n with
  | O => Ok (cs, found, others)
  | S n =>
      c ← arr_get cs idx;
      if c =? clientID then client_remove n (S idx) (<[idx := 0]> cs) clientID true others
      else if negb (c =? 0) then
        if found
        then match idx with
             | O => Fault OutOfBounds
             | S idx' => client_remove n (S idx) (<[idx := 0]> (<[idx' := c]> cs)) clientID found true
             end
        else client_remove n (S idx) cs clientID found true
      else client_remove n (S idx) cs clientID found others
  end.

(** The return value is -1, 0 or 1. *)
Definition _deleteUpdateFromCache_clientMgmt (entry : CacheEntry) (clientID : Z)
    : outcome (CacheEntry * Z) :=
  let n := Z.to_nat (noPossibleClients entry) in
  match clients entry with
  | None => match n with O => Ok (entry, -1) | _ => Fault NullDeref end
  | Some cs =>
      '(cs, found, others) ← client_remove n 0 cs clientID false false;
      Ok (set_clients entry (Some cs) (noPossibleClients entry) (gcFlag entry),
          if negb found then -1 else if (others : bool) then 1 else 0)
  end.

Definition _deleteUpdateFromCache (clientID : Z) (cEntry : CacheEntry) (timeOfDeletion : Z)
    : outcome (CacheEntry * bool) :=
  '(cEntry, r) ← _deleteUpdateFromCache_clientMgmt cEntry clientID;
  Ok (if r =? -1 then (cEntry, false)
      else if r =? 0 then (setGCFlag cEntry timeOfDeletion, true)
      else (cEntry, true)).

Definition deleteUpdateFromCache (self : UpdateCache) (sCache : K) (now clientID id keepTime : Z)
    : outcome (UpdateCache * K * bool) :=
  let keepTime := if keepTime <? defaultKeepWindow self then u16 (defaultKeepWindow self)
                  else keepTime in
  let timeToBeDeleted := getGCTime now keepTime in
  '(self, out) ← tableFind self id;
  match out with
  | None => Ok (self, sCache, false)
  | Some p =>
      cEntry ← deref (entries self) p;
      '(cEntry, retVal) ← _deleteUpdateFromCache clientID cEntry timeToBeDeleted;
      let self := set_entries self (<[p := cEntry]> (entries self)) in
      if (retVal : bool) then
        match pathData cEntry with
        | None => Fault UninitRead
        | Some d => match bgpsec_path d with
                    | None => Ok (self, sCache, true)
                    | Some attr => '(sCache, _) ← ski_unregisterUpdate sCache id (Some attr);
                                   Ok (self, sCache, true)
                    end
        end
      else Ok (self, sCache, false)
  end.

(** The loop of [unregisterClientID] over [allItems]: the entries, the number of
    associations removed and the [updateCount] left. *)
Fixpoint unregister_loop (items : list positive) (es : gmap positive CacheEntry)
    (clientID keepTime idsRemoved updateCount : Z)
    : outcome (gmap positive CacheEntry * Z * Z) :=
  match items with
  | [] => Ok (es, idsRemoved, updateCount)
  | p :: items =>
      cEntry ← deref es p;
      '(cEntry, removed) ← _deleteUpdateFromCache clientID cEntry (u16 keepTime);
      let es := <[p := cEntry]> es in
      let '(idsRemoved, updateCount) :=
        if (removed : bool) then (idsRemoved + 1, u32 (updateCount - 1))
        else (idsRemoved, updateCount) in
      if updateCount =? 0 then Ok (es, idsRemoved, updateCount)
      else unregister_loop items es clientID keepTime idsRemoved updateCount
  end.

(** The array [lockedClients] has 32-bit elements in 256 bytes. *)
Definition locked_get (l : list Z) (clientID : Z) : outcome Z :=
  let i := (4 * Z.to_nat clientID)%nat in
  b ← read_bytes l i 4; Ok (le_load32 b).
Definition locked_set (l : list Z) (clientID v : Z) : list Z :=
  list_inserts (4 * Z.to_nat clientID) (le_bytes32 v) l.

Definition unregisterClientID (self : UpdateCache) (clientID : Z) (clientMapping : ProxyClientMapping)
    (keepTime : Z) : outcome (UpdateCache * ProxyClientMapping * Z) :=
  lock ← acquireWriteLock (tableLock self);
  m ← lockMutex (itemMutex self);
  locked ← locked_get (lockedClients self) clientID;
  '(self, clientMapping, idsRemoved) ←
    (if locked =? 0 then
       let self := set_lockedClients self (locked_set (lockedClients self) clientID 1) in
       match allItems self, clientMapping with
       | [], _ => Ok (set_lockedClients self (locked_set (lockedClients self) clientID 0),
                      clientMapping, 0)
       | _, None => Fault NullDeref
       | items, Some updateCount =>
           '(es, idsRemoved, updateCount) ←
             unregister_loop items (entries self) clientID keepTime 0 updateCount;
           let self := set_entries self es in
           Ok (set_lockedClients self (locked_set (lockedClients self) clientID 0),
               Some updateCount, idsRemoved)
       end
     else Ok (self, clientMapping, -1));
  m ← unlockMutex m;
  lock ← unlockWriteLock lock;
  Ok (set_table (set_itemMutex self m) lock (table self), clientMapping, idsRemoved).

(** ** Emptying the cache *)

(** The entries of [allItems] are freed, and every update leaves the SKI cache. *)
Definition emptyUpdateCache (self : UpdateCache) (sCache : K) : outcome (UpdateCache * K) :=
  lock ← acquireWriteLock (tableLock self);
  m ← lockMutex (itemMutex self);
  let es := foldr delete (entries self) (allItems self) in
  sCache ← ski_clean_updates sCache;
  m ← unlockMutex m;
  lock ← unlockWriteLock lock;
  Ok (mkUpdateCache (hasCallback self) m [] (availItems self) NUM_PREALLOC lock ut_empty
        (minNumberOfClients self) (lockedClients self) (defaultKeepWindow self) es, sCache).

(** [releaseUpdateCache] destroys both locks before it empties the cache. *)
Definition releaseUpdateCache (self : option UpdateCache) (sCache : K)
    : outcome (option UpdateCache * K) :=
  match self with
  | None => Ok (None, sCache)
  | Some self =>
      lock ← releaseRWLock (tableLock self);
      let m := releaseMutex (itemMutex self) in
      '(self, sCache) ← emptyUpdateCache (set_itemMutex (set_table self lock (table self)) m) sCache;
      Ok (Some self, sCache)
  end.

(** ** Collisions of update identifiers *)

(** Byte [i] counted from the start of the address: the address has 16 bytes and
    is followed by the prefix length. *)
Definition addr_byte (p : IPPrefix) (i : nat) : outcome Z := arr_get (addr_u8 (ip p) ++ [length_bits p]) i.

(** The loop that compares the prefixes; it reads the same byte every round. *)
Fixpoint prefix_loop (n bytes : nat) (p1 p2 : IPPrefix) (collision : bool) : outcome bool :=
  match n with
  | O => Ok collision
  | S n => if collision then Ok true
           else b1 ← addr_byte p1 bytes; b2 ← addr_byte p2 bytes;
                prefix_loop n bytes p1 p2 (negb (b1 =? b2))
  end.

Definition detectCollision (self : UpdateCache) (id : Z) (pfx : IPPrefix) (as_ : Z)
    (bgpsecData : BGPSecData) : outcome (UpdateCache * bool) :=
  '(self, out) ← tableFind self id;
  match out with
  | None => Ok (self, false)
  | Some p =>
      cEntry ← deref (entries self) p;
      match pathData cEntry, prefix cEntry with
      | Some data, Some cpfx =>
          if negb (asn cEntry =? as_) then Ok (self, true)
          else if negb (hops data =? numberHops bgpsecData) then Ok (self, true)
          else
            let bytes := if version (ip cpfx) =? 4 then 4%nat else 16%nat in
            _ ← prefix_loop bytes bytes pfx cpfx false;
            d1 ← copy_from (Z.to_nat (hops data)) (asn_path data);
            d2 ← copy_from (Z.to_nat (hops data)) (asPath bgpsecData);
            if negb (memcmp (u32s_bytes d1) (u32s_bytes d2) =? 0) then Ok (self, true)
            else
              d1 ← copy_from (Z.to_nat (data_length data)) (bgpsec_path data);
              d2 ← copy_from (Z.to_nat (data_length data)) (bgpsec_path_attr bgpsecData);
              Ok (self, negb (memcmp d1 d2 =? 0))
      | _, _ => Fault UninitRead
      end
  end.

(** ** End of data: the callback runs on every entry, in the order of the table *)
Definition process_ASPA_EndOfData {St} (cb : St -> Z -> Z -> Z -> outcome St)
    (uCache : St -> UpdateCache) (now : Z) (st : St) : outcome St :=
  foldl (fun r i =>
           st ← r;
           cEntry ← deref (entries (uCache st)) i.2;
           cb st (updateID cEntry) (aspathCacheID cEntry) now)
        (Ok st) (ut_items (table (uCache st))).
End cache.
Arguments UpdateCache : clear implicits.

End UpdateCache.
