(* ===== verification/UpdateCacheLemmas.v ===== *)
(** * Update cache: the invariant and the lemmas on client arrays and the table *)
From S2P Require Import Prelude Locks SrxDefs UtHash UpdateCache.

Module UpdateCacheLemmas.
Import UpdateCache.

(** ** Client arrays: the clients in front, the free slots behind *)
Definition client_ok (c : Z) : Prop := 0 < c < 256.
Definition slots (ids : list Z) (k : nat) : list Z := ids ++ replicate k 0.

Record clients_are (e : CacheEntry) (ids : list Z) : Prop := mk_clients_are {
  ca_slots : exists k, clients e = Some (slots ids k)
                       /\ Z.of_nat (length ids + k) = noPossibleClients e;
  ca_max : noPossibleClients e < 256;
  ca_nodup : NoDup ids;
  ca_ok : Forall client_ok ids
}.

Lemma client_slot_spec ids k c : Forall client_ok ids -> client_ok c ->
  client_slot (length ids + k) (slots ids k) c
  = Ok (if decide (c ∈ ids) then (slots ids k, Slot_present)
        else match k with
             | O => (slots ids 0, Slot_none)
             | S k => (slots (ids ++ [c]) k, Slot_new)
             end).
Proof.
  intros Hi Hc. induction Hi as [|d ids Hd Hi IH]; cbn [length Nat.add].
  - rewrite decide_False by set_solver. by destruct k.
  - cbn [client_slot slots app]. unfold client_ok in *.
    destruct (Z.eqb_spec d 0); [lia|]. destruct (Z.eqb_spec d c) as [->|Hne].
    + by rewrite decide_True by left.
    + unfold slots in IH. rewrite IH. simpl_outcome.
      destruct (decide (c ∈ ids)).
      * by rewrite decide_True by (by right).
      * rewrite decide_False by set_solver. by destruct k.
Qed.

(** Adding a client: a free slot is used when there is one, and otherwise the
    array grows. *)
Lemma addClientReference_spec {H} (self : UpdateCache H) e ids c m :
  clients_are e ids -> client_ok c ->
  0 < minNumberOfClients self -> noPossibleClients e + minNumberOfClients self < 256 ->
  let full := (Z.of_nat (length ids) =? noPossibleClients e) in
  exists e', _addClientReference self e c (Some m)
     = Ok (e', Some (if decide (c ∈ ids) then m else if full then m else u32 (m + 1)), true)
   /\ e' = set_clients e (clients e') (noPossibleClients e')
             (if decide (c ∈ ids) then Some 0 else if full then gcFlag e else Some 0)
   /\ clients_are e' (if decide (c ∈ ids) then ids else ids ++ [c]).
Proof.
  intros [(k & Hcs & Hn) Hmax Hnd Hok] Hc Hmin Hgrow full. unfold _addClientReference.
  rewrite Hcs, <- Hn, Nat2Z.id, client_slot_spec by done. simpl_outcome.
  assert (NoDup (ids ++ [c]) \/ c ∈ ids) as Hnd'.
  { destruct (decide (c ∈ ids)); [by right|left]. apply NoDup_app.
    split; [done|]. split; [set_solver|apply NoDup_singleton]. }
  assert (Forall client_ok (ids ++ [c])) as Hok' by (apply Forall_app; auto).
  destruct (decide (c ∈ ids)) as [Hin|Hin].
  { eexists. split; [done|]. split; [done|]. constructor; cbn [clients noPossibleClients set_clients].
    - by exists k.
    - lia.
    - done.
    - done. }
  destruct Hnd' as [Hnd'|?]; [|done]. destruct k as [|k].
  - subst full. rewrite Nat.add_0_r in *. rewrite (proj2 (Z.eqb_eq _ _)) by lia.
    set (n := length ids). set (k := Z.to_nat (minNumberOfClients self)).
    assert (Z.to_nat (Z.of_nat n + minNumberOfClients self) = S (n + (k - 1)))%nat as Hnew by lia.
    simpl_outcome. rewrite Hnew. cbn [realloc]. rewrite decide_True by lia.
    eexists. split; [done|]. split; [done|].
    constructor; cbn [clients noPossibleClients set_clients]; [|rewrite wrap_small by (unfold in_u; lia); lia|done..].
    exists (k - 1)%nat. rewrite wrap_small by (unfold in_u; lia). split.
    + f_equal. unfold slots. rewrite app_nil_r, (take_ge ids) by lia.
      rewrite take_app_le by lia. rewrite (take_ge ids) by lia.
      rewrite insert_app_r_alt by lia. fold n. rewrite Nat.sub_diag, <- (assoc_L (++)).
      replace (S (n + (k - 1)) - n)%nat with (S (k - 1)) by lia. done.
    + rewrite length_app. simpl. lia.
  - subst full. rewrite (proj2 (Z.eqb_neq _ _)) by lia. simpl_outcome.
    eexists. split; [done|]. split; [done|].
    constructor; cbn [clients noPossibleClients set_clients]; [|lia|done..].
    exists k. split; [done|]. rewrite length_app. simpl. lia.
Qed.

(** ** Removing a client *)

Lemma client_remove_zeros n idx cs c f o :
  c <> 0 -> (forall i, (idx <= i < idx + n)%nat -> cs !! i = Some 0) ->
  client_remove n idx cs c f o = Ok (cs, f, o).
Proof.
  intros Hc. revert idx. induction n as [|n IH]; intros idx Hz; cbn [client_remove]; [done|].
  unfold arr_get. rewrite (Hz idx) by lia. simpl_outcome.
  destruct (Z.eqb_spec 0 c); [congruence|]. cbn [Z.eqb negb].
  apply IH. intros i Hi. apply Hz. lia.
Qed.

(** After the client was found: the rest moves one slot to the left. *)
Lemma client_remove_shift rest pre k c o :
  client_ok c -> Forall client_ok rest -> c ∉ rest ->
  client_remove (length rest + k) (S (length pre)) (pre ++ 0 :: slots rest k) c true o
  = Ok (pre ++ slots rest (S k), true, o || negb (bool_decide (rest = []))).
Proof.
  unfold client_ok. intros Hc Hr. revert pre o.
  induction Hr as [|d rest Hd Hr IH]; intros pre o Hnin; cbn [length Nat.add].
  - rewrite client_remove_zeros; [by rewrite orb_false_r| lia|].
    intros i Hi. rewrite lookup_app_r by lia. change (0 :: slots [] k) with (replicate (S k) 0).
    apply lookup_replicate. lia.
  - cbn [client_remove]. unfold arr_get.
    change (pre ++ 0 :: slots (d :: rest) k) with (pre ++ [0] ++ d :: slots rest k).
    rewrite (assoc_L (++)).
    assert (length (pre ++ [0]) = S (length pre)) as Hl by (rewrite length_app; simpl; lia).
    rewrite <- Hl at 1. rewrite lookup_middle. simpl_outcome.
    destruct (Z.eqb_spec d c); [set_solver|]. destruct (Z.eqb_spec d 0); [lia|]. cbn [negb].
    rewrite <- (assoc_L (++)). cbn [app]. rewrite insert_middle.
    change (pre ++ d :: d :: slots rest k) with (pre ++ [d] ++ d :: slots rest k).
    rewrite (assoc_L (++)).
    assert (length (pre ++ [d]) = S (length pre)) as Hl2 by (rewrite length_app; simpl; lia).
    rewrite <- Hl2 at 2. rewrite insert_middle.
    rewrite <- Hl2. rewrite IH by set_solver.
    rewrite (bool_decide_false (d :: rest = [])) by done. rewrite orb_true_r. cbn [negb orb].
    rewrite <- (assoc_L (++)). done.
Qed.

(** The whole loop: the client leaves, the order of the others is kept. *)
Lemma client_remove_spec rest pre k c o :
  client_ok c -> Forall client_ok rest -> NoDup rest ->
  client_remove (length rest + k) (length pre) (pre ++ slots rest k) c false o
  = Ok (if decide (c ∈ rest)
        then (pre ++ slots (filter (fun d => d <> c) rest) (S k), true,
              o || negb (bool_decide (filter (fun d => d <> c) rest = [])))
        else (pre ++ slots rest k, false, o || negb (bool_decide (rest = [])))).
Proof.
  intros Hc Hr. revert pre o. induction Hr as [|d rest Hd Hr IH]; intros pre o Hnd;
    cbn [length Nat.add].
  - rewrite client_remove_zeros; [by rewrite decide_False, orb_false_r by set_solver|unfold client_ok in Hc; lia|].
    intros i Hi. rewrite lookup_app_r by lia. apply lookup_replicate. lia.
  - apply NoDup_cons in Hnd as [Hnin Hnd]. cbn [client_remove]. unfold arr_get.
    change (slots (d :: rest) k) with (d :: slots rest k). rewrite lookup_middle. simpl_outcome.
    unfold client_ok in Hc, Hd. destruct (Z.eqb_spec d c) as [->|Hne].
    + rewrite insert_middle, client_remove_shift by done.
      rewrite decide_True by left.
      assert (filter (fun d => d <> c) (c :: rest) = rest) as ->; [|done].
      rewrite filter_cons_False by auto. apply list_filter_all.
      apply Forall_forall. intros x Hx ->. done.
    + destruct (Z.eqb_spec d 0); [lia|]. cbn [negb].
      change (pre ++ d :: slots rest k) with (pre ++ [d] ++ slots rest k). rewrite (assoc_L (++)).
      assert (length (pre ++ [d]) = S (length pre)) as <- by (rewrite length_app; simpl; lia).
      rewrite IH by done. rewrite filter_cons_True by done.
      destruct (decide (c ∈ rest)).
      * rewrite decide_True by (by right). rewrite <- (assoc_L (++)).
        by rewrite !orb_true_r.
      * rewrite decide_False by set_solver. rewrite <- (assoc_L (++)). by rewrite !orb_true_r.
Qed.

Lemma length_filter_ne (c : Z) l : c ∈ l -> NoDup l ->
  S (length (filter (fun d => d <> c) l)) = length l.
Proof.
  intros Hin Hnd. induction Hnd as [|d l Hd Hnd IH]; [set_solver|].
  destruct (decide (d = c)) as [->|Hne].
  - rewrite filter_cons_False by auto. cbn [length]. rewrite list_filter_all; [done|].
    apply Forall_forall. intros x Hx ->. done.
  - rewrite filter_cons_True by done. cbn [length]. f_equal. apply IH. set_solver.
Qed.

(** The client leaves the entry, which is marked for deletion when it was the
    last one; the answer tells whether it was registered. *)
Lemma deleteUpdateFromCache_spec e ids c t : clients_are e ids -> client_ok c ->
  exists e', _deleteUpdateFromCache c e t = Ok (e', bool_decide (c ∈ ids))
    /\ e' = set_clients e (clients e') (noPossibleClients e)
              (if decide (ids = [c]) then Some t else gcFlag e)
    /\ clients_are e' (filter (fun d => d <> c) ids).
Proof.
  intros [(k & Hcs & Hn) Hmax Hnd Hok] Hc.
  unfold _deleteUpdateFromCache, _deleteUpdateFromCache_clientMgmt.
  rewrite Hcs, <- Hn, Nat2Z.id. pose proof (client_remove_spec ids [] k c false Hc Hok Hnd) as Hr.
  cbn [length app orb] in Hr. rewrite Hr. simpl_outcome. clear Hr.
  assert (clients_are e ids) as Hca by (constructor; eauto).
  destruct (decide (c ∈ ids)) as [Hin|Hin].
  - pose proof (length_filter_ne c ids Hin Hnd) as Hlen. cbn [negb].
    assert (filter (fun d => d <> c) ids = [] <-> ids = [c]) as Hone.
    { split; intros E.
      - rewrite E in Hlen. destruct ids as [|d [|? ?]]; simpl in Hlen; try lia. set_solver.
      - rewrite E. rewrite filter_cons_False by auto. done. }
    rewrite (bool_decide_true (c ∈ ids)) by done.
    assert (clients_are (set_clients e (Some (slots (filter (fun d => d <> c) ids) (S k)))
              (noPossibleClients e) (if decide (ids = [c]) then Some t else gcFlag e))
              (filter (fun d => d <> c) ids)) as Hca'.
    { constructor; cbn [clients noPossibleClients set_clients]; [|done|by apply NoDup_filter|].
      - exists (S k). split; [done|]. lia.
      - apply Forall_forall. intros x [_ Hx]%list_elem_of_filter.
        by apply (proj1 (Forall_forall _ _) Hok). }
    destruct (decide (ids = [c])) as [E|E].
    + rewrite bool_decide_true by by apply Hone. rewrite Hn. cbn [negb Z.eqb]. simpl.
      eexists. split; [done|]. by split.
    + rewrite bool_decide_false by tauto. rewrite Hn. cbn [negb Z.eqb]. simpl.
      eexists. split; [done|]. by split.
  - rewrite (bool_decide_false (c ∈ ids)) by done. simpl. rewrite decide_False by (intros ->; apply Hin; left).
    eexists. split; [done|]. split; [by rewrite Hn|].
    assert (filter (fun d => d <> c) ids = ids) as ->.
    { apply list_filter_all. apply Forall_forall. intros x Hx ->. done. }
    constructor; cbn [clients noPossibleClients set_clients]; [|lia|done..]. by exists k.
Qed.

(** ** Client 0, and full arrays *)

Lemma client_remove_0_free k idx cs f o :
  (forall i, (idx <= i < idx + k)%nat -> cs !! i = Some 0) ->
  client_remove k idx cs 0 f o = Ok (cs, f || (0 <? k)%nat, o).
Proof.
  revert idx f. induction k as [|k IH]; intros idx f Hz; cbn [client_remove]; [by rewrite orb_false_r|].
  unfold arr_get. rewrite (Hz idx) by lia. simpl_outcome. cbn [Z.eqb].
  rewrite (list_insert_id cs idx 0) by (apply Hz; lia).
  rewrite IH by (intros i Hi; apply Hz; lia). by rewrite orb_true_r.
Qed.

Lemma client_remove_0 rest pre k o : Forall client_ok rest ->
  client_remove (length rest + k) (length pre) (pre ++ slots rest k) 0 false o
  = Ok (pre ++ slots rest k, (0 <? k)%nat, o || negb (bool_decide (rest = []))).
Proof.
  intros Hr. revert pre o. induction Hr as [|d rest Hd Hr IH]; intros pre o; cbn [length Nat.add].
  - rewrite client_remove_0_free; [by rewrite orb_false_r|].
    intros i Hi. rewrite lookup_app_r by lia. apply lookup_replicate. lia.
  - cbn [client_remove]. unfold arr_get.
    change (slots (d :: rest) k) with (d :: slots rest k). rewrite lookup_middle. simpl_outcome.
    unfold client_ok in Hd. destruct (Z.eqb_spec d 0); [lia|]. cbn [negb].
    change (pre ++ d :: slots rest k) with (pre ++ [d] ++ slots rest k). rewrite (assoc_L (++)).
    assert (length (pre ++ [d]) = S (length pre)) as <- by (rewrite length_app; simpl; lia).
    rewrite IH. by rewrite !orb_true_r.
Qed.

(** A client that finds the array full: the array grows. *)
Lemma addClientReference_full {H} (self : UpdateCache H) e ids c cm :
  clients_are e ids -> Z.of_nat (length ids) = noPossibleClients e ->
  client_ok c -> c ∉ ids -> 0 < minNumberOfClients self ->
  let newSize := noPossibleClients e + minNumberOfClients self in
  _addClientReference self e c cm
  = Ok (set_clients e (Some (ids ++ c :: replicate (Z.to_nat (minNumberOfClients self) - 1) 0))
          (u8 newSize) (gcFlag e), cm, true).
Proof.
  intros [(k & Hcs & Hn) Hmax Hnd Hok] Hfull Hc Hin Hmin newSize. unfold _addClientReference.
  assert (k = 0%nat) as -> by lia. rewrite Hcs, <- Hn, Nat2Z.id, client_slot_spec by done.
  rewrite decide_False by done. simpl_outcome. subst newSize. rewrite <- Hn, Nat.add_0_r.
  set (n := length ids). set (q := Z.to_nat (minNumberOfClients self)).
  assert (Z.to_nat (Z.of_nat n + minNumberOfClients self) = S (n + (q - 1)))%nat as -> by lia.
  cbn [realloc]. rewrite decide_True by lia.
  assert (<[n := c]> (take n (take (S (n + (q - 1))) (slots ids 0) ++ replicate (S (n + (q - 1)) - length (slots ids 0)) 0)
            ++ replicate (S (n + (q - 1)) - n) 0) = ids ++ c :: replicate (q - 1) 0) as ->; [|done].
  unfold slots. cbn [replicate]. rewrite app_nil_r, (take_ge ids) by lia.
  rewrite take_app_le, (take_ge ids) by lia.
  replace (S (n + (q - 1)) - n)%nat with (S (q - 1)) by lia. cbn [replicate]. apply insert_middle.
Qed.

End UpdateCacheLemmas.
