(* ===== verification/UpdateCacheTheorems.v ===== *)
(** * Update cache: the abstract cache and its theorems

    A well-formed cache is a partial map from update identifiers to entries;
    every operation is characterised by what it does to that map. *)
From S2P Require Import Prelude Locks SrxDefs UtHash UpdateCache UpdateCacheLemmas.

Module UpdateCacheTheorems.
Import UpdateCache UpdateCacheLemmas.

(** The clients registered for an entry. *)
Definition client_list (e : CacheEntry) : list Z := filter (fun c => c <> 0) (default [] (clients e)).

Definition entry_ok (e : CacheEntry) : Prop := clients_are e (client_list e) /\ is_Some (pathData e).

Lemma clients_are_list e ids : clients_are e ids -> client_list e = ids.
Proof.
  intros [(k & Hc & _) _ _ Hok]. unfold client_list, slots in *. rewrite Hc. simpl.
  rewrite filter_app. rewrite (list_filter_all _ ids).
  - assert (filter (fun c => c <> 0) (replicate k 0) = []) as ->; [|by rewrite app_nil_r].
    clear. induction k as [|k IH]; [done|]. cbn [replicate]. by rewrite filter_cons_False by auto.
  - eapply Forall_impl; [exact Hok|]. unfold client_ok. lia.
Qed.

Lemma entry_ok_intro e ids : clients_are e ids -> is_Some (pathData e) -> entry_ok e.
Proof. intros Hc Hp. split; [|done]. by rewrite (clients_are_list _ _ Hc). Qed.

Lemma set_clients_ok e ids cs n g :
  clients_are (set_clients e cs n g) ids -> is_Some (pathData e) ->
  entry_ok (set_clients e cs n g) /\ client_list (set_clients e cs n g) = ids.
Proof. intros Hc Hp. split; [by eapply entry_ok_intro|by apply clients_are_list]. Qed.

Lemma set_srxResult_ok e r : entry_ok e -> entry_ok (set_srxResult e r).
Proof. intros [[H1 H2 H3 H4] Hp]. split; [|done]. by constructor. Qed.

Definition all_unlocked : list Z := replicate 256 0.

Section theorems.
Context {H K : Type} `{UTHashLaws H} `{SkiUpdates K}.
Implicit Types (self : UpdateCache H) (sCache : K).

(** Between operations. *)
Record uc_wf self : Prop := mk_uc_wf {
  uw_table : kt_wf updateID entry_ok (table self) (entries self);
  uw_items : (ut_items (table self)).*2 = allItems self;
  uw_lock : tableLock self = RW_free;
  uw_mutex : itemMutex self = MX_free;
  uw_used : itemsUsed self = NUM_PREALLOC;
  uw_min : 0 < minNumberOfClients self < 256;
  uw_locked : lockedClients self = all_unlocked
}.

Definition uc_get self (id : Z) : option CacheEntry := kt_get (table self) (entries self) id.

Lemma createUpdateCache_wf cb n keep : 0 < n < 256 -> uc_wf (createUpdateCache cb n keep).
Proof.
  intros Hn. split; try done; cbn [table allItems createUpdateCache]; [|by rewrite ut_items_empty].
  split; rewrite ut_items_empty; [apply NoDup_nil_2|]. intros k p Hin. by apply elem_of_nil in Hin.
Qed.

Lemma tableFind_eq self id : uc_wf self -> tableFind self id = Ok (self, ut_find id (table self)).
Proof. intros Hw. destruct self. pose proof (uw_lock _ Hw). simpl in *. by subst. Qed.

(** What [tableFind] finds. *)
Lemma uc_find self id : uc_wf self ->
  match ut_find id (table self) with
  | Some p => (id, p) ∈ ut_items (table self)
              /\ exists e, entries self !! p = Some e /\ uc_get self id = Some e
                    /\ updateID e = id /\ entry_ok e
  | None => uc_get self id = None
  end.
Proof.
  intros Hw. pose proof (kt_find updateID entry_ok _ _ id (uw_table _ Hw)) as Hf.
  destruct (ut_find id (table self)); [exact Hf|by destruct Hf].
Qed.

(** Replacing the entry of an update in place. *)
Lemma uc_set self id p e :
  uc_wf self -> (id, p) ∈ ut_items (table self) -> updateID e = id -> entry_ok e ->
  uc_wf (set_entries self (<[p := e]> (entries self)))
  /\ forall k, uc_get (set_entries self (<[p := e]> (entries self))) k
              = if decide (k = id) then Some e else uc_get self k.
Proof.
  intros Hw Hin Hk He.
  destruct (kt_set updateID entry_ok _ _ id p e (uw_table _ Hw) Hin Hk He) as [Hw' Hg].
  split; [|exact Hg]. destruct Hw. by constructor.
Qed.

Lemma set_itemMutex_id self : uc_wf self -> set_itemMutex self MX_free = self.
Proof. intros Hw. destruct self. pose proof (uw_mutex _ Hw). simpl in *. by subst. Qed.

Lemma set_itemMutex_entries self es : uc_wf self ->
  set_itemMutex (set_entries self es) MX_free = set_entries self es.
Proof. intros Hw. destruct self. pose proof (uw_mutex _ Hw). simpl in *. by subst. Qed.

(** ** Queries *)

(** Without a client a query is a lookup. *)
Lemma getUpdateResult_lookup self id cm want : uc_wf self ->
  getUpdateResult self id 0 cm want
  = Ok (self, cm, match uc_get self id with
                  | Some e => mkQuery true (srxResult e) (defaultResult e)
                                (if want then Some (aspathCacheID e) else None)
                  | None => mkQuery false undefined_result donotuse_default None
                  end).
Proof.
  intros Hw. unfold getUpdateResult. rewrite tableFind_eq by done. simpl_outcome.
  pose proof (uc_find self id Hw) as Hf. destruct (ut_find id (table self)) as [p|]; [|by rewrite Hf].
  destruct Hf as (_ & e & He & -> & _). unfold deref. by rewrite He.
Qed.

Lemma getUpdateData_lookup self id : uc_wf self ->
  getUpdateData self id = Ok (self, match uc_get self id with Some e => pathData e | None => None end).
Proof.
  intros Hw. unfold getUpdateData. rewrite tableFind_eq by done. simpl_outcome.
  pose proof (uc_find self id Hw) as Hf. destruct (ut_find id (table self)) as [p|]; [|by rewrite Hf].
  destruct Hf as (_ & e & He & -> & _ & _ & [d Hd]). unfold deref. rewrite He. simpl_outcome.
  by rewrite Hd.
Qed.

(** A query reports the stored results, the stored default results and, if
    asked for, the path identifier; without a client the cache is unchanged.
    With a client that fits into the entry, the client is registered for the
    update and nothing else changes.  An unknown update is reported with the
    results "undefined" and the defaults "do not use". *)
Theorem getUpdateResult_correct self id c m want :
  uc_wf self -> c = 0 \/ client_ok c ->
  match uc_get self id with
  | None => getUpdateResult self id c (Some m) want
            = Ok (self, Some m, mkQuery false undefined_result donotuse_default None)
  | Some e =>
      noPossibleClients e + minNumberOfClients self < 256 ->
      exists self' m', getUpdateResult self id c (Some m) want
        = Ok (self', Some m', mkQuery true (srxResult e) (defaultResult e)
                                (if want then Some (aspathCacheID e) else None))
      /\ (c = 0 -> self' = self /\ m' = m)
      /\ (c <> 0 -> uc_wf self' /\ exists e',
            client_list e' = (if decide (c ∈ client_list e) then client_list e
                              else client_list e ++ [c])
            /\ srxResult e' = srxResult e /\ defaultResult e' = defaultResult e
            /\ forall k, uc_get self' k = if decide (k = id) then Some e' else uc_get self k)
  end.
Proof.
  intros Hw Hc. unfold getUpdateResult. rewrite tableFind_eq by done. simpl_outcome.
  pose proof (uc_find self id Hw) as Hf. destruct (ut_find id (table self)) as [p|].
  2: by rewrite Hf.
  destruct Hf as (Hin & e & He & -> & Hid & Hcl & Hp). intros Hcap.
  unfold deref. rewrite He. simpl_outcome. destruct Hc as [->|Hc].
  - exists self, m. by split.
  - rewrite (proj2 (Z.ltb_lt 0 c)) by apply Hc.
    destruct (addClientReference_spec self e (client_list e) c m Hcl Hc (proj1 (uw_min _ Hw)) Hcap)
      as (e' & -> & He' & Hcl'). simpl_outcome.
    rewrite He' in Hcl'. apply set_clients_ok in Hcl' as [Hok Hl]; [|done].
    rewrite <- He' in Hok, Hl.
    destruct (uc_set self id p e' Hw Hin) as [Hw' Hg]; [by rewrite He'|done|].
    eexists _, _. split; [done|]. split; [unfold client_ok in Hc; lia|]. intros _.
    split; [exact Hw'|]. exists e'. split; [done|]. split; [by rewrite He'|]. split; [by rewrite He'|exact Hg].
Qed.

(** ** Modifying results *)

(** The results after a modification: "do not use" keeps the old value. *)
Definition merge_result (old new : SRxResult) : SRxResult :=
  let pick o n := if n =? SRx_RESULT_DONOTUSE then o else n in
  mkSRxResult (pick (roaResult old) (roaResult new)) (pick (bgpsecResult old) (bgpsecResult new))
    (pick (aspaResult old) (aspaResult new)).

(** What is announced: origin and path results that changed, and every ASPA
    result that was handed over. *)
Definition changed_types (old new : SRxResult) : Z :=
  let m := merge_result old new in
  Z.lor (Z.lor (if roaResult m =? roaResult old then VRT_NONE else VRT_ROA)
               (if bgpsecResult m =? bgpsecResult old then VRT_NONE else VRT_BGPSEC))
        (if aspaResult new =? SRx_RESULT_DONOTUSE then VRT_NONE else VRT_ASPA).

(** What [modifyUpdateResult] does to a stored update. *)
Lemma modifyUpdateResult_eq self id res suppress :
  uc_wf self ->
  match uc_get self id with
  | None => modifyUpdateResult self id res suppress = Ok (self, false, [])
  | Some e =>
      let new := merge_result (srxResult e) res in
      let notify := negb suppress && negb (changed_types (srxResult e) res =? VRT_NONE) in
      exists self', modifyUpdateResult self id res suppress
        = Ok (self', negb notify || hasCallback self,
              if notify && hasCallback self
              then [mkSRxValidationResult (changed_types (srxResult e) res) new id] else [])
      /\ uc_wf self'
      /\ forall k, uc_get self' k = if decide (k = id) then Some (set_srxResult e new) else uc_get self k
  end.
Proof.
  intros Hw. unfold modifyUpdateResult. rewrite tableFind_eq by done. simpl_outcome.
  pose proof (uc_find self id Hw) as Hf. destruct (ut_find id (table self)) as [p|].
  2: by rewrite Hf.
  destruct Hf as (Hin & e & He & -> & Hid & Hok). cbn zeta.
  rewrite (uw_mutex _ Hw). cbn [lockMutex]. simpl_outcome.
  unfold deref. rewrite He. simpl_outcome. cbn [unlockMutex]. simpl_outcome.
  rewrite set_itemMutex_entries by done.
  set (new := mkSRxResult _ _ _).
  assert (new = merge_result (srxResult e) res) as Hnew.
  { subst new. unfold merge_result. f_equal; eqb_cases; congruence. }
  set (type := Z.lor _ _).
  assert (type = changed_types (srxResult e) res) as ->.
  { subst type. unfold changed_types, merge_result. cbn [roaResult bgpsecResult].
    f_equal; [f_equal|]; eqb_cases; congruence. }
  rewrite Hnew.
  destruct (uc_set self id p (set_srxResult e (merge_result (srxResult e) res)) Hw Hin)
    as [Hw' Hg]; [done|by apply set_srxResult_ok|].
  eexists. split; [|by split]. do 3 f_equal.
  cbn [hasCallback set_entries]. by destruct (negb suppress && _), (hasCallback self).
Qed.

(** Modifying the results of a stored update merges them into the entry, one
    value at a time, leaves every other update alone and, unless notifications
    are suppressed, announces the merged results exactly once when there is
    something to announce; with no callback the announcement fails.  An unknown
    update is refused. *)
Theorem modifyUpdateResult_correct self id res suppress :
  uc_wf self ->
  match uc_get self id with
  | None => modifyUpdateResult self id res suppress = Ok (self, false, [])
  | Some e =>
      let new := merge_result (srxResult e) res in
      let notify := negb suppress && negb (changed_types (srxResult e) res =? VRT_NONE) in
      exists self', modifyUpdateResult self id res suppress
        = Ok (self', negb notify || hasCallback self,
              if notify && hasCallback self
              then [mkSRxValidationResult (changed_types (srxResult e) res) new id] else [])
      /\ uc_wf self'
      /\ forall k, uc_get self' k = if decide (k = id) then Some (set_srxResult e new) else uc_get self k
  end.
Proof. apply modifyUpdateResult_eq. Qed.

(** The change made by the ASPA validation: it is never announced, and the
    answer tells whether the value changed. *)
Lemma modifyUpdateCacheResultWithAspaVal_eq self id res :
  uc_wf self ->
  match uc_get self id with
  | None => modifyUpdateCacheResultWithAspaVal self id res = Ok (self, false)
  | Some e =>
      let r := srxResult e in
      let changed := negb (aspaResult res =? SRx_RESULT_DONOTUSE)
                     && negb (aspaResult res =? aspaResult r) in
      exists self', modifyUpdateCacheResultWithAspaVal self id res = Ok (self', changed)
      /\ uc_wf self' /\ table self' = table self /\ hasCallback self' = hasCallback self
      /\ forall k, uc_get self' k
           = if decide (k = id /\ changed = true)
             then Some (set_srxResult e (mkSRxResult (roaResult r) (bgpsecResult r) (aspaResult res)))
             else uc_get self k
  end.
Proof.
  intros Hw. unfold modifyUpdateCacheResultWithAspaVal. rewrite tableFind_eq by done. simpl_outcome.
  pose proof (uc_find self id Hw) as Hf. destruct (ut_find id (table self)) as [p|].
  2: by rewrite Hf.
  destruct Hf as (Hin & e & He & -> & Hid & Hok). cbn zeta.
  rewrite (uw_mutex _ Hw). cbn [lockMutex]. simpl_outcome.
  unfold deref. rewrite He. simpl_outcome. cbn [unlockMutex]. simpl_outcome.
  destruct (negb _ && negb _) eqn:Hch.
  - rewrite set_itemMutex_entries by done.
    destruct (uc_set self id p (set_srxResult e (mkSRxResult (roaResult (srxResult e))
      (bgpsecResult (srxResult e)) (aspaResult res))) Hw Hin) as [Hw' Hg];
      [done|by apply set_srxResult_ok|].
    eexists. split; [done|]. split; [exact Hw'|]. do 2 (split; [done|]). intros k. rewrite Hg.
    by repeat case_decide; naive_solver.
  - rewrite set_itemMutex_id by done. exists self. split; [done|]. do 3 (split; [done|]).
    intros k. by rewrite decide_False by (intros [_ ?]; congruence).
Qed.

(** ** Storing updates *)

(** BGP data whose areas are as long as the record says. *)
Record bgp_ok (b : BGPSecData) : Prop := mk_bgp_ok {
  bo_path : 0 < numberHops b -> exists l, asPath b = Some l /\ numberHops b <= Z.of_nat (length l);
  bo_attr : 0 <= attr_length b;
  bo_sec : 0 < attr_length b ->
           exists l, bgpsec_path_attr b = Some l /\ attr_length b <= Z.of_nat (length l)
}.

(** The path data an entry gets: copies of the AS path and of the attribute,
    and the prefix in the form the crypto API expects. *)
Definition sca_prefix (b : BGPSecData) (p : IPPrefix) : SCA_Prefix :=
  let size := if version (ip p) =? 4 then 4%nat else 16%nat in
  mkSCA_Prefix (bgp_afi b) (bgp_safi b) (length_bits p)
    (take size (addr_u8 (ip p)) ++ replicate (16 - size) 0).
Definition path_data (b : BGPSecData) (pfx : option IPPrefix) : UC_UpdateData :=
  mkUC_UpdateData
    (if 0 <? numberHops b then numberHops b else 0)
    (if 0 <? numberHops b then take (Z.to_nat (numberHops b)) <$> asPath b else None)
    (local_as b)
    (match pfx with Some p => sca_prefix b p | None => zero_SCA_Prefix end)
    (attr_length b)
    (if attr_length b =? 0 then None
     else take (Z.to_nat (attr_length b)) <$> bgpsec_path_attr b).

Lemma copy_from_ok n o l : o = Some l -> n <= Z.of_nat (length l) ->
  copy_from (Z.to_nat n) o = Ok (take (Z.to_nat n) l).
Proof. intros -> Hn. unfold copy_from. by rewrite decide_True by lia. Qed.

Lemma storeCacheEntryBlob_eq b pfx : bgp_ok b ->
  storeCacheEntryBlob zero_UC_UpdateData b pfx = Ok (path_data b pfx, true).
Proof.
  intros [Hp Ha Hs]. unfold storeCacheEntryBlob, path_data.
  cbn [asn_path bgpsec_path zero_UC_UpdateData hops data_length].
  destruct (Z.ltb_spec 0 (numberHops b)) as [Hlt|Hlt].
  - destruct (Hp Hlt) as (l & El & Hl). rewrite (copy_from_ok _ _ _ El Hl), El. simpl_outcome.
    destruct (Z.eqb_spec (attr_length b) 0) as [E|E]; cbn [negb]; simpl_outcome; [by rewrite E|].
    destruct (Hs ltac:(lia)) as (l2 & El2 & Hl2). rewrite (copy_from_ok _ _ _ El2 Hl2), El2. done.
  - simpl_outcome.
    destruct (Z.eqb_spec (attr_length b) 0) as [E|E]; cbn [negb]; simpl_outcome; [by rewrite E|].
    destruct (Hs ltac:(lia)) as (l2 & El2 & Hl2). rewrite (copy_from_ok _ _ _ El2 Hl2), El2. done.
Qed.

(** The entry of a new update of the client [c] (0: no client). *)
Definition new_entry self (now c id as_ pathId : Z) (pfx : option IPPrefix)
    (d : option SRxDefaultResult) (b : BGPSecData) : CacheEntry :=
  let n := minNumberOfClients self in
  mkCacheEntry (Some (if c =? 0 then replicate (Z.to_nat n) 0
                      else c :: replicate (Z.to_nat n - 1) 0))
    n id as_ pfx undefined_result (default unknown_default d) None
    (Some (if c =? 0 then getGCTime now (u16 (defaultKeepWindow self)) else 0))
    (Some (path_data b pfx)) pathId.

Lemma new_entry_ok self now c id as_ pathId pfx d b :
  uc_wf self -> c = 0 \/ client_ok c -> entry_ok (new_entry self now c id as_ pathId pfx d b).
Proof.
  intros Hw Hc. pose proof (uw_min _ Hw) as Hm. unfold new_entry.
  destruct (Z.eqb_spec c 0) as [->|Hne].
  - apply (entry_ok_intro _ []); [|done]. constructor; cbn [clients noPossibleClients]; [|lia|..].
    + exists (Z.to_nat (minNumberOfClients self)). split; [done|]. simpl. lia.
    + apply NoDup_nil_2.
    + constructor.
  - destruct Hc as [?|Hc]; [done|].
    apply (entry_ok_intro _ [c]); [|done]. constructor; cbn [clients noPossibleClients]; [|lia|..].
    + exists (Z.to_nat (minNumberOfClients self) - 1)%nat. split; [done|]. simpl. lia.
    + apply NoDup_singleton.
    + by constructor.
Qed.

(** The first client of a new entry takes the first slot. *)
Lemma addClientReference_new self e c m n :
  clients e = Some (replicate n 0) -> noPossibleClients e = Z.of_nat n -> (0 < n)%nat ->
  _addClientReference self e c (Some m)
  = Ok (set_clients e (Some (c :: replicate (n - 1) 0)) (noPossibleClients e) (Some 0),
        Some (u32 (m + 1)), true).
Proof.
  intros Hc Hn Hpos. unfold _addClientReference. rewrite Hc, Hn, Nat2Z.id.
  destruct n as [|n]; [lia|]. cbn [replicate client_slot Z.eqb]. simpl_outcome.
  by replace (S n - 1)%nat with n by lia.
Qed.

Lemma storeUpdate_eq self sCache sCache' r now c m id pfx as_ d b pathId :
  uc_wf self -> c = 0 \/ client_ok c -> bgp_ok b ->
  ski_registerUpdate sCache id (bgpsec_path_attr b) = Ok (sCache', r) ->
  match uc_get self id with
  | Some _ => storeUpdate self sCache now true c (Some m) id pfx as_ d (Some b) pathId
              = Ok (self, sCache, Some m, 0)
  | None =>
      exists self', storeUpdate self sCache now true c (Some m) id pfx as_ d (Some b) pathId
        = Ok (self', sCache', Some (if c =? 0 then m else u32 (m + 1)), 1)
      /\ uc_wf self'
      /\ forall k, uc_get self' k = if decide (k = id)
                                   then Some (new_entry self now c id as_ pathId pfx d b)
                                   else uc_get self k
  end.
Proof.
  intros Hw Hc Hb Hski. unfold storeUpdate. rewrite tableFind_eq by done. simpl_outcome.
  pose proof (uc_find self id Hw) as Hf. destruct (ut_find id (table self)) as [p|].
  { by destruct Hf as (_ & e & _ & -> & _). }
  rewrite Hf. rewrite (uw_mutex _ Hw). cbn [lockMutex]. simpl_outcome.
  cbn [itemsUsed set_itemMutex]. rewrite (uw_used _ Hw). cbn [Z.eqb NUM_PREALLOC Pos.eqb andb negb].
  cbn [availItems set_items itemsUsed allItems set_itemMutex entries].
  set (p := fresh (dom (entries self))).
  rewrite storeCacheEntryBlob_eq by done. simpl_outcome. rewrite Hski. simpl_outcome.
  cbn [minNumberOfClients set_items set_itemMutex entries defaultKeepWindow].
  set (e0 := mkCacheEntry _ _ _ _ _ _ _ _ _ _ _).
  set (e := new_entry self now c id as_ pathId pfx d b).
  assert (forall s2 : UpdateCache H,
    (if 0 <? c then
       '(cEntry, clientMapping, added) ← _addClientReference s2 e0 c (Some m);
       Ok (cEntry, clientMapping, if (added : bool) then 1 else -1)
     else Ok (setGCFlag e0 (getGCTime now (u16 (defaultKeepWindow self))), Some m, 1))
    = Ok (e, Some (if c =? 0 then m else u32 (m + 1)), 1)) as Hadd.
  { intros s2. pose proof (uw_min _ Hw) as Hm. subst e e0. unfold new_entry.
    destruct Hc as [->|Hc]; [cbn [Z.ltb Z.compare Z.eqb]; by destruct d|].
    unfold client_ok in Hc. rewrite (proj2 (Z.ltb_lt 0 c)) by lia.
    rewrite (proj2 (Z.eqb_neq c 0)) by lia.
    rewrite (addClientReference_new _ _ _ _ (Z.to_nat (minNumberOfClients self)))
      by (cbn [clients noPossibleClients]; done || lia).
    simpl_outcome. by destruct d. }
  rewrite Hadd. simpl_outcome. clear Hadd e0.
  destruct (kt_add updateID entry_ok (table self) (entries self) p e) as [Hw' Hg];
    [apply Hw|exact Hf|by apply new_entry_ok|apply not_elem_of_dom, is_fresh|].
  unfold tableAdd. cbn [tableLock set_entries set_items set_itemMutex entries table].
  rewrite (uw_lock _ Hw). cbn [acquireWriteLock]. simpl_outcome.
  unfold deref. rewrite lookup_insert_eq. simpl_outcome.
  cbn [unlockWriteLock unlockRWLock]. simpl_outcome.
  cbn [itemMutex set_entries set_items set_itemMutex set_table unlockMutex]. simpl_outcome.
  eexists. split; [done|]. split; [|exact Hg].
  constructor; cbn [table entries allItems tableLock itemMutex itemsUsed minNumberOfClients
    lockedClients set_itemMutex set_table set_entries set_items]; [exact Hw'| |done|done|done|apply Hw..].
  rewrite ut_items_add, fmap_app, (uw_items _ Hw). done.
Qed.

(** Storing an update: one that is already known is refused with 0 and nothing
    changes.  A new one is registered with the SKI cache, gets a cleared entry
    with the default results and a copy of the BGP data, and is registered for
    the client, whose update count grows; without a client it is marked for
    garbage collection.  All other updates are unaffected. *)
Theorem storeUpdate_correct self sCache sCache' r now c m id pfx as_ d b pathId :
  uc_wf self -> c = 0 \/ client_ok c -> bgp_ok b ->
  ski_registerUpdate sCache id (bgpsec_path_attr b) = Ok (sCache', r) ->
  match uc_get self id with
  | Some _ => storeUpdate self sCache now true c (Some m) id pfx as_ d (Some b) pathId
              = Ok (self, sCache, Some m, 0)
  | None =>
      exists self', storeUpdate self sCache now true c (Some m) id pfx as_ d (Some b) pathId
        = Ok (self', sCache', Some (if c =? 0 then m else u32 (m + 1)), 1)
      /\ uc_wf self'
      /\ forall k, uc_get self' k = if decide (k = id)
                                   then Some (new_entry self now c id as_ pathId pfx d b)
                                   else uc_get self k
  end.
Proof. apply storeUpdate_eq. Qed.

(** The error paths of storing a new update: without BGP data the code frees
    pointers it never set, and when the list node cannot be allocated it returns
    with the item mutex still locked, so that the next attempt to store any new
    update blocks for ever. *)
Theorem storeUpdate_error_paths self sCache now c cm id pfx as_ d pathId id2 mem2 b :
  uc_wf self -> uc_get self id = None -> uc_get self id2 = None ->
  storeUpdate self sCache now true c cm id pfx as_ d None pathId = Fault UninitRead
  /\ exists self', storeUpdate self sCache now false c cm id pfx as_ d b pathId
                   = Ok (self', sCache, cm, -1)
     /\ itemMutex self' = MX_locked
     /\ storeUpdate self' sCache now mem2 c cm id2 pfx as_ d b pathId = Fault Deadlock.
Proof.
  intros Hw Hid Hid2. pose proof (uc_find self id Hw) as Hf. pose proof (uc_find self id2 Hw) as Hf2.
  destruct (ut_find id (table self)) as [p|] eqn:E.
  { destruct Hf as (_ & e & _ & He & _). congruence. }
  destruct (ut_find id2 (table self)) as [p|] eqn:E2.
  { destruct Hf2 as (_ & e & _ & He & _). congruence. }
  unfold storeUpdate at 1 2. rewrite tableFind_eq, E by done. simpl_outcome.
  rewrite (uw_mutex _ Hw). cbn [lockMutex]. simpl_outcome.
  cbn [itemsUsed set_itemMutex]. rewrite (uw_used _ Hw). split; [done|].
  eexists. split; [done|]. split; [done|].
  unfold storeUpdate, tableFind. cbn [tableLock set_itemMutex table].
  rewrite (uw_lock _ Hw), E2. done.
Qed.

(** ** Removing clients *)

(** Deleting an update for a client only removes that client from the entry:
    the answer tells whether it was registered, the entry is marked for the
    garbage collector when its last client left, and an update with a BGPsec
    attribute is unregistered from the SKI cache, even when other clients are
    still registered for it.  No other update changes. *)
Theorem deleteUpdateFromCache_correct self sCache sCache' r now c id keep :
  uc_wf self -> client_ok c ->
  (forall attr, ski_unregisterUpdate sCache id (Some attr) = Ok (sCache', r)) ->
  match uc_get self id with
  | None => deleteUpdateFromCache self sCache now c id keep = Ok (self, sCache, false)
  | Some e =>
      exists self' e' d, pathData e = Some d
      /\ deleteUpdateFromCache self sCache now c id keep
        = Ok (self', if bool_decide (c ∈ client_list e /\ bgpsec_path d <> None) then sCache' else sCache,
              bool_decide (c ∈ client_list e))
      /\ uc_wf self'
      /\ client_list e' = filter (fun x => x <> c) (client_list e)
      /\ srxResult e' = srxResult e
      /\ gcFlag e' = (if decide (client_list e = [c])
                      then Some (getGCTime now (if keep <? defaultKeepWindow self
                                                then u16 (defaultKeepWindow self) else keep))
                      else gcFlag e)
      /\ forall k, uc_get self' k = if decide (k = id) then Some e' else uc_get self k
  end.
Proof.
  intros Hw Hc Hski. unfold deleteUpdateFromCache. rewrite tableFind_eq by done. simpl_outcome.
  pose proof (uc_find self id Hw) as Hf. destruct (ut_find id (table self)) as [p|].
  2: by rewrite Hf.
  destruct Hf as (Hin & e & He & -> & Hid & Hcl & [d Hd]).
  unfold deref. rewrite He. simpl_outcome.
  set (t := getGCTime _ _).
  destruct (deleteUpdateFromCache_spec e (client_list e) c t Hcl Hc) as (e' & -> & He' & Hcl').
  simpl_outcome. rewrite He' in Hcl'. apply set_clients_ok in Hcl' as [Hok Hl]; [|by eexists].
  rewrite <- He' in Hok, Hl.
  destruct (uc_set self id p e' Hw Hin) as [Hw' Hg]; [by rewrite He'|done|].
  exists (set_entries self (<[p := e']> (entries self))), e', d.
  split; [done|]. split.
  - destruct (bool_decide_reflect (c ∈ client_list e)) as [Hi|Hi].
    + assert (pathData e' = Some d) as -> by by rewrite He'.
      destruct (bgpsec_path d) as [attr|].
      * rewrite Hski. simpl_outcome. by rewrite bool_decide_true.
      * by rewrite bool_decide_false by (by intros [_ ?]).
    + by rewrite bool_decide_false by (by intros [? _]).
  - split; [exact Hw'|]. split; [exact Hl|]. split; [by rewrite He'|]. split; [by rewrite He'|exact Hg].
Qed.

(** The entries after a client left all of them. *)
Definition left_by (c t : Z) (e e' : CacheEntry) : Prop :=
  e' = set_clients e (clients e') (noPossibleClients e')
         (if decide (client_list e = [c]) then Some t else gcFlag e)
  /\ clients_are e' (filter (fun x => x <> c) (client_list e)).

(** How many of the listed entries a client is registered for. *)
Definition refs (es : gmap positive CacheEntry) (c : Z) (items : list positive) : nat :=
  length (filter (fun p => c ∈ from_option client_list [] (es !! p)) items).

Lemma refs_cons es c p items :
  refs es c (p :: items)
  = ((if decide (c ∈ from_option client_list [] (es !! p)) then 1 else 0) + refs es c items)%nat.
Proof. unfold refs. rewrite filter_cons. by case_decide. Qed.

Lemma refs_insert es c p e items : p ∉ items -> refs (<[p := e]> es) c items = refs es c items.
Proof.
  intros Hp. induction items as [|q items IH]; [done|]. rewrite !refs_cons.
  rewrite lookup_insert_ne by set_solver. by rewrite IH by set_solver.
Qed.

Lemma left_by_absent c t e : clients_are e (client_list e) -> c ∉ client_list e -> left_by c t e e.
Proof.
  intros Hc Hn. unfold left_by. rewrite decide_False by (intros E; rewrite E in Hn; apply Hn; left).
  rewrite list_filter_all by (apply Forall_forall; intros x Hx ->; done).
  split; [by destruct e|done].
Qed.

(** The client left the listed entries and nothing else changed. *)
Definition unregistered (c t : Z) (items : list positive) (es es' : gmap positive CacheEntry) : Prop :=
  (forall p e, p ∈ items -> es !! p = Some e -> exists e', es' !! p = Some e' /\ left_by c t e e')
  /\ (forall p, p ∉ items -> es' !! p = es !! p).

Definition entries_live (es : gmap positive CacheEntry) (items : list positive) : Prop :=
  forall p, p ∈ items -> exists e, es !! p = Some e /\ clients_are e (client_list e).

Lemma unregistered_absent c t items es :
  entries_live es items -> refs es c items = 0%nat -> unregistered c t items es es.
Proof.
  intros He Hr. split; [|done]. intros p e Hp Hep. exists e. split; [done|].
  destruct (He p Hp) as (e2 & Hep2 & Hcl). simplify_eq. apply left_by_absent; [done|]. intros Hc.
  apply nil_length_inv in Hr. cut (p ∈ @nil positive); [set_solver|]. rewrite <- Hr.
  apply list_elem_of_filter. by rewrite Hep.
Qed.

Lemma unregistered_cons c t p items es es' e e' :
  p ∉ items -> es !! p = Some e -> left_by c t e e' ->
  unregistered c t items (<[p := e']> es) es' -> unregistered c t (p :: items) es es'.
Proof.
  intros Hp Hep Hl [Hin Hout]. split.
  - intros q eq Hq Heq. destruct (decide (q = p)) as [->|Hne].
    + exists e'. rewrite Hout, lookup_insert_eq by done. split; [done|]. by simplify_eq.
    + apply Hin; [set_solver|]. by rewrite lookup_insert_ne by done.
  - intros q Hq. rewrite Hout by set_solver. apply lookup_insert_ne. set_solver.
Qed.

(** The loop visits entries until the count is used up; if the count is the
    number of references, that is every entry with a reference. *)
Lemma unregister_loop_spec c t items es k :
  client_ok c -> NoDup items -> entries_live es items -> Z.of_nat (refs es c items) < 2 ^ 32 ->
  exists es', unregister_loop items es c t k (Z.of_nat (refs es c items))
              = Ok (es', k + Z.of_nat (refs es c items), 0)
    /\ unregistered c (u16 t) items es es'.
Proof.
  intros Hc. revert es k. induction items as [|p items IH]; intros es k Hnd He Hlen.
  { exists es. change (refs es c []) with 0%nat. rewrite Z.add_0_r.
    split; [done|]. by apply unregistered_absent. }
  apply NoDup_cons in Hnd as [Hp Hnd]. destruct (He p) as (e & Hep & Hcl); [by left|].
  rewrite refs_cons, Hep in *. cbn [from_option] in *. cbn [unregister_loop].
  unfold deref. rewrite Hep. simpl_outcome.
  destruct (deleteUpdateFromCache_spec e (client_list e) c (u16 t) Hcl Hc) as (e' & -> & He' & Hcl').
  simpl_outcome.
  assert (left_by c (u16 t) e e') as Hleft.
  { split; [|done]. rewrite He'. cbn [clients noPossibleClients set_clients]. by rewrite He' at 1. }
  assert (refs (<[p := e']> es) c items = refs es c items) as Hrefs by by apply refs_insert.
  assert (entries_live (<[p := e']> es) items) as He2.
  { intros q Hq. rewrite lookup_insert_ne by set_solver. apply He. by right. }
  set (n := refs es c items) in *.
  assert (forall k2, exists es',
    (if Z.of_nat n =? 0 then Ok (<[p := e']> es, k2, Z.of_nat n)
     else unregister_loop items (<[p := e']> es) c t k2 (Z.of_nat n)) = Ok (es', k2 + Z.of_nat n, 0)
    /\ unregistered c (u16 t) (p :: items) es es') as Hstep.
  { intros k2. destruct (Z.eqb_spec (Z.of_nat n) 0) as [E|E].
    - exists (<[p := e']> es). rewrite E, Z.add_0_r. split; [done|].
      eapply unregistered_cons; [done..|]. apply unregistered_absent; [done|lia].
    - destruct (IH (<[p := e']> es) k2 Hnd He2) as (es' & Hes & Hun); [lia|].
      rewrite Hrefs in Hes. exists es'. split; [done|]. by eapply unregistered_cons. }
  destruct (decide (c ∈ client_list e)) as [Hi|Hi];
    [rewrite (bool_decide_true (c ∈ _)) by done|rewrite (bool_decide_false (c ∈ _)) by done].
  - rewrite wrap_small by (unfold in_u; lia).
    replace (Z.of_nat (1 + n) - 1) with (Z.of_nat n) by lia.
    replace (k + Z.of_nat (1 + n)) with (k + 1 + Z.of_nat n) by lia. apply Hstep.
  - apply Hstep.
Qed.

(** The cache after a client left all its updates. *)
Lemma unregistered_wf self c t es :
  uc_wf self -> unregistered c t (allItems self) (entries self) es ->
  uc_wf (set_entries self es)
  /\ forall k, match uc_get self k with
               | None => uc_get (set_entries self es) k = None
               | Some e => exists e', uc_get (set_entries self es) k = Some e' /\ left_by c t e e'
               end.
Proof.
  intros Hw [Hin _].
  assert (forall k p, (k, p) ∈ ut_items (table self) -> exists e e', entries self !! p = Some e
    /\ es !! p = Some e' /\ updateID e' = k /\ entry_ok e' /\ left_by c t e e') as Hall.
  { intros k p Hkp. destruct (kt_items _ _ _ _ (uw_table _ Hw) k p Hkp) as (e & He & <- & Hcl & Hp).
    destruct (Hin p e) as (e' & He' & Hleft); [|done|].
    - rewrite <- (uw_items _ Hw). apply list_elem_of_fmap. by exists (updateID e, p).
    - exists e, e'. destruct (Hleft) as [Heq Hcl']. split; [done|]. split; [done|].
      split; [by rewrite Heq|]. split; [|done]. eapply entry_ok_intro; [done|]. by rewrite Heq. }
  split.
  - destruct Hw as [Ht Hi Hl Hm Hu Hmin Hlk]. constructor; try done. constructor; [apply Ht|].
    intros k p Hkp. destruct (Hall k p Hkp) as (e & e' & _ & He' & Hid & Hok & _). by exists e'.
  - intros k. pose proof (uc_find self k Hw) as Hf. unfold uc_get, kt_get in *.
    cbn [table entries set_entries] in *. destruct (ut_find k (table self)) as [p|]; [|done].
    destruct Hf as (Hkp & e & He & Hg & _). rewrite Hg.
    destruct (Hall k p Hkp) as (e2 & e' & He2 & He' & _ & _ & Hleft). simplify_eq.
    by exists e'.
Qed.

Lemma locked_get_ok c : 0 <= c < 64 ->
  locked_get all_unlocked c = Ok 0
  /\ locked_set (locked_set all_unlocked c 1) c 0 = all_unlocked.
Proof.
  intros Hc.
  assert (forallb (fun n => let c := Z.of_nat n in
    match locked_get all_unlocked c with Ok v => v =? 0 | Fault _ => false end
    && bool_decide (locked_set (locked_set all_unlocked c 1) c 0 = all_unlocked)) (seq 0 64) = true)
    as Hall by by vm_compute.
  rewrite forallb_forall in Hall. specialize (Hall (Z.to_nat c)).
  rewrite Z2Nat.id in Hall by lia.
  assert (In (Z.to_nat c) (seq 0 64)) as Hin by (apply in_seq; lia). specialize (Hall Hin).
  cbn zeta in Hall. apply andb_prop in Hall as [H1' H2']. apply bool_decide_eq_true in H2'.
  split; [|exact H2']. destruct (locked_get all_unlocked c); [|done].
  by apply Z.eqb_eq in H1' as ->.
Qed.

Lemma unregisterClientID_eq self c keep :
  uc_wf self -> client_ok c ->
  let m := Z.of_nat (refs (entries self) c (allItems self)) in m < 2 ^ 32 ->
  (c < 64 -> exists self', unregisterClientID self c (Some m) keep = Ok (self', Some 0, m)
     /\ uc_wf self'
     /\ forall k, match uc_get self k with
                  | None => uc_get self' k = None
                  | Some e => exists e', uc_get self' k = Some e' /\ left_by c (u16 keep) e e'
                  end)
  /\ (64 <= c -> unregisterClientID self c (Some m) keep = Fault OutOfBounds).
Proof.
  intros Hw Hc m Hm. unfold client_ok in Hc. unfold unregisterClientID.
  rewrite (uw_lock _ Hw), (uw_mutex _ Hw), (uw_locked _ Hw).
  cbn [acquireWriteLock lockMutex]. simpl_outcome. split; intros Hlt.
  - destruct (locked_get_ok c) as [Hg Hs]; [lia|]. rewrite Hg. simpl_outcome. cbn [Z.eqb].
    assert (entries_live (entries self) (allItems self)) as Hlive.
    { intros p Hp. rewrite <- (uw_items _ Hw) in Hp.
      apply list_elem_of_fmap in Hp as ([k q] & -> & Hkq).
      destruct (kt_items _ _ _ _ (uw_table _ Hw) k q Hkq) as (e & He & _ & Hcl & _).
      by exists e. }
    destruct (unregister_loop_spec c keep (allItems self) (entries self) 0 Hc) as (es & Hloop & Hun);
      [rewrite <- (uw_items _ Hw); by eapply kt_nodup_addresses, (uw_table _ Hw)|done|done|].
    destruct (unregistered_wf self c (u16 keep) es Hw Hun) as [Hw' Hget].
    exists (set_entries self es). split; [|done].
    cbn [allItems set_lockedClients lockedClients entries].
    destruct self as [cb mu items avail used lk tb mn lo kw en].
    pose proof (uw_lock _ Hw); pose proof (uw_mutex _ Hw); pose proof (uw_locked _ Hw).
    cbn [tableLock itemMutex lockedClients allItems entries] in *. subst lk mu lo.
    fold m in Hloop. destruct items as [|p items].
    + simpl in Hloop. injection Hloop as <-. simpl_outcome.
      cbn [unlockMutex unlockWriteLock unlockRWLock]. simpl_outcome.
      cbn [set_table set_itemMutex set_lockedClients set_entries hasCallback itemMutex allItems
        availItems itemsUsed table minNumberOfClients lockedClients defaultKeepWindow entries].
      by rewrite Hs.
    + rewrite Hloop. simpl_outcome. cbn [unlockMutex unlockWriteLock unlockRWLock]. simpl_outcome.
      cbn [set_table set_itemMutex set_lockedClients set_entries hasCallback itemMutex allItems
        availItems itemsUsed table minNumberOfClients lockedClients defaultKeepWindow entries].
      by rewrite Hs.
  - unfold locked_get, read_bytes. rewrite decide_False; [done|].
    change (length all_unlocked) with 256%nat. lia.
Qed.

(** Removing a client from the whole cache, for a client below 64 whose
    update count is the number of updates it is registered for: every update
    loses exactly that client, the result is the number of associations removed
    and the count drops to 0.  For the clients from 64 to 255 the code reads
    outside the array of client locks, which was allocated with a byte instead
    of 32 bits per client. *)
Theorem unregisterClientID_correct self c keep :
  uc_wf self -> client_ok c ->
  let m := Z.of_nat (refs (entries self) c (allItems self)) in m < 2 ^ 32 ->
  (c < 64 -> exists self', unregisterClientID self c (Some m) keep = Ok (self', Some 0, m)
     /\ uc_wf self'
     /\ forall k, match uc_get self k with
                  | None => uc_get self' k = None
                  | Some e => exists e', uc_get self' k = Some e' /\ left_by c (u16 keep) e e'
                  end)
  /\ (64 <= c -> unregisterClientID self c (Some m) keep = Fault OutOfBounds).
Proof. apply unregisterClientID_eq. Qed.

(** ** Collisions *)
(** A stored update collides with a new one of the same identifier exactly
    when the origin AS, the number of hops, the AS path or the BGPsec attribute
    (up to the stored length) differs.  The prefixes are compared by the code,
    but have no influence on the answer. *)
Theorem detectCollision_correct self id pfx as_ b e d cpfx p1 p2 a1 a2 :
  uc_wf self -> uc_get self id = Some e -> pathData e = Some d -> prefix e = Some cpfx ->
  length (addr_u8 (ip pfx)) = 16%nat -> length (addr_u8 (ip cpfx)) = 16%nat ->
  copy_from (Z.to_nat (hops d)) (asn_path d) = Ok p1 ->
  copy_from (Z.to_nat (hops d)) (asPath b) = Ok p2 ->
  copy_from (Z.to_nat (data_length d)) (bgpsec_path d) = Ok a1 ->
  copy_from (Z.to_nat (data_length d)) (bgpsec_path_attr b) = Ok a2 ->
  detectCollision self id pfx as_ b
  = Ok (self, negb (bool_decide (asn e = as_ /\ hops d = numberHops b
                                 /\ u32s_bytes p1 = u32s_bytes p2 /\ a1 = a2))).
Proof.
  intros Hw Hg Hd Hp Hl1 Hl2 Hp1 Hp2 Ha1 Ha2. unfold detectCollision.
  rewrite tableFind_eq by done. simpl_outcome.
  pose proof (uc_find self id Hw) as Hf. destruct (ut_find id (table self)) as [p|]; [|congruence].
  destruct Hf as (Hin & e2 & He & Hg2 & _). rewrite Hg in Hg2. injection Hg2 as <-.
  unfold deref. rewrite He. simpl_outcome. rewrite Hd, Hp.
  destruct (Z.eqb_spec (asn e) as_); cbn [negb]; [|by rewrite bool_decide_false by naive_solver].
  destruct (Z.eqb_spec (hops d) (numberHops b)); cbn [negb];
    [|by rewrite bool_decide_false by naive_solver].
  assert (forall n i r, (i <= 16)%nat -> exists r', prefix_loop n i pfx cpfx r = Ok r') as Hloop.
  { intros n i r Hi. revert r. induction n as [|n IH]; intros r; cbn [prefix_loop]; [by eexists|].
    destruct r; [by eexists|]. unfold addr_byte.
    rewrite !arr_get_Ok by (rewrite length_app; simpl; lia). simpl_outcome. apply IH. }
  destruct (Hloop (if version (ip cpfx) =? 4 then 4%nat else 16%nat)
    (if version (ip cpfx) =? 4 then 4%nat else 16%nat) false) as [r' ->].
  { destruct (version (ip cpfx) =? 4); lia. }
  simpl_outcome. rewrite Hp1. simpl_outcome. rewrite Hp2. simpl_outcome.
  assert (forall n o l, copy_from n o = Ok l -> length l = n) as Hlen.
  { intros n [l0|] l; unfold copy_from; [case_decide; [|done]|destruct n; [|done]];
      intros [= <-]; [rewrite length_take; lia|done]. }
  assert (forall l, length (u32s_bytes l) = (4 * length l)%nat) as Hbytes.
  { intros l. induction l as [|x l IH]; [done|]. unfold u32s_bytes in *.
    rewrite bind_cons, length_app, IH, length_le_bytes32. simpl. lia. }
  pose proof (Hlen _ _ _ Hp1). pose proof (Hlen _ _ _ Hp2).
  pose proof (Hlen _ _ _ Ha1). pose proof (Hlen _ _ _ Ha2).
  destruct (Z.eqb_spec (memcmp (u32s_bytes p1) (u32s_bytes p2)) 0) as [E|E];
    rewrite memcmp_0_iff in E by (rewrite !Hbytes; lia); cbn [negb];
    [|by rewrite bool_decide_false by naive_solver].
  rewrite Ha1. simpl_outcome. rewrite Ha2. simpl_outcome. do 3 f_equal.
  destruct (Z.eqb_spec (memcmp a1 a2) 0) as [E2|E2]; rewrite memcmp_0_iff in E2 by lia.
  - by rewrite bool_decide_true.
  - by rewrite bool_decide_false by naive_solver.
Qed.
End theorems.

(** A client added to an entry whose slots are all taken is registered by
    growing the array, but the growing path neither counts the update for the
    client nor clears the mark of the garbage collector; and when the new size
    reaches 256 the size field wraps to 0, so that the entry shows no clients. *)
Theorem addClientReference_growth {H} (self : UpdateCache H) e ids c m :
  clients_are e ids -> Z.of_nat (length ids) = noPossibleClients e ->
  client_ok c -> c ∉ ids -> 0 < minNumberOfClients self ->
  exists e', _addClientReference self e c (Some m) = Ok (e', Some m, true)
    /\ gcFlag e' = gcFlag e
    /\ (noPossibleClients e + minNumberOfClients self < 256 -> client_list e' = ids ++ [c])
    /\ (noPossibleClients e + minNumberOfClients self = 256 ->
        copy_from (Z.to_nat (noPossibleClients e')) (clients e') = Ok []).
Proof.
  intros Hcl Hfull Hc Hin Hmin. pose proof (addClientReference_full self e ids c (Some m)) as Hadd.
  cbn zeta in Hadd. rewrite Hadd by done. eexists. split; [done|]. split; [done|]. split.
  - intros Hlt. destruct Hcl as [_ _ Hnd Hok]. apply clients_are_list.
    constructor; cbn [clients noPossibleClients set_clients].
    + exists (Z.to_nat (minNumberOfClients self) - 1)%nat. unfold slots. rewrite <- (assoc_L (++)).
      split; [done|]. rewrite length_app, wrap_small by (unfold in_u; lia). simpl. lia.
    + rewrite wrap_small by (unfold in_u; lia). done.
    + apply NoDup_app. split; [done|]. split; [set_solver|apply NoDup_singleton].
    + apply Forall_app; auto.
  - intros Heq. cbn [clients noPossibleClients set_clients]. rewrite Heq. done.
Qed.

(** Deleting an update for client 0 never removes a client from it, although
    that is documented to remove all of them; it even reports success when the
    update still has a free slot. *)
Theorem delete_client_0_keeps_clients e ids t :
  clients_are e ids ->
  exists e', _deleteUpdateFromCache 0 e t
             = Ok (e', bool_decide (Z.of_nat (length ids) < noPossibleClients e))
    /\ clients e' = clients e /\ client_list e' = ids.
Proof.
  intros Hcl. destruct (Hcl) as [(k & Hcs & Hn) _ _ Hok].
  unfold _deleteUpdateFromCache, _deleteUpdateFromCache_clientMgmt.
  rewrite Hcs, <- Hn, Nat2Z.id. pose proof (client_remove_0 ids [] k false Hok) as Hr.
  cbn [length app orb] in Hr. rewrite Hr. simpl_outcome.
  assert (client_list (set_clients e (Some (slots ids k)) (noPossibleClients e) (gcFlag e)) = ids) as Hl.
  { unfold client_list. cbn [clients set_clients]. rewrite <- Hcs. exact (clients_are_list e ids Hcl). }
  destruct k as [|k]; cbn [Nat.ltb Nat.leb negb].
  - rewrite (bool_decide_false (_ < _)) by lia. eexists. split; [done|]. split; [done|].
    by rewrite Hn.
  - rewrite (bool_decide_true (_ < _)) by lia.
    destruct (negb (bool_decide (ids = []))); (eexists; split; [done|]); (split; [done|]);
      by rewrite Hn.
Qed.

End UpdateCacheTheorems.
