(* ===== verification/HashMessage.v ===== *)
(** * Hash messages of BGPsec paths (srx-crypto-api/srxcryptoapi.c): data and operations

    The crypto library and its plug-ins share one representation of the octets
    that the signatures of a path cover: a buffer that holds the octets of the
    latest signature, and for each signature a pointer to it and one to the octets
    it covers, which are a suffix of the buffer.  Pointers into the buffer are
    offsets.  The theorems are in HashMessageTheorems. *)
From S2P Require Import Prelude SrxDefs BgpsecPath UpdateCache.

Module HashMessage.
Import BgpsecPath.

(** ** Constants *)
Definition API_SUCCESS : Z := 1.
Definition API_FAILURE : Z := 0.
Definition API_VALRESULT_VALID : Z := 1.
Definition API_VALRESULT_INVALID : Z := 0.
Definition API_STATUS_ERROR_MASK : Z := 0xFFFF0000.
Definition API_STATUS_OK : Z := 0.
Definition API_STATUS_INFO_SIGNATURE : Z := 0x00000001.
Definition API_STATUS_INFO_KEY_NOTFOUND : Z := 0x00000002.
Definition API_STATUS_INFO_USER1 : Z := 0x00001000.
Definition API_STATUS_ERR_NO_DATA : Z := 0x00010000.
Definition API_STATUS_ERR_NO_PREFIX : Z := 0x00020000.
Definition API_STATUS_ERR_INVLID_KEY : Z := 0x00040000.
Definition API_STATUS_ERR_KEY_IO : Z := 0x00080000.
Definition API_STATUS_ERR_INSUF_KEYSTORAGE : Z := 0x00200000.
Definition API_STATUS_ERR_SYNTAX : Z := 0x00800000.
Definition API_STATUS_ERR_USER1 : Z := 0x10000000.
Definition SCA_ECDSA_ALGORITHM : Z := 1.
Definition SCA_MAX_SIGBLOCK_COUNT : nat := 2.
Definition LEN_SECPATH_HDR : nat := 2.
Definition LEN_SECPATHSEGMENT : nat := 6.
Definition LEN_SIGBLOCK_HDR : nat := 3.
Definition LEN_SIGSEGMENT_HDR : nat := 22.

(** Does a status word have an error bit? *)
Definition has_error (status : Z) : bool := negb (Z.land status API_STATUS_ERROR_MASK =? 0).

(** ** Data *)
Record SCA_HashMessagePtr := mkHashMessagePtr {
  signaturePtr : option nat;
  hashMessagePtr : nat;
  hashMessageLength : Z
}.
Record SCA_HashMessage := mkHashMessage {
  ownedByAPI : bool;
  bufferSize : Z;
  buffer : list Z;
  segmentCount : Z;
  hashMessageValPtr : list SCA_HashMessagePtr
}.

(** The second element of the array [hashMessage] is never set. *)
Record SCA_BGPSecValidationData := mkValidationData {
  v_myAS : Z;
  v_status : Z;
  v_bgpsec_path_attr : option (list Z);
  v_nlri : option UpdateCache.SCA_Prefix;
  v_hashMessage : option SCA_HashMessage
}.
Definition set_v_status (d : SCA_BGPSecValidationData) (s : Z) : SCA_BGPSecValidationData :=
  mkValidationData (v_myAS d) s (v_bgpsec_path_attr d) (v_nlri d) (v_hashMessage d).
Definition set_v_hashMessage (d : SCA_BGPSecValidationData) h : SCA_BGPSecValidationData :=
  mkValidationData (v_myAS d) (v_status d) (v_bgpsec_path_attr d) (v_nlri d) h.

(** The bytes of a packed [SCA_Prefix]. *)
Definition prefix_bytes (p : UpdateCache.SCA_Prefix) : list Z :=
  [UpdateCache.s_afi p mod 256; (UpdateCache.s_afi p / 256) mod 256; UpdateCache.s_safi p; UpdateCache.s_length p]
  ++ UpdateCache.s_addr p.
(** The bytes of the address: [(length + 7) / 8]. *)
Definition prefixBLen (p : UpdateCache.SCA_Prefix) : nat := Z.to_nat ((UpdateCache.s_length p + 7) / 8).

(** ** Generating the message of a received path *)

(** The loop [while (remainder != 0)]: the offset and the length of the first
    signature block of the algorithm; [None] when there is none or the length of a
    block is wrong.  A block has at least one byte: [remainder] rounds are enough. *)
Fixpoint find_sigBlock (fuel : nat) (mem : list Z) (off : nat) (remainder algoID : Z) : outcome (option (nat * Z)) :=
  if remainder =? 0 then Ok None else
  match fuel with
  | O => Fault OutOfFuel
  | S fuel' =>
      blockLength ← read16be mem off;
      if (remainder <? blockLength) || (blockLength =? 0) then Ok None else
      a ← read8 mem (off + 2);
      if a =? algoID then Ok (Some (off, blockLength))
      else find_sigBlock fuel' mem (off + Z.to_nat blockLength) (u16 (remainder - blockLength)) algoID
  end.

(** The state of the copy loop. *)
Record copy := mkCopy { c_buf : list Z; c_used : nat; c_sigPtr : nat; c_pathPtr : nat; c_ptrs : list SCA_HashMessagePtr }.

(** One round: the signature segment, then the AS the path was sent to, which is
    the own AS for the first signature and the next path segment otherwise. *)
Definition copy_segment (mem : list Z) (myAS size : Z) (segment : nat) (c : copy) : outcome copy :=
  siglen ← read16be mem (c_sigPtr c + 20);
  let dataLength := (LEN_SIGSEGMENT_HDR + Z.to_nat siglen)%nat in
  sig ← read_bytes mem (c_sigPtr c) dataLength;
  buf ← write_bytes (c_buf c) (c_used c) sig;
  let used := (c_used c + dataLength)%nat in
  let ptr := mkHashMessagePtr (Some (c_used c)) (used + 2) (u16 (size - Z.of_nat (used + 2))) in
  if (segment =? 0)%nat then
    buf ← write_bytes buf (used + 2) (le_bytes32 myAS);
    Ok (mkCopy buf (used + 6) (c_sigPtr c + dataLength) (c_pathPtr c) (c_ptrs c ++ [ptr]))
  else
    seg ← read_bytes mem (c_pathPtr c) LEN_SECPATHSEGMENT;
    buf ← write_bytes buf used seg;
    Ok (mkCopy buf (used + 6) (c_sigPtr c + dataLength) (c_pathPtr c + 6) (c_ptrs c ++ [ptr])).

(** [n] rounds from [segment] on. *)
Fixpoint copy_segments (n : nat) (mem : list Z) (myAS size : Z) (segment : nat) (c : copy) : outcome copy :=
  match n with
  | O => Ok c
  | S n' => c ← copy_segment mem myAS size segment c; copy_segments n' mem myAS size (S segment) c
  end.

(** The origin's path segment, the algorithm and the prefix behind the loop. *)
Definition copy_origin (mem : list Z) (algoID : Z) (nlri : UpdateCache.SCA_Prefix) (c : copy) : outcome copy :=
  seg ← read_bytes mem (c_pathPtr c) LEN_SECPATHSEGMENT;
  buf ← write_bytes (c_buf c) (c_used c) seg;
  buf ← write_bytes buf (c_used c + 6) [algoID];
  p ← read_bytes (prefix_bytes nlri) 0 (prefixBLen nlri + 4);
  buf ← write_bytes buf (c_used c + 7) p;
  Ok (mkCopy buf (c_used c + 7 + prefixBLen nlri + 4) (c_sigPtr c) (c_pathPtr c) (c_ptrs c)).

(** The size of the buffer. *)
Definition buffer_size (segments blockLength : Z) (nlri : UpdateCache.SCA_Prefix) : Z :=
  4 + (segments + 1) * Z.of_nat LEN_SECPATHSEGMENT + (blockLength - Z.of_nat LEN_SIGBLOCK_HDR) + 1 + 4
  + Z.of_nat (prefixBLen nlri).

(** The message of the signature block at [sBlock] of a path of [segments]
    segments that start at [pSeg]. *)
Definition fill_buffer (mem : list Z) (data : SCA_BGPSecValidationData) (algoID segments : Z) (pSeg sBlock : nat)
    (blockLength : Z) : outcome (SCA_HashMessage * Z) :=
  match v_nlri data with
  | None => Fault NullDeref
  | Some nlri =>
      let size := buffer_size segments blockLength nlri in
      c ← copy_segments (Z.to_nat segments) mem (v_myAS data) size 0
            (mkCopy (replicate (Z.to_nat size) 0) 4 (sBlock + LEN_SIGBLOCK_HDR) pSeg []);
      c ← copy_origin mem algoID nlri c;
      Ok (mkHashMessage false size (c_buf c) segments (c_ptrs c), Z.of_nat (c_used c))
  end.

(** [status] is the variable the caller passes, [None] for NULL. *)
Definition sca_generateHashMessage (data : option SCA_BGPSecValidationData) (algoID : Z) (status : option Z)
    : outcome (Z * option SCA_BGPSecValidationData * option Z) :=
  let set (s : Z) : option Z := (fun _ => s) <$> status in
  match data with
  | None => Ok (API_VALRESULT_INVALID, None, set API_STATUS_ERR_NO_DATA)
  | Some d =>
      match v_bgpsec_path_attr d, v_hashMessage d with
      | None, _ => Ok (API_VALRESULT_INVALID, data, set API_STATUS_ERR_NO_DATA)
      | Some _, Some _ => Ok (API_VALRESULT_VALID, data, set API_STATUS_INFO_USER1)
      | Some mem, None =>
          '(remainder, stream) ← parse_header mem;
          secPathLen ← read16be mem stream;
          let segmentCount := Z.quot secPathLen (Z.of_nat LEN_SECPATHSEGMENT) in
          let remainder := u16 (remainder - Z.of_nat LEN_SECPATH_HDR) in
          let pSeg := (stream + LEN_SECPATH_HDR)%nat in
          let remainder := u16 (remainder - (secPathLen - Z.of_nat LEN_SECPATH_HDR)) in
          b ← find_sigBlock (Z.to_nat remainder) mem (stream + Z.to_nat secPathLen) remainder algoID;
          match b with
          | None => Ok (0, Some (set_v_hashMessage d None), set API_STATUS_ERR_USER1)
          | Some (sBlock, blockLength) =>
              '(hm, used) ← fill_buffer mem d algoID segmentCount pSeg sBlock blockLength;
              Ok (used, Some (set_v_hashMessage d (Some hm)), set API_STATUS_OK)
          end
      end
  end.

(** ** The message of an originated path *)
Definition sca_generateOriginHashMessage (targetAS : Z) (spSeg : list Z) (nlri : UpdateCache.SCA_Prefix) (algoID : Z)
    : outcome SCA_HashMessage :=
  let nlriLen := (prefixBLen nlri + 4)%nat in
  let bLen := (4 + LEN_SECPATHSEGMENT + 1 + nlriLen)%nat in
  buf ← write_bytes (replicate bLen 0) 0 (le_bytes32 targetAS);
  seg ← read_bytes spSeg 0 LEN_SECPATHSEGMENT;
  buf ← write_bytes buf 4 seg;
  buf ← write_bytes buf 10 [algoID];
  p ← read_bytes (prefix_bytes nlri) 0 nlriLen;
  buf ← write_bytes buf 11 p;
  Ok (mkHashMessage true (Z.of_nat bLen) buf 1 [mkHashMessagePtr None 0 (u16 (Z.of_nat bLen))]).

(** ** Releasing a message; [None] is a freed one. *)
Definition sca_freeHashInput (data : option SCA_HashMessage) : bool * option SCA_HashMessage :=
  match data with
  | None => (true, None)
  | Some hm => if ownedByAPI hm then (false, Some hm) else (true, None)
  end.

(** ** The algorithm of a message *)
Definition sca_getAlgorithmID (hashMessage : option SCA_HashMessage) : outcome Z :=
  match hashMessage with
  | None => Ok 0
  | Some hm =>
      if segmentCount hm =? 0 then Fault OutOfBounds else
      p ← arr_get (hashMessageValPtr hm) (Z.to_nat (segmentCount hm - 1));
      if 11 <=? hashMessageLength p then read8 (buffer hm) (hashMessagePtr p + 11) else Ok 0
  end.

(** ** The algorithms of a path attribute *)

(** The walk over the signature blocks: the algorithms found and the status bits
    added.  The array has two elements, so three rounds are enough. *)
Fixpoint walk_sigBlocks (fuel : nat) (mem : list Z) (ptr : nat) (remainder : Z) (blockIdx : nat) (algoID : list Z)
    : outcome (list Z * Z) :=
  if remainder <=? 0 then Ok (algoID, API_STATUS_OK) else
  match fuel with
  | O => Fault OutOfFuel
  | S fuel' =>
      if (blockIdx <? SCA_MAX_SIGBLOCK_COUNT)%nat then
        size ← read16be mem ptr;
        a ← read8 mem (ptr + 2);
        walk_sigBlocks fuel' mem (ptr + Z.to_nat size) (u16 (remainder - size)) (S blockIdx) (<[blockIdx := a]> algoID)
      else Ok (algoID, API_STATUS_ERR_SYNTAX)
  end.

(** The return value and the variables of the caller, [None] for NULL. *)
Definition sca_getAlgorithmIDs (attr : option (list Z)) (status algoID1 algoID2 : option Z)
    : outcome (Z * option Z * option Z * option Z) :=
  '(algoID, myStatus) ←
    match attr with
    | None => Ok ([0; 0], API_STATUS_ERR_NO_DATA)
    | Some mem =>
        '(remainder, stream) ← parse_header mem;
        let remainder := u16 (remainder - Z.of_nat stream) in
        size ← read16be mem stream;
        walk_sigBlocks (S SCA_MAX_SIGBLOCK_COUNT) mem (stream + Z.to_nat size) (u16 (remainder - size)) 0 [0; 0]
    end;
  let algoID1 := (fun _ => algoID !!! 0%nat) <$> algoID1 in
  algoID1 ← match algoID2, algoID1 with
            | None, _ => Ok algoID1
            | Some _, None => Fault NullDeref
            | Some _, Some _ => Ok (Some (algoID !!! 1%nat))
            end;
  Ok (if has_error myStatus then API_FAILURE else API_SUCCESS, (fun s => Z.lor s myStatus) <$> status, algoID1, algoID2).

End HashMessage.
