(* ===== verification/HashMessageTheorems.v ===== *)
(** * The messages of a path are the ones RFC 8205 defines

    The octets that the signatures of a path cover, as RFC 8205 (4.2) lists them,
    are the specification; [generate_eq] relates the buffer and the pointers of a
    generated message to it. *)
From S2P Require Import Prelude Bytes SrxDefs BgpsecPath UpdateCache HashMessage.

Module HashMessageTheorems.
Import BgpsecPath HashMessage.

(** ** Specification: the octets covered by a signature *)

(** The signatures and path segments behind the target, latest first. *)
Fixpoint signed_path (segs : list segment) (sigs : list sig_segment) : list Z :=
  match segs, sigs with
  | sg :: segs', s :: sigs' => enc_sig s ++ enc_segment sg ++ signed_path segs' sigs'
  | sg :: _, [] => enc_segment sg
  | [], _ => []
  end.
(** Algorithm, AFI, SAFI, and the prefix with its length. *)
Definition nlri_octets (algoID : Z) (nlri : UpdateCache.SCA_Prefix) : list Z :=
  [algoID] ++ take (prefixBLen nlri + 4) (prefix_bytes nlri).
(** What the latest signature of a path covers; the path is sent to [target]. *)
Definition rfc8205_octets (target : list Z) (segs : list segment) (sigs : list sig_segment) (algoID : Z)
    (nlri : UpdateCache.SCA_Prefix) : list Z :=
  target ++ signed_path segs (tail sigs) ++ nlri_octets algoID nlri.
(** The AS each signature is directed to: the own AS, then the AS of the segment
    added later. *)
Definition targets (myAS : Z) (segs : list segment) : list (list Z) :=
  le_bytes32 myAS :: ((fun sg => be32 (sg_asn sg)) <$> segs).

Definition nlri_wf (nlri : UpdateCache.SCA_Prefix) : Prop :=
  0 <= UpdateCache.s_length nlri <= 128 /\ length (UpdateCache.s_addr nlri) = 16%nat.

(** A message whose pointers lead to the signatures and to what they cover. *)
Record describes (hm : SCA_HashMessage) (myAS : Z) (segs : list segment) (sigs : list sig_segment) (algoID : Z)
    (nlri : UpdateCache.SCA_Prefix) : Prop := {
  ds_owner : ownedByAPI hm = false;
  ds_count : segmentCount hm = Z.of_nat (length segs);
  ds_size : bufferSize hm = Z.of_nat (length (buffer hm));
  ds_buffer s sigs' : sigs = s :: sigs' ->
    buffer hm = replicate 4 0 ++ enc_sig s ++ [0; 0] ++ rfc8205_octets (le_bytes32 myAS) segs sigs algoID nlri;
  ds_ptr i s t : sigs !! i = Some s -> targets myAS segs !! i = Some t ->
    exists p o, hashMessageValPtr hm !! i = Some p /\ signaturePtr p = Some o
      /\ bytes_at (buffer hm) o (enc_sig s)
      /\ drop (hashMessagePtr p) (buffer hm) = rfc8205_octets t (drop i segs) (drop i sigs) algoID nlri
      /\ hashMessageLength p = u16 (Z.of_nat (length (rfc8205_octets t (drop i segs) (drop i sigs) algoID nlri)))
}.

(** ** Finding the signature block *)
Definition has_algo (algoID : Z) (b : sig_block) : bool := sb_algo b =? algoID.

Lemma find_sigBlock_at mem algoID blocks off fuel :
  bytes_at mem off (blocks ≫= enc_block) -> (length (blocks ≫= enc_block) <= fuel)%nat ->
  Z.of_nat (length (blocks ≫= enc_block)) < 2 ^ 16 ->
  let r := find_sigBlock fuel mem off (Z.of_nat (length (blocks ≫= enc_block))) algoID in
  match List.find (has_algo algoID) blocks with
  | None => r = Ok None
  | Some b => exists o, r = Ok (Some (o, Z.of_nat (length (enc_block b)))) /\ bytes_at mem o (enc_block b)
  end.
Proof.
  revert off fuel. induction blocks as [|b blocks IH]; intros off fuel Hat Hf Hl; cbn [List.find].
  { by destruct fuel. }
  rewrite bind_cons in *. rewrite length_app in *.
  pose proof (length_enc_block b) as Lb. apply bytes_at_app in Hat as [Hb Hrest].
  destruct fuel as [|fuel]; [lia|]. cbn [find_sigBlock].
  rewrite (proj2 (Z.eqb_neq _ _)) by lia.
  pose proof Hb as Hb'. unfold enc_block in Hb'. apply bytes_at_app in Hb' as [H1 H2].
  apply bytes_at_app in H2 as [H2 _]. cbn [length be16] in H2.
  rewrite (read16be_bytes_at _ _ _ H1). cbn [mbind outcome_bind].
  replace (3 + Z.of_nat (length (sb_sigs b ≫= enc_sig))) with (Z.of_nat (length (enc_block b))) by lia.
  rewrite (proj2 (Z.ltb_ge _ _)), (proj2 (Z.eqb_neq _ 0)) by lia. cbn [orb].
  rewrite (read8_bytes_at _ _ _ H2). cbn [mbind outcome_bind]. unfold has_algo at 1.
  destruct (sb_algo b =? algoID); [by exists off|].
  rewrite Nat2Z.id. replace (_ - _) with (Z.of_nat (length (blocks ≫= enc_block))) by lia.
  rewrite wrap_small by (unfold in_u; lia). by apply IH; [|lia|lia].
Qed.

(** ** Filling the buffer *)
Lemma write_bytes_next pre k off bs :
  off = length pre -> (length bs <= k)%nat ->
  write_bytes (pre ++ replicate k 0) off bs = Ok ((pre ++ bs) ++ replicate (k - length bs) 0).
Proof. intros ->. apply write_bytes_zeros. Qed.

(** The pointers for signatures laid out from [off] on. *)
Fixpoint layout (size : Z) (off : nat) (sigs : list sig_segment) : list SCA_HashMessagePtr :=
  match sigs with
  | [] => []
  | s :: sigs' =>
      let used := (off + length (enc_sig s))%nat in
      mkHashMessagePtr (Some off) (used + 2) (u16 (size - Z.of_nat (used + 2))) :: layout size (off + (length (enc_sig s) + 6)) sigs'
  end.

Lemma length_enc_segment sg : length (enc_segment sg) = 6%nat.
Proof. reflexivity. Qed.

Lemma length_enc_sig s : length (ss_ski s) = SKI_LENGTH -> length (enc_sig s) = (22 + length (ss_signature s))%nat.
Proof. intros H. unfold enc_sig. rewrite !length_app, H. simpl. lia. Qed.

Lemma siglen_at mem off s :
  bytes_at mem off (enc_sig s) -> length (ss_ski s) = SKI_LENGTH ->
  read16be mem (off + 20) = Ok (Z.of_nat (length (ss_signature s))).
Proof.
  intros Hat Hk. unfold enc_sig in Hat. apply bytes_at_app in Hat as [_ Hat].
  apply bytes_at_app in Hat as [Hat _]. rewrite Hk in Hat. by apply read16be_bytes_at.
Qed.

Definition sig_wf (s : sig_segment) : Prop :=
  length (ss_ski s) = SKI_LENGTH /\ Z.of_nat (length (ss_signature s)) < 2 ^ 16.

(** One round behind the first. *)
Lemma copy_segment_next mem myAS size segment pre k sp pp ptrs s sg :
  bytes_at mem sp (enc_sig s) -> sig_wf s -> bytes_at mem pp (enc_segment sg) -> segment <> 0%nat ->
  (length (enc_sig s) + 6 <= k)%nat ->
  copy_segment mem myAS size segment (mkCopy (pre ++ replicate k 0) (length pre) sp pp ptrs)
  = Ok (mkCopy ((pre ++ enc_sig s ++ enc_segment sg) ++ replicate (k - (length (enc_sig s) + 6)) 0)
          (length (pre ++ enc_sig s ++ enc_segment sg)) (sp + length (enc_sig s)) (pp + 6)
          (ptrs ++ layout size (length pre) [s])).
Proof.
  intros Hs [Hk Hl] Hp Hn Hroom. unfold copy_segment. cbn [c_buf c_used c_sigPtr c_pathPtr c_ptrs].
  rewrite (siglen_at _ _ _ Hs Hk). cbn [mbind outcome_bind]. rewrite Nat2Z.id.
  change LEN_SIGSEGMENT_HDR with 22%nat. rewrite <- (length_enc_sig s Hk).
  rewrite (read_bytes_bytes_at _ _ _ _ Hs) by done. cbn [mbind outcome_bind].
  rewrite write_bytes_zeros by lia. cbn [mbind outcome_bind].
  rewrite (proj2 (Nat.eqb_neq _ _)) by done. rewrite (read_bytes_bytes_at _ _ _ _ Hp) by done.
  cbn [mbind outcome_bind]. rewrite <- length_app.
  rewrite write_bytes_zeros by (rewrite length_enc_segment; lia). cbn [mbind outcome_bind layout].
  do 2 f_equal; rewrite ?length_app, ?length_enc_segment, <- ?(assoc_L (++)); try done; try lia.
  by rewrite Nat.sub_add_distr.
Qed.

Lemma layout_app size off s sigs :
  layout size off (s :: sigs) = layout size off [s] ++ layout size (off + (length (enc_sig s) + 6)) sigs.
Proof. done. Qed.

Lemma read_nlri nlri :
  nlri_wf nlri -> read_bytes (prefix_bytes nlri) 0 (prefixBLen nlri + 4)
  = Ok (take (prefixBLen nlri + 4) (prefix_bytes nlri))
  /\ length (take (prefixBLen nlri + 4) (prefix_bytes nlri)) = (prefixBLen nlri + 4)%nat.
Proof.
  intros [Hl Ha]. assert (prefixBLen nlri <= 16)%nat as Hb by (unfold prefixBLen; zdiv).
  unfold read_bytes, prefix_bytes. rewrite length_take, length_app, Ha, decide_True by (cbn [length]; lia).
  split; [done|]. cbn [length]. lia.
Qed.

Lemma length_nlri_octets algoID nlri : nlri_wf nlri -> length (nlri_octets algoID nlri) = (prefixBLen nlri + 5)%nat.
Proof. intros H. unfold nlri_octets. rewrite length_app, (proj2 (read_nlri _ H)). simpl. lia. Qed.

(** The rest of the loop, and what is written behind it. *)
Lemma copy_rest mem myAS size algoID nlri sigs : forall segs segment pre k sp pp ptrs,
  nlri_wf nlri -> Forall sig_wf sigs -> length segs = S (length sigs) -> segment <> 0%nat ->
  bytes_at mem sp (sigs ≫= enc_sig) -> bytes_at mem pp (segs ≫= enc_segment) ->
  k = length (signed_path segs sigs ++ nlri_octets algoID nlri) ->
  exists sp' pp',
    (copy_segments (length sigs) mem myAS size segment (mkCopy (pre ++ replicate k 0) (length pre) sp pp ptrs)
     ≫= copy_origin mem algoID nlri)
    = Ok (mkCopy (pre ++ signed_path segs sigs ++ nlri_octets algoID nlri)
            (length (pre ++ signed_path segs sigs ++ nlri_octets algoID nlri)) sp' pp'
            (ptrs ++ layout size (length pre) sigs)).
Proof.
  induction sigs as [|s sigs IH]; intros [|sg segs] segment pre k sp pp ptrs Hn Hw Hlen Hseg Hs Hp ->;
    try done; rewrite bind_cons in Hp; apply bytes_at_app in Hp as [Hp1 Hp2].
  - destruct segs; [|done]. exists sp, pp. cbn [copy_segments length mbind outcome_bind signed_path layout].
    rewrite app_nil_r. unfold copy_origin. cbn [c_buf c_used c_sigPtr c_pathPtr c_ptrs].
    destruct (read_nlri nlri Hn) as [En Ln]. rewrite (read_bytes_bytes_at _ _ _ _ Hp1) by done. cbn [mbind outcome_bind].
    rewrite length_app, length_nlri_octets, length_enc_segment by done.
    rewrite write_bytes_zeros by (rewrite length_enc_segment; lia). cbn [mbind outcome_bind].
    rewrite <- (length_enc_segment sg), <- length_app.
    rewrite write_bytes_zeros by (cbn [length]; rewrite length_enc_segment; lia). cbn [mbind outcome_bind].
    rewrite En. cbn [mbind outcome_bind].
    replace (length pre + S (length (enc_segment sg)))%nat with (length ((pre ++ enc_segment sg) ++ [algoID]))
      by (rewrite !length_app; cbn [length]; lia).
    rewrite write_bytes_zeros by (rewrite Ln, length_enc_segment; cbn [length]; lia). cbn [mbind outcome_bind].
    do 2 f_equal.
    + rewrite Ln, length_enc_segment. cbn [length]. replace (6 + _ - _ - _ - _)%nat with 0%nat by lia.
      cbn [replicate]. rewrite app_nil_r. unfold nlri_octets. by rewrite <- !(assoc_L (++)).
    + unfold nlri_octets. rewrite !length_app, Ln. cbn [length]. lia.
  - apply Forall_cons in Hw as [Hw1 Hw]. rewrite bind_cons in Hs. apply bytes_at_app in Hs as [Hs1 Hs2].
    cbn [signed_path length] in *.
    set (R := signed_path segs sigs ++ nlri_octets algoID nlri) in *.
    assert (length ((enc_sig s ++ enc_segment sg ++ signed_path segs sigs) ++ nlri_octets algoID nlri)
            = length (enc_sig s) + 6 + length R)%nat as -> by (subst R; rewrite !length_app, length_enc_segment; lia).
    cbn [copy_segments]. rewrite (copy_segment_next _ _ _ _ _ _ _ _ _ s sg) by (first [done|lia]).
    cbn [mbind outcome_bind]. rewrite Nat.add_sub_swap, Nat.sub_diag by lia. cbn [Nat.add].
    destruct (IH segs (S segment) (pre ++ enc_sig s ++ enc_segment sg) (length R)
                (sp + length (enc_sig s)) (pp + 6) (ptrs ++ layout size (length pre) [s]))%nat as (sp' & pp' & E);
      [done|done|lia|lia|done|done|done|].
    exists sp', pp'. subst R. rewrite (layout_app size (length pre) s sigs), (assoc_L (++) ptrs).
    rewrite !length_app, length_enc_segment in E |- *. rewrite <- !(assoc_L (++)) in E |- *.
    rewrite <- !Nat.add_assoc in E |- *. exact E.
Qed.

(** The first round writes the own AS behind two bytes that stay zero. *)
Lemma copy_segment_first mem myAS size pre k sp pp ptrs s :
  bytes_at mem sp (enc_sig s) -> sig_wf s -> (length (enc_sig s) + 6 <= k)%nat ->
  copy_segment mem myAS size 0 (mkCopy (pre ++ replicate k 0) (length pre) sp pp ptrs)
  = Ok (mkCopy ((pre ++ enc_sig s ++ [0; 0] ++ le_bytes32 myAS) ++ replicate (k - (length (enc_sig s) + 6)) 0)
          (length (pre ++ enc_sig s ++ [0; 0] ++ le_bytes32 myAS)) (sp + length (enc_sig s)) pp
          (ptrs ++ layout size (length pre) [s])).
Proof.
  intros Hs [Hk Hl] Hroom. unfold copy_segment. cbn [c_buf c_used c_sigPtr c_pathPtr c_ptrs].
  rewrite (siglen_at _ _ _ Hs Hk). cbn [mbind outcome_bind]. rewrite Nat2Z.id.
  change LEN_SIGSEGMENT_HDR with 22%nat. rewrite <- (length_enc_sig s Hk).
  rewrite (read_bytes_bytes_at _ _ _ _ Hs) by done. cbn [mbind outcome_bind].
  rewrite write_bytes_zeros by lia. cbn [mbind outcome_bind Nat.eqb].
  replace (k - length (enc_sig s))%nat with (2 + (4 + (k - (length (enc_sig s) + 6))))%nat by lia.
  rewrite replicate_add, (assoc_L (++)).
  replace (length pre + length (enc_sig s) + 2)%nat with (length ((pre ++ enc_sig s) ++ replicate 2 0))
    by (rewrite !length_app; simpl; lia).
  rewrite write_bytes_zeros by (simpl; lia). cbn [mbind outcome_bind layout].
  rewrite length_le_bytes32, Nat.add_sub_swap, Nat.sub_diag by lia. cbn [Nat.add].
  rewrite !length_app, length_replicate, length_le_bytes32, <- !(assoc_L (++)).
  do 2 f_equal. cbn [length]. lia.
Qed.

(** ** The pointers lead to the signatures and to what they cover *)
Lemma layout_lookup size suffix sigs : forall segs pre i s sg,
  length segs = S (length sigs) -> sigs !! i = Some s -> segs !! i = Some sg ->
  exists p o, layout size (length pre) sigs !! i = Some p /\ signaturePtr p = Some o
    /\ bytes_at (pre ++ signed_path segs sigs ++ suffix) o (enc_sig s)
    /\ drop (hashMessagePtr p) (pre ++ signed_path segs sigs ++ suffix)
       = be32 (sg_asn sg) ++ signed_path (drop (S i) segs) (drop (S i) sigs) ++ suffix
    /\ hashMessageLength p = u16 (size - Z.of_nat (hashMessagePtr p))
    /\ (hashMessagePtr p <= length (pre ++ signed_path segs sigs ++ suffix))%nat.
Proof.
  induction sigs as [|s' sigs IH]; intros [|sg' segs] pre i s sg Hlen Hs Hsg; try done.
  cbn [signed_path layout]. destruct i as [|i]; cbn in Hs, Hsg.
  - injection Hs as ->. injection Hsg as ->. do 2 eexists. split; [done|]. split; [done|].
    cbn [hashMessagePtr hashMessageLength]. rewrite <- !(assoc_L (++)).
    split; [by apply bytes_at_middle|].
    split; [|split; [done|rewrite !length_app, length_enc_segment; lia]].
    replace (length pre + length (enc_sig s) + 2)%nat
      with (length (pre ++ enc_sig s ++ [sg_pCount sg; sg_flags sg])) by (rewrite !length_app; simpl; lia).
    etransitivity; [|apply (drop_app_length (pre ++ enc_sig s ++ [sg_pCount sg; sg_flags sg]))].
    f_equal. unfold enc_segment. by rewrite <- !(assoc_L (++)).
  - destruct (IH segs (pre ++ enc_sig s' ++ enc_segment sg') i s sg) as (p & o & E); [by injection Hlen|done..|].
    exists p, o. rewrite !length_app, length_enc_segment in E.
    rewrite <- !(assoc_L (++)) in E |- *. rewrite !length_app, length_enc_segment, !Nat.add_assoc in *. exact E.
Qed.

Lemma length_signed_path segs sigs : length segs = S (length sigs) ->
  length (signed_path segs sigs) = (6 * length segs + length (sigs ≫= enc_sig))%nat.
Proof.
  revert segs. induction sigs as [|s sigs IH]; intros [|sg segs] Hl; try done; cbn [signed_path length] in *.
  - by destruct segs.
  - rewrite bind_cons, !length_app, length_enc_segment, IH by lia. lia.
Qed.

Lemma tail_drop {A} i (l : list A) : tail (drop i l) = drop (S i) l.
Proof. revert i. induction l as [|x l IH]; intros [|i]; cbn in *; done || apply IH. Qed.

Lemma describes_layout myAS segs s sigs algoID nlri size B :
  length segs = S (length sigs) ->
  B = (replicate 4 0 ++ enc_sig s ++ [0; 0] ++ le_bytes32 myAS) ++ signed_path segs sigs ++ nlri_octets algoID nlri ->
  size = Z.of_nat (length B) ->
  describes (mkHashMessage false size B (Z.of_nat (length segs))
               (layout size 4 [s] ++ layout size (4 + (length (enc_sig s) + 6)) sigs)) myAS segs (s :: sigs) algoID nlri.
Proof.
  intros Hlen HB Hsize. split; cbn [ownedByAPI bufferSize buffer segmentCount hashMessageValPtr]; [done..| |].
  { intros s1 sigs1 [= <- <-]. rewrite HB. unfold rfc8205_octets. by rewrite <- !(assoc_L (++)). }
  assert (forall off t, (off <= length B)%nat -> drop off B = t ->
            u16 (size - Z.of_nat off) = u16 (Z.of_nat (length t))) as Hl.
  { intros off t Ho <-. rewrite length_drop. f_equal. lia. }
  intros [|i] s1 t Hs Ht; cbn in Hs.
  - injection Hs as <-. injection Ht as <-. cbn [layout app]. do 2 eexists. split; [done|]. split; [done|].
    cbn [hashMessagePtr hashMessageLength].
    assert (drop (4 + length (enc_sig s) + 2) B = rfc8205_octets (le_bytes32 myAS) segs (s :: sigs) algoID nlri) as E.
    { rewrite HB. etransitivity; [|apply (drop_app_length (replicate 4 0 ++ enc_sig s ++ [0; 0]))].
      unfold rfc8205_octets. rewrite <- !(assoc_L (++)). f_equal. rewrite !length_app. simpl. lia. }
    split; [rewrite HB, <- !(assoc_L (++)); by apply bytes_at_middle|].
    split; [exact E|]. apply Hl; [|done]. rewrite HB, !length_app. simpl. lia.
  - unfold targets in Ht. cbn in Ht. apply list_lookup_fmap_Some in Ht as (sg & -> & Hsg).
    destruct (layout_lookup size (nlri_octets algoID nlri) sigs segs
                (replicate 4 0 ++ enc_sig s ++ [0; 0] ++ le_bytes32 myAS) i s1 sg) as (p & o & Hp & Ho & Hat & Hd & Hlen' & Hle);
      [done..|].
    rewrite <- HB in Hat, Hd, Hle. exists p, o. split; [|split; [done|split; [done|]]].
    { cbn [layout app lookup list_lookup]. rewrite <- Hp. f_equal. rewrite !length_app. done. }
    assert (be32 (sg_asn sg) ++ signed_path (drop (S i) segs) (drop (S i) sigs) ++ nlri_octets algoID nlri
            = rfc8205_octets (be32 (sg_asn sg)) (drop (S i) segs) (drop (S i) (s :: sigs)) algoID nlri) as E.
    { unfold rfc8205_octets. do 3 f_equal. cbn [drop]. by rewrite tail_drop. }
    change (_ :: _ :: be16 _) with (be32 (sg_asn sg)). rewrite <- E. split; [done|]. rewrite Hlen'. by apply Hl.
Qed.

Lemma fill_buffer_eq mem d algoID segs b pSeg sBlock nlri :
  v_nlri d = Some nlri -> nlri_wf nlri -> segs <> [] -> block_wf (length segs) b ->
  bytes_at mem pSeg (segs ≫= enc_segment) -> bytes_at mem sBlock (enc_block b) ->
  exists hm,
    fill_buffer mem d algoID (Z.of_nat (length segs)) pSeg sBlock (Z.of_nat (length (enc_block b))) = Ok (hm, bufferSize hm)
    /\ describes hm (v_myAS d) segs (sb_sigs b) algoID nlri.
Proof.
  intros Hv Hn Hne [Hlen Hw] Hp Hb. unfold fill_buffer. rewrite Hv.
  unfold enc_block in Hb. apply bytes_at_app in Hb as [_ Hb]. apply bytes_at_app in Hb as [_ Hb].
  rewrite <- Nat.add_assoc in Hb. cbn [length be16 Nat.add] in Hb.
  destruct (sb_sigs b) as [|s sigs] eqn:Hsigs; [by destruct segs|].
  rewrite bind_cons in Hb. apply bytes_at_app in Hb as [Hb1 Hb2]. apply Forall_cons in Hw as [Hw1 Hw].
  set (R := signed_path segs sigs ++ nlri_octets algoID nlri).
  set (size := buffer_size _ _ _).
  assert (Z.to_nat size = length (enc_sig s) + 6 + length R + 4)%nat as Hsz.
  { subst size R. unfold buffer_size, LEN_SECPATHSEGMENT, LEN_SIGBLOCK_HDR.
    rewrite length_enc_block, Hsigs, bind_cons, !length_app, length_nlri_octets by done.
    rewrite length_signed_path by (cbn [length] in Hlen; lia). lia. }
  assert (replicate (Z.to_nat size) 0 = replicate 4 0 ++ replicate (length (enc_sig s) + 6 + length R) 0) as ->
    by (rewrite Hsz, Nat.add_comm; apply replicate_add).
  rewrite Nat2Z.id, <- Hlen. cbn [length copy_segments].
  rewrite (copy_segment_first mem (v_myAS d) size (replicate 4 0) _ _ _ _ s) by (first [done|lia]).
  cbn [mbind outcome_bind]. rewrite Nat.add_sub_swap, Nat.sub_diag by lia. cbn [Nat.add].
  set (pre := replicate 4 0 ++ enc_sig s ++ [0; 0] ++ le_bytes32 (v_myAS d)).
  destruct (copy_rest mem (v_myAS d) size algoID nlri sigs segs 1 pre (length R) (sBlock + 3 + length (enc_sig s))
              pSeg ([] ++ layout size 4 [s]))%nat as (sp & pp & E); [done|done|by symmetry|done|done|done|done|].
  destruct (copy_segments _ _ _ _ _ _) as [c|]; [|done]. cbn [mbind outcome_bind] in E |- *. rewrite E.
  cbn [mbind outcome_bind c_used c_buf c_ptrs app]. fold R. 
  assert (size = Z.of_nat (length (pre ++ R))) as Esz.
  { subst pre. rewrite !length_app. cbn [length replicate le_bytes32]. lia. }
  rewrite <- Esz. match goal with |- exists _, Ok (?h, _) = _ /\ _ => exists h end. split; [done|].
  cbn [length] in Hlen. rewrite Hlen.
  assert (length pre = 4 + (length (enc_sig s) + 6))%nat as -> by (subst pre; rewrite !length_app; simpl; lia).
  by apply describes_layout.
Qed.

(** The buffer is hardly longer than the attribute. *)
Lemma buffer_length hm myAS segs sigs algoID nlri :
  describes hm myAS segs sigs algoID nlri -> segs <> [] -> length sigs = length segs -> nlri_wf nlri ->
  length (buffer hm) = (15 + 6 * length segs + length (sigs ≫= enc_sig) + prefixBLen nlri)%nat /\ (prefixBLen nlri <= 16)%nat.
Proof.
  intros Hd Hne Hlen Hn. destruct sigs as [|s sigs]; [by destruct segs|].
  rewrite (ds_buffer _ _ _ _ _ _ Hd s sigs eq_refl). unfold rfc8205_octets. cbn [tail].
  rewrite !length_app, length_signed_path, length_nlri_octets, bind_cons, length_app by (first [done|cbn in Hlen; lia]).
  split; [cbn [length replicate le_bytes32]; lia|]. destruct Hn as [Hl _]. unfold prefixBLen. zdiv.
Qed.

Lemma block_in_body segs blocks b : b ∈ blocks ->
  (5 + 6 * length segs + length (sb_sigs b ≫= enc_sig) <= length (enc_body segs blocks))%nat.
Proof.
  intros Hin. rewrite length_enc_body. apply list_elem_of_split in Hin as (l1 & l2 & ->).
  rewrite bind_app, bind_cons, !length_app, length_enc_block. lia.
Qed.

(** The octets of the origin, written into zeros. *)
Lemma copy_origin_zeros mem algoID nlri pre k sp pp ptrs seg :
  nlri_wf nlri -> bytes_at mem pp seg -> length seg = 6%nat -> (11 + prefixBLen nlri <= k)%nat ->
  exists c, copy_origin mem algoID nlri (mkCopy (pre ++ replicate k 0) (length pre) sp pp ptrs) = Ok c
    /\ c_used c = (length pre + 11 + prefixBLen nlri)%nat.
Proof.
  intros Hn Hs Hl Hk. unfold copy_origin. cbn [c_buf c_used c_sigPtr c_pathPtr c_ptrs].
  destruct (read_nlri nlri Hn) as [En Ln]. rewrite (read_bytes_bytes_at _ _ _ _ Hs) by done. cbn [mbind outcome_bind].
  rewrite write_bytes_zeros by lia. cbn [mbind outcome_bind].
  rewrite write_bytes_next by (rewrite ?length_app; cbn [length]; lia). cbn [mbind outcome_bind].
  rewrite En. cbn [mbind outcome_bind].
  rewrite write_bytes_next by (rewrite ?length_app, ?Ln, ?Hl; cbn [length]; lia). cbn [mbind outcome_bind].
  eexists. split; [reflexivity|]. cbn. lia.
Qed.

(** ** The whole function *)
Lemma generate_eq d ext segs blocks l algoID nlri status :
  v_bgpsec_path_attr d = Some (enc_attr ext segs blocks ++ l) -> v_hashMessage d = None ->
  v_nlri d = Some nlri -> nlri_wf nlri -> segs <> [] -> Forall (block_wf (length segs)) blocks ->
  Z.of_nat (length (enc_body segs blocks)) < 2 ^ (if ext : bool then 16 else 8) ->
  match List.find (has_algo algoID) blocks with
  | None => sca_generateHashMessage (Some d) algoID (Some status) = Ok (0, Some d, Some API_STATUS_ERR_USER1)
  | Some b => exists hm,
      sca_generateHashMessage (Some d) algoID (Some status)
      = Ok (bufferSize hm, Some (set_v_hashMessage d (Some hm)), Some API_STATUS_OK)
      /\ describes hm (v_myAS d) segs (sb_sigs b) algoID nlri
  end.
Proof.
  intros Ha Hh Hv Hn Hs Hw Hl.
  assert (Z.of_nat (length (enc_body segs blocks)) < 2 ^ 16) as Hl' by (destruct ext; lia). clear Hl.
  pose proof (length_enc_body segs blocks) as Hb. unfold sca_generateHashMessage. rewrite Ha, Hh.
  rewrite enc_attr_hdr, <- (assoc_L (++)), parse_header_at. cbn [mbind outcome_bind].
  set (hdr := enc_hdr ext _). set (mem := hdr ++ enc_body segs blocks ++ l).
  assert (bytes_at mem (length hdr) (enc_body segs blocks)) as Hat by (by apply bytes_at_middle).
  unfold enc_body in Hat. apply bytes_at_app in Hat as [H1 Hat]. apply bytes_at_app in Hat as [H2 H3].
  cbn [length be16] in H2. rewrite length_enc_segments in H3. cbn [length be16] in H3.
  rewrite (read16be_bytes_at _ _ _ H1). cbn [mbind outcome_bind].
  replace (Z.quot (2 + 6 * Z.of_nat (length segs)) (Z.of_nat LEN_SECPATHSEGMENT)) with (Z.of_nat (length segs))
    by (unfold LEN_SECPATHSEGMENT; rewrite Z.quot_div_nonneg by lia; zdiv).
  unfold LEN_SECPATH_HDR. rewrite (wrap_small 16 (_ - Z.of_nat 2)) by (unfold in_u; lia).
  replace (_ - _ - _) with (Z.of_nat (length (blocks ≫= enc_block))) by lia.
  rewrite wrap_small by (unfold in_u; lia). rewrite Nat2Z.id.
  replace (length hdr + Z.to_nat (2 + 6 * Z.of_nat (length segs)))%nat with (length hdr + 2 + 6 * length segs)%nat by lia.
  pose proof (find_sigBlock_at mem algoID blocks _ _ H3 (le_n _) ltac:(lia)) as Hf. cbv zeta in Hf.
  destruct (List.find _ _) as [b|] eqn:Ef.
  - destruct Hf as (o & -> & Ho). cbn [mbind outcome_bind].
    apply find_some in Ef as [Hin _]. apply list_elem_of_In, (proj1 (Forall_forall _ _) Hw) in Hin.
    destruct (fill_buffer_eq mem d algoID segs b (length hdr + 2) o nlri) as (hm & E & Hd); [done..|].
    rewrite E. cbn [mbind outcome_bind]. by exists hm.
  - rewrite Hf. cbn [mbind outcome_bind fmap option_fmap option_map]. do 4 f_equal. destruct d; cbn in *. by subst.
Qed.

(** C31 The message generated from a received BGPsec_PATH attribute is the one of
    RFC 8205: for the first signature block of the requested algorithm the buffer
    holds room for the next target, the latest signature, room for the own path
    segment and the octets this signature covers; each pointer pair of the message
    leads to a signature of the block and to the octets this signature covers.
    When no block has the algorithm, the call reports an error and leaves no
    message. *)
Theorem generateHashMessage_correct d ext segs blocks l algoID nlri status :
  v_bgpsec_path_attr d = Some (enc_attr ext segs blocks ++ l) -> v_hashMessage d = None ->
  v_nlri d = Some nlri -> nlri_wf nlri -> segs <> [] -> Forall (block_wf (length segs)) blocks ->
  Z.of_nat (length (enc_body segs blocks)) < 2 ^ (if ext : bool then 16 else 8) ->
  match List.find (has_algo algoID) blocks with
  | None => sca_generateHashMessage (Some d) algoID (Some status) = Ok (0, Some d, Some API_STATUS_ERR_USER1)
  | Some b => exists hm,
      sca_generateHashMessage (Some d) algoID (Some status)
      = Ok (bufferSize hm, Some (set_v_hashMessage d (Some hm)), Some API_STATUS_OK)
      /\ describes hm (v_myAS d) segs (sb_sigs b) algoID nlri
  end.
Proof. apply generate_eq. Qed.

(** ** The message of an originated path *)

Lemma generateOrigin_eq targetAS sg nlri algoID :
  nlri_wf nlri ->
  sca_generateOriginHashMessage targetAS (enc_segment sg) nlri algoID
  = let octets := rfc8205_octets (le_bytes32 targetAS) [sg] [] algoID nlri in
    Ok (mkHashMessage true (Z.of_nat (length octets)) octets 1
          [mkHashMessagePtr None 0 (u16 (Z.of_nat (length octets)))]).
Proof.
  intros Hn. unfold sca_generateOriginHashMessage, LEN_SECPATHSEGMENT. destruct (read_nlri nlri Hn) as [En Ln].
  pose proof (write_bytes_zeros [] (4 + 6 + 1 + (prefixBLen nlri + 4)) (le_bytes32 targetAS)) as E0.
  cbn [app length] in E0. rewrite E0 by (cbn [length le_bytes32]; lia). cbn [mbind outcome_bind].
  rewrite length_le_bytes32.
  rewrite (read_bytes_bytes_at (enc_segment sg) 0 (enc_segment sg) 6) by (reflexivity || apply bytes_at_refl).
  cbn [mbind outcome_bind].
  rewrite write_bytes_next by (rewrite ?length_enc_segment; (done || lia)). cbn [mbind outcome_bind].
  rewrite write_bytes_next by (rewrite ?length_enc_segment; cbn [length]; (done || lia)). cbn [mbind outcome_bind].
  rewrite En. cbn [mbind outcome_bind].
  rewrite write_bytes_next by (rewrite ?Ln, ?length_enc_segment; cbn [length]; (done || lia)). cbn [mbind outcome_bind].
  rewrite length_enc_segment.
  rewrite Ln. cbn [length]. replace (4 + 6 + 1 + (prefixBLen nlri + 4) - 4 - 6 - 1 - (prefixBLen nlri + 4))%nat with 0%nat by lia.
  cbn [replicate]. rewrite app_nil_r. cbv zeta.
  assert (((le_bytes32 targetAS ++ enc_segment sg) ++ [algoID]) ++ take (prefixBLen nlri + 4) (prefix_bytes nlri)
          = rfc8205_octets (le_bytes32 targetAS) [sg] [] algoID nlri) as ->
    by (unfold rfc8205_octets, nlri_octets; by rewrite <- !(assoc_L (++))).
  assert (length (rfc8205_octets (le_bytes32 targetAS) [sg] [] algoID nlri) = 4 + 6 + 1 + (prefixBLen nlri + 4))%nat as ->;
    [|done].
  unfold rfc8205_octets. rewrite !length_app, length_nlri_octets by done. simpl. lia.
Qed.

(** ** The algorithm of a message *)

(** The octet the code reads is the first one of the prefix: the code counts the
    AS number of the origin as five octets. *)
Lemma getAlgorithmID_eq hm myAS segs sigs algoID nlri :
  describes hm myAS segs sigs algoID nlri -> segs <> [] -> length sigs = length segs ->
  Z.of_nat (length (buffer hm)) < 2 ^ 16 ->
  sca_getAlgorithmID (Some hm) = Ok (UpdateCache.s_afi nlri mod 256).
Proof.
  intros Hd Hne Hlen Hsz. unfold sca_getAlgorithmID. rewrite (ds_count _ _ _ _ _ _ Hd).
  assert (0 < length segs)%nat as Hpos by (destruct segs; [done|simpl; lia]).
  rewrite (proj2 (Z.eqb_neq _ _)) by lia.
  replace (Z.to_nat (Z.of_nat (length segs) - 1)) with (length segs - 1)%nat by lia.
  destruct (lookup_lt_is_Some_2 sigs (length segs - 1)) as [s Hs]; [lia|].
  destruct (lookup_lt_is_Some_2 (targets myAS segs) (length segs - 1)) as [t Ht];
    [unfold targets; cbn [length]; rewrite length_fmap; lia|].
  destruct (ds_ptr _ _ _ _ _ _ Hd _ _ _ Hs Ht) as (p & o & Hp & _ & _ & Hdr & Hl).
  unfold arr_get. rewrite Hp. cbn [mbind outcome_bind].
  assert (exists sg, drop (length segs - 1) segs = [sg]) as [sg Hsg].
  { destruct (lookup_lt_is_Some_2 segs (length segs - 1)) as [sg Hsg]; [lia|]. exists sg.
    rewrite (drop_S _ _ _ Hsg), drop_ge by lia. done. }
  assert (length t = 4%nat) as Ht4.
  { revert Ht. unfold targets. destruct (length segs - 1)%nat as [|j]; [by intros [= <-]|].
    cbn. intros H. by apply list_lookup_fmap_Some in H as (? & -> & _). }
  assert (tail (drop (length segs - 1) sigs) = []) as Htl by (rewrite tail_drop, drop_ge by lia; done).
  unfold rfc8205_octets in Hdr, Hl. rewrite Hsg, Htl in Hdr, Hl. cbn [signed_path] in Hdr, Hl.
  assert (drop (hashMessagePtr p + 11) (buffer hm) = take (prefixBLen nlri + 4) (prefix_bytes nlri)) as Hd11.
  { rewrite <- drop_drop, Hdr. destruct t as [|t0 [|t1 [|t2 [|t3 [|]]]]]; try done. }
  assert (11 <= length (drop (hashMessagePtr p) (buffer hm)))%nat as Hlen'
    by (rewrite Hdr, !length_app, Ht4, length_enc_segment; simpl; lia).
  rewrite <- Hdr, length_drop in Hl. rewrite length_drop in Hlen'.
  rewrite wrap_small in Hl by (unfold in_u; lia). rewrite Hl, (proj2 (Z.leb_le 11 _)) by lia.
  unfold read8. rewrite <- (Nat.add_0_r (hashMessagePtr p + 11)), <- lookup_drop, Hd11.
  by rewrite Nat.add_comm.
Qed.

(** ** The algorithms of an attribute *)

Lemma walk_end fuel mem off r idx algos :
  (length mem <= off)%nat -> 0 < r -> (idx < 2)%nat ->
  walk_sigBlocks (S fuel) mem off r idx algos = Fault OutOfBounds.
Proof.
  intros Ho Hr Hi. cbn [walk_sigBlocks]. rewrite (proj2 (Z.leb_gt r 0)), (proj2 (Nat.ltb_lt idx _)) by done.
  unfold read16be, read8. by rewrite (proj2 (lookup_ge_None mem off) Ho).
Qed.

Lemma walk_block fuel mem off r idx algos b :
  bytes_at mem off (enc_block b) -> 0 < r -> (idx < 2)%nat ->
  walk_sigBlocks (S fuel) mem off r idx algos
  = walk_sigBlocks fuel mem (off + length (enc_block b)) (u16 (r - Z.of_nat (length (enc_block b)))) (S idx)
      (<[idx := sb_algo b]> algos).
Proof.
  intros Hb Hr Hi. pose proof (length_enc_block b) as Lb. cbn [walk_sigBlocks].
  rewrite (proj2 (Z.leb_gt r 0)), (proj2 (Nat.ltb_lt idx _)) by done.
  unfold enc_block in Hb. apply bytes_at_app in Hb as [H1 H2]. apply bytes_at_app in H2 as [H2 _].
  cbn [length be16] in H2. rewrite (read16be_bytes_at _ _ _ H1). cbn [mbind outcome_bind].
  rewrite (read8_bytes_at _ _ _ H2). cbn [mbind outcome_bind].
  replace (3 + Z.of_nat _) with (Z.of_nat (length (enc_block b))) by lia. by rewrite Nat2Z.id.
Qed.

(** The code subtracts the attribute header from the length, which does not
    include it. *)
Lemma getAlgorithmIDs_eq ext segs blocks status a1 a2 :
  segs <> [] -> (length blocks <= 2)%nat -> Forall (block_wf (length segs)) blocks ->
  Z.of_nat (length (enc_body segs blocks)) < 2 ^ (if ext : bool then 16 else 8) ->
  sca_getAlgorithmIDs (Some (enc_attr ext segs blocks)) (Some status) (Some a1) (Some a2)
  = match blocks with
    | [_; b2] => Ok (API_FAILURE, Some (Z.lor status API_STATUS_ERR_SYNTAX), Some (sb_algo b2), Some a2)
    | _ => Fault OutOfBounds
    end.
Proof.
  intros Hs Hn Hw Hl.
  assert (Z.of_nat (length (enc_body segs blocks)) < 2 ^ 16) as Hl' by (destruct ext; lia). clear Hl.
  pose proof (length_enc_body segs blocks) as Hb.
  assert (forall b, b ∈ blocks -> 25 <= length (enc_block b))%nat as H25.
  { intros b Hin. apply (proj1 (Forall_forall _ _) Hw) in Hin as [Hlen Hf]. rewrite length_enc_block.
    destruct (sb_sigs b) as [|s sg]; [by destruct segs|]. apply Forall_cons in Hf as [[Hk _] _].
    rewrite bind_cons, length_app, length_enc_sig by done. lia. }
  unfold sca_getAlgorithmIDs. change (S SCA_MAX_SIGBLOCK_COUNT) with 3%nat. rewrite enc_attr_hdr, <- (app_nil_r (enc_body segs blocks)), parse_header_at.
  rewrite app_nil_r. cbn [mbind outcome_bind]. set (hdr := enc_hdr ext _).
  assert (3 <= length hdr <= 4)%nat as Hh by (subst hdr; destruct ext; simpl; lia).
  set (mem := hdr ++ enc_body segs blocks).
  assert (bytes_at mem (length hdr) (enc_body segs blocks)) as Hat
    by (subst mem; rewrite <- (app_nil_r (enc_body _ _)) at 1; by apply bytes_at_middle).
  assert (length mem = length hdr + length (enc_body segs blocks))%nat as Hmem by (subst mem; by rewrite length_app).
  unfold enc_body in Hat. apply bytes_at_app in Hat as [H1 Hat]. apply bytes_at_app in Hat as [_ H3].
  rewrite length_enc_segments in H3. cbn [length be16] in H3.
  rewrite (read16be_bytes_at _ _ _ H1). cbn [mbind outcome_bind].
  replace (length hdr + Z.to_nat (2 + 6 * Z.of_nat (length segs)))%nat with (length hdr + 2 + 6 * length segs)%nat by lia.
  set (at0 := (length hdr + 2 + 6 * length segs)%nat) in *.
  assert (u16 (u16 (Z.of_nat (length (enc_body segs blocks)) - Z.of_nat (length hdr)) - (2 + 6 * Z.of_nat (length segs)))
          = u16 (Z.of_nat (length (blocks ≫= enc_block)) - Z.of_nat (length hdr))) as ->
    by (unfold wrap; rewrite Zminus_mod_idemp_l; f_equal; lia).
  assert (0 < u16 (0 - Z.of_nat (length hdr))) as Hlast by (unfold wrap; zdiv).
  assert (at0 + length (blocks ≫= enc_block) = length mem)%nat as Hend by (subst at0; lia).
  assert (forall x : nat, (25 <= x)%nat -> Z.of_nat x < 2 ^ 16 -> u16 (Z.of_nat x - Z.of_nat (length hdr)) = Z.of_nat x - Z.of_nat (length hdr)) as Hsm
    by (intros x Hx Hx2; rewrite wrap_small by (unfold in_u; lia); done).
  assert (forall x y, u16 (Z.of_nat (x + y) - Z.of_nat (length hdr) - Z.of_nat x) = u16 (Z.of_nat y - Z.of_nat (length hdr))) as Hsub
    by (intros x y; f_equal; lia).
  destruct blocks as [|b1 [|b2 [|]]]; [| | |simpl in Hn; lia]; rewrite ?bind_cons, ?bind_nil, ?app_nil_r in *.
  - change (length ([] ≫= enc_block)) with 0%nat in *. by rewrite walk_end by (done || lia).
  - pose proof (H25 b1 ltac:(set_solver)) as L1. rewrite Hsm by lia.
    rewrite (walk_block _ _ _ _ _ _ b1) by (first [done|lia]).
    replace (length (enc_block b1)) with (length (enc_block b1) + 0)%nat at 2 by lia. rewrite Hsub.
    by rewrite walk_end by (first [done|lia]).
  - pose proof (H25 b1 ltac:(set_solver)) as L1. pose proof (H25 b2 ltac:(set_solver)) as L2.
    rewrite length_app in *. apply bytes_at_app in H3 as [H3 H4]. rewrite Hsm by lia.
    rewrite (walk_block _ _ _ _ _ _ b1) by (first [done|lia]). rewrite Hsub, Hsm by lia.
    rewrite (walk_block _ _ _ _ _ _ b2) by (first [done|lia]).
    replace (length (enc_block b2)) with (length (enc_block b2) + 0)%nat at 2 by lia. rewrite Hsub.
    cbn [walk_sigBlocks]. change (Z.of_nat 0) with 0. rewrite (proj2 (Z.leb_gt _ 0)) by done. done.
Qed.

(** ** Lengths claimed by signature segments are not checked *)

Lemma read_bytes_length mem off n bs : read_bytes mem off n = Ok bs -> length bs = n.
Proof.
  unfold read_bytes. destruct (decide _); [|done]. intros [= <-]. rewrite length_take, length_drop. lia.
Qed.

Lemma write_bytes_fits mem off bs mem' : write_bytes mem off bs = Ok mem' -> (off + length bs <= length mem)%nat.
Proof. unfold write_bytes. by destruct (decide _). Qed.

Lemma copy_segment_bounds mem myAS size segment c c' :
  copy_segment mem myAS size segment c = Ok c' ->
  exists siglen, read16be mem (c_sigPtr c + 20) = Ok siglen
    /\ length (c_buf c') = length (c_buf c) /\ c_used c' = (c_used c + (22 + Z.to_nat siglen) + 6)%nat.
Proof.
  unfold copy_segment. intros H. bind_inv H. rename a into siglen. bind_inv H. bind_inv H.
  apply write_bytes_length in E1. exists siglen. split; [done|].
  destruct (segment =? 0)%nat.
  - bind_inv H. apply write_bytes_length in E2. injection H as <-. cbn [c_buf c_used]. by rewrite E2.
  - bind_inv H. bind_inv H. apply write_bytes_length in E3. injection H as <-. cbn [c_buf c_used]. by rewrite E3.
Qed.

Lemma copy_origin_bounds mem algoID nlri c c' :
  copy_origin mem algoID nlri c = Ok c' -> (c_used c + 7 + (prefixBLen nlri + 4) <= length (c_buf c))%nat.
Proof.
  unfold copy_origin. intros H. bind_inv H. bind_inv H. apply write_bytes_length in E0.
  bind_inv H. apply write_bytes_length in E1. bind_inv H. bind_inv H.
  apply read_bytes_length in E2. apply write_bytes_fits in E3. lia.
Qed.

(** A read behind an area or a write behind one. *)
Definition memory_fault (f : fault) : Prop := f = OutOfBounds \/ f = BufferOverflow.
Definition memory_safe {A} (o : outcome A) : Prop := forall f, o = Fault f -> memory_fault f.

Lemma memory_safe_bind {A B} (o : outcome A) (k : A -> outcome B) :
  memory_safe o -> (forall a, memory_safe (k a)) -> memory_safe (o ≫= k).
Proof. intros Ho Hk f. destruct o as [a|g]; cbn; [apply Hk|]. intros [= <-]. by apply Ho. Qed.
Lemma memory_safe_Ok {A} (a : A) : memory_safe (Ok a).
Proof. by intros f. Qed.
Lemma memory_safe_read8 mem off : memory_safe (read8 mem off).
Proof. intros f. unfold read8. destruct (mem !! off); [done|]. intros [= <-]. by left. Qed.
Lemma memory_safe_read_bytes mem off n : memory_safe (read_bytes mem off n).
Proof. intros f. unfold read_bytes. destruct (decide _); [done|]. intros [= <-]. by left. Qed.
Lemma memory_safe_write_bytes mem off bs : memory_safe (write_bytes mem off bs).
Proof. intros f. unfold write_bytes. destruct (decide _); [done|]. intros [= <-]. by right. Qed.
#[local] Hint Resolve memory_safe_bind memory_safe_Ok memory_safe_read8 memory_safe_read_bytes memory_safe_write_bytes : memory_safe.

Lemma memory_safe_segment mem myAS size segment c : memory_safe (copy_segment mem myAS size segment c).
Proof. unfold copy_segment, read16be. destruct (_ =? _)%nat; auto 20 with memory_safe. Qed.
Lemma memory_safe_origin mem algoID nlri c : memory_safe (copy_origin mem algoID nlri c).
Proof. unfold copy_origin. auto 20 with memory_safe. Qed.

(** C37 The buffer is sized by the length of the signature block, the copies by the
    length each signature segment claims: when the segment of a path of one hop
    claims more than its block holds, the call reads behind the attribute or
    another area, or writes behind the buffer on the heap. *)
Theorem claimed_length_overflows d ext sg (B : Z) algoID ski (L : Z) rest nlri status :
  v_bgpsec_path_attr d
  = Some (enc_hdr ext (Z.to_nat (8 + B)) ++ be16 8 ++ enc_segment sg ++ be16 B ++ [algoID] ++ ski ++ be16 L ++ rest) ->
  v_hashMessage d = None -> v_nlri d = Some nlri -> length ski = SKI_LENGTH ->
  0 < B -> 8 + B < 2 ^ (if ext : bool then 16 else 8) -> 0 <= L -> B < 25 + L ->
  sca_generateHashMessage (Some d) algoID (Some status) = Fault OutOfBounds
  \/ sca_generateHashMessage (Some d) algoID (Some status) = Fault BufferOverflow.
Proof.
  intros Ha Hh Hv Hski HB Hlen HL Hover.
  enough (exists f, sca_generateHashMessage (Some d) algoID (Some status) = Fault f /\ memory_fault f) as (f & -> & [->| ->]);
    [by left|by right|].
  assert (8 + B < 2 ^ 16) as Hl' by (destruct ext; lia). clear Hlen.
  unfold sca_generateHashMessage. rewrite Ha, Hh, parse_header_at. cbn [mbind outcome_bind].
  rewrite Z2Nat.id by lia. set (hdr := enc_hdr ext _). set (body := be16 8 ++ _). set (mem := hdr ++ body).
  assert (bytes_at mem (length hdr) body) as Hat
    by (subst mem; rewrite <- (app_nil_r body) at 1; by apply bytes_at_middle).
  apply bytes_at_app in Hat as [H1 Hat]. apply bytes_at_app in Hat as [H2 Hat].
  apply bytes_at_app in Hat as [H3 Hat]. apply bytes_at_app in Hat as [H4 Hat].
  apply bytes_at_app in Hat as [_ Hat]. apply bytes_at_app in Hat as [H5 _].
  rewrite Hski in H5. cbn [length be16 enc_segment app be32] in *. 
  rewrite (read16be_bytes_at _ _ _ H1). cbn [mbind outcome_bind]. unfold LEN_SECPATHSEGMENT, LEN_SECPATH_HDR.
  rewrite (wrap_small 16 (8 + B - Z.of_nat 2)) by (unfold in_u; lia).
  replace (8 + B - Z.of_nat 2 - (8 - Z.of_nat 2)) with B by lia. rewrite wrap_small by (unfold in_u; lia).
  assert (exists n, Z.to_nat B = S n) as [n ->] by (exists (Z.to_nat B - 1)%nat; lia).
  cbn [find_sigBlock]. rewrite (proj2 (Z.eqb_neq B 0)) by lia.
  replace (length hdr + Z.to_nat 8)%nat with (length hdr + 2 + 6)%nat by lia.
  rewrite (read16be_bytes_at _ _ _ H3). cbn [mbind outcome_bind].
  rewrite (proj2 (Z.ltb_ge _ _)), (proj2 (Z.eqb_neq B 0)) by lia. cbn [orb].
  rewrite (read8_bytes_at _ _ _ H4). cbn [mbind outcome_bind]. rewrite Z.eqb_refl. cbn [mbind outcome_bind].
  unfold fill_buffer. rewrite Hv. change (Z.to_nat (Z.quot 8 (Z.of_nat 6))) with 1%nat. cbn [copy_segments].
  destruct (copy_segment _ _ _ _ _) as [c|f] eqn:E1; [|eexists; split; [done|by eapply memory_safe_segment]]. cbn [mbind outcome_bind].
  destruct (copy_origin _ _ _ _) as [c'|f] eqn:E2; [exfalso|eexists; split; [done|by eapply memory_safe_origin]].
  apply copy_segment_bounds in E1 as (siglen & Hr & Hb & Hu). apply copy_origin_bounds in E2.
  cbn [c_buf c_used c_sigPtr] in *.
  rewrite (read16be_bytes_at mem _ L) in Hr by (unfold LEN_SIGBLOCK_HDR; revert H5; unfold SKI_LENGTH; by rewrite <- !Nat.add_assoc).
  injection Hr as <-. rewrite Hb, length_replicate, Hu in E2.
  unfold buffer_size, LEN_SECPATHSEGMENT, LEN_SIGBLOCK_HDR in E2. change (Z.quot 8 (Z.of_nat 6)) with 1 in E2. lia.
Qed.

End HashMessageTheorems.
