(* ===== verification/KeyStorage.v ===== *)
(** * The key storage of the OpenSSL plug-in (srx-crypto-api/bgpsec_openssl/key_storage.c): data and operations

    Keys are kept by AS number and SKI in 256 buckets, each a doubly linked list
    that is sorted by the AS number as the host loads it.  The elements of the lists
    live in a heap.  An element has an array of DER encoded keys and one of the
    OpenSSL keys made of them; several keys of one AS can have the same SKI.
    OpenSSL and the files that hold keys are the class [EcKeys].  The theorems are
    in KeyStorageTheorems. *)
From S2P Require Import Prelude SrxDefs UpdateCache HashMessage.

Module KeyStorage.
Import HashMessage.

(** ** Data *)
Definition KS_BUCKETS : nat := 256.

(** [BGPSecKey] *)
Record BGPSecKey := mkBGPSecKey {
  k_algoID : Z;
  k_asn : Z;
  k_ski : list Z;
  k_keyLength : Z;
  k_keyData : option (list Z)
}.

Inductive KS_Key_Type := ks_eckey_e | ks_derkey_e.

(** An element of an array on the heap: a pointer, unless it was never written. *)
Inductive slot (A : Type) := Uninit | Slot (p : option A).
Arguments Uninit {A}.
Arguments Slot {A} p.

(** What the plug-in gets from OpenSSL ([d2i_ECPrivateKey] or [d2i_EC_PUBKEY], and
    [EC_KEY_check_key]) and from the key files ([impl_loadKey]). *)
Class EcKeys (E : Type) := {
  d2i : bool -> option (list Z) -> Z -> option E;
  EC_KEY_check_key : E -> bool;
  impl_loadKey : BGPSecKey -> bool -> option (list Z)
}.

Section ops.
Context {E : Type} `{EcKeys E}.

Record KS_Key_Element := mkElement {
  prev : option positive;
  next : option positive;
  e_asn : Z;
  e_source : Z;
  e_ski : list Z;
  derKey : list (slot BGPSecKey);
  ec_key : list (slot E);
  noKeys : Z
}.

(** A storage, with the elements allocated for it and the addresses freed. *)
Record KeyStorage := mkKeyStorage {
  algorithmID : Z;
  isPrivate : bool;
  head : list (option positive);
  size : Z;
  elems : gmap positive KS_Key_Element;
  freed : gset positive
}.
Implicit Types (storage : KeyStorage) (elem : KS_Key_Element) (key : BGPSecKey).

Definition set_prev elem p : KS_Key_Element :=
  mkElement p (next elem) (e_asn elem) (e_source elem) (e_ski elem) (derKey elem) (ec_key elem) (noKeys elem).
Definition set_next elem p : KS_Key_Element :=
  mkElement (prev elem) p (e_asn elem) (e_source elem) (e_ski elem) (derKey elem) (ec_key elem) (noKeys elem).
Definition set_keys elem dk ek n : KS_Key_Element :=
  mkElement (prev elem) (next elem) (e_asn elem) (e_source elem) (e_ski elem) dk ek n.
Definition set_head storage (b : nat) p : KeyStorage :=
  mkKeyStorage (algorithmID storage) (isPrivate storage) (<[b := p]> (head storage)) (size storage) (elems storage) (freed storage).
Definition set_size storage (n : Z) : KeyStorage :=
  mkKeyStorage (algorithmID storage) (isPrivate storage) (head storage) (u32 n) (elems storage) (freed storage).
Definition put storage (a : positive) elem : KeyStorage :=
  mkKeyStorage (algorithmID storage) (isPrivate storage) (head storage) (size storage) (<[a := elem]> (elems storage)) (freed storage).
Definition drop_elem storage (a : positive) : KeyStorage :=
  mkKeyStorage (algorithmID storage) (isPrivate storage) (head storage) (size storage) (delete a (elems storage)) ({[a]} ∪ freed storage).
Definition fresh_elem storage : positive := fresh (dom (elems storage) ∪ freed storage).
(** A walk along a list visits every element once. *)
Definition walk_fuel storage : nat := S (base.size (elems storage)).

Definition get_slot {A} (l : list (slot A)) (i : nat) : outcome (option A) :=
  s ← arr_get l i; match s with Uninit => Fault UninitRead | Slot p => Ok p end.
(** [realloc] of an array to [n] elements. *)
Definition realloc {A} (l : list (slot A)) (n : nat) : list (slot A) := take n l ++ replicate (n - length l) Uninit.
(** [memcmp] of key data with the [n] bytes of another key is 0. *)
Definition same_data (a b : option (list Z)) (n : Z) : outcome bool :=
  if n =? 0 then Ok true else
  match a, b with
  | Some x, Some y => x ← read_bytes x 0 (Z.to_nat n); y ← read_bytes y 0 (Z.to_nat n); Ok (memcmp x y =? 0)
  | _, _ => Fault NullDeref
  end.

(** ** Helpers *)
Definition _ks_getBucket (asn : Z) : nat :=
  Z.to_nat (u8 (u32 asn / 2 ^ 24 + (asn / 2 ^ 16) mod 256 + (asn / 2 ^ 8) mod 256 + asn mod 256)).

(** [_ks_clone]: the data is copied when there is any. *)
Definition _ks_clone key : outcome BGPSecKey :=
  if k_keyLength key =? 0 then Ok (mkBGPSecKey (k_algoID key) (k_asn key) (k_ski key) 0 None) else
  match k_keyData key with
  | None => Fault NullDeref
  | Some d =>
      d ← read_bytes d 0 (Z.to_nat (k_keyLength key));
      Ok (mkBGPSecKey (k_algoID key) (k_asn key) (k_ski key) (k_keyLength key) (Some d))
  end.

(** The key or [None], and the status with the bits of a failure added. *)
Definition _ks_convertKey (keyData : option (list Z)) (keyLength : Z) (isPrivate : bool) (status : Z) : option E * Z :=
  match d2i isPrivate keyData keyLength with
  | Some k => if EC_KEY_check_key k then (Some k, status) else (None, Z.lor status API_STATUS_ERR_INVLID_KEY)
  | None => (None, Z.lor status API_STATUS_ERR_NO_DATA)
  end.

(** [sca_loadKey] *)
Definition sca_loadKey key (fPrivate : bool) (status : Z) : BGPSecKey * Z :=
  match impl_loadKey key fPrivate with
  | Some d => (mkBGPSecKey (k_algoID key) (k_asn key) (k_ski key) (Z.of_nat (length d)) (Some d), status)
  | None => (key, Z.lor (Z.lor status API_STATUS_ERR_KEY_IO) API_STATUS_INFO_KEY_NOTFOUND)
  end.

(** The new element, not linked yet, and the status, which is assigned. *)
Definition _ks_createKS_Element key (convert isPrivate : bool) : outcome (option KS_Key_Element * Z) :=
  k ← _ks_clone key;
  let elem dk ek := mkElement None None (k_asn key) 0 (k_ski key) [Slot (Some dk)] [Slot ek] 1 in
  if negb convert then Ok (Some (elem k None), API_STATUS_OK) else
  let '(k, myStatus) := match k_keyData k with
                        | None => sca_loadKey k isPrivate API_STATUS_OK
                        | Some _ => (k, API_STATUS_OK)
                        end in
  match k_keyData k with
  | None => Ok (Some (elem k None), Z.lor myStatus API_STATUS_ERR_NO_DATA)
  | Some _ =>
      let '(ec, myStatus) := _ks_convertKey (k_keyData k) (k_keyLength k) isPrivate myStatus in
      match ec with
      | None => Ok (None, Z.lor myStatus API_STATUS_ERR_NO_DATA)
      | Some _ => Ok (Some (elem k ec), myStatus)
      end
  end.

(** ** Finding an element *)

(** The loop of [ks_getKey] and [ks_delKey] up to the element of the AS number and
    the SKI; the status is the one of a search that ends early. *)
Fixpoint find_elem (fuel : nat) storage (p : option positive) (asn : Z) (ski : list Z) : outcome (option positive * Z) :=
  match p with
  | None => Ok (None, API_STATUS_OK)
  | Some a =>
      match fuel with
      | O => Fault OutOfFuel
      | S fuel' =>
          elem ← deref (elems storage) a;
          if e_asn elem <? asn then find_elem fuel' storage (next elem) asn ski
          else if asn <? e_asn elem then Ok (None, API_STATUS_INFO_KEY_NOTFOUND)
          else if negb (memcmp (e_ski elem) ski =? 0) then find_elem fuel' storage (next elem) asn ski
          else Ok (Some a, API_STATUS_OK)
      end
  end.

(** The loop that makes the OpenSSL keys that are missing, from [idx] on. *)
Fixpoint load_keys (n idx : nat) (isPrivate : bool) (dk : list (slot BGPSecKey)) (ek : list (slot E)) (myStatus : Z)
    : outcome (list (slot E) * Z) :=
  match n with
  | O => Ok (ek, myStatus)
  | S n' =>
      e ← get_slot ek idx;
      match e with
      | Some _ => load_keys n' (S idx) isPrivate dk ek myStatus
      | None =>
          d ← get_slot dk idx;
          match d with
          | None => load_keys n' (S idx) isPrivate dk ek (Z.lor myStatus API_STATUS_ERR_USER1)
          | Some k =>
              let '(e, myStatus) := _ks_convertKey (k_keyData k) (k_keyLength k) isPrivate myStatus in
              let myStatus := if Z.land myStatus API_STATUS_ERR_NO_DATA =? 0 then myStatus
                              else Z.lor myStatus API_STATUS_ERR_USER1 in
              load_keys n' (S idx) isPrivate dk (<[idx := Slot e]> ek) myStatus
          end
      end
  end.

(** The array a search returns. *)
Inductive KS_Keys := EcArray (l : list (slot E)) | DerArray (l : list (slot BGPSecKey)).

(** The storage, the array, the number of keys when it is set, and the status. *)
Definition ks_getKey (storage : option KeyStorage) (ski : list Z) (asn : Z) (kType : KS_Key_Type)
    : outcome (option KeyStorage * option KS_Keys * option Z * Z) :=
  match storage with
  | None => Ok (None, None, None, Z.lor API_STATUS_ERR_NO_DATA API_STATUS_INFO_KEY_NOTFOUND)
  | Some st =>
      p ← arr_get (head st) (_ks_getBucket asn);
      '(a, myStatus) ← find_elem (walk_fuel st) st p asn ski;
      match a with
      | None => Ok (storage, None, None, Z.lor myStatus API_STATUS_INFO_KEY_NOTFOUND)
      | Some a =>
          elem ← deref (elems st) a;
          match kType with
          | ks_derkey_e => Ok (storage, Some (DerArray (derKey elem)), Some (noKeys elem), myStatus)
          | ks_eckey_e =>
              '(ek, myStatus) ← load_keys (Z.to_nat (noKeys elem)) 0 (isPrivate st) (derKey elem) (ec_key elem) myStatus;
              Ok (Some (put st a (set_keys elem (derKey elem) ek (noKeys elem))), Some (EcArray ek), Some (noKeys elem), myStatus)
          end
      end
  end.

(** ** Removing an element *)

(** The loop that frees the keys reads every slot. *)
Fixpoint free_keys (n idx : nat) (dk : list (slot BGPSecKey)) (ek : list (slot E)) : outcome unit :=
  match n with
  | O => Ok tt
  | S n' => _ ← get_slot dk idx; _ ← get_slot ek idx; free_keys n' (S idx) dk ek
  end.

(** [elem->prev] is cleared before it is copied to the next element. *)
Definition _ks_freeKS_Elem storage (bucket : nat) (a : positive) : outcome KeyStorage :=
  elem ← deref (elems storage) a;
  let storage := set_size storage (size storage - noKeys elem) in
  storage ← match prev elem with
            | Some p => pe ← deref (elems storage) p; Ok (put storage p (set_next pe (next elem)))
            | None => Ok (set_head storage bucket (next elem))
            end;
  storage ← match next elem with
            | Some n => ne ← deref (elems storage) n; Ok (put storage n (set_prev ne None))
            | None => Ok storage
            end;
  _ ← free_keys (Z.to_nat (noKeys elem)) 0 (derKey elem) (ec_key elem);
  Ok (drop_elem storage a).

(** ** Operations *)
Definition ks_init (algoID : Z) (isPrivate : bool) : KeyStorage :=
  mkKeyStorage algoID isPrivate (replicate KS_BUCKETS None) 0 ∅ ∅.

(** The loop of [ks_delKey] over the keys of an element; [noKeys] goes down while
    the loop runs.  The fuel is the number of keys. *)
Fixpoint del_loop (fuel idx : nat) key (deleted : bool) (dk : list (slot BGPSecKey)) (ek : list (slot E)) (n : Z)
    : outcome (bool * list (slot BGPSecKey) * list (slot E) * Z) :=
  if n <=? Z.of_nat idx then Ok (deleted, dk, ek, n) else
  match fuel with
  | O => Fault OutOfFuel
  | S fuel' =>
      if deleted then
        d ← arr_get dk idx; e ← arr_get ek idx;
        del_loop fuel' (S idx) key true (<[idx := Slot None]> (<[(idx - 1)%nat := d]> dk))
          (<[idx := Slot None]> (<[(idx - 1)%nat := e]> ek)) n
      else
        d ← get_slot dk idx;
        match d with
        | None => Fault NullDeref
        | Some k =>
            same ← (if k_keyLength k =? k_keyLength key then same_data (k_keyData k) (k_keyData key) (k_keyLength key)
                    else Ok false);
            if same : bool then
              _ ← get_slot ek idx;
              del_loop fuel' (S idx) key true (<[idx := Slot None]> dk) (<[idx := Slot None]> ek) (n - 1)
            else del_loop fuel' (S idx) key false dk ek n
        end
  end.

(** The arrays are reallocated to the size of one pointer plus [noKeys] bytes. *)
Definition shrink {A} (l : list (slot A)) (n : Z) : list (slot A) := take (Z.to_nat ((8 + n) / 8)) l.

Definition del_elem storage (bucket : nat) (a : positive) key : outcome KeyStorage :=
  elem ← deref (elems storage) a;
  match k_keyData key with
  | None => _ks_freeKS_Elem (set_size storage (size storage - noKeys elem)) bucket a
  | Some _ =>
      '(deleted, dk, ek, n) ← del_loop (Z.to_nat (noKeys elem)) 0 key false (derKey elem) (ec_key elem) (noKeys elem);
      if negb deleted then Ok storage else
      let storage := set_size storage (size storage - 1) in
      if n =? 0 then _ks_freeKS_Elem (put storage a (set_keys elem dk ek n)) bucket a
      else Ok (put storage a (set_keys elem (shrink dk n) (shrink ek n) n))
  end.

(** The result is always a success. *)
Definition ks_delKey (storage : option KeyStorage) key : outcome (option KeyStorage * Z * Z) :=
  match storage with
  | None => Ok (None, API_SUCCESS, API_STATUS_ERR_NO_DATA)
  | Some st =>
      if negb (k_algoID key =? algorithmID st) then Ok (storage, API_SUCCESS, API_STATUS_ERR_USER1) else
      let bucket := _ks_getBucket (k_asn key) in
      p ← arr_get (head st) bucket;
      '(a, myStatus) ← find_elem (walk_fuel st) st p (k_asn key) (k_ski key);
      match a with
      | None => Ok (storage, API_SUCCESS, myStatus)
      | Some a => st ← del_elem st bucket a key; Ok (Some st, API_SUCCESS, API_STATUS_OK)
      end
  end.

(** The loop of [ks_empty] over the elements of a bucket, and the one over the
    buckets. *)
Fixpoint empty_bucket (fuel : nat) storage (bucket : nat) : outcome KeyStorage :=
  p ← arr_get (head storage) bucket;
  match p with
  | None => Ok storage
  | Some a =>
      match fuel with
      | O => Fault OutOfFuel
      | S fuel' => storage ← _ks_freeKS_Elem storage bucket a; empty_bucket fuel' storage bucket
      end
  end.
Fixpoint empty_buckets (n bucket : nat) storage : outcome KeyStorage :=
  match n with
  | O => Ok storage
  | S n' => storage ← empty_bucket (walk_fuel storage) storage bucket; empty_buckets n' (S bucket) storage
  end.
Definition ks_empty (storage : option KeyStorage) : outcome KeyStorage :=
  match storage with
  | None => Fault NullDeref
  | Some st => empty_buckets KS_BUCKETS 0 st
  end.
(** [None] is a freed storage. *)
Definition ks_release (storage : option KeyStorage) : outcome (option KeyStorage) :=
  match storage with
  | None => Ok None
  | Some st => _ ← ks_empty storage; Ok None
  end.

(** *** Storing a key *)

(** Is the key in the element already? *)
Fixpoint is_duplicate (n idx : nat) key (dk : list (slot BGPSecKey)) : outcome bool :=
  match n with
  | O => Ok false
  | S n' =>
      d ← get_slot dk idx;
      match d with
      | None => Fault NullDeref
      | Some k =>
          same ← (if k_keyLength k =? k_keyLength key then same_data (k_keyData k) (k_keyData key) (k_keyLength key)
                  else Ok false);
          if same : bool then Ok true else is_duplicate n' (S idx) key dk
      end
  end.

(** A key for an AS number and SKI that are stored. *)
Definition add_to_elem storage (a : positive) elem key (myStatus : Z) : outcome (KeyStorage * Z) :=
  dup ← is_duplicate (Z.to_nat (noKeys elem)) 0 key (derKey elem);
  if dup : bool then Ok (storage, Z.lor myStatus API_STATUS_INFO_USER1) else
  let n := u16 (noKeys elem + 1) in
  if n =? 0 then Fault OutOfBounds else
  k ← _ks_clone key;
  let '(ec, myStatus) := _ks_convertKey (k_keyData key) (k_keyLength key) (isPrivate storage) myStatus in
  let last := Z.to_nat (n - 1) in
  Ok (put (set_size storage (size storage + 1)) a
        (set_keys elem (<[last := Slot (Some k)]> (realloc (derKey elem) (Z.to_nat n)))
           (<[last := Slot ec]> (realloc (ec_key elem) (Z.to_nat n))) n), myStatus).

(** A new element behind the last one. *)
Definition append_elem storage (a : positive) elem key (convert setPrev : bool) : outcome (KeyStorage * Z) :=
  '(new, myStatus) ← _ks_createKS_Element key convert (isPrivate storage);
  match new with
  | None => if setPrev then Fault NullDeref else Ok (storage, myStatus)
  | Some ne =>
      let n := fresh_elem storage in
      Ok (put (put (set_size storage (size storage + 1)) a (set_next elem (Some n))) n
            (if setPrev then set_prev ne (Some a) else ne), myStatus)
  end.

(** A new element before another one. *)
Definition insert_elem storage (bucket : nat) (a : positive) elem key (convert : bool) : outcome (KeyStorage * Z) :=
  '(new, myStatus) ← _ks_createKS_Element key convert (isPrivate storage);
  match new with
  | None => Fault NullDeref
  | Some ne =>
      let n := fresh_elem storage in
      let storage := set_size storage (size storage + 1) in
      let storage := put (put storage n (set_prev (set_next ne (Some a)) (prev elem))) a (set_prev elem (Some n)) in
      match prev elem with
      | None => Ok (set_head storage bucket (Some n), myStatus)
      | Some p => pe ← deref (elems storage) p; Ok (put storage p (set_next pe (Some n)), myStatus)
      end
  end.

(** The walk along the bucket. *)
Fixpoint store_loop (fuel : nat) storage (bucket : nat) (a : positive) key (convert : bool) (myStatus : Z)
    : outcome (KeyStorage * Z) :=
  match fuel with
  | O => Fault OutOfFuel
  | S fuel' =>
      elem ← deref (elems storage) a;
      if e_asn elem <? k_asn key then
        match next elem with
        | Some n => store_loop fuel' storage bucket n key convert myStatus
        | None => append_elem storage a elem key convert true
        end
      else if k_asn key <? e_asn elem then insert_elem storage bucket a elem key convert
      else if memcmp (e_ski elem) (k_ski key) =? 0 then add_to_elem storage a elem key myStatus
      else
        match next elem with
        | Some n => store_loop fuel' storage bucket n key convert myStatus
        | None => append_elem storage a elem key convert false
        end
  end.

(** The result and the status. *)
Definition ks_storeKey (storage : option KeyStorage) key (convert : bool) : outcome (option KeyStorage * Z * Z) :=
  match storage with
  | None => Fault NullDeref
  | Some st =>
      let '(bucket, myStatus) := if k_algoID key =? algorithmID st then (_ks_getBucket (k_asn key), API_STATUS_OK)
                                 else (0%nat, API_STATUS_ERR_USER1) in
      p ← arr_get (head st) bucket;
      '(st, myStatus) ←
        match p with
        | Some a => store_loop (walk_fuel st) st bucket a key convert myStatus
        | None =>
            '(new, myStatus) ← _ks_createKS_Element key convert (isPrivate st);
            match new with
            | None => Ok (set_head st bucket None, myStatus)
            | Some ne =>
                let n := fresh_elem st in
                Ok (set_head (put (set_size st (size st + 1)) n ne) bucket (Some n), myStatus)
            end
        end;
      Ok (Some st, if has_error myStatus then API_FAILURE else API_SUCCESS, myStatus)
  end.

(** *** Removing the keys of a source; the result is always 0. *)
Fixpoint remove_source_loop (fuel : nat) storage (bucket : nat) (p : option positive) (source : Z) : outcome KeyStorage :=
  match p with
  | None => Ok storage
  | Some a =>
      match fuel with
      | O => Fault OutOfFuel
      | S fuel' =>
          elem ← deref (elems storage) a;
          if e_source elem =? source then
            match next elem, prev elem with
            | Some n, _ =>
                ne ← deref (elems storage) n;
                match prev ne with
                | None => Fault NullDeref
                | Some x => storage ← _ks_freeKS_Elem storage bucket x; remove_source_loop fuel' storage bucket (Some n) source
                end
            | None, Some q =>
                pe ← deref (elems storage) q;
                match next pe with
                | None => Fault NullDeref
                | Some x => storage ← _ks_freeKS_Elem storage bucket x; remove_source_loop fuel' storage bucket (Some q) source
                end
            | None, None => _ks_freeKS_Elem storage bucket a
            end
          else remove_source_loop fuel' storage bucket (next elem) source
      end
  end.
Fixpoint remove_buckets (n bucket : nat) storage (source : Z) : outcome KeyStorage :=
  match n with
  | O => Ok storage
  | S n' =>
      p ← arr_get (head storage) bucket;
      storage ← remove_source_loop (walk_fuel storage + walk_fuel storage) storage bucket p source;
      remove_buckets n' (S bucket) storage source
  end.
Definition ks_removeSource (storage : option KeyStorage) (source : Z) : outcome (option KeyStorage * Z) :=
  match storage with
  | None => Fault NullDeref
  | Some st => st ← remove_buckets KS_BUCKETS 0 st source; Ok (Some st, 0)
  end.

End ops.
Arguments KS_Key_Element : clear implicits.
Arguments KeyStorage : clear implicits.
Arguments KS_Keys : clear implicits.

End KeyStorage.
