(* ===== verification/KeyStorageTheorems.v ===== *)
(** * The key storage implements a finite map

    A storage that keys were only added to implements a finite map from AS number and
    SKI to the DER keys registered: storing a key adds it, a search finds all of
    them.  Removing keys does not keep the lists intact. *)
From S2P Require Import Prelude SrxDefs BgpsecPath UpdateCache HashMessage KeyStorage.

Module KeyStorageTheorems.
Import HashMessage KeyStorage.

Section storage.
Context {E : Type} `{EcKeys E}.
Abbreviation Elem := (KS_Key_Element E).
Abbreviation cell := (positive * Elem)%type.
Implicit Types (st : KeyStorage E) (h : gmap positive Elem) (l : list cell) (e : Elem) (a n : positive) (p q : option positive).

(** ** Lists in the heap *)

(** The elements from [p] up to [q], along the pointers to the next one. *)
Fixpoint seg h p l q : Prop :=
  match l with
  | [] => p = q
  | (a, e) :: l' => p = Some a /\ h !! a = Some e /\ seg h (next e) l' q
  end.

Lemma seg_app h p l1 l2 q : seg h p (l1 ++ l2) q <-> exists r, seg h p l1 r /\ seg h r l2 q.
Proof.
  revert p. induction l1 as [|[a e] l1 IH]; intros p; cbn [app seg]; [naive_solver|].
  rewrite IH. naive_solver.
Qed.

Lemma seg_det h p l l' : seg h p l None -> seg h p l' None -> l = l'.
Proof.
  revert p l'. induction l as [|[a e] l IH]; intros p [|[a' e'] l'] Hs Hs'; cbn in *; subst; try done.
  - by destruct Hs'.
  - by destruct Hs.
  - destruct Hs as (-> & Ha & Hs), Hs' as ([= <-] & Ha' & Hs'). rewrite Ha in Ha'. injection Ha' as <-.
    f_equal. by eapply IH.
Qed.

Lemma seg_lookup h p l q a e : seg h p l q -> (a, e) ∈ l -> h !! a = Some e.
Proof.
  revert p. induction l as [|[a' e'] l IH]; intros p Hs Hin; [by apply not_elem_of_nil in Hin|].
  destruct Hs as (_ & Ha & Hs). apply elem_of_cons in Hin as [[= -> ->]|Hin]; [done|]. by eapply IH.
Qed.

Lemma seg_frame h h' p l q : seg h p l q -> (forall a e, (a, e) ∈ l -> h' !! a = Some e) -> seg h' p l q.
Proof.
  revert p. induction l as [|[a e] l IH]; intros p Hs Hf; [done|]. destruct Hs as (-> & _ & Hs).
  split; [done|]. split; [apply Hf; set_solver|]. apply IH; [done|]. intros; apply Hf; set_solver.
Qed.

Lemma seg_size h p l q : seg h p l q -> NoDup l.*1 -> (length l <= base.size h)%nat.
Proof.
  intros Hs Hn. rewrite <- (length_fmap fst), <- size_dom.
  rewrite <- (size_list_to_set (C := gset positive) l.*1 Hn). apply subseteq_size.
  intros a Ha. apply elem_of_list_to_set, list_elem_of_fmap in Ha as ([a' e] & -> & Hin).
  apply elem_of_dom. exists e. by eapply seg_lookup.
Qed.

(** ** The map a storage implements *)
Definition convert (ip : bool) (d : list Z) : option E :=
  match d2i ip (Some d) (Z.of_nat (length d)) with
  | Some k => if EC_KEY_check_key k then Some k else None
  | None => None
  end.
Definition der_ok (ip : bool) (d : list Z) : Prop :=
  0 < Z.of_nat (length d) < 2 ^ 16 /\ convert ip d <> None.
Definition key_of (algo asn : Z) (ski d : list Z) : BGPSecKey :=
  mkBGPSecKey algo asn ski (Z.of_nat (length d)) (Some d).

(** An element with the keys [ds]. *)
Record elem_ok (algo : Z) (ip : bool) e (ds : list (list Z)) : Prop := {
  eo_der : derKey e = (fun d => Slot (Some (key_of algo (e_asn e) (e_ski e) d))) <$> ds;
  eo_ec : ec_key e = (fun d => Slot (convert ip d)) <$> ds;
  eo_n : noKeys e = Z.of_nat (length ds);
  eo_small : Z.of_nat (length ds) < 2 ^ 16;
  eo_ne : ds <> [];
  eo_ders : Forall (der_ok ip) ds;
  eo_ski : length (e_ski e) = BgpsecPath.SKI_LENGTH
}.

(** Registered keys by AS number and SKI. *)
Abbreviation keymap := (gmap (Z * list Z) (list (list Z))).
Implicit Types (m : keymap).

Definition e_key e : Z * list Z := (e_asn e, e_ski e).
Definition asn_le (c1 c2 : cell) : Prop := e_asn c1.2 <= e_asn c2.2.

(** The list of a bucket holds the part of the map that belongs to it. *)
Record bucket_ok (algo : Z) (ip : bool) (b : nat) l m : Prop := {
  bo_bucket : Forall (fun c => _ks_getBucket (e_asn c.2) = b) l;
  bo_elems : Forall (fun c => exists ds, m !! e_key c.2 = Some ds /\ elem_ok algo ip c.2 ds) l;
  bo_sorted : StronglySorted asn_le l;
  bo_nodup : NoDup ((fun c : cell => e_key c.2) <$> l);
  bo_complete k : _ks_getBucket k.1 = b -> is_Some (m !! k) -> k ∈ ((fun c : cell => e_key c.2) <$> l)
}.

(** The pointers to the previous element; an element appended behind one of the
    same AS has none. *)
Fixpoint prevs (c : option cell) l : Prop :=
  match l with
  | [] => True
  | (a, e) :: l' =>
      match c with
      | None => prev e = None
      | Some (p, pe) => prev e = Some p \/ (prev e = None /\ e_asn pe = e_asn e)
      end /\ prevs (Some (a, e)) l'
  end.

Record refines st m : Prop := {
  rf_head : length (head st) = KS_BUCKETS;
  rf_bucket b p : head st !! b = Some p ->
    exists l, seg (elems st) p l None /\ bucket_ok (algorithmID st) (isPrivate st) b l m
}.
(** The backward pointers of every bucket. *)
Definition backward st : Prop :=
  forall b p l, head st !! b = Some p -> seg (elems st) p l None -> prevs None l.

Lemma getBucket_lt asn : (_ks_getBucket asn < KS_BUCKETS)%nat.
Proof. unfold _ks_getBucket, KS_BUCKETS, wrap. zdiv. Qed.

Lemma nodup_addresses h p l q : seg h p l q -> NoDup ((fun c : cell => e_key c.2) <$> l) -> NoDup l.*1.
Proof.
  revert p. induction l as [|[a e] l IH]; intros p Hs Hn; cbn in *; [constructor|].
  destruct Hs as (_ & Ha & Hs). apply NoDup_cons in Hn as [Hn1 Hn2]. constructor; [|by eapply IH].
  intros Hin. apply list_elem_of_fmap in Hin as ([a' e'] & -> & Hin). cbn in Ha.
  rewrite (seg_lookup _ _ _ _ _ _ Hs Hin) in Ha. injection Ha as ->. apply Hn1.
  by apply (list_elem_of_fmap_2 (fun c : cell => e_key c.2) l (a', e)).
Qed.

Lemma bucket_list st m b : refines st m -> (b < KS_BUCKETS)%nat ->
  exists p l, arr_get (head st) b = Ok p /\ head st !! b = Some p /\ seg (elems st) p l None
    /\ bucket_ok (algorithmID st) (isPrivate st) b l m /\ (length l < walk_fuel st)%nat.
Proof.
  intros [Hh Hb] Hlt. destruct (lookup_lt_is_Some_2 (head st) b) as [p Hp]; [lia|].
  destruct (Hb b p Hp) as (l & Hs & Ho). exists p, l. unfold arr_get. rewrite Hp.
  do 4 (split; [done|]). unfold walk_fuel.
  pose proof (seg_size _ _ _ _ Hs (nodup_addresses _ _ _ _ Hs (bo_nodup _ _ _ _ _ Ho))). lia.
Qed.

(** ** Searching *)

(** The elements a walk for the AS number and the SKI passes. *)
Definition passed (asn : Z) (ski : list Z) (c : cell) : bool :=
  (e_asn c.2 <? asn) || ((e_asn c.2 =? asn) && negb (memcmp (e_ski c.2) ski =? 0)).
Definition matches (asn : Z) (ski : list Z) e : bool := (e_asn e =? asn) && (memcmp (e_ski e) ski =? 0).

Fixpoint ahead (asn : Z) (ski : list Z) l : list cell :=
  match l with
  | [] => []
  | c :: l' => if passed asn ski c then c :: ahead asn ski l' else []
  end.
Fixpoint from (asn : Z) (ski : list Z) l : list cell :=
  match l with
  | [] => []
  | c :: l' => if passed asn ski c then from asn ski l' else l
  end.

Lemma ahead_from asn ski l : ahead asn ski l ++ from asn ski l = l.
Proof. induction l as [|c l IH]; cbn; [done|]. destruct (passed _ _ _); cbn; by rewrite ?IH. Qed.

Lemma ahead_passed asn ski l : Forall (fun c => passed asn ski c = true) (ahead asn ski l).
Proof. induction l as [|c l IH]; cbn; [done|]. destruct (passed _ _ _) eqn:Ep; by constructor. Qed.

Lemma from_not_passed asn ski l c l' : from asn ski l = c :: l' -> passed asn ski c = false.
Proof. induction l as [|c' l IH]; cbn; [done|]. destruct (passed _ _ c') eqn:Ep; [done|]. by intros [= <- <-]. Qed.

(** The element where a walk stops: the one searched for, or one of a later AS. *)
Lemma passed_cases asn ski c :
  if passed asn ski c then e_asn c.2 < asn \/ (e_asn c.2 = asn /\ memcmp (e_ski c.2) ski <> 0)
  else asn < e_asn c.2 \/ (e_asn c.2 = asn /\ memcmp (e_ski c.2) ski = 0).
Proof.
  unfold passed. destruct (Z.ltb_spec (e_asn c.2) asn); cbn [orb]; [by left|].
  destruct (Z.eqb_spec (e_asn c.2) asn), (Z.eqb_spec (memcmp (e_ski c.2) ski) 0); cbn [andb negb]; try (by right); left; lia.
Qed.

Lemma find_elem_seg st asn ski l : forall p fuel,
  seg (elems st) p l None -> (length l < fuel)%nat ->
  find_elem fuel st p asn ski
  = Ok (match from asn ski l with
        | [] => (None, API_STATUS_OK)
        | (a, e) :: _ => if e_asn e =? asn then (Some a, API_STATUS_OK) else (None, API_STATUS_INFO_KEY_NOTFOUND)
        end).
Proof.
  induction l as [|[a e] l IH]; intros p fuel Hs Hf.
  { cbn in Hs. subst. by destruct fuel. }
  destruct Hs as (-> & Ha & Hs), fuel as [|fuel]; [cbn in Hf; lia|]. cbn [find_elem].
  unfold deref. rewrite Ha. cbn [mbind outcome_bind from].
  pose proof (passed_cases asn ski (a, e)) as Hp. cbn [snd] in Hp. destruct (passed _ _ _).
  - destruct Hp as [Hp|[Hp1 Hp2]].
    + rewrite (proj2 (Z.ltb_lt _ _)) by done. apply IH; [done|cbn in Hf; lia].
    + rewrite !(proj2 (Z.ltb_ge _ _)), (proj2 (Z.eqb_neq _ _)) by lia. apply IH; [done|cbn in Hf; lia].
  - destruct Hp as [Hp|[Hp1 Hp2]].
    + rewrite (proj2 (Z.ltb_ge _ _)), (proj2 (Z.ltb_lt _ _)), (proj2 (Z.eqb_neq (e_asn e) _)) by lia. done.
    + rewrite !(proj2 (Z.ltb_ge _ _)), Hp2, (proj2 (Z.eqb_eq (e_asn e) _)) by lia. done.
Qed.

(** In the list of a bucket the walk stops at the element of the key or finds that
    there is none. *)
Lemma from_bucket algo ip b l m asn ski : bucket_ok algo ip b l m -> length ski = BgpsecPath.SKI_LENGTH -> _ks_getBucket asn = b ->
  match m !! (asn, ski) with
  | Some ds => exists a e l', from asn ski l = (a, e) :: l' /\ e_asn e = asn /\ e_ski e = ski /\ elem_ok algo ip e ds
  | None => match from asn ski l with [] => True | (_, e) :: _ => asn < e_asn e end
  end.
Proof.
  intros Ho Hk Hb. pose proof (ahead_from asn ski l) as El. pose proof (ahead_passed asn ski l) as Hpa.
  assert (forall c l', from asn ski l = c :: l' -> c ∈ l /\ length (e_ski c.2) = BgpsecPath.SKI_LENGTH) as Hin.
  { intros c l' Ef. assert (c ∈ l) as Hc by (rewrite <- El, Ef; set_solver). split; [done|].
    by destruct (proj1 (Forall_forall _ _) (bo_elems _ _ _ _ _ Ho) _ Hc) as (ds & _ & [? ? ? ? ? ? ?]). }
  assert (forall c l', from asn ski l = c :: l' -> asn < e_asn c.2 \/ (e_asn c.2 = asn /\ e_ski c.2 = ski)) as Hstop.
  { intros c l' Ef. pose proof (passed_cases asn ski c) as Hp. rewrite (from_not_passed _ _ _ _ _ Ef) in Hp.
    destruct Hp as [?|[? Hm]]; [by left|]. right. split; [done|]. apply memcmp_0; [|done].
    by rewrite Hk, (proj2 (Hin _ _ Ef)). }
  destruct (m !! (asn, ski)) as [ds|] eqn:Em.
  - assert (exists c, c ∈ l /\ e_key c.2 = (asn, ski)) as (c & Hc & Ec).
    { pose proof (bo_complete _ _ _ _ _ Ho (asn, ski) Hb (mk_is_Some _ _ Em)) as Hc.
      apply list_elem_of_fmap in Hc as (c & -> & Hc). by exists c. }
    injection Ec as Ec1 Ec2. destruct (from asn ski l) as [|[a e] l'] eqn:Ef.
    { rewrite app_nil_r in El. rewrite <- El in Hc. apply (proj1 (Forall_forall _ _) Hpa) in Hc.
      pose proof (passed_cases asn ski c) as Hp. rewrite Hc, Ec2, memcmp_refl in Hp. destruct Hp as [?|[_ ?]]; [lia|done]. }
    exists a, e, l'. split; [done|]. destruct (Hstop _ _ eq_refl) as [Hlt|[Ea Es]]; cbn [snd] in *.
    { exfalso. rewrite <- El in Hc. apply elem_of_app in Hc as [Hc|Hc].
      - apply (proj1 (Forall_forall _ _) Hpa) in Hc.
        pose proof (passed_cases asn ski c) as Hp. rewrite Hc, Ec2, memcmp_refl in Hp. destruct Hp as [?|[_ ?]]; [lia|done].
      - pose proof (bo_sorted _ _ _ _ _ Ho) as Hsrt. rewrite <- El in Hsrt. apply StronglySorted_app in Hsrt as (_ & _ & Hsrt).
        apply StronglySorted_inv in Hsrt as [_ Hsrt]. apply elem_of_cons in Hc as [->|Hc]; [cbn in *; lia|].
        apply (proj1 (Forall_forall _ _) Hsrt) in Hc. unfold asn_le in Hc. cbn in Hc. lia. }
    split; [done|]. split; [done|].
    destruct (proj1 (Forall_forall _ _) (bo_elems _ _ _ _ _ Ho) _ (proj1 (Hin _ _ eq_refl))) as (ds' & Hd & He).
    unfold e_key in Hd. cbn in Hd. rewrite Ea, Es, Em in Hd. by injection Hd as ->.
  - destruct (from asn ski l) as [|[a e] l'] eqn:Ef; [done|].
    destruct (Hstop _ _ eq_refl) as [Hlt|[Ea Es]]; [done|exfalso]. cbn [snd] in *.
    destruct (proj1 (Forall_forall _ _) (bo_elems _ _ _ _ _ Ho) _ (proj1 (Hin _ _ eq_refl))) as (ds' & Hd & _).
    unfold e_key in Hd. cbn in Hd. by rewrite Ea, Es, Em in Hd.
Qed.

Lemma load_keys_loaded ip (dk : list (slot BGPSecKey)) (ds : list (list Z)) s : Forall (der_ok ip) ds ->
  forall (k idx : nat), (idx + k = length ds)%nat ->
  load_keys k idx ip dk ((fun d => Slot (convert ip d)) <$> ds) s = Ok ((fun d => Slot (convert ip d)) <$> ds, s).
Proof.
  intros Hd k. induction k as [|k IH]; intros idx Hi; [done|]. cbn [load_keys].
  destruct (lookup_lt_is_Some_2 ds idx) as [d Hl]; [lia|].
  unfold get_slot, arr_get. rewrite list_lookup_fmap, Hl. cbn [fmap option_fmap option_map mbind outcome_bind].
  destruct (proj1 (Forall_lookup _ _) Hd _ _ Hl) as [_ Hc]. destruct (convert ip d); [|done]. apply IH. lia.
Qed.

(** What a search for OpenSSL keys returns. *)
Definition found (ip : bool) (r : option (list (list Z))) : option (KS_Keys E) * option Z * Z :=
  match r with
  | Some ds => (Some (EcArray ((fun d => Slot (convert ip d)) <$> ds)), Some (Z.of_nat (length ds)), API_STATUS_OK)
  | None => (None, None, API_STATUS_INFO_KEY_NOTFOUND)
  end.

Lemma getKey_eq st m ski asn : refines st m -> length ski = BgpsecPath.SKI_LENGTH ->
  ks_getKey (Some st) ski asn ks_eckey_e
  = let '(keys, n, s) := found (isPrivate st) (m !! (asn, ski)) in Ok (Some st, keys, n, s).
Proof.
  intros Hr Hk. destruct (bucket_list _ _ _ Hr (getBucket_lt asn)) as (p & l & Ep & _ & Hs & Ho & Hlen).
  unfold ks_getKey. rewrite Ep. cbn [mbind outcome_bind]. rewrite (find_elem_seg _ _ _ l) by done. cbn [mbind outcome_bind].
  pose proof (from_bucket _ _ _ _ _ asn ski Ho Hk eq_refl) as Hf. pose proof (ahead_from asn ski l) as El.
  destruct (m !! (asn, ski)) as [ds|].
  - destruct Hf as (a & e & l' & Ef & <- & <- & He). rewrite Ef in El |- *. rewrite Z.eqb_refl.
    assert (elems st !! a = Some e) as Ha by (eapply seg_lookup; [exact Hs|]; rewrite <- El; set_solver).
    unfold deref. rewrite Ha. cbn [mbind outcome_bind]. destruct He as [Hd Hec Hn _ _ Hok _].
    rewrite Hn, Nat2Z.id, Hec, load_keys_loaded by done. cbn [mbind outcome_bind found].
    do 4 f_equal. unfold put. rewrite <- Hec, <- Hn, insert_id; [by destruct st|]. by destruct e.
  - destruct (from asn ski l) as [|[a e] l']; [done|]. by rewrite (proj2 (Z.eqb_neq _ _)) by lia.
Qed.

(** The keys of a map are as they were registered. *)
Lemma refines_keys st m k ds : refines st m -> m !! k = Some ds -> ds <> [] /\ Forall (der_ok (isPrivate st)) ds.
Proof.
  intros Hr Hm. destruct (bucket_list _ _ _ Hr (getBucket_lt k.1)) as (p & l & _ & _ & _ & Ho & _).
  pose proof (bo_complete _ _ _ _ _ Ho k eq_refl (mk_is_Some _ _ Hm)) as Hin.
  apply list_elem_of_fmap in Hin as (c & -> & Hin).
  destruct (proj1 (Forall_forall _ _) (bo_elems _ _ _ _ _ Ho) _ Hin) as (ds' & Hd & []). rewrite Hm in Hd. by injection Hd as <-.
Qed.

(** ** Changing the list of one bucket *)
Definition same_elem e e' : Prop :=
  e_key e' = e_key e /\ derKey e' = derKey e /\ ec_key e' = ec_key e /\ noKeys e' = noKeys e.
Definition same_cell (c c' : cell) : Prop := c'.1 = c.1 /\ same_elem c.2 c'.2.

Lemma same_cell_refl c : same_cell c c.
Proof. done. Qed.
Lemma same_cells_refl l : Forall2 same_cell l l.
Proof. induction l; by constructor. Qed.

Lemma elem_ok_same algo ip e e' ds : same_elem e e' -> elem_ok algo ip e ds -> elem_ok algo ip e' ds.
Proof.
  intros (Hk & Hd & Hec & Hn) [? ? ? ? ? ? ?]. injection Hk as Ha Hs.
  split; rewrite ?Hd, ?Hec, ?Hn, ?Ha, ?Hs; done.
Qed.

Lemma same_cells_keys l l' : Forall2 same_cell l l' ->
  (fun c : cell => e_key c.2) <$> l' = (fun c : cell => e_key c.2) <$> l.
Proof. induction 1 as [|c c' l l' [_ [Hk _]] _ IH]; cbn; [done|]. by rewrite Hk, IH. Qed.

Lemma same_cells_sorted l l' : Forall2 same_cell l l' -> StronglySorted asn_le l -> StronglySorted asn_le l'.
Proof.
  induction 1 as [|c c' l l' [_ [Hk _]] Hf IH]; intros Hs; [constructor|].
  apply StronglySorted_inv in Hs as [Hs Hfa]. constructor; [by apply IH|].
  revert Hfa. clear IH Hs. induction Hf as [|d d' l l' [_ [Hk' _]] _ IH]; intros Hfa; constructor.
  - apply Forall_inv in Hfa. unfold asn_le in *. injection Hk as ? ?. injection Hk' as ? ?. lia.
  - apply IH. by apply Forall_inv_tail in Hfa.
Qed.

Lemma bucket_ok_same algo ip b l l' m : Forall2 same_cell l l' -> bucket_ok algo ip b l m -> bucket_ok algo ip b l' m.
Proof.
  intros Hs [Hb He Ho Hn Hc]. split.
  - clear - Hs Hb. induction Hs as [|c c' l l' [_ [Hk _]] _ IH]; constructor; apply Forall_cons in Hb as [Hb1 Hb2]; [|by apply IH].
    injection Hk as -> _. done.
  - clear - Hs He. induction Hs as [|c c' l l' [_ Hsame] _ IH]; constructor; apply Forall_cons in He as [(ds & Hm & Hd) He]; [|by apply IH].
    exists ds. pose proof Hsame as (Hk & _). rewrite Hk. split; [done|]. by eapply elem_ok_same.
  - by eapply same_cells_sorted.
  - by rewrite (same_cells_keys _ _ Hs).
  - by rewrite (same_cells_keys _ _ Hs).
Qed.

(** A new element in the list. *)
Lemma bucket_ok_insert algo ip b l1 l2 a e ds m :
  bucket_ok algo ip b (l1 ++ l2) m -> _ks_getBucket (e_asn e) = b -> m !! e_key e = None -> elem_ok algo ip e ds ->
  Forall (fun c => e_asn c.2 <= e_asn e) l1 -> Forall (fun c => e_asn e <= e_asn c.2) l2 ->
  bucket_ok algo ip b (l1 ++ (a, e) :: l2) (<[e_key e := ds]> m).
Proof.
  intros [Hb He Ho Hn Hc] Hbe Hm Hok H1 H2.
  assert (e_key e ∉ (fun c : cell => e_key c.2) <$> (l1 ++ l2)) as Hnot.
  { intros Hin. apply list_elem_of_fmap in Hin as (c & Hk & Hin).
    destruct (proj1 (Forall_forall _ _) He _ Hin) as (ds' & Hd & _). by rewrite <- Hk, Hm in Hd. }
  assert (Forall (fun c : cell => exists ds0, <[e_key e := ds]> m !! e_key c.2 = Some ds0 /\ elem_ok algo ip c.2 ds0) (l1 ++ l2)) as He'.
  { apply Forall_forall. intros c Hin. destruct (proj1 (Forall_forall _ _) He _ Hin) as (ds' & Hd & Hd').
    exists ds'. rewrite lookup_insert_ne; [done|]. intros Hk. rewrite <- Hk, Hm in Hd. done. }
  apply Forall_app in Hb as [Hb1 Hb2], He' as [He1 He2].
  apply StronglySorted_app in Ho as (Ho12 & Ho1 & Ho2).
  split.
  - apply Forall_app; split; [done|]. by constructor.
  - apply Forall_app; split; [done|]. constructor; [|done]. exists ds. by rewrite lookup_insert_eq.
  - apply StronglySorted_app. split; [|split; [done|by constructor]].
    intros c1 c2 Hi1 Hi2. apply elem_of_cons in Hi2 as [->|Hi2]; [|by apply Ho12].
    by apply (proj1 (Forall_forall _ _) H1).
  - rewrite fmap_app, fmap_cons. rewrite <- Permutation_middle. constructor; by rewrite <- fmap_app.
  - intros k Hk [ds' Hd]. rewrite fmap_app, fmap_cons. apply elem_of_app. rewrite elem_of_cons. cbn [snd].
    destruct (decide (k = e_key e)) as [->|Hne]; [by right; left|].
    rewrite lookup_insert_ne in Hd by done. pose proof (Hc k Hk (mk_is_Some _ _ Hd)) as Hin.
    rewrite fmap_app in Hin. apply elem_of_app in Hin as [|]; [by left|by right; right].
Qed.

(** More keys in an element. *)
Lemma bucket_ok_update algo ip b l1 l2 a e e' ds m :
  bucket_ok algo ip b (l1 ++ (a, e) :: l2) m -> e_key e' = e_key e -> elem_ok algo ip e' ds ->
  bucket_ok algo ip b (l1 ++ (a, e') :: l2) (<[e_key e := ds]> m).
Proof.
  intros Ho Hk Hok. pose proof Hk as Hk'. injection Hk' as Ha Hs.
  assert (forall c : cell, c ∈ l1 ++ l2 -> e_key c.2 <> e_key e) as Hne.
  { intros c Hin Hc. pose proof (bo_nodup _ _ _ _ _ Ho) as Hn.
    rewrite fmap_app, fmap_cons, <- Permutation_middle in Hn. apply NoDup_cons in Hn as [Hn _].
    apply Hn. rewrite <- fmap_app. cbn [snd]. rewrite <- Hc. by apply (list_elem_of_fmap_2 (fun c : cell => e_key c.2)). }
  destruct Ho as [Hb He Hsrt Hn Hc]. split.
  - apply Forall_app in Hb as [Hb1 Hb2]. apply Forall_cons in Hb2 as [Hb Hb2].
    apply Forall_app; split; [done|]. constructor; [|done]. cbn in *. by rewrite Ha.
  - apply Forall_forall. intros c Hin. apply elem_of_app in Hin as [Hin|Hin]; [|apply elem_of_cons in Hin as [->|Hin]].
    + destruct (proj1 (Forall_forall _ _) He c ltac:(set_solver)) as (ds' & Hd & Hd'). exists ds'.
      rewrite lookup_insert_ne; [done|]. apply not_eq_sym, Hne. set_solver.
    + exists ds. cbn. by rewrite Hk, lookup_insert_eq.
    + destruct (proj1 (Forall_forall _ _) He c ltac:(set_solver)) as (ds' & Hd & Hd'). exists ds'.
      rewrite lookup_insert_ne; [done|]. apply not_eq_sym, Hne. set_solver.
  - apply StronglySorted_app in Hsrt as (H12 & H1 & H2). apply StronglySorted_inv in H2 as [H2 Hf].
    apply StronglySorted_app. split; [|split; [done|]].
    + intros c1 c2 Hi1 Hi2. apply elem_of_cons in Hi2 as [->|Hi2]; [|apply H12; set_solver].
      unfold asn_le. cbn. rewrite Ha. apply (H12 c1 (a, e)); set_solver.
    + constructor; [done|]. eapply Forall_impl; [exact Hf|]. intros c. unfold asn_le. cbn. by rewrite Ha.
  - rewrite fmap_app, fmap_cons in *. cbn [snd] in *. by rewrite Hk.
  - intros k Hb' Hk'. rewrite fmap_app, fmap_cons in *. cbn [snd] in *. rewrite Hk.
    destruct (decide (k = e_key e)) as [->|Hkn]; [set_solver|]. rewrite lookup_insert_ne in Hk' by done. by apply Hc.
Qed.

(** The map agrees on the keys of the bucket. *)
Lemma bucket_ok_agree algo ip b l m m' : bucket_ok algo ip b l m ->
  (forall k, _ks_getBucket k.1 = b -> m' !! k = m !! k) -> bucket_ok algo ip b l m'.
Proof.
  intros [Hb He Ho Hn Hc] Hk. split; [done| |done|done|].
  - apply Forall_forall. intros c Hin. destruct (proj1 (Forall_forall _ _) He _ Hin) as (ds & Hd & Hd').
    exists ds. rewrite Hk; [done|]. by apply (proj1 (Forall_forall _ _) Hb).
  - intros k Hb' Hk'. apply Hc; [done|]. by rewrite <- Hk.
Qed.

Lemma refines_change st st' m m' b p' l' :
  refines st m -> (b < KS_BUCKETS)%nat -> (forall k, _ks_getBucket k.1 <> b -> m' !! k = m !! k) ->
  head st' = <[b := p']> (head st) -> algorithmID st' = algorithmID st -> isPrivate st' = isPrivate st ->
  (forall a e, elems st !! a = Some e -> _ks_getBucket (e_asn e) <> b -> elems st' !! a = Some e) ->
  seg (elems st') p' l' None -> bucket_ok (algorithmID st) (isPrivate st) b l' m' -> refines st' m'.
Proof.
  intros [Hh Hr] Hb Hk Eh Ea Ei Hf Hs Ho. split; [by rewrite Eh, length_insert|].
  intros b' p Hp'. rewrite Eh, list_lookup_insert in Hp'. rewrite Ea, Ei. destruct (decide (b = b' /\ _)) as [[<- _]|Hne].
  { injection Hp' as <-. by exists l'. }
  assert (b' <> b) as Hne' by (intros ->; apply Hne; by rewrite Hh).
  destruct (Hr b' p Hp') as (l & Hsl & Hol). exists l. split.
  - eapply seg_frame; [done|]. intros a e Hin. apply Hf; [by eapply seg_lookup|].
    pose proof (proj1 (Forall_forall _ _) (bo_bucket _ _ _ _ _ Hol) _ Hin) as Hbb. cbn in Hbb. by rewrite Hbb.
  - eapply bucket_ok_agree; [exact Hol|]. intros k Hkb. apply Hk. by rewrite Hkb.
Qed.

(** The storage after the list of bucket [b] became [l']. *)
Lemma refines_bucket st st' m b p' l' k ds :
  refines st m -> backward st -> (b < KS_BUCKETS)%nat -> _ks_getBucket k.1 = b ->
  head st' = <[b := p']> (head st) -> algorithmID st' = algorithmID st -> isPrivate st' = isPrivate st ->
  (forall a e, elems st !! a = Some e -> _ks_getBucket (e_asn e) <> b -> elems st' !! a = Some e) ->
  seg (elems st') p' l' None -> bucket_ok (algorithmID st) (isPrivate st) b l' (<[k := ds]> m) -> prevs None l' ->
  refines st' (<[k := ds]> m) /\ backward st'.
Proof.
  intros Hr Hbw Hb Hk Eh Ea Ei Hf Hs Ho Hp. split.
  { eapply refines_change; try done. intros k' Hk'. apply lookup_insert_ne. congruence. }
  intros b' p l Hp' Hsl. rewrite Eh, list_lookup_insert in Hp'. destruct (decide (b = b' /\ _)) as [[<- _]|Hne].
  - injection Hp' as <-. by rewrite (seg_det _ _ _ _ Hsl Hs).
  - assert (b' <> b) as Hne' by (intros ->; apply Hne; by rewrite (rf_head _ _ Hr)).
    destruct (rf_bucket _ _ Hr b' p Hp') as (l0 & Hs0 & Hol). rewrite (seg_det (elems st') p l l0); [by eapply Hbw|done|].
    eapply seg_frame; [done|]. intros a e Hin. apply Hf; [by eapply seg_lookup|].
    pose proof (proj1 (Forall_forall _ _) (bo_bucket _ _ _ _ _ Hol) _ Hin) as Hbb. cbn in Hbb. by rewrite Hbb.
Qed.

(** ** Storing a key *)
Definition new_elem p q (algo asn : Z) (ski : list Z) (ip : bool) (d : list Z) : Elem :=
  mkElement p q asn 0 ski [Slot (Some (key_of algo asn ski d))] [Slot (convert ip d)] 1.

Lemma new_elem_ok p q algo asn ski ip d : der_ok ip d -> length ski = BgpsecPath.SKI_LENGTH ->
  elem_ok algo ip (new_elem p q algo asn ski ip d) [d].
Proof. intros Hd Hk. split; try done. by apply Forall_singleton. Qed.

Lemma read_all (d : list Z) : read_bytes d 0 (length d) = Ok d.
Proof. unfold read_bytes. by rewrite decide_True, drop_0, firstn_all by lia. Qed.

Lemma convertKey_eq ip d s : convert ip d <> None ->
  _ks_convertKey (Some d) (Z.of_nat (length d)) ip s = (convert ip d, s).
Proof. unfold _ks_convertKey, convert. destruct (d2i _ _ _); [|done]. by destruct (EC_KEY_check_key _). Qed.

Lemma clone_eq algo asn ski (d : list Z) : d <> [] -> _ks_clone (key_of algo asn ski d) = Ok (key_of algo asn ski d).
Proof.
  intros Hd. unfold _ks_clone, key_of. cbn [k_keyLength k_keyData k_algoID k_asn k_ski].
  rewrite (proj2 (Z.eqb_neq _ 0)) by (destruct d; [done|simpl; lia]).
  by rewrite Nat2Z.id, read_all.
Qed.

Lemma der_nonempty ip d : der_ok ip d -> d <> [].
Proof. intros [Hd _] ->. simpl in Hd. lia. Qed.

Lemma create_eq algo asn ski ip d : der_ok ip d ->
  _ks_createKS_Element (key_of algo asn ski d) true ip = Ok (Some (new_elem None None algo asn ski ip d), API_STATUS_OK).
Proof.
  intros Hd. pose proof (der_nonempty _ _ Hd) as Hne. destruct Hd as [_ Hc]. unfold _ks_createKS_Element.
  rewrite clone_eq by done. cbn [mbind outcome_bind negb key_of k_keyData k_keyLength].
  rewrite convertKey_eq by done. unfold new_elem. by destruct (convert ip d).
Qed.

Lemma same_data_eq (x y : list Z) : length x = length y ->
  same_data (Some x) (Some y) (Z.of_nat (length x)) = Ok (bool_decide (x = y)).
Proof.
  intros Hl. unfold same_data. destruct (Z.eqb_spec (Z.of_nat (length x)) 0).
  { destruct x; [|simpl in *; lia]. by destruct y. }
  rewrite Nat2Z.id, read_all. cbn [mbind outcome_bind]. rewrite Hl, read_all. cbn [mbind outcome_bind]. f_equal.
  destruct (Z.eqb_spec (memcmp x y) 0) as [Hm|Hm].
  - rewrite bool_decide_true; [done|]. by apply memcmp_0.
  - rewrite bool_decide_false; [done|]. intros ->. apply Hm. apply memcmp_refl.
Qed.

Lemma is_duplicate_eq algo asn ski (ds : list (list Z)) d : forall (k idx : nat), (idx + k = length ds)%nat ->
  is_duplicate k idx (key_of algo asn ski d) ((fun d => Slot (Some (key_of algo asn ski d))) <$> ds)
  = Ok (bool_decide (d ∈ drop idx ds)).
Proof.
  intros k. induction k as [|k IH]; intros idx Hi; cbn [is_duplicate].
  { rewrite drop_ge by lia. by rewrite bool_decide_false by (apply not_elem_of_nil). }
  destruct (lookup_lt_is_Some_2 ds idx) as [x Hx]; [lia|]. rewrite (drop_S _ _ _ Hx).
  unfold get_slot, arr_get. rewrite list_lookup_fmap, Hx. cbn [fmap option_fmap option_map mbind outcome_bind].
  cbn [key_of k_keyLength k_keyData]. destruct (Z.eqb_spec (Z.of_nat (length x)) (Z.of_nat (length d))) as [Hl|Hl].
  - rewrite <- Hl, same_data_eq by lia. cbn [mbind outcome_bind].
    destruct (bool_decide_reflect (x = d)) as [->|Hne].
    + rewrite bool_decide_true; [done|]. apply list_elem_of_here.
    + rewrite IH by lia. f_equal. apply bool_decide_ext. rewrite elem_of_cons. naive_solver.
  - cbn [mbind outcome_bind]. rewrite IH by lia. f_equal. apply bool_decide_ext. rewrite elem_of_cons. naive_solver.
Qed.

(** Where the walk of [ks_storeKey] ends. *)
Lemma store_loop_seg st b key conv s l : forall a e fuel,
  seg (elems st) (Some a) ((a, e) :: l) None -> (length l < fuel)%nat ->
  store_loop fuel st b a key conv s
  = match from (k_asn key) (k_ski key) ((a, e) :: l) with
    | (a', e') :: _ => if e_asn e' =? k_asn key then add_to_elem st a' e' key s else insert_elem st b a' e' key conv
    | [] => match last ((a, e) :: l) with
            | Some (a', e') => append_elem st a' e' key conv (e_asn e' <? k_asn key)
            | None => Fault NullDeref
            end
    end.
Proof.
  induction l as [|[a2 e2] l IH]; intros a e fuel Hs Hf; (destruct fuel as [|fuel]; [cbn in Hf; lia|]);
    destruct Hs as (_ & Ha & Hs); cbn [store_loop]; unfold deref; rewrite Ha; cbn [mbind outcome_bind];
    pose proof (passed_cases (k_asn key) (k_ski key) (a, e)) as Hp; cbn [snd] in Hp; cbn [from];
    cbn [seg] in Hs.
  - rewrite Hs. destruct (passed _ _ _).
    + cbn [last]. destruct Hp as [Hp|[Hp1 Hp2]].
      * by rewrite (proj2 (Z.ltb_lt _ _)) by done.
      * by rewrite !(proj2 (Z.ltb_ge _ _)), (proj2 (Z.eqb_neq _ _)) by lia.
    + destruct Hp as [Hp|[Hp1 Hp2]].
      * by rewrite (proj2 (Z.ltb_ge _ _)), (proj2 (Z.ltb_lt _ _)), (proj2 (Z.eqb_neq (e_asn e) _)) by lia.
      * by rewrite !(proj2 (Z.ltb_ge _ _)), Hp2, (proj2 (Z.eqb_eq (e_asn e) _)) by lia.
  - pose proof Hs as (Hn & _ & _). rewrite Hn. destruct (passed _ _ _).
    + specialize (IH a2 e2 fuel). cbn [seg] in IH.
      specialize (IH (conj eq_refl (proj2 Hs)) ltac:(cbn in Hf; lia)). destruct Hp as [Hp|[Hp1 Hp2]].
      * rewrite (proj2 (Z.ltb_lt _ _)) by done. exact IH.
      * rewrite !(proj2 (Z.ltb_ge _ _)), (proj2 (Z.eqb_neq _ _)) by lia. exact IH.
    + destruct Hp as [Hp|[Hp1 Hp2]].
      * by rewrite (proj2 (Z.ltb_ge _ _)), (proj2 (Z.ltb_lt _ _)), (proj2 (Z.eqb_neq (e_asn e) _)) by lia.
      * by rewrite !(proj2 (Z.ltb_ge _ _)), Hp2, (proj2 (Z.eqb_eq (e_asn e) _)) by lia.
Qed.

(** A storage with one more key. *)
Record extends st st' m' : Prop := {
  ex_refines : refines st' m';
  ex_backward : backward st';
  ex_size : size st' = u32 (size st + 1);
  ex_algo : algorithmID st' = algorithmID st;
  ex_private : isPrivate st' = isPrivate st
}.

Lemma realloc_last {A} (l : list (slot A)) x : <[length l := x]> (realloc l (S (length l))) = l ++ [x].
Proof.
  unfold realloc. rewrite firstn_all2 by lia. replace (S (length l) - length l)%nat with 1%nat by lia.
  cbn [replicate]. apply insert_middle.
Qed.

Lemma prevs_same c l1 a e e' l2 : e_asn e' = e_asn e -> prev e' = prev e ->
  prevs c (l1 ++ (a, e) :: l2) -> prevs c (l1 ++ (a, e') :: l2).
Proof.
  intros Ha Hp. revert c. induction l1 as [|[a1 e1] l1 IH]; intros c; cbn [app prevs].
  - rewrite Hp, Ha. intros [H1 H2]. split; [done|]. destruct l2 as [|[a2 e2] l2]; [done|]. cbn [prevs] in *. by rewrite Ha.
  - intros [H1 H2]. split; [done|]. by apply IH.
Qed.

(** The bucket of a key: its list, and the pointer to it. *)
Lemma bucket_of_key st m b p l a e : refines st m -> bucket_ok (algorithmID st) (isPrivate st) b l m -> seg (elems st) p l None ->
  (a, e) ∈ l -> elems st !! a = Some e /\ _ks_getBucket (e_asn e) = b.
Proof.
  intros _ Ho Hs Hin. split; [by eapply seg_lookup|]. by apply (proj1 (Forall_forall _ _) (bo_bucket _ _ _ _ _ Ho) (a, e)).
Qed.

Lemma add_case st m b p l1 a e l2 ds d s :
  refines st m -> backward st -> (b < KS_BUCKETS)%nat -> head st !! b = Some p ->
  seg (elems st) p (l1 ++ (a, e) :: l2) None -> bucket_ok (algorithmID st) (isPrivate st) b (l1 ++ (a, e) :: l2) m ->
  elem_ok (algorithmID st) (isPrivate st) e ds -> d ∉ ds -> der_ok (isPrivate st) d -> Z.of_nat (S (length ds)) < 2 ^ 16 ->
  exists st', add_to_elem st a e (key_of (algorithmID st) (e_asn e) (e_ski e) d) s = Ok (st', s)
    /\ extends st st' (<[e_key e := ds ++ [d]]> m).
Proof.
  intros Hr Hbw Hb Hp Hs Ho He Hd Hok Hsz. pose proof He as [Hder Hec Hn _ Hne Hders Hski].
  unfold add_to_elem. rewrite Hn, Nat2Z.id, Hder, is_duplicate_eq, drop_0, bool_decide_false by done.
  cbn [mbind outcome_bind]. rewrite wrap_small by (unfold in_u; lia). rewrite (proj2 (Z.eqb_neq _ 0)) by lia.
  rewrite clone_eq by (by eapply der_nonempty). cbn [mbind outcome_bind key_of k_keyData k_keyLength].
  rewrite convertKey_eq by apply Hok. eexists. split; [reflexivity|].
  replace (Z.to_nat (Z.of_nat (length ds) + 1 - 1)) with (length ds) by lia.
  replace (Z.to_nat (Z.of_nat (length ds) + 1)) with (S (length ds)) by lia. rewrite Hec.
  set (dk := <[_ := _]> (realloc (_ <$> ds) _)). set (ek := <[_ := _]> (realloc (_ <$> ds) _)).
  assert (dk = (fun d => Slot (Some (key_of (algorithmID st) (e_asn e) (e_ski e) d))) <$> (ds ++ [d])) as ->.
  { subst dk. rewrite fmap_app. rewrite <- (length_fmap (fun d => Slot (Some (key_of (algorithmID st) (e_asn e) (e_ski e) d))) ds) at 1 2.
    apply realloc_last. }
  assert (ek = (fun d => Slot (convert (isPrivate st) d)) <$> (ds ++ [d])) as ->.
  { subst ek. rewrite fmap_app. rewrite <- (length_fmap (fun d => Slot (convert (isPrivate st) d)) ds) at 1 2. apply realloc_last. }
  set (e' := set_keys e _ _ _). destruct (bucket_of_key _ _ _ _ _ a e Hr Ho Hs) as [Ha Hbe]; [set_solver|].
  assert (elem_ok (algorithmID st) (isPrivate st) e' (ds ++ [d])) as He'.
  { split; try done; cbn; rewrite ?length_app; cbn [length]; try lia; [by destruct ds|].
    apply Forall_app; split; [done|by apply Forall_singleton]. }
  assert (forall a' e', (a', e') ∈ l1 ++ l2 -> a' <> a) as Hna.
  { intros a' e1 Hin ->. pose proof (nodup_addresses _ _ _ _ Hs (bo_nodup _ _ _ _ _ Ho)) as Hnd.
    rewrite fmap_app, fmap_cons, <- Permutation_middle in Hnd. apply NoDup_cons in Hnd as [Hnd _]. apply Hnd.
    rewrite <- fmap_app. by apply (list_elem_of_fmap_2 fst _ (a, e1)). }
  destruct (refines_bucket st (put (set_size st (size st + 1)) a e') m b p (l1 ++ (a, e') :: l2) (e_key e) (ds ++ [d]))
    as [Hr' Hb']; try done.
  - cbn. by rewrite list_insert_id.
  - cbn. intros a' e1 He1 Hb1. rewrite lookup_insert_ne; [done|]. intros <-. rewrite Ha in He1. by injection He1 as <-.
  - cbn. apply seg_app in Hs as (r & H1 & H2). apply seg_app. exists r. destruct H2 as (-> & _ & H2). split; [|split; [done|split]].
    + eapply seg_frame; [exact H1|]. intros a3 e1 Hin. rewrite lookup_insert_ne; [exact (seg_lookup _ _ _ _ _ _ H1 Hin)|].
      apply not_eq_sym. eapply Hna. apply elem_of_app. by left.
    + by rewrite lookup_insert_eq.
    + eapply seg_frame; [exact H2|]. intros a3 e1 Hin. rewrite lookup_insert_ne; [exact (seg_lookup _ _ _ _ _ _ H2 Hin)|].
      apply not_eq_sym. eapply Hna. apply elem_of_app. by right.
  - by apply bucket_ok_update.
  - apply (prevs_same None l1 a e e' l2); [done|done|]. exact (Hbw _ _ _ Hp Hs).
Qed.

Lemma prevs_app c l1 l2 :
  prevs c (l1 ++ l2) <-> prevs c l1 /\ prevs (match last l1 with Some x => Some x | None => c end) l2.
Proof.
  revert c. induction l1 as [|[a e] l1 IH]; intros c; cbn [app prevs last]; [tauto|].
  rewrite IH, (assoc and). destruct l1 as [|x l1]; [cbn; tauto|].
  change (last ((a, e) :: x :: l1)) with (last (x :: l1)). destruct (last (x :: l1)) eqn:El; [done|]. by apply last_None in El.
Qed.

Lemma fresh_not st a e : elems st !! a = Some e -> fresh_elem st <> a.
Proof.
  intros Ha Hf. apply (is_fresh (dom (elems st) ∪ freed st)). apply elem_of_union. left.
  apply elem_of_dom. exists e. unfold fresh_elem in Hf. by rewrite Hf.
Qed.

(** An address of the list of one bucket occurs in it once. *)
Lemma address_once st m b p l1 a e l2 a' e' :
  bucket_ok (algorithmID st) (isPrivate st) b (l1 ++ (a, e) :: l2) m -> seg (elems st) p (l1 ++ (a, e) :: l2) None ->
  (a', e') ∈ l1 \/ (a', e') ∈ l2 -> a <> a'.
Proof.
  intros Ho Hs Hin ->. pose proof (nodup_addresses _ _ _ _ Hs (bo_nodup _ _ _ _ _ Ho)) as Hnd.
  rewrite fmap_app, fmap_cons, <- Permutation_middle in Hnd. apply NoDup_cons in Hnd as [Hnd _]. apply Hnd.
  rewrite <- fmap_app. apply (list_elem_of_fmap_2 fst _ (a', e')). by apply elem_of_app.
Qed.

Lemma append_case st m b p l0 a e asn ski d :
  refines st m -> backward st -> (b < KS_BUCKETS)%nat -> head st !! b = Some p ->
  seg (elems st) p (l0 ++ [(a, e)]) None -> bucket_ok (algorithmID st) (isPrivate st) b (l0 ++ [(a, e)]) m ->
  _ks_getBucket asn = b -> m !! (asn, ski) = None -> der_ok (isPrivate st) d -> length ski = BgpsecPath.SKI_LENGTH ->
  Forall (fun c => e_asn c.2 <= asn) (l0 ++ [(a, e)]) ->
  exists st', append_elem st a e (key_of (algorithmID st) asn ski d) true (e_asn e <? asn) = Ok (st', API_STATUS_OK)
    /\ extends st st' (<[(asn, ski) := [d]]> m)
    /\ head st' = head st /\ seg (elems st') p (l0 ++ [(a, set_next e (Some (fresh_elem st)));
         (fresh_elem st, new_elem (if e_asn e <? asn then Some a else None) None (algorithmID st) asn ski (isPrivate st) d)]) None.
Proof.
  intros Hr Hbw Hb Hp Hs Ho Hbk Hm Hok Hk Hle. unfold append_elem. rewrite create_eq by done. cbn [mbind outcome_bind].
  set (n := fresh_elem st). destruct (bucket_of_key _ _ _ _ _ a e Hr Ho Hs) as [Ha Hbe]; [set_solver|].
  pose proof (fresh_not _ _ _ Ha) as Hna. fold n in Hna.
  pose proof (fun a' e' => address_once st m b p l0 a e [] a' e' Ho Hs) as Honce.
  set (setPrev := e_asn e <? asn). set (ne := if setPrev then _ else _).
  assert (ne = new_elem (if setPrev then Some a else None) None (algorithmID st) asn ski (isPrivate st) d) as ->
    by (subst ne; by destruct setPrev).
  eexists. split; [reflexivity|]. cbn [elems put set_size head].
  assert (seg (<[n := new_elem (if setPrev then Some a else None) None (algorithmID st) asn ski (isPrivate st) d]>
                 (<[a := set_next e (Some n)]> (elems st))) p
            (l0 ++ [(a, set_next e (Some n)); (n, new_elem (if setPrev then Some a else None) None (algorithmID st) asn ski (isPrivate st) d)]) None) as Hs'.
  { apply seg_app in Hs as (r & H1 & -> & _ & _). apply seg_app. exists (Some a).
    split; [|split; [done|split; [by rewrite lookup_insert_ne, lookup_insert_eq|split; [done|split; [by rewrite lookup_insert_eq|done]]]]].
    eapply seg_frame; [exact H1|]. intros a3 e3 Hin. pose proof (seg_lookup _ _ _ _ _ _ H1 Hin) as H3.
    rewrite !lookup_insert_ne; [done| |by eapply fresh_not].
    apply (Honce a3 e3). by left. }
  set (nel := new_elem _ _ _ _ _ _ _) in *. set (nc := (n, nel)).
  split; [|by split]. destruct (refines_bucket st (put (put (set_size st (size st + 1)) a (set_next e (Some n))) n nel) m b p
    (l0 ++ [(a, set_next e (Some n)); nc]) (asn, ski) [d]) as [Hr' Hb']; try done.
  - cbn. by rewrite list_insert_id.
  - cbn. intros a3 e3 H3 Hb3. rewrite !lookup_insert_ne; [done| |by eapply fresh_not].
    intros <-. rewrite Ha in H3. by injection H3 as <-.
  - change [(a, set_next e (Some n)); nc] with ([(a, set_next e (Some n))] ++ [nc]). rewrite (assoc_L (++)).
    change (asn, ski) with (e_key nel). subst nc. apply bucket_ok_insert; [|done|done|by apply new_elem_ok| |done].
    + rewrite app_nil_r. eapply bucket_ok_same; [|exact Ho]. apply Forall2_app; [apply same_cells_refl|]. by repeat constructor.
    + apply Forall_app in Hle as [Hle1 Hle2]. apply Forall_app; split; [done|]. apply Forall_singleton.
      exact (proj1 (Forall_singleton _ _) Hle2).
  - change [(a, set_next e (Some n)); nc] with ([(a, set_next e (Some n))] ++ [nc]). rewrite (assoc_L (++)).
    apply prevs_app. split; [apply (prevs_same None l0 a e); [done|done|exact (Hbw _ _ _ Hp Hs)]|].
    rewrite last_snoc. cbn [prevs nc]. split; [|done]. subst nel setPrev. cbn. destruct (Z.ltb_spec (e_asn e) asn); [by left|].
    right. split; [done|]. apply Forall_app in Hle as [_ Hle]. pose proof (proj1 (Forall_singleton _ _) Hle) as Hle'. cbn in Hle' |- *. lia.
Qed.

Lemma prevs_first a e e' l : e_asn e' = e_asn e -> prevs (Some (a, e)) l -> prevs (Some (a, e')) l.
Proof. intros He Hl. destruct l as [|[a2 e2] l]; [done|]. cbn [prevs] in *. by rewrite He. Qed.

(** The new element goes before [(a, e)]; the element before it gets a new
    pointer. *)
Lemma insert_case st m b p l1 a e l2 asn ski d :
  refines st m -> backward st -> (b < KS_BUCKETS)%nat -> head st !! b = Some p ->
  seg (elems st) p (l1 ++ (a, e) :: l2) None -> bucket_ok (algorithmID st) (isPrivate st) b (l1 ++ (a, e) :: l2) m ->
  _ks_getBucket asn = b -> m !! (asn, ski) = None -> der_ok (isPrivate st) d -> length ski = BgpsecPath.SKI_LENGTH ->
  Forall (fun c => e_asn c.2 <= asn) l1 -> asn < e_asn e ->
  exists st', insert_elem st b a e (key_of (algorithmID st) asn ski d) true = Ok (st', API_STATUS_OK)
    /\ extends st st' (<[(asn, ski) := [d]]> m).
Proof.
  intros Hr Hbw Hb Hp Hs Ho Hbk Hm Hok Hk Hle Hlt. unfold insert_elem. rewrite create_eq by done. cbn [mbind outcome_bind].
  set (n := fresh_elem st). destruct (bucket_of_key _ _ _ _ _ a e Hr Ho Hs) as [Ha Hbe]; [set_solver|].
  pose proof (fresh_not _ _ _ Ha) as Hna. fold n in Hna.
  pose proof (fun a' e' => address_once st m b p l1 a e l2 a' e' Ho Hs) as Honce.
  pose proof (Hbw _ _ _ Hp Hs) as Hpr. apply prevs_app in Hpr as [Hpr1 Hpr2].
  assert (forall l1', Forall2 same_cell l1 l1' ->
            bucket_ok (algorithmID st) (isPrivate st) b
              (l1' ++ (n, new_elem (prev e) (Some a) (algorithmID st) asn ski (isPrivate st) d) :: (a, set_prev e (Some n)) :: l2)
              (<[(asn, ski) := [d]]> m)) as Hbo.
  { intros l1' Hsame. pose (nel := new_elem (prev e) (Some a) (algorithmID st) asn ski (isPrivate st) d).
    change (asn, ski) with (e_key nel). apply bucket_ok_insert; [|done|done|by apply new_elem_ok| |].
    - eapply bucket_ok_same; [|exact Ho]. apply Forall2_app; [done|]. constructor; [done|apply same_cells_refl].
    - clear - Hsame Hle. induction Hsame as [|c c' l l' [_ [Hk _]] _ IH]; constructor; apply Forall_cons in Hle as [Hle1 Hle2]; [|by apply IH].
      cbn. injection Hk as -> _. done.
    - pose proof (bo_sorted _ _ _ _ _ Ho) as Hsrt. apply StronglySorted_app in Hsrt as (_ & _ & Hsrt).
      apply StronglySorted_inv in Hsrt as [_ Hf]. constructor; [cbn; lia|].
      eapply Forall_impl; [exact Hf|]. intros c. unfold asn_le. cbn. lia. }
  destruct l1 as [|[p' pe] l1 _] using rev_ind.
  - cbn [app last] in *. destruct Hpr2 as [Hpe Hpr2]. rewrite Hpe in Hbo. cbn [set_size put set_head set_prev prev]. rewrite Hpe.
    eexists. split; [reflexivity|]. destruct Hs as (-> & _ & Hs).
    destruct (refines_bucket st (set_head (put (put (set_size st (size st + 1)) n
        (new_elem None (Some a) (algorithmID st) asn ski (isPrivate st) d)) a (set_prev e (Some n))) b (Some n)) m b (Some n)
      ((n, new_elem None (Some a) (algorithmID st) asn ski (isPrivate st) d) :: (a, set_prev e (Some n)) :: l2) (asn, ski) [d])
      as [Hr' Hb']; try done.
    + cbn. intros a3 e3 H3 Hb3. rewrite !lookup_insert_ne; [done|by eapply fresh_not|].
      intros <-. rewrite Ha in H3. by injection H3 as <-.
    + cbn. rewrite lookup_insert_ne, lookup_insert_eq by done. split; [done|]. split; [done|]. split; [done|].
      rewrite lookup_insert_eq. split; [done|]. eapply seg_frame; [exact Hs|]. intros a3 e3 Hin.
      pose proof (seg_lookup _ _ _ _ _ _ Hs Hin) as H3. rewrite !lookup_insert_ne; [done|by eapply fresh_not|].
      apply (Honce a3 e3). by right.
    + by apply (Hbo []).
    + split; [done|]. split; [by left|]. by apply (prevs_first a e).
  - rewrite last_snoc in Hpr2. destruct Hpr2 as [Hpe Hpr2]. rewrite <- (assoc_L (++)) in *. cbn [app] in *.
    apply Forall_app in Hle as [Hle1 Hle2]. pose proof (proj1 (Forall_singleton _ _) Hle2) as Hle3. cbn in Hle3.
    destruct Hpe as [Hpe|[_ Hpe]]; [|lia]. rewrite Hpe in Hbo. rewrite Hpe.
    destruct (bucket_of_key _ _ _ _ _ p' pe Hr Ho Hs) as [Hp' Hbp]; [set_solver|].
    pose proof (fresh_not _ _ _ Hp') as Hnp. fold n in Hnp.
    assert (a <> p') as Hap by (apply (Honce p' pe); set_solver).
    pose proof (fun a' e' => address_once st m b p l1 p' pe ((a, e) :: l2) a' e' Ho Hs) as Honce'.
    pose (st2 := put (put (put (set_size st (size st + 1)) n (new_elem (Some p') (Some a) (algorithmID st) asn ski (isPrivate st) d))
                   a (set_prev e (Some n))) p' (set_next pe (Some n))).
    exists st2. split.
    { cbn [set_size put elems set_prev set_next new_elem prev next]. unfold deref.
      rewrite !lookup_insert_ne by done. rewrite Hp'. done. }
    destruct (refines_bucket st st2 m b p ((l1 ++ [(p', set_next pe (Some n))]) ++
        (n, new_elem (Some p') (Some a) (algorithmID st) asn ski (isPrivate st) d) :: (a, set_prev e (Some n)) :: l2) (asn, ski) [d])
      as [Hr' Hb']; try done.
    + cbn. by rewrite list_insert_id.
    + cbn. intros a3 e3 H3 Hb3. rewrite !lookup_insert_ne; [done|by eapply fresh_not| |];
        intros <-; [rewrite Ha in H3|rewrite Hp' in H3]; by injection H3 as <-.
    + apply seg_app in Hs as (r & H1 & -> & _ & _ & _ & H2). rewrite <- (assoc_L (++)). cbn [app].
      assert (forall a3 e3, (a3, e3) ∈ l1 \/ (a3, e3) ∈ l2 -> elems st !! a3 = Some e3 -> elems st2 !! a3 = Some e3) as Hfr.
      { intros a3 e3 Hin H3. cbn. rewrite !lookup_insert_ne; [done|by eapply fresh_not| |].
        - apply (Honce a3 e3). set_solver.
        - apply (Honce' a3 e3). set_solver. }
      apply seg_app. exists (Some p'). split.
      { eapply seg_frame; [exact H1|]. intros a3 e3 Hin. apply Hfr; [by left|]. exact (seg_lookup _ _ _ _ _ _ H1 Hin). }
      split; [done|]. split; [cbn; by rewrite lookup_insert_eq|]. split; [done|].
      split; [cbn; by rewrite !lookup_insert_ne, lookup_insert_eq by done|]. split; [done|].
      split; [cbn; by rewrite lookup_insert_ne, lookup_insert_eq by done|].
      eapply seg_frame; [exact H2|]. intros a3 e3 Hin. apply Hfr; [by right|]. exact (seg_lookup _ _ _ _ _ _ H2 Hin).
    + apply Hbo. apply Forall2_app; [apply same_cells_refl|]. by repeat constructor.
    + apply prevs_app. split; [by apply (prevs_same None l1 p' pe)|]. rewrite last_snoc. split; [by left|].
      split; [by left|]. by apply (prevs_first a e).
Qed.

Lemma first_case st m b asn ski d :
  refines st m -> backward st -> (b < KS_BUCKETS)%nat -> head st !! b = Some None ->
  _ks_getBucket asn = b -> der_ok (isPrivate st) d -> length ski = BgpsecPath.SKI_LENGTH ->
  let n := fresh_elem st in
  extends st (set_head (put (set_size st (size st + 1)) n (new_elem None None (algorithmID st) asn ski (isPrivate st) d)) b (Some n))
    (<[(asn, ski) := [d]]> m).
Proof.
  intros Hr Hbw Hb Hp Hbk Hok Hk n. destruct (rf_bucket _ _ Hr _ _ Hp) as (l & Hs & Ho).
  destruct l as [|[a e] l]; [|by destruct Hs]. set (nel := new_elem _ _ _ _ _ _ _).
  assert (m !! (asn, ski) = None) as Hm.
  { destruct (m !! (asn, ski)) eqn:Em; [|done]. pose proof (bo_complete _ _ _ _ _ Ho (asn, ski) Hbk (mk_is_Some _ _ Em)) as Hin.
    by apply not_elem_of_nil in Hin. }
  destruct (refines_bucket st (set_head (put (set_size st (size st + 1)) n nel) b (Some n)) m b (Some n) [(n, nel)] (asn, ski) [d])
    as [Hr' Hb']; try done.
  - cbn. intros a3 e3 H3 _. rewrite lookup_insert_ne; [done|by eapply fresh_not].
  - cbn. by rewrite lookup_insert_eq.
  - change (asn, ski) with (e_key nel). apply (bucket_ok_insert _ _ _ [] []); try done. by apply new_elem_ok.
Qed.

(** The map with a key registered. *)
Definition keys_at m (asn : Z) (ski : list Z) : list (list Z) := default [] (m !! (asn, ski)).
Definition registered m (asn : Z) (ski d : list Z) : keymap :=
  if decide (d ∈ keys_at m asn ski) then m else <[(asn, ski) := keys_at m asn ski ++ [d]]> m.

Lemma ahead_le asn ski l : Forall (fun c => e_asn c.2 <= asn) (ahead asn ski l).
Proof.
  eapply Forall_impl; [apply ahead_passed|]. intros c Hc. cbv beta in Hc. pose proof (passed_cases asn ski c) as Hp.
  rewrite Hc in Hp. lia.
Qed.

Lemma storeKey_new st m asn ski d :
  refines st m -> backward st -> m !! (asn, ski) = None -> der_ok (isPrivate st) d -> length ski = BgpsecPath.SKI_LENGTH ->
  exists st', ks_storeKey (Some st) (key_of (algorithmID st) asn ski d) true = Ok (Some st', API_SUCCESS, API_STATUS_OK)
    /\ extends st st' (<[(asn, ski) := [d]]> m).
Proof.
  intros Hr Hbw Hm Hok Hk. pose proof (getBucket_lt asn) as Hb.
  destruct (bucket_list _ _ _ Hr Hb) as (p & l & Ep & Hp & Hs & Ho & Hlen).
  unfold ks_storeKey. cbn [key_of k_algoID k_asn]. rewrite Z.eqb_refl, Ep. cbn [mbind outcome_bind].
  destruct l as [|[a e] l].
  { cbn in Hs. subst p. rewrite create_eq by done. cbn [mbind outcome_bind].
    eexists. split; [reflexivity|]. by apply first_case. }
  pose proof Hs as (-> & _ & _). rewrite (store_loop_seg st _ _ _ _ l a e) by (first [done|cbn in Hlen; lia]).
  change (k_asn (key_of (algorithmID st) asn ski d)) with asn. change (k_ski (key_of (algorithmID st) asn ski d)) with ski.
  pose proof (ahead_from asn ski ((a, e) :: l)) as El. pose proof (ahead_le asn ski ((a, e) :: l)) as Hle.
  pose proof (from_bucket _ _ _ _ _ asn ski Ho Hk eq_refl) as Hf. rewrite Hm in Hf.
  destruct (from asn ski ((a, e) :: l)) as [|[a' e'] l2].
  - rewrite app_nil_r in El. rewrite El in Hle. destruct (last ((a, e) :: l)) as [[a1 e1]|] eqn:Hl; [|by apply last_None in Hl].
    apply last_Some in Hl as [l0 Hl]. rewrite Hl in Hs, Ho, Hle.
    destruct (append_case st m (_ks_getBucket asn) (Some a) l0 a1 e1 asn ski d) as (st' & E1 & Hx & _); try done.
    rewrite E1. cbn [mbind outcome_bind]. by exists st'.
  - rewrite (proj2 (Z.eqb_neq _ _)) by lia. rewrite <- El in Hs, Ho.
    destruct (insert_case st m (_ks_getBucket asn) (Some a) (ahead asn ski ((a, e) :: l)) a' e' l2 asn ski d)
      as (st' & E1 & Hx); try done.
    rewrite E1. cbn [mbind outcome_bind]. by exists st'.
Qed.

Lemma storeKey_known st m asn ski d ds :
  refines st m -> backward st -> m !! (asn, ski) = Some ds -> der_ok (isPrivate st) d -> length ski = BgpsecPath.SKI_LENGTH ->
  Z.of_nat (S (length ds)) < 2 ^ 16 ->
  exists st' s, ks_storeKey (Some st) (key_of (algorithmID st) asn ski d) true = Ok (Some st', API_SUCCESS, s)
    /\ if decide (d ∈ ds) then st' = st /\ s = API_STATUS_INFO_USER1
       else s = API_STATUS_OK /\ extends st st' (<[(asn, ski) := ds ++ [d]]> m).
Proof.
  intros Hr Hbw Hm Hok Hk Hsz. pose proof (getBucket_lt asn) as Hb.
  destruct (bucket_list _ _ _ Hr Hb) as (p & l & Ep & Hp & Hs & Ho & Hlen).
  unfold ks_storeKey. cbn [key_of k_algoID k_asn]. rewrite Z.eqb_refl, Ep. cbn [mbind outcome_bind].
  pose proof (from_bucket _ _ _ _ _ asn ski Ho Hk eq_refl) as Hf. rewrite Hm in Hf. destruct Hf as (a' & e' & l2 & Ef & Ha & Hski & He).
  destruct l as [|[a e] l]; [done|]. pose proof Hs as (-> & _ & _).
  rewrite (store_loop_seg st _ _ _ _ l a e) by (first [done|cbn in Hlen; lia]).
  change (k_asn (key_of (algorithmID st) asn ski d)) with asn. change (k_ski (key_of (algorithmID st) asn ski d)) with ski.
  rewrite Ef, Ha, Z.eqb_refl.
  subst asn ski.
  destruct (decide (d ∈ ds)) as [Hin|Hnin].
  - exists st, API_STATUS_INFO_USER1. split; [|done]. unfold add_to_elem. destruct He as [Hder _ Hn _ _ _ _].
    rewrite Hn, Nat2Z.id, Hder, is_duplicate_eq, drop_0, bool_decide_true by done. done.
  - pose proof (ahead_from (e_asn e') (e_ski e') ((a, e) :: l)) as El. rewrite Ef in El. rewrite <- El in Hs, Ho.
    destruct (add_case st m (_ks_getBucket (e_asn e')) (Some a) (ahead (e_asn e') (e_ski e') ((a, e) :: l)) a' e' l2 ds d API_STATUS_OK) as (st' & E1 & Hx); try done.
    rewrite E1. cbn [mbind outcome_bind]. by exists st', API_STATUS_OK.
Qed.

(** ** The empty storage, and registering a sequence of keys *)
Lemma ks_init_refines algo ip : refines (ks_init algo ip : KeyStorage E) ∅ /\ backward (ks_init algo ip : KeyStorage E).
Proof.
  assert (forall b p, head (ks_init algo ip : KeyStorage E) !! b = Some p -> p = None) as Hnone
    by (intros b p Hp; by apply lookup_replicate in Hp as [-> _]).
  split; [split|].
  - done.
  - intros b p Hp. exists []. rewrite (Hnone _ _ Hp). split; [done|]. split; try by constructor.
    intros k _ [? Hk]. by rewrite lookup_empty in Hk.
  - intros b p l Hp Hs. rewrite (Hnone _ _ Hp) in Hs. destruct l as [|[a e] l]; [done|]. by destruct Hs.
Qed.

Definition key_ok (ip : bool) (k : Z * list Z * list Z) : Prop := der_ok ip k.2 /\ length k.1.2 = BgpsecPath.SKI_LENGTH.
Fixpoint store_keys st (keys : list (Z * list Z * list Z)) : outcome (KeyStorage E) :=
  match keys with
  | [] => Ok st
  | (asn, ski, d) :: keys' =>
      '(st', _, _) ← ks_storeKey (Some st) (key_of (algorithmID st) asn ski d) true;
      match st' with Some st' => store_keys st' keys' | None => Fault NullDeref end
  end.
Fixpoint registered_all m (keys : list (Z * list Z * list Z)) : keymap :=
  match keys with
  | [] => m
  | (asn, ski, d) :: keys' => registered_all (registered m asn ski d) keys'
  end.

Lemma storeKey_eq st m asn ski d :
  refines st m -> backward st -> key_ok (isPrivate st) (asn, ski, d) -> Z.of_nat (S (length (keys_at m asn ski))) < 2 ^ 16 ->
  exists st' s, ks_storeKey (Some st) (key_of (algorithmID st) asn ski d) true = Ok (Some st', API_SUCCESS, s)
    /\ refines st' (registered m asn ski d) /\ backward st' /\ algorithmID st' = algorithmID st /\ isPrivate st' = isPrivate st.
Proof.
  intros Hr Hbw [Hok Hk] Hsz. cbn [fst snd] in *. unfold registered. unfold keys_at in *.
  destruct (m !! (asn, ski)) as [ds|] eqn:Em; cbn [default] in *.
  - destruct (storeKey_known st m asn ski d ds) as (st' & s & E1 & Hx); try done. exists st', s. split; [done|].
    change (id ds) with ds. destruct (decide (d ∈ ds)); [by destruct Hx as [-> _]|]. by destruct Hx as [_ []].
  - destruct (storeKey_new st m asn ski d) as (st' & E1 & []); try done. exists st', API_STATUS_OK.
    rewrite decide_False by (apply not_elem_of_nil). done.
Qed.

Lemma store_keys_eq keys : forall st m N,
  refines st m -> backward st -> Forall (key_ok (isPrivate st)) keys ->
  (forall asn ski, (length (keys_at m asn ski) <= N)%nat) -> Z.of_nat (N + length keys) < 2 ^ 16 ->
  exists st', store_keys st keys = Ok st' /\ refines st' (registered_all m keys) /\ backward st'
    /\ algorithmID st' = algorithmID st /\ isPrivate st' = isPrivate st.
Proof.
  induction keys as [|[[asn ski] d] keys IH]; intros st m N Hr Hbw Hok HN Hsz; [by exists st|].
  apply Forall_cons in Hok as [Hok1 Hok]. cbn [length] in Hsz. pose proof (HN asn ski) as Hn.
  destruct (storeKey_eq st m asn ski d) as (st' & s & E1 & Hr' & Hbw' & Ea & Ei); [done..|lia|].
  cbn [store_keys registered_all]. rewrite E1. cbn [mbind outcome_bind].
  destruct (IH st' (registered m asn ski d) (S N)) as (st2 & E2 & Hr2 & Hbw2 & Ea2 & Ei2); [done|done|by rewrite Ei| |lia|].
  { intros asn' ski'. unfold registered. destruct (decide _); [pose proof (HN asn' ski'); lia|].
    unfold keys_at at 1. destruct (decide ((asn, ski) = (asn', ski'))) as [[= <- <-]|Hne].
    - rewrite lookup_insert_eq. cbn. rewrite length_app. simpl. lia.
    - rewrite lookup_insert_ne by done. pose proof (HN asn' ski'). unfold keys_at in *. lia. }
  exists st2. rewrite Ea2, Ei2. done.
Qed.

(** C33 After any sequence of fewer than 2^16 registrations, of keys of 1 to 65535
    octets, of the algorithm of the storage, that OpenSSL can convert, under SKIs of 20 octets, the storage
    finds, for every AS number and SKI, exactly the keys registered for them,
    converted and in the order of registration without duplicates. *)
Theorem registered_keys_found algo ip keys :
  Forall (key_ok ip) keys -> Z.of_nat (length keys) < 2 ^ 16 ->
  exists st, store_keys (ks_init algo ip) keys = Ok st
    /\ forall asn ski, length ski = BgpsecPath.SKI_LENGTH ->
        ks_getKey (Some st) ski asn ks_eckey_e
        = let '(found_keys, n, s) := found ip (registered_all ∅ keys !! (asn, ski)) in Ok (Some st, found_keys, n, s).
Proof.
  intros Hok Hsz. destruct (ks_init_refines algo ip) as [Hr Hbw].
  destruct (store_keys_eq keys (ks_init algo ip) ∅ 0) as (st & E1 & Hr' & _ & _ & Ei); [done..|].
  exists st. split; [done|]. intros asn ski Hk. rewrite (getKey_eq st _ ski asn Hr' Hk), Ei. done.
Qed.

End storage.
End KeyStorageTheorems.
