(* ===== verification/KeyRemoval.v ===== *)
(** * Removing keys from the key storage

    [ks_delKey] removes a key that is the only one of its AS; a key registered
    behind another one of the same AS takes the keys in front of it along, and the
    first of two keys with one SKI takes the second. *)
From S2P Require Import Prelude SrxDefs BgpsecPath UpdateCache HashMessage KeyStorage KeyStorageTheorems.

Module KeyRemoval.
Import HashMessage KeyStorage KeyStorageTheorems.

Section storage.
Context {E : Type} `{EcKeys E}.
Abbreviation Elem := (KS_Key_Element E).
Abbreviation cell := (positive * Elem)%type.
Abbreviation keymap := (gmap (Z * list Z) (list (list Z))).
Implicit Types (st : KeyStorage E) (l : list cell) (e : Elem) (a n : positive) (p q : option positive) (m : keymap).

(** ** Taking an element out of a list *)

(** The next element loses its pointer back. *)
Definition unlink_next l : list cell := match l with [] => [] | (n, ne) :: l' => (n, set_prev ne None) :: l' end.
(** The element before gets a new pointer. *)
Definition relink l1 q : list cell :=
  match last l1 with Some (p, pe) => removelast l1 ++ [(p, set_next pe q)] | None => [] end.

Lemma free_keys_ok {A} (dk : list (slot BGPSecKey)) (ek : list (slot E)) (f : A -> option BGPSecKey) (g : A -> option E) (ds : list A) :
  dk = (fun d => Slot (f d)) <$> ds -> ek = (fun d => Slot (g d)) <$> ds ->
  forall k idx : nat, (idx + k = length ds)%nat -> free_keys k idx dk ek = Ok tt.
Proof.
  intros -> -> k. induction k as [|k IH]; intros idx Hi; [done|]. cbn [free_keys].
  destruct (lookup_lt_is_Some_2 ds idx) as [d Hd]; [lia|].
  unfold get_slot, arr_get. rewrite !list_lookup_fmap, Hd. cbn [fmap option_fmap option_map mbind outcome_bind].
  apply IH. lia.
Qed.

Lemma same_next e p : same_elem e (set_next e p).
Proof. done. Qed.
Lemma same_prev e p : same_elem e (set_prev e p).
Proof. done. Qed.

Lemma unlink_same l : Forall2 same_cell l (unlink_next l).
Proof. destruct l as [|[n ne] l]; constructor; [done|apply same_cells_refl]. Qed.
Lemma relink_same l1 q : Forall2 same_cell l1 (relink l1 q).
Proof.
  unfold relink. destruct l1 as [|[p pe] l1 _] using rev_ind; [constructor|].
  rewrite last_snoc, removelast_last. apply Forall2_app; [apply same_cells_refl|]. by repeat constructor.
Qed.

Lemma same_addresses l l' a e : Forall2 same_cell l l' -> (a, e) ∈ l' -> exists e', (a, e') ∈ l.
Proof.
  induction 1 as [|[a1 e1] [a2 e2] l l' [Ha _] _ IH]; intros Hin; [by apply not_elem_of_nil in Hin|].
  cbn in Ha. subst a2. apply elem_of_cons in Hin as [[= -> ->]|Hin]; [exists e1; set_solver|].
  destruct (IH Hin) as [e' Hin']. exists e'. set_solver.
Qed.

(** The element leaves the list when its pointer back is right. *)
Lemma freeElem_linked st b p l1 a e l2 :
  head st !! b = Some p -> seg (elems st) p (l1 ++ (a, e) :: l2) None -> NoDup (l1 ++ (a, e) :: l2).*1 ->
  prev e = match last l1 with Some (p', _) => Some p' | None => None end ->
  free_keys (Z.to_nat (noKeys e)) 0 (derKey e) (ec_key e) = Ok tt ->
  exists st' p', _ks_freeKS_Elem st b a = Ok st' /\ head st' = <[b := p']> (head st)
    /\ algorithmID st' = algorithmID st /\ isPrivate st' = isPrivate st /\ size st' = u32 (size st - noKeys e)
    /\ seg (elems st') p' (relink l1 (next e) ++ unlink_next l2) None
    /\ forall a' e', elems st !! a' = Some e' -> a' ∉ (l1 ++ (a, e) :: l2).*1 -> elems st' !! a' = Some e'.
Proof.
  intros Hh Hs Hnd Hp Hfree. assert (elems st !! a = Some e) as Ha by (eapply seg_lookup; [done|set_solver]).
  assert (forall a' e', (a', e') ∈ l1 \/ (a', e') ∈ l2 -> a' <> a) as Hna.
  { intros a' e' Hin ->. rewrite fmap_app, fmap_cons, <- Permutation_middle in Hnd. apply NoDup_cons in Hnd as [Hnd _].
    apply Hnd. rewrite <- fmap_app. apply (list_elem_of_fmap_2 fst _ (a, e')). by apply elem_of_app. }
  assert (NoDup (l1 ++ l2).*1) as Hnd'
    by (rewrite fmap_app, fmap_cons, <- Permutation_middle in Hnd; apply NoDup_cons in Hnd as [_ Hnd]; by rewrite fmap_app).
  unfold _ks_freeKS_Elem, deref. rewrite Ha. cbn [mbind outcome_bind set_size elems].
  apply seg_app in Hs as (r & H1 & -> & _ & H2).
  (* the list in front *)
  pose (p1 := match last l1 with Some _ => p | None => next e end).
  pose (h1 := match last l1 with Some (p', pe) => <[p' := set_next pe (next e)]> (elems st) | None => elems st end).
  assert (seg h1 p1 (relink l1 (next e)) (next e)
          /\ forall a' e', elems st !! a' = Some e' -> a' ∉ l1.*1 -> h1 !! a' = Some e') as [Hs1 Hf1].
  { subst h1 p1. unfold relink. destruct l1 as [|[p' pe] l1 _] using rev_ind; [done|]. rewrite last_snoc, removelast_last.
    apply seg_app in H1 as (r & H1 & -> & Hp' & _). split.
    - apply seg_app. exists (Some p'). split; [|split; [done|split; [by rewrite lookup_insert_eq|done]]].
      eapply seg_frame; [exact H1|]. intros a' e' Hin. rewrite lookup_insert_ne; [exact (seg_lookup _ _ _ _ _ _ H1 Hin)|].
      intros ->. rewrite !fmap_app in Hnd'. apply NoDup_app in Hnd' as (Hnd' & _). apply NoDup_app in Hnd' as (_ & Hd & _).
      apply (Hd a'); [by apply (list_elem_of_fmap_2 fst _ (a', e'))|]. set_solver.
    - intros a' e' He' Hnin. rewrite lookup_insert_ne; [done|]. intros ->. apply Hnin. rewrite fmap_app. set_solver. }
  (* the list behind *)
  pose (h2 := match l2 with (n, ne) :: _ => <[n := set_prev ne None]> h1 | [] => h1 end).
  assert (forall a' e', (a', e') ∈ l2 -> h1 !! a' = Some e') as Hl2.
  { intros a' e' Hin. apply Hf1; [by eapply seg_lookup|]. rewrite fmap_app in Hnd'.
    apply NoDup_app in Hnd' as (_ & Hd & _). intros Hin'. apply (Hd a' Hin'). by apply (list_elem_of_fmap_2 fst _ (a', e')). }
  assert (seg h2 (next e) (unlink_next l2) None
          /\ forall a' e', h1 !! a' = Some e' -> a' ∉ l2.*1 -> h2 !! a' = Some e') as [Hs2 Hf2].
  { subst h2. destruct l2 as [|[n ne] l2]; [done|]. destruct H2 as (-> & Hn & H2). split.
    - split; [done|]. split; [by rewrite lookup_insert_eq|]. cbn [next set_prev]. eapply seg_frame; [exact H2|].
      intros a' e' Hin. rewrite lookup_insert_ne; [apply Hl2; set_solver|]. intros <-.
      rewrite fmap_app in Hnd'. apply NoDup_app in Hnd' as (_ & _ & Hnd'). apply NoDup_cons in Hnd' as [Hnd' _].
      apply Hnd'. by apply (list_elem_of_fmap_2 fst _ (n, e')).
    - intros a' e' He' Hnin. rewrite lookup_insert_ne; [done|]. intros ->. apply Hnin. cbn. set_solver. }
  pose (st1 := match last l1 with Some (p', pe) => put (set_size st (size st - noKeys e)) p' (set_next pe (next e))
                             | None => set_head (set_size st (size st - noKeys e)) b (next e) end).
  pose (st2 := match l2 with (n, ne) :: _ => put st1 n (set_prev ne None) | [] => st1 end).
  assert (elems st1 = h1) as Eh1 by (subst st1 h1; by destruct (last l1) as [[]|]).
  assert (elems st2 = h2) as Eh2 by (subst st2 h2; destruct l2 as [|[n ne] l2]; [done|]; by rewrite <- Eh1).
  exists (drop_elem st2 a), p1. rewrite Hp. split; [|split; [|split; [|split; [|split; [|split]]]]].
  - assert (match match last l1 with Some (p', _) => Some p' | None => None end with
            | Some p0 => pe ← match elems st !! p0 with Some x => Ok x | None => Fault UseAfterDestroy end;
                         Ok (put (set_size st (size st - noKeys e)) p0 (set_next pe (next e)))
            | None => Ok (set_head (set_size st (size st - noKeys e)) b (next e)) end = Ok st1) as Est1.
    { subst st1. destruct (last l1) as [[p' pe]|] eqn:El; [|done]. apply last_Some in El as [l1' ->].
      rewrite (seg_lookup _ _ _ _ p' pe H1) by set_solver. done. }
    rewrite Est1. cbn [mbind outcome_bind].
    assert (match next e with
            | Some n => ne ← match elems st1 !! n with Some x => Ok x | None => Fault UseAfterDestroy end; Ok (put st1 n (set_prev ne None))
            | None => Ok st1 end = Ok st2) as ->.
    { subst st2. destruct l2 as [|[n ne] l2]; [by rewrite H2|]. destruct H2 as (-> & _ & _). rewrite Eh1, (Hl2 n ne) by set_solver. done. }
    cbn [mbind outcome_bind]. by rewrite Hfree.
  - subst st2 st1 p1. destruct l2 as [|[n ne] l2], (last l1) as [[p' pe]|]; cbn; first [done|by rewrite list_insert_id].
  - subst st2 st1. by destruct l2 as [|[n ne] l2], (last l1) as [[p' pe]|].
  - subst st2 st1. by destruct l2 as [|[n ne] l2], (last l1) as [[p' pe]|].
  - subst st2 st1. by destruct l2 as [|[n ne] l2], (last l1) as [[p' pe]|].
  - assert (seg h2 p1 (relink l1 (next e) ++ unlink_next l2) None) as Hs12.
    { apply seg_app. exists (next e). split; [|done]. eapply seg_frame; [exact Hs1|]. intros a' e' Hin.
      apply Hf2; [by eapply seg_lookup|]. rewrite fmap_app in Hnd'. apply NoDup_app in Hnd' as (_ & Hd & _). apply Hd.
      destruct (same_addresses _ _ _ _ (relink_same l1 (next e)) Hin) as [e3 Hin']. by apply (list_elem_of_fmap_2 fst _ (a', e3)). }
    cbn. rewrite Eh2. apply (seg_frame h2); [done|]. intros a' e' Hin.
    rewrite lookup_delete_ne; [by eapply seg_lookup|]. apply not_eq_sym.
    assert (exists e3, (a', e3) ∈ l1 ++ l2) as [e3 Hin'].
    { eapply same_addresses; [|exact Hin]. apply Forall2_app; [apply relink_same|apply unlink_same]. }
    apply (Hna a' e3). by apply elem_of_app.
  - intros a' e' He' Hnin. cbn. rewrite Eh2, fmap_app, fmap_cons in *. rewrite lookup_delete_ne by set_solver.
    apply Hf2; [apply Hf1; [done|set_solver]|set_solver].
Qed.


(** ** Removing a key *)
Lemma bucket_ok_delete algo ip b l1 a e l2 m :
  bucket_ok algo ip b (l1 ++ (a, e) :: l2) m -> bucket_ok algo ip b (l1 ++ l2) (delete (e_key e) m).
Proof.
  intros [Hb He Ho Hn Hc]. rewrite fmap_app, fmap_cons, <- Permutation_middle in Hn. cbn [snd] in Hn.
  apply NoDup_cons in Hn as [Hn1 Hn2].
  rewrite <- fmap_app in Hn1, Hn2. split.
  - apply Forall_app in Hb as [Hb1 Hb2]. apply Forall_cons in Hb2 as [_ Hb2]. by apply Forall_app.
  - apply Forall_forall. intros c Hin. destruct (proj1 (Forall_forall _ _) He c ltac:(set_solver)) as (ds & Hd & Hd').
    exists ds. rewrite lookup_delete_ne; [done|]. intros Hk. apply Hn1. rewrite Hk.
    by apply (list_elem_of_fmap_2 (fun c : cell => e_key c.2)).
  - apply StronglySorted_app in Ho as (H12 & H1 & H2). apply StronglySorted_inv in H2 as [H2 _].
    apply StronglySorted_app. split; [|done]. intros c1 c2 ? ?. apply H12; set_solver.
  - done.
  - intros k Hk [ds Hd]. apply lookup_delete_Some in Hd as [Hne Hd]. pose proof (Hc k Hk (mk_is_Some _ _ Hd)) as Hin.
    rewrite fmap_app, fmap_cons in Hin. rewrite fmap_app. set_solver.
Qed.

(** The storage after the element of a key left its list. *)
Lemma unlinked_refines st st2 st' m b p p' l1 a e e2 l2 :
  refines st m -> (b < KS_BUCKETS)%nat -> seg (elems st) p (l1 ++ (a, e) :: l2) None ->
  bucket_ok (algorithmID st) (isPrivate st) b (l1 ++ (a, e) :: l2) m ->
  head st2 = head st -> algorithmID st2 = algorithmID st -> isPrivate st2 = isPrivate st ->
  (forall a' e', elems st !! a' = Some e' -> a' <> a -> elems st2 !! a' = Some e') ->
  head st' = <[b := p']> (head st2) -> algorithmID st' = algorithmID st2 -> isPrivate st' = isPrivate st2 ->
  seg (elems st') p' (relink l1 (next e) ++ unlink_next l2) None ->
  (forall a' e', elems st2 !! a' = Some e' -> a' ∉ (l1 ++ (a, e2) :: l2).*1 -> elems st' !! a' = Some e') ->
  refines st' (delete (e_key e) m).
Proof.
  intros Hr Hb Hs Ho Eh Ea Ei Hf Eh' Ea' Ei' Hs' Hf'.
  eapply (refines_change st st'); [exact Hr|exact Hb| |by rewrite Eh', Eh|congruence|congruence| |exact Hs'|].
  - intros k Hk. apply lookup_delete_ne. intros <-. apply Hk.
    apply (proj1 (Forall_forall _ _) (bo_bucket _ _ _ _ _ Ho) (a, e)). set_solver.
  - intros a' e' He' Hbk. assert (a' ∉ (l1 ++ (a, e) :: l2).*1) as Hnin.
    { intros Hin. apply list_elem_of_fmap in Hin as ([a3 e3] & -> & Hin). cbn in *.
      pose proof (seg_lookup _ _ _ _ _ _ Hs Hin) as H3. rewrite He' in H3. injection H3 as <-.
      apply Hbk. apply (proj1 (Forall_forall _ _) (bo_bucket _ _ _ _ _ Ho) (a3, e')). done. }
    apply Hf'.
    + apply Hf; [done|]. intros ->. apply Hnin. rewrite fmap_app, fmap_cons. set_solver.
    + rewrite fmap_app, fmap_cons in *. exact Hnin.
  - eapply bucket_ok_same; [|by eapply bucket_ok_delete].
    apply Forall2_app; [apply relink_same|apply unlink_same].
Qed.

(** The only SKI of an AS: the pointer back is right. *)
Lemma only_ski_prev st m b p l1 a e l2 ds :
  refines st m -> backward st -> head st !! b = Some p -> seg (elems st) p (l1 ++ (a, e) :: l2) None ->
  bucket_ok (algorithmID st) (isPrivate st) b (l1 ++ (a, e) :: l2) m -> m !! e_key e = Some ds ->
  (forall ski, is_Some (m !! (e_asn e, ski)) -> ski = e_ski e) ->
  prev e = match last l1 with Some (p', _) => Some p' | None => None end.
Proof.
  intros Hr Hbw Hh Hs Ho Hm Honly. pose proof (Hbw _ _ _ Hh Hs) as Hp. apply prevs_app in Hp as [_ [Hp _]].
  destruct (last l1) as [[p' pe]|] eqn:El; [|done]. destruct Hp as [|[_ Ha]]; [done|exfalso].
  apply last_Some in El as [l1' ->]. destruct (proj1 (Forall_forall _ _) (bo_elems _ _ _ _ _ Ho) (p', pe) ltac:(set_solver)) as (ds' & Hd & _).
  unfold e_key in Hd. cbn in Hd. rewrite Ha in Hd. pose proof (Honly _ (mk_is_Some _ _ Hd)) as Hski.
  pose proof (bo_nodup _ _ _ _ _ Ho) as Hnd. rewrite <- (assoc_L (++)), !fmap_app in Hnd. apply NoDup_app in Hnd as (_ & _ & Hnd).
  cbn in Hnd. apply NoDup_cons in Hnd as [Hnd _]. apply Hnd. unfold e_key. rewrite Ha, Hski. set_solver.
Qed.

(** The number the size of the storage goes down by: without a DER key the keys of
    the element are counted twice. *)
Definition removed (keyData : option (list Z)) (ds : list (list Z)) : Z :=
  match keyData with None => 2 * Z.of_nat (length ds) | Some _ => 1 end.

Lemma del_elem_only st m b p l1 a e l2 ds keyLength keyData :
  refines st m -> (b < KS_BUCKETS)%nat -> head st !! b = Some p -> seg (elems st) p (l1 ++ (a, e) :: l2) None ->
  bucket_ok (algorithmID st) (isPrivate st) b (l1 ++ (a, e) :: l2) m -> elem_ok (algorithmID st) (isPrivate st) e ds ->
  prev e = match last l1 with Some (p', _) => Some p' | None => None end ->
  (keyData = None \/ exists d, keyData = Some d /\ keyLength = Z.of_nat (length d) /\ ds = [d]) ->
  exists st', del_elem st b a (mkBGPSecKey (algorithmID st) (e_asn e) (e_ski e) keyLength keyData) = Ok st'
    /\ refines st' (delete (e_key e) m) /\ size st' = u32 (size st - removed keyData ds)
    /\ algorithmID st' = algorithmID st /\ isPrivate st' = isPrivate st.
Proof.
  intros Hr Hb Hh Hs Ho He Hp Hd. pose proof He as [Hder Hec Hn _ _ _ _].
  assert (elems st !! a = Some e) as Ha by (eapply seg_lookup; [done|set_solver]).
  pose proof (nodup_addresses _ _ _ _ Hs (bo_nodup _ _ _ _ _ Ho)) as Hnd.
  unfold del_elem, deref. rewrite Ha. cbn [mbind outcome_bind k_keyData].
  destruct Hd as [->|(d & -> & -> & ->)].
  - destruct (freeElem_linked (set_size st (size st - noKeys e)) b p l1 a e l2) as (st' & p' & E1 & Eh & Ea & Ei & Es & Hs' & Hf);
      [done|done|done|done|rewrite Hn, Nat2Z.id; by apply (free_keys_ok _ _ _ _ ds Hder Hec)|].
    exists st'. split; [done|]. split; [|split; [|done]].
    + eapply (unlinked_refines st (set_size st (size st - noKeys e)) st'); try done.
    + rewrite Es. cbn [size set_size removed]. rewrite Hn. unfold wrap. rewrite Zminus_mod_idemp_l. f_equal. lia.
  - rewrite Hn, Hder, Hec.
    pose (e2 := set_keys e [Slot None] [Slot None] 0).
    pose (st2 := put (set_size st (size st - 1)) a e2).
    match goal with |- context [del_loop ?k ?i ?key ?f ?dk ?ek ?n] =>
      assert (del_loop k i key f dk ek n = Ok (true, [Slot None], [Slot None], 0)) as -> end.
    { change (Z.to_nat (Z.of_nat (length [d]))) with 1%nat. cbn [fmap list_fmap length del_loop Z.of_nat Pos.of_succ_nat Z.leb Z.compare get_slot arr_get lookup list_lookup mbind outcome_bind key_of k_keyLength k_keyData].
      rewrite Z.eqb_refl, same_data_eq, bool_decide_true by done. done. }
    cbn [mbind outcome_bind negb Z.eqb].
    fold e2. fold st2.
    assert (seg (elems st2) p (l1 ++ (a, e2) :: l2) None) as Hs2.
    { assert (forall a' e', (a', e') ∈ l1 \/ (a', e') ∈ l2 -> elems st !! a' = Some e' -> elems st2 !! a' = Some e') as Hfr.
      { intros a' e' Hin He'. cbn. rewrite lookup_insert_ne; [done|]. by eapply address_once. }
      apply seg_app in Hs as (r & H1 & -> & _ & H2). apply seg_app. exists (Some a). split.
      - eapply seg_frame; [exact H1|]. intros a' e' Hin. apply Hfr; [by left|]. exact (seg_lookup _ _ _ _ _ _ H1 Hin).
      - split; [done|]. split; [cbn; by rewrite lookup_insert_eq|]. eapply seg_frame; [exact H2|].
        intros a' e' Hin. apply Hfr; [by right|]. exact (seg_lookup _ _ _ _ _ _ H2 Hin). }
    destruct (freeElem_linked st2 b p l1 a e2 l2) as (st' & p' & E1 & Eh & Ea & Ei & Es & Hs' & Hf);
      [done|done|by rewrite fmap_app, fmap_cons in *|done|done|].
    exists st'. split; [done|]. split; [|split; [|done]].
    + eapply (unlinked_refines st st2 st'); try done. intros a' e' He' Hne. cbn. by rewrite lookup_insert_ne.
    + rewrite Es. change (u32 (u32 (size st - 1) - 0) = u32 (size st - 1)). unfold wrap. by rewrite Z.sub_0_r, Zmod_mod.
Qed.

(** C34 In a storage from which no element was removed before - each element has its
    link back -, removing the keys of an AS that has one SKI, or its only key, removes
    exactly them: afterwards every search finds what it found before, and nothing
    under the SKI.  The size of the storage goes down twice as far as it should when
    the call does not name a DER key.  (The element behind a removed one has lost its
    link back, so that the promise is for one removal.) *)
Theorem delKey_correct st m asn ski ds keyLength keyData :
  refines st m -> backward st -> m !! (asn, ski) = Some ds -> length ski = BgpsecPath.SKI_LENGTH ->
  (forall ski', is_Some (m !! (asn, ski')) -> ski' = ski) ->
  (keyData = None \/ exists d, keyData = Some d /\ keyLength = Z.of_nat (length d) /\ ds = [d]) ->
  exists st', ks_delKey (Some st) (mkBGPSecKey (algorithmID st) asn ski keyLength keyData) = Ok (Some st', API_SUCCESS, API_STATUS_OK)
    /\ refines st' (delete (asn, ski) m) /\ size st' = u32 (size st - removed keyData ds)
    /\ forall asn' ski', length ski' = BgpsecPath.SKI_LENGTH ->
        ks_getKey (Some st') ski' asn' ks_eckey_e
        = let '(keys, n, s) := found (isPrivate st) (delete (asn, ski) m !! (asn', ski')) in Ok (Some st', keys, n, s).
Proof.
  intros Hr Hbw Hm Hk Honly Hd. pose proof (getBucket_lt asn) as Hb.
  destruct (bucket_list _ _ _ Hr Hb) as (p & l & Ep & Hp & Hs & Ho & Hlen).
  unfold ks_delKey. cbn [k_algoID k_asn k_ski]. rewrite Z.eqb_refl, Ep. cbn [mbind outcome_bind negb].
  rewrite (find_elem_seg _ _ _ l) by done. cbn [mbind outcome_bind].
  pose proof (from_bucket _ _ _ _ _ asn ski Ho Hk eq_refl) as Hf. rewrite Hm in Hf. destruct Hf as (a & e & l2 & Ef & <- & <- & He).
  pose proof (ahead_from (e_asn e) (e_ski e) l) as El. rewrite Ef in El |- *. rewrite Z.eqb_refl. rewrite <- El in Hs, Ho.
  pose proof (only_ski_prev _ _ _ _ _ _ _ _ _ Hr Hbw Hp Hs Ho Hm Honly) as Hprev.
  destruct (del_elem_only _ _ _ _ _ _ _ _ _ keyLength keyData Hr Hb Hp Hs Ho He Hprev Hd) as (st' & E1 & Hr' & Es & Ea & Ei).
  rewrite E1. cbn [mbind outcome_bind]. exists st'. split; [done|]. split; [done|]. split; [done|].
  intros asn' ski' Hk'. by rewrite (getKey_eq st' _ ski' asn' Hr' Hk'), Ei.
Qed.

(** ** A second SKI of an AS *)
Lemma from_app asn ski l l' : from asn ski l = [] -> from asn ski (l ++ l') = from asn ski l'.
Proof. induction l as [|c l IH]; cbn; [done|]. by destruct (passed asn ski c). Qed.

Lemma from_same asn ski l l' : Forall2 same_cell l l' -> from asn ski l = [] -> from asn ski l' = [].
Proof.
  induction 1 as [|c c' l l' [_ [Hk _]] _ IH]; cbn; [done|]. injection Hk as Ha Hs. unfold passed. rewrite Ha, Hs.
  destruct (_ || _); [done|discriminate].
Qed.

Lemma last_max l a e asn ski : StronglySorted asn_le (l ++ [(a, e)]) ->
  (asn, ski) ∈ (fun c : cell => e_key c.2) <$> (l ++ [(a, e)]) -> asn <= e_asn e.
Proof.
  intros Hs Hin. apply list_elem_of_fmap in Hin as (c & Hk & Hin). injection Hk as -> _.
  apply elem_of_app in Hin as [Hin|Hin]; [|apply list_elem_of_singleton in Hin as ->; done].
  apply StronglySorted_app in Hs as [Hs _]. apply (Hs c (a, e)); set_solver.
Qed.

(** The bucket after its last element, which has no pointer back, was freed. *)
Lemma free_unlinked st b a (algo asn : Z) (ski d : list Z) : (b < length (head st))%nat ->
  elems st !! a = Some (new_elem None None algo asn ski (isPrivate st) d) ->
  exists st', del_elem st b a (key_of algo asn ski d) = Ok st' /\ head st' !! b = Some None.
Proof.
  intros Hb Ha. unfold del_elem, deref. rewrite Ha. cbn [mbind outcome_bind key_of k_keyData].
  match goal with |- context [del_loop ?k ?i ?key ?f ?dk ?ek ?n] =>
    assert (del_loop k i key f dk ek n = Ok (true, [Slot None], [Slot None], 0)) as -> end.
  { change (Z.to_nat (noKeys _)) with 1%nat.
    cbn [new_elem derKey ec_key noKeys del_loop Z.of_nat Z.leb Z.compare get_slot arr_get lookup list_lookup mbind outcome_bind key_of k_keyLength k_keyData].
    by rewrite Z.eqb_refl, same_data_eq, bool_decide_true. }
  cbn [mbind outcome_bind negb Z.eqb]. unfold _ks_freeKS_Elem, deref. cbn [elems put]. rewrite lookup_insert_eq.
  eexists. split; [reflexivity|]. cbn. by rewrite list_lookup_insert_eq.
Qed.

(** C36 Key rollover: when an AS registers a key under a second SKI and that key is
    removed again, every key in front of it is lost as well, the first key of the AS
    among them, unless a later AS follows in the bucket.  The element was appended
    without the pointer back to the one before it, and its removal takes it for the
    first of the list. *)
Theorem key_rollover_loses_keys st m asn ski1 ski2 d :
  refines st m -> backward st -> is_Some (m !! (asn, ski1)) -> m !! (asn, ski2) = None -> key_ok (isPrivate st) (asn, ski2, d) ->
  (forall k, _ks_getBucket k.1 = _ks_getBucket asn -> is_Some (m !! k) -> k.1 <= asn) ->
  exists st1 st2,
    ks_storeKey (Some st) (key_of (algorithmID st) asn ski2 d) true = Ok (Some st1, API_SUCCESS, API_STATUS_OK)
    /\ ks_delKey (Some st1) (key_of (algorithmID st) asn ski2 d) = Ok (Some st2, API_SUCCESS, API_STATUS_OK)
    /\ forall asn' ski', _ks_getBucket asn' = _ks_getBucket asn ->
        ks_getKey (Some st2) ski' asn' ks_eckey_e = Ok (Some st2, None, None, API_STATUS_INFO_KEY_NOTFOUND).
Proof.
  intros Hr Hbw H1 H2 [Hok Hk] Hmax. cbn [fst snd] in *. pose proof (getBucket_lt asn) as Hb.
  destruct (bucket_list _ _ _ Hr Hb) as (p & l & Ep & Hp & Hs & Ho & Hlen).
  pose proof (from_bucket _ _ _ _ _ asn ski2 Ho Hk eq_refl) as Hf. rewrite H2 in Hf.
  assert (forall c, c ∈ l -> e_asn c.2 <= asn) as Hle.
  { intros c Hin. apply (Hmax (e_key c.2)); [by apply (proj1 (Forall_forall _ _) (bo_bucket _ _ _ _ _ Ho))|].
    destruct (proj1 (Forall_forall _ _) (bo_elems _ _ _ _ _ Ho) _ Hin) as (ds & -> & _). done. }
  assert (from asn ski2 l = []) as Hfrom.
  { destruct (from asn ski2 l) as [|[a e] l2] eqn:Ef; [done|].
    pose proof (ahead_from asn ski2 l) as El. rewrite Ef in El. pose proof (Hle (a, e)) as Hc. rewrite <- El in Hc.
    specialize (Hc ltac:(set_solver)). cbn in Hc. lia. }
  pose proof (bo_complete _ _ _ _ _ Ho (asn, ski1) eq_refl H1) as Hin1.
  destruct l as [|[a0 e0] l _] using rev_ind; [by apply not_elem_of_nil in Hin1|].
  pose proof (last_max _ _ _ _ _ (bo_sorted _ _ _ _ _ Ho) Hin1) as Hlast. pose proof (Hle (a0, e0) ltac:(set_solver)) as Hlast'. cbn in Hlast'.
  destruct (append_case st m _ p l a0 e0 asn ski2 d Hr Hbw Hb Hp Hs Ho eq_refl H2 Hok Hk) as (st1 & E1 & Hx & Eh & Hs1).
  { by apply Forall_forall. }
  set (n := fresh_elem st) in *. replace (e_asn e0 <? asn) with false in * by lia. set (l' := l ++ _) in Hs1.
  exists st1. pose proof (ex_refines _ _ _ Hx) as Hr1. destruct (bucket_list _ _ _ Hr1 Hb) as (p1 & l1 & Ep1 & Hp1 & Hs1' & Ho1 & Hlen1).
  rewrite Eh, Hp in Hp1. injection Hp1 as <-. pose proof (seg_det _ _ _ _ Hs1' Hs1) as ->.
  assert (elems st1 !! n = Some (new_elem None None (algorithmID st) asn ski2 (isPrivate st) d)) as Hn1
    by (eapply seg_lookup; [exact Hs1|]; subst l'; set_solver).
  rewrite <- (ex_private _ _ _ Hx) in Hn1.
  destruct (free_unlinked st1 (_ks_getBucket asn) n (algorithmID st) asn ski2 d) as (st2 & E2 & Hh2);
    [by rewrite (rf_head _ _ Hr1)|done|].
  exists st2. split; [|split].
  - unfold ks_storeKey. cbn [key_of k_algoID k_asn]. rewrite Z.eqb_refl, Ep. cbn [mbind outcome_bind].
    destruct (l ++ [(a0, e0)]) as [|[a e] l2] eqn:El; [by destruct l|]. pose proof Hs as (-> & _ & _).
    rewrite (store_loop_seg st _ _ _ _ l2 a e) by (first [done|cbn in Hlen; lia]).
    change (k_asn (key_of (algorithmID st) asn ski2 d)) with asn. change (k_ski (key_of (algorithmID st) asn ski2 d)) with ski2.
    rewrite Hfrom, <- El, last_snoc. replace (e_asn e0 <? asn) with false by lia. by rewrite E1.
  - unfold ks_delKey. cbn [key_of k_algoID k_asn k_ski]. rewrite (ex_algo _ _ _ Hx), Z.eqb_refl, Ep1. cbn [mbind outcome_bind negb].
    rewrite (find_elem_seg _ _ _ l') by done. subst l'.
    replace (l ++ [(a0, set_next e0 (Some n)); (n, new_elem None None (algorithmID st) asn ski2 (isPrivate st) d)])
      with ((l ++ [(a0, set_next e0 (Some n))]) ++ [(n, new_elem None None (algorithmID st) asn ski2 (isPrivate st) d)]) by (by rewrite <- (assoc_L (++))).
    rewrite from_app.
    + cbn [from]. unfold passed. cbn [new_elem e_asn e_ski snd]. rewrite Z.ltb_irrefl, Z.eqb_refl, memcmp_refl.
      cbn [orb andb negb Z.eqb mbind outcome_bind]. rewrite ?Z.eqb_refl. cbn [mbind outcome_bind].
      change (mkBGPSecKey _ _ _ _ _) with (key_of (algorithmID st) asn ski2 d). by rewrite E2.
    + eapply from_same; [|exact Hfrom]. apply Forall2_app; [apply same_cells_refl|]. by repeat constructor.
  - intros asn' ski' Hb'. unfold ks_getKey, arr_get. by rewrite Hb', Hh2.
Qed.

(** ** Two keys with one SKI *)
Lemma from_ahead asn ski l : from asn ski (ahead asn ski l) = [].
Proof. induction l as [|c l IH]; cbn; [done|]. destruct (passed asn ski c) eqn:Ep; [|done]. cbn. by rewrite Ep. Qed.

(** The list of the bucket with new keys in an element. *)
Lemma set_keys_seg st m b p l1 a e l2 dk ek (k sz : Z) :
  seg (elems st) p (l1 ++ (a, e) :: l2) None -> bucket_ok (algorithmID st) (isPrivate st) b (l1 ++ (a, e) :: l2) m ->
  seg (elems (put (set_size st sz) a (set_keys e dk ek k))) p (l1 ++ (a, set_keys e dk ek k) :: l2) None.
Proof.
  intros Hs Ho. assert (forall a' e', (a', e') ∈ l1 \/ (a', e') ∈ l2 -> a <> a') as Hne by (intros; by eapply address_once).
  apply seg_app in Hs as (r & H1 & -> & _ & H2). apply seg_app. exists (Some a). cbn. split.
  - eapply seg_frame; [exact H1|]. intros a' e' Hin. rewrite lookup_insert_ne; [exact (seg_lookup _ _ _ _ _ _ H1 Hin)|].
    apply (Hne a' e'). by left.
  - split; [done|]. split; [by rewrite lookup_insert_eq|]. eapply seg_frame; [exact H2|]. intros a' e' Hin.
    rewrite lookup_insert_ne; [exact (seg_lookup _ _ _ _ _ _ H2 Hin)|]. apply (Hne a' e'). by right.
Qed.

(** The loop stops before it has moved the key behind the one deleted: its bound
    is the number of keys that are left. *)
Lemma del_elem_two st b a e asn ski d1 d2 :
  elems st !! a = Some e -> elem_ok (algorithmID st) (isPrivate st) e [d1; d2] -> e_asn e = asn -> e_ski e = ski -> d1 <> d2 ->
  del_elem st b a (key_of (algorithmID st) asn ski d1)
  = Ok (put (set_size st (size st - 1)) a (set_keys e [Slot None] [Slot None] 1)).
Proof.
  intros Ha [Hder Hec Hn _ _ _ _] <- <- Hne. unfold del_elem, deref. rewrite Ha. cbn [mbind outcome_bind key_of k_keyData].
  rewrite Hn, Hder, Hec.
  match goal with |- context [del_loop ?k ?i ?key ?f ?dk ?ek ?n] =>
    assert (del_loop k i key f dk ek n
            = Ok (true, [Slot None; Slot (Some (key_of (algorithmID st) (e_asn e) (e_ski e) d2))],
                  [Slot None; Slot (convert (isPrivate st) d2)], 1)) as -> end; [|done].
  change (Z.to_nat (Z.of_nat (length [d1; d2]))) with 2%nat. change (Z.of_nat (length [d1; d2])) with 2.
  cbn [fmap list_fmap del_loop Z.of_nat Z.leb Z.compare get_slot arr_get lookup list_lookup mbind outcome_bind key_of k_keyLength k_keyData].
  by rewrite Z.eqb_refl, same_data_eq, bool_decide_true.
Qed.

(** Two keys with one SKI: removing the one registered first leaves an element
    without keys.  The second one is not found any more, a search returns a NULL
    key, and registering the second key again dereferences a NULL pointer. *)
Theorem remove_first_of_two st m asn ski d1 d2 :
  refines st m -> backward st -> m !! (asn, ski) = Some [d1; d2] -> d1 <> d2 -> length ski = BgpsecPath.SKI_LENGTH ->
  exists st', ks_delKey (Some st) (key_of (algorithmID st) asn ski d1) = Ok (Some st', API_SUCCESS, API_STATUS_OK)
    /\ ks_getKey (Some st') ski asn ks_eckey_e = Ok (Some st', Some (EcArray [Slot None]), Some 1, API_STATUS_ERR_USER1)
    /\ ks_storeKey (Some st') (key_of (algorithmID st') asn ski d2) true = Fault NullDeref.
Proof.
  intros Hr Hbw Hm Hne Hk. pose proof (getBucket_lt asn) as Hb.
  destruct (bucket_list _ _ _ Hr Hb) as (p & l & Ep & Hp & Hs & Ho & Hlen).
  pose proof (from_bucket _ _ _ _ _ asn ski Ho Hk eq_refl) as Hf. rewrite Hm in Hf. destruct Hf as (a & e & l2 & Ef & Ha & Hski & He).
  pose proof (ahead_from asn ski l) as El. rewrite Ef in El. set (l1 := ahead asn ski l) in El. 
  assert (from asn ski l1 = []) as Hl1 by apply from_ahead. clearbody l1. subst l.
  assert (elems st !! a = Some e) as Hae by (eapply seg_lookup; [done|set_solver]).
  pose (e' := set_keys e [Slot None] [Slot None] 1).
  pose (st' := put (set_size st (size st - 1)) a e').
  assert (seg (elems st') p (l1 ++ (a, e') :: l2) None) as Hs' by (by eapply set_keys_seg).
  assert (elems st' !! a = Some e') as Hae' by (cbn; by rewrite lookup_insert_eq).
  assert (length (l1 ++ (a, e') :: l2) < walk_fuel st')%nat as Hlen'.
  { unfold walk_fuel in *. cbn. rewrite map_size_insert_Some by done. rewrite length_app in *. done. }
  assert (from asn ski (l1 ++ (a, e') :: l2) = (a, e') :: l2) as Ef'.
  { rewrite from_app by done. cbn [from]. unfold passed. cbn [snd e_asn e_ski e' set_keys]. rewrite Ha, Hski, Z.ltb_irrefl, Z.eqb_refl, memcmp_refl. done. }
  exists st'. split; [|split].
  - unfold ks_delKey. cbn [key_of k_algoID k_asn k_ski]. rewrite Z.eqb_refl, Ep. cbn [mbind outcome_bind negb].
    rewrite (find_elem_seg _ _ _ (l1 ++ (a, e) :: l2)), Ef, Ha, Z.eqb_refl by done. cbn [mbind outcome_bind].
    change (mkBGPSecKey _ _ _ _ _) with (key_of (algorithmID st) asn ski d1). by rewrite (del_elem_two st _ a e asn ski d1 d2).
  - unfold ks_getKey. change (head st') with (head st). rewrite Ep. cbn [mbind outcome_bind].
    rewrite (find_elem_seg _ _ _ (l1 ++ (a, e') :: l2)), Ef' by done. cbn [e_asn e' set_keys]. rewrite Ha, Z.eqb_refl. cbn [mbind outcome_bind].
    unfold deref. rewrite Hae'. cbn [mbind outcome_bind]. change (load_keys _ _ _ _ _ _) with (Ok ([Slot None : slot E], API_STATUS_ERR_USER1)). cbn [mbind outcome_bind]. do 4 f_equal. change (set_keys e' _ _ _) with e'. unfold put at 1. cbn [elems]. rewrite insert_id by done. done.
  - unfold ks_storeKey. cbn [key_of k_algoID k_asn]. rewrite Z.eqb_refl. change (head st') with (head st). rewrite Ep. cbn [mbind outcome_bind].
    destruct (l1 ++ (a, e') :: l2) as [|[a0 e0] l0] eqn:El'; [by destruct l1|]. pose proof Hs' as (-> & _ & _).
    rewrite (store_loop_seg st' _ _ _ _ l0 a0 e0) by (first [done|cbn in Hlen'; lia]).
    change (k_asn (key_of (algorithmID st') asn ski d2)) with asn. change (k_ski (key_of (algorithmID st') asn ski d2)) with ski.
    rewrite Ef'. cbn [e_asn e' set_keys]. rewrite Ha, Z.eqb_refl. done.
Qed.

End storage.
End KeyRemoval.
