(* ===== verification/BgpsecOpenssl.v ===== *)
(** * The OpenSSL plug-in of the SRx crypto API (srx-crypto-api/bgpsec_openssl/bgpsec_openssl.c): data and operations

    The plug-in validates and signs BGPsec paths with the keys of two storages.
    SHA-256 and ECDSA are the class [Openssl].  The theorems are in
    BgpsecOpensslTheorems. *)
From S2P Require Import Prelude SrxDefs BgpsecPath UpdateCache HashMessage KeyStorage.

Module BgpsecOpenssl.
Import HashMessage KeyStorage.

(** The functions of OpenSSL: [ECDSA_sign] gives the signature, or nothing when it
    fails. *)
Class Openssl (E : Type) `{EcKeys E} := {
  SHA256 : list Z -> list Z;
  ECDSA_verify : list Z -> list Z -> E -> Z;
  ECDSA_sign : list Z -> E -> option (list Z)
}.

(** ** Data *)
Record SCA_Signature := mkSignature {
  s_ownedByAPI : bool;
  s_algoID : Z;
  s_ski : list Z;
  s_sigLen : Z;
  s_sigBuff : option (list Z)
}.

(** [SCA_BGPSecSignData]; the segment of the own host as the bytes it has. *)
Record SCA_BGPSecSignData := mkSignData {
  d_peerAS : Z;
  d_myHost : option (list Z);
  d_nlri : option UpdateCache.SCA_Prefix;
  d_ski : option (list Z);
  d_algorithmID : Z;
  d_status : Z;
  d_hashMessage : option SCA_HashMessage;
  d_signature : option SCA_Signature
}.
Definition set_d_status (d : SCA_BGPSecSignData) (s : Z) : SCA_BGPSecSignData :=
  mkSignData (d_peerAS d) (d_myHost d) (d_nlri d) (d_ski d) (d_algorithmID d) s (d_hashMessage d) (d_signature d).
Definition set_d_hashMessage (d : SCA_BGPSecSignData) h : SCA_BGPSecSignData :=
  mkSignData (d_peerAS d) (d_myHost d) (d_nlri d) (d_ski d) (d_algorithmID d) (d_status d) h (d_signature d).
Definition set_d_signature (d : SCA_BGPSecSignData) s : SCA_BGPSecSignData :=
  mkSignData (d_peerAS d) (d_myHost d) (d_nlri d) (d_ski d) (d_algorithmID d) (d_status d) (d_hashMessage d) s.

Section plugin.
Context {E : Type} `{Openssl E}.

(** The static variables. *)
Record Bossl := mkBossl {
  BOSSL_initialized : bool;
  BOSSL_pubKeys : option (KeyStorage E);
  BOSSL_privKeys : option (KeyStorage E)
}.
Implicit Types (st : Bossl).
Definition set_pubKeys st p : Bossl := mkBossl (BOSSL_initialized st) p (BOSSL_privKeys st).
Definition set_privKeys st p : Bossl := mkBossl (BOSSL_initialized st) (BOSSL_pubKeys st) p.

(** An AS number in a buffer, as the host loads it. *)
Definition load_asn (mem : list Z) (off : nat) : outcome Z := bs ← read_bytes mem off 4; Ok (le_load32 bs).

(** ** Validation *)

(** The loop over the keys: whether a signature was verified, and the status.  The
    first key that fails ends it. *)
Fixpoint try_keys (fuel ecIdx : nat) (keys : list (slot E)) (noKeys : Z) (digest signature : list Z) (status : Z)
    : outcome (bool * Z) :=
  if noKeys <=? Z.of_nat ecIdx then Ok (false, status) else
  match fuel with
  | O => Fault OutOfFuel
  | S fuel' =>
      k ← get_slot keys ecIdx;
      match k with
      | Some k => Ok (ECDSA_verify digest signature k =? 1, status)
      | None => try_keys fuel' (S ecIdx) keys noKeys digest signature (Z.lor status API_STATUS_ERR_INVLID_KEY)
      end
  end.

(** The AS that made a signature: the target of the next message, or the AS of the
    origin's segment in the last one. *)
Definition signer (hm : SCA_HashMessage) (idx : nat) : outcome Z :=
  if Z.of_nat idx + 1 <? segmentCount hm
  then p ← arr_get (hashMessageValPtr hm) (S idx); load_asn (buffer hm) (hashMessagePtr p)
  else p ← arr_get (hashMessageValPtr hm) idx; load_asn (buffer hm) (hashMessagePtr p + 6).

(** One signature: whether it is good, the storage and the status. *)
Definition check_signature (hm : SCA_HashMessage) (pubKeys : option (KeyStorage E)) (idx : nat)
    : outcome (bool * option (KeyStorage E) * Z) :=
  asn ← signer hm idx;
  p ← arr_get (hashMessageValPtr hm) idx;
  match signaturePtr p with
  | None => Fault NullDeref
  | Some sigSeg =>
      ski ← read_bytes (buffer hm) sigSeg BgpsecPath.SKI_LENGTH;
      '(pubKeys, keys, noKeys, status) ← ks_getKey pubKeys ski asn ks_eckey_e;
      match keys, noKeys with
      | Some (EcArray keys), Some noKeys =>
          message ← read_bytes (buffer hm) (hashMessagePtr p) (Z.to_nat (hashMessageLength p));
          sigLength ← read16be (buffer hm) (sigSeg + 20);
          signature ← read_bytes (buffer hm) (sigSeg + LEN_SIGSEGMENT_HDR) (Z.to_nat sigLength);
          '(ok, status) ← try_keys (Z.to_nat noKeys) 0 keys noKeys (SHA256 message) signature status;
          Ok (ok, pubKeys, if ok : bool then status else Z.lor status API_STATUS_INFO_SIGNATURE)
      | _, _ => Ok (false, pubKeys, Z.lor status API_STATUS_INFO_KEY_NOTFOUND)
      end
  end.

(** The signatures from [idx] on, up to one that fails. *)
Fixpoint check_signatures (n idx : nat) (hm : SCA_HashMessage) (pubKeys : option (KeyStorage E)) (status : Z)
    : outcome (bool * option (KeyStorage E) * Z) :=
  match n with
  | O => Ok (true, pubKeys, status)
  | S n' =>
      '(ok, pubKeys, status) ← check_signature hm pubKeys idx;
      if ok : bool then check_signatures n' (S idx) hm pubKeys status else Ok (false, pubKeys, status)
  end.

Definition validate st (data : option SCA_BGPSecValidationData) : outcome (Bossl * Z * option SCA_BGPSecValidationData) :=
  match data with
  | None => Ok (st, API_VALRESULT_INVALID, None)
  | Some d =>
      let d := set_v_status d API_STATUS_ERR_NO_DATA in
      match v_nlri d, v_bgpsec_path_attr d with
      | Some _, Some _ =>
          '(used, data) ←
            match v_hashMessage d with
            | Some _ => Ok (1, Some d)
            | None =>
                '(used, data, _) ← sca_generateHashMessage (Some d) SCA_ECDSA_ALGORITHM (Some (v_status d));
                Ok (used, data)
            end;
          match data with
          | None => Fault NullDeref
          | Some d =>
              if used <=? 0 then Ok (st, API_VALRESULT_INVALID, Some (set_v_status d API_STATUS_ERR_USER1)) else
              match v_hashMessage d with
              | None => Fault NullDeref
              | Some hm =>
                  '(ok, pubKeys, status) ← check_signatures (Z.to_nat (segmentCount hm)) 0 hm (BOSSL_pubKeys st) API_STATUS_OK;
                  Ok (set_pubKeys st pubKeys, if ok : bool then API_VALRESULT_VALID else API_VALRESULT_INVALID,
                      Some (set_v_status d status))
              end
          end
      | _, _ => Ok (st, API_VALRESULT_INVALID, Some d)
      end
  end.

(** ** Signing *)

(** The message with the target and the own path segment written into it, and the
    octets to be signed. *)
Definition prepare_message (hm : SCA_HashMessage) (peerAS : Z) (myHost : list Z) (origin : bool)
    : outcome (SCA_HashMessage * list Z) :=
  buf ← write_bytes (buffer hm) 0 (le_bytes32 peerAS);
  p ← arr_get (hashMessageValPtr hm) 0;
  host ← read_bytes myHost 0 LEN_SECPATHSEGMENT;
  buf ← (if origin then write_bytes buf 4 host
         else if (hashMessagePtr p <? 2)%nat then Fault BufferOverflow else write_bytes buf (hashMessagePtr p - 2) host);
  let hm := mkHashMessage (ownedByAPI hm) (bufferSize hm) buf (segmentCount hm) (hashMessageValPtr hm) in
  message ← (if origin then read_bytes buf (hashMessagePtr p) (Z.to_nat (hashMessageLength p))
             else read_bytes buf 0 (Z.to_nat (u16 (bufferSize hm))));
  Ok (hm, message).

(** The part of [_sign] behind the checks of its input. *)
Definition sign_message (privKeys : option (KeyStorage E)) (d : SCA_BGPSecSignData) (origin : bool)
    : outcome (option (KeyStorage E) * Z * SCA_BGPSecSignData * Z) :=
  match d_myHost d, d_ski d with
  | Some myHost, Some ski =>
      asn ← load_asn myHost 2;
      '(privKeys, keys, noKeys, status) ← ks_getKey privKeys ski asn ks_eckey_e;
      let d := set_d_status d status in
      match keys, noKeys with
      | Some (EcArray keys), Some noKeys =>
          if noKeys =? 0 then Ok (privKeys, API_FAILURE, d, API_STATUS_OK) else
          match d_hashMessage d with
          | None => Fault NullDeref
          | Some hm =>
              '(hm, message) ← prepare_message hm (d_peerAS d) myHost origin;
              let d := set_d_hashMessage d (Some hm) in
              k ← get_slot keys 0;
              match k with
              | None => Fault NullDeref
              | Some k =>
                  match ECDSA_sign (SHA256 message) k with
                  | None => Ok (privKeys, API_FAILURE, d, API_STATUS_INFO_SIGNATURE)
                  | Some s =>
                      Ok (privKeys, API_SUCCESS,
                          set_d_signature d (Some (mkSignature true (d_algorithmID d) ski (u16 (Z.of_nat (length s))) (Some s))),
                          API_STATUS_OK)
                  end
              end
          end
      | _, _ => Ok (privKeys, API_FAILURE, d, API_STATUS_OK)
      end
  | _, _ => Fault NullDeref
  end.

(** The message is generated for an update that is originated; in the order of the
    code, before the own host is known to be given. *)
Definition _sign st (data : option SCA_BGPSecSignData) : outcome (Bossl * Z * option SCA_BGPSecSignData) :=
  match data, BOSSL_privKeys st with
  | Some d, Some priv =>
      let myStatus := match d_myHost d, d_ski d with Some _, Some _ => API_STATUS_OK | _, _ => API_STATUS_ERR_NO_DATA end in
      let origin := match d_hashMessage d with None => true | Some _ => false end in
      '(d, myStatus) ←
        (if negb (d_algorithmID d =? algorithmID priv) then Ok (d, Z.lor myStatus API_STATUS_ERR_INVLID_KEY)
         else if origin then
           match d_nlri d, d_myHost d with
           | None, _ => Ok (d, API_STATUS_ERR_NO_PREFIX)
           | Some _, None => Fault NullDeref
           | Some nlri, Some myHost =>
               hm ← sca_generateOriginHashMessage (d_peerAS d) myHost nlri (d_algorithmID d);
               Ok (set_d_hashMessage d (Some hm), myStatus)
           end
         else Ok (d, myStatus));
      if negb (myStatus =? API_STATUS_OK)
      then Ok (st, API_FAILURE, Some (set_d_status d (Z.lor (d_status d) myStatus)))
      else
        '(priv, retVal, d, myStatus) ← sign_message (Some priv) d origin;
        Ok (set_privKeys st priv, retVal, Some (set_d_status d (Z.lor (d_status d) myStatus)))
  | _, _ => Fault NullDeref
  end.

(** [sign]: every element is signed, whatever became of the others. *)
Fixpoint sign st (bgpsec_data : list (option SCA_BGPSecSignData)) : outcome (Bossl * Z * list (option SCA_BGPSecSignData)) :=
  match bgpsec_data with
  | [] => Ok (st, API_SUCCESS, [])
  | d :: ds =>
      '(st, r1, d) ← _sign st d;
      '(st, r2, ds) ← sign st ds;
      Ok (st, if r1 =? API_FAILURE then API_FAILURE else r2, d :: ds)
  end.

(** ** Keys *)

(** The status is [None] when the caller passes none. *)
Definition _registerKey st (key : BGPSecKey) (status : option Z) (isPrivate : bool) : outcome (Bossl * Z * option Z) :=
  if k_keyLength key =? 0 then Ok (st, API_FAILURE, (fun _ => API_STATUS_ERR_NO_DATA) <$> status) else
  '(ks, r, s) ← ks_storeKey (if isPrivate then BOSSL_privKeys st else BOSSL_pubKeys st) key true;
  Ok (if isPrivate then set_privKeys st ks else set_pubKeys st ks, r, (fun _ => s) <$> status).
Definition registerPrivateKey st key status := _registerKey st key status true.
Definition registerPublicKey st key status := _registerKey st key status false.

Definition unregisterPrivateKey st (asn : Z) (ski : list Z) (algoID : Z) (status : option Z) : outcome (Bossl * Z * option Z) :=
  '(ks, r, s) ← ks_delKey (BOSSL_privKeys st) (mkBGPSecKey algoID asn ski 0 None);
  Ok (set_privKeys st ks, r, (fun _ => s) <$> status).
Definition unregisterPublicKey st (key : BGPSecKey) (status : option Z) : outcome (Bossl * Z * option Z) :=
  '(ks, r, s) ← ks_delKey (BOSSL_pubKeys st) key;
  Ok (set_pubKeys st ks, r, (fun _ => s) <$> status).

Definition _cleanKeys st (source : Z) (status : option Z) (isPrivate : bool) : outcome (Bossl * option Z) :=
  '(ks, count) ← ks_removeSource (if isPrivate then BOSSL_privKeys st else BOSSL_pubKeys st) source;
  Ok (if isPrivate then set_privKeys st ks else set_pubKeys st ks,
      if count =? 0 then (fun _ => API_STATUS_INFO_KEY_NOTFOUND) <$> status else status).
Definition cleanKeys st (source : Z) (status : option Z) : outcome (Bossl * Z * option Z) :=
  '(st, status) ← _cleanKeys st source status false; Ok (st, API_SUCCESS, status).
Definition cleanPrivateKeys st (status : option Z) : outcome (Bossl * Z * option Z) :=
  '(st, status) ← _cleanKeys st 0 status true; Ok (st, API_SUCCESS, status).

(** [release] *)
Definition release st (status : option Z) : outcome (Bossl * Z * option Z) :=
  st ← (if BOSSL_initialized st
        then _ ← ks_empty (BOSSL_pubKeys st); _ ← ks_empty (BOSSL_privKeys st); Ok (mkBossl false None None)
        else Ok st);
  Ok (st, API_SUCCESS, (fun _ => API_STATUS_OK) <$> status).

Definition isAlgorithmSupported (algoID : Z) : bool := algoID =? SCA_ECDSA_ALGORITHM.

(** ** Memory of messages and signatures; [None] is freed memory. *)
Definition freeHashMessage (hashMessage : option SCA_HashMessage) : bool * option SCA_HashMessage :=
  sca_freeHashInput ((fun hm => mkHashMessage false (bufferSize hm) (buffer hm) (segmentCount hm) (hashMessageValPtr hm)) <$> hashMessage).
Definition freeSignature (signature : option SCA_Signature) : bool * option SCA_Signature :=
  match signature with
  | Some s => if s_ownedByAPI s then (true, None) else (false, Some s)
  | None => (false, None)
  end.

End plugin.
Arguments Bossl : clear implicits.

End BgpsecOpenssl.
