(* ===== verification/BgpsecOpensslTheorems.v ===== *)
(** * Validation and signing with OpenSSL: theorems

    An update is valid exactly when every signature of the path verifies against the
    octets RFC 8205 defines with the key the storage has for the AS and the SKI of
    the signer; a path that is signed at every hop is found valid at the next. *)
From S2P Require Import Prelude Bytes SrxDefs BgpsecPath UpdateCache HashMessage HashMessageTheorems.
From S2P Require Import KeyStorage KeyStorageTheorems BgpsecOpenssl.

Module BgpsecOpensslTheorems.
Import BgpsecPath HashMessage HashMessageTheorems KeyStorage KeyStorageTheorems BgpsecOpenssl.

Section plugin.
Context {E : Type} `{Openssl E}.
Abbreviation keymap := (gmap (Z * list Z) (list (list Z))).
Implicit Types (m : keymap) (st : Bossl E) (segs : list segment) (sigs : list sig_segment).

(** ** Specification *)

(** The first key registered for the AS and the SKI verifies the signature. *)
Definition verified_by m (asn : Z) (ski octets signature : list Z) : bool :=
  match keys_at m asn ski with
  | d :: _ => match convert false d with Some k => ECDSA_verify (SHA256 octets) signature k =? 1 | None => false end
  | [] => false
  end.
(** The AS of a path segment as the host loads it. *)
Definition host_asn (sg : segment) : Z := le_load32 (be32 (sg_asn sg)).
(** Every signature of a path that was sent to [target] verifies. *)
Fixpoint path_verified m (target : list Z) segs sigs (nlri : UpdateCache.SCA_Prefix) : bool :=
  match segs, sigs with
  | sg :: segs', s :: sigs' =>
      verified_by m (host_asn sg) (ss_ski s) (rfc8205_octets target segs sigs SCA_ECDSA_ALGORITHM nlri) (ss_signature s)
      && path_verified m (be32 (sg_asn sg)) segs' sigs' nlri
  | _, _ => true
  end.

(** ** Validation *)
Lemma load_asn_bytes mem off bs : bytes_at mem off bs -> length bs = 4%nat -> load_asn mem off = Ok (le_load32 bs).
Proof. intros Hb Hl. unfold load_asn. by rewrite (read_bytes_bytes_at _ _ _ _ Hb). Qed.

Lemma bytes_at_drop mem off a b : drop off mem = a ++ b -> (off <= length mem)%nat -> bytes_at mem off a.
Proof.
  intros Hd Ho. split; [|by rewrite Hd, take_app_length].
  pose proof (f_equal length Hd) as Hl. rewrite length_drop, length_app in Hl. lia.
Qed.

(** A pointer of a message lies in the buffer. *)
Lemma pointer_bounds hm p (t : list Z) segs sigs algoID nlri :
  drop (hashMessagePtr p) (buffer hm) = rfc8205_octets t segs sigs algoID nlri -> (hashMessagePtr p <= length (buffer hm))%nat.
Proof.
  intros Hd. destruct (decide (hashMessagePtr p <= length (buffer hm))%nat) as [|Hn]; [done|exfalso].
  rewrite drop_ge in Hd by lia. unfold rfc8205_octets, nlri_octets in Hd.
  apply (f_equal length) in Hd. rewrite !length_app in Hd. simpl in Hd. lia.
Qed.

Lemma target_length myAS segs i t : targets myAS segs !! i = Some t -> length t = 4%nat.
Proof.
  unfold targets. destruct i as [|i]; [by intros [= <-]|]. cbn.
  intros Ht. by apply list_lookup_fmap_Some in Ht as (sg & -> & _).
Qed.

Lemma signer_eq hm myAS segs sigs nlri i sg :
  describes hm myAS segs sigs SCA_ECDSA_ALGORITHM nlri -> length sigs = length segs -> segs !! i = Some sg ->
  signer hm i = Ok (host_asn sg).
Proof.
  intros Hd Hlen Hsg. pose proof (lookup_lt_Some _ _ _ Hsg) as Hi. unfold signer. rewrite (ds_count _ _ _ _ _ _ Hd).
  destruct (Z.ltb_spec (Z.of_nat i + 1) (Z.of_nat (length segs))) as [Hlt|Hge].
  - destruct (lookup_lt_is_Some_2 sigs (S i)) as [s Hs]; [lia|].
    assert (targets myAS segs !! S i = Some (be32 (sg_asn sg))) as Ht
      by (change (((fun sg => be32 (sg_asn sg)) <$> segs) !! i = Some (be32 (sg_asn sg))); by rewrite list_lookup_fmap, Hsg).
    destruct (ds_ptr _ _ _ _ _ _ Hd _ _ _ Hs Ht) as (p & o & Hp & _ & _ & Hdr & _).
    unfold arr_get. rewrite Hp. cbn [mbind outcome_bind]. apply load_asn_bytes; [|done].
    eapply bytes_at_drop; [exact Hdr|by eapply pointer_bounds].
  - destruct (lookup_lt_is_Some_2 sigs i) as [s Hs]; [lia|].
    destruct (lookup_lt_is_Some_2 (targets myAS segs) i) as [t Ht]; [unfold targets; cbn [length]; rewrite length_fmap; lia|].
    destruct (ds_ptr _ _ _ _ _ _ Hd _ _ _ Hs Ht) as (p & o & Hp & _ & _ & Hdr & _).
    unfold arr_get. rewrite Hp. cbn [mbind outcome_bind]. apply load_asn_bytes; [|done].
    assert (drop i segs = [sg]) as Esg by (rewrite (drop_S _ _ _ Hsg), drop_ge by lia; done).
    assert (tail (drop i sigs) = []) as Etl by (rewrite tail_drop, drop_ge by lia; done).
    pose proof (pointer_bounds _ _ _ _ _ _ _ Hdr) as Hb. pose proof (target_length _ _ _ _ Ht) as Ht4.
    unfold rfc8205_octets in Hdr. rewrite Esg, Etl in Hdr. cbn [signed_path] in Hdr. unfold enc_segment in Hdr.
    assert (drop (hashMessagePtr p + 6) (buffer hm) = be32 (sg_asn sg) ++ nlri_octets SCA_ECDSA_ALGORITHM nlri) as Hd6.
    { rewrite <- drop_drop, Hdr, (assoc_L (++)), (assoc_L (++)), <- (assoc_L (++) (t ++ _)). 
      replace 6%nat with (length (t ++ [sg_pCount sg; sg_flags sg])) by (rewrite length_app, Ht4; done). apply drop_app_length. }
    eapply bytes_at_drop; [exact Hd6|]. pose proof (f_equal length Hdr) as Hl. rewrite length_drop, !length_app, Ht4 in Hl. simpl in Hl. lia.
Qed.

Lemma try_keys_eq ds digest signature status : Forall (der_ok false) ds -> ds <> [] ->
  try_keys (length ds) 0 ((fun d => Slot (convert false d)) <$> ds) (Z.of_nat (length ds)) digest signature status
  = Ok (match ds with
        | d :: _ => match convert false d with Some k => ECDSA_verify digest signature k =? 1 | None => false end
        | [] => false
        end, status).
Proof.
  intros Hd Hne. destruct ds as [|d ds]; [done|]. apply Forall_cons in Hd as [[_ Hc] _].
  cbn [length try_keys fmap list_fmap]. rewrite (proj2 (Z.leb_gt _ _)) by lia.
  unfold get_slot, arr_get. cbn [lookup list_lookup mbind outcome_bind]. by destruct (convert false d).
Qed.

Lemma check_signature_eq hm ks m myAS segs sigs nlri i s sg t :
  describes hm myAS segs sigs SCA_ECDSA_ALGORITHM nlri -> length sigs = length segs -> Forall sig_wf sigs ->
  Z.of_nat (length (buffer hm)) < 2 ^ 16 -> refines ks m -> isPrivate ks = false ->
  sigs !! i = Some s -> segs !! i = Some sg -> targets myAS segs !! i = Some t ->
  exists status, check_signature hm (Some ks) i
    = Ok (verified_by m (host_asn sg) (ss_ski s) (rfc8205_octets t (drop i segs) (drop i sigs) SCA_ECDSA_ALGORITHM nlri) (ss_signature s),
          Some ks, status)
    /\ (verified_by m (host_asn sg) (ss_ski s) (rfc8205_octets t (drop i segs) (drop i sigs) SCA_ECDSA_ALGORITHM nlri) (ss_signature s) = true ->
        status = API_STATUS_OK).
Proof.
  intros Hd Hlen Hw Hsz Hr Hpub Hs Hsg Ht. destruct (proj1 (Forall_lookup _ _) Hw _ _ Hs) as [Hk Hl].
  unfold check_signature. rewrite (signer_eq hm myAS segs sigs nlri i sg) by done. cbn [mbind outcome_bind].
  destruct (ds_ptr _ _ _ _ _ _ Hd _ _ _ Hs Ht) as (p & o & Hp & Ho & Hat & Hdr & Hml).
  unfold arr_get. rewrite Hp. cbn [mbind outcome_bind]. rewrite Ho.
  pose proof Hat as Hat'. unfold enc_sig in Hat'. apply bytes_at_app in Hat' as [Hski Hat']. apply bytes_at_app in Hat' as [Hlen16 Hsig].
  rewrite (read_bytes_bytes_at _ _ _ _ Hski) by done. cbn [mbind outcome_bind].
  rewrite (getKey_eq ks m _ _ Hr Hk), Hpub. unfold verified_by, keys_at.
  destruct (m !! (host_asn sg, ss_ski s)) as [ds|] eqn:Em; cbn [found mbind outcome_bind default].
  2: { eexists. split; [done|]. done. }
  set (octets := rfc8205_octets _ _ _ _ _) in *.
  assert (hashMessagePtr p + length octets <= length (buffer hm))%nat as Hfit.
  { pose proof (pointer_bounds _ _ _ _ _ _ _ Hdr). pose proof (f_equal length Hdr) as Hl'. rewrite length_drop in Hl'. fold octets in Hl'. lia. }
  rewrite Hml, wrap_small by (unfold in_u; lia). rewrite !Nat2Z.id.
  rewrite (read_bytes_bytes_at _ _ octets) by (first [done|split; [done|by rewrite Hdr, firstn_all]]). cbn [mbind outcome_bind].
  rewrite Hk in Hlen16. change SKI_LENGTH with 20%nat in Hlen16. rewrite (read16be_bytes_at _ _ _ Hlen16). cbn [mbind outcome_bind].
  rewrite Nat2Z.id, (read_bytes_bytes_at _ _ (ss_signature s)) by (first [done|rewrite Hk in Hsig; by rewrite <- Nat.add_assoc in Hsig]).
  cbn [mbind outcome_bind].
  destruct (refines_keys _ _ _ _ Hr Em) as [Hne Hok]. rewrite Hpub in Hok. rewrite try_keys_eq by done. cbn [mbind outcome_bind].
  eexists. split; [reflexivity|]. change (id ds) with ds. by intros ->.
Qed.

Lemma check_signatures_eq hm ks m myAS segs sigs nlri :
  describes hm myAS segs sigs SCA_ECDSA_ALGORITHM nlri -> length sigs = length segs -> Forall sig_wf sigs ->
  Z.of_nat (length (buffer hm)) < 2 ^ 16 -> refines ks m -> isPrivate ks = false ->
  forall (n i : nat) t, (i + n = length segs)%nat -> targets myAS segs !! i = Some t ->
  exists status, check_signatures n i hm (Some ks) API_STATUS_OK
    = Ok (path_verified m t (drop i segs) (drop i sigs) nlri, Some ks, status).
Proof.
  intros Hd Hlen Hw Hsz Hr Hpub n. induction n as [|n IH]; intros i t Hi Ht.
  { rewrite drop_ge by lia. by eexists. }
  destruct (lookup_lt_is_Some_2 segs i) as [sg Hsg]; [lia|]. destruct (lookup_lt_is_Some_2 sigs i) as [s Hs]; [lia|].
  destruct (check_signature_eq hm ks m myAS segs sigs nlri i s sg t) as (status & E1 & Hst); [done..|].
  cbn [check_signatures]. rewrite E1. cbn [mbind outcome_bind].
  rewrite (drop_S _ _ _ Hsg), (drop_S _ _ _ Hs) in *. cbn [path_verified].
  destruct (verified_by _ _ _ _ _); [|by eexists]. rewrite Hst by done. cbn [andb].
  apply IH; [lia|]. change (((fun sg => be32 (sg_asn sg)) <$> segs) !! i = Some (be32 (sg_asn sg))).
  by rewrite list_lookup_fmap, Hsg.
Qed.

(** The block the plug-in looks at decides. *)
Definition path_valid m (myAS : Z) segs (blocks : list sig_block) (nlri : UpdateCache.SCA_Prefix) : bool :=
  match List.find (has_algo SCA_ECDSA_ALGORITHM) blocks with
  | Some b => path_verified m (le_bytes32 myAS) segs (sb_sigs b) nlri
  | None => false
  end.

Lemma validate_eq st ks m d ext segs blocks l nlri :
  v_bgpsec_path_attr d = Some (enc_attr ext segs blocks ++ l) -> v_hashMessage d = None ->
  v_nlri d = Some nlri -> nlri_wf nlri -> segs <> [] -> Forall (block_wf (length segs)) blocks ->
  Z.of_nat (length (enc_body segs blocks)) < (if ext : bool then 2 ^ 16 - 32 else 2 ^ 8) ->
  BOSSL_pubKeys st = Some ks -> refines ks m -> isPrivate ks = false ->
  exists data, validate st (Some d)
    = Ok (st, if path_valid m (v_myAS d) segs blocks nlri then API_VALRESULT_VALID else API_VALRESULT_INVALID, Some data).
Proof.
  intros Ha Hh Hv Hn Hs Hw Hl Hpub Hr Hprv. unfold validate. cbv zeta. set (d' := set_v_status d API_STATUS_ERR_NO_DATA).
  change (v_nlri d') with (v_nlri d). change (v_bgpsec_path_attr d') with (v_bgpsec_path_attr d).
  change (v_hashMessage d') with (v_hashMessage d). change (v_status d') with API_STATUS_ERR_NO_DATA. rewrite Hv, Ha, Hh.
  pose proof (generate_eq d' ext segs blocks l SCA_ECDSA_ALGORITHM nlri API_STATUS_ERR_NO_DATA) as Hg.
  specialize (Hg Ha Hh Hv Hn Hs Hw ltac:(destruct ext; lia)). unfold path_valid.
  destruct (List.find _ blocks) as [b|] eqn:Hf; [|rewrite Hg; by eexists]. destruct Hg as (hm & -> & Hd).
  cbn [mbind outcome_bind]. rewrite (ds_size _ _ _ _ _ _ Hd).
  assert (Hin := Hf). apply find_some in Hin as [Hin _]. apply list_elem_of_In in Hin.
  destruct (proj1 (Forall_forall _ _) Hw _ Hin) as [Hlen Hsw].
  pose proof (buffer_length _ _ _ _ _ _ Hd Hs Hlen Hn) as [Hbl Hpb]. pose proof (block_in_body segs blocks b Hin) as Hbb.
  rewrite (proj2 (Z.leb_gt _ 0)) by lia. cbn [v_hashMessage set_v_hashMessage]. rewrite (ds_count _ _ _ _ _ _ Hd), Nat2Z.id, Hpub.
  destruct (check_signatures_eq hm ks m (v_myAS d) segs (sb_sigs b) nlri) with (n := length segs) (i := 0%nat) (t := le_bytes32 (v_myAS d))
    as (status & E1); [done..|destruct ext; lia|done|done|done|done|].
  rewrite E1. cbn [mbind outcome_bind]. unfold set_pubKeys. rewrite <- Hpub. eexists. by destruct st.
Qed.

(** C30 An update is found valid exactly when its path has a signature block of the
    supported algorithm and every signature of it verifies, against the octets of
    RFC 8205, with the first key registered for the AS and the SKI of its signer.
    Nothing else of the plug-in changes. *)
Theorem validate_correct st ks m d ext segs blocks l nlri :
  v_bgpsec_path_attr d = Some (enc_attr ext segs blocks ++ l) -> v_hashMessage d = None ->
  v_nlri d = Some nlri -> nlri_wf nlri -> segs <> [] -> Forall (block_wf (length segs)) blocks ->
  Z.of_nat (length (enc_body segs blocks)) < (if ext : bool then 2 ^ 16 - 32 else 2 ^ 8) ->
  BOSSL_pubKeys st = Some ks -> refines ks m -> isPrivate ks = false ->
  exists data, validate st (Some d)
    = Ok (st, if path_valid m (v_myAS d) segs blocks nlri then API_VALRESULT_VALID else API_VALRESULT_INVALID, Some data).
Proof. apply validate_eq. Qed.

(** C35 A path without segments is valid: when the secure path of the attribute is
    empty, a signature block of the algorithm is all that is asked for.  No
    signature is checked and no key is needed. *)
Theorem empty_path_is_valid st d ext (B : Z) rest nlri :
  v_bgpsec_path_attr d = Some (enc_hdr ext (Z.to_nat (2 + B)) ++ be16 2 ++ be16 B ++ [SCA_ECDSA_ALGORITHM] ++ rest) ->
  v_hashMessage d = None -> v_nlri d = Some nlri -> nlri_wf nlri ->
  3 <= B -> 2 + B < 2 ^ (if ext : bool then 16 else 8) -> (3 <= length rest)%nat ->
  exists data, validate st (Some d) = Ok (st, API_VALRESULT_VALID, Some data).
Proof.
  intros Ha Hh Hv Hn HB Hlen Hrest. assert (2 + B < 2 ^ 16) as Hl' by (destruct ext; lia). clear Hlen.
  unfold validate. cbv zeta. set (d' := set_v_status d API_STATUS_ERR_NO_DATA).
  change (v_nlri d') with (v_nlri d). change (v_bgpsec_path_attr d') with (v_bgpsec_path_attr d).
  change (v_hashMessage d') with (v_hashMessage d). change (v_status d') with API_STATUS_ERR_NO_DATA. rewrite Hv, Ha, Hh.
  unfold sca_generateHashMessage. change (v_bgpsec_path_attr d') with (v_bgpsec_path_attr d).
  change (v_hashMessage d') with (v_hashMessage d). rewrite Ha, Hh, parse_header_at. cbn [mbind outcome_bind].
  rewrite Z2Nat.id by lia. set (hdr := enc_hdr ext _). set (body := be16 2 ++ _). set (mem := hdr ++ body).
  assert (bytes_at mem (length hdr) body) as Hat
    by (subst mem; rewrite <- (app_nil_r body) at 1; by apply bytes_at_middle).
  destruct rest as [|r1 [|r2 [|r3 rest]]]; try (simpl in Hrest; lia).
  apply bytes_at_app in Hat as [H1 Hat]. cbn [length be16] in Hat. pose proof Hat as Hseg.
  change (be16 B ++ [SCA_ECDSA_ALGORITHM] ++ r1 :: r2 :: r3 :: rest) with ((be16 B ++ [SCA_ECDSA_ALGORITHM; r1; r2; r3]) ++ rest) in Hseg.
  apply bytes_at_app in Hseg as [Hseg _]. apply bytes_at_app in Hat as [H2 Hat]. apply bytes_at_app in Hat as [H3 _].
  rewrite (read16be_bytes_at _ _ _ H1). cbn [mbind outcome_bind]. unfold LEN_SECPATHSEGMENT, LEN_SECPATH_HDR.
  rewrite (wrap_small 16 (2 + B - Z.of_nat 2)) by (unfold in_u; lia).
  replace (2 + B - Z.of_nat 2 - (2 - Z.of_nat 2)) with B by lia. rewrite wrap_small by (unfold in_u; lia).
  assert (exists n, Z.to_nat B = S n) as [n ->] by (exists (Z.to_nat B - 1)%nat; lia).
  cbn [find_sigBlock]. rewrite (proj2 (Z.eqb_neq B 0)) by lia. change (Z.to_nat 2) with 2%nat.
  rewrite (read16be_bytes_at _ _ _ H2). cbn [mbind outcome_bind].
  rewrite (proj2 (Z.ltb_ge _ _)), (proj2 (Z.eqb_neq B 0)) by lia. cbn [orb].
  cbn [length be16] in H3. rewrite (read8_bytes_at _ _ _ H3). cbn [mbind outcome_bind]. rewrite Z.eqb_refl. cbn [mbind outcome_bind].
  unfold fill_buffer. change (v_nlri d') with (v_nlri d). rewrite Hv. change (Z.to_nat (Z.quot 2 (Z.of_nat 6))) with 0%nat.
  cbn [copy_segments mbind outcome_bind]. change (Z.quot 2 (Z.of_nat 6)) with 0. set (size := buffer_size 0 B nlri).
  assert (exists k, Z.to_nat size = (4 + (11 + prefixBLen nlri + k))%nat) as [k Hk].
  { exists (Z.to_nat (B - 3)). subst size. unfold buffer_size, LEN_SECPATHSEGMENT, LEN_SIGBLOCK_HDR. lia. }
  rewrite Hk, replicate_add.
  match goal with |- context [mkCopy _ _ ?sp ?pp _] =>
    destruct (copy_origin_zeros mem SCA_ECDSA_ALGORITHM nlri (replicate 4 0) (11 + prefixBLen nlri + k) sp pp []
                (be16 B ++ [SCA_ECDSA_ALGORITHM; r1; r2; r3])) as (c & Ec & Hu); [done|done|done|lia|] end.
  change (length (replicate 4 0)) with 4%nat in Ec, Hu.
  rewrite Ec. cbn [mbind outcome_bind]. rewrite Hu.
  rewrite (proj2 (Z.leb_gt _ 0)) by lia. cbn. unfold set_pubKeys. eexists. by destruct st.
Qed.

(** ** Signing *)

(** The signature made with the first private key of the AS and the SKI. *)
Definition sign_with m (asn : Z) (ski octets : list Z) : option (list Z) :=
  match keys_at m asn ski with
  | d :: _ => k ← convert true d; ECDSA_sign (SHA256 octets) k
  | [] => None
  end.

(** What a hop signs: the path it received with its own segment in front. *)
Definition octets_to_sign (peerAS : Z) (sg : segment) segs sigs (algoID : Z) (nlri : UpdateCache.SCA_Prefix) : list Z :=
  le_bytes32 peerAS ++ signed_path (sg :: segs) sigs ++ nlri_octets algoID nlri.

(** The message given to [_sign]: none for an origin, the one of the received path
    for the hops behind it. *)
Definition message_for (hm : option SCA_HashMessage) (sg : segment) segs sigs (algoID : Z) (nlri : UpdateCache.SCA_Prefix) : Prop :=
  match hm with
  | None => segs = [] /\ sigs = []
  | Some hm => exists myAS, describes hm myAS segs sigs algoID nlri /\ segs <> [] /\ length sigs = length segs
                 /\ Z.of_nat (length (buffer hm)) < 2 ^ 16
  end.

Lemma write_bytes_middle (pre old post new : list Z) off : off = length pre -> length old = length new ->
  write_bytes (pre ++ old ++ post) off new = Ok (pre ++ new ++ post).
Proof.
  intros -> Hl. unfold write_bytes. rewrite !length_app, decide_True by lia. rewrite take_app_length.
  by rewrite drop_app_add, <- Hl, drop_app_length.
Qed.

Lemma write_bytes_first (old post new : list Z) : length old = length new ->
  write_bytes (old ++ post) 0 new = Ok (new ++ post).
Proof. intros Hl. by apply (write_bytes_middle [] old post new). Qed.

Lemma prepare_origin peerAS sg algoID nlri octets :
  nlri_wf nlri -> octets = rfc8205_octets (le_bytes32 peerAS) [sg] [] algoID nlri ->
  let hm := mkHashMessage true (Z.of_nat (length octets)) octets 1 [mkHashMessagePtr None 0 (u16 (Z.of_nat (length octets)))] in
  prepare_message hm peerAS (enc_segment sg) true = Ok (hm, octets_to_sign peerAS sg [] [] algoID nlri).
Proof.
  intros Hn -> hm. unfold prepare_message, hm. cbn [buffer hashMessageValPtr bufferSize ownedByAPI segmentCount].
  set (octets := rfc8205_octets _ _ _ _ _).
  assert (Z.of_nat (length octets) < 2 ^ 16) as Hsz.
  { subst octets. unfold rfc8205_octets. rewrite !length_app, length_nlri_octets by done.
    destruct Hn as [Hl _]. unfold prefixBLen. cbn [signed_path tail]. rewrite length_enc_segment, length_le_bytes32. zdiv. }
  assert (octets = le_bytes32 peerAS ++ enc_segment sg ++ nlri_octets algoID nlri) as Eo by done.
  assert (write_bytes octets 0 (le_bytes32 peerAS) = Ok octets) as -> by (rewrite Eo; by apply write_bytes_first).
  cbn [mbind outcome_bind arr_get lookup list_lookup].
  rewrite (read_bytes_bytes_at (enc_segment sg) 0 (enc_segment sg)) by (done || apply bytes_at_refl). cbn [mbind outcome_bind].
  assert (write_bytes octets 4 (enc_segment sg) = Ok octets) as -> by (rewrite Eo; by apply write_bytes_middle).
  cbn [mbind outcome_bind hashMessagePtr hashMessageLength].
  rewrite wrap_small by (unfold in_u; lia). rewrite Nat2Z.id, read_all. cbn [mbind outcome_bind].
  unfold octets_to_sign. cbn [signed_path]. by rewrite <- Eo.
Qed.

Lemma prepare_transit hm myAS peerAS sg segs sigs algoID nlri :
  describes hm myAS segs sigs algoID nlri -> segs <> [] -> length sigs = length segs -> Z.of_nat (length (buffer hm)) < 2 ^ 16 ->
  exists hm', prepare_message hm peerAS (enc_segment sg) false = Ok (hm', octets_to_sign peerAS sg segs sigs algoID nlri).
Proof.
  intros Hd Hne Hlen Hsz. destruct sigs as [|s sigs]; [by destruct segs|].
  pose proof (ds_buffer _ _ _ _ _ _ Hd s sigs eq_refl) as Hb.
  destruct (ds_ptr _ _ _ _ _ _ Hd 0 s (le_bytes32 myAS) eq_refl eq_refl) as (p & o & Hp & _ & _ & Hdr & _).
  rewrite !drop_0 in Hdr. pose proof (pointer_bounds _ _ _ _ _ _ _ Hdr) as Hle.
  assert (hashMessagePtr p = length (replicate 4 0 ++ enc_sig s ++ [0; 0])) as Hptr.
  { pose proof (f_equal length Hdr) as Hl. rewrite length_drop in Hl. pose proof (f_equal length Hb) as Hl'.
    rewrite !length_app in *. lia. }
  unfold prepare_message. unfold rfc8205_octets in Hb. cbn [tail] in Hb.
  set (R := signed_path segs sigs ++ nlri_octets algoID nlri) in *.
  rewrite Hb, write_bytes_first by done. cbn [mbind outcome_bind]. unfold arr_get. rewrite Hp. cbn [mbind outcome_bind].
  rewrite (read_bytes_bytes_at _ _ (enc_segment sg)) by (done || apply bytes_at_refl). cbn [mbind outcome_bind].
  rewrite (proj2 (Nat.ltb_ge _ _)) by (rewrite Hptr, !length_app; simpl; lia).
  assert (le_bytes32 peerAS ++ enc_sig s ++ [0; 0] ++ le_bytes32 myAS ++ R
          = (le_bytes32 peerAS ++ enc_sig s) ++ ([0; 0] ++ le_bytes32 myAS) ++ R) as -> by (by rewrite <- !(assoc_L (++))).
  rewrite write_bytes_middle by (first [done|rewrite Hptr, !length_app; simpl; lia]). cbn [mbind outcome_bind].
  cbn [bufferSize]. rewrite (ds_size _ _ _ _ _ _ Hd), wrap_small, Nat2Z.id by (unfold in_u; lia).
  assert ((le_bytes32 peerAS ++ enc_sig s) ++ enc_segment sg ++ R = octets_to_sign peerAS sg segs (s :: sigs) algoID nlri) as E1.
  { unfold octets_to_sign. subst R. cbn [signed_path]. by rewrite <- !(assoc_L (++)). }
  assert (length (buffer hm) = length (octets_to_sign peerAS sg segs (s :: sigs) algoID nlri)) as ->.
  { rewrite <- E1, Hb, !length_app. simpl. lia. }
  rewrite E1, read_all. by eexists.
Qed.

Lemma load_host_asn sg : load_asn (enc_segment sg) 2 = Ok (host_asn sg).
Proof. apply load_asn_bytes; [|done]. by apply (bytes_at_middle [sg_pCount sg; sg_flags sg] (be32 (sg_asn sg)) []). Qed.

(** Signing a prepared message. *)
Lemma sign_message_eq pk mp d origin sg ski hm hm' octets :
  refines pk mp -> isPrivate pk = true -> d_myHost d = Some (enc_segment sg) -> d_ski d = Some ski -> length ski = SKI_LENGTH ->
  d_hashMessage d = Some hm -> prepare_message hm (d_peerAS d) (enc_segment sg) origin = Ok (hm', octets) ->
  exists d' s, sign_message (Some pk) d origin
    = Ok (Some pk, match sign_with mp (host_asn sg) ski octets with Some _ => API_SUCCESS | None => API_FAILURE end, d', s)
    /\ (forall x, sign_with mp (host_asn sg) ski octets = Some x ->
         d_signature d' = Some (mkSignature true (d_algorithmID d) ski (u16 (Z.of_nat (length x))) (Some x))
         /\ d_hashMessage d' = Some hm' /\ d_peerAS d' = d_peerAS d /\ d_myHost d' = d_myHost d /\ d_ski d' = d_ski d
         /\ d_algorithmID d' = d_algorithmID d).
Proof.
  intros Hr Hprv Hh Hs Hk Hm Hp. unfold sign_message. rewrite Hh, Hs, load_host_asn. cbn [mbind outcome_bind].
  rewrite (getKey_eq pk mp _ _ Hr Hk), Hprv. unfold sign_with, keys_at.
  destruct (mp !! (host_asn sg, ski)) as [ds|] eqn:Em; cbn [found mbind outcome_bind default]; [|do 2 eexists; by split].
  destruct (refines_keys _ _ _ _ Hr Em) as [Hne Hok]. rewrite Hprv in Hok. destruct ds as [|dr ds]; [done|].
  apply Forall_cons in Hok as [[_ Hc] _]. rewrite (proj2 (Z.eqb_neq _ 0)) by (simpl; lia).
  cbn [set_d_status d_hashMessage d_peerAS]. rewrite Hm, Hp. cbn [mbind outcome_bind].
  unfold get_slot, arr_get. cbn [fmap list_fmap lookup list_lookup mbind outcome_bind]. change (id (dr :: ds)) with (dr :: ds). cbv iota.
  destruct (convert true dr) as [k|]; [|done]. cbn [mbind option_bind].
  destruct (ECDSA_sign _ k) as [x|]; do 2 eexists; split; try done. by intros ? [= <-].
Qed.

Lemma sign_eq st pk mp d sg segs sigs ski nlri :
  BOSSL_privKeys st = Some pk -> refines pk mp -> isPrivate pk = true -> d_algorithmID d = algorithmID pk ->
  d_myHost d = Some (enc_segment sg) -> d_ski d = Some ski -> length ski = SKI_LENGTH -> d_nlri d = Some nlri -> nlri_wf nlri ->
  message_for (d_hashMessage d) sg segs sigs (d_algorithmID d) nlri ->
  let octets := octets_to_sign (d_peerAS d) sg segs sigs (d_algorithmID d) nlri in
  exists d', _sign st (Some d)
    = Ok (st, match sign_with mp (host_asn sg) ski octets with Some _ => API_SUCCESS | None => API_FAILURE end, Some d')
    /\ (forall x, sign_with mp (host_asn sg) ski octets = Some x ->
         d_signature d' = Some (mkSignature true (d_algorithmID d) ski (u16 (Z.of_nat (length x))) (Some x))
         /\ (d_hashMessage d = None -> exists hm, d_hashMessage d' = Some hm
              /\ hashMessageValPtr hm = [mkHashMessagePtr None 0 (u16 (Z.of_nat (length octets)))]
              /\ length (buffer hm) = length octets)
         /\ d_peerAS d' = d_peerAS d /\ d_myHost d' = d_myHost d /\ d_ski d' = d_ski d /\ d_algorithmID d' = d_algorithmID d).
Proof.
  intros Hpk Hr Hprv Ha Hh Hs Hk Hn Hnw Hm octets. unfold _sign. rewrite Hpk, Hh, Hs, Hn, (proj2 (Z.eqb_eq _ _) Ha). cbn [negb].
  destruct (d_hashMessage d) as [hm|] eqn:Ehm.
  - destruct Hm as (myAS & Hd & Hne & Hlen & Hsz). cbn [mbind outcome_bind Z.eqb negb API_STATUS_OK].
    destruct (prepare_transit hm myAS (d_peerAS d) sg segs sigs (d_algorithmID d) nlri) as (hm' & Ep); [done..|].
    destruct (sign_message_eq pk mp d false sg ski hm hm' octets) as (d' & s & E1 & Hx); [done..|].
    change (0 =? 0) with true. cbn [negb]. rewrite E1. cbn [mbind outcome_bind]. unfold set_privKeys. rewrite <- Hpk.
    eexists. split; [by destruct st|]. intros x Hsome. destruct (Hx x Hsome) as (Hsig & _ & Hpe & Hho & Hsk & Hal).
    split; [by rewrite <- Hsig|]. split; [done|]. rewrite Hh in Hho. by rewrite Hs in Hsk.
  - destruct Hm as [-> ->]. rewrite generateOrigin_eq by done. cbv zeta. cbn [mbind outcome_bind].
    set (hm := mkHashMessage true _ _ _ _). pose (d0 := set_d_hashMessage d (Some hm)).
    pose proof (prepare_origin (d_peerAS d) sg (d_algorithmID d) nlri _ Hnw eq_refl) as Ep. cbv zeta in Ep. fold hm in Ep.
    fold octets in Ep.
    destruct (sign_message_eq pk mp d0 true sg ski hm hm octets) as (d' & s & E1 & Hx); [done..|].
    change (API_STATUS_OK =? API_STATUS_OK) with true. cbn [negb]. fold d0. rewrite E1. cbn [mbind outcome_bind]. unfold set_privKeys. rewrite <- Hpk.
    eexists. split; [by destruct st|]. intros x Hsome. destruct (Hx x Hsome) as (Hsig & Hhm & Hpe & Hho & Hsk & Hal).
    split; [exact Hsig|].
    split; [intros _; exists hm; split; [by rewrite <- Hhm|done]|]. change (d_myHost d0) with (d_myHost d) in Hho. rewrite Hh in Hho.
    change (d_ski d0) with (d_ski d) in Hsk. by rewrite Hs in Hsk.
Qed.

(** C32 A path that is signed at every hop is found valid: when a hop, the origin of
    an update or one that received a valid path, signs it for a peer with its first
    private key, and the peer has the public key of this key pair registered first,
    then the peer finds the path with the new segment and the new signature valid.
    The signature covers the octets of RFC 8205. *)
Theorem sign_then_validate st pk mp m d sg segs sigs ski nlri dpriv dpub kpriv kpub l1 l2 x :
  BOSSL_privKeys st = Some pk -> refines pk mp -> isPrivate pk = true ->
  d_algorithmID d = algorithmID pk -> d_algorithmID d = SCA_ECDSA_ALGORITHM ->
  d_myHost d = Some (enc_segment sg) -> d_ski d = Some ski -> length ski = SKI_LENGTH -> d_nlri d = Some nlri -> nlri_wf nlri ->
  message_for (d_hashMessage d) sg segs sigs SCA_ECDSA_ALGORITHM nlri ->
  keys_at mp (host_asn sg) ski = dpriv :: l1 -> convert true dpriv = Some kpriv ->
  keys_at m (host_asn sg) ski = dpub :: l2 -> convert false dpub = Some kpub ->
  (forall digest s, ECDSA_sign digest kpriv = Some s -> ECDSA_verify digest s kpub = 1) ->
  ECDSA_sign (SHA256 (octets_to_sign (d_peerAS d) sg segs sigs SCA_ECDSA_ALGORITHM nlri)) kpriv = Some x ->
  path_verified m (be32 (sg_asn sg)) segs sigs nlri = true ->
  exists d', _sign st (Some d) = Ok (st, API_SUCCESS, Some d')
    /\ d_signature d' = Some (mkSignature true SCA_ECDSA_ALGORITHM ski (u16 (Z.of_nat (length x))) (Some x))
    /\ forall st2 ks v ext l,
        BOSSL_pubKeys st2 = Some ks -> refines ks m -> isPrivate ks = false ->
        v_bgpsec_path_attr v = Some (enc_attr ext (sg :: segs) [mkBlock SCA_ECDSA_ALGORITHM (mkSig ski x :: sigs)] ++ l) ->
        v_hashMessage v = None -> v_nlri v = Some nlri -> v_myAS v = d_peerAS d ->
        block_wf (S (length segs)) (mkBlock SCA_ECDSA_ALGORITHM (mkSig ski x :: sigs)) ->
        Z.of_nat (length (enc_body (sg :: segs) [mkBlock SCA_ECDSA_ALGORITHM (mkSig ski x :: sigs)]))
        < (if ext : bool then 2 ^ 16 - 32 else 2 ^ 8) ->
        exists data, validate st2 (Some v) = Ok (st2, API_VALRESULT_VALID, Some data).
Proof.
  intros Hpk Hr Hprv Ha Hecdsa Hh Hs Hk Hn Hnw Hm Hkp Hcp Hkv Hcv Hcorrect Hx Hprev.
  assert (sign_with mp (host_asn sg) ski (octets_to_sign (d_peerAS d) sg segs sigs SCA_ECDSA_ALGORITHM nlri) = Some x) as Hsw
    by (unfold sign_with; by rewrite Hkp, Hcp).
  destruct (sign_eq st pk mp d sg segs sigs ski nlri) as (d' & E1 & Hd'); [done..|by rewrite Hecdsa|].
  cbv zeta in E1, Hd'. rewrite Hecdsa in E1, Hd'. rewrite Hsw in E1. exists d'. split; [done|].
  destruct (Hd' x Hsw) as [Hsig _]. split; [done|].
  intros st2 ks v ext l Hpub Hr2 Hp2 Hattr Hv1 Hv2 Hv3 Hw Hsz.
  destruct (validate_eq st2 ks m v ext (sg :: segs) [mkBlock SCA_ECDSA_ALGORITHM (mkSig ski x :: sigs)] l nlri) as (data & Ev);
    [done..|by apply Forall_singleton|done|done|done|done|].
  exists data. rewrite Ev. unfold path_valid. cbn [List.find has_algo sb_algo sb_sigs path_verified ss_ski ss_signature].
  change (has_algo SCA_ECDSA_ALGORITHM _) with true. cbn [sb_sigs path_verified ss_ski ss_signature].
  rewrite Hprev. unfold verified_by. rewrite Hkv, Hcv.
  change (rfc8205_octets (le_bytes32 (v_myAS v)) (sg :: segs) (mkSig ski x :: sigs) SCA_ECDSA_ALGORITHM nlri)
    with (octets_to_sign (v_myAS v) sg segs sigs SCA_ECDSA_ALGORITHM nlri).
  by rewrite Hv3, (Hcorrect _ _ Hx).
Qed.

(** Signing an originated update for a second peer: the call keeps the message it
    generated, takes the update for a received one the next time, and writes the own
    path segment two octets in front of the buffer. *)
Theorem sign_again_overflows st pk mp d sg ski nlri x :
  BOSSL_privKeys st = Some pk -> refines pk mp -> isPrivate pk = true -> d_algorithmID d = algorithmID pk ->
  d_myHost d = Some (enc_segment sg) -> d_ski d = Some ski -> length ski = SKI_LENGTH -> d_nlri d = Some nlri -> nlri_wf nlri ->
  d_hashMessage d = None ->
  sign_with mp (host_asn sg) ski (octets_to_sign (d_peerAS d) sg [] [] (d_algorithmID d) nlri) = Some x ->
  exists d', _sign st (Some d) = Ok (st, API_SUCCESS, Some d') /\ _sign st (Some d') = Fault BufferOverflow.
Proof.
  intros Hpk Hr Hprv Ha Hh Hs Hk Hn Hnw Hm Hsw.
  destruct (sign_eq st pk mp d sg [] [] ski nlri) as (d' & E1 & Hd'); [done..|by rewrite Hm|].
  cbv zeta in E1, Hd'. rewrite Hsw in E1. exists d'. split; [done|].
  destruct (Hd' x Hsw) as (_ & Hmsg & Hpe & Hho & Hsk & Hal). destruct (Hmsg Hm) as (hm & Hhm & Hptr & Hlen).
  unfold _sign. rewrite Hpk, Hhm, Hho, Hsk, Hal, Hh, Hs, (proj2 (Z.eqb_eq _ _) Ha). cbn [negb mbind outcome_bind].
  change (API_STATUS_OK =? API_STATUS_OK) with true. cbn [negb].
  unfold sign_message. rewrite Hho, Hsk, Hh, Hs, load_host_asn. cbn [mbind outcome_bind].
  rewrite (getKey_eq pk mp _ _ Hr Hk). unfold sign_with, keys_at in Hsw.
  destruct (mp !! (host_asn sg, ski)) as [ds|] eqn:Em; [|done]. cbn [found mbind outcome_bind default].
  destruct ds as [|dr ds]; [done|]. rewrite (proj2 (Z.eqb_neq _ 0)) by (simpl; lia).
  cbn [set_d_status d_hashMessage d_peerAS]. rewrite Hhm. unfold prepare_message.
  assert (exists b, write_bytes (buffer hm) 0 (le_bytes32 (d_peerAS d')) = Ok b) as [b ->].
  { unfold write_bytes. rewrite decide_True; [by eexists|]. rewrite Hlen. unfold octets_to_sign. rewrite !length_app. simpl. lia. }
  by rewrite Hptr.
Qed.

End plugin.
End BgpsecOpensslTheorems.
