(* ===== verification/BgpsecHandler.v ===== *)
(** * BGPsec handler (server/bgpsec_handler.c)

    The signatures of an update are validated by a library that the SRx crypto API
    loads at run time: the class [SRxCryptoAPI] is its entry point. *)
From S2P Require Import Prelude SrxDefs BgpsecPath UpdateCache HashMessage HashMessageTheorems KeyStorage.
From S2P Require Import KeyStorageTheorems BgpsecOpenssl BgpsecOpensslTheorems.

Module BgpsecHandler.
Import HashMessage.

(** The entry point of the loaded library: the verdict for the data of an update,
    or the fault of a call without a defined behaviour.  The message the library leaves in the data is freed by the handler. *)
Class SRxCryptoAPI := { validate : SCA_BGPSecValidationData -> outcome Z }.

Definition validateSignature `{SRxCryptoAPI} (update : UpdateCache.UC_UpdateData) : outcome Z :=
  let valdata := mkValidationData (UpdateCache.myAS update) API_STATUS_OK (UpdateCache.bgpsec_path update)
                   (Some (UpdateCache.nlri update)) None in
  r ← validate valdata;
  Ok (if r =? API_VALRESULT_VALID then SRx_RESULT_VALID else SRx_RESULT_INVALID).

End BgpsecHandler.

(** * The BGPsec verdict of the server

    The OpenSSL plug-in behind the interface of the server's BGPsec handler. *)

Module BgpsecPlugin.
Import BgpsecPath HashMessage HashMessageTheorems KeyStorage KeyStorageTheorems BgpsecOpenssl BgpsecOpensslTheorems.

Section plugin.
Context {E : Type} `{Openssl E}.
Implicit Types (st : Bossl E) (m : gmap (Z * list Z) (list (list Z))).

(** The plug-in in the state [st]. *)
Definition openssl_api st : BgpsecHandler.SRxCryptoAPI := {|
  BgpsecHandler.validate d := '(_, r, _) ← BgpsecOpenssl.validate st (Some d); Ok r
|}.

(** The BGPsec result of an update whose path has a block of the algorithm of the
    plug-in is VALID exactly when every signature of the block verifies, against the
    octets of RFC 8205, with the first key registered for its signer, and INVALID
    otherwise. *)
Theorem server_verdict st ks m update ext segs blocks l :
  UpdateCache.bgpsec_path update = Some (enc_attr ext segs blocks ++ l) ->
  nlri_wf (UpdateCache.nlri update) -> segs <> [] -> Forall (block_wf (length segs)) blocks ->
  Z.of_nat (length (enc_body segs blocks)) < (if ext : bool then 2 ^ 16 - 32 else 2 ^ 8) ->
  BOSSL_pubKeys st = Some ks -> refines ks m -> isPrivate ks = false ->
  @BgpsecHandler.validateSignature (openssl_api st) update
  = Ok (if path_valid m (UpdateCache.myAS update) segs blocks (UpdateCache.nlri update) then SRx_RESULT_VALID else SRx_RESULT_INVALID).
Proof.
  intros Hp Hn Hs Hw Hl Hk Hr Hprv. unfold BgpsecHandler.validateSignature. cbn [BgpsecHandler.validate openssl_api].
  set (d := mkValidationData _ _ _ _ _).
  destruct (validate_eq st ks m d ext segs blocks l (UpdateCache.nlri update)) as (data & E1); [done..|].
  rewrite E1. simpl_outcome. by destruct (path_valid _ _ _ _ _).
Qed.

End plugin.
End BgpsecPlugin.
