(* ===== verification/AspaPdu.v ===== *)
(** * ASPA protocol data units (handleAspaPdu in server/rpki_handler.c)

    Announcements and withdrawals of ASPA objects, as they change the database
    of AspaTrie, and what lookups answer afterwards. *)
From S2P Require Import Prelude Locks SrxDefs AspaTrie.

Module AspaPdu.
Import AspaTrie.

(** [handleAspaPdu] with the address [addr] of the object it allocates.  The
    word buffer has six bytes. *)
Definition handleAspaPdu (self : ASPA_DBManager) (addr cusAsn pAsCount : Z)
    (provAsns : option (list Z)) (addrFamilyType announce : Z) : outcome (ASPA_DBManager * Z) :=
  if negb ((addrFamilyType =? 0) || (addrFamilyType =? 1)) then Ok (self, 0)
  else
    let a := if addrFamilyType =? 0 then AFI_IP else AFI_IP6 in
    aspaObj ← newASPAObject addr cusAsn pAsCount provAsns a;
    strWord ← sprintf_d 6 cusAsn;
    if announce =? 1 then
      '(self, node) ← insertAspaObj self strWord (Some strWord) (Some aspaObj);
      Ok (self, if (node : bool) then 1 else 0)
    else if announce =? 0 then
      '(self, resWithdraw) ← delete_TrieNode_AspaObj self strWord (Some aspaObj);
      Ok (self, if (resWithdraw : bool) then 1 else 0)
    else Ok (self, 0).

(** ** The database by customer *)

Definition family (addrFamilyType : Z) : Z := if addrFamilyType =? 0 then AFI_IP else AFI_IP6.

(** The object stored for a customer. *)
Definition customer (self : ASPA_DBManager) (cusAsn : Z) : option ASPA_Ptr := db_get self (fmt_d cusAsn).

Lemma lookup_spec_customer self c p a :
  lookup_spec self c p a
  = match customer self c with
    | None => ASPA_RESULT_UNKNOWN
    | Some o => if decide (p ∈ default [] (providerAsns (object o)) /\ afi (object o) = a)
                then ASPA_RESULT_VALID else ASPA_RESULT_INVALID
    end.
Proof. reflexivity. Qed.

(** The object of a PDU. *)
Definition pdu_object (addr cusAsn : Z) (provs : list Z) (addrFamilyType : Z) : ASPA_Ptr :=
  mkASPA_Ptr addr (mkASPA_Object cusAsn (Z.of_nat (length provs)) (Some provs) (family addrFamilyType)).

Lemma pdu_object_wf addr c provs f : object_wf (object (pdu_object addr c provs f)).
Proof. by exists provs. Qed.

Lemma fmt_d_digits c : 0 <= c -> digits (fmt_d c).
Proof. apply fmt_d_digit. Qed.

Lemma handleAspaPdu_start self addr c provs f announce :
  f = 0 \/ f = 1 ->
  handleAspaPdu self addr c (Z.of_nat (length provs)) (Some provs) f announce
  = (strWord ← sprintf_d 6 c;
     if announce =? 1 then
       '(self, node) ← insertAspaObj self strWord (Some strWord) (Some (pdu_object addr c provs f));
       Ok (self, if (node : bool) then 1 else 0)
     else if announce =? 0 then
       '(self, resWithdraw) ← delete_TrieNode_AspaObj self strWord (Some (pdu_object addr c provs f));
       Ok (self, if (resWithdraw : bool) then 1 else 0)
     else Ok (self, 0)).
Proof.
  intros Hf. unfold handleAspaPdu, newASPAObject. rewrite Nat2Z.id, decide_True, firstn_all by lia.
  by destruct Hf as [-> | ->].
Qed.

(** An announced object answers every later lookup of its customer: valid
    for a listed provider in the object's address family and invalid for
    everything else, also where an earlier object of the other family was
    stored, which is replaced.  Other customers are unaffected.  All this is for
    customers of at most five digits: longer numbers overflow the word buffer. *)
Theorem announce_then_lookup self addr c provs f :
  db_wf self -> 0 <= c < 2 ^ 31 -> f = 0 \/ f = 1 ->
  (forall o, customer self c = Some o -> address o <> addr) ->
  if c <? 10 ^ 5 then
    exists self', handleAspaPdu self addr c (Z.of_nat (length provs)) (Some provs) f 1 = Ok (self', 1)
    /\ db_wf self'
    /\ forall c' p a, 0 <= c' < 10 ^ 6 ->
        ASPA_DB_lookup self' c' p a
        = Ok (self', if decide (c' = c)
                     then if decide (p ∈ provs /\ family f = a)
                          then ASPA_RESULT_VALID else ASPA_RESULT_INVALID
                     else lookup_spec self c' p a)
  else handleAspaPdu self addr c (Z.of_nat (length provs)) (Some provs) f 1 = Fault BufferOverflow.
Proof.
  intros Hdb Hc Hf Hfresh. rewrite handleAspaPdu_start by done.
  destruct (Z.ltb_spec c (10 ^ 5)); [|by rewrite sprintf_d_overflow by (simpl; lia)].
  rewrite sprintf_d_ok by (simpl; lia). simpl_outcome.
  assert (digits (fmt_d c)) as Hd by (apply fmt_d_digits; lia).
  destruct (insert_walk_db self (fmt_d c) (Some (fmt_d c)) (pdu_object addr c provs f)
    (u32 (replaced_count (countTrieNode self) (db_get self (fmt_d c)) + 1)) Hdb Hd)
    as (r & r' & Hr & Hi & Hwf & Hget & _); [apply pdu_object_wf|].
  rewrite (db_get_root self r) in * by done.
  assert (trie_get r (fmt_d c) <> Some (pdu_object addr c provs f)) as Hne.
  { intros E. apply (Hfresh (pdu_object addr c provs f)); [|done].
    unfold customer. by rewrite (db_get_root self r). }
  rewrite (insertAspaObj_eq self r r') by eauto using db_wf_lock. cbn [Z.eqb]. simpl_outcome.
  eexists. split; [done|]. split; [exact Hwf|].
  intros c' p a Hc'. rewrite ASPA_DB_lookup_eq by done. do 2 f_equal.
  rewrite !lookup_spec_customer. unfold customer. rewrite Hget by (apply fmt_d_digits; lia).
  destruct (decide (c' = c)) as [->|Hne']; [by rewrite decide_True|].
  rewrite decide_False; [done|]. intros E. apply fmt_d_inj in E; lia.
Qed.

(** A withdrawal is accepted exactly when the stored object of the customer
    has the same providers and family; it then removes the customer, but also
    every customer whose decimal digits extend those of the withdrawn one. *)
Theorem withdraw_then_lookup self addr c provs f :
  db_wf self -> 0 <= c < 10 ^ 5 -> f = 0 \/ f = 1 ->
  let stored := object <$> customer self c in
  let mine := object (pdu_object addr c provs f) in
  (stored <> Some mine ->
     handleAspaPdu self addr c (Z.of_nat (length provs)) (Some provs) f 0 = Ok (self, 0))
  /\ (stored = Some mine ->
     exists self', handleAspaPdu self addr c (Z.of_nat (length provs)) (Some provs) f 0 = Ok (self', 1)
       /\ forall c', 0 <= c' ->
            customer self' c' = if decide (fmt_d c `prefix_of` fmt_d c') then None else customer self c').
Proof.
  intros Hdb Hc Hf stored mine. rewrite handleAspaPdu_start by done.
  rewrite sprintf_d_ok by (simpl; lia). simpl_outcome. cbn [Z.eqb].
  assert (digits (fmt_d c)) as Hd by (apply fmt_d_digits; lia).
  assert (fmt_d c <> []) as Hne.
  { rewrite fmt_d_nonneg by lia. pose proof (dec_digits_length 10 5 c ltac:(lia) ltac:(simpl; lia)).
    by destruct (dec_digits 10 c); [simpl in *; lia|]. }
  rewrite delete_TrieNode_AspaObj_eq by (done || apply pdu_object_wf).
  split; intros Hs; subst stored; unfold customer in Hs.
  - by rewrite bool_decide_false.
  - rewrite bool_decide_true by done.
    destruct (find_from_wf self (fmt_d c) Hdb Hd) as (n & Hn & Hg & _).
    destruct Hdb as [(r & Hr & Ht) _ _ _]. rewrite Hr in *.
    destruct n as [n|]; [|rewrite Hg in Hs; discriminate].
    destruct (prune_spec (fmt_d c) Hd Hne r n Ht Hn) as (r' & -> & _ & Hget & _). simpl_outcome.
    eexists. split; [done|]. intros c' Hc'. unfold customer.
    rewrite (db_get_root _ r') by done. rewrite (db_get_root self r) by done.
    by apply Hget, fmt_d_digits.
Qed.

(** ** Witnesses *)
Lemma announce_then_lookup_witness :
  exists self', handleAspaPdu example_db 3 650 1 (Some [40]) 1 1 = Ok (self', 1)
    /\ ASPA_DB_lookup self' 650 30 AFI_IP = Ok (self', ASPA_RESULT_INVALID)
    /\ ASPA_DB_lookup self' 65 10 AFI_IP = Ok (self', ASPA_RESULT_VALID).
Proof.
  destruct (announce_then_lookup example_db 3 650 [40] 1 example_db_wf ltac:(lia) ltac:(by right))
    as (self' & H1 & _ & H2).
  - intros o E. vm_compute in E. injection E as <-. discriminate.
  - exists self'. split; [exact H1|]. split; [exact (H2 650 30 AFI_IP ltac:(lia))|].
    exact (H2 65 10 AFI_IP ltac:(lia)).
Defined.

Lemma withdraw_then_lookup_witness :
  exists self', handleAspaPdu example_db 3 65 2 (Some [10; 20]) 0 0 = Ok (self', 1)
    /\ customer self' 650 = None.
Proof.
  destruct (withdraw_then_lookup example_db 3 65 [10; 20] 0 example_db_wf ltac:(lia) ltac:(by left))
    as [_ H].
  destruct (H eq_refl) as (self' & H1 & H2).
  exists self'. split; [exact H1|]. exact (H2 650 ltac:(lia)).
Defined.

End AspaPdu.
