(* ===== verification/ClientSocket.v ===== *)
(** * Client sockets (util/client_socket.c, util/socket.c)

    A client socket over what the other end does: the bytes a connection delivers
    before it is lost, the writes it takes, and what the attempts to connect meet.
    A file descriptor is a boolean, [false] standing for -1; sockets block, so a
    read ends with all bytes or with the end of the connection. *)
From S2P Require Import Prelude.

Module ClientSocket.

(** A connection, as the other end determines it. *)
Record Connection := mkConnection { incoming : list Z; takes : nat }.
(** No file descriptor; a refused connection (ECONNREFUSED, EINVAL); another
    error; a connection. *)
Inductive attempt := NoSocket | Refused | Unreachable | Accepted (c : Connection).
(** A socket that is not connected. *)
Definition unconnected : Connection := mkConnection [] 0.

(** [conn] is the connection behind the descriptor, [attempts] what the next
    attempts to connect meet, [written] the blocks written so far. *)
Record ClientSocket := mkClientSocket {
  oldFD : bool;
  clientFD : bool;
  reconnect : bool;
  canBeClosed : bool;
  conn : Connection;
  attempts : list attempt;
  written : list (list Z)
}.
Implicit Types (self : ClientSocket).

Definition set_fds self old fd : ClientSocket :=
  mkClientSocket old fd (reconnect self) (canBeClosed self) (conn self) (attempts self) (written self).
Definition set_reconnect self r : ClientSocket :=
  mkClientSocket (oldFD self) (clientFD self) r (canBeClosed self) (conn self) (attempts self) (written self).
Definition set_conn self c : ClientSocket :=
  mkClientSocket (oldFD self) (clientFD self) (reconnect self) (canBeClosed self) c (attempts self) (written self).
Definition set_attempts self l : ClientSocket :=
  mkClientSocket (oldFD self) (clientFD self) (reconnect self) (canBeClosed self) (conn self) l (written self).
Definition set_written self w : ClientSocket :=
  mkClientSocket (oldFD self) (clientFD self) (reconnect self) (canBeClosed self) (conn self) (attempts self) w.

(** ** Reading and writing *)

(** The socket, the bytes that arrived in the buffer, and whether all did. *)
Definition recvNum self (num : nat) : ClientSocket * list Z * bool :=
  if negb (clientFD self) then (self, [], false)
  else
    let c := conn self in
    let self := set_conn self (mkConnection (drop num (incoming c)) (takes c)) in
    if (num <=? length (incoming c))%nat then (self, take num (incoming c), true)
    else (set_fds self (oldFD self) false, incoming c, false).

Definition sendNum self (buffer : list Z) : ClientSocket * bool :=
  if negb (clientFD self) then (self, false)
  else
    match buffer, takes (conn self) with
    | [], _ => (self, true)
    | _, O => (set_fds self (oldFD self) false, false)
    | _, S n => (set_written (set_conn self (mkConnection (incoming (conn self)) n)) (written self ++ [buffer]), true)
    end.

(** ** Connecting *)

(** What [connect] meets; a server that has nothing more to say refuses. *)
Definition next_attempt self : attempt * ClientSocket :=
  match attempts self with
  | [] => (Refused, self)
  | a :: l => (a, set_attempts self l)
  end.

(** [None] is the result [false]; [resolved] tells whether the host name is known. *)
Definition createClientSocket (env : list attempt) (resolved failNoServer allowToClose : bool) : option ClientSocket :=
  if negb resolved then None
  else
    let self := mkClientSocket false true true true unconnected env [] in
    let '(a, self) := next_attempt self in
    match a with
    | NoSocket => None
    | Accepted c => Some (mkClientSocket true true true allowToClose c (attempts self) [])
    | Refused | Unreachable =>
        if failNoServer then None else Some (mkClientSocket false false true allowToClose unconnected (attempts self) [])
    end.

Definition stopReconnectingToServer self : ClientSocket := set_reconnect self false.

Definition closeClientSocket self : ClientSocket :=
  let fileDescriptor := clientFD self || oldFD self in
  let self := stopReconnectingToServer self in
  if fileDescriptor then
    if canBeClosed self then set_fds self false false else set_fds self (oldFD self) false
  else self.

(** The loop over the attempts.  An attempt with a descriptor that an earlier one
    left needs no new socket. *)
Fixpoint reconnect_loop (max_attempts : nat) self : ClientSocket * bool :=
  match max_attempts with
  | O => (self, false)
  | S n =>
      if negb (reconnect self) then (self, false)
      else
        let '(a, self) := next_attempt self in
        match a with
        | NoSocket => if clientFD self then reconnect_loop n self else (set_fds self false false, false)
        | Accepted c => (set_conn (set_fds self (if clientFD self then oldFD self else true) true) c, true)
        | Refused => reconnect_loop n (set_fds self false false)
        | Unreachable => reconnect_loop n (set_fds self (if clientFD self then oldFD self else true) true)
        end
  end.

(** The delay between the attempts is left out.  A descriptor that may not be
    closed is only forgotten. *)
Definition reconnectToServer self (max_attempts : nat) : ClientSocket * bool :=
  reconnect_loop max_attempts (set_conn (set_fds self false false) unconnected).

Definition isConnectedToServer self : bool := clientFD self.

End ClientSocket.
