(* ===== verification/RtrClient.v ===== *)
(** * Client of the RPKI-to-router protocol (server/rpki_router_client.c)

    The session with the validation cache (RFC 8210): the PDUs that are sent, the
    loop over the received ones with its callbacks, and the thread that keeps the
    session up.  The PDUs are the packed structures of shared/rpki_router.h. *)
From S2P Require Import Prelude Bytes Locks SrxDefs BgpsecPath ClientSocket.
Import ClientSocket.ClientSocket.

Module RtrClient.
Import BgpsecPath.

(** ** Constants *)

(** [RPKIRouterPDUType] *)
Definition PDU_TYPE_SERIAL_NOTIFY : Z := 0.
Definition PDU_TYPE_SERIAL_QUERY : Z := 1.
Definition PDU_TYPE_RESET_QUERY : Z := 2.
Definition PDU_TYPE_CACHE_RESPONSE : Z := 3.
Definition PDU_TYPE_IP_V4_PREFIX : Z := 4.
Definition PDU_TYPE_IP_V6_PREFIX : Z := 6.
Definition PDU_TYPE_END_OF_DATA : Z := 7.
Definition PDU_TYPE_CACHE_RESET : Z := 8.
Definition PDU_TYPE_ROUTER_KEY : Z := 9.
Definition PDU_TYPE_ERROR_REPORT : Z := 10.
Definition PDU_TYPE_ASPA : Z := 11.

(** [RPKIErrorCode] *)
Definition RPKI_EC_CORRUPT_DATA : Z := 0.
Definition RPKI_EC_INTERNAL_ERROR : Z := 1.
Definition RPKI_EC_NO_DATA_AVAILABLE : Z := 2.
Definition RPKI_EC_INVALID_REQUEST : Z := 3.
Definition RPKI_EC_UNSUPPORTED_PROT_VER : Z := 4.
Definition RPKI_EC_UNSUPPORTED_PDU : Z := 5.
Definition RPKI_EC_UNKNOWN_WITHDRAWL : Z := 6.
Definition RPKI_EC_DUPLICATE_ANNOUNCEMENT : Z := 7.
Definition RPKI_EC_UNEXPECTED_PROTOCOL_VERSION : Z := 8.
Definition RPKI_EC_RESERVED : Z := 255.

Definition RRC_RCV_PDU_NO_ERROR : Z := -1.
Definition RRC_RCV_PDU_SOCKET_ERROR : Z := -2.
Definition RRC_MAX_ERRCT : Z := 10.
Definition MAX_RECONNECTION_ATTEMPTS : nat := 10.

Definition PREFIX_FLAG_ANNOUNCEMENT : Z := 1.
Definition RPKI_RTR_PROTOCOL_VERSION : Z := 2.
Definition ECDSA_PUB_KEY_DER_LENGTH : nat := 91.

(** The sizes of the packed structures. *)
Definition sizeof_CommonHeader : nat := 8.
Definition sizeof_SerialQueryHeader : nat := 12.
Definition sizeof_RouterKeyHeader : nat := 12 + SKI_LENGTH + ECDSA_PUB_KEY_DER_LENGTH.
Definition sizeof_ErrorReportHeader : nat := 12.
Definition sizeof_ASPAHeader : nat := 16.

(** The characters of a string. *)
Definition chars (s : string) : list Z := ascii_code <$> String.list_ascii_of_string s.

(** ** The client *)
Section client.
Context {U : Type}.
(** The bytes that [realloc] appends to the buffer, and those of a union that was
    not initialised. *)
Context (garbage : nat -> Z).

(** The callbacks, NULL or a function on the user's state. *)
Record RPKIRouterClientParams := mkParams {
  prefixCallback : option (U -> Z -> Z -> bool -> IPPrefix -> Z -> Z -> outcome U);
  routerKeyCallback : option (U -> Z -> Z -> bool -> Z -> list Z -> list Z -> outcome U);
  endOfDataCallback : option (U -> Z -> Z -> outcome U);
  resetCallback : option (U -> Z -> outcome U);
  sessionIDChangedCallback : option (U -> Z -> Z -> outcome U);
  sessionIDEstablishedCallback : option (U -> Z -> Z -> outcome U);
  errorCallback : option (U -> Z -> list Z -> outcome (U * bool));
  connectionCallback : option (U -> outcome (U * Z));
  cbHandleAspaPdu : option (U -> Z -> Z -> list Z -> Z -> Z -> outcome (U * Z));
  p_version : Z;
  allowDowngrade : bool
}.
Context (params : RPKIRouterClientParams).

(** [sessionID] and [serial] hold the numbers as they lie in the PDU. *)
Record RPKIRouterClient := mkClient {
  routerClientID : Z;
  clSock : ClientSocket;
  stop : bool;
  writeMutex : Mutex;
  serial : Z;
  lastSent : Z;
  lastRecv : Z;
  sessionID : Z;
  sessionIDChanged : bool;
  startup : bool;
  stopAfterEndOfData : bool;
  version : Z
}.
Implicit Types (client : RPKIRouterClient) (u : U).

Definition set_clSock client s := mkClient (routerClientID client) s (stop client) (writeMutex client) (serial client)
  (lastSent client) (lastRecv client) (sessionID client) (sessionIDChanged client) (startup client) (stopAfterEndOfData client) (version client).
Definition set_stop client b := mkClient (routerClientID client) (clSock client) b (writeMutex client) (serial client)
  (lastSent client) (lastRecv client) (sessionID client) (sessionIDChanged client) (startup client) (stopAfterEndOfData client) (version client).
Definition set_mutex client m := mkClient (routerClientID client) (clSock client) (stop client) m (serial client)
  (lastSent client) (lastRecv client) (sessionID client) (sessionIDChanged client) (startup client) (stopAfterEndOfData client) (version client).
Definition set_serial client n := mkClient (routerClientID client) (clSock client) (stop client) (writeMutex client) n
  (lastSent client) (lastRecv client) (sessionID client) (sessionIDChanged client) (startup client) (stopAfterEndOfData client) (version client).
Definition set_lastSent client t := mkClient (routerClientID client) (clSock client) (stop client) (writeMutex client) (serial client)
  t (lastRecv client) (sessionID client) (sessionIDChanged client) (startup client) (stopAfterEndOfData client) (version client).
Definition set_lastRecv client t := mkClient (routerClientID client) (clSock client) (stop client) (writeMutex client) (serial client)
  (lastSent client) t (sessionID client) (sessionIDChanged client) (startup client) (stopAfterEndOfData client) (version client).
Definition set_session client id changed start := mkClient (routerClientID client) (clSock client) (stop client) (writeMutex client) (serial client)
  (lastSent client) (lastRecv client) id changed start (stopAfterEndOfData client) (version client).
Definition set_version client v := mkClient (routerClientID client) (clSock client) (stop client) (writeMutex client) (serial client)
  (lastSent client) (lastRecv client) (sessionID client) (sessionIDChanged client) (startup client) (stopAfterEndOfData client) v.

(** A call through a pointer that may be NULL. *)
Definition call {A} (f : option A) : outcome A := match f with Some f => Ok f | None => Fault NullDeref end.

(** ** Sending *)

(** [_sendPDU] for the PDU [pdu] of the type [type]; the debug callback is left
    out. *)
Definition _sendPDU client (type : Z) (pdu : list Z) : RPKIRouterClient * bool :=
  let '(s, succ) := sendNum (clSock client) pdu in
  let client := set_clSock client s in
  (if succ : bool then set_lastSent client type else client, succ).

(** Sending under the mutex. *)
Definition locked_send client (type : Z) (pdu : list Z) : outcome (RPKIRouterClient * bool) :=
  m ← lockMutex (writeMutex client);
  let '(client, succ) := _sendPDU (set_mutex client m) type pdu in
  m ← unlockMutex (writeMutex client);
  Ok (set_mutex client m, succ).

(** After a failure the descriptor is restored. *)
Definition sendResetQuery client : outcome (RPKIRouterClient * bool) :=
  if negb (clientFD (clSock client)) then Ok (client, false)
  else
    '(client, succ) ← locked_send client PDU_TYPE_RESET_QUERY
                        ([u8 (version client); PDU_TYPE_RESET_QUERY; 0; 0] ++ be32 (Z.of_nat sizeof_CommonHeader));
    Ok (if succ : bool then client
        else let s := clSock client in set_clSock client (set_fds s (oldFD s) (oldFD s)), succ).

Definition sendSerialQuery client : outcome (RPKIRouterClient * bool) :=
  if negb (clientFD (clSock client)) then Ok (client, false)
  else locked_send client PDU_TYPE_SERIAL_QUERY
         ([u8 (version client); PDU_TYPE_SERIAL_QUERY] ++ le_bytes16 (u16 (sessionID client))
          ++ be32 (Z.of_nat sizeof_SerialQueryHeader) ++ le_bytes32 (serial client)).

Definition sendErrorReport client (errCode : Z) (erronPDU errText : list Z) : outcome (RPKIRouterClient * bool) :=
  if negb (clientFD (clSock client)) then Ok (client, false)
  else
    let totalLen := (sizeof_ErrorReportHeader + length erronPDU + (4 + length errText))%nat in
    locked_send client PDU_TYPE_ERROR_REPORT
      ([u8 (version client); PDU_TYPE_ERROR_REPORT] ++ be16 (u16 errCode) ++ be32 (u32 (Z.of_nat totalLen))
       ++ be32 (u32 (Z.of_nat (length erronPDU))) ++ erronPDU ++ be32 (Z.of_nat (length errText)) ++ errText).

(** ** The handlers of the PDUs

    [buf] is the buffer with the PDU. *)

(** The prefix of a PDU of [size] address bytes; the rest of the union is not
    initialised. *)
Definition handlePrefixPDU (v : Z) (size : nat) client u (buf : list Z) : outcome U :=
  flags ← read8 buf 8;
  prefixLen ← read8 buf 9;
  maxLen ← read8 buf 10;
  addr ← read_bytes buf 12 size;
  as_ ← read32be buf (12 + size);
  f ← call (prefixCallback params);
  f u (routerClientID client) (u16 (sessionID client)) (negb (Z.land flags PREFIX_FLAG_ANNOUNCEMENT =? 0))
    (mkIPPrefix (mkIPAddress v (addr ++ (garbage <$> seq size (16 - size)))) prefixLen) maxLen as_.
Definition handleIPv4Prefix := handlePrefixPDU 4 4.
Definition handleIPv6Prefix := handlePrefixPDU 6 16.

(** The result tells whether to disconnect. *)
Definition handleErrorReport client u (buf : list Z) : outcome (U * bool) :=
  error_number ← read16be buf 2;
  epduLen ← read32be buf 8;
  let messagePtr := (12 + Z.to_nat epduLen)%nat in
  msgLen ← read32be buf messagePtr;
  msg ← read_bytes buf (messagePtr + 4) (Z.to_nat msgLen);
  match errorCallback params with
  | Some f => '(u, keep) ← f u error_number msg; Ok (u, negb keep)
  | None => Ok (u, negb (error_number =? RPKI_EC_NO_DATA_AVAILABLE))
  end.

Definition handlePDURouterKey client u (buf : list Z) : outcome U :=
  flags ← read8 buf 2;
  ski ← read_bytes buf 8 SKI_LENGTH;
  as_ ← read32be buf (8 + SKI_LENGTH);
  keyInfo ← read_bytes buf (12 + SKI_LENGTH) ECDSA_PUB_KEY_DER_LENGTH;
  f ← call (routerKeyCallback params);
  f u (routerClientID client) (u16 (sessionID client)) (negb (Z.land flags PREFIX_FLAG_ANNOUNCEMENT =? 0)) as_ ski keyInfo.

Definition handleEndOfData client u : outcome U :=
  f ← call (endOfDataCallback params);
  f u (routerClientID client) (u16 (sessionID client)).

Fixpoint read_providers (n : nat) (buf : list Z) (off : nat) : outcome (list Z) :=
  match n with
  | O => Ok []
  | S n => p ← read32be buf off; l ← read_providers n buf (off + 4); Ok (p :: l)
  end.

Definition handleReceiveAspaPdu u (buf : list Z) : outcome U :=
  flags ← read8 buf 8;
  providerAsCount ← read16be buf 10;
  customerAsn ← read32be buf 12;
  let announce := Z.land flags 1 in
  let addrFamilyType := Z.land flags 2 in
  providerAsns ← read_providers (Z.to_nat providerAsCount) buf sizeof_ASPAHeader;
  f ← call (cbHandleAspaPdu params);
  '(u, _) ← f u customerAsn providerAsCount providerAsns addrFamilyType announce;
  Ok u.

Definition checkVersion client (v : Z) : RPKIRouterClient * bool :=
  let client :=
    if negb (version client =? v) && startup client && (v <? version client) && allowDowngrade params
    then set_version client (signed 8 v) else client in
  (client, version client =? v).

Definition checkSessionID client (id : Z) : RPKIRouterClient * bool :=
  let client := if startup client then set_session client id false false else client in
  let retVal := sessionID client =? id in
  (if retVal then client else set_session client (sessionID client) true (startup client), retVal).

(** ** Receiving *)

(** The client, the error, the buffer and the length of the PDU.  A buffer that is
    too small grows. *)
Definition _getPacket client (buffer : list Z) : outcome (RPKIRouterClient * Z * list Z * Z) :=
  let buffer := replicate (length buffer) 0 in
  let '(s, bytes, ok) := recvNum (clSock client) sizeof_CommonHeader in
  let client := set_clSock client s in
  buffer ← write_bytes buffer 0 bytes;
  if negb ok then Ok (client, RRC_RCV_PDU_SOCKET_ERROR, buffer, 0)
  else
    pduLen ← read32be buffer 4;
    if pduLen <? Z.of_nat sizeof_CommonHeader then Ok (client, RPKI_EC_CORRUPT_DATA, buffer, pduLen)
    else
      let bytesMissing := (Z.to_nat pduLen - sizeof_CommonHeader)%nat in
      if (bytesMissing =? 0)%nat then Ok (client, RRC_RCV_PDU_NO_ERROR, buffer, pduLen)
      else
        let n := length buffer in
        let buffer := buffer ++ (garbage <$> seq n (Z.to_nat pduLen - n)) in
        let '(s, bytes, ok) := recvNum (clSock client) bytesMissing in
        let client := set_clSock client s in
        buffer ← write_bytes buffer sizeof_CommonHeader bytes;
        if (ok : bool) then Ok (client, RRC_RCV_PDU_NO_ERROR, buffer, pduLen)
        else Ok (client, RRC_RCV_PDU_SOCKET_ERROR, buffer, pduLen - Z.of_nat bytesMissing).

(** The outcome of one PDU: client, user, error and whether to go on. *)
Definition verdict : Type := RPKIRouterClient * U * Z * bool.

(** The switch over the type [type] of the PDU. *)
Definition dispatch client u (buf : list Z) (type errCode : Z) (keepGoing returnAterEndOfData : bool) : outcome verdict :=
  if type =? PDU_TYPE_SERIAL_NOTIFY then
    id ← read16le buf 2;
    let '(client, ok) := checkSessionID client id in
    if (ok : bool) then '(client, _) ← sendSerialQuery client; Ok (client, u, errCode, keepGoing)
    else Ok (client, u, RPKI_EC_CORRUPT_DATA, false)
  else if type =? PDU_TYPE_CACHE_RESPONSE then
    id ← read16le buf 2;
    let '(client, ok) := checkSessionID client id in
    if (ok : bool) then Ok (client, u, errCode, keepGoing)
    else
      let client := set_session client (sessionID client) true (startup client) in
      f ← call (sessionIDChangedCallback params);
      u ← f u (routerClientID client) id;
      if negb (lastSent client =? PDU_TYPE_CACHE_RESET) then Ok (client, u, RPKI_EC_CORRUPT_DATA, false)
      else Ok (client, u, errCode, keepGoing)
  else if type =? PDU_TYPE_IP_V4_PREFIX then u ← handleIPv4Prefix client u buf; Ok (client, u, errCode, keepGoing)
  else if type =? PDU_TYPE_IP_V6_PREFIX then u ← handleIPv6Prefix client u buf; Ok (client, u, errCode, keepGoing)
  else if type =? PDU_TYPE_END_OF_DATA then
    id ← read16le buf 2;
    let '(client, ok) := checkSessionID client id in
    if (ok : bool) then
      n ← read32le buf 8;
      let client := set_serial client n in
      u ← handleEndOfData client u;
      Ok (client, u, errCode, negb returnAterEndOfData)
    else Ok (client, u, RPKI_EC_CORRUPT_DATA, false)
  else if type =? PDU_TYPE_ROUTER_KEY then
    if negb (version client =? 0) then u ← handlePDURouterKey client u buf; Ok (client, u, errCode, keepGoing)
    else Ok (client, u, RPKI_EC_UNSUPPORTED_PDU, false)
  else if type =? PDU_TYPE_CACHE_RESET then
    f ← call (resetCallback params);
    u ← f u (routerClientID client);
    '(client, _) ← sendResetQuery client;
    Ok (client, u, errCode, keepGoing)
  else if type =? PDU_TYPE_ERROR_REPORT then
    '(u, disconnect) ← handleErrorReport client u buf;
    Ok (client, u, errCode, negb disconnect)
  else if type =? PDU_TYPE_ASPA then
    if 1 <? version client then u ← handleReceiveAspaPdu u buf; Ok (client, u, errCode, keepGoing)
    else Ok (client, u, RPKI_EC_UNSUPPORTED_PDU, false)
  else Ok (client, u, RPKI_EC_UNSUPPORTED_PDU, false).

(** What a PDU of another version means: the client and the error, [NO_ERROR] when
    the PDU is processed nevertheless. *)
Definition version_conflict client (v type : Z) : RPKIRouterClient * Z :=
  let errCode := if (RPKI_RTR_PROTOCOL_VERSION <? v) || (version client =? 0)
                 then RPKI_EC_UNSUPPORTED_PROT_VER else RPKI_EC_UNEXPECTED_PROTOCOL_VERSION in
  if startup client then
    (if allowDowngrade params then set_version client (signed 8 v) else client,
     if negb (type =? PDU_TYPE_ERROR_REPORT) then RRC_RCV_PDU_NO_ERROR else errCode)
  else (client, errCode).

(** One received PDU. *)
Definition process_pdu client u (buf : list Z) (errCode : Z) (keepGoing returnAterEndOfData : bool) : outcome verdict :=
  v ← read8 buf 0;
  type ← read8 buf 1;
  let '(client, same) := checkVersion client v in
  let '(client, errCode) := if (same : bool) then (client, errCode) else version_conflict client v type in
  if negb same && negb (errCode =? RRC_RCV_PDU_NO_ERROR) then Ok (set_lastRecv client type, u, errCode, false)
  else
    '(client, u, errCode, keepGoing) ← dispatch client u buf type errCode keepGoing returnAterEndOfData;
    Ok (set_lastRecv client type, u, errCode, keepGoing).

(** The loop.  The result has the error, the buffer ([None] before the first PDU)
    and the length of the last PDU. *)
Fixpoint receive_loop (fuel : nat) client u (buffer : list Z) (hdr : bool) (pduLen errCode : Z)
    (keepGoing returnAterEndOfData singlePoll : bool) : outcome (RPKIRouterClient * U * Z * list Z * bool * Z) :=
  if negb (keepGoing && negb (stop client)) then Ok (client, u, errCode, buffer, hdr, pduLen)
  else
    match fuel with
    | O => Fault OutOfFuel
    | S fuel =>
        '(client, errCode, buffer, pduLen) ← _getPacket client buffer;
        if pduLen =? 0 then Ok (client, u, errCode, buffer, hdr, pduLen)
        else
          '(client, u, errCode, keepGoing) ← process_pdu client u buffer errCode (negb singlePoll) returnAterEndOfData;
          receive_loop fuel client u buffer true pduLen errCode keepGoing returnAterEndOfData singlePoll
    end.

(** The error code and the text of an error report. *)
Definition error_text (errCode : Z) : Z * string :=
  if errCode =? RPKI_EC_CORRUPT_DATA then (errCode, "Corrupt Data")
  else if errCode =? RPKI_EC_NO_DATA_AVAILABLE then (errCode, "Internal Error")
  else if errCode =? RPKI_EC_INVALID_REQUEST then (errCode, "invalid Request")
  else if errCode =? RPKI_EC_UNSUPPORTED_PROT_VER then (errCode, "Unsupported Protocol Version")
  else if errCode =? RPKI_EC_UNSUPPORTED_PDU then (errCode, "Unsupported PDU")
  else if errCode =? RPKI_EC_UNKNOWN_WITHDRAWL then (errCode, "Unknown Withdrawal")
  else if errCode =? RPKI_EC_DUPLICATE_ANNOUNCEMENT then (errCode, "Duplicate Announcement")
  else if errCode =? RPKI_EC_UNEXPECTED_PROTOCOL_VERSION then (errCode, "Unexpected Protocol Version")
  else if errCode =? RPKI_EC_RESERVED then (errCode, "Reserved")
  else (RPKI_EC_INTERNAL_ERROR, "Internal Error").

(** The error of the loop is reported to the cache. *)
Definition report_error client (errCode : Z) (buffer : list Z) (hdr : bool) (pduLen : Z) : outcome (RPKIRouterClient * Z) :=
  if startup client || (errCode =? RRC_RCV_PDU_NO_ERROR) then Ok (client, errCode)
  else
    let '(errCode, text) := error_text errCode in
    pdu ← (if hdr : bool then read_bytes buffer 0 (Z.to_nat pduLen) else Ok []);
    '(client, _) ← sendErrorReport client errCode pdu (chars text);
    Ok (client, errCode).

(** One round of the loop reads at least eight bytes or is the last one. *)
Definition receivePDUs client u (returnAterEndOfData singlePoll : bool) : outcome (RPKIRouterClient * U * Z * bool) :=
  '(client, u, errCode, buffer, hdr, pduLen) ←
    receive_loop (S (length (incoming (conn (clSock client))))) client u (replicate sizeof_RouterKeyHeader 0) false 0
      RRC_RCV_PDU_NO_ERROR (negb (stop client)) returnAterEndOfData singlePoll;
  '(client, errCode) ← report_error client errCode buffer hdr pduLen;
  Ok (client, u, errCode, errCode =? RRC_RCV_PDU_NO_ERROR).

(** ** The thread of the connection *)

(** What follows a reset query that was sent: client, user, error counter. *)
Definition start_session client u (errCount : Z) : outcome (RPKIRouterClient * U * Z) :=
  '(client, u, errCode, _) ← receivePDUs client u (stopAfterEndOfData client) true;
  if lastRecv client =? PDU_TYPE_CACHE_RESPONSE then
    '(client, u, _, _) ← receivePDUs client u (stopAfterEndOfData client) false;
    Ok (if stopAfterEndOfData client then set_stop client true else client, u, errCount)
  else if lastRecv client =? PDU_TYPE_ERROR_REPORT then
    if (errCode =? RPKI_EC_UNSUPPORTED_PROT_VER) || (errCode =? RPKI_EC_UNEXPECTED_PROTOCOL_VERSION)
    then Ok (set_stop client (negb (allowDowngrade params)), u, errCount)
    else let errCount := errCount + 1 in
         Ok (if RRC_MAX_ERRCT <=? errCount then set_stop client true else client, u, errCount)
  else Ok (set_stop client true, u, errCount).

(** After a change of the session the data is loaded again. *)
Definition session_changed client u : outcome (RPKIRouterClient * U) :=
  u ← match sessionIDChangedCallback params with
      | Some f => f u (routerClientID client) (u16 (sessionID client)) | None => Ok u end;
  '(client, sent) ← sendResetQuery client;
  '(client, u) ← (if (sent : bool) then '(client, u, _, _) ← receivePDUs client u true false; Ok (client, u)
                  else Ok (client, u));
  u ← match sessionIDEstablishedCallback params with
      | Some f => f u (routerClientID client) (u16 (sessionID client)) | None => Ok u end;
  Ok (client, u).

(** One round of the loop; [true] when the thread ends.  The descriptor is not
    closed at the end, for its address is passed to [close]. *)
Definition manageConnection_round client u (errCount : Z) : outcome (RPKIRouterClient * U * Z * bool) :=
  if stop client then Ok (client, u, errCount, true)
  else
    '(client, sent) ← sendResetQuery client;
    '(client, u, errCount) ← (if (sent : bool) then start_session client u errCount else Ok (client, u, errCount));
    if stop client then Ok (client, u, errCount, true)
    else
      '(u, sec) ← match connectionCallback params with Some f => f u | None => Ok (u, -1) end;
      if sec =? -1 then Ok (set_stop client true, u, errCount, true)
      else
        let client := if sessionIDChanged client then set_session client (sessionID client) true true else client in
        let s := set_reconnect (clSock client) (negb (stop client)) in
        let '(s, _) := reconnectToServer s MAX_RECONNECTION_ATTEMPTS in
        let client := set_clSock client s in
        '(client, u) ← (if sessionIDChanged client then session_changed client u else Ok (client, u));
        Ok (client, u, errCount, false).

(** At most [n] rounds. *)
Fixpoint manageConnection (n : nat) client u (errCount : Z) : outcome (RPKIRouterClient * U * Z * bool) :=
  match n with
  | O => Ok (client, u, errCount, false)
  | S n =>
      '(client, u, errCount, exit) ← manageConnection_round client u errCount;
      if (exit : bool) then Ok (client, u, errCount, true) else manageConnection n client u errCount
  end.

Definition createRouterClientID : Z := 1.

(** The client in memory that was zero before; the thread is started by the
    caller of this definition. *)
Definition createRPKIRouterClient (env : list attempt) (resolved : bool) : option RPKIRouterClient :=
  match prefixCallback params, resetCallback params with
  | Some _, Some _ =>
      let failNoServer := match connectionCallback params with None => true | Some _ => false end in
      (fun s => mkClient createRouterClientID s false initMutex 0 0 0 0xffff false true false (signed 8 (p_version params)))
        <$> createClientSocket env resolved failNoServer true
  | _, _ => None
  end.

Definition releaseRPKIRouterClient client : RPKIRouterClient :=
  let client := set_mutex (set_stop client true) (releaseMutex (writeMutex client)) in
  set_clSock client (closeClientSocket (clSock client)).

End client.
Arguments RPKIRouterClientParams : clear implicits.
End RtrClient.
