(* ===== verification/RtrClientTheorems.v ===== *)
(** * The session with the validation cache

    The PDUs of RFC 8210 and their octets are the specification: receiving the
    octets of a list of PDUs runs the handlers of the PDUs in order. *)
From S2P Require Import Prelude Bytes Locks SrxDefs BgpsecPath ClientSocket RtrClient.

Module RtrClientTheorems.
Import BgpsecPath ClientSocket.ClientSocket RtrClient.

(** ** Specification: the PDUs a cache sends *)
Inductive pdu :=
| SerialNotify (session serial : Z)
| CacheResponse (session : Z)
| IPv4Prefix (flags prefixLen maxLen : Z) (addr : list Z) (asn : Z)
| IPv6Prefix (flags prefixLen maxLen : Z) (addr : list Z) (asn : Z)
| EndOfData (session serial : Z) (timers : list Z)
| CacheReset
| RouterKey (flags : Z) (ski : list Z) (asn : Z) (key : list Z)
| ErrorReport (code : Z) (erronPDU text : list Z)
| Aspa (flags customer : Z) (providers : list Z).

Definition type_of (p : pdu) : Z :=
  match p with
  | SerialNotify _ _ => PDU_TYPE_SERIAL_NOTIFY
  | CacheResponse _ => PDU_TYPE_CACHE_RESPONSE
  | IPv4Prefix _ _ _ _ _ => PDU_TYPE_IP_V4_PREFIX
  | IPv6Prefix _ _ _ _ _ => PDU_TYPE_IP_V6_PREFIX
  | EndOfData _ _ _ => PDU_TYPE_END_OF_DATA
  | CacheReset => PDU_TYPE_CACHE_RESET
  | RouterKey _ _ _ _ => PDU_TYPE_ROUTER_KEY
  | ErrorReport _ _ _ => PDU_TYPE_ERROR_REPORT
  | Aspa _ _ _ => PDU_TYPE_ASPA
  end.
(** The third and fourth octet, and what follows the length. *)
Definition pdu_mixed (p : pdu) : list Z :=
  match p with
  | SerialNotify id _ | CacheResponse id | EndOfData id _ _ => be16 id
  | RouterKey fl _ _ _ => [fl; 0]
  | ErrorReport code _ _ => be16 code
  | _ => [0; 0]
  end.
Definition pdu_body (p : pdu) : list Z :=
  match p with
  | SerialNotify _ n => be32 n
  | CacheResponse _ | CacheReset => []
  | IPv4Prefix fl pl ml addr asn | IPv6Prefix fl pl ml addr asn => [fl; pl; ml; 0] ++ addr ++ be32 asn
  | EndOfData _ n timers => be32 n ++ timers
  | RouterKey _ ski asn key => ski ++ be32 asn ++ key
  | ErrorReport _ bad text =>
      be32 (Z.of_nat (length bad)) ++ bad ++ be32 (Z.of_nat (length text)) ++ text
  | Aspa fl customer providers => [fl; 0] ++ be16 (Z.of_nat (length providers)) ++ be32 customer ++ (providers ≫= be32)
  end.
Definition pdu_len (p : pdu) : Z := 8 + Z.of_nat (length (pdu_body p)).
Definition enc_pdu (v : Z) (p : pdu) : list Z :=
  [v; type_of p] ++ pdu_mixed p ++ be32 (pdu_len p) ++ pdu_body p.

Definition pdu_wf (p : pdu) : Prop :=
  pdu_len p < 2 ^ 32
  /\ match p with
     | SerialNotify id n | EndOfData id n _ => in_u 16 id /\ in_u 32 n
     | CacheResponse id => in_u 16 id
     | IPv4Prefix _ _ _ addr _ => length addr = 4%nat
     | IPv6Prefix _ _ _ addr _ => length addr = 16%nat
     | RouterKey _ ski _ key => length ski = SKI_LENGTH /\ length key = ECDSA_PUB_KEY_DER_LENGTH
     | Aspa _ _ providers => Z.of_nat (length providers) < 2 ^ 16
     | CacheReset | ErrorReport _ _ _ => True
     end.

(** ** Reading the fields of a PDU *)
Lemma at_cons mem off x l : bytes_at mem off (x :: l) -> read8 mem off = Ok x /\ bytes_at mem (S off) l.
Proof.
  intros H. change (x :: l) with ([x] ++ l) in H. apply bytes_at_app in H as [H1 H2].
  rewrite Nat.add_1_r in H2. split; [|done]. by apply read8_bytes_at.
Qed.
Lemma at_be16 mem off x l : bytes_at mem off (be16 x ++ l) -> read16be mem off = Ok x /\ bytes_at mem (S (S off)) l.
Proof.
  intros [H1 H2]%bytes_at_app. split; [by apply read16be_bytes_at|]. by rewrite Nat.add_comm in H2.
Qed.
Lemma at_be32 mem off x l : bytes_at mem off (be32 x ++ l) -> read32be mem off = Ok x /\ bytes_at mem (S (S (S (S off)))) l.
Proof.
  intros [H1 H2]%bytes_at_app. split; [by apply read32be_bytes_at|]. by rewrite Nat.add_comm in H2.
Qed.
Lemma at_bytes mem off s l : bytes_at mem off (s ++ l) -> read_bytes mem off (length s) = Ok s /\ bytes_at mem (length s + off) l.
Proof.
  intros [H1 H2]%bytes_at_app. split; [by apply read_bytes_bytes_at|]. by rewrite Nat.add_comm in H2.
Qed.
(** A number in network order, loaded without [ntohs] or [ntohl]. *)
Lemma at_ntohs mem off x l : in_u 16 x -> bytes_at mem off (be16 x ++ l) -> read16le mem off = Ok (ntohs x).
Proof.
  unfold be16, in_u. intros Hx [H1 [H2 _]%at_cons]%at_cons. unfold read16le. rewrite H1. cbn [mbind outcome_bind].
  rewrite H2. cbn [mbind outcome_bind]. f_equal. unfold ntohs. zdiv.
Qed.
Lemma at_ntohl mem off x l : in_u 32 x -> bytes_at mem off (be32 x ++ l) -> read32le mem off = Ok (ntohl x).
Proof.
  unfold in_u. intros Hx [H1 _]%bytes_at_app. unfold read32le. rewrite (read_bytes_bytes_at _ _ _ _ H1) by done.
  cbn [mbind outcome_bind]. f_equal. unfold be32, be16, ntohl, le_load32, le_bytes32. cbn [app]. zdiv.
Qed.

Lemma length_enc v p : length (pdu_mixed p) = 2%nat /\ length (enc_pdu v p) = Z.to_nat (pdu_len p).
Proof.
  assert (length (pdu_mixed p) = 2%nat) as H by by destruct p. split; [done|].
  unfold enc_pdu, pdu_len. rewrite !length_app, H. cbn [length be32 be16 app]. lia.
Qed.

(** The parts of a PDU at the start of the buffer. *)
Lemma enc_at buf v p : bytes_at buf 0 (enc_pdu v p) ->
  read8 buf 0 = Ok v /\ read8 buf 1 = Ok (type_of p) /\ bytes_at buf 2 (pdu_mixed p ++ []) /\ bytes_at buf 8 (pdu_body p ++ []).
Proof.
  unfold enc_pdu. cbn [app]. intros [H0 [H1 H2]%at_cons]%at_cons. rewrite !app_nil_r.
  apply bytes_at_app in H2 as [H2 [_ H4]%at_be32]. destruct (length_enc v p) as [Hm _]. by rewrite Hm in H4.
Qed.

Lemma read_providers_at l : forall buf off, bytes_at buf off (l ≫= be32) -> read_providers (length l) buf off = Ok l.
Proof.
  induction l as [|x l IH]; intros buf off H; [done|]. rewrite bind_cons in H.
  destruct (at_be32 _ _ _ _ H) as [H1 H2]. cbn [length read_providers]. rewrite H1. cbn [mbind outcome_bind].
  replace (off + 4)%nat with (S (S (S (S off)))) by lia. by rewrite (IH _ _ H2).
Qed.


Section client.
Context {U : Type} (garbage : nat -> Z) (params : RPKIRouterClientParams U).
Implicit Types (client : RPKIRouterClient) (u : U) (p : pdu) (ps : list pdu) (s : ClientSocket).

(** ** Specification: what a PDU does *)
Definition prefix_of (v : Z) (addr : list Z) (plen : Z) : IPPrefix :=
  mkIPPrefix (mkIPAddress v (addr ++ (garbage <$> seq (length addr) (16 - length addr)))) plen.
Definition announced (flags : Z) : bool := negb (Z.land flags PREFIX_FLAG_ANNOUNCEMENT =? 0).

(** The callback a PDU that carries data makes. *)
Definition apply_data client u p : outcome U :=
  let id := routerClientID client in
  let session := u16 (sessionID client) in
  match p with
  | IPv4Prefix fl pl ml addr asn => f ← call (prefixCallback params); f u id session (announced fl) (prefix_of 4 addr pl) ml asn
  | IPv6Prefix fl pl ml addr asn => f ← call (prefixCallback params); f u id session (announced fl) (prefix_of 6 addr pl) ml asn
  | RouterKey fl ski asn key => f ← call (routerKeyCallback params); f u id session (announced fl) asn ski key
  | Aspa fl customer providers =>
      f ← call (cbHandleAspaPdu params);
      '(u, _) ← f u customer (Z.of_nat (length providers)) providers (Z.land fl 2) (Z.land fl 1); Ok u
  | _ => Ok u
  end.

Definition handle client u p (errCode : Z) (keepGoing returnAterEndOfData : bool) : outcome (verdict (U := U)) :=
  match p with
  | SerialNotify id _ =>
      let '(client, ok) := checkSessionID client (ntohs id) in
      if (ok : bool) then '(client, _) ← sendSerialQuery client; Ok (client, u, errCode, keepGoing)
      else Ok (client, u, RPKI_EC_CORRUPT_DATA, false)
  | CacheResponse id =>
      let '(client, ok) := checkSessionID client (ntohs id) in
      if (ok : bool) then Ok (client, u, errCode, keepGoing)
      else
        let client := set_session client (sessionID client) true (startup client) in
        f ← call (sessionIDChangedCallback params);
        u ← f u (routerClientID client) (ntohs id);
        if negb (lastSent client =? PDU_TYPE_CACHE_RESET) then Ok (client, u, RPKI_EC_CORRUPT_DATA, false)
        else Ok (client, u, errCode, keepGoing)
  | IPv4Prefix _ _ _ _ _ | IPv6Prefix _ _ _ _ _ => u ← apply_data client u p; Ok (client, u, errCode, keepGoing)
  | EndOfData id n _ =>
      let '(client, ok) := checkSessionID client (ntohs id) in
      if (ok : bool) then
        let client := set_serial client (ntohl n) in
        u ← handleEndOfData params client u;
        Ok (client, u, errCode, negb returnAterEndOfData)
      else Ok (client, u, RPKI_EC_CORRUPT_DATA, false)
  | RouterKey _ _ _ _ =>
      if negb (version client =? 0) then u ← apply_data client u p; Ok (client, u, errCode, keepGoing)
      else Ok (client, u, RPKI_EC_UNSUPPORTED_PDU, false)
  | CacheReset =>
      f ← call (resetCallback params);
      u ← f u (routerClientID client);
      '(client, _) ← sendResetQuery client;
      Ok (client, u, errCode, keepGoing)
  | ErrorReport code _ text =>
      match errorCallback params with
      | Some f => '(u, keep) ← f u code text; Ok (client, u, errCode, keep)
      | None => Ok (client, u, errCode, code =? RPKI_EC_NO_DATA_AVAILABLE)
      end
  | Aspa _ _ _ =>
      if 1 <? version client then u ← apply_data client u p; Ok (client, u, errCode, keepGoing)
      else Ok (client, u, RPKI_EC_UNSUPPORTED_PDU, false)
  end.

Ltac read H := rewrite H; cbn [mbind outcome_bind].

Lemma handlePrefixPDU_eq v size client u buf (fl pl ml asn : Z) addr :
  length addr = size -> bytes_at buf 8 (([fl; pl; ml; 0] ++ addr ++ be32 asn) ++ []) ->
  handlePrefixPDU garbage params v size client u buf
  = (f ← call (prefixCallback params);
     f u (routerClientID client) (u16 (sessionID client)) (announced fl) (prefix_of v addr pl) ml asn).
Proof.
  intros Hs Hb. rewrite app_nil_r in Hb. cbn [app] in Hb.
  apply at_cons in Hb as [H8 Hb]. apply at_cons in Hb as [H9 Hb]. apply at_cons in Hb as [H10 Hb].
  apply at_cons in Hb as [H11 Hb]. apply at_bytes in Hb as [Ha Hb].
  rewrite <- (app_nil_r (be32 asn)) in Hb. apply at_be32 in Hb as [Has _]. rewrite Hs in *.
  rewrite Nat.add_comm in Has. unfold handlePrefixPDU. read H8. read H9. read H10. read Ha. read Has.
  unfold prefix_of. by rewrite Hs.
Qed.

Lemma handlePDURouterKey_eq client u buf (fl asn : Z) ski key :
  length ski = SKI_LENGTH -> length key = ECDSA_PUB_KEY_DER_LENGTH ->
  bytes_at buf 2 ([fl; 0] ++ []) -> bytes_at buf 8 ((ski ++ be32 asn ++ key) ++ []) ->
  handlePDURouterKey params client u buf
  = (f ← call (routerKeyCallback params); f u (routerClientID client) (u16 (sessionID client)) (announced fl) asn ski key).
Proof.
  intros Hs Hk Hm Hb. rewrite <- !(assoc_L (++)) in Hb. cbn [app] in Hm. apply at_cons in Hm as [H2 _].
  apply at_bytes in Hb as [H8 Hb]. apply at_be32 in Hb as [Ha Hb]. apply at_bytes in Hb as [Hb _].
  rewrite Hs, Hk in *. unfold handlePDURouterKey. read H2. read H8.
  change (8 + SKI_LENGTH)%nat with (SKI_LENGTH + 8)%nat. read Ha.
  change (12 + SKI_LENGTH)%nat with (S (S (S (S (SKI_LENGTH + 8))))). by read Hb.
Qed.

Lemma handleErrorReport_eq client u buf (code : Z) bad text :
  bytes_at buf 2 (be16 code ++ []) -> bytes_at buf 8 (pdu_body (ErrorReport code bad text) ++ []) ->
  handleErrorReport params client u buf
  = match errorCallback params with
    | Some f => '(u, keep) ← f u code text; Ok (u, negb keep)
    | None => Ok (u, negb (code =? RPKI_EC_NO_DATA_AVAILABLE))
    end.
Proof.
  intros Hm Hb. cbn [pdu_body] in Hb. rewrite <- !(assoc_L (++)) in Hb. apply at_be16 in Hm as [H2 _].
  apply at_be32 in Hb as [H8 Hb]. apply at_bytes in Hb as [_ Hb]. apply at_be32 in Hb as [Hl Hb]. apply at_bytes in Hb as [Ht _].
  unfold handleErrorReport. read H2. read H8. rewrite !Nat2Z.id.
  replace (12 + length bad)%nat with (length bad + 12)%nat by lia. read Hl. rewrite Nat2Z.id.
  replace (length bad + 12 + 4)%nat with (S (S (S (S (length bad + 12))))) by lia. by read Ht.
Qed.

Lemma handleReceiveAspaPdu_eq client u buf (fl customer : Z) providers :
  bytes_at buf 8 (pdu_body (Aspa fl customer providers) ++ []) ->
  handleReceiveAspaPdu params u buf = apply_data client u (Aspa fl customer providers).
Proof.
  intros Hb. cbn [pdu_body] in Hb. rewrite <- !(assoc_L (++)) in Hb. cbn [app] in Hb.
  apply at_cons in Hb as [H8 Hb]. apply at_cons in Hb as [H9 Hb]. apply at_be16 in Hb as [H10 Hb]. apply at_be32 in Hb as [H12 Hb].
  rewrite app_nil_r in Hb. unfold handleReceiveAspaPdu. read H8. read H10. read H12. rewrite Nat2Z.id.
  unfold sizeof_ASPAHeader. read (read_providers_at _ _ _ Hb). done.
Qed.

(** The switch runs the handler of the PDU in the buffer. *)
Lemma dispatch_eq client u buf v p err keep ret : pdu_wf p -> bytes_at buf 0 (enc_pdu v p) ->
  dispatch garbage params client u buf (type_of p) err keep ret = handle client u p err keep ret.
Proof.
  intros [_ Hw] (_ & _ & Hm & Hb)%enc_at. destruct p; unfold dispatch; cbn [type_of Z.eqb PDU_TYPE_SERIAL_NOTIFY
    PDU_TYPE_CACHE_RESPONSE PDU_TYPE_IP_V4_PREFIX PDU_TYPE_IP_V6_PREFIX PDU_TYPE_END_OF_DATA PDU_TYPE_CACHE_RESET
    PDU_TYPE_ROUTER_KEY PDU_TYPE_ERROR_REPORT PDU_TYPE_ASPA Pos.eqb]; cbn [pdu_mixed pdu_body] in *.
  - destruct Hw as [Hid _]. by read (at_ntohs _ _ _ _ Hid Hm).
  - by read (at_ntohs _ _ _ _ Hw Hm).
  - unfold handleIPv4Prefix. by rewrite (handlePrefixPDU_eq 4 4 client u buf flags prefixLen maxLen _ addr Hw Hb).
  - unfold handleIPv6Prefix. by rewrite (handlePrefixPDU_eq 6 16 client u buf flags prefixLen maxLen _ addr Hw Hb).
  - destruct Hw as [Hid Hn]. read (at_ntohs _ _ _ _ Hid Hm). rewrite <- (assoc_L (++)) in Hb. by rewrite (at_ntohl _ _ _ _ Hn Hb).
  - done.
  - destruct Hw as [Hs Hk]. by rewrite (handlePDURouterKey_eq client u buf flags _ _ key Hs Hk Hm Hb).
  - rewrite (handleErrorReport_eq client u buf code erronPDU text Hm Hb). unfold handle.
    destruct (errorCallback params) as [f|]; cbn [mbind outcome_bind].
    + destruct (f u code text) as [[u' k]|]; [|done]. cbn [mbind outcome_bind]. by rewrite negb_involutive.
    + by rewrite negb_involutive.
  - by rewrite (handleReceiveAspaPdu_eq client u buf flags customer providers Hb).
Qed.

(** ** The socket *)
Definition set_incoming s (l : list Z) : ClientSocket := set_conn s (mkConnection l (takes (conn s))).
Definition with_incoming client (l : list Z) : RPKIRouterClient := set_clSock client (set_incoming (clSock client) l).
Definition client_incoming client : list Z := incoming (conn (clSock client)).
(** The connection is lost when all bytes are read. *)
Definition lost client : RPKIRouterClient :=
  let s := clSock client in set_clSock client (if clientFD s then set_fds (set_incoming s []) (oldFD s) false else s).

Lemma recvNum_app s a b n : clientFD s = true -> incoming (conn s) = a ++ b -> length a = n ->
  recvNum s n = (set_incoming s b, a, true).
Proof.
  intros Hf Hi <-. unfold recvNum. rewrite Hf, Hi. cbn [negb].
  rewrite drop_app_length, take_app_length, length_app. by rewrite (proj2 (Nat.leb_le _ _)) by lia.
Qed.

Lemma sendNum_frame s b s' ok : sendNum s b = (s', ok) -> incoming (conn s') = incoming (conn s).
Proof. unfold sendNum. destruct (clientFD s), b, (takes (conn s)); cbn [negb]; by intros [= <- _]. Qed.

(** What sending leaves alone. *)
Definition same_but_sent client client' : Prop :=
  client_incoming client' = client_incoming client /\ version client' = version client /\ stop client' = stop client.

Lemma locked_send_frame client type b client' ok : locked_send client type b = Ok (client', ok) -> same_but_sent client client'.
Proof.
  unfold locked_send, _sendPDU. intros H. bind_inv H. destruct (sendNum _ b) as [s k] eqn:E2.
  apply sendNum_frame in E2. bind_inv H. injection H as <- <-. destruct k; by repeat split.
Qed.
Lemma sendResetQuery_frame client client' ok : sendResetQuery client = Ok (client', ok) -> same_but_sent client client'.
Proof.
  unfold sendResetQuery. destruct (clientFD _); cbn [negb]; [|intros [= <- _]; done].
  intros H. bind_inv H. destruct a as [c k]. apply locked_send_frame in E. injection H as <- _.
  destruct E as (? & ? & ?). by destruct k; repeat split.
Qed.
Lemma sendSerialQuery_frame client client' ok : sendSerialQuery client = Ok (client', ok) -> same_but_sent client client'.
Proof.
  unfold sendSerialQuery. destruct (clientFD _); cbn [negb]; [apply locked_send_frame|intros [= <- _]; done].
Qed.

Lemma checkSessionID_frame client id client' ok : checkSessionID client id = (client', ok) -> same_but_sent client client'.
Proof. unfold checkSessionID. destruct (startup client); intros [= <- _]; case_match; by repeat split. Qed.

Lemma same_but_sent_trans a b c : same_but_sent a b -> same_but_sent b c -> same_but_sent a c.
Proof. unfold same_but_sent. intros (? & ? & ?) (? & ? & ?). repeat split; congruence. Qed.

Lemma handle_frame client u p err keep ret client' u' e k :
  handle client u p err keep ret = Ok (client', u', e, k) -> same_but_sent client client'.
Proof.
  destruct p; cbn [handle]; intros H.
  - destruct (checkSessionID client _) as [c ok] eqn:E. apply checkSessionID_frame in E. destruct ok; [|by injection H as <- _ _ _].
    bind_inv H. destruct a as [c2 b]. apply sendSerialQuery_frame in E0. injection H as <- _ _ _. by eapply same_but_sent_trans.
  - destruct (checkSessionID client _) as [c ok] eqn:E. apply checkSessionID_frame in E. destruct ok; [by injection H as <- _ _ _|].
    do 2 bind_inv H. destruct (negb _); injection H as <- _ _ _; exact E.
  - bind_inv H. by injection H as <- _ _ _.
  - bind_inv H. by injection H as <- _ _ _.
  - destruct (checkSessionID client _) as [c ok] eqn:E. apply checkSessionID_frame in E. destruct ok; [|by injection H as <- _ _ _].
    bind_inv H. injection H as <- _ _ _. exact E.
  - do 3 bind_inv H. destruct a1 as [c b]. injection H as <- _ _ _. eapply sendResetQuery_frame. eassumption.
  - destruct (negb _); [bind_inv H|]; by injection H as <- _ _ _.
  - destruct (errorCallback params); [bind_inv H; destruct a|]; by injection H as <- _ _ _.
  - destruct (1 <? _); [bind_inv H|]; by injection H as <- _ _ _.
Qed.

(** ** Specification: receiving PDUs

    The loop over the PDUs [ps], up to the one that ends it or the loss of the
    connection; [last] is the PDU an error report encloses. *)
Fixpoint run_session client u ps (errCode : Z) (keepGoing ret single : bool) (last : option pdu)
    : outcome (RPKIRouterClient * U * Z * option pdu) :=
  if negb (keepGoing && negb (stop client)) then Ok (client, u, errCode, last)
  else
    match ps with
    | p :: ps' =>
        if clientFD (clSock client) then
          '(client, u, errCode, keepGoing) ←
            handle (with_incoming client (ps' ≫= enc_pdu (version client))) u p RRC_RCV_PDU_NO_ERROR (negb single) ret;
          run_session (set_lastRecv client (type_of p)) u ps' errCode keepGoing ret single (Some p)
        else Ok (client, u, RRC_RCV_PDU_SOCKET_ERROR, None)
    | [] => Ok (lost client, u, RRC_RCV_PDU_SOCKET_ERROR, None)
    end.

(** The report of an error. *)
Definition reported client (errCode : Z) (last : option pdu) : outcome (RPKIRouterClient * Z) :=
  if startup client || (errCode =? RRC_RCV_PDU_NO_ERROR) then Ok (client, errCode)
  else
    let '(errCode, text) := error_text errCode in
    '(client, _) ← sendErrorReport client errCode (from_option (enc_pdu (version client)) [] last) (chars text);
    Ok (client, errCode).

Lemma write_prefix mem bs : (length bs <= length mem)%nat -> write_bytes mem 0 bs = Ok (bs ++ drop (length bs) mem).
Proof. intros H. unfold write_bytes. by rewrite decide_True by lia. Qed.

Lemma getPacket_eq client buffer v p rest :
  clientFD (clSock client) = true -> client_incoming client = enc_pdu v p ++ rest -> pdu_wf p ->
  (sizeof_RouterKeyHeader <= length buffer)%nat ->
  exists buf, _getPacket garbage client buffer = Ok (with_incoming client rest, RRC_RCV_PDU_NO_ERROR, buf, pdu_len p)
    /\ bytes_at buf 0 (enc_pdu v p) /\ (length buffer <= length buf)%nat.
Proof.
  intros Hf Hi [Hl _] Hb. destruct (length_enc v p) as [Hm He]. unfold sizeof_RouterKeyHeader, SKI_LENGTH, ECDSA_PUB_KEY_DER_LENGTH in Hb.
  set (hd := [v; type_of p] ++ pdu_mixed p ++ be32 (pdu_len p)).
  assert (enc_pdu v p = hd ++ pdu_body p) as Hs by (unfold enc_pdu, hd; by rewrite <- !(assoc_L (++))).
  assert (length hd = 8%nat) as Hh by (unfold hd; rewrite !length_app, Hm; done).
  unfold client_incoming in Hi. rewrite Hs, <- (assoc_L (++)) in Hi.
  unfold _getPacket, sizeof_CommonHeader. rewrite (recvNum_app _ _ _ _ Hf Hi Hh). rewrite write_prefix by (rewrite length_replicate; lia).
  cbn [mbind outcome_bind negb]. rewrite drop_replicate, Hh.
  assert (bytes_at (hd ++ replicate (length buffer - 8) 0) 4 (be32 (pdu_len p))) as Hlen.
  { unfold hd. rewrite !(assoc_L (++)), <- (assoc_L (++)). apply bytes_at_middle. rewrite !length_app, Hm. done. }
  rewrite (read32be_bytes_at _ _ _ Hlen). cbn [mbind outcome_bind]. unfold pdu_len in *.
  rewrite (proj2 (Z.ltb_ge _ _)) by lia. replace (Z.to_nat (8 + _) - 8)%nat with (length (pdu_body p)) by lia.
  destruct (Nat.eqb_spec (length (pdu_body p)) 0) as [E0|E0].
  - apply nil_length_inv in E0. rewrite E0 in *. eexists. split; [done|]. rewrite Hs, app_nil_r. split; [|rewrite length_app, length_replicate; lia].
    apply (bytes_at_middle [] hd _ 0). done.
  - rewrite length_app, length_replicate, Hh. replace (8 + (length buffer - 8))%nat with (length buffer) by lia.
    set (extra := garbage <$> _). assert (length extra = Z.to_nat (8 + Z.of_nat (length (pdu_body p))) - length buffer)%nat as Hx
      by (unfold extra; by rewrite length_fmap, length_seq).
    rewrite (recvNum_app _ (pdu_body p) rest) by done. unfold write_bytes.
    rewrite decide_True by (rewrite !length_app, length_replicate, Hh; lia). cbn [mbind outcome_bind].
    rewrite <- (assoc_L (++)), take_app_length' by done.
    eexists. split; [done|]. rewrite Hs. split; [rewrite (assoc_L (++)); by apply (bytes_at_middle [] _ _ 0)|].
    rewrite !length_app, length_drop, !length_app, length_replicate. lia.
Qed.

(** ** The loop over the octets *)
Lemma process_pdu_eq client u buf p err keep ret : pdu_wf p -> bytes_at buf 0 (enc_pdu (version client) p) ->
  process_pdu garbage params client u buf err keep ret
  = ('(client, u, err, keep) ← handle client u p err keep ret; Ok (set_lastRecv client (type_of p), u, err, keep)).
Proof.
  intros Hw Hb. destruct (enc_at _ _ _ Hb) as (H0 & H1 & _). unfold process_pdu. read H0. read H1.
  unfold checkVersion. rewrite !Z.eqb_refl. cbn [negb andb].
  by rewrite (dispatch_eq _ _ _ _ _ _ _ _ Hw Hb).
Qed.

(** The octets of the PDU that an error report encloses. *)
Definition holds (v : Z) (last : option pdu) (buffer : list Z) (hdr : bool) (pduLen : Z) : Prop :=
  (if hdr then read_bytes buffer 0 (Z.to_nat pduLen) else Ok []) = Ok (from_option (enc_pdu v) [] last).

Lemma getPacket_lost client buffer : clientFD (clSock client) = false \/ client_incoming client = [] ->
  exists buf, _getPacket garbage client buffer = Ok (lost client, RRC_RCV_PDU_SOCKET_ERROR, buf, 0).
Proof.
  intros H. unfold _getPacket, lost, recvNum. destruct (clientFD (clSock client)) eqn:Hf.
  - destruct H as [?|H]; [done|]. unfold client_incoming in H. unfold set_incoming. rewrite H. cbn. eexists. done.
  - cbn [negb]. rewrite write_prefix by (cbn; lia). eexists. by destruct client.
Qed.

Lemma length_enc_all v ps : (length ps <= length (ps ≫= enc_pdu v))%nat.
Proof.
  induction ps as [|p ps IH]; [done|]. rewrite bind_cons, length_app. destruct (length_enc v p) as [_ ->].
  cbn [length]. unfold pdu_len. lia.
Qed.

Lemma receive_loop_run ps : forall fuel client u buffer hdr n err keep ret single last,
  client_incoming client = ps ≫= enc_pdu (version client) -> Forall pdu_wf ps ->
  (sizeof_RouterKeyHeader <= length buffer)%nat -> (length ps < fuel)%nat -> holds (version client) last buffer hdr n ->
  match run_session client u ps err keep ret single last with
  | Fault e => receive_loop garbage params fuel client u buffer hdr n err keep ret single = Fault e
  | Ok (client', u', err', last') => version client' = version client /\ exists buffer' hdr' n',
      receive_loop garbage params fuel client u buffer hdr n err keep ret single = Ok (client', u', err', buffer', hdr', n')
      /\ holds (version client) last' buffer' hdr' n'
  end.
Proof.
  induction ps as [|p ps IH]; intros fuel client u buffer hdr n err keep ret single last Hi Hw Hb Hfuel Hlast;
    (destruct fuel as [|fuel]; [cbn in Hfuel; lia|]); cbn [run_session receive_loop];
    (destruct (negb (keep && _)); [split; [done|]; by eexists _, _, _|]).
  - destruct (getPacket_lost client buffer (or_intror Hi)) as [buf E]. rewrite E. cbn [mbind outcome_bind].
    split; [unfold lost; by destruct (clientFD _)|]. eexists _, _, _. split; [done|]. unfold holds. by destruct hdr.
  - apply Forall_cons in Hw as [Hp Hw]. rewrite bind_cons in Hi. destruct (clientFD (clSock client)) eqn:Hf.
    + destruct (getPacket_eq client buffer _ p _ Hf Hi Hp Hb) as (buf & E & Hbuf & Hlen). rewrite E. cbn [mbind outcome_bind].
      rewrite (proj2 (Z.eqb_neq _ _)) by (unfold pdu_len; lia). set (c := with_incoming client _) in *.
      rewrite (process_pdu_eq c u buf p _ _ _ Hp Hbuf).
      destruct (handle c u p _ _ ret) as [[[[c1 u1] e1] k1]|f] eqn:Eh; cbn [mbind outcome_bind]; [|done].
      apply handle_frame in Eh as (Hinc & Hv & _). change (version c) with (version client) in Hv.
      pose proof (IH fuel (set_lastRecv c1 (type_of p)) u1 buf true (pdu_len p) e1 k1 ret single (Some p)) as IH'.
      cbn [version set_lastRecv] in IH'. rewrite Hv in IH'. apply IH'; [done|done|lia|cbn in Hfuel; lia|].
      unfold holds. cbn [from_option]. destruct (length_enc (version client) p) as [_ <-]. by apply read_bytes_bytes_at.
    + destruct (getPacket_lost client buffer (or_introl Hf)) as [buf E]. rewrite E. cbn [mbind outcome_bind].
      assert (lost client = client) as El by (unfold lost; rewrite Hf; by destruct client). rewrite El.
      split; [done|]. eexists _, _, _. split; [done|]. unfold holds. by destruct hdr.
Qed.

Lemma receivePDUs_eq client u ps ret single :
  client_incoming client = ps ≫= enc_pdu (version client) -> Forall pdu_wf ps ->
  receivePDUs garbage params client u ret single
  = ('(client, u, err, last) ← run_session client u ps RRC_RCV_PDU_NO_ERROR (negb (stop client)) ret single None;
     '(client, err) ← reported client err last;
     Ok (client, u, err, err =? RRC_RCV_PDU_NO_ERROR)).
Proof.
  intros Hi Hw. unfold receivePDUs. fold (client_incoming client). rewrite Hi.
  set (fuel := S _). assert (length ps < fuel)%nat as Hfuel.
  { unfold fuel. pose proof (length_enc_all (version client) ps). lia. }
  epose proof (receive_loop_run ps fuel client u (replicate sizeof_RouterKeyHeader 0) false 0 RRC_RCV_PDU_NO_ERROR
                (negb (stop client)) ret single None Hi Hw) as H.
  specialize (H ltac:(by rewrite length_replicate) Hfuel eq_refl).
  destruct (run_session client u ps _ _ ret single None) as [[[[c u'] e] l]|f]; [|by rewrite H].
  destruct H as (Hv & b & h & n & E & Hl). rewrite E. cbn [mbind outcome_bind].
  unfold report_error, reported. destruct (_ || _); [done|]. destruct (error_text e) as [e' text].
  unfold holds in Hl. rewrite Hl. cbn [mbind outcome_bind]. by rewrite Hv.
Qed.

(** ** Callbacks that never fail *)
Record total_callbacks : Prop := {
  tc_prefix : exists f, prefixCallback params = Some f /\ forall u a b c d e g, exists u', f u a b c d e g = Ok u';
  tc_key : exists f, routerKeyCallback params = Some f /\ forall u a b c d e g, exists u', f u a b c d e g = Ok u';
  tc_aspa : exists f, cbHandleAspaPdu params = Some f /\ forall u a b c d e, exists r, f u a b c d e = Ok r;
  tc_end : exists f, endOfDataCallback params = Some f /\ forall u a b, exists u', f u a b = Ok u';
  tc_reset : exists f, resetCallback params = Some f /\ forall u a, exists u', f u a = Ok u';
  tc_changed : exists f, sessionIDChangedCallback params = Some f /\ forall u a b, exists u', f u a b = Ok u';
  tc_error : forall f, errorCallback params = Some f -> forall u a b, exists r, f u a b = Ok r
}.

Lemma locked_send_total client type b : writeMutex client = MX_free ->
  exists client' ok, locked_send client type b = Ok (client', ok) /\ writeMutex client' = MX_free.
Proof.
  intros Hm. unfold locked_send. rewrite Hm. cbn [lockMutex mbind outcome_bind]. unfold _sendPDU.
  destruct (sendNum _ b) as [s [|]]; cbn; by eexists _, _.
Qed.
Lemma sendResetQuery_total client : writeMutex client = MX_free ->
  exists client' ok, sendResetQuery client = Ok (client', ok) /\ writeMutex client' = MX_free.
Proof.
  intros Hm. unfold sendResetQuery. destruct (clientFD _); cbn [negb]; [|by eexists _, _].
  destruct (locked_send_total client PDU_TYPE_RESET_QUERY
    ([u8 (version client); PDU_TYPE_RESET_QUERY; 0; 0] ++ be32 (Z.of_nat sizeof_CommonHeader)) Hm) as (c & ok & -> & Hc).
  cbn [mbind outcome_bind]. eexists _, _. split; [done|]. by destruct ok.
Qed.
Lemma sendSerialQuery_total client : writeMutex client = MX_free ->
  exists client' ok, sendSerialQuery client = Ok (client', ok) /\ writeMutex client' = MX_free.
Proof.
  intros Hm. unfold sendSerialQuery. destruct (clientFD _); cbn [negb]; [by apply locked_send_total|by eexists _, _].
Qed.
Lemma checkSessionID_mutex client id : writeMutex (checkSessionID client id).1 = writeMutex client.
Proof. unfold checkSessionID. destruct (startup client); cbn [fst]; by case_match. Qed.

Lemma apply_data_total client u p : total_callbacks -> exists u', apply_data client u p = Ok u'.
Proof.
  intros [(f & Ef & Hf) (g & Eg & Hg) (h & Eh & Hh) _ _ _ _]. destruct p; cbn [apply_data]; try (by eexists);
    rewrite ?Ef, ?Eg, ?Eh; cbn [call mbind outcome_bind]; [apply Hf|apply Hf|apply Hg|].
  edestruct Hh as [[u' r] ->]. by eexists.
Qed.

Lemma handle_total client u p err keep ret : total_callbacks -> writeMutex client = MX_free ->
  exists client' u' e k, handle client u p err keep ret = Ok (client', u', e, k) /\ writeMutex client' = MX_free.
Proof.
  intros Hc Hm. pose proof (apply_data_total client u p Hc) as [u1 Hu]. pose proof (checkSessionID_mutex client) as Hck.
  destruct Hc as [_ _ _ (f & Ef & Hf) (g & Eg & Hg) (h & Eh & Hh) He]. destruct p; cbn [handle];
    try (rewrite Hu; cbn [mbind outcome_bind]; by eexists _, _, _, _);
    try (case_match; [rewrite Hu; cbn [mbind outcome_bind]|]; by eexists _, _, _, _).
  - specialize (Hck (ntohs session)). rewrite Hm in Hck. destruct (checkSessionID client _) as [c [|]]; cbn [fst] in Hck; [|by eexists _, _, _, _].
    destruct (sendSerialQuery_total c Hck) as (c' & ok & -> & Hc'). cbn [mbind outcome_bind]. by eexists _, _, _, _.
  - specialize (Hck (ntohs session)). rewrite Hm in Hck. destruct (checkSessionID client _) as [c [|]]; cbn [fst] in Hck; [by eexists _, _, _, _|].
    rewrite Eh. cbn [call mbind outcome_bind]. edestruct Hh as [u2 ->]. cbn [mbind outcome_bind].
    case_match; by eexists _, _, _, _.
  - specialize (Hck (ntohs session)). rewrite Hm in Hck. destruct (checkSessionID client _) as [c [|]]; cbn [fst] in Hck; [|by eexists _, _, _, _].
    unfold handleEndOfData. rewrite Ef. cbn [call mbind outcome_bind]. edestruct Hf as [u2 ->]. cbn [mbind outcome_bind]. by eexists _, _, _, _.
  - rewrite Eg. cbn [call mbind outcome_bind]. edestruct Hg as [u2 ->]. cbn [mbind outcome_bind].
    destruct (sendResetQuery_total client Hm) as (c' & ok & -> & Hc'). cbn [mbind outcome_bind]. by eexists _, _, _, _.
  - destruct (errorCallback params) as [fe|]; [|by eexists _, _, _, _]. destruct (He fe eq_refl u code text) as [[u2 b] ->]. by eexists _, _, _, _.
Qed.

Lemma run_session_total ps ret single : total_callbacks -> forall client u err keep last, writeMutex client = MX_free ->
  exists client' u' err' last', run_session client u ps err keep ret single last = Ok (client', u', err', last') /\ writeMutex client' = MX_free.
Proof.
  intros Hc. induction ps as [|p ps IH]; intros client u err keep last Hm; cbn [run_session];
    (destruct (negb _); [by eexists _, _, _, _|]).
  - eexists _, _, _, _. split; [done|]. unfold lost. by destruct (clientFD _).
  - destruct (clientFD _); [|by eexists _, _, _, _].
    destruct (handle_total (with_incoming client (ps ≫= enc_pdu (version client))) u p RRC_RCV_PDU_NO_ERROR (negb single) ret Hc Hm)
      as (c' & u' & e & k & -> & Hm'). cbn [mbind outcome_bind]. by apply IH.
Qed.

Lemma reported_total client err last : writeMutex client = MX_free -> exists client' err', reported client err last = Ok (client', err').
Proof.
  intros Hm. unfold reported. destruct (_ || _); [by eexists _, _|]. destruct (error_text err) as [e text].
  unfold sendErrorReport. destruct (clientFD _); cbn [negb]; [|by eexists _, _].
  match goal with |- context [locked_send client ?t ?b] => destruct (locked_send_total client t b Hm) as (c & ok & -> & _) end.
  cbn [mbind outcome_bind]. by eexists _, _.
Qed.

(** C13 Receiving the octets of any list of PDUs of the client's version runs the
    handlers of the PDUs in order, ends where they end the session or where the
    connection is lost, and reports an error with the PDU that caused it.  When no callback fails,
    it returns: no octet is read outside the buffer and no lock blocks. *)
Theorem receivePDUs_correct client u ps ret single :
  client_incoming client = ps ≫= enc_pdu (version client) -> Forall pdu_wf ps ->
  receivePDUs garbage params client u ret single
  = ('(client, u, err, last) ← run_session client u ps RRC_RCV_PDU_NO_ERROR (negb (stop client)) ret single None;
     '(client, err) ← reported client err last;
     Ok (client, u, err, err =? RRC_RCV_PDU_NO_ERROR))
  /\ (total_callbacks -> writeMutex client = MX_free ->
      exists client' u' err, receivePDUs garbage params client u ret single = Ok (client', u', err, err =? RRC_RCV_PDU_NO_ERROR)).
Proof.
  intros Hi Hw. rewrite (receivePDUs_eq client u ps ret single Hi Hw). split; [done|]. intros Hc Hm.
  destruct (run_session_total ps ret single Hc client u RRC_RCV_PDU_NO_ERROR (negb (stop client)) None Hm) as (c & u' & e & l & -> & Hm').
  cbn [mbind outcome_bind]. destruct (reported_total c e l Hm') as (c' & e' & ->). by eexists _, _, _.
Qed.

End client.
End RtrClientTheorems.
