(* ===== verification/RtrSession.v ===== *)
(** * Sessions with the validation cache

    A whole session from the reset query to the end of the data, and the
    connections after which the client loses its state, stops or crashes. *)
From S2P Require Import Prelude Bytes Locks SrxDefs BgpsecPath ClientSocket RtrClient RtrClientTheorems.

Module RtrSession.
Import BgpsecPath ClientSocket.ClientSocket RtrClient RtrClientTheorems.

Section client.
Context {U : Type} (garbage : nat -> Z) (params : RPKIRouterClientParams U).
Implicit Types (client : RPKIRouterClient) (u : U) (p : pdu) (ps ds : list pdu) (s : ClientSocket).

(** ** Specification: the data of a session *)
Definition is_data (v : Z) p : bool :=
  match p with
  | IPv4Prefix _ _ _ _ _ | IPv6Prefix _ _ _ _ _ => true
  | RouterKey _ _ _ _ => negb (v =? 0)
  | Aspa _ _ _ => 1 <? v
  | _ => false
  end.
(** The callbacks of all data PDUs in order. *)
Fixpoint apply_all client u ds : outcome U :=
  match ds with
  | [] => Ok u
  | p :: ds => u ← apply_data garbage params client u p; apply_all client u ds
  end.

Lemma handle_data client u p err keep ret : is_data (version client) p = true ->
  handle garbage params client u p err keep ret = (u ← apply_data garbage params client u p; Ok (client, u, err, keep)).
Proof. destruct p; cbn [is_data handle]; try done; by intros ->. Qed.

Lemma apply_data_same client client' u p : routerClientID client = routerClientID client' -> sessionID client = sessionID client' ->
  apply_data garbage params client u p = apply_data garbage params client' u p.
Proof. intros Hr Hs. unfold apply_data. by rewrite Hr, Hs. Qed.
Lemma apply_all_same client client' ds : routerClientID client = routerClientID client' -> sessionID client = sessionID client' ->
  forall u, apply_all client u ds = apply_all client' u ds.
Proof.
  intros Hr Hs. induction ds as [|p ds IH]; intros u; [done|]. cbn [apply_all].
  rewrite (apply_data_same client client') by done. by destruct (apply_data _ _ client' u p); cbn [mbind outcome_bind].
Qed.

(** The client that has read everything but [ps]. *)
Definition read_up_to client ps (type : Z) : RPKIRouterClient :=
  set_lastRecv (with_incoming client (ps ≫= enc_pdu (version client))) type.

Lemma run_data ret rest ds : forall client u u' err last,
  stop client = false -> clientFD (clSock client) = true -> client_incoming client = (ds ++ rest) ≫= enc_pdu (version client) ->
  Forall (fun p => is_data (version client) p = true) ds -> apply_all client u ds = Ok u' ->
  exists t err' last', run_session garbage params client u (ds ++ rest) err true ret false last
    = run_session garbage params (read_up_to client rest t) u' rest err' true ret false last'
    /\ (err = RRC_RCV_PDU_NO_ERROR -> err' = RRC_RCV_PDU_NO_ERROR).
Proof.
  induction ds as [|p ds IH]; intros client u u' err last Hs Hf Hi Hd Ha.
  - injection Ha as <-. exists (lastRecv client), err, last. split; [|done]. f_equal.
    unfold read_up_to, with_incoming, set_incoming. cbn [app] in Hi. rewrite <- Hi. by destruct client as [? [? ? ? ? []]].
  - apply Forall_cons in Hd as [Hp Hd]. cbn [apply_all] in Ha. destruct (apply_data garbage params client u p) as [u1|] eqn:E1; [|done].
    cbn [mbind outcome_bind] in Ha. cbn [app run_session]. rewrite Hs, Hf. cbn [andb negb].
    set (c := with_incoming client ((ds ++ rest) ≫= enc_pdu (version client))).
    rewrite (handle_data c) by done. rewrite (apply_data_same c client), E1 by done. cbn [mbind outcome_bind].
    destruct (IH (set_lastRecv c (type_of p)) u1 u' RRC_RCV_PDU_NO_ERROR (Some p)) as (t & e & l & E2 & He); [done..| |].
    { rewrite <- Ha. by apply apply_all_same. }
    exists t, e, l. split; [exact E2|]. intros _. by apply He.
Qed.

(** ** The reset query *)
Definition reset_query (v : Z) : list Z := [u8 v; PDU_TYPE_RESET_QUERY; 0; 0; 0; 0; 0; 8].
Definition after_query client (k : nat) : RPKIRouterClient :=
  set_lastSent (set_clSock client (set_written (set_conn (clSock client) (mkConnection (client_incoming client) k))
    (written (clSock client) ++ [reset_query (version client)]))) PDU_TYPE_RESET_QUERY.

(** The thread is about to send the query on an open connection. *)
Record ready client (k : nat) : Prop := {
  rd_stop : stop client = false;
  rd_mutex : writeMutex client = MX_free;
  rd_fd : clientFD (clSock client) = true;
  rd_takes : takes (conn (clSock client)) = S k
}.

Lemma sendResetQuery_eq client k : ready client k -> sendResetQuery client = Ok (after_query client k, true).
Proof.
  intros [Hs Hm Hf Ht]. unfold sendResetQuery, locked_send, _sendPDU, sendNum. rewrite Hf, Hm. cbn [negb lockMutex mbind outcome_bind clSock set_mutex].
  rewrite Hf, Ht. cbn [negb app]. unfold after_query. destruct client. cbn in *. by subst.
Qed.

(** An error after the connection was lost is not reported. *)
Lemma reported_lost client err last : clientFD (clSock client) = false ->
  exists err', reported client err last = Ok (client, err').
Proof.
  intros Hf. unfold reported. destruct (_ || _); [by eexists|]. destruct (error_text err) as [e t].
  unfold sendErrorReport. rewrite Hf. by eexists.
Qed.

Lemma clientFD_lost client : clientFD (clSock (lost client)) = false.
Proof. unfold lost. by destruct (clientFD (clSock client)) eqn:E. Qed.

Lemma u16_ntohs id : u16 (ntohs id) = ntohs id.
Proof. apply wrap_small. unfold in_u, ntohs. zdiv. Qed.

(** ** A session *)
Lemma receive_response client u id ps ret : stop client = false -> clientFD (clSock client) = true -> startup client = true ->
  client_incoming client = (CacheResponse id :: ps) ≫= enc_pdu (version client) -> Forall pdu_wf (CacheResponse id :: ps) ->
  receivePDUs garbage params client u ret true
  = Ok (set_session (read_up_to client ps PDU_TYPE_CACHE_RESPONSE) (ntohs id) false false, u, RRC_RCV_PDU_NO_ERROR, true).
Proof.
  intros Hs Hf Hst Hi Hw. rewrite (receivePDUs_eq _ _ _ _ _ _ _ Hi Hw). cbn [run_session]. rewrite Hs, Hf. cbn [andb negb handle].
  unfold checkSessionID. change (startup (with_incoming _ _)) with (startup client). rewrite Hst. cbn [sessionID set_session].
  rewrite Z.eqb_refl. cbn [mbind outcome_bind]. destruct ps; reflexivity.
Qed.

Lemma receive_data client u id n timers ds u1 u2 f :
  stop client = false -> clientFD (clSock client) = true -> startup client = false -> sessionID client = ntohs id ->
  client_incoming client = (ds ++ [EndOfData id n timers]) ≫= enc_pdu (version client) -> Forall pdu_wf (ds ++ [EndOfData id n timers]) ->
  Forall (fun p => is_data (version client) p = true) ds -> apply_all client u ds = Ok u1 ->
  endOfDataCallback params = Some f -> f u1 (routerClientID client) (ntohs id) = Ok u2 ->
  exists err, receivePDUs garbage params client u false false
    = Ok (lost (set_lastRecv (set_serial client (ntohl n)) PDU_TYPE_END_OF_DATA), u2, err, err =? RRC_RCV_PDU_NO_ERROR).
Proof.
  intros Hs Hf Hst Hid Hi Hw Hd Ha Hcb E2. rewrite (receivePDUs_eq _ _ _ _ _ _ _ Hi Hw), Hs. cbn [negb].
  destruct (run_data false [EndOfData id n timers] ds client u u1 RRC_RCV_PDU_NO_ERROR None Hs Hf Hi Hd Ha) as (t & e & l & E & He).
  rewrite E, He by done. cbn [run_session]. unfold read_up_to. cbn [stop set_lastRecv with_incoming set_clSock clSock clientFD set_incoming set_conn].
  rewrite Hs, Hf. cbn [andb negb handle]. unfold checkSessionID.
  cbn [startup set_lastRecv with_incoming set_clSock sessionID]. rewrite Hst. cbn [startup set_lastRecv with_incoming set_clSock sessionID].
  rewrite Hid, Z.eqb_refl. unfold handleEndOfData. rewrite Hcb. cbn [call mbind outcome_bind].
  cbn [routerClientID set_serial set_lastRecv with_incoming set_clSock sessionID]. rewrite Hid, u16_ntohs, E2. cbn [mbind outcome_bind stop set_lastRecv set_serial with_incoming set_clSock].
  rewrite Hs. cbn [negb andb]. set (c := lost _). cbn [mbind outcome_bind].
  destruct (reported_lost c RRC_RCV_PDU_SOCKET_ERROR None) as [err Er]; [apply clientFD_lost|].
  rewrite Er. cbn [mbind outcome_bind]. exists err. f_equal. f_equal. f_equal. f_equal.
  unfold c, lost. cbn [clSock set_lastRecv set_serial with_incoming set_clSock clientFD set_incoming set_conn]. by rewrite Hf.
Qed.

(** When the validation cache answers the reset query with its session, data
    and the end of the data, the callbacks see exactly the data, in order, then the
    end of the data; session and serial number are remembered, and after the
    connection is lost the client connects again. *)
Theorem cache_session client u ec k id n timers ds u1 u2 u3 f g sec :
  ready client k -> stopAfterEndOfData client = false -> startup client = true ->
  client_incoming client = (CacheResponse id :: ds ++ [EndOfData id n timers]) ≫= enc_pdu (version client) ->
  Forall pdu_wf (CacheResponse id :: ds ++ [EndOfData id n timers]) -> Forall (fun p => is_data (version client) p = true) ds ->
  apply_all (set_session client (ntohs id) false false) u ds = Ok u1 ->
  endOfDataCallback params = Some f -> f u1 (routerClientID client) (ntohs id) = Ok u2 ->
  connectionCallback params = Some g -> g u2 = Ok (u3, sec) -> sec <> -1 ->
  exists client' s, manageConnection_round garbage params client u ec = Ok (client', u3, ec, false)
    /\ sessionID client' = ntohs id /\ serial client' = ntohl n /\ lastRecv client' = PDU_TYPE_END_OF_DATA
    /\ startup client' = false /\ stop client' = false /\ version client' = version client
    /\ clSock client' = (reconnectToServer s MAX_RECONNECTION_ATTEMPTS).1 /\ attempts s = attempts (clSock client)
    /\ written s = written (clSock client) ++ [reset_query (version client)].
Proof.
  intros Hrd Hsa Hst Hi Hw Hd Ha Hcb E2 Hcc E3 Hsec. pose proof Hrd as [Hs _ Hf _].
  unfold manageConnection_round. rewrite Hs, (sendResetQuery_eq _ _ Hrd). cbn [mbind outcome_bind].
  unfold start_session. set (c1 := after_query client k).
  rewrite (receive_response c1 u id (ds ++ [EndOfData id n timers])) by done. cbn [mbind outcome_bind].
  set (c2 := set_session _ _ _ _). change (lastRecv c2) with PDU_TYPE_CACHE_RESPONSE.
  change (stopAfterEndOfData c2) with (stopAfterEndOfData client). rewrite Z.eqb_refl, Hsa.
  apply Forall_cons in Hw as [_ Hw].
  destruct (receive_data c2 u id n timers ds u1 u2 f) as [err Er]; try done.
  { rewrite <- Ha. by apply apply_all_same. }
  rewrite Er. cbn [mbind outcome_bind]. set (c3 := lost _).
  assert (stopAfterEndOfData c3 = false) as -> by done.
  assert (stop c3 = false) as -> by done. rewrite Hcc, E3. cbn [mbind outcome_bind].
  rewrite (proj2 (Z.eqb_neq _ _)) by done.
  assert (sessionIDChanged c3 = false) as -> by done. destruct (reconnectToServer _ _) as [s' b] eqn:Ers.
  assert (sessionIDChanged (set_clSock c3 s') = false) as -> by done. cbn [mbind outcome_bind].
  eexists _, _. split; [done|]. repeat (split; [done|]). rewrite Ers. split; [done|].
  split; unfold c3, lost; cbn [clSock set_lastRecv set_serial clientFD c2 set_session read_up_to with_incoming set_clSock set_incoming set_conn c1
    after_query set_lastSent set_written]; by rewrite Hf.
Qed.

(** ** Connections that end badly *)

(** C16 A cache that accepts a connection and closes it without a word stops the
    client for good, unless the last PDU of the former connection happened to be a
    cache response or an error report: the type of that PDU is looked at again. *)
Theorem silent_connection_stops client u ec k :
  ready client k -> client_incoming client = [] ->
  lastRecv client <> PDU_TYPE_CACHE_RESPONSE -> lastRecv client <> PDU_TYPE_ERROR_REPORT ->
  exists client', manageConnection_round garbage params client u ec = Ok (client', u, ec, true) /\ stop client' = true.
Proof.
  intros Hrd Hi H1 H2. pose proof Hrd as [Hs _ Hf _].
  unfold manageConnection_round. rewrite Hs, (sendResetQuery_eq _ _ Hrd). cbn [mbind outcome_bind].
  unfold start_session. set (c1 := after_query client k).
  rewrite (receivePDUs_eq garbage params c1 u []) by done. cbn [run_session].
  change (stop c1) with (stop client). rewrite Hs. cbn [negb andb mbind outcome_bind].
  destruct (reported_lost (lost c1) RRC_RCV_PDU_SOCKET_ERROR None) as [err Er]; [apply clientFD_lost|].
  rewrite Er. cbn [mbind outcome_bind].
  assert (lastRecv (lost c1) = lastRecv client) as -> by (unfold lost; by destruct (clientFD _)).
  rewrite !(proj2 (Z.eqb_neq _ _)) by done. cbn [mbind outcome_bind stop set_stop]. by eexists.
Qed.

(** C17 When a cache comes back with another session after the first one was
    established, the client calls the callback for a changed session, which the
    server does not set: a NULL pointer is called. *)
Theorem new_session_crashes client u ec k id ps :
  ready client k -> startup client = false -> sessionIDChangedCallback params = None ->
  client_incoming client = (CacheResponse id :: ps) ≫= enc_pdu (version client) -> Forall pdu_wf (CacheResponse id :: ps) ->
  ntohs id <> sessionID client ->
  manageConnection_round garbage params client u ec = Fault NullDeref.
Proof.
  intros Hrd Hst Hcb Hi Hw Hid. pose proof Hrd as [Hs _ Hf _].
  unfold manageConnection_round. rewrite Hs, (sendResetQuery_eq _ _ Hrd). cbn [mbind outcome_bind].
  unfold start_session. set (c1 := after_query client k).
  rewrite (receivePDUs_eq garbage params c1 u (CacheResponse id :: ps)) by done. cbn [run_session].
  change (stop c1) with (stop client). change (clientFD (clSock c1)) with (clientFD (clSock client)). rewrite Hs, Hf. cbn [negb andb handle].
  unfold checkSessionID. change (startup (with_incoming c1 _)) with (startup client). rewrite Hst.
  change (sessionID (with_incoming c1 _)) with (sessionID client). rewrite (proj2 (Z.eqb_neq _ _)) by congruence.
  by rewrite Hcb.
Qed.

(** ** A PDU that is cut off *)
Lemma getPacket_cut client buffer v p q k :
  clientFD (clSock client) = true -> client_incoming client = take (8 + k) (enc_pdu v p) -> (k < length (pdu_body p))%nat ->
  (length (pdu_body p) + 8 <= length buffer)%nat ->
  type_of q = type_of p -> pdu_mixed q = pdu_mixed p ->
  pdu_body q = take k (pdu_body p) ++ replicate (length (pdu_body p) - k) 0 ->
  exists buf, _getPacket garbage client buffer = Ok (lost client, RRC_RCV_PDU_SOCKET_ERROR, buf, 8)
    /\ bytes_at buf 0 (enc_pdu v q) /\ length buf = length buffer.
Proof.
  intros Hf Hi Hk Hb Hqt Hqm Hqb. destruct (length_enc v p) as [Hm He].
  set (hd := [v; type_of p] ++ pdu_mixed p ++ be32 (pdu_len p)).
  assert (enc_pdu v p = hd ++ pdu_body p) as Hs by (unfold enc_pdu, hd; by rewrite <- !(assoc_L (++))).
  assert (length hd = 8%nat) as Hh by (unfold hd; rewrite !length_app, Hm; done).
  assert (enc_pdu v q = hd ++ take k (pdu_body p) ++ replicate (length (pdu_body p) - k) 0) as Hq.
  { unfold enc_pdu, hd, pdu_len. rewrite Hqt, Hqm, Hqb, length_app, length_take, length_replicate.
    replace (k `min` length (pdu_body p) + (length (pdu_body p) - k))%nat with (length (pdu_body p)) by lia. by rewrite <- !(assoc_L (++)). }
  unfold client_incoming in Hi. rewrite Hs, take_app, Hh, firstn_all2 in Hi by lia. replace (8 + k - 8)%nat with k in Hi by lia.
  unfold _getPacket, sizeof_CommonHeader. rewrite (recvNum_app _ _ _ _ Hf Hi Hh). rewrite write_prefix by (rewrite length_replicate; lia).
  cbn [mbind outcome_bind negb]. rewrite drop_replicate, Hh.
  assert (bytes_at (hd ++ replicate (length buffer - 8) 0) 4 (be32 (pdu_len p))) as Hlen.
  { unfold hd. rewrite !(assoc_L (++)), <- (assoc_L (++)). apply bytes_at_middle. rewrite !length_app, Hm. done. }
  rewrite (read32be_bytes_at _ _ _ Hlen). cbn [mbind outcome_bind]. unfold pdu_len in *.
  rewrite (proj2 (Z.ltb_ge _ _)) by lia. replace (Z.to_nat (8 + _) - 8)%nat with (length (pdu_body p)) by lia.
  rewrite (proj2 (Nat.eqb_neq _ _)) by lia. rewrite length_app, length_replicate, Hh.
  replace (Z.to_nat _ - (8 + (length buffer - 8)))%nat with 0%nat by lia. cbn [seq fmap list_fmap]. rewrite app_nil_r.
  unfold recvNum. cbn [clSock set_clSock set_incoming set_conn clientFD conn incoming takes]. rewrite Hf. cbn [negb].
  rewrite length_take, (proj2 (Nat.leb_gt _ _)) by lia. unfold write_bytes.
  rewrite decide_True by (rewrite length_app, length_take, length_replicate, Hh; lia). cbn [mbind outcome_bind].
  rewrite take_app_length' by done. rewrite drop_app_ge, drop_replicate by lia. rewrite length_take, Hh.
  eexists. split; [|split].
  - unfold lost. rewrite Hf. rewrite skipn_all2 by (rewrite length_take; lia). repeat f_equal. lia.
  - rewrite Hq, !(assoc_L (++)).
    replace (length buffer - 8 - (8 + k `min` length (pdu_body p) - 8))%nat
      with ((length (pdu_body p) - k) + (length buffer - 8 - length (pdu_body p)))%nat by lia.
    rewrite replicate_add, (assoc_L (++)). by apply (bytes_at_middle [] _ _ 0).
  - rewrite !length_app, length_take, length_replicate. lia.
Qed.

(** A prefix that is cut off because the connection is lost is processed like
    one whose missing octets are zero, so an origin or an address that nobody sent
    is announced or withdrawn. *)
Theorem truncated_prefix_processed client u ret k fl pl ml addr asn fl' pl' ml' addr' asn' u' :
  let p := IPv4Prefix fl pl ml addr asn in
  let q := IPv4Prefix fl' pl' ml' addr' asn' in
  stop client = false -> clientFD (clSock client) = true -> (k < 12)%nat -> pdu_wf p -> pdu_wf q ->
  client_incoming client = take (8 + k) (enc_pdu (version client) p) ->
  pdu_body q = take k (pdu_body p) ++ replicate (12 - k) 0 ->
  apply_data garbage params client u q = Ok u' ->
  exists client' err, receivePDUs garbage params client u ret false = Ok (client', u', err, err =? RRC_RCV_PDU_NO_ERROR).
Proof.
  intros p q Hs Hf Hk Hwp Hwq Hi Hb Ha.
  assert (length (pdu_body p) = 12%nat) as Hl by (destruct Hwp as [_ Hw]; cbn in *; rewrite length_app, Hw; done).
  destruct (getPacket_cut client (replicate sizeof_RouterKeyHeader 0) (version client) p q k Hf Hi) as (buf & E1 & Hbuf & Hlen);
    [lia|rewrite Hl, length_replicate; cbn; lia|done|done|by rewrite Hl|].
  unfold receivePDUs. rewrite Hs. set (fuel := length (incoming _)).
  assert (exists m, fuel = S m) as [m ->].
  { unfold fuel. fold (client_incoming client). rewrite Hi. unfold enc_pdu. cbn [app take length]. by eexists. }
  cbn [receive_loop negb]. rewrite Hs. cbn [negb andb]. rewrite E1. cbn [mbind outcome_bind Z.eqb].
  set (c := lost client). assert (version c = version client) as Hv by (unfold c, lost; by destruct (clientFD _)).
  rewrite (process_pdu_eq garbage params c) with (p := q) by (try rewrite Hv; done). rewrite (handle_data c) by done.
  rewrite (apply_data_same c client) by (unfold c, lost; by destruct (clientFD _)). rewrite Ha. cbn [mbind outcome_bind].
  assert (stop c = false) as Hsc by (unfold c, lost; by destruct (clientFD _)).
  cbn [stop set_lastRecv]. rewrite Hsc. cbn [negb andb].
  destruct (getPacket_lost garbage (set_lastRecv c (type_of q)) buf) as [buf' E2]; [left; apply clientFD_lost|].
  rewrite E2. cbn [mbind outcome_bind Z.eqb]. set (c' := lost _).
  unfold report_error. destruct (_ || _); [by eexists _, _|]. destruct (error_text _) as [e t].
  unfold read_bytes. rewrite decide_True by lia. cbn [mbind outcome_bind]. unfold sendErrorReport.
  rewrite (clientFD_lost (set_lastRecv c (type_of q)) : clientFD (clSock c') = false). cbn [negb mbind outcome_bind]. by eexists _, _.
Qed.

End client.
End RtrSession.
