(* ===== verification/EndOfData.v ===== *)
(** * End of data (server/rpki_handler.c, server/aspa_trie.c)

    What happens when the validation cache reports the end of its data: the ASPA
    validation of every stored update, and the draining of the RPKI queue into
    notifications. *)
From S2P Require Import Prelude Locks SrxDefs UtHash SrxIdentifier RpkiQueue.
From S2P Require Import AspaTrie AspaValidation AspathCache UpdateCache.
From S2P Require Import UpdateCacheLemmas UpdateCacheTheorems.

Module EndOfData.

Section handler.
Context {H K : Type} `{UTHashLaws H} `{SkiUpdates K}.

(** The components the handler reaches; [notified] lists the calls of the
    callback [resChangedCallback] so far. *)
Record Server := mkServer {
  uCache : UpdateCache.UpdateCache H;
  rQueue : RpkiQueue.RPKI_QUEUE;
  aspaDBManager : AspaTrie.ASPA_DBManager;
  aspathCache : AspathCache.AspathCache H;
  notified : list SRxValidationResult
}.

Definition set_uCache (st : Server) u := mkServer u (rQueue st) (aspaDBManager st) (aspathCache st) (notified st).
Definition set_rQueue (st : Server) q := mkServer (uCache st) q (aspaDBManager st) (aspathCache st) (notified st).
Definition set_aspa (st : Server) d c := mkServer (uCache st) (rQueue st) d c (notified st).

(** ** The ASPA validation of one update

    [process_ASPA_EndOfData_main] at the time [now]; [ct] is the time the end of
    data was processed. *)
Definition store_aspa_result (st : Server) (updateID : Z) (srxRes : SRxResult) : outcome Server :=
  '(u, _) ← UpdateCache.modifyUpdateCacheResultWithAspaVal (uCache st) updateID srxRes;
  q ← RpkiQueue.rq_queue (rQueue st) RpkiQueue.RQ_ASPA updateID;
  Ok (set_rQueue (set_uCache st u) q).

Definition process_ASPA_EndOfData_main (now : Z) (st : Server) (uid pid ct : Z) : outcome (Server * Z) :=
  '(u, _, q) ← UpdateCache.getUpdateResult (uCache st) uid 0 None true;
  let st := set_uCache st u in
  if negb (UpdateCache.q_found q) then Ok (st, 0)
  else
    let srxRes := UpdateCache.q_result q in
    let pathId := match UpdateCache.q_pathId q with Some p => p | None => 0 end in
    let old_aspaResult := aspaResult srxRes in
    '(cache, srxRes, aspl) ←
      AspathCache.getAspathListFromAspathCache (aspathCache st) pathId srxRes;
    let st := set_aspa st (aspaDBManager st) cache in
    match aspl with
    | None => Ok (st, 1)
    | Some aspl =>
        let a := AspathCache.afi aspl in
        let a := if (a =? 0) || (2 <? a) then AFI_IP else a in
        let with_aspa v := mkSRxResult (roaResult srxRes) (bgpsecResult srxRes) v in
        if AspathCache.lastModified aspl <? ct then
          path ← match AspathCache.asPathList aspl with Some l => Ok l | None => Fault NullDeref end;
          '(db, valResult) ←
            AspaValidation.validateASPA path (AspathCache.asPathLength aspl)
              (AspathCache.asType aspl) (AspathCache.asRelDir aspl) a (aspaDBManager st);
          let aspl := AspathCache.mkAS_PATH_LIST (AspathCache.pathID aspl)
                        (AspathCache.asPathLength aspl) (AspathCache.asPathList aspl)
                        (AspathCache.aspaValResult aspl) (AspathCache.asType aspl)
                        (AspathCache.asRelDir aspl) (AspathCache.afi aspl) now in
          '(cache, _) ←
            AspathCache.modifyAspaValidationResultToAspathCache (aspathCache st) pathId valResult aspl;
          let st := set_aspa st db cache in
          if negb (valResult =? AspathCache.aspaValResult aspl)
          then st ← store_aspa_result st uid (with_aspa valResult); Ok (st, 1)
          else Ok (st, 1)
        else if negb (old_aspaResult =? AspathCache.aspaValResult aspl)
        then st ← store_aspa_result st uid (with_aspa (AspathCache.aspaValResult aspl)); Ok (st, 1)
        else Ok (st, 1)
    end.

(** ** Draining the queue

    [validateSignature] stands for the BGPsec validation of the crypto library;
    [None] is a BGPsec handler that could not be retrieved. *)
Context (validateSignature : option (UpdateCache.UC_UpdateData -> outcome Z)).

Definition no_result (id : Z) : SRxValidationResult :=
  mkSRxValidationResult VRT_NONE (mkSRxResult SRx_RESULT_DONOTUSE SRx_RESULT_DONOTUSE SRx_RESULT_DONOTUSE) id.

(** The three checks of one element: the notification they build up. *)
Definition check_ROA (st : Server) (reason : Z) (v : SRxValidationResult) : outcome (Server * SRxValidationResult) :=
  if Z.land reason RpkiQueue.RQ_ROA =? RpkiQueue.RQ_ROA then
    '(u, _, q) ← UpdateCache.getUpdateResult (uCache st) (valUpdateID v) 0 None false;
    Ok (set_uCache st u,
        if UpdateCache.q_found q
        then mkSRxValidationResult (Z.lor (valType v) VRT_ROA)
               (mkSRxResult (roaResult (UpdateCache.q_result q)) (bgpsecResult (valResult v))
                  (aspaResult (valResult v))) (valUpdateID v)
        else v)
  else Ok (st, v).

Definition check_KEY (st : Server) (reason : Z) (v : SRxValidationResult) : outcome (Server * SRxValidationResult) :=
  if Z.land reason RpkiQueue.RQ_KEY =? RpkiQueue.RQ_KEY then
    '(u, updateData) ← UpdateCache.getUpdateData (uCache st) (valUpdateID v);
    let st := set_uCache st u in
    match updateData with
    | None => Fault NullDeref
    | Some d =>
        match UpdateCache.bgpsec_path d, validateSignature with
        | Some _, Some validate =>
            r ← validate d;
            Ok (st, mkSRxValidationResult (Z.lor (valType v) VRT_BGPSEC)
                      (mkSRxResult (roaResult (valResult v)) r (aspaResult (valResult v)))
                      (valUpdateID v))
        | _, _ => Ok (st, v)
        end
    end
  else Ok (st, v).

Definition check_ASPA (st : Server) (reason : Z) (v : SRxValidationResult) : outcome (Server * SRxValidationResult) :=
  if Z.land reason RpkiQueue.RQ_ASPA =? RpkiQueue.RQ_ASPA then
    '(u, _, q) ← UpdateCache.getUpdateResult (uCache st) (valUpdateID v) 0 None true;
    Ok (set_uCache st u,
        if UpdateCache.q_found q
        then mkSRxValidationResult (Z.lor (valType v) VRT_ASPA)
               (mkSRxResult (roaResult (valResult v)) (bgpsecResult (valResult v))
                  (aspaResult (UpdateCache.q_result q))) (valUpdateID v)
        else v)
  else Ok (st, v).

(** The loop [while (rq_dequeue(...))].  Every round removes an element, and the
    loop ends with the queue: the fuel is the length of the queue and one. *)
Fixpoint dequeue_loop (fuel : nat) (st : Server) : outcome Server :=
  match fuel with
  | O => Fault OutOfFuel
  | S fuel =>
      '(q, elem) ← RpkiQueue.rq_dequeue (rQueue st);
      let st := set_rQueue st q in
      match elem with
      | None => Ok st
      | Some e =>
          '(st, v) ← check_ROA st (RpkiQueue.reason e) (no_result (RpkiQueue.updateID e));
          '(st, v) ← check_KEY st (RpkiQueue.reason e) v;
          '(st, v) ← check_ASPA st (RpkiQueue.reason e) v;
          if UpdateCache.hasCallback (uCache st)
          then dequeue_loop fuel (mkServer (uCache st) (rQueue st) (aspaDBManager st)
                                    (aspathCache st) (notified st ++ [v]))
          else q ← RpkiQueue.rq_empty (rQueue st); Ok (set_rQueue st q)
      end
  end.

Definition queue_length (q : RpkiQueue.RPKI_QUEUE) : nat :=
  match q with Some q => length (RpkiQueue.elems q) | None => 0%nat end.

(** [handleEndOfData] at the time [now]. *)
Definition handleEndOfData (now : Z) (st : Server) : outcome Server :=
  st ← UpdateCache.process_ASPA_EndOfData
         (fun st uid pid ct => '(st, _) ← process_ASPA_EndOfData_main now st uid pid ct; Ok st)
         uCache now st;
  dequeue_loop (S (queue_length (rQueue st))) st.

(** ** What the queue turns into *)
Import UpdateCache UpdateCacheTheorems.

Definition has (reason flag : Z) : bool := Z.land reason flag =? flag.

(** The validation of the path of a stored update, if it can be validated. *)
Definition path_verdict (e : CacheEntry) : option (outcome Z) :=
  d ← pathData e; v ← validateSignature; _ ← bgpsec_path d; Some (v d).
Definition path_result (e : CacheEntry) : option Z :=
  r ← path_verdict e; match r with Ok z => Some z | Fault _ => None end.
Definition path_returns (e : CacheEntry) : Prop :=
  match path_verdict e with Some (Fault _) => False | _ => True end.
(** An element that asks for a key does so for a stored update, and the validation
    of its path returns. *)
Definition key_ready (u : UpdateCache H) (reason id : Z) : Prop :=
  has reason RpkiQueue.RQ_KEY = true -> exists e, uc_get u id = Some e /\ path_returns e.

(** The notification of a queued update: the results its reasons ask for, the
    origin and ASPA results as the update cache holds them, the path result of a
    new validation, with "do not use" for the others. *)
Definition notification (u : UpdateCache H) (r id : Z) : SRxValidationResult :=
  let stored := uc_get u id in
  let roa := if has r RpkiQueue.RQ_ROA then stored else None in
  let sec := if has r RpkiQueue.RQ_KEY
             then match stored with Some e => path_result e | None => None end else None in
  let aspa := if has r RpkiQueue.RQ_ASPA then stored else None in
  let flag {A} (o : option A) f := match o with Some _ => f | None => VRT_NONE end in
  mkSRxValidationResult
    (Z.lor (Z.lor (flag roa VRT_ROA) (flag sec VRT_BGPSEC)) (flag aspa VRT_ASPA))
    (mkSRxResult (from_option (fun e => roaResult (srxResult e)) SRx_RESULT_DONOTUSE roa)
       (default SRx_RESULT_DONOTUSE sec)
       (from_option (fun e => aspaResult (srxResult e)) SRx_RESULT_DONOTUSE aspa)) id.

Lemma set_uCache_id st : set_uCache st (uCache st) = st.
Proof. by destruct st. Qed.

(** The checks leave the server alone. *)
Definition with_ROA (v : SRxValidationResult) (e : CacheEntry) : SRxValidationResult :=
  mkSRxValidationResult (Z.lor (valType v) VRT_ROA)
    (mkSRxResult (roaResult (srxResult e)) (bgpsecResult (valResult v)) (aspaResult (valResult v)))
    (valUpdateID v).
Definition with_BGPSEC (v : SRxValidationResult) (res : Z) : SRxValidationResult :=
  mkSRxValidationResult (Z.lor (valType v) VRT_BGPSEC)
    (mkSRxResult (roaResult (valResult v)) res (aspaResult (valResult v))) (valUpdateID v).
Definition with_ASPA (v : SRxValidationResult) (e : CacheEntry) : SRxValidationResult :=
  mkSRxValidationResult (Z.lor (valType v) VRT_ASPA)
    (mkSRxResult (roaResult (valResult v)) (bgpsecResult (valResult v)) (aspaResult (srxResult e)))
    (valUpdateID v).

Lemma check_ROA_eq st r v : uc_wf (uCache st) ->
  check_ROA st r v
  = Ok (st, from_option (with_ROA v) v
              (if has r RpkiQueue.RQ_ROA then uc_get (uCache st) (valUpdateID v) else None)).
Proof.
  intros Hw. unfold check_ROA, has. destruct (_ =? _); [|done].
  rewrite getUpdateResult_lookup by done. simpl_outcome. rewrite set_uCache_id.
  by destruct (uc_get _ _).
Qed.

Lemma check_ASPA_eq st r v : uc_wf (uCache st) ->
  check_ASPA st r v
  = Ok (st, from_option (with_ASPA v) v
              (if has r RpkiQueue.RQ_ASPA then uc_get (uCache st) (valUpdateID v) else None)).
Proof.
  intros Hw. unfold check_ASPA, has. destruct (_ =? _); [|done].
  rewrite getUpdateResult_lookup by done. simpl_outcome. rewrite set_uCache_id.
  by destruct (uc_get _ _).
Qed.

Lemma check_KEY_eq st r v : uc_wf (uCache st) ->
  check_KEY st r v
  = if has r RpkiQueue.RQ_KEY then
      match uc_get (uCache st) (valUpdateID v) with
      | None => Fault NullDeref
      | Some e => match path_verdict e with
                  | Some (Fault f) => Fault f
                  | _ => Ok (st, from_option (with_BGPSEC v) v (path_result e))
                  end
      end
    else Ok (st, v).
Proof.
  intros Hw. unfold check_KEY, has. destruct (_ =? _); [|done].
  rewrite getUpdateData_lookup by done. simpl_outcome. rewrite set_uCache_id.
  destruct (uc_get _ _) as [e|] eqn:He; [|done].
  destruct (kt_get_key _ _ _ _ _ _ (uw_table _ Hw) He) as (_ & _ & [d Hd]).
  unfold path_result, path_verdict. rewrite Hd. simpl. destruct validateSignature as [f|], (bgpsec_path d); try done. simpl.
  by destruct (f d).
Qed.

(** One element: the three checks build the notification. *)
Lemma checks_eq st r id :
  uc_wf (uCache st) -> key_ready (uCache st) r id ->
  ('(st, v) ← check_ROA st r (no_result id);
   '(st, v) ← check_KEY st r v; check_ASPA st r v) = Ok (st, notification (uCache st) r id).
Proof.
  intros Hw Hkey. rewrite check_ROA_eq by done. simpl_outcome. rewrite check_KEY_eq by done.
  assert (forall o, valUpdateID (from_option (with_ROA (no_result id)) (no_result id) o) = id) as Hid
    by by intros [].
  rewrite Hid. unfold notification, key_ready in *. change (valUpdateID (no_result id)) with id in *.
  destruct (has r RpkiQueue.RQ_KEY).
  - destruct (Hkey eq_refl) as (e & He & Hret). rewrite He. unfold path_returns in Hret.
    assert (forall (x : option (outcome Z)) (A : Type) (y : outcome A), match x with Some (Fault _) => False | _ => True end ->
      match x with Some (Fault f) => Fault f | _ => y end = y) as Hm by (by intros [[?|?]|]).
    rewrite Hm by done. simpl_outcome. rewrite check_ASPA_eq by done. do 2 f_equal.
    by destruct (has r RpkiQueue.RQ_ROA), (has r RpkiQueue.RQ_ASPA), (path_result e);
      simpl; rewrite ?He.
  - simpl_outcome. rewrite check_ASPA_eq by done. rewrite Hid. do 2 f_equal.
    by destruct (has r RpkiQueue.RQ_ROA), (has r RpkiQueue.RQ_ASPA), (uc_get (uCache st) id).
Qed.

(** A key reason for an unknown update dereferences a NULL pointer. *)
Lemma checks_unknown st r id :
  uc_wf (uCache st) -> has r RpkiQueue.RQ_KEY = true -> uc_get (uCache st) id = None ->
  ('(st, v) ← check_ROA st r (no_result id);
   '(st, v) ← check_KEY st r v; check_ASPA st r v) = Fault NullDeref.
Proof.
  intros Hw Hkey Hnone. rewrite check_ROA_eq by done. simpl_outcome. rewrite check_KEY_eq, Hkey by done.
  assert (forall o, valUpdateID (from_option (with_ROA (no_result id)) (no_result id) o) = id) as ->
    by by intros []. by rewrite Hnone.
Qed.

Definition notifications (u : UpdateCache H) (l : list RpkiQueue.RPKI_QUEUE_ELEM)
    : list SRxValidationResult :=
  (fun e => notification u (RpkiQueue.reason e) (RpkiQueue.updateID e)) <$> l.

(** The fate of the queue: every element is notified in turn, unless one asks for
    the key of an unknown update or its path cannot be validated. *)
Lemma dequeue_loop_eq fuel st q :
  uc_wf (uCache st) -> rQueue st = Some q -> RpkiQueue.rq_wf q ->
  (length (RpkiQueue.elems q) < fuel)%nat ->
  hasCallback (uCache st) = true ->
  Forall (fun e => key_ready (uCache st) (RpkiQueue.reason e) (RpkiQueue.updateID e)) (RpkiQueue.elems q) ->
  dequeue_loop fuel st
  = Ok (mkServer (uCache st) (Some RpkiQueue.rq_createQueue) (aspaDBManager st) (aspathCache st)
          (notified st ++ notifications (uCache st) (RpkiQueue.elems q))).
Proof.
  revert st q. induction fuel as [|fuel IH]; intros st q Hw Hq Hqw Hlen Hcb Hkeys; [lia|].
  cbn [dequeue_loop]. rewrite Hq. destruct (RpkiQueue.elems q) as [|e l] eqn:E.
  - rewrite RpkiQueue.rq_dequeue_nil by done. simpl_outcome. rewrite app_nil_r.
    destruct (RpkiQueue.rq_wf_size q Hqw) as [Hs _]. pose proof (RpkiQueue.rq_wf_sem q Hqw) as Hse.
    rewrite E in Hs. destruct q as [? ? ?]. simpl in *. subst. done.
  - destruct (RpkiQueue.rq_dequeue_cons q e l Hqw E) as [-> Hqw']. simpl_outcome.
    apply Forall_cons in Hkeys as [Hkey Hkeys].
    set (st1 := set_rQueue st _).
    pose proof (checks_eq st1 (RpkiQueue.reason e) (RpkiQueue.updateID e) Hw Hkey) as Hc.
    destruct (check_ROA st1 _ _) as [[st2 v2]|]; [|discriminate]. simpl_outcome.
    destruct (check_KEY st2 _ _) as [[st3 v3]|]; [|discriminate]. simpl_outcome.
    rewrite Hc. simpl_outcome. change (uCache st1) with (uCache st). rewrite Hcb.
    rewrite (IH _ (RpkiQueue.mkQueue l (RpkiQueue.size q - 1) 1)); try done.
    + cbn [uCache aspaDBManager aspathCache notified RpkiQueue.elems].
      by rewrite <- (assoc_L (++)).
    + cbn [length] in Hlen. simpl. lia.
Qed.

Lemma dequeue_nil st q : rQueue st = Some q -> RpkiQueue.rq_wf q -> RpkiQueue.elems q = [] ->
  rQueue st = Some RpkiQueue.rq_createQueue.
Proof.
  intros -> Hqw E. destruct (RpkiQueue.rq_wf_size q Hqw) as [Hs _]. pose proof (RpkiQueue.rq_wf_sem q Hqw) as Hse.
  rewrite E in Hs. destruct q as [? ? ?]. simpl in *. by subst.
Qed.

(** Without a callback. *)
Lemma dequeue_loop_dropped st q :
  uc_wf (uCache st) -> rQueue st = Some q -> RpkiQueue.rq_wf q -> hasCallback (uCache st) = false ->
  Forall (fun e => key_ready (uCache st) (RpkiQueue.reason e) (RpkiQueue.updateID e)) (RpkiQueue.elems q) ->
  dequeue_loop (S (queue_length (rQueue st))) st
  = Ok (mkServer (uCache st) (Some RpkiQueue.rq_createQueue) (aspaDBManager st) (aspathCache st) (notified st ++ [])).
Proof.
  intros Hw Hq Hqw Hcb Hkeys. rewrite app_nil_r. cbn [dequeue_loop]. rewrite Hq. destruct (RpkiQueue.elems q) as [|e l] eqn:E.
  - rewrite RpkiQueue.rq_dequeue_nil by done. simpl_outcome. pose proof (dequeue_nil st q Hq Hqw E) as Hc.
    rewrite Hq in Hc. injection Hc as ->. done.
  - destruct (RpkiQueue.rq_dequeue_cons q e l Hqw E) as [-> Hqw']. simpl_outcome.
    apply Forall_cons in Hkeys as [Hkey _]. set (st1 := set_rQueue st _).
    pose proof (checks_eq st1 (RpkiQueue.reason e) (RpkiQueue.updateID e) Hw Hkey) as Hc.
    destruct (check_ROA st1 _ _) as [[st2 v2]|]; [|discriminate]. simpl_outcome.
    destruct (check_KEY st2 _ _) as [[st3 v3]|]; [|discriminate]. simpl_outcome.
    rewrite Hc. simpl_outcome. change (uCache st1) with (uCache st). rewrite Hcb.
    unfold st1. cbn [rQueue set_rQueue]. rewrite (RpkiQueue.rq_empty_correct _ Hqw'). simpl_outcome. done.
Qed.

Lemma dequeue_all st q :
  uc_wf (uCache st) -> rQueue st = Some q -> RpkiQueue.rq_wf q ->
  Forall (fun e => key_ready (uCache st) (RpkiQueue.reason e) (RpkiQueue.updateID e)) (RpkiQueue.elems q) ->
  dequeue_loop (S (queue_length (rQueue st))) st
  = Ok (mkServer (uCache st) (Some RpkiQueue.rq_createQueue) (aspaDBManager st) (aspathCache st)
          (notified st ++ if hasCallback (uCache st) then notifications (uCache st) (RpkiQueue.elems q) else [])).
Proof.
  intros Hw Hq Hqw Hkeys. destruct (hasCallback (uCache st)) eqn:Hcb.
  - apply (dequeue_loop_eq _ _ q); try done. rewrite Hq. simpl. lia.
  - by apply (dequeue_loop_dropped _ q).
Qed.

(** C27 With a callback for changed results, draining the queue terminates with an
    empty queue and notifies every queued update exactly once, in the order of the
    queue, with the results its reasons ask for: the origin and the ASPA result as
    the update cache holds them, the path result of a new validation by the crypto
    library, which the update cache is not told of; nothing else changes.  The
    updates whose reason is a key have to be stored and the library has to return:
    for an unknown update with that reason at the head of the queue the handler
    dereferences a NULL pointer.  Without the callback, the queue is emptied and
    nobody is notified: the same holds of the first element. *)
Theorem dequeue_loop_correct st q :
  uc_wf (uCache st) -> rQueue st = Some q -> RpkiQueue.rq_wf q ->
  (Forall (fun e => key_ready (uCache st) (RpkiQueue.reason e) (RpkiQueue.updateID e)) (RpkiQueue.elems q) ->
   dequeue_loop (S (queue_length (rQueue st))) st
   = Ok (mkServer (uCache st) (Some RpkiQueue.rq_createQueue) (aspaDBManager st) (aspathCache st)
           (notified st ++ if hasCallback (uCache st) then notifications (uCache st) (RpkiQueue.elems q) else [])))
  /\ (forall e l, RpkiQueue.elems q = e :: l -> has (RpkiQueue.reason e) RpkiQueue.RQ_KEY = true ->
       uc_get (uCache st) (RpkiQueue.updateID e) = None ->
       dequeue_loop (S (queue_length (rQueue st))) st = Fault NullDeref).
Proof.
  intros Hw Hq Hqw. split.
  - by apply dequeue_all.
  - intros e l E Hkey Hnone. cbn [dequeue_loop]. rewrite Hq.
    destruct (RpkiQueue.rq_dequeue_cons q e l Hqw E) as [-> _]. simpl_outcome.
    set (st1 := set_rQueue st _).
    pose proof (checks_unknown st1 (RpkiQueue.reason e) (RpkiQueue.updateID e) Hw Hkey Hnone) as Hc.
    destruct (check_ROA st1 _ _) as [[st2 v2]|f]; simpl_outcome; [|by injection Hc as ->].
    destruct (check_KEY st2 _ _) as [[st3 v3]|f]; simpl_outcome; [|by injection Hc as ->].
    by rewrite Hc.
Qed.

(** ** The ASPA validation of one update *)

Lemma set_srxResult_same e : set_srxResult e (srxResult e) = e.
Proof. by destruct e. Qed.

(** Handing a result to the update cache and the queue. *)
Lemma store_aspa_result_eq st uid e res r q :
  uc_wf (uCache st) -> rQueue st = Some q -> RpkiQueue.rq_wf q ->
  Z.of_nat (length (RpkiQueue.elems q)) < 2 ^ 32 - 1 -> in_u 32 uid ->
  uc_get (uCache st) uid = Some e -> res <> SRx_RESULT_DONOTUSE -> aspaResult r = res ->
  exists st' q', store_aspa_result st uid r = Ok st'
    /\ uc_wf (uCache st') /\ aspathCache st' = aspathCache st /\ aspaDBManager st' = aspaDBManager st
    /\ notified st' = notified st
    /\ (table (uCache st') = table (uCache st) /\ hasCallback (uCache st') = hasCallback (uCache st))
    /\ (forall k, uc_get (uCache st') k
          = if decide (k = uid)
            then Some (set_srxResult e (mkSRxResult (roaResult (srxResult e))
                         (bgpsecResult (srxResult e)) res))
            else uc_get (uCache st) k)
    /\ rQueue st' = Some q' /\ RpkiQueue.rq_wf q'
    /\ RpkiQueue.elems q' = RpkiQueue.queue_spec RpkiQueue.RQ_ASPA uid (RpkiQueue.elems q).
Proof.
  intros Hw Hq Hqw Hroom Huid He Hres Hr. unfold store_aspa_result.
  pose proof (modifyUpdateCacheResultWithAspaVal_eq (uCache st) uid r Hw) as Hm. rewrite He, Hr in Hm.
  destruct Hm as (u & -> & Hwu & Ht & Hcb & Hg). simpl_outcome. rewrite Hq.
  rewrite RpkiQueue.rq_queue_eq by done. simpl_outcome.
  eexists _, _. split; [done|]. split; [exact Hwu|]. do 4 (split; [done|]).
  split; [|split; [done|split]].
  - intros k. cbn [uCache set_rQueue set_uCache]. rewrite Hg.
    rewrite (proj2 (Z.eqb_neq res SRx_RESULT_DONOTUSE)) by done. cbn [negb andb].
    destruct (decide (k = uid)) as [->|Hne]; [|by rewrite decide_False by naive_solver].
    destruct (Z.eqb_spec res (aspaResult (srxResult e))) as [E|E]; cbn [negb].
    + rewrite decide_False by (by intros [_ ?]). rewrite He, E. f_equal.
      rewrite <- (set_srxResult_same e) at 1. by destruct (srxResult e).
    + by rewrite decide_True.
  - by apply RpkiQueue.rq_queue_wf.
  - done.
Qed.

(** The inputs of the validation, taken from the cached path. *)
Definition effective_afi (a : Z) : Z := if (a =? 0) || (2 <? a) then AFI_IP else a.
Definition cached_path (pe : AspathCache.PathListCacheTable) : list Z :=
  default (replicate (Z.to_nat (AspathCache.hops pe)) 0) (AspathCache.data_asPathList pe).
Definition validation_of (pe : AspathCache.PathListCacheTable) (db : AspaTrie.ASPA_DBManager) :=
  AspaValidation.validateASPA (cached_path pe) (AspathCache.hops pe) (AspathCache.e_asType pe)
    (AspathCache.e_asRelDir pe) (effective_afi (AspathCache.e_afi pe)) db.

(** A path that was validated again: the result and the time of the validation. *)
Definition renewed (now v : Z) (pe : AspathCache.PathListCacheTable) : AspathCache.PathListCacheTable :=
  AspathCache.mkPathListCacheTable (AspathCache.pathId pe) (AspathCache.hops pe)
    (AspathCache.data_asPathList pe) v (AspathCache.e_asType pe) (AspathCache.e_asRelDir pe)
    (AspathCache.e_afi pe) now.

(** The update [uid] with its entry [e] and its path [pe] after the step. *)
Record step_done (st st' : Server) (uid : Z) (e : CacheEntry) (pe : AspathCache.PathListCacheTable)
    (now : Z) (again changed : bool) (res : Z) (q q' : RpkiQueue._RPKI_QUEUE) : Prop := {
  sd_uc : uc_wf (uCache st');
  sd_ac : AspathCache.ac_wf (aspathCache st');
  sd_rest : aspaDBManager st' = aspaDBManager st /\ notified st' = notified st;
  sd_table : table (uCache st') = table (uCache st) /\ hasCallback (uCache st') = hasCallback (uCache st);
  sd_path k : AspathCache.ac_get (aspathCache st') k
              = if decide (k = aspathCacheID e /\ again = true) then Some (renewed now res pe)
                else AspathCache.ac_get (aspathCache st) k;
  sd_get k : uc_get (uCache st') k
             = if decide (k = uid /\ changed = true)
               then Some (set_srxResult e (mkSRxResult (roaResult (srxResult e))
                            (bgpsecResult (srxResult e)) res))
               else uc_get (uCache st) k;
  sd_queue : rQueue st' = Some q' /\ RpkiQueue.rq_wf q';
  sd_elems : RpkiQueue.elems q' = if changed
                                  then RpkiQueue.queue_spec RpkiQueue.RQ_ASPA uid (RpkiQueue.elems q)
                                  else RpkiQueue.elems q
}.

Lemma process_ASPA_step st now ct uid pid e pe q v :
  uc_wf (uCache st) -> AspathCache.ac_wf (aspathCache st) ->
  rQueue st = Some q -> RpkiQueue.rq_wf q -> Z.of_nat (length (RpkiQueue.elems q)) < 2 ^ 32 - 1 ->
  in_u 32 uid -> uc_get (uCache st) uid = Some e -> aspathCacheID e <> 0 ->
  AspathCache.ac_get (aspathCache st) (aspathCacheID e) = Some pe ->
  validation_of pe (aspaDBManager st) = Ok (aspaDBManager st, v) ->
  let again := AspathCache.e_lastModified pe <? ct in
  let res := if again then v else AspathCache.e_aspaResult pe in
  let changed := negb (res =? if again then AspathCache.e_aspaResult pe else aspaResult (srxResult e)) in
  res <> SRx_RESULT_DONOTUSE ->
  exists st' q', process_ASPA_EndOfData_main now st uid pid ct = Ok (st', 1)
    /\ step_done st st' uid e pe now again changed res q q'.
Proof.
  intros Hw Hac Hq Hqw Hroom Huid He Hpid Hpe Hval again res changed Hres.
  unfold process_ASPA_EndOfData_main. rewrite getUpdateResult_lookup, He by done. simpl_outcome.
  cbn [q_found q_result q_pathId negb]. rewrite set_uCache_id.
  rewrite AspathCache.getAspathListFromAspathCache_spec by done.
  rewrite (proj2 (Z.eqb_neq (aspathCacheID e) 0)), Hpe by done. simpl_outcome.
  assert (set_aspa st (aspaDBManager st) (aspathCache st) = st) as -> by by destruct st.
  cbn [option_fmap option_map AspathCache.to_list AspathCache.lastModified AspathCache.asPathList AspathCache.asPathLength
    AspathCache.asType AspathCache.asRelDir AspathCache.afi AspathCache.aspaValResult roaResult
    bgpsecResult aspaResult AspathCache.pathID].
  fold again. destruct again eqn:Hagain; subst res changed.
  - unfold validation_of, cached_path, effective_afi in Hval. simpl_outcome. rewrite Hval. simpl_outcome.
    set (l := AspathCache.mkAS_PATH_LIST _ _ _ _ _ _ _ now).
    destruct (AspathCache.modifyAspaValidationResult_spec (aspathCache st) (aspathCacheID e) v l Hac)
      as (cache & -> & Hac' & Hg). simpl_outcome. rewrite Hpe in Hg.
    assert (forall k, AspathCache.ac_get cache k
            = if decide (k = aspathCacheID e /\ true = true) then Some (renewed now v pe)
              else AspathCache.ac_get (aspathCache st) k) as Hres'.
    { intros k. rewrite Hg. repeat case_decide; naive_solver. }
    destruct (v =? AspathCache.e_aspaResult pe); cbn [negb].
    + eexists _, q. split; [done|]. split; try done. intros k. by rewrite decide_False by (by intros [_ ?]).
    + destruct (store_aspa_result_eq (set_aspa st (aspaDBManager st) cache) uid e v
        (mkSRxResult (roaResult (srxResult e)) (bgpsecResult (srxResult e)) v) q)
        as (st' & q' & -> & Hw' & Hc' & Hd' & Hn' & Ht' & Hg' & Hq' & Hqw' & Hel); try done.
      simpl_outcome. exists st', q'. split; [done|]. split; rewrite ?Hc'; try done.
      intros k. rewrite Hg'. by repeat case_decide; naive_solver.
  - assert (forall k, AspathCache.ac_get (aspathCache st) k
            = if decide (k = aspathCacheID e /\ false = true)
              then Some (renewed now (AspathCache.e_aspaResult pe) pe)
              else AspathCache.ac_get (aspathCache st) k) as Hres'
      by (intros k; by rewrite decide_False by (by intros [_ ?])).
    rewrite (Z.eqb_sym (aspaResult (srxResult e))).
    destruct (AspathCache.e_aspaResult pe =? aspaResult (srxResult e)); cbn [negb].
    + eexists st, q. split; [done|]. split; try done. intros k. by rewrite decide_False by (by intros [_ ?]).
    + destruct (store_aspa_result_eq st uid e (AspathCache.e_aspaResult pe)
        (mkSRxResult (roaResult (srxResult e)) (bgpsecResult (srxResult e))
          (AspathCache.e_aspaResult pe)) q)
        as (st' & q' & -> & Hw' & Hc' & Hd' & Hn' & Ht' & Hg' & Hq' & Hqw' & Hel); try done.
      simpl_outcome. exists st', q'. split; [done|]. split; rewrite ?Hc'; try done.
      intros k. rewrite Hg'. by repeat case_decide; naive_solver.
Qed.

(** The ASPA step of the end of data for a stored update with a cached path.
    A path last validated before the end of data is validated again and the
    result [v] is recorded for it; otherwise its cached result stands.  The
    update gets that result and is queued for a notification when the result
    differs from the one it is compared with: the previous result of the path
    for a new validation, the result of the update otherwise.  Everything else
    stays as it is; so an update whose result was not that of its path before is
    not brought up to date by a validation that confirms the path. *)
Theorem process_ASPA_update st now ct uid pid e pe q v :
  uc_wf (uCache st) -> AspathCache.ac_wf (aspathCache st) ->
  rQueue st = Some q -> RpkiQueue.rq_wf q -> Z.of_nat (length (RpkiQueue.elems q)) < 2 ^ 32 - 1 ->
  in_u 32 uid -> uc_get (uCache st) uid = Some e -> aspathCacheID e <> 0 ->
  AspathCache.ac_get (aspathCache st) (aspathCacheID e) = Some pe ->
  validation_of pe (aspaDBManager st) = Ok (aspaDBManager st, v) ->
  let again := AspathCache.e_lastModified pe <? ct in
  let res := if again then v else AspathCache.e_aspaResult pe in
  let changed := negb (res =? if again then AspathCache.e_aspaResult pe else aspaResult (srxResult e)) in
  res <> SRx_RESULT_DONOTUSE ->
  exists st' q', process_ASPA_EndOfData_main now st uid pid ct = Ok (st', 1)
    /\ uc_wf (uCache st') /\ AspathCache.ac_wf (aspathCache st')
    /\ aspaDBManager st' = aspaDBManager st /\ notified st' = notified st
    /\ (AspathCache.e_aspaResult <$> AspathCache.ac_get (aspathCache st') (aspathCacheID e)) = Some res
    /\ (forall k, uc_get (uCache st') k
          = if decide (k = uid /\ changed = true)
            then Some (set_srxResult e (mkSRxResult (roaResult (srxResult e))
                         (bgpsecResult (srxResult e)) res))
            else uc_get (uCache st) k)
    /\ rQueue st' = Some q' /\ RpkiQueue.rq_wf q'
    /\ RpkiQueue.elems q' = (if changed
                             then RpkiQueue.queue_spec RpkiQueue.RQ_ASPA uid (RpkiQueue.elems q)
                             else RpkiQueue.elems q).
Proof.
  intros Hw Hac Hq Hqw Hroom Huid He Hpid Hpe Hval again res changed Hres.
  destruct (process_ASPA_step st now ct uid pid e pe q v) as (st' & q' & E & [D1 D2 [D3 D4] _ D5 D6 [D7 D8] D9]);
    try done.
  exists st', q'. do 5 (split; [done|]). split; [|done].
  rewrite D5. subst res again. rewrite Hpe.
  destruct (AspathCache.e_lastModified pe <? ct); repeat case_decide; simpl; naive_solver.
Qed.

End handler.
Arguments Server : clear implicits.

End EndOfData.
