(* ===== verification/EndOfDataAll.v ===== *)
(** * End of data: the whole handler

    [handleEndOfData] validates the paths of all stored updates and drains the
    queue.  The invariant of the iteration over the update cache says which
    updates were brought up to date so far; at the end every update carries the
    result of its path and the updates whose result changed were notified. *)
From S2P Require Import Prelude Locks SrxDefs UtHash SrxIdentifier RpkiQueue.
From S2P Require Import AspaTrie AspaValidation AspathCache UpdateCache UpdateCacheLemmas UpdateCacheTheorems.
From S2P Require Import EndOfData.

Module EndOfDataAll.
Import UpdateCache UpdateCacheTheorems EndOfData.

Section all.
Context {H K : Type} `{UTHashLaws H} `{SkiUpdates K}.
Context (validateSignature : option (UC_UpdateData -> outcome Z)) (now : Z).
Implicit Types (st : Server H) (pe : AspathCache.PathListCacheTable).

(** The outcome of the validation of a path. *)
Definition verdict (db : AspaTrie.ASPA_DBManager) pe : Z :=
  match validation_of pe db with Ok (_, v) => v | Fault _ => SRx_RESULT_UNDEFINED end.

(** The result the end of data finds for a path: that of a new validation if the
    last one is older, the cached one otherwise. *)
Definition target st (pid : Z) : Z :=
  match AspathCache.ac_get (aspathCache st) pid with
  | Some pe => if AspathCache.e_lastModified pe <? now then verdict (aspaDBManager st) pe
               else AspathCache.e_aspaResult pe
  | None => SRx_RESULT_UNDEFINED
  end.

(** An update with the result of its path. *)
Definition updated st (e : CacheEntry) : CacheEntry :=
  set_srxResult e (mkSRxResult (roaResult (srxResult e)) (bgpsecResult (srxResult e))
                     (target st (aspathCacheID e))).
(** The updates whose result changes. *)
Definition stale st (id : Z) : bool :=
  match uc_get (uCache st) id with
  | Some e => negb (target st (aspathCacheID e) =? aspaResult (srxResult e))
  | None => false
  end.
(** The queue after the updates of [done]. *)
Definition requeued st (done : list Z) (l : list RpkiQueue.RPKI_QUEUE_ELEM) (id : Z) : option Z :=
  if decide (id ∈ done /\ stale st id = true)
  then Some (from_option (fun old => RpkiQueue.merge_reason old RpkiQueue.RQ_ASPA)
               RpkiQueue.RQ_ASPA (RpkiQueue.queued l id))
  else RpkiQueue.queued l id.

(** An update and its path in agreement, the path ready for validation. *)
Definition synced st (e : CacheEntry) : Prop :=
  aspathCacheID e <> 0 /\ exists pe, AspathCache.ac_get (aspathCache st) (aspathCacheID e) = Some pe
    /\ AspathCache.e_aspaResult pe = aspaResult (srxResult e)
    /\ AspathCache.e_aspaResult pe <> SRx_RESULT_DONOTUSE
    /\ validation_of pe (aspaDBManager st) = Ok (aspaDBManager st, verdict (aspaDBManager st) pe)
    /\ verdict (aspaDBManager st) pe <> SRx_RESULT_DONOTUSE.

Record ready st (q : RpkiQueue._RPKI_QUEUE) : Prop := {
  rd_uc : uc_wf (uCache st);
  rd_ac : AspathCache.ac_wf (aspathCache st);
  rd_queue : rQueue st = Some q /\ RpkiQueue.rq_wf q;
  rd_room : Z.of_nat (length (RpkiQueue.elems q) + length (ut_items (table (uCache st)))) < 2 ^ 32 - 1;
  rd_updates id e : uc_get (uCache st) id = Some e -> in_u 32 id /\ synced st e
}.

(** After the updates of [done]. *)
Record progress st0 (q0 : RpkiQueue._RPKI_QUEUE) (done : list Z) st (q : RpkiQueue._RPKI_QUEUE) : Prop := {
  pg_uc : uc_wf (uCache st);
  pg_ac : AspathCache.ac_wf (aspathCache st);
  pg_rest : aspaDBManager st = aspaDBManager st0 /\ notified st = notified st0;
  pg_table : table (uCache st) = table (uCache st0) /\ hasCallback (uCache st) = hasCallback (uCache st0);
  pg_queue : rQueue st = Some q /\ RpkiQueue.rq_wf q;
  pg_len : (length (RpkiQueue.elems q) <= length (RpkiQueue.elems q0) + length done)%nat;
  pg_get k : uc_get (uCache st) k
             = if decide (k ∈ done) then updated st0 <$> uc_get (uCache st0) k
               else uc_get (uCache st0) k;
  pg_path k : AspathCache.ac_get (aspathCache st) k = AspathCache.ac_get (aspathCache st0) k
              \/ exists pe, AspathCache.ac_get (aspathCache st0) k = Some pe
                 /\ AspathCache.e_lastModified pe < now
                 /\ AspathCache.ac_get (aspathCache st) k
                    = Some (renewed now (verdict (aspaDBManager st0) pe) pe);
  pg_done k e : k ∈ done -> uc_get (uCache st0) k = Some e ->
                AspathCache.e_aspaResult <$> AspathCache.ac_get (aspathCache st) (aspathCacheID e)
                = Some (target st0 (aspathCacheID e));
  pg_queued id : RpkiQueue.queued (RpkiQueue.elems q) id = requeued st0 done (RpkiQueue.elems q0) id
}.

Lemma progress_start st q : ready st q -> progress st q [] st q.
Proof.
  intros [R1 R2 R3 R4 R5]. split; try done; try lia.
  - intros k. by left.
  - intros k e []%elem_of_nil.
Qed.

Lemma updated_same st e : target st (aspathCacheID e) = aspaResult (srxResult e) -> updated st e = e.
Proof.
  intros E. unfold updated. rewrite E. transitivity (set_srxResult e (srxResult e)).
  - f_equal. by destruct (srxResult e).
  - apply set_srxResult_same.
Qed.

(** The path of an update that was not processed yet: the validation step gives
    the update the target, whether or not the path was renewed on the way. *)
Lemma path_step st0 q0 done st q uid e :
  ready st0 q0 -> progress st0 q0 done st q -> uc_get (uCache st0) uid = Some e ->
  exists pe v, AspathCache.ac_get (aspathCache st) (aspathCacheID e) = Some pe
    /\ validation_of pe (aspaDBManager st) = Ok (aspaDBManager st, v)
    /\ let again := AspathCache.e_lastModified pe <? now in
       (if again then v else AspathCache.e_aspaResult pe) = target st0 (aspathCacheID e)
       /\ (if again then AspathCache.e_aspaResult pe else aspaResult (srxResult e))
          = aspaResult (srxResult e)
       /\ target st0 (aspathCacheID e) <> SRx_RESULT_DONOTUSE
       /\ (again = true -> AspathCache.ac_get (aspathCache st0) (aspathCacheID e) = Some pe
                           /\ v = verdict (aspaDBManager st0) pe).
Proof.
  intros R P He. destruct (rd_updates _ _ R _ _ He) as (_ & _ & pe & Hpe & Hsync & Hdn & Hval & Hvd).
  destruct (pg_rest _ _ _ _ _ P) as [Hdb _]. rewrite Hdb. unfold target. rewrite Hpe.
  destruct (pg_path _ _ _ _ _ P (aspathCacheID e)) as [E|(pe' & Hpe' & Hlt & E)]; rewrite E.
  - exists pe, (verdict (aspaDBManager st0) pe). split; [done|]. split; [done|].
    destruct (AspathCache.e_lastModified pe <? now); naive_solver.
  - rewrite Hpe in Hpe'. simplify_eq. exists (renewed now (verdict (aspaDBManager st0) pe') pe').
    exists (verdict (aspaDBManager st0) pe'). split; [done|]. split; [exact Hval|].
    cbn [renewed AspathCache.e_lastModified AspathCache.e_aspaResult].
    rewrite Z.ltb_irrefl, (proj2 (Z.ltb_lt _ _) Hlt). naive_solver.
Qed.

Lemma requeued_cons st uid done l id :
  uid ∉ done ->
  requeued st (uid :: done) l id
  = if decide (id = uid /\ stale st uid = true)
    then Some (from_option (fun old => RpkiQueue.merge_reason old RpkiQueue.RQ_ASPA)
                 RpkiQueue.RQ_ASPA (requeued st done l uid))
    else requeued st done l id.
Proof.
  intros Hn. unfold requeued. rewrite (decide_False (P := uid ∈ done /\ _)) by tauto.
  destruct (decide (id = uid)) as [->|Hne].
  - destruct (stale st uid) eqn:E.
    + by rewrite !decide_True by (split; [by left|done] || done).
    + rewrite !decide_False by (by intros [_ ?]). done.
  - rewrite (decide_False (P := id = uid /\ _)) by tauto.
    destruct (decide (id ∈ done /\ stale st id = true)) as [[E1 E2]|Hd].
    + by rewrite decide_True by (split; [by right|done]).
    + rewrite decide_False; [done|]. intros [[?|?]%elem_of_cons ?]; tauto.
Qed.

(** One round of the iteration. *)
Lemma progress_step st0 q0 done st q uid e pid :
  ready st0 q0 -> progress st0 q0 done st q -> uc_get (uCache st0) uid = Some e -> uid ∉ done ->
  (length done < length (ut_items (table (uCache st0))))%nat ->
  exists st' q', process_ASPA_EndOfData_main now st uid pid now = Ok (st', 1)
    /\ progress st0 q0 (uid :: done) st' q'.
Proof.
  intros R P He Hnew Hlen. destruct (rd_updates _ _ R _ _ He) as (Hu & Hpid & _).
  destruct (path_step _ _ _ _ _ _ _ R P He) as (pe & v & Hpe & Hval & Hres & Hold & Hdn & Hag).
  pose proof P as [P1 P2 [P3 P3'] [P4 P4'] [P5 P5'] P6 P7 P8 P9 P10].
  assert (uc_get (uCache st) uid = Some e) as He' by (by rewrite P7, decide_False).
  assert (Z.of_nat (length (RpkiQueue.elems q)) < 2 ^ 32 - 1) as Hroom
    by (pose proof (rd_room _ _ R); lia).
  destruct (process_ASPA_step st now now uid pid e pe q v) as (st' & q' & Hrun & D);
    [done..|by rewrite Hres|].
  exists st', q'. split; [done|]. rewrite Hres, Hold in D.
  assert (negb (target st0 (aspathCacheID e) =? aspaResult (srxResult e)) = stale st0 uid) as Ec
    by (unfold stale; by rewrite He).
  rewrite Ec in D. destruct D as [D1 D2 [D3 D3'] [D4 D4'] D5 D6 [D7 D7'] D8].
  split; try done; try congruence.
  - split; congruence.
  - split; congruence.
  - rewrite D8. destruct (stale st0 uid); cbn [length]; [|lia].
    rewrite <- (length_fmap RpkiQueue.updateID), RpkiQueue.queue_spec_ids, length_app, length_fmap.
    destruct (decide (RpkiQueue.queued _ _ = None)); simpl; lia.
  - intros k. rewrite D6, P7. destruct (decide (k = uid)) as [->|Hne].
    + rewrite (decide_True (P := uid ∈ uid :: done)) by left. rewrite He.
      rewrite (decide_False (P := uid ∈ done)) by done. simpl.
      destruct (stale st0 uid) eqn:Es; [by rewrite decide_True|]. rewrite decide_False by (by intros [_ ?]).
      rewrite updated_same; [done|]. apply negb_false_iff in Ec. by apply Z.eqb_eq in Ec.
    + rewrite (decide_False (P := k = uid /\ _)) by tauto.
      destruct (decide (k ∈ done)); [by rewrite decide_True by (by right)|].
      rewrite decide_False; [done|]. by intros [?|?]%elem_of_cons.
  - intros k. rewrite D5.
    destruct (decide (k = aspathCacheID e /\ _)) as [[-> Ha]|_]; [|apply P8]. right.
    destruct (Hag Ha) as [Hpe0 Hv]. exists pe. split; [done|]. split; [by apply Z.ltb_lt|].
    rewrite Ha in Hres. by rewrite <- Hv, <- Hres.
  - intros k e' [->|Hk]%elem_of_cons He2; rewrite D5.
    + rewrite He in He2. simplify_eq. destruct (decide (_ /\ _ = true)) as [_|Hd]; [done|].
      rewrite Hpe. simpl. f_equal. rewrite <- Hres.
      destruct (AspathCache.e_lastModified pe <? now) eqn:Ea; [|done]. exfalso. by apply Hd.
    + destruct (decide (_ /\ _ = true)) as [[-> _]|_]; [done|by apply (P9 k)].
  - intros id. rewrite D8, requeued_cons by done. rewrite <- !P10.
    destruct (stale st0 uid); [|by rewrite decide_False by (by intros [_ ?])].
    rewrite RpkiQueue.queue_spec_queued. destruct (decide (id = uid)) as [->|Hne].
    + by rewrite (decide_True (P := uid = uid /\ _)).
    + by rewrite (decide_False (P := id = uid /\ _)) by tauto.
Qed.

(** The whole iteration. *)
Lemma progress_all st0 q0 l done st q :
  ready st0 q0 -> progress st0 q0 done st q -> l ⊆ ut_items (table (uCache st0)) ->
  NoDup l.*1 -> (forall k, k ∈ l.*1 -> k ∉ done) ->
  (length done + length l <= length (ut_items (table (uCache st0))))%nat ->
  exists st' q',
    foldl (fun r i =>
             st ← r; cEntry ← deref (entries (uCache st)) i.2;
             '(st, _) ← process_ASPA_EndOfData_main now st (updateID cEntry) (aspathCacheID cEntry) now;
             Ok st) (Ok st) l = Ok st'
    /\ progress st0 q0 (reverse l.*1 ++ done) st' q'.
Proof.
  intros R. revert done st q. induction l as [|[k p] l IH]; intros done st q P Hin Hnd Hdis Hlen.
  { by exists st, q. }
  cbn [foldl fmap list_fmap fst snd] in *. apply NoDup_cons in Hnd as [Hk Hnd].
  assert ((k, p) ∈ ut_items (table (uCache st))) as Hkp.
  { rewrite (proj1 (pg_table _ _ _ _ _ P)). apply Hin. by left. }
  destruct (kt_items _ _ _ _ (uw_table _ (pg_uc _ _ _ _ _ P)) _ _ Hkp) as (e & Ee & Ek & _).
  assert (k ∉ done) as Hkd by (apply Hdis; by left).
  assert (uc_get (uCache st0) k = Some e) as He.
  { pose proof (pg_get _ _ _ _ _ P k) as Hg. rewrite decide_False in Hg by done. rewrite <- Hg.
    apply (kt_get_items updateID entry_ok); [apply (uw_table _ (pg_uc _ _ _ _ _ P))|eauto]. }
  destruct (progress_step st0 q0 done st q k e (aspathCacheID e) R P He Hkd) as (st1 & q1 & E1 & P1);
    [cbn [length] in Hlen; lia|].
  cbn [mbind outcome_bind]. unfold deref at 2. rewrite Ee. cbn [mbind outcome_bind]. rewrite Ek, E1.
  cbn [mbind outcome_bind]. rewrite reverse_cons, <- (assoc_L (++)).
  apply (IH (k :: done) st1 q1); [done| |done| |cbn [length] in *; lia].
  - intros x Hx. apply Hin. by right.
  - intros k' Hk' [->|?]%elem_of_cons; [done|]. by apply (Hdis k'); [right|].
Qed.

(** The iteration over the cache is a run of [process_ASPA_EndOfData]. *)
Lemma process_ASPA_all st0 q0 : ready st0 q0 ->
  exists st' q',
    process_ASPA_EndOfData
      (fun st uid pid ct => '(st, _) ← process_ASPA_EndOfData_main now st uid pid ct; Ok st)
      EndOfData.uCache now st0 = Ok st'
    /\ progress st0 q0 (reverse (ut_items (table (uCache st0))).*1) st' q'.
Proof.
  intros R.
  destruct (progress_all st0 q0 (ut_items (table (uCache st0))) [] st0 q0 R (progress_start _ _ R))
    as (st' & q' & E & P); [done|apply (uw_table _ (rd_uc _ _ R))|set_solver|done|].
  rewrite app_nil_r in P. by exists st', q'.
Qed.

(** Which updates were processed: those that are stored. *)
Lemma stored_items st k : uc_wf (uCache st) ->
  k ∈ reverse (ut_items (table (uCache st))).*1 <-> is_Some (uc_get (uCache st) k).
Proof.
  intros Hw. rewrite elem_of_reverse. split.
  - intros ([k' p] & -> & Hin)%list_elem_of_fmap.
    destruct (kt_items _ _ _ _ (uw_table _ Hw) _ _ Hin) as (e & Ee & _). exists e.
    apply (kt_get_items updateID entry_ok); [apply (uw_table _ Hw)|eauto].
  - intros [e (p & Hin & _)%(kt_get_items updateID entry_ok)]; [|apply (uw_table _ Hw)].
    apply list_elem_of_fmap. by exists (k, p).
Qed.

Lemma stale_stored st id : stale st id = true -> is_Some (uc_get (uCache st) id).
Proof. unfold stale. by destruct (uc_get _ id). Qed.

(** The queue asks for keys of stored updates only, and the path of a queued update
    can be validated: a second reason makes it ask for everything. *)
Definition keys_stored st (l : list RpkiQueue.RPKI_QUEUE_ELEM) : Prop :=
  Forall (fun e => has (RpkiQueue.reason e) RpkiQueue.RQ_KEY = true ->
                   is_Some (uc_get (uCache st) (RpkiQueue.updateID e))) l.
Definition paths_return st (l : list RpkiQueue.RPKI_QUEUE_ELEM) : Prop :=
  Forall (fun e => forall x, uc_get (uCache st) (RpkiQueue.updateID e) = Some x -> path_returns validateSignature x) l.

Lemma path_returns_updated st e : path_returns validateSignature (updated st e) = path_returns validateSignature e.
Proof. done. Qed.

(** So do the elements of the queue after the iteration. *)
Lemma requeued_keys st l done l' :
  keys_stored st l -> paths_return st l -> NoDup (RpkiQueue.updateID <$> l') ->
  (forall id, RpkiQueue.queued l' id = requeued st done l id) ->
  Forall (fun e => key_ready validateSignature (uCache st) (RpkiQueue.reason e) (RpkiQueue.updateID e)) l'.
Proof.
  intros Hk Hp Hnd Hq. apply Forall_forall. intros e He Hr.
  assert (forall o, RpkiQueue.queued l (RpkiQueue.updateID e) = Some o -> forall x,
    uc_get (uCache st) (RpkiQueue.updateID e) = Some x -> path_returns validateSignature x) as Hret.
  { intros o (y & Hy & Ey & _)%RpkiQueue.queued_Some. eapply Forall_forall in Hp; [|exact Hy]. by rewrite Ey in Hp. }
  pose proof (RpkiQueue.queued_elem _ _ Hnd He) as E. rewrite Hq in E. unfold requeued in E.
  destruct (decide _) as [[_ Hs]|_].
  - destruct (stale_stored _ _ Hs) as [x Hx]. destruct (RpkiQueue.queued l _) as [o|] eqn:Eo.
    + exists x. split; [done|]. by apply (Hret o).
    + cbn [from_option] in E. injection E as E. rewrite <- E in Hr. by vm_compute in Hr.
  - pose proof (Hret _ E) as Hx. apply RpkiQueue.queued_Some in E as (y & Hy & Ey & Er).
    eapply Forall_forall in Hk; [|exact Hy]. cbv beta in Hk. rewrite Ey, Er in Hk. destruct (Hk Hr) as [x Hu].
    exists x. split; [done|]. by apply Hx.
Qed.

Lemma handleEndOfData_eq st q :
  ready st q -> keys_stored st (RpkiQueue.elems q) -> paths_return st (RpkiQueue.elems q) ->
  exists st' l, handleEndOfData validateSignature now st = Ok st'
    /\ uc_wf (uCache st') /\ AspathCache.ac_wf (aspathCache st')
    /\ (forall k, uc_get (uCache st') k = updated st <$> uc_get (uCache st) k)
    /\ (forall k e, uc_get (uCache st) k = Some e ->
          AspathCache.e_aspaResult <$> AspathCache.ac_get (aspathCache st') (aspathCacheID e)
          = Some (target st (aspathCacheID e)))
    /\ aspaDBManager st' = aspaDBManager st /\ rQueue st' = Some RpkiQueue.rq_createQueue
    /\ notified st' = notified st ++ (if hasCallback (uCache st) then notifications validateSignature (uCache st') l else [])
    /\ NoDup (RpkiQueue.updateID <$> l)
    /\ (forall id, RpkiQueue.queued l id
          = if stale st id
            then Some (from_option (fun old => RpkiQueue.merge_reason old RpkiQueue.RQ_ASPA)
                         RpkiQueue.RQ_ASPA (RpkiQueue.queued (RpkiQueue.elems q) id))
            else RpkiQueue.queued (RpkiQueue.elems q) id).
Proof.
  intros R Hkeys Hrets. destruct (process_ASPA_all st q R) as (st1 & q1 & E & P).
  pose proof P as [P1 P2 [P3 P3'] [P4 P4'] [P5 P5'] _ P7 _ P9 P10].
  assert (forall k, uc_get (uCache st1) k = updated st <$> uc_get (uCache st) k) as Hget.
  { intros k. rewrite P7. case_decide as Hk; [done|]. rewrite stored_items in Hk by apply R.
    destruct (uc_get (uCache st) k); [|done]. by destruct Hk. }
  unfold handleEndOfData. rewrite E. simpl_outcome.
  rewrite (dequeue_all _ st1 q1); try done.
  - eexists _, (RpkiQueue.elems q1). split; [done|]. cbn [uCache aspathCache aspaDBManager rQueue notified].
    do 3 (split; [done|]). split; [|split; [done|split; [done|split; [by rewrite P3', P4'|]]]].
    + intros k e He. apply (P9 k); [|done]. rewrite stored_items by apply R. by exists e.
    + split; [apply P5'|]. intros id. rewrite P10. unfold requeued.
      destruct (stale st id) eqn:Es; [|by rewrite decide_False by (by intros [_ ?])].
      rewrite decide_True; [done|]. split; [|done]. rewrite stored_items by apply R. by apply stale_stored.
  - eapply Forall_impl; [apply (requeued_keys st _ _ _ Hkeys Hrets (RpkiQueue.rq_wf_nodup _ P5') P10)|].
    intros e He Hr. rewrite Hget. destruct (He Hr) as (x & -> & Hx). by eexists.
Qed.
(** C18 When the validation cache reports the end of its data and every stored update
    carries the result of its cached path, whose validation against the ASPA
    database returns a result, the handler terminates and every stored update
    carries the result of its AS path: the outcome of a new validation where the
    last one is older than this run, the cached one otherwise, also where several
    updates share the path.  (Without the agreement before, a validation that
    confirms the result of the path leaves the updates that differ as they are.)
    The ROA and BGPsec results, the database and the set of updates stay.  The
    queue is empty, and with a callback for changed results it was called once for
    every update that was queued or whose result changed, with the new results.
    The queue has room for the updates, an update that is queued for a key is
    stored, and the crypto library returns for the queued updates. *)
Theorem handleEndOfData_correct st q :
  ready st q -> keys_stored st (RpkiQueue.elems q) -> paths_return st (RpkiQueue.elems q) ->
  exists st' l, handleEndOfData validateSignature now st = Ok st'
    /\ uc_wf (uCache st') /\ AspathCache.ac_wf (aspathCache st')
    /\ (forall k, uc_get (uCache st') k = updated st <$> uc_get (uCache st) k)
    /\ (forall k e, uc_get (uCache st) k = Some e ->
          AspathCache.e_aspaResult <$> AspathCache.ac_get (aspathCache st') (aspathCacheID e)
          = Some (target st (aspathCacheID e)))
    /\ aspaDBManager st' = aspaDBManager st /\ rQueue st' = Some RpkiQueue.rq_createQueue
    /\ notified st' = notified st ++ (if hasCallback (uCache st) then notifications validateSignature (uCache st') l else [])
    /\ NoDup (RpkiQueue.updateID <$> l)
    /\ (forall id, RpkiQueue.queued l id
          = if stale st id
            then Some (from_option (fun old => RpkiQueue.merge_reason old RpkiQueue.RQ_ASPA)
                         RpkiQueue.RQ_ASPA (RpkiQueue.queued (RpkiQueue.elems q) id))
            else RpkiQueue.queued (RpkiQueue.elems q) id).
Proof. apply handleEndOfData_eq. Qed.
End all.
End EndOfDataAll.
