(* ===== verification/SkiCache.v ===== *)
(** * The SKI cache: data and operations (server/ski_cache.c)

    The cache maps a router key, the triplet <ASN, SKI, algorithm>, to the number
    of keys received for it and to the updates whose path uses it.  It is a tree
    of linked lists: cache nodes by the upper half of the ASN, an array indexed
    by the lower half, algorithm identifiers, key data by SKI, update
    registrations by identifier.  A linked list is the Rocq list of its
    elements, a pointer into a list the position of the element.  The RPKI queue
    the cache points to is an argument of the functions that use it. *)
From S2P Require Import Prelude Locks SrxDefs SrxIdentifier RpkiQueue BgpsecPath UpdateCache.
Import RpkiQueue BgpsecPath.

Module SkiCache.

(** ** Data *)
Record _SKI_CACHE_UPDATEID := mkUID { u_updateID : Z; u_counter : Z }.
Record _SKI_CACHE_DATA := mkData {
  d_counter : Z; d_asn : Z; d_ski : list Z; d_algoID : Z; cacheUID : list _SKI_CACHE_UPDATEID
}.
Record _SKI_CACHE_ALGO_ID := mkAlgo { a_algoID : Z; cacheData : list _SKI_CACHE_DATA }.

(** [as2]: the array of 65536 list heads; an index that is not in the map is
    NULL. *)
Record _SKI_CACHE_NODE := mkNode { upper : Z; as2 : gmap Z (list _SKI_CACHE_ALGO_ID) }.

(** [_SKI_TMP_HELPER]: positions in the lists of the cache. *)
Record _SKI_TMP_HELPER := mkHelper {
  h_cNode : option nat; h_as2 : Z; h_cAlgoID : option nat; h_cData : option nat
}.

Record _SKI_CACHE := mkCache {
  cacheNode : list _SKI_CACHE_NODE;
  tmpHelper : _SKI_TMP_HELPER;
  tmpBGPsecInfo : _SKI_TMP_UPD_INFO;
  semaphore : Z
}.
(** A cache pointer; [None] is NULL. *)
Definition SKI_CACHE : Type := option _SKI_CACHE.

Inductive e_SKI_clean := SKI_CLEAN_NONE | SKI_CLEAN_KEYS | SKI_CLEAN_UPDATES | SKI_CLEAN_ALL.
#[export] Instance e_SKI_clean_eq_dec : EqDecision e_SKI_clean.
Proof. solve_decision. Defined.

Definition empty_helper : _SKI_TMP_HELPER := mkHelper None 0 None None.
Definition empty_info : _SKI_TMP_UPD_INFO := mkUpdInfo 0 0 0 None [0; 0] None.

Definition set_nodes (c : _SKI_CACHE) l := mkCache l (tmpHelper c) (tmpBGPsecInfo c) (semaphore c).
Definition set_helper (c : _SKI_CACHE) h := mkCache (cacheNode c) h (tmpBGPsecInfo c) (semaphore c).
Definition set_info (c : _SKI_CACHE) i := mkCache (cacheNode c) (tmpHelper c) i (semaphore c).
Definition set_sem (c : _SKI_CACHE) s := mkCache (cacheNode c) (tmpHelper c) (tmpBGPsecInfo c) s.
Definition set_uids (d : _SKI_CACHE_DATA) l :=
  mkData (d_counter d) (d_asn d) (d_ski d) (d_algoID d) l.
Definition set_counter (d : _SKI_CACHE_DATA) n :=
  mkData n (d_asn d) (d_ski d) (d_algoID d) (cacheUID d).

(** The list whose head is [node->as2[i]], and the store to that head. *)
Definition as2_get (node : _SKI_CACHE_NODE) (i : Z) : list _SKI_CACHE_ALGO_ID :=
  match as2 node !! i with Some l => l | None => [] end.
Definition as2_set (node : _SKI_CACHE_NODE) (i : Z) (l : list _SKI_CACHE_ALGO_ID)
    : _SKI_CACHE_NODE :=
  mkNode (upper node) (match l with [] => delete i (as2 node) | _ => <[i := l]> (as2 node) end).

(** ** Creation *)
Definition ___ski_createCacheUID (updateID : Z) : option _SKI_CACHE_UPDATEID :=
  if negb (updateID =? 0) then Some (mkUID updateID 1) else None.
Definition ___ski_createCacheAlgoID (algoID : Z) : _SKI_CACHE_ALGO_ID := mkAlgo algoID [].
(** Every caller passes NULL for the update. *)
Definition ___ski_createCacheData (asn : Z) (ski : list Z) (algoID : Z) : _SKI_CACHE_DATA :=
  mkData 0 asn ski algoID [].
Definition ___ski_createCacheNode (upper : Z) : _SKI_CACHE_NODE := mkNode upper ∅.

(** ** Cleaning *)

(** The data after cleaning and whether it can be freed.  The case
    [SKI_CLEAN_UPDATES] falls through to the error message of the default case,
    which changes nothing. *)
Definition ___ski_clean_cData (d : _SKI_CACHE_DATA) (type : e_SKI_clean)
    : _SKI_CACHE_DATA * bool :=
  let d := match type with
           | SKI_CLEAN_ALL => set_uids (set_counter d 0) []
           | SKI_CLEAN_KEYS => set_counter d 0
           | SKI_CLEAN_UPDATES => set_uids d []
           | SKI_CLEAN_NONE => d
           end in
  (d, (d_counter d =? 0) && match cacheUID d with [] => true | _ => false end).

(** The loops unlink the elements that can be freed. *)
Definition ___ski_clean_cAlgoID (a : _SKI_CACHE_ALGO_ID) (type : e_SKI_clean)
    : _SKI_CACHE_ALGO_ID * bool :=
  let datas :=
    if decide (type = SKI_CLEAN_NONE) then cacheData a
    else omap (fun d => let '(d, canFree) := ___ski_clean_cData d type in
                        if canFree : bool then None else Some d) (cacheData a) in
  (mkAlgo (a_algoID a) datas, match datas with [] => true | _ => false end).

Definition clean_algos (type : e_SKI_clean) (l : list _SKI_CACHE_ALGO_ID)
    : list _SKI_CACHE_ALGO_ID :=
  omap (fun a => let '(a, canFree) := ___ski_clean_cAlgoID a type in
                 if canFree : bool then None else Some a) l.

(** The cells of the array are cleaned independently of each other. *)
Definition ___ski_clean_cNode (node : _SKI_CACHE_NODE) (type : e_SKI_clean)
    : _SKI_CACHE_NODE * bool :=
  let m := omap (fun l => match clean_algos type l with [] => None | l' => Some l' end)
             (as2 node) in
  (mkNode (upper node) m, bool_decide (m = ∅)).

(** ** Retrieval *)

(** The loop of [__ski_getCacheNode] from a node on. *)
Fixpoint node_walk (up : Z) (create : bool) (l : list _SKI_CACHE_NODE)
    : list _SKI_CACHE_NODE * option nat :=
  match l with
  | [] => ([], None)
  | cNode :: next =>
      if up <? upper cNode then
        if create then (___ski_createCacheNode up :: l, Some O) else (l, None)
      else if up =? upper cNode then (l, Some O)
      else match next with
           | [] => if create then ([cNode; ___ski_createCacheNode up], Some 1%nat) else (l, None)
           | _ => let '(next', p) := node_walk up create next in (cNode :: next', option_map S p)
           end
  end.
Definition __ski_getCacheNode (nodes : list _SKI_CACHE_NODE) (up : Z) (create : bool)
    : list _SKI_CACHE_NODE * option nat :=
  match nodes with
  | [] => if create then ([___ski_createCacheNode up], Some O) else ([], None)
  | _ => node_walk up create nodes
  end.

(** The loop of [__ski_getCacheAlgoID].  [prev_set]: whether [prev] has been
    assigned; the declaration does not initialise it. *)
Fixpoint algo_walk (algoID : Z) (create prev_set : bool) (l : list _SKI_CACHE_ALGO_ID)
    : outcome (list _SKI_CACHE_ALGO_ID * option nat) :=
  match l with
  | [] => Ok ([], None)
  | cAlgoID :: next =>
      if a_algoID cAlgoID =? algoID then Ok (l, Some O)
      else if algoID <? a_algoID cAlgoID then
        if create then
          if prev_set then Ok (___ski_createCacheAlgoID algoID :: l, Some O) else Fault UninitRead
        else Ok (l, None)
      else match next with
           | [] => if create then Ok ([cAlgoID; ___ski_createCacheAlgoID algoID], Some 1%nat)
                   else Ok (l, None)
           | _ => '(next', p) ← algo_walk algoID create true next; Ok (cAlgoID :: next', option_map S p)
           end
  end.
Definition __ski_getCacheAlgoID (algos : list _SKI_CACHE_ALGO_ID) (algoID : Z) (create : bool)
    : outcome (list _SKI_CACHE_ALGO_ID * option nat) :=
  match algos with
  | [] => if create then Ok ([___ski_createCacheAlgoID algoID], Some O) else Ok ([], None)
  | _ => algo_walk algoID create false algos
  end.

(** The search for the key data inside [_ski_getCacheData]. *)
Fixpoint data_walk (new : _SKI_CACHE_DATA) (ski : list Z) (create : bool)
    (l : list _SKI_CACHE_DATA) : list _SKI_CACHE_DATA * option nat :=
  match l with
  | [] => ([], None)
  | d :: next =>
      let cmp := memcmp ski (d_ski d) in
      if cmp <? 0 then if create then (new :: l, Some O) else (l, None)
      else if cmp =? 0 then (l, Some O)
      else match next with
           | [] => if create then ([d; new], Some 1%nat) else (l, None)
           | _ => let '(next', p) := data_walk new ski create next in (d :: next', option_map S p)
           end
  end.
Definition find_cData (asn : Z) (ski : list Z) (algoID : Z) (create : bool)
    (l : list _SKI_CACHE_DATA) : list _SKI_CACHE_DATA * option nat :=
  let new := ___ski_createCacheData asn ski algoID in
  match l with
  | [] => if create then ([new], Some O) else ([], None)
  | _ => data_walk new ski create l
  end.

(** The cache data is found through the helper, which stays set. *)
Definition _ski_getCacheData (c : _SKI_CACHE) (asn : Z) (ski : list Z) (algoID : Z)
    (create : bool) : outcome (_SKI_CACHE * option nat) :=
  let up := u16 (Z.shiftr asn 16) in
  let lo := u16 (Z.land asn 65535) in
  let '(nodes, pn) := __ski_getCacheNode (cacheNode c) up create in
  match pn with
  | None => Ok (set_helper (set_nodes c nodes) empty_helper, None)
  | Some i =>
      node ← arr_get nodes i;
      '(algos, pa) ← __ski_getCacheAlgoID (as2_get node lo) algoID create;
      match pa with
      | None =>
          Ok (set_helper (set_nodes c (<[i := as2_set node lo algos]> nodes)) empty_helper, None)
      | Some j =>
          a ← arr_get algos j;
          let '(datas, pd) := find_cData asn ski algoID create (cacheData a) in
          let algos' := <[j := mkAlgo (a_algoID a) datas]> algos in
          let c' := set_nodes c (<[i := as2_set node lo algos']> nodes) in
          match pd with
          | None => Ok (set_helper c' empty_helper, None)
          | Some k => Ok (set_helper c' (mkHelper (Some i) 0 (Some j) (Some k)), Some k)
          end
      end
  end.

(** [tmpHelper.cAlgoID->cacheData], and a store to it.  The node and the array
    cell are the ones the walk for [asn] went through. *)
Definition helper_datas (c : _SKI_CACHE) (asn : Z) : outcome (list _SKI_CACHE_DATA) :=
  match h_cNode (tmpHelper c), h_cAlgoID (tmpHelper c) with
  | Some i, Some j =>
      node ← arr_get (cacheNode c) i;
      a ← arr_get (as2_get node (u16 (Z.land asn 65535))) j;
      Ok (cacheData a)
  | _, _ => Fault NullDeref
  end.
Definition helper_store (c : _SKI_CACHE) (asn : Z) (datas : list _SKI_CACHE_DATA)
    : outcome _SKI_CACHE :=
  match h_cNode (tmpHelper c), h_cAlgoID (tmpHelper c) with
  | Some i, Some j =>
      let lo := u16 (Z.land asn 65535) in
      node ← arr_get (cacheNode c) i;
      a ← arr_get (as2_get node lo) j;
      let algos := <[j := mkAlgo (a_algoID a) datas]> (as2_get node lo) in
      Ok (set_nodes c (<[i := as2_set node lo algos]> (cacheNode c)))
  | _, _ => Fault NullDeref
  end.

(** ** Update registrations of one key *)

(** The loop of [__ski_addUpdateCacheUID] from an element on. *)
Fixpoint uid_walk (updateID : Z) (l : list _SKI_CACHE_UPDATEID)
    : outcome (list _SKI_CACHE_UPDATEID) :=
  match l with
  | [] => Fault NullDeref
  | cUID :: next =>
      let cmp := compareSrxUpdateID updateID (u_updateID cUID) SRX_UID_PV in
      if negb (cmp =? 0) then
        if cmp <? 0 then
          match ___ski_createCacheUID updateID with
          | Some new => Ok (new :: l)
          | None => Fault NullDeref
          end
        else match next with
             | [] => Ok (cUID :: option_list (___ski_createCacheUID updateID))
             | _ => next' ← uid_walk updateID next; Ok (cUID :: next')
             end
      else Ok (mkUID (u_updateID cUID) (u16 (u_counter cUID + 1)) :: next)
  end.
Definition __ski_addUpdateCacheUID (d : _SKI_CACHE_DATA) (updateID : Z)
    : outcome _SKI_CACHE_DATA :=
  match cacheUID d with
  | [] => Ok (set_uids d (option_list (___ski_createCacheUID updateID)))
  | _ => l ← uid_walk updateID (cacheUID d); Ok (set_uids d l)
  end.

(** The loop of [ski_unregisterUpdate] over the registrations of one key. *)
Fixpoint uid_unregister (updateID : Z) (l : list _SKI_CACHE_UPDATEID)
    : list _SKI_CACHE_UPDATEID :=
  match l with
  | [] => []
  | cUID :: next =>
      let cmp := compareSrxUpdateID updateID (u_updateID cUID) SRX_UID_PV in
      if negb (cmp =? 0) then
        if 0 <? cmp then cUID :: uid_unregister updateID next else l
      else let n := u16 (u_counter cUID - 1) in
           if n =? 0 then next else mkUID (u_updateID cUID) n :: next
  end.

(** ** Locking *)
Definition _ski_lock (c : _SKI_CACHE) : outcome _SKI_CACHE :=
  v ← sem_wait (semaphore c); Ok (set_sem c v).
Definition _ski_unlock (c : _SKI_CACHE) : _SKI_CACHE :=
  if semaphore c =? 0 then set_sem c (sem_post (semaphore c)) else c.

(** ** The interface *)

(** [rpki_queue] tells whether a queue was passed. *)
Definition ski_createCache (rpki_queue : bool) : SKI_CACHE :=
  if rpki_queue then Some (mkCache [] empty_helper empty_info 1) else None.

(** The body of the inner loop of [ski_registerUpdate] for one key. *)
Definition register_one (c : _SKI_CACHE) (updateID asn : Z) (ski : list Z) (algoID : Z)
    : outcome _SKI_CACHE :=
  '(c, k) ← _ski_getCacheData c asn ski algoID true;
  match k with
  | None => Ok c
  | Some k => datas ← helper_datas c asn;
              d ← arr_get datas k;
              d ← __ski_addUpdateCacheUID d updateID;
              helper_store c asn (<[k := d]> datas)
  end.

(** [for (segIdx = 0; ...)] of [ski_registerUpdate], [n] iterations left. *)
Fixpoint register_segments (n : nat) (c : _SKI_CACHE) (updateID algoID : Z) (sbIdx segIdx : nat)
    (asns skis : list Z) : outcome _SKI_CACHE :=
  match n with
  | O => Ok c
  | S n' =>
      let skiOffset := (segIdx * SKI_LENGTH + segIdx * SKI_LENGTH * sbIdx)%nat in
      asn ← arr_get asns segIdx;
      ski ← read_bytes skis skiOffset SKI_LENGTH;
      c ← register_one c updateID asn ski algoID;
      register_segments n' c updateID algoID sbIdx (S segIdx) asns skis
  end.

(** [for (sbIdx = 0; ...)] of [ski_registerUpdate]. *)
Fixpoint register_blocks (n : nat) (c : _SKI_CACHE) (updateID : Z) (sbIdx nrSegments : nat)
    (algoIDs asns skis : list Z) : outcome _SKI_CACHE :=
  match n with
  | O => Ok c
  | S n' =>
      algoID ← arr_get algoIDs sbIdx;
      c ← register_segments nrSegments c updateID algoID sbIdx 0 asns skis;
      register_blocks n' c updateID (S sbIdx) nrSegments algoIDs asns skis
  end.

(** A NULL array has no elements. *)
Definition arr (p : option (list Z)) : list Z := match p with Some l => l | None => [] end.

Definition ski_registerUpdate (cache : SKI_CACHE) (updateID : Z) (bgpsec : option (list Z))
    : outcome (SKI_CACHE * Z) :=
  match cache with
  | None => Ok (None, REGVAL_ERROR)
  | Some c =>
      c ← _ski_lock c;
      match bgpsec with
      | None => Ok (Some (_ski_unlock c), REGVAL_ERROR)
      | Some _ =>
          info ← _ski_parseBGPsec_PATH (tmpBGPsecInfo c) bgpsec;
          let c := set_info c info in
          let retVal := status info in
          c ← if negb (retVal =? REGVAL_ERROR)
              then register_blocks (Z.to_nat (nrSigBlocks info)) c updateID 0
                     (Z.to_nat (nrSegments info)) (algoID info) (arr (asn info)) (arr (ski info))
              else Ok c;
          Ok (Some (_ski_unlock (set_info c (_ski_initializeUpdInfo (tmpBGPsecInfo c)))), retVal)
      end
  end.

(** The body of the inner loop of [ski_unregisterUpdate] for one key. *)
Definition unregister_one (c : _SKI_CACHE) (updateID asn : Z) (ski : list Z) (algoID : Z)
    : outcome _SKI_CACHE :=
  '(c, k) ← _ski_getCacheData c asn ski algoID false;
  match k with
  | None => Ok c
  | Some k =>
      datas ← helper_datas c asn;
      d ← arr_get datas k;
      let d := set_uids d (uid_unregister updateID (cacheUID d)) in
      match cacheUID d with
      | [] => if d_counter d =? 0
              then c ← helper_store c asn (delete k datas);
                   let h := tmpHelper c in
                   Ok (set_helper c (mkHelper (h_cNode h) (h_as2 h) (h_cAlgoID h) None))
              else helper_store c asn (<[k := d]> datas)
      | _ => helper_store c asn (<[k := d]> datas)
      end
  end.

Fixpoint unregister_segments (n : nat) (c : _SKI_CACHE) (updateID algoID : Z) (psIdx skiOffset : nat)
    (asns skis : list Z) : outcome _SKI_CACHE :=
  match n with
  | O => Ok c
  | S n' =>
      asn ← arr_get asns psIdx;
      ski ← read_bytes skis skiOffset SKI_LENGTH;
      c ← unregister_one c updateID asn ski algoID;
      unregister_segments n' c updateID algoID (S psIdx) (skiOffset + SKI_LENGTH) asns skis
  end.

(** [skiOffset] runs on from block to block. *)
Fixpoint unregister_blocks (n : nat) (c : _SKI_CACHE) (updateID : Z) (sbIdx nrSegments skiOffset : nat)
    (algoIDs asns skis : list Z) : outcome _SKI_CACHE :=
  match n with
  | O => Ok c
  | S n' =>
      algoID ← arr_get algoIDs sbIdx;
      c ← unregister_segments nrSegments c updateID algoID 0 skiOffset asns skis;
      unregister_blocks n' c updateID (S sbIdx) nrSegments (skiOffset + nrSegments * SKI_LENGTH)
        algoIDs asns skis
  end.

Definition ski_unregisterUpdate (cache : SKI_CACHE) (updateID : Z) (bgpsec : option (list Z))
    : outcome (SKI_CACHE * bool) :=
  match cache with
  | None => Ok (None, true)
  | Some c =>
      c ← _ski_lock c;
      match bgpsec with
      | None => Ok (Some (_ski_unlock c), true)
      | Some _ =>
          info ← _ski_parseBGPsec_PATH (tmpBGPsecInfo c) bgpsec;
          let c := set_info c info in
          let ok := negb (status info =? REGVAL_ERROR) in
          c ← if ok
              then unregister_blocks (Z.to_nat (nrSigBlocks info)) c updateID 0
                     (Z.to_nat (nrSegments info)) 0 (algoID info) (arr (asn info))
                     (arr (ski info))
              else Ok c;
          Ok (Some (_ski_unlock (set_info c (_ski_initializeUpdInfo (tmpBGPsecInfo c)))), ok)
      end
  end.

(** The loops that queue every update registered for a key. *)
Fixpoint notify (queue : RPKI_QUEUE) (l : list _SKI_CACHE_UPDATEID) : outcome RPKI_QUEUE :=
  match l with
  | [] => Ok queue
  | cUID :: next => queue ← rq_queue queue RQ_KEY (u_updateID cUID); notify queue next
  end.

Definition ski_registerKey (cache : SKI_CACHE) (queue : RPKI_QUEUE) (asn : Z) (ski : list Z)
    (algoID : Z) : outcome (SKI_CACHE * RPKI_QUEUE * bool) :=
  match cache with
  | None => Ok (None, queue, false)
  | Some c =>
      c ← _ski_lock c;
      '(c, k) ← _ski_getCacheData c asn ski algoID true;
      match k with
      | None => Fault NullDeref
      | Some k =>
          datas ← helper_datas c asn;
          d ← arr_get datas k;
          let d := set_counter d (u8 (d_counter d + 1)) in
          c ← helper_store c asn (<[k := d]> datas);
          let c := set_helper c empty_helper in
          queue ← notify queue (cacheUID d);
          Ok (Some (_ski_unlock c), queue, true)
      end
  end.

Definition ski_unregisterKey (cache : SKI_CACHE) (queue : RPKI_QUEUE) (asn : Z) (ski : list Z)
    (algoID : Z) : outcome (SKI_CACHE * RPKI_QUEUE * bool) :=
  match cache with
  | None => Ok (None, queue, true)
  | Some c =>
      c ← _ski_lock c;
      '(c, k) ← _ski_getCacheData c asn ski algoID false;
      match k with
      | None => Ok (Some (_ski_unlock c), queue, true)
      | Some k =>
          datas ← helper_datas c asn;
          d ← arr_get datas k;
          if 0 <? d_counter d then
            let d := set_counter d (u8 (d_counter d - 1)) in
            match cacheUID d with
            | [] => c ← helper_store c asn (delete k datas);
                    Ok (Some (_ski_unlock c), queue, true)
            | _ => c ← helper_store c asn (<[k := d]> datas);
                   queue ← notify queue (cacheUID d);
                   Ok (Some (_ski_unlock c), queue, true)
            end
          else Ok (Some (_ski_unlock c), queue, true)
      end
  end.

Definition ski_clean (cache : SKI_CACHE) (type : e_SKI_clean) : outcome (SKI_CACHE * bool) :=
  match cache with
  | None => Ok (None, true)
  | Some c =>
      c ← _ski_lock c;
      let c :=
        match type with
        | SKI_CLEAN_ALL => set_nodes c []
        | _ => set_nodes c (omap (fun n => let '(n, canFree) := ___ski_clean_cNode n type in
                                           if canFree : bool then None else Some n) (cacheNode c))
        end in
      Ok (Some (_ski_unlock c), true)
  end.

(** The returned flag is [errMSG != NULL], which holds on every path: the
    message is set after the cache was freed as well. *)
Definition ski_releaseCache (cache : SKI_CACHE) : outcome (SKI_CACHE * bool) :=
  match cache with
  | None => Ok (None, true)
  | Some _ => '(cache, ok) ← ski_clean cache SKI_CLEAN_ALL;
              Ok (if ok : bool then None else cache, true)
  end.

(** What the update cache calls. *)
#[export] Instance ski_updates : SkiUpdates SKI_CACHE := {
  ski_registerUpdate := ski_registerUpdate;
  ski_unregisterUpdate := ski_unregisterUpdate;
  ski_clean_updates := fun c => '(c, _) ← ski_clean c SKI_CLEAN_UPDATES; Ok c
}.

End SkiCache.
