(* ===== verification/SkiCacheLemmas.v ===== *)
(** * The SKI cache: invariant and the search for key data

    The four levels of linked lists are sorted; every walk of the source is the
    find-or-insert walk of Lists.  [ski_data] is the abstract content of
    the cache, a function from router keys to their data; [getCacheData_spec]
    states what [_ski_getCacheData] does to it. *)
From S2P Require Import Prelude Locks SrxDefs SrxIdentifier RpkiQueue BgpsecPath.
From S2P Require Import Lists UpdateCache SkiCache.
Import RpkiQueue BgpsecPath SkiCache.

Module SkiCacheLemmas.

(** ** The orders *)
Definition uid_cmp (a b : Z) : Z := compareSrxUpdateID a b SRX_UID_PV.
Definition ski_valid (s : list Z) : Prop := length s = SKI_LENGTH.

#[export] Instance uid_order : KeyOrder uid_cmp (in_u 32).
Proof.
  split; unfold uid_cmp; intros.
  - by apply compareSrxUpdateID_eq.
  - apply compareSrxUpdateID_antisym.
  - eauto using compareSrxUpdateID_trans.
Qed.

#[export] Instance ski_order : KeyOrder memcmp ski_valid.
Proof.
  split; unfold ski_valid; intros.
  - apply memcmp_0_iff. congruence.
  - apply memcmp_antisym.
  - eapply memcmp_trans; [|done..]. congruence.
Qed.

(** ** The invariant *)
Definition uid_ok (u : _SKI_CACHE_UPDATEID) : Prop :=
  u_updateID u <> 0 /\ 0 < u_counter u < 2 ^ 16.
Definition uids_wf (l : list _SKI_CACHE_UPDATEID) : Prop :=
  sl_wf (cmp := uid_cmp) (valid := in_u 32) u_updateID l /\ Forall uid_ok l.

Definition data_wf (asn al : Z) (d : _SKI_CACHE_DATA) : Prop :=
  d_asn d = asn /\ d_algoID d = al /\ in_u 8 (d_counter d) /\ uids_wf (cacheUID d).
Definition datas_wf (asn al : Z) (l : list _SKI_CACHE_DATA) : Prop :=
  sl_wf (cmp := memcmp) (valid := ski_valid) d_ski l /\ Forall (data_wf asn al) l.

Definition algos_wf (asn : Z) (l : list _SKI_CACHE_ALGO_ID) : Prop :=
  sl_wf (cmp := Z.sub) (valid := fun _ => True) a_algoID l
  /\ Forall (fun a => datas_wf asn (a_algoID a) (cacheData a)) l.

Definition node_wf (n : _SKI_CACHE_NODE) : Prop :=
  map_Forall (fun i l => l <> [] /\ algos_wf (upper n * 2 ^ 16 + i) l) (as2 n).
Definition nodes_wf (l : list _SKI_CACHE_NODE) : Prop :=
  sl_wf (cmp := Z.sub) (valid := fun _ => True) upper l /\ Forall node_wf l.

(** ** The content *)
Definition rkey : Type := Z * list Z * Z.
Definition rkey_wf (k : rkey) : Prop := in_u 32 k.1.1 /\ ski_valid k.1.2.

Definition node_algos (nodes : list _SKI_CACHE_NODE) (asn : Z) : list _SKI_CACHE_ALGO_ID :=
  match sl_get upper (asn / 2 ^ 16) nodes with
  | Some n => as2_get n (asn mod 2 ^ 16)
  | None => []
  end.
Definition datas_of (algos : list _SKI_CACHE_ALGO_ID) (al : Z) : list _SKI_CACHE_DATA :=
  match sl_get a_algoID al algos with Some a => cacheData a | None => [] end.
Definition algo_datas (nodes : list _SKI_CACHE_NODE) (asn al : Z) : list _SKI_CACHE_DATA :=
  datas_of (node_algos nodes asn) al.
Definition ski_data (nodes : list _SKI_CACHE_NODE) (k : rkey) : option _SKI_CACHE_DATA :=
  sl_get d_ski k.1.2 (algo_datas nodes k.1.1 k.2).

(** The list of algorithms of [asn] starts above [al]. *)
Definition algos_above (al : Z) (algos : list _SKI_CACHE_ALGO_ID) : bool :=
  match algos with a :: _ => al <? a_algoID a | [] => false end.
Definition head_above (nodes : list _SKI_CACHE_NODE) (asn al : Z) : bool :=
  algos_above al (node_algos nodes asn).

(** ** The walks are find-or-insert walks *)
Lemma node_walk_cons up create n l :
  node_walk up create (n :: l)
  = if up <? upper n then
      if create then (___ski_createCacheNode up :: n :: l, Some O) else (n :: l, None)
    else if up =? upper n then (n :: l, Some O)
    else match l with
         | [] => if create then ([n; ___ski_createCacheNode up], Some 1%nat) else (n :: l, None)
         | _ => let '(l', p) := node_walk up create l in (n :: l', option_map S p)
         end.
Proof. reflexivity. Qed.

Lemma data_walk_cons new ski create d l :
  data_walk new ski create (d :: l)
  = if memcmp ski (d_ski d) <? 0 then if create then (new :: d :: l, Some O) else (d :: l, None)
    else if memcmp ski (d_ski d) =? 0 then (d :: l, Some O)
    else match l with
         | [] => if create then ([d; new], Some 1%nat) else (d :: l, None)
         | _ => let '(l', p) := data_walk new ski create l in (d :: l', option_map S p)
         end.
Proof. reflexivity. Qed.

Lemma algo_walk_cons al create prev_set a l :
  algo_walk al create prev_set (a :: l)
  = if a_algoID a =? al then Ok (a :: l, Some O)
    else if al <? a_algoID a then
      if create then
        if prev_set then Ok (___ski_createCacheAlgoID al :: a :: l, Some O) else Fault UninitRead
      else Ok (a :: l, None)
    else match l with
         | [] => if create then Ok ([a; ___ski_createCacheAlgoID al], Some 1%nat)
                 else Ok (a :: l, None)
         | _ => '(l', p) ← algo_walk al create true l; Ok (a :: l', option_map S p)
         end.
Proof. reflexivity. Qed.

(** The comparisons of the source and the sign of the difference. *)
Lemma sub_ltb a b : (a - b <? 0) = (a <? b).
Proof. destruct (Z.ltb_spec (a - b) 0), (Z.ltb_spec a b); lia. Qed.
Lemma sub_eqb a b : (a - b =? 0) = (a =? b).
Proof. destruct (Z.eqb_spec (a - b) 0), (Z.eqb_spec a b); lia. Qed.

Lemma getCacheNode_walk nodes up create :
  __ski_getCacheNode nodes up create
  = sl_walk (cmp := Z.sub) upper create (___ski_createCacheNode up) up nodes.
Proof.
  destruct nodes as [|n l]; [done|]. unfold __ski_getCacheNode. revert n.
  induction l as [|m l IH]; intros n; rewrite node_walk_cons, sl_walk_cons, sub_ltb, sub_eqb.
  - by destruct create.
  - by rewrite IH.
Qed.

Lemma find_cData_walk asn ski al create l :
  find_cData asn ski al create l
  = sl_walk (cmp := memcmp) d_ski create (___ski_createCacheData asn ski al) ski l.
Proof.
  destruct l as [|d l]; [done|]. unfold find_cData. revert d.
  induction l as [|m l IH]; intros d; rewrite data_walk_cons, sl_walk_cons.
  - by destruct create.
  - by rewrite IH.
Qed.

Lemma algo_walk_prev al create prev a l :
  (prev = false -> create = true -> a_algoID a <= al) ->
  algo_walk al create prev (a :: l)
  = Ok (sl_walk (cmp := Z.sub) a_algoID create (___ski_createCacheAlgoID al) al (a :: l)).
Proof.
  revert a prev. induction l as [|b l IH]; intros a prev Hp;
    rewrite algo_walk_cons, sl_walk_cons, sub_ltb, sub_eqb, (Z.eqb_sym al);
    destruct (Z.eqb_spec (a_algoID a) al), (Z.ltb_spec al (a_algoID a)); try lia; try done;
    try (destruct create; [destruct prev; [done|specialize (Hp eq_refl eq_refl); lia]|done]).
  - by destruct create.
  - rewrite IH by done. cbn [mbind outcome_bind]. by destruct (sl_walk _ _ _ _ (b :: l)).
Qed.

Lemma getCacheAlgoID_walk algos al create :
  __ski_getCacheAlgoID algos al create
  = if create && algos_above al algos
    then Fault UninitRead
    else Ok (sl_walk (cmp := Z.sub) a_algoID create (___ski_createCacheAlgoID al) al algos).
Proof.
  destruct algos as [|a l]; [by destruct create|]. unfold __ski_getCacheAlgoID, algos_above.
  destruct create; cbn [andb]; [|by apply algo_walk_prev].
  destruct (Z.ltb_spec al (a_algoID a)); [|by apply algo_walk_prev].
  cbn [algo_walk]. destruct (Z.eqb_spec (a_algoID a) al); [lia|].
  by rewrite (proj2 (Z.ltb_lt _ _)).
Qed.

(** ** The levels *)
Lemma asn_upper asn : in_u 32 asn -> u16 (Z.shiftr asn 16) = asn / 2 ^ 16.
Proof.
  unfold in_u. intros. rewrite Z.shiftr_div_pow2 by lia. apply wrap_small. unfold in_u. zdiv.
Qed.
Lemma asn_lower asn : in_u 32 asn -> u16 (Z.land asn 65535) = asn mod 2 ^ 16.
Proof.
  unfold in_u. intros. change 65535 with (Z.ones 16). rewrite Z.land_ones by lia.
  apply wrap_small. unfold in_u. zdiv.
Qed.
Lemma asn_split asn : asn / 2 ^ 16 * 2 ^ 16 + asn mod 2 ^ 16 = asn.
Proof. zdiv. Qed.

Lemma as2_get_set n i l j : as2_get (as2_set n i l) j = if decide (j = i) then l else as2_get n j.
Proof.
  unfold as2_get, as2_set. cbn [as2]. case_decide; subst.
  - destruct l; [by rewrite lookup_delete_eq|by rewrite lookup_insert_eq].
  - destruct l; [by rewrite lookup_delete_ne|by rewrite lookup_insert_ne].
Qed.

Lemma node_wf_get n i : node_wf n -> algos_wf (upper n * 2 ^ 16 + i) (as2_get n i).
Proof.
  intros Hn. unfold as2_get. destruct (as2 n !! i) as [l|] eqn:E; [by apply (Hn i l)|].
  split; [apply sl_wf_nil|constructor].
Qed.

Lemma node_wf_set n i l : node_wf n -> algos_wf (upper n * 2 ^ 16 + i) l -> node_wf (as2_set n i l).
Proof.
  intros Hn Hl. unfold node_wf, as2_set. cbn [as2 upper]. destruct l as [|a l].
  - by apply map_Forall_delete.
  - by apply map_Forall_insert_2.
Qed.

Lemma sl_get_Forall {A K} `{EqDecision K} (P : A -> Prop) (key : A -> K) k l x :
  Forall P l -> sl_get key k l = Some x -> P x.
Proof. rewrite Forall_forall. intros Hl [_ Hx]%sl_get_Some. auto. Qed.

Lemma node_algos_wf nodes asn : nodes_wf nodes -> algos_wf asn (node_algos nodes asn).
Proof.
  intros [Hs Hf]. unfold node_algos. destruct (sl_get upper _ nodes) as [n|] eqn:E.
  - pose proof (sl_get_Forall _ _ _ _ _ Hf E) as Hn. apply sl_get_Some in E as [Hu _].
    rewrite <- (asn_split asn) at 1. rewrite <- Hu. by apply node_wf_get.
  - split; [apply sl_wf_nil|constructor].
Qed.

Lemma datas_of_wf asn al algos : algos_wf asn algos -> datas_wf asn al (datas_of algos al).
Proof.
  intros [Hs Hf]. unfold datas_of. destruct (sl_get a_algoID al algos) as [a|] eqn:E.
  - pose proof (sl_get_Forall _ _ _ _ _ Hf E) as Hn. by apply sl_get_Some in E as [<- _].
  - split; [apply sl_wf_nil|constructor].
Qed.

Lemma ski_data_wf nodes k d :
  nodes_wf nodes -> ski_data nodes k = Some d -> data_wf k.1.1 k.2 d /\ d_ski d = k.1.2.
Proof.
  intros Hn Hd. pose proof (datas_of_wf _ k.2 _ (node_algos_wf _ k.1.1 Hn)) as [_ Hf].
  split; [by eapply sl_get_Forall|]. by apply sl_get_Some in Hd as [? _].
Qed.

(** Storing the algorithm list of one AS number. *)
Lemma store_algos nodes i n asn algos :
  nodes_wf nodes -> nodes !! i = Some n -> upper n = asn / 2 ^ 16 -> algos_wf asn algos ->
  nodes_wf (<[i := as2_set n (asn mod 2 ^ 16) algos]> nodes)
  /\ forall asn', node_algos (<[i := as2_set n (asn mod 2 ^ 16) algos]> nodes) asn'
       = if decide (asn' = asn) then algos else node_algos nodes asn'.
Proof.
  intros [Hs Hf] Hi Hu Ha. split; [split|].
  - by eapply sl_wf_insert.
  - apply Forall_insert; [done|]. apply node_wf_set; [by eapply Forall_lookup_1 in Hf|].
    by rewrite Hu, asn_split.
  - intros asn'. unfold node_algos.
    rewrite (sl_get_insert upper _ nodes i n (as2_set n (asn mod 2 ^ 16) algos) Hs Hi eq_refl), Hu.
    pose proof (sl_get_lookup _ _ _ _ Hs Hi) as Hg. rewrite Hu in Hg.
    destruct (decide (asn' / 2 ^ 16 = asn / 2 ^ 16)) as [E|E].
    + rewrite as2_get_set, E, Hg. pose proof (asn_split asn). pose proof (asn_split asn').
      repeat case_decide; [done| |congruence|done]. exfalso. congruence.
    + rewrite decide_False by congruence. done.
Qed.

(** Storing the data list of one algorithm. *)
Lemma store_datas algos j a asn datas :
  algos_wf asn algos -> algos !! j = Some a -> datas_wf asn (a_algoID a) datas ->
  algos_wf asn (<[j := mkAlgo (a_algoID a) datas]> algos)
  /\ forall al, datas_of (<[j := mkAlgo (a_algoID a) datas]> algos) al
       = if decide (al = a_algoID a) then datas else datas_of algos al.
Proof.
  intros [Hs Hf] Hj Hd. split; [split|].
  - by eapply sl_wf_insert.
  - by apply Forall_insert.
  - intros al. unfold datas_of. rewrite (sl_get_insert a_algoID _ algos j a (mkAlgo (a_algoID a) datas) Hs Hj eq_refl).
    by case_decide.
Qed.

Lemma algos_above_insert al algos j a datas :
  algos !! j = Some a ->
  algos_above al (<[j := mkAlgo (a_algoID a) datas]> algos) = algos_above al algos.
Proof. destruct algos as [|b l], j; simpl; intros; by simplify_eq. Qed.

(** ** The search *)

(** The fields a search leaves alone. *)
Definition same_rest (c c' : _SKI_CACHE) : Prop :=
  tmpBGPsecInfo c' = tmpBGPsecInfo c /\ semaphore c' = semaphore c.

(** The helper of [c] points at the data list of [asn] and [al]. *)
Definition helper_at (c : _SKI_CACHE) (asn al : Z) : Prop :=
  exists i j n a, h_cNode (tmpHelper c) = Some i /\ h_cAlgoID (tmpHelper c) = Some j
    /\ cacheNode c !! i = Some n /\ upper n = asn / 2 ^ 16
    /\ as2_get n (asn mod 2 ^ 16) !! j = Some a /\ a_algoID a = al.

Lemma node_algos_at nodes i n asn :
  nodes_wf nodes -> nodes !! i = Some n -> upper n = asn / 2 ^ 16 ->
  node_algos nodes asn = as2_get n (asn mod 2 ^ 16).
Proof.
  intros [Hs _] Hi Hu. unfold node_algos. by rewrite <- Hu, (sl_get_lookup _ _ _ _ Hs Hi).
Qed.

Lemma datas_of_at algos asn j a :
  algos_wf asn algos -> algos !! j = Some a -> datas_of algos (a_algoID a) = cacheData a.
Proof. intros [Hs _] Hj. unfold datas_of. by rewrite (sl_get_lookup _ _ _ _ Hs Hj). Qed.

Lemma arr_get_Some {A} (l : list A) i x : l !! i = Some x -> arr_get l i = Ok x.
Proof. unfold arr_get. by intros ->. Qed.

(** Reading and storing through the helper. *)
Lemma helper_datas_spec c asn al :
  in_u 32 asn -> nodes_wf (cacheNode c) -> helper_at c asn al ->
  helper_datas c asn = Ok (algo_datas (cacheNode c) asn al).
Proof.
  intros Hu Hw (i & j & n & a & E1 & E2 & E3 & E4 & E5 & <-). unfold helper_datas, algo_datas.
  rewrite E1, E2, asn_lower, (arr_get_Some _ _ _ E3) by done. cbn [mbind outcome_bind].
  rewrite (arr_get_Some _ _ _ E5). cbn [mbind outcome_bind].
  pose proof (node_algos_wf _ asn Hw) as Ha.
  rewrite (node_algos_at _ _ _ _ Hw E3 E4) in Ha |- *. by rewrite (datas_of_at _ _ _ _ Ha E5).
Qed.

Lemma helper_store_spec c asn al datas :
  in_u 32 asn -> nodes_wf (cacheNode c) -> helper_at c asn al -> datas_wf asn al datas ->
  exists c', helper_store c asn datas = Ok c' /\ nodes_wf (cacheNode c') /\ same_rest c c'
    /\ tmpHelper c' = tmpHelper c
    /\ (forall asn' al', head_above (cacheNode c') asn' al' = head_above (cacheNode c) asn' al')
    /\ forall asn' al', algo_datas (cacheNode c') asn' al'
         = if decide (asn' = asn /\ al' = al) then datas else algo_datas (cacheNode c) asn' al'.
Proof.
  intros Hu Hw (i & j & n & a & E1 & E2 & E3 & E4 & E5 & <-) Hd. unfold helper_store.
  rewrite E1, E2, asn_lower, (arr_get_Some _ _ _ E3) by done. cbn [mbind outcome_bind].
  rewrite (arr_get_Some _ _ _ E5). cbn [mbind outcome_bind].
  pose proof (node_algos_wf _ asn Hw) as Ha.
  rewrite (node_algos_at _ _ _ _ Hw E3 E4) in Ha.
  destruct (store_datas _ _ _ _ _ Ha E5 Hd) as [Ha' Hd'].
  destruct (store_algos _ _ _ _ _ Hw E3 E4 Ha') as [Hn' Hf'].
  eexists. split; [done|]. split_and!; [done|done|done| |];
    intros asn' al'; unfold head_above, algo_datas; cbn [cacheNode set_nodes]; rewrite Hf'.
  { case_decide as E; [|done]. rewrite E, (algos_above_insert _ _ _ _ _ E5).
    by rewrite (node_algos_at _ _ _ _ Hw E3 E4). }
  destruct (decide (asn' = asn)) as [->|]; [|by rewrite decide_False by tauto].
  rewrite Hd', (node_algos_at _ _ _ _ Hw E3 E4). repeat case_decide; tauto.
Qed.

(** What the search promises.  [found c c' k pos d]: the data of key [k] is [d]
    and is element [pos] of the list the helper of [c'] points at; the rest of
    the content is as in [c]. *)
Record found (c c' : _SKI_CACHE) (k : rkey) (pos : nat) (d : _SKI_CACHE_DATA) : Prop := {
  fd_wf : nodes_wf (cacheNode c');
  fd_rest : same_rest c c';
  fd_helper : helper_at c' k.1.1 k.2;
  fd_pos : algo_datas (cacheNode c') k.1.1 k.2 !! pos = Some d;
  fd_data : ski_data (cacheNode c') k = Some d;
  fd_frame k' : k' <> k -> ski_data (cacheNode c') k' = ski_data (cacheNode c) k';
  fd_head asn : head_above (cacheNode c) asn k.2 = false -> head_above (cacheNode c') asn k.2 = false
}.
Record not_found (c c' : _SKI_CACHE) : Prop := {
  nf_wf : nodes_wf (cacheNode c');
  nf_rest : same_rest c c';
  nf_frame k : ski_data (cacheNode c') k = ski_data (cacheNode c) k
}.

(** A new node or algorithm holds no data. *)
Lemma node_step nodes up create :
  nodes_wf nodes ->
  exists nodes' p, __ski_getCacheNode nodes up create = (nodes', p)
    /\ nodes_wf nodes' /\ (forall asn, node_algos nodes' asn = node_algos nodes asn)
    /\ match p with
       | Some i => exists n, nodes' !! i = Some n /\ upper n = up
       | None => create = false /\ sl_get upper up nodes = None
       end.
Proof.
  intros [Hs Hf]. rewrite getCacheNode_walk.
  destruct (sl_walk_spec (cmp := Z.sub) upper create (___ski_createCacheNode up) up nodes)
    as [W G P F R]; [done..|].
  destruct (sl_walk _ _ _ _ nodes) as [nodes' p]. cbn [fst snd] in *.
  eexists _, _. split; [done|]. split_and!.
  - split; [done|]. apply Forall_forall. intros n Hn.
    apply list_elem_of_lookup in Hn as [i Hi]. pose proof (sl_get_lookup _ _ _ _ W Hi) as Hg.
    rewrite G in Hg. case_decide; [|by eapply sl_get_Forall].
    destruct (sl_get upper up nodes) eqn:E; simplify_eq; [by eapply sl_get_Forall|].
    destruct create; [injection Hg as Hg|done]. rewrite <- Hg. apply map_Forall_empty.
  - intros asn. unfold node_algos. rewrite G. case_decide as E; [|done]. rewrite E.
    destruct (sl_get upper up nodes); [done|]. by destruct create.
  - destruct p as [i|].
    + simpl in P. destruct (proj1 F) as [n Hn]; [done|]. exists n. rewrite <- Hn, P.
      split; [done|]. by apply sl_get_Some in Hn as [? _].
    + rewrite G, decide_True in F by done. destruct (sl_get upper up nodes) eqn:E.
      { by destruct (proj2 F). }
      destruct create; [by destruct (proj2 F)|done].
Qed.

Lemma algo_step algos asn al create :
  algos_wf asn algos ->
  (create && algos_above al algos) = false ->
  exists algos' p, __ski_getCacheAlgoID algos al create = Ok (algos', p)
    /\ algos_wf asn algos' /\ (forall al', datas_of algos' al' = datas_of algos al')
    /\ (algos_above al algos = false -> algos_above al algos' = false)
    /\ match p with
       | Some j => exists a, algos' !! j = Some a /\ a_algoID a = al
       | None => create = false /\ sl_get a_algoID al algos = None
       end.
Proof.
  intros [Hs Hf] Hh. rewrite getCacheAlgoID_walk, Hh.
  destruct (sl_walk_spec (cmp := Z.sub) a_algoID create (___ski_createCacheAlgoID al) al algos)
    as [W G P F R]; [done..|].
  destruct (sl_walk _ _ _ _ algos) as [algos' p] eqn:Ew. cbn [fst snd] in *.
  eexists _, _. split; [done|]. split_and!.
  - split; [done|]. apply Forall_forall. intros a Ha.
    apply list_elem_of_lookup in Ha as [i Hi]. pose proof (sl_get_lookup _ _ _ _ W Hi) as Hg.
    rewrite G in Hg. case_decide; [|exact (sl_get_Forall _ _ _ _ _ Hf Hg)].
    destruct (sl_get a_algoID al algos) eqn:E.
    { injection Hg as <-. exact (sl_get_Forall _ _ _ _ _ Hf E). }
    destruct create; [injection Hg as Hg|done]. rewrite <- Hg.
    split; [apply sl_wf_nil|constructor].
  - intros al'. unfold datas_of. rewrite G. case_decide as E; [|done]. rewrite E.
    destruct (sl_get a_algoID al algos); [done|]. by destruct create.
  - clear W G P F. intros Hd. destruct create; [|by rewrite R]. clear R.
    destruct algos as [|a l]; simpl in *; [simplify_eq; simpl; apply Z.ltb_irrefl|].
    rewrite sub_ltb, Hd in Ew. destruct (_ =? _); [by simplify_eq|].
    destruct (sl_walk _ _ _ _ l). by simplify_eq.
  - destruct p as [i|].
    + simpl in P. destruct (proj1 F) as [a Ha]; [done|]. exists a. rewrite <- Ha, P.
      split; [done|]. by apply sl_get_Some in Ha as [? _].
    + rewrite G, decide_True in F by done. destruct (sl_get a_algoID al algos) eqn:E.
      { by destruct (proj2 F). }
      destruct create; [by destruct (proj2 F)|done].
Qed.

Lemma data_step datas asn ski al create :
  datas_wf asn al datas -> ski_valid ski ->
  exists datas' p, find_cData asn ski al create datas = (datas', p)
    /\ datas_wf asn al datas'
    /\ (forall s, s <> ski -> sl_get d_ski s datas' = sl_get d_ski s datas)
    /\ (x ← p; datas' !! x) = sl_get d_ski ski datas'
    /\ (is_Some p <-> is_Some (sl_get d_ski ski datas'))
    /\ sl_get d_ski ski datas'
       = match sl_get d_ski ski datas with
         | Some d => Some d
         | None => if create then Some (___ski_createCacheData asn ski al) else None
         end.
Proof.
  intros [Hs Hf] Hk. rewrite find_cData_walk.
  destruct (sl_walk_spec (cmp := memcmp) (valid := ski_valid) d_ski create
              (___ski_createCacheData asn ski al) ski datas) as [W G P F R]; [done..|].
  destruct (sl_walk _ _ _ _ datas) as [datas' p]. cbn [fst snd] in *.
  eexists _, _. split; [done|]. split_and!; [|by intros; rewrite G, decide_False|done..|].
  - split; [done|]. apply Forall_forall. intros d Hd.
    apply list_elem_of_lookup in Hd as [i Hi]. pose proof (sl_get_lookup _ _ _ _ W Hi) as Hg.
    rewrite G in Hg. case_decide; [|by eapply sl_get_Forall].
    destruct (sl_get d_ski ski datas) eqn:E; simplify_eq; [by eapply sl_get_Forall|].
    destruct create; [injection Hg as Hg|done]. rewrite <- Hg.
    split_and!; try done. split; [apply sl_wf_nil|constructor].
  - by rewrite G, decide_True.
Qed.

(** What [_ski_getCacheData] answers: [Some d] with the cache data or [None]. *)
Definition wanted (nodes : list _SKI_CACHE_NODE) (create : bool) (k : rkey)
    : option _SKI_CACHE_DATA :=
  match ski_data nodes k with
  | Some d => Some d
  | None => if create then Some (___ski_createCacheData k.1.1 k.1.2 k.2) else None
  end.

(** The last level of the search, in the algorithm list of the key. *)
Lemma getCacheData_last c nodes i n algos j a k create :
  rkey_wf k -> nodes_wf nodes -> nodes !! i = Some n -> upper n = k.1.1 / 2 ^ 16 ->
  algos_wf k.1.1 algos -> algos !! j = Some a -> a_algoID a = k.2 ->
  (forall asn, node_algos nodes asn = node_algos (cacheNode c) asn) ->
  (forall al, datas_of algos al = datas_of (node_algos (cacheNode c) k.1.1) al) ->
  (algos_above k.2 (node_algos (cacheNode c) k.1.1) = false -> algos_above k.2 algos = false) ->
  exists datas p, find_cData k.1.1 k.1.2 k.2 create (cacheData a) = (datas, p) /\
    forall h, let c' := set_helper (set_nodes c (<[i := as2_set n (k.1.1 mod 2 ^ 16)
                         (<[j := mkAlgo (a_algoID a) datas]> algos)]> nodes)) h in
    match p, wanted (cacheNode c) create k with
    | Some pos, Some d =>
        h_cNode h = Some i -> h_cAlgoID h = Some j -> found c c' k pos d
    | None, None => not_found c c'
    | _, _ => False
    end.
Proof.
  destruct k as [[asn ski] al]. cbn [fst snd]. intros [Hu Hk] Hn Hi Hup Ha Hj Hal Hna Hda Hab.
  cbn [fst snd] in *. pose proof (datas_of_at _ _ _ _ Ha Hj) as Ed. rewrite Hal, Hda in Ed.
  pose proof (datas_of_wf asn al _ Ha) as Hdw. rewrite Hda, Ed in Hdw.
  destruct (data_step _ asn ski al create Hdw Hk) as (datas & p & -> & W & G1 & P & F & G2).
  eexists _, _. split; [done|]. intros h. subst al. set (c' := set_helper _ _).
  destruct (store_datas _ _ _ _ _ Ha Hj W) as [Wa Da].
  destruct (store_algos _ _ _ _ _ Hn Hi Hup Wa) as [Wn Dn].
  assert (forall asn' al', algo_datas (cacheNode c') asn' al'
          = if decide (asn' = asn /\ al' = a_algoID a) then datas
            else algo_datas (cacheNode c) asn' al') as D.
  { intros asn' al'. unfold algo_datas. subst c'. cbn [cacheNode set_helper set_nodes].
    rewrite Dn. destruct (decide (asn' = asn)) as [->|].
    - rewrite Da, Hda. repeat case_decide; tauto.
    - rewrite decide_False by tauto. by rewrite Hna. }
  assert (wanted (cacheNode c) create (asn, ski, a_algoID a) = sl_get d_ski ski datas) as ->.
  { rewrite G2. unfold wanted, ski_data, algo_datas. cbn [fst snd]. by rewrite Ed. }
  assert (forall k', k' <> (asn, ski, a_algoID a) ->
          ski_data (cacheNode c') k' = ski_data (cacheNode c) k') as Fr.
  { intros [[asn' ski'] al'] Hne. unfold ski_data. cbn [fst snd]. rewrite D.
    case_decide as E; [|done]. destruct E as [-> ->]. rewrite G1 by congruence.
    unfold algo_datas. by rewrite Ed. }
  destruct p as [pos|], (sl_get d_ski ski datas) as [d|] eqn:E.
  - intros H1 H2. split; cbn [fst snd]; [done|done| | | |done|].
    + exists i, j, (as2_set n (asn mod 2 ^ 16) (<[j := mkAlgo (a_algoID a) datas]> algos)).
      eexists. subst c'. cbn [tmpHelper cacheNode set_helper set_nodes].
      rewrite as2_get_set, decide_True by done. apply lookup_lt_Some in Hi, Hj.
      rewrite !list_lookup_insert_eq by done. done.
    + rewrite D, decide_True by done. done.
    + unfold ski_data. cbn [fst snd]. by rewrite D, decide_True.
    + intros asn'. unfold head_above. subst c'. cbn [cacheNode set_helper set_nodes].
      rewrite Dn. case_decide as E'; [|by rewrite Hna].
      rewrite (algos_above_insert _ _ _ _ _ Hj), E'. auto.
  - by destruct (proj1 F).
  - by destruct (proj2 F).
  - split; [done|done|]. intros k. destruct (decide (k = (asn, ski, a_algoID a))) as [->|]; [|auto].
    unfold ski_data. cbn [fst snd]. rewrite D, decide_True by done. rewrite E.
    symmetry. unfold algo_datas. rewrite Ed.
    revert G2. by destruct (sl_get d_ski ski (cacheData a)).
Qed.

Lemma getCacheData_spec c k create :
  nodes_wf (cacheNode c) -> rkey_wf k ->
  if create && head_above (cacheNode c) k.1.1 k.2
  then _ski_getCacheData c k.1.1 k.1.2 k.2 create = Fault UninitRead
  else match wanted (cacheNode c) create k with
       | Some d => exists c' pos,
           _ski_getCacheData c k.1.1 k.1.2 k.2 create = Ok (c', Some pos) /\ found c c' k pos d
       | None => exists c',
           _ski_getCacheData c k.1.1 k.1.2 k.2 create = Ok (c', None) /\ not_found c c'
       end.
Proof.
  intros Hn Hk. pose proof Hk as [Hu _]. unfold _ski_getCacheData.
  rewrite asn_upper, asn_lower by done.
  destruct (node_step _ (k.1.1 / 2 ^ 16) create Hn) as (nodes & p & -> & Wn & Dn & Hp).
  destruct p as [i|].
  2: { destruct Hp as [-> Hp]. cbn [andb].
       assert (ski_data (cacheNode c) k = None) as Ed
         by (unfold ski_data, algo_datas, node_algos; by rewrite Hp).
       unfold wanted. rewrite Ed. eexists. split; [done|]. split; [done|done|].
       intros k'. unfold ski_data, algo_datas. cbn [cacheNode set_helper set_nodes].
       by rewrite Dn. }
  destruct Hp as (n & Hi & Hup). rewrite (arr_get_Some _ _ _ Hi). cbn [mbind outcome_bind].
  pose proof (node_algos_at _ _ _ _ Wn Hi Hup) as Ea. rewrite <- Ea.
  pose proof (node_algos_wf _ k.1.1 Wn) as Wa. rewrite Dn in Wa |- *.
  unfold head_above. destruct (create && _) eqn:Eh.
  { by rewrite getCacheAlgoID_walk, Eh. }
  destruct (algo_step _ _ _ _ Wa Eh) as (algos & q & -> & Wa' & Da & Hab & Hq).
  cbn [mbind outcome_bind]. destruct q as [j|].
  - destruct Hq as (a & Hj & Hal). rewrite (arr_get_Some _ _ _ Hj). cbn [mbind outcome_bind].
    destruct (getCacheData_last c nodes i n algos j a k create) as (datas & p & -> & H);
      [done..|]. specialize (H (match p with Some pos => mkHelper (Some i) 0 (Some j) (Some pos)
                                | None => empty_helper end)).
    destruct p as [pos|], (wanted _ create k); try done; eauto 6.
  - destruct Hq as [-> Hq].
    assert (ski_data (cacheNode c) k = None) as Ed
      by (unfold ski_data, algo_datas, datas_of; by rewrite Hq).
    unfold wanted. rewrite Ed. eexists. split; [done|].
    destruct (store_algos _ _ _ _ _ Wn Hi Hup Wa') as [Wn' Dn']. split; [done|done|].
    intros k'. unfold ski_data, algo_datas. cbn [cacheNode set_helper set_nodes].
    rewrite Dn'. case_decide as E; [|by rewrite Dn]. by rewrite Da, E.
Qed.

(** ** Update registrations of one key *)

(** How often update [id] is registered. *)
Definition ucount (l : list _SKI_CACHE_UPDATEID) (id : Z) : Z :=
  match sl_get u_updateID id l with Some u => u_counter u | None => 0 end.

Lemma uid_walk_cons id u l :
  uid_walk id (u :: l)
  = if negb (uid_cmp id (u_updateID u) =? 0) then
      if uid_cmp id (u_updateID u) <? 0 then
        match ___ski_createCacheUID id with
        | Some new => Ok (new :: u :: l)
        | None => Fault NullDeref
        end
      else match l with
           | [] => Ok (u :: option_list (___ski_createCacheUID id))
           | _ => l' ← uid_walk id l; Ok (u :: l')
           end
    else Ok (mkUID (u_updateID u) (u16 (u_counter u + 1)) :: l).
Proof. reflexivity. Qed.

(** Registering is find-or-insert with counter 0, then one more. *)
Definition bump (f : Z -> Z) (r : list _SKI_CACHE_UPDATEID * option nat)
    : list _SKI_CACHE_UPDATEID :=
  match r.2 with
  | Some i => match r.1 !! i with
              | Some u => <[i := mkUID (u_updateID u) (f (u_counter u))]> r.1
              | None => r.1
              end
  | None => r.1
  end.
Definition incr (x : Z) : Z := u16 (x + 1).

Lemma bump_cons f u l p : bump f (u :: l, option_map S p) = u :: bump f (l, p).
Proof.
  destruct p as [i|]; [|done]. unfold bump. simpl. by destruct (l !! i).
Qed.

Lemma uid_walk_bump id u l : id <> 0 ->
  uid_walk id (u :: l)
  = Ok (bump incr (sl_walk (cmp := uid_cmp) u_updateID true (mkUID id 0) id (u :: l))).
Proof.
  intros Hid. assert (___ski_createCacheUID id = Some (mkUID id 1)) as Hc
    by (unfold ___ski_createCacheUID; by rewrite (proj2 (Z.eqb_neq id 0))).
  revert u. induction l as [|v l IH]; intros u; rewrite uid_walk_cons, sl_walk_cons, Hc;
    destruct (Z.eqb_spec (uid_cmp id (u_updateID u)) 0) as [E|E];
    destruct (Z.ltb_spec (uid_cmp id (u_updateID u)) 0); cbn [negb]; try lia; try done.
  rewrite IH. cbn [mbind outcome_bind]. destruct (sl_walk _ _ _ _ (v :: l)) as [l' p].
  by rewrite bump_cons.
Qed.

Lemma ucount_0 l id : uids_wf l -> ucount l id = 0 <-> sl_get u_updateID id l = None.
Proof.
  intros [Hs Hf]. unfold ucount. destruct (sl_get u_updateID id l) as [u|] eqn:E; [|done].
  rewrite (sl_Forall u_updateID uid_ok l Hs) in Hf. destruct (Hf _ _ E). split; [lia|done].
Qed.

(** Registering update [id] once more. *)
Lemma uid_add_spec d id asn al :
  data_wf asn al d -> id <> 0 -> in_u 32 id -> ucount (cacheUID d) id < 2 ^ 16 - 1 ->
  exists l, __ski_addUpdateCacheUID d id = Ok (set_uids d l) /\ uids_wf l
    /\ forall id', ucount l id' = ucount (cacheUID d) id' + (if decide (id' = id) then 1 else 0).
Proof.
  intros (_ & _ & _ & Hs & Hf) Hid Hu Hc. set (l := cacheUID d) in *.
  exists (bump incr (sl_walk (cmp := uid_cmp) u_updateID true (mkUID id 0) id l)). split.
  { unfold __ski_addUpdateCacheUID. fold l. destruct l as [|u l'].
    - unfold ___ski_createCacheUID. by rewrite (proj2 (Z.eqb_neq id 0)).
    - by rewrite uid_walk_bump. }
  destruct (sl_walk_spec (cmp := uid_cmp) u_updateID true (mkUID id 0) id l Hu eq_refl Hs)
    as [W G P F _].
  destruct (sl_walk _ _ _ _ l) as [l' p]. cbn [fst snd] in *. unfold bump. cbn [fst snd].
  pose proof (G id) as Gid. rewrite decide_True in Gid by done.
  destruct p as [i|]; [|exfalso; destruct (proj2 F); [|done]; rewrite Gid; by destruct (sl_get _ id l)].
  simpl in P. set (u := match sl_get u_updateID id l with Some x => x | None => mkUID id 0 end).
  assert (sl_get u_updateID id l' = Some u) as Gu by (rewrite Gid; unfold u; by destruct (sl_get _ id l)).
  rewrite Gu in P. rewrite P. pose proof (sl_get_Some _ _ _ _ Gu) as [Eu _].
  assert (u_counter u = ucount l id) as Ec by (unfold u, ucount; by destruct (sl_get _ id l)).
  assert (0 <= ucount l id) as Hc0.
  { unfold ucount. destruct (sl_get _ id l) as [v|] eqn:E; [|done].
    rewrite (sl_Forall u_updateID uid_ok l Hs) in Hf. destruct (Hf _ _ E). lia. }
  assert (incr (u_counter u) = ucount l id + 1) as En
    by (unfold incr; rewrite Ec; apply wrap_small; unfold in_u; lia).
  set (v := mkUID (u_updateID u) (incr (u_counter u))).
  assert (forall k, sl_get u_updateID k (<[i := v]> l')
          = if decide (k = id) then Some v else sl_get u_updateID k l) as Gv.
  { intros k. rewrite (sl_get_insert u_updateID k l' i u v W P eq_refl), Eu.
    case_decide; [done|]. by rewrite G, decide_False. }
  split.
  - assert (sl_wf (cmp := uid_cmp) (valid := in_u 32) u_updateID (<[i := v]> l')) as Wv
      by (by eapply sl_wf_insert).
    split; [done|]. apply (sl_Forall u_updateID uid_ok _ Wv). intros k x. rewrite Gv. case_decide.
    + intros [= <-]. split; cbn [u_updateID u_counter v]; subst v; simpl; [congruence|lia].
    + exact (sl_get_Forall _ _ _ _ _ Hf).
  - intros id'. unfold ucount at 1. rewrite Gv. case_decide as E.
    + unfold v. cbn [u_counter]. rewrite E. lia.
    + unfold ucount. lia.
Qed.

(** Unregistering is a search, then one less or removal. *)
Lemma uid_unregister_cons id u l :
  uid_unregister id (u :: l)
  = if negb (uid_cmp id (u_updateID u) =? 0) then
      if 0 <? uid_cmp id (u_updateID u) then u :: uid_unregister id l else u :: l
    else if u16 (u_counter u - 1) =? 0 then l else mkUID (u_updateID u) (u16 (u_counter u - 1)) :: l.
Proof. reflexivity. Qed.

Definition drop_one (r : list _SKI_CACHE_UPDATEID * option nat) : list _SKI_CACHE_UPDATEID :=
  match r.2 with
  | Some i => match r.1 !! i with
              | Some u => let n := u16 (u_counter u - 1) in
                          if n =? 0 then delete i r.1 else <[i := mkUID (u_updateID u) n]> r.1
              | None => r.1
              end
  | None => r.1
  end.

Lemma uid_unregister_drop new id l :
  uid_unregister id l = drop_one (sl_walk (cmp := uid_cmp) u_updateID false new id l).
Proof.
  induction l as [|u l IH]; [done|]. rewrite uid_unregister_cons, sl_walk_cons, IH.
  destruct (Z.eqb_spec (uid_cmp id (u_updateID u)) 0) as [E|E];
    destruct (Z.ltb_spec (uid_cmp id (u_updateID u)) 0);
    destruct (Z.ltb_spec 0 (uid_cmp id (u_updateID u))); cbn [negb]; try lia; try done.
  destruct (sl_walk _ _ _ _ l) as [l' [i|]]; [|done]. unfold drop_one. simpl.
  destruct (l' !! i); [|done]. by destruct (_ =? 0).
Qed.

Lemma uid_unregister_spec l id :
  uids_wf l -> in_u 32 id ->
  uids_wf (uid_unregister id l)
  /\ forall id', ucount (uid_unregister id l) id'
       = if decide (id' = id) then Z.max 0 (ucount l id - 1) else ucount l id'.
Proof.
  intros [Hs Hf] Hu. rewrite (uid_unregister_drop (mkUID id 0)).
  destruct (sl_walk_find (cmp := uid_cmp) u_updateID (mkUID id 0) id l Hu eq_refl Hs)
    as (p & -> & P & F). unfold drop_one. cbn [fst snd].
  destruct p as [i|]; simpl in P.
  2: { assert (ucount l id = 0) as E0.
       { unfold ucount. destruct (sl_get _ id l) eqn:E; [|done]. by destruct (proj2 F). }
       split; [done|]. intros id'. case_decide; subst; lia. }
  destruct (proj1 F) as [u Gu]; [done|]. rewrite Gu in P. rewrite P.
  pose proof (sl_get_Some _ _ _ _ Gu) as [Eu _].
  assert (uid_ok u) as [Hn Hc] by exact (sl_get_Forall _ _ _ _ _ Hf Gu).
  assert (ucount l id = u_counter u) as Ec by (unfold ucount; by rewrite Gu).
  rewrite wrap_small by (unfold in_u; lia). destruct (Z.eqb_spec (u_counter u - 1) 0) as [E1|E1].
  - split; [split; [by apply sl_wf_delete|by apply Forall_delete]|].
    intros id'. unfold ucount at 1. rewrite (sl_get_delete u_updateID id' l i u Hs P), Eu.
    case_decide; [lia|done].
  - set (v := mkUID (u_updateID u) (u_counter u - 1)).
    split; [split; [by eapply sl_wf_insert|]|].
    + apply Forall_insert; [done|]. split; subst v; simpl; [done|lia].
    + intros id'. unfold ucount at 1.
      rewrite (sl_get_insert u_updateID id' l i u v Hs P eq_refl), Eu.
      case_decide; [subst v; simpl; lia|done].
Qed.

(** An empty registration list is one without registered updates. *)
Lemma ucount_nil l : uids_wf l -> l = [] <-> forall id, ucount l id = 0.
Proof.
  intros Hw. split; [by intros ->|]. intros H. destruct l as [|u l]; [done|].
  specialize (H (u_updateID u)). apply ucount_0 in H; [|done]. simpl in H.
  by rewrite decide_True in H.
Qed.

End SkiCacheLemmas.
