(* ===== verification/SkiRegister.v ===== *)
(** * The SKI cache: registering keys and updates

    The content of the cache as two counters, the number of keys received for a
    router key and the number of registrations of an update for it, and what
    the interface functions do to them. *)
From S2P Require Import Prelude Locks SrxDefs SrxIdentifier RpkiQueue BgpsecPath.
From S2P Require Import Lists UpdateCache SkiCache SkiCacheLemmas.
Import RpkiQueue BgpsecPath SkiCache SkiCacheLemmas.

Module SkiRegister.

(** ** The abstract content *)
Definition key_count (c : _SKI_CACHE) (k : rkey) : Z :=
  match ski_data (cacheNode c) k with Some d => d_counter d | None => 0 end.
Definition uid_count (c : _SKI_CACHE) (k : rkey) (id : Z) : Z :=
  match ski_data (cacheNode c) k with Some d => ucount (cacheUID d) id | None => 0 end.
(** The updates registered for a key, in list order. *)
Definition uids (c : _SKI_CACHE) (k : rkey) : list Z :=
  match ski_data (cacheNode c) k with Some d => u_updateID <$> cacheUID d | None => [] end.

(** How often a key occurs in a path. *)
Definition occ (k : rkey) (keys : list rkey) : Z := Z.of_nat (length (filter (eq k) keys)).

Lemma occ_cons k k' keys : occ k (k' :: keys) = (if decide (k = k') then 1 else 0) + occ k keys.
Proof. unfold occ. rewrite filter_cons. case_decide; simpl; lia. Qed.

Lemma occ_nonneg k keys : 0 <= occ k keys.
Proof. unfold occ. lia. Qed.

(** ** Stores through the helper *)
Lemma same_rest_trans c1 c2 c3 : same_rest c1 c2 -> same_rest c2 c3 -> same_rest c1 c3.
Proof. intros [] []. split; congruence. Qed.

(** The state after the data of key [k] was set to [r]. *)
Record stored (c c' : _SKI_CACHE) (k : rkey) (r : option _SKI_CACHE_DATA) : Prop := {
  st_wf : nodes_wf (cacheNode c');
  st_rest : same_rest c c';
  st_data k' : ski_data (cacheNode c') k' = if decide (k' = k) then r else ski_data (cacheNode c) k';
  st_head asn : head_above (cacheNode c) asn k.2 = false -> head_above (cacheNode c') asn k.2 = false
}.

Lemma store_list c c' k pos d datas r :
  rkey_wf k -> found c c' k pos d -> datas_wf k.1.1 k.2 datas ->
  (forall s, sl_get d_ski s datas
             = if decide (s = k.1.2) then r else sl_get d_ski s (algo_datas (cacheNode c') k.1.1 k.2)) ->
  exists c'', helper_store c' k.1.1 datas = Ok c'' /\ stored c c'' k r.
Proof.
  intros [Hu _] [Hw Hr Hh Hp Hd Hf Ha] Hdw Hg.
  destruct (helper_store_spec c' _ _ _ Hu Hw Hh Hdw) as (c'' & -> & Hw' & Hr' & _ & Hh' & Hs).
  exists c''. split; [done|]. split; [done|by eapply same_rest_trans| |].
  - intros k'. unfold ski_data at 1. rewrite Hs. destruct (decide (k' = k)) as [->|Hne].
    + by rewrite decide_True, Hg, decide_True.
    + rewrite <- Hf by done. unfold ski_data. case_decide as E; [|done]. destruct E as [E1 E2].
      rewrite Hg, decide_False, E1, E2; [done|]. intros E3. apply Hne.
      destruct k as [[??]?], k' as [[??]?]. simpl in *. congruence.
  - intros asn Hb. rewrite Hh'. auto.
Qed.

Lemma store_at c c' k pos d d' :
  rkey_wf k -> found c c' k pos d -> data_wf k.1.1 k.2 d' -> d_ski d' = k.1.2 ->
  exists c'', helper_store c' k.1.1 (<[pos := d']> (algo_datas (cacheNode c') k.1.1 k.2)) = Ok c''
    /\ stored c c'' k (Some d').
Proof.
  intros Hk Hfd Hd' Hs. pose proof Hfd as [Hw Hr Hh Hp Hd Hf Ha].
  pose proof (datas_of_wf _ k.2 _ (node_algos_wf _ k.1.1 Hw)) as [Hsl Hfo].
  assert (d_ski d = k.1.2) as Ed by (by apply sl_get_Some in Hd as [? _]).
  apply (store_list c c' k pos d); [done..| |].
  - split; [eapply sl_wf_insert; [done|exact Hp|congruence]|by apply Forall_insert].
  - intros s. unfold algo_datas. rewrite (sl_get_insert d_ski s _ pos d d' Hsl Hp) by congruence.
    by rewrite Ed.
Qed.

Lemma delete_at c c' k pos d :
  rkey_wf k -> found c c' k pos d ->
  exists c'', helper_store c' k.1.1 (delete pos (algo_datas (cacheNode c') k.1.1 k.2)) = Ok c''
    /\ stored c c'' k None.
Proof.
  intros Hk Hfd. pose proof Hfd as [Hw Hr Hh Hp Hd Hf Ha].
  pose proof (datas_of_wf _ k.2 _ (node_algos_wf _ k.1.1 Hw)) as [Hsl Hfo].
  assert (d_ski d = k.1.2) as Ed by (by apply sl_get_Some in Hd as [? _]).
  apply (store_list c c' k pos d); [done..| |].
  - split; [by apply sl_wf_delete|by apply Forall_delete].
  - intros s. unfold algo_datas. by rewrite (sl_get_delete d_ski s _ pos d Hsl Hp), Ed.
Qed.

(** The data list and element a successful search leaves behind. *)
Lemma found_get c c' k pos d :
  rkey_wf k -> found c c' k pos d ->
  helper_datas c' k.1.1 = Ok (algo_datas (cacheNode c') k.1.1 k.2)
  /\ arr_get (algo_datas (cacheNode c') k.1.1 k.2) pos = Ok d
  /\ data_wf k.1.1 k.2 d /\ d_ski d = k.1.2.
Proof.
  intros [Hu _] [Hw Hr Hh Hp Hd Hf Ha]. split_and!.
  - by apply helper_datas_spec.
  - by apply arr_get_Some.
  - by eapply ski_data_wf.
  - by eapply ski_data_wf.
Qed.

Lemma new_data_wf asn ski al : data_wf asn al (___ski_createCacheData asn ski al).
Proof. split_and!; try done. split; [apply sl_wf_nil|constructor]. Qed.

Lemma set_uids_wf asn al d l : data_wf asn al d -> uids_wf l -> data_wf asn al (set_uids d l).
Proof. intros (?&?&?&?) ?. done. Qed.
Lemma set_counter_wf asn al d n : data_wf asn al d -> in_u 8 n -> data_wf asn al (set_counter d n).
Proof. intros (?&?&?&?) ?. done. Qed.

(** ** One key of an update *)

(** A change of the content that touches no key counter. *)
Record uids_changed (c c' : _SKI_CACHE) (al : Z) (f : rkey -> Z -> Z) : Prop := {
  uc_wf : nodes_wf (cacheNode c');
  uc_rest : same_rest c c';
  uc_key k : key_count c' k = key_count c k;
  uc_uid k id : uid_count c' k id = f k id;
  uc_head asn : head_above (cacheNode c) asn al = false -> head_above (cacheNode c') asn al = false
}.

Lemma register_one_spec c id k :
  nodes_wf (cacheNode c) -> rkey_wf k -> head_above (cacheNode c) k.1.1 k.2 = false ->
  id <> 0 -> in_u 32 id -> uid_count c k id < 2 ^ 16 - 1 ->
  exists c', register_one c id k.1.1 k.1.2 k.2 = Ok c'
    /\ uids_changed c c' k.2 (fun k' id' =>
         uid_count c k' id' + if decide (k' = k /\ id' = id) then 1 else 0).
Proof.
  intros Hw Hk Hh Hid Hu Hc. pose proof (getCacheData_spec c k true Hw Hk) as H.
  rewrite Hh in H. cbn [andb] in H. unfold register_one.
  assert (exists d, wanted (cacheNode c) true k = Some d /\ data_wf k.1.1 k.2 d
          /\ d_counter d = key_count c k /\ (forall i, ucount (cacheUID d) i = uid_count c k i))
    as (d & Ed & Hdw & Hkc & Huc).
  { unfold wanted, key_count, uid_count. destruct (ski_data (cacheNode c) k) as [d|] eqn:E.
    - exists d. by destruct (ski_data_wf _ _ _ Hw E).
    - eexists. split; [done|]. split; [apply new_data_wf|done]. }
  rewrite Ed in H. destruct H as (c' & pos & -> & Hfd). cbn [mbind outcome_bind].
  destruct (found_get _ _ _ _ _ Hk Hfd) as (-> & Ea & _ & Hs). cbn [mbind outcome_bind].
  rewrite Ea. cbn [mbind outcome_bind].
  destruct (uid_add_spec d id _ _ Hdw Hid Hu) as (l & -> & Hl & Hcl); [by rewrite Huc|].
  cbn [mbind outcome_bind].
  destruct (store_at c c' k pos d (set_uids d l) Hk Hfd) as (c'' & -> & Hst);
    [by apply set_uids_wf|done|].
  exists c''. split; [done|]. destruct Hst as [S1 S2 S3 S4]. split; [done|done| | |done].
  - intros k'. unfold key_count at 1. rewrite S3. by case_decide as E; [rewrite E|].
  - intros k' id'. unfold uid_count at 1. rewrite S3. destruct (decide (k' = k)) as [->|].
    + cbn [cacheUID set_uids]. rewrite Hcl, Huc. repeat case_decide; tauto.
    + rewrite decide_False by tauto. unfold uid_count. lia.
Qed.

Lemma unregister_one_spec c id k :
  nodes_wf (cacheNode c) -> rkey_wf k -> in_u 32 id ->
  exists c', unregister_one c id k.1.1 k.1.2 k.2 = Ok c'
    /\ nodes_wf (cacheNode c') /\ same_rest c c'
    /\ (forall k', key_count c' k' = key_count c k')
    /\ (forall k' id', uid_count c' k' id'
        = if decide (k' = k /\ id' = id) then Z.max 0 (uid_count c k id - 1) else uid_count c k' id').
Proof.
  intros Hw Hk Hu. pose proof (getCacheData_spec c k false Hw Hk) as H. cbn [andb] in H.
  unfold unregister_one. unfold wanted in H. destruct (ski_data (cacheNode c) k) as [d|] eqn:Ed.
  2: { destruct H as (c' & -> & [N1 N2 N3]). cbn [mbind outcome_bind]. exists c'.
       unfold key_count, uid_count. split_and!; try done; intros; rewrite N3; [done|].
       case_decide as E; [|done]. destruct E as [-> _]. by rewrite Ed. }
  destruct H as (c' & pos & -> & Hfd). cbn [mbind outcome_bind].
  destruct (found_get _ _ _ _ _ Hk Hfd) as (-> & Ea & Hdw & Hs). cbn [mbind outcome_bind].
  rewrite Ea. cbn [mbind outcome_bind].
  pose proof Hdw as (_ & _ & _ & Hud).
  destruct (uid_unregister_spec _ id Hud Hu) as [Hl Hcl]. set (l := uid_unregister id _) in *.
  assert (exists c'' r, stored c c'' k r
    /\ match r with Some d' => d_counter d' = d_counter d /\ cacheUID d' = l
                  | None => d_counter d = 0 /\ l = [] end
    /\ exists h, match l with
       | [] => if d_counter d =? 0
               then c0 ← helper_store c' k.1.1 (delete pos (algo_datas (cacheNode c') k.1.1 k.2));
                    let h := tmpHelper c0 in
                    Ok (set_helper c0 (mkHelper (h_cNode h) (h_as2 h) (h_cAlgoID h) None))
               else helper_store c' k.1.1
                      (<[pos := set_uids d l]> (algo_datas (cacheNode c') k.1.1 k.2))
       | _ => helper_store c' k.1.1
                (<[pos := set_uids d l]> (algo_datas (cacheNode c') k.1.1 k.2))
       end = Ok (set_helper c'' h)) as (c'' & r & Hst & Hr & h & Hrun).
  { destruct (store_at c c' k pos d (set_uids d l) Hk Hfd) as (c1 & E1 & S1);
      [by apply set_uids_wf|done|].
    destruct (delete_at c c' k pos d Hk Hfd) as (c2 & E2 & S2). rewrite E1, E2.
    destruct l as [|u l'] eqn:El, (Z.eqb_spec (d_counter d) 0).
    - exists c2, None. cbn [mbind outcome_bind]. eauto.
    - exists c1, (Some (set_uids d [])). split_and!; try done. exists (tmpHelper c1). by destruct c1.
    - exists c1, (Some (set_uids d (u :: l'))). split_and!; try done. exists (tmpHelper c1).
      by destruct c1.
    - exists c1, (Some (set_uids d (u :: l'))). split_and!; try done. exists (tmpHelper c1).
      by destruct c1. }
  eexists. split; [exact Hrun|].
  destruct Hst as [S1 S2 S3 _]. split_and!; [done|done| |].
  - intros k'. unfold key_count. cbn [cacheNode set_helper]. rewrite S3. case_decide; [|done].
    subst. rewrite Ed. destruct r; naive_solver.
  - intros k' id'. unfold uid_count. cbn [cacheNode set_helper]. rewrite S3.
    destruct (decide (k' = k)) as [->|]; [|by rewrite decide_False by tauto]. rewrite Ed.
    specialize (Hcl id'). destruct r as [d'|]; destruct Hr as [R1 R2]; rewrite ?R2 in *.
    + rewrite Hcl. repeat case_decide; tauto.
    + change (ucount [] id') with 0 in Hcl.
      destruct (decide (id' = id)); case_decide; tauto || lia.
Qed.

(** ** All keys of a path *)
Fixpoint register_keys (c : _SKI_CACHE) (id : Z) (keys : list rkey) : outcome _SKI_CACHE :=
  match keys with
  | [] => Ok c
  | k :: keys => c ← register_one c id k.1.1 k.1.2 k.2; register_keys c id keys
  end.
Fixpoint unregister_keys (c : _SKI_CACHE) (id : Z) (keys : list rkey) : outcome _SKI_CACHE :=
  match keys with
  | [] => Ok c
  | k :: keys => c ← unregister_one c id k.1.1 k.1.2 k.2; unregister_keys c id keys
  end.

(** The key the loop of [ski_registerUpdate] takes for segment [i] of block
    [sb]. *)
Definition seg_key (asns skis : list Z) (al : Z) (sb i : nat) : rkey :=
  (asns !!! i, take SKI_LENGTH (drop (i * SKI_LENGTH + i * SKI_LENGTH * sb) skis), al).

Lemma register_segments_keys n c id al sb i asns skis :
  (i + n <= length asns)%nat -> ((i + n) * SKI_LENGTH * (1 + sb) <= length skis)%nat ->
  register_segments n c id al sb i asns skis
  = register_keys c id (seg_key asns skis al sb <$> seq i n).
Proof.
  revert c i. induction n as [|n IH]; intros c i Ha Hs; [done|].
  cbn [register_segments seq fmap list_fmap register_keys]. rewrite arr_get_Ok by lia.
  cbn [mbind outcome_bind]. unfold read_bytes. rewrite decide_True by (unfold SKI_LENGTH in *; nia).
  cbn [mbind outcome_bind fst snd seg_key].
  destruct (register_one c id _ _ al) as [c1|]; cbn [mbind outcome_bind]; [|done]. apply IH; nia.
Qed.

Lemma unregister_segments_keys n c id al i asns skis :
  (i + n <= length asns)%nat -> ((i + n) * SKI_LENGTH <= length skis)%nat ->
  unregister_segments n c id al i (i * SKI_LENGTH) asns skis
  = unregister_keys c id (seg_key asns skis al 0 <$> seq i n).
Proof.
  revert c i. induction n as [|n IH]; intros c i Ha Hs; [done|].
  cbn [unregister_segments seq fmap list_fmap unregister_keys]. rewrite arr_get_Ok by lia.
  cbn [mbind outcome_bind]. unfold read_bytes. rewrite decide_True by (unfold SKI_LENGTH in *; lia).
  cbn [mbind outcome_bind fst snd seg_key]. rewrite Nat.mul_0_r, Nat.add_0_r.
  destruct (unregister_one c id _ _ al) as [c1|]; cbn [mbind outcome_bind]; [|done].
  replace (i * SKI_LENGTH + SKI_LENGTH)%nat with (S i * SKI_LENGTH)%nat by lia. apply IH; lia.
Qed.

(** Every registration may still be counted. *)
Definition room (c : _SKI_CACHE) (id : Z) (keys : list rkey) : Prop :=
  forall k, k ∈ keys -> uid_count c k id + occ k keys < 2 ^ 16.
(** No list of algorithms of the path starts above [al]. *)
Definition no_smaller_algo (c : _SKI_CACHE) (al : Z) (keys : list rkey) : Prop :=
  forall k, k ∈ keys -> k.2 = al /\ head_above (cacheNode c) k.1.1 al = false.

Lemma register_keys_spec id al keys c :
  nodes_wf (cacheNode c) -> Forall rkey_wf keys -> no_smaller_algo c al keys ->
  id <> 0 -> in_u 32 id -> room c id keys ->
  exists c', register_keys c id keys = Ok c'
    /\ uids_changed c c' al (fun k id' => uid_count c k id' + if decide (id' = id) then occ k keys else 0).
Proof.
  intros Hw Hk. revert c Hw. induction Hk as [|k keys Hk _ IH]; intros c Hw Ha Hid Hu Hr.
  { exists c. split; [done|]. split; try done. intros. unfold occ. simpl. case_decide; lia. }
  destruct (Ha k) as [Ek Hh]; [by left|]. rewrite <- Ek in Hh.
  destruct (register_one_spec c id k Hw Hk Hh Hid Hu) as (c1 & E1 & [U1 U2 U3 U4 U5]).
  { assert (k ∈ k :: keys) as Hin by left. specialize (Hr k Hin).
    rewrite occ_cons, decide_True in Hr by done. pose proof (occ_nonneg k keys). lia. }
  rewrite Ek in U5. cbn [register_keys]. rewrite E1. cbn [mbind outcome_bind].
  destruct (IH c1) as (c2 & -> & [V1 V2 V3 V4 V5]); [done| |done|done| |].
  - intros k' Hk'. destruct (Ha k') as [? ?]; [by right|]. split; [done|]. auto.
  - intros k' Hk'. rewrite U4. assert (k' ∈ k :: keys) as Hin by (by right).
    specialize (Hr k' Hin). rewrite occ_cons in Hr.
    repeat case_decide; try tauto; lia.
  - exists c2. split; [done|]. split; [done|by eapply same_rest_trans|congruence| |auto].
    intros k' id'. rewrite V4, U4, occ_cons. repeat case_decide; try tauto; lia.
Qed.

Lemma unregister_keys_spec id keys c :
  nodes_wf (cacheNode c) -> Forall rkey_wf keys -> in_u 32 id ->
  (forall k, 0 <= uid_count c k id) ->
  exists c', unregister_keys c id keys = Ok c' /\ nodes_wf (cacheNode c') /\ same_rest c c'
    /\ (forall k, key_count c' k = key_count c k)
    /\ forall k id', uid_count c' k id'
         = if decide (id' = id) then Z.max 0 (uid_count c k id - occ k keys) else uid_count c k id'.
Proof.
  intros Hw Hk Hu. revert c Hw. induction Hk as [|k keys Hk _ IH]; intros c Hw Hp.
  { exists c. split_and!; try done. intros k id'. case_decide; [|done]. subst.
    unfold occ. simpl. specialize (Hp k). lia. }
  destruct (unregister_one_spec c id k Hw Hk Hu) as (c1 & E1 & U1 & U2 & U3 & U4).
  cbn [unregister_keys]. rewrite E1. cbn [mbind outcome_bind].
  destruct (IH c1 U1) as (c2 & -> & V1 & V2 & V3 & V4).
  { intros k'. rewrite U4. case_decide; [lia|done]. }
  exists c2. split_and!; [done|done|by eapply same_rest_trans|congruence|].
  intros k' id'. rewrite V4, !U4, occ_cons. pose proof (occ_nonneg k' keys).
  destruct (decide (id' = id)) as [->|], (decide (k' = k)) as [->|];
    rewrite ?(decide_True (P := _ /\ _)), ?(decide_False (P := _ /\ _)) by tauto; lia.
Qed.

(** Reading one count off the invariant. *)
Lemma uid_count_nonneg c k id : nodes_wf (cacheNode c) -> 0 <= uid_count c k id < 2 ^ 16.
Proof.
  intros Hw. unfold uid_count. destruct (ski_data (cacheNode c) k) as [d|] eqn:E; [|lia].
  destruct (ski_data_wf _ _ _ Hw E) as [(_ & _ & _ & Hs & Hf) _]. unfold ucount.
  destruct (sl_get u_updateID id (cacheUID d)) as [u|] eqn:Eu; [|lia].
  destruct (sl_get_Forall _ _ _ _ _ Hf Eu). lia.
Qed.

(** ** The interface *)

(** A cache between two operations. *)
Definition idle (c : _SKI_CACHE) : Prop := semaphore c = 1 /\ nodes_wf (cacheNode c).

(** The router keys of a path with one signature block. *)
Definition block_keys (segs : list segment) (b : sig_block) : list rkey :=
  zip_with (fun s g => (sg_asn s, ss_ski g, sb_algo b)) segs (sb_sigs b).

(** A BGPsec_PATH attribute with one signature block. *)
Record path_ok (ext : bool) (segs : list segment) (b : sig_block) : Prop := {
  po_segs : segs <> [];
  po_block : block_wf (length segs) b;
  po_asns : Forall (fun s => in_u 32 (sg_asn s)) segs;
  po_len : Z.of_nat (length (enc_body segs [b])) < 2 ^ (if ext then 16 else 8)
}.

Lemma ski_lock_idle c : idle c -> _ski_lock c = Ok (set_sem c 0).
Proof. intros [Hs _]. unfold _ski_lock. by rewrite Hs. Qed.

Lemma length_skis sigs :
  Forall (fun g => length (ss_ski g) = SKI_LENGTH) sigs ->
  length (sigs ≫= ss_ski) = (length sigs * SKI_LENGTH)%nat.
Proof.
  induction 1 as [|g sigs Hg _ IH]; [done|]. rewrite bind_cons, length_app, Hg, IH.
  unfold SKI_LENGTH. simpl. lia.
Qed.

Lemma seg_keys_block segs sigs al :
  length sigs = length segs -> Forall (fun g => length (ss_ski g) = SKI_LENGTH) sigs ->
  seg_key (sg_asn <$> segs) (sigs ≫= ss_ski) al 0 <$> seq 0 (length segs)
  = zip_with (fun s g => (sg_asn s, ss_ski g, al)) segs sigs.
Proof.
  intros Hl Hs. revert segs Hl. induction Hs as [|g sigs Hg _ IH]; intros [|s segs] Hl; try done.
  cbn [length seq fmap list_fmap zip_with]. f_equal.
  - unfold seg_key. rewrite bind_cons. cbn [lookup_total list_lookup_total].
    change (0 * SKI_LENGTH + 0 * SKI_LENGTH * 0)%nat with 0%nat. rewrite drop_0, <- Hg.
    by rewrite take_app_length.
  - rewrite <- IH by (simpl in Hl; lia). rewrite <- fmap_S_seq, <- list_fmap_compose.
    apply list_fmap_ext. intros _ i _. unfold compose, seg_key. rewrite bind_cons, !Nat.mul_0_r, !Nat.add_0_r.
    f_equal. f_equal. f_equal.
    change (S i * SKI_LENGTH)%nat with (SKI_LENGTH + i * SKI_LENGTH)%nat.
    by rewrite <- Hg, drop_app_add.
Qed.

Section one_block.
Context (ext : bool) (segs : list segment) (b : sig_block) (l : list Z) (id : Z).
Context (Hpath : path_ok ext segs b) (Hid : id <> 0) (Hid32 : in_u 32 id).
Let attr := enc_attr ext segs [b] ++ l.
Let keys := block_keys segs b.

Lemma path_skis : Forall (fun g => length (ss_ski g) = SKI_LENGTH) (sb_sigs b).
Proof.
  destruct Hpath as [_ [_ Hb] _ _]. eapply Forall_impl; [exact Hb|]. by intros g [? _].
Qed.

Lemma path_keys_wf : Forall rkey_wf keys.
Proof.
  pose proof path_skis as Hs. destruct Hpath as [_ [Hl _] Ha _]. subst keys. unfold block_keys.
  apply Forall_lookup. intros i k (s & g & -> & H1 & H2)%lookup_zip_with_Some.
  split; cbn [fst snd]; [by eapply Forall_lookup_1 in Ha|by eapply Forall_lookup_1 in Hs].
Qed.

Lemma path_parse info :
  _ski_parseBGPsec_PATH info (Some attr)
  = Ok (mkUpdInfo REGVAL_INVALID (Z.of_nat (length segs)) 1
          (Some (sg_asn <$> segs)) [sb_algo b; 0] (Some (sb_sigs b ≫= ss_ski))).
Proof.
  destruct Hpath as [H1 H2 H3 H4]. subst attr. rewrite parse_encoded; [done..| | |done];
    [simpl; lia|by constructor].
Qed.

Lemma registerUpdate_eq c :
  idle c -> no_smaller_algo c (sb_algo b) keys -> room c id keys ->
  exists c', ski_registerUpdate (Some c) id (Some attr) = Ok (Some c', REGVAL_INVALID) /\ idle c'
    /\ (forall k, key_count c' k = key_count c k)
    /\ forall k id', uid_count c' k id'
         = uid_count c k id' + if decide (id' = id) then occ k keys else 0.
Proof.
  intros Hc Ha Hr. pose proof Hc as [_ Hn]. pose proof path_skis as Hs.
  pose proof Hpath as [_ [Hl _] _ _]. unfold ski_registerUpdate.
  rewrite ski_lock_idle by done. cbn [mbind outcome_bind]. rewrite path_parse.
  cbn [mbind outcome_bind status nrSigBlocks nrSegments algoID asn ski arr].
  change (Z.to_nat 1) with 1%nat. rewrite Nat2Z.id. cbn [negb REGVAL_INVALID REGVAL_ERROR Z.eqb].
  cbn [register_blocks arr_get lookup list_lookup mbind outcome_bind].
  rewrite register_segments_keys; [|by rewrite length_fmap|rewrite length_skis by done; lia].
  rewrite seg_keys_block by done. fold (block_keys segs b). fold keys.
  destruct (register_keys_spec id (sb_algo b) keys (set_info (set_sem c 0)
     (mkUpdInfo REGVAL_INVALID (Z.of_nat (length segs)) 1 (Some (sg_asn <$> segs)) [sb_algo b; 0]
        (Some (sb_sigs b ≫= ss_ski))))) as (c' & -> & [U1 [U2 U2'] U3 U4 _]);
    [done|apply path_keys_wf|done..|].
  cbn [mbind outcome_bind]. eexists. split; [done|]. unfold _ski_unlock.
  cbn [semaphore set_info]. rewrite U2'. cbn [semaphore set_info set_sem Z.eqb].
  split; [done|]. split; [exact U3|exact U4].
Qed.

Lemma unregisterUpdate_eq c :
  idle c ->
  exists c', ski_unregisterUpdate (Some c) id (Some attr) = Ok (Some c', true) /\ idle c'
    /\ (forall k, key_count c' k = key_count c k)
    /\ forall k id', uid_count c' k id'
         = if decide (id' = id) then Z.max 0 (uid_count c k id - occ k keys) else uid_count c k id'.
Proof.
  intros Hc. pose proof Hc as [_ Hn]. pose proof path_skis as Hs.
  pose proof Hpath as [_ [Hl _] _ _]. unfold ski_unregisterUpdate.
  rewrite ski_lock_idle by done. cbn [mbind outcome_bind]. rewrite path_parse.
  cbn [mbind outcome_bind status nrSigBlocks nrSegments algoID asn ski arr].
  change (Z.to_nat 1) with 1%nat. rewrite Nat2Z.id. cbn [negb REGVAL_INVALID REGVAL_ERROR Z.eqb].
  cbn [unregister_blocks arr_get lookup list_lookup mbind outcome_bind].
  pose proof (unregister_segments_keys (length segs)) as Hk.
  specialize (fun c id al => Hk c id al 0%nat). cbn [Nat.mul] in Hk.
  rewrite Hk; [|by rewrite length_fmap|rewrite length_skis by done; lia]. clear Hk.
  rewrite seg_keys_block by done. fold (block_keys segs b). fold keys.
  destruct (unregister_keys_spec id keys (set_info (set_sem c 0)
     (mkUpdInfo REGVAL_INVALID (Z.of_nat (length segs)) 1 (Some (sg_asn <$> segs)) [sb_algo b; 0]
        (Some (sb_sigs b ≫= ss_ski))))) as (c' & -> & U1 & [U2 U2'] & U3 & U4);
    [done|apply path_keys_wf|done| |].
  { intros k. apply uid_count_nonneg. done. }
  cbn [mbind outcome_bind]. eexists. split; [done|]. unfold _ski_unlock.
  cbn [semaphore set_info]. rewrite U2'. cbn [semaphore set_info set_sem Z.eqb].
  split; [done|]. split; [exact U3|exact U4].
Qed.
End one_block.

(** Registering a BGPsec update with one signature block adds, for every
    router key of its path, one registration of the update per occurrence of
    the key, and changes no other registration and no key counter.  The result
    is [REGVAL_INVALID] whether or not the keys are known: the documented
    [REGVAL_UNKNOWN] is never returned. *)
Theorem ski_registerUpdate_correct ext segs b l id c :
  path_ok ext segs b -> id <> 0 -> in_u 32 id -> idle c ->
  no_smaller_algo c (sb_algo b) (block_keys segs b) -> room c id (block_keys segs b) ->
  exists c', ski_registerUpdate (Some c) id (Some (enc_attr ext segs [b] ++ l))
             = Ok (Some c', REGVAL_INVALID)
    /\ idle c' /\ (forall k, key_count c' k = key_count c k)
    /\ forall k id', uid_count c' k id'
         = uid_count c k id' + if decide (id' = id) then occ k (block_keys segs b) else 0.
Proof. intros. by apply registerUpdate_eq. Qed.

(** Unregistering an update that was registered restores every counter of
    the cache, whatever else the path's keys are registered for. *)
Theorem ski_register_unregister ext segs b l id c :
  path_ok ext segs b -> id <> 0 -> in_u 32 id -> idle c ->
  no_smaller_algo c (sb_algo b) (block_keys segs b) -> room c id (block_keys segs b) ->
  let attr := Some (enc_attr ext segs [b] ++ l) in
  exists c1 r c2, ski_registerUpdate (Some c) id attr = Ok (Some c1, r)
    /\ ski_unregisterUpdate (Some c1) id attr = Ok (Some c2, true) /\ idle c2
    /\ (forall k, key_count c2 k = key_count c k)
    /\ (forall k id', uid_count c2 k id' = uid_count c k id').
Proof.
  intros Hp Hid Hu Hc Ha Hr attr.
  destruct (registerUpdate_eq ext segs b l id Hp Hid Hu c Hc Ha Hr) as (c1 & E1 & I1 & K1 & U1).
  destruct (unregisterUpdate_eq ext segs b l id Hp Hu c1 I1) as (c2 & E2 & I2 & K2 & U2).
  exists c1, REGVAL_INVALID, c2. do 3 (split; [done|]).
  split; [congruence|].
  intros k id'. rewrite U2. case_decide as E; [|by rewrite U1, decide_False, Z.add_0_r].
  subst id'. rewrite U1, decide_True by done. destruct Hc as [_ Hc].
  pose proof (uid_count_nonneg c k id Hc). lia.
Qed.

(** The router keys the inner loop of [ski_registerUpdate] takes for block
    [sb] of a path are those of the SKIs number [i * (sb + 1)] of the SKI array.
    For the first block these are its SKIs; for a second block the code reads
    SKI number [2 i] where SKI number [n + i] belongs to the segment, so keys of
    the first block are registered under the algorithm of the second. *)
Theorem register_segments_offsets n c id al sb asns skis :
  length asns = n -> length skis = ((1 + sb) * n * SKI_LENGTH)%nat ->
  let skiNo j := take SKI_LENGTH (drop (j * SKI_LENGTH) skis) in
  register_segments n c id al sb 0 asns skis
  = register_keys c id ((fun i => (asns !!! i, skiNo (i * (sb + 1))%nat, al)) <$> seq 0 n).
Proof.
  intros Ha Hs skiNo. rewrite register_segments_keys by nia. f_equal.
  apply list_fmap_ext. intros _ i _. unfold seg_key, skiNo.
  by replace (i * SKI_LENGTH + i * SKI_LENGTH * sb)%nat with (i * (sb + 1) * SKI_LENGTH)%nat by nia.
Qed.

(** ** Keys *)

(** Leaving the critical section. *)
Lemma ski_unlock_idle c :
  semaphore c = 0 -> nodes_wf (cacheNode c) ->
  idle (_ski_unlock c) /\ cacheNode (_ski_unlock c) = cacheNode c.
Proof. intros Hs Hn. unfold _ski_unlock. rewrite Hs. done. Qed.

(** A search that finds existing data changes nothing. *)
Lemma found_same c c' k pos d :
  found c c' k pos d -> ski_data (cacheNode c) k = Some d ->
  forall k', ski_data (cacheNode c') k' = ski_data (cacheNode c) k'.
Proof.
  intros [_ _ _ _ Hd Hf _] E k'. destruct (decide (k' = k)) as [->|]; [congruence|auto].
Qed.

Lemma notify_spec q l :
  rq_wf q -> Forall (fun u => in_u 32 (u_updateID u)) l ->
  Z.of_nat (length (elems q) + length l) < 2 ^ 32 - 1 ->
  exists q', notify (Some q) l = Ok (Some q') /\ rq_wf q'
    /\ forall id, queued (elems q') id
         = if decide (id ∈ u_updateID <$> l)
           then Some (from_option (fun old => merge_reason old RQ_KEY) RQ_KEY (queued (elems q) id))
           else queued (elems q) id.
Proof.
  intros Hw Hl. revert q Hw. induction Hl as [|u l Hu _ IH]; intros q Hw Hlen.
  { exists q. split_and!; try done. }
  cbn [notify]. rewrite rq_queue_eq by done. cbn [mbind outcome_bind]. cbn [length] in Hlen.
  set (q1 := mkQueue _ _ _).
  assert (length (elems q1) <= S (length (elems q)))%nat as Hl1.
  { rewrite <- (length_fmap updateID (elems q1)). subst q1. cbn [elems].
    rewrite queue_spec_ids, length_app, length_fmap. case_decide; simpl; lia. }
  destruct (IH q1) as (q' & -> & Hw' & Hq); [apply rq_queue_wf; [done..|lia]|lia|].
  exists q'. split_and!; [done|done|]. intros id. rewrite Hq. subst q1. cbn [elems fmap list_fmap].
  rewrite queue_spec_queued. destruct (decide (id = u_updateID u)) as [->|Hne].
  - rewrite (decide_True (P := _ ∈ _ :: _)) by left.
    destruct (decide (u_updateID u ∈ u_updateID <$> l)); [|done]. f_equal.
    destruct (queued (elems q) (u_updateID u)) as [r|]; simpl; [|done].
    unfold merge_reason. destruct (Z.eqb_spec r RQ_KEY); subst; done.
  - destruct (decide (id ∈ u_updateID <$> l)).
    + by rewrite decide_True by (by right).
    + rewrite decide_False; [done|]. by intros [|]%elem_of_cons.
Qed.

Lemma uids_valid l : uids_wf l -> Forall (fun u => in_u 32 (u_updateID u)) l.
Proof. by intros [[H _] _]. Qed.

(** What both key functions promise about the queue: every update registered
    for the key is queued with reason [RQ_KEY], or [RQ_ALL] if it was queued
    for another reason; the other updates are left alone. *)
Definition notified (q q' : _RPKI_QUEUE) (ids : list Z) : Prop :=
  rq_wf q' /\ forall id, queued (elems q') id
    = if decide (id ∈ ids)
      then Some (from_option (fun old => merge_reason old RQ_KEY) RQ_KEY (queued (elems q) id))
      else queued (elems q) id.

Lemma registerKey_eq c q k :
  idle c -> rkey_wf k -> rq_wf q -> Z.of_nat (length (elems q) + length (uids c k)) < 2 ^ 32 - 1 ->
  head_above (cacheNode c) k.1.1 k.2 = false ->
  exists c' q', ski_registerKey (Some c) (Some q) k.1.1 k.1.2 k.2 = Ok (Some c', Some q', true)
    /\ idle c' /\ notified q q' (uids c k)
    /\ (forall k', key_count c' k'
          = if decide (k' = k) then u8 (key_count c k + 1) else key_count c k')
    /\ (forall k' id, uid_count c' k' id = uid_count c k' id).
Proof.
  intros [Hsem Hn] Hk Hq Hlen Habove. unfold ski_registerKey. rewrite ski_lock_idle by done.
  cbn [mbind outcome_bind]. pose proof (getCacheData_spec (set_sem c 0) k true Hn Hk) as H.
  cbn [cacheNode set_sem andb] in H. rewrite Habove in H.
  assert (exists d, wanted (cacheNode c) true k = Some d /\ data_wf k.1.1 k.2 d
          /\ d_counter d = key_count c k /\ uids c k = u_updateID <$> cacheUID d
          /\ (forall i, ucount (cacheUID d) i = uid_count c k i))
    as (d & Ed & Hdw & Hkc & Hud & Huc).
  { unfold wanted, key_count, uid_count, uids. destruct (ski_data (cacheNode c) k) as [d|] eqn:E.
    - exists d. by destruct (ski_data_wf _ _ _ Hn E).
    - eexists. split; [done|]. split; [apply new_data_wf|done]. }
  rewrite Ed in H. destruct H as (c1 & pos & -> & Hfd). cbn [mbind outcome_bind].
  destruct (found_get _ _ _ _ _ Hk Hfd) as (-> & Ea & _ & Hs). cbn [mbind outcome_bind].
  rewrite Ea. cbn [mbind outcome_bind].
  destruct (store_at _ c1 k pos d (set_counter d (u8 (d_counter d + 1))) Hk Hfd)
    as (c2 & -> & [S1 [S2 S2'] S3 S4]);
    [apply set_counter_wf; [done|by apply wrap_in_u]|done|].
  cbn [mbind outcome_bind cacheUID set_counter].
  pose proof Hdw as (_ & _ & _ & Hu). rewrite Hud, length_fmap in Hlen.
  destruct (notify_spec q (cacheUID d) Hq (uids_valid _ Hu) Hlen) as (q' & -> & Hq1 & Hq2).
  cbn [mbind outcome_bind]. eexists _, q'. split; [done|]. unfold _ski_unlock.
  cbn [semaphore set_helper]. rewrite S2'. cbn [semaphore set_sem Z.eqb].
  split; [done|]. rewrite Hud. split; [done|]. cbn [cacheNode set_sem] in S3. split.
  - intros k'. unfold key_count at 1. cbn [cacheNode set_sem set_helper]. rewrite S3.
    case_decide; [|done]. by cbn [d_counter set_counter]; rewrite Hkc.
  - intros k' i. unfold uid_count at 1. cbn [cacheNode set_sem set_helper]. rewrite S3.
    case_decide as E; [|done]. cbn [cacheUID set_counter]. by rewrite Huc, E.
Qed.

(** C28 Receiving a router key counts it, modulo 256, and queues every update
    registered for it; no registration and no other key changes.  The one
    exception is a key of a new algorithm below all algorithms known for the
    AS: the search reads the uninitialised variable [prev]. *)
Theorem ski_registerKey_correct c q k :
  idle c -> rkey_wf k -> rq_wf q ->
  Z.of_nat (length (elems q) + length (uids c k)) < 2 ^ 32 - 1 ->
  if head_above (cacheNode c) k.1.1 k.2
  then ski_registerKey (Some c) (Some q) k.1.1 k.1.2 k.2 = Fault UninitRead
  else exists c' q', ski_registerKey (Some c) (Some q) k.1.1 k.1.2 k.2 = Ok (Some c', Some q', true)
    /\ idle c' /\ notified q q' (uids c k)
    /\ (forall k', key_count c' k'
          = if decide (k' = k) then u8 (key_count c k + 1) else key_count c k')
    /\ (forall k' id, uid_count c' k' id = uid_count c k' id).
Proof.
  intros Hi Hk Hq Hlen. destruct (head_above _ _ _) eqn:Ea; [|by apply registerKey_eq].
  pose proof Hi as [Hsem Hn]. unfold ski_registerKey. rewrite ski_lock_idle by done. cbn [mbind outcome_bind].
  pose proof (getCacheData_spec (set_sem c 0) k true Hn Hk) as H.
  cbn [cacheNode set_sem andb] in H. rewrite Ea in H. by rewrite H.
Qed.

(** The branch of [ski_unregisterKey] for a key that was received. *)
Lemma unregister_key_found c c1 q k pos d :
  rkey_wf k -> rq_wf q -> found (set_sem c 0) c1 k pos d -> ski_data (cacheNode c) k = Some d ->
  0 < d_counter d -> Z.of_nat (length (elems q) + length (cacheUID d)) < 2 ^ 32 - 1 ->
  exists c2 q',
    (let datas := algo_datas (cacheNode c1) k.1.1 k.2 in
     let d' := set_counter d (u8 (d_counter d - 1)) in
     match cacheUID d' with
     | [] => c2 ← helper_store c1 k.1.1 (delete pos datas);
             Ok (Some (_ski_unlock c2), Some q, true)
     | _ => c2 ← helper_store c1 k.1.1 (<[pos := d']> datas);
            queue ← notify (Some q) (cacheUID d');
            Ok (Some (_ski_unlock c2), queue, true)
     end) = Ok (Some c2, Some q', true)
    /\ idle c2 /\ notified q q' (u_updateID <$> cacheUID d)
    /\ forall k', ski_data (cacheNode c2) k'
         = if decide (k' = k)
           then match cacheUID d with [] => None | _ => Some (set_counter d (d_counter d - 1)) end
           else ski_data (cacheNode c) k'.
Proof.
  intros Hk Hq Hfd Ed Hpos Hlen. destruct (found_get _ _ _ _ _ Hk Hfd) as (_ & _ & Hdw & Hs).
  pose proof Hdw as (_ & _ & Hb & Hu). unfold in_u in Hb.
  assert (u8 (d_counter d - 1) = d_counter d - 1) as -> by (apply wrap_small; unfold in_u; lia).
  cbn [cacheUID set_counter]. destruct (cacheUID d) as [|u l] eqn:El.
  - destruct (delete_at _ c1 k pos d Hk Hfd) as (c2 & -> & [S1 [_ S2] S3 _]).
    cbn [mbind outcome_bind]. destruct (ski_unlock_idle c2 S2 S1) as [Hi En].
    eexists _, q. do 2 (split; [done|]). rewrite En. split; [|exact S3].
    split; [done|]. intros. by rewrite decide_False by set_solver.
  - destruct (store_at _ c1 k pos d (set_counter d (d_counter d - 1)) Hk Hfd)
      as (c2 & -> & [S1 [_ S2] S3 _]); [apply set_counter_wf; [done|unfold in_u; lia]|done|].
    cbn [mbind outcome_bind]. rewrite <- El in *.
    destruct (notify_spec q (cacheUID d) Hq (uids_valid _ Hu) Hlen) as (q' & -> & Hq1 & Hq2).
    cbn [mbind outcome_bind]. destruct (ski_unlock_idle c2 S2 S1) as [Hi En].
    eexists _, q'. do 2 (split; [done|]). rewrite En. split; [done|exact S3].
Qed.

(** Withdrawing a router key that was received counts it down and queues
    every update registered for it; without registered updates the key data is
    removed, and with it all further copies of the key that were received. *)
Theorem ski_unregisterKey_correct c q k :
  idle c -> rkey_wf k -> rq_wf q ->
  Z.of_nat (length (elems q) + length (uids c k)) < 2 ^ 32 - 1 ->
  exists c' q', ski_unregisterKey (Some c) (Some q) k.1.1 k.1.2 k.2 = Ok (Some c', Some q', true)
    /\ idle c'
    /\ (if 0 <? key_count c k then notified q q' (uids c k) else q' = q)
    /\ (forall k', key_count c' k'
          = if decide (k' = k)
            then match uids c k with [] => 0 | _ => Z.max 0 (key_count c k - 1) end
            else key_count c k')
    /\ (forall k' id, uid_count c' k' id = uid_count c k' id).
Proof.
  intros [Hsem Hn] Hk Hq Hlen. unfold ski_unregisterKey. rewrite ski_lock_idle by done.
  cbn [mbind outcome_bind]. pose proof (getCacheData_spec (set_sem c 0) k false Hn Hk) as H.
  cbn [cacheNode set_sem andb] in H. unfold wanted in H. unfold key_count, uid_count, uids in *.
  destruct (ski_data (cacheNode c) k) as [d|] eqn:Ed.
  2: { destruct H as (c1 & -> & [N1 [_ N2] N3]). cbn [mbind outcome_bind].
       destruct (ski_unlock_idle c1 N2 N1) as [Hi En].
       eexists _, q. do 3 (split; [done|]). rewrite En. cbn [cacheNode set_sem] in N3.
       split; intros k'; rewrite N3; [|done]. by case_decide as E; [rewrite E, Ed|]. }
  destruct H as (c1 & pos & -> & Hfd). cbn [mbind outcome_bind].
  destruct (found_get _ _ _ _ _ Hk Hfd) as (-> & Ea & Hdw & Hs). cbn [mbind outcome_bind].
  rewrite Ea. cbn [mbind outcome_bind]. pose proof Hdw as (_ & _ & Hb & Hu).
  rewrite length_fmap in Hlen. unfold in_u in Hb.
  destruct (Z.ltb_spec 0 (d_counter d)) as [Hpos|Hzero].
  2: { destruct (ski_unlock_idle c1) as [Hi En]; [apply Hfd|apply Hfd|].
       eexists _, q. do 3 (split; [done|]). rewrite En.
       split; intros k'; rewrite (found_same _ _ _ _ _ Hfd Ed); [|done]. case_decide as E; [|done].
       cbn [cacheNode set_sem]. rewrite E, Ed. destruct (cacheUID d); simpl; lia. }
  destruct (unregister_key_found c c1 q k pos d Hk Hq Hfd Ed Hpos Hlen)
    as (c2 & q' & E & Hi & Hq' & Hd). exists c2, q'. split; [exact E|]. split; [done|]. split; [done|].
  split; intros k'; rewrite Hd; case_decide as E'; try done; try (rewrite E', Ed);
    destruct (cacheUID d) eqn:El; cbn [d_counter set_counter fmap list_fmap]; try done.
  - lia.
  - intros i. cbn [cacheUID set_counter]. by rewrite El.
Qed.

(** ** Cleaning *)

(** What is left of the data of a key. *)
Definition cleaned (type : e_SKI_clean) (d : _SKI_CACHE_DATA) : option _SKI_CACHE_DATA :=
  match type with
  | SKI_CLEAN_ALL => None
  | SKI_CLEAN_KEYS => match cacheUID d with [] => None | _ => Some (set_counter d 0) end
  | SKI_CLEAN_UPDATES => if d_counter d =? 0 then None else Some (set_uids d [])
  | SKI_CLEAN_NONE => Some d
  end.

(** No empty list or node is left in the tree. *)
Definition no_garbage (nodes : list _SKI_CACHE_NODE) : Prop :=
  Forall (fun n => as2 n <> ∅ /\ map_Forall (fun _ l => Forall (fun a => cacheData a <> []) l) (as2 n))
    nodes.

Section clean.
Context (type : e_SKI_clean).

Definition clean_datas (l : list _SKI_CACHE_DATA) : list _SKI_CACHE_DATA :=
  cacheData (___ski_clean_cAlgoID (mkAlgo 0 l) type).1.

Lemma clean_datas_omap l : type <> SKI_CLEAN_NONE -> clean_datas l = omap (cleaned type) l.
Proof.
  intros Hn. unfold clean_datas, ___ski_clean_cAlgoID. rewrite decide_False by done. cbn [fst cacheData].
  apply list_omap_ext. induction l as [|d l IH]; constructor; [clear IH|done].
  unfold ___ski_clean_cData, cleaned. destruct type, (cacheUID d) eqn:E; try done;
    cbn [d_counter cacheUID set_uids set_counter]; rewrite ?E, ?Z.eqb_refl; cbn [andb];
    repeat (destruct (_ =? _); cbn [andb]); done.
Qed.

Lemma clean_datas_spec asn al l :
  datas_wf asn al l ->
  datas_wf asn al (clean_datas l) /\ forall s, sl_get d_ski s (clean_datas l) = sl_get d_ski s l ≫= cleaned type.
Proof.
  intros [Hs Hf]. destruct (decide (type = SKI_CLEAN_NONE)) as [Hn|Hn].
  { unfold clean_datas, ___ski_clean_cAlgoID, cleaned. rewrite decide_True, Hn by done.
    split; [done|]. intros s. cbn [fst cacheData]. by destruct (sl_get d_ski s l). }
  rewrite clean_datas_omap by done.
  assert (forall d d', cleaned type d = Some d' -> d_ski d' = d_ski d
          /\ (data_wf asn al d -> data_wf asn al d')) as Hc.
  { intros d d'. unfold cleaned. destruct type; [by intros [= <-]| | |done].
    - destruct (cacheUID d) eqn:E; [done|]. intros [= <-]. split; [done|]. intros.
      by apply set_counter_wf.
    - destruct (d_counter d =? 0); [done|]. intros [= <-]. split; [done|]. intros.
      apply set_uids_wf; [done|]. split; [apply sl_wf_nil|constructor]. }
  destruct (sl_omap d_ski (cleaned type) l) as [W G]; [by intros ? ? [? _]%Hc|done|].
  split; [split; [done|]|done]. apply Forall_forall. intros d' (d & Hd & E)%list_elem_of_omap.
  apply Hc in E as [_ E]. rewrite Forall_forall in Hf. auto.
Qed.

Lemma clean_algos_step a :
  (let '(a', canFree) := ___ski_clean_cAlgoID a type in if canFree : bool then None else Some a')
  = match clean_datas (cacheData a) with [] => None | l => Some (mkAlgo (a_algoID a) l) end.
Proof.
  unfold clean_datas, ___ski_clean_cAlgoID. cbn [fst cacheData].
  by destruct (if decide (type = SKI_CLEAN_NONE) then _ else _).
Qed.

Lemma clean_algos_spec asn l :
  algos_wf asn l ->
  algos_wf asn (clean_algos type l) /\ Forall (fun a => cacheData a <> []) (clean_algos type l)
  /\ forall al, datas_of (clean_algos type l) al = clean_datas (datas_of l al).
Proof.
  intros [Hs Hf]. unfold clean_algos. set (f := fun a => _).
  assert (forall a a', f a = Some a' -> a_algoID a' = a_algoID a
          /\ cacheData a' = clean_datas (cacheData a) /\ cacheData a' <> []) as Hc.
  { intros a a'. subst f. cbn beta. rewrite clean_algos_step.
    destruct (clean_datas (cacheData a)) eqn:E; [done|]. by intros [= <-]. }
  destruct (sl_omap (cmp := Z.sub) a_algoID f l) as [W G]; [by intros ? ? [? _]%Hc|done|].
  split_and!; [split; [done|]| |].
  - apply Forall_forall. intros a' (a & Ha & E)%list_elem_of_omap.
    apply Hc in E as (E1 & E2 & _). rewrite E1, E2. rewrite Forall_forall in Hf.
    by apply clean_datas_spec, Hf.
  - apply Forall_forall. intros a' (a & Ha & E)%list_elem_of_omap. by destruct (Hc _ _ E) as (_ & _ & ?).
  - intros al. unfold datas_of. rewrite G. destruct (sl_get a_algoID al l) as [a|]; simpl.
    + subst f. cbn beta. rewrite clean_algos_step. by destruct (clean_datas (cacheData a)).
    + unfold clean_datas, ___ski_clean_cAlgoID. cbn [fst cacheData]. by case_decide.
Qed.

Lemma clean_node_get n i :
  as2_get (___ski_clean_cNode n type).1 i = clean_algos type (as2_get n i).
Proof.
  unfold as2_get, ___ski_clean_cNode. cbn [fst as2]. rewrite lookup_omap.
  destruct (as2 n !! i) as [l|]; simpl; [|done]. by destruct (clean_algos type l).
Qed.

Lemma clean_node_wf n :
  node_wf n -> node_wf (___ski_clean_cNode n type).1
  /\ map_Forall (fun _ l => Forall (fun a => cacheData a <> []) l) (as2 (___ski_clean_cNode n type).1).
Proof.
  intros Hn. unfold ___ski_clean_cNode. cbn [fst as2].
  split; intros i l; cbn [as2 upper]; rewrite lookup_omap; intros (l0 & E0 & E)%bind_Some;
    destruct (Hn i l0 E0) as [_ Ha]; destruct (clean_algos_spec _ _ Ha) as (W & F & _);
    destruct (clean_algos type l0); simplify_eq/=; done.
Qed.

Lemma clean_nodes_spec nodes (f := fun n => let '(n', canFree) := ___ski_clean_cNode n type in
                                            if canFree : bool then None else Some n') :
  nodes_wf nodes ->
  nodes_wf (omap f nodes) /\ no_garbage (omap f nodes)
  /\ forall k, ski_data (omap f nodes) k = ski_data nodes k ≫= cleaned type.
Proof.
  intros Hn. pose proof Hn as [Hs Hf].
  assert (forall n, f n = if bool_decide (as2 (___ski_clean_cNode n type).1 = ∅) then None
                          else Some (___ski_clean_cNode n type).1) as Ef by done.
  assert (forall n n', f n = Some n' -> n' = (___ski_clean_cNode n type).1 /\ as2 n' <> ∅) as Hc.
  { intros n n'. rewrite Ef. case_bool_decide; [done|]. by intros [= <-]. }
  destruct (sl_omap (cmp := Z.sub) upper f nodes) as [W G]; [by intros ? ? [-> _]%Hc|done|].
  split_and!; [split; [done|]| |].
  - apply Forall_forall. intros n' (n & Hin & [-> _]%Hc)%list_elem_of_omap.
    rewrite Forall_forall in Hf. by apply clean_node_wf, Hf.
  - apply Forall_forall. intros n' (n & Hin & [-> E]%Hc)%list_elem_of_omap.
    rewrite Forall_forall in Hf. split; [done|]. by apply clean_node_wf, Hf.
  - intros [[asn ski] al]. pose proof (node_algos_wf _ asn Hn) as Ha.
    destruct (clean_algos_spec _ _ Ha) as (_ & _ & D).
    assert (node_algos (omap f nodes) asn = clean_algos type (node_algos nodes asn)) as E.
    { unfold node_algos. rewrite G. destruct (sl_get upper _ nodes) as [n|]; simpl; [|done].
      rewrite Ef, <- clean_node_get. case_bool_decide as E; [|done].
      unfold as2_get. by rewrite E, lookup_empty. }
    unfold ski_data, algo_datas. cbn [fst snd]. rewrite E, D.
    by apply (clean_datas_spec asn al), datas_of_wf.
Qed.
End clean.

(** Cleaning the cache by type: all data, the key counters, the update
    registrations, or nothing but garbage.  The data of every key is what the
    type leaves of it, data without keys and updates is dropped, no empty list
    or node stays in the tree, and the cache stays well-formed. *)
Theorem ski_clean_correct type c :
  idle c ->
  exists c', ski_clean (Some c) type = Ok (Some c', true) /\ idle c' /\ no_garbage (cacheNode c')
    /\ forall k, ski_data (cacheNode c') k = ski_data (cacheNode c) k ≫= cleaned type.
Proof.
  intros Hc. pose proof Hc as [_ Hn]. unfold ski_clean. rewrite ski_lock_idle by done.
  cbn [mbind outcome_bind]. destruct (decide (type = SKI_CLEAN_ALL)) as [->|Ht].
  - eexists. split; [done|]. split; [split; [done|split; [apply sl_wf_nil|constructor]]|].
    split; [constructor|]. intros k. by destruct (ski_data (cacheNode c) k).
  - destruct (clean_nodes_spec type (cacheNode c) Hn) as (W & N & D).
    destruct type; [| | |done]; (eexists; split; [done|]; split; [done|]; split; [exact N|exact D]).
Qed.

End SkiRegister.
