(* ===== verification/CacheWitness.v ===== *)
(** * Update cache: the theorems at a concrete cache

    One update, 77, registered for the clients 3 and 5, over the list table and
    a SKI cache that logs the calls it gets. *)
From S2P Require Import Prelude Lists Locks SrxDefs SrxIdentifier BgpsecPath RpkiQueue AspaTrie.
From S2P Require Import AspaValidation UtHash AspathCache UpdateCache UpdateCacheLemmas UpdateCacheTheorems.
From S2P Require Import EndOfData EndOfDataAll SkiCache SkiCacheLemmas SkiRegister.

Module UpdateCacheWitness.
Import UpdateCache UpdateCacheLemmas UpdateCacheTheorems.

(** The log: the identifiers registered (positive) and unregistered (negative). *)
#[local] Instance log_ski : SkiUpdates (list Z) := {|
  ski_registerUpdate l id _ := Ok (l ++ [id], 0);
  ski_unregisterUpdate l id _ := Ok (l ++ [- id], true);
  ski_clean_updates l := Ok []
|}.

Definition ex_prefix : IPPrefix := mkIPPrefix (mkIPAddress 4 ([10; 0; 0; 0] ++ replicate 12 0)) 8.
Definition ex_bgp : BGPSecData := mkBGPSecData 2 (Some [65001; 65002]) 3 256 1 65000 (Some [1; 2; 3]).
Definition ex_data : UC_UpdateData := path_data ex_bgp (Some ex_prefix).
Definition ex_result : SRxResult :=
  mkSRxResult SRx_RESULT_VALID SRx_RESULT_UNDEFINED SRx_RESULT_UNDEFINED.
Definition ex_entry : CacheEntry :=
  mkCacheEntry (Some [3; 5]) 2 77 65002 (Some ex_prefix) ex_result unknown_default None (Some 0)
    (Some ex_data) 1234.
Definition ex_cache : UpdateCache (list (Z * positive)) :=
  mkUpdateCache true MX_free [1%positive] (Some 1%positive) 1 RW_free [(77, 1%positive)] 2
    all_unlocked 900 {[ 1%positive := ex_entry ]}.

Lemma ex_clients : clients_are ex_entry [3; 5].
Proof.
  constructor; simpl; [by exists 0%nat|lia| |repeat constructor; lia].
  by apply (bool_decide_unpack _), I.
Qed.

Lemma ex_entry_ok : entry_ok ex_entry.
Proof. apply (entry_ok_intro _ [3; 5] ex_clients). by eexists. Qed.

Lemma ex_cache_wf : uc_wf ex_cache.
Proof.
  constructor; try done. constructor; [by apply NoDup_singleton|].
  intros k p Hin. apply list_elem_of_singleton in Hin. simplify_eq.
  exists ex_entry. split; [done|]. split; [done|]. apply ex_entry_ok.
Qed.

Lemma ex_bgp_ok : bgp_ok ex_bgp.
Proof.
  constructor; simpl; [|lia|]; intros _; eexists; (split; [done|]); simpl; lia.
Qed.

Lemma getUpdateResult_witness :
  exists self' m', getUpdateResult ex_cache 77 3 (Some 1) true
    = Ok (self', Some m', mkQuery true ex_result unknown_default (Some 1234)).
Proof.
  destruct (getUpdateResult_correct ex_cache 77 3 1 true ex_cache_wf ltac:(by right)
    ltac:(simpl; lia)) as (self' & m' & Hq & _).
  exists self', m'. exact Hq.
Defined.

Lemma modifyUpdateResult_witness :
  exists self', modifyUpdateResult ex_cache 77
      (mkSRxResult SRx_RESULT_INVALID SRx_RESULT_DONOTUSE SRx_RESULT_DONOTUSE) false
    = Ok (self', true, [mkSRxValidationResult VRT_ROA
            (mkSRxResult SRx_RESULT_INVALID SRx_RESULT_UNDEFINED SRx_RESULT_UNDEFINED) 77]).
Proof.
  destruct (modifyUpdateResult_correct ex_cache 77
    (mkSRxResult SRx_RESULT_INVALID SRx_RESULT_DONOTUSE SRx_RESULT_DONOTUSE) false ex_cache_wf)
    as (self' & Hq & _).
  exists self'. exact Hq.
Defined.

Lemma storeUpdate_witness :
  exists self', storeUpdate ex_cache [] 1000 true 3 (Some 1) 78 (Some ex_prefix) 65002 None
                  (Some ex_bgp) 99 = Ok (self', [78], Some 2, 1).
Proof.
  destruct (storeUpdate_correct ex_cache [] [78] 0 1000 3 1 78 (Some ex_prefix) 65002 None ex_bgp 99
    ex_cache_wf ltac:(by right) ex_bgp_ok eq_refl) as (self' & Hq & _).
  exists self'. exact Hq.
Defined.

Lemma storeUpdate_error_paths_witness :
  storeUpdate ex_cache [] 1000 true 3 (Some 1) 78 (Some ex_prefix) 65002 None None 99
  = Fault UninitRead.
Proof.
  refine (proj1 (storeUpdate_error_paths ex_cache [] 1000 3 (Some 1) 78 (Some ex_prefix) 65002 None 99
    79 true None ex_cache_wf _ _)); vm_compute; reflexivity.
Defined.

Lemma deleteUpdateFromCache_witness :
  exists self', deleteUpdateFromCache ex_cache [] 1000 3 77 0 = Ok (self', [-77], true).
Proof.
  destruct (deleteUpdateFromCache_correct ex_cache [] [-77] true 1000 3 77 0 ex_cache_wf
    ltac:(done) ltac:(done)) as (self' & e' & d & Hd & Hq & _).
  exists self'. vm_compute in Hd. injection Hd as <-. exact Hq.
Defined.

Lemma unregisterClientID_witness :
  exists self', unregisterClientID ex_cache 5 (Some 1) 60 = Ok (self', Some 0, 1).
Proof.
  destruct (unregisterClientID_correct ex_cache 5 60 ex_cache_wf ltac:(done) ltac:(vm_compute; done))
    as [Hq _].
  destruct (Hq ltac:(lia)) as (self' & Hr & _). exists self'. exact Hr.
Defined.

Lemma detectCollision_witness :
  detectCollision ex_cache 77 ex_prefix 65002 ex_bgp = Ok (ex_cache, false).
Proof.
  exact (detectCollision_correct ex_cache 77 ex_prefix 65002 ex_bgp ex_entry ex_data ex_prefix
    [65001; 65002] [65001; 65002] [1; 2; 3] [1; 2; 3] ex_cache_wf
    eq_refl eq_refl eq_refl eq_refl eq_refl eq_refl eq_refl eq_refl eq_refl).
Defined.

Lemma addClientReference_growth_witness :
  exists e', _addClientReference ex_cache ex_entry 9 (Some 4) = Ok (e', Some 4, true).
Proof.
  destruct (addClientReference_growth ex_cache ex_entry [3; 5] 9 4 ex_clients) as (e' & Hq & _).
  - reflexivity.
  - done.
  - by apply (bool_decide_unpack _), I.
  - simpl. lia.
  - exists e'. exact Hq.
Defined.

Lemma delete_client_0_witness :
  exists e', _deleteUpdateFromCache 0 ex_entry 5 = Ok (e', false) /\ client_list e' = [3; 5].
Proof.
  destruct (delete_client_0_keeps_clients ex_entry [3; 5] 5 ex_clients) as (e' & Hq & _ & Hl).
  exists e'. split; [exact Hq|exact Hl].
Defined.

End UpdateCacheWitness.

(** * End of data: the theorems at a concrete server *)

Module EndOfDataWitness.
Import EndOfData EndOfDataAll.

(** The update 77 with the path 65 20 (origin 65) last validated at time 100. *)
Definition ex_path : AspathCache.PathListCacheTable :=
  AspathCache.mkPathListCacheTable 1234 2 (Some [20; 65]) SRx_RESULT_UNDEFINED AS_SEQUENCE
    ASPA_UPSTREAM AFI_IP 100.
Definition ex_paths : AspathCache.AspathCache (list (Z * positive)) :=
  AspathCache.mkAspathCache [(1234, 1%positive)] {[ 1%positive := ex_path ]} RW_free.

Lemma ex_paths_wf : AspathCache.ac_wf ex_paths.
Proof.
  constructor; [constructor; [by apply NoDup_singleton|]|done].
  intros k p Hin. apply list_elem_of_singleton in Hin. simplify_eq.
  exists ex_path. split; [done|]. split; [done|].
  split; [unfold in_u; simpl; lia|]. intros l [= <-]. done.
Qed.

Definition ex_server (q : RpkiQueue._RPKI_QUEUE) : Server (list (Z * positive)) :=
  mkServer UpdateCacheWitness.ex_cache (Some q) AspaTrie.example_db ex_paths [].

Definition ex_queue : RpkiQueue._RPKI_QUEUE :=
  RpkiQueue.mkQueue [RpkiQueue.mkElem RpkiQueue.RQ_ALL 77; RpkiQueue.mkElem RpkiQueue.RQ_ROA 5] 2 1.
Lemma ex_queue_wf : RpkiQueue.rq_wf ex_queue.
Proof.
  constructor; simpl; [split; [done|unfold in_u; lia]| | |done].
  - repeat constructor; unfold in_u; simpl; lia.
  - by apply (bool_decide_unpack _), I.
Qed.
Lemma empty_queue_wf : RpkiQueue.rq_wf RpkiQueue.rq_createQueue.
Proof. constructor; simpl; [split; [done|unfold in_u; lia]|constructor|apply NoDup_nil_2|done]. Qed.

Definition ex_validate : option (UpdateCache.UC_UpdateData -> outcome Z) := Some (fun _ => Ok SRx_RESULT_INVALID).

Lemma dequeue_loop_witness :
  exists st', dequeue_loop ex_validate 3 (ex_server ex_queue) = Ok st'
    /\ notified st'
       = [mkSRxValidationResult 7 (mkSRxResult SRx_RESULT_VALID SRx_RESULT_INVALID SRx_RESULT_UNDEFINED) 77;
          no_result 5].
Proof.
  destruct (dequeue_loop_correct ex_validate (ex_server ex_queue) ex_queue
    UpdateCacheWitness.ex_cache_wf eq_refl ex_queue_wf) as [Hd _].
  eexists. split; [apply Hd|].
  - cbn [RpkiQueue.elems ex_queue]. apply Forall_cons_2; [|apply Forall_cons_2; [|apply Forall_nil_2]].
    + intros _. eexists. by split.
    + intros Hh. vm_compute in Hh. discriminate Hh.
  - vm_compute. reflexivity.
Defined.

Lemma process_ASPA_update_witness :
  exists st' q', process_ASPA_EndOfData_main 200 (ex_server RpkiQueue.rq_createQueue) 77 1234 150 = Ok (st', 1)
    /\ rQueue st' = Some q' /\ RpkiQueue.elems q' = [RpkiQueue.mkElem RpkiQueue.RQ_ASPA 77].
Proof.
  destruct (process_ASPA_update (ex_server RpkiQueue.rq_createQueue) 200 150 77 1234
    UpdateCacheWitness.ex_entry ex_path RpkiQueue.rq_createQueue SRx_RESULT_VALID
    UpdateCacheWitness.ex_cache_wf ex_paths_wf eq_refl empty_queue_wf)
    as (st' & q' & H1 & _ & _ & _ & _ & _ & _ & H2 & _ & H3).
  - simpl. lia.
  - unfold in_u. lia.
  - reflexivity.
  - discriminate.
  - reflexivity.
  - vm_compute. reflexivity.
  - discriminate.
  - exists st', q'. split; [exact H1|]. split; [exact H2|]. exact H3.
Defined.

Lemma ex_ready : ready (ex_server ex_queue) ex_queue.
Proof.
  constructor.
  - exact UpdateCacheWitness.ex_cache_wf.
  - exact ex_paths_wf.
  - split; [done|exact ex_queue_wf].
  - simpl. lia.
  - intros id e He. unfold UpdateCacheTheorems.uc_get in He.
    apply (kt_get_items UpdateCache.updateID UpdateCacheTheorems.entry_ok) in He as (p & Hin & He);
      [|apply UpdateCacheWitness.ex_cache_wf].
    apply list_elem_of_singleton in Hin. simplify_eq. split; [unfold in_u; lia|].
    vm_compute in He. injection He as <-. split; [done|]. exists ex_path. split; [done|]. split; [done|]. split; [done|].
    by split; vm_compute.
Qed.

(** Update 77 was queued for all reasons, its path becomes valid; the unknown
    update 5 was queued for its origin. *)
Lemma handleEndOfData_correct_witness :
  exists st', handleEndOfData ex_validate 200 (ex_server ex_queue) = Ok st'
    /\ rQueue st' = Some RpkiQueue.rq_createQueue
    /\ stale 200 (ex_server ex_queue) 77 = true
    /\ notified st'
       = [mkSRxValidationResult 7 (mkSRxResult SRx_RESULT_VALID SRx_RESULT_INVALID SRx_RESULT_VALID) 77;
          no_result 5].
Proof.
  destruct (handleEndOfData_correct ex_validate 200 (ex_server ex_queue) ex_queue ex_ready)
    as (st' & l & H1 & _ & _ & _ & _ & _ & H2 & _).
  - apply Forall_cons_2; [|apply Forall_cons_2; [|apply Forall_nil_2]].
    + intros _. by eexists.
    + intros Hh. vm_compute in Hh. discriminate Hh.
  - apply Forall_cons_2; [|apply Forall_cons_2; [|apply Forall_nil_2]]; intros x Hx; vm_compute in Hx; [|discriminate Hx].
    by injection Hx as <-.
  - exists st'. split; [exact H1|]. split; [exact H2|]. split; [vm_compute; reflexivity|].
    vm_compute in H1. injection H1 as <-. reflexivity.
Defined.

End EndOfDataWitness.

(** * Concrete runs of the SKI cache

    The theorems of SkiRegister applied to a cache that holds one update with a
    path of two segments. *)

Module SkiWitness.
Import RpkiQueue BgpsecPath SkiCache SkiCacheLemmas SkiRegister.

Definition empty_cache : _SKI_CACHE := mkCache [] empty_helper empty_info 1.
Definition attr_ex : list Z := enc_attr true seg_ex [block_ex 1].
Definition key1 : rkey := (65010, replicate 20 7, 1).
Definition key2 : rkey := (64512, replicate 20 9, 1).

(** The cache after update 77 was registered. *)
Definition cache_ex : _SKI_CACHE :=
  match ski_registerUpdate (Some empty_cache) 77 (Some (attr_ex ++ [])) with
  | Ok (Some c, _) => c
  | _ => empty_cache
  end.

Lemma empty_idle : idle empty_cache.
Proof. split; [done|]. split; [split; constructor|constructor]. Qed.

Lemma path_ex : path_ok true seg_ex (block_ex 1).
Proof.
  split; [done| | |done].
  - split; [done|]. repeat (apply Forall_cons; split; [by vm_compute|]). done.
  - repeat (apply Forall_cons; split; [by vm_compute|]). done.
Qed.

Lemma keys_ex : block_keys seg_ex (block_ex 1) = [key1; key2].
Proof. reflexivity. Qed.

Lemma algo_ex c :
  head_above (cacheNode c) 65010 1 = false -> head_above (cacheNode c) 64512 1 = false ->
  no_smaller_algo c 1 (block_keys seg_ex (block_ex 1)).
Proof. intros H1 H2 k. rewrite keys_ex. intros [->|[->|[]%elem_of_nil]%elem_of_cons]%elem_of_cons; done. Qed.

Lemma room_ex c id :
  uid_count c key1 id < 100 -> uid_count c key2 id < 100 -> room c id (block_keys seg_ex (block_ex 1)).
Proof.
  intros H1 H2 k. rewrite keys_ex.
  assert (occ key1 [key1; key2] = 1 /\ occ key2 [key1; key2] = 1) as [E1 E2] by by vm_compute.
  intros [->|[->|[]%elem_of_nil]%elem_of_cons]%elem_of_cons; lia.
Qed.

Lemma cache_ex_idle : idle cache_ex.
Proof.
  destruct (registerUpdate_eq true seg_ex (block_ex 1) [] 77 path_ex) with (c := empty_cache)
    as (c' & E & I & _); [done|done|apply empty_idle|by apply algo_ex|by apply room_ex|].
  unfold cache_ex, attr_ex. by rewrite E.
Qed.

(** Registering update 78 on top. *)
Lemma ski_registerUpdate_witness :
  exists c', ski_registerUpdate (Some cache_ex) 78 (Some (attr_ex ++ [])) = Ok (Some c', REGVAL_INVALID)
    /\ uid_count c' key1 78 = 1 /\ uid_count c' key1 77 = 1.
Proof.
  destruct (ski_registerUpdate_correct true seg_ex (block_ex 1) [] 78 cache_ex path_ex)
    as (c' & E & _ & _ & U).
  - lia.
  - unfold in_u; lia.
  - apply cache_ex_idle.
  - apply algo_ex; vm_compute; reflexivity.
  - apply room_ex; vm_compute; reflexivity.
  - exists c'. split; [exact E|]. split; rewrite U; vm_compute; reflexivity.
Defined.

Lemma ski_register_unregister_witness :
  exists c1 r c2, ski_registerUpdate (Some cache_ex) 78 (Some (attr_ex ++ [])) = Ok (Some c1, r)
    /\ ski_unregisterUpdate (Some c1) 78 (Some (attr_ex ++ [])) = Ok (Some c2, true)
    /\ uid_count c2 key2 78 = 0 /\ uid_count c2 key2 77 = 1.
Proof.
  destruct (ski_register_unregister true seg_ex (block_ex 1) [] 78 cache_ex path_ex)
    as (c1 & r & c2 & E1 & E2 & _ & _ & U).
  - lia.
  - unfold in_u; lia.
  - apply cache_ex_idle.
  - apply algo_ex; vm_compute; reflexivity.
  - apply room_ex; vm_compute; reflexivity.
  - exists c1, r, c2. split; [exact E1|]. split; [exact E2|]. split; rewrite U; vm_compute; reflexivity.
Defined.

(** Two blocks of two segments: the second block takes the SKIs 0 and 2 of the
    array, not 2 and 3. *)
Lemma register_segments_offsets_witness :
  let s n := replicate 20 n in
  register_segments 2 empty_cache 77 2 1 0 [65010; 64512] (s 1 ++ s 2 ++ s 3 ++ s 4)
  = register_keys empty_cache 77 [(65010, s 1, 2); (64512, s 3, 2)].
Proof.
  intros s.
  rewrite (register_segments_offsets 2 empty_cache 77 2 1 [65010; 64512] (s 1 ++ s 2 ++ s 3 ++ s 4));
    reflexivity.
Defined.

Lemma key1_wf : rkey_wf key1.
Proof. split; [unfold in_u; cbn; lia|done]. Qed.

Lemma ski_registerKey_witness :
  exists c' q', ski_registerKey (Some cache_ex) (Some example_queue) 65010 (replicate 20 7) 1
                = Ok (Some c', Some q', true)
    /\ queued (elems q') 77 = Some RQ_KEY /\ key_count c' key1 = 1.
Proof.
  pose proof (ski_registerKey_correct cache_ex example_queue key1 cache_ex_idle key1_wf
                example_queue_wf) as H.
  destruct H as (c' & q' & E & _ & [_ N] & K & _); [vm_compute; reflexivity|].
  exists c', q'. split; [exact E|]. rewrite N, K. split; vm_compute; reflexivity.
Defined.

Lemma ski_unregisterKey_witness :
  exists c' q', ski_unregisterKey (Some cache_ex) (Some example_queue) 65010 (replicate 20 7) 1
                = Ok (Some c', Some q', true) /\ key_count c' key1 = 0 /\ uid_count c' key1 77 = 1.
Proof.
  destruct (ski_unregisterKey_correct cache_ex example_queue key1 cache_ex_idle key1_wf
              example_queue_wf) as (c' & q' & E & _ & _ & K & U); [vm_compute; reflexivity|].
  exists c', q'. split; [exact E|]. rewrite K, U. split; vm_compute; reflexivity.
Defined.

(** Key data that was received twice and has no updates is gone after one
    withdrawal. *)
Example unregister_drops_copies :
  (let k := replicate 20 5 in
   '(c, q, _) ← ski_registerKey (Some empty_cache) (Some rq_createQueue) 65010 k 1;
   '(c, q, _) ← ski_registerKey c q 65010 k 1;
   '(c, q, _) ← ski_unregisterKey c q 65010 k 1;
   Ok (match c with Some c => key_count c (65010, k, 1) | None => -1 end)) = Ok 0.
Proof. vm_compute. reflexivity. Qed.

Lemma ski_clean_witness :
  exists c', ski_clean (Some cache_ex) SKI_CLEAN_KEYS = Ok (Some c', true)
    /\ uid_count c' key1 77 = 1.
Proof.
  destruct (ski_clean_correct SKI_CLEAN_KEYS cache_ex cache_ex_idle) as (c' & E & _ & _ & D).
  exists c'. split; [exact E|]. unfold uid_count. rewrite D. vm_compute. reflexivity.
Defined.

End SkiWitness.
