(* ===== verification/Patricia.v ===== *)
(** * The Patricia tree (patricia.h)

    The prefix cache keeps its prefixes in the Patricia tree of an external
    library, of which the sources hold the header only.  [Patricia] is what the
    cache calls and reads of it: the lookup that inserts, and the fields
    [parent], [l], [r] and [prefix] of the nodes.  [PatriciaLaws] is what the
    library documents: a binary tree ordered by the bits of the prefixes, whose
    nodes keep their identity.  The library compares the first [bitlen] bits of
    the addresses and nothing else.  A node without a prefix is a glue node. *)
From S2P Require Import Prelude SrxDefs.

Definition AF_INET : Z := 2.
Definition AF_INET6 : Z := 10.
Definition PATRICIA_MAXBITS : nat := 128.

(** [ref_count] is not kept: the cache only looks at whether a lookup took the
    prefix object into the tree. *)
Record prefix_t := mkPrefix_t {
  family : Z;
  bitlen : Z;
  add : list Z
}.
#[global] Instance prefix_t_eq_dec : EqDecision prefix_t.
Proof. solve_decision. Defined.

(** The bits of the address in network order. *)
Definition byte_bits (b : Z) : list bool := (fun i => Z.testbit b i) <$> [7; 6; 5; 4; 3; 2; 1; 0].
Definition prefix_bits (p : prefix_t) : list bool :=
  take (Z.to_nat (bitlen p)) (add p ≫= byte_bits).

(** A prefix whose length fits its address. *)
Definition prefix_ok (p : prefix_t) : Prop :=
  Z.of_nat (length (prefix_bits p)) = bitlen p /\ (length (prefix_bits p) <= PATRICIA_MAXBITS)%nat.

Definition strict_prefix {A} (k k' : list A) : Prop := k `prefix_of` k' /\ k <> k'.

Class Patricia (T N : Type) := {
  New_Patricia : T;
  (** the tree, the node of the prefix, and whether the prefix object is now part
      of the tree (its [ref_count] is positive) *)
  patricia_lookup : prefix_t -> T -> T * N * bool;
  node_parent : T -> N -> option N;
  node_l : T -> N -> option N;
  node_r : T -> N -> option N;
  node_prefix : T -> N -> option prefix_t
}.

(** The proper ancestors of a node. *)
Definition ancestor {T N} `{Patricia T N} (t : T) : N -> N -> Prop :=
  tc (fun n m => node_parent t n = Some m).

Class PatriciaLaws (T N : Type) `{Patricia T N} := {
  pt_wf : T -> Prop;
  (** the field [bit] *)
  pt_rank : T -> N -> nat;
  pt_new : pt_wf New_Patricia /\ forall n, node_prefix New_Patricia n = None;
  pt_rank_max t n : pt_wf t -> (pt_rank t n <= PATRICIA_MAXBITS)%nat;
  pt_rank_parent t n m : pt_wf t -> node_parent t n = Some m -> (pt_rank t m < pt_rank t n)%nat;
  pt_children t n c : pt_wf t ->
    node_parent t c = Some n <-> node_l t n = Some c \/ node_r t n = Some c;
  pt_children_ne t n c : pt_wf t -> node_l t n = Some c -> node_r t n <> Some c;
  pt_ancestor t n m p q : pt_wf t -> node_prefix t n = Some p -> node_prefix t m = Some q ->
    ancestor t n m <-> strict_prefix (prefix_bits q) (prefix_bits p);
  pt_unique t n m p q : pt_wf t -> node_prefix t n = Some p -> node_prefix t m = Some q ->
    prefix_bits p = prefix_bits q -> n = m;
  (** what a lookup does *)
  pt_lookup t p t' n ref : pt_wf t -> prefix_ok p ->
    patricia_lookup p t = (t', n, ref) ->
    pt_wf t'
    /\ (exists q, node_prefix t' n = Some q /\ prefix_bits q = prefix_bits p /\ bitlen q = bitlen p)
    /\ (forall m, m <> n -> node_prefix t' m = node_prefix t m)
    /\ (forall q, node_prefix t n = Some q -> node_prefix t' n = Some q)
    /\ (ref = true <-> node_prefix t n = None)
}.

(** ** The order of the bits *)
Lemma strict_prefix_length {A} (k k' : list A) :
  strict_prefix k k' -> (length k < length k')%nat.
Proof.
  intros [[l ->] Hne]. rewrite length_app. destruct l as [|x l]; [|simpl; lia].
  by rewrite app_nil_r in Hne.
Qed.

Lemma prefix_comparable {A} (k k' l : list A) : k `prefix_of` l -> k' `prefix_of` l -> k `prefix_of` k' \/ k' `prefix_of` k.
Proof. intros H1 H2. destruct (prefix_weak_total k k' l); tauto. Qed.

Lemma strict_prefix_trans {A} (k l m : list A) : k `prefix_of` l -> strict_prefix l m -> strict_prefix k m.
Proof.
  intros H1 H2. pose proof (strict_prefix_length _ _ H2). destruct H2 as [H2 _].
  split; [by etrans|]. intros ->. apply prefix_length in H1. lia.
Qed.

Lemma strict_prefix_trans_r {A} (k l m : list A) : strict_prefix k l -> l `prefix_of` m -> strict_prefix k m.
Proof.
  intros H1 H2. pose proof (strict_prefix_length _ _ H1). destruct H1 as [H1 _].
  split; [by etrans|]. intros ->. apply prefix_length in H2. lia.
Qed.

Lemma prefix_cases {A} `{EqDecision A} (k l : list A) : k `prefix_of` l -> k = l \/ strict_prefix k l.
Proof. intros H. destruct (decide (k = l)); [by left|by right]. Qed.

#[global] Instance strict_prefix_dec (k k' : list bool) : Decision (strict_prefix k k').
Proof. unfold strict_prefix. apply _. Defined.

(** * A tree that satisfies the laws of the Patricia library

    A binary trie without path compression: the tree is the list of the prefixes
    inserted so far, a node is the bit string that leads to it, and it exists when
    a stored prefix lies at or below it.  It shows that [PatriciaLaws] can hold
    and is what the concrete runs use. *)

Definition live (t : list prefix_t) (n : list bool) : bool :=
  existsb (fun p => bool_decide (n `prefix_of` prefix_bits p)) t.
Definition trie_prefix (t : list prefix_t) (n : list bool) : option prefix_t :=
  snd <$> list_find (fun p => prefix_bits p = n) t.
Definition if_live (t : list prefix_t) (n : list bool) : option (list bool) :=
  if live t n then Some n else None.
Definition trie_parent (t : list prefix_t) (n : list bool) : option (list bool) :=
  match n with [] => None | b :: l => if live t n then Some (removelast n) else None end.
Definition trie_lookup (p : prefix_t) (t : list prefix_t) : list prefix_t * list bool * bool :=
  match trie_prefix t (prefix_bits p) with
  | Some _ => (t, prefix_bits p, false)
  | None => (t ++ [p], prefix_bits p, true)
  end.

#[global] Instance trie : Patricia (list prefix_t) (list bool) := {|
  New_Patricia := [];
  patricia_lookup := trie_lookup;
  node_parent := trie_parent;
  node_l t n := if_live t (n ++ [false]);
  node_r t n := if_live t (n ++ [true]);
  node_prefix := trie_prefix
|}.

Definition trie_wf (t : list prefix_t) : Prop :=
  Forall prefix_ok t.
Definition trie_rank (t : list prefix_t) (n : list bool) : nat :=
  if live t n then length n else 0%nat.

Lemma live_spec t n : live t n = true <-> exists p, p ∈ t /\ n `prefix_of` prefix_bits p.
Proof.
  unfold live. rewrite existsb_exists. split; intros (p & Hp & Hn); exists p.
  - split; [by apply list_elem_of_In|by apply bool_decide_eq_true in Hn].
  - split; [by apply list_elem_of_In|by apply bool_decide_eq_true].
Qed.

Lemma live_below t n m : live t n = true -> m `prefix_of` n -> live t m = true.
Proof. rewrite !live_spec. intros (p & ? & ?) ?. exists p. split; [done|by etrans]. Qed.

Lemma trie_prefix_Some t n p : trie_prefix t n = Some p -> p ∈ t /\ prefix_bits p = n.
Proof.
  unfold trie_prefix. destruct (list_find _ t) as [[i q]|] eqn:E; [|done]. intros [= <-].
  apply list_find_Some in E as (E & Hq & _). split; [by eapply list_elem_of_lookup_2|done].
Qed.

Lemma trie_parent_Some t n m :
  trie_parent t n = Some m <-> live t n = true /\ exists b, n = m ++ [b].
Proof.
  unfold trie_parent. destruct n as [|x l].
  { split; [done|]. intros [_ [b E]]. symmetry in E. by apply app_nil in E as [_ ?]. }
  destruct (live t (x :: l)); [|split; [done|by intros [? _]]]. split.
  - intros [= <-]. split; [done|]. exists (List.last (x :: l) true). by apply app_removelast_last.
  - intros [_ [b ->]]. f_equal. apply removelast_last.
Qed.

Lemma trie_ancestor t n m :
  live t n = true -> ancestor t n m <-> strict_prefix m n.
Proof.
  intros Hl. split.
  - unfold ancestor. intros Ha. clear Hl. induction Ha as [n m E|n k m E _ IH];
      apply trie_parent_Some in E as [_ [b ->]].
    + split; [by exists [b]|]. intros E%(f_equal length). rewrite length_app in E. simpl in E. lia.
    + eapply strict_prefix_trans_r; [exact IH|]. by exists [b].
  - intros [[l ->] Hne]. revert Hl Hne. induction l as [|b l IH] using rev_ind; intros Hl Hne.
    { by rewrite app_nil_r in Hne. }
    assert (node_parent t (m ++ l ++ [b]) = Some (m ++ l)) as E.
    { apply trie_parent_Some. split; [done|]. exists b. by rewrite (assoc_L (++)). }
    destruct (decide (l = [])) as [->|Hl2].
    + rewrite app_nil_r in E. by apply tc_once.
    + eapply tc_l; [exact E|]. apply IH.
      * eapply live_below; [exact Hl|]. exists [b]. by rewrite (assoc_L (++)).
      * intros E2. rewrite <- (app_nil_r m) in E2 at 1. by apply app_inv_head in E2.
Qed.

Lemma trie_live_prefix t n p : trie_prefix t n = Some p -> live t n = true.
Proof. intros [H <-]%trie_prefix_Some. apply live_spec. by exists p. Qed.

Lemma trie_prefix_app t p n :
  trie_prefix t (prefix_bits p) = None ->
  trie_prefix (t ++ [p]) n = if decide (n = prefix_bits p) then Some p else trie_prefix t n.
Proof.
  unfold trie_prefix. intros Hn. destruct (decide (n = prefix_bits p)) as [->|Hne].
  - destruct (list_find _ t) eqn:E; [done|].
    rewrite list_find_app_r by done. simpl. by rewrite decide_True.
  - destruct (list_find (fun p0 => prefix_bits p0 = n) t) as [[i q]|] eqn:E.
    + by rewrite (list_find_app_l _ _ _ _ _ E).
    + rewrite list_find_app_r by done. simpl. by rewrite decide_False.
Qed.

#[global] Program Instance trie_laws : PatriciaLaws (list prefix_t) (list bool) := {|
  pt_wf := trie_wf;
  pt_rank := trie_rank
|}.
Next Obligation. split; [constructor|done]. Qed.
Next Obligation.
  intros t n Hw. simpl in *. unfold trie_rank. destruct (live t n) eqn:E; [|lia].
  apply live_spec in E as (p & Hp & Hn%prefix_length).
  eapply Forall_forall in Hw as [_ Hw]; [|exact Hp]. lia.
Qed.
Next Obligation.
  intros t n m _ [Hl [b ->]]%trie_parent_Some. simpl. unfold trie_rank. rewrite Hl.
  rewrite (live_below _ _ m Hl) by by exists [b]. rewrite length_app. simpl. lia.
Qed.
Next Obligation.
  intros t n c _. simpl. rewrite trie_parent_Some. unfold if_live. split.
  - intros [Hl [[|] ->]]; rewrite Hl; tauto.
  - intros [E|E]; case_match; simplify_eq; split; eauto.
Qed.
Next Obligation.
  intros t n c _. simpl. unfold if_live. intros E1 E2. repeat case_match; simplify_eq.
Qed.
Next Obligation.
  intros t n m p q _ Hp Hq. rewrite trie_ancestor by by eapply trie_live_prefix.
  apply trie_prefix_Some in Hp as [_ <-]. by apply trie_prefix_Some in Hq as [_ <-].
Qed.
Next Obligation.
  intros t n m p q _ [_ <-]%trie_prefix_Some [_ <-]%trie_prefix_Some. done.
Qed.
Next Obligation.
  intros t p t' n ref Hw Hok. simpl in *. unfold trie_lookup.
  destruct (trie_prefix t (prefix_bits p)) as [q|] eqn:E; intros [= <- <- <-].
  - pose proof (trie_prefix_Some _ _ _ E) as [Hin Hq]. rewrite E.
    eapply Forall_forall in Hw as Hqok; [|exact Hin].
    split_and!; try done. exists q. split; [done|]. split; [done|].
    destruct Hqok as [<- _], Hok as [<- _]. by rewrite Hq.
  - split_and!.
    + unfold trie_wf. by rewrite Forall_app, Forall_singleton.
    + exists p. by rewrite trie_prefix_app, decide_True.
    + intros m Hm. by rewrite trie_prefix_app, decide_False.
    + by rewrite E.
    + by rewrite E.
Qed.
