(* ===== verification/SList.v ===== *)
(** * Singly linked lists as their clients see them (util/slist.c)

    A list is the sequence of its data pointers and the field [size].  The two
    can part when a client relinks nodes by hand, and [size] decides how an
    element is appended. *)
From S2P Require Import Prelude.

Record SList (A : Type) := mkSList { nodes : list A; size : Z }.
Arguments mkSList {A} _ _.
Arguments nodes {A} _.
Arguments size {A} _.

Definition initSList {A} : SList A := mkSList [] 0.

(** [appendDataToSList] inserts at the index [size]: in front at 0, else after
    the node [last], which is NULL in an empty list. *)
Definition appendDataToSList {A} (self : SList A) (x : A) : outcome (SList A) :=
  if size self =? 0 then Ok (mkSList (x :: nodes self) 1)
  else match nodes self with
       | [] => Fault NullDeref
       | _ => Ok (mkSList (nodes self ++ [x]) (size self + 1))
       end.

(** [deleteFromSList] of the element at an index. *)
Definition deleteAtSList {A} (self : SList A) (i : nat) : SList A :=
  if size self =? 0 then self else mkSList (delete i (nodes self)) (size self - 1).

Definition setAtSList {A} (self : SList A) (i : nat) (x : A) : SList A :=
  mkSList (<[i := x]> (nodes self)) (size self).

Definition sl_ok {A} (l : SList A) : Prop := size l = Z.of_nat (length (nodes l)).

Lemma sl_ok_init {A} : sl_ok (@initSList A).
Proof. done. Qed.

Lemma append_ok {A} (l : SList A) x :
  sl_ok l -> appendDataToSList l x = Ok (mkSList (nodes l ++ [x]) (size l + 1)).
Proof.
  unfold sl_ok, appendDataToSList. intros E. rewrite E. destruct (nodes l) as [|y k]; done.
Qed.

Lemma append_sl_ok {A} (l : SList A) x : sl_ok l -> sl_ok (mkSList (nodes l ++ [x]) (size l + 1)).
Proof. unfold sl_ok. cbn [size nodes]. rewrite length_app. simpl. lia. Qed.

Lemma set_sl_ok {A} (l : SList A) i x : sl_ok l -> sl_ok (setAtSList l i x).
Proof. unfold sl_ok. simpl. by rewrite length_insert. Qed.

Lemma delete_ok {A} (l : SList A) i :
  sl_ok l -> (i < length (nodes l))%nat ->
  deleteAtSList l i = mkSList (delete i (nodes l)) (size l - 1)
  /\ sl_ok (deleteAtSList l i).
Proof.
  unfold sl_ok, deleteAtSList. intros E Hi.
  destruct (Z.eqb_spec (size l) 0); [lia|]. split; [done|]. cbn [size nodes].
  apply lookup_lt_is_Some in Hi as [y Hy].
  rewrite length_delete by done. apply lookup_lt_Some in Hy. lia.
Qed.
#[export] Hint Resolve append_sl_ok set_sl_ok sl_ok_init : srx.
