(* ===== verification/SListHeap.v ===== *)
(** * Singly linked lists with their nodes (util/slist.c, util/slist.h)

    The nodes live in a heap, and so do the data blocks a list allocates itself.
    [sl_rep] relates a list to the sequence of its nodes; the operations are shown
    to work on that sequence.  Clients that keep pointers to nodes use this view;
    SList is the view of the ones that do not. *)
From S2P Require Import Prelude.

Module SListHeap.

(** ** Data *)
Record SListNode := mkSListNode {
  data : option positive;
  allocSize : Z;
  next : option positive
}.
(** [last] is not reset when a list becomes empty, and not set in a new one. *)
Record SList := mkSList {
  root : option positive;
  last : option positive;
  size : Z
}.

(** A node of a list: its address, its data and the size of the data. *)
Abbreviation cell := (positive * (option positive * Z))%type.

Section ops.
Context {A : Type}.
Implicit Types (self : SList) (p q : option positive) (n : nat).

(** The nodes and the data blocks; a block is [None] until it is written.  An
    address that was freed is not given out again, so that its use is seen. *)
Record Heap := mkHeap {
  snodes : gmap positive SListNode;
  blocks : gmap positive (option A);
  freed : gset positive
}.
Implicit Types (h : Heap) (N : gmap positive SListNode).

Definition set_snodes h N : Heap := mkHeap N (blocks h) (freed h).
Definition fresh_node h : positive := fresh (dom (snodes h) ∪ freed h).
Definition fresh_block h : positive := fresh (dom (blocks h) ∪ freed h).

(** The node behind a pointer. *)
Definition node_at N p : outcome SListNode :=
  match p with None => Fault NullDeref | Some a => deref N a end.
Definition set_next (nd : SListNode) p : SListNode := mkSListNode (data nd) (allocSize nd) p.

Definition free_node h (a : positive) : outcome Heap :=
  _ ← deref (snodes h) a; Ok (mkHeap (delete a (snodes h)) (blocks h) ({[a]} ∪ freed h)).
Definition free_block h p : outcome Heap :=
  match p with
  | None => Ok h
  | Some a => _ ← deref (blocks h) a; Ok (mkHeap (snodes h) (delete a (blocks h)) ({[a]} ∪ freed h))
  end.

(** A walk over a list visits every node of the heap at most once. *)
Definition walk_fuel h : nat := S (base.size (snodes h)).

(** ** Operations *)
Definition initSList self : SList := mkSList None (last self) 0.
Definition sizeOfSList self : Z := size self.

(** The loop of [releaseSList]. *)
Fixpoint release_walk (fuel : nat) h p : outcome Heap :=
  match fuel with
  | O => Fault OutOfFuel
  | S fuel =>
      match p with
      | None => Ok h
      | Some a =>
          nd ← deref (snodes h) a;
          h ← (if 0 <? allocSize nd then free_block h (data nd) else Ok h);
          h ← free_node h a;
          release_walk fuel h (next nd)
      end
  end.
Definition releaseSList h self : outcome Heap :=
  if 0 <? size self then release_walk (walk_fuel h) h (root self) else Ok h.
Definition emptySList h self : outcome (Heap * SList) :=
  h ← releaseSList h self; Ok (h, initSList self).

(** [n] steps along the list. *)
Fixpoint next_nodes n N p : outcome (option positive) :=
  match n with
  | O => Ok p
  | S n => nd ← node_at N p; next_nodes n N (next nd)
  end.

(** [insertIntoSList]: the new node and its data; [None] is a NULL result. *)
Definition insertIntoSList h self (index dataSize : Z) : outcome (Heap * SList * option (positive * option positive)) :=
  if size self <? index then Ok (h, self, None)
  else
    let a := fresh_node h in
    let '(d, alloc, B) := if 0 <? dataSize
                          then let b := fresh_block h in (Some b, dataSize, <[b := None]> (blocks h))
                          else (None, 0, blocks h) in
    let N := snodes h in
    if index =? 0 then
      let last := match root self with None => Some a | Some _ => last self end in
      Ok (mkHeap (<[a := mkSListNode d alloc (root self)]> N) B (freed h), mkSList (Some a) last (size self + 1), Some (a, d))
    else if index =? size self then
      match last self with
      | None => Fault NullDeref
      | Some l =>
          nd ← deref N l;
          Ok (mkHeap (<[a := mkSListNode d alloc None]> (<[l := set_next nd (Some a)]> N)) B (freed h),
              mkSList (root self) (Some a) (size self + 1), Some (a, d))
      end
    else
      prevNode ← next_nodes (Z.to_nat (index - 1)) N (root self);
      match prevNode with
      | None => Fault NullDeref
      | Some l =>
          nd ← deref N l;
          Ok (mkHeap (<[a := mkSListNode d alloc (next nd)]> (<[l := set_next nd (Some a)]> N)) B (freed h),
              mkSList (root self) (last self) (size self + 1), Some (a, d))
      end.

Definition insertDataIntoSList h self (index : Z) p : outcome (Heap * SList * bool) :=
  '(h, self, newNode) ← insertIntoSList h self index 0;
  match newNode with
  | None => Ok (h, self, false)
  | Some (a, _) =>
      nd ← deref (snodes h) a;
      Ok (set_snodes h (<[a := mkSListNode p (allocSize nd) (next nd)]> (snodes h)), self, true)
  end.

Definition appendToSList h self (dataSize : Z) : outcome (Heap * SList * option (positive * option positive)) :=
  insertIntoSList h self (size self) dataSize.
Definition appendDataToSList h self p : outcome (Heap * SList * bool) :=
  insertDataIntoSList h self (size self) p.

(** What [deleteFromSList] does with the node it found, [nd] at address [a]. *)
Definition unlink_node h self (prevNode : option positive) (a : positive) (nd : SListNode) : outcome (Heap * SList) :=
  '(h, r, l) ← match prevNode with
               | Some b =>
                   pd ← deref (snodes h) b;
                   Ok (set_snodes h (<[b := set_next pd (next nd)]> (snodes h)), root self,
                       match next nd with None => prevNode | Some _ => last self end)
               | None => Ok (h, next nd, last self)
               end;
  h ← free_node h a;
  Ok (h, mkSList r l (size self - 1)).

(** The loop of [deleteFromSList]. *)
Fixpoint delete_walk (fuel : nat) h self (prevNode currNode : option positive) p : outcome (Heap * SList * bool) :=
  match fuel with
  | O => Fault OutOfFuel
  | S fuel =>
      match currNode with
      | None => Ok (h, self, false)
      | Some a =>
          nd ← deref (snodes h) a;
          if decide (data nd = p) then
            '(h, self) ← unlink_node h self prevNode a nd; Ok (h, self, true)
          else delete_walk fuel h self currNode (next nd) p
      end
  end.
Definition deleteFromSList h self p : outcome (Heap * SList * bool) :=
  if 0 <? size self then delete_walk (walk_fuel h) h self None (root self) p else Ok (h, self, false).

Definition shiftFromSList h self : outcome (Heap * SList * option positive) :=
  if size self =? 0 then Ok (h, self, None)
  else
    nd ← node_at (snodes h) (root self);
    h ← match root self with None => Ok h | Some a => free_node h a end;
    Ok (h, mkSList (next nd) (last self) (size self - 1), data nd).

(** The loop of [existsInSList]. *)
Fixpoint exists_walk (fuel : nat) N (q : option positive) p : outcome bool :=
  match fuel with
  | O => Fault OutOfFuel
  | S fuel =>
      match q with
      | None => Ok false
      | Some a => nd ← deref N a; if decide (data nd = p) then Ok true else exists_walk fuel N (next nd) p
      end
  end.
Definition existsInSList h self p : outcome bool :=
  if 0 <? size self then exists_walk (walk_fuel h) (snodes h) (root self) p else Ok false.

Definition getNodeFromSList h self (index : Z) : outcome (option positive) :=
  if size self <=? index then Ok None else next_nodes (Z.to_nat index) (snodes h) (root self).
Definition getDataOfSListNode h p : outcome (option positive) :=
  match p with None => Ok None | Some _ => nd ← node_at (snodes h) p; Ok (data nd) end.
Definition getFromSList h self (index : Z) : outcome (option positive) :=
  node ← getNodeFromSList h self index; getDataOfSListNode h node.

Definition getRootNodeOfSList self : option positive := root self.
Definition getLastNodeOfSList self : option positive := last self.
Definition getNextNodeOfSListNode h p : outcome (option positive) :=
  match p with None => Ok None | Some _ => nd ← node_at (snodes h) p; Ok (next nd) end.

(** [setDataOfSListNode] *)
Definition setDataOfSListNode h (a : positive) p : outcome Heap :=
  nd ← deref (snodes h) a;
  h ← (if 0 <? allocSize nd then free_block h (data nd) else Ok h);
  Ok (set_snodes h (<[a := mkSListNode p 0 (next nd)]> (snodes h))).

(** [foreachInSList] and the macro [FOREACH_SLIST]: the data pointers in the
    order in which they are visited. *)
Fixpoint foreach_walk (fuel : nat) N p : outcome (list (option positive)) :=
  match fuel with
  | O => Fault OutOfFuel
  | S fuel =>
      match p with
      | None => Ok []
      | Some a => nd ← deref N a; l ← foreach_walk fuel N (next nd); Ok (data nd :: l)
      end
  end.
Definition foreachInSList h self : outcome (list (option positive)) :=
  if 0 <? size self then foreach_walk (walk_fuel h) (snodes h) (root self) else Ok [].

(** [moveSList]: the second list becomes empty. *)
Definition moveSList h (to from : SList) : outcome (Heap * SList * SList * option positive) :=
  if size from =? 0 then Ok (h, to, from, None)
  else
    '(h, to) ← (if size to =? 0 then Ok (h, mkSList (root from) (last from) (size from))
                else nd ← node_at (snodes h) (last to);
                     match last to with
                     | None => Fault NullDeref
                     | Some l => Ok (set_snodes h (<[l := set_next nd (root from)]> (snodes h)),
                                     mkSList (root to) (last from) (size to + size from))
                     end);
    Ok (h, to, mkSList None (last from) 0, root from).

(** [moveSListNode] of the node [a] that follows [prevNode]. *)
Definition moveSListNode h (to from : SList) (a : positive) (prevNode : option positive)
    : outcome (Heap * SList * SList) :=
  '(h, r) ← (if size to =? 0 then Ok (h, Some a)
             else match last to with
                  | None => Fault NullDeref
                  | Some l => nd ← deref (snodes h) l;
                              Ok (set_snodes h (<[l := set_next nd (Some a)]> (snodes h)), root to)
                  end);
  let to := mkSList r (Some a) (size to + 1) in
  node ← deref (snodes h) a;
  '(h, r) ← match prevNode with
            | None => Ok (h, next node)
            | Some b => pd ← deref (snodes h) b;
                        Ok (set_snodes h (<[b := set_next pd (next node)]> (snodes h)), root from)
            end;
  node ← deref (snodes h) a;
  Ok (set_snodes h (<[a := set_next node None]> (snodes h)), to, mkSList r (last from) (size from - 1)).

(** ** Representation *)

Implicit Types (l : list cell) (c : cell).

Fixpoint lseg N p l q : Prop :=
  match l with
  | [] => p = q
  | (a, (d, z)) :: l => p = Some a /\ exists r, N !! a = Some (mkSListNode d z r) /\ lseg N r l q
  end.

Record sl_rep h self l : Prop := {
  sr_nodup : NoDup l.*1;
  sr_lseg : lseg (snodes h) (root self) l None;
  sr_size : size self = Z.of_nat (length l);
  sr_last : forall c, list.last l = Some c -> last self = Some c.1
}.
(** The data pointers. *)
Definition contents l : list (option positive) := (fun c => c.2.1) <$> l.

Lemma lseg_app N p l1 l2 q : lseg N p (l1 ++ l2) q <-> exists r, lseg N p l1 r /\ lseg N r l2 q.
Proof.
  revert p. induction l1 as [|(a & d & z) l1 IH]; intros p; simpl.
  - split; [intros Hl; by exists p|by intros (r & -> & ?)].
  - setoid_rewrite IH. naive_solver.
Qed.

Lemma lseg_insert N p l q a nd : a ∉ l.*1 -> lseg N p l q -> lseg (<[a := nd]> N) p l q.
Proof.
  revert p. induction l as [|(b & d & z) l IH]; intros p Ha; simpl; [done|].
  rewrite fmap_cons, not_elem_of_cons in Ha. destruct Ha as [Hne Ha]. intros (-> & r & Hb & Hl).
  split; [done|]. exists r. rewrite lookup_insert_ne by done. auto.
Qed.

Lemma lseg_delete N p l q a : a ∉ l.*1 -> lseg N p l q -> lseg (delete a N) p l q.
Proof.
  revert p. induction l as [|(b & d & z) l IH]; intros p Ha; simpl; [done|].
  rewrite fmap_cons, not_elem_of_cons in Ha. destruct Ha as [Hne Ha]. intros (-> & r & Hb & Hl).
  split; [done|]. exists r. rewrite lookup_delete_ne by done. auto.
Qed.

Lemma lseg_lookup N p l q a d z : lseg N p l q -> (a, (d, z)) ∈ l -> exists r, N !! a = Some (mkSListNode d z r).
Proof.
  revert p. induction l as [|(b & e & y) l IH]; intros p; simpl; [by rewrite elem_of_nil|].
  intros (-> & r & Hb & Hl) [[= -> -> ->]|Hin]%elem_of_cons; eauto.
Qed.

Lemma lseg_dom N p l q a : lseg N p l q -> a ∈ l.*1 -> a ∈ dom N.
Proof.
  intros Hl ((b & d & z) & -> & Hin)%list_elem_of_fmap. apply elem_of_dom.
  destruct (lseg_lookup N p l q b d z Hl Hin) as [r Hr]. eauto.
Qed.

Lemma lseg_fuel N p l q : NoDup l.*1 -> lseg N p l q -> (length l <= base.size N)%nat.
Proof.
  intros Hnd Hl. transitivity (length l.*1); [by rewrite length_fmap|].
  rewrite <- (size_list_to_set (C := gset positive) _ Hnd), <- (size_dom N). apply subseteq_size. intros a Ha%elem_of_list_to_set. by eapply lseg_dom.
Qed.

Lemma next_nodes_lseg N p l1 l2 q r : lseg N p l1 r -> lseg N r l2 q -> next_nodes (length l1) N p = Ok r.
Proof.
  revert p. induction l1 as [|(a & d & z) l1 IH]; intros p; simpl; [by intros ->|].
  intros (-> & r' & Ha & Hl) H2. unfold node_at, deref. rewrite Ha. simpl_outcome. by apply IH.
Qed.

Lemma fresh_cell h self l : sl_rep h self l -> fresh_node h ∉ l.*1.
Proof. intros Hr Hin. apply (is_fresh (dom (snodes h) ∪ freed h)), elem_of_union_l. eapply lseg_dom; [apply (sr_lseg _ _ _ Hr)|done]. Qed.

(** Linking a node behind another one. *)
Lemma lseg_link N p l1 l2 b x nd a d z :
  NoDup (l1 ++ (b, x) :: l2).*1 -> a ∉ (l1 ++ (b, x) :: l2).*1 ->
  lseg N p (l1 ++ (b, x) :: l2) None -> N !! b = Some nd ->
  lseg (<[a := mkSListNode d z (next nd)]> (<[b := set_next nd (Some a)]> N)) p (l1 ++ (b, x) :: (a, (d, z)) :: l2) None.
Proof.
  rewrite !fmap_app, !fmap_cons. cbn [fst]. intros Hnd Ha Hl Hb. apply lseg_app in Hl as (r1 & H1 & H2).
  destruct x as [e y]. cbn [lseg] in H2. destruct H2 as (-> & r & Hb' & H2). rewrite Hb' in Hb. injection Hb as <-.
  rewrite not_elem_of_app, not_elem_of_cons in Ha. destruct Ha as (Ha1 & Hab & Ha2).
  apply NoDup_app in Hnd as (_ & H12 & Hnd2). apply NoDup_cons in Hnd2 as [Hb2 _].
  assert (b ∉ l1.*1) as Hb1 by (intros Hin; by apply (H12 b Hin), list_elem_of_here).
  apply lseg_app. exists (Some b). split; [by do 2 (apply lseg_insert; [done|])|].
  cbn [lseg]. split; [done|]. exists (Some a). rewrite lookup_insert_ne, lookup_insert_eq by done. split; [done|].
  split; [done|]. exists r. rewrite lookup_insert_eq. split; [done|]. by do 2 (apply lseg_insert; [done|]).
Qed.

(** Unlinking the node behind another one. *)
Lemma lseg_unlink N p l1 l2 b x pd a d z r :
  NoDup (l1 ++ (b, x) :: (a, (d, z)) :: l2).*1 ->
  lseg N p (l1 ++ (b, x) :: (a, (d, z)) :: l2) None -> N !! b = Some pd -> N !! a = Some (mkSListNode d z r) ->
  lseg (delete a (<[b := set_next pd r]> N)) p (l1 ++ (b, x) :: l2) None.
Proof.
  rewrite !fmap_app, !fmap_cons. cbn [fst]. intros Hnd Hl Hb Ha. apply lseg_app in Hl as (r1 & H1 & H2).
  destruct x as [e y]. cbn [lseg] in H2. destruct H2 as (-> & r2 & Hb' & -> & r3 & Ha' & H2).
  rewrite Hb' in Hb. injection Hb as <-. rewrite Ha' in Ha. injection Ha as ->.
  apply NoDup_app in Hnd as (_ & H12 & Hnd2). apply NoDup_cons in Hnd2 as [Hb2 Hnd3].
  apply NoDup_cons in Hnd3 as [Ha2 _]. rewrite not_elem_of_cons in Hb2. destruct Hb2 as [Hab Hb2].
  assert (b ∉ l1.*1) as Hb1 by (intros Hin; by apply (H12 b Hin), list_elem_of_here).
  assert (a ∉ l1.*1) as Ha1 by (intros Hin; by apply (H12 a Hin), list_elem_of_further, list_elem_of_here).
  apply lseg_app. exists (Some b). split; [by apply lseg_delete, lseg_insert|].
  cbn [lseg]. split; [done|]. exists r. rewrite lookup_delete_ne, lookup_insert_eq by done. split; [done|].
  by apply lseg_delete, lseg_insert.
Qed.

(** ** The operations on the sequence of nodes *)

(** The new cell of an insertion. *)
Definition new_cell h (dataSize : Z) : cell :=
  (fresh_node h,
   if 0 <? dataSize then (Some (fresh_block h), dataSize) else (None, 0)).
Definition new_blocks h (dataSize : Z) : gmap positive (option A) :=
  if 0 <? dataSize then <[fresh_block h := None]> (blocks h) else blocks h.

Lemma dom_link N (a b : positive) x y : is_Some (N !! b) -> dom (<[a := x]> (<[b := y]> N)) = {[a]} ∪ dom N.
Proof. intros Hb. by rewrite dom_insert_L, dom_insert_lookup_L. Qed.

Lemma insert_spec h self l (i : nat) dataSize : sl_rep h self l -> (i <= length l)%nat ->
  let c := new_cell h dataSize in
  exists h' self', insertIntoSList h self (Z.of_nat i) dataSize = Ok (h', self', Some (c.1, c.2.1))
    /\ sl_rep h' self' (take i l ++ c :: drop i l) /\ blocks h' = new_blocks h dataSize /\ freed h' = freed h
    /\ dom (snodes h') = {[c.1]} ∪ dom (snodes h).
Proof.
  intros Hr Hi c. pose proof Hr as [Hnd Hl Hs Hlast]. pose proof (fresh_cell h self l Hr) as Hf.
  set (a := fresh_node h) in *. set (x := c.2).
  assert (c = (a, x)) as Ec by done. destruct x as [d z] eqn:Ex.
  assert ((if 0 <? dataSize then (Some (fresh_block h), dataSize, <[fresh_block h := None]> (blocks h))
           else (None, 0, blocks h)) = (d, z, new_blocks h dataSize)) as Eb.
  { subst x. unfold c, new_cell in Ex. cbn [snd] in Ex. unfold new_blocks. by destruct (0 <? dataSize); injection Ex as <- <-. }
  assert (NoDup (take i l ++ (a, (d, z)) :: drop i l).*1) as Hnd'.
  { rewrite fmap_app, fmap_cons. cbn [fst]. rewrite <- Permutation_middle, <- fmap_app, take_drop. by constructor. }
  unfold insertIntoSList. rewrite Hs, (proj2 (Z.ltb_ge _ _)) by lia. cbv zeta. rewrite Eb. fold a. rewrite Ec.
  assert (Z.of_nat (length (take i l ++ (a, (d, z)) :: drop i l)) = Z.of_nat (length l) + 1) as Hlen.
  { rewrite length_app, length_take. cbn [length]. rewrite length_drop. lia. }
  destruct (Z.eqb_spec (Z.of_nat i) 0) as [Ei|Ei].
  { assert (i = 0)%nat as -> by lia. rewrite take_0, drop_0 in *. cbn [app] in *.
    eexists _, _. split; [done|]. split; [|split; [done|split; [done|apply dom_insert_L]]]. split; [done| |done|]; cbn [snodes root last].
    - split; [done|]. eexists. rewrite lookup_insert_eq. split; [done|]. by apply lseg_insert.
    - intros e He. destruct l as [|[b y] l]; [simpl in Hl; rewrite Hl; by injection He as <-|].
      cbn [lseg] in Hl. destruct y, Hl as [-> _]. by apply Hlast. }
  assert (l = take i l ++ drop i l) as El by by rewrite take_drop.
  destruct (take i l) as [|c0 l0 _] eqn:Et using rev_ind; [destruct i, l; simpl in *; (done || lia)|].
  destruct c0 as [b y]. rewrite <- (assoc_L (++)) in *. cbn [app] in *.
  assert (length l0 = i - 1)%nat as Hl0.
  { apply (f_equal length) in Et. rewrite length_take, length_app in Et. simpl in Et. lia. }
  assert (exists nd, snodes h !! b = Some nd) as [nd Hb].
  { destruct y as [d1 z1]. destruct (lseg_lookup _ _ _ _ b d1 z1 Hl); [|by eexists].
    rewrite El. apply elem_of_app. right. apply list_elem_of_here. }
  assert (lseg (<[a := mkSListNode d z (next nd)]> (<[b := set_next nd (Some a)]> (snodes h))) (root self)
            (l0 ++ (b, y) :: (a, (d, z)) :: drop i l) None) as Hl'.
  { apply lseg_link; try done; by rewrite <- El. }
  destruct (Z.eqb_spec (Z.of_nat i) (Z.of_nat (length l))) as [Ei2|Ei2].
  - assert (drop i l = []) as Ed by (apply drop_ge; lia). rewrite Ed in *.
    assert (last self = Some b) as ->.
    { rewrite (Hlast (b, y)); [done|]. rewrite El at 1. by rewrite last_app. }
    unfold deref. rewrite Hb. simpl_outcome. eexists _, _. split; [done|].
    split; [|split; [done|split; [done|by apply dom_link]]].
    assert (next nd = None) as En.
    { rewrite El in Hl. apply lseg_app in Hl as (r & _ & H2). destruct y. cbn [lseg] in H2.
      destruct H2 as (_ & r' & Hb' & <-). rewrite Hb' in Hb. by injection Hb as <-. }
    rewrite En in Hl'. split; [done|done|done|]. cbn [last]. intros e He.
    rewrite last_app in He. by injection He as <-.
  - assert (next_nodes (Z.to_nat (Z.of_nat i - 1)) (snodes h) (root self) = Ok (Some b)) as ->.
    { rewrite El in Hl. apply lseg_app in Hl as (r & H1 & H2).
      replace (Z.to_nat (Z.of_nat i - 1)) with (length l0) by lia. erewrite next_nodes_lseg; [|done|done].
      destruct y. cbn [lseg] in H2. by destruct H2 as [-> _]. }
    simpl_outcome. unfold deref. rewrite Hb. simpl_outcome. eexists _, _. split; [done|].
    split; [|split; [done|split; [done|by apply dom_link]]].
    split; [done|done|done|]. cbn [last]. intros e He. apply Hlast.
    assert (drop i l <> []) as Hne by (intros E; apply (f_equal length) in E; rewrite length_drop in E; simpl in E; lia).
    rewrite El at 1. rewrite last_app in He |- *. cbn [list.last] in He |- *. by destruct (drop i l).
Qed.

(** Deleting the first node with a data pointer. *)
Fixpoint remove_data p l : list cell :=
  match l with
  | [] => []
  | c :: l => if decide (c.2.1 = p) then l else c :: remove_data p l
  end.

Lemma last_cons_ne (B : Type) (x : B) (l : list B) : l <> [] -> list.last (x :: l) = list.last l.
Proof. by destruct l. Qed.

Lemma lseg_end N p l q1 q2 : lseg N p l q1 -> lseg N p l q2 -> q1 = q2.
Proof.
  revert p. induction l as [|(b & e & y) l IH]; intros p; simpl; [congruence|].
  intros (-> & r & Hb & H1) (_ & r' & Hb' & H2). rewrite Hb in Hb'. injection Hb' as <-. eauto.
Qed.

Lemma free_node_eq N B F a : is_Some (N !! a) -> free_node (mkHeap N B F) a = Ok (mkHeap (delete a N) B ({[a]} ∪ F)).
Proof. intros [nd Ha]. unfold free_node, deref. cbn [snodes]. by rewrite Ha. Qed.

Lemma unlink_spec h self l1 l a d z r :
  sl_rep h self (l1 ++ (a, (d, z)) :: l) -> snodes h !! a = Some (mkSListNode d z r) -> lseg (snodes h) r l None ->
  exists h' self', unlink_node h self (fst <$> list.last l1) a (mkSListNode d z r) = Ok (h', self')
    /\ sl_rep h' self' (l1 ++ l) /\ blocks h' = blocks h /\ freed h' = {[a]} ∪ freed h /\ snodes h' !! a = None.
Proof.
  intros [Hnd Hl Hs Hla] Ha Hl2. destruct h as [N B F]. cbn [snodes blocks] in *.
  assert (NoDup (l1 ++ l).*1) as Hnd'.
  { rewrite fmap_app in Hnd |- *. rewrite fmap_cons in Hnd. rewrite <- Permutation_middle in Hnd. by apply NoDup_cons in Hnd as [_ ?]. }
  unfold unlink_node. destruct l1 as [|[b x] l1 _] using rev_ind.
  - cbn [list.last fmap option_fmap option_map]. simpl_outcome. rewrite free_node_eq by eauto. simpl_outcome.
    eexists _, _. split; [done|]. cbn [app] in *. split; [|do 2 (split; [done|]); apply lookup_delete_eq]. apply NoDup_cons in Hnd as [Ha' _].
    split; [done| | |]; cbn [snodes root size last].
    + by apply lseg_delete.
    + rewrite Hs. cbn [length]. lia.
    + intros e He. apply Hla. rewrite last_cons_ne; [done|]. by destruct l.
  - rewrite last_snoc. cbn [fmap option_fmap option_map fst]. rewrite <- (assoc_L (++)) in *. cbn [app] in *.
    assert (exists pd, N !! b = Some pd) as [pd Hb].
    { destruct x as [d1 z1]. destruct (lseg_lookup _ _ _ _ b d1 z1 Hl); [|by eexists].
      apply elem_of_app. right. apply list_elem_of_here. }
    assert (b <> a) as Hba.
    { rewrite fmap_app, !fmap_cons in Hnd. apply NoDup_app in Hnd as (_ & _ & Hnd). apply NoDup_cons in Hnd as [Hnd _].
      rewrite not_elem_of_cons in Hnd. tauto. }
    unfold deref. cbn [snodes]. rewrite Hb. simpl_outcome. unfold set_snodes. cbn [blocks freed].
    rewrite free_node_eq by (rewrite lookup_insert_ne by done; eauto). simpl_outcome.
    eexists _, _. split; [done|]. split; [|do 2 (split; [done|]); apply lookup_delete_eq].
    split; [done| | |]; cbn [snodes root size last].
    + by eapply lseg_unlink.
    + rewrite Hs, !length_app. cbn [length]. lia.
    + intros e He. rewrite last_app in He. cbn [list.last] in He. destruct l as [|(b2 & e2 & y2) l]; cbn [lseg next] in *.
      * subst r. by injection He as <-.
      * destruct Hl2 as [-> _]. apply Hla. by rewrite last_app.
Qed.

Lemma delete_walk_spec p l : forall fuel h self l1 currNode,
  sl_rep h self (l1 ++ l) -> (length l < fuel)%nat -> lseg (snodes h) (root self) l1 currNode ->
  exists h' self', delete_walk fuel h self (fst <$> list.last l1) currNode p = Ok (h', self', bool_decide (p ∈ contents l))
    /\ sl_rep h' self' (l1 ++ remove_data p l) /\ blocks h' = blocks h
    /\ (p ∉ contents l -> h' = h /\ self' = self)
    /\ forall a, a ∈ l.*1 -> a ∉ (remove_data p l).*1 -> a ∈ freed h' /\ snodes h' !! a = None.
Proof.
  induction l as [|(a & d & z) l IH]; intros [|fuel] h self l1 currNode Hr Hf Hl1; try (simpl in Hf; lia).
  - pose proof (sr_lseg _ _ _ Hr) as Hl. rewrite app_nil_r in Hl. rewrite (lseg_end _ _ _ _ _ Hl1 Hl).
    exists h, self. split; [by rewrite bool_decide_false by (by apply not_elem_of_nil)|]. do 3 (split; [done|]).
    intros a Ha. by apply not_elem_of_nil in Ha.
  - pose proof (sr_lseg _ _ _ Hr) as Hl. apply lseg_app in Hl as (q & H1 & H2). rewrite (lseg_end _ _ _ _ _ H1 Hl1) in H2.
    cbn [lseg] in H2. destruct H2 as (-> & r & Ha & Hl2).
    cbn [delete_walk]. unfold deref at 1. rewrite Ha. simpl_outcome. cbn [data next remove_data fst snd].
    cbn [contents fmap list_fmap fst snd]. fold (contents l). destruct (decide (d = p)) as [->|Hne].
    + destruct (unlink_spec h self l1 l a p z r Hr Ha Hl2) as (h' & self' & -> & Hr' & Hb & Hfr & Hno). simpl_outcome.
      exists h', self'. rewrite bool_decide_true by apply list_elem_of_here. do 3 (split; [done|]).
      split; [intros Hx; by destruct Hx; apply list_elem_of_here|]. intros b [->|?]%elem_of_cons; [|done].
      intros _. rewrite Hfr. set_solver.
    + destruct (IH fuel h self (l1 ++ [(a, (d, z))]) r) as (h' & self' & E & Hr' & Hb & Hn & Hfr).
      * by rewrite <- (assoc_L (++)).
      * simpl in Hf. lia.
      * apply lseg_app. exists (Some a). split; [done|]. cbn [lseg]. split; [done|]. by exists r.
      * rewrite last_snoc in E. rewrite <- (assoc_L (++)) in Hr'. exists h', self'.
        assert (bool_decide (p ∈ d :: contents l) = bool_decide (p ∈ contents l)) as ->.
        { apply bool_decide_ext. rewrite elem_of_cons. split; [by intros [->|?]|by right]. }
        do 3 (split; [done|]). split.
        { intros Hp'. apply Hn. intros Hin. apply Hp'. by apply list_elem_of_further. }
        intros b. rewrite !fmap_cons, !not_elem_of_cons, elem_of_cons. cbn [fst]. intros [->|?] [??]; [done|auto].
Qed.

Lemma walk_fuel_rep h self l : sl_rep h self l -> (length l < walk_fuel h)%nat.
Proof. intros [Hnd Hl _ _]. unfold walk_fuel. pose proof (lseg_fuel _ _ _ _ Hnd Hl). lia. Qed.

Lemma delete_spec h self l p : sl_rep h self l ->
  exists h' self', deleteFromSList h self p = Ok (h', self', bool_decide (p ∈ contents l))
    /\ sl_rep h' self' (remove_data p l) /\ blocks h' = blocks h /\ (p ∉ contents l -> h' = h /\ self' = self)
    /\ forall a, a ∈ l.*1 -> a ∉ (remove_data p l).*1 -> a ∈ freed h' /\ snodes h' !! a = None.
Proof.
  intros Hr. unfold deleteFromSList. destruct l as [|c l].
  - rewrite (sr_size _ _ _ Hr). cbn. exists h, self. rewrite bool_decide_false by (by apply not_elem_of_nil).
    do 4 (split; [done|]). intros a Ha. by apply not_elem_of_nil in Ha.
  - rewrite (sr_size _ _ _ Hr), (proj2 (Z.ltb_lt _ _)) by (cbn [length]; lia).
    apply (delete_walk_spec p (c :: l) _ h self [] (root self) Hr); [by apply (walk_fuel_rep _ self)|done].
Qed.

Lemma shift_spec h self l : sl_rep h self l ->
  match l with
  | [] => shiftFromSList h self = Ok (h, self, None)
  | (a, (d, z)) :: l' => exists h' self', shiftFromSList h self = Ok (h', self', d) /\ sl_rep h' self' l'
                           /\ blocks h' = blocks h
  end.
Proof.
  intros [Hnd Hl Hs Hla]. unfold shiftFromSList. rewrite Hs. destruct l as [|(a & d & z) l]; [done|].
  cbn [lseg] in Hl. destruct Hl as (Ep & r & Ha & Hl). rewrite (proj2 (Z.eqb_neq _ _)) by (cbn [length]; lia).
  rewrite Ep. cbn [node_at]. unfold deref. rewrite Ha. simpl_outcome. destruct h as [N B F]. cbn [snodes] in *.
  rewrite free_node_eq by eauto. simpl_outcome. eexists _, _. split; [done|]. split; [|done].
  apply NoDup_cons in Hnd as [Ha' Hnd]. split; cbn [snodes root size last next]; [done|by apply lseg_delete|cbn [length]; lia|].
  intros e He. apply Hla. rewrite last_cons_ne; [done|]. by destruct l.
Qed.

Lemma getNode_spec h self l (i : nat) : sl_rep h self l ->
  getNodeFromSList h self (Z.of_nat i) = Ok (fst <$> l !! i)
  /\ getFromSList h self (Z.of_nat i) = Ok (default None (contents l !! i)).
Proof.
  intros [Hnd Hl Hs Hla].
  assert (getNodeFromSList h self (Z.of_nat i) = Ok (fst <$> l !! i)) as E.
  { unfold getNodeFromSList. rewrite Hs, Nat2Z.id. destruct (Z.leb_spec (Z.of_nat (length l)) (Z.of_nat i)).
    - by rewrite lookup_ge_None_2 by lia.
    - destruct (lookup_lt_is_Some_2 l i) as [[a [d z]] Hi]; [lia|]. rewrite Hi.
      rewrite <- (take_drop_middle l i _ Hi) in Hl. apply lseg_app in Hl as (r & H1 & H2).
      assert (length (take i l) = i) as El by (rewrite length_take; lia). rewrite <- El at 1.
      erewrite next_nodes_lseg; [|done|done]. cbn [lseg] in H2. by destruct H2 as [-> _]. }
  split; [done|]. unfold getFromSList. rewrite E. simpl_outcome. unfold contents. rewrite list_lookup_fmap.
  destruct (l !! i) as [[a [d z]]|] eqn:Hi; [|done]. cbn [fmap option_fmap option_map fst getDataOfSListNode node_at].
  destruct (lseg_lookup _ _ _ _ a d z Hl (list_elem_of_lookup_2 _ _ _ Hi)) as [r Ha]. unfold deref. by rewrite Ha.
Qed.

Lemma foreach_walk_spec N l : forall fuel p, lseg N p l None -> (length l < fuel)%nat -> foreach_walk fuel N p = Ok (contents l).
Proof.
  induction l as [|(a & d & z) l IH]; intros [|fuel] p Hl Hf; try (simpl in Hf; lia); [by simpl in Hl; subst|].
  cbn [lseg] in Hl. destruct Hl as (-> & r & Ha & Hl). cbn [foreach_walk]. unfold deref. rewrite Ha. simpl_outcome.
  rewrite (IH fuel) by (done || simpl in Hf; lia). done.
Qed.

Lemma foreach_spec h self l : sl_rep h self l -> foreachInSList h self = Ok (contents l).
Proof.
  intros Hr. pose proof (walk_fuel_rep h self l Hr). destruct Hr as [Hnd Hl Hs Hla]. unfold foreachInSList. rewrite Hs.
  destruct l; [done|]. rewrite (proj2 (Z.ltb_lt _ _)) by (cbn [length]; lia). by apply foreach_walk_spec.
Qed.

Lemma exists_walk_spec N p l : forall fuel q, lseg N q l None -> (length l < fuel)%nat ->
  exists_walk fuel N q p = Ok (bool_decide (p ∈ contents l)).
Proof.
  induction l as [|(a & d & z) l IH]; intros [|fuel] q Hl Hf; try (simpl in Hf; lia); [by simpl in Hl; subst|].
  cbn [lseg] in Hl. destruct Hl as (-> & r & Ha & Hl). cbn [exists_walk]. unfold deref. rewrite Ha. simpl_outcome.
  cbn [data next contents fmap list_fmap fst snd]. fold (contents l). destruct (decide (d = p)) as [->|Hne].
  - by rewrite bool_decide_true by apply list_elem_of_here.
  - rewrite (IH fuel) by (done || simpl in Hf; lia). f_equal. apply bool_decide_ext. rewrite elem_of_cons.
    split; [by right|]. by intros [->|?].
Qed.

Lemma exists_spec h self l p : sl_rep h self l -> existsInSList h self p = Ok (bool_decide (p ∈ contents l)).
Proof.
  intros Hr. pose proof (walk_fuel_rep h self l Hr). destruct Hr as [Hnd Hl Hs Hla]. unfold existsInSList. rewrite Hs.
  destruct l; [done|]. rewrite (proj2 (Z.ltb_lt _ _)) by (cbn [length]; lia). by apply exists_walk_spec.
Qed.

(** Releasing a list frees its nodes and the blocks it allocated. *)
Definition owned l : list positive := omap (fun c => if 0 <? c.2.2 then c.2.1 else None) l.

Lemma release_walk_spec l : forall fuel h p, NoDup l.*1 -> NoDup (owned l) -> (forall b, b ∈ owned l -> is_Some (blocks h !! b)) ->
  lseg (snodes h) p l None -> (length l < fuel)%nat ->
  exists h', release_walk fuel h p = Ok h'
    /\ (forall a, snodes h' !! a = if decide (a ∈ l.*1) then None else snodes h !! a)
    /\ (forall b, blocks h' !! b = if decide (b ∈ owned l) then None else blocks h !! b)
    /\ freed h ⊆ freed h' /\ (forall a, a ∈ l.*1 -> a ∈ freed h').
Proof.
  induction l as [|(a & d & z) l IH]; intros [|fuel] [N B F] p Hnd Hno Hb Hl Hf; try (simpl in Hf; lia).
  { simpl in Hl. subst p. eexists. split; [done|]. split; [|split; [|split; [done|]]]; intros x;
      [by rewrite decide_False by apply not_elem_of_nil..|]. intros Hx. by apply not_elem_of_nil in Hx. }
  cbn [lseg] in Hl. destruct Hl as (-> & r & Ha & Hl). cbn [release_walk]. unfold deref at 1. cbn [snodes] in *. rewrite Ha.
  simpl_outcome. cbn [allocSize data next]. rewrite fmap_cons in Hnd. apply NoDup_cons in Hnd as [Hal Hnd].
  set (own := if 0 <? z then d else None).
  assert (owned ((a, (d, z)) :: l) = option_list own ++ owned l) as Eo.
  { unfold owned. cbn [omap list_omap fst snd]. subst own. by destruct (0 <? z), d. }
  rewrite Eo in Hb, Hno. apply NoDup_app in Hno as (_ & Hdis & Hno).
  assert (exists F', (if 0 <? z then free_block (mkHeap N B F) d else Ok (mkHeap N B F))
          = Ok (mkHeap N (match own with Some b => delete b B | None => B end) F') /\ F ⊆ F') as (F' & -> & HF).
  { subst own. destruct (0 <? z), d as [b|]; try by eexists. unfold free_block, deref. cbn [blocks snodes].
    destruct (Hb b) as [y Hy]; [by apply list_elem_of_here|]. cbn in Hy. rewrite Hy.
    eexists. split; [done|]. cbn [freed]. set_solver. }
  simpl_outcome. rewrite free_node_eq by eauto. simpl_outcome.
  edestruct (IH fuel (mkHeap (delete a N) (match own with Some b => delete b B | None => B end) ({[a]} ∪ F')) r)
    as (h' & E & HN & HB & HF1 & HF2).
  - done.
  - done.
  - intros b Hin. cbn [blocks] in *. destruct own as [o|]; [|apply Hb; by apply elem_of_app; right].
    rewrite lookup_delete_ne; [apply Hb; by apply elem_of_app; right|]. intros ->. apply (Hdis b); [by apply list_elem_of_here|done].
  - by apply lseg_delete.
  - simpl in Hf. lia.
  - exists h'. split; [exact E|]. cbn [snodes blocks freed] in *. split; [|split; [|split; [set_solver|]]]; intros x.
    + rewrite HN, fmap_cons. cbn [fst]. destruct (decide (x = a)) as [->|Hne].
      * rewrite lookup_delete_eq, (decide_True (P := a ∈ a :: _)) by apply list_elem_of_here. by destruct (decide _).
      * rewrite lookup_delete_ne by done. apply decide_ext. rewrite elem_of_cons. tauto.
    + rewrite HB, Eo. destruct own as [o|]; [|done]. change (option_list (Some o) ++ owned l) with (o :: owned l).
      destruct (decide (x = o)) as [->|Hne].
      * rewrite lookup_delete_eq, (decide_True (P := o ∈ o :: _)) by apply list_elem_of_here. by destruct (decide _).
      * rewrite lookup_delete_ne by done. apply decide_ext. rewrite elem_of_cons. tauto.
    + rewrite fmap_cons, elem_of_cons. cbn [fst]. intros [->|Hx]; [set_solver|auto].
Qed.

Lemma empty_spec h self l : sl_rep h self l -> NoDup (owned l) -> (forall b, b ∈ owned l -> is_Some (blocks h !! b)) ->
  exists h', emptySList h self = Ok (h', initSList self) /\ sl_rep h' (initSList self) []
    /\ (forall a, snodes h' !! a = if decide (a ∈ l.*1) then None else snodes h !! a)
    /\ (forall b, blocks h' !! b = if decide (b ∈ owned l) then None else blocks h !! b)
    /\ (forall a, a ∈ l.*1 -> a ∈ freed h').
Proof.
  intros Hr Hno Hb. pose proof (walk_fuel_rep h self l Hr) as Hf. destruct Hr as [Hnd Hl Hs Hla].
  unfold emptySList, releaseSList. rewrite Hs. destruct l as [|c l].
  - cbn. eexists. split; [done|]. split; [by split|]. split; [|split]; intros x;
      [by rewrite decide_False by apply not_elem_of_nil..|]. intros Hx. by apply not_elem_of_nil in Hx.
  - rewrite (proj2 (Z.ltb_lt _ _)) by (cbn [length]; lia).
    destruct (release_walk_spec (c :: l) (walk_fuel h) h (root self) Hnd Hno Hb Hl Hf) as (h' & -> & HN & HB & _ & HF).
    exists h'. split; [done|]. split; [by split; try apply NoDup_nil_2|]. split; [exact HN|]. split; [exact HB|exact HF].
Qed.

Lemma append_spec h self l dataSize : sl_rep h self l ->
  let c := new_cell h dataSize in
  exists h' self', appendToSList h self dataSize = Ok (h', self', Some (c.1, c.2.1))
    /\ sl_rep h' self' (l ++ [c]) /\ blocks h' = new_blocks h dataSize /\ freed h' = freed h
    /\ dom (snodes h') = {[c.1]} ∪ dom (snodes h).
Proof.
  intros Hr c. destruct (insert_spec h self l (length l) dataSize Hr) as (h' & self' & E & Hr' & Hb); [lia|].
  exists h', self'. rewrite firstn_all, drop_all in Hr'. unfold appendToSList. by rewrite (sr_size _ _ _ Hr).
Qed.

(** Storing another pointer in a node that owns no block. *)
Lemma set_data_rep h self l1 l2 a d p nd : sl_rep h self (l1 ++ (a, (d, 0)) :: l2) -> snodes h !! a = Some nd ->
  sl_rep (set_snodes h (<[a := mkSListNode p (allocSize nd) (next nd)]> (snodes h))) self (l1 ++ (a, (p, 0)) :: l2).
Proof.
  intros [Hnd Hl Hs Hla] Ha. assert ((l1 ++ (a, (p, 0)) :: l2).*1 = (l1 ++ (a, (d, 0)) :: l2).*1) as Ef.
  { by rewrite !fmap_app, !fmap_cons. }
  split.
  - by rewrite Ef.
  - rewrite fmap_app, fmap_cons in Hnd. apply NoDup_app in Hnd as (_ & H12 & Hnd2). apply NoDup_cons in Hnd2 as [Ha2 _].
    assert (a ∉ l1.*1) as Ha1 by (intros Hin; by apply (H12 a Hin), list_elem_of_here).
    apply lseg_app in Hl as (r1 & H1 & H2). cbn [lseg] in H2. destruct H2 as (-> & r & Ha' & H2).
    rewrite Ha' in Ha. injection Ha as <-. apply lseg_app. exists (Some a). cbn [set_snodes snodes].
    split; [by apply lseg_insert|]. cbn [lseg]. split; [done|]. exists r. rewrite lookup_insert_eq. split; [done|].
    by apply lseg_insert.
  - rewrite Hs, !length_app. done.
  - intros e He. rewrite last_app in He. cbn [list.last] in He. destruct l2 as [|c l2].
    + injection He as <-. rewrite (Hla (a, (d, 0))); [done|]. by rewrite last_app.
    + apply Hla. rewrite last_app. done.
Qed.

Lemma appendData_spec h self l p : sl_rep h self l ->
  exists h' self', appendDataToSList h self p = Ok (h', self', true)
    /\ sl_rep h' self' (l ++ [(fresh_node h, (p, 0))]) /\ blocks h' = blocks h.
Proof.
  intros Hr. destruct (append_spec h self l 0 Hr) as (h1 & self1 & E & Hr1 & Hb & _).
  unfold appendDataToSList, insertDataIntoSList. unfold appendToSList in E. rewrite E. simpl_outcome.
  unfold new_cell in *. cbn [fst snd] in *. set (a := fresh_node h) in *.
  destruct (lseg_lookup _ _ _ _ a None 0 (sr_lseg _ _ _ Hr1)) as [r Ha]; [apply elem_of_app; right; apply list_elem_of_here|].
  unfold deref. rewrite Ha. simpl_outcome. eexists _, _. split; [done|]. split; [|done].
  by apply (set_data_rep h1 self1 l [] a None).
Qed.

(** A linked list works as the sequence of its data pointers: appending adds at
    the end and returns the new node, inserting puts it at its index, deleting takes
    the first node with the pointer away and reports whether there was one, shifting
    takes the first one, an index reads its element, and emptying frees the nodes
    and the blocks the list allocated.  No operation touches freed memory. *)
Theorem slist_correct h self l : sl_rep h self l ->
  (forall (i : nat) dataSize, (i <= length l)%nat ->
     exists h' self', insertIntoSList h self (Z.of_nat i) dataSize
                      = Ok (h', self', Some ((new_cell h dataSize).1, (new_cell h dataSize).2.1))
       /\ sl_rep h' self' (take i l ++ new_cell h dataSize :: drop i l))
  /\ (forall p, exists h' self', appendDataToSList h self p = Ok (h', self', true)
       /\ sl_rep h' self' (l ++ [(fresh_node h, (p, 0))]))
  /\ (forall p, exists h' self', deleteFromSList h self p = Ok (h', self', bool_decide (p ∈ contents l))
       /\ sl_rep h' self' (remove_data p l))
  /\ (exists h' self', shiftFromSList h self = Ok (h', self', default None (head (contents l))) /\ sl_rep h' self' (tail l))
  /\ (forall p, existsInSList h self p = Ok (bool_decide (p ∈ contents l)))
  /\ (forall i : nat, getFromSList h self (Z.of_nat i) = Ok (default None (contents l !! i)))
  /\ foreachInSList h self = Ok (contents l)
  /\ (NoDup (owned l) -> (forall b, b ∈ owned l -> is_Some (blocks h !! b)) ->
      exists h', emptySList h self = Ok (h', initSList self) /\ sl_rep h' (initSList self) []
        /\ (forall a, snodes h' !! a = if decide (a ∈ l.*1) then None else snodes h !! a)
        /\ (forall b, blocks h' !! b = if decide (b ∈ owned l) then None else blocks h !! b)).
Proof.
  intros Hr. split; [|split; [|split; [|split; [|split; [|split; [|split]]]]]].
  - intros i ds Hi. destruct (insert_spec h self l i ds Hr Hi) as (h' & self' & E & Hr' & _). by exists h', self'.
  - intros p. destruct (appendData_spec h self l p Hr) as (h' & self' & E & Hr' & _). by exists h', self'.
  - intros p. destruct (delete_spec h self l p Hr) as (h' & self' & E & Hr' & _). by exists h', self'.
  - pose proof (shift_spec h self l Hr) as Hs. destruct l as [|(a & d & z) l]; [by exists h, self|].
    destruct Hs as (h' & self' & E & Hr' & _). by exists h', self'.
  - intros p. by apply exists_spec.
  - intros i. by apply (getNode_spec h self l i Hr).
  - by apply foreach_spec.
  - intros Hno Hb. destruct (empty_spec h self l Hr Hno Hb) as (h' & ? & ? & ? & ? & _). by exists h'.
Qed.
End ops.
Arguments Heap : clear implicits.
End SListHeap.
