(* ===== verification/CommandQueue.v ===== *)
(** * Command queue (server/command_queue.c, server/command_queue.h)

    The commands the connection handler leaves for the command handler.  A command
    stays in the list while it is processed: [nextItemNode] points to the first node
    that was not fetched yet.  The theorems: commands are fetched once and in the
    order in which they were queued, whatever the threads do between; and the two
    cases in which [nextItemNode] is left pointing to a freed node. *)
From S2P Require Import Prelude Locks SListHeap.

Module CommandQueue.
Import SListHeap.

(** ** Data *)
Definition COMMAND_TYPE_SRX_PROXY : Z := 0.
Definition COMMAND_TYPE_SHUTDOWN : Z := 1.

(** [client] is the address of the client thread; [idata] the copy of the packet. *)
Record CommandQueueItem := mkCommandQueueItem {
  client : option positive;
  cmdType : Z;
  dataID : Z;
  consumed : bool;
  dataLength : Z;
  idata : option (list Z)
}.
Definition set_consumed (i : CommandQueueItem) (b : bool) : CommandQueueItem :=
  mkCommandQueueItem (client i) (cmdType i) (dataID i) b (dataLength i) (idata i).
Definition sizeof_CommandQueueItem : Z := 40.

(** [mem] holds the nodes of the list and the items. *)
Record CommandQueue := mkCommandQueue {
  queue : SList;
  nextItemNode : option positive;
  cmdQueueMutex : Mutex;
  totalItems : Z;
  unprocessedItems : Z;
  alive : bool;
  mem : Heap CommandQueueItem
}.
Implicit Types (self : CommandQueue) (p : option positive) (i : CommandQueueItem).

Definition set_mutex self (m : Mutex) : CommandQueue :=
  mkCommandQueue (queue self) (nextItemNode self) m (totalItems self) (unprocessedItems self) (alive self) (mem self).
Definition set_list self (h : Heap CommandQueueItem) (l : SList) : CommandQueue :=
  mkCommandQueue l (nextItemNode self) (cmdQueueMutex self) (totalItems self) (unprocessedItems self) (alive self) h.
Definition set_nextItemNode self p : CommandQueue :=
  mkCommandQueue (queue self) p (cmdQueueMutex self) (totalItems self) (unprocessedItems self) (alive self) (mem self).
Definition set_counts self (t u : Z) : CommandQueue :=
  mkCommandQueue (queue self) (nextItemNode self) (cmdQueueMutex self) t u (alive self) (mem self).
Definition set_alive self (b : bool) : CommandQueue :=
  mkCommandQueue (queue self) (nextItemNode self) (cmdQueueMutex self) (totalItems self) (unprocessedItems self) b (mem self).

(** An item in memory. *)
Definition item_at (h : Heap CommandQueueItem) (b : positive) : outcome CommandQueueItem :=
  x ← deref (blocks h) b; match x with Some i => Ok i | None => Fault UninitRead end.
Definition store_item (h : Heap CommandQueueItem) (b : positive) i : Heap CommandQueueItem :=
  mkHeap (snodes h) (<[b := Some i]> (blocks h)) (freed h).

(** ** Operations *)
Definition initializeCommandQueue self : CommandQueue * bool :=
  if alive self then (self, false)
  else (mkCommandQueue (initSList (queue self)) None initMutex 0 0 true (mem self), true).

(** Lengths from here on are taken for transmission errors. *)
Definition max_dataLength : Z := 1000000.

(** [queueCommand]; the item is written at the end. *)
Definition queueCommand self (cmdType : Z) (client : option positive) (dataID dataLength : Z) (data : option (list Z))
    : outcome (CommandQueue * bool) :=
  if negb (alive self) then Ok (self, false)
  else
    m ← lockMutex (cmdQueueMutex self);
    let self := set_mutex self m in
    '(h, l, newItem) ← appendToSList (mem self) (queue self) sizeof_CommandQueueItem;
    match newItem with
    | None | Some (_, None) => Fault NullDeref
    | Some (_, Some newItem) =>
        let self := set_list self h l in
        let self := match nextItemNode self with
                    | None => set_nextItemNode self (getLastNodeOfSList l)
                    | Some _ => self
                    end in
        let tooLong := match data with None => false | Some _ => max_dataLength <=? dataLength end in
        if tooLong then
          '(h, l, _) ← deleteFromSList h l (Some newItem);
          m ← unlockMutex (cmdQueueMutex self);
          Ok (set_mutex (set_list self h l) m, false)
        else
          copy ← match data with
                 | None => Ok None
                 | Some d => c ← read_bytes d 0 (Z.to_nat dataLength); Ok (Some c)
                 end;
          let i := mkCommandQueueItem client cmdType dataID false dataLength copy in
          let self := set_counts (set_list self (store_item h newItem i) l) (totalItems self + 1) (unprocessedItems self + 1) in
          m ← unlockMutex (cmdQueueMutex self);
          Ok (set_mutex self m, true)
    end.

(** What a fetch comes to: nothing to fetch, so that the thread waits; a queue
    that was shut down; or an item. *)
Inductive fetched := Waits | Terminated | Fetched (item : positive) (i : CommandQueueItem).

Definition fetchNextCommand self : outcome (CommandQueue * fetched) :=
  if negb (alive self) then Ok (self, Terminated)
  else
    m ← lockMutex (cmdQueueMutex self);
    let self := set_mutex self m in
    if unprocessedItems self =? 0 then m ← unlockMutex (cmdQueueMutex self); Ok (set_mutex self m, Waits)
    else
      nd ← node_at (snodes (mem self)) (nextItemNode self);
      let self := set_counts self (totalItems self) (unprocessedItems self - 1) in
      match data nd with
      | None => Fault NullDeref
      | Some item =>
          i ← item_at (mem self) item;
          let i := set_consumed i true in
          let h := store_item (mem self) item i in
          next ← getNextNodeOfSListNode h (nextItemNode self);
          m ← unlockMutex (cmdQueueMutex self);
          Ok (set_mutex (set_nextItemNode (set_list self h (queue self)) next) m, Fetched item i)
      end.

(** [deleteCommand]: the node goes, the item stays allocated without its packet. *)
Definition deleteCommand self p : outcome CommandQueue :=
  m ← lockMutex (cmdQueueMutex self);
  let self := set_mutex self m in
  h ← match p with
      | None => Ok (mem self)
      | Some item => i ← item_at (mem self) item;
                     Ok (store_item (mem self) item
                           (mkCommandQueueItem (client i) (cmdType i) (dataID i) (consumed i) (dataLength i) None))
      end;
  let self := set_counts self (totalItems self - 1) (unprocessedItems self) in
  '(h, l, _) ← deleteFromSList h (queue self) p;
  m ← unlockMutex (cmdQueueMutex self);
  Ok (set_mutex (set_list self h l) m).

(** The packets of all items are freed, then the list with the items. *)
Definition removeAllCommands self : outcome CommandQueue :=
  m ← lockMutex (cmdQueueMutex self);
  let self := set_mutex self m in
  items ← foreach_walk (walk_fuel (mem self)) (snodes (mem self)) (root (queue self));
  _ ← foldl (fun r p => _ ← r; match p with None => Fault NullDeref | Some b => _ ← item_at (mem self) b; Ok tt end)
        (Ok tt) items;
  '(h, l) ← emptySList (mem self) (queue self);
  let self := set_list self h l in
  let total := size l in
  let self := set_counts self total (match nextItemNode self with None => 0 | Some _ => total end) in
  m ← unlockMutex (cmdQueueMutex self);
  Ok (set_mutex self m).

Definition releaseCommandQueue (self : option CommandQueue) : outcome (option CommandQueue) :=
  match self with
  | None => Ok None
  | Some self =>
      m ← lockMutex (cmdQueueMutex self);
      let self := set_alive (set_mutex self m) false in
      m ← unlockMutex (cmdQueueMutex self);
      self ← removeAllCommands (set_mutex self m);
      h ← releaseSList (mem self) (queue self);
      Ok (Some (set_mutex (set_list self h (queue self)) (releaseMutex (cmdQueueMutex self))))
  end.

Definition getTotalQueueSize self : Z := totalItems self.
Definition getUnprocessedQueueSize self : Z := unprocessedItems self.

(** ** Representation

    The fetched and the waiting commands: the addresses of node and item, and the
    item. *)
Abbreviation elem := (positive * positive * CommandQueueItem)%type.
Implicit Types (x : elem) (done todo : list elem).
Definition cell_of x : cell := (x.1.1, (Some x.1.2, sizeof_CommandQueueItem)).

Record cq_wf self done todo : Prop := {
  cw_list : sl_rep (mem self) (queue self) (cell_of <$> done ++ todo);
  cw_items : NoDup ((fun x => x.1.2) <$> done ++ todo);
  cw_mem x : x ∈ done ++ todo -> blocks (mem self) !! x.1.2 = Some (Some x.2);
  cw_next : nextItemNode self = (fun x => x.1.1) <$> head todo;
  cw_total : totalItems self = Z.of_nat (length (done ++ todo));
  cw_unprocessed : unprocessedItems self = Z.of_nat (length todo);
  cw_alive : alive self = true;
  cw_mutex : cmdQueueMutex self = MX_free
}.

Lemma store_item_rep h b i l cs : sl_rep h l cs -> sl_rep (store_item h b i) l cs.
Proof. intros [? ? ? ?]. by split. Qed.

Lemma contents_cells (l : list elem) : contents (cell_of <$> l) = (fun x => Some x.1.2) <$> l.
Proof. unfold contents. by rewrite <- list_fmap_compose. Qed.

Lemma owned_cells (l : list elem) : owned (cell_of <$> l) = (fun x => x.1.2) <$> l.
Proof. induction l as [|x l IH]; [done|]. cbn. by f_equal. Qed.

Lemma fresh_block_ne (h : Heap CommandQueueItem) b (v : option CommandQueueItem) : blocks h !! b = Some v -> b <> fresh_block h.
Proof.
  intros Hb ->. apply (is_fresh (dom (blocks h) ∪ freed h)), elem_of_union_l, elem_of_dom. by exists v.
Qed.

(** The packet can be copied. *)
Definition data_ok (dataLength : Z) (data : option (list Z)) : Prop :=
  forall d, data = Some d -> dataLength < max_dataLength /\ (Z.to_nat dataLength <= length d)%nat.
Definition new_item (t : Z) (c : option positive) (id n : Z) (data : option (list Z)) : CommandQueueItem :=
  mkCommandQueueItem c t id false n (take (Z.to_nat n) <$> data).

(** Queueing, up to the point where the command is copied. *)
Lemma queue_spec self done todo t c id n data : cq_wf self done todo -> data_ok n data ->
  exists self' a b, queueCommand self t c id n data = Ok (self', true)
    /\ cq_wf self' done (todo ++ [(a, b, new_item t c id n data)])
    /\ (forall x, x ∈ done ++ todo -> x.1.2 <> b).
Proof.
  intros [Hl Hi Hm Hn Ht Hu Ha Hx] Hd. unfold queueCommand. rewrite Ha. cbn [negb]. rewrite Hx. cbn [lockMutex]. simpl_outcome.
  destruct (append_spec (mem self) (queue self) _ sizeof_CommandQueueItem Hl) as (h & l & E & Hl' & Hb & _).
  cbn [set_mutex mem queue]. rewrite E. simpl_outcome. cbn [new_cell fst snd Z.ltb Z.compare sizeof_CommandQueueItem].
  set (a := fresh_node (mem self)) in *. set (b := fresh_block (mem self)) in *.
  assert ((match data with None => false | Some _ => max_dataLength <=? n end) = false) as ->.
  { destruct data as [d|]; [|done]. apply Z.leb_gt. by apply (Hd d). }
  assert ((match data with None => Ok None | Some d => c0 ← read_bytes d 0 (Z.to_nat n); Ok (Some c0) end)
          = Ok (take (Z.to_nat n) <$> data)) as ->.
  { destruct data as [d|]; [|done]. unfold read_bytes. rewrite decide_True by (apply (Hd d); done). done. }
  simpl_outcome. set (i := mkCommandQueueItem _ _ _ _ _ _). change i with (new_item t c id n data).
  assert (getLastNodeOfSList l = Some a) as Hlast.
  { unfold getLastNodeOfSList. rewrite (sr_last _ _ _ Hl' (new_cell (mem self) sizeof_CommandQueueItem)); [done|]. by rewrite last_snoc. }
  assert (forall x, x ∈ done ++ todo -> x.1.2 <> b) as Hfr by (intros x Hin; by eapply fresh_block_ne, Hm).
  exists (mkCommandQueue l (match nextItemNode self with None => Some a | Some q => Some q end) MX_free
            (totalItems self + 1) (unprocessedItems self + 1) true (store_item h b (new_item t c id n data))), a, b.
  split; [|split; [|exact Hfr]].
  { cbn [set_list set_mutex nextItemNode]. destruct (nextItemNode self) as [q|] eqn:Eq; cbn;
      unfold set_mutex, set_counts, set_list, set_nextItemNode; cbn; by rewrite ?Ha, ?Hlast, ?Eq. }
  split; cbn [mem queue nextItemNode totalItems unprocessedItems alive cmdQueueMutex]; try done; rewrite ?(assoc_L (++)).
  - rewrite fmap_app. by apply store_item_rep.
  - rewrite fmap_app, NoDup_app. split; [done|]. split; [|apply NoDup_singleton].
    intros y (x & -> & Hin)%list_elem_of_fmap Hy. apply list_elem_of_singleton in Hy. by apply (Hfr x).
  - intros x Hin. cbn [store_item blocks]. rewrite Hb. unfold new_blocks. cbn [Z.ltb Z.compare sizeof_CommandQueueItem].
    apply elem_of_app in Hin as [Hin|Hin%list_elem_of_singleton]; [|by rewrite Hin, lookup_insert_eq].
    rewrite !lookup_insert_ne by (intros E'; by apply (Hfr x)). by apply Hm.
  - rewrite Hn. by destruct todo.
  - rewrite Ht, !length_app. cbn [length]. lia.
  - rewrite Hu, length_app. cbn [length]. lia.
Qed.

Ltac cq_simpl := cbn [set_mutex set_list set_counts set_nextItemNode set_alive mem queue nextItemNode totalItems
  unprocessedItems alive cmdQueueMutex lockMutex unlockMutex negb fst snd head fmap option_fmap option_map]; simpl_outcome.

(** Fetching. *)
Lemma cq_fetch_spec self done todo : cq_wf self done todo ->
  match todo with
  | [] => fetchNextCommand self = Ok (self, Waits)
  | (a, b, i) :: todo => exists self', fetchNextCommand self = Ok (self', Fetched b (set_consumed i true))
      /\ cq_wf self' (done ++ [(a, b, set_consumed i true)]) todo
  end.
Proof.
  intros [Hl Hi Hm Hn Ht Hu Ha Hx]. unfold fetchNextCommand. rewrite Ha. cbn [negb]. rewrite Hx. cq_simpl.
  rewrite Hu. destruct todo as [|[[a b] i] todo]; [cbn; destruct self; cbn in *; by subst|].
  rewrite (proj2 (Z.eqb_neq _ _)) by (cbn [length]; lia). cq_simpl. rewrite Hn. cq_simpl.
  pose proof (sr_lseg _ _ _ Hl) as Hs. rewrite fmap_app in Hs. apply lseg_app in Hs as (r1 & _ & H2).
  cbn [fmap list_fmap cell_of fst snd] in H2. cbn [lseg] in H2. destruct H2 as (-> & r & Hnd & H2).
  cbn [node_at fst]. cbn [fst snd] in Hnd. unfold deref at 1. rewrite Hnd. simpl_outcome. cbn [data]. unfold item_at, deref.
  assert (blocks (mem self) !! b = Some (Some i)) as Hbi by (apply (Hm (a, b, i)), elem_of_app; right; apply list_elem_of_here).
  cq_simpl. rewrite Hbi. cq_simpl.
  cbn [getNextNodeOfSListNode node_at store_item snodes]. unfold deref. rewrite Hnd. cq_simpl. cbn [next].
  eexists. split; [done|].
  assert ((fun x => x.1) <$> (done ++ [(a, b, set_consumed i true)]) ++ todo = (fun x => x.1) <$> done ++ (a, b, i) :: todo) as Ef.
  { rewrite <- (assoc_L (++)), !fmap_app. done. }
  assert (forall B (f : positive * positive -> B), (fun x => f x.1) <$> (done ++ [(a, b, set_consumed i true)]) ++ todo
            = (fun x => f x.1) <$> done ++ (a, b, i) :: todo) as Eg.
  { intros B f. rewrite (list_fmap_compose (fun x => x.1) f), Ef. by rewrite (list_fmap_compose (fun x => x.1) f). }
  split; cbn [mem queue nextItemNode totalItems unprocessedItems alive cmdQueueMutex set_mutex set_nextItemNode set_list set_counts]; try done.
  - unfold cell_of in *. rewrite (Eg _ (fun y => (y.1, (Some y.2, sizeof_CommandQueueItem)))). by apply store_item_rep.
  - by rewrite (Eg _ snd).
  - intros x Hin. cbn [store_item blocks].
    rewrite fmap_app, fmap_cons in Hi. cbn [fst snd] in Hi. apply NoDup_app in Hi as (_ & H12 & Hi2). apply NoDup_cons in Hi2 as [Hb2 _].
    destruct (decide (x.1.2 = b)) as [E|Hne].
    + rewrite E, lookup_insert_eq. do 2 f_equal. apply elem_of_app in Hin as [[Hin|Hin]%elem_of_app|Hin].
      * destruct (H12 b); [apply list_elem_of_fmap; by exists x|apply list_elem_of_here].
      * by apply list_elem_of_singleton in Hin as ->.
      * destruct Hb2. apply list_elem_of_fmap. by exists x.
    + rewrite lookup_insert_ne by done. apply Hm. rewrite !elem_of_app, list_elem_of_singleton in Hin.
      rewrite elem_of_app, elem_of_cons. destruct Hin as [[?| ->]|?]; [by left|done|by right; right].
  - destruct todo as [|[[a2 b2] i2] todo]; cbn in H2 |- *; [by subst|]. by destruct H2 as [-> _].
  - rewrite Ht. rewrite !length_app. cbn [length]. lia.
  - cbn [length]. lia.
Qed.

(** Deleting a fetched command. *)
Fixpoint drop_item (b : positive) (l : list elem) : list elem :=
  match l with
  | [] => []
  | x :: l => if decide (x.1.2 = b) then l else x :: drop_item b l
  end.

Lemma remove_cells b done todo : b ∈ (fun x => x.1.2) <$> done ->
  remove_data (Some b) (cell_of <$> done ++ todo) = cell_of <$> drop_item b done ++ todo.
Proof.
  induction done as [|x done IH]; [by rewrite elem_of_nil|]. rewrite fmap_cons, elem_of_cons. intros Hb.
  cbn [app fmap list_fmap remove_data cell_of fst snd drop_item]. destruct (decide (x.1.2 = b)) as [E|Hne].
  - by rewrite decide_True by by rewrite E.
  - rewrite decide_False by congruence. cbn [app fmap list_fmap]. f_equal. apply IH. destruct Hb; [congruence|done].
Qed.

Lemma drop_item_sublist b l : drop_item b l `sublist_of` l.
Proof. induction l as [|x l IH]; [done|]. cbn. case_decide; [by apply sublist_cons|by apply sublist_skip]. Qed.

Lemma length_drop_item b l : b ∈ (fun x => x.1.2) <$> l -> S (length (drop_item b l)) = length l.
Proof.
  induction l as [|x l IH]; [by rewrite elem_of_nil|]. rewrite fmap_cons, elem_of_cons. intros Hb. cbn.
  case_decide; [done|]. cbn. rewrite IH; [done|]. destruct Hb; [congruence|done].
Qed.

Lemma drop_item_gone b l : NoDup ((fun x => x.1.2) <$> l) -> b ∉ (fun x => x.1.2) <$> drop_item b l.
Proof.
  induction l as [|x l IH]; [intros _; apply not_elem_of_nil|]. rewrite fmap_cons. intros [Hx Hnd]%NoDup_cons. cbn.
  case_decide as E; [by rewrite <- E|]. rewrite fmap_cons, not_elem_of_cons. auto.
Qed.

Lemma cq_delete_spec self done todo b : cq_wf self done todo -> b ∈ (fun x => x.1.2) <$> done ->
  exists self', deleteCommand self (Some b) = Ok self' /\ cq_wf self' (drop_item b done) todo.
Proof.
  intros [Hl Hi Hm Hn Ht Hu Ha Hx] Hb. unfold deleteCommand. rewrite Hx. cq_simpl.
  pose proof Hb as (x & Ex & Hin)%list_elem_of_fmap.
  assert (blocks (mem self) !! b = Some (Some x.2)) as Hbi by (rewrite Ex; apply Hm, elem_of_app; by left).
  unfold item_at, deref. rewrite Hbi. cq_simpl. set (i := mkCommandQueueItem _ _ _ _ _ _).
  destruct (SListHeap.delete_spec (store_item (mem self) b i) (queue self) _ (Some b) (store_item_rep _ b i _ _ Hl))
    as (h & l & E & Hl' & Hbl & _). rewrite E. cq_simpl. eexists. split; [done|].
  rewrite remove_cells in Hl' by done.
  assert (drop_item b done ++ todo `sublist_of` done ++ todo) as Hsub by (apply sublist_app; [apply drop_item_sublist|done]).
  assert (b ∉ (fun x => x.1.2) <$> drop_item b done ++ todo) as Hgone.
  { rewrite fmap_app, not_elem_of_app. rewrite fmap_app in Hi. apply NoDup_app in Hi as (Hi & H12 & _).
    split; [by apply drop_item_gone|by apply H12]. }
  split; cq_simpl; try done.
  - eapply sublist_NoDup; [exact Hi|by apply sublist_fmap].
  - intros y Hy. rewrite Hbl. cbn [store_item blocks]. rewrite lookup_insert_ne.
    + apply Hm. by eapply elem_of_sublist.
    + intros ->. apply Hgone, list_elem_of_fmap. by exists y.
  - rewrite Ht, !length_app, <- (length_drop_item b done) by done. cbn. lia.
Qed.

(** ** The queue under any interleaving of its users

    Each operation is one critical section, so the threads of the connection
    handler and of the command handler take turns.  [queued] and [taken] are the
    commands queued and fetched so far, [held] the fetched items that a handler
    still works on. *)
Inductive cq_run : list CommandQueueItem -> list CommandQueueItem -> list positive -> CommandQueue -> Prop :=
| run_init self self' : initializeCommandQueue self = (self', true) -> cq_run [] [] [] self'
| run_queue queued taken held self t c id n data self' b :
    cq_run queued taken held self -> data_ok n data ->
    queueCommand self t c id n data = Ok (self', b) ->
    cq_run (queued ++ [new_item t c id n data]) taken held self'
| run_fetch queued taken held self self' b i :
    cq_run queued taken held self -> fetchNextCommand self = Ok (self', Fetched b i) ->
    cq_run queued (taken ++ [set_consumed i false]) (held ++ [b]) self'
| run_delete queued taken held self self' b :
    cq_run queued taken held self -> b ∈ held -> deleteCommand self (Some b) = Ok self' ->
    cq_run queued taken (filter (fun y => y <> b) held) self'.

Lemma drop_item_filter b l : NoDup ((fun x : elem => x.1.2) <$> l) ->
  (fun x : elem => x.1.2) <$> drop_item b l = filter (fun y => y <> b) ((fun x : elem => x.1.2) <$> l).
Proof.
  induction l as [|x l IH]; [done|]. rewrite fmap_cons. intros [Hx Hnd]%NoDup_cons. cbn [drop_item].
  destruct (decide (x.1.2 = b)) as [E|Hne].
  - rewrite filter_cons_False by (rewrite E; tauto). symmetry. apply list_filter_all, Forall_forall. intros y Hy ->. congruence.
  - rewrite filter_cons_True by done. rewrite fmap_cons. f_equal. auto.
Qed.

Lemma run_wf queued taken held self : cq_run queued taken held self ->
  exists done todo, cq_wf self done todo /\ held = (fun x => x.1.2) <$> done /\ queued = taken ++ (snd <$> todo)
    /\ Forall (fun i => consumed i = false) queued.
Proof.
  induction 1 as [self self' E
    |queued taken held self t c id n data self' b _ (dn & todo & Hw & Hh & Hq & Hf) Hd E
    |queued taken held self self' b i _ (dn & todo & Hw & Hh & Hq & Hf) E
    |queued taken held self self' b _ (dn & todo & Hw & Hh & Hq & Hf) Hb E].
  - exists [], []. unfold initializeCommandQueue in E. destruct (alive self); [done|]. injection E as <-.
    split; [|done]. by split; cq_simpl; [split| | | | | | |]; try done; try apply NoDup_nil_2; intros ? ?%not_elem_of_nil.
  - destruct (queue_spec self dn todo t c id n data Hw Hd) as (self1 & a & b1 & E1 & Hw1 & _).
    rewrite E1 in E. injection E as <- <-. exists dn, (todo ++ [(a, b1, new_item t c id n data)]). split; [done|]. split; [done|].
    rewrite fmap_app, Hq, <- (assoc_L (++)). split; [done|]. rewrite Hq in Hf. rewrite (assoc_L (++)). apply Forall_app. by split; [|repeat constructor].
  - pose proof (cq_fetch_spec self dn todo Hw) as Hs. destruct todo as [|[[a b1] i1] todo].
    { rewrite Hs in E. done. }
    destruct Hs as (self1 & E1 & Hw1). rewrite E1 in E. injection E as <- <- <-. eexists _, _. split; [exact Hw1|].
    rewrite fmap_app, Hh. split; [done|]. split; [|done]. rewrite Hq, <- (assoc_L (++)). cbn [fmap list_fmap snd app]. do 2 f_equal.
    rewrite Hq in Hf. apply Forall_app in Hf as [_ Hf]. apply Forall_cons in Hf as [Hi _]. destruct i1; cbn in *. by subst.
  - subst held. destruct (cq_delete_spec self dn todo b Hw Hb) as (self1 & E1 & Hw1). rewrite E1 in E. injection E as <-.
    exists (drop_item b dn), todo. split; [done|]. split; [|done]. symmetry. apply drop_item_filter.
    pose proof (cw_items _ _ _ Hw) as Hnd. rewrite fmap_app in Hnd. by apply NoDup_app in Hnd as [? _].
Qed.

(** C7 However the threads interleave in initialising the queue, queueing commands
    with data below 1,000,000 octets, fetching and deleting: the commands are fetched
    once and in the order in which they were queued, a command that waits can be
    fetched, queueing such a command and deleting one that was fetched succeed, and
    the counter is the number of waiting commands.  (A longer packet leaves a
    dangling node, and so does clearing the queue: the theorems below.) *)
Theorem commands_fifo queued taken held self : cq_run queued taken held self ->
  taken `prefix_of` queued
  /\ getUnprocessedQueueSize self = Z.of_nat (length queued) - Z.of_nat (length taken)
  /\ getTotalQueueSize self = getUnprocessedQueueSize self + Z.of_nat (length held)
  /\ (forall t c id n data, data_ok n data -> exists self', queueCommand self t c id n data = Ok (self', true))
  /\ match queued !! length taken with
     | None => fetchNextCommand self = Ok (self, Waits)
     | Some i => exists self' b, fetchNextCommand self = Ok (self', Fetched b (set_consumed i true))
     end
  /\ (forall b, b ∈ held -> exists self', deleteCommand self (Some b) = Ok self').
Proof.
  intros (dn & todo & Hw & -> & -> & _)%run_wf. split; [by apply prefix_app_r|].
  split; [|split; [|split; [|split]]].
  - unfold getUnprocessedQueueSize. rewrite (cw_unprocessed _ _ _ Hw), length_app, length_fmap. lia.
  - unfold getTotalQueueSize, getUnprocessedQueueSize.
    rewrite (cw_total _ _ _ Hw), (cw_unprocessed _ _ _ Hw), length_fmap, length_app. lia.
  - intros t c id n data Hd. destruct (queue_spec self dn todo t c id n data Hw Hd) as (self' & _ & _ & E & _). by exists self'.
  - pose proof (cq_fetch_spec self dn todo Hw) as Hs. rewrite lookup_app_r, Nat.sub_diag by done.
    destruct todo as [|[[a b] i] todo]; [done|]. destruct Hs as (self' & E & _). by exists self', b.
  - intros b Hb. destruct (cq_delete_spec self dn todo b Hw Hb) as (self' & E & _). by exists self'.
Qed.

(** ** A pointer to a freed node *)
Record dangling self (a : positive) : Prop := {
  da_list : exists cs, sl_rep (mem self) (queue self) cs;
  da_next : nextItemNode self = Some a;
  da_freed : a ∈ freed (mem self) /\ snodes (mem self) !! a = None;
  da_count : 0 <= unprocessedItems self;
  da_alive : alive self = true;
  da_mutex : cmdQueueMutex self = MX_free
}.

Lemma dangling_queue self a t c id n data : dangling self a -> data_ok n data ->
  exists self', queueCommand self t c id n data = Ok (self', true) /\ dangling self' a
    /\ unprocessedItems self' = unprocessedItems self + 1.
Proof.
  intros [[cs Hl] Hn [Hf Hno] Hu Ha Hx] Hd. unfold queueCommand. rewrite Ha, Hx. cq_simpl.
  destruct (append_spec (mem self) (queue self) _ sizeof_CommandQueueItem Hl) as (h & l & E & Hl' & Hb & Hfr & Hdom).
  rewrite E. cq_simpl. cbn [new_cell fst snd Z.ltb Z.compare sizeof_CommandQueueItem].
  assert ((match data with None => false | Some _ => max_dataLength <=? n end) = false) as ->.
  { destruct data as [d|]; [|done]. apply Z.leb_gt. by apply (Hd d). }
  assert ((match data with None => Ok None | Some d => c0 ← read_bytes d 0 (Z.to_nat n); Ok (Some c0) end)
          = Ok (take (Z.to_nat n) <$> data)) as ->.
  { destruct data as [d|]; [|done]. unfold read_bytes. rewrite decide_True by (apply (Hd d); done). done. }
  simpl_outcome. rewrite Hn. cq_simpl. eexists. split; [done|]. split; [|done].
  split; cq_simpl; try done; [eexists; by apply store_item_rep| |lia].
  cbn [store_item freed snodes]. rewrite Hfr. split; [done|]. apply not_elem_of_dom. rewrite Hdom, not_elem_of_union.
  split; [|by apply not_elem_of_dom]. rewrite not_elem_of_singleton. intros ->.
  apply (is_fresh (dom (snodes (mem self)) ∪ freed (mem self))), elem_of_union_r, Hf.
Qed.

Lemma dangling_fetch self a : dangling self a -> unprocessedItems self <> 0 -> fetchNextCommand self = Fault UseAfterDestroy.
Proof.
  intros [_ Hn [_ Hno] _ Ha Hx] Hu. unfold fetchNextCommand. rewrite Ha, Hx. cq_simpl.
  rewrite (proj2 (Z.eqb_neq _ _)) by done. cq_simpl. rewrite Hn. cbn [node_at]. unfold deref. by rewrite Hno.
Qed.

(** Emptying the queue. *)
Lemma items_fold (h : Heap CommandQueueItem) (l : list elem) :
  (forall x, x ∈ l -> blocks h !! x.1.2 = Some (Some x.2)) ->
  foldl (fun r p => _ ← r; match p with None => Fault NullDeref | Some b => _ ← item_at h b; Ok tt end)
    (Ok tt) ((fun x : elem => Some x.1.2) <$> l) = Ok tt.
Proof.
  induction l as [|x l IH]; [done|]. intros Hm. cbn [fmap list_fmap foldl]. simpl_outcome. unfold item_at at 2, deref.
  rewrite (Hm x) by apply list_elem_of_here. simpl_outcome. apply IH. intros y Hy. apply Hm. by right.
Qed.

Lemma removeAll_spec self done todo : cq_wf self done todo ->
  exists self', removeAllCommands self = Ok self' /\ unprocessedItems self' = 0 /\ totalItems self' = 0
    /\ match todo with [] => cq_wf self' [] [] | x :: _ => dangling self' x.1.1 end.
Proof.
  intros [Hl Hi Hm Hn Ht Hu Ha Hx]. unfold removeAllCommands. rewrite Hx. cq_simpl.
  pose proof (walk_fuel_rep _ _ _ Hl) as Hf. rewrite (foreach_walk_spec _ (cell_of <$> done ++ todo)) by (apply Hl || done).
  simpl_outcome. rewrite contents_cells, items_fold by done. simpl_outcome.
  destruct (empty_spec (mem self) (queue self) _ Hl) as (h & E & Hl' & HN & HB & HF).
  { by rewrite owned_cells. }
  { rewrite owned_cells. intros b (x & -> & Hx')%list_elem_of_fmap. rewrite (Hm x Hx'). by eexists. }
  rewrite E. cq_simpl. eexists. split; [done|]. cq_simpl. cbn [initSList size].
  split; [by destruct (nextItemNode self)|]. split; [done|]. rewrite Hn. destruct todo as [|x todo]; cbn [head fmap option_fmap option_map].
  - split; cq_simpl; try done; [apply NoDup_nil_2|by intros ? ?%not_elem_of_nil].
  - split; cq_simpl; try done; [by eexists|].
    assert (x.1.1 ∈ (cell_of <$> done ++ x :: todo).*1) as Hin.
    { rewrite <- list_fmap_compose. apply list_elem_of_fmap. exists x. split; [done|].
      apply elem_of_app. right. apply list_elem_of_here. }
    split; [by apply HF|]. rewrite HN. by rewrite decide_True.
Qed.

(** Emptying the queue does not forget the next command: when commands were
    waiting, a command queued afterwards - such as the one that stops the handler
    threads - makes the next fetch read a freed node. *)
Theorem removeAllCommands_dangling self done x todo t c id n data :
  cq_wf self done (x :: todo) -> data_ok n data ->
  exists self1 self2, removeAllCommands self = Ok self1 /\ queueCommand self1 t c id n data = Ok (self2, true)
    /\ fetchNextCommand self2 = Fault UseAfterDestroy.
Proof.
  intros Hw Hd. destruct (removeAll_spec self done (x :: todo) Hw) as (self1 & E & Hu & _ & Hda).
  destruct (dangling_queue self1 _ t c id n data Hda Hd) as (self2 & E2 & Hda2 & Hu2).
  exists self1, self2. split; [done|]. split; [done|]. apply (dangling_fetch _ _ Hda2). lia.
Qed.

(** A packet whose length field is too long is refused, but when no command was
    waiting the queue keeps a pointer to the node it took away: the next command,
    whatever it is, makes the fetch read a freed node. *)
Theorem queueCommand_too_long self done t c id n d : cq_wf self done [] -> max_dataLength <= n ->
  exists self1, queueCommand self t c id n (Some d) = Ok (self1, false)
    /\ forall t2 c2 id2 n2 data2, data_ok n2 data2 ->
       exists self2, queueCommand self1 t2 c2 id2 n2 data2 = Ok (self2, true)
         /\ fetchNextCommand self2 = Fault UseAfterDestroy.
Proof.
  intros [Hl Hi Hm Hn Ht Hu Ha Hx] Hlong.
  assert (exists self1 a, queueCommand self t c id n (Some d) = Ok (self1, false) /\ dangling self1 a
            /\ unprocessedItems self1 = 0) as (self1 & a & E & Hda & Hu1).
  { unfold queueCommand. rewrite Ha, Hx. cq_simpl.
    destruct (append_spec (mem self) (queue self) _ sizeof_CommandQueueItem Hl) as (h & l & E & Hl' & Hb & Hfr & _).
    rewrite E. cq_simpl. cbn [new_cell fst snd Z.ltb Z.compare sizeof_CommandQueueItem].
    rewrite (proj2 (Z.leb_le _ _)) by done. set (b := fresh_block (mem self)) in *. set (a := fresh_node (mem self)).
    destruct (SListHeap.delete_spec h l _ (Some b) Hl') as (h2 & l2 & E2 & Hl2 & _ & _ & Hgone).
    rewrite Hn. cq_simpl. rewrite E2. cq_simpl. eexists _, a. split; [done|]. cq_simpl. split; [|done].
    assert (a ∈ (((cell_of <$> done ++ []) ++ [new_cell (mem self) sizeof_CommandQueueItem])).*1) as Ha1.
    { rewrite fmap_app. apply elem_of_app. right. apply list_elem_of_here. }
    assert (remove_data (Some b) ((cell_of <$> done ++ []) ++ [new_cell (mem self) sizeof_CommandQueueItem]) = cell_of <$> done) as Er.
    { rewrite app_nil_r in *. assert (forall x, x ∈ done -> x.1.2 <> b) as Hne by (intros x Hin; by eapply fresh_block_ne, Hm).
      clear -Hne. induction done as [|x dn IH]; cbn; [by rewrite decide_True|].
      rewrite decide_False by (intros [= E]; by apply (Hne x), E; left).
      f_equal. apply IH. intros y Hy. apply Hne. by right. }
    split; cq_simpl; try done; [by eexists| | |by rewrite Hu].
    - unfold getLastNodeOfSList. rewrite (sr_last _ _ _ Hl' (new_cell (mem self) sizeof_CommandQueueItem)); [done|]. by rewrite last_snoc.
    - apply Hgone; [done|]. rewrite Er. pose proof (fresh_cell (mem self) (queue self) _ Hl) as Hfc.
      by rewrite app_nil_r in Hfc. }
  exists self1. split; [done|]. intros t2 c2 id2 n2 data2 Hd2.
  destruct (dangling_queue self1 a t2 c2 id2 n2 data2 Hda Hd2) as (self2 & E2 & Hda2 & Hu2).
  exists self2. split; [done|]. apply (dangling_fetch _ _ Hda2). lia.
Qed.
End CommandQueue.
