(* ===== verification/PacketQueue.v ===== *)
(** * Packet queues (server/srx_packet_sender.c, server/server_connection_handler.c)

    The queue of packets to send and the queue of received packets are the same
    structure: a list of packets with pointers to its head and its tail, filled by
    one thread and emptied by the thread of the queue.  The queue is shown to
    implement a sequence. *)
From S2P Require Import Prelude Locks.

Module PacketQueue.

(** ** Data ([SendPacket], [SCH_ReceiverQueueElement]) *)
Record Packet := mkPacket {
  pdu : list Z;
  client : positive;
  psize : Z;
  next : option positive
}.
(** [SendPacketQueue], [SCH_ReceiverQueue]; [packets] is the memory of the packets. *)
Record Queue := mkQueue {
  head : option positive;
  tail : option positive;
  size : Z;
  running : bool;
  mutex : Mutex;
  packets : gmap positive Packet
}.
Implicit Types (q : Queue) (p : Packet).

Definition set_next p (n : option positive) : Packet := mkPacket (pdu p) (client p) (psize p) n.
Definition set_running q (b : bool) : Queue := mkQueue (head q) (tail q) (size q) b (mutex q) (packets q).
Definition set_mutex q (m : Mutex) : Queue := mkQueue (head q) (tail q) (size q) (running q) m (packets q).

(** ** Operations *)
Definition createQueue : Queue := mkQueue None None 0 false initMutex ∅.

(** Creating the thread does not fail. *)
Definition startQueue q : outcome (Queue * bool) :=
  m ← lockMutex (mutex q); m ← unlockMutex m; Ok (set_mutex (set_running q true) m, true).

(** A copy of the packet is queued. *)
Definition addToQueue (pdu : list Z) (client : positive) (sz : Z) q : outcome (Queue * bool) :=
  m ← lockMutex (mutex q);
  copy ← read_bytes pdu 0 (Z.to_nat sz);
  let a := fresh (dom (packets q)) in
  let M := <[a := mkPacket copy client sz None]> (packets q) in
  q ← (if size q =? 0 then Ok (mkQueue (Some a) (Some a) (size q + 1) (running q) m M)
       else match tail q with
            | None => Fault NullDeref
            | Some t => last ← deref (packets q) t;
                        Ok (mkQueue (head q) (Some a) (size q + 1) (running q) m
                              (<[t := set_next last (Some a)]> M))
            end);
  m ← unlockMutex (mutex q);
  Ok (set_mutex q m, true).

(** What a fetch comes to; the thread waits while the queue is empty and runs. *)
Inductive fetched := Waits | NoPacket | GotPacket (p : Packet).

Definition fetchPacket q : outcome (Queue * fetched) :=
  m ← lockMutex (mutex q);
  if (size q =? 0) && running q then m ← unlockMutex m; Ok (set_mutex q m, Waits)
  else
    '(q, f) ← match (if running q then head q else None) with
              | Some a => p ← deref (packets q) a;
                          Ok (mkQueue (next p) (tail q) (size q - 1) (running q) m (delete a (packets q)),
                              GotPacket (set_next p None))
              | None => Ok (set_mutex q m, NoPacket)
              end;
    m ← unlockMutex m;
    Ok (set_mutex q m, f).

(** The loop that frees the remaining packets: one round for each. *)
Fixpoint drain (fuel : nat) q : outcome Queue :=
  match fuel with
  | O => Fault OutOfFuel
  | S fuel =>
      match head q with
      | None => Ok q
      | Some a => p ← deref (packets q) a;
                  drain fuel (mkQueue (next p) (tail q) (size q - 1) (running q) (mutex q) (delete a (packets q)))
      end
  end.

Definition stopQueue q : outcome Queue :=
  m ← lockMutex (mutex q);
  m ← unlockMutex m;
  m ← lockMutex m;
  q ← drain (S (base.size (packets q))) (set_mutex (set_running q false) m);
  m ← unlockMutex (mutex q);
  Ok (mkQueue (head q) None (size q) (running q) m (packets q)).

(** The queue is freed at the end. *)
Definition releaseQueue (queue : option Queue) : outcome (option Queue) :=
  match queue with
  | None => Ok None
  | Some q => q ← (if running q then stopQueue q else Ok q); Ok None
  end.

(** The two queues. *)
Definition SendPacketQueue : Type := option Queue.
Definition createSendQueue : SendPacketQueue := Some createQueue.
Definition SCH_ReceiverQueue : Type := option Queue.
Definition createSCHReceiverQueue : SCH_ReceiverQueue := Some createQueue.

(** ** Representation *)
Fixpoint chain (M : gmap positive Packet) (a : option positive) (l : list (positive * Packet)) : Prop :=
  match l with
  | [] => a = None
  | (b, p) :: l => a = Some b /\ M !! b = Some p /\ chain M (next p) l
  end.
Record q_rep q (l : list (positive * Packet)) : Prop := {
  qr_nodup : NoDup l.*1;
  qr_chain : chain (packets q) (head q) l;
  qr_tail : l <> [] -> tail q = fst <$> last l;
  qr_size : size q = Z.of_nat (length l);
  qr_mutex : mutex q = MX_free
}.
(** The packets without their links. *)
Definition data_of p : list Z * positive := (pdu p, client p).
Definition contents (l : list (positive * Packet)) : list (list Z * positive) := (fun x => data_of x.2) <$> l.

Lemma chain_insert M a l b p : b ∉ l.*1 -> chain M a l -> chain (<[b := p]> M) a l.
Proof.
  revert a. induction l as [|[c r] l IH]; intros a; [done|]. rewrite fmap_cons, not_elem_of_cons. intros [Hne Hb].
  cbn [chain]. intros (-> & Hc & Hl). rewrite lookup_insert_ne by done. auto.
Qed.

Lemma chain_delete M a l b : b ∉ l.*1 -> chain M a l -> chain (delete b M) a l.
Proof.
  revert a. induction l as [|[c r] l IH]; intros a; [done|]. rewrite fmap_cons, not_elem_of_cons. intros [Hne Hb].
  cbn [chain]. intros (-> & Hc & Hl). rewrite lookup_delete_ne by done. auto.
Qed.

Lemma chain_dom M a l : chain M a l -> forall b, b ∈ l.*1 -> b ∈ dom M.
Proof.
  revert a. induction l as [|[c r] l IH]; intros a; [by intros _ b ?%not_elem_of_nil|]. cbn [chain].
  intros (-> & Hc & Hl) b [->|Hb]%elem_of_cons; [apply elem_of_dom; by exists r|by eapply IH].
Qed.

Lemma chain_length M a l : NoDup l.*1 -> chain M a l -> (length l <= base.size M)%nat.
Proof.
  intros Hnd Hl. transitivity (length l.*1); [by rewrite length_fmap|].
  rewrite <- (size_list_to_set (C := gset positive) _ Hnd), <- (size_dom M). apply subseteq_size.
  intros b Hb%elem_of_list_to_set. by eapply chain_dom.
Qed.

(** Linking a packet behind the last one. *)
Lemma chain_snoc M a l b p c r :
  NoDup (l ++ [(b, p)]).*1 -> c ∉ (l ++ [(b, p)]).*1 -> chain M a (l ++ [(b, p)]) -> next r = None ->
  chain (<[b := set_next p (Some c)]> (<[c := r]> M)) a (l ++ [(b, set_next p (Some c)); (c, r)]).
Proof.
  intros Hnd Hc Hl Hr. revert a Hl. induction l as [|[d s] l IH]; intros a.
  - cbn [app chain]. intros (-> & Hb & Hn). cbn in Hc. rewrite not_elem_of_cons in Hc. destruct Hc as [Hne _].
    rewrite lookup_insert_eq, lookup_insert_ne, lookup_insert_eq by done. done.
  - cbn [app chain] in *. rewrite fmap_cons in Hnd, Hc. rewrite not_elem_of_cons in Hc. destruct Hc as [Hne Hc].
    apply NoDup_cons in Hnd as [Hd Hnd]. intros (-> & Hb & Hn).
    assert (b <> d) as Hbd.
    { intros ->. apply Hd. rewrite fmap_app. apply elem_of_app. right. apply list_elem_of_here. }
    rewrite !lookup_insert_ne by done. auto.
Qed.

Lemma add_spec q l d c sz : q_rep q l -> (Z.to_nat sz <= length d)%nat ->
  exists q' l', addToQueue d c sz q = Ok (q', true) /\ q_rep q' l' /\ running q' = running q
    /\ contents l' = contents l ++ [(take (Z.to_nat sz) d, c)].
Proof.
  intros [Hnd Hc Ht Hs Hm] Hd. unfold addToQueue. rewrite Hm. cbn [lockMutex]. simpl_outcome. unfold read_bytes.
  rewrite decide_True by done. cbn [drop]. simpl_outcome. rewrite Hs. set (a := fresh (dom (packets q))).
  assert (a ∉ l.*1) as Ha by (intros Hin; apply (is_fresh (dom (packets q))); by eapply chain_dom).
  set (r := mkPacket _ _ _ _). destruct l as [|[b p] l _] using rev_ind.
  - cbn [length Z.of_nat Z.eqb]. eexists _, [(a, r)]. split; [done|]. split; [|done].
    split; cbn [head tail size mutex packets set_mutex]; try done; [apply NoDup_singleton|].
    cbn [chain]. by rewrite lookup_insert_eq.
  - rewrite (proj2 (Z.eqb_neq _ _)) by (rewrite length_app; cbn; lia).
    rewrite Ht, last_snoc by by destruct l. cbn [fmap option_fmap option_map fst].
    assert (packets q !! b = Some p) as Hb.
    { clear -Hc. revert Hc. generalize (head q). induction l as [|[d s] l IH]; intros o; cbn [app chain]; [tauto|].
      intros (_ & _ & ?). by eapply IH. }
    unfold deref. rewrite Hb. simpl_outcome. cbn [mutex unlockMutex]. simpl_outcome.
    eexists _, (l ++ [(b, set_next p (Some a)); (a, r)]). split; [done|].
    assert ((l ++ [(b, set_next p (Some a)); (a, r)]).*1 = (l ++ [(b, p)]).*1 ++ [a]) as Ef.
    { rewrite !fmap_app, <- (assoc_L (++)). done. }
    split; [split|split; [done|]]; cbn [head tail size mutex packets set_mutex]; try done.
    + rewrite Ef. apply NoDup_app. split; [done|]. split; [|apply NoDup_singleton].
      intros x Hx ->%list_elem_of_singleton. done.
    + by apply chain_snoc.
    + intros _. by rewrite last_app.
    + rewrite !length_app. cbn [length]. lia.
    + unfold contents. rewrite !fmap_app, <- (assoc_L (++)). done.
Qed.

Lemma fetch_spec q l : q_rep q l -> running q = true ->
  match l with
  | [] => fetchPacket q = Ok (q, Waits)
  | (b, p) :: l => exists q', fetchPacket q = Ok (q', GotPacket (set_next p None)) /\ q_rep q' l /\ running q' = true
  end.
Proof.
  intros [Hnd Hc Ht Hs Hm] Hr. unfold fetchPacket. rewrite Hm, Hr, andb_true_r, Hs. cbn [lockMutex]. simpl_outcome.
  destruct l as [|[b p] l]; [cbn; destruct q; cbn in *; by subst|].
  rewrite (proj2 (Z.eqb_neq _ _)) by (cbn [length]; lia). cbn [chain] in Hc. destruct Hc as (-> & Hb & Hl).
  unfold deref. rewrite Hb. simpl_outcome. cbn [unlockMutex]. simpl_outcome. eexists. split; [done|]. split; [|done].
  apply NoDup_cons in Hnd as [Hb' Hnd]. split; cbn [head tail size mutex packets set_mutex]; try done.
  - by apply chain_delete.
  - intros Hne. rewrite Ht by done. by destruct l.
  - cbn [length]. lia.
Qed.

Lemma drain_spec l : forall fuel q, NoDup l.*1 -> chain (packets q) (head q) l -> (length l < fuel)%nat ->
  exists q', drain fuel q = Ok q' /\ head q' = None /\ size q' = size q - Z.of_nat (length l)
    /\ running q' = running q /\ mutex q' = mutex q /\ forall b, b ∈ l.*1 -> packets q' !! b = None.
Proof.
  enough (forall fuel q, NoDup l.*1 -> chain (packets q) (head q) l -> (length l < fuel)%nat ->
    exists q', drain fuel q = Ok q' /\ head q' = None /\ size q' = size q - Z.of_nat (length l)
      /\ running q' = running q /\ mutex q' = mutex q
      /\ forall b, b ∈ l.*1 \/ packets q !! b = None -> packets q' !! b = None) as Hd.
  { intros fuel q H1 H2 H3. destruct (Hd fuel q H1 H2 H3) as (q' & ? & ? & ? & ? & ? & Hb). exists q'. eauto 10. }
  induction l as [|[b p] l IH]; intros [|fuel] q Hnd Hc Hf; try (simpl in Hf; lia).
  - cbn [chain] in Hc. cbn [drain]. rewrite Hc. exists q. rewrite Z.sub_0_r. do 5 (split; [done|]).
    intros b [Hb|Hb]; [by apply not_elem_of_nil in Hb|done].
  - cbn [chain] in Hc. destruct Hc as (Eh & Hb & Hl). cbn [drain]. rewrite Eh. unfold deref. rewrite Hb. simpl_outcome.
    rewrite fmap_cons in Hnd. apply NoDup_cons in Hnd as [Hb' Hnd].
    edestruct (IH fuel (mkQueue (next p) (tail q) (size q - 1) (running q) (mutex q) (delete b (packets q))))
      as (q' & -> & H1 & H2 & H3 & H4 & H5); [done|by apply chain_delete|simpl in Hf; lia|].
    exists q'. cbn [size running mutex packets] in *. do 2 (split; [done|]). split; [cbn [length]; lia|]. do 2 (split; [done|]).
    intros c. rewrite fmap_cons, elem_of_cons. cbn [fst]. intros [[->|Hc]|Hc]; apply H5.
    + right. apply lookup_delete_eq.
    + by left.
    + right. destruct (decide (c = b)) as [->|]; [apply lookup_delete_eq|by rewrite lookup_delete_ne].
Qed.

(** The packet queues keep the order of the packets: adding appends a copy,
    fetching takes the oldest packet or waits, and stopping the queue frees every
    packet that is left. *)
Theorem packet_queue_correct q l : q_rep q l -> running q = true ->
  (forall d c sz, (Z.to_nat sz <= length d)%nat ->
     exists q' l', addToQueue d c sz q = Ok (q', true) /\ q_rep q' l' /\ running q' = true
       /\ contents l' = contents l ++ [(take (Z.to_nat sz) d, c)])
  /\ (match l with
      | [] => fetchPacket q = Ok (q, Waits)
      | (_, p) :: l' => exists q', fetchPacket q = Ok (q', GotPacket (set_next p None)) /\ q_rep q' l'
      end)
  /\ (exists q', stopQueue q = Ok q' /\ q_rep q' [] /\ running q' = false
        /\ forall b, b ∈ l.*1 -> packets q' !! b = None).
Proof.
  intros Hq Hr. split; [|split].
  - intros d c sz Hd. destruct (add_spec q l d c sz Hq Hd) as (q' & l' & ? & ? & ? & ?). exists q', l'. split; [done|]. split; [done|]. split; [congruence|done].
  - pose proof (fetch_spec q l Hq Hr) as Hf. destruct l as [|[b p] l]; [done|]. destruct Hf as (q' & ? & ? & _). by exists q'.
  - destruct Hq as [Hnd Hc Ht Hs Hm]. unfold stopQueue. rewrite Hm. cbn [lockMutex]. simpl_outcome.
    cbn [unlockMutex]. simpl_outcome. cbn [lockMutex]. simpl_outcome. pose proof (chain_length _ _ _ Hnd Hc).
    destruct (drain_spec l (S (base.size (packets q))) (set_mutex (set_running q false) MX_locked) Hnd Hc)
      as (q' & -> & H1 & H2 & H3 & H4 & H5); [lia|]. simpl_outcome. rewrite H4. cbn [set_mutex mutex unlockMutex]. simpl_outcome.
    eexists. split; [done|]. split; [|split; [done|exact H5]].
    split; cbn [head tail size mutex packets]; try done; [apply NoDup_nil_2|].
    rewrite H2. cbn [set_mutex set_running size]. rewrite Hs. cbn. lia.
Qed.
End PacketQueue.
