(* ===== verification/SrxPackets.v ===== *)
(** * Packets of the SRx-proxy protocol (shared/srx_packets.h)

    The packed structures as byte sequences: what the sender of a packet stores and
    where the receiver of a packet reads.  Multi-byte fields hold the value the
    code passes to or gets from htons and htonl, in the byte order of the host. *)
From S2P Require Import Prelude SrxDefs.

Module SrxPackets.

(** ** Constants *)
Definition SRX_PROTOCOL_VER : Z := 3.
Definition SRX_PROXY_FLAGS_VERIFY_PREFIX_ORIGIN : Z := 1.
Definition SRX_PROXY_FLAGS_VERIFY_PATH : Z := 2.
Definition SRX_PROXY_FLAGS_VERIFY_ASPA : Z := 4.
Definition SRX_PROXY_FLAGS_VERIFY_RECEIPT : Z := 128.
Definition SRX_PROXY_BLOCK_TYPE_LATEST_SIGNATURE : Z := 1.
Definition DONOTUSE_REQUEST_TOKEN : Z := 0.

Definition SRX_FLAG_ROA : Z := 1.
Definition SRX_FLAG_BGPSEC : Z := 2.
Definition SRX_FLAG_ASPA : Z := 4.
Definition SRX_FLAG_ROA_BGPSEC_ASPA : Z := 7.
Definition SRX_FLAG_REQUEST_RECEIPT : Z := 128.

(** [SRxErrorType] *)
Definition SRXERR_WRONG_VERSION : Z := 0.
Definition SRXERR_DUPLICATE_PROXY_ID : Z := 1.
Definition SRXERR_INVALID_PACKET : Z := 2.
Definition SRXERR_INTERNAL_ERROR : Z := 3.
Definition SRXERR_ALGO_NOT_SUPPORTED : Z := 4.
Definition SRXERR_UPDATE_NOT_FOUND : Z := 5.

(** [SRxProxyPDUType] *)
Definition PDU_SRXPROXY_HELLO : Z := 0.
Definition PDU_SRXPROXY_HELLO_RESPONSE : Z := 1.
Definition PDU_SRXPROXY_GOODBYE : Z := 2.
Definition PDU_SRXPROXY_VERIFY_V4_REQUEST : Z := 3.
Definition PDU_SRXPROXY_VERIFY_V6_REQUEST : Z := 4.
Definition PDU_SRXPROXY_SIGN_REQUEST : Z := 5.
Definition PDU_SRXPROXY_VERI_NOTIFICATION : Z := 6.
Definition PDU_SRXPROXY_SIGN_NOTIFICATION : Z := 7.
Definition PDU_SRXPROXY_DELTE_UPDATE : Z := 8.
Definition PDU_SRXPROXY_PEER_CHANGE : Z := 9.
Definition PDU_SRXPROXY_SYNC_REQUEST : Z := 10.
Definition PDU_SRXPROXY_ERROR : Z := 11.
Definition PDU_SRXPROXY_UNKNOWN : Z := 12.

(** [AS_REL_TYPE] *)
Definition AS_REL_CUSTOMER : Z := 1.
Definition AS_REL_PROVIDER : Z := 2.
Definition AS_REL_SIBLING : Z := 3.
Definition AS_REL_LATERAL : Z := 4.

(** ** Storing and loading fields *)
Definition st8 (x : Z) : list Z := [u8 x].
Definition st16 (x : Z) : list Z := [x mod 256; (x / 256) mod 256].
Definition st32 (x : Z) : list Z := le_bytes32 x.
Definition htons : Z -> Z := ntohs.
Definition htonl : Z -> Z := ntohl.
(** A load in the byte order of the host. *)
Definition ld16 (mem : list Z) (off : nat) : outcome Z :=
  lo ← read8 mem off; hi ← read8 mem (S off); Ok (lo + 256 * hi).
Definition ld32 (mem : list Z) (off : nat) : outcome Z :=
  lo ← ld16 mem off; hi ← ld16 mem (S (S off)); Ok (lo + 2 ^ 16 * hi).

(** ** Packets the server sends *)
Definition sizeof_HELLO_RESPONSE : Z := 16.
Definition HELLO_RESPONSE (proxyID : Z) : list Z :=
  st8 PDU_SRXPROXY_HELLO_RESPONSE ++ st16 (htons SRX_PROTOCOL_VER) ++ st8 0 ++ st32 0
  ++ st32 (htonl sizeof_HELLO_RESPONSE) ++ st32 (htonl proxyID).

Definition sizeof_GOODBYE : Z := 12.
Definition GOODBYE (keepWindow : Z) : list Z :=
  st8 PDU_SRXPROXY_GOODBYE ++ st16 keepWindow ++ st8 0 ++ st32 0 ++ st32 (htonl sizeof_GOODBYE).

Definition sizeof_VERIFY_NOTIFICATION : Z := 20.
Definition VERIFY_NOTIFICATION (resultType roaResult bgpsecResult aspaResult requestToken updateID : Z) : list Z :=
  st8 PDU_SRXPROXY_VERI_NOTIFICATION ++ st8 resultType ++ st8 roaResult ++ st8 bgpsecResult ++ st8 aspaResult
  ++ st8 0 ++ st16 0 ++ st32 (htonl sizeof_VERIFY_NOTIFICATION) ++ st32 (htonl requestToken) ++ st32 (htonl updateID).

Definition sizeof_SIGNATURE_NOTIFICATION : Z := 20.
Definition SIGNATURE_NOTIFICATION (updateID bgpsecLength : Z) (blob : list Z) : list Z :=
  st8 PDU_SRXPROXY_SIGN_NOTIFICATION ++ st16 0 ++ st8 0 ++ st32 0
  ++ st32 (htonl (u32 (sizeof_SIGNATURE_NOTIFICATION + bgpsecLength))) ++ st32 (htonl updateID) ++ st32 (htonl bgpsecLength) ++ blob.

Definition sizeof_SYNCH_REQUEST : Z := 12.
Definition SYNCH_REQUEST : list Z :=
  st8 PDU_SRXPROXY_SYNC_REQUEST ++ st16 0 ++ st8 0 ++ st32 0 ++ st32 (htonl sizeof_SYNCH_REQUEST).

Definition sizeof_ERROR : Z := 12.
Definition ERROR (errorCode : Z) : list Z :=
  st8 PDU_SRXPROXY_ERROR ++ st16 (htons errorCode) ++ st8 0 ++ st32 0 ++ st32 (htonl sizeof_ERROR).

(** ** Fields of the packets the server receives

    The length of [SRXPROXY_BasicHeader] and the offsets of its fields, which all
    packets share. *)
Definition sizeof_BasicHeader : Z := 12.
Definition pdu_type (pkt : list Z) : outcome Z := read8 pkt 0.
Definition pdu_length (pkt : list Z) : outcome Z := read32be pkt 8.

(** [SRXRPOXY_BasicHeader_VerifyRequest] *)
Record BasicHeader_VerifyRequest := mkVerifyRequest {
  type : Z;
  flags : Z;
  roaResSrc : Z;
  bgpsecResSrc : Z;
  aspaResSrc : Z;
  asType : Z;
  asRelType : Z;
  length_ : Z;
  roaDefRes : Z;
  bgpsecDefRes : Z;
  aspaDefRes : Z;
  prefixLen : Z;
  requestToken : Z
}.
Definition sizeof_VerifyRequest : nat := 20.
Definition read_VerifyRequest (pkt : list Z) : outcome BasicHeader_VerifyRequest :=
  ty ← read8 pkt 0; fl ← read8 pkt 1; roaSrc ← read8 pkt 2; secSrc ← read8 pkt 3; aspaSrc ← read8 pkt 4;
  asTy ← read8 pkt 6; asRel ← read8 pkt 7; len ← read32be pkt 8;
  roaDef ← read8 pkt 12; secDef ← read8 pkt 13; aspaDef ← read8 pkt 14; pLen ← read8 pkt 15; token ← read32be pkt 16;
  Ok (mkVerifyRequest ty fl roaSrc secSrc aspaSrc asTy asRel len roaDef secDef aspaDef pLen token).
(** [hdr->flags = f] *)
Definition set_flags (pkt : list Z) (f : Z) : list Z := <[1%nat := u8 f]> pkt.

(** What follows the header in [SRXPROXY_VERIFY_V4_REQUEST], where the address has
    4 bytes, and in [SRXPROXY_VERIFY_V6_REQUEST], where it has 16. *)
Definition addr_size (v4 : bool) : nat := if v4 then 4 else 16.
Definition sizeof_VERIFY_REQUEST (v4 : bool) : nat := 56 + addr_size v4.
Definition read_prefixAddress (v4 : bool) (pkt : list Z) : outcome (list Z) := read_bytes pkt 20 (addr_size v4).
Definition read_originAS (v4 : bool) (pkt : list Z) : outcome Z := read32be pkt (20 + addr_size v4).

(** [BGPSECValReqData]: the numbers of hops and of bytes are converted, the other
    fields stay in network order. *)
Record BGPSECValReqData := mkValReqData { numHops : Z; attrLen : Z; val_afi : Z; val_safi : Z; val_local_as : Z }.
Definition read_ValReqData (v4 : bool) (pkt : list Z) : outcome BGPSECValReqData :=
  let off := (28 + addr_size v4)%nat in
  hops ← read16be pkt off; len ← read16be pkt (off + 2); a ← ld16 pkt (off + 4); s ← read8 pkt (off + 6);
  las ← ld32 pkt (off + 24); Ok (mkValReqData hops len a s las).

(** Other packets *)
Definition hello_version (pkt : list Z) : outcome Z := read16be pkt 1.
Definition hello_proxyIdentifier (pkt : list Z) : outcome Z := read32be pkt 12.
Definition goodbye_keepWindow (pkt : list Z) : outcome Z := read16be pkt 1.
Definition delete_keepWindow (pkt : list Z) : outcome Z := read16be pkt 1.
Definition delete_updateIdentifier (pkt : list Z) : outcome Z := read32be pkt 12.
Definition sign_blockType (pkt : list Z) : outcome Z := read8 pkt 3.
Definition sign_updateIdentifier (pkt : list Z) : outcome Z := read32be pkt 12.

(** ** Bytes of a field *)
Definition be16 (x : Z) : list Z := [(x / 256) mod 256; x mod 256].
Definition be32 (x : Z) : list Z := [(x / 2 ^ 24) mod 256; (x / 2 ^ 16) mod 256; (x / 2 ^ 8) mod 256; x mod 256].

Lemma st16_bytes a b : 0 <= a < 256 -> 0 <= b < 256 -> st16 (a + 2 ^ 8 * b) = [a; b].
Proof. unfold st16. intros. repeat f_equal; zdiv. Qed.
Lemma st16_htons x : st16 (htons x) = be16 x.
Proof. apply st16_bytes; apply Z.mod_pos_bound; lia. Qed.
Lemma le_bytes32_bytes a b c d : 0 <= a < 256 -> 0 <= b < 256 -> 0 <= c < 256 -> 0 <= d < 256 ->
  le_bytes32 (a + 2 ^ 8 * b + 2 ^ 16 * c + 2 ^ 24 * d) = [a; b; c; d].
Proof. unfold le_bytes32. intros. repeat f_equal; zdiv. Qed.
Lemma st32_htonl x : st32 (htonl x) = be32 x.
Proof. apply le_bytes32_bytes; apply Z.mod_pos_bound; lia. Qed.
Lemma be16_load x : in_u 16 x -> 2 ^ 8 * ((x / 256) mod 256) + x mod 256 = x.
Proof. unfold in_u. intros. zdiv. Qed.
Lemma be32_load x : in_u 32 x ->
  2 ^ 16 * (2 ^ 8 * ((x / 2 ^ 24) mod 256) + (x / 2 ^ 16) mod 256) + (2 ^ 8 * ((x / 2 ^ 8) mod 256) + x mod 256) = x.
Proof. unfold in_u. intros. zdiv. Qed.
Lemma st16_load x : in_u 16 x -> x mod 256 + 256 * ((x / 256) mod 256) = x.
Proof. unfold in_u. intros. zdiv. Qed.
End SrxPackets.
