(* ===== verification/PacketSender.v ===== *)
(** * Client connections and sending (util/server_socket.c, server/srx_packet_sender.c)

    The threads of the connected clients and the packets written to their sockets.
    The code modelled is the one without gRPC, in the mode [MODE_SINGLE_CLIENT] the
    server runs in; whether the bytes reach the other side is not part of it: the
    code does not look at the result of the write. *)
From S2P Require Import Prelude Locks SrxDefs PacketQueue SrxPackets.

Module PacketSender.
Import PacketQueue SrxPackets.

(** ** Data *)
Record ClientThread := mkClientThread {
  active : bool;
  initialized : bool;
  proxyID : Z;
  goodByeReceived : bool;
  routerID : Z
}.
(** A thread in the moment it is started. *)
Definition new_ClientThread : ClientThread := mkClientThread true false 0 false 0.

(** [threads] is the memory of the threads, [cthreads] the list of the server
    socket; [wire] lists what was written to the sockets. *)
Record Net := mkNet {
  threads : gmap positive ClientThread;
  cthreads : list positive;
  SEND_QUEUE : SendPacketQueue;
  wire : list (positive * list Z)
}.
Implicit Types (net : Net) (client : positive).

Definition set_threads net (t : gmap positive ClientThread) : Net := mkNet t (cthreads net) (SEND_QUEUE net) (wire net).
Definition set_SEND_QUEUE net (q : SendPacketQueue) : Net := mkNet (threads net) (cthreads net) q (wire net).
Definition write net client (bs : list Z) : Net :=
  mkNet (threads net) (cthreads net) (SEND_QUEUE net) (wire net ++ [(client, bs)]).

(** ** The server socket *)

(** [single_sendResult], reached through [sendPacketToClient]. *)
Definition sendPacketToClient net client (data : list Z) (size : Z) : outcome (Net * bool) :=
  clt ← deref (threads net) client;
  if active clt then bs ← read_bytes data 0 (Z.to_nat size); Ok (write net client bs, true)
  else Ok (net, false).

Definition set_active (ct : ClientThread) (b : bool) : ClientThread :=
  mkClientThread b (initialized ct) (proxyID ct) (goodByeReceived ct) (routerID ct).
Definition _killClientThread net client : outcome Net :=
  ct ← deref (threads net) client;
  Ok (if active ct then set_threads net (<[client := set_active ct false]> (threads net)) else net).

(** [deleteFromSList] on a list of client pointers. *)
Fixpoint delete_client (c : positive) (l : list positive) : list positive :=
  match l with
  | [] => []
  | x :: l => if decide (x = c) then l else x :: delete_client c l
  end.

Definition closeClientConnection net client : outcome Net :=
  net ← _killClientThread net client;
  Ok (mkNet (threads net) (delete_client client (cthreads net)) (SEND_QUEUE net) (wire net)).

(** ** Sending *)

(** Without a send queue the packet is not sent. *)
Definition __sendPacketToClient net client (pdu : list Z) (size : Z) (useQueue : bool) : outcome (Net * bool) :=
  if negb useQueue then sendPacketToClient net client pdu size
  else match SEND_QUEUE net with
       | None => Ok (net, false)
       | Some q => '(q, retVal) ← addToQueue pdu client size q; Ok (set_SEND_QUEUE net (Some q), retVal)
       end.

Definition sendHelloResponse net client (proxyID : Z) : outcome (Net * bool) :=
  sendPacketToClient net client (HELLO_RESPONSE proxyID) sizeof_HELLO_RESPONSE.
Definition sendGoodbye net client (useQueue : bool) : outcome (Net * bool) :=
  __sendPacketToClient net client (GOODBYE 0) sizeof_GOODBYE useQueue.
Definition sendVerifyNotification net client (updateID resultType requestToken roaResult bgpsecResult aspaResult : Z)
    (useQueue : bool) : outcome (Net * bool) :=
  __sendPacketToClient net client
    (VERIFY_NOTIFICATION resultType roaResult bgpsecResult aspaResult requestToken updateID)
    sizeof_VERIFY_NOTIFICATION useQueue.
Definition sendSignatureNotification net client (updateID bgpsecLength : Z) (bgpsecBlob : list Z) (useQueue : bool)
    : outcome (Net * bool) :=
  blob ← read_bytes bgpsecBlob 0 (Z.to_nat bgpsecLength);
  __sendPacketToClient net client (SIGNATURE_NOTIFICATION updateID bgpsecLength blob)
    (u32 (sizeof_SIGNATURE_NOTIFICATION + bgpsecLength)) useQueue.
Definition sendSynchRequest net client (useQueue : bool) : outcome (Net * bool) :=
  __sendPacketToClient net client SYNCH_REQUEST sizeof_SYNCH_REQUEST useQueue.
Definition sendError (errorCode : Z) net client (useQueue : bool) : outcome (Net * bool) :=
  __sendPacketToClient net client (ERROR errorCode) sizeof_ERROR useQueue.

(** One round of [sendQueueThreadLoop]: a failed write is only logged. *)
Definition sendQueueThreadRound net : outcome Net :=
  match SEND_QUEUE net with
  | None => Ok net
  | Some q =>
      if running q then
        '(q, f) ← fetchPacket q;
        let net := set_SEND_QUEUE net (Some q) in
        match f with
        | GotPacket p => '(net, _) ← sendPacketToClient net (client p) (pdu p) (psize p); Ok net
        | _ => Ok net
        end
      else Ok net
  end.

(** ** What sending does *)
Definition is_active net client : bool :=
  match threads net !! client with Some ct => active ct | None => false end.

Lemma send_eq net client ct data size : threads net !! client = Some ct -> Z.of_nat (length data) = size ->
  sendPacketToClient net client data size
  = Ok (if active ct then (write net client data, true) else (net, false)).
Proof.
  intros Hc <-. unfold sendPacketToClient, deref. rewrite Hc. simpl_outcome. destruct (active ct); [|done].
  unfold read_bytes. rewrite Nat2Z.id, decide_True by lia. cbn [drop]. by rewrite firstn_all.
Qed.

End PacketSender.
