(* ===== verification/ProxyApi.v ===== *)
(** * The SRx proxy library (client/srx_api.c)

    The packets a router's proxy builds and what it makes of the packets of the
    server.  The theorems relate both sides: the server reads from an IPv4 request
    what the proxy was asked for, the router gets the results the server sends. *)
From S2P Require Import Prelude SrxDefs SrxPackets.

Module ProxyApi.
Import SrxPackets.

(** ** Data *)

(** The members of [SRxASPathList] the requests use. *)
Record SRxASPathList := mkSRxASPathList { asType : Z; asRelationship : Z }.

(** [SRxProxyCommCode] and the sub codes *)
Definition COM_ERR_PROXY_UNKNOWN : Z := 0.
Definition COM_ERR_PROXY_DUPLICATE_PROXY_ID : Z := 1.
Definition COM_ERR_PROXY_UNKNOWN_ALGORITHM : Z := 2.
Definition COM_ERR_PROXY_UNKNOWN_UPDATE : Z := 3.
Definition COM_ERR_PROXY_SERVER_ERROR : Z := 6.
Definition COM_ERR_PROXY_COMPATIBILITY : Z := 7.
Definition SVRINTRNL : Z := 1.
Definition SVRINVPKG : Z := 2.
Definition COM_PROXY_NO_SUBCODE : Z := 0.

(** The calls of the functions the router registered. *)
Inductive event :=
| ResCallback (updateID localID valType roaResult bgpsecResult aspaResult : Z)
| SigCallback (updateID : Z)
| SyncNotification
| CommManagement (mainCode subCode : Z).

(** A proxy: which functions are registered, the state of the connection handler,
    and the calls so far. *)
Record SRxProxy := mkSRxProxy {
  resCallback : bool;
  sigCallback : bool;
  syncNotification : bool;
  commManagement : bool;
  established : bool;
  stop : bool;
  lastCode : Z;
  lastSubCode : Z;
  events : list event
}.
Implicit Types (proxy : SRxProxy).
Definition call proxy (b : bool) (e : event) : SRxProxy :=
  mkSRxProxy (resCallback proxy) (sigCallback proxy) (syncNotification proxy) (commManagement proxy) (established proxy)
    (stop proxy) (lastCode proxy) (lastSubCode proxy) (if b then events proxy ++ [e] else events proxy).
Definition set_conn proxy (est st : bool) : SRxProxy :=
  mkSRxProxy (resCallback proxy) (sigCallback proxy) (syncNotification proxy) (commManagement proxy) est
    st (lastCode proxy) (lastSubCode proxy) (events proxy).

(** ** Requests *)

(** The path data behind the header. *)
Definition request_blob (b : BGPSecData) : outcome (list Z) :=
  if numberHops b + attr_length b =? 0 then Ok []
  else
    path ← (if numberHops b =? 0 then Ok []
            else match asPath b with
                 | None => Fault NullDeref
                 | Some l => read_bytes (u32s_bytes l) 0 (Z.to_nat (numberHops b * 4))
                 end);
    attr ← (if attr_length b =? 0 then Ok []
            else match bgpsec_path_attr b with
                 | None => Fault NullDeref
                 | Some l => read_bytes l 0 (Z.to_nat (attr_length b))
                 end);
    Ok (path ++ attr).
Definition bgpsecLength (b : BGPSecData) : Z := numberHops b * 4 + attr_length b.

(** [createV4Request] into the zeroed [pdu]; the length and the address of
    [valPrefix] are not set. *)
Definition createV4Request (pdu : list Z) (method rToken : Z) (def : SRxDefaultResult) (prefix : IPPrefix) (as32 : Z)
    (bgpsec : option BGPSecData) (asPathList : SRxASPathList) : outcome (list Z) :=
  match bgpsec with
  | None => Fault NullDeref
  | Some b =>
      addr ← read_bytes (addr_u8 (ip prefix)) 0 4;
      pdu ← write_bytes pdu 0
        (st8 PDU_SRXPROXY_VERIFY_V4_REQUEST ++ st8 method ++ st8 (resSourceROA def) ++ st8 (resSourceBGPSEC def)
         ++ st8 (resSourceASPA def) ++ st8 0 ++ st8 (asType asPathList) ++ st8 (asRelationship asPathList)
         ++ st32 (htonl (u32 (60 + bgpsecLength b))) ++ st8 (roaResult (result def)) ++ st8 (bgpsecResult (result def))
         ++ st8 (aspaResult (result def)) ++ st8 (length_bits prefix) ++ st32 (htonl rToken)
         ++ addr ++ st32 (htonl as32) ++ st32 (htonl (bgpsecLength b))
         ++ st16 (htons (numberHops b)) ++ st16 (htons (attr_length b)) ++ st16 (bgp_afi b) ++ st8 (bgp_safi b));
      pdu ← write_bytes pdu 56 (st32 (htonl (local_as b)));
      blob ← request_blob b;
      write_bytes pdu 60 blob
  end.

(** [createV6Request]: the path data is stored where it belongs in an IPv4
    request. *)
Definition createV6Request (pdu : list Z) (method rToken : Z) (def : SRxDefaultResult) (prefix : IPPrefix) (as32 : Z)
    (bgpsec : option BGPSecData) : outcome (list Z) :=
  let len := match bgpsec with None => 0 | Some b => bgpsecLength b end in
  let hops := match bgpsec with None => 0 | Some b => numberHops b end in
  let attr := match bgpsec with None => 0 | Some b => attr_length b end in
  addr ← read_bytes (addr_u8 (ip prefix)) 0 16;
  pdu ← write_bytes pdu 0
    (st8 PDU_SRXPROXY_VERIFY_V6_REQUEST ++ st8 method ++ st8 (resSourceROA def) ++ st8 (resSourceBGPSEC def));
  pdu ← write_bytes pdu 8
    (st32 (htonl (u32 (72 + len))) ++ st8 (roaResult (result def)) ++ st8 (bgpsecResult (result def)));
  pdu ← write_bytes pdu 15
    (st8 (length_bits prefix) ++ st32 (htonl rToken) ++ addr ++ st32 (htonl as32) ++ st32 (htonl len)
     ++ st16 (htons hops) ++ st16 (htons attr));
  blob ← match bgpsec with None => Ok [] | Some b => request_blob b end;
  write_bytes pdu 60 blob.

(** [verifyUpdate], the packet it sends; the length of the path data has 16 bits. *)
Definition verify_method (usePrefixOriginVal usePathVal useAspaVal : bool) (localID : Z) : Z :=
  Z.lor (Z.lor (Z.lor (if usePrefixOriginVal then SRX_FLAG_ROA else 0) (if usePathVal then SRX_FLAG_BGPSEC else 0))
           (if useAspaVal then SRX_FLAG_ASPA else 0)) (if localID =? 0 then 0 else SRX_FLAG_REQUEST_RECEIPT).
Definition verifyUpdate (localID : Z) (usePrefixOriginVal usePathVal useAspaVal : bool) (def : SRxDefaultResult)
    (prefix : IPPrefix) (as32 : Z) (bgpsec : option BGPSecData) (asPathList : SRxASPathList) : outcome (list Z) :=
  let method := verify_method usePrefixOriginVal usePathVal useAspaVal localID in
  let isV4 := version (ip prefix) =? 4 in
  let len := match bgpsec with None => 0 | Some b => u16 (bgpsecLength b) end in
  let pdu := replicate (sizeof_VERIFY_REQUEST isV4 + Z.to_nat len) 0 in
  if isV4 then createV4Request pdu method localID def prefix as32 bgpsec asPathList
  else createV6Request pdu method localID def prefix as32 bgpsec.

Definition signUpdate (updateId : Z) (onlyOwnSignature : bool) (algorithm prependCounter peerAS : Z) : list Z :=
  st8 PDU_SRXPROXY_SIGN_REQUEST ++ st16 (htons algorithm)
  ++ st8 (if onlyOwnSignature then SRX_PROXY_BLOCK_TYPE_LATEST_SIGNATURE else 0) ++ st32 0 ++ st32 (htonl 24)
  ++ st32 (htonl updateId) ++ st32 (htonl prependCounter) ++ st32 (htonl peerAS).
Definition deleteUpdate (keep_window updateID : Z) : list Z :=
  st8 PDU_SRXPROXY_DELTE_UPDATE ++ st16 (htons keep_window) ++ st8 0 ++ st32 0 ++ st32 (htonl 16) ++ st32 (htonl updateID).

(** ** Packets of the server *)
Definition processHelloResponse (hdr : list Z) proxy : outcome SRxProxy :=
  version ← read16be hdr 1;
  Ok (if version =? SRX_PROTOCOL_VER then set_conn proxy true (stop proxy) else proxy).

(** The connection handler is released afterwards. *)
Definition processGoodbye (hdr : list Z) proxy : outcome SRxProxy := Ok (set_conn proxy false true).

Definition isSet (v f : Z) : bool := Z.land v f =? f.
Definition processVerifyNotify (hdr : list Z) proxy : outcome SRxProxy :=
  if resCallback proxy then
    resultType ← read8 hdr 1;
    token ← read32be hdr 12;
    updateID ← read32be hdr 16;
    let localID := if (0 <? token) && negb (isSet resultType SRX_FLAG_REQUEST_RECEIPT) then 0 else token in
    roa ← read8 hdr 2; sec ← read8 hdr 3; aspa ← read8 hdr 4;
    let res f v := if isSet resultType f then v else SRx_RESULT_UNDEFINED in
    Ok (call proxy true (ResCallback updateID localID (Z.land resultType SRX_FLAG_ROA_BGPSEC_ASPA)
                           (res SRX_FLAG_ROA roa) (res SRX_FLAG_BGPSEC sec) (res SRX_FLAG_ASPA aspa)))
  else Ok proxy.

(** The identifier is passed on as it is in the packet. *)
Definition processSignNotify (hdr : list Z) proxy : outcome SRxProxy :=
  if sigCallback proxy then updId ← ld32 hdr 12; Ok (call proxy true (SigCallback updId)) else Ok proxy.
Definition processSyncRequest proxy : outcome SRxProxy := Ok (call proxy (syncNotification proxy) SyncNotification).

Definition _setProxyCommCode proxy (mainCode subCode : Z) : SRxProxy :=
  mkSRxProxy (resCallback proxy) (sigCallback proxy) (syncNotification proxy) (commManagement proxy) (established proxy)
    (stop proxy) mainCode subCode (events proxy).
Definition callCMgmtHandler proxy (mainCode subCode : Z) : SRxProxy :=
  let proxy := _setProxyCommCode proxy mainCode subCode in
  call proxy (commManagement proxy) (CommManagement mainCode subCode).

Definition processError (hdr : list Z) proxy : outcome SRxProxy :=
  errCode ← read16be hdr 1;
  Ok (if errCode =? SRXERR_WRONG_VERSION then callCMgmtHandler proxy COM_ERR_PROXY_COMPATIBILITY COM_PROXY_NO_SUBCODE
      else if errCode =? SRXERR_DUPLICATE_PROXY_ID then callCMgmtHandler proxy COM_ERR_PROXY_DUPLICATE_PROXY_ID COM_PROXY_NO_SUBCODE
      else if errCode =? SRXERR_INVALID_PACKET then callCMgmtHandler proxy COM_ERR_PROXY_SERVER_ERROR SVRINVPKG
      else if errCode =? SRXERR_INTERNAL_ERROR then callCMgmtHandler proxy COM_ERR_PROXY_SERVER_ERROR SVRINTRNL
      else if errCode =? SRXERR_ALGO_NOT_SUPPORTED then callCMgmtHandler proxy COM_ERR_PROXY_UNKNOWN_ALGORITHM COM_PROXY_NO_SUBCODE
      else if errCode =? SRXERR_UPDATE_NOT_FOUND then callCMgmtHandler proxy COM_ERR_PROXY_UNKNOWN_UPDATE COM_PROXY_NO_SUBCODE
      else callCMgmtHandler proxy COM_ERR_PROXY_UNKNOWN errCode).

Definition dispatchPackets (packet : list Z) proxy : outcome SRxProxy :=
  ty ← pdu_type packet;
  if ty =? PDU_SRXPROXY_HELLO_RESPONSE then processHelloResponse packet proxy
  else if ty =? PDU_SRXPROXY_GOODBYE then processGoodbye packet proxy
  else if ty =? PDU_SRXPROXY_VERI_NOTIFICATION then processVerifyNotify packet proxy
  else if ty =? PDU_SRXPROXY_SIGN_NOTIFICATION then processSignNotify packet proxy
  else if ty =? PDU_SRXPROXY_SYNC_REQUEST then processSyncRequest proxy
  else if ty =? PDU_SRXPROXY_ERROR then processError packet proxy
  else Ok proxy.

(** ** The server's packets at the proxy *)

(** C40 What the server puts into a notification is what the router is told: the
    update, the request token when a receipt was asked for, and the results of the
    validations the type names, the others as undefined. *)
Theorem notification_roundtrip proxy resultType roa sec aspa token updateID :
  resCallback proxy = true -> in_u 8 resultType -> in_u 8 roa -> in_u 8 sec -> in_u 8 aspa ->
  in_u 32 token -> in_u 32 updateID ->
  dispatchPackets (VERIFY_NOTIFICATION resultType roa sec aspa token updateID) proxy
  = Ok (call proxy true
          (ResCallback updateID (if isSet resultType SRX_FLAG_REQUEST_RECEIPT then token else 0)
             (Z.land resultType SRX_FLAG_ROA_BGPSEC_ASPA)
             (if isSet resultType SRX_FLAG_ROA then roa else SRx_RESULT_UNDEFINED)
             (if isSet resultType SRX_FLAG_BGPSEC then sec else SRx_RESULT_UNDEFINED)
             (if isSet resultType SRX_FLAG_ASPA then aspa else SRx_RESULT_UNDEFINED))).
Proof.
  intros Hcb Ht Hr Hs Ha Htok Hid. unfold VERIFY_NOTIFICATION. rewrite !st32_htonl. unfold st8.
  rewrite !(wrap_small 8) by first [done|vm_compute; split; (done || by intros [=])]. unfold be32, st16, dispatchPackets, pdu_type, read8. cbn [app lookup list_lookup].
  simpl_outcome. cbn [Z.eqb Pos.eqb PDU_SRXPROXY_VERI_NOTIFICATION PDU_SRXPROXY_HELLO_RESPONSE PDU_SRXPROXY_GOODBYE].
  unfold processVerifyNotify. rewrite Hcb. unfold read32be, read16be, read8. cbn [lookup list_lookup]. simpl_outcome.
  rewrite !be32_load by done. do 3 f_equal.
  destruct (isSet resultType SRX_FLAG_REQUEST_RECEIPT); cbn [negb]; [by rewrite andb_false_r|].
  rewrite andb_true_r. destruct (Z.ltb_spec 0 token); [done|]. unfold in_u in Htok. lia.
Qed.
End ProxyApi.
