(* ===== verification/ProxyMap.v ===== *)
(** * The proxy map (server/server_connection_handler.c)

    The 256 mappings between proxies and the 8-bit client identifiers the update
    cache and the connections use: searching, registering, activating and removing
    a mapping.  A mapping is found by its index, the client identifier; index 0 is
    not used. *)
From S2P Require Import Prelude SrxDefs UtHash UpdateCache.

Module ProxyMap.

(** ** Data *)
Abbreviation MAX_PROXY_CLIENT_ELEMENTS := 256%nat.

(** [socket] is the client thread, [None] for NULL. *)
Record ProxyClientMapping := mkProxyClientMapping {
  proxyID : Z;
  socket : option positive;
  isActive : bool;
  preDefined : bool;
  crashed : Z;
  updateCount : Z
}.
Definition zero_mapping : ProxyClientMapping := mkProxyClientMapping 0 None false false 0 0.

(** The fields of the configuration the connection handler reads. *)
Record Configuration := mkConfiguration {
  defaultKeepWindow : Z;
  syncAfterConnEstablished : bool;
  mode_no_sendqueue : bool;
  mode_no_receivequeue : bool
}.

(** The connection handler without the queues and the caches it points to;
    [clients] lists the client threads in the order of the linked list. *)
Record ServerConnectionHandler := mkServerConnectionHandler {
  inShutdown : bool;
  clients : list positive;
  proxyMap : list ProxyClientMapping;
  noMappings : Z;
  sysConfig : Configuration
}.
Implicit Types (self : ServerConnectionHandler) (m : ProxyClientMapping) (clientID pid : Z).

Definition set_clients self (l : list positive) : ServerConnectionHandler :=
  mkServerConnectionHandler (inShutdown self) l (proxyMap self) (noMappings self) (sysConfig self).
Definition set_map self (l : list ProxyClientMapping) (n : Z) : ServerConnectionHandler :=
  mkServerConnectionHandler (inShutdown self) (clients self) l n (sysConfig self).

(** [self->proxyMap[clientID]] read and written. *)
Definition get_mapping self clientID : outcome ProxyClientMapping := arr_get (proxyMap self) (Z.to_nat clientID).
Definition put_mapping self clientID m : ServerConnectionHandler :=
  set_map self (<[Z.to_nat clientID := m]> (proxyMap self)) (noMappings self).

(** ** Searching *)

(** The loop of [findClientID] from [index] on. *)
Fixpoint find_loop (n index : nat) (noMappings : Z) self pid : outcome Z :=
  match n with
  | O => Ok 0
  | S n =>
      if noMappings <=? 0 then Ok 0
      else m ← arr_get (proxyMap self) index;
           if 0 <? proxyID m then
             if proxyID m =? pid then Ok (Z.of_nat index)
             else find_loop n (S index) (noMappings - 1) self pid
           else find_loop n (S index) noMappings self pid
  end.
Definition findClientID self pid : outcome Z :=
  if pid =? 0 then Ok 0 else find_loop (MAX_PROXY_CLIENT_ELEMENTS - 1) 1 (noMappings self) self pid.

(** The loop of [createClientID] from [index] on. *)
Fixpoint create_loop (n index : nat) self : outcome Z :=
  match n with
  | O => Ok 0
  | S n => m ← arr_get (proxyMap self) index;
           if proxyID m =? 0 then Ok (Z.of_nat index) else create_loop n (S index) self
  end.
Definition createClientID self : outcome Z := create_loop (MAX_PROXY_CLIENT_ELEMENTS - 1) 1 self.

(** ** Registering *)

(** The decision of [addMapping] for the client [m]. *)
Definition can_map pid clientID (registeredClientID : Z) m (cSocket : option positive) : bool :=
  if registeredClientID =? 0 then
    if proxyID m =? 0 then negb (isActive m) else false
  else if registeredClientID =? clientID then
    if negb (isActive m) then true else bool_decide (socket m = cSocket)
  else false.

Definition addMapping self pid clientID (cSocket : option positive) (activate : bool)
    : outcome (ServerConnectionHandler * bool) :=
  registeredClientID ← findClientID self pid;
  m ← get_mapping self clientID;
  if can_map pid clientID registeredClientID m cSocket then
    let new := proxyID m =? 0 in
    let m' := mkProxyClientMapping (if new then pid else proxyID m) cSocket activate
                (if activate then preDefined m else true) 0 (updateCount m) in
    Ok (set_map self (<[Z.to_nat clientID := m']> (proxyMap self))
          (if new then u8 (noMappings self + 1) else noMappings self), true)
  else Ok (self, false).

(** [configureProxyMap] with the configured proxies from index [idx] on. *)
Fixpoint configure_loop (idx : nat) (mappings : list Z) self (addedAllToMap : bool)
    : outcome (ServerConnectionHandler * bool) :=
  match mappings with
  | [] => Ok (self, addedAllToMap)
  | pid :: mappings =>
      if 0 <? pid then
        '(self, ok) ← addMapping self pid (Z.of_nat idx) None false;
        configure_loop (S idx) mappings self (if (ok : bool) then addedAllToMap else false)
      else configure_loop (S idx) mappings self addedAllToMap
  end.
Definition configureProxyMap self (mappings : list Z) : outcome (ServerConnectionHandler * bool) :=
  configure_loop 0 mappings self true.

(** [createServerConnectionHandler] after the socket is created; the handler is a
    static variable of the program, so [noMappings] starts at 0. *)
Definition createServerConnectionHandler (cfg : Configuration) (mapping_routerID : list Z)
    : outcome ServerConnectionHandler :=
  '(self, _) ← configureProxyMap
      (mkServerConnectionHandler false [] (replicate MAX_PROXY_CLIENT_ELEMENTS zero_mapping) 0 cfg) mapping_routerID;
  Ok self.

Definition setActivationFlag self clientID (value : bool) : outcome (ServerConnectionHandler * bool) :=
  if 0 <? clientID then
    m ← get_mapping self clientID;
    if 0 <? proxyID m then
      Ok (put_mapping self clientID
            (mkProxyClientMapping (proxyID m) (socket m) value (preDefined m) (crashed m) (updateCount m)), true)
    else Ok (self, false)
  else Ok (self, false).

Definition markConnectionHandlerShutdown self : ServerConnectionHandler :=
  mkServerConnectionHandler true (clients self) (proxyMap self) (noMappings self) (sysConfig self).

(** ** Removing *)
Section remove.
Context {H : Type} `{UTHash H}.
Implicit Types (uc : UpdateCache.UpdateCache H).

Definition set_updateCount m (n : Z) : ProxyClientMapping :=
  mkProxyClientMapping (proxyID m) (socket m) (isActive m) (preDefined m) (crashed m) n.

Definition _delMapping self uc clientID (keepWindow : Z)
    : outcome (ServerConnectionHandler * UpdateCache.UpdateCache H * bool) :=
  m ← get_mapping self clientID;
  if negb (isActive m) then
    '(uc, m) ← (if 0 <? updateCount m then
                  '(uc, count, _) ← UpdateCache.unregisterClientID uc clientID (Some (updateCount m)) keepWindow;
                  Ok (uc, set_updateCount m (default (updateCount m) count))
                else Ok (uc, m));
    let delete := negb (preDefined m) && (crashed m =? 0) in
    let m := mkProxyClientMapping (if delete then 0 else proxyID m) None (isActive m)
               (if delete then false else preDefined m) (crashed m) (updateCount m) in
    Ok (put_mapping self clientID m, uc, true)
  else Ok (self, uc, false).

(** [deactivateConnectionMapping] at the time [now]. *)
Definition deactivateConnectionMapping self uc (now clientID : Z) (crash : bool) (keepWindow : Z)
    : outcome (ServerConnectionHandler * UpdateCache.UpdateCache H) :=
  let keepWindow := if keepWindow <? u16 (defaultKeepWindow (sysConfig self))
                    then u16 (defaultKeepWindow (sysConfig self)) else keepWindow in
  m ← get_mapping self clientID;
  let self := put_mapping self clientID
                (mkProxyClientMapping (proxyID m) (socket m) false (preDefined m)
                   (if crash then now else 0) (updateCount m)) in
  '(self, uc, _) ← _delMapping self uc clientID keepWindow;
  m ← get_mapping self clientID;
  Ok (put_mapping self clientID (set_updateCount m 0), uc).
End remove.

End ProxyMap.
