(* ===== verification/ProxyMapTheorems.v ===== *)
(** * The proxy map: properties

    The invariant of the map, and what searching, registering and removing do.
    The counter of the mappings bounds the search; it counts registrations and is
    never lowered, so the properties ask for fewer than 255 of them, and
    [noMappings_wraps] shows what happens after 256. *)
From S2P Require Import Prelude SrxDefs UtHash UpdateCache UpdateCacheLemmas UpdateCacheTheorems ProxyMap.

Module ProxyMapTheorems.
Import ProxyMap.
Implicit Types (self : ServerConnectionHandler) (m : ProxyClientMapping) (c pid : Z).

(** ** The invariant *)
Definition mapped m : Prop := proxyID m <> 0.
#[export] Instance mapped_dec m : Decision (mapped m).
Proof. unfold mapped. apply _. Defined.
Definition used (l : list ProxyClientMapping) : Z := Z.of_nat (length (filter mapped l)).

Record pm_wf self : Prop := {
  pw_length : length (proxyMap self) = MAX_PROXY_CLIENT_ELEMENTS;
  pw_ids : Forall (fun m => in_u 32 (proxyID m)) (proxyMap self);
  pw_zero : (proxyID <$> proxyMap self !! 0%nat) = Some 0;
  pw_inactive : Forall (fun m => isActive m = true -> mapped m) (proxyMap self);
  pw_distinct i j m m' : proxyMap self !! i = Some m -> proxyMap self !! j = Some m' ->
    mapped m -> proxyID m = proxyID m' -> i = j;
  pw_count : used (proxyMap self) <= noMappings self;
  pw_byte : noMappings self < 2 ^ 8
}.

(** The client a proxy is mapped to, and the first client without a proxy; 0 if
    there is none. *)
Definition index_of (P : ProxyClientMapping -> Prop) `{forall m, Decision (P m)} self : Z :=
  match list_find P (drop 1 (proxyMap self)) with
  | Some (j, _) => Z.of_nat (S j)
  | None => 0
  end.
Definition client_of self pid : Z := index_of (fun m => proxyID m = pid) self.
Definition free_client self : Z := index_of (fun m => proxyID m = 0) self.

Lemma used_cons m l : used (m :: l) = (if decide (mapped m) then 1 else 0) + used l.
Proof. unfold used. rewrite filter_cons. case_decide; simpl; lia. Qed.
Lemma used_drop n l : used (drop n l) <= used l.
Proof.
  revert l. induction n as [|n IH]; intros [|m l]; try done. cbn [drop]. rewrite used_cons.
  specialize (IH l). case_decide; lia.
Qed.
Lemma used_bound l : 0 <= used l <= Z.of_nat (length l).
Proof. unfold used. pose proof (length_filter mapped l). lia. Qed.
Lemma used_all l : Forall mapped l -> used l = Z.of_nat (length l).
Proof. induction 1 as [|m l Hm _ IH]; [done|]. rewrite used_cons, IH, decide_True by done. simpl. lia. Qed.
Lemma used_insert l i m m' : l !! i = Some m ->
  used (<[i := m']> l) = used l - (if decide (mapped m) then 1 else 0) + (if decide (mapped m') then 1 else 0).
Proof.
  revert i. induction l as [|x l IH]; intros [|i]; try done; cbn [lookup list_lookup].
  - intros [= ->]. cbn. rewrite !used_cons. lia.
  - intros Hi. change (<[S i := m']> (x :: l)) with (x :: <[i := m']> l). rewrite !used_cons, (IH i Hi). lia.
Qed.

(** ** Searching *)
Lemma drop_S_lookup {A} (l : list A) i x : l !! i = Some x -> drop i l = x :: drop (S i) l.
Proof. intros Hx. by rewrite (drop_S l x i Hx). Qed.

Lemma find_loop_eq n index k self pid :
  (index + n = length (proxyMap self))%nat -> Forall (fun m => in_u 32 (proxyID m)) (proxyMap self) ->
  used (drop index (proxyMap self)) <= k -> pid <> 0 ->
  find_loop n index k self pid
  = Ok (match list_find (fun m => proxyID m = pid) (drop index (proxyMap self)) with
        | Some (j, _) => Z.of_nat (index + j)
        | None => 0
        end).
Proof.
  intros Hlen Hids Hk Hp. revert index k Hlen Hk. induction n as [|n IH]; intros index k Hlen Hk; cbn [find_loop].
  - rewrite drop_ge by lia. done.
  - destruct (lookup_lt_is_Some_2 (proxyMap self) index) as [m Hm]; [lia|].
    pose proof (proj1 (Forall_lookup _ _) Hids _ _ Hm) as Hid. unfold in_u in Hid. cbn in Hid.
    destruct (Z.leb_spec k 0) as [Hk0|Hk0].
    + destruct (list_find _ _) as [[j m']|] eqn:E; [|done]. exfalso.
      apply list_find_Some in E as (Hj & Hpid & _).
      assert (0 < used (drop index (proxyMap self))); [|lia].
      unfold used. assert (m' ∈ filter mapped (drop index (proxyMap self))) as Hin.
      { apply list_elem_of_filter. split; [unfold mapped; congruence|]. by apply list_elem_of_lookup_2 in Hj. }
      destruct (filter mapped _); [by apply elem_of_nil in Hin|]. simpl. lia.
    + unfold arr_get. rewrite Hm. simpl_outcome. rewrite (drop_S_lookup _ _ _ Hm) in Hk |- *. rewrite used_cons in Hk.
      cbn [list_find]. destruct (decide (proxyID m = pid)) as [<-|Hne].
      * replace (0 <? proxyID m) with true by lia. rewrite Z.eqb_refl. f_equal. lia.
      * replace (proxyID m =? pid) with false by lia.
        assert ((if 0 <? proxyID m then find_loop n (S index) (k - 1) self pid else find_loop n (S index) k self pid)
          = find_loop n (S index) (if 0 <? proxyID m then k - 1 else k) self pid) as -> by (by destruct (0 <? _)).
        rewrite IH; [|lia|unfold mapped in Hk; case_decide; destruct (Z.ltb_spec 0 (proxyID m)); lia].
        destruct (list_find _ (drop (S index) _)) as [[j m']|]; [|done]. cbn. f_equal. lia.
Qed.

Lemma findClientID_eq self pid : pm_wf self -> findClientID self pid = Ok (if pid =? 0 then 0 else client_of self pid).
Proof.
  intros Hw. unfold findClientID, client_of, index_of. destruct (Z.eqb_spec pid 0); [done|].
  rewrite find_loop_eq; [done|rewrite (pw_length _ Hw); lia|apply pw_ids, Hw| |done].
  etrans; [apply used_drop|apply pw_count, Hw].
Qed.

Lemma create_loop_eq n index self : (index + n = length (proxyMap self))%nat ->
  create_loop n index self
  = Ok (match list_find (fun m => proxyID m = 0) (drop index (proxyMap self)) with
        | Some (j, _) => Z.of_nat (index + j)
        | None => 0
        end).
Proof.
  revert index. induction n as [|n IH]; intros index Hlen; cbn [create_loop].
  - by rewrite drop_ge by lia.
  - destruct (lookup_lt_is_Some_2 (proxyMap self) index) as [m Hm]; [lia|].
    unfold arr_get. rewrite Hm. simpl_outcome. rewrite (drop_S_lookup _ _ _ Hm). cbn [list_find].
    destruct (decide (proxyID m = 0)) as [->|Hne]; [f_equal; lia|]. replace (proxyID m =? 0) with false by lia.
    rewrite IH by lia. destruct (list_find _ _) as [[j m']|]; [|done]. cbn. f_equal. lia.
Qed.
Lemma createClientID_eq self : length (proxyMap self) = MAX_PROXY_CLIENT_ELEMENTS ->
  createClientID self = Ok (free_client self).
Proof. intros Hl. unfold createClientID, free_client, index_of. by rewrite create_loop_eq by lia. Qed.

(** What the two indices are. *)
Lemma index_of_spec (P : ProxyClientMapping -> Prop) `{forall m, Decision (P m)} self :
  length (proxyMap self) = MAX_PROXY_CLIENT_ELEMENTS ->
  let c := index_of P self in
  (c = 0 /\ forall i m, proxyMap self !! i = Some m -> (0 < i)%nat -> ~ P m)
  \/ (1 <= c < 256 /\ (exists m, proxyMap self !! Z.to_nat c = Some m /\ P m)
      /\ forall i m, (0 < i < Z.to_nat c)%nat -> proxyMap self !! i = Some m -> ~ P m).
Proof.
  intros Hl c. subst c. unfold index_of. destruct (list_find P _) as [[j m]|] eqn:E.
  - right. apply list_find_Some in E as (Hj & HP & Hlt). rewrite lookup_drop in Hj.
    pose proof (lookup_lt_Some _ _ _ Hj). split; [lia|]. rewrite Nat2Z.id. split; [by exists m|].
    intros i m' Hi Hm'. apply (Hlt (i - 1)%nat); [|lia]. rewrite lookup_drop. by replace (1 + (i - 1))%nat with i by lia.
  - left. apply list_find_None in E. rewrite Forall_lookup in E. split; [done|]. intros i m Hi Hpos.
    apply (E (i - 1)%nat). rewrite lookup_drop. by replace (1 + (i - 1))%nat with i by lia.
Qed.

Lemma client_of_spec self pid i m : pm_wf self -> pid <> 0 -> proxyMap self !! i = Some m -> proxyID m = pid ->
  client_of self pid = Z.of_nat i.
Proof.
  intros Hw Hp Hi Hm. destruct (index_of_spec (fun m => proxyID m = pid) self (pw_length _ Hw)) as [[_ Hno]|(Hc & (m' & Hm' & E) & _)].
  - destruct i as [|i]; [|exfalso; apply (Hno _ _ Hi); [lia|done]].
    pose proof (pw_zero _ Hw) as Hz. rewrite Hi in Hz. cbn in Hz. injection Hz as Hz. congruence.
  - fold (client_of self pid) in *. pose proof (pw_distinct _ Hw i _ m m' Hi Hm') as Hij.
    unfold mapped in Hij. rewrite Hij; [lia|congruence|congruence].
Qed.

(** ** Changing one mapping *)
Definition others_differ self (i : nat) (pid : Z) : Prop :=
  forall j m, proxyMap self !! j = Some m -> j <> i -> proxyID m <> pid.

Lemma set_mapping_wf self i m m' n : pm_wf self -> proxyMap self !! i = Some m -> (0 < i)%nat ->
  in_u 32 (proxyID m') -> (isActive m' = true -> mapped m') -> (mapped m' -> others_differ self i (proxyID m')) ->
  noMappings self - (if decide (mapped m) then 1 else 0) + (if decide (mapped m') then 1 else 0) <= n < 2 ^ 8 ->
  pm_wf (set_map self (<[i := m']> (proxyMap self)) n).
Proof.
  intros Hw Hm Hi Hid Hact Hoth Hn. split; cbn [proxyMap set_map noMappings]; [|..|lia].
  - by rewrite length_insert, (pw_length _ Hw).
  - by apply Forall_insert; [apply (pw_ids _ Hw)|].
  - rewrite list_lookup_insert_ne by lia. apply (pw_zero _ Hw).
  - by apply Forall_insert; [apply (pw_inactive _ Hw)|].
  - intros j k mj mk Hj Hk Hmj E. pose proof (lookup_lt_Some _ _ _ Hm) as Hlt.
    apply list_lookup_insert_Some in Hj as [(<- & <- & _)|[Hne Hj]]; apply list_lookup_insert_Some in Hk as [(<- & <- & _)|[Hne' Hk]].
    + done.
    + exfalso. apply (Hoth Hmj k mk Hk); [congruence|done].
    + exfalso. apply (Hoth ltac:(unfold mapped in *; congruence) j mj Hj); [congruence|done].
    + by eapply (pw_distinct _ Hw).
  - rewrite (used_insert _ _ _ _ Hm). pose proof (pw_count _ Hw). lia.
Qed.

Lemma client_of_0 self pid : pm_wf self -> pid <> 0 -> client_of self pid = 0 -> forall i m, proxyMap self !! i = Some m -> proxyID m <> pid.
Proof.
  intros Hw Hp Hc i m Hi E. pose proof (client_of_spec self pid i m Hw Hp Hi E) as Hci. rewrite Hc in Hci.
  assert (i = 0%nat) as -> by lia. pose proof (pw_zero _ Hw) as Hz. rewrite Hi in Hz. cbn in Hz. congruence.
Qed.

(** Whether a mapping of [pid] to the client [c], which holds [m], is accepted. *)
Definition accepted self pid m (s : option positive) : bool :=
  if decide (proxyID m = pid) then negb (isActive m) || bool_decide (socket m = s)
  else bool_decide (proxyID m = 0 /\ client_of self pid = 0).
Definition new_mapping pid m (s : option positive) (activate : bool) : ProxyClientMapping :=
  mkProxyClientMapping pid s activate (if activate then preDefined m else true) 0 (updateCount m).

Lemma addMapping_eq self pid c m s activate :
  pm_wf self -> 0 < pid < 2 ^ 32 -> 1 <= c < 256 -> noMappings self < 255 -> proxyMap self !! Z.to_nat c = Some m ->
  let self' := set_map self (<[Z.to_nat c := new_mapping pid m s activate]> (proxyMap self))
                 (noMappings self + if decide (proxyID m = 0) then 1 else 0) in
  addMapping self pid c s activate = Ok (if accepted self pid m s then (self', true) else (self, false))
  /\ (accepted self pid m s = true -> pm_wf self' /\ client_of self' pid = c).
Proof.
  intros Hw Hp Hc Hn Hm self'.
  pose proof (used_bound (proxyMap self)) as Hub. pose proof (pw_count _ Hw) as Hcnt.
  assert (accepted self pid m s = true -> pm_wf self') as Hw'.
  { intros Ha. eapply set_mapping_wf; [done|exact Hm|lia|unfold in_u; cbn; lia|unfold mapped; cbn; lia| |].
    - cbn. intros _ j mj Hj Hne. unfold accepted in Ha. destruct (decide (proxyID m = pid)) as [E|Hneq].
      + intros E'. apply Hne. eapply (pw_distinct _ Hw); [exact Hj|exact Hm|unfold mapped; lia|congruence].
      + apply bool_decide_eq_true in Ha as [_ Ha]. by eapply client_of_0; [|lia| |].
    - unfold mapped. cbn [proxyID new_mapping]. repeat case_decide; lia. }
  split.
  - unfold addMapping. rewrite findClientID_eq by done. replace (pid =? 0) with false by lia. simpl_outcome.
    unfold get_mapping, arr_get. rewrite Hm. simpl_outcome.
    assert (can_map pid c (client_of self pid) m s = accepted self pid m s) as ->.
    { unfold can_map, accepted. destruct (decide (proxyID m = pid)) as [E|Hne].
      - rewrite (client_of_spec self pid _ m Hw) by (done || lia). rewrite Z2Nat.id by lia.
        replace (c =? 0) with false by lia. rewrite Z.eqb_refl. by destruct (isActive m).
      - destruct (Z.eqb_spec (client_of self pid) 0) as [->|Hne0].
        + destruct (Z.eqb_spec (proxyID m) 0) as [E|E].
          * rewrite bool_decide_true by done. destruct (isActive m) eqn:Ha; [|done]. exfalso.
            apply (proj1 (Forall_lookup _ _) (pw_inactive _ Hw) _ _ Hm Ha E).
          * rewrite bool_decide_false; [done|by intros [? _]].
        + rewrite (bool_decide_false (_ /\ _)) by (by intros [_ ?]). destruct (Z.eqb_spec (client_of self pid) c) as [E|]; [|done].
          exfalso. apply Hne. destruct (index_of_spec (fun m => proxyID m = pid) self (pw_length _ Hw)) as [[Hz _]|(_ & (m' & Hm' & E') & _)].
          * exfalso. by apply Hne0.
          * fold (client_of self pid) in Hm'. rewrite E in Hm'. congruence. }
    destruct (accepted self pid m s) eqn:Ha; [|done].
    assert ((if proxyID m =? 0 then pid else proxyID m) = pid) as ->.
    { unfold accepted in Ha. destruct (Z.eqb_spec (proxyID m) 0); [done|]. destruct (decide (proxyID m = pid)); [done|].
      apply bool_decide_eq_true in Ha. lia. }
    subst self'. do 2 f_equal. f_equal. destruct (Z.eqb_spec (proxyID m) 0); case_decide; try done; [|lia].
    unfold wrap. rewrite Z.mod_small; lia.
  - intros Ha. split; [by apply Hw'|]. rewrite (client_of_spec self' pid (Z.to_nat c) (new_mapping pid m s activate)); [lia|by apply Hw'|lia| |done].
    cbn. apply list_lookup_insert_eq. by eapply lookup_lt_Some.
Qed.

(** Searching the map finds the client a proxy is mapped to, and 0 for an
    unknown one; a new client gets the lowest free identifier, and 0 when all 255
    are taken. *)
Theorem findClientID_correct self pid : pm_wf self -> pid <> 0 ->
  (exists c, findClientID self pid = Ok c
     /\ ((c = 0 /\ forall i m, proxyMap self !! i = Some m -> proxyID m <> pid)
         \/ 1 <= c < 256 /\ forall i m, proxyMap self !! i = Some m -> (proxyID m = pid <-> i = Z.to_nat c)))
  /\ exists c, createClientID self = Ok c
     /\ ((c = 0 /\ used (proxyMap self) = 255)
         \/ 1 <= c < 256 /\ (proxyID <$> proxyMap self !! Z.to_nat c) = Some 0
            /\ forall i m, (0 < i < Z.to_nat c)%nat -> proxyMap self !! i = Some m -> proxyID m <> 0).
Proof.
  intros Hw Hp. split.
  - exists (client_of self pid). rewrite findClientID_eq by done. replace (pid =? 0) with false by lia. split; [done|].
    destruct (index_of_spec (fun m => proxyID m = pid) self (pw_length _ Hw)) as [[Hz Hno]|(Hc & (m & Hm & E) & _)].
    + left. split; [done|]. by apply client_of_0.
    + right. split; [done|]. fold (client_of self pid) in Hm |- *. intros i m' Hi. split; [intros E'|intros ->; congruence].
      rewrite (client_of_spec self pid i m' Hw Hp Hi E'). lia.
  - exists (free_client self). rewrite createClientID_eq by apply Hw. split; [done|].
    destruct (index_of_spec (fun m => proxyID m = 0) self (pw_length _ Hw)) as [[Hz Hno]|(Hc & (m & Hm & E) & Hlt)].
    + left. split; [done|]. pose proof (pw_zero _ Hw) as H0. pose proof (pw_length _ Hw) as Hl.
      destruct (proxyMap self) as [|m0 l]; [done|]. cbn in H0. injection H0 as H0. rewrite used_cons.
      rewrite decide_False by (unfold mapped; lia). rewrite used_all; [simpl in Hl; lia|].
      apply Forall_lookup. intros i m Hi. apply (Hno (S i) m); [done|lia].
    + right. fold (free_client self) in Hm, Hc, Hlt |- *. rewrite Hm. cbn. by rewrite E.
Qed.

(** ** Removing *)
Section remove.
Context {H : Type} `{UTHashLaws H}.
Implicit Types (uc : UpdateCache.UpdateCache H).

(** The updates of the client are unregistered if it has any. *)
Definition unregistered_by uc c (count keep : Z) uc' : Prop :=
  if 0 <? count then exists count' n, UpdateCache.unregisterClientID uc c (Some count) keep = Ok (uc', count', n) else uc' = uc.

(** What is left of the mapping [m]. *)
Definition deactivated m (now : Z) (crash : bool) : ProxyClientMapping :=
  let crashed := if crash then now else 0 in
  let delete := negb (preDefined m) && (crashed =? 0) in
  mkProxyClientMapping (if delete then 0 else proxyID m) None false (if delete then false else preDefined m) crashed 0.

Definition keep_window self (keepWindow : Z) : Z :=
  let d := u16 (defaultKeepWindow (sysConfig self)) in if keepWindow <? d then d else keepWindow.

Lemma deactivate_eq self uc uc' now c m crash keep :
  0 <= c -> proxyMap self !! Z.to_nat c = Some m ->
  unregistered_by uc c (updateCount m) (keep_window self keep) uc' ->
  deactivateConnectionMapping self uc now c crash keep = Ok (put_mapping self c (deactivated m now crash), uc').
Proof.
  intros Hc Hm Hu. unfold deactivateConnectionMapping, _delMapping, get_mapping, arr_get. rewrite Hm. simpl_outcome.
  pose proof (lookup_lt_Some _ _ _ Hm) as Hlt.
  cbn [proxyMap put_mapping set_map]. rewrite list_lookup_insert_eq by done. simpl_outcome.
  cbn [isActive negb updateCount proxyID socket preDefined crashed]. unfold unregistered_by, keep_window in Hu. cbn zeta in Hu.
  destruct (0 <? updateCount m).
  - destruct Hu as (count' & n & ->). simpl_outcome. cbn [proxyMap put_mapping set_map].
    rewrite list_lookup_insert_eq by (by rewrite !length_insert). simpl_outcome.
    unfold put_mapping, set_map. cbn [proxyMap noMappings clients inShutdown sysConfig].
    by rewrite !list_insert_insert_eq.
  - subst uc'. simpl_outcome. cbn [proxyMap put_mapping set_map].
    rewrite list_lookup_insert_eq by (by rewrite !length_insert). simpl_outcome.
    unfold put_mapping, set_map. cbn [proxyMap noMappings clients inShutdown sysConfig].
    by rewrite !list_insert_insert_eq.
Qed.

Lemma deactivate_wf self m now c crash : pm_wf self -> 1 <= c -> proxyMap self !! Z.to_nat c = Some m ->
  pm_wf (put_mapping self c (deactivated m now crash)).
Proof.
  intros Hw Hc Hm. pose proof (pw_byte _ Hw). pose proof (pw_count _ Hw). pose proof (used_bound (proxyMap self)).
  unfold put_mapping. eapply set_mapping_wf; [done|exact Hm|lia| |done| |].
  - cbn. destruct (_ && _); [by unfold in_u|]. apply (proj1 (Forall_lookup _ _) (pw_ids _ Hw) _ _ Hm).
  - cbn. unfold mapped. cbn. destruct (_ && _); [done|]. intros Hmm j mj Hj Hne E. apply Hne.
    eapply (pw_distinct _ Hw); [exact Hj|exact Hm|unfold mapped; congruence|done].
  - unfold mapped, deactivated. cbn [proxyID]. destruct (_ && _); repeat case_decide; lia.
Qed.

(** ** The counter of the mappings *)

(** A proxy that connects as client [c] and says goodbye, [n] times. *)
Fixpoint reconnect (n : nat) self uc pid c (s : option positive) (now keep : Z)
    : outcome (ServerConnectionHandler * UpdateCache.UpdateCache H) :=
  match n with
  | O => Ok (self, uc)
  | S n =>
      '(self, _) ← addMapping self pid c s true;
      '(self, uc) ← deactivateConnectionMapping self uc now c false keep;
      reconnect n self uc pid c s now keep
  end.

Lemma find_loop_none n index k self pid : (index + n <= length (proxyMap self))%nat ->
  (forall i m, proxyMap self !! i = Some m -> proxyID m <> pid) -> find_loop n index k self pid = Ok 0.
Proof.
  revert index k. induction n as [|n IH]; intros index k Hlen Hno; cbn [find_loop]; [done|].
  destruct (k <=? 0); [done|]. destruct (lookup_lt_is_Some_2 (proxyMap self) index) as [m Hm]; [lia|].
  unfold arr_get. rewrite Hm. simpl_outcome. replace (proxyID m =? pid) with false by (specialize (Hno _ _ Hm); lia).
  destruct (0 <? proxyID m); apply IH; (done || lia).
Qed.

(** A mapping into a free slot; the counter wraps around. *)
Lemma addMapping_free self pid c s : 0 <= c -> proxyMap self !! Z.to_nat c = Some zero_mapping ->
  findClientID self pid = Ok 0 ->
  addMapping self pid c s true
  = Ok (set_map self (<[Z.to_nat c := mkProxyClientMapping pid s true false 0 0]> (proxyMap self)) (u8 (noMappings self + 1)), true).
Proof.
  intros Hc Hm Hf. unfold addMapping. rewrite Hf. simpl_outcome. unfold get_mapping, arr_get. rewrite Hm. simpl_outcome.
  done.
Qed.

Lemma reconnect_eq n self uc pid c s now keep :
  length (proxyMap self) = MAX_PROXY_CLIENT_ELEMENTS -> 1 <= c -> proxyMap self !! Z.to_nat c = Some zero_mapping ->
  0 < pid -> (forall i m, proxyMap self !! i = Some m -> proxyID m <> pid) -> 0 <= noMappings self < 2 ^ 8 ->
  reconnect n self uc pid c s now keep = Ok (set_map self (proxyMap self) (u8 (noMappings self + Z.of_nat n)), uc).
Proof.
  revert self. induction n as [|n IH]; intros self Hl Hc Hm Hp Hno Hb; cbn [reconnect].
  - rewrite Z.add_0_r. unfold wrap. rewrite Z.mod_small by lia. by destruct self.
  - pose proof (lookup_lt_Some _ _ _ Hm) as Hlt.
    rewrite addMapping_free; [|lia|done|unfold findClientID; replace (pid =? 0) with false by lia; apply find_loop_none; [rewrite Hl; lia|done]].
    simpl_outcome. rewrite (deactivate_eq _ uc uc now c (mkProxyClientMapping pid s true false 0 0)); [|lia|by apply list_lookup_insert_eq|done].
    simpl_outcome. unfold put_mapping, set_map. cbn [proxyMap noMappings clients inShutdown sysConfig].
    change (deactivated (mkProxyClientMapping pid s true false 0 0) now false) with zero_mapping.
    rewrite list_insert_insert_eq, (list_insert_id _ _ _ Hm), IH by (try done; by apply Z.mod_pos_bound).
    unfold set_map. cbn [proxyMap noMappings clients inShutdown sysConfig]. do 3 f_equal.
    unfold wrap. rewrite Zplus_mod_idemp_l. f_equal. lia.
Qed.

(** The counter of the mappings has eight bits and counts every registration.
    A proxy that connects and says goodbye until 256 registrations were made brings
    it to 0, and then a proxy with an active mapping is no longer found: a second
    connection with the same proxy identifier is accepted as another client. *)
Theorem noMappings_wraps self uc c d pid v m s s' now keep :
  length (proxyMap self) = MAX_PROXY_CLIENT_ELEMENTS -> 0 <= noMappings self < 2 ^ 8 ->
  1 <= c -> proxyMap self !! Z.to_nat c = Some zero_mapping ->
  0 < pid -> (forall i m, proxyMap self !! i = Some m -> proxyID m <> pid) ->
  proxyMap self !! d = Some m -> isActive m = true -> proxyID m = v -> v <> 0 ->
  let n := Z.to_nat (2 ^ 8 - noMappings self) in
  exists self1 self2, reconnect n self uc pid c s now keep = Ok (self1, uc) /\ proxyMap self1 = proxyMap self
    /\ findClientID self1 v = Ok 0 /\ addMapping self1 v c s' true = Ok (self2, true)
    /\ d <> Z.to_nat c
    /\ forall i, i = d \/ i = Z.to_nat c -> exists m', proxyMap self2 !! i = Some m' /\ isActive m' = true /\ proxyID m' = v.
Proof.
  intros Hl Hb Hc Hm Hp Hno Hd Ha Hv Hv0 n. rewrite reconnect_eq by done.
  assert (u8 (noMappings self + Z.of_nat n) = 0) as ->.
  { subst n. rewrite Z2Nat.id by lia. by replace (noMappings self + (2 ^ 8 - noMappings self)) with (2 ^ 8) by lia. }
  eexists _, _. split; [done|]. split; [done|].
  assert (findClientID (set_map self (proxyMap self) 0) v = Ok 0) as Hf.
  { unfold findClientID. by replace (v =? 0) with false by lia. }
  split; [exact Hf|]. split; [apply addMapping_free; (done || lia)|].
  assert (d <> Z.to_nat c) as Hne by (intros ->; rewrite Hm in Hd; injection Hd as <-; done).
  split; [done|]. pose proof (lookup_lt_Some _ _ _ Hm). cbn [proxyMap set_map]. intros i [->| ->].
  - exists m. by rewrite list_lookup_insert_ne.
  - eexists. by rewrite list_lookup_insert_eq.
Qed.
End remove.

(** ** Configured mappings *)
Definition configured (pid : Z) : ProxyClientMapping :=
  if 0 <? pid then mkProxyClientMapping pid None false true 0 0 else zero_mapping.

Lemma configure_loop_eq rest idx self b :
  pm_wf self -> (1 <= idx)%nat -> (idx + length rest = MAX_PROXY_CLIENT_ELEMENTS)%nat -> noMappings self < Z.of_nat idx ->
  drop idx (proxyMap self) = replicate (length rest) zero_mapping ->
  Forall (in_u 32) rest -> NoDup (filter (fun x => x <> 0) rest) ->
  (forall pid i m, pid ∈ rest -> pid <> 0 -> proxyMap self !! i = Some m -> proxyID m <> pid) ->
  exists self', configure_loop idx rest self b = Ok (self', b) /\ pm_wf self'
    /\ proxyMap self' = take idx (proxyMap self) ++ (configured <$> rest).
Proof.
  revert idx self. induction rest as [|pid rest IH]; intros idx self Hw Hi Hlen Hn Hdrop Hu Hnd Hno; cbn [configure_loop].
  - exists self. split; [done|]. split; [done|]. rewrite app_nil_r, take_ge; [done|]. rewrite (pw_length _ Hw). simpl in Hlen. lia.
  - apply Forall_cons in Hu as [Hp Hu]. unfold in_u in Hp.
    assert (proxyMap self !! idx = Some zero_mapping) as Hm.
    { pose proof (lookup_drop (proxyMap self) idx 0) as E. rewrite Hdrop, Nat.add_0_r in E. by rewrite <- E. }
    assert (drop (S idx) (proxyMap self) = replicate (length rest) zero_mapping) as Hdrop'.
    { rewrite (drop_S_lookup _ _ _ Hm) in Hdrop. by injection Hdrop. }
    assert (take (S idx) (proxyMap self) = take idx (proxyMap self) ++ [zero_mapping]) as Htake by by apply take_S_r.
    simpl in Hlen. destruct (Z.ltb_spec 0 pid) as [Hpos|Hneg].
    + destruct (addMapping_eq self pid (Z.of_nat idx) zero_mapping None false) as [E Hacc]; [done|lia|lia|lia|by rewrite Nat2Z.id|].
      assert (accepted self pid zero_mapping None = true) as Ha.
      { unfold accepted. rewrite decide_False by (cbn; lia). apply bool_decide_eq_true. split; [done|].
        destruct (index_of_spec (fun m => proxyID m = pid) self (pw_length _ Hw)) as [[Hz _]|(_ & (m & Hm' & E') & _)]; [done|].
        exfalso. by apply (Hno pid _ m (list_elem_of_here _ _) ltac:(lia) Hm'). }
      rewrite Ha in E. destruct (Hacc Ha) as [Hw' _]. rewrite Nat2Z.id in E, Hw'. rewrite E. simpl_outcome.
      rewrite filter_cons_True in Hnd by lia. apply NoDup_cons in Hnd as [Hnin Hnd].
      pose proof (lookup_lt_Some _ _ _ Hm) as Hlt.
      edestruct (IH (S idx)) as (self' & E' & Hwf & Hmap); [exact Hw'|lia|lia|cbn [noMappings set_map]; case_decide; lia| |done|done| |].
      * cbn [proxyMap set_map]. rewrite drop_insert_lt by lia. done.
      * intros pid' i m Hin Hne Hi'. cbn [proxyMap set_map] in Hi'.
        apply list_lookup_insert_Some in Hi' as [(<- & <- & _)|[_ Hi']].
        -- cbn. intros <-. apply Hnin, list_elem_of_filter. by split.
        -- eapply Hno; [by apply list_elem_of_further|done|done].
      * exists self'. split; [exact E'|]. split; [done|]. rewrite Hmap. cbn [proxyMap set_map].
        assert (new_mapping pid zero_mapping None false = configured pid) as ->.
        { unfold configured. by replace (0 <? pid) with true by lia. }
        rewrite (take_S_r _ _ (configured pid)) by (by apply list_lookup_insert_eq).
        rewrite take_insert_ge by lia. by rewrite <- app_assoc.
    + assert (pid = 0) as -> by lia. rewrite filter_cons_False in Hnd by (by intros ?).
      edestruct (IH (S idx) self) as (self' & E' & Hwf & Hmap); [done|lia|lia|lia|done|done|done| |].
      * intros pid' i m Hin. apply Hno. by apply list_elem_of_further.
      * exists self'. split; [exact E'|]. split; [done|]. rewrite Hmap, Htake, <- app_assoc. done.
Qed.

Lemma zero_map_wf cfg : pm_wf (mkServerConnectionHandler false [] (replicate MAX_PROXY_CLIENT_ELEMENTS zero_mapping) 0 cfg).
Proof.
  assert (forall i m, replicate MAX_PROXY_CLIENT_ELEMENTS zero_mapping !! i = Some m -> m = zero_mapping) as Hz.
  { intros i m Hm. by apply lookup_replicate in Hm as [-> _]. }
  split; cbn [proxyMap noMappings]; try done.
  - by apply Forall_replicate.
  - by apply Forall_replicate.
  - intros i j m m' ->%Hz _ []. done.
Qed.

(** The connection handler starts with the configured mappings: when they are
    distinct and client 0 has none, all are made, inactive and predefined, and the
    map satisfies the invariant. *)
Theorem createServerConnectionHandler_correct cfg mapping_routerID :
  length mapping_routerID = MAX_PROXY_CLIENT_ELEMENTS -> mapping_routerID !! 0%nat = Some 0 ->
  Forall (in_u 32) mapping_routerID -> NoDup (filter (fun x => x <> 0) mapping_routerID) ->
  exists self, createServerConnectionHandler cfg mapping_routerID = Ok self /\ pm_wf self
    /\ proxyMap self = configured <$> mapping_routerID.
Proof.
  intros Hl H0 Hu Hnd. destruct mapping_routerID as [|x rest]; [done|]. cbn in H0. injection H0 as ->.
  unfold createServerConnectionHandler, configureProxyMap. cbn [configure_loop]. simpl in Hl.
  apply Forall_cons in Hu as [_ Hu]. rewrite filter_cons_False in Hnd by (by intros ?).
  edestruct (configure_loop_eq rest 1 _ true (zero_map_wf cfg)) as (self & E & Hw & Hmap); [lia|lia|done| |done|done| |].
  - cbn [proxyMap]. rewrite drop_replicate. f_equal. lia.
  - cbn [proxyMap]. intros pid i m _ Hne Hm. apply lookup_replicate in Hm as [-> _]. cbn. congruence.
  - exists self. change (0 <? 0) with false. cbv iota. rewrite E. simpl_outcome. split; [done|]. split; [done|]. by rewrite Hmap.
Qed.

End ProxyMapTheorems.
