(* ===== verification/PrefixCache.v ===== *)
(** * The prefix cache (server/prefix_cache.c)

    Origin validation: ROA white-list entries and updates hang off the nodes of a
    Patricia tree.  The objects PC_Prefix, one per node, are kept in the map
    [node_data] from nodes to their field [data]; updates and white-list entries
    belong to one prefix and are kept in its lists. *)
From S2P Require Import Prelude SrxDefs Patricia SList.

(** What the prefix cache needs of the rest of the server: a place to store the
    origin validation result of an update. *)
Class RoaSink (S : Type) := {
  notifyUpdateCacheForROAChange : S -> Z -> Z -> bool -> outcome S
}.

(** What the sink promises: results of the updates it knows are stored, those of
    other updates stay. *)
Class RoaSinkLaws (S : Type) `{RoaSink S} := {
  rs_wf : S -> Prop;
  roa_result : S -> Z -> option Z;
  rs_notify s id res suppressNotification :
    rs_wf s -> is_Some (roa_result s id) -> res <> SRx_RESULT_DONOTUSE ->
    exists s', notifyUpdateCacheForROAChange s id res suppressNotification = Ok s' /\ rs_wf s'
      /\ forall k, roa_result s' k = if decide (k = id) then Some res else roa_result s k
}.

Module PrefixCache.

Record PC_ROA := mkPC_ROA {
  r_as : Z;
  max_len : Z;
  roa_count : Z;
  deferred_count : Z;
  valCacheID : Z;
  r_update_count : Z
}.
Record PC_AS := mkPC_AS {
  pasn : Z;
  roas : SList PC_ROA;
  a_update_count : Z
}.

Section data.
Context {N : Type}.
Record PC_Update := mkPC_Update {
  updateID : Z;
  u_as : Z;
  u_treeNode : N;
  roa_match : Z
}.
Record PC_Prefix := mkPC_Prefix {
  roa_coverage : Z;
  state_of_other : Z;
  valid : SList PC_Update;
  other : SList PC_Update;
  asn : SList PC_AS
}.
End data.
Arguments PC_Update : clear implicits.
Arguments PC_Prefix : clear implicits.

Definition PC_DONT_SUPPRESS : bool := false.
Definition PC_DO_SUPPRESS : bool := true.

(** [updates] keeps the updates for their release and the output only; here it
    holds their identifiers. *)
Record PrefixCache (T N : Type) `{Countable N} := mkPrefixCache {
  prefixTree : T;
  node_data : gmap N (PC_Prefix N);
  updates : list Z
}.
Arguments mkPrefixCache {T N _ _} _ _ _.
Arguments prefixTree {T N _ _} _.
Arguments node_data {T N _ _} _.
Arguments updates {T N _ _} _.

(** Field updates. *)
Definition set_r_update_count (r : PC_ROA) (c : Z) : PC_ROA :=
  mkPC_ROA (r_as r) (max_len r) (roa_count r) (deferred_count r) (valCacheID r) c.
Definition set_roa_count (r : PC_ROA) (c : Z) : PC_ROA :=
  mkPC_ROA (r_as r) (max_len r) c (deferred_count r) (valCacheID r) (r_update_count r).
Definition set_roas (a : PC_AS) (l : SList PC_ROA) : PC_AS := mkPC_AS (pasn a) l (a_update_count a).
Definition set_a_update_count (a : PC_AS) (c : Z) : PC_AS := mkPC_AS (pasn a) (roas a) c.
Definition set_roa_match {N} (u : PC_Update N) (c : Z) : PC_Update N :=
  mkPC_Update (updateID u) (u_as u) (u_treeNode u) c.
Definition set_coverage {N} (d : PC_Prefix N) (c : Z) : PC_Prefix N :=
  mkPC_Prefix c (state_of_other d) (valid d) (other d) (asn d).
Definition set_state {N} (d : PC_Prefix N) (c : Z) : PC_Prefix N :=
  mkPC_Prefix (roa_coverage d) c (valid d) (other d) (asn d).
Definition set_valid {N} (d : PC_Prefix N) l : PC_Prefix N :=
  mkPC_Prefix (roa_coverage d) (state_of_other d) l (other d) (asn d).
Definition set_other {N} (d : PC_Prefix N) l : PC_Prefix N :=
  mkPC_Prefix (roa_coverage d) (state_of_other d) (valid d) l (asn d).
Definition set_asn {N} (d : PC_Prefix N) l : PC_Prefix N :=
  mkPC_Prefix (roa_coverage d) (state_of_other d) (valid d) (other d) l.

Section cache.
Context {T N S : Type} `{Countable N} `{Patricia T N} `{RoaSink S}.
Implicit Types (self : PrefixCache T N) (D : gmap N (PC_Prefix N)) (t : T) (n : N) (s : S).

Definition initializePrefixCache : PrefixCache T N := mkPrefixCache New_Patricia ∅ [].

Definition ipPrefixToPrefix_t (from : IPPrefix) : prefix_t :=
  if version (ip from) =? 4
  then mkPrefix_t AF_INET (length_bits from) (take 4 (addr_u8 (ip from)))
  else mkPrefix_t AF_INET6 (length_bits from) (take 16 (addr_u8 (ip from))).

(** The fields of a tree node. *)
Definition get_data D n : outcome (PC_Prefix N) :=
  match D !! n with Some d => Ok d | None => Fault NullDeref end.
Definition node_bitlen t n : outcome Z :=
  match node_prefix t n with Some p => Ok (bitlen p) | None => Fault NullDeref end.

(** The tree is at most 129 nodes deep. *)
Definition tree_fuel : nat := Datatypes.S (Datatypes.S PATRICIA_MAXBITS).

Fixpoint getParent_loop (fuel : nat) t D n : outcome (option N) :=
  match fuel with
  | O => Fault OutOfFuel
  | Datatypes.S fuel =>
      match node_parent t n with
      | None => Ok None
      | Some p => if decide (is_Some (D !! p)) then Ok (Some p) else getParent_loop fuel t D p
      end
  end.
Definition getParent t D n : outcome (option N) := getParent_loop tree_fuel t D n.

Fixpoint getChildren_loop (fuel : nat) t D (children : list N) n : outcome (list N) :=
  match fuel with
  | O => Fault OutOfFuel
  | Datatypes.S fuel =>
      let descend (children : list N) (child : option N) :=
        match child with
        | None => Ok children
        | Some c => if decide (is_Some (D !! c)) then Ok (children ++ [c])
                    else getChildren_loop fuel t D children c
        end in
      children ← descend children (node_l t n);
      descend children (node_r t n)
  end.
Definition getChildren t D n : outcome (list N) := getChildren_loop tree_fuel t D [] n.

(** The AS of a prefix: the first entry with the number. *)
Definition find_as (l : SList PC_AS) (as_ : Z) : option (nat * PC_AS) :=
  list_find (fun a => pasn a = as_) (nodes l).
Definition find_roa (l : SList PC_ROA) (cache maxLen : Z) : option (nat * PC_ROA) :=
  list_find (fun r => valCacheID r = cache /\ max_len r = maxLen) (nodes l).

(** [getASFromPrefix]: the position of the AS, appended if necessary. *)
Definition getASFromPrefix (pcPrefix : PC_Prefix N) (as_ : Z)
    : outcome (PC_Prefix N * nat * PC_AS) :=
  match find_as (asn pcPrefix) as_ with
  | Some (i, a) => Ok (pcPrefix, i, a)
  | None =>
      let a := mkPC_AS as_ initSList 0 in
      l ← appendDataToSList (asn pcPrefix) a;
      Ok (set_asn pcPrefix l, length (nodes (asn pcPrefix)), a)
  end.

(** ** Validation of an update *)

(** [_performUpdateValidation_PrefixIsCovereByAROA]: the white-list entries of
    one prefix against the update; [cov] is the coverage of the update's prefix,
    [mat] the matches of the update. *)
Fixpoint covering_roas (len : Z) (isNew matches : bool) (l : list PC_ROA) (cov mat : Z)
    : list PC_ROA * Z * Z :=
  match l with
  | [] => ([], cov, mat)
  | pcROA :: l =>
      if len <=? max_len pcROA then
        let cov := if isNew then u32 (cov + 1) else cov in
        let '(pcROA, mat) := if matches
                             then (set_r_update_count pcROA (u32 (r_update_count pcROA + 1)),
                                   u16 (mat + roa_count pcROA))
                             else (pcROA, mat) in
        let '(l, cov, mat) := covering_roas len isNew matches l cov mat in
        (pcROA :: l, cov, mat)
      else
        let '(l, cov, mat) := covering_roas len isNew matches l cov mat in (pcROA :: l, cov, mat)
  end.
Fixpoint covering_ases (len : Z) (isNew : bool) (as_ : Z) (l : list PC_AS) (cov mat : Z)
    : list PC_AS * Z * Z :=
  match l with
  | [] => ([], cov, mat)
  | pcAS :: l =>
      let '(rs, cov, mat) := covering_roas len isNew (pasn pcAS =? as_) (nodes (roas pcAS)) cov mat in
      let '(l, cov, mat) := covering_ases len isNew as_ l cov mat in
      (set_roas pcAS (mkSList rs (size (roas pcAS))) :: l, cov, mat)
  end.
Definition PrefixIsCovereByAROA t (po p : N) D (pcUpdate : PC_Update N) (as_ : Z) (isNew : bool)
    : outcome (gmap N (PC_Prefix N) * PC_Update N) :=
  len ← node_bitlen t po;
  dPo ← get_data D po;
  d ← get_data D p;
  let '(ases, cov, mat) := covering_ases len isNew as_ (nodes (asn d)) (roa_coverage dPo)
                             (roa_match pcUpdate) in
  let D := <[p := set_asn d (mkSList ases (size (asn d)))]> D in
  dPo ← get_data D po;
  Ok (<[po := set_coverage dPo cov]> D, set_roa_match pcUpdate mat).

(** [_performUpdateValidation_PrefixNotCovered] *)
Definition PrefixNotCovered (pcPrefix : PC_Prefix N) (pcUpdate : PC_Update N) s
    : outcome (PC_Prefix N * S) :=
  if roa_match pcUpdate =? 0 then
    l ← appendDataToSList (other pcPrefix) pcUpdate;
    s ← notifyUpdateCacheForROAChange s (updateID pcUpdate) (state_of_other pcPrefix) PC_DONT_SUPPRESS;
    Ok (set_other pcPrefix l, s)
  else
    l ← appendDataToSList (valid pcPrefix) pcUpdate;
    s ← notifyUpdateCacheForROAChange s (updateID pcUpdate) SRx_RESULT_VALID PC_DONT_SUPPRESS;
    Ok (set_valid pcPrefix l, s).

(** The walk up the tree of [_performUpdateValidationKnownPrefix]. *)
Fixpoint cover_loop (fuel : nat) t (po p : N) D (pcUpdate : PC_Update N) (as_ : Z) (isNew : bool)
    : outcome (gmap N (PC_Prefix N) * PC_Update N) :=
  match fuel with
  | O => Fault OutOfFuel
  | Datatypes.S fuel =>
      d ← get_data D p;
      if (isNew && (state_of_other d =? SRx_RESULT_INVALID)) || (negb isNew && (0 <? roa_coverage d))
      then
        '(D, pcUpdate) ← PrefixIsCovereByAROA t po p D pcUpdate as_ isNew;
        parent ← getParent t D p;
        match parent with
        | None => Ok (D, pcUpdate)
        | Some p => cover_loop fuel t po p D pcUpdate as_ isNew
        end
      else Ok (D, pcUpdate)
  end.

Definition _performUpdateValidationKnownPrefix t D s (pcUpdate : PC_Update N) (as_ : Z) (isNew : bool)
    : outcome (gmap N (PC_Prefix N) * S) :=
  let po := u_treeNode pcUpdate in
  d ← get_data D po;
  '(d, i, pcAS) ← getASFromPrefix d as_;
  let pcAS := set_a_update_count pcAS (u32 (a_update_count pcAS + 1)) in
  let D := <[po := set_asn d (setAtSList (asn d) i pcAS)]> D in
  '(D, pcUpdate) ← cover_loop tree_fuel t po po D pcUpdate as_ isNew;
  d ← get_data D po;
  '(d, s) ← PrefixNotCovered d pcUpdate s;
  Ok (<[po := d]> D, s).

(** A fresh PC_Prefix; its state comes from the parent. *)
Definition new_PC_Prefix (state : Z) : PC_Prefix N := mkPC_Prefix 0 state initSList initSList initSList.
Definition state_of D (parent : option N) : outcome Z :=
  match parent with
  | None => Ok SRx_RESULT_NOTFOUND
  | Some p => d ← get_data D p; Ok (state_of_other d)
  end.

Definition _performUpdateValidationNewPrefix t D s (pcUpdate : PC_Update N) (as_ : Z)
    : outcome (gmap N (PC_Prefix N) * S * bool) :=
  let n := u_treeNode pcUpdate in
  if decide (is_Some (D !! n)) then Ok (D, s, false)
  else
    parent ← getParent t D n;
    state ← state_of D parent;
    '(D, s) ← _performUpdateValidationKnownPrefix t (<[n := new_PC_Prefix state]> D) s pcUpdate as_ true;
    Ok (D, s, true).

Definition requestUpdateValidation self s (id : Z) (prefix : IPPrefix) (as_ : Z)
    : outcome (PrefixCache T N * S * bool) :=
  let updates := updates self ++ [id] in
  let '(t, n, ref) := patricia_lookup (ipPrefixToPrefix_t prefix) (prefixTree self) in
  let pcUpdate := mkPC_Update id as_ n 0 in
  if ref : bool then
    '(D, s, retVal) ← _performUpdateValidationNewPrefix t (node_data self) s pcUpdate as_;
    Ok (mkPrefixCache t D updates, s, retVal)
  else
    d ← get_data (node_data self) n;
    if 0 <? roa_coverage d then
      '(D, s) ← _performUpdateValidationKnownPrefix t (node_data self) s pcUpdate as_ false;
      Ok (mkPrefixCache t D updates, s, true)
    else
      l ← appendDataToSList (other d) pcUpdate;
      '(d, i, pcAS) ← getASFromPrefix (set_other d l) as_;
      let pcAS := set_a_update_count pcAS (u32 (a_update_count pcAS + 1)) in
      let d := set_asn d (setAtSList (asn d) i pcAS) in
      s ← notifyUpdateCacheForROAChange s id (state_of_other d) PC_DONT_SUPPRESS;
      Ok (mkPrefixCache t (<[n := d]> (node_data self)) updates, s, true).

Definition removeUpdate self (id : Z) (prefix : IPPrefix) (as_ : Z) : bool := true.

Definition belongsToRfc5398 (asn : Z) : bool :=
  ((64496 <=? asn) && (asn <=? 64511)) || ((65536 <=? asn) && (asn <=? 65551)).

(** ** Walking down the tree

    [_addROAwl_verifyUpdates] and [_delROAwl_validateUpdates] treat a prefix and
    then, where their [checkChildren] says so, every child in the order of
    [getChildren].  [step] is the part for the prefix: it returns the prefix, the
    state that is passed on, and the argument for the children, if any. *)
Section walk.
Context {X A : Type} (step : X -> N -> PC_Prefix N -> A -> outcome (PC_Prefix N * A * option X)).

Fixpoint walk (fuel : nat) t (x : X) n (st : gmap N (PC_Prefix N) * A)
    : outcome (gmap N (PC_Prefix N) * A) :=
  match fuel with
  | O => Fault OutOfFuel
  | Datatypes.S fuel =>
      let '(D, acc) := st in
      d ← get_data D n;
      '(d, acc, checkChildren) ← step x n d acc;
      let D := <[n := d]> D in
      match checkChildren with
      | None => Ok (D, acc)
      | Some x =>
          childrenList ← getChildren t D n;
          foldl (fun st c => st ← st; walk fuel t x c st) (Ok (D, acc)) childrenList
      end
  end.
End walk.

(** The notification of the updates in [other]. *)
Definition notify_all s (l : list (PC_Update N)) (newState : Z) (suppressNotification : bool) : outcome S :=
  foldl (fun r u => s ← r; notifyUpdateCacheForROAChange s (updateID u) newState suppressNotification)
    (Ok s) l.

Definition _ROAwl_changeStateOfOther (pcPrefix : PC_Prefix N) (newState : Z)
    (suppressNotification : bool) s : outcome (PC_Prefix N * S) :=
  let pcPrefix := set_state pcPrefix newState in
  s ← notify_all s (nodes (other pcPrefix)) newState suppressNotification;
  Ok (pcPrefix, s).

(** ** Adding a white-list entry *)

(** [_addROAwl_moveMatchedUpdatesToValid]: [curr] is the rest of the list of
    other updates, [kept] its nodes up to [prevNode]. *)
Fixpoint moveMatched_loop (curr kept : list (PC_Update N)) (otherSize : Z) (validList : SList (PC_Update N))
    (pcROA : PC_ROA) (suppressNotification : bool) s
    : outcome (SList (PC_Update N) * SList (PC_Update N) * PC_ROA * S) :=
  match curr with
  | [] => Ok (validList, mkSList kept otherSize, pcROA, s)
  | pcUpdate :: curr =>
      if u_as pcUpdate =? r_as pcROA then
        let pcUpdate := set_roa_match pcUpdate (u16 (roa_match pcUpdate + 1)) in
        let pcROA := set_r_update_count pcROA (u32 (r_update_count pcROA + 1)) in
        s ← notifyUpdateCacheForROAChange s (updateID pcUpdate) SRx_RESULT_VALID suppressNotification;
        moveMatched_loop curr kept (otherSize - 1)
          (mkSList (nodes validList ++ [pcUpdate]) (size validList + 1)) pcROA suppressNotification s
      else moveMatched_loop curr (kept ++ [pcUpdate]) otherSize validList pcROA suppressNotification s
  end.
Definition _addROAwl_moveMatchedUpdatesToValid (pcPrefix : PC_Prefix N) (pcROA : PC_ROA)
    (suppressNotification : bool) s : outcome (PC_Prefix N * PC_ROA * S) :=
  '(v, o, pcROA, s) ← moveMatched_loop (nodes (other pcPrefix)) [] (size (other pcPrefix))
                        (valid pcPrefix) pcROA suppressNotification s;
  Ok (set_other (set_valid pcPrefix v) o, pcROA, s).

(** The matched updates of [valid] get one more match. *)
Fixpoint bump_matched (l : list (PC_Update N)) (pcROA : PC_ROA) : list (PC_Update N) * PC_ROA :=
  match l with
  | [] => ([], pcROA)
  | u :: l =>
      let '(u, pcROA) := if u_as u =? r_as pcROA
                         then (set_roa_match u (u16 (roa_match u + 1)),
                               set_r_update_count pcROA (u32 (r_update_count pcROA + 1)))
                         else (u, pcROA) in
      let '(l, pcROA) := bump_matched l pcROA in (u :: l, pcROA)
  end.

(** The part of [_addROAwl_verifyUpdates] for one prefix. *)
Definition verifyUpdates_step t (suppressNotification : bool) (_ : unit) n (pcPrefix : PC_Prefix N)
    (acc : PC_ROA * S) : outcome (PC_Prefix N * (PC_ROA * S) * option unit) :=
  let '(pcROA, s) := acc in
  len ← node_bitlen t n;
  if len <=? max_len pcROA then
    let pcPrefix := set_coverage pcPrefix (u32 (roa_coverage pcPrefix + 1)) in
    let '(v, pcROA) := bump_matched (nodes (valid pcPrefix)) pcROA in
    let pcPrefix := set_valid pcPrefix (mkSList v (size (valid pcPrefix))) in
    '(pcPrefix, pcROA, s) ← _addROAwl_moveMatchedUpdatesToValid pcPrefix pcROA suppressNotification s;
    '(pcPrefix, s) ←
      (if state_of_other pcPrefix =? SRx_RESULT_NOTFOUND
       then _ROAwl_changeStateOfOther pcPrefix SRx_RESULT_INVALID suppressNotification s
       else Ok (pcPrefix, s));
    Ok (pcPrefix, (pcROA, s), Some tt)
  else if state_of_other pcPrefix =? SRx_RESULT_NOTFOUND then
    '(pcPrefix, s) ← _ROAwl_changeStateOfOther pcPrefix SRx_RESULT_INVALID suppressNotification s;
    Ok (pcPrefix, (pcROA, s), Some tt)
  else Ok (pcPrefix, (pcROA, s), None).

Definition _addROAwl_verifyUpdates t (suppressNotification : bool) n D (pcROA : PC_ROA) s
    : outcome (gmap N (PC_Prefix N) * (PC_ROA * S)) :=
  walk (verifyUpdates_step t suppressNotification) tree_fuel t tt n (D, (pcROA, s)).

(** [_addROAwl_CheckCoverage]: the coverage the parents give to a new prefix. *)
Definition roas_coverage (prefixLen : Z) (l : list PC_ROA) (cov : Z) : Z :=
  foldl (fun cov r => if prefixLen <=? max_len r then u32 (cov + roa_count r) else cov) cov l.
Definition ases_coverage (prefixLen : Z) (l : list PC_AS) (cov : Z) : Z :=
  foldl (fun cov a => roas_coverage prefixLen (nodes (roas a)) cov) cov l.
Fixpoint CheckCoverage_loop (fuel : nat) t D (prefixLen cov : Z) (parentPrefix : option N) : outcome Z :=
  match fuel with
  | O => Fault OutOfFuel
  | Datatypes.S fuel =>
      match parentPrefix with
      | None => Ok cov
      | Some p =>
          d ← get_data D p;
          if 0 <? roa_coverage d then
            parentPrefix ← getParent t D p;
            CheckCoverage_loop fuel t D prefixLen (ases_coverage prefixLen (nodes (asn d)) cov) parentPrefix
          else Ok cov
      end
  end.
Definition _addROAwl_CheckCoverage t D (prefixLen : Z) (pcPrefix : PC_Prefix N) (parentPrefix : option N)
    : outcome (PC_Prefix N) :=
  cov ← CheckCoverage_loop tree_fuel t D prefixLen (roa_coverage pcPrefix) parentPrefix;
  Ok (set_coverage pcPrefix cov).

(** The PC_Prefix of the entry, created for a prefix without one. *)
Definition addROAwl_prefix t D n (prefixLen : Z) : outcome (PC_Prefix N) :=
  match D !! n with
  | Some d => Ok d
  | None =>
      parent ← getParent t D n;
      state ← state_of D parent;
      let d := new_PC_Prefix state in
      if bool_decide (is_Some parent) && negb (state =? SRx_RESULT_NOTFOUND)
      then _addROAwl_CheckCoverage t D prefixLen d parent else Ok d
  end.

(** The AS of the entry, appended if necessary, and the entry in it. *)
Definition addROAwl_as (d : PC_Prefix N) (originAS : Z) : outcome (PC_Prefix N * nat * PC_AS) :=
  match find_as (asn d) originAS with
  | Some (i, a) => Ok (d, i, a)
  | None =>
      let a := mkPC_AS originAS initSList 0 in
      l ← appendDataToSList (asn d) a;
      Ok (set_asn d l, length (nodes (asn d)), a)
  end.
Definition addROAwl_roa (a : PC_AS) (originAS maxLen valCacheID : Z) : outcome (PC_AS * nat * PC_ROA) :=
  match find_roa (roas a) valCacheID maxLen with
  | Some (j, r) => let r := set_roa_count r (u16 (roa_count r + 1)) in
                   Ok (set_roas a (setAtSList (roas a) j r), j, r)
  | None =>
      let r := mkPC_ROA originAS maxLen 1 0 valCacheID 0 in
      l ← appendDataToSList (roas a) r;
      Ok (set_roas a l, length (nodes (roas a)), r)
  end.
(** [pcROA] is changed in place: it is written back to its list. *)
Definition put_roa D n (i j : nat) (r : PC_ROA) : outcome (gmap N (PC_Prefix N)) :=
  d ← get_data D n;
  match nodes (asn d) !! i with
  | None => Fault UseAfterDestroy
  | Some a => Ok (<[n := set_asn d (setAtSList (asn d) i (set_roas a (setAtSList (roas a) j r)))]> D)
  end.

Definition addROAwl self s (originAS : Z) (prefix : IPPrefix) (maxLen session_id valCacheID : Z)
    (suppressNotification : bool) : outcome (PrefixCache T N * S * bool) :=
  if belongsToRfc5398 originAS then Ok (self, s, false)
  else
    let '(t, n, _) := patricia_lookup (ipPrefixToPrefix_t prefix) (prefixTree self) in
    let D := node_data self in
    d ← addROAwl_prefix t D n (length_bits prefix);
    '(d, i, a) ← addROAwl_as d originAS;
    '(a, j, r) ← addROAwl_roa a originAS maxLen valCacheID;
    let D := <[n := set_asn d (setAtSList (asn d) i a)]> D in
    '(D, (r, s)) ← _addROAwl_verifyUpdates t suppressNotification n D r s;
    D ← put_roa D n i j r;
    Ok (mkPrefixCache t D (updates self), s, true).

(** ** Deleting a white-list entry *)

(** [_delROAwl_moveToOther]: [curr] is the rest of the list of valid updates,
    [front] its nodes up to [prevNode] and [skipped] those between [prevNode] and
    [curr]: they match but stay valid.  Moving a node links [prevNode] to its
    successor, so the skipped nodes leave the list. *)
Fixpoint moveToOther_loop (curr front skipped : list (PC_Update N)) (validSize : Z)
    (otherList : SList (PC_Update N)) (state : Z) (pcROA : PC_ROA) (suppressNotification : bool) s
    : outcome (SList (PC_Update N) * SList (PC_Update N) * PC_ROA * S) :=
  match curr with
  | [] => Ok (mkSList (front ++ skipped) validSize, otherList, pcROA, s)
  | pcUpdate :: rest =>
      if 0 <? r_update_count pcROA then
        if u_as pcUpdate =? r_as pcROA then
          let pcUpdate := set_roa_match pcUpdate (u16 (roa_match pcUpdate - 1)) in
          let pcROA := if roa_count pcROA =? 1
                       then set_r_update_count pcROA (u32 (r_update_count pcROA - 1)) else pcROA in
          if roa_match pcUpdate =? 0 then
            s ← notifyUpdateCacheForROAChange s (updateID pcUpdate) state suppressNotification;
            moveToOther_loop rest front [] (validSize - 1)
              (mkSList (nodes otherList ++ [pcUpdate]) (size otherList + 1)) state pcROA
              suppressNotification s
          else moveToOther_loop rest front (skipped ++ [pcUpdate]) validSize otherList state pcROA
                 suppressNotification s
        else moveToOther_loop rest (front ++ skipped ++ [pcUpdate]) [] validSize otherList state pcROA
               suppressNotification s
      else Ok (mkSList (front ++ skipped ++ curr) validSize, otherList, pcROA, s)
  end.
Definition _delROAwl_moveToOther (pcPrefix : PC_Prefix N) (pcROA : PC_ROA)
    (suppressNotification : bool) s : outcome (PC_Prefix N * PC_ROA * S) :=
  '(v, o, pcROA, s) ← moveToOther_loop (nodes (valid pcPrefix)) [] [] (size (valid pcPrefix))
                        (other pcPrefix) (state_of_other pcPrefix) pcROA suppressNotification s;
  Ok (set_other (set_valid pcPrefix v) o, pcROA, s).

(** The part of [_delROAwl_validateUpdates] for one prefix; the children get the
    state of their parent.  [roa_coverage < 0] is never true. *)
Definition validateUpdates_step t (suppressNotification : bool) (parentStateOfOther : Z) n
    (pcPrefix : PC_Prefix N) (acc : PC_ROA * S) : outcome (PC_Prefix N * (PC_ROA * S) * option Z) :=
  let '(pcROA, s) := acc in
  len ← node_bitlen t n;
  if len <=? max_len pcROA then
    let pcPrefix := set_coverage pcPrefix (u32 (roa_coverage pcPrefix - 1)) in
    '(pcPrefix, s) ←
      (if (parentStateOfOther =? SRx_RESULT_NOTFOUND) && (roa_coverage pcPrefix =? 0)
       then _ROAwl_changeStateOfOther pcPrefix SRx_RESULT_NOTFOUND suppressNotification s
       else Ok (pcPrefix, s));
    '(pcPrefix, pcROA, s) ← _delROAwl_moveToOther pcPrefix pcROA suppressNotification s;
    Ok (pcPrefix, (pcROA, s), Some (state_of_other pcPrefix))
  else if (roa_coverage pcPrefix =? 0) && (parentStateOfOther =? SRx_RESULT_NOTFOUND) then
    '(pcPrefix, s) ← _ROAwl_changeStateOfOther pcPrefix SRx_RESULT_NOTFOUND suppressNotification s;
    Ok (pcPrefix, (pcROA, s), Some (state_of_other pcPrefix))
  else Ok (pcPrefix, (pcROA, s), None).

Definition _delROAwl_validateUpdates t (suppressNotification : bool) (parentStateOfOther : Z) n D
    (pcROA : PC_ROA) s : outcome (gmap N (PC_Prefix N) * (PC_ROA * S)) :=
  walk (validateUpdates_step t suppressNotification) tree_fuel t parentStateOfOther n (D, (pcROA, s)).

(** The end of [delROAwl]: an entry nobody announces any more is removed, then
    its AS and the prefix if they are empty. *)
Definition drop_roa D n (i j : nat) (r : PC_ROA) : outcome (gmap N (PC_Prefix N)) :=
  d ← get_data D n;
  match nodes (asn d) !! i with
  | None => Fault UseAfterDestroy
  | Some a =>
      let r := set_roa_count r (u16 (roa_count r - 1)) in
      if roa_count r =? 0 then
        let a := set_roas a (deleteAtSList (roas a) j) in
        if (size (roas a) =? 0) && (a_update_count a =? 0) then
          let d := set_asn d (deleteAtSList (asn d) i) in
          if size (asn d) =? 0 then Ok (delete n D) else Ok (<[n := d]> D)
        else Ok (<[n := set_asn d (setAtSList (asn d) i a)]> D)
      else put_roa D n i j r
  end.

Definition delROAwl self s (originAS : Z) (prefix : IPPrefix) (maxLen session_id valCacheID : Z)
    (suppressNotification : bool) : outcome (PrefixCache T N * S * bool) :=
  let '(t, n, _) := patricia_lookup (ipPrefixToPrefix_t prefix) (prefixTree self) in
  let D := node_data self in
  let self := mkPrefixCache t D (updates self) in
  match D !! n with
  | None => Ok (self, s, false)
  | Some d =>
      match find_as (asn d) originAS with
      | None => Ok (self, s, false)
      | Some (i, a) =>
          match find_roa (roas a) valCacheID maxLen with
          | None => Ok (self, s, false)
          | Some (j, r) =>
              parent ← getParent t D n;
              state ← state_of D parent;
              '(D, (r, s)) ← _delROAwl_validateUpdates t suppressNotification state n D r s;
              D ← drop_roa D n i j r;
              Ok (mkPrefixCache t D (updates self), s, true)
          end
      end
  end.

Definition cleanAllROAwl self (session_id valCacheID : Z) (deferredOnly : bool) : Z := 1.
Definition flagAllROAwl self (sessionID valCacheID : Z) : Z := 1.

(** [handlePrefix] of the RPKI handler: what the validation cache announces or
    withdraws, without notifications. *)
Definition handlePrefix self s (valCacheID session_id : Z) (isAnn : bool) (prefix : IPPrefix)
    (maxLen oas : Z) : outcome (PrefixCache T N * S) :=
  if isAnn then
    '(self, s, _) ← addROAwl self s oas prefix (u8 maxLen) session_id valCacheID PC_DO_SUPPRESS;
    Ok (self, s)
  else
    '(self, s, _) ← delROAwl self s oas prefix (u8 maxLen) session_id valCacheID PC_DO_SUPPRESS;
    Ok (self, s).
End cache.
End PrefixCache.
