(* ===== verification/PrefixTree.v ===== *)
(** * The prefixes of the cache as a forest (server/prefix_cache.c)

    The nodes that carry a PC_Prefix, ordered by their bits: what [getParent] and
    [getChildren] return, the subtrees, and the rule for a walk over a subtree. *)
From S2P Require Import Prelude SrxDefs Patricia SList PrefixCache.

Module PrefixTree.
Import PrefixCache.

Section tree.
Context {T N : Type} `{Countable N} `{PatriciaLaws T N}.
Implicit Types (t : T) (n m p c : N) (D : gmap N (PC_Prefix N)).

Definition key t n : list bool :=
  match node_prefix t n with Some p => prefix_bits p | None => [] end.
Definition data_ok t D : Prop := forall n, is_Some (D !! n) -> is_Some (node_prefix t n).

Lemma ancestor_step t n m :
  ancestor t n m <-> exists p, node_parent t n = Some p /\ (p = m \/ ancestor t p m).
Proof.
  split.
  - unfold ancestor. intros []; eauto.
  - intros (p & Hp & [->|Ha]); [by apply tc_once|by eapply tc_l].
Qed.

Lemma ancestor_trans t n m p : ancestor t n m -> ancestor t m p -> ancestor t n p.
Proof. apply tc_transitive. Qed.

Lemma ancestor_rank t n m : pt_wf t -> ancestor t n m -> (pt_rank t m < pt_rank t n)%nat.
Proof.
  intros Hw. unfold ancestor. induction 1 as [n m E|n k m E _ IH];
    pose proof (pt_rank_parent t n _ Hw E); lia.
Qed.

Lemma ancestor_last t n m :
  ancestor t n m -> exists k, node_parent t k = Some m /\ (n = k \/ ancestor t n k).
Proof.
  unfold ancestor at 1. induction 1 as [n m E|n p m E _ (k & Pk & Hk)]; [by exists n; auto|].
  exists k. split; [done|]. right. apply ancestor_step. exists p. naive_solver.
Qed.

(** The ancestors of a node form a chain. *)
Lemma ancestor_chain t x a b : ancestor t x a -> ancestor t x b -> a = b \/ ancestor t a b \/ ancestor t b a.
Proof.
  unfold ancestor at 1. intros Ha. revert b. induction Ha as [x a E|x k a E Ha IH];
    intros b (p & Ep & Hb)%(ancestor_step t); rewrite E in Ep; simplify_eq.
  - destruct Hb as [->|Hb]; tauto.
  - destruct Hb as [->|Hb]; [|by apply IH]. right. right. exact Ha.
Qed.

Lemma key_ancestor t n m : pt_wf t -> is_Some (node_prefix t n) -> is_Some (node_prefix t m) ->
  ancestor t n m <-> strict_prefix (key t m) (key t n).
Proof. intros Hw [p Hp] [q Hq]. unfold key. rewrite Hp, Hq. by apply pt_ancestor. Qed.

Lemma key_inj t n m : pt_wf t -> is_Some (node_prefix t n) -> is_Some (node_prefix t m) ->
  key t n = key t m -> n = m.
Proof. intros Hw [p Hp] [q Hq]. unfold key. rewrite Hp, Hq. by eapply pt_unique. Qed.

(** ** The parent *)
Lemma getParent_loop_spec t D fuel n : pt_wf t -> (pt_rank t n < fuel)%nat ->
  exists r, getParent_loop fuel t D n = Ok r /\
    match r with
    | Some p => is_Some (D !! p) /\ ancestor t n p
                /\ forall m, ancestor t n m -> is_Some (D !! m) -> m = p \/ ancestor t p m
    | None => forall m, ancestor t n m -> D !! m = None
    end.
Proof.
  intros Hw. revert n. induction fuel as [|fuel IH]; intros n Hf; [lia|]. cbn [getParent_loop].
  destruct (node_parent t n) as [p|] eqn:E.
  2: { exists None. split; [done|]. intros m (p & E' & _)%ancestor_step. congruence. }
  destruct (decide (is_Some (D !! p))) as [Hp|Hp].
  - exists (Some p). split; [done|]. split; [done|]. split; [by apply tc_once|].
    intros m (p' & E' & Hm)%ancestor_step _. rewrite E in E'. simplify_eq. naive_solver.
  - pose proof (pt_rank_parent t n p Hw E). destruct (IH p) as (r & -> & Hr); [lia|].
    exists r. split; [done|]. destruct r as [q|].
    + destruct Hr as (Hq & Ha & Hmax). split; [done|]. split; [apply ancestor_step; eauto|].
      intros m (p' & E' & Hm)%ancestor_step HDm. rewrite E in E'. simplify_eq.
      destruct Hm as [->|Hm]; [done|by apply Hmax].
    + intros m (p' & E' & Hm)%ancestor_step. rewrite E in E'. simplify_eq.
      destruct Hm as [->|Hm]; [by apply eq_None_not_Some|by apply Hr].
Qed.

(** [p] is the closest prefix above [n]. *)
Definition parent_of t D n (r : option N) : Prop :=
  match r with
  | Some p => is_Some (D !! p) /\ strict_prefix (key t p) (key t n)
              /\ forall m, is_Some (D !! m) -> strict_prefix (key t m) (key t n) ->
                   key t m `prefix_of` key t p
  | None => forall m, is_Some (D !! m) -> ~ strict_prefix (key t m) (key t n)
  end.

Lemma getParent_spec t D n : pt_wf t -> data_ok t D -> is_Some (node_prefix t n) ->
  exists r, getParent t D n = Ok r /\ parent_of t D n r.
Proof.
  intros Hw HD Hn. destruct (getParent_loop_spec t D tree_fuel n Hw) as (r & E & Hr).
  { unfold tree_fuel. pose proof (pt_rank_max t n Hw). lia. }
  exists r. split; [exact E|]. destruct r as [p|].
  - destruct Hr as (Hp & Ha & Hmax). split; [done|]. split; [apply key_ancestor; auto|].
    intros m Hm Hs. assert (ancestor t n m) as Hnm by (apply key_ancestor; auto).
    destruct (Hmax m Hnm Hm) as [->|Hm2]; [done|]. apply key_ancestor in Hm2 as [? _]; auto.
  - intros m Hm Hs. destruct Hm as [d Hd]. rewrite (Hr m) in Hd; [done|].
    apply key_ancestor; eauto.
Qed.

Lemma parent_of_unique t D n d r r' : pt_wf t -> data_ok t D -> D !! n = Some d ->
  parent_of t D n r -> parent_of t D n r' -> r = r'.
Proof.
  intros Hw HD Hn Hr Hr'. destruct r as [p|], r' as [p'|]; [|exfalso..|done].
  - f_equal. destruct Hr as (Hp & Hs & Hmax), Hr' as (Hp' & Hs' & Hmax').
    pose proof (Hmax p' Hp' Hs') as [l1 E1]. pose proof (Hmax' p Hp Hs) as [l2 E2].
    eapply key_inj; [exact Hw|by apply HD|by apply HD|]. rewrite E2, <- (assoc_L (++)) in E1.
    rewrite <- (app_nil_r (key t p)) in E1 at 1. apply app_inv_head in E1. symmetry in E1.
    apply app_nil in E1 as [-> _]. by rewrite E2, app_nil_r.
  - destruct Hr as (Hp & Hs & _). by apply (Hr' p).
  - destruct Hr' as (Hp & Hs & _). by apply (Hr p').
Qed.

(** ** The children *)
Definition child_of t D n c : Prop :=
  is_Some (D !! c) /\ ancestor t c n /\ forall m, ancestor t c m -> ancestor t m n -> D !! m = None.

Lemma getChildren_loop_spec t D fuel n cs0 : pt_wf t ->
  (tree_fuel <= fuel + pt_rank t n)%nat ->
  exists cs, getChildren_loop fuel t D cs0 n = Ok (cs0 ++ cs) /\ NoDup cs
    /\ forall c, c ∈ cs <-> child_of t D n c.
Proof.
  intros Hw. revert n cs0. induction fuel as [|fuel IH]; intros n cs0 Hf.
  { pose proof (pt_rank_max t n Hw). unfold tree_fuel in Hf. lia. }
  set (descend := fun (children : list N) (child : option N) =>
    match child with
    | None => Ok children
    | Some c => if decide (is_Some (D !! c)) then Ok (children ++ [c])
                else getChildren_loop fuel t D children c
    end).
  assert (forall cs1 o, (forall k, o = Some k -> node_parent t k = Some n) ->
    exists cs, descend cs1 o = Ok (cs1 ++ cs) /\ NoDup cs
      /\ forall c, c ∈ cs <-> exists k, o = Some k /\ is_Some (D !! c)
             /\ ((c = k) \/ (D !! k = None /\ child_of t D k c))) as Hstep.
  { intros cs1 [k|] Hk; simpl.
    2: { exists []. rewrite app_nil_r. split; [done|]. split; [constructor|]. set_solver. }
    specialize (Hk k eq_refl). pose proof (pt_rank_parent t k n Hw Hk).
    destruct (decide (is_Some (D !! k))) as [HDk|HDk].
    - exists [k]. split; [done|]. split; [apply NoDup_singleton|]. intros c.
      rewrite list_elem_of_singleton. split; [intros ->; naive_solver|].
      intros (k' & [= <-] & Hc & [?|[Hn _]]); [done|]. rewrite Hn in HDk. by destruct HDk.
    - destruct (IH k cs1) as (cs & -> & Hnd & Hcs); [lia|]. exists cs. split; [done|]. split; [done|].
      apply eq_None_not_Some in HDk. intros c. rewrite Hcs. split.
      + intros Hc. exists k. split; [done|]. split; [apply Hc|]. by right.
      + intros (k' & [= <-] & Hc & [->|[_ ?]]); [|done]. rewrite HDk in Hc. by destruct Hc. }
  destruct (Hstep cs0 (node_l t n)) as (cl & El & Nl & Hl).
  { intros k Hk. apply pt_children; tauto. }
  destruct (Hstep (cs0 ++ cl) (node_r t n)) as (cr & Er & Nr & Hr).
  { intros k Hk. apply pt_children; tauto. }
  exists (cl ++ cr). split.
  { change (getChildren_loop (Datatypes.S fuel) t D cs0 n)
      with (children ← descend cs0 (node_l t n); descend children (node_r t n)). rewrite El. simpl_outcome. by rewrite Er, (assoc_L (++)). }
  split.
  - apply NoDup_app. split; [done|]. split; [|done]. intros c Hcl Hcr.
    apply Hl in Hcl as (k & Ek & _ & Hk). apply Hr in Hcr as (k' & Ek' & _ & Hk').
    assert (k <> k') as Hne by (intros ->; by eapply pt_children_ne).
    assert (forall a b, node_parent t a = Some n -> node_parent t b = Some n -> ~ ancestor t a b) as Hno.
    { intros a b Ha Hb (p & Ep & Hp)%ancestor_step. rewrite Ha in Ep. simplify_eq.
      pose proof (pt_rank_parent t b p Hw Hb). destruct Hp as [->|Hp%ancestor_rank]; [lia|lia|done]. }
    assert (node_parent t k = Some n) as Pk by (apply pt_children; tauto).
    assert (node_parent t k' = Some n) as Pk' by (apply pt_children; tauto).
    destruct Hk as [->|[_ (_ & Hk & _)]], Hk' as [->|[_ (_ & Hk' & _)]]; try done.
    + by apply (Hno k k').
    + by apply (Hno k' k).
    + destruct (ancestor_chain t c k k' Hk Hk') as [?|[?|?]]; [done|by apply (Hno k k')|by apply (Hno k' k)].
  - intros c. rewrite elem_of_app, Hl, Hr. split.
    + intros Hc. assert (exists k, node_parent t k = Some n /\ is_Some (D !! c)
        /\ (c = k \/ (D !! k = None /\ child_of t D k c))) as (k & Pk & Hc' & Hk).
      { destruct Hc as [(k & Ek & ?)|(k & Ek & ?)]; exists k;
          (split; [apply pt_children; tauto|done]). }
      split; [done|]. destruct Hk as [->|(HDk & _ & Hck & Hno)].
      * split; [by apply tc_once|]. intros m (p & Ep & Hp)%ancestor_step Hmn. rewrite Pk in Ep.
        simplify_eq. exfalso. pose proof (ancestor_rank t m p Hw Hmn).
        destruct Hp as [->|Hp%ancestor_rank]; [lia|lia|done].
      * split; [eapply ancestor_trans; [exact Hck|by apply tc_once]|].
        intros m Hcm Hmn. destruct (ancestor_chain t c m k Hcm Hck) as [->|[Hmk|Hkm]]; [done|by apply Hno|].
        exfalso. apply ancestor_step in Hkm as (p & Ep & Hp). rewrite Pk in Ep. simplify_eq.
        pose proof (ancestor_rank t m p Hw Hmn). destruct Hp as [->|Hp%ancestor_rank]; [lia|lia|done].
    + intros (Hc & Hcn & Hno).
      assert (exists k, node_parent t k = Some n /\ (c = k \/ ancestor t c k)) as (k & Pk & Hk) by by apply ancestor_last.
      assert (is_Some (D !! c) /\ (c = k \/ (D !! k = None /\ child_of t D k c))) as Hgoal.
      { split; [done|]. destruct Hk as [->|Hk]; [by left|]. right.
        assert (D !! k = None) as HDk by (apply Hno; [done|by apply tc_once]). split; [done|].
        split; [done|]. split; [done|]. intros m Hcm Hmk. apply Hno; [done|].
        eapply ancestor_trans; [done|by apply tc_once]. }
      apply pt_children in Pk as [Pk|Pk]; [| |done]; [left|right]; exists k; done.
Qed.


(** The children of a prefix in terms of the bits. *)
Lemma child_key t D n c : pt_wf t -> data_ok t D -> is_Some (node_prefix t n) ->
  child_of t D n c <->
  is_Some (D !! c) /\ strict_prefix (key t n) (key t c)
  /\ forall m, is_Some (D !! m) -> strict_prefix (key t n) (key t m) ->
       ~ strict_prefix (key t m) (key t c).
Proof.
  intros Hw HD Hn. unfold child_of. split; intros (Hc & Ha & Hno); split; [done| |done|]; split.
  - apply key_ancestor; auto.
  - intros m Hm H1' H2'. apply key_ancestor in H1', H2'; auto. destruct Hm as [d Hd].
    by rewrite (Hno m) in Hd.
  - apply key_ancestor; auto.
  - intros m H1' H2'. apply eq_None_not_Some. intros Hm. apply key_ancestor in H1', H2'; auto.
    by apply (Hno m).
Qed.

Lemma getChildren_spec t D n : pt_wf t ->
  exists cs, getChildren t D n = Ok cs /\ NoDup cs /\ forall c, c ∈ cs <-> child_of t D n c.
Proof. intros Hw. by apply (getChildren_loop_spec t D tree_fuel n []); [|lia]. Qed.

(** ** Subtrees *)
Definition sub t D n : gset N := filter (fun m => key t n `prefix_of` key t m) (dom D).

Lemma elem_of_sub t D n m : m ∈ sub t D n <-> key t n `prefix_of` key t m /\ is_Some (D !! m).
Proof. unfold sub. by rewrite elem_of_filter, elem_of_dom. Qed.

Lemma child_above t D n m : pt_wf t -> data_ok t D -> is_Some (D !! n) -> is_Some (D !! m) ->
  strict_prefix (key t n) (key t m) -> exists c, child_of t D n c /\ key t c `prefix_of` key t m.
Proof.
  intros Hw HD Hn. remember (length (key t m)) as len eqn:El. revert m El.
  induction len as [len IH] using lt_wf_ind. intros m El Hm Hs. destruct (getParent_spec t D m Hw HD (HD _ Hm)) as ([p|] & _ & Hp).
  2: { by apply Hp in Hs. }
  destruct Hp as (Hp & Hpm & Hmax).
  destruct (prefix_cases _ _ (Hmax n Hn Hs)) as [E|Hnp].
  - exists m. split; [|done]. apply child_key; auto. split; [done|]. split; [done|].
    intros m' Hm' H1' H2'. pose proof (Hmax m' Hm' H2') as H3'. rewrite <- E in H3'.
    apply strict_prefix_length in H1'. apply prefix_length in H3'. lia.
  - destruct (IH (length (key t p))) with (m := p) as (c & Hc & Hcp);
      [subst; by apply strict_prefix_length|done..|].
    exists c. split; [done|]. etrans; [done|apply Hpm].
Qed.

Lemma sub_split t D n cs : pt_wf t -> data_ok t D -> is_Some (D !! n) ->
  (forall c, c ∈ cs <-> child_of t D n c) ->
  sub t D n = {[ n ]} ∪ ⋃ (sub t D <$> cs).
Proof.
  intros Hw HD Hn Hcs. apply set_eq. intros m.
  rewrite elem_of_union, elem_of_singleton, elem_of_union_list, elem_of_sub. split.
  - intros [[E|Hs]%prefix_cases Hm]; [left; symmetry; eapply key_inj; eauto|].
    right. destruct (child_above t D n m) as (c & Hc & Hcm); [done..|].
    exists (sub t D c). split; [apply list_elem_of_fmap; exists c; naive_solver|].
    by apply elem_of_sub.
  - intros [->|(X & (c & -> & Hc)%list_elem_of_fmap & [Hcm Hm]%elem_of_sub)]; [done|].
    apply Hcs, child_key in Hc as (_ & [Hc _] & _); auto. split; [by etrans|done].
Qed.

Lemma child_not_above t D n c : pt_wf t -> data_ok t D -> is_Some (D !! n) -> child_of t D n c ->
  n ∉ sub t D c.
Proof.
  intros Hw HD Hn Hc [Hk _]%elem_of_sub. apply child_key in Hc as (_ & Hc & _); auto.
  apply strict_prefix_length in Hc. apply prefix_length in Hk. lia.
Qed.

Lemma sub_children_disjoint t D n c c' : pt_wf t -> data_ok t D -> is_Some (D !! n) ->
  child_of t D n c -> child_of t D n c' -> c <> c' -> sub t D c ## sub t D c'.
Proof.
  intros Hw HD Hn Hc Hc' Hne m [H1' _]%elem_of_sub [H2' _]%elem_of_sub.
  apply child_key in Hc as (Hc & Hs & Hno); auto. apply child_key in Hc' as (Hc' & Hs' & Hno'); auto.
  assert (key t c <> key t c') as Hk by (intros E; apply Hne; eapply key_inj; eauto).
  destruct (prefix_comparable _ _ _ H1' H2') as [Hp|Hp].
  - by apply (Hno' c); [|done|split].
  - apply (Hno c'); [done|done|by split].
Qed.

Lemma getChildren_dom t D D' n : dom D = dom D' -> getChildren t D n = getChildren t D' n.
Proof.
  intros Hd. assert (forall m, is_Some (D !! m) <-> is_Some (D' !! m)) as Hs.
  { intros m. rewrite <- !elem_of_dom. by rewrite Hd. }
  unfold getChildren. generalize (@nil N). revert n. induction tree_fuel as [|fuel IH]; [done|].
  intros n cs. cbn [getChildren_loop].
  assert (forall (cs : list N) o,
    match o with None => Ok cs | Some c => if decide (is_Some (D !! c)) then Ok (cs ++ [c])
                                           else getChildren_loop fuel t D cs c end
    = match o with None => Ok cs | Some c => if decide (is_Some (D' !! c)) then Ok (cs ++ [c])
                                             else getChildren_loop fuel t D' cs c end) as E.
  { intros cs' [c|]; [|done]. destruct (decide (is_Some (D !! c))) as [Hc|Hc].
    - by rewrite decide_True by by apply Hs.
    - rewrite decide_False by (by rewrite <- Hs). apply IH. }
  rewrite E. destruct (match node_l t n with None => _ | Some _ => _ end); [|done]. apply E.
Qed.
End tree.

(** ** The rule for a walk over a subtree

    [new] is what the prefixes look like afterwards, [I V a] what holds of the
    state [a] when the prefixes [V] are done, [P x n] what holds of the argument
    [x] for the prefix [n].  A step that does not go on to the children must have
    left nothing to do below. *)
Section walk.
Context {T N : Type} `{Countable N} `{PatriciaLaws T N} {X A : Type}.
Context (step : X -> N -> PC_Prefix N -> A -> outcome (PC_Prefix N * A * option X)).
Context (t : T) (D0 : gmap N (PC_Prefix N)) (new : N -> PC_Prefix N).
Context (I : gset N -> A -> Prop) (P : X -> N -> Prop).
Context (Hw : pt_wf t) (HD : data_ok t D0).
Context (Hstep : forall x n V a d, D0 !! n = Some d -> P x n -> V ## sub t D0 n -> I V a ->
  exists a' o, step x n d a = Ok (new n, a', o) /\
    match o with
    | Some x' => I ({[ n ]} ∪ V) a' /\ forall c, child_of t D0 n c -> P x' c
    | None => I (sub t D0 n ∪ V) a' /\ forall m, m ∈ sub t D0 n -> m <> n -> D0 !! m = Some (new m)
    end).

Definition walked (V : gset N) (D D' : gmap N (PC_Prefix N)) : Prop :=
  forall m, D' !! m = if decide (m ∈ V) then Some (new m) else D !! m.

Lemma walked_dom V D D' : V ⊆ dom D -> walked V D D' -> dom D' = dom D.
Proof.
  intros Hsub HV. apply set_eq. intros m. rewrite !elem_of_dom, HV.
  destruct (decide (m ∈ V)) as [Hm|]; [|done]. split; [|done]. intros _. by apply elem_of_dom, Hsub.
Qed.

Lemma walked_trans V V' D D1 D2 : walked V D D1 -> walked V' D1 D2 -> walked (V ∪ V') D D2.
Proof.
  intros H1' H2' m. rewrite H2', H1'.
  destruct (decide (m ∈ V')), (decide (m ∈ V)), (decide (m ∈ V ∪ V')) as [Hm|Hm]; try done;
    rewrite elem_of_union in Hm; tauto.
Qed.

Lemma sub_dom n : sub t D0 n ⊆ dom D0.
Proof. intros m [_ Hm]%elem_of_sub. by apply elem_of_dom. Qed.

Lemma walk_children fuel cs V x D a n :
  (forall c V x D a, is_Some (D0 !! c) -> P x c -> V ## sub t D0 c -> I V a -> dom D = dom D0 ->
     (forall m, m ∈ sub t D0 c -> D !! m = D0 !! m) -> child_of t D0 n c ->
     exists D' a', walk step fuel t x c (D, a) = Ok (D', a')
       /\ I (sub t D0 c ∪ V) a' /\ walked (sub t D0 c) D D') ->
  is_Some (D0 !! n) -> NoDup cs -> (forall c, c ∈ cs -> child_of t D0 n c /\ P x c) ->
  (forall c, c ∈ cs -> V ## sub t D0 c /\ forall m, m ∈ sub t D0 c -> D !! m = D0 !! m) ->
  I V a -> dom D = dom D0 ->
  exists D' a', foldl (fun st c => st ← st; walk step fuel t x c st) (Ok (D, a)) cs = Ok (D', a')
    /\ I (⋃ (sub t D0 <$> cs) ∪ V) a' /\ walked (⋃ (sub t D0 <$> cs)) D D'.
Proof.
  intros Hrec Hn. revert V D a. induction cs as [|c cs IH]; intros V D a Hnd Hcs Hfresh HI Hdom.
  { exists D, a. split; [done|]. split; [by replace (⋃ _ ∪ V) with V by set_solver|]. done. }
  apply NoDup_cons in Hnd as [Hc Hnd]. destruct (Hcs c) as [Hch HP]; [by left|].
  destruct (Hfresh c) as [HV Hsame]; [by left|].
  destruct (Hrec c V x D a) as (D1 & a1 & E1 & HI1 & HW1); [apply Hch|done..|].
  cbn [foldl]. simpl_outcome. rewrite E1.
  assert (dom D1 = dom D0) as Hdom1.
  { rewrite <- Hdom. eapply walked_dom; [|exact HW1]. rewrite Hdom. apply sub_dom. }
  assert (forall c', c' ∈ cs -> sub t D0 c ## sub t D0 c') as Hdisj.
  { intros c' Hc'. eapply sub_children_disjoint; eauto; [apply Hcs; by right|]. by intros ->. }
  destruct (IH (sub t D0 c ∪ V) D1 a1) as (D2 & a2 & E2 & HI2 & HW2); [done| | |done|done|].
  { intros c' Hc'. apply Hcs. by right. }
  { intros c' Hc'. specialize (Hdisj c' Hc'). destruct (Hfresh c') as [HV' Hsame']; [by right|].
    split; [set_solver|]. intros m Hm. rewrite HW1, decide_False by set_solver. by apply Hsame'. }
  exists D2, a2. split; [done|]. cbn [fmap list_fmap union_list foldr].
  split; [|by eapply walked_trans].
  by rewrite (comm_L (∪) (sub t D0 c)), <- (assoc_L (∪)).
Qed.

Lemma walk_loop_spec fuel x n V D a :
  (tree_fuel <= fuel + pt_rank t n)%nat ->
  is_Some (D0 !! n) -> P x n -> V ## sub t D0 n -> I V a -> dom D = dom D0 ->
  (forall m, m ∈ sub t D0 n -> D !! m = D0 !! m) ->
  exists D' a', walk step fuel t x n (D, a) = Ok (D', a')
    /\ I (sub t D0 n ∪ V) a' /\ walked (sub t D0 n) D D'.
Proof.
  revert x n V D a. induction fuel as [|fuel IH]; intros x n V D a Hf Hn HP HV HI Hdom Hsame.
  { pose proof (pt_rank_max t n Hw). unfold tree_fuel in Hf. lia. }
  cbn [walk]. assert (n ∈ sub t D0 n) as Hnn by by apply elem_of_sub.
  pose proof Hn as [d Hd]. unfold get_data. rewrite (Hsame n Hnn), Hd. simpl_outcome.
  destruct (Hstep x n V a d) as (a1 & o & -> & Ho); [done..|]. simpl_outcome.
  assert (walked {[ n ]} D (<[n := new n]> D)) as Hw1.
  { intros m. destruct (decide (m ∈ {[ n ]})) as [->%elem_of_singleton|Hm]; [by rewrite lookup_insert_eq|].
    by rewrite lookup_insert_ne by set_solver. }
  destruct o as [x'|].
  2: { destruct Ho as [HI' Hrest]. exists (<[n := new n]> D), a1. split; [done|]. split; [done|].
       intros m. rewrite Hw1. destruct (decide (m ∈ sub t D0 n)) as [Hm|Hm].
       - destruct (decide (m ∈ {[ n ]})); [done|]. rewrite Hsame by done. apply Hrest; set_solver.
       - rewrite decide_False; [done|]. set_solver. }
  destruct Ho as [HI' Hc].
  assert (dom (<[n := new n]> D) = dom D0) as Hdom1.
  { rewrite <- Hdom. eapply walked_dom; [|exact Hw1]. rewrite Hdom.
    apply singleton_subseteq_l. by apply elem_of_dom. }
  rewrite (getChildren_dom t _ D0 n Hdom1).
  destruct (getChildren_spec t D0 n Hw) as (cs & -> & Hnd & Hcs). simpl_outcome.
  rewrite (sub_split t D0 n cs) by done.
  destruct (walk_children fuel cs ({[ n ]} ∪ V) x' (<[n := new n]> D) a1 n) as (D2 & a2 & E2 & HI2 & HW2);
    try done.
  - intros c V' x0 D' a' Hc1 HP' HV' HI1 Hdom' Hsame' Hch. apply IH; try done.
    destruct Hch as (_ & Hch%ancestor_rank & _); [lia|done].
  - intros c Hc1. split; [by apply Hcs|]. by apply Hc, Hcs.
  - intros c Hc1%Hcs. pose proof (child_not_above t D0 n c Hw HD Hn Hc1).
    assert (sub t D0 c ⊆ sub t D0 n) as Hss.
    { intros m [Hm1 Hm2]%elem_of_sub. apply elem_of_sub. split; [|done].
      apply child_key in Hc1 as (_ & [? _] & _); auto. by etrans. }
    split; [set_solver|]. intros m Hm. rewrite lookup_insert_ne by set_solver. apply Hsame. set_solver.
  - exists D2, a2. split; [done|]. split; [|by eapply walked_trans].
    by rewrite (comm_L (∪) {[n]}), <- (assoc_L (∪)).
Qed.

Lemma walk_spec x n a :
  is_Some (D0 !! n) -> P x n -> I ∅ a ->
  exists D' a', walk step tree_fuel t x n (D0, a) = Ok (D', a')
    /\ I (sub t D0 n) a' /\ walked (sub t D0 n) D0 D'.
Proof.
  intros Hn HP HI. destruct (walk_loop_spec tree_fuel x n ∅ D0 a) as (D' & a' & E & HI' & HW);
    [lia|done|done|set_solver|done|done|done|].
  exists D', a'. by rewrite (right_id_L ∅ (∪)) in HI'.
Qed.
End walk.
End PrefixTree.
