(* ===== verification/PrefixSteps.v ===== *)
(** * The steps of the prefix cache on one prefix (server/prefix_cache.c)

    What the list manipulations of [_addROAwl_verifyUpdates] and
    [_delROAwl_validateUpdates] do to one prefix, and what they report. *)
From S2P Require Import Prelude Lists SrxDefs Patricia SList PrefixCache PrefixTree.

Module PrefixSteps.
Import PrefixCache PrefixTree.

Section steps.
Context {T N S : Type} `{Countable N} `{PatriciaLaws T N} `{RoaSinkLaws S}.
Implicit Types (t : T) (n : N) (s : S) (d : PC_Prefix N) (r : PC_ROA) (u : PC_Update N) (a : Z)
  (l : list (PC_Update N)).

Definition updates_at d : list (PC_Update N) := nodes (valid d) ++ nodes (other d).

(** Matching updates of a list, their number, and one more or one less match. *)
Definition of_as a l : list (PC_Update N) := filter (fun u => u_as u = a) l.
Definition not_as a l : list (PC_Update N) := filter (fun u => u_as u <> a) l.
Definition cnt a l : Z := zsum (fun u => if u_as u =? a then 1 else 0) l.
Definition shift a (k : Z) u : PC_Update N :=
  if u_as u =? a then set_roa_match u (roa_match u + k) else u.

Lemma cnt_nonneg a l : 0 <= cnt a l.
Proof. apply zsum_nonneg. intros u _. by destruct (_ =? _). Qed.

Lemma cnt_length a l : cnt a l = Z.of_nat (length (of_as a l)).
Proof.
  unfold cnt, of_as. induction l as [|u l IH]; [done|]. rewrite zsum_cons, IH.
  destruct (Z.eqb_spec (u_as u) a); [rewrite filter_cons_True by done; simpl; lia|].
  by rewrite filter_cons_False.
Qed.

Lemma cnt_app a l k : cnt a (l ++ k) = cnt a l + cnt a k.
Proof. apply zsum_app. Qed.

Lemma elem_of_of_as a l u : u ∈ of_as a l <-> u_as u = a /\ u ∈ l.
Proof. unfold of_as. by rewrite list_elem_of_filter. Qed.
Lemma elem_of_not_as a l u : u ∈ not_as a l <-> u_as u <> a /\ u ∈ l.
Proof. unfold not_as. by rewrite list_elem_of_filter. Qed.

Lemma parts_hit a u l : u_as u = a -> of_as a (u :: l) = u :: of_as a l /\ not_as a (u :: l) = not_as a l.
Proof.
  intros E. unfold of_as, not_as. rewrite filter_cons_True by done.
  rewrite filter_cons_False by tauto. done.
Qed.
Lemma parts_miss a u l : u_as u <> a -> of_as a (u :: l) = of_as a l /\ not_as a (u :: l) = u :: not_as a l.
Proof.
  intros E. unfold of_as, not_as. rewrite filter_cons_False by done. by rewrite filter_cons_True by done.
Qed.

Lemma length_parts a l : (length (of_as a l) + length (not_as a l) = length l)%nat.
Proof.
  unfold of_as, not_as. induction l as [|u l IH]; [done|]. destruct (decide (u_as u = a)).
  - rewrite filter_cons_True, filter_cons_False by tauto. simpl. lia.
  - rewrite filter_cons_False, filter_cons_True by tauto. simpl. lia.
Qed.

Lemma shift_fields a k u :
  updateID (shift a k u) = updateID u /\ u_as (shift a k u) = u_as u
  /\ u_treeNode (shift a k u) = u_treeNode u
  /\ roa_match (shift a k u) = if u_as u =? a then roa_match u + k else roa_match u.
Proof. unfold shift. by destruct (_ =? _). Qed.

Lemma shift_hit a k u : u_as u = a -> shift a k u = set_roa_match u (roa_match u + k).
Proof. intros E. unfold shift. by rewrite (proj2 (Z.eqb_eq _ _) E). Qed.
Lemma shift_miss a k u : u_as u <> a -> shift a k u = u.
Proof. intros E. unfold shift. by rewrite (proj2 (Z.eqb_neq _ _) E). Qed.

Lemma cnt_shift a b k l : cnt a (shift b k <$> l) = cnt a l.
Proof.
  unfold cnt. rewrite zsum_fmap. apply zsum_ext. intros u _.
  destruct (shift_fields b k u) as (_ & -> & _). done.
Qed.

(** ** Notifying *)
Lemma notify_all_eq s l st sup :
  rs_wf s -> (forall u, u ∈ l -> is_Some (roa_result s (updateID u))) -> st <> SRx_RESULT_DONOTUSE ->
  exists s', notify_all s l st sup = Ok s' /\ rs_wf s'
    /\ forall k, roa_result s' k = if decide (k ∈ updateID <$> l) then Some st else roa_result s k.
Proof.
  intros Hs Hl Hst. unfold notify_all. revert s Hs Hl. induction l as [|u l IH]; intros s Hs Hl.
  { exists s. split; [done|]. split; [done|]. intros k. by rewrite decide_False by apply not_elem_of_nil. }
  destruct (rs_notify s (updateID u) st sup Hs) as (s1 & E1 & Hs1 & Hr1); [apply Hl; by left|done|].
  cbn [foldl]. simpl_outcome. rewrite E1.
  destruct (IH s1 Hs1) as (s2 & E2 & Hs2 & Hr2).
  { intros v Hv. rewrite Hr1. destruct (decide _); [done|]. apply Hl. by right. }
  exists s2. split; [done|]. split; [done|]. intros k. rewrite Hr2, Hr1, fmap_cons.
  destruct (decide (k ∈ updateID <$> l)), (decide (k = updateID u)),
    (decide (k ∈ updateID u :: (updateID <$> l))) as [Hk|Hk]; try done;
    rewrite elem_of_cons in Hk; tauto.
Qed.

(** ** Adding *)
Lemma bump_matched_eq l r :
  (forall u, u ∈ l -> u_as u = r_as r -> 0 <= roa_match u < 2 ^ 16 - 1) ->
  0 <= r_update_count r -> r_update_count r + cnt (r_as r) l < 2 ^ 32 ->
  bump_matched l r
  = (shift (r_as r) 1 <$> l, set_r_update_count r (r_update_count r + cnt (r_as r) l)).
Proof.
  revert r. induction l as [|u l IH]; intros r Hm Hc Hb; cbn [bump_matched fmap list_fmap].
  { rewrite Z.add_0_r. by destruct r. }
  unfold cnt in *. rewrite zsum_cons in *. pose proof (cnt_nonneg (r_as r) l) as Hnn. unfold cnt in Hnn.
  unfold shift at 1. revert Hb. destruct (Z.eqb_spec (u_as u) (r_as r)) as [E|E]; intros Hb.
  - assert (0 <= roa_match u < 2 ^ 16 - 1) by (apply Hm; [by left|done]).
    rewrite !wrap_small by (unfold in_u; lia). rewrite IH.
    + cbn [r_as r_update_count set_r_update_count max_len roa_count deferred_count valCacheID].
      f_equal. unfold set_r_update_count. cbn. f_equal. lia.
    + intros v Hv. apply Hm. by right.
    + simpl. lia.
    + cbn [r_as r_update_count set_r_update_count]. lia.
  - rewrite IH; [by rewrite Z.add_0_l| |done|lia]. intros v Hv. apply Hm. by right.
Qed.

Lemma moveMatched_eq curr kept osz v r sup s :
  (forall u, u ∈ curr -> u_as u = r_as r -> 0 <= roa_match u < 2 ^ 16 - 1) ->
  0 <= r_update_count r -> r_update_count r + cnt (r_as r) curr < 2 ^ 32 ->
  rs_wf s -> (forall u, u ∈ curr -> is_Some (roa_result s (updateID u))) ->
  exists s', moveMatched_loop curr kept osz v r sup s
    = Ok (mkSList (nodes v ++ (shift (r_as r) 1 <$> of_as (r_as r) curr)) (size v + cnt (r_as r) curr),
          mkSList (kept ++ not_as (r_as r) curr) (osz - cnt (r_as r) curr),
          set_r_update_count r (r_update_count r + cnt (r_as r) curr), s')
    /\ rs_wf s'
    /\ forall k, roa_result s' k = if decide (k ∈ updateID <$> of_as (r_as r) curr)
                                   then Some SRx_RESULT_VALID else roa_result s k.
Proof.
  revert kept osz v r s. induction curr as [|u curr IH]; intros kept osz v r s Hm Hc Hb Hs Hst;
    cbn [moveMatched_loop].
  { exists s. cbn. rewrite !app_nil_r, !Z.add_0_r, Z.sub_0_r. split; [by destruct v, r|].
    split; [done|]. intros k. by rewrite decide_False by apply not_elem_of_nil. }
  assert (cnt (r_as r) (u :: curr) = (if u_as u =? r_as r then 1 else 0) + cnt (r_as r) curr) as Hcnt by done.
  pose proof (cnt_nonneg (r_as r) curr). rewrite Hcnt in *. clear Hcnt.
  revert Hb. destruct (Z.eqb_spec (u_as u) (r_as r)) as [E|E]; intros Hb.
  - assert (0 <= roa_match u < 2 ^ 16 - 1) by (apply Hm; [by left|done]).
    rewrite !wrap_small by (unfold in_u; lia).
    change (updateID (set_roa_match u (roa_match u + 1))) with (updateID u).
    destruct (rs_notify s (updateID u) SRx_RESULT_VALID sup Hs) as (s1 & -> & Hs1 & Hr1);
      [apply Hst; by left|done|]. simpl_outcome.
    destruct (IH kept (osz - 1) (mkSList (nodes v ++ [set_roa_match u (roa_match u + 1)]) (size v + 1))
                (set_r_update_count r (r_update_count r + 1)) s1) as (s2 & E2 & Hs2 & Hr2).
    { intros w Hw. apply Hm. by right. }
    { simpl. lia. }
    { cbn [r_as r_update_count set_r_update_count]. lia. }
    { done. }
    { intros w Hw. rewrite Hr1. destruct (decide _); [done|]. apply Hst. by right. }
    cbn [r_as r_update_count set_r_update_count nodes size max_len roa_count deferred_count valCacheID] in *.
    exists s2. rewrite E2. split; [|split; [done|]].
    + destruct (parts_hit (r_as r) u curr E) as [-> ->].
      rewrite fmap_cons, shift_hit by done.
      unfold set_r_update_count. cbn. rewrite <- (assoc_L (++)), !Z.add_assoc, Z.sub_add_distr. done.
    + intros k. rewrite Hr2, Hr1. rewrite (proj1 (parts_hit (r_as r) u curr E)), fmap_cons.
      destruct (decide (k ∈ updateID <$> of_as _ curr)), (decide (k = updateID u)),
        (decide (k ∈ updateID u :: (updateID <$> of_as _ curr))) as [Hk|Hk]; try done;
        rewrite elem_of_cons in Hk; tauto.
  - destruct (IH (kept ++ [u]) osz v r s) as (s2 & E2 & Hs2 & Hr2); [|done|lia|done| |].
    { intros w Hw. apply Hm. by right. }
    { intros w Hw. apply Hst. by right. }
    exists s2. rewrite E2. destruct (parts_miss (r_as r) u curr E) as [-> ->]. rewrite Z.add_0_l, <- (assoc_L (++)). done.
Qed.

(** ** The step of [_addROAwl_verifyUpdates] *)

(** The results stored for the updates of a prefix. *)
Definition synced s d : Prop :=
  (forall u, u ∈ nodes (valid d) -> roa_result s (updateID u) = Some SRx_RESULT_VALID)
  /\ (forall u, u ∈ nodes (other d) -> roa_result s (updateID u) = Some (state_of_other d)).
Definition ids_as d : Prop :=
  forall u v, u ∈ updates_at d -> v ∈ updates_at d -> updateID u = updateID v -> u_as u = u_as v.
Definition state_ok (st : Z) : Prop := st = SRx_RESULT_NOTFOUND \/ st = SRx_RESULT_INVALID.
(** [s'] differs from [s] in the results of the updates [l] only. *)
Definition only_of l s s' : Prop := forall k, k ∉ updateID <$> l -> roa_result s' k = roa_result s k.

Lemma synced_stored s d u : synced s d -> u ∈ updates_at d -> is_Some (roa_result s (updateID u)).
Proof. intros [Hv Ho] [Hu|Hu]%elem_of_app; [rewrite Hv by done|rewrite Ho by done]; done. Qed.

Lemma state_ok_donotuse st : state_ok st -> st <> SRx_RESULT_DONOTUSE.
Proof. by intros [-> | ->]. Qed.

Lemma changeStateOfOther_eq d st sup s :
  rs_wf s -> synced s d -> state_ok st ->
  exists s', _ROAwl_changeStateOfOther d st sup s = Ok (set_state d st, s') /\ rs_wf s'
    /\ (forall k, roa_result s' k = if decide (k ∈ updateID <$> nodes (other d)) then Some st
                                    else roa_result s k).
Proof.
  intros Hs Hd Hst. unfold _ROAwl_changeStateOfOther. cbn [other set_state].
  destruct (notify_all_eq s (nodes (other d)) st sup Hs) as (s' & -> & Hs' & Hr).
  { intros u Hu. eapply synced_stored; [done|]. apply elem_of_app. by right. }
  { by apply state_ok_donotuse. }
  exists s'. done.
Qed.

Lemma elem_of_ids l k : k ∈ updateID <$> l <-> exists u : PC_Update N, u ∈ l /\ updateID u = k.
Proof. rewrite list_elem_of_fmap. naive_solver. Qed.

(** The prefix after the step. *)
Definition added (hit : bool) a d : PC_Prefix N :=
  if hit then
    mkPC_Prefix (roa_coverage d + 1) SRx_RESULT_INVALID
      (mkSList ((shift a 1 <$> nodes (valid d)) ++ (shift a 1 <$> of_as a (nodes (other d))))
         (size (valid d) + cnt a (nodes (other d))))
      (mkSList (not_as a (nodes (other d))) (size (other d) - cnt a (nodes (other d)))) (asn d)
  else set_state d SRx_RESULT_INVALID.

Lemma set_state_same d : set_state d (state_of_other d) = d.
Proof. by destruct d. Qed.

Lemma not_moved_ids d u v : ids_as d -> forall a, u ∈ of_as a (nodes (other d)) ->
  v ∈ not_as a (nodes (other d)) -> updateID u <> updateID v.
Proof.
  intros Hids a [Eu Hu]%elem_of_of_as [Ev Hv]%elem_of_not_as E. apply Ev. rewrite <- Eu.
  symmetry. apply Hids; [by apply elem_of_app; right..|done].
Qed.

(** Moving the matches and changing the state keeps the results in step. *)
Lemma verify_hit_synced d a s s1 s2 :
  synced s d -> ids_as d -> state_ok (state_of_other d) ->
  (forall k, roa_result s1 k = if decide (k ∈ updateID <$> of_as a (nodes (other d)))
                               then Some SRx_RESULT_VALID else roa_result s k) ->
  (forall k, roa_result s2 k = if decide (state_of_other d = SRx_RESULT_NOTFOUND
                                          /\ k ∈ updateID <$> not_as a (nodes (other d)))
                               then Some SRx_RESULT_INVALID else roa_result s1 k) ->
  synced s2 (added true a d) /\ only_of (updates_at d) s s2.
Proof.
  intros [Hv Ho] Hids Hst H1' H2'.
  split; [split|].
  - intros u Hu. cbn [added valid nodes] in Hu.
    apply elem_of_app in Hu as [(v & -> & Hv')%list_elem_of_fmap|(v & -> & Hv')%list_elem_of_fmap];
      rewrite (proj1 (shift_fields a 1 v)), H2', H1'.
    + rewrite decide_False.
      * destruct (decide _); [done|by apply Hv].
      * intros [En (w & Hw & Ew)%elem_of_ids]. apply elem_of_not_as in Hw as [_ Hw].
        pose proof (Hv v Hv') as E1. pose proof (Ho w Hw) as E2. rewrite Ew, E1 in E2.
        rewrite En in E2. discriminate.
    + rewrite decide_False.
      * rewrite decide_True; [done|]. apply elem_of_ids. by exists v.
      * intros [_ (w & Hw & Ew)%elem_of_ids]. by apply (not_moved_ids d v w Hids a).
  - intros u Hu. cbn [added other nodes state_of_other] in Hu |- *. rewrite H2', H1'.
    destruct (decide (state_of_other d = SRx_RESULT_NOTFOUND /\ _)) as [|Hn]; [done|].
    rewrite decide_False.
    + apply elem_of_not_as in Hu as [Ha Hu2]. rewrite Ho by done. f_equal.
      destruct Hst as [E|E]; [|done]. destruct Hn. split; [done|]. apply elem_of_ids. exists u.
      by rewrite elem_of_not_as.
    + intros (w & Hw & Ew)%elem_of_ids. by apply (not_moved_ids d w u Hids a).
  - intros k Hk. rewrite H2', H1'. rewrite !decide_False; [done| |].
    + intros (w & Hw & Ew)%elem_of_ids. apply Hk, elem_of_ids. exists w. split; [|done].
      apply elem_of_of_as in Hw as [_ Hw]. apply elem_of_app. by right.
    + intros [_ (w & Hw & Ew)%elem_of_ids]. apply Hk, elem_of_ids. exists w. split; [|done].
      apply elem_of_not_as in Hw as [_ Hw]. apply elem_of_app. by right.
Qed.

Lemma set_state_synced d s s' st :
  synced s d -> ids_as d -> (forall u v, u ∈ nodes (valid d) -> v ∈ nodes (other d) -> updateID u <> updateID v) ->
  (forall k, roa_result s' k = if decide (k ∈ updateID <$> nodes (other d)) then Some st
                               else roa_result s k) ->
  synced s' (set_state d st) /\ only_of (updates_at d) s s'.
Proof.
  intros [Hv Ho] Hids Hne Hr. split; [split|].
  - intros u Hu. rewrite Hr, decide_False; [by apply Hv|].
    intros (w & Hw & Ew)%elem_of_ids. by eapply Hne.
  - intros u Hu. rewrite Hr, decide_True; [done|]. apply elem_of_ids. by exists u.
  - intros k Hk. rewrite Hr, decide_False; [done|]. intros (w & Hw & Ew)%elem_of_ids.
    apply Hk, elem_of_ids. exists w. split; [|done]. apply elem_of_app. by right.
Qed.

Lemma valid_other_ids s d u v : synced s d -> state_ok (state_of_other d) ->
  u ∈ nodes (valid d) -> v ∈ nodes (other d) -> updateID u <> updateID v.
Proof.
  intros [Hv Ho] Hst Hu Hw E. pose proof (Hv u Hu) as E1. pose proof (Ho v Hw) as E2.
  rewrite E, E2 in E1. destruct Hst as [Es|Es]; rewrite Es in E1; discriminate.
Qed.

Record step_pre t n d r s (len : Z) : Prop := {
  sp_len : node_bitlen t n = Ok len;
  sp_sink : rs_wf s;
  sp_sync : synced s d;
  sp_ids : ids_as d;
  sp_state : state_ok (state_of_other d);
  sp_count : 0 <= r_update_count r
}.

Lemma verify_step_eq t n d r s sup len :
  step_pre t n d r s len ->
  0 <= roa_coverage d < 2 ^ 32 - 1 ->
  (forall u, u ∈ updates_at d -> u_as u = r_as r -> 0 <= roa_match u < 2 ^ 16 - 1) ->
  (len <= max_len r -> r_update_count r + cnt (r_as r) (updates_at d) < 2 ^ 32) ->
  let hit := len <=? max_len r in
  exists s', verifyUpdates_step t sup tt n d (r, s)
    = Ok (added hit (r_as r) d,
          (set_r_update_count r (r_update_count r + if hit then cnt (r_as r) (updates_at d) else 0), s'),
          if hit || (state_of_other d =? SRx_RESULT_NOTFOUND) then Some tt else None)
    /\ rs_wf s' /\ synced s' (added hit (r_as r) d) /\ only_of (updates_at d) s s'.
Proof.
  intros [Hlen Hs Hsync Hids Hst Hc] Hcov Hm Hb. unfold verifyUpdates_step. rewrite Hlen. simpl_outcome.
  destruct (Z.leb_spec len (max_len r)) as [Hh|Hh]; cbn zeta; cbn [orb].
  - specialize (Hb Hh). unfold updates_at in Hb. rewrite cnt_app in Hb.
    pose proof (cnt_nonneg (r_as r) (nodes (valid d))). pose proof (cnt_nonneg (r_as r) (nodes (other d))).
    rewrite wrap_small by (unfold in_u; lia). cbn [valid set_coverage].
    rewrite bump_matched_eq; [|intros u Hu; apply Hm; apply elem_of_app; by left|done|lia].
    unfold _addROAwl_moveMatchedUpdatesToValid. cbn [other valid set_coverage set_valid].
    destruct (moveMatched_eq (nodes (other d)) [] (size (other d))
      (mkSList (shift (r_as r) 1 <$> nodes (valid d)) (size (valid d)))
      (set_r_update_count r (r_update_count r + cnt (r_as r) (nodes (valid d)))) sup s) as (s1 & E1 & Hs1 & Hr1);
      cbn [r_as r_update_count set_r_update_count]; [|lia|lia|done| |].
    { intros u Hu. apply Hm, elem_of_app. by right. }
    { intros u Hu. eapply synced_stored; [done|]. apply elem_of_app. by right. }
    rewrite E1. simpl_outcome. cbn [state_of_other set_other set_valid set_coverage].
    cbn [r_as r_update_count set_r_update_count max_len roa_count deferred_count valCacheID nodes size] in *.
    set (d1 := set_other _ _).
    assert (exists s2, (if state_of_other d =? SRx_RESULT_NOTFOUND
              then _ROAwl_changeStateOfOther d1 SRx_RESULT_INVALID sup s1 else Ok (d1, s1))
              = Ok (added true (r_as r) d, s2) /\ rs_wf s2
            /\ forall k, roa_result s2 k = if decide (state_of_other d = SRx_RESULT_NOTFOUND
                                             /\ k ∈ updateID <$> not_as (r_as r) (nodes (other d)))
                                           then Some SRx_RESULT_INVALID else roa_result s1 k)
      as (s2 & E2 & Hs2 & Hr2).
    { destruct (Z.eqb_spec (state_of_other d) SRx_RESULT_NOTFOUND) as [En|En].
      - unfold _ROAwl_changeStateOfOther. cbn [other set_state d1 set_other nodes app].
        destruct (notify_all_eq s1 (not_as (r_as r) (nodes (other d))) SRx_RESULT_INVALID sup Hs1)
          as (s2 & E2 & Hs2 & Hr2); [|done|].
        { intros u [_ Hu]%elem_of_not_as. rewrite Hr1. destruct (decide _); [done|].
          eapply synced_stored; [done|]. apply elem_of_app. by right. }
        exists s2. rewrite E2. simpl_outcome. split; [done|]. split; [done|]. intros k. rewrite Hr2.
        destruct (decide (k ∈ _)) as [Hk|Hk]; [by rewrite decide_True|].
        by rewrite decide_False by (by intros [_ ?]).
      - exists s1. split; [|split; [done|]].
        + assert (d1 = added true (r_as r) d) as ->; [|done]. destruct Hst as [?|E]; [done|].
          unfold added. rewrite <- E. done.
        + intros k. by rewrite decide_False by (by intros [? _]). }
    exists s2. rewrite E2. simpl_outcome. split.
    { unfold updates_at. rewrite cnt_app, Z.add_assoc. done. }
    split; [done|]. by eapply verify_hit_synced.
  - rewrite Z.add_0_r. replace (set_r_update_count r (r_update_count r)) with r by by destruct r.
    destruct (Z.eqb_spec (state_of_other d) SRx_RESULT_NOTFOUND) as [En|En].
    + destruct (changeStateOfOther_eq d SRx_RESULT_INVALID sup s Hs Hsync) as (s1 & E1 & Hs1 & Hr1); [by right|].
      rewrite E1. simpl_outcome. exists s1. split; [done|]. split; [done|].
      apply set_state_synced; try done. intros u v. by eapply valid_other_ids.
    + exists s. assert (added false (r_as r) d = d) as ->; [|done].
      unfold added. destruct Hst as [?|E]; [done|]. rewrite <- E. apply set_state_same.
Qed.

(** ** Deleting *)

Lemma cnt_cons a u l : cnt a (u :: l) = (if u_as u =? a then 1 else 0) + cnt a l.
Proof. done. Qed.

Lemma cnt_0 a l : cnt a l = 0 -> of_as a l = [] /\ not_as a l = l.
Proof.
  rewrite cnt_length. intros E. assert (of_as a l = []) as E0 by (apply nil_length_inv; lia). split; [done|].
  unfold not_as. apply list_filter_all, Forall_forall. intros u Hu Eu.
  assert (u ∈ of_as a l) as Hin by by rewrite elem_of_of_as. rewrite E0 in Hin. by apply elem_of_nil in Hin.
Qed.

Lemma shift_none a k l : cnt a l = 0 -> shift a k <$> l = l.
Proof.
  induction l as [|u l IH]; [done|]. rewrite cnt_cons, fmap_cons. pose proof (cnt_nonneg a l).
  destruct (Z.eqb_spec (u_as u) a); [lia|]. intros. rewrite IH by lia. by rewrite shift_miss.
Qed.

(** What a deletion takes from [update_count]. *)
Definition drop_uc r (k : Z) : PC_ROA :=
  set_r_update_count r (if roa_count r =? 1 then r_update_count r - k else r_update_count r).
Lemma drop_uc_0 r : drop_uc r 0 = r.
Proof. unfold drop_uc. destruct r as [? ? ? ? ? ?]. cbn. rewrite Z.sub_0_r. by destruct (_ =? 1). Qed.
Lemma drop_uc_add r k k' : drop_uc (drop_uc r k) k' = drop_uc r (k + k').
Proof.
  unfold drop_uc, set_r_update_count. cbn. destruct (roa_count r =? 1); [|done]. f_equal. lia.
Qed.

(** The last match goes: all matching updates move to [other]. *)
Lemma moveToOther_last curr front vsz o st r sup s :
  (forall u, u ∈ curr -> u_as u = r_as r -> roa_match u = 1) ->
  cnt (r_as r) curr <= r_update_count r < 2 ^ 32 ->
  rs_wf s -> (forall u, u ∈ curr -> is_Some (roa_result s (updateID u))) -> st <> SRx_RESULT_DONOTUSE ->
  exists s', moveToOther_loop curr front [] vsz o st r sup s
    = Ok (mkSList (front ++ not_as (r_as r) curr) (vsz - cnt (r_as r) curr),
          mkSList (nodes o ++ (shift (r_as r) (-1) <$> of_as (r_as r) curr)) (size o + cnt (r_as r) curr),
          drop_uc r (cnt (r_as r) curr), s')
    /\ rs_wf s'
    /\ forall k, roa_result s' k = if decide (k ∈ updateID <$> of_as (r_as r) curr)
                                   then Some st else roa_result s k.
Proof.
  intros Hm Hb Hs Hst Hdn. revert front vsz o r s Hm Hb Hs Hst.
  induction curr as [|u curr IH]; intros front vsz o r s Hm Hb Hs Hst; cbn [moveToOther_loop].
  { exists s. cbn. rewrite !app_nil_r, Z.add_0_r, Z.sub_0_r, drop_uc_0. split; [by destruct o|].
    split; [done|]. intros k. by rewrite decide_False by apply not_elem_of_nil. }
  pose proof (cnt_nonneg (r_as r) curr).
  destruct (Z.ltb_spec 0 (r_update_count r)) as [Hpos|Hpos].
  2: { destruct (cnt_0 (r_as r) (u :: curr)) as [E1 E2];
         [pose proof (cnt_nonneg (r_as r) (u :: curr)); lia|].
       rewrite E1, E2. rewrite cnt_length, E1. exists s. cbn [length fmap list_fmap app Z.of_nat].
       rewrite app_nil_r, Z.add_0_r, Z.sub_0_r, drop_uc_0. split; [by destruct o|].
       split; [done|]. intros k. by rewrite decide_False by apply not_elem_of_nil. }
  rewrite cnt_cons in *. revert Hb. destruct (Z.eqb_spec (u_as u) (r_as r)) as [E|E]; intros Hb.
  - rewrite (Hm u) by (by left || done).
    change (roa_match (set_roa_match u (u16 (1 - 1)))) with 0. cbn [Z.eqb].
    change (updateID (set_roa_match u (u16 (1 - 1)))) with (updateID u).
    destruct (rs_notify s (updateID u) st sup Hs) as (s1 & -> & Hs1 & Hr1); [apply Hst; by left|done|].
    simpl_outcome.
    assert ((if roa_count r =? 1 then set_r_update_count r (u32 (r_update_count r - 1)) else r) = drop_uc r 1) as ->.
    { unfold drop_uc. rewrite wrap_small by (unfold in_u; lia). destruct (_ =? 1); [done|by destruct r]. }
    destruct (IH front (vsz - 1) (mkSList (nodes o ++ [set_roa_match u (u16 (1 - 1))]) (size o + 1))
                (drop_uc r 1) s1) as (s2 & E2 & Hs2 & Hr2).
    { intros w Hw. apply Hm. by right. }
    { unfold drop_uc. cbn [r_update_count set_r_update_count r_as]. destruct (roa_count r =? 1); lia. }
    { done. }
    { intros w Hw. rewrite Hr1. destruct (decide _); [done|]. apply Hst. by right. }
    change (r_as (drop_uc r 1)) with (r_as r) in *. cbn [nodes size] in E2.
    exists s2. rewrite E2. split; [|split; [done|]].
    + destruct (parts_hit (r_as r) u curr E) as [-> ->].
      rewrite fmap_cons, shift_hit by done. rewrite (Hm u) by (by left || done).
      rewrite drop_uc_add, <- (assoc_L (++)), Z.add_assoc, Z.sub_add_distr. done.
    + intros k. rewrite Hr2, Hr1. rewrite (proj1 (parts_hit (r_as r) u curr E)), fmap_cons.
      destruct (decide (k ∈ updateID <$> of_as _ curr)), (decide (k = updateID u)),
        (decide (k ∈ updateID u :: (updateID <$> of_as _ curr))) as [Hk|Hk]; try done;
        rewrite elem_of_cons in Hk; tauto.
  - destruct (IH (front ++ [] ++ [u]) vsz o r s) as (s2 & E2 & Hs2 & Hr2); [|lia|done| |].
    { intros w Hw. apply Hm. by right. }
    { intros w Hw. apply Hst. by right. }
    exists s2. rewrite E2. destruct (parts_miss (r_as r) u curr E) as [-> ->]. rewrite Z.add_0_l, <- (assoc_L (++)). done.
Qed.

(** Other matches remain: every update stays where it is. *)
Lemma moveToOther_more curr front skipped vsz o st r sup s :
  (forall u, u ∈ curr -> u_as u = r_as r -> 2 <= roa_match u < 2 ^ 16) ->
  cnt (r_as r) curr <= r_update_count r < 2 ^ 32 ->
  moveToOther_loop curr front skipped vsz o st r sup s
  = Ok (mkSList (front ++ skipped ++ (shift (r_as r) (-1) <$> curr)) vsz, o,
        drop_uc r (cnt (r_as r) curr), s).
Proof.
  revert front skipped r. induction curr as [|u curr IH]; intros front skipped r Hm Hb; cbn [moveToOther_loop].
  { cbn. by rewrite app_nil_r, drop_uc_0. }
  pose proof (cnt_nonneg (r_as r) curr).
  destruct (Z.ltb_spec 0 (r_update_count r)) as [Hpos|Hpos].
  2: { assert (cnt (r_as r) (u :: curr) = 0) as E0 by (pose proof (cnt_nonneg (r_as r) (u :: curr)); lia).
       by rewrite E0, drop_uc_0, shift_none. }
  rewrite cnt_cons in *. revert Hb. destruct (Z.eqb_spec (u_as u) (r_as r)) as [E|E]; intros Hb.
  - assert (2 <= roa_match u < 2 ^ 16) by (apply Hm; [by left|done]).
    rewrite (wrap_small 16) by (unfold in_u; lia).
    assert ((if roa_count r =? 1 then set_r_update_count r (u32 (r_update_count r - 1)) else r) = drop_uc r 1) as ->.
    { unfold drop_uc. rewrite wrap_small by (unfold in_u; lia). destruct (_ =? 1); [done|by destruct r]. }
    cbn [roa_match set_roa_match]. rewrite (proj2 (Z.eqb_neq _ _)) by lia. rewrite IH.
    + change (r_as (drop_uc r 1)) with (r_as r). rewrite drop_uc_add, fmap_cons, shift_hit by done.
      by rewrite <- (assoc_L (++)).
    + intros w Hw. apply Hm. by right.
    + unfold drop_uc. cbn [r_update_count set_r_update_count r_as]. destruct (roa_count r =? 1); lia.
  - rewrite IH; [|intros w Hw; apply Hm; by right|lia].
    by rewrite Z.add_0_l, fmap_cons, shift_miss, <- !(assoc_L (++)) by done.
Qed.

(** The prefix after the deletion, in the new state [st]: [last] says whether the
    matching updates lose their last match. *)
Definition deleted (hit last : bool) a (st : Z) d : PC_Prefix N :=
  if hit then
    if last then
      mkPC_Prefix (roa_coverage d - 1) st
        (mkSList (not_as a (nodes (valid d))) (size (valid d) - cnt a (nodes (valid d))))
        (mkSList (nodes (other d) ++ (shift a (-1) <$> of_as a (nodes (valid d))))
           (size (other d) + cnt a (nodes (valid d)))) (asn d)
    else mkPC_Prefix (roa_coverage d - 1) st
           (mkSList (shift a (-1) <$> nodes (valid d)) (size (valid d))) (other d) (asn d)
  else set_state d st.

Lemma moveToOther_eq d m r sup s :
  rs_wf s -> synced s d -> state_ok (state_of_other d) -> 1 <= m < 2 ^ 16 ->
  (forall u, u ∈ nodes (valid d) -> u_as u = r_as r -> roa_match u = m) ->
  cnt (r_as r) (nodes (valid d)) <= r_update_count r < 2 ^ 32 ->
  exists s', _delROAwl_moveToOther d r sup s
    = Ok (set_coverage (deleted true (m =? 1) (r_as r) (state_of_other d) d) (roa_coverage d),
          drop_uc r (cnt (r_as r) (nodes (valid d))), s')
    /\ rs_wf s'
    /\ forall k, roa_result s' k = if decide (m = 1 /\ k ∈ updateID <$> of_as (r_as r) (nodes (valid d)))
                                   then Some (state_of_other d) else roa_result s k.
Proof.
  intros Hs Hsync Hst Hm Hall Hb. unfold _delROAwl_moveToOther. destruct (Z.eqb_spec m 1) as [->|Hne].
  - destruct (moveToOther_last (nodes (valid d)) [] (size (valid d)) (other d) (state_of_other d) r sup s)
      as (s' & -> & Hs' & Hr); try done.
    { intros u Hu. eapply synced_stored; [done|]. apply elem_of_app. by left. }
    { by apply state_ok_donotuse. }
    simpl_outcome. exists s'. split; [done|]. split; [done|]. intros k. rewrite Hr.
    destruct (decide (k ∈ _)) as [Hk|Hk]; [by rewrite decide_True|]. by rewrite decide_False by (by intros [_ ?]).
  - rewrite moveToOther_more; [|intros u Hu Ha; rewrite (Hall u Hu Ha); lia|done]. simpl_outcome.
    exists s. split; [done|]. split; [done|]. intros k. by rewrite decide_False by (by intros [? _]).
Qed.

Lemma only_of_trans l s1 s2 s3 : only_of l s1 s2 -> only_of l s2 s3 -> only_of l s1 s3.
Proof. intros H1' H2' k Hk. by rewrite H2', H1'. Qed.

(** Moving the updates without a match keeps the results in step. *)
Lemma delete_hit_synced d a (m : Z) s s' :
  synced s d -> ids_as d ->
  (forall k, roa_result s' k = if decide (m = 1 /\ k ∈ updateID <$> of_as a (nodes (valid d)))
                               then Some (state_of_other d) else roa_result s k) ->
  synced s' (deleted true (m =? 1) a (state_of_other d) d) /\ only_of (updates_at d) s s'.
Proof.
  intros [Hv Ho] Hids Hr.
  assert (only_of (updates_at d) s s') as Honly.
  { intros k Hk. rewrite Hr, decide_False; [done|]. intros [_ (u & Hu & Eu)%elem_of_ids].
    apply Hk, elem_of_ids. exists u. split; [|done]. apply elem_of_of_as in Hu as [_ Hu].
    apply elem_of_app. by left. }
  split; [|done]. unfold deleted. destruct (Z.eqb_spec m 1) as [Em|Em]; split; cbn [valid other nodes state_of_other].
  - intros u [Ha Hu]%elem_of_not_as. rewrite Hr, decide_False; [by apply Hv|].
    intros [_ (w & [Hw1 Hw2]%elem_of_of_as & Ew)%elem_of_ids]. apply Ha. rewrite <- Hw1.
    apply Hids; [apply elem_of_app; by left..|done].
  - intros u Hu. rewrite Hr. destruct (decide (m = 1 /\ _)) as [|Hn]; [done|].
    apply elem_of_app in Hu as [Hu|(w & -> & Hw)%list_elem_of_fmap]; [by apply Ho|].
    destruct Hn. split; [done|]. rewrite (proj1 (shift_fields _ _ _)). apply elem_of_ids. by exists w.
  - intros u (w & -> & Hw)%list_elem_of_fmap. rewrite (proj1 (shift_fields _ _ _)), Hr, decide_False by tauto.
    by apply Hv.
  - intros u Hu. rewrite Hr, decide_False by tauto. by apply Ho.
Qed.

(** The step: the state becomes "not found" if no white-list entry is left. *)
Lemma validate_step_eq t n d r s sup len x m :
  step_pre t n d r s len -> state_ok x ->
  0 <= roa_coverage d < 2 ^ 32 -> 1 <= m < 2 ^ 16 ->
  let hit := len <=? max_len r in
  (hit = true -> 1 <= roa_coverage d) ->
  (forall u, u ∈ nodes (valid d) -> hit = true -> u_as u = r_as r -> roa_match u = m) ->
  (if hit then cnt (r_as r) (nodes (valid d)) else 0) <= r_update_count r < 2 ^ 32 ->
  let cov := if hit then roa_coverage d - 1 else roa_coverage d in
  let gone := (x =? SRx_RESULT_NOTFOUND) && (cov =? 0) in
  let st := if gone then SRx_RESULT_NOTFOUND else state_of_other d in
  exists s', validateUpdates_step t sup x n d (r, s)
    = Ok (deleted hit (m =? 1) (r_as r) st d,
          (drop_uc r (if hit then cnt (r_as r) (nodes (valid d)) else 0), s'),
          if hit || gone then Some st else None)
    /\ rs_wf s' /\ synced s' (deleted hit (m =? 1) (r_as r) st d) /\ only_of (updates_at d) s s'.
Proof.
  intros [Hlen Hs Hsync Hids Hst Hc] Hx Hcov Hm hit Hcov1 Hall Hb cov gone st.
  unfold validateUpdates_step. rewrite Hlen. simpl_outcome. fold hit. destruct hit; cbn [orb].
  - specialize (Hcov1 eq_refl). rewrite wrap_small by (unfold in_u; lia).
    cbn [roa_coverage set_coverage]. fold cov. fold gone.
    set (d2 := set_state (set_coverage d cov) st).
    assert (exists s1, (if gone then _ROAwl_changeStateOfOther (set_coverage d cov) SRx_RESULT_NOTFOUND sup s
                        else Ok (set_coverage d cov, s)) = Ok (d2, s1)
              /\ rs_wf s1 /\ synced s1 d2 /\ only_of (updates_at d) s s1) as (s1 & -> & Hs1 & Hsync1 & Ho1).
    { subst d2 st. destruct gone.
      - destruct (changeStateOfOther_eq (set_coverage d cov) SRx_RESULT_NOTFOUND sup s Hs Hsync)
          as (s1 & E1 & Hs1 & Hr1); [by left|]. exists s1. split; [done|]. split; [done|].
        apply (set_state_synced (set_coverage d cov) s s1 SRx_RESULT_NOTFOUND); try done.
        intros u v. by eapply (valid_other_ids s d).
      - exists s. by destruct d. }
    simpl_outcome.
    assert (state_ok st) as Hst2 by (subst st; destruct gone; [by left|done]).
    destruct (moveToOther_eq d2 m r sup s1) as (s2 & -> & Hs2 & Hr2); try done.
    { intros u Hu. by apply Hall. }
    simpl_outcome. exists s2.
    assert (set_coverage (deleted true (m =? 1) (r_as r) (state_of_other d2) d2) (roa_coverage d2)
            = deleted true (m =? 1) (r_as r) st d) as -> by (unfold deleted; by destruct (m =? 1)).
    split; [by unfold deleted; destruct (m =? 1)|]. split; [done|].
    destruct (delete_hit_synced d2 (r_as r) m s1 s2 Hsync1 Hids Hr2) as [H1' H2'].
    split; [|by eapply only_of_trans]. unfold deleted in *. by destruct (m =? 1).
  - rewrite (andb_comm (roa_coverage d =? 0)). fold cov. fold gone. rewrite drop_uc_0.
    unfold deleted. subst st. destruct gone.
    + destruct (changeStateOfOther_eq d SRx_RESULT_NOTFOUND sup s Hs Hsync) as (s1 & E1 & Hs1 & Hr1); [by left|].
      rewrite E1. simpl_outcome. exists s1. split; [done|]. split; [done|].
      apply set_state_synced; try done. intros u v. by eapply valid_other_ids.
    + exists s. rewrite set_state_same. done.
Qed.
End steps.
End PrefixSteps.
