(* ===== verification/PrefixInv.v ===== *)
(** * The invariant of the prefix cache (server/prefix_cache.c)

    The counters of the cache are sums over the white-list entries of the
    prefixes above; the invariant says so for every prefix and update, and that
    the stored results are those the counters imply. *)
From S2P Require Import Prelude Lists SrxDefs Patricia SList PrefixCache PrefixTree PrefixSteps.

Module PrefixInv.
Import PrefixCache PrefixTree PrefixSteps.

(** Selections of white-list entries by their maximum length, AS and validation cache. *)
Definition sel : Type := Z -> Z -> Z -> bool.
Definition covers (len : Z) : sel := fun m _ _ => len <=? m.
Definition matching (len a : Z) : sel := fun m a' _ => (len <=? m) && (a' =? a).
Definition all_roas : sel := fun _ _ _ => true.
Definition klen (k : list bool) : Z := Z.of_nat (length k).

Section inv.
Context {T N S : Type} `{Countable N} `{PatriciaLaws T N} `{RoaSinkLaws S}.
Implicit Types (t : T) (n m q : N) (s : S) (d : PC_Prefix N) (r : PC_ROA) (u : PC_Update N) (a : Z)
  (k : list bool) (D : gmap N (PC_Prefix N)) (self : PrefixCache T N).

(** ** Entries above a prefix *)
Definition roas_at d : list PC_ROA := nodes (asn d) ≫= (fun x => nodes (roas x)).
Definition own d (f : sel) : Z :=
  zsum (fun r => if f (max_len r) (r_as r) (valCacheID r) then roa_count r else 0) (roas_at d).
Definition rsum t D k (f : sel) : Z :=
  map_zsum (fun q d => if decide (key t q `prefix_of` k) then own d f else 0) D.
Definition rabove t D k (f : sel) : Z :=
  map_zsum (fun q d => if decide (strict_prefix (key t q) k) then own d f else 0) D.
(** The updates at and below [k] that an entry matches. *)
Definition usum t D k (maxLen a : Z) : Z :=
  map_zsum (fun n d => if decide (k `prefix_of` key t n /\ klen (key t n) <= maxLen)
                       then cnt a (updates_at d) else 0) D.
Definition total_updates D : Z := map_zsum (fun _ d => Z.of_nat (length (updates_at d))) D.

(** ** One prefix *)
Definition roa_id r : Z * Z := (valCacheID r, max_len r).
Definition roa_wf (len a : Z) r : Prop :=
  r_as r = a /\ 1 <= roa_count r < 2 ^ 16 /\ len <= max_len r /\ 0 <= r_update_count r < 2 ^ 32.
Record as_wf (len : Z) (l : list (PC_Update N)) (x : PC_AS) : Prop := {
  aw_list : sl_ok (roas x);
  aw_nodup : NoDup (roa_id <$> nodes (roas x));
  aw_count : a_update_count x = cnt (pasn x) l;
  aw_roa r : r ∈ nodes (roas x) -> roa_wf len (pasn x) r
}.
Record prefix_wf t n d : Prop := {
  pw_lists : sl_ok (valid d) /\ sl_ok (other d) /\ sl_ok (asn d);
  pw_asn : NoDup (pasn <$> nodes (asn d));
  pw_as (x : PC_AS) : x ∈ nodes (asn d) -> as_wf (klen (key t n)) (updates_at d) x;
  pw_upd u : u ∈ updates_at d -> u_treeNode u = n /\ u_as u ∈ pasn <$> nodes (asn d)
}.

(** The counters of a prefix are those of the entries [R]. *)
Record agrees (R : list bool -> sel -> Z) t n d : Prop := {
  ag_cov : roa_coverage d = R (key t n) (covers (klen (key t n)));
  ag_state : state_of_other d
             = if 0 <? R (key t n) all_roas then SRx_RESULT_INVALID else SRx_RESULT_NOTFOUND;
  ag_valid u : u ∈ nodes (valid d) ->
    roa_match u = R (key t n) (matching (klen (key t n)) (u_as u)) /\ 0 < roa_match u;
  ag_other u : u ∈ nodes (other d) ->
    roa_match u = 0 /\ R (key t n) (matching (klen (key t n)) (u_as u)) = 0
}.

Definition ids_unique D : Prop :=
  forall n n' d d' u u', D !! n = Some d -> D !! n' = Some d' -> u ∈ updates_at d ->
    u' ∈ updates_at d' -> updateID u = updateID u' -> n = n' /\ u_as u = u_as u'.
Definition nodes_ok t D : Prop :=
  forall n, is_Some (D !! n) -> exists p, node_prefix t n = Some p /\ prefix_ok p.

Record pc_inv self s : Prop := {
  pi_tree : pt_wf (prefixTree self);
  pi_nodes : nodes_ok (prefixTree self) (node_data self);
  pi_wf n d : node_data self !! n = Some d -> prefix_wf (prefixTree self) n d;
  pi_agrees n d : node_data self !! n = Some d ->
    agrees (rsum (prefixTree self) (node_data self)) (prefixTree self) n d;
  pi_small k a :
    rsum (prefixTree self) (node_data self) k (covers (klen k)) < 2 ^ 32
    /\ rsum (prefixTree self) (node_data self) k (matching (klen k) a) < 2 ^ 16;
  pi_uc q d r : node_data self !! q = Some d -> r ∈ roas_at d ->
    usum (prefixTree self) (node_data self) (key (prefixTree self) q) (max_len r) (r_as r)
    <= r_update_count r;
  pi_sink : rs_wf s;
  pi_synced n d : node_data self !! n = Some d -> synced s d;
  pi_ids : ids_unique (node_data self)
}.

(** Room for one more white-list entry or update. *)
Definition room self : Prop :=
  (forall k a, rsum (prefixTree self) (node_data self) k (covers (klen k)) < 2 ^ 32 - 1
          /\ rsum (prefixTree self) (node_data self) k (matching (klen k) a) < 2 ^ 16 - 1)
  /\ (forall q d r, node_data self !! q = Some d -> r ∈ roas_at d ->
       roa_count r < 2 ^ 16 - 1
       /\ r_update_count r + total_updates (node_data self) < 2 ^ 32 - 1)
  /\ total_updates (node_data self) < 2 ^ 32 - 1.

(** ** Measures of entries *)
Record measure (R : list bool -> sel -> Z) : Prop := {
  ms_nonneg k f : 0 <= R k f;
  ms_key k k' f : k `prefix_of` k' -> R k f <= R k' f;
  ms_sel k f g : (forall x a c, f x a c = true -> g x a c = true) -> R k f <= R k g
}.

Lemma elem_of_roas_at d r : r ∈ roas_at d <-> exists x, x ∈ nodes (asn d) /\ r ∈ nodes (roas x).
Proof. unfold roas_at. rewrite list_elem_of_bind. naive_solver. Qed.

Lemma pw_roas_at t n d r : prefix_wf t n d -> r ∈ roas_at d ->
  1 <= roa_count r < 2 ^ 16 /\ klen (key t n) <= max_len r /\ 0 <= r_update_count r < 2 ^ 32.
Proof.
  intros Hw (x & Hx & Hr)%elem_of_roas_at. by destruct (aw_roa _ _ _ (pw_as _ _ _ Hw x Hx) r Hr) as (_ & ? & ? & ?).
Qed.

Definition counts_ok D : Prop := forall n d r, D !! n = Some d -> r ∈ roas_at d -> 1 <= roa_count r.

Lemma own_nonneg d f : (forall r, r ∈ roas_at d -> 1 <= roa_count r) -> 0 <= own d f.
Proof. intros Hc. apply zsum_nonneg. intros r Hr%Hc. destruct (f _ _ _); lia. Qed.

Lemma own_le d f g : (forall r, r ∈ roas_at d -> 1 <= roa_count r) ->
  (forall x a c, f x a c = true -> g x a c = true) -> own d f <= own d g.
Proof.
  intros Hc Hfg. apply zsum_le. intros r Hr%Hc.
  destruct (f (max_len r) (r_as r) (valCacheID r)) eqn:E; [by rewrite (Hfg _ _ _ E)|destruct (g _ _ _); lia].
Qed.

Lemma rsum_measure t D : counts_ok D -> measure (rsum t D).
Proof.
  intros Hc. split.
  - intros k f. apply map_zsum_nonneg. intros n d Hn. case_decide; [|lia].
    apply own_nonneg. intros r. by apply Hc with n.
  - intros k k' f Hk. apply map_zsum_le. intros n d Hn.
    assert (0 <= own d f) by (apply own_nonneg; intros r; by apply Hc with n).
    destruct (decide (key t n `prefix_of` k)) as [Hp|], (decide (key t n `prefix_of` k')) as [|Hp']; try lia.
    exfalso. apply Hp'. by etrans.
  - intros k f g Hfg. apply map_zsum_le. intros n d Hn. case_decide; [|lia].
    apply own_le; [|done]. intros r. by apply Hc with n.
Qed.

Lemma pi_counts t D : (forall n d, D !! n = Some d -> prefix_wf t n d) -> counts_ok D.
Proof. intros Hw n d r Hn Hr. by destruct (pw_roas_at t n d r (Hw n d Hn) Hr) as [[? _] _]. Qed.

(** Updating the entries of one prefix. *)
Lemma rsum_update t D n d d' k f : D !! n = Some d ->
  rsum t (<[n := d']> D) k f
  = rsum t D k f + (if decide (key t n `prefix_of` k) then own d' f - own d f else 0).
Proof. intros Hn. unfold rsum. rewrite (map_zsum_update _ _ _ _ _ Hn). case_decide; lia. Qed.

Lemma rsum_insert t D n d' k f : D !! n = None ->
  rsum t (<[n := d']> D) k f
  = rsum t D k f + (if decide (key t n `prefix_of` k) then own d' f else 0).
Proof. intros Hn. unfold rsum. rewrite (map_zsum_insert _ _ _ _ Hn). case_decide; lia. Qed.

Lemma rsum_delete t D n d k f : D !! n = Some d ->
  rsum t (delete n D) k f
  = rsum t D k f - (if decide (key t n `prefix_of` k) then own d f else 0).
Proof. intros Hn. unfold rsum. rewrite (map_zsum_delete _ _ _ _ Hn). case_decide; lia. Qed.

(** The entries of a prefix split into its own and those above. *)
Lemma rsum_split t D n d f : pt_wf t -> data_ok t D -> D !! n = Some d ->
  rsum t D (key t n) f = own d f + rabove t D (key t n) f.
Proof.
  intros Hw HD Hn. unfold rsum, rabove.
  rewrite <- (insert_delete_id D n d Hn), !map_zsum_insert by apply lookup_delete_eq.
  rewrite decide_True by done. rewrite decide_False by (by intros [_ ?]). rewrite Z.add_0_l. f_equal.
  apply map_zsum_ext. intros q d' Hq. apply lookup_delete_Some in Hq as [Hne Hq].
  assert (key t q <> key t n) as Hk.
  { intros E. apply Hne. symmetry. eapply key_inj; eauto. }
  destruct (decide (key t q `prefix_of` key t n)), (decide (strict_prefix (key t q) (key t n))) as [Hs|Hs];
    try done; [exfalso; by apply Hs|exfalso; by destruct Hs].
Qed.

(** Above a node there are the entries of its parent. *)
Lemma rabove_parent t D n (o : option N) f : pt_wf t -> data_ok t D -> parent_of t D n o ->
  rabove t D (key t n) f = match o with Some p => rsum t D (key t p) f | None => 0 end.
Proof.
  intros Hw HD Hr. destruct o as [p|].
  - destruct Hr as (Hp & Hpn & Hmax). apply map_zsum_ext. intros q d Hq.
    destruct (decide (strict_prefix (key t q) (key t n))) as [Hs|Hs],
      (decide (key t q `prefix_of` key t p)) as [Hk|Hk]; try done.
    + exfalso. apply Hk, Hmax; eauto.
    + exfalso. apply Hs. by eapply strict_prefix_trans.
  - rewrite <- (map_zsum_0 D). apply map_zsum_ext. intros q d Hq. rewrite decide_False; [done|]. apply Hr. by exists d.
Qed.

Lemma rabove_child t D n c f : pt_wf t -> data_ok t D -> is_Some (D !! n) -> child_of t D n c ->
  rabove t D (key t c) f = rsum t D (key t n) f.
Proof.
  intros Hw HD Hn Hc. apply child_key in Hc as (Hc & Hnc & Hno); [|done|done|by apply HD].
  apply (rabove_parent t D c (Some n) f Hw HD). split; [done|]. split; [done|].
  intros m Hm Hmc. destruct (prefix_comparable (key t m) (key t n) (key t c)) as [?|Hnm];
    [apply Hmc|apply Hnc|done|].
  destruct (prefix_cases _ _ Hnm) as [->|Hs]; [done|]. exfalso. by apply (Hno m).
Qed.
End inv.
End PrefixInv.
