(* ===== verification/PrefixEntries.v ===== *)
(** * The white-list entries of one prefix (server/prefix_cache.c)

    Finding, adding, counting and removing entries in the lists of a prefix, and
    what that does to the sums. *)
From S2P Require Import Prelude Lists SrxDefs Patricia SList PrefixCache PrefixTree PrefixSteps PrefixInv.

Module PrefixEntries.
Import PrefixCache PrefixTree PrefixSteps PrefixInv.

Section entries.
Context {T N S : Type} `{Countable N} `{PatriciaLaws T N} `{RoaSinkLaws S}.
Implicit Types (t : T) (n : N) (s : S) (d : PC_Prefix N) (r : PC_ROA) (u : PC_Update N) (a : Z)
  (k : list bool) (D : gmap N (PC_Prefix N)) (x : PC_AS) (f : sel).

Definition weight f r : Z := if f (max_len r) (r_as r) (valCacheID r) then roa_count r else 0.
Definition as_sum f x : Z := zsum (weight f) (nodes (roas x)).

Lemma own_as d f : own d f = zsum (as_sum f) (nodes (asn d)).
Proof. unfold own, roas_at. by rewrite zsum_bind. Qed.

Lemma set_asn_updates d l : updates_at (set_asn d l) = updates_at d.
Proof. done. Qed.

(** ** Searching *)
Lemma find_as_Some l a i x : find_as l a = Some (i, x) -> nodes l !! i = Some x /\ pasn x = a.
Proof. intros (E & Ex & _)%list_find_Some. done. Qed.
Lemma find_as_None l a : find_as l a = None -> a ∉ pasn <$> nodes l.
Proof.
  intros E%list_find_None (x & -> & Hx)%list_elem_of_fmap. eapply Forall_forall in E; [|exact Hx]. done.
Qed.
Lemma find_roa_Some l c m j r : find_roa l c m = Some (j, r) ->
  nodes l !! j = Some r /\ valCacheID r = c /\ max_len r = m.
Proof. intros (E & [? ?] & _)%list_find_Some. done. Qed.
Lemma find_roa_None l c m : find_roa l c m = None -> (c, m) ∉ roa_id <$> nodes l.
Proof.
  intros E%list_find_None (r & Er & Hr)%list_elem_of_fmap. eapply Forall_forall in E; [|exact Hr].
  unfold roa_id in Er. simplify_eq. naive_solver.
Qed.

(** ** Replacing an AS *)
Lemma own_set_as d i x x' f : nodes (asn d) !! i = Some x ->
  own (set_asn d (setAtSList (asn d) i x')) f = own d f - as_sum f x + as_sum f x'.
Proof. intros E. rewrite !own_as. cbn [asn set_asn setAtSList nodes]. by rewrite (zsum_insert _ _ _ _ _ E). Qed.

Lemma wf_set_as t n d i x x' : prefix_wf t n d -> nodes (asn d) !! i = Some x -> pasn x' = pasn x ->
  as_wf (klen (key t n)) (updates_at d) x' -> prefix_wf t n (set_asn d (setAtSList (asn d) i x')).
Proof.
  intros [(Hv & Ho & Ha) Hnd Has Hu] E Ep Hx'.
  assert (pasn <$> nodes (setAtSList (asn d) i x') = pasn <$> nodes (asn d)) as Ef.
  { cbn [setAtSList nodes]. rewrite list_fmap_insert, Ep. apply list_insert_id.
    by rewrite list_lookup_fmap, E. }
  split; cbn [asn set_asn valid other].
  - split; [done|]. split; [done|]. by apply set_sl_ok.
  - by rewrite Ef.
  - intros y Hy. rewrite set_asn_updates. cbn [setAtSList nodes] in Hy.
    apply list_elem_of_lookup in Hy as [k Hk]. apply list_lookup_insert_Some in Hk as [(-> & <- & _)|[_ Hk]];
      [done|]. apply Has. by eapply list_elem_of_lookup_2.
  - intros u Hin. rewrite set_asn_updates in Hin. rewrite Ef. by apply Hu.
Qed.

Lemma roas_at_set_as d i x x' r : nodes (asn d) !! i = Some x ->
  r ∈ roas_at (set_asn d (setAtSList (asn d) i x')) -> r ∈ roas_at d \/ r ∈ nodes (roas x').
Proof.
  intros E (y & Hy & Hr)%elem_of_roas_at. cbn [asn set_asn setAtSList nodes] in Hy.
  apply list_elem_of_lookup in Hy as [k Hk]. apply list_lookup_insert_Some in Hk as [(-> & <- & _)|[_ Hk]];
    [by right|]. left. apply elem_of_roas_at. exists y. split; [by eapply list_elem_of_lookup_2|done].
Qed.

(** ** Appending an AS without entries *)
Lemma wf_append_as t n d a l : prefix_wf t n d -> a ∉ pasn <$> nodes (asn d) ->
  l = mkSList (nodes (asn d) ++ [mkPC_AS a initSList 0]) (size (asn d) + 1) ->
  prefix_wf t n (set_asn d l).
Proof.
  intros [(Hv & Ho & Ha) Hnd Has Hu] Hnew ->. split; cbn [asn set_asn valid other nodes].
  - split; [done|]. split; [done|]. by apply append_sl_ok.
  - rewrite fmap_app. apply NoDup_app. split; [done|]. split; [|apply NoDup_singleton].
    intros y Hy ->%list_elem_of_singleton. done.
  - intros y [Hy| ->%list_elem_of_singleton]%elem_of_app; [by apply Has|].
    split; cbn [roas pasn a_update_count initSList nodes].
    + done.
    + constructor.
    + rewrite set_asn_updates, cnt_length. destruct (of_as a (updates_at d)) as [|u l] eqn:E; [done|].
      exfalso. assert (u ∈ of_as a (updates_at d)) as [Eu Hin]%elem_of_of_as by (rewrite E; by left).
      apply Hnew. rewrite <- Eu. by apply Hu.
    + intros r Hr. by apply elem_of_nil in Hr.
  - intros u Hin. rewrite set_asn_updates in Hin. destruct (Hu u Hin) as [? ?]. split; [done|].
    rewrite fmap_app. apply elem_of_app. by left.
Qed.

Lemma own_append_as d a l f : l = mkSList (nodes (asn d) ++ [mkPC_AS a initSList 0]) (size (asn d) + 1) ->
  own (set_asn d l) f = own d f.
Proof. intros ->. rewrite !own_as. cbn [asn set_asn nodes]. rewrite zsum_app. cbn. lia. Qed.

Lemma roas_at_append_as d a l r : l = mkSList (nodes (asn d) ++ [mkPC_AS a initSList 0]) (size (asn d) + 1) ->
  r ∈ roas_at (set_asn d l) -> r ∈ roas_at d.
Proof.
  intros -> (y & Hy & Hr)%elem_of_roas_at. cbn [asn set_asn nodes] in Hy.
  apply elem_of_app in Hy as [Hy| ->%list_elem_of_singleton]; [|by apply elem_of_nil in Hr].
  apply elem_of_roas_at. by exists y.
Qed.

(** ** The AS and the entry of [addROAwl] *)
Lemma addROAwl_as_eq t n d a : prefix_wf t n d ->
  exists d' i x, addROAwl_as d a = Ok (d', i, x) /\ nodes (asn d') !! i = Some x /\ pasn x = a
    /\ prefix_wf t n d' /\ (forall f, own d' f = own d f) /\ (exists l, d' = set_asn d l)
    /\ (forall r, r ∈ roas_at d' -> r ∈ roas_at d).
Proof.
  intros Hw. unfold addROAwl_as. destruct (find_as (asn d) a) as [[i x]|] eqn:E.
  - apply find_as_Some in E as [E Ex]. exists d, i, x. split; [done|]. split; [done|]. split; [done|].
    split; [done|]. split; [done|]. split; [|done]. exists (asn d). by destruct d.
  - apply find_as_None in E. destruct (pw_lists _ _ _ Hw) as (_ & _ & Ha).
    rewrite append_ok by done. simpl_outcome. eexists _, _, _. split; [done|].
    split; [apply lookup_middle|]. split; [done|].
    split; [by eapply wf_append_as|]. split; [intros f; by eapply own_append_as|].
    split; [by eexists|]. intros r. by eapply roas_at_append_as.
Qed.

Lemma wf_same_count t n d i x x' :
  prefix_wf t n d -> nodes (asn d) !! i = Some x -> pasn x' = pasn x ->
  a_update_count x' = a_update_count x ->
  sl_ok (roas x') -> NoDup (roa_id <$> nodes (roas x')) ->
  (forall r, r ∈ nodes (roas x') -> roa_wf (klen (key t n)) (pasn x) r) ->
  prefix_wf t n (set_asn d (setAtSList (asn d) i x')).
Proof.
  intros Hw E Ep Ec Hl Hnd Hr. eapply wf_set_as; [done..|].
  pose proof (pw_as _ _ _ Hw x ltac:(by eapply list_elem_of_lookup_2)) as Hx.
  split; [done|done| |].
  - by rewrite Ec, Ep, (aw_count _ _ _ Hx).
  - intros r Hin. rewrite Ep. by apply Hr.
Qed.

(** Replacing an entry by one with the same identity. *)
Lemma put_roa_wf t n d i x j r r' :
  prefix_wf t n d -> nodes (asn d) !! i = Some x -> nodes (roas x) !! j = Some r ->
  roa_id r' = roa_id r -> roa_wf (klen (key t n)) (pasn x) r' ->
  let d' := set_asn d (setAtSList (asn d) i (set_roas x (setAtSList (roas x) j r'))) in
  prefix_wf t n d'
  /\ (forall f, own d' f = own d f - weight f r + weight f r')
  /\ (forall y, y ∈ roas_at d' -> y = r' \/ y ∈ roas_at d).
Proof.
  intros Hw E Ej Eid Hr' d'.
  pose proof (pw_as _ _ _ Hw x ltac:(by eapply list_elem_of_lookup_2)) as [Hl Hnd Hc Hroa].
  split; [|split].
  - eapply wf_same_count; try done; cbn [roas set_roas].
    + by apply set_sl_ok.
    + cbn [setAtSList nodes]. rewrite list_fmap_insert, Eid, list_insert_id; [done|].
      by rewrite list_lookup_fmap, Ej.
    + intros y Hy. cbn [setAtSList nodes] in Hy. apply list_elem_of_lookup in Hy as [k Hk].
      apply list_lookup_insert_Some in Hk as [(-> & <- & _)|[_ Hk]]; [done|].
      apply Hroa. by eapply list_elem_of_lookup_2.
  - intros f. unfold d'. rewrite (own_set_as d i x _ f E). unfold as_sum.
    cbn [roas set_roas setAtSList nodes]. rewrite (zsum_insert _ _ _ _ _ Ej). lia.
  - intros y Hy. destruct (roas_at_set_as d i x _ y E Hy) as [?|Hy2]; [by right|].
    cbn [roas set_roas setAtSList nodes] in Hy2. apply list_elem_of_lookup in Hy2 as [k Hk].
    apply list_lookup_insert_Some in Hk as [(-> & <- & _)|[_ Hk]]; [by left|]. right.
    apply elem_of_roas_at. exists x. split; by eapply list_elem_of_lookup_2.
Qed.

Lemma addROAwl_roa_eq t n d i x a maxLen cache :
  prefix_wf t n d -> nodes (asn d) !! i = Some x -> pasn x = a -> klen (key t n) <= maxLen ->
  (forall r, r ∈ roas_at d -> roa_count r < 2 ^ 16 - 1) ->
  exists x' j r, addROAwl_roa x a maxLen cache = Ok (x', j, r)
    /\ nodes (roas x') !! j = Some r /\ r_as r = a /\ max_len r = maxLen /\ valCacheID r = cache
    /\ pasn x' = a /\ roa_wf (klen (key t n)) a r
    /\ (r_update_count r = 0 \/ exists r0, r0 ∈ roas_at d /\ r_update_count r = r_update_count r0)
    /\ let d' := set_asn d (setAtSList (asn d) i x') in
       prefix_wf t n d' /\ nodes (asn d') !! i = Some x'
       /\ (forall f, own d' f = own d f + if f maxLen a cache then 1 else 0)
       /\ (forall y, y ∈ roas_at d' -> y = r \/ y ∈ roas_at d).
Proof.
  intros Hw E Ex Hlen Hroom. unfold addROAwl_roa.
  pose proof (pw_as _ _ _ Hw x ltac:(by eapply list_elem_of_lookup_2)) as [Hl Hnd Hc Hroa].
  assert (i < length (nodes (asn d)))%nat as Hi by by eapply lookup_lt_Some.
  destruct (find_roa (roas x) cache maxLen) as [[j r]|] eqn:F.
  - apply find_roa_Some in F as (Ej & Ec & Em).
    assert (r ∈ roas_at d) as Hin.
    { apply elem_of_roas_at. exists x. split; by eapply list_elem_of_lookup_2. }
    pose proof (Hroom r Hin). destruct (Hroa r) as (Er & Hcnt & Hml & Huc); [by eapply list_elem_of_lookup_2|].
    rewrite wrap_small by (unfold in_u; lia). set (r' := set_roa_count r (roa_count r + 1)).
    destruct (put_roa_wf t n d i x j r r') as (H1' & H2' & H3'); try done.
    { rewrite Ex in Er |- *. split; [done|]. split; [simpl; lia|]. split; [done|]. done. }
    eexists _, _, _. split; [done|]. split.
    { cbn [roas set_roas setAtSList nodes]. rewrite list_lookup_insert_eq; [done|by eapply lookup_lt_Some]. }
    split; [by rewrite <- Ex|]. split; [done|]. split; [done|]. split; [done|].
    split; [split; [by rewrite <- Ex|]; split; [simpl; lia|]; done|].
    split; [right; by exists r|]. cbv zeta. split; [done|].
    split; [cbn [asn set_asn setAtSList nodes]; by rewrite list_lookup_insert_eq|].
    split; [|done]. intros f. rewrite H2'. unfold weight, r'. cbn.
    rewrite Em, Er, Ex, Ec. destruct (f maxLen a cache); lia.
  - apply find_roa_None in F. rewrite append_ok by done. simpl_outcome.
    set (r := mkPC_ROA a maxLen 1 0 cache 0).
    assert (roa_wf (klen (key t n)) a r) as Hr by (split; [done|]; split; [simpl; lia|]; split; [done|simpl; lia]).
    eexists _, _, _. split; [done|]. split; [apply lookup_middle|]. split; [done|]. split; [done|].
    split; [done|]. split; [done|]. split; [done|]. split; [by left|]. cbv zeta.
    split; [|split; [cbn [asn set_asn setAtSList nodes]; by rewrite list_lookup_insert_eq|split]].
    + eapply wf_same_count; try done; cbn [roas set_roas nodes].
      * by apply append_sl_ok.
      * rewrite fmap_app. apply NoDup_app. split; [done|]. split; [|apply NoDup_singleton].
        intros y Hy ->%list_elem_of_singleton. done.
      * intros y [Hy| ->%list_elem_of_singleton]%elem_of_app; [by apply Hroa|]. by rewrite Ex.
    + intros f. rewrite (own_set_as d i x _ f E). unfold as_sum. cbn [roas set_roas nodes].
      rewrite zsum_app. unfold zsum at 3. cbn [foldr]. unfold weight at 3. cbn [max_len r_as r roa_count valCacheID].
      destruct (f maxLen a cache); lia.
    + intros y Hy. destruct (roas_at_set_as d i x _ y E Hy) as [?|Hy2]; [by right|].
      cbn [roas set_roas nodes] in Hy2. apply elem_of_app in Hy2 as [Hy2| ->%list_elem_of_singleton]; [|by left].
      right. apply elem_of_roas_at. exists x. split; [by eapply list_elem_of_lookup_2|done].
Qed.
End entries.
End PrefixEntries.
