(* ===== verification/PrefixWalks.v ===== *)
(** * Adding and deleting white-list entries below a prefix (server/prefix_cache.c)

    The walks of [_addROAwl_verifyUpdates] and [_delROAwl_validateUpdates] reach
    every prefix at and below the entry whose counters or state change. *)
From S2P Require Import Prelude Lists SrxDefs Patricia SList PrefixCache PrefixTree PrefixSteps PrefixInv.

Module PrefixWalks.
Import PrefixCache PrefixTree PrefixSteps PrefixInv.

Section walks.
Context {T N S : Type} `{Countable N} `{PatriciaLaws T N} `{RoaSinkLaws S}.
Implicit Types (t : T) (n m q : N) (s : S) (d : PC_Prefix N) (r : PC_ROA) (u : PC_Update N) (a : Z)
  (k : list bool) (D : gmap N (PC_Prefix N)) (l : list (PC_Update N)).

(** ** What stays of the updates when they move *)
Definition tag u : Z * Z * N := (updateID u, u_as u, u_treeNode u).
Definition frame d : list (Z * Z * N) := tag <$> updates_at d.

Lemma tag_shift a (k : Z) l : tag <$> (shift a k <$> l) = tag <$> l.
Proof.
  rewrite <- list_fmap_compose. apply list_fmap_ext. intros _ u _. unfold tag. simpl.
  by destruct (shift_fields a k u) as (-> & -> & -> & _).
Qed.

Lemma parts_Permutation a l : of_as a l ++ not_as a l ≡ₚ l.
Proof.
  induction l as [|u l IH]; [done|]. destruct (decide (u_as u = a)) as [E|E].
  - destruct (parts_hit a u l E) as [-> ->]. simpl. by rewrite IH.
  - destruct (parts_miss a u l E) as [-> ->]. by rewrite <- Permutation_middle, IH.
Qed.

Lemma frame_added hit a d : frame (added hit a d) ≡ₚ frame d.
Proof.
  unfold frame, updates_at. destruct hit; [|done]. cbn [added valid other nodes].
  rewrite !fmap_app, !tag_shift, <- (assoc_L (++)), <- fmap_app. by rewrite parts_Permutation.
Qed.

Lemma frame_deleted hit last a st d : frame (deleted hit last a st d) ≡ₚ frame d.
Proof.
  unfold frame, updates_at. destruct hit; [|done]. destruct last; cbn [deleted valid other nodes].
  - rewrite !fmap_app, !tag_shift, (Permutation_app_comm (tag <$> nodes (other d))).
    rewrite (assoc_L (++)), <- fmap_app, (Permutation_app_comm (not_as _ _)). by rewrite parts_Permutation.
  - by rewrite !fmap_app, tag_shift.
Qed.

Lemma frame_cnt a d : cnt a (updates_at d) = zsum (fun '(_, b, _) => if b =? a then 1 else 0) (frame d).
Proof. unfold frame, cnt. by rewrite zsum_fmap. Qed.

Lemma frame_cnt_eq d d' a : frame d' ≡ₚ frame d -> cnt a (updates_at d') = cnt a (updates_at d).
Proof. intros E. by rewrite !frame_cnt, (zsum_Permutation _ _ _ E). Qed.

Lemma frame_length d d' : frame d' ≡ₚ frame d -> length (updates_at d') = length (updates_at d).
Proof. intros E%Permutation_length. unfold frame in E. by rewrite !length_fmap in E. Qed.

Lemma frame_elem d d' u : frame d' ≡ₚ frame d -> u ∈ updates_at d' ->
  exists v, v ∈ updates_at d /\ tag v = tag u.
Proof.
  intros E Hu. assert (tag u ∈ frame d) as Hin.
  { rewrite <- E. apply list_elem_of_fmap. by exists u. }
  apply list_elem_of_fmap in Hin as (v & Ev & Hv). by exists v.
Qed.

Lemma tag_eq u v : tag u = tag v <-> updateID u = updateID v /\ u_as u = u_as v /\ u_treeNode u = u_treeNode v.
Proof. unfold tag. split; [by intros [=]|by intros (-> & -> & ->)]. Qed.

(** Notifications for one prefix leave the others in step. *)
Lemma synced_only D n m d d' dn s s' :
  ids_unique D -> D !! n = Some dn -> D !! m = Some d -> n <> m -> frame d' ≡ₚ frame d ->
  only_of (updates_at dn) s s' -> synced s d' -> synced s' d'.
Proof.
  intros Hids Hn Hm Hne Hf Ho [Hv Hot].
  assert (forall u, u ∈ updates_at d' -> roa_result s' (updateID u) = roa_result s (updateID u)) as Hsame.
  { intros u Hu. apply Ho. intros (w & Hw & Ew)%elem_of_ids.
    destruct (frame_elem d d' u Hf Hu) as (v & Hv' & (Ev & _ & _)%tag_eq).
    destruct (Hids n m dn d w v) as [? _]; try done. congruence. }
  split; intros u Hu; rewrite Hsame; auto; apply elem_of_app; auto.
Qed.

Lemma ids_unique_as D n d : ids_unique D -> D !! n = Some d -> ids_as d.
Proof. intros Hids Hn u v Hu Hv E. by destruct (Hids n n d d u v). Qed.

(** ** The visited updates *)
Definition visited t D (V : gset N) (maxLen a : Z) : Z :=
  map_zsum (fun n d => if decide (n ∈ V /\ klen (key t n) <= maxLen) then cnt a (updates_at d) else 0) D.

Lemma visited_add t D V n d maxLen a : D !! n = Some d -> n ∉ V ->
  visited t D ({[ n ]} ∪ V) maxLen a
  = visited t D V maxLen a + if klen (key t n) <=? maxLen then cnt a (updates_at d) else 0.
Proof.
  intros Hn HV. unfold visited. rewrite <- (insert_delete_id D n d Hn).
  rewrite !map_zsum_insert by apply lookup_delete_eq.
  rewrite (decide_False (P := n ∈ V /\ _)) by tauto.
  rewrite (map_zsum_ext (A := PC_Prefix N) _
    (fun m d => if decide (m ∈ V /\ klen (key t m) <= maxLen) then cnt a (updates_at d) else 0)).
  - destruct (Z.leb_spec (klen (key t n)) maxLen).
    + rewrite decide_True by (split; [set_solver|done]). lia.
    + rewrite decide_False by lia. lia.
  - intros m d' [Hne Hm]%lookup_delete_Some.
    destruct (decide (m ∈ {[ n ]} ∪ V /\ _)) as [[Hm1 ?]|Hm1], (decide (m ∈ V /\ _)) as [Hm2|Hm2];
      try done; set_solver.
Qed.

Lemma visited_none t D V W maxLen a :
  (forall m, m ∈ W -> maxLen < klen (key t m)) -> visited t D (W ∪ V) maxLen a = visited t D V maxLen a.
Proof.
  intros HW. apply map_zsum_ext. intros m d Hm.
  destruct (decide (m ∈ W ∪ V /\ _)) as [[Hm1 Hl]|Hm1], (decide (m ∈ V /\ _)) as [Hm2|Hm2]; try done.
  - apply elem_of_union in Hm1 as [Hm1|Hm1]; [apply HW in Hm1; lia|tauto].
  - exfalso. apply Hm1. set_solver.
Qed.

Lemma visited_le t D V W maxLen a : V ⊆ W -> visited t D V maxLen a <= visited t D W maxLen a.
Proof.
  intros Hsub. apply map_zsum_le. intros m d Hm. pose proof (cnt_nonneg a (updates_at d)).
  destruct (decide (m ∈ V /\ _)) as [[Hm1 Hl]|Hm1], (decide (m ∈ W /\ _)) as [Hm2|Hm2]; try lia.
  exfalso. apply Hm2. set_solver.
Qed.

Lemma visited_empty t D maxLen a : visited t D ∅ maxLen a = 0.
Proof.
  transitivity (map_zsum (fun (_ : N) (_ : PC_Prefix N) => 0) D); [|apply map_zsum_0].
  apply map_zsum_ext. intros m d _.
  rewrite decide_False; [done|]. intros [Hm _]. by apply not_elem_of_empty in Hm.
Qed.

Lemma visited_sub t D n maxLen a : visited t D (sub t D n) maxLen a = usum t D (key t n) maxLen a.
Proof.
  apply map_zsum_ext. intros m d Hm.
  destruct (decide (m ∈ sub t D n /\ _)) as [[[Hs _]%elem_of_sub Hl]|Hn],
    (decide (key t n `prefix_of` key t m /\ _)) as [Hk|Hk]; try done; exfalso; [tauto|].
  apply Hn. rewrite elem_of_sub. naive_solver.
Qed.

Lemma usum_total t D k maxLen a : usum t D k maxLen a <= total_updates D.
Proof.
  apply map_zsum_le. intros n d _. rewrite cnt_length. pose proof (length_parts a (updates_at d)).
  case_decide; lia.
Qed.

Lemma node_bitlen_key t D n : nodes_ok t D -> is_Some (D !! n) -> node_bitlen t n = Ok (klen (key t n)).
Proof.
  intros HD Hn. destruct (HD n Hn) as (p & Hp & Hok & _). unfold node_bitlen, key, klen. by rewrite Hp, Hok.
Qed.

Lemma nodes_data_ok t D : nodes_ok t D -> data_ok t D.
Proof. intros HD n Hn. destruct (HD n Hn) as (p & -> & _). by eexists. Qed.

(** What the walks start from: the prefixes agree with the entries [R]. *)
Record walk_pre (R : list bool -> sel -> Z) t D s : Prop := {
  wp_tree : pt_wf t;
  wp_nodes : nodes_ok t D;
  wp_measure : measure R;
  wp_agrees n d : D !! n = Some d -> agrees R t n d;
  wp_sink : rs_wf s;
  wp_synced n d : D !! n = Some d -> synced s d;
  wp_ids : ids_unique D
}.

Lemma agrees_state_ok R t n d : agrees R t n d -> state_ok (state_of_other d).
Proof. intros Ha. rewrite (ag_state _ _ _ _ Ha). destruct (_ <? _); [by right|by left]. Qed.

Lemma agrees_match R t n d u : measure R -> agrees R t n d -> u ∈ updates_at d ->
  roa_match u = R (key t n) (matching (klen (key t n)) (u_as u)) /\ 0 <= roa_match u.
Proof.
  intros HR Ha [Hu|Hu]%elem_of_app; [destruct (ag_valid _ _ _ _ Ha u Hu)|destruct (ag_other _ _ _ _ Ha u Hu)]; lia.
Qed.

(** ** Adding an entry *)
Section add.
Context (R : list bool -> sel -> Z) (t : T) (D : gmap N (PC_Prefix N)) (s0 : S) (p : N) (r : PC_ROA).
Context (sup : bool).
Let hit n : bool := klen (key t n) <=? max_len r.
Let new n : PC_Prefix N :=
  match D !! n with Some d => added (hit n) (r_as r) d | None => new_PC_Prefix SRx_RESULT_NOTFOUND end.

Record add_inv (V : gset N) (acc : PC_ROA * S) : Prop := {
  ai_sub : V ⊆ sub t D p;
  ai_roa : acc.1 = set_r_update_count r (r_update_count r + visited t D V (max_len r) (r_as r));
  ai_sink : rs_wf acc.2;
  ai_synced n d : D !! n = Some d -> synced acc.2 (if decide (n ∈ V) then new n else d)
}.

Context (Hpre : walk_pre R t D s0) (Hcount : 0 <= r_update_count r).
Context (Hroom : r_update_count r + usum t D (key t p) (max_len r) (r_as r) < 2 ^ 32).
Context (HR : forall k a, R k (covers (klen k)) < 2 ^ 32 - 1 /\ R k (matching (klen k) a) < 2 ^ 16 - 1).

Lemma sub_mono n : key t p `prefix_of` key t n -> sub t D n ⊆ sub t D p.
Proof. intros Hp m [Hm HD]%elem_of_sub. apply elem_of_sub. split; [by etrans|done]. Qed.

Lemma add_visited V n d : D !! n = Some d -> key t p `prefix_of` key t n -> V ⊆ sub t D p -> n ∉ V ->
  hit n = true ->
  r_update_count r + visited t D V (max_len r) (r_as r) + cnt (r_as r) (updates_at d) < 2 ^ 32.
Proof.
  intros Hn Hp HV HnV Hh. pose proof (visited_add t D V n d (max_len r) (r_as r) Hn HnV) as E.
  unfold hit in Hh. rewrite Hh in E.
  assert (n ∈ sub t D p) as Hnp by (apply elem_of_sub; eauto).
  pose proof (visited_le t D ({[n]} ∪ V) (sub t D p) (max_len r) (r_as r)) as Hle.
  rewrite visited_sub in Hle. assert ({[n]} ∪ V ⊆ sub t D p) as Hs by set_solver. specialize (Hle Hs). lia.
Qed.

Lemma new_frame n d : D !! n = Some d -> frame (new n) ≡ₚ frame d.
Proof. intros Hn. unfold new. rewrite Hn. apply frame_added. Qed.

(** A prefix that is visited without a step down needs no change below. *)
Lemma add_none n d : D !! n = Some d -> hit n = false -> state_of_other d = SRx_RESULT_INVALID ->
  forall m, m ∈ sub t D n -> D !! m = Some (new m) /\ max_len r < klen (key t m).
Proof.
  intros Hn Hh Hst m [Hk [d' Hm]]%elem_of_sub. unfold hit in Hh. apply Z.leb_gt in Hh.
  assert (klen (key t n) <= klen (key t m)) as Hl by (apply prefix_length in Hk; unfold klen; lia).
  split; [|lia]. unfold new. rewrite Hm. unfold hit. rewrite (proj2 (Z.leb_gt _ _)) by lia. f_equal.
  unfold added. assert (state_of_other d' = SRx_RESULT_INVALID) as <-; [|by rewrite set_state_same].
  rewrite (ag_state _ _ _ _ (wp_agrees _ _ _ _ Hpre n d Hn)) in Hst.
  rewrite (ag_state _ _ _ _ (wp_agrees _ _ _ _ Hpre m d' Hm)).
  pose proof (ms_key _ (wp_measure _ _ _ _ Hpre) (key t n) (key t m) all_roas Hk).
  destruct (Z.ltb_spec 0 (R (key t n) all_roas)); [|discriminate].
  by rewrite (proj2 (Z.ltb_lt _ _)) by lia.
Qed.

Lemma add_walk_step (x : unit) n V acc d :
  D !! n = Some d -> key t p `prefix_of` key t n -> V ## sub t D n -> add_inv V acc ->
  exists acc' o, verifyUpdates_step t sup x n d acc = Ok (new n, acc', o) /\
    match o with
    | Some _ => add_inv ({[ n ]} ∪ V) acc'
    | None => add_inv (sub t D n ∪ V) acc' /\ forall m, m ∈ sub t D n -> m <> n -> D !! m = Some (new m)
    end.
Proof.
  intros Hn Hp HV [Hsub Hroa Hsink Hsync]. destruct acc as [r1 s1]. cbn [fst snd] in *. subst r1.
  pose proof (wp_agrees _ _ _ _ Hpre n d Hn) as Ha. pose proof (wp_measure _ _ _ _ Hpre) as HM.
  assert (n ∈ sub t D n) as Hnn by (apply elem_of_sub; eauto).
  assert (n ∉ V) as HnV by set_solver.
  pose proof (visited_le t D ∅ V (max_len r) (r_as r)) as Hvis. rewrite visited_empty in Hvis.
  assert (0 <= visited t D V (max_len r) (r_as r)) by (apply Hvis; set_solver).
  pose proof (visited_add t D V n d (max_len r) (r_as r) Hn HnV) as Hva. fold (hit n) in Hva.
  set (r1 := set_r_update_count r _). destruct x.
  destruct (verify_step_eq t n d r1 s1 sup (klen (key t n))) as (s2 & E2 & Hs2 & Hsync2 & Hon).
  { pose proof (Hsync n d Hn) as Hsd. rewrite decide_False in Hsd by done.
    split; [apply (node_bitlen_key t D); [apply Hpre|by eexists]|done|done| | |simpl; lia].
    - by eapply ids_unique_as, Hn; apply Hpre.
    - by eapply agrees_state_ok. }
  { rewrite (ag_cov _ _ _ _ Ha). pose proof (ms_nonneg _ HM (key t n) (covers (klen (key t n)))).
    destruct (HR (key t n) 0). lia. }
  { intros u Hu Eu. destruct (agrees_match R t n d u HM Ha Hu) as [-> ?].
    destruct (HR (key t n) (u_as u)). lia. }
  { intros Hl. cbn [r_update_count set_r_update_count r_as max_len r1] in Hl |- *.
    apply (add_visited V n d); try done. by apply Z.leb_le. }
  cbn [max_len r_as r1 set_r_update_count r_update_count] in *. fold (hit n) in E2, Hsync2.
  assert (added (hit n) (r_as r) d = new n) as Enew by (unfold new; by rewrite Hn).
  rewrite Enew in *. eexists _, _. split; [exact E2|].
  assert (forall m d', D !! m = Some d' -> m <> n ->
            synced s2 (if decide (m ∈ V) then new m else d')) as Hothers.
  { intros m d' Hm Hne. eapply (synced_only D n m d'); [apply Hpre|done|done|done| |done|by apply Hsync].
    destruct (decide (m ∈ V)); [by apply new_frame|done]. }
  destruct (hit n || (state_of_other d =? SRx_RESULT_NOTFOUND)) eqn:Hrec.
  - split; cbn [fst snd]; [set_solver| |done|].
    + unfold r1, set_r_update_count. cbn. f_equal. lia.
    + intros m d' Hm. destruct (decide (m = n)) as [->|Hne].
      * by rewrite decide_True by set_solver.
      * specialize (Hothers m d' Hm Hne).
        destruct (decide (m ∈ V)), (decide (m ∈ {[ n ]} ∪ V)) as [|]; try done; set_solver.
  - apply orb_false_iff in Hrec as [Hh Hst%Z.eqb_neq].
    assert (state_of_other d = SRx_RESULT_INVALID) as Hinv by (by destruct (agrees_state_ok R t n d Ha)).
    pose proof (add_none n d Hn Hh Hinv) as Hbelow.
    split; [|intros m Hm _; by apply Hbelow]. split; cbn [fst snd].
    + pose proof (sub_mono n Hp). set_solver.
    + rewrite visited_none by (intros m Hm; by apply Hbelow). unfold r1, set_r_update_count.
      cbn. rewrite Hh. f_equal. lia.
    + done.
    + intros m d' Hm. destruct (decide (m = n)) as [->|Hne].
      * by rewrite decide_True by set_solver.
      * specialize (Hothers m d' Hm Hne). destruct (decide (m ∈ V)) as [HmV|HmV].
        -- by rewrite decide_True by set_solver.
        -- destruct (decide (m ∈ sub t D n ∪ V)) as [Hm2|]; [|done].
           assert (m ∈ sub t D n) as Hm3 by set_solver. destruct (Hbelow m Hm3) as [E3 _].
           rewrite Hm in E3. simplify_eq. congruence.
Qed.

(** What [_addROAwl_verifyUpdates] does. *)
Lemma add_walk :
  is_Some (D !! p) ->
  exists D' s', _addROAwl_verifyUpdates t sup p D r s0
    = Ok (D', (set_r_update_count r (r_update_count r + usum t D (key t p) (max_len r) (r_as r)), s'))
    /\ (forall n, D' !! n = if decide (key t p `prefix_of` key t n)
                            then added (hit n) (r_as r) <$> D !! n else D !! n)
    /\ rs_wf s' /\ (forall n d, D' !! n = Some d -> synced s' d).
Proof.
  intros Hp. destruct (walk_spec (verifyUpdates_step t sup) t D new add_inv
    (fun _ n => key t p `prefix_of` key t n)) with (x := tt) (n := p) (a := (r, s0))
    as (D' & [r' s'] & E & [_ Hr Hs Hsync] & HW).
  - apply Hpre.
  - apply nodes_data_ok, Hpre.
  - intros x n V acc d Hn Hk HV HI.
    destruct (add_walk_step x n V acc d Hn Hk HV HI) as (acc' & o & E & Ho).
    exists acc', o. split; [done|]. destruct o as [x'|]; [|done]. split; [done|].
    intros c Hc. apply child_key in Hc as (_ & [? _] & _); [by etrans|apply Hpre| |].
    + apply nodes_data_ok, Hpre.
    + apply (nodes_data_ok t D); [apply Hpre|by eexists].
  - done.
  - done.
  - split; cbn [fst snd]; [set_solver| |apply Hpre|].
    + rewrite visited_empty, Z.add_0_r. by destruct r.
    + intros n d Hn. rewrite decide_False by apply not_elem_of_empty. by apply (wp_synced _ _ _ _ Hpre n).
  - exists D', s'. cbn [fst snd] in *. rewrite visited_sub in Hr. subst r'. split; [done|].
    assert (forall n, D' !! n = if decide (key t p `prefix_of` key t n)
              then added (hit n) (r_as r) <$> D !! n else D !! n) as HD'.
    { intros n. rewrite HW. destruct (D !! n) as [d|] eqn:Hn.
      - assert (n ∈ sub t D p <-> key t p `prefix_of` key t n) as Hiff.
        { rewrite elem_of_sub, Hn. split; [by intros [? _]|done]. }
        rewrite (decide_ext _ _ _ _ Hiff). case_decide; [|done]. unfold new. by rewrite Hn.
      - rewrite decide_False; [by case_decide|]. intros [_ Hs2]%elem_of_sub. rewrite Hn in Hs2. by destruct Hs2. }
    split; [done|]. split; [done|]. intros n d Hn. rewrite HW in Hn.
    destruct (decide (n ∈ sub t D p)) as [Hin|Hin].
    + simplify_eq. pose proof Hin as [_ [d0 Hd0]]%elem_of_sub. specialize (Hsync n d0 Hd0).
      by rewrite decide_True in Hsync.
    + specialize (Hsync n d Hn). by rewrite decide_False in Hsync.
Qed.
End add.

(** ** Deleting an entry

    [R'] counts the entries without the deleted one, [A'] those strictly above a
    prefix. *)
Section del.
Context (R R' : list bool -> sel -> Z) (A' : N -> Z).
Context (t : T) (D : gmap N (PC_Prefix N)) (s0 : S) (p : N) (r : PC_ROA) (sup : bool).
Let hit n : bool := klen (key t n) <=? max_len r.
Let state k : Z := if 0 <? R' k all_roas then SRx_RESULT_INVALID else SRx_RESULT_NOTFOUND.
Let last n : bool := R (key t n) (matching (klen (key t n)) (r_as r)) =? 1.
Let new n : PC_Prefix N :=
  match D !! n with
  | Some d => deleted (hit n) (last n) (r_as r) (state (key t n)) d
  | None => new_PC_Prefix SRx_RESULT_NOTFOUND
  end.

Record del_inv (V : gset N) (acc : PC_ROA * S) : Prop := {
  di_sub : V ⊆ sub t D p;
  di_roa : acc.1 = drop_uc r (visited t D V (max_len r) (r_as r));
  di_sink : rs_wf acc.2;
  di_synced n d : D !! n = Some d -> synced acc.2 (if decide (n ∈ V) then new n else d)
}.

Context (Hpre : walk_pre R t D s0) (HM' : measure R').
Context (HRR : forall k f, key t p `prefix_of` k ->
  R k f = R' k f + if f (max_len r) (r_as r) (valCacheID r) then 1 else 0).
Context (HA1 : forall n, is_Some (D !! n) ->
  R' (key t n) all_roas <= R' (key t n) (covers (klen (key t n))) + A' n).
Context (HA2 : forall n, is_Some (D !! n) -> 0 <= A' n <= R' (key t n) all_roas).
Context (HA3 : forall n c, is_Some (D !! n) -> child_of t D n c -> A' c = R' (key t n) all_roas).
Context (Hcount : usum t D (key t p) (max_len r) (r_as r) <= r_update_count r < 2 ^ 32).
Context (Hsmall : forall k a, R k (covers (klen k)) < 2 ^ 32 /\ R k (matching (klen k) a) < 2 ^ 16).
(** The argument of the walk: the state of the parent. *)
Definition del_arg (x : Z) n : Prop :=
  key t p `prefix_of` key t n
  /\ x = if 0 <? A' n then SRx_RESULT_INVALID else SRx_RESULT_NOTFOUND.

Lemma del_new_frame n d : D !! n = Some d -> frame (new n) ≡ₚ frame d.
Proof. intros Hn. unfold new. rewrite Hn. apply frame_deleted. Qed.

(** Every matching update of a prefix that the entry covers is valid. *)
Lemma hit_match n d u : D !! n = Some d -> key t p `prefix_of` key t n -> hit n = true ->
  u ∈ updates_at d -> u_as u = r_as r ->
  u ∈ nodes (valid d) /\ roa_match u = R (key t n) (matching (klen (key t n)) (r_as r)).
Proof.
  intros Hn Hp Hh Hu Eu. pose proof (wp_agrees _ _ _ _ Hpre n d Hn) as Ha. unfold hit in Hh.
  pose proof (HRR (key t n) (matching (klen (key t n)) (r_as r)) Hp) as E.
  unfold matching at 3 in E. rewrite Hh, Z.eqb_refl in E. cbn [andb] in E.
  pose proof (ms_nonneg _ HM' (key t n) (matching (klen (key t n)) (r_as r))).
  apply elem_of_app in Hu as [Hu|Hu].
  - destruct (ag_valid _ _ _ _ Ha u Hu) as [Em _]. by rewrite Eu in Em.
  - destruct (ag_other _ _ _ _ Ha u Hu) as [_ Em]. rewrite Eu in Em. lia.
Qed.

Lemma hit_cnt n d : D !! n = Some d -> key t p `prefix_of` key t n -> hit n = true ->
  cnt (r_as r) (updates_at d) = cnt (r_as r) (nodes (valid d)).
Proof.
  intros Hn Hp Hh. unfold updates_at. rewrite cnt_app, (cnt_length _ (nodes (other d))).
  destruct (of_as (r_as r) (nodes (other d))) as [|u l] eqn:E; [simpl; lia|]. exfalso.
  assert (u ∈ of_as (r_as r) (nodes (other d))) as Hu by (rewrite E; by left).
  apply elem_of_of_as in Hu as [Eu Hu]. pose proof (wp_agrees _ _ _ _ Hpre n d Hn) as Ha.
  destruct (hit_match n d u Hn Hp Hh) as [_ Em]; [apply elem_of_app; by right|done|].
  destruct (ag_other _ _ _ _ Ha u Hu) as [E0 _].
  pose proof (HRR (key t n) (matching (klen (key t n)) (r_as r)) Hp) as E1. unfold hit in Hh.
  unfold matching at 3 in E1. rewrite Hh, Z.eqb_refl in E1. cbn [andb] in E1.
  pose proof (ms_nonneg _ HM' (key t n) (matching (klen (key t n)) (r_as r))). lia.
Qed.

(** The test of the step decides whether an entry is left. *)
Lemma gone_spec n d x : D !! n = Some d -> del_arg x n ->
  let cov := if hit n then roa_coverage d - 1 else roa_coverage d in
  let gone := (x =? SRx_RESULT_NOTFOUND) && (cov =? 0) in
  (if gone then SRx_RESULT_NOTFOUND else state_of_other d) = state (key t n)
  /\ (gone = false -> 0 < R' (key t n) all_roas).
Proof.
  intros Hn [Hp Hx] cov gone. pose proof (wp_agrees _ _ _ _ Hpre n d Hn) as Ha.
  pose proof (HRR (key t n) (covers (klen (key t n))) Hp) as Ec. unfold covers at 3 in Ec. fold (hit n) in Ec.
  assert (cov = R' (key t n) (covers (klen (key t n)))) as Ecov.
  { subst cov. rewrite (ag_cov _ _ _ _ Ha). destruct (hit n); lia. }
  pose proof (ms_nonneg _ HM' (key t n) (covers (klen (key t n)))).
  pose proof (ms_sel _ HM' (key t n) (covers (klen (key t n))) all_roas) as Hsel.
  assert (R' (key t n) (covers (klen (key t n))) <= R' (key t n) all_roas) by by apply Hsel.
  assert (is_Some (D !! n)) as HnS by by eexists.
  pose proof (HA1 n HnS). pose proof (HA2 n HnS). pose proof (HRR (key t n) all_roas Hp) as Ea.
  unfold all_roas at 3 in Ea. pose proof (ag_state _ _ _ _ Ha) as Hst.
  assert (gone = true <-> A' n = 0 /\ cov = 0) as Hgone.
  { subst gone. rewrite andb_true_iff, Z.eqb_eq, Z.eqb_eq. rewrite Hx.
    destruct (Z.ltb_spec 0 (A' n)); split; intros [? ?]; split; try lia; discriminate || done. }
  assert (gone = false -> 0 < R' (key t n) all_roas) as Hpos.
  { intros E. destruct (Z.eq_dec (R' (key t n) all_roas) 0); [|lia]. rewrite (proj2 Hgone) in E by lia. done. }
  split; [|done]. unfold state. destruct gone.
  - destruct (proj1 Hgone eq_refl). by rewrite (proj2 (Z.ltb_ge _ _)) by lia.
  - specialize (Hpos eq_refl). rewrite Hst, !(proj2 (Z.ltb_lt _ _)) by lia. done.
Qed.

(** A prefix that is visited without a step down needs no change below. *)
Lemma del_none n d : D !! n = Some d -> key t p `prefix_of` key t n -> hit n = false ->
  0 < R' (key t n) all_roas ->
  forall m, m ∈ sub t D n -> D !! m = Some (new m) /\ max_len r < klen (key t m).
Proof.
  intros Hn Hp Hh Hpos m [Hk [d' Hm]]%elem_of_sub. unfold hit in Hh. apply Z.leb_gt in Hh.
  assert (klen (key t n) <= klen (key t m)) as Hl by (apply prefix_length in Hk; unfold klen; lia).
  split; [|lia]. unfold new. rewrite Hm. unfold hit. rewrite (proj2 (Z.leb_gt _ _)) by lia. f_equal.
  unfold deleted, state. pose proof (ms_key _ HM' (key t n) (key t m) all_roas Hk).
  pose proof (HRR (key t m) all_roas ltac:(by etrans)) as E. unfold all_roas at 3 in E.
  rewrite (proj2 (Z.ltb_lt _ _)) by lia. rewrite <- (set_state_same d') at 1. f_equal.
  rewrite (ag_state _ _ _ _ (wp_agrees _ _ _ _ Hpre m d' Hm)).
  by rewrite (proj2 (Z.ltb_lt _ _)) by lia.
Qed.

Lemma del_count V n d : D !! n = Some d -> key t p `prefix_of` key t n -> V ⊆ sub t D p -> n ∉ V ->
  hit n = true ->
  let r1 := drop_uc r (visited t D V (max_len r) (r_as r)) in
  cnt (r_as r) (updates_at d) <= r_update_count r1.
Proof.
  intros Hn Hp HV HnV Hh r1. pose proof (visited_add t D V n d (max_len r) (r_as r) Hn HnV) as E.
  unfold hit in Hh. rewrite Hh in E.
  assert (n ∈ sub t D p) as Hnp by (apply elem_of_sub; eauto).
  pose proof (visited_le t D ({[n]} ∪ V) (sub t D p) (max_len r) (r_as r)) as Hle.
  rewrite visited_sub in Hle. assert ({[n]} ∪ V ⊆ sub t D p) as Hs by set_solver. specialize (Hle Hs).
  pose proof (visited_le t D ∅ V (max_len r) (r_as r)) as Hvis. rewrite visited_empty in Hvis.
  assert (0 <= visited t D V (max_len r) (r_as r)) by (apply Hvis; set_solver).
  unfold r1, drop_uc. cbn. destruct (roa_count r =? 1); lia.
Qed.

Lemma del_walk_step x n V acc d :
  D !! n = Some d -> del_arg x n -> V ## sub t D n -> del_inv V acc ->
  exists acc' o, validateUpdates_step t sup x n d acc = Ok (new n, acc', o) /\
    match o with
    | Some x' => del_inv ({[ n ]} ∪ V) acc' /\ x' = state (key t n)
    | None => del_inv (sub t D n ∪ V) acc' /\ forall m, m ∈ sub t D n -> m <> n -> D !! m = Some (new m)
    end.
Proof.
  intros Hn Harg HV [Hsub Hroa Hsink Hsync]. destruct acc as [r1 s1]. cbn [fst snd] in *.
  pose proof Harg as [Hp Hx]. pose proof (wp_agrees _ _ _ _ Hpre n d Hn) as Ha.
  pose proof (wp_measure _ _ _ _ Hpre) as HM.
  assert (is_Some (D !! n)) as HnS by by eexists.
  assert (n ∈ sub t D n) as Hnn by by apply elem_of_sub.
  assert (n ∉ V) as HnV by set_solver.
  pose proof (visited_add t D V n d (max_len r) (r_as r) Hn HnV) as Hva. fold (hit n) in Hva.
  pose proof (visited_le t D ∅ V (max_len r) (r_as r)) as Hvis. rewrite visited_empty in Hvis.
  assert (0 <= visited t D V (max_len r) (r_as r)) by (apply Hvis; set_solver).
  pose proof (visited_le t D V (sub t D p) (max_len r) (r_as r) Hsub) as Hvs. rewrite visited_sub in Hvs.
  assert (0 <= r_update_count r1 < 2 ^ 32) as Hc1.
  { subst r1. unfold drop_uc. cbn. destruct (roa_count r =? 1); lia. }
  assert (r_as r1 = r_as r /\ max_len r1 = max_len r) as [Er1 Em1] by by subst r1.
  set (m := if hit n then R (key t n) (matching (klen (key t n)) (r_as r)) else 1).
  assert (hit n = true -> 1 <= R (key t n) (matching (klen (key t n)) (r_as r))) as Hge1.
  { intros Hh. rewrite HRR by done. unfold hit in Hh. unfold matching at 2. rewrite Hh, Z.eqb_refl. cbn [andb].
    pose proof (ms_nonneg _ HM' (key t n) (matching (klen (key t n)) (r_as r))). lia. }
  destruct (gone_spec n d x Hn Harg) as [Hst Hpos].
  destruct (Hsmall (key t n) (r_as r)) as [Hs1 Hs2].
  pose proof (ms_nonneg _ HM (key t n) (covers (klen (key t n)))).
  pose proof (HRR (key t n) (covers (klen (key t n))) Hp) as Ec. unfold covers at 3 in Ec. fold (hit n) in Ec.
  pose proof (ms_nonneg _ HM' (key t n) (covers (klen (key t n)))).
  assert (synced s1 d) as Hsd by (pose proof (Hsync n d Hn) as Hsd; by rewrite decide_False in Hsd).
  destruct (validate_step_eq t n d r1 s1 sup (klen (key t n)) x m) as (s2 & E2 & Hs2' & Hsync2 & Hon).
  { split; [apply (node_bitlen_key t D); [apply Hpre|done]|done|done| | |lia].
    - by eapply ids_unique_as, Hn; apply Hpre.
    - by eapply agrees_state_ok. }
  { subst x. destruct (_ <? _); [by right|by left]. }
  { rewrite (ag_cov _ _ _ _ Ha). lia. }
  { subst m. destruct (hit n); [|lia]. specialize (Hge1 eq_refl). lia. }
  { intros Hh. rewrite Em1 in Hh. fold (hit n) in Hh. rewrite (ag_cov _ _ _ _ Ha). rewrite Hh in Ec. lia. }
  { intros u Hu Hh Eu. rewrite Em1 in Hh. rewrite Er1 in Eu. fold (hit n) in Hh. subst m. rewrite Hh.
    apply (hit_match n d u); try done. apply elem_of_app. by left. }
  { rewrite Em1, Er1. fold (hit n). destruct (hit n) eqn:Hh; [|lia].
    rewrite <- (hit_cnt n d) by done. split; [|lia]. subst r1. by eapply del_count. }
  rewrite Em1, Er1 in *. fold (hit n) in E2, Hsync2. rewrite Hst in *.
  assert (deleted (hit n) (m =? 1) (r_as r) (state (key t n)) d = new n) as Enew.
  { unfold new. rewrite Hn. subst m. unfold last. by destruct (hit n). }
  rewrite Enew in *. eexists _, _. split; [exact E2|].
  assert (forall (k : N) d', D !! k = Some d' -> k <> n ->
            synced s2 (if decide (k ∈ V) then new k else d')) as Hothers.
  { intros k d' Hk Hne. eapply (synced_only D n k d'); [apply Hpre|done|done|done| |done|by apply Hsync].
    destruct (decide (k ∈ V)); [by apply del_new_frame|done]. }
  destruct (hit n || _) eqn:Hrec.
  - split; [|done]. split; cbn [fst snd]; [|subst r1; rewrite drop_uc_add, Hva; do 2 f_equal|done|].
    + assert (n ∈ sub t D p) by by apply elem_of_sub. set_solver.
    + destruct (hit n) eqn:Hh; [by rewrite <- (hit_cnt n d)|done].
    + intros k d' Hk. destruct (decide (k = n)) as [->|Hne].
      * by rewrite decide_True by set_solver.
      * specialize (Hothers k d' Hk Hne).
        destruct (decide (k ∈ V)), (decide (k ∈ {[ n ]} ∪ V)) as [|]; try done; set_solver.
  - apply orb_false_iff in Hrec as [Hh Hg]. specialize (Hpos Hg).
    pose proof (del_none n d Hn Hp Hh Hpos) as Hbelow.
    split; [|intros k Hk _; by apply Hbelow]. split; cbn [fst snd].
    + pose proof (sub_mono t D p n Hp). set_solver.
    + rewrite visited_none by (intros k Hk; by apply Hbelow). rewrite Hh, drop_uc_0. done.
    + done.
    + intros k d' Hk. destruct (decide (k = n)) as [->|Hne].
      * by rewrite decide_True by set_solver.
      * specialize (Hothers k d' Hk Hne). destruct (decide (k ∈ V)) as [HkV|HkV].
        -- by rewrite decide_True by set_solver.
        -- destruct (decide (k ∈ sub t D n ∪ V)) as [Hk2|]; [|done].
           assert (k ∈ sub t D n) as Hk3 by set_solver. destruct (Hbelow k Hk3) as [E3 _].
           rewrite Hk in E3. simplify_eq. congruence.
Qed.

(** What [_delROAwl_validateUpdates] does, called with the state of the parent. *)
Lemma del_walk x :
  is_Some (D !! p) -> x = (if 0 <? A' p then SRx_RESULT_INVALID else SRx_RESULT_NOTFOUND) ->
  exists D' s', _delROAwl_validateUpdates t sup x p D r s0
    = Ok (D', (drop_uc r (usum t D (key t p) (max_len r) (r_as r)), s'))
    /\ (forall n, D' !! n = if decide (key t p `prefix_of` key t n)
          then deleted (hit n) (last n) (r_as r) (state (key t n)) <$> D !! n else D !! n)
    /\ rs_wf s' /\ (forall n d, D' !! n = Some d -> synced s' d).
Proof.
  intros Hp Hx. destruct (walk_spec (validateUpdates_step t sup) t D new del_inv del_arg)
    with (x := x) (n := p) (a := (r, s0)) as (D' & [r' s'] & E & [_ Hr Hs Hsync] & HW).
  - apply Hpre.
  - apply nodes_data_ok, Hpre.
  - intros x1 n V acc d Hn Harg HV HI.
    destruct (del_walk_step x1 n V acc d Hn Harg HV HI) as (acc' & o & E & Ho).
    exists acc', o. split; [done|]. destruct o as [x'|]; [|done]. destruct Ho as [Ho Hx']. split; [done|].
    intros c Hc. pose proof Hc as Hck. apply child_key in Hck as (_ & [? _] & _); [|apply Hpre| |].
    + split; [etrans; [apply Harg|done]|]. rewrite (HA3 n c) by (done || by eexists). exact Hx'.
    + apply nodes_data_ok, Hpre.
    + apply (nodes_data_ok t D); [apply Hpre|by eexists].
  - done.
  - by split.
  - split; cbn [fst snd]; [set_solver| |apply Hpre|].
    + by rewrite visited_empty, drop_uc_0.
    + intros n d Hn. rewrite decide_False by apply not_elem_of_empty. by apply (wp_synced _ _ _ _ Hpre n).
  - exists D', s'. cbn [fst snd] in *. rewrite visited_sub in Hr. subst r'. split; [done|].
    split; [|split; [done|]].
    + intros n. rewrite HW. destruct (D !! n) as [d|] eqn:Hn.
      * assert (n ∈ sub t D p <-> key t p `prefix_of` key t n) as Hiff.
        { rewrite elem_of_sub, Hn. split; [by intros [? _]|done]. }
        rewrite (decide_ext _ _ _ _ Hiff). case_decide; [|done]. unfold new. by rewrite Hn.
      * rewrite decide_False; [by case_decide|]. intros [_ Hs2]%elem_of_sub. rewrite Hn in Hs2. by destruct Hs2.
    + intros n d Hn. rewrite HW in Hn. destruct (decide (n ∈ sub t D p)) as [Hin|Hin].
      * simplify_eq. pose proof Hin as [_ [d0 Hd0]]%elem_of_sub. specialize (Hsync n d0 Hd0).
        by rewrite decide_True in Hsync.
      * specialize (Hsync n d Hn). by rewrite decide_False in Hsync.
Qed.
End del.
End walks.
End PrefixWalks.
