(* ===== verification/PrefixAdd.v ===== *)
(** * Announcing a white-list entry (server/prefix_cache.c)

    The invariant of the prefix cache along a tree lookup, the creation of a
    prefix and [addROAwl]. *)
From S2P Require Import Prelude Lists SrxDefs Patricia SList PrefixCache PrefixTree PrefixSteps PrefixInv.
From S2P Require Import PrefixEntries PrefixWalks.

Module PrefixAdd.
Import PrefixCache PrefixTree PrefixSteps PrefixInv PrefixEntries PrefixWalks.

Section add.
Context {T N S : Type} `{Countable N} `{PatriciaLaws T N} `{RoaSinkLaws S}.
Implicit Types (t : T) (n q : N) (s : S) (d : PC_Prefix N) (r : PC_ROA) (u : PC_Update N) (a : Z)
  (k : list bool) (D : gmap N (PC_Prefix N)) (f : sel) (self : PrefixCache T N).

Definition entries self k f : Z := rsum (prefixTree self) (node_data self) k f.
(** The update [id] of the prefix with the bits [k] and the origin [a]. *)
Definition has_update self (id : Z) k a : Prop :=
  exists n d u, node_data self !! n = Some d /\ u ∈ updates_at d /\ updateID u = id
    /\ key (prefixTree self) n = k /\ u_as u = a.

(** ** The bits of the nodes decide everything *)
Definition same_keys t t' D : Prop := forall q, is_Some (D !! q) -> key t' q = key t q.

Lemma rsum_keys t t' D k f : same_keys t t' D -> rsum t' D k f = rsum t D k f.
Proof. intros E. apply map_zsum_ext. intros q d Hq. by rewrite E by by eexists. Qed.

Lemma usum_keys t t' D k m a : same_keys t t' D -> usum t' D k m a = usum t D k m a.
Proof. intros E. apply map_zsum_ext. intros q d Hq. by rewrite E by by eexists. Qed.

Lemma agrees_ext (R R' : list bool -> sel -> Z) t t' n d :
  (forall f, R' (key t n) f = R (key t n) f) -> key t' n = key t n -> agrees R t n d -> agrees R' t' n d.
Proof. intros HR Hk [H1' H2' H3' H4']. split; rewrite ?Hk; intros; rewrite ?HR; auto. Qed.

Lemma inv_keys self s t' ups :
  pc_inv self s -> same_keys (prefixTree self) t' (node_data self) -> pt_wf t' ->
  nodes_ok t' (node_data self) -> pc_inv (mkPrefixCache t' (node_data self) ups) s.
Proof.
  intros [H1' H2' H3' H4' H5' H6' H7' H8' H9'] Hk Hw Hn.
  split; cbn [prefixTree node_data]; try done.
  - intros n d Hd. specialize (H3' n d Hd). destruct H3' as [A B C E].
    split; try done. rewrite Hk by by eexists. done.
  - intros n d Hd. eapply agrees_ext, H4'; try done; [intros f; by apply rsum_keys|].
    apply Hk. by eexists.
  - intros k a. rewrite !(rsum_keys _ _ _ _ _ Hk). apply H5'.
  - intros q d r Hq Hr. rewrite (usum_keys _ _ _ _ _ _ Hk), Hk by by eexists. by apply H6' with d.
Qed.

Lemma room_keys self t' ups :
  room self -> same_keys (prefixTree self) t' (node_data self) ->
  room (mkPrefixCache t' (node_data self) ups).
Proof.
  intros (R1 & R2 & R3) Hk. split; [|done]. cbn [prefixTree node_data].
  intros k a. rewrite !(rsum_keys _ _ _ _ _ Hk). apply R1.
Qed.

(** A lookup: the node of the prefix, fresh or not. *)
Lemma lookup_inv self s p t' n ref ups :
  pc_inv self s -> prefix_ok p -> patricia_lookup p (prefixTree self) = (t', n, ref) ->
  let self' := mkPrefixCache t' (node_data self) ups in
  pc_inv self' s /\ (exists pq, node_prefix t' n = Some pq /\ prefix_ok pq) /\ key t' n = prefix_bits p
  /\ same_keys (prefixTree self) t' (node_data self)
  /\ (ref = true -> node_data self !! n = None).
Proof.
  intros Hinv Hp E. destruct (pt_lookup _ _ _ _ _ (pi_tree _ _ Hinv) Hp E)
    as (Hw & (q & Hq & Hb & Hl) & Hother & Hold & Href).
  assert (prefix_ok q) as Hqok by (destruct Hp; split; rewrite Hb; lia).
  assert (forall m, is_Some (node_data self !! m) ->
            node_prefix t' m = node_prefix (prefixTree self) m) as Hsame.
  { intros m Hm. destruct (decide (m = n)) as [->|Hne]; [|by apply Hother].
    destruct (pi_nodes _ _ Hinv n Hm) as (pr & Hp0 & _). rewrite Hp0. by apply Hold. }
  assert (same_keys (prefixTree self) t' (node_data self)) as Hk.
  { intros m Hm. unfold key. by rewrite Hsame. }
  split; [|split; [by exists q|split; [unfold key; by rewrite Hq|split; [done|]]]].
  - apply inv_keys; try done. intros m Hm. rewrite Hsame by done. by apply (pi_nodes _ _ Hinv).
  - intros Hr. apply Href in Hr. destruct (node_data self !! n) eqn:E1; [|done]. exfalso.
    destruct (pi_nodes _ _ Hinv n) as (pr & Hp0 & _); [by eexists|]. congruence.
Qed.

(** ** A new prefix *)

Lemma rsum_new t D n f : pt_wf t -> data_ok t D -> is_Some (node_prefix t n) -> D !! n = None ->
  rsum t D (key t n) f = rabove t D (key t n) f.
Proof.
  intros Hw HD Hn HDn. apply map_zsum_ext. intros q d Hq.
  destruct (decide (key t q `prefix_of` key t n)) as [Hk|Hk],
    (decide (strict_prefix (key t q) (key t n))) as [Hs|Hs]; try done.
  - exfalso. destruct (prefix_cases _ _ Hk) as [E|?]; [|done].
    assert (q = n) as -> by (eapply key_inj; eauto). congruence.
  - exfalso. apply Hk. apply Hs.
Qed.

Lemma inv_data_ok self s : pc_inv self s -> data_ok (prefixTree self) (node_data self).
Proof. intros Hinv. apply nodes_data_ok, Hinv. Qed.

Lemma inv_measure self s : pc_inv self s -> measure (entries self).
Proof. intros Hinv. apply rsum_measure. eapply pi_counts, (pi_wf _ _ Hinv). Qed.

(** The state of the closest prefix above is the one the entries above imply. *)
Lemma parent_state self s n o : pc_inv self s -> parent_of (prefixTree self) (node_data self) n o ->
  state_of (node_data self) o
  = Ok (if 0 <? rabove (prefixTree self) (node_data self) (key (prefixTree self) n) all_roas
        then SRx_RESULT_INVALID else SRx_RESULT_NOTFOUND).
Proof.
  intros Hinv Ho. rewrite (rabove_parent _ _ _ _ _ (pi_tree _ _ Hinv) (inv_data_ok _ _ Hinv) Ho).
  destruct o as [p|]; [|done]. destruct Ho as ([d Hd] & _ & _).
  unfold state_of, get_data. rewrite Hd. simpl_outcome.
  by rewrite (ag_state _ _ _ _ (pi_agrees _ _ Hinv p d Hd)).
Qed.

Lemma zsum_weight_nonneg f l : (forall r, r ∈ l -> 1 <= roa_count r) -> 0 <= zsum (weight f) l.
Proof. intros Hc. apply zsum_nonneg. intros r Hr%Hc. unfold weight. destruct (f _ _ _); lia. Qed.

Lemma roas_coverage_eq len l cov :
  (forall r, r ∈ l -> 1 <= roa_count r) -> 0 <= cov -> cov + zsum (weight (covers len)) l < 2 ^ 32 ->
  roas_coverage len l cov = cov + zsum (weight (covers len)) l.
Proof.
  unfold roas_coverage. revert cov. induction l as [|r l IH]; intros cov Hc Hn Hb; [simpl; lia|].
  cbn [foldl]. rewrite zsum_cons in *. unfold weight at 1 in Hb. unfold weight at 1. unfold covers at 1 in Hb.
  unfold covers at 1. assert (0 <= zsum (weight (covers len)) l)
    by (apply zsum_weight_nonneg; intros; apply Hc; by right).
  assert (1 <= roa_count r) by (apply Hc; by left).
  destruct (len <=? max_len r).
  - rewrite wrap_small by (unfold in_u; lia). rewrite IH; [lia| |lia|lia]. intros; apply Hc; by right.
  - rewrite IH; [lia| |lia|lia]. intros; apply Hc; by right.
Qed.

Lemma ases_coverage_eq len (l : list PC_AS) cov :
  (forall x r, x ∈ l -> r ∈ nodes (roas x) -> 1 <= roa_count r) -> 0 <= cov ->
  cov + zsum (as_sum (covers len)) l < 2 ^ 32 ->
  ases_coverage len l cov = cov + zsum (as_sum (covers len)) l.
Proof.
  unfold ases_coverage. revert cov. induction l as [|x l IH]; intros cov Hc Hn Hb; [simpl; lia|].
  cbn [foldl]. rewrite zsum_cons in *.
  assert (0 <= as_sum (covers len) x) by (apply zsum_weight_nonneg; intros; eapply Hc; [by left|done]).
  assert (0 <= zsum (as_sum (covers len)) l).
  { apply zsum_nonneg. intros y Hy. apply zsum_weight_nonneg. intros. eapply Hc; [by right|done]. }
  rewrite (roas_coverage_eq len (nodes (roas x)) cov); fold (as_sum (covers len) x);
    [|intros; eapply Hc; [by left|done]|lia|lia].
  rewrite IH; [lia| |lia|lia]. intros y r Hy. apply Hc. by right.
Qed.

(** [_addROAwl_CheckCoverage] counts the entries above. *)
Lemma CheckCoverage_spec self s fuel len cov (p : N) :
  pc_inv self s -> is_Some (node_data self !! p) -> klen (key (prefixTree self) p) <= len ->
  (Datatypes.S (pt_rank (prefixTree self) p) < fuel)%nat -> 0 <= cov ->
  cov + entries self (key (prefixTree self) p) (covers len) < 2 ^ 32 ->
  CheckCoverage_loop fuel (prefixTree self) (node_data self) len cov (Some p)
  = Ok (cov + entries self (key (prefixTree self) p) (covers len)).
Proof.
  intros Hinv. pose proof (inv_measure _ _ Hinv) as HM. revert cov p.
  set (t := prefixTree self) in *. set (D := node_data self) in *.
  induction fuel as [|fuel IH]; intros cov p Hp Hl Hf Hc Hb; [lia|]. cbn [CheckCoverage_loop].
  pose proof Hp as [d Hd]. unfold get_data. rewrite Hd. simpl_outcome.
  rewrite (ag_cov _ _ _ _ (pi_agrees _ _ Hinv p d Hd)). fold t D.
  change (rsum t D (key t p) (covers (klen (key t p))))
    with (entries self (key t p) (covers (klen (key t p)))).
  assert (forall x a c, covers len x a c = true -> covers (klen (key t p)) x a c = true) as Hsel.
  { unfold covers. intros x a c. rewrite !Z.leb_le. lia. }
  pose proof (ms_sel _ HM (key t p) _ _ Hsel). pose proof (ms_nonneg _ HM (key t p) (covers len)).
  destruct (Z.ltb_spec 0 (entries self (key t p) (covers (klen (key t p))))); [|f_equal; lia].
  destruct (getParent_spec t D p (pi_tree _ _ Hinv) (inv_data_ok _ _ Hinv)) as (o & -> & Ho).
  { by apply (inv_data_ok _ _ Hinv). }
  simpl_outcome. pose proof (rsum_split t D p d (covers len) (pi_tree _ _ Hinv) (inv_data_ok _ _ Hinv) Hd) as Es.
  rewrite (rabove_parent t D p o _ (pi_tree _ _ Hinv) (inv_data_ok _ _ Hinv) Ho) in Es.
  unfold entries in Hb |- *. fold t D in Hb |- *. rewrite Es in Hb |- *.
  assert (forall r, r ∈ roas_at d -> 1 <= roa_count r) as Hcount.
  { intros r. apply (pi_counts t D (pi_wf _ _ Hinv) p d r Hd). }
  assert (0 <= own d (covers len)) by by apply own_nonneg.
  assert (0 <= match o with Some q => rsum t D (key t q) (covers len) | None => 0 end).
  { destruct o as [q|]; [|lia]. apply (ms_nonneg _ HM). }
  rewrite ases_coverage_eq; [|intros x r Hx Hr; apply Hcount, elem_of_roas_at; by exists x|done|rewrite <- own_as; lia].
  rewrite <- own_as. destruct o as [q|].
  - destruct Ho as (Hq & Hqp & Hmax). rewrite Z.add_assoc. apply IH.
    + done.
    + apply strict_prefix_length in Hqp. unfold klen in *. lia.
    + assert (ancestor t p q) as Ha.
      { apply key_ancestor; [apply Hinv|by apply (inv_data_ok _ _ Hinv)..|done]. }
      apply ancestor_rank in Ha; [lia|apply Hinv].
    + lia.
    + change (entries self (key t q) (covers len)) with (rsum t D (key t q) (covers len)). lia.
  - destruct fuel; [lia|]. cbn [CheckCoverage_loop]. f_equal. lia.
Qed.

(** A prefix without updates and entries. *)
Lemma own_new st cov f : own (set_coverage (new_PC_Prefix (N := N) st) cov) f = 0.
Proof. done. Qed.

Lemma insert_prefix_inv self s n st cov ups :
  pc_inv self s -> node_data self !! n = None ->
  (exists pq, node_prefix (prefixTree self) n = Some pq /\ prefix_ok pq) ->
  cov = entries self (key (prefixTree self) n) (covers (klen (key (prefixTree self) n))) ->
  st = (if 0 <? entries self (key (prefixTree self) n) all_roas
        then SRx_RESULT_INVALID else SRx_RESULT_NOTFOUND) ->
  let d := set_coverage (new_PC_Prefix st) cov in
  let self' := mkPrefixCache (prefixTree self) (<[n := d]> (node_data self)) ups in
  pc_inv self' s /\ (forall k f, entries self' k f = entries self k f)
  /\ (forall id k a, has_update self' id k a <-> has_update self id k a).
Proof.
  intros Hinv Hn Hok Hcov Hst d self'.
  assert (forall k f, rsum (prefixTree self) (<[n := d]> (node_data self)) k f
                      = rsum (prefixTree self) (node_data self) k f) as HR.
  { intros k f. rewrite rsum_insert by done. unfold d. rewrite own_new. case_decide; lia. }
  assert (forall m d', <[n := d]> (node_data self) !! m = Some d' -> d' = d \/ node_data self !! m = Some d')
    as Hlook.
  { intros m d' Hm. apply lookup_insert_Some in Hm as [[_ <-]|[_ ?]]; auto. }
  assert (updates_at d = []) as Hu by done.
  split; [|split; [exact HR|]].
  - split; cbn [prefixTree node_data self'].
    + apply Hinv.
    + intros m [d' Hm]. apply lookup_insert_Some in Hm as [[<- _]|[_ Hm]]; [done|].
      apply (pi_nodes _ _ Hinv). by eexists.
    + intros m d' [[<- <-]|[_ Hm]]%lookup_insert_Some; [|by apply (pi_wf _ _ Hinv)].
      split; [done|constructor|..]; intros x Hx; by apply elem_of_nil in Hx.
    + intros m d' [[<- <-]|[_ Hm]]%lookup_insert_Some.
      * split; rewrite ?HR; try done; intros u Hin; by apply elem_of_nil in Hin.
      * eapply agrees_ext, (pi_agrees _ _ Hinv); auto.
    + intros k a. rewrite !HR. apply (pi_small _ _ Hinv).
    + intros q d' r Hq Hr. unfold usum. rewrite map_zsum_insert by done. rewrite Hu.
      apply lookup_insert_Some in Hq as [[<- <-]|[_ Hq]]; [by apply elem_of_nil in Hr|].
      pose proof (pi_uc _ _ Hinv q d' r Hq Hr). unfold usum in *. cbn. case_decide; lia.
    + apply Hinv.
    + intros m d' [-> |Hm]%Hlook; [|by apply (pi_synced _ _ Hinv m)].
      split; intros u Hin; by apply elem_of_nil in Hin.
    + intros m m' d1 d2 u u' [-> |H1']%Hlook [-> |H2']%Hlook Hu1 Hu2; rewrite ?Hu in *;
        try by apply elem_of_nil in Hu1 || apply elem_of_nil in Hu2. by eapply (pi_ids _ _ Hinv).
  - intros id k a. unfold has_update. split.
    + intros (m & d' & u & [-> |Hm]%Hlook & Hin & Hrest); [by apply elem_of_nil in Hin|]. by exists m, d', u.
    + intros (m & d' & u & Hm & Hin & Hrest). exists m, d', u. split; [|done]. cbn [node_data self'].
      rewrite lookup_insert_ne; [done|]. intros ->. congruence.
Qed.

(** The prefix of [addROAwl], new or not. *)
Lemma addROAwl_prefix_eq self s n ups :
  pc_inv self s -> room self ->
  (exists pq, node_prefix (prefixTree self) n = Some pq /\ prefix_ok pq) ->
  exists d, addROAwl_prefix (prefixTree self) (node_data self) n (klen (key (prefixTree self) n)) = Ok d
    /\ let self' := mkPrefixCache (prefixTree self) (<[n := d]> (node_data self)) ups in
       pc_inv self' s /\ (forall k f, entries self' k f = entries self k f)
       /\ (forall id k a, has_update self' id k a <-> has_update self id k a)
       /\ (forall r, r ∈ roas_at d -> exists q d0, node_data self !! q = Some d0 /\ r ∈ roas_at d0)
       /\ total_updates (node_data self') = total_updates (node_data self).
Proof.
  intros Hinv (Hroom & _ & _) Hok. unfold addROAwl_prefix.
  destruct (node_data self !! n) as [d|] eqn:Hn.
  { exists d. split; [done|]. cbn zeta. rewrite insert_id by done. split.
    - apply inv_keys; try done; apply Hinv.
    - split; [done|]. split; [done|]. split; [|done]. intros r Hr. by exists n, d. }
  pose proof (inv_data_ok _ _ Hinv) as HD. pose proof (pi_tree _ _ Hinv) as Hw.
  assert (is_Some (node_prefix (prefixTree self) n)) as HnS by (destruct Hok as (pq & -> & _); by eexists).
  destruct (getParent_spec (prefixTree self) (node_data self) n Hw HD HnS) as (o & -> & Ho).
  simpl_outcome. rewrite (parent_state self s n o Hinv Ho). simpl_outcome.
  set (st := if 0 <? _ then _ else _).
  pose proof (rsum_new (prefixTree self) (node_data self) n) as Hnew.
  pose proof (inv_measure _ _ Hinv) as HM.
  set (k := key (prefixTree self) n) in *.
  assert (exists d, (if bool_decide (is_Some o) && negb (st =? SRx_RESULT_NOTFOUND)
            then _addROAwl_CheckCoverage (prefixTree self) (node_data self) (klen k) (new_PC_Prefix st) o
            else Ok (new_PC_Prefix st)) = Ok d
          /\ d = set_coverage (new_PC_Prefix st) (entries self k (covers (klen k)))) as (d & -> & Ed).
  { destruct (bool_decide (is_Some o) && negb (st =? SRx_RESULT_NOTFOUND)) eqn:E.
    - apply andb_true_iff in E as [[p ->]%bool_decide_eq_true _]. unfold _addROAwl_CheckCoverage.
      destruct Ho as (Hp & Hpn & Hmax).
      assert (entries self k (covers (klen k)) = entries self (key (prefixTree self) p) (covers (klen k))) as Ek.
      { unfold entries. rewrite Hnew by done. apply (rabove_parent _ _ _ (Some p)); try done. }
      destruct (Hroom k 0) as [Hb _]. change (rsum _ _ k (covers (klen k))) with (entries self k (covers (klen k))) in Hb.
      rewrite (CheckCoverage_spec self s) with (cov := 0); [|done|done| | |done|lia].
      + simpl_outcome. eexists. split; [done|]. by rewrite Ek.
      + apply strict_prefix_length in Hpn. unfold klen. unfold k. lia.
      + pose proof (pt_rank_max (prefixTree self) p Hw). unfold tree_fuel. lia.
    - eexists. split; [done|]. unfold new_PC_Prefix, set_coverage. cbn. f_equal. unfold entries. rewrite Hnew by done.
      assert (rabove (prefixTree self) (node_data self) k all_roas <= 0) as Hz.
      { apply andb_false_iff in E as [E|E].
        - apply bool_decide_eq_false in E. destruct o; [by destruct E|].
          unfold k. by rewrite (rabove_parent _ _ _ None all_roas Hw HD Ho).
        - apply negb_false_iff, Z.eqb_eq in E. subst st. revert E.
          destruct (Z.ltb_spec 0 (rabove (prefixTree self) (node_data self) k all_roas)); [discriminate|lia]. }
      rewrite <- Hnew in Hz |- * by done.
      pose proof (ms_nonneg _ HM k (covers (klen k))). pose proof (ms_sel _ HM k (covers (klen k)) all_roas).
      unfold entries in *. assert (rsum (prefixTree self) (node_data self) k (covers (klen k))
        <= rsum (prefixTree self) (node_data self) k all_roas) by auto. lia. }
  exists d. split; [done|]. subst d.
  destruct (insert_prefix_inv self s n st (entries self k (covers (klen k))) ups Hinv Hn Hok) as (A & B & C); [done| |].
  { unfold entries. by rewrite Hnew. }
  cbn zeta. split; [exact A|]. split; [exact B|]. split; [exact C|]. split.
  - intros r Hr. by apply elem_of_nil in Hr.
  - unfold total_updates. cbn [node_data]. rewrite map_zsum_insert by done. done.
Qed.
End add.
End PrefixAdd.
