(* ===== verification/PrefixRoa.v ===== *)
(** * White-list entries against their specification (server/prefix_cache.c)

    [addROAwl] and [delROAwl] change the set of announced entries by one element,
    keep the updates and the invariant. *)
From S2P Require Import Prelude Lists SrxDefs Patricia SList PrefixCache PrefixTree PrefixSteps PrefixInv.
From S2P Require Import PrefixEntries PrefixWalks PrefixAdd.

Module PrefixRoa.
Import PrefixCache PrefixTree PrefixSteps PrefixInv PrefixEntries PrefixWalks PrefixAdd.

Section roa.
Context {T N S : Type} `{Countable N} `{PatriciaLaws T N} `{RoaSinkLaws S}.
Implicit Types (t : T) (n q : N) (s : S) (d : PC_Prefix N) (r : PC_ROA) (u : PC_Update N) (a : Z)
  (k : list bool) (D : gmap N (PC_Prefix N)) (f : sel) (self : PrefixCache T N).

(** ** Prefixes whose updates only moved *)
Definition framed D D' : Prop :=
  forall m, match D !! m, D' !! m with
            | Some d, Some d' => frame d' ≡ₚ frame d
            | None, None => True
            | _, _ => False
            end.

Lemma framed_lookup D D' m d' : framed D D' -> D' !! m = Some d' ->
  exists d, D !! m = Some d /\ frame d' ≡ₚ frame d.
Proof. intros Hf Hm. specialize (Hf m). rewrite Hm in Hf. destruct (D !! m) as [d|]; [|done]. by exists d. Qed.

Lemma framed_refl D : framed D D.
Proof. intros m. by destruct (D !! m). Qed.

Lemma framed_sym D D' : framed D D' -> framed D' D.
Proof. intros Hf m. specialize (Hf m). destruct (D !! m), (D' !! m); done. Qed.

Lemma framed_trans D1 D2 D3 : framed D1 D2 -> framed D2 D3 -> framed D1 D3.
Proof.
  intros H1' H2' m. specialize (H1' m). specialize (H2' m).
  destruct (D1 !! m), (D2 !! m), (D3 !! m); try done. by rewrite H2'.
Qed.

Lemma framed_insert D n d d' : D !! n = Some d -> frame d' ≡ₚ frame d -> framed D (<[n := d']> D).
Proof.
  intros Hn Hf m. destruct (decide (m = n)) as [->|Hne]; [by rewrite Hn, lookup_insert_eq|].
  rewrite lookup_insert_ne by done. by destruct (D !! m).
Qed.

Lemma framed_ids D D' : framed D D' -> ids_unique D -> ids_unique D'.
Proof.
  intros Hf Hids n n' d d' u u' Hn Hn' Hu Hu' E.
  destruct (framed_lookup D D' n d Hf Hn) as (d0 & Hd0 & Hf0).
  destruct (framed_lookup D D' n' d' Hf Hn') as (d1 & Hd1 & Hf1).
  destruct (frame_elem d0 d u Hf0 Hu) as (v & Hv & (Ev1 & Ev2 & _)%tag_eq).
  destruct (frame_elem d1 d' u' Hf1 Hu') as (v' & Hv' & (Ev1' & Ev2' & _)%tag_eq).
  destruct (Hids n n' d0 d1 v v') as [? ?]; try done; [congruence|]. split; [done|congruence].
Qed.

Lemma framed_usum t D D' k m a : framed D D' -> usum t D' k m a = usum t D k m a.
Proof.
  intros Hf. apply map_zsum_pointwise. intros n. specialize (Hf n).
  destruct (D !! n), (D' !! n); try done. by rewrite (frame_cnt_eq _ _ _ Hf).
Qed.

Lemma framed_total D D' : framed D D' -> total_updates D' = total_updates D.
Proof.
  intros Hf. apply map_zsum_pointwise. intros n. specialize (Hf n).
  destruct (D !! n), (D' !! n); try done. by rewrite (frame_length _ _ Hf).
Qed.

Lemma framed_nodes_ok t D D' : framed D D' -> nodes_ok t D -> nodes_ok t D'.
Proof.
  intros Hf Hn m [d' Hm]. destruct (framed_lookup D D' m d' Hf Hm) as (d & Hd & _).
  apply Hn. by eexists.
Qed.

Lemma framed_has_update t D D' ups ups' id k a : framed D D' ->
  has_update (mkPrefixCache t D' ups') id k a <-> has_update (mkPrefixCache t D ups) id k a.
Proof.
  assert (forall D D' ups ups', framed D D' -> has_update (mkPrefixCache t D' ups') id k a ->
            has_update (mkPrefixCache t D ups) id k a) as Hone.
  { intros E E' v v' Hf (m & d' & u & Hm & Hu & Eid & Ek & Ea).
    destruct (framed_lookup E E' m d' Hf Hm) as (d & Hd & Hfd).
    destruct (frame_elem d d' u Hfd Hu) as (w & Hw & (E1 & E2 & _)%tag_eq).
    exists m, d, w. split; [done|]. split; [done|]. split; [congruence|]. split; [done|congruence]. }
  intros Hf. split; [by apply Hone|]. apply Hone. by apply framed_sym.
Qed.

(** ** A prefix after the walks *)
Lemma wf_frame t n d d' : prefix_wf t n d -> asn d' = asn d -> sl_ok (valid d') -> sl_ok (other d') ->
  frame d' ≡ₚ frame d -> prefix_wf t n d'.
Proof.
  intros [(Hv & Ho & Ha) Hnd Has Hu] Ea Hv' Ho' Hf. split; rewrite ?Ea; try done.
  - intros x Hx. destruct (Has x Hx) as [A B C E]. split; try done. by rewrite (frame_cnt_eq _ _ _ Hf).
  - intros u Hin. destruct (frame_elem d d' u Hf Hin) as (v & Hv2 & (_ & <- & <-)%tag_eq).
    by apply Hu.
Qed.

Lemma sl_ok_parts (l : SList (PC_Update N)) a : sl_ok l ->
  sl_ok (mkSList (not_as a (nodes l)) (size l - cnt a (nodes l))).
Proof. unfold sl_ok. cbn [size nodes]. rewrite cnt_length. pose proof (length_parts a (nodes l)). lia. Qed.

Lemma wf_added t n hit a d : prefix_wf t n d -> prefix_wf t n (added hit a d).
Proof.
  intros Hw. destruct (pw_lists _ _ _ Hw) as (Hv & Ho & _).
  apply (wf_frame t n d); [done|by destruct hit| | |apply frame_added]; destruct hit; try done;
    cbn [added valid other].
  - unfold sl_ok in *. cbn [nodes size]. rewrite length_app, !length_fmap, cnt_length. lia.
  - by apply sl_ok_parts.
Qed.

Lemma wf_deleted t n hit last a st d : prefix_wf t n d -> prefix_wf t n (deleted hit last a st d).
Proof.
  intros Hw. destruct (pw_lists _ _ _ Hw) as (Hv & Ho & _).
  apply (wf_frame t n d); [done|by destruct hit, last| | |apply frame_deleted]; destruct hit, last; try done;
    cbn [deleted valid other].
  - by apply sl_ok_parts.
  - unfold sl_ok in *. cbn [nodes size]. by rewrite length_fmap.
  - unfold sl_ok in *. cbn [nodes size]. rewrite length_app, !length_fmap, cnt_length. lia.
Qed.

Lemma asn_added hit a d : asn (added hit a d) = asn d.
Proof. by destruct hit. Qed.
Lemma asn_deleted hit last a st d : asn (deleted hit last a st d) = asn d.
Proof. by destruct hit, last. Qed.

Lemma agrees_added (R R' : list bool -> sel -> Z) t n d r :
  measure R -> agrees R t n d ->
  (forall f, R' (key t n) f = R (key t n) f + if f (max_len r) (r_as r) (valCacheID r) then 1 else 0) ->
  agrees R' t n (added (klen (key t n) <=? max_len r) (r_as r) d).
Proof.
  intros HM [Hc Hs Hv Ho] HR. set (l := klen (key t n)) in *.
  pose proof (HR (covers l)) as Rc. unfold covers at 3 in Rc.
  pose proof (HR all_roas) as Ra. unfold all_roas at 3 in Ra. pose proof (ms_nonneg _ HM (key t n) all_roas).
  assert (forall b, R' (key t n) (matching l b)
            = R (key t n) (matching l b) + if (l <=? max_len r) && (r_as r =? b) then 1 else 0) as Rm.
  { intros b. apply HR. }
  destruct (l <=? max_len r) eqn:Hh; cbn [andb] in *.
  - split; cbn [added roa_coverage state_of_other valid other nodes]; fold l.
    + lia.
    + by rewrite (proj2 (Z.ltb_lt _ _)) by lia.
    + intros u [(v & -> & Hv')%list_elem_of_fmap|(v & -> & [Ev Hv']%elem_of_of_as)%list_elem_of_fmap]%elem_of_app;
        destruct (shift_fields (r_as r) 1 v) as (_ & -> & _ & ->); rewrite Rm.
      * destruct (Hv v Hv'). rewrite (Z.eqb_sym (r_as r)). destruct (u_as v =? r_as r); lia.
      * destruct (Ho v Hv'). rewrite Ev, Z.eqb_refl. rewrite Ev in *. lia.
    + intros u [Eu Hu]%elem_of_not_as. destruct (Ho u Hu). rewrite Rm.
      rewrite (proj2 (Z.eqb_neq (r_as r) _)) by congruence. lia.
  - split; cbn [added set_state roa_coverage state_of_other valid other nodes]; fold l.
    + lia.
    + by rewrite (proj2 (Z.ltb_lt _ _)) by lia.
    + intros u Hu. destruct (Hv u Hu). rewrite Rm. lia.
    + intros u Hu. destruct (Ho u Hu). rewrite Rm. lia.
Qed.

Lemma own_asn d d' f : asn d' = asn d -> own d' f = own d f.
Proof. intros E. unfold own, roas_at. by rewrite E. Qed.

(** ** Entries are told apart by their AS, validation cache and maximum length *)
Lemma NoDup_fmap_elem {A B} (g : A -> B) (l : list A) x y :
  NoDup (g <$> l) -> x ∈ l -> y ∈ l -> g x = g y -> x = y.
Proof.
  intros Hnd [i Hi]%list_elem_of_lookup [j Hj]%list_elem_of_lookup E.
  assert (i = j) as ->; [|congruence].
  eapply NoDup_lookup; [exact Hnd|by rewrite list_lookup_fmap, Hi|]. by rewrite list_lookup_fmap, Hj; simpl; f_equal.
Qed.

Lemma roas_at_unique t n d r r' : prefix_wf t n d -> r ∈ roas_at d -> r' ∈ roas_at d ->
  r_as r = r_as r' -> roa_id r = roa_id r' -> r = r'.
Proof.
  intros Hw (x & Hx & Hr)%elem_of_roas_at (x' & Hx' & Hr')%elem_of_roas_at Ea Eid.
  destruct (aw_roa _ _ _ (pw_as _ _ _ Hw x Hx) r Hr) as [E1 _].
  destruct (aw_roa _ _ _ (pw_as _ _ _ Hw x' Hx') r' Hr') as [E2 _].
  assert (x = x') as <- by (eapply (NoDup_fmap_elem pasn); [apply Hw|done|done|congruence]).
  eapply (NoDup_fmap_elem roa_id); [apply (pw_as _ _ _ Hw x Hx)|done..].
Qed.

Lemma roas_asn d d' : asn d' = asn d -> roas_at d' = roas_at d.
Proof. intros E. unfold roas_at. by rewrite E. Qed.

(** ** Assembling the invariant *)
Lemma rsum_pointwise t D D' k f : framed D D' ->
  (forall m d d', D !! m = Some d -> D' !! m = Some d' -> own d' f = own d f) ->
  rsum t D' k f = rsum t D k f.
Proof.
  intros Hf Ho. apply map_zsum_pointwise. intros m. specialize (Hf m).
  destruct (D !! m) as [d|] eqn:E, (D' !! m) as [d'|] eqn:E'; try done. case_decide; [|done]. by eapply Ho.
Qed.

Lemma agrees_fields (R : list bool -> sel -> Z) t n d d' :
  roa_coverage d' = roa_coverage d -> state_of_other d' = state_of_other d -> valid d' = valid d ->
  other d' = other d -> agrees R t n d -> agrees R t n d'.
Proof. intros E1 E2 E3 E4 [H1' H2' H3' H4']. by split; rewrite ?E1, ?E2, ?E3, ?E4. Qed.

Lemma agrees_set_asn (R : list bool -> sel -> Z) t n d l : agrees R t n d -> agrees R t n (set_asn d l).
Proof. by apply agrees_fields. Qed.

Lemma synced_set_asn s d l : synced s d -> synced s (set_asn d l).
Proof. by intros [Hv Ho]. Qed.

Lemma frame_set_asn d l : frame (set_asn d l) = frame d.
Proof. done. Qed.

Lemma framed_inv t D D' ups s s' : pc_inv (mkPrefixCache t D ups) s -> framed D D' ->
  (forall n d, D' !! n = Some d -> prefix_wf t n d) ->
  (forall n d, D' !! n = Some d -> agrees (rsum t D') t n d) ->
  (forall k a, rsum t D' k (covers (klen k)) < 2 ^ 32 /\ rsum t D' k (matching (klen k) a) < 2 ^ 16) ->
  (forall q d r, D' !! q = Some d -> r ∈ roas_at d ->
     usum t D (key t q) (max_len r) (r_as r) <= r_update_count r) ->
  rs_wf s' -> (forall n d, D' !! n = Some d -> synced s' d) ->
  pc_inv (mkPrefixCache t D' ups) s'.
Proof.
  intros Hinv Hf Hw Ha Hs Hu Hrs Hsy. split; cbn [prefixTree node_data]; try done.
  - apply Hinv.
  - eapply framed_nodes_ok, Hinv. done.
  - intros q d r Hq Hr. rewrite (framed_usum _ _ _ _ _ _ Hf). eauto.
  - eapply framed_ids, Hinv. done.
Qed.

Lemma inv_walk_pre t D D' ups s : pc_inv (mkPrefixCache t D ups) s -> framed D D' ->
  (forall n d d', D !! n = Some d -> D' !! n = Some d' ->
     roa_coverage d' = roa_coverage d /\ state_of_other d' = state_of_other d
     /\ valid d' = valid d /\ other d' = other d) ->
  walk_pre (rsum t D) t D' s.
Proof.
  intros Hinv Hf Hsame. split.
  - apply Hinv.
  - eapply framed_nodes_ok, Hinv. done.
  - apply (inv_measure _ _ Hinv).
  - intros n d' Hn. destruct (framed_lookup _ _ _ _ Hf Hn) as (d & Hd & _).
    destruct (Hsame n d d' Hd Hn) as (? & ? & ? & ?). eapply agrees_fields; try done.
    apply (pi_agrees _ _ Hinv n d Hd).
  - apply Hinv.
  - intros n d' Hn. destruct (framed_lookup _ _ _ _ Hf Hn) as (d & Hd & _).
    destruct (Hsame n d d' Hd Hn) as (_ & E2 & E3 & E4).
    destruct (pi_synced _ _ Hinv n d Hd) as [Hv Ho]. split; rewrite ?E2, ?E3, ?E4; done.
  - eapply framed_ids, Hinv. done.
Qed.
End roa.
End PrefixRoa.
