(* ===== verification/PrefixAnnounce.v ===== *)
(** * Announcing a white-list entry (server/prefix_cache.c)

    What [addROAwl] does to the cache: one more announcement of the entry, the
    same updates, and results that follow. *)
From S2P Require Import Prelude Lists SrxDefs Patricia SList PrefixCache PrefixTree PrefixSteps PrefixInv.
From S2P Require Import PrefixEntries PrefixWalks PrefixAdd PrefixRoa.

Module PrefixAnnounce.
Import PrefixCache PrefixTree PrefixSteps PrefixInv PrefixEntries PrefixWalks PrefixAdd PrefixRoa.

Section announce.
Context {T N S : Type} `{Countable N} `{PatriciaLaws T N} `{RoaSinkLaws S}.
Implicit Types (t : T) (n q : N) (s : S) (d : PC_Prefix N) (r : PC_ROA) (u : PC_Update N) (a : Z)
  (k : list bool) (D : gmap N (PC_Prefix N)) (f : sel) (self : PrefixCache T N).

(** The announcements that [f] selects of the entry with these values. *)
Definition one (f : sel) (maxLen a cache : Z) : Z := if f maxLen a cache then 1 else 0.

(** ** The entry and the walk

    [d2] is the prefix [d] with the entry counted. *)
Section core.
Context (t : T) (D : gmap N (PC_Prefix N)) (ups : list Z) (s : S) (n : N) (d d2 : PC_Prefix N).
Context (maxLen a cache : Z) (r : PC_ROA) (x : PC_AS) (i j : nat) (sup : bool).
Context (Hinv : pc_inv (mkPrefixCache t D ups) s) (Hroom : room (mkPrefixCache t D ups)).
Context (Hn : D !! n = Some d).
Context (Hr : r_as r = a /\ max_len r = maxLen /\ valCacheID r = cache).
Context (Hfields : exists l, d2 = set_asn d l) (Hw : prefix_wf t n d2).
Context (Hi : nodes (asn d2) !! i = Some x) (Hj : nodes (roas x) !! j = Some r).
Context (Hx : pasn x = a) (Hrw : roa_wf (klen (key t n)) a r).
Context (Hrc : r_update_count r = 0 \/ exists r0, r0 ∈ roas_at d /\ r_update_count r = r_update_count r0).
Context (Hown : forall f, own d2 f = own d f + one f maxLen a cache).
Context (Hroas : forall y, y ∈ roas_at d2 -> y = r \/ y ∈ roas_at d).
Let D2 := <[n := d2]> D.
Let R' := set_r_update_count r (r_update_count r + usum t D (key t n) maxLen a).

Lemma core_framed : framed D D2.
Proof. apply (framed_insert D n d); [done|]. destruct Hfields as [l ->]. by rewrite frame_set_asn. Qed.

Lemma core_pre : walk_pre (rsum t D) t D2 s.
Proof.
  apply (inv_walk_pre t D D2 ups); [done|apply core_framed|]. intros m e e' He He'.
  apply lookup_insert_Some in He' as [[<- <-]|[_ He']]; [|by simplify_eq].
  rewrite Hn in He. simplify_eq. destruct Hfields as [l ->]. done.
Qed.

Lemma core_uc : 0 <= r_update_count r /\ r_update_count r + usum t D (key t n) maxLen a < 2 ^ 32 - 1.
Proof.
  destruct Hroom as (_ & R2 & R3). cbn [prefixTree node_data] in *.
  pose proof (usum_total t D (key t n) maxLen a). destruct Hrw as (_ & _ & _ & ?). split; [lia|].
  destruct Hrc as [->|(r0 & Hr0 & ->)]; [lia|]. destruct (R2 n d r0 Hn Hr0). lia.
Qed.

Lemma core_walk : exists D3 s3, _addROAwl_verifyUpdates t sup n D2 r s = Ok (D3, (R', s3))
  /\ (forall m, D3 !! m = if decide (key t n `prefix_of` key t m)
                          then added (klen (key t m) <=? maxLen) a <$> D2 !! m else D2 !! m)
  /\ rs_wf s3 /\ (forall m e, D3 !! m = Some e -> synced s3 e).
Proof.
  destruct core_uc as [Hu1 Hu2]. destruct Hr as (Ea & Em & Ec).
  destruct (add_walk (rsum t D) t D2 s n r sup) as (D3 & s3 & E & HD3 & Hs3 & Hsy3).
  - apply core_pre.
  - done.
  - rewrite (framed_usum t D D2 _ _ _ core_framed), Ea, Em. lia.
  - intros k b. by destruct Hroom as [Hk _].
  - exists d2. apply lookup_insert_eq.
  - rewrite (framed_usum t D D2 _ _ _ core_framed), Ea, Em in *. exists D3, s3. done.
Qed.

(** After the walk the entry is written back. *)
Context (D3 : gmap N (PC_Prefix N)) (s3 : S).
Context (HD3 : forall m, D3 !! m = if decide (key t n `prefix_of` key t m)
                                   then added (klen (key t m) <=? maxLen) a <$> D2 !! m else D2 !! m).
Context (Hs3 : rs_wf s3) (Hsy3 : forall m e, D3 !! m = Some e -> synced s3 e).
Let d3 := added (klen (key t n) <=? maxLen) a d2.
Let d4 := set_asn d3 (setAtSList (asn d3) i (set_roas x (setAtSList (roas x) j R'))).
Let D4 := <[n := d4]> D3.

Lemma core_lookup : D3 !! n = Some d3.
Proof. rewrite HD3, decide_True by done. unfold D2. by rewrite lookup_insert_eq. Qed.

Lemma core_put : put_roa D3 n i j R' = Ok D4.
Proof.
  unfold put_roa, get_data. rewrite core_lookup. simpl_outcome. unfold d3 at 1. by rewrite asn_added, Hi.
Qed.

Lemma core_d4 : prefix_wf t n d4 /\ (forall f, own d4 f = own d2 f)
  /\ (forall y, y ∈ roas_at d4 -> y = R' \/ y ∈ roas_at d).
Proof.
  destruct core_uc as [Hu1 Hu2]. assert (0 <= usum t D (key t n) maxLen a) as Hus.
  { apply map_zsum_nonneg. intros q e _. pose proof (cnt_nonneg a (updates_at e)). case_decide; lia. }
  assert (roa_wf (klen (key t n)) (pasn x) R') as Hw'.
  { destruct Hrw as (? & ? & ? & ?). rewrite Hx. split; [done|]. split; [done|]. split; [done|]. simpl. lia. }
  destruct (put_roa_wf t n d3 i x j r R') as (A & B & C); try done.
  { by apply wf_added. }
  { unfold d3. by rewrite asn_added. }
  fold d4 in A, B, C. split; [exact A|]. split.
  { intros f. rewrite B, (own_asn d2 d3) by apply asn_added. unfold weight. cbn. lia. }
  intros y Hy. destruct (C y Hy) as [?|Hy3]; [by left|].
  rewrite (roas_asn d2 d3) in Hy3 by apply asn_added. destruct (Hroas y Hy3) as [->|?]; [|by right].
  left. apply (roas_at_unique t n d4); [done|done| |done|done].
  unfold d4. apply elem_of_roas_at. eexists. split.
  - cbn [asn set_asn setAtSList nodes]. eapply list_elem_of_lookup_2. apply list_lookup_insert_eq.
    unfold d3. rewrite asn_added. by eapply lookup_lt_Some.
  - cbn [roas set_roas setAtSList nodes]. eapply list_elem_of_lookup_2. apply list_lookup_insert_eq.
    by eapply lookup_lt_Some.
Qed.

(** A prefix of [D4] other than [n] is one of [D], perhaps treated by the walk. *)
Lemma core_other m e : m <> n -> D4 !! m = Some e ->
  exists d0, D !! m = Some d0
    /\ e = if decide (key t n `prefix_of` key t m) then added (klen (key t m) <=? maxLen) a d0 else d0.
Proof.
  intros Hne. unfold D4. rewrite lookup_insert_ne, HD3 by done. unfold D2. rewrite lookup_insert_ne by done.
  case_decide; [|by exists e]. intros (d0 & -> & E)%fmap_Some. by exists d0.
Qed.

Lemma core_framed4 : framed D D4.
Proof.
  intros m. unfold D4. destruct (decide (m = n)) as [->|Hne].
  - rewrite lookup_insert_eq, Hn. unfold d4. rewrite frame_set_asn. unfold d3. rewrite frame_added.
    by destruct Hfields as [l ->].
  - rewrite lookup_insert_ne, HD3 by done. unfold D2. rewrite lookup_insert_ne by done.
    case_decide; destruct (D !! m); try done. apply frame_added.
Qed.

Lemma core_rsum k f : rsum t D4 k f = rsum t D k f + if decide (key t n `prefix_of` k) then one f maxLen a cache else 0.
Proof.
  transitivity (rsum t D2 k f).
  - apply rsum_pointwise.
    + apply (framed_trans _ D); [apply framed_sym, core_framed|apply core_framed4].
    + intros m e e' He He'. destruct (decide (m = n)) as [->|Hne].
      * unfold D2, D4 in He, He'. rewrite lookup_insert_eq in He, He'.
        injection He as <-. injection He' as <-. apply core_d4.
      * unfold D2 in He. rewrite lookup_insert_ne in He by done.
        destruct (core_other m e' Hne He') as (d0 & Hd0 & ->). rewrite Hd0 in He. injection He as ->.
        case_decide; [|done]. apply own_asn, asn_added.
  - unfold D2. rewrite (rsum_update t D n d d2) by done. rewrite Hown. case_decide; lia.
Qed.

Lemma core_agrees m e : D4 !! m = Some e -> agrees (rsum t D4) t m e.
Proof.
  destruct Hr as (Ea & Em & Ec). pose proof (inv_measure _ _ Hinv) as HM.
  assert (forall g e0, key t n `prefix_of` key t g -> agrees (rsum t D) t g e0 ->
            agrees (rsum t D4) t g (added (klen (key t g) <=? maxLen) a e0)) as Hadd.
  { intros g e0 Hk Ha. rewrite <- Ea, <- Em. apply (agrees_added (rsum t D)); [done|done|].
    intros f. rewrite core_rsum, decide_True by done. by rewrite Ea, Em, Ec. }
  destruct (decide (m = n)) as [->|Hne].
  - unfold D4. rewrite lookup_insert_eq. intros [= <-]. apply agrees_set_asn, Hadd; [done|].
    destruct Hfields as [l ->]. apply agrees_set_asn. apply (pi_agrees _ _ Hinv n d Hn).
  - intros He. destruct (core_other m e Hne He) as (d0 & Hd0 & ->).
    pose proof (pi_agrees _ _ Hinv m d0 Hd0) as Ha. case_decide as Hk; [by apply Hadd|].
    eapply agrees_ext, Ha; [|done]. intros f. rewrite core_rsum, decide_False by done. apply Z.add_0_r.
Qed.

Lemma core_wf m e : D4 !! m = Some e -> prefix_wf t m e.
Proof.
  destruct (decide (m = n)) as [->|Hne].
  - unfold D4. rewrite lookup_insert_eq. intros [= <-]. apply core_d4.
  - intros He. destruct (core_other m e Hne He) as (d0 & Hd0 & ->).
    pose proof (pi_wf _ _ Hinv m d0 Hd0). case_decide; [by apply wf_added|done].
Qed.

Lemma core_counts q e y : D4 !! q = Some e -> y ∈ roas_at e ->
  usum t D (key t q) (max_len y) (r_as y) <= r_update_count y.
Proof.
  destruct Hr as (Ea & Em & Ec). destruct (decide (q = n)) as [->|Hne].
  - unfold D4. rewrite lookup_insert_eq. intros [= <-] Hy. destruct core_d4 as (_ & _ & Hd4).
    destruct core_uc as [Hu1 _]. destruct (Hd4 y Hy) as [->|Hy']; [|by apply (pi_uc _ _ Hinv n d)].
    cbn. rewrite Ea, Em. lia.
  - intros He Hy. destruct (core_other q e Hne He) as (d0 & Hd0 & ->).
    apply (pi_uc _ _ Hinv q d0 y Hd0). revert Hy. case_decide; [|done].
    by rewrite (roas_asn d0) by apply asn_added.
Qed.

Lemma core_inv : pc_inv (mkPrefixCache t D4 ups) s3.
Proof.
  apply (framed_inv t D D4 ups s s3 Hinv core_framed4 core_wf core_agrees); try done.
  - intros k b. rewrite !core_rsum. destruct Hroom as (Hk & _). destruct (Hk k b) as [B1 B2].
    cbn [prefixTree node_data] in *. unfold one. repeat case_match; lia.
  - apply core_counts.
  - intros m e. unfold D4. destruct (decide (m = n)) as [->|Hne].
    + rewrite lookup_insert_eq. intros [= <-]. apply synced_set_asn, (Hsy3 n), core_lookup.
    + rewrite lookup_insert_ne by done. apply Hsy3.
Qed.
End core.

(** The work of [addROAwl] on the prefix of the entry. *)
Lemma entry_added t D ups s n d a maxLen cache sup :
  pc_inv (mkPrefixCache t D ups) s -> room (mkPrefixCache t D ups) -> D !! n = Some d ->
  klen (key t n) <= maxLen ->
  exists d1 i x x' j r D3 r' s3 D4,
    addROAwl_as d a = Ok (d1, i, x) /\ addROAwl_roa x a maxLen cache = Ok (x', j, r)
    /\ _addROAwl_verifyUpdates t sup n (<[n := set_asn d1 (setAtSList (asn d1) i x')]> D) r s = Ok (D3, (r', s3))
    /\ put_roa D3 n i j r' = Ok D4
    /\ pc_inv (mkPrefixCache t D4 ups) s3 /\ framed D D4
    /\ forall k f, rsum t D4 k f
                  = rsum t D k f + if decide (key t n `prefix_of` k) then one f maxLen a cache else 0.
Proof.
  intros Hinv Hroom Hn Hlen.
  destruct (addROAwl_as_eq t n d a (pi_wf _ _ Hinv n d Hn)) as (d1 & i & x & E1 & Hi & Hx & Hw1 & Ho1 & [l Hl] & Hr1).
  destruct Hroom as (Rk & Rc & Rt). destruct (addROAwl_roa_eq t n d1 i x a maxLen cache Hw1 Hi Hx Hlen)
    as (x' & j & r & E2 & Hj & Ea & Em & Ec & Hx' & Hrw & Hrc & Hw2 & Hi2 & Ho2 & Hr2).
  { intros r Hr%Hr1. by apply (Rc n d r). }
  set (d2 := set_asn d1 (setAtSList (asn d1) i x')) in *.
  assert (exists l, d2 = set_asn d l) as Hf by (exists (setAtSList (asn d1) i x'); by subst).
  assert (forall f, own d2 f = own d f + one f maxLen a cache) as Hown by (intros f; by rewrite Ho2, Ho1).
  assert (forall y, y ∈ roas_at d2 -> y = r \/ y ∈ roas_at d) as Hroas.
  { intros y Hy. destruct (Hr2 y Hy); auto. }
  assert (r_update_count r = 0 \/ exists r0, r0 ∈ roas_at d /\ r_update_count r = r_update_count r0) as Hrc'.
  { destruct Hrc as [?|(r0 & ? & ?)]; [by left|right]. exists r0. auto. }
  assert (room (mkPrefixCache t D ups)) as Hroom by done. assert (r_as r = a /\ max_len r = maxLen /\ valCacheID r = cache) as Hr by done.
  edestruct (core_walk t D ups s n d d2 maxLen a cache r) as (D3 & s3 & E3 & HD3 & Hs3 & Hsy3); [eassumption..|].
  eexists d1, i, x, x', j, r, D3, _, s3, _. split; [exact E1|]. split; [exact E2|]. split; [exact E3|].
  split; [eapply core_put; eassumption|]. split; [eapply core_inv; eassumption|].
  split; [eapply core_framed4; eassumption|]. intros k f. eapply core_rsum; eassumption.
Qed.

Definition prefix_key (prefix : IPPrefix) : list bool := prefix_bits (ipPrefixToPrefix_t prefix).

Lemma prefix_key_len prefix : prefix_ok (ipPrefixToPrefix_t prefix) ->
  klen (prefix_key prefix) = length_bits prefix.
Proof.
  intros [E _]. unfold klen, prefix_key. rewrite E. unfold ipPrefixToPrefix_t. by destruct (_ =? 4).
Qed.

Lemma has_update_keys self t ups id k a : same_keys (prefixTree self) t (node_data self) ->
  has_update (mkPrefixCache t (node_data self) ups) id k a <-> has_update self id k a.
Proof.
  intros Hk. split; intros (n & d & u & Hn & Hu & Eid & Ek & Ea); exists n, d, u; cbn [prefixTree node_data] in *.
  - by rewrite <- Hk by by eexists.
  - by rewrite Hk by by eexists.
Qed.

Lemma addROAwl_spec self s oas prefix maxLen session_id cache sup :
  pc_inv self s -> room self -> prefix_ok (ipPrefixToPrefix_t prefix) -> length_bits prefix <= maxLen ->
  belongsToRfc5398 oas = false ->
  exists self' s', addROAwl self s oas prefix maxLen session_id cache sup = Ok (self', s', true)
    /\ pc_inv self' s'
    /\ (forall k f, entries self' k f = entries self k f
          + if decide (prefix_key prefix `prefix_of` k) then one f maxLen oas cache else 0)
    /\ (forall id k a, has_update self' id k a <-> has_update self id k a).
Proof.
  intros Hinv Hroom Hok Hlen Hr. unfold addROAwl. rewrite Hr.
  destruct (patricia_lookup _ _) as [[t n] ref] eqn:E.
  destruct (lookup_inv self s _ t n ref (updates self) Hinv Hok E) as (Hinv1 & Hnode & Hkey & Hsame & _).
  pose proof (room_keys self t (updates self) Hroom Hsame) as Hroom1.
  assert (klen (key t n) = length_bits prefix) as Hkl by (rewrite Hkey; by apply prefix_key_len).
  rewrite <- Hkl. set (self1 := mkPrefixCache t (node_data self) (updates self)) in *.
  destruct (addROAwl_prefix_eq self1 s n (updates self) Hinv1 Hroom1 Hnode)
    as (d & Ed & Hinv2 & He2 & Hu2 & Hroas2 & Htot2).
  cbn [prefixTree node_data self1] in Ed, Hinv2, He2, Hu2, Hroas2, Htot2 |- *. rewrite Ed. simpl_outcome.
  assert (room (mkPrefixCache t (<[n := d]> (node_data self)) (updates self))) as Hroom2.
  { destruct Hroom1 as (A & B & C). cbn [prefixTree node_data self1] in A, B, C. split; [|split; cbn [node_data]].
    - intros k a. pose proof (He2 k (covers (klen k))) as X1. pose proof (He2 k (matching (klen k) a)) as X2.
      unfold entries in X1, X2. cbn [prefixTree node_data] in X1, X2 |- *. rewrite X1, X2. apply A.
    - intros q d' r Hq Hin. rewrite Htot2. apply lookup_insert_Some in Hq as [[<- <-]|[_ Hq]].
      + destruct (Hroas2 r Hin) as (q & d0 & Hq & Hin0). by apply (B q d0).
      + by apply (B q d').
    - by rewrite Htot2. }
  destruct (entry_added t (<[n := d]> (node_data self)) (updates self) s n d oas maxLen cache sup)
    as (d1 & i & x & x' & j & r & D3 & r' & s3 & D4 & E1 & E2 & E3 & E4 & Hinv4 & Hf4 & He4); try done.
  { apply lookup_insert_eq. }
  { lia. }
  rewrite insert_insert_eq in E3.
  rewrite E1. simpl_outcome. rewrite E2. simpl_outcome. rewrite E3. simpl_outcome. rewrite E4. simpl_outcome.
  eexists _, s3. split; [done|]. split; [exact Hinv4|]. split.
  - intros k f. unfold entries at 1. cbn [prefixTree node_data]. rewrite He4. rewrite Hkey.
    change (rsum t (<[n := d]> (node_data self)) k f)
      with (entries (mkPrefixCache t (<[n := d]> (node_data self)) (updates self)) k f).
    rewrite He2. unfold entries, self1. cbn [prefixTree node_data]. by rewrite (rsum_keys _ _ _ _ _ Hsame).
  - intros id k a. rewrite (framed_has_update t _ D4 (updates self) _ id k a Hf4), Hu2.
    apply has_update_keys. done.
Qed.
End announce.
End PrefixAnnounce.
