(* ===== verification/PrefixWithdraw.v ===== *)
(** * Withdrawing a white-list entry (server/prefix_cache.c)

    What [delROAwl] does to the cache: one announcement of the entry less, if it
    is announced, the same updates, and results that follow. *)
From S2P Require Import Prelude Lists SrxDefs Patricia SList PrefixCache PrefixTree PrefixSteps PrefixInv.
From S2P Require Import PrefixEntries PrefixWalks PrefixAdd PrefixRoa PrefixAnnounce.

Module PrefixWithdraw.
Import PrefixCache PrefixTree PrefixSteps PrefixInv PrefixEntries PrefixWalks PrefixAdd PrefixRoa.
Import PrefixAnnounce.

Section withdraw.
Context {T N S : Type} `{Countable N} `{PatriciaLaws T N} `{RoaSinkLaws S}.
Implicit Types (t : T) (n q : N) (s : S) (d : PC_Prefix N) (r : PC_ROA) (u : PC_Update N) (a : Z)
  (k : list bool) (D : gmap N (PC_Prefix N)) (f : sel) (x : PC_AS) (self : PrefixCache T N).

(** ** Removing an entry from the lists of a prefix *)
Lemma wf_delete_roa t n d i j x r : prefix_wf t n d -> nodes (asn d) !! i = Some x ->
  nodes (roas x) !! j = Some r -> roa_count r = 1 ->
  let d' := set_asn d (setAtSList (asn d) i (set_roas x (deleteAtSList (roas x) j))) in
  prefix_wf t n d'
  /\ (forall f, own d' f = own d f - one f (max_len r) (r_as r) (valCacheID r))
  /\ (forall y, y ∈ roas_at d' -> y ∈ roas_at d).
Proof.
  intros Hw Hi Hj Hc d'. pose proof (pw_as _ _ _ Hw x ltac:(by eapply list_elem_of_lookup_2)) as [Hl Hnd Hu Hroa].
  destruct (delete_ok (roas x) j Hl) as [Ed Hd]; [by eapply lookup_lt_Some|].
  split; [|split].
  - apply (wf_same_count t n d i x); try done; cbn [roas set_roas].
    + rewrite Ed. cbn [nodes]. rewrite list_fmap_delete. eapply sublist_NoDup; [exact Hnd|apply sublist_delete].
    + rewrite Ed. intros y Hy%list_elem_of_delete_inv. by apply Hroa.
  - intros f. unfold d'. rewrite (own_set_as d i x _ f Hi). unfold as_sum. cbn [roas set_roas]. rewrite Ed.
    cbn [nodes]. rewrite (zsum_delete _ _ _ _ Hj). assert (weight f r = one f (max_len r) (r_as r) (valCacheID r)) as -> by (unfold weight, one; by rewrite Hc). lia.
  - intros y Hy. destruct (roas_at_set_as d i x _ y Hi Hy) as [?|Hy2]; [done|].
    cbn [roas set_roas] in Hy2. rewrite Ed in Hy2. apply list_elem_of_delete_inv in Hy2.
    apply elem_of_roas_at. exists x. split; [by eapply list_elem_of_lookup_2|done].
Qed.

(** Removing an AS without entries and updates. *)
Lemma wf_delete_as t n d i x : prefix_wf t n d -> nodes (asn d) !! i = Some x ->
  nodes (roas x) = [] -> a_update_count x = 0 ->
  let d' := set_asn d (deleteAtSList (asn d) i) in
  prefix_wf t n d' /\ (forall f, own d' f = own d f) /\ (forall y, y ∈ roas_at d' -> y ∈ roas_at d).
Proof.
  intros Hw Hi Hr Hu d'. pose proof (pw_as _ _ _ Hw x ltac:(by eapply list_elem_of_lookup_2)) as Hx.
  destruct Hw as [(Hv & Ho & Ha) Hnd Has Hupd].
  destruct (delete_ok (asn d) i Ha) as [Ed Hd]; [by eapply lookup_lt_Some|].
  pose proof (delete_Permutation _ _ _ Hi) as Hp.
  assert (forall y, y ∈ nodes (deleteAtSList (asn d) i) -> y ∈ nodes (asn d)) as Hsub.
  { intros y. rewrite Ed. apply list_elem_of_delete_inv. }
  split; [split|split]; unfold d'; cbn [asn set_asn valid other].
  - done.
  - rewrite Ed. cbn [nodes]. rewrite list_fmap_delete. eapply sublist_NoDup; [exact Hnd|apply sublist_delete].
  - intros y Hy. by apply Has, Hsub.
  - intros u Hin. destruct (Hupd u Hin) as [E Hin2]. split; [done|]. rewrite Ed. cbn [nodes].
    rewrite Hp, fmap_cons in Hin2. apply elem_of_cons in Hin2 as [Eu|?]; [|done]. exfalso.
    pose proof (aw_count _ _ _ Hx) as Hc. rewrite Hu, cnt_length in Hc.
    assert (u ∈ of_as (pasn x) (updates_at d)) as Hof by by apply elem_of_of_as.
    destruct (of_as (pasn x) (updates_at d)); [by apply elem_of_nil in Hof|simpl in Hc; lia].
  - intros f. rewrite !own_as. cbn [asn set_asn]. rewrite Ed. cbn [nodes]. rewrite (zsum_delete _ _ _ _ Hi).
    unfold as_sum at 2. rewrite Hr. cbn. lia.
  - intros y (z & Hz & Hy)%elem_of_roas_at. apply elem_of_roas_at. exists z. auto.
Qed.

Lemma roas_at_nil d : nodes (asn d) = [] -> roas_at d = [].
Proof. unfold roas_at. by intros ->. Qed.

(** [drop_roa] for the entry [r'], [r] with another [update_count]. *)
Lemma drop_roa_eq t n D d i j x r r' :
  D !! n = Some d -> prefix_wf t n d -> nodes (asn d) !! i = Some x -> nodes (roas x) !! j = Some r ->
  r_as r' = r_as r -> roa_id r' = roa_id r -> roa_count r' = roa_count r -> 0 <= r_update_count r' < 2 ^ 32 ->
  exists l, let d' := set_asn d l in
    drop_roa D n i j r' = Ok (if decide (nodes l = []) then delete n D else <[n := d']> D)
    /\ prefix_wf t n d'
    /\ (forall f, own d' f = own d f - one f (max_len r) (r_as r) (valCacheID r))
    /\ (forall y, y ∈ roas_at d' -> y ∈ roas_at d
          \/ 1 < roa_count r /\ r_as y = r_as r' /\ max_len y = max_len r' /\ r_update_count y = r_update_count r').
Proof.
  intros Hn Hw Hi Hj Ea Eid Ec Hu.
  pose proof (pw_as _ _ _ Hw x ltac:(by eapply list_elem_of_lookup_2)) as [Hl Hnd Huc Hroa].
  destruct (Hroa r) as (Er & Hcnt & Hml & _); [by eapply list_elem_of_lookup_2|].
  assert (i < length (nodes (asn d)))%nat as Hlt by by eapply lookup_lt_Some.
  destruct (delete_ok (roas x) j Hl) as [Ed Hd]; [by eapply lookup_lt_Some|].
  assert (forall y, nodes (setAtSList (asn d) i y) <> []) as Hne.
  { intros y E%(f_equal length). cbn [setAtSList nodes] in E. rewrite length_insert in E. simpl in E. lia. }
  unfold drop_roa, get_data. rewrite Hn. simpl_outcome. rewrite Hi, Ec, wrap_small by (unfold in_u; lia).
  cbn [roa_count set_roa_count]. destruct (Z.eqb_spec (roa_count r - 1) 0) as [E1|E1].
  - destruct (wf_delete_roa t n d i j x r Hw Hi Hj ltac:(lia)) as (Hw1 & Ho1 & Hr1).
    cbn [roas set_roas]. set (x' := set_roas x (deleteAtSList (roas x) j)) in *.
    change (a_update_count x') with (a_update_count x).
    destruct ((size (deleteAtSList (roas x) j) =? 0) && (a_update_count x =? 0)) eqn:E2.
    + apply andb_true_iff in E2 as [E2%Z.eqb_eq E3%Z.eqb_eq].
      assert (nodes (roas x') = []) as Ex.
      { cbn [roas set_roas x']. unfold sl_ok in Hd. rewrite E2 in Hd. by apply nil_length_inv; lia. }
      destruct (wf_delete_as t n (set_asn d (setAtSList (asn d) i x')) i x' Hw1) as (Hw2 & Ho2 & Hr2); try done.
      { cbn [asn set_asn setAtSList nodes]. by rewrite list_lookup_insert_eq. }
      assert (deleteAtSList (setAtSList (asn d) i x') i = deleteAtSList (asn d) i) as El.
      { unfold deleteAtSList, setAtSList. cbn [size nodes]. destruct (pw_lists _ _ _ Hw) as (_ & _ & Ha).
        unfold sl_ok in Ha. destruct (Z.eqb_spec (size (asn d)) 0); [lia|]. f_equal. by rewrite !delete_take_drop, take_insert_ge, drop_insert_lt by lia. }
      cbn [asn set_asn] in Hw2, Ho2, Hr2. rewrite El in *. exists (deleteAtSList (asn d) i). cbv zeta.
      split; [|split; [exact Hw2|split]].
      * cbn [asn set_asn]. destruct (pw_lists _ _ _ Hw2) as (_ & _ & Ha). cbn [asn set_asn] in Ha. unfold sl_ok in Ha.
        destruct (decide (nodes (deleteAtSList (asn d) i) = [])) as [En|En].
        -- rewrite En in Ha. by rewrite Ha.
        -- destruct (Z.eqb_spec (size (deleteAtSList (asn d) i)) 0); [|done].
           destruct En. apply nil_length_inv. lia.
      * intros f. rewrite <- Ho1. apply (Ho2 f).
      * intros y Hy. left. apply Hr1, Hr2, Hy.
    + exists (setAtSList (asn d) i x'). cbv zeta. rewrite decide_False by apply Hne.
      split; [done|]. split; [exact Hw1|]. split; [exact Ho1|]. intros y Hy. left. by apply Hr1.
  - set (r2 := set_roa_count r' (roa_count r - 1)).
    destruct (put_roa_wf t n d i x j r r2) as (Hw1 & Ho1 & Hr1); try done.
    { split; [simpl; congruence|]. unfold r2. cbn. unfold roa_id in Eid. injection Eid as _ ->. lia. }
    eexists. cbv zeta. split; [|split; [exact Hw1|split]].
    + rewrite decide_False by apply Hne. unfold put_roa, get_data. rewrite Hn. simpl_outcome. by rewrite Hi.
    + intros f. rewrite Ho1. unfold weight, r2, one. cbn. unfold roa_id in Eid. injection Eid as -> ->. rewrite Ea.
      destruct (f _ _ _); lia.
    + intros y Hy. destruct (Hr1 y Hy) as [->|?]; [|by left]. right. split; [lia|]. done.
Qed.

(** ** A prefix without entries and updates goes *)
Lemma delete_prefix_inv t D ups s n d : pc_inv (mkPrefixCache t D ups) s -> D !! n = Some d ->
  updates_at d = [] -> roas_at d = [] ->
  pc_inv (mkPrefixCache t (delete n D) ups) s
  /\ (forall k f, rsum t (delete n D) k f = rsum t D k f)
  /\ (forall id k a, has_update (mkPrefixCache t (delete n D) ups) id k a
                <-> has_update (mkPrefixCache t D ups) id k a).
Proof.
  intros [H1' H2' H3' H4' H5' H6' H7' H8' H9'] Hn Hu Hr. cbn [prefixTree node_data] in *.
  assert (forall k f, rsum t (delete n D) k f = rsum t D k f) as HR.
  { intros k f. rewrite (rsum_delete t D n d) by done. unfold own. rewrite Hr. cbn. case_decide; lia. }
  assert (forall m e, delete n D !! m = Some e -> D !! m = Some e) as Hsub.
  { intros m e He. by apply lookup_delete_Some in He as [_ ?]. }
  split; [|split; [exact HR|]].
  - split; cbn [prefixTree node_data]; try done.
    + intros m [e He]. apply H2'. eauto.
    + eauto.
    + intros m e He. eapply agrees_ext, H4'; eauto.
    + intros k a. rewrite !HR. apply H5'.
    + intros q e r He Hin. unfold usum. rewrite (map_zsum_delete _ _ _ _ Hn), Hu.
      pose proof (H6' q e r (Hsub q e He) Hin) as Hle. unfold usum in Hle. cbn. case_decide; lia.
    + eauto.
    + intros m m' e e' u u' He He'. eapply H9'; eauto.
  - intros id k a. split; intros (m & e & u & He & Hin & Hrest); exists m, e, u; cbn [prefixTree node_data] in *.
    + eauto.
    + split; [|done]. rewrite lookup_delete_ne; [done|]. intros <-. rewrite Hn in He. injection He as ->.
      rewrite Hu in Hin. by apply elem_of_nil in Hin.
Qed.

Lemma agrees_deleted (R R' : list bool -> sel -> Z) t n d r :
  measure R' -> agrees R t n d ->
  (forall f, R (key t n) f = R' (key t n) f + one f (max_len r) (r_as r) (valCacheID r)) ->
  agrees R' t n
    (deleted (klen (key t n) <=? max_len r) (R (key t n) (matching (klen (key t n)) (r_as r)) =? 1) (r_as r)
       (if 0 <? R' (key t n) all_roas then SRx_RESULT_INVALID else SRx_RESULT_NOTFOUND) d).
Proof.
  intros HM [Hc Hs Hv Ho] HR. set (l := klen (key t n)) in *. unfold one in HR.
  pose proof (HR (covers l)) as Rc. unfold covers at 3 in Rc.
  assert (forall b, R (key t n) (matching l b)
            = R' (key t n) (matching l b) + if (l <=? max_len r) && (r_as r =? b) then 1 else 0) as Rm.
  { intros b. apply HR. }
  assert (forall b, 0 <= R' (key t n) (matching l b)) as Rn by (intros b; apply (ms_nonneg _ HM)).
  destruct (l <=? max_len r) eqn:Hh; cbn [andb] in *.
  - destruct (Z.eqb_spec (R (key t n) (matching l (r_as r))) 1) as [E|E]; cbn [deleted];
      (split; cbn [roa_coverage state_of_other valid other nodes]; fold l; [lia|done|..]).
    + intros u [Ea Hu]%elem_of_not_as. destruct (Hv u Hu) as [Em Ep]. pose proof (Rm (u_as u)) as X.
      rewrite (proj2 (Z.eqb_neq _ _)) in X by congruence. lia.
    + intros u [Hu|(v & -> & [Ea Hu]%elem_of_of_as)%list_elem_of_fmap]%elem_of_app.
      * destruct (Ho u Hu) as [Em Ep]. pose proof (Rm (u_as u)) as X. specialize (Rn (u_as u)).
        split; [done|]. case_match; lia.
      * destruct (shift_fields (r_as r) (-1) v) as (_ & -> & _ & ->). destruct (Hv v Hu) as [Em Ep].
        rewrite Ea, Z.eqb_refl in *. pose proof (Rm (r_as r)) as X. rewrite Z.eqb_refl in X. lia.
    + intros u (v & -> & Hu)%list_elem_of_fmap. destruct (shift_fields (r_as r) (-1) v) as (_ & -> & _ & ->).
      destruct (Hv v Hu) as [Em Ep]. pose proof (Rm (u_as v)) as X. specialize (Rn (u_as v)).
      rewrite (Z.eqb_sym (r_as r)) in X. destruct (Z.eqb_spec (u_as v) (r_as r)) as [Ev|]; [|lia].
      rewrite Ev in *. lia.
    + intros u Hu. destruct (Ho u Hu) as [Em Ep]. pose proof (Rm (u_as u)) as X. specialize (Rn (u_as u)).
      split; [done|]. case_match; lia.
  - split; cbn [deleted set_state roa_coverage state_of_other valid other nodes]; fold l; [lia|done|..].
    + intros u Hu. destruct (Hv u Hu). pose proof (Rm (u_as u)). lia.
    + intros u Hu. destruct (Ho u Hu). pose proof (Rm (u_as u)). lia.
Qed.

(** ** The walk and the end of [delROAwl] *)
Section core.
Context (t : T) (D : gmap N (PC_Prefix N)) (ups : list Z) (s : S) (n : N) (d : PC_Prefix N).
Context (r : PC_ROA) (x : PC_AS) (i j : nat) (sup : bool).
Context (Hinv : pc_inv (mkPrefixCache t D ups) s) (Hn : D !! n = Some d).
Context (Hi : nodes (asn d) !! i = Some x) (Hj : nodes (roas x) !! j = Some r).
(** [d0] is the prefix without the announcement; the walk makes [R0] true. *)
Context (l0 : SList PC_AS).
Let d0 := set_asn d l0.
Let D0 := <[n := d0]> D.
Let R0 := rsum t D0.
Context (Hw0 : prefix_wf t n d0)
  (Ho0 : forall f, own d0 f = own d f - one f (max_len r) (r_as r) (valCacheID r)).
Let U := usum t D (key t n) (max_len r) (r_as r).
Let state (m : N) : Z := if 0 <? R0 (key t m) all_roas then SRx_RESULT_INVALID else SRx_RESULT_NOTFOUND.
Let last (m : N) : bool := rsum t D (key t m) (matching (klen (key t m)) (r_as r)) =? 1.

Lemma del_framed0 : framed D D0.
Proof. by apply (framed_insert D n d). Qed.

Lemma del_rsum0 k f : rsum t D k f
  = R0 k f + if decide (key t n `prefix_of` k) then one f (max_len r) (r_as r) (valCacheID r) else 0.
Proof. unfold R0, D0. rewrite (rsum_update t D n d) by done. rewrite Ho0. case_decide; lia. Qed.

Lemma del_wf0 m e : D0 !! m = Some e -> prefix_wf t m e.
Proof.
  intros [[<- <-]|[_ Hm]]%lookup_insert_Some; [done|]. by apply (pi_wf _ _ Hinv).
Qed.

Lemma del_measure0 : measure R0.
Proof. apply rsum_measure, (pi_counts t), del_wf0. Qed.

Lemma del_data0 : data_ok t D0.
Proof. apply nodes_data_ok. eapply framed_nodes_ok; [apply del_framed0|apply Hinv]. Qed.

Lemma is_Some_D0 m : is_Some (D !! m) <-> is_Some (D0 !! m).
Proof.
  pose proof (del_framed0 m) as Hf. destruct (D !! m), (D0 !! m); done || (split; intros; by eexists).
Qed.

Lemma del_roa_elem : r ∈ roas_at d.
Proof. apply elem_of_roas_at. exists x. split; by eapply list_elem_of_lookup_2. Qed.

Lemma del_U : 0 <= U <= r_update_count r /\ r_update_count r < 2 ^ 32.
Proof.
  destruct (pw_roas_at t n d r (pi_wf _ _ Hinv n d Hn) del_roa_elem) as (_ & _ & ?).
  pose proof (pi_uc _ _ Hinv n d r Hn del_roa_elem) as Hu. cbn [prefixTree node_data] in Hu. split; [|lia].
  split; [|done]. apply map_zsum_nonneg. intros m e _. pose proof (cnt_nonneg (r_as r) (updates_at e)).
  case_decide; lia.
Qed.

(** All entries of a prefix cover it. *)
Lemma own_covers m e f : prefix_wf t m e -> own e all_roas = own e (covers (klen (key t m))).
Proof.
  intros Hw. apply zsum_ext. intros y Hy. destruct (pw_roas_at t m e y Hw Hy) as (_ & Hl & _).
  unfold all_roas, covers. by rewrite (proj2 (Z.leb_le _ _) Hl).
Qed.

Lemma del_walk_core : exists D3 s3,
  _delROAwl_validateUpdates t sup
    (if 0 <? rabove t D (key t n) all_roas then SRx_RESULT_INVALID else SRx_RESULT_NOTFOUND) n D r s
    = Ok (D3, (drop_uc r U, s3))
  /\ (forall m, D3 !! m = if decide (key t n `prefix_of` key t m)
        then deleted (klen (key t m) <=? max_len r) (last m) (r_as r) (state m) <$> D !! m else D !! m)
  /\ rs_wf s3 /\ (forall m e, D3 !! m = Some e -> synced s3 e).
Proof.
  pose proof (pi_tree _ _ Hinv) as Ht. cbn [prefixTree] in Ht.
  assert (forall m f, 0 <= rabove t D0 (key t m) f) as Hnn.
  { intros m f. apply map_zsum_nonneg. intros q e He. case_decide; [|lia].
    apply own_nonneg. intros y Hy. by destruct (pw_roas_at t q e y (del_wf0 q e He) Hy) as [[? _] _]. }
  assert (forall m, is_Some (D !! m) -> exists e, prefix_wf t m e /\ 0 <= own e all_roas
            /\ forall f, R0 (key t m) f = own e f + rabove t D0 (key t m) f) as Hsplit.
  { intros m [e He]%is_Some_D0. exists e. pose proof (del_wf0 m e He) as Hw. split; [done|]. split.
    - apply own_nonneg. intros y Hy. by destruct (pw_roas_at t m e y Hw Hy) as [[? _] _].
    - intros f. apply rsum_split; [done|apply del_data0|done]. }
  destruct (del_walk (rsum t D) R0 (fun m => rabove t D0 (key t m) all_roas) t D s n r sup)
    with (x := if 0 <? rabove t D (key t n) all_roas then SRx_RESULT_INVALID else SRx_RESULT_NOTFOUND)
    as (D3 & s3 & E & HD3 & Hs3 & Hsy3).
  - apply (inv_walk_pre t D D ups); [done|apply framed_refl|]; intros m e e' He He'; by simplify_eq.
  - apply del_measure0.
  - intros k f Hk. rewrite del_rsum0, decide_True by done. done.
  - intros m Hm. destruct (Hsplit m Hm) as (e & Hw & _ & HR). rewrite !HR, (own_covers m e all_roas Hw).
    pose proof (Hnn m (covers (klen (key t m)))). lia.
  - intros m Hm. destruct (Hsplit m Hm) as (e & Hw & He & HR). rewrite HR. pose proof (Hnn m all_roas). lia.
  - intros m c Hm Hc. apply rabove_child; [done|apply del_data0|by apply is_Some_D0|].
    destruct Hc as (Hc & Ha & Hno). split; [by apply is_Some_D0|]. split; [done|].
    intros q Hq Hq'. specialize (Hno q Hq Hq'). apply eq_None_not_Some. rewrite <- is_Some_D0.
    by apply eq_None_not_Some.
  - pose proof del_U. unfold U in *. lia.
  - intros k a. apply (pi_small _ _ Hinv).
  - by eexists.
  - replace (rabove t D (key t n) all_roas) with (rabove t D0 (key t n) all_roas); [done|].
    apply map_zsum_pointwise. intros m. unfold D0. destruct (decide (m = n)) as [->|Hne].
    + rewrite lookup_insert_eq, Hn. rewrite !decide_False by (by intros [_ ?]). done.
    + rewrite lookup_insert_ne by done. by destruct (D !! m).
  - exists D3, s3. done.
Qed.

(** After the walk the announcement is dropped. *)
Context (D3 : gmap N (PC_Prefix N)) (s3 : S).
Context (HD3 : forall m, D3 !! m = if decide (key t n `prefix_of` key t m)
  then deleted (klen (key t m) <=? max_len r) (last m) (r_as r) (state m) <$> D !! m else D !! m).
Context (Hs3 : rs_wf s3) (Hsy3 : forall m e, D3 !! m = Some e -> synced s3 e).
Let d3 := deleted (klen (key t n) <=? max_len r) (last n) (r_as r) (state n) d.
Context (l : SList PC_AS).
Let d4 := set_asn d3 l.
Let D4 := <[n := d4]> D3.
Context (Hw4 : prefix_wf t n d4)
  (Ho4 : forall f, own d4 f = own d3 f - one f (max_len r) (r_as r) (valCacheID r))
  (Hr4 : forall y, y ∈ roas_at d4 -> y ∈ roas_at d3
     \/ 1 < roa_count r /\ r_as y = r_as r /\ max_len y = max_len r /\ r_update_count y = r_update_count (drop_uc r U)).

Lemma del_lookup3 : D3 !! n = Some d3.
Proof. by rewrite HD3, decide_True, Hn by done. Qed.

Lemma del_other m e : m <> n -> D4 !! m = Some e ->
  exists e0, D !! m = Some e0
    /\ e = if decide (key t n `prefix_of` key t m)
           then deleted (klen (key t m) <=? max_len r) (last m) (r_as r) (state m) e0 else e0.
Proof.
  intros Hne. unfold D4. rewrite lookup_insert_ne, HD3 by done.
  case_decide; [|by exists e]. intros (e0 & -> & E)%fmap_Some. by exists e0.
Qed.

Lemma del_framed4 : framed D D4.
Proof.
  intros m. unfold D4. destruct (decide (m = n)) as [->|Hne].
  - rewrite lookup_insert_eq, Hn. apply frame_deleted.
  - rewrite lookup_insert_ne, HD3 by done. case_decide; destruct (D !! m); try done. apply frame_deleted.
Qed.

Lemma del_rsum4 k f : rsum t D4 k f = R0 k f.
Proof.
  apply rsum_pointwise; [apply (framed_trans _ D); [apply framed_sym, del_framed0|apply del_framed4]|].
  intros m e e' He He'. destruct (decide (m = n)) as [->|Hne].
  - unfold D0 in He. unfold D4 in He'. rewrite lookup_insert_eq in He, He'.
    injection He as <-. injection He' as <-. rewrite Ho4, Ho0. by rewrite (own_asn d d3) by apply asn_deleted.
  - unfold D0 in He. rewrite lookup_insert_ne in He by done.
    destruct (del_other m e' Hne He') as (e0 & He0 & ->). rewrite He0 in He. injection He as ->.
    case_decide; [|done]. apply own_asn, asn_deleted.
Qed.

Lemma del_agrees m e : D4 !! m = Some e -> agrees (rsum t D4) t m e.
Proof.
  assert (forall g e0, D !! g = Some e0 -> key t n `prefix_of` key t g ->
            agrees (rsum t D4) t g (deleted (klen (key t g) <=? max_len r) (last g) (r_as r) (state g) e0)) as Hdel.
  { intros g e0 Hg Hk. unfold last, state. rewrite <- del_rsum4. apply agrees_deleted.
    - destruct del_measure0 as [A B C]. split; intros; rewrite !del_rsum4; eauto.
    - apply (pi_agrees _ _ Hinv g e0 Hg).
    - intros f. rewrite del_rsum4, del_rsum0, decide_True by done. done. }
  destruct (decide (m = n)) as [->|Hne].
  - unfold D4 at 1. rewrite lookup_insert_eq. intros [= <-]. by apply agrees_set_asn, Hdel.
  - intros He. destruct (del_other m e Hne He) as (e0 & He0 & ->).
    case_decide as Hk; [by apply Hdel|]. eapply agrees_ext; [|done|apply (pi_agrees _ _ Hinv m e0 He0)].
    intros f. cbn [prefixTree node_data]. rewrite del_rsum4, del_rsum0, decide_False by done. lia.
Qed.

Lemma del_wf m e : D4 !! m = Some e -> prefix_wf t m e.
Proof.
  destruct (decide (m = n)) as [->|Hne].
  - unfold D4. rewrite lookup_insert_eq. by intros [= <-].
  - intros He. destruct (del_other m e Hne He) as (e0 & He0 & ->).
    pose proof (pi_wf _ _ Hinv m e0 He0). case_decide; [by apply wf_deleted|done].
Qed.

Lemma del_counts q e y : D4 !! q = Some e -> y ∈ roas_at e ->
  usum t D (key t q) (max_len y) (r_as y) <= r_update_count y.
Proof.
  destruct (decide (q = n)) as [->|Hne].
  - unfold D4. rewrite lookup_insert_eq. intros [= <-] Hy. destruct (Hr4 y Hy) as [Hy'|(Hc & Ea & Em & Eu)].
    + unfold d3 in Hy'. rewrite (roas_asn d) in Hy' by apply asn_deleted. by apply (pi_uc _ _ Hinv n d).
    + rewrite Ea, Em, Eu. unfold drop_uc. rewrite (proj2 (Z.eqb_neq _ _)) by lia.
      apply (pi_uc _ _ Hinv n d r Hn del_roa_elem).
  - intros He Hy. destruct (del_other q e Hne He) as (e0 & He0 & ->).
    apply (pi_uc _ _ Hinv q e0 y He0). revert Hy. case_decide; [|done].
    by rewrite (roas_asn e0) by apply asn_deleted.
Qed.

Lemma del_inv4 : pc_inv (mkPrefixCache t D4 ups) s3.
Proof.
  apply (framed_inv t D D4 ups s s3 Hinv del_framed4 del_wf del_agrees); try done.
  - intros k b. rewrite !del_rsum4. destruct (pi_small _ _ Hinv k b) as [B1 B2]. cbn [prefixTree node_data] in *.
    rewrite !del_rsum0 in B1, B2. unfold one in *. repeat case_match; lia.
  - apply del_counts.
  - intros m e. unfold D4. destruct (decide (m = n)) as [->|Hne].
    + rewrite lookup_insert_eq. intros [= <-]. apply synced_set_asn, (Hsy3 n), del_lookup3.
    + rewrite lookup_insert_ne by done. apply Hsy3.
Qed.

(** The prefix goes when its last AS goes. *)
Lemma del_final : let D5 := if decide (nodes l = []) then delete n D3 else D4 in
  pc_inv (mkPrefixCache t D5 ups) s3
  /\ (forall k f, rsum t D5 k f = R0 k f)
  /\ (forall id k a, has_update (mkPrefixCache t D5 ups) id k a <-> has_update (mkPrefixCache t D ups) id k a).
Proof.
  cbv zeta. pose proof del_inv4 as Hinv4. case_decide as Hl.
  - destruct (delete_prefix_inv t D4 ups s3 n d4 Hinv4) as (A & B & C).
    + apply lookup_insert_eq.
    + destruct (updates_at d4) as [|u k] eqn:E; [done|]. exfalso.
      destruct (pw_upd _ _ _ Hw4 u) as [_ Hu]; [rewrite E; by left|]. unfold d4 in Hu. cbn [asn set_asn] in Hu.
      rewrite Hl in Hu. by apply elem_of_nil in Hu.
    + by apply roas_at_nil.
    + unfold D4 in A, B, C. rewrite delete_insert_eq in A, B, C. split; [exact A|]. split.
      * intros k f. rewrite B. apply del_rsum4.
      * intros id k a. rewrite C. apply framed_has_update, del_framed4.
  - split; [done|]. split; [apply del_rsum4|]. intros id k a. apply framed_has_update, del_framed4.
Qed.
End core.

(** The work of [delROAwl] on an entry that is announced. *)
Lemma entry_dropped t D ups s n d i x j r sup :
  pc_inv (mkPrefixCache t D ups) s -> D !! n = Some d ->
  nodes (asn d) !! i = Some x -> nodes (roas x) !! j = Some r ->
  exists D3 r' s3 D5,
    _delROAwl_validateUpdates t sup
      (if 0 <? rabove t D (key t n) all_roas then SRx_RESULT_INVALID else SRx_RESULT_NOTFOUND) n D r s
      = Ok (D3, (r', s3))
    /\ drop_roa D3 n i j r' = Ok D5
    /\ pc_inv (mkPrefixCache t D5 ups) s3
    /\ (forall k f, rsum t D k f = rsum t D5 k f
          + if decide (key t n `prefix_of` k) then one f (max_len r) (r_as r) (valCacheID r) else 0)
    /\ (forall id k a, has_update (mkPrefixCache t D5 ups) id k a <-> has_update (mkPrefixCache t D ups) id k a).
Proof.
  intros Hinv Hn Hi Hj. pose proof (pi_wf _ _ Hinv n d Hn) as Hw. cbn [prefixTree] in Hw.
  pose proof (del_U t D ups s n d r x i j Hinv Hn Hi Hj) as HU.
  destruct (drop_roa_eq t n D d i j x r r Hn Hw Hi Hj) as (l0 & _ & Hw0 & Ho0 & _); [done..|lia|].
  destruct (del_walk_core t D ups s n d r x i j sup Hinv Hn Hi Hj l0 Hw0 Ho0) as (D3 & s3 & E3 & HD3 & Hs3 & Hsy3).
  set (r' := drop_uc r _) in E3.
  pose proof (del_lookup3 t D n d r Hn l0 D3 HD3) as Hn3.
  set (d3 := deleted _ _ _ _ _) in Hn3.
  destruct (drop_roa_eq t n D3 d3 i j x r r') as (l & E5 & Hw4 & Ho4 & Hr4); try done.
  { by apply wf_deleted. }
  { unfold d3. by rewrite asn_deleted. }
  { unfold r', drop_uc. cbn [r_update_count set_r_update_count]. destruct (roa_count r =? 1); lia. }
  destruct (del_final t D ups s n d r x i j Hinv Hn Hi Hj l0 Hw0 Ho0 D3 s3 HD3 Hs3 Hsy3 l Hw4 Ho4)
    as (A & B & C).
  { intros y Hy. destruct (Hr4 y Hy); [by left|by right]. }
  exists D3, r', s3, (if decide (nodes l = []) then delete n D3 else <[n := set_asn d3 l]> D3).
  split; [exact E3|]. split; [exact E5|]. split; [exact A|]. split; [|exact C].
  intros k f. rewrite B. by apply (del_rsum0 t D n d r).
Qed.

(** An entry with the bits [k], the AS, the maximum length and the validation cache. *)
Definition announced self k a (maxLen cache : Z) : Prop :=
  exists n d r, node_data self !! n = Some d /\ key (prefixTree self) n = k /\ r ∈ roas_at d
    /\ r_as r = a /\ max_len r = maxLen /\ valCacheID r = cache.

Lemma announced_keys self t ups k a maxLen cache : same_keys (prefixTree self) t (node_data self) ->
  announced (mkPrefixCache t (node_data self) ups) k a maxLen cache <-> announced self k a maxLen cache.
Proof.
  intros Hk. split; intros (n & d & r & Hn & Ek & Hrest); exists n, d, r; cbn [prefixTree node_data] in *.
  - by rewrite <- Hk by by eexists.
  - by rewrite Hk by by eexists.
Qed.

(** The searches of [delROAwl] find the entry exactly if it is announced. *)
Lemma find_announced self s n a maxLen cache : pc_inv self s ->
  is_Some (node_prefix (prefixTree self) n) ->
  announced self (key (prefixTree self) n) a maxLen cache <->
  exists d i x j r, node_data self !! n = Some d /\ find_as (asn d) a = Some (i, x)
    /\ find_roa (roas x) cache maxLen = Some (j, r).
Proof.
  intros Hinv HnS. split.
  - intros (m & d & r & Hm & Ek & Hr & Ea & Em & Ec).
    assert (m = n) as ->.
    { eapply key_inj; [apply Hinv|apply (inv_data_ok _ _ Hinv); by eexists|done|done]. }
    apply elem_of_roas_at in Hr as (x & Hx & Hr). pose proof (pi_wf _ _ Hinv n d Hm) as Hw.
    destruct (aw_roa _ _ _ (pw_as _ _ _ Hw x Hx) r Hr) as [Er _].
    destruct (find_as (asn d) a) as [[i y]|] eqn:F1.
    2: { apply find_as_None in F1. destruct F1. apply list_elem_of_fmap. exists x. split; [congruence|done]. }
    pose proof F1 as [Hi Hy]%find_as_Some.
    assert (y = x) as ->.
    { eapply (NoDup_fmap_elem pasn); [apply Hw|by eapply list_elem_of_lookup_2|done|congruence]. }
    destruct (find_roa (roas x) cache maxLen) as [[j r']|] eqn:F2.
    2: { apply find_roa_None in F2. destruct F2. apply list_elem_of_fmap. exists r. split; [|done].
         unfold roa_id. by rewrite Em, Ec. }
    by exists d, i, x, j, r'.
  - intros (d & i & x & j & r & Hn & [Hi Hx]%find_as_Some & (Hj & Ec & Em)%find_roa_Some).
    assert (r ∈ roas_at d) as Hr by (apply elem_of_roas_at; exists x; split; by eapply list_elem_of_lookup_2).
    exists n, d, r. split; [done|]. split; [done|]. split; [done|]. split; [|done].
    pose proof (pi_wf _ _ Hinv n d Hn) as Hw.
    destruct (aw_roa _ _ _ (pw_as _ _ _ Hw x ltac:(by eapply list_elem_of_lookup_2)) r) as [-> _]; [|done].
    by eapply list_elem_of_lookup_2.
Qed.

Lemma delROAwl_spec self s oas prefix maxLen session_id cache sup :
  pc_inv self s -> prefix_ok (ipPrefixToPrefix_t prefix) ->
  exists self' s' b, delROAwl self s oas prefix maxLen session_id cache sup = Ok (self', s', b)
    /\ (b = true <-> announced self (prefix_key prefix) oas maxLen cache)
    /\ pc_inv self' s'
    /\ (forall k f, entries self k f = entries self' k f
          + if b && bool_decide (prefix_key prefix `prefix_of` k) then one f maxLen oas cache else 0)
    /\ (forall id k a, has_update self' id k a <-> has_update self id k a)
    /\ (b = false -> s' = s).
Proof.
  intros Hinv Hok. unfold delROAwl.
  destruct (patricia_lookup _ _) as [[t n] ref] eqn:E.
  destruct (lookup_inv self s _ t n ref (updates self) Hinv Hok E) as (Hinv1 & (pq & Hpq & _) & Hkey & Hsame & _).
  cbn [updates node_data]. set (self1 := mkPrefixCache t (node_data self) (updates self)) in *.
  fold (prefix_key prefix) in Hkey.
  assert (announced self (prefix_key prefix) oas maxLen cache <-> exists d i x j r,
            node_data self !! n = Some d /\ find_as (asn d) oas = Some (i, x)
            /\ find_roa (roas x) cache maxLen = Some (j, r)) as Hann.
  { rewrite <- (announced_keys self t (updates self)), <- Hkey by done.
    apply (find_announced self1 s); [done|]. by eexists. }
  assert (forall k f, entries self k f = entries self1 k f + 0) as He1.
  { intros k f. unfold entries, self1. cbn [prefixTree node_data]. rewrite (rsum_keys _ _ _ _ _ Hsame). lia. }
  assert ((forall d i x j r, node_data self !! n = Some d -> find_as (asn d) oas = Some (i, x) ->
            find_roa (roas x) cache maxLen = Some (j, r) -> False) ->
          exists self' s' b, Ok (self1, s, false) = Ok (self', s', b)
    /\ (b = true <-> announced self (prefix_key prefix) oas maxLen cache)
    /\ pc_inv self' s'
    /\ (forall k f, entries self k f = entries self' k f
          + if b && bool_decide (prefix_key prefix `prefix_of` k) then one f maxLen oas cache else 0)
    /\ (forall id k a, has_update self' id k a <-> has_update self id k a)
    /\ (b = false -> s' = s)) as Hnone.
  { intros Hno. exists self1, s, false. split; [done|]. split; [|split; [done|split; [done|split; [|done]]]].
    - rewrite Hann. split; [done|]. intros (d & i & x & j & r & A & B & C). by destruct (Hno d i x j r).
    - intros id k a. by apply has_update_keys. }
  destruct (node_data self !! n) as [d|] eqn:Hn; [|apply Hnone; intros; simplify_eq].
  destruct (find_as (asn d) oas) as [[i x]|] eqn:F1; [|apply Hnone; intros; simplify_eq].
  destruct (find_roa (roas x) cache maxLen) as [[j r]|] eqn:F2; [|apply Hnone; intros; simplify_eq].
  clear Hnone. pose proof F1 as [Hi Hx]%find_as_Some. pose proof F2 as (Hj & Ec & Em)%find_roa_Some.
  destruct (getParent_spec t (node_data self) n) as (o & Eo & Ho); [apply Hinv1|by apply (inv_data_ok _ _ Hinv1)|by eexists|].
  rewrite Eo. simpl_outcome.
  pose proof (parent_state self1 s n o Hinv1 Ho) as Est. cbn [prefixTree node_data self1] in Est.
  rewrite Est. simpl_outcome.
  destruct (entry_dropped t (node_data self) (updates self) s n d i x j r sup Hinv1 Hn Hi Hj)
    as (D3 & r' & s3 & D5 & E3 & E5 & Hinv5 & He5 & Hu5).
  cbn [prefixTree node_data self1]. rewrite E3. simpl_outcome. rewrite E5. simpl_outcome.
  assert (r_as r = oas) as Er.
  { pose proof (pi_wf _ _ Hinv1 n d Hn) as Hw.
    destruct (aw_roa _ _ _ (pw_as _ _ _ Hw x ltac:(by eapply list_elem_of_lookup_2)) r) as [-> _]; [|done].
    by eapply list_elem_of_lookup_2. }
  eexists _, s3, true. split; [done|]. split; [|split; [exact Hinv5|split; [|split; [|done]]]].
  - rewrite Hann. split; [|done]. intros _. by exists d, i, x, j, r.
  - intros k f. rewrite He1. unfold entries, self1. cbn [prefixTree node_data andb]. rewrite He5, Hkey, Er, Em, Ec.
    case_bool_decide as Hk; [rewrite decide_True by done|rewrite decide_False by done]; lia.
  - intros id k a. rewrite Hu5. by apply has_update_keys.
Qed.
End withdraw.
End PrefixWithdraw.
