(* ===== verification/PrefixCover.v ===== *)
(** * The white-list entries that cover an update (server/prefix_cache.c)

    The walk from the prefix of an update to the root: it counts the matching
    entries and makes them count the update. *)
From S2P Require Import Prelude Lists SrxDefs Patricia SList PrefixCache PrefixTree PrefixSteps PrefixInv.
From S2P Require Import PrefixEntries PrefixWalks PrefixAdd PrefixRoa.

Module PrefixCover.
Import PrefixCache PrefixTree PrefixSteps PrefixInv PrefixEntries PrefixWalks PrefixAdd PrefixRoa.

Section cover.
Context {T N S : Type} `{Countable N} `{PatriciaLaws T N} `{RoaSinkLaws S}.
Implicit Types (t : T) (n m p q : N) (s : S) (d : PC_Prefix N) (r : PC_ROA) (u : PC_Update N) (a : Z)
  (k : list bool) (D : gmap N (PC_Prefix N)) (f : sel) (x : PC_AS).

(** ** One prefix *)
Definition bump_roa (len : Z) (matches : bool) r : PC_ROA :=
  if (len <=? max_len r) && matches then set_r_update_count r (r_update_count r + 1) else r.
Definition bump_as (len a : Z) x : PC_AS :=
  set_roas x (mkSList (bump_roa len (pasn x =? a) <$> nodes (roas x)) (size (roas x))).
Definition bumped (len a : Z) d : PC_Prefix N :=
  set_asn d (mkSList (bump_as len a <$> nodes (asn d)) (size (asn d))).

(** Entries the counters have room for. *)
Definition roomy (l : list PC_ROA) : Prop :=
  forall r, r ∈ l -> 1 <= roa_count r /\ 0 <= r_update_count r < 2 ^ 32 - 1.
(** Covering entries that are announced once. *)
Definition single (len : Z) (l : list PC_ROA) : Prop := forall r, r ∈ l -> len <= max_len r -> roa_count r = 1.

Lemma roomy_nonneg l f : roomy l -> 0 <= zsum (weight f) l.
Proof. intros Hl. apply zsum_weight_nonneg. intros r Hr. by apply Hl. Qed.

Lemma covering_roas_eq len (isNew mt : bool) l cov mat :
  roomy l -> 0 <= mat -> mat + (if mt then zsum (weight (covers len)) l else 0) < 2 ^ 16 -> 0 <= cov ->
  (isNew = true -> single len l /\ cov + zsum (weight (covers len)) l < 2 ^ 32) ->
  covering_roas len isNew mt l cov mat
  = (bump_roa len mt <$> l, cov + (if isNew then zsum (weight (covers len)) l else 0),
     mat + (if mt then zsum (weight (covers len)) l else 0)).
Proof.
  revert cov mat. induction l as [|r l IH]; intros cov mat Hl Hm Hmb Hc Hn; cbn [covering_roas].
  { cbn. by destruct isNew, mt; rewrite !Z.add_0_r. }
  assert (roomy l) as Hl2 by (intros y Hy; apply Hl; by right).
  assert (1 <= roa_count r /\ 0 <= r_update_count r < 2 ^ 32 - 1) as Hr by (apply Hl; by left).
  pose proof (roomy_nonneg l (covers len) Hl2) as Hnn. rewrite fmap_cons. unfold bump_roa at 1.
  rewrite !zsum_cons in *.
  assert (weight (covers len) r = if len <=? max_len r then roa_count r else 0) as E by done.
  rewrite E in Hmb, Hn |- *. clear E.
  destruct (Z.leb_spec len (max_len r)) as [Hle|Hle]; cbn [andb].
  - assert (isNew = true -> roa_count r = 1) as Hc1.
    { intros E. destruct (Hn E) as [Hs _]. apply Hs; [by left|done]. }
    assert (isNew = true -> single len l) as Hc2.
    { intros E. destruct (Hn E) as [Hs _]. intros y Hy. apply Hs. by right. }
    assert (isNew = true -> cov + (roa_count r + zsum (weight (covers len)) l) < 2 ^ 32) as Hc3 by (intros E; by apply Hn).
    assert ((if isNew then u32 (cov + 1) else cov) = cov + (if isNew then roa_count r else 0)) as ->.
    { destruct isNew; [|lia]. specialize (Hc1 eq_refl). specialize (Hc3 eq_refl).
      rewrite wrap_small by (unfold in_u; lia). lia. }
    destruct mt.
    + rewrite (wrap_small 32) by (unfold in_u; lia). rewrite (wrap_small 16) by (unfold in_u; lia).
      rewrite IH; [| done | lia | lia | destruct isNew; [specialize (Hc1 eq_refl)|]; lia |].
      * f_equal; [f_equal|]; destruct isNew; lia.
      * intros ->. split; [by apply Hc2|]. specialize (Hc3 eq_refl). lia.
    + rewrite IH; [| done | lia | lia | destruct isNew; [specialize (Hc1 eq_refl)|]; lia |].
      * f_equal; f_equal; destruct isNew; lia.
      * intros ->. split; [by apply Hc2|]. specialize (Hc3 eq_refl). lia.
  - rewrite IH; [| done | done | by rewrite Z.add_0_l in Hmb| done |].
    + by rewrite !Z.add_0_l.
    + intros E. destruct (Hn E) as [Hs ?]. split; [|lia]. intros y Hy. apply Hs. by right.
Qed.

Definition match_sum (len a : Z) (l : list PC_AS) : Z :=
  zsum (fun x => if pasn x =? a then as_sum (covers len) x else 0) l.

Lemma covering_ases_eq len (isNew : bool) a (l : list PC_AS) cov mat :
  (forall x, x ∈ l -> roomy (nodes (roas x))) -> 0 <= mat -> mat + match_sum len a l < 2 ^ 16 -> 0 <= cov ->
  (isNew = true -> (forall x, x ∈ l -> single len (nodes (roas x))) /\ cov + zsum (as_sum (covers len)) l < 2 ^ 32) ->
  covering_ases len isNew a l cov mat
  = (bump_as len a <$> l, cov + (if isNew then zsum (as_sum (covers len)) l else 0), mat + match_sum len a l).
Proof.
  unfold match_sum. revert cov mat. induction l as [|x l IH]; intros cov mat Hl Hm Hmb Hc Hn; cbn [covering_ases].
  { cbn. by destruct isNew; rewrite !Z.add_0_r. }
  assert (roomy (nodes (roas x))) as Hx by (apply Hl; by left).
  assert (forall y, y ∈ l -> roomy (nodes (roas y))) as Hl2 by (intros y Hy; apply Hl; by right).
  rewrite !zsum_cons in *. pose proof (roomy_nonneg _ (covers len) Hx) as Hn1. fold (as_sum (covers len) x) in Hn1.
  assert (0 <= zsum (as_sum (covers len)) l) as Hn2.
  { apply zsum_nonneg. intros y Hy. by apply roomy_nonneg, Hl2. }
  assert (0 <= zsum (fun x => if pasn x =? a then as_sum (covers len) x else 0) l) as Hn3.
  { apply zsum_nonneg. intros y Hy. destruct (pasn y =? a); [|lia]. by apply roomy_nonneg, Hl2. }
  rewrite covering_roas_eq; fold (as_sum (covers len) x); [|done|done| |done|].
  - rewrite IH.
    + rewrite fmap_cons. f_equal; [f_equal|]; [|lia]. destruct isNew; lia.
    + done.
    + destruct (pasn x =? a); lia.
    + destruct (pasn x =? a); lia.
    + destruct isNew; lia.
    + intros ->. destruct (Hn eq_refl) as [Hs Hb]. split; [|lia]. intros y Hy. apply Hs. by right.
  - destruct (pasn x =? a); lia.
  - intros ->. destruct (Hn eq_refl) as [Hs Hb]. split; [apply Hs; by left|lia].
Qed.

(** The entries of a prefix alone. *)
Definition roas_wf (l : Z) d : Prop := forall x r, x ∈ nodes (asn d) -> r ∈ nodes (roas x) -> roa_wf l (pasn x) r.

Lemma wf_roas_wf t m d : prefix_wf t m d -> roas_wf (klen (key t m)) d.
Proof. intros Hw x r Hx. by apply (aw_roa _ _ _ (pw_as _ _ _ Hw x Hx)). Qed.

Lemma roas_wf_roas_at l d r : roas_wf l d -> r ∈ roas_at d -> 1 <= roa_count r.
Proof. intros Hw (x & Hx & Hr)%elem_of_roas_at. by destruct (Hw x r Hx Hr) as (_ & [? _] & _). Qed.

Lemma own_match_sum l d len a : roas_wf l d -> match_sum len a (nodes (asn d)) = own d (matching len a).
Proof.
  intros Hw. rewrite own_as. apply zsum_ext. intros x Hx.
  unfold as_sum. destruct (Z.eqb_spec (pasn x) a) as [E|E].
  - apply zsum_ext. intros r Hr. destruct (Hw x r Hx Hr) as [Er _].
    unfold weight, covers, matching. by rewrite Er, E, Z.eqb_refl, andb_true_r.
  - symmetry. rewrite <- (zsum_0 (nodes (roas x))). apply zsum_ext. intros r Hr.
    destruct (Hw x r Hx Hr) as [Er _].
    unfold weight, matching. by rewrite Er, (proj2 (Z.eqb_neq _ _) E), andb_false_r.
Qed.

Lemma bump_roa_fields len b r : r_as (bump_roa len b r) = r_as r /\ max_len (bump_roa len b r) = max_len r
  /\ roa_count (bump_roa len b r) = roa_count r /\ valCacheID (bump_roa len b r) = valCacheID r
  /\ r_update_count (bump_roa len b r) = r_update_count r + if (len <=? max_len r) && b then 1 else 0.
Proof. unfold bump_roa. destruct (_ && _); cbn; repeat split; lia. Qed.

Lemma own_bumped len a d f : own (bumped len a d) f = own d f.
Proof.
  rewrite !own_as. cbn [asn bumped set_asn nodes]. rewrite zsum_fmap. apply zsum_ext. intros x _.
  unfold as_sum. cbn [roas bump_as set_roas nodes]. rewrite zsum_fmap. apply zsum_ext. intros r _.
  unfold weight. by destruct (bump_roa_fields len (pasn x =? a) r) as (-> & -> & -> & -> & _).
Qed.

Lemma roas_at_bumped l len a d y : roas_wf l d -> y ∈ roas_at (bumped len a d) ->
  exists r, r ∈ roas_at d /\ y = bump_roa len (r_as r =? a) r.
Proof.
  intros Hw (x' & Hx' & Hy)%elem_of_roas_at. cbn [asn bumped set_asn nodes] in Hx'.
  apply list_elem_of_fmap in Hx' as (x & -> & Hx). cbn [roas bump_as set_roas nodes] in Hy.
  apply list_elem_of_fmap in Hy as (r & -> & Hr). exists r. split; [apply elem_of_roas_at; by exists x|].
  by destruct (Hw x r Hx Hr) as [-> _].
Qed.

Lemma wf_bumped t m len a d : prefix_wf t m d -> roomy (roas_at d) -> prefix_wf t m (bumped len a d).
Proof.
  intros Hw Hroom. pose proof Hw as [(Hv & Ho & Ha) Hnd Has Hu].
  assert (pasn <$> nodes (asn (bumped len a d)) = pasn <$> nodes (asn d)) as Ep.
  { cbn [asn bumped set_asn nodes]. rewrite <- list_fmap_compose. by apply list_fmap_ext. }
  split; rewrite ?Ep; try done.
  - split; [done|]. split; [done|]. unfold sl_ok in *. cbn [asn bumped set_asn nodes size]. by rewrite length_fmap.
  - intros x' Hx'. cbn [asn bumped set_asn nodes] in Hx'. apply list_elem_of_fmap in Hx' as (x & -> & Hx).
    destruct (Has x Hx) as [A B C E]. split; cbn [roas pasn a_update_count bump_as set_roas]; try done.
    + unfold sl_ok in *. cbn [nodes size]. by rewrite length_fmap.
    + cbn [nodes]. rewrite <- list_fmap_compose.
      assert (roa_id ∘ bump_roa len (pasn x =? a) <$> nodes (roas x) = roa_id <$> nodes (roas x)) as ->; [|done].
      apply list_fmap_ext. intros _ r _. unfold roa_id. simpl.
      by destruct (bump_roa_fields len (pasn x =? a) r) as (_ & -> & _ & -> & _).
    + cbn [nodes]. intros y (r & -> & Hr)%list_elem_of_fmap. unfold roa_wf.
      destruct (bump_roa_fields len (pasn x =? a) r) as (-> & -> & -> & _ & ->).
      destruct (E r Hr) as (? & ? & ? & ?). split; [done|]. split; [done|]. split; [done|].
      assert (r ∈ roas_at d) as Hin by (apply elem_of_roas_at; by exists x).
      destruct (Hroom r Hin). destruct (_ && _); lia.
Qed.

(** Without covering entries nothing changes. *)
Lemma bumped_none l len a d : roas_wf l d -> own d (covers len) = 0 -> bumped len a d = d.
Proof.
  intros Hw H0'. assert (forall r, r ∈ roas_at d -> max_len r < len) as Hlt.
  { intros r Hr. destruct (Z.ltb_spec (max_len r) len) as [|Hle]; [done|]. exfalso.
    assert (weight (covers len) r <= zsum (weight (covers len)) (roas_at d)) as Hs.
    { apply (zsum_elem (weight (covers len))); [|done]. intros y Hy.
      pose proof (roas_wf_roas_at l d y Hw Hy). unfold weight. case_match; lia. }
    assert (weight (covers len) r = roa_count r) by (unfold weight, covers; by rewrite (proj2 (Z.leb_le _ _) Hle)).
    pose proof (roas_wf_roas_at l d r Hw Hr).
    change (zsum (weight (covers len)) (roas_at d) = 0) in H0'. lia. }
  assert (forall x, x ∈ nodes (asn d) -> bump_as len a x = x) as Hx.
  { intros x Hx. unfold bump_as. assert (bump_roa len (pasn x =? a) <$> nodes (roas x) = nodes (roas x)) as ->.
    - rewrite <- (list_fmap_id (nodes (roas x))) at 2. apply list_fmap_ext. intros i r Hr%list_elem_of_lookup_2.
      unfold bump_roa. assert (max_len r < len) by (apply Hlt, elem_of_roas_at; by exists x).
      by rewrite (proj2 (Z.leb_gt _ _)) by done.
    - destruct x as [? [? ?] ?]. done. }
  unfold bumped. assert (bump_as len a <$> nodes (asn d) = nodes (asn d)) as ->.
  - rewrite <- (list_fmap_id (nodes (asn d))) at 2. apply list_fmap_ext. intros i x Hi%list_elem_of_lookup_2.
    by apply Hx.
  - destruct d as [? ? ? ? [? ?]]. done.
Qed.

Lemma get_data_Some D n d : D !! n = Some d -> get_data D n = Ok d.
Proof. unfold get_data. by intros ->. Qed.

(** ** The walk to the root *)
Section loop.
Context (t : T) (D : gmap N (PC_Prefix N)) (n : N) (a cov0 : Z) (isNew : bool) (u0 : PC_Update N).
Let len := klen (key t n).
Context (Ht : pt_wf t) (HD : nodes_ok t D) (Hn : is_Some (D !! n)).
Context (Hwf : forall m d, D !! m = Some d -> roas_wf (klen (key t m)) d).
Context (Hroomy : forall m d, D !! m = Some d -> roomy (roas_at d)).
Context (Hmat : rsum t D (key t n) (matching len a) < 2 ^ 16).
Context (Hcov0 : 0 <= cov0 /\ forall d, D !! n = Some d -> roa_coverage d = cov0).
Context (Hnew : isNew = true -> cov0 + rsum t D (key t n) (covers len) < 2 ^ 32
  /\ forall m d, D !! m = Some d -> key t m `prefix_of` key t n -> single len (roas_at d)).
Context (Hgate : forall m d, D !! m = Some d -> key t m `prefix_of` key t n ->
  if isNew then state_of_other d = SRx_RESULT_INVALID <-> 0 < rsum t D (key t m) all_roas
  else 0 < roa_coverage d <-> 0 < rsum t D (key t m) (covers (klen (key t m)))).
Context (Hu0 : roa_match u0 = 0).

(** The walk is about to treat the prefix [o]: it has seen the prefixes below. *)
Definition seen (o : option N) m : Prop :=
  match o with Some p => strict_prefix (key t p) (key t m) | None => True end /\ key t m `prefix_of` key t n.
#[local] Instance seen_dec o m : Decision (seen o m).
Proof. unfold seen. destruct o; apply _. Defined.
Definition rest (o : option N) f : Z := match o with Some p => rsum t D (key t p) f | None => 0 end.
Definition cov_now (o : option N) : Z :=
  cov0 + if isNew then rsum t D (key t n) (covers len) - rest o (covers len) else 0.
Definition now (o : option N) m d : PC_Prefix N :=
  let d := if decide (seen o m) then bumped len a d else d in
  if decide (m = n) then set_coverage d (cov_now o) else d.
Definition upd_now (o : option N) : PC_Update N :=
  set_roa_match u0 (rsum t D (key t n) (matching len a) - rest o (matching len a)).
Definition at_now (o : option N) (E : gmap N (PC_Prefix N)) : Prop := forall m, E !! m = now o m <$> D !! m.

Lemma loop_measure : measure (rsum t D).
Proof. apply rsum_measure. intros m d r Hm. by apply (roas_wf_roas_at (klen (key t m))), Hwf. Qed.

Lemma own_pos m d f : D !! m = Some d -> 0 <= own d f.
Proof. intros Hm. apply own_nonneg. intros r Hr. by apply (Hroomy m d Hm). Qed.

Lemma at_now_start : at_now (Some n) D /\ upd_now (Some n) = u0.
Proof.
  clear Hnew Hgate. split.
  - intros m. destruct (D !! m) as [d|] eqn:Hm; [|done]. simpl. f_equal. unfold now.
    rewrite (decide_False (P := seen (Some n) m)) by (intros [Hs Hp]; by destruct (strict_prefix_trans_r _ _ _ Hs Hp)).
    destruct (decide (m = n)) as [->|]; [|done]. unfold cov_now, rest.
    destruct Hcov0 as [_ Hc]. specialize (Hc d Hm). rewrite Z.sub_diag.
    destruct d. cbn in *. subst. unfold set_coverage. cbn. f_equal. destruct isNew; lia.
  - unfold upd_now, rest. rewrite Z.sub_diag. destruct u0. cbn in *. by subst.
Qed.

(** Where the walk stops early, there is nothing above. *)
Lemma at_now_stop p E : key t p `prefix_of` key t n -> rsum t D (key t p) (covers len) = 0 ->
  at_now (Some p) E -> at_now None E /\ upd_now (Some p) = upd_now None.
Proof.
  intros Hp H0' HE. pose proof loop_measure as HM. split.
  - intros m. rewrite HE. destruct (D !! m) as [d|] eqn:Hm; [|done]. simpl. f_equal.
    unfold now, cov_now, rest. rewrite H0'.
    assert (key t m `prefix_of` key t n -> ~ strict_prefix (key t p) (key t m) -> bumped len a d = d) as Hid.
    { intros Hk Hns. apply (bumped_none (klen (key t m))); [by apply Hwf|].
      assert (own d (covers len) <= rsum t D (key t p) (covers len)) as Hle.
      { pose proof (map_zsum_elem (fun q d => if decide (key t q `prefix_of` key t p) then own d (covers len) else 0)
          D m d) as Hel. cbn beta in Hel. rewrite decide_True in Hel.
        - apply Hel; [|done]. intros q e He. case_decide; [|lia]. by apply (own_pos q).
        - destruct (prefix_comparable _ _ _ Hk Hp) as [?|Hpm]; [done|].
          destruct (prefix_cases _ _ Hpm) as [->|]; [done|done]. }
      pose proof (own_pos m d (covers len) Hm). lia. }
    destruct (decide (seen (Some p) m)) as [[Hs1 Hs2]|Hs], (decide (seen None m)) as [[_ Hk]|Hk]; try done.
    + exfalso. apply Hk. by split.
    + rewrite Hid; [done|done|]. intros Hst. apply Hs. by split.
  - unfold upd_now, rest. f_equal. pose proof (ms_nonneg _ HM (key t p) (matching len a)).
    pose proof (ms_sel _ HM (key t p) (matching len a) (covers len)) as Hsel.
    assert (rsum t D (key t p) (matching len a) <= rsum t D (key t p) (covers len)); [|lia].
    apply Hsel. unfold matching, covers. intros y b c. by intros [? _]%andb_true_iff.
Qed.

Lemma rest_step p dp o f : D !! p = Some dp -> parent_of t D p o -> rest (Some p) f = own dp f + rest o f.
Proof.
  intros Hp Ho. pose proof (nodes_data_ok t D HD) as HD'. unfold rest at 1.
  rewrite (rsum_split t D p dp f Ht HD' Hp), (rabove_parent t D p o f Ht HD' Ho). by destruct o.
Qed.

Lemma seen_step p o m : is_Some (D !! p) -> is_Some (D !! m) -> key t p `prefix_of` key t n ->
  parent_of t D p o -> seen o m <-> m = p \/ seen (Some p) m.
Proof.
  intros Hp Hm Hpn Ho. pose proof (nodes_data_ok t D HD) as HD'. unfold seen. split.
  - intros [Hs Hk]. destruct (decide (m = p)) as [->|Hne]; [by left|]. right. split; [|done].
    destruct (prefix_comparable _ _ _ Hpn Hk) as [Hpm|Hmp].
    + split; [done|]. intros E. apply Hne. symmetry. eapply (key_inj t); eauto.
    + assert (strict_prefix (key t m) (key t p)) as Hst.
      { split; [done|]. intros E. apply Hne. eapply (key_inj t); eauto. }
      exfalso. destruct o as [q|]; [|by apply (Ho m)]. destruct Ho as (_ & _ & Hmax).
      by destruct (strict_prefix_trans_r _ _ _ Hs (Hmax m Hm Hst)).
  - intros [->|[Hs Hk]].
    + split; [|done]. destruct o; [|done]. apply Ho.
    + split; [|done]. destruct o as [q|]; [|done]. destruct Ho as (_ & Hq & _).
      eapply strict_prefix_trans_r; [exact Hq|apply Hs].
Qed.

Lemma at_now_step p dp E o : D !! p = Some dp -> key t p `prefix_of` key t n -> at_now (Some p) E ->
  parent_of t D p o ->
  exists E', PrefixIsCovereByAROA t n p E (upd_now (Some p)) a isNew = Ok (E', upd_now o) /\ at_now o E'.
Proof.
  intros Hp Hpn HE Ho. destruct Hn as [dn Hdn]. pose proof loop_measure as HM.
  pose proof (rest_step p dp o (covers len) Hp Ho) as Rc.
  pose proof (rest_step p dp o (matching len a) Hp Ho) as Rm.
  assert (forall f, 0 <= rest o f) as Hro.
  { intros f. unfold rest. destruct o; [apply (ms_nonneg _ HM)|lia]. }
  assert (forall f, rest (Some p) f <= rsum t D (key t n) f) as Hrp by (intros f; by apply (ms_key _ HM)).
  pose proof (Hro (covers len)). pose proof (Hro (matching len a)).
  pose proof (Hrp (covers len)). pose proof (Hrp (matching len a)).
  pose proof (own_pos p dp (matching len a) Hp). pose proof (own_pos p dp (covers len) Hp).
  assert (~ seen (Some p) p) as Hnp by (by intros [[_ ?] _]).
  set (dp' := if decide (p = n) then set_coverage dp (cov_now (Some p)) else dp).
  assert (E !! p = Some dp') as HEp.
  { rewrite HE, Hp. simpl. f_equal. unfold now. by rewrite (decide_False (P := seen (Some p) p)). }
  assert (asn dp' = asn dp) as Easn by (unfold dp'; by case_decide).
  assert (exists dn', E !! n = Some dn' /\ roa_coverage dn' = cov_now (Some p)
            /\ dn' = now (Some p) n dn) as (dn' & HEn & Hcn & Edn).
  { exists (now (Some p) n dn). rewrite HE, Hdn. split; [done|]. split; [|done]. unfold now. by rewrite (decide_True (P := n = n)). }
  assert (covering_ases len isNew a (nodes (asn dp')) (roa_coverage dn') (roa_match (upd_now (Some p)))
    = (bump_as len a <$> nodes (asn dp), cov_now o, roa_match (upd_now o))) as Ecov.
  { rewrite Easn, Hcn, covering_ases_eq.
    - rewrite <- (own_as dp), (own_match_sum (klen (key t p))) by by apply Hwf.
      cbn [roa_match upd_now set_roa_match]. f_equal; [f_equal|]; [unfold cov_now|]; rewrite ?Rm, ?Rc; [|lia].
      destruct isNew; lia.
    - intros x Hx r Hr. apply (Hroomy p dp Hp), elem_of_roas_at. by exists x.
    - cbn [roa_match upd_now set_roa_match]. lia.
    - rewrite (own_match_sum (klen (key t p))) by by apply Hwf. cbn [roa_match upd_now set_roa_match]. lia.
    - unfold cov_now. destruct Hcov0. destruct isNew; lia.
    - intros EN. destruct (Hnew EN) as [Hb Hs]. split.
      + intros x Hx r Hr. apply (Hs p dp Hp Hpn), elem_of_roas_at. by exists x.
      + rewrite <- own_as. unfold cov_now. rewrite EN. lia. }
  exists (<[n := set_coverage (if decide (p = n) then bumped len a dp' else dn') (cov_now o)]>
            (<[p := bumped len a dp']> E)). split.
  - unfold PrefixIsCovereByAROA. rewrite (node_bitlen_key t D n) by (done || by eexists). simpl_outcome.
    fold len. rewrite (get_data_Some _ _ _ HEn). simpl_outcome. rewrite (get_data_Some _ _ _ HEp). simpl_outcome.
    rewrite Ecov, <- Easn. fold (bumped len a dp'). destruct (decide (p = n)) as [->|Hne].
    + rewrite (get_data_Some _ n (bumped len a dp')) by apply lookup_insert_eq. simpl_outcome. done.
    + rewrite (get_data_Some _ n dn') by by rewrite lookup_insert_ne. simpl_outcome. done.
  - intros m. destruct (decide (m = n)) as [->|Hmn].
    + rewrite lookup_insert_eq, Hdn. simpl. f_equal. unfold now. rewrite (decide_True (P := n = n)) by done.
      assert (seen o n) as Hsn.
      { apply (seen_step p o n); [by eexists|by eexists|done|done|]. destruct (decide (n = p)); [by left|right].
        split; [|done]. split; [done|]. intros Ek. apply n0. pose proof (nodes_data_ok t D HD) as HD'.
        symmetry. eapply (key_inj t); eauto. }
      rewrite (decide_True (P := seen o n)) by done. unfold dp'. subst dn'. unfold now.
      rewrite (decide_True (P := n = n)) by done. destruct (decide (p = n)) as [->|Hne].
      * simplify_eq. done.
      * rewrite decide_True; [done|]. apply (seen_step p o n) in Hsn; [|by eexists|by eexists|done|done].
        destruct Hsn as [Enp|?]; [by destruct Hne|done].
    + rewrite lookup_insert_ne by done. destruct (decide (m = p)) as [->|Hmp].
      * rewrite lookup_insert_eq, Hp. simpl. f_equal. unfold now, dp'. rewrite !(decide_False (P := p = n)) by done.
        rewrite decide_True; [done|]. apply (seen_step p o p); [by eexists|by eexists|done|done|by left].
      * rewrite lookup_insert_ne, HE by done. destruct (D !! m) as [d|] eqn:Hm; [|done]. simpl. f_equal.
        unfold now. rewrite !(decide_False (P := m = n)) by done.
        assert (seen o m <-> seen (Some p) m) as Hiff.
        { rewrite (seen_step p o m); [tauto|by eexists|by eexists|done|done]. }
        by rewrite (decide_ext _ _ _ _ Hiff).
Qed.

Lemma at_now_dom o E m : at_now o E -> is_Some (E !! m) <-> is_Some (D !! m).
Proof. intros HE. rewrite HE. destruct (D !! m); simpl; split; intros [? ?]; by try eexists. Qed.

(** What the walk does. *)
Lemma cover_loop_spec fuel p E : is_Some (D !! p) -> key t p `prefix_of` key t n ->
  (pt_rank t p < fuel)%nat -> at_now (Some p) E ->
  exists E', cover_loop fuel t n p E (upd_now (Some p)) a isNew = Ok (E', upd_now None) /\ at_now None E'.
Proof.
  pose proof loop_measure as HM. pose proof (nodes_data_ok t D HD) as HD'.
  revert p E. induction fuel as [|fuel IH]; intros p E [dp Hp] Hpn Hf HE; [lia|]. cbn [cover_loop].
  assert (E !! p = Some (now (Some p) p dp)) as HEp by by rewrite HE, Hp.
  unfold get_data at 1. rewrite HEp. simpl_outcome.
  assert (state_of_other (now (Some p) p dp) = state_of_other dp
          /\ (isNew = false -> roa_coverage (now (Some p) p dp) = roa_coverage dp)) as [Es Ec].
  { unfold now. rewrite (decide_False (P := seen (Some p) p)) by (by intros [[_ ?] _]). case_decide as Epn; [|done].
    split; [done|]. intros EN. cbn. unfold cov_now. rewrite EN. subst p. destruct Hcov0 as [_ Hc].
    rewrite (Hc dp Hp). lia. }
  pose proof (Hgate p dp Hp Hpn) as Hg. rewrite Es.
  assert (rsum t D (key t p) (covers len) <= rsum t D (key t p) (covers (klen (key t p)))) as Hle.
  { apply (ms_sel _ HM). unfold covers. intros y _ _ Hy%Z.leb_le. apply Z.leb_le.
    apply prefix_length in Hpn. unfold len, klen in *. lia. }
  assert (rsum t D (key t p) (covers len) <= rsum t D (key t p) all_roas) as Hle2 by by apply (ms_sel _ HM).
  pose proof (ms_nonneg _ HM (key t p) (covers len)).
  destruct ((isNew && _) || _) eqn:Econd.
  - destruct (getParent_spec t D p Ht HD') as (o & _ & Ho); [by apply HD'; eexists|].
    destruct (at_now_step p dp E o Hp Hpn HE Ho) as (E' & -> & HE'). simpl_outcome.
    destruct (getParent_spec t E' p Ht) as (o' & -> & Ho').
    { intros m Hm. by apply HD', (at_now_dom o E'). }
    { apply HD'. by eexists. }
    assert (o' = o) as ->.
    { eapply parent_of_unique; [exact Ht|exact HD'|exact Hp| |exact Ho].
      destruct o' as [q|]; [destruct Ho' as (Hq & ? & Hmax)|].
      - split; [by apply (at_now_dom o E')|]. split; [done|]. intros m Hm. apply Hmax. by apply (at_now_dom o E').
      - intros m Hm. apply Ho'. by apply (at_now_dom o E'). }
    simpl_outcome. destruct o as [q|]; [|by exists E']. destruct Ho as (Hq & Hqp & Hmax). apply IH.
    + done.
    + etrans; [apply Hqp|done].
    + assert (ancestor t p q) as Ha.
      { apply key_ancestor; [done|apply HD'; by eexists|by apply HD'|done]. }
      apply ancestor_rank in Ha; [lia|done].
    + done.
  - assert (rsum t D (key t p) (covers len) = 0) as H0'.
    { apply orb_false_iff in Econd as [C1 C2]. destruct isNew; cbn [andb negb] in C1, C2.
      - apply Z.eqb_neq in C1. destruct (Z.ltb_spec 0 (rsum t D (key t p) all_roas)) as [Hlt|]; [|lia].
        by apply Hg in Hlt.
      - rewrite Ec in C2 by done. apply Z.ltb_ge in C2.
        destruct (Z.ltb_spec 0 (rsum t D (key t p) (covers (klen (key t p))))) as [Hlt|]; [|lia].
        apply Hg in Hlt. lia. }
    destruct (at_now_stop p E Hpn H0' HE) as [HE' ->]. by exists E.
Qed.
End loop.
End cover.
End PrefixCover.
