(* ===== verification/PrefixRequest.v ===== *)
(** * Validating an update (server/prefix_cache.c)

    What [requestUpdateValidation] does to the cache: one more update, filed with
    the valid or the other updates of its prefix as the white-list entries say,
    and its result stored. *)
From S2P Require Import Prelude Lists SrxDefs Patricia SList PrefixCache PrefixTree PrefixSteps PrefixInv.
From S2P Require Import PrefixEntries PrefixWalks PrefixAdd PrefixRoa PrefixAnnounce PrefixCover.

Module PrefixRequest.
Import PrefixCache PrefixTree PrefixSteps PrefixInv PrefixEntries PrefixWalks PrefixAdd PrefixRoa.
Import PrefixAnnounce PrefixCover.

Section request.
Context {T N S : Type} `{Countable N} `{PatriciaLaws T N} `{RoaSinkLaws S}.
Implicit Types (t : T) (n m q : N) (s : S) (d : PC_Prefix N) (r : PC_ROA) (u : PC_Update N) (a : Z)
  (k : list bool) (D : gmap N (PC_Prefix N)) (f : sel) (x : PC_AS) (self : PrefixCache T N).

(** ** Filing an update in its prefix *)
Definition append_valid d u : PC_Prefix N := set_valid d (mkSList (nodes (valid d) ++ [u]) (size (valid d) + 1)).
Definition append_other d u : PC_Prefix N := set_other d (mkSList (nodes (other d) ++ [u]) (size (other d) + 1)).
Definition filed d u : PC_Prefix N := if roa_match u =? 0 then append_other d u else append_valid d u.
(** Its AS counts it. *)
Definition count_as d (i : nat) x : PC_Prefix N :=
  set_asn d (setAtSList (asn d) i (set_a_update_count x (a_update_count x + 1))).

Lemma filed_updates d u : updates_at (filed d u) ≡ₚ u :: updates_at d.
Proof.
  unfold filed, updates_at. destruct (_ =? 0); cbn [append_other append_valid set_valid set_other valid other nodes].
  - rewrite (assoc_L (++)). apply Permutation_app_comm.
  - rewrite <- (assoc_L (++)). cbn. symmetry. apply Permutation_middle.
Qed.

Lemma filed_asn d u : asn (filed d u) = asn d /\ roa_coverage (filed d u) = roa_coverage d
  /\ state_of_other (filed d u) = state_of_other d.
Proof. unfold filed. by destruct (_ =? 0). Qed.

Lemma own_count_as d i x f : nodes (asn d) !! i = Some x -> own (count_as d i x) f = own d f.
Proof. intros Hi. unfold count_as. rewrite (own_set_as d i x _ f Hi). unfold as_sum. cbn. lia. Qed.

Lemma roas_at_count_as d i x y : nodes (asn d) !! i = Some x -> y ∈ roas_at (count_as d i x) -> y ∈ roas_at d.
Proof.
  intros Hi Hy. destruct (roas_at_set_as d i x _ y Hi Hy) as [?|Hy2]; [done|].
  apply elem_of_roas_at. exists x. split; [by eapply list_elem_of_lookup_2|done].
Qed.

Lemma wf_filed t n d i x u : prefix_wf t n d -> nodes (asn d) !! i = Some x -> pasn x = u_as u ->
  u_treeNode u = n -> prefix_wf t n (filed (count_as d i x) u).
Proof.
  intros Hw Hi Hx Hu. pose proof Hw as [(Hv & Ho & Ha) Hnd Has Hupd].
  destruct (filed_asn (count_as d i x) u) as (Easn & _).
  assert (i < length (nodes (asn d)))%nat as Hlt by by eapply lookup_lt_Some.
  assert (pasn <$> nodes (asn (count_as d i x)) = pasn <$> nodes (asn d)) as Ep.
  { cbn [asn count_as set_asn setAtSList nodes]. rewrite list_fmap_insert. apply list_insert_id.
    by rewrite list_lookup_fmap, Hi. }
  assert (forall b, cnt b (updates_at (filed (count_as d i x) u))
            = cnt b (updates_at d) + if u_as u =? b then 1 else 0) as Hcnt.
  { intros b. unfold cnt. rewrite (zsum_Permutation _ _ _ (filed_updates (count_as d i x) u)), zsum_cons.
    change (updates_at (count_as d i x)) with (updates_at d). lia. }
  split; rewrite ?Easn, ?Ep.
  - unfold filed. destruct (_ =? 0); cbn [append_other append_valid set_valid set_other count_as set_asn valid other asn];
      repeat split; eauto with srx.
  - done.
  - intros y Hy. cbn [asn count_as set_asn setAtSList nodes] in Hy.
    apply list_elem_of_lookup in Hy as [c Hc]. apply list_lookup_insert_Some in Hc as [(-> & <- & _)|[Hne Hc]].
    + destruct (Has x) as [A B C E]; [by eapply list_elem_of_lookup_2|].
      split; cbn [roas pasn set_a_update_count a_update_count]; try done.
      rewrite Hcnt, C, <- Hx, Z.eqb_refl. lia.
    + destruct (Has y) as [A B C E]; [by eapply list_elem_of_lookup_2|]. split; try done.
      rewrite Hcnt, C, <- Hx. rewrite (proj2 (Z.eqb_neq _ _)); [lia|]. intros Exy. apply Hne.
      eapply NoDup_lookup; [exact Hnd|rewrite list_lookup_fmap, Hi; done|]. by rewrite list_lookup_fmap, Hc, Exy.
  - intros v Hv'. rewrite filed_updates in Hv'. apply elem_of_cons in Hv' as [->|Hv']; [|by apply Hupd].
    split; [done|]. apply list_elem_of_fmap. exists x. split; [done|]. by eapply list_elem_of_lookup_2.
Qed.

(** ** A prefix with its entries *)
Section core.
Context (t : T) (D : gmap N (PC_Prefix N)) (ups : list Z) (s : S) (n : N) (d d' : PC_Prefix N).
Context (i : nat) (x : PC_AS) (id a : Z) (isNew : bool) (cov0 : Z).
Context (Hinv : pc_inv (mkPrefixCache t D ups) s) (Hroom : room (mkPrefixCache t D ups)).
Context (Hn : D !! n = Some d).
Context (Hi : nodes (asn d') !! i = Some x) (Hx : pasn x = a) (Hw' : prefix_wf t n d').
Context (Hown' : forall f, own d' f = own d f) (Hl : exists l, d' = set_asn d l).
Context (Hroas : forall r, r ∈ roas_at d' -> r ∈ roas_at d).
Context (Hid : forall m e u, D !! m = Some e -> u ∈ updates_at e -> updateID u = id -> m = n /\ u_as u = a).
Context (Hst : is_Some (roa_result s id)).
Let len := klen (key t n).
Let C := rsum t D (key t n) (covers len).
Let M := rsum t D (key t n) (matching len a).
Context (Hcov0 : if isNew then cov0 = 0 else cov0 = C).
Context (Hsingle : isNew = true -> forall m e, D !! m = Some e -> key t m `prefix_of` key t n -> single len (roas_at e)).
Let u0 := mkPC_Update id a n 0.
Let d1 := set_coverage (count_as d' i x) cov0.
Let D1 := <[n := d1]> D.

Lemma req_counts m e r : D !! m = Some e -> r ∈ roas_at e -> 1 <= roa_count r /\ 0 <= r_update_count r < 2 ^ 32 - 1.
Proof.
  intros He Hr. destruct (pw_roas_at t m e r (pi_wf _ _ Hinv m e He) Hr) as ([? _] & _ & ? & _).
  destruct Hroom as (_ & R2 & _). destruct (R2 m e r He Hr) as [_ Hb]. cbn [node_data] in Hb.
  assert (0 <= total_updates D) by (apply map_zsum_nonneg; intros; lia). lia.
Qed.

Lemma req_C : 0 <= C < 2 ^ 32 - 1 /\ 0 <= M < 2 ^ 16 - 1 /\ M <= C.
Proof.
  pose proof (inv_measure _ _ Hinv) as HM. destruct Hroom as (Hk & _ & _).
  destruct (Hk (key t n) a). split; [|split].
  - split; [apply (ms_nonneg _ HM)|done].
  - split; [apply (ms_nonneg _ HM)|done].
  - apply (ms_sel _ HM). unfold matching, covers. intros y b c. by intros [? _]%andb_true_iff.
Qed.

Lemma req_own1 f : own d1 f = own d f.
Proof. rewrite <- Hown', <- (own_count_as d' i x f Hi). done. Qed.

Lemma req_roas1 y : y ∈ roas_at d1 -> y ∈ roas_at d.
Proof. intros Hy. apply Hroas. by apply (roas_at_count_as d' i x). Qed.

Lemma req_rsum1 k f : rsum t D1 k f = rsum t D k f.
Proof. unfold D1. rewrite (rsum_update t D n d) by done. rewrite req_own1. case_decide; lia. Qed.

Lemma req_lookup1 m e : D1 !! m = Some e -> (m = n /\ e = d1) \/ (m <> n /\ D !! m = Some e).
Proof. intros [[<- <-]|[? ?]]%lookup_insert_Some; [by left|right; split; [congruence|done]]. Qed.

Lemma req_wf1 m e : D1 !! m = Some e -> roas_wf (klen (key t m)) e.
Proof.
  intros [[-> ->]|[_ He]]%req_lookup1; [|by apply wf_roas_wf, (pi_wf _ _ Hinv)].
  intros y r Hy Hr. cbn [asn d1 set_coverage count_as set_asn setAtSList nodes] in Hy.
  apply list_elem_of_lookup in Hy as [c Hc]. apply list_lookup_insert_Some in Hc as [(-> & <- & _)|[_ Hc]].
  - apply (wf_roas_wf t n d' Hw' x); [by eapply list_elem_of_lookup_2|done].
  - apply (wf_roas_wf t n d' Hw' y); [by eapply list_elem_of_lookup_2|done].
Qed.

Lemma req_nodes1 : nodes_ok t D1.
Proof.
  intros m [e He]. apply (pi_nodes _ _ Hinv). apply req_lookup1 in He as [[-> _]|[_ He]]; by eexists.
Qed.

Lemma req_loop : exists D2,
  cover_loop tree_fuel t n n D1 u0 a isNew = Ok (D2, set_roa_match u0 M)
  /\ D2 !! n = Some (set_coverage (bumped len a (count_as d' i x)) C)
  /\ forall m, m <> n -> D2 !! m = (fun e => if decide (key t m `prefix_of` key t n) then bumped len a e else e) <$> D !! m.
Proof.
  pose proof req_C as (HC & HMb & HMC). pose proof (pi_tree _ _ Hinv) as Ht. cbn [prefixTree] in Ht.
  assert (forall k f, rsum t D1 k f = rsum t D k f) as HR by apply req_rsum1.
  assert (D1 !! n = Some d1) as Hn1 by apply lookup_insert_eq.
  destruct (at_now_start t D1 n a cov0 isNew u0) as [Hs0 Hu0].
  { split; [destruct isNew; lia|]. intros e He. rewrite Hn1 in He. by injection He as <-. }
  { done. }
  destruct (cover_loop_spec t D1 n a cov0 isNew u0) with (fuel := tree_fuel) (p := n) (E := D1)
    as (D2 & E2 & H2').
  - done.
  - apply req_nodes1.
  - by eexists.
  - apply req_wf1.
  - intros m e He r Hr. apply req_lookup1 in He as [[-> ->]|[_ He]]; [|by apply (req_counts m e)].
    apply (req_counts n d); [done|by apply req_roas1].
  - rewrite HR. fold len M. lia.
  - split; [destruct isNew; lia|]. intros e He. rewrite Hn1 in He. by injection He as <-.
  - intros EN. rewrite EN in Hcov0. split; [rewrite HR; fold len C; lia|].
    intros m e He Hk. apply req_lookup1 in He as [[-> ->]|[_ He]]; [|by apply (Hsingle EN m)].
    intros r Hr. apply (Hsingle EN n d Hn Hk), req_roas1, Hr.
  - intros m e He Hk. rewrite !HR.
    assert (exists e0, D !! m = Some e0 /\ state_of_other e = state_of_other e0
              /\ (isNew = false -> roa_coverage e = roa_coverage e0)) as (e0 & He0 & -> & Ec).
    { apply req_lookup1 in He as [[-> ->]|[_ He]]; [|by exists e]. exists d. split; [done|].
      destruct Hl as [l ->]. split; [done|]. intros EN. cbn. rewrite EN in Hcov0. rewrite Hcov0. symmetry.
      apply (ag_cov _ _ _ _ (pi_agrees _ _ Hinv n d Hn)). }
    pose proof (pi_agrees _ _ Hinv m e0 He0) as Ha. cbn [prefixTree node_data] in Ha. destruct isNew.
    + rewrite (ag_state _ _ _ _ Ha). destruct (Z.ltb_spec 0 (rsum t D (key t m) all_roas)); split; (done || lia).
    + by rewrite Ec, (ag_cov _ _ _ _ Ha).
  - by eexists.
  - done.
  - unfold tree_fuel. pose proof (pt_rank_max t n Ht). lia.
  - done.
  - exists D2. rewrite Hu0 in E2. unfold upd_now, rest in E2. rewrite HR, Z.sub_0_r in E2. split; [exact E2|].
    split.
    + rewrite H2', Hn1. simpl. f_equal. unfold now. rewrite (decide_True (P := seen t n None n)) by done.
      rewrite decide_True by done. unfold cov_now, rest. rewrite HR, Z.sub_0_r. fold len C.
      replace (cov0 + (if isNew then C else 0)) with C by (destruct isNew; lia). done.
    + intros m Hne. rewrite H2'. unfold D1. rewrite lookup_insert_ne by done. destruct (D !! m); [|done].
      simpl. f_equal. unfold now. rewrite (decide_False (P := m = n)) by done.
      rewrite (decide_ext (seen t n None m) (key t m `prefix_of` key t n)) by (unfold seen; tauto). done.
Qed.

(** After the walk the update is filed and its result stored. *)
Context (D2 : gmap N (PC_Prefix N)) (s' : S).
Context (HD2 : forall m, m <> n -> D2 !! m
  = (fun e => if decide (key t m `prefix_of` key t n) then bumped len a e else e) <$> D !! m).
Let u1 := set_roa_match u0 M.
Let d2 := set_coverage (bumped len a (count_as d' i x)) C.
Let d3 := filed d2 u1.
Let D3 := <[n := d3]> D2.
Let res := if M =? 0 then state_of_other d else SRx_RESULT_VALID.
Context (Hs' : rs_wf s')
  (Hres : forall i', roa_result s' i' = if decide (i' = id) then Some res else roa_result s i').

Lemma fin_lookup m e : D3 !! m = Some e -> (m = n /\ e = d3) \/
  (m <> n /\ exists e0, D !! m = Some e0 /\ e = if decide (key t m `prefix_of` key t n) then bumped len a e0 else e0).
Proof.
  intros [[<- <-]|[Hne He]]%lookup_insert_Some; [by left|]. right. split; [congruence|].
  rewrite HD2 in He by congruence. apply fmap_Some in He as (e0 & He0 & ->). by exists e0.
Qed.

Lemma fin_other m e0 : m <> n -> D !! m = Some e0 ->
  D3 !! m = Some (if decide (key t m `prefix_of` key t n) then bumped len a e0 else e0).
Proof. intros Hne He. unfold D3. by rewrite lookup_insert_ne, HD2, He by done. Qed.

Lemma fin_dom m : D3 !! m = None <-> D !! m = None.
Proof.
  unfold D3. destruct (decide (m = n)) as [->|Hne]; [by rewrite lookup_insert_eq, Hn|].
  rewrite lookup_insert_ne, HD2 by done. by destruct (D !! m).
Qed.

Lemma fin_fields : exists l, d2 = set_coverage (set_asn d l) C.
Proof. destruct Hl as [l ->]. by eexists. Qed.

Lemma fin_updates : updates_at d3 ≡ₚ u1 :: updates_at d.
Proof. unfold d3. rewrite filed_updates. by destruct fin_fields as [l ->]. Qed.

Lemma fin_d3 : roa_coverage d3 = C /\ state_of_other d3 = state_of_other d
  /\ (if M =? 0 then valid d3 = valid d /\ nodes (other d3) = nodes (other d) ++ [u1]
      else nodes (valid d3) = nodes (valid d) ++ [u1] /\ other d3 = other d).
Proof.
  unfold d3, filed. change (roa_match u1) with M. destruct fin_fields as [l ->]. by destruct (M =? 0).
Qed.

Lemma fin_own m e e' f : D !! m = Some e -> D3 !! m = Some e' -> own e' f = own e f.
Proof.
  intros He [[-> ->]|[_ (e0 & He0 & ->)]]%fin_lookup.
  - rewrite Hn in He. injection He as <-. unfold d3. rewrite (own_asn d2) by apply filed_asn.
    change (own (bumped len a (count_as d' i x)) f = own d f).
    by rewrite own_bumped, own_count_as, Hown'.
  - rewrite He0 in He. injection He as ->. case_decide; [apply own_bumped|done].
Qed.

Lemma fin_rsum k f : rsum t D3 k f = rsum t D k f.
Proof.
  apply map_zsum_pointwise. intros m. pose proof (fin_dom m) as Hd.
  destruct (D3 !! m) as [e'|] eqn:E', (D !! m) as [e|] eqn:E; try (by destruct Hd; intuition congruence).
  case_decide; [|done]. by apply (fin_own m).
Qed.

Lemma fin_wf m e : D3 !! m = Some e -> prefix_wf t m e.
Proof.
  intros [[-> ->]|[_ (e0 & He0 & ->)]]%fin_lookup.
  - pose proof (wf_filed t n d' i x u1 Hw' Hi Hx eq_refl) as Hw.
    assert (roomy (roas_at (filed (count_as d' i x) u1))) as Hr.
    { rewrite (roas_asn (count_as d' i x)) by apply filed_asn. intros y Hy.
      apply (req_counts n d); [done|]. apply Hroas. by apply (roas_at_count_as d' i x). }
    apply (wf_bumped t n len a) in Hw; [|done]. destruct Hw as [A B P Q].
    unfold d3, d2, filed in *. change (roa_match u1) with M in *. destruct (M =? 0); by split.
  - pose proof (pi_wf _ _ Hinv m e0 He0). case_decide; [|done]. apply wf_bumped; [done|].
    intros y Hy. by apply (req_counts m e0).
Qed.

Lemma fin_agrees m e : D3 !! m = Some e -> agrees (rsum t D3) t m e.
Proof.
  intros He. eapply agrees_ext; [intros f; apply fin_rsum|done|].
  apply fin_lookup in He as [[-> ->]|[_ (e0 & He0 & ->)]].
  - destruct (pi_agrees _ _ Hinv n d Hn) as [Ac As Av Ao]. cbn [prefixTree node_data] in *.
    destruct fin_d3 as (Ec & Es & Eu). destruct req_C as (_ & HM & _). fold len in Av, Ao |- *. split; fold len.
    + exact Ec.
    + by rewrite Es.
    + intros u Hu. destruct (Z.eqb_spec M 0) as [EM|EM]; destruct Eu as [E1 E2].
      * rewrite E1 in Hu. by apply Av.
      * rewrite E1 in Hu. apply elem_of_app in Hu as [Hu| ->%list_elem_of_singleton]; [by apply Av|].
        cbn. fold M. lia.
    + intros u Hu. destruct (Z.eqb_spec M 0) as [EM|EM]; destruct Eu as [E1 E2].
      * rewrite E2 in Hu. apply elem_of_app in Hu as [Hu| ->%list_elem_of_singleton]; [by apply Ao|].
        cbn. by fold M.
      * rewrite E2 in Hu. by apply Ao.
  - pose proof (pi_agrees _ _ Hinv m e0 He0) as Ha. case_decide; [by apply agrees_set_asn|done].
Qed.

Lemma fin_usum k maxLen b : usum t D3 k maxLen b
  = usum t D k maxLen b + if decide (k `prefix_of` key t n /\ len <= maxLen) then (if a =? b then 1 else 0) else 0.
Proof.
  transitivity (usum t (<[n := d3]> D) k maxLen b).
  - apply map_zsum_pointwise. intros m. destruct (decide (m = n)) as [->|Hne].
    + unfold D3. by rewrite !lookup_insert_eq.
    + unfold D3. rewrite !lookup_insert_ne, HD2 by done. destruct (D !! m); [|done]. simpl.
      case_decide; [|done]. by case_decide.
  - unfold usum. rewrite (map_zsum_update _ _ _ _ _ Hn). fold len. case_decide; [|lia].
    unfold cnt at 3. rewrite (zsum_Permutation _ _ _ fin_updates), zsum_cons. fold (cnt b (updates_at d)).
    change (u_as u1) with a. lia.
Qed.

Lemma fin_counts q e y : D3 !! q = Some e -> y ∈ roas_at e ->
  usum t D3 (key t q) (max_len y) (r_as y) <= r_update_count y.
Proof.
  intros He Hy. rewrite fin_usum.
  assert (exists d0 y0, D !! q = Some d0 /\ y0 ∈ roas_at d0
            /\ y = if decide (key t q `prefix_of` key t n) then bump_roa len (r_as y0 =? a) y0 else y0)
    as (d0 & y0 & Hd0 & Hy0 & ->).
  { apply fin_lookup in He as [[-> ->]|[_ (e0 & He0 & ->)]].
    - unfold d3 in Hy. rewrite (roas_asn d2) in Hy by apply filed_asn.
      change (y ∈ roas_at (bumped len a d1)) in Hy.
      apply (roas_at_bumped len) in Hy as (y0 & Hy0 & ->); [|apply (req_wf1 n), lookup_insert_eq].
      exists d, y0. split; [done|]. split; [by apply req_roas1|]. by rewrite decide_True.
    - case_decide as Hk; [|by exists e0, y].
      apply (roas_at_bumped (klen (key t q))) in Hy as (y0 & Hy0 & ->); [by exists e0, y0|].
      apply wf_roas_wf, (pi_wf _ _ Hinv q e0 He0). }
  pose proof (pi_uc _ _ Hinv q d0 y0 Hd0 Hy0) as Hu. cbn [prefixTree node_data] in Hu.
  case_decide as Hk.
  - destruct (bump_roa_fields len (r_as y0 =? a) y0) as (-> & -> & _ & _ & ->).
    rewrite (Z.eqb_sym a). case_decide as Hd.
    + rewrite (proj2 (Z.leb_le _ _)) by apply Hd. cbn [andb]. lia.
    + destruct (_ && _); lia.
  - rewrite decide_False by (intros [? _]; done). lia.
Qed.

Lemma fin_elem m e u : D3 !! m = Some e -> u ∈ updates_at e ->
  (m = n /\ u = u1) \/ exists e0, D !! m = Some e0 /\ u ∈ updates_at e0.
Proof.
  intros [[-> ->]|[_ (e0 & He0 & ->)]]%fin_lookup Hu.
  - rewrite fin_updates in Hu. apply elem_of_cons in Hu as [->|Hu]; [by left|]. right. by exists d.
  - right. exists e0. split; [done|]. by case_decide.
Qed.

Lemma fin_synced m e : D3 !! m = Some e -> synced s' e.
Proof.
  intros [[-> ->]|[Hne (e0 & He0 & ->)]]%fin_lookup.
  - destruct fin_d3 as (_ & Es & Eu). destruct (pi_synced _ _ Hinv n d Hn) as [Sv So].
    destruct (pi_agrees _ _ Hinv n d Hn) as [_ _ Av Ao]. cbn [prefixTree node_data] in *.
    split; rewrite ?Es; intros u Hu; rewrite Hres; unfold res; destruct (Z.eqb_spec M 0) as [EM|EM], Eu as [E1 E2].
    + rewrite E1 in Hu. case_decide as Ei; [|by apply Sv]. exfalso.
      destruct (Hid n d u Hn) as [_ Eu]; [apply elem_of_app; by left|done|].
      destruct (Av u Hu) as [Em Hp]. rewrite Eu in Em. fold len M in Em. lia.
    + case_decide as Ei; [done|]. rewrite E1 in Hu.
      apply elem_of_app in Hu as [Hu| ->%list_elem_of_singleton]; [by apply Sv|done].
    + case_decide as Ei; [done|]. rewrite E2 in Hu.
      apply elem_of_app in Hu as [Hu| ->%list_elem_of_singleton]; [by apply So|done].
    + rewrite E2 in Hu. case_decide as Ei; [|by apply So]. exfalso.
      destruct (Hid n d u Hn) as [_ Eu]; [apply elem_of_app; by right|done|].
      destruct (Ao u Hu) as [_ Em]. rewrite Eu in Em. by fold len M in Em.
  - assert (synced s' e0) as Hs0; [|by case_decide; [apply synced_set_asn|]].
    destruct (pi_synced _ _ Hinv m e0 He0) as [Sv So]. split; intros u Hu; rewrite Hres, decide_False; auto;
      intros Ei; destruct (Hid m e0 u He0) as [? _]; try done; apply elem_of_app; auto.
Qed.

Lemma fin_ids : ids_unique D3.
Proof.
  intros m m' e e' u u' He He' Hu Hu' Eid.
  apply (fin_elem m e u He) in Hu as [[-> ->]|(e0 & He0 & Hu)];
    apply (fin_elem m' e' u' He') in Hu' as [[-> ->]|(e0' & He0' & Hu')].
  - done.
  - destruct (Hid m' e0' u' He0' Hu') as [-> ->]; [by symmetry|done].
  - by destruct (Hid m e0 u He0 Hu Eid) as [-> ->].
  - by apply (pi_ids _ _ Hinv m m' e0 e0').
Qed.

Lemma fin_inv ups' : pc_inv (mkPrefixCache t D3 ups') s'.
Proof.
  split; cbn [prefixTree node_data].
  - apply Hinv.
  - intros m Hm. apply (pi_nodes _ _ Hinv). cbn [node_data]. apply not_eq_None_Some.
    rewrite <- fin_dom. by apply not_eq_None_Some.
  - apply fin_wf.
  - apply fin_agrees.
  - intros k b. rewrite !fin_rsum. apply (pi_small _ _ Hinv).
  - apply fin_counts.
  - done.
  - apply fin_synced.
  - apply fin_ids.
Qed.

Lemma fin_has ups' id' k b : has_update (mkPrefixCache t D3 ups') id' k b
  <-> has_update (mkPrefixCache t D ups) id' k b \/ id' = id /\ k = key t n /\ b = a.
Proof.
  unfold has_update. cbn [prefixTree node_data]. split.
  - intros (m & e & u & He & Hu & Eid & Ek & Ea). apply (fin_elem m e u He) in Hu as [[-> ->]|(e0 & He0 & Hu)].
    + right. by subst.
    + left. by exists m, e0, u.
  - intros [(m & e0 & u & He0 & Hu & Hrest)|(-> & -> & ->)].
    + destruct (decide (m = n)) as [->|Hne].
      * exists n, d3, u. split; [apply lookup_insert_eq|]. split; [|done].
        rewrite fin_updates. right. rewrite Hn in He0. by injection He0 as ->.
      * exists m, (if decide (key t m `prefix_of` key t n) then bumped len a e0 else e0), u.
        split; [by apply fin_other|]. split; [|done]. by case_decide.
    + exists n, d3, u1. split; [apply lookup_insert_eq|]. split; [rewrite fin_updates; by left|done].
Qed.
End core.

(** What a request finds and leaves. *)
Definition request_ok self s (id : Z) k a : Prop :=
  is_Some (roa_result s id) /\ forall k' a', has_update self id k' a' -> k' = k /\ a' = a.
(** The update [id] of the prefix [k] is filed, the white-list entries stay. *)
Definition request_post self self' (s' : S) (id : Z) k a : Prop :=
  pc_inv self' s' /\ (forall k' f, entries self' k' f = entries self k' f)
  /\ (forall id' k' a', has_update self' id' k' a' <-> has_update self id' k' a' \/ id' = id /\ k' = k /\ a' = a).

(** [_performUpdateValidationKnownPrefix]; a new prefix starts without coverage. *)
Lemma known_prefix t D ups ups' s n d id a (isNew : bool) cov0 :
  pc_inv (mkPrefixCache t D ups) s -> room (mkPrefixCache t D ups) -> D !! n = Some d ->
  request_ok (mkPrefixCache t D ups) s id (key t n) a ->
  (if isNew then cov0 = 0 else cov0 = roa_coverage d) ->
  (isNew = true -> forall m e, D !! m = Some e -> key t m `prefix_of` key t n ->
     single (klen (key t n)) (roas_at e)) ->
  exists D' s',
    _performUpdateValidationKnownPrefix t (<[n := set_coverage d cov0]> D) s (mkPC_Update id a n 0) a isNew = Ok (D', s')
    /\ request_post (mkPrefixCache t D ups) (mkPrefixCache t D' ups') s' id (key t n) a.
Proof.
  intros Hinv Hroom Hn [Hst Hid] Hcov Hsingle.
  destruct (addROAwl_as_eq t n d a (pi_wf _ _ Hinv n d Hn)) as (d' & i & x & E1 & Hi & Hx & Hw1 & Ho1 & Hl & Hr1).
  assert (forall m e u, D !! m = Some e -> u ∈ updates_at e -> updateID u = id -> m = n /\ u_as u = a) as Hid'.
  { intros m e u He Hu Eid. destruct (Hid (key t m) (u_as u)) as [Ek Ea].
    - by exists m, e, u.
    - split; [|done]. eapply (key_inj t); [apply Hinv|..|done]; apply (inv_data_ok _ _ Hinv); by eexists. }
  assert (if isNew then cov0 = 0 else cov0 = rsum t D (key t n) (covers (klen (key t n)))) as Hcov0.
  { destruct isNew; [done|]. rewrite Hcov. apply (ag_cov _ _ _ _ (pi_agrees _ _ Hinv n d Hn)). }
  destruct (req_loop t D ups s n d d' i x id a isNew cov0) as (D2 & E2 & HD2n & HD2); try done.
  set (d2 := set_coverage _ _) in HD2n. set (M := rsum t D (key t n) (matching (klen (key t n)) a)) in *.
  assert (state_of_other d2 = state_of_other d) as Es2 by (destruct Hl as [l ->]; done).
  assert (exists s', PrefixNotCovered d2 (set_roa_match (mkPC_Update id a n 0) M) s
            = Ok (filed d2 (set_roa_match (mkPC_Update id a n 0) M), s') /\ rs_wf s'
            /\ forall i', roa_result s' i'
                 = if decide (i' = id) then Some (if M =? 0 then state_of_other d else SRx_RESULT_VALID)
                   else roa_result s i') as (s' & E3 & Hs' & Hres).
  { unfold PrefixNotCovered, filed. cbn [roa_match set_roa_match updateID]. rewrite Es2.
    destruct (rs_notify s id (if M =? 0 then state_of_other d else SRx_RESULT_VALID) PC_DONT_SUPPRESS)
      as (s' & E & Hs' & Hres); [apply Hinv|done| |].
    { destruct (M =? 0); [|done]. apply state_ok_donotuse.
      eapply agrees_state_ok, (pi_agrees _ _ Hinv n d Hn). }
    destruct (pw_lists _ _ _ (pi_wf _ _ Hinv n d Hn)) as (Hv & Ho & _).
    exists s'. destruct Hl as [l ->]. destruct (M =? 0).
    - rewrite append_ok by done. simpl_outcome. rewrite E. done.
    - rewrite append_ok by done. simpl_outcome. rewrite E. done. }
  eexists _, s'. split.
  - unfold _performUpdateValidationKnownPrefix. cbn [u_treeNode].
    rewrite (get_data_Some _ n (set_coverage d cov0)) by apply lookup_insert_eq. simpl_outcome.
    assert (getASFromPrefix (set_coverage d cov0) a = Ok (set_coverage d' cov0, i, x)) as ->.
    { change (getASFromPrefix (set_coverage d cov0) a) with (addROAwl_as (set_coverage d cov0) a).
      revert E1. unfold addROAwl_as. change (asn (set_coverage d cov0)) with (asn d).
      destruct (find_as (asn d) a) as [[i0 x0]|]; [by intros [= <- <- <-]|].
      destruct (appendDataToSList _ _); [|done]. simpl_outcome. by intros [= <- <- <-]. }
    simpl_outcome.
    assert (u32 (a_update_count x + 1) = a_update_count x + 1) as Ec.
    { rewrite (aw_count _ _ _ (pw_as _ _ _ Hw1 x ltac:(by eapply list_elem_of_lookup_2))).
      apply wrap_small. unfold in_u. pose proof (cnt_nonneg (pasn x) (updates_at d')).
      assert (cnt (pasn x) (updates_at d') <= total_updates D); [|destruct Hroom as (_ & _ & ?); cbn [node_data] in *; lia].
      assert (updates_at d' = updates_at d) as -> by (destruct Hl as [l ->]; done).
      rewrite cnt_length. pose proof (length_parts (pasn x) (updates_at d)).
      pose proof (map_zsum_elem (fun _ d => Z.of_nat (length (updates_at d))) D n d) as Hel. cbn beta in Hel.
      unfold total_updates. assert (Z.of_nat (length (updates_at d)) <= map_zsum (fun _ d => Z.of_nat (length (updates_at d))) D);
        [apply Hel; [intros; lia|done]|lia]. }
    rewrite Ec, insert_insert_eq.
    change (set_asn (set_coverage d' cov0) (setAtSList (asn (set_coverage d' cov0)) i (set_a_update_count x (a_update_count x + 1))))
      with (set_coverage (count_as d' i x) cov0).
    rewrite E2. simpl_outcome. rewrite (get_data_Some _ n d2) by done. simpl_outcome. rewrite E3. simpl_outcome. done.
  - split; [|split].
    + eapply fin_inv; eassumption.
    + intros k f. eapply fin_rsum; eassumption.
    + intros id' k b. eapply fin_has; eassumption.
Qed.

(** A prefix without coverage takes the update as the walk would. *)
Lemma uncovered_prefix t D s n d u a l : D !! n = Some d -> roa_coverage d <= 0 ->
  u_treeNode u = n -> roa_match u = 0 -> appendDataToSList (other d) u = Ok l ->
  _performUpdateValidationKnownPrefix t D s u a false
  = ('(d, i, pcAS) ← getASFromPrefix (set_other d l) a;
     let pcAS := set_a_update_count pcAS (u32 (a_update_count pcAS + 1)) in
     let d := set_asn d (setAtSList (asn d) i pcAS) in
     s ← notifyUpdateCacheForROAChange s (updateID u) (state_of_other d) PC_DONT_SUPPRESS;
     Ok (<[n := d]> D, s)).
Proof.
  intros Hn Hc Hu Hm El. unfold _performUpdateValidationKnownPrefix. rewrite Hu, (get_data_Some _ _ _ Hn).
  simpl_outcome. unfold getASFromPrefix. change (asn (set_other d l)) with (asn d).
  assert (forall d1 i x, roa_coverage d1 = roa_coverage d -> other d1 = other d -> state_of_other d1 = state_of_other d ->
    ('(D, pcUpdate) ← cover_loop tree_fuel t n n (<[n := set_asn d1 (setAtSList (asn d1) i x)]> D) u a false;
     d ← get_data D n; '(d, s) ← PrefixNotCovered d pcUpdate s; Ok (<[n := d]> D, s))
    = (s ← notifyUpdateCacheForROAChange s (updateID u) (state_of_other d) PC_DONT_SUPPRESS;
       Ok (<[n := set_other (set_asn d1 (setAtSList (asn d1) i x)) l]> D, s))) as Hend.
  { intros d1 i x E1 E2 E3. unfold tree_fuel. cbn [cover_loop].
    rewrite (get_data_Some _ n (set_asn d1 (setAtSList (asn d1) i x))) by apply lookup_insert_eq. simpl_outcome.
    cbn [roa_coverage set_asn andb negb orb]. rewrite E1, (proj2 (Z.ltb_ge _ _)) by lia. simpl_outcome.
    rewrite (get_data_Some _ n (set_asn d1 (setAtSList (asn d1) i x))) by apply lookup_insert_eq. simpl_outcome.
    unfold PrefixNotCovered. rewrite Hm. cbn [other set_asn Z.eqb state_of_other]. rewrite E2, E3, El. simpl_outcome.
    destruct (notifyUpdateCacheForROAChange _ _ _ _); [|done]. simpl_outcome. by rewrite insert_insert_eq. }
  destruct (find_as (asn d) a) as [[i x]|]; simpl_outcome.
  - by rewrite Hend.
  - destruct (appendDataToSList (asn d) _) as [la|]; [|done]. simpl_outcome. by rewrite Hend.
Qed.

(** A tree node without its prefix object: see [delROAwl_then_request]. *)
Definition no_stale self k : Prop :=
  forall q p, node_prefix (prefixTree self) q = Some p -> prefix_bits p = k -> is_Some (node_data self !! q).
(** The entries that cover [k] are announced once. *)
Definition singles self k : Prop :=
  forall q d, node_data self !! q = Some d -> key (prefixTree self) q `prefix_of` k -> single (klen k) (roas_at d).
Definition has_prefix self k : Prop := exists q, is_Some (node_data self !! q) /\ key (prefixTree self) q = k.

Lemma room_insert_new t D n d ups : room (mkPrefixCache t D ups) -> D !! n = None -> roas_at d = [] -> updates_at d = [] ->
  room (mkPrefixCache t (<[n := d]> D) ups).
Proof.
  intros (A & B & P) Hn Hr Hu. cbn [prefixTree node_data] in *.
  assert (total_updates (<[n := d]> D) = total_updates D) as Et.
  { unfold total_updates. rewrite map_zsum_insert, Hu by done. done. }
  split; [|split]; cbn [prefixTree node_data].
  - assert (forall k f, rsum t (<[n := d]> D) k f = rsum t D k f) as HR; [|intros k a; rewrite !HR; apply A].
    intros k f. rewrite rsum_insert by done. unfold own. rewrite Hr. cbn. case_decide; lia.
  - intros q e r [[<- <-]|[_ Hq]]%lookup_insert_Some Hin; [rewrite Hr in Hin; by apply elem_of_nil in Hin|].
    rewrite Et. by apply (B q e).
  - by rewrite Et.
Qed.

Lemma post_keys self t' ups self' s' id k a : same_keys (prefixTree self) t' (node_data self) ->
  request_post (mkPrefixCache t' (node_data self) ups) self' s' id k a -> request_post self self' s' id k a.
Proof.
  intros Hk (A & B & P). split; [done|]. split.
  - intros k' f. rewrite B. apply rsum_keys, Hk.
  - intros id' k' a'. rewrite P. by rewrite (has_update_keys self t' ups _ _ _ Hk).
Qed.

Lemma set_coverage_same d : set_coverage d (roa_coverage d) = d.
Proof. by destruct d. Qed.

(** [_performUpdateValidationNewPrefix] *)
Lemma new_prefix t D ups ups' s n id a :
  pc_inv (mkPrefixCache t D ups) s -> room (mkPrefixCache t D ups) -> D !! n = None ->
  (exists p, node_prefix t n = Some p /\ prefix_ok p) ->
  request_ok (mkPrefixCache t D ups) s id (key t n) a -> singles (mkPrefixCache t D ups) (key t n) ->
  exists D' s', _performUpdateValidationNewPrefix t D s (mkPC_Update id a n 0) a = Ok (D', s', true)
    /\ request_post (mkPrefixCache t D ups) (mkPrefixCache t D' ups') s' id (key t n) a.
Proof.
  intros Hinv Hroom Hn Hnode [Hst Hid] Hsing. pose proof (inv_data_ok _ _ Hinv) as HD. cbn [prefixTree node_data] in HD.
  pose proof (pi_tree _ _ Hinv) as Hw. cbn [prefixTree] in Hw.
  assert (is_Some (node_prefix t n)) as HnS by (destruct Hnode as (p & -> & _); by eexists).
  destruct (getParent_spec t D n Hw HD HnS) as (o & Eo & Ho).
  pose proof (parent_state (mkPrefixCache t D ups) s n o Hinv Ho) as Est. cbn [prefixTree node_data] in Est.
  rewrite <- (rsum_new t D n all_roas Hw HD HnS Hn) in Est. set (st := if 0 <? _ then _ else _) in Est.
  set (cov := rsum t D (key t n) (covers (klen (key t n)))).
  destruct (insert_prefix_inv (mkPrefixCache t D ups) s n st cov ups Hinv Hn Hnode eq_refl eq_refl) as (Hinv2 & He2 & Hu2).
  cbn [prefixTree node_data] in Hinv2, He2, Hu2. set (d := set_coverage (new_PC_Prefix st) cov) in *.
  pose proof (room_insert_new t D n d ups Hroom Hn eq_refl eq_refl) as Hroom2.
  destruct (known_prefix t (<[n := d]> D) ups ups' s n d id a true 0 Hinv2 Hroom2)
    as (D' & s' & E & A & B & P).
  - apply lookup_insert_eq.
  - split; [done|]. intros k' a' Hh. by apply Hid, Hu2.
  - done.
  - intros _ m e [[<- <-]|[_ He]]%lookup_insert_Some Hk; [intros r Hr; by apply elem_of_nil in Hr|].
    by apply (Hsing m e).
  - exists D', s'. split.
    + unfold _performUpdateValidationNewPrefix. cbn [u_treeNode].
      rewrite decide_False by (rewrite Hn; by intros [? ?]). rewrite Eo. simpl_outcome. rewrite Est. simpl_outcome.
      rewrite insert_insert_eq in E. change (set_coverage d 0) with (new_PC_Prefix (N := N) st) in E.
      rewrite E. simpl_outcome. done.
    + split; [done|]. split.
      * intros k f. rewrite B. apply He2.
      * intros id' k a'. by rewrite P, Hu2.
Qed.

Lemma requestUpdateValidation_spec self s id prefix as_ :
  pc_inv self s -> room self -> prefix_ok (ipPrefixToPrefix_t prefix) ->
  request_ok self s id (prefix_key prefix) as_ -> no_stale self (prefix_key prefix) ->
  has_prefix self (prefix_key prefix) \/ singles self (prefix_key prefix) ->
  exists self' s', requestUpdateValidation self s id prefix as_ = Ok (self', s', true)
    /\ request_post self self' s' id (prefix_key prefix) as_.
Proof.
  intros Hinv Hroom Hok [Hst Hid] Hstale Hsing. unfold requestUpdateValidation.
  destruct (patricia_lookup _ _) as [[t n] ref] eqn:E. set (ups := updates self ++ [id]).
  destruct (lookup_inv self s _ t n ref ups Hinv Hok E) as (Hinv1 & Hnode & Hkey & Hsame & Hnew).
  destruct (pt_lookup _ _ _ _ _ (pi_tree _ _ Hinv) Hok E) as (_ & (pq & Hpq & Hbits & _) & _ & Hold & Href).
  pose proof (room_keys self t ups Hroom Hsame) as Hroom1. fold (prefix_key prefix) in Hkey, Hbits.
  rewrite <- Hkey in *.
  assert (request_ok (mkPrefixCache t (node_data self) ups) s id (key t n) as_) as Hreq1.
  { split; [done|]. intros k' a' Hh. apply Hid. by apply (has_update_keys self t ups). }
  destruct ref.
  - assert (singles (mkPrefixCache t (node_data self) ups) (key t n)) as Hs1.
    { destruct Hsing as [(q & Hq & Ek)|Hs].
      - exfalso. rewrite <- (Hsame q Hq) in Ek. assert (q = n) as ->.
        { eapply (key_inj t); [apply Hinv1|by apply (inv_data_ok _ _ Hinv1)|by eexists|done]. }
        rewrite Hnew in Hq by done. by destruct Hq.
      - intros q d Hq Hk. apply (Hs q d Hq). cbn [prefixTree] in Hk. by rewrite Hsame in Hk by by eexists. }
    destruct (new_prefix t (node_data self) ups ups s n id as_ Hinv1 Hroom1) as (D' & s' & E' & Hpost); try done.
    { by apply Hnew. }
    rewrite E'. simpl_outcome. eexists _, s'. split; [done|]. by apply (post_keys self t ups).
  - assert (is_Some (node_data self !! n)) as [d Hd].
    { destruct (node_prefix (prefixTree self) n) as [q|] eqn:Eq; [|by destruct Href as [_ Hr]; specialize (Hr eq_refl)].
      apply (Hstale n q Eq). pose proof (Hold q eq_refl) as Eq2. rewrite Hpq in Eq2. injection Eq2 as <-.
      congruence. }
    rewrite (get_data_Some _ _ _ Hd). simpl_outcome.
    destruct (known_prefix t (node_data self) ups ups s n d id as_ false (roa_coverage d) Hinv1 Hroom1 Hd Hreq1 eq_refl)
      as (D' & s' & E' & Hpost); [done|]. rewrite set_coverage_same, insert_id in E' by done.
    destruct (Z.ltb_spec 0 (roa_coverage d)).
    + rewrite E'. simpl_outcome. eexists _, s'. split; [done|]. by apply (post_keys self t ups).
    + destruct (pw_lists _ _ _ (pi_wf _ _ Hinv1 n d Hd)) as (_ & Hos & _).
      pose proof (append_ok (other d) (mkPC_Update id as_ n 0) Hos) as El. rewrite El. simpl_outcome.
      rewrite (uncovered_prefix t _ s n d _ as_ _ Hd) in E' by (done || exact El).
      destruct (getASFromPrefix _ as_) as [[[d0 i] x]|]; [|done]. simpl_outcome.
      revert E'. simpl_outcome. cbn [updateID].
      destruct (notifyUpdateCacheForROAChange _ _ _ _) as [s0|]; [|done]. simpl_outcome. intros [= <- <-].
      eexists _, s0. split; [done|]. by apply (post_keys self t ups).
Qed.
End request.
End PrefixRequest.
