(* ===== verification/PrefixSpec.v ===== *)
(** * Origin validation against RFC 6811 (server/prefix_cache.c)

    The specification of the prefix cache: a list of announced VRPs, the updates
    requested so far, and their origin validation as a function of both.  The
    states that announcements, withdrawals and requests reach refine it, as long
    as the runs stay clear of the cases that [reach] leaves out.  The cache keeps
    the prefixes of both address families in one tree by their bits: what it
    computes is [origin_by_bits], which is [rfc6811], the validation of RFC 6811,
    when the VRPs that cover the bits are of the family of the prefix. *)
From S2P Require Import Prelude Lists SrxDefs Patricia SList PrefixCache PrefixTree PrefixSteps PrefixInv.
From S2P Require Import PrefixEntries PrefixWalks PrefixAdd PrefixRoa PrefixAnnounce PrefixWithdraw.
From S2P Require Import PrefixCover PrefixRequest.

Module PrefixSpec.
Import PrefixCache PrefixTree PrefixSteps PrefixInv PrefixEntries PrefixWalks PrefixAdd PrefixRoa.
Import PrefixAnnounce PrefixWithdraw PrefixCover PrefixRequest.

(** ** The specification *)
Record vrp := mkVrp { v_bits : list bool; v_max : Z; v_as : Z; v_cache : Z }.
#[global] Instance vrp_eq_dec : EqDecision vrp.
Proof. solve_decision. Defined.

Definition vrp_covers (k : list bool) (v : vrp) : bool := bool_decide (v_bits v `prefix_of` k).
Definition vrp_matches (k : list bool) (a : Z) (v : vrp) : bool :=
  vrp_covers k v && (klen k <=? v_max v) && (v_as v =? a).
(** The origin validation on the bits of the prefixes alone. *)
Definition origin_by_bits (vrps : list vrp) (k : list bool) (a : Z) : Z :=
  if existsb (vrp_matches k a) vrps then SRx_RESULT_VALID
  else if existsb (vrp_covers k) vrps then SRx_RESULT_INVALID else SRx_RESULT_NOTFOUND.

(** RFC 6811, section 2, for VRPs with their address family: a VRP covers a prefix
    of its own family only. *)
Definition family_covers (family : Z) (k : list bool) (v : Z * vrp) : bool := (v.1 =? family) && vrp_covers k v.2.
Definition family_matches (family : Z) (k : list bool) (a : Z) (v : Z * vrp) : bool :=
  (v.1 =? family) && vrp_matches k a v.2.
Definition rfc6811 (vrps : list (Z * vrp)) (family : Z) (k : list bool) (a : Z) : Z :=
  if existsb (family_matches family k a) vrps then SRx_RESULT_VALID
  else if existsb (family_covers family k) vrps then SRx_RESULT_INVALID else SRx_RESULT_NOTFOUND.
(** No VRP of another family has the leading bits of the prefix. *)
Definition one_family (vrps : list (Z * vrp)) (family : Z) (k : list bool) : Prop :=
  forall v, v ∈ vrps -> v_bits v.2 `prefix_of` k -> v.1 = family.

Lemma existsb_family (f : vrp -> bool) (vrps : list (Z * vrp)) family k :
  one_family vrps family k -> (forall v, f v = true -> vrp_covers k v = true) ->
  existsb (fun v => (v.1 =? family) && f v.2) vrps = existsb f (map snd vrps).
Proof.
  intros Hone Hf. induction vrps as [|v vrps IH]; [done|]. cbn [existsb map].
  rewrite IH by (intros w Hw; apply Hone; by right). f_equal. destruct (f v.2) eqn:E; [|apply andb_false_r].
  apply Hf, bool_decide_eq_true in E. rewrite (Hone v) by (done || by left). by rewrite Z.eqb_refl.
Qed.
(** Without such a VRP the bits decide as RFC 6811 does. *)
Lemma rfc6811_by_bits vrps family k a : one_family vrps family k ->
  rfc6811 vrps family k a = origin_by_bits (map snd vrps) k a.
Proof.
  intros Hone. unfold rfc6811, origin_by_bits, family_matches, family_covers.
  rewrite !(existsb_family _ _ _ _ Hone); [done|done|].
  intros v. unfold vrp_matches. rewrite !andb_true_iff. tauto.
Qed.
(** A withdrawal takes one announcement away. *)
Fixpoint withdraw (v : vrp) (vrps : list vrp) : list vrp :=
  match vrps with
  | [] => []
  | w :: vrps => if decide (w = v) then vrps else w :: withdraw v vrps
  end.

(** An entry counts for the VRPs with its values. *)
Definition vcount (vrps : list vrp) (k : list bool) (f : sel) : Z :=
  zsum (fun v => if decide (v_bits v `prefix_of` k) then one f (v_max v) (v_as v) (v_cache v) else 0) vrps.

Lemma vcount_pos vrps k f :
  0 < vcount vrps k f <-> exists v, v ∈ vrps /\ v_bits v `prefix_of` k /\ f (v_max v) (v_as v) (v_cache v) = true.
Proof.
  split.
  - intros (v & Hv & Hpos)%zsum_pos. exists v. split; [done|]. case_decide; [|lia]. split; [done|].
    unfold one in Hpos. by destruct (f _ _ _).
  - intros (v & Hv & Hk & Hf). unfold vcount.
    eapply Z.lt_le_trans; [|apply (zsum_elem _ vrps v); [|done]].
    + cbn beta. rewrite decide_True by done. unfold one. rewrite Hf. lia.
    + intros w _. cbn beta. unfold one. repeat case_match; lia.
Qed.

Lemma withdraw_elem v vrps : v ∈ vrps -> vrps ≡ₚ v :: withdraw v vrps.
Proof.
  induction vrps as [|w vrps IH]; intros Hv; [by apply elem_of_nil in Hv|]. cbn [withdraw]. case_decide as E; [by subst|].
  apply elem_of_cons in Hv as [->|Hv]; [done|]. rewrite (IH Hv) at 1. apply Permutation_swap.
Qed.
Lemma withdraw_absent v vrps : v ∉ vrps -> withdraw v vrps = vrps.
Proof.
  induction vrps as [|w vrps IH]; [done|]. intros Hv. rewrite not_elem_of_cons in Hv. destruct Hv as [Hne Hv].
  cbn [withdraw]. rewrite decide_False by congruence. by rewrite IH.
Qed.

Lemma origin_by_bits_count vrps k a :
  origin_by_bits vrps k a = if 0 <? vcount vrps k (matching (klen k) a) then SRx_RESULT_VALID
                     else if 0 <? vcount vrps k all_roas then SRx_RESULT_INVALID else SRx_RESULT_NOTFOUND.
Proof.
  assert (forall b f, b = true <-> 0 < vcount vrps k f -> b = (0 <? vcount vrps k f)) as Hb.
  { intros b f Hbf. apply Bool.eq_iff_eq_true. by rewrite Z.ltb_lt. }
  unfold origin_by_bits. rewrite <- (Hb (existsb (vrp_matches k a) vrps)), <- (Hb (existsb (vrp_covers k) vrps)); [done|..];
    rewrite existsb_exists, vcount_pos; split; intros (v & Hv & Hm); exists v.
  - apply list_elem_of_In in Hv. apply bool_decide_eq_true in Hm. done.
  - destruct Hm as [Hk _]. split; [by apply list_elem_of_In|]. by apply bool_decide_eq_true.
  - apply list_elem_of_In in Hv. unfold vrp_matches in Hm. rewrite !andb_true_iff in Hm.
    destruct Hm as [[Hk Hl] Ha]. apply bool_decide_eq_true in Hk. unfold matching. by rewrite Hl, Ha.
  - destruct Hm as [Hk Hm]. split; [by apply list_elem_of_In|]. unfold matching in Hm. apply andb_true_iff in Hm as [Hl Ha].
    unfold vrp_matches, vrp_covers. rewrite Hl, Ha. by rewrite bool_decide_true.
Qed.

Section spec.
Context {T N S : Type} `{Countable N} `{PatriciaLaws T N} `{RoaSinkLaws S}.
Implicit Types (t : T) (n m q : N) (s : S) (d : PC_Prefix N) (r : PC_ROA) (u : PC_Update N) (a : Z)
  (k : list bool) (D : gmap N (PC_Prefix N)) (f : sel) (x : PC_AS) (self : PrefixCache T N) (vrps : list vrp).

(** ** Refinement *)
Definition represents vrps self : Prop := forall k f, entries self k f = vcount vrps k f.

(** The entries of one prefix alone. *)
Definition exact_entries self k f : Z :=
  map_zsum (fun q d => if decide (key (prefixTree self) q = k) then own d f else 0) (node_data self).
Definition exact_vrps vrps k f : Z :=
  zsum (fun v => if decide (v_bits v = k) then one f (v_max v) (v_as v) (v_cache v) else 0) vrps.

Lemma prefix_snoc (l k : list bool) b : l `prefix_of` k ++ [b] <-> l = k ++ [b] \/ l `prefix_of` k.
Proof.
  split.
  - intros [z E]. destruct z as [|c z _] using rev_ind; [left; by rewrite app_nil_r in E|]. right.
    rewrite (assoc_L (++)) in E. apply app_inj_tail in E as [-> _]. by exists z.
  - intros [->|Hl]; [done|by apply prefix_app_r].
Qed.

Lemma decide_snoc (l k : list bool) b (z : Z) `{Decision (l = k ++ [b])} :
  (if decide (l `prefix_of` k ++ [b]) then z else 0)
  = (if decide (l = k ++ [b]) then z else 0) + (if decide (l `prefix_of` k) then z else 0).
Proof.
  pose proof (prefix_snoc l k b) as Hs.
  destruct (decide (l `prefix_of` k ++ [b])), (decide (l = k ++ [b])) as [El|], (decide (l `prefix_of` k)) as [Hp|];
    try lia; try tauto. rewrite El in Hp. by apply prefix_snoc_not in Hp.
Qed.

Lemma decide_nil (l : list bool) (z : Z) `{Decision (l = [])} :
  (if decide (l `prefix_of` []) then z else 0) = if decide (l = []) then z else 0.
Proof.
  destruct (decide (l `prefix_of` [])) as [Hp|Hp], (decide (l = [])) as [->|Hl]; try done.
  by apply prefix_nil_inv in Hp.
Qed.

Lemma exact_represents vrps self k f : represents vrps self -> exact_entries self k f = exact_vrps vrps k f.
Proof.
  intros HR. destruct k as [|b k _] using rev_ind.
  - transitivity (entries self [] f); [|rewrite HR].
    + apply map_zsum_ext. intros q d _. symmetry. apply decide_nil.
    + apply zsum_ext. intros v _. apply decide_nil.
  - pose proof (HR (k ++ [b]) f) as E1. pose proof (HR k f) as E2.
    assert (entries self (k ++ [b]) f = exact_entries self (k ++ [b]) f + entries self k f) as X1.
    { unfold entries, rsum, exact_entries. rewrite <- map_zsum_plus. apply map_zsum_ext. intros q d _. apply decide_snoc. }
    assert (vcount vrps (k ++ [b]) f = exact_vrps vrps (k ++ [b]) f + vcount vrps k f) as X2.
    { unfold vcount, exact_vrps. rewrite <- zsum_plus. apply zsum_ext. intros v _. apply decide_snoc. }
    lia.
Qed.

(** The entries of the cache are the announced VRPs. *)
Lemma announced_vrps self s vrps k a maxLen cache : pc_inv self s -> represents vrps self ->
  announced self k a maxLen cache <-> mkVrp k maxLen a cache ∈ vrps.
Proof.
  intros Hinv HR. set (f := fun ml a' c => (ml =? maxLen) && (a' =? a) && (c =? cache)).
  assert (forall ml a' c, f ml a' c = true <-> ml = maxLen /\ a' = a /\ c = cache) as Hf.
  { intros ml a' c. unfold f. rewrite !andb_true_iff, !Z.eqb_eq. tauto. }
  assert (forall n d r, node_data self !! n = Some d -> r ∈ roas_at d -> 1 <= roa_count r) as Hc.
  { intros n d r Hn Hr. by apply (pi_counts _ _ (pi_wf _ _ Hinv) n d r). }
  transitivity (0 < exact_entries self k f).
  - split.
    + intros (n & d & r & Hn & Ek & Hr & Ea & Em & Ec). unfold exact_entries.
      eapply Z.lt_le_trans; [|apply (map_zsum_elem _ _ n d); [|done]].
      * cbn beta. rewrite decide_True by done.
        eapply Z.lt_le_trans; [|apply (zsum_elem _ (roas_at d) r); [|done]].
        -- cbn beta. rewrite (proj2 (Hf _ _ _)) by done. pose proof (Hc n d r Hn Hr). lia.
        -- intros y Hy. cbn beta. pose proof (Hc n d y Hn Hy). destruct (f _ _ _); lia.
      * intros m e He. cbn beta. case_decide; [|lia]. apply own_nonneg. intros y. by apply (Hc m).
    + intros (n & d & Hn & Hpos)%map_zsum_pos. case_decide as Ek; [|lia].
      apply zsum_pos in Hpos as (r & Hr & Hpos). destruct (f _ _ _) eqn:Ef; [|lia].
      apply Hf in Ef as (? & ? & ?). by exists n, d, r.
  - rewrite (exact_represents vrps) by done. split.
    + intros (v & Hv & Hpos)%zsum_pos. case_decide as Ek; [|lia]. unfold one in Hpos.
      destruct (f _ _ _) eqn:Ef; [|lia]. apply Hf in Ef as (? & ? & ?). destruct v. cbn in *. by subst.
    + intros Hv. unfold exact_vrps. eapply Z.lt_le_trans; [|apply (zsum_elem _ vrps (mkVrp k maxLen a cache)); [|done]].
      * cbn beta. cbn. rewrite decide_True by done. unfold one. rewrite (proj2 (Hf _ _ _)) by done. lia.
      * intros w _. cbn beta. unfold one. repeat case_match; lia.
Qed.

(** ** The states of the cache

    The rules carry the conditions under which the operations do what they mean
    to: room in the counters, a maximum length that is not below the length of
    the prefix, and for a request an update that is stored, always with the same
    prefix and origin.  A request succeeds, which the prefix of a withdrawal that
    left no object behind excludes ([request_after_withdrawal]), and its prefix is
    known or no entry that covers it is announced twice
    ([double_announcement_undercounted]).  Between the operations the sink may change as
    long as it keeps the results of the requested updates. *)
Definition upd : Type := Z * list bool * Z.
Inductive reach : list vrp -> list upd -> PrefixCache T N -> S -> Prop :=
| reach_init s : rs_wf s -> reach [] [] initializePrefixCache s
| reach_add vrps us self s oas prefix maxLen sid cache sup self' s' b :
    reach vrps us self s -> room self -> prefix_ok (ipPrefixToPrefix_t prefix) -> length_bits prefix <= maxLen ->
    belongsToRfc5398 oas = false ->
    addROAwl self s oas prefix maxLen sid cache sup = Ok (self', s', b) ->
    reach (vrps ++ [mkVrp (prefix_key prefix) maxLen oas cache]) us self' s'
| reach_del vrps us self s oas prefix maxLen sid cache sup self' s' b :
    reach vrps us self s -> prefix_ok (ipPrefixToPrefix_t prefix) ->
    delROAwl self s oas prefix maxLen sid cache sup = Ok (self', s', b) ->
    reach (withdraw (mkVrp (prefix_key prefix) maxLen oas cache) vrps) us self' s'
| reach_request vrps us self s id prefix a self' s' b :
    reach vrps us self s -> room self -> prefix_ok (ipPrefixToPrefix_t prefix) ->
    is_Some (roa_result s id) -> (forall k' a', (id, k', a') ∈ us -> k' = prefix_key prefix /\ a' = a) ->
    has_prefix self (prefix_key prefix) \/ singles self (prefix_key prefix) ->
    requestUpdateValidation self s id prefix a = Ok (self', s', b) ->
    reach vrps (us ++ [(id, prefix_key prefix, a)]) self' s'
| reach_sink vrps us self s s' :
    reach vrps us self s -> rs_wf s' ->
    (forall id k a, (id, k, a) ∈ us -> roa_result s' id = roa_result s id) ->
    reach vrps us self s'.

(** The refinement relation. *)
Record refines vrps (us : list upd) self s : Prop := {
  rf_inv : pc_inv self s;
  rf_entries : represents vrps self;
  rf_updates id k a : has_update self id k a <-> (id, k, a) ∈ us
}.

Lemma init_refines s : rs_wf s -> refines [] [] initializePrefixCache s.
Proof.
  intros Hs. split.
  - split; cbn [prefixTree node_data initializePrefixCache]; try done.
    + apply pt_new.
    + by intros n [d Hn].
  - intros k f. unfold entries, rsum. cbn. by rewrite map_zsum_empty.
  - intros id k a. split; [by intros (n & d & u & Hn & _)|]. intros Hin. by apply elem_of_nil in Hin.
Qed.

Lemma sink_inv self s s' : pc_inv self s -> rs_wf s' ->
  (forall id k a, has_update self id k a -> roa_result s' id = roa_result s id) -> pc_inv self s'.
Proof.
  intros [H1' H2' H3' H4' H5' H6' H7' H8' H9'] Hs Hsame. split; try done.
  intros n d Hn. destruct (H8' n d Hn) as [Hv Ho].
  split; intros u Hu; rewrite (Hsame _ (key (prefixTree self) n) (u_as u)); auto;
    exists n, d, u; repeat split; auto; apply elem_of_app; auto.
Qed.

Lemma vcount_app vrps v k f : vcount (vrps ++ [v]) k f
  = vcount vrps k f + if decide (v_bits v `prefix_of` k) then one f (v_max v) (v_as v) (v_cache v) else 0.
Proof. unfold vcount. rewrite zsum_app. cbn. lia. Qed.

Lemma refines_add vrps us self s oas prefix maxLen sid cache sup :
  refines vrps us self s -> room self -> prefix_ok (ipPrefixToPrefix_t prefix) -> length_bits prefix <= maxLen ->
  belongsToRfc5398 oas = false ->
  exists self' s', addROAwl self s oas prefix maxLen sid cache sup = Ok (self', s', true)
    /\ refines (vrps ++ [mkVrp (prefix_key prefix) maxLen oas cache]) us self' s'.
Proof.
  intros [Hinv HR HU] Hroom Hok Hlen H5398.
  destruct (addROAwl_spec self s oas prefix maxLen sid cache sup Hinv Hroom Hok Hlen H5398)
    as (self' & s' & E & Hinv' & He & Hu). exists self', s'. split; [done|]. split; [done| |].
  - intros k f. by rewrite vcount_app, He, HR.
  - intros id k a. by rewrite Hu.
Qed.

Lemma refines_del vrps us self s oas prefix maxLen sid cache sup :
  refines vrps us self s -> prefix_ok (ipPrefixToPrefix_t prefix) ->
  let v := mkVrp (prefix_key prefix) maxLen oas cache in
  exists self' s', delROAwl self s oas prefix maxLen sid cache sup = Ok (self', s', bool_decide (v ∈ vrps))
    /\ refines (withdraw v vrps) us self' s' /\ (v ∉ vrps -> s' = s).
Proof.
  intros [Hinv HR HU] Hok v.
  destruct (delROAwl_spec self s oas prefix maxLen sid cache sup Hinv Hok)
    as (self' & s' & b & E & Hb & Hinv' & He & Hu & Hs). rewrite (announced_vrps self s vrps) in Hb by done. fold v in Hb.
  assert (b = bool_decide (v ∈ vrps)) as Eb.
  { apply Bool.eq_iff_eq_true. by rewrite bool_decide_eq_true. }
  exists self', s'. rewrite <- Eb. split; [done|]. split; [split; [done| |]|].
  - intros k f. specialize (He k f). rewrite HR in He. destruct b.
    + unfold vcount in *. rewrite (zsum_Permutation _ _ _ (withdraw_elem _ _ (proj1 Hb eq_refl))), zsum_cons in He.
      cbn [v_bits v_max v_as v_cache andb v] in He.
      clear Eb. case_bool_decide as Hk; [rewrite decide_True in He by done|rewrite decide_False in He by done]; lia.
    + rewrite withdraw_absent by (intros Hv; by apply Hb in Hv). cbn [andb] in He. lia.
  - intros id k a. by rewrite Hu.
  - intros Hv. apply Hs. destruct b; [|done]. by destruct Hv; apply Hb.
Qed.

Lemma refines_request vrps us self s id prefix a :
  refines vrps us self s -> room self -> prefix_ok (ipPrefixToPrefix_t prefix) ->
  is_Some (roa_result s id) -> (forall k' a', (id, k', a') ∈ us -> k' = prefix_key prefix /\ a' = a) ->
  no_stale self (prefix_key prefix) -> has_prefix self (prefix_key prefix) \/ singles self (prefix_key prefix) ->
  exists self' s', requestUpdateValidation self s id prefix a = Ok (self', s', true)
    /\ refines vrps (us ++ [(id, prefix_key prefix, a)]) self' s'.
Proof.
  intros [Hinv HR HU] Hroom Hok Hst Hid Hns Hsg.
  destruct (requestUpdateValidation_spec self s id prefix a Hinv Hroom Hok) as (self' & s' & E & Hinv' & He & Hu);
    try done.
  { split; [done|]. intros k' a' Hh. by apply Hid, HU. }
  exists self', s'. split; [done|]. split; [done| |].
  - intros k f. by rewrite He, HR.
  - intros id' k a'. rewrite Hu, HU, elem_of_app, list_elem_of_singleton. split; (intros [?|Heq]; [by left|right]).
    + by destruct Heq as (-> & -> & ->).
    + by injection Heq as -> -> ->.
Qed.

Lemma stale_request self s id prefix a q p :
  pc_inv self s -> prefix_ok (ipPrefixToPrefix_t prefix) ->
  node_prefix (prefixTree self) q = Some p -> prefix_bits p = prefix_key prefix -> node_data self !! q = None ->
  requestUpdateValidation self s id prefix a = Fault NullDeref.
Proof.
  intros Hinv Hok Hq Hp Hd. unfold requestUpdateValidation.
  destruct (patricia_lookup _ _) as [[t n] ref] eqn:E.
  destruct (pt_lookup _ _ _ _ _ (pi_tree _ _ Hinv) Hok E) as (Hw & (pq & Hpq & Hbits & _) & Hother & Hold & Href).
  assert (n = q) as ->.
  { destruct (decide (q = n)) as [|Hne]; [done|]. eapply (pt_unique t); [done|exact Hpq|by rewrite Hother|].
    by rewrite Hbits, Hp. }
  destruct ref; [by rewrite (proj1 Href eq_refl) in Hq|]. unfold get_data. by rewrite Hd.
Qed.

(** So a request that succeeds is for a prefix with its object. *)
Lemma request_no_stale self s id prefix a res : pc_inv self s -> prefix_ok (ipPrefixToPrefix_t prefix) ->
  requestUpdateValidation self s id prefix a = Ok res -> no_stale self (prefix_key prefix).
Proof.
  intros Hinv Hok E q p Hq Hp. destruct (node_data self !! q) as [d|] eqn:Hd; [by exists d|].
  by rewrite (stale_request self s id prefix a q p) in E.
Qed.

Lemma reach_refines vrps us self s : reach vrps us self s -> refines vrps us self s.
Proof.
  induction 1 as [s Hs
    |vrps us self s oas prefix maxLen sid cache sup self' s' b _ Hr Hroom Hok Hlen H5398 E
    |vrps us self s oas prefix maxLen sid cache sup self' s' b _ Hr Hok E
    |vrps us self s id prefix a self' s' b _ Hr Hroom Hok Hst Hid Hsg E
    |vrps us self s s' _ [Hinv HR HU] Hs Hsame].
  - by apply init_refines.
  - destruct (refines_add vrps us self s oas prefix maxLen sid cache sup Hr Hroom Hok Hlen H5398)
      as (self1 & s1 & E1 & Hr1). rewrite E1 in E. by injection E as <- <- _.
  - destruct (refines_del vrps us self s oas prefix maxLen sid cache sup Hr Hok)
      as (self1 & s1 & E1 & Hr1 & _). rewrite E1 in E. by injection E as <- <- _.
  - pose proof (request_no_stale _ _ _ _ _ _ (rf_inv _ _ _ _ Hr) Hok E) as Hns.
    destruct (refines_request vrps us self s id prefix a Hr Hroom Hok Hst Hid Hns Hsg)
      as (self1 & s1 & E1 & Hr1). rewrite E1 in E. by injection E as <- <- _.
  - split; [|done|done]. apply (sink_inv self s); [done|done|]. intros id k a Hh. apply (Hsame id k a). by apply HU.
Qed.

(** The invariant determines the results. *)
Lemma inv_result self s id k a : pc_inv self s -> has_update self id k a ->
  roa_result s id = Some (if 0 <? entries self k (matching (klen k) a) then SRx_RESULT_VALID
                          else if 0 <? entries self k all_roas then SRx_RESULT_INVALID else SRx_RESULT_NOTFOUND).
Proof.
  intros Hinv (n & d & u & Hn & Hu & <- & <- & <-). destruct (pi_agrees _ _ Hinv n d Hn) as [_ As Av Ao].
  destruct (pi_synced _ _ Hinv n d Hn) as [Sv So]. apply elem_of_app in Hu as [Hu|Hu].
  - destruct (Av u Hu) as [Em Hp]. rewrite (Sv u Hu). unfold entries. by rewrite (proj2 (Z.ltb_lt _ _)) by lia.
  - destruct (Ao u Hu) as [_ Em]. rewrite (So u Hu), As. unfold entries. by rewrite Em.
Qed.

Lemma refines_result vrps us self s id k a : refines vrps us self s -> (id, k, a) ∈ us ->
  roa_result s id = Some (origin_by_bits vrps k a).
Proof.
  intros [Hinv HR HU] Hin. rewrite (inv_result self s id k a Hinv) by by apply HU. by rewrite origin_by_bits_count, !HR.
Qed.

(** ** The properties of the cache *)

(** C9 After announcements, withdrawals and requests from the empty cache, the
    result stored for every requested update is the origin validation on the bits
    of the prefixes for the VRPs that are announced, and the one of RFC 6811 unless
    a VRP of the other address family has the leading bits of the prefix: the cache
    does not compare the families.  The runs are those on which every operation
    succeeds - a request after a withdrawal that left no object for its prefix
    does not - no counter overflows, the maximum lengths are not below the lengths
    of the prefixes, a requested update is stored and always has the same prefix and
    origin, and no entry that covers a prefix has been announced twice when the prefix is
    requested for the first time. *)
Theorem prefix_cache_rfc6811 vrps us self s : reach vrps us self s ->
  forall id k a, (id, k, a) ∈ us ->
    roa_result s id = Some (origin_by_bits vrps k a)
    /\ forall (vrps' : list (Z * vrp)) family, vrps = map snd vrps' -> one_family vrps' family k ->
         roa_result s id = Some (rfc6811 vrps' family k a).
Proof.
  intros Hr%reach_refines id k a Hin. pose proof (refines_result _ _ _ _ _ _ _ Hr Hin) as E. split; [exact E|].
  intros vrps' family -> Hone. by rewrite rfc6811_by_bits.
Qed.

(** C29 Every cache that a run reaches is well-formed: the coverage of each prefix,
    the matches of each update and the state of each prefix are the sums over the
    white-list entries above that they stand for.  The runs are those on which
    every operation succeeds, no counter overflows, the maximum lengths are not
    below the lengths of the prefixes, a requested update is stored and always has the
    same prefix and origin, and no entry that covers a prefix has been announced twice
    when the prefix is requested for the first time: such an entry would be counted
    once. *)
Theorem prefix_cache_wf vrps us self s : reach vrps us self s -> pc_inv self s.
Proof. by intros [? _ _]%reach_refines. Qed.

(** C10 Announcing a white-list entry succeeds and adds the VRP, whatever was
    announced before; an AS reserved for documentation is refused. *)
Theorem addROAwl_correct vrps us self s oas prefix maxLen session_id cache sup :
  refines vrps us self s -> room self -> prefix_ok (ipPrefixToPrefix_t prefix) -> length_bits prefix <= maxLen ->
  if belongsToRfc5398 oas then addROAwl self s oas prefix maxLen session_id cache sup = Ok (self, s, false)
  else exists self' s', addROAwl self s oas prefix maxLen session_id cache sup = Ok (self', s', true)
         /\ refines (vrps ++ [mkVrp (prefix_key prefix) maxLen oas cache]) us self' s'.
Proof.
  intros Hr Hroom Hok Hlen. destruct (belongsToRfc5398 oas) eqn:E; [|by apply refines_add].
  unfold addROAwl. by rewrite E.
Qed.

(** C11 Withdrawing a white-list entry reports whether it is announced and takes
    one announcement away; an entry that is not announced changes no result. *)
Theorem delROAwl_correct vrps us self s oas prefix maxLen session_id cache sup :
  refines vrps us self s -> prefix_ok (ipPrefixToPrefix_t prefix) ->
  let v := mkVrp (prefix_key prefix) maxLen oas cache in
  exists self' s', delROAwl self s oas prefix maxLen session_id cache sup = Ok (self', s', bool_decide (v ∈ vrps))
    /\ refines (withdraw v vrps) us self' s' /\ (v ∉ vrps -> s' = s).
Proof. intros Hr Hok. by apply refines_del. Qed.

(** A request files the update and stores its result, when the prefix has its object
    or is new to the tree and, if it is new, no entry that covers it is announced
    twice. *)
Theorem requestUpdateValidation_correct vrps us self s id prefix a :
  refines vrps us self s -> room self -> prefix_ok (ipPrefixToPrefix_t prefix) ->
  is_Some (roa_result s id) -> (forall k' a', (id, k', a') ∈ us -> k' = prefix_key prefix /\ a' = a) ->
  no_stale self (prefix_key prefix) -> has_prefix self (prefix_key prefix) \/ singles self (prefix_key prefix) ->
  exists self' s', requestUpdateValidation self s id prefix a = Ok (self', s', true)
    /\ refines vrps (us ++ [(id, prefix_key prefix, a)]) self' s'
    /\ roa_result s' id = Some (origin_by_bits vrps (prefix_key prefix) a).
Proof.
  intros Hr Hroom Hok Hst Hid Hns Hsg.
  destruct (refines_request vrps us self s id prefix a Hr Hroom Hok Hst Hid Hns Hsg) as (self' & s' & E & Hr').
  exists self', s'. split; [done|]. split; [done|]. eapply refines_result; [exact Hr'|].
  apply elem_of_app. right. by apply list_elem_of_singleton.
Qed.

(** What the validation cache announces or withdraws reaches the prefix cache
    as the VRP with the low eight bits of the maximum length. *)
Theorem handlePrefix_correct vrps us self s cache session_id (isAnn : bool) prefix maxLen oas :
  refines vrps us self s -> room self -> prefix_ok (ipPrefixToPrefix_t prefix) -> length_bits prefix <= u8 maxLen ->
  let v := mkVrp (prefix_key prefix) (u8 maxLen) oas cache in
  exists self' s', handlePrefix self s cache session_id isAnn prefix maxLen oas = Ok (self', s')
    /\ refines (if isAnn then if belongsToRfc5398 oas then vrps else vrps ++ [v] else withdraw v vrps) us self' s'.
Proof.
  intros Hr Hroom Hok Hlen v. unfold handlePrefix. destruct isAnn.
  - destruct (belongsToRfc5398 oas) eqn:E.
    + unfold addROAwl. rewrite E. simpl_outcome. by exists self, s.
    + destruct (refines_add vrps us self s oas prefix (u8 maxLen) session_id cache PC_DO_SUPPRESS Hr Hroom Hok Hlen E)
        as (self' & s' & E' & Hr'). rewrite E'. simpl_outcome. by exists self', s'.
  - destruct (refines_del vrps us self s oas prefix (u8 maxLen) session_id cache PC_DO_SUPPRESS Hr Hok)
      as (self' & s' & E' & Hr' & _). rewrite E'. simpl_outcome. by exists self', s'.
Qed.

(** ** Prefixes without their object *)
Lemma delROAwl_tree self s oas prefix maxLen sid cache sup self' s' b :
  delROAwl self s oas prefix maxLen sid cache sup = Ok (self', s', b) ->
  prefixTree self' = (patricia_lookup (ipPrefixToPrefix_t prefix) (prefixTree self)).1.1.
Proof.
  unfold delROAwl. destruct (patricia_lookup _ _) as [[t n] ref]. cbn [fst].
  destruct (node_data self !! n) as [d|]; [|by intros [= <- _ _]].
  destruct (find_as _ _) as [[i x]|]; [|by intros [= <- _ _]].
  destruct (find_roa _ _ _) as [[j r]|]; [|by intros [= <- _ _]].
  destruct (getParent _ _ _) as [o|]; [|done]. simpl_outcome. destruct (state_of _ _) as [z|]; [|done]. simpl_outcome.
  destruct (_delROAwl_validateUpdates _ _ _ _ _ _ _) as [[D [r' s1]]|]; [|done]. simpl_outcome.
  destruct (drop_roa _ _ _ _ _) as [D'|]; [|done]. simpl_outcome. by intros [= <- _ _].
Qed.

(** After a withdrawal that leaves no object for the prefix, because its last
    entry went or because there was none, the tree still holds the prefix, and
    validating an update of it dereferences NULL. *)
Theorem request_after_withdrawal vrps us self s oas prefix maxLen session_id cache sup self' s' b id a :
  refines vrps us self s -> prefix_ok (ipPrefixToPrefix_t prefix) ->
  delROAwl self s oas prefix maxLen session_id cache sup = Ok (self', s', b) ->
  ~ has_prefix self' (prefix_key prefix) ->
  requestUpdateValidation self' s' id prefix a = Fault NullDeref.
Proof.
  intros Hr Hok E Hno.
  destruct (refines_del vrps us self s oas prefix maxLen session_id cache sup Hr Hok) as (self1 & s1 & E1 & [Hinv _ _] & _).
  rewrite E1 in E. injection E as -> -> _. pose proof (delROAwl_tree _ _ _ _ _ _ _ _ _ _ _ E1) as Ht.
  destruct (patricia_lookup _ _) as [[t n] ref] eqn:El. cbn [fst] in Ht.
  destruct (pt_lookup _ _ _ _ _ (pi_tree _ _ (rf_inv _ _ _ _ Hr)) Hok El) as (_ & (pq & Hpq & Hbits & _) & _).
  rewrite <- Ht in Hpq. eapply stale_request; [exact Hinv|done|exact Hpq|done|].
  apply eq_None_not_Some. intros Hd. apply Hno. exists n. split; [done|]. unfold key. by rewrite Hpq.
Qed.
End spec.
End PrefixSpec.
