(* ===== verification/RoaNotify.v ===== *)
(** * Results of the prefix cache in the update cache (server/prefix_cache.c)

    [notifyUpdateCacheForROAChange]: the origin validation result of an update is
    stored in the update cache; its clients are told at once, or the update is
    queued for the end of the data of the validation cache.  This is the sink the
    prefix cache is used with. *)
From S2P Require Import Prelude SrxDefs UtHash UpdateCache UpdateCacheLemmas UpdateCacheTheorems RpkiQueue PrefixCache.

Module RoaNotify.
Import UpdateCache UpdateCacheTheorems RpkiQueue.

(** The update cache, the queue that [getRPKIQueue] returns and the notifications
    passed to the callback so far. *)
Record Server (H : Type) := mkServer {
  updCache : UpdateCache H;
  queue : RPKI_QUEUE;
  notified : list SRxValidationResult
}.
Arguments mkServer {H} _ _ _.
Arguments updCache {H} _.
Arguments queue {H} _.
Arguments notified {H} _.

Section notify.
Context {H : Type} `{UTHashLaws H}.
Implicit Types (s : Server H) (id : Z) (X : gset Z).

(** An update that is not stored is only logged. *)
Definition notifyUpdateCacheForROAChange s (updateID newROAResult : Z) (suppressNotification : bool)
    : outcome (Server H) :=
  let srxRes := mkSRxResult newROAResult SRx_RESULT_DONOTUSE SRx_RESULT_DONOTUSE in
  '(uc, found, sent) ← modifyUpdateResult (updCache s) updateID srxRes suppressNotification;
  if (found : bool) && suppressNotification then
    q ← rq_queue (queue s) RQ_ROA updateID;
    Ok (mkServer uc q (notified s ++ sent))
  else Ok (mkServer uc (queue s) (notified s ++ sent)).

#[export] Instance server_sink : RoaSink (Server H) := {|
  PrefixCache.notifyUpdateCacheForROAChange := notifyUpdateCacheForROAChange
|}.

(** The updates of the cache and of the queue fit the counter of the queue. *)
Definition queue_fits (u : UpdateCache H) (queue : RPKI_QUEUE) : Prop :=
  exists q, queue = Some q /\ rq_wf q
    /\ exists X, Z.of_nat (base.size X) < 2 ^ 32 - 1
         /\ (forall id, is_Some (uc_get u id) -> in_u 32 id /\ id ∈ X)
         /\ forall id, id ∈ RpkiQueue.updateID <$> elems q -> id ∈ X.
Record server_wf s : Prop := {
  sw_cache : uc_wf (updCache s);
  sw_queue : queue_fits (updCache s) (queue s)
}.
Definition roa_of s id : option Z := (fun e => roaResult (srxResult e)) <$> uc_get (updCache s) id.

Lemma in_set_length (l : list Z) X : NoDup l -> (forall x, x ∈ l -> x ∈ X) -> (length l <= base.size X)%nat.
Proof.
  intros Hnd Hin. rewrite <- (size_list_to_set (C := gset Z) l Hnd). apply subseteq_size.
  intros x Hx%elem_of_list_to_set. by apply Hin.
Qed.

Lemma queue_fits_same (u u' : UpdateCache H) q : queue_fits u q -> (forall k, is_Some (uc_get u' k) -> is_Some (uc_get u k)) ->
  queue_fits u' q.
Proof.
  intros (q' & -> & Hw & X & HX & Hst & Hqd) Hk. exists q'. split; [done|]. split; [done|]. exists X. split; [done|].
  split; [|done]. intros id Hid. apply Hst, Hk, Hid.
Qed.

(** Queueing a stored update. *)
Lemma queue_fits_notify (u : UpdateCache H) q id reason : queue_fits u q -> is_Some (uc_get u id) ->
  exists q1 q2, q = Some q1 /\ rq_queue q reason id = Ok (Some q2) /\ queue_fits u (Some q2)
    /\ forall k, queued (elems q2) k
         = if decide (k = id) then Some (from_option (fun old => merge_reason old reason) reason (queued (elems q1) id))
           else queued (elems q1) k.
Proof.
  intros (q1 & -> & Hw & X & HX & Hst & Hqd) Hs. destruct (Hst id Hs) as [Hid HidX].
  assert (Z.of_nat (length (elems q1)) < 2 ^ 32 - 1) as Hlen.
  { pose proof (in_set_length (RpkiQueue.updateID <$> elems q1) X (rq_wf_nodup q1 Hw) Hqd) as Hl.
    rewrite length_fmap in Hl. lia. }
  rewrite rq_queue_eq by done. eexists q1, _. split; [done|]. split; [done|]. split.
  - eexists. split; [done|]. split; [by apply rq_queue_wf|]. exists X. split; [done|]. split; [done|].
    cbn [elems]. intros k. rewrite queue_spec_ids. intros [Hk|Hk]%elem_of_app; [by apply Hqd|].
    case_decide; [|by apply elem_of_nil in Hk]. by apply list_elem_of_singleton in Hk as ->.
  - intros k. apply queue_spec_queued.
Qed.

(** The new result of a stored update; the rest of its entry stays. *)
Definition with_roa (e : CacheEntry) (res : Z) : CacheEntry :=
  set_srxResult e (mkSRxResult res (bgpsecResult (srxResult e)) (aspaResult (srxResult e))).
Definition roa_changed (e : CacheEntry) (res : Z) : bool := negb (res =? roaResult (srxResult e)).

Lemma notify_eq s id e res sup :
  server_wf s -> uc_get (updCache s) id = Some e -> res <> SRx_RESULT_DONOTUSE ->
  let tell := negb sup && roa_changed e res && hasCallback (updCache s) in
  exists s', notifyUpdateCacheForROAChange s id res sup = Ok s' /\ server_wf s'
    /\ (forall k, uc_get (updCache s') k = if decide (k = id) then Some (with_roa e res) else uc_get (updCache s) k)
    /\ notified s' = notified s
         ++ (if tell then [mkSRxValidationResult VRT_ROA (srxResult (with_roa e res)) id] else [])
    /\ (if sup then exists q q', queue s = Some q /\ queue s' = Some q'
          /\ forall k, queued (elems q') k
               = if decide (k = id) then Some (from_option (fun old => merge_reason old RQ_ROA) RQ_ROA (queued (elems q) id))
                 else queued (elems q) k
        else queue s' = queue s).
Proof.
  intros [Hc Hq] He Hres tell. unfold notifyUpdateCacheForROAChange.
  set (r := mkSRxResult res SRx_RESULT_DONOTUSE SRx_RESULT_DONOTUSE).
  pose proof (modifyUpdateResult_eq (updCache s) id r sup Hc) as Hm. rewrite He in Hm.
  assert (merge_result (srxResult e) r = mkSRxResult res (bgpsecResult (srxResult e)) (aspaResult (srxResult e))) as Em.
  { unfold merge_result, r. cbn [roaResult bgpsecResult aspaResult]. by rewrite (proj2 (Z.eqb_neq _ _) Hres). }
  assert (changed_types (srxResult e) r = if roa_changed e res then VRT_ROA else VRT_NONE) as Et.
  { unfold changed_types. rewrite Em. unfold roa_changed, r. cbn [roaResult bgpsecResult aspaResult].
    rewrite !Z.eqb_refl. by destruct (res =? _). }
  rewrite Em, Et in Hm. cbv zeta in Hm. destruct Hm as (uc & E & Huc & Hget).
  fold (with_roa e res) in Hget. change (mkSRxResult res (bgpsecResult (srxResult e)) (aspaResult (srxResult e)))
    with (srxResult (with_roa e res)) in E.
  assert (queue_fits uc (queue s)) as Hq'.
  { eapply queue_fits_same; [exact Hq|]. intros k. rewrite Hget. case_decide as Ek; [|done]. subst. by rewrite He. }
  assert (negb (negb sup && negb ((if roa_changed e res then VRT_ROA else VRT_NONE) =? VRT_NONE)) = sup || negb (roa_changed e res)) as Eb.
  { by destruct sup, (roa_changed e res). }
  rewrite E. simpl_outcome. destruct sup; cbn [negb andb orb].
  - destruct (queue_fits_notify uc (queue s) id RQ_ROA Hq') as (q1 & q2 & E1 & E2 & Hf & Hqd).
    { rewrite Hget, decide_True by done. by eexists. }
    rewrite E2. simpl_outcome. eexists. split; [done|]. split; [by split|]. split; [exact Hget|]. split; [done|].
    by exists q1, q2.
  - rewrite andb_false_r. eexists. split; [done|]. split; [by split|]. split; [exact Hget|]. split; [|done].
    cbn [notified]. subst tell. cbn [negb andb]. by destruct (roa_changed e res), (hasCallback (updCache s)).
Qed.

#[export] Program Instance server_sink_laws : RoaSinkLaws (Server H) := {|
  rs_wf := server_wf;
  roa_result := roa_of
|}.
Next Obligation.
  intros s id res sup Hs [z Hz] Hres. unfold roa_of in Hz. apply fmap_Some in Hz as (e & He & _).
  destruct (notify_eq s id e res sup Hs He Hres) as (s' & E & Hs' & Hget & _).
  exists s'. split; [exact E|]. split; [done|]. intros k. unfold roa_of. rewrite Hget. by case_decide.
Qed.

(** Notifying the update cache stores the new origin result of the update and
    touches no other entry; the clients are told exactly when the result changed
    and notifications are not suppressed, and a suppressed one is queued for the
    end of the data instead.  An unknown update changes nothing. *)
Theorem notifyUpdateCacheForROAChange_correct s id res sup :
  server_wf s -> res <> SRx_RESULT_DONOTUSE ->
  match uc_get (updCache s) id with
  | None => notifyUpdateCacheForROAChange s id res sup = Ok s
  | Some e =>
      let tell := negb sup && roa_changed e res && hasCallback (updCache s) in
      exists s', notifyUpdateCacheForROAChange s id res sup = Ok s' /\ server_wf s'
      /\ (forall k, uc_get (updCache s') k = if decide (k = id) then Some (with_roa e res) else uc_get (updCache s) k)
      /\ notified s' = notified s
           ++ (if tell then [mkSRxValidationResult VRT_ROA (srxResult (with_roa e res)) id] else [])
      /\ (if sup then exists q q', queue s = Some q /\ queue s' = Some q'
            /\ forall k, queued (elems q') k
                 = if decide (k = id) then Some (from_option (fun old => merge_reason old RQ_ROA) RQ_ROA (queued (elems q) id))
                   else queued (elems q) k
          else queue s' = queue s)
  end.
Proof.
  intros Hs Hres. destruct (uc_get (updCache s) id) as [e|] eqn:He; [by apply notify_eq|].
  unfold notifyUpdateCacheForROAChange.
  pose proof (modifyUpdateResult_eq (updCache s) id (mkSRxResult res SRx_RESULT_DONOTUSE SRx_RESULT_DONOTUSE) sup (sw_cache _ Hs)) as Hm.
  rewrite He in Hm. rewrite Hm. simpl_outcome. cbn [andb]. rewrite app_nil_r. by destruct s.
Qed.
End notify.
End RoaNotify.
