(* ===== verification/PrefixWitness.v ===== *)
(** * The prefix cache at a concrete server

    The cache over the bit trie and the update cache with the update 77; the
    theorems applied there, and the run that shows where the coverage goes wrong. *)
From S2P Require Import Prelude Lists SrxDefs UtHash Patricia SList PrefixCache PrefixTree PrefixSteps.
From S2P Require Import PrefixInv.
From S2P Require Import PrefixAnnounce PrefixRequest PrefixSpec UpdateCache UpdateCacheTheorems CacheWitness.
From S2P Require Import RpkiQueue RoaNotify.

Module PrefixWitness.
Import PrefixCache PrefixTree PrefixSteps PrefixInv PrefixAnnounce PrefixRequest PrefixSpec RoaNotify.

Notation cache := (PrefixCache (list prefix_t) (list bool)).
Notation server := (Server (list (Z * positive))).

(** 10.0.0.0/8 is the prefix of the update 77, 0.0.0.0/0 lies above it. *)
Definition ip4 (a b c d len : Z) : IPPrefix := mkIPPrefix (mkIPAddress 4 ([a; b; c; d] ++ replicate 12 0)) len.
Definition ten : IPPrefix := ip4 10 0 0 0 8.
Definition all4 : IPPrefix := ip4 0 0 0 0 0.
Definition server0 : server := mkServer UpdateCacheWitness.ex_cache (Some RpkiQueue.rq_createQueue) [].
Definition cache0 : cache := initializePrefixCache.

Lemma server0_wf : server_wf server0.
Proof.
  split; [apply UpdateCacheWitness.ex_cache_wf|]. eexists. split; [done|]. split.
  - split; try done. constructor.
  - exists {[77]}. split; [done|]. split.
    + intros id [e He]. destruct (decide (id = 77)) as [->|Hne].
      * split; [split; done|]. by apply elem_of_singleton.
      * exfalso. revert He. unfold UpdateCacheTheorems.uc_get, kt_get. cbn. by rewrite decide_False.
    + intros id Hid. by apply elem_of_nil in Hid.
Qed.

Lemma ten_ok : prefix_ok (ipPrefixToPrefix_t ten).
Proof. split; [by vm_compute|]. apply Nat.leb_le. by vm_compute. Qed.

(** ** Room, decided *)
Definition room_check (self : cache) : bool :=
  (map_zsum (fun _ d => own d all_roas) (node_data self) <? 2 ^ 16 - 1)
  && (total_updates (node_data self) <? 2 ^ 32 - 1)
  && forallb (fun '(_, d) => forallb (fun r => (roa_count r <? 2 ^ 16 - 1)
       && (r_update_count r + total_updates (node_data self) <? 2 ^ 32 - 1)) (roas_at d)) (map_to_list (node_data self)).

Lemma room_check_correct (self : cache) (s : server) : pc_inv self s -> room_check self = true -> room self.
Proof.
  intros Hinv. unfold room_check. rewrite !andb_true_iff, !Z.ltb_lt, forallb_forall. intros [[H1 H2] H3].
  assert (forall k f, rsum (prefixTree self) (node_data self) k f < 2 ^ 16 - 1) as Hle.
  { intros k f. eapply Z.le_lt_trans; [|exact H1]. apply map_zsum_le. intros n d Hn.
    pose proof (pi_counts _ _ (pi_wf _ _ Hinv) n d) as Hc.
    assert (forall r, r ∈ roas_at d -> 1 <= roa_count r) as Hc' by (intros r Hr; by apply Hc).
    case_decide; [by apply own_le|by apply own_nonneg]. }
  split; [|split; [|done]].
  - intros k a. pose proof (Hle k (covers (klen k))). pose proof (Hle k (matching (klen k) a)). lia.
  - intros q d r Hq Hr. assert (In (q, d) (map_to_list (node_data self))) as Hin.
    { apply list_elem_of_In. by apply elem_of_map_to_list. }
    specialize (H3 _ Hin). rewrite forallb_forall in H3. specialize (H3 r).
    rewrite andb_true_iff, !Z.ltb_lt in H3. apply H3. by apply list_elem_of_In.
Qed.

(** ** Announce, request, withdraw *)
Definition result (o : outcome (cache * server * bool)) : cache * server :=
  match o with Ok (c, s, _) => (c, s) | Fault _ => (cache0, server0) end.
Definition st1 : cache * server := result (addROAwl cache0 server0 65002 ten 16 0 1 true).
Definition st2 : cache * server := result (requestUpdateValidation st1.1 st1.2 77 ten 65002).
Definition ten_vrp : vrp := mkVrp (prefix_key ten) 16 65002 1.
Definition ten_update : upd := (77, prefix_key ten, 65002).

Lemma room0 : room cache0.
Proof. apply (room_check_correct cache0 server0); [apply (init_refines server0), server0_wf|done]. Qed.
Lemma refines0 : refines [] [] cache0 server0.
Proof. apply init_refines, server0_wf. Qed.
Lemma reach0 : reach [] [] cache0 server0.
Proof. apply reach_init, server0_wf. Qed.
Lemma reach1 : reach [ten_vrp] [] st1.1 st1.2.
Proof.
  apply (reach_add [] [] cache0 server0 65002 ten 16 0 1 true st1.1 st1.2 true);
    [apply reach0|apply room0|apply ten_ok|done|done|by vm_compute].
Qed.
Lemma room1 : room st1.1.
Proof. apply (room_check_correct _ st1.2); [apply (reach_refines _ _ _ _ reach1)|by vm_compute]. Qed.
Lemma no_stale1 : no_stale st1.1 (prefix_key ten).
Proof.
  intros q p Hq Hp. apply trie_prefix_Some in Hq as [_ Hq]. rewrite <- Hq, Hp.
  apply (bool_decide_unpack (is_Some _)). by vm_compute.
Qed.
Lemma has_prefix1 : has_prefix st1.1 (prefix_key ten).
Proof.
  exists (prefix_key ten). split; [|by vm_compute]. apply (bool_decide_unpack (is_Some _)). by vm_compute.
Qed.
Lemma stored1 : is_Some (roa_result st1.2 77).
Proof. apply (bool_decide_unpack (is_Some _)). by vm_compute. Qed.
Lemma reach2 : reach [ten_vrp] [ten_update] st2.1 st2.2.
Proof.
  apply (reach_request [ten_vrp] [] st1.1 st1.2 77 ten 65002 st2.1 st2.2 true);
    [apply reach1|apply room1|apply ten_ok|apply stored1|by intros ? ? ?%elem_of_nil
    |left; apply has_prefix1|by vm_compute].
Qed.

(** ** The theorems *)
Lemma prefix_cache_rfc6811_witness :
  reach [ten_vrp] [ten_update] st2.1 st2.2 /\ rfc6811 [(4, ten_vrp)] 4 (prefix_key ten) 65002 = SRx_RESULT_VALID
  /\ roa_result st2.2 77 = Some SRx_RESULT_VALID.
Proof.
  split; [apply reach2|]. split; [by vm_compute|].
  destruct (prefix_cache_rfc6811 [ten_vrp] [ten_update] st2.1 st2.2 reach2 77 (prefix_key ten) 65002 ltac:(by left)) as [_ Hr].
  apply (Hr [(4, ten_vrp)] 4); [done|]. by intros v ->%list_elem_of_singleton.
Defined.

Lemma prefix_cache_wf_witness : pc_inv st2.1 st2.2.
Proof. apply (prefix_cache_wf [ten_vrp] [ten_update] st2.1 st2.2 reach2). Defined.

Lemma addROAwl_correct_witness :
  exists self s, addROAwl cache0 server0 65002 ten 16 0 1 true = Ok (self, s, true) /\ refines [ten_vrp] [] self s.
Proof.
  apply (addROAwl_correct [] [] cache0 server0 65002 ten 16 0 1 true refines0 room0 ten_ok).
  done.
Defined.

Lemma delROAwl_correct_witness :
  exists self s, delROAwl st2.1 st2.2 65002 ten 16 0 1 true = Ok (self, s, true) /\ refines [] [ten_update] self s.
Proof.
  destruct (delROAwl_correct [ten_vrp] [ten_update] st2.1 st2.2 65002 ten 16 0 1 true (reach_refines _ _ _ _ reach2) ten_ok)
    as (self & s & E & Hr & _).
  exists self, s. split; [exact E|exact Hr].
Defined.

Lemma requestUpdateValidation_correct_witness :
  exists self s, requestUpdateValidation st1.1 st1.2 77 ten 65002 = Ok (self, s, true)
    /\ roa_result s 77 = Some SRx_RESULT_VALID.
Proof.
  destruct (requestUpdateValidation_correct [ten_vrp] [] st1.1 st1.2 77 ten 65002 (reach_refines _ _ _ _ reach1)
    room1 ten_ok stored1 ltac:(by intros ? ? ?%elem_of_nil) no_stale1 (or_introl has_prefix1)) as (self & s & E & _ & Hr).
  exists self, s. split; [exact E|exact Hr].
Defined.

Lemma handlePrefix_correct_witness :
  exists self s, handlePrefix cache0 server0 1 0 true ten 16 65002 = Ok (self, s) /\ refines [ten_vrp] [] self s.
Proof.
  apply (handlePrefix_correct [] [] cache0 server0 1 0 true ten 16 65002 refines0 room0 ten_ok).
  done.
Defined.

(** 10.0.0.0/8 is withdrawn before anything is known of it. *)
Definition gone : cache * server := result (delROAwl cache0 server0 65002 ten 16 0 1 true).
Lemma request_after_withdrawal_witness :
  delROAwl cache0 server0 65002 ten 16 0 1 true = Ok (gone.1, gone.2, false)
  /\ requestUpdateValidation gone.1 gone.2 77 ten 65002 = Fault NullDeref.
Proof.
  assert (delROAwl cache0 server0 65002 ten 16 0 1 true = Ok (gone.1, gone.2, false)) as E by by vm_compute.
  split; [exact E|].
  apply (request_after_withdrawal [] [] cache0 server0 65002 ten 16 0 1 true gone.1 gone.2 false 77 65002
    refines0 ten_ok E).
  intros (q & Hq & _). destruct Hq as [d Hd]. discriminate Hd.
Defined.

Lemma notifyUpdateCacheForROAChange_correct_witness :
  exists s, notifyUpdateCacheForROAChange server0 77 SRx_RESULT_INVALID true = Ok s
    /\ roa_of s 77 = Some SRx_RESULT_INVALID /\ notified s = [].
Proof.
  destruct (notifyUpdateCacheForROAChange_correct server0 77 SRx_RESULT_INVALID true server0_wf ltac:(done))
    as (s & E & _ & Hg & Hn & _).
  exists s. split; [exact E|]. split; [|exact Hn]. unfold roa_of. by rewrite Hg.
Defined.

(** ** An entry that is announced twice

    0.0.0.0/0 for AS 65001 is announced twice, the update 77 of 10.0.0.0/8 is
    validated, and both announcements are withdrawn. *)
Definition twice : outcome (cache * server) :=
  '(c, s, _) ← addROAwl cache0 server0 65001 all4 32 0 1 true;
  '(c, s, _) ← addROAwl c s 65001 all4 32 0 1 true;
  '(c, s, _) ← requestUpdateValidation c s 77 ten 65002;
  '(c, s, _) ← delROAwl c s 65001 all4 32 0 1 true;
  '(c, s, _) ← delROAwl c s 65001 all4 32 0 1 true;
  Ok (c, s).

(** A new prefix counts an entry above it once however often it is announced,
    so the second withdrawal takes its coverage below zero: without any VRP left
    the update stays invalid, where RFC 6811 says not found. *)
Theorem double_announcement_undercounted :
  exists (c : cache) (s : server), twice = Ok (c, s)
    /\ roa_result s 77 = Some SRx_RESULT_INVALID /\ rfc6811 [] 4 (prefix_key ten) 65002 = SRx_RESULT_NOTFOUND
    /\ roa_coverage <$> (node_data c !! prefix_key ten) = Some (2 ^ 32 - 1).
Proof.
  exists (match twice with Ok x => x.1 | Fault _ => cache0 end), (match twice with Ok x => x.2 | Fault _ => server0 end).
  split; [by vm_compute|]. by vm_compute.
Qed.
End PrefixWitness.
