(* ===== verification/QueueWitness.v ===== *)
(** * Lists, queues, packets and the proxy map: the theorems at concrete states *)
From S2P Require Import Prelude Locks SrxDefs SListHeap CommandQueue PacketQueue SrxPackets ProxyApi ProxyMap ProxyMapTheorems.

Module QueueWitness.
Import ProxyMapTheorems.

(** A list of two nodes: the block 7, which it allocated, and the pointer 8. *)
Definition list2 : SListHeap.SList := SListHeap.mkSList (Some 1%positive) (Some 2%positive) 2.
Definition heap2 : SListHeap.Heap nat :=
  SListHeap.mkHeap {[ 1%positive := SListHeap.mkSListNode (Some 7%positive) 4 (Some 2%positive);
                      2%positive := SListHeap.mkSListNode (Some 8%positive) 0 None ]} {[ 7%positive := Some 42%nat ]} ∅.
Definition cells2 : list SListHeap.cell := [(1%positive, (Some 7%positive, 4)); (2%positive, (Some 8%positive, 0))].
Lemma list2_rep : SListHeap.sl_rep heap2 list2 cells2.
Proof.
  split; [by apply (bool_decide_unpack _), I| |done|by intros c [= <-]].
  split; [done|]. exists (Some 2%positive). split; [done|]. split; [done|]. by exists None.
Qed.
Lemma slist_witness : SListHeap.foreachInSList heap2 list2 = Ok [Some 7%positive; Some 8%positive]
  /\ exists h l, SListHeap.deleteFromSList heap2 list2 (Some 8%positive) = Ok (h, l, true)
       /\ SListHeap.sl_rep h l [(1%positive, (Some 7%positive, 4))].
Proof.
  destruct (SListHeap.slist_correct heap2 list2 cells2 list2_rep) as (_ & _ & Hd & _ & _ & _ & Hf & _).
  split; [exact Hf|]. destruct (Hd (Some 8%positive)) as (h & l & E & Hr). exists h, l. by split.
Defined.

(** Two commands queued, the first one fetched. *)
Definition dead : CommandQueue.CommandQueue :=
  CommandQueue.mkCommandQueue (SListHeap.mkSList None None 0) None MX_free 0 0 false (SListHeap.mkHeap ∅ ∅ ∅).
Definition queued (q : CommandQueue.CommandQueue) (id : Z) : CommandQueue.CommandQueue :=
  match CommandQueue.queueCommand q 0 (Some 1%positive) id 2 (Some [1; 2]) with Ok (q, _) => q | Fault _ => q end.
Definition q0 : CommandQueue.CommandQueue := (CommandQueue.initializeCommandQueue dead).1.
Definition q2 : CommandQueue.CommandQueue := queued (queued q0 10) 11.
Definition command (id : Z) : CommandQueue.CommandQueueItem := CommandQueue.new_item 0 (Some 1%positive) id 2 (Some [1; 2]).
Lemma q2_run : CommandQueue.cq_run [command 10; command 11] [] [] q2.
Proof.
  apply (CommandQueue.run_queue [command 10] [] [] (queued q0 10) 0 (Some 1%positive) 11 2 (Some [1; 2]) q2 true);
    [|by intros d [= <-]|by vm_compute].
  apply (CommandQueue.run_queue [] [] [] q0 0 (Some 1%positive) 10 2 (Some [1; 2]) (queued q0 10) true);
    [|by intros d [= <-]|by vm_compute].
  by apply (CommandQueue.run_init dead).
Qed.
Lemma commands_fifo_witness : exists q b q' x,
  CommandQueue.fetchNextCommand q2 = Ok (q, CommandQueue.Fetched b (CommandQueue.set_consumed (command 10) true))
  /\ CommandQueue.fetchNextCommand q = Ok (q', CommandQueue.Fetched x (CommandQueue.set_consumed (command 11) true)).
Proof.
  destruct (CommandQueue.commands_fifo _ _ _ _ q2_run) as (_ & _ & _ & _ & (q & b & E) & _).
  pose proof (CommandQueue.run_fetch _ _ _ _ _ _ _ q2_run E) as Hr.
  destruct (CommandQueue.commands_fifo _ _ _ _ Hr) as (_ & _ & _ & _ & (q' & x & E') & _).
  by exists q, b, q', x.
Defined.

(** One packet waits. *)
Definition packet : PacketQueue.Packet := PacketQueue.mkPacket [1; 2] 5 2 None.
Definition queue1 : PacketQueue.Queue := PacketQueue.mkQueue (Some 1%positive) (Some 1%positive) 1 true MX_free {[ 1%positive := packet ]}.
Lemma queue1_rep : PacketQueue.q_rep queue1 [(1%positive, packet)].
Proof. split; try done; apply NoDup_singleton. Qed.
Lemma packet_queue_witness : exists q', PacketQueue.fetchPacket queue1 = Ok (q', PacketQueue.GotPacket packet)
  /\ PacketQueue.q_rep q' [].
Proof. apply (PacketQueue.packet_queue_correct queue1 _ queue1_rep eq_refl). Defined.

(** A notification for a proxy that has a callback. *)
Definition proxy : ProxyApi.SRxProxy := ProxyApi.mkSRxProxy true false false false true false 255 0 [].
Lemma notification_witness :
  ProxyApi.dispatchPackets (SrxPackets.VERIFY_NOTIFICATION 129 0 3 3 5 77) proxy
  = Ok (ProxyApi.call proxy true (ProxyApi.ResCallback 77 5 1 0 3 3)).
Proof. by rewrite (ProxyApi.notification_roundtrip proxy 129 0 3 3 5 77 eq_refl). Defined.

(** Two mappings are configured. *)
Definition mappings : list Z := <[1%nat := 100]> (<[7%nat := 200]> (replicate 256 0)).
Lemma configured_witness : exists self,
  ProxyMap.createServerConnectionHandler (ProxyMap.mkConfiguration 900 false false false) mappings = Ok self
  /\ pm_wf self /\ ProxyMap.proxyMap self !! 7%nat = Some (ProxyMap.mkProxyClientMapping 200 None false true 0 0).
Proof.
  destruct (createServerConnectionHandler_correct (ProxyMap.mkConfiguration 900 false false false) mappings) as (self & E & Hw & Hm).
  - reflexivity.
  - reflexivity.
  - apply Forall_insert; [apply Forall_insert; [apply Forall_replicate|]|]; unfold in_u; lia.
  - by apply (bool_decide_unpack _), I.
  - exists self. split; [exact E|]. split; [exact Hw|]. by rewrite Hm.
Defined.
End QueueWitness.
