(* ===== verification/Server.v ===== *)
(** * The running server (server/command_handler.c, server/main.c)

    The state the packet handlers and the command handler share, and the callback
    [resChangedCallback] of the update cache: [handleUpdateResultChange] of main.c,
    which is [broadcastResult].  With it the server is a sink for the results of
    the prefix cache, so that validating a prefix notifies the proxies. *)
From S2P Require Import Prelude Locks SrxDefs RpkiQueue AspaTrie UtHash AspathCache UpdateCache.
From S2P Require Import UpdateCacheLemmas UpdateCacheTheorems CommandQueue PacketQueue SrxPackets.
From S2P Require Import PacketSender ProxyMap PrefixCache RoaNotify.

Module Server.
Import SrxPackets PacketSender.
Implicit Types (clientID : Z).

Section server.
Context {H K : Type} `{UTHash H} `{SkiUpdates K}.

(** ** Data *)

(** Everything but the prefix cache. *)
Record Core := mkCore {
  updCache : UpdateCache.UpdateCache H;
  skiCache : K;
  rpkiQueue : RpkiQueue.RPKI_QUEUE;
  aspathCache : AspathCache.AspathCache H;
  aspaDBManager : AspaTrie.ASPA_DBManager;
  svrConnHandler : ProxyMap.ServerConnectionHandler;
  receiverQueue : PacketQueue.SCH_ReceiverQueue;
  cmdQueue : CommandQueue.CommandQueue;
  net : Net
}.
Implicit Types (st : Core).

Definition set_updCache st u : Core :=
  mkCore u (skiCache st) (rpkiQueue st) (aspathCache st) (aspaDBManager st) (svrConnHandler st) (receiverQueue st) (cmdQueue st) (net st).
Definition set_skiCache st k : Core :=
  mkCore (updCache st) k (rpkiQueue st) (aspathCache st) (aspaDBManager st) (svrConnHandler st) (receiverQueue st) (cmdQueue st) (net st).
Definition set_rpkiQueue st q : Core :=
  mkCore (updCache st) (skiCache st) q (aspathCache st) (aspaDBManager st) (svrConnHandler st) (receiverQueue st) (cmdQueue st) (net st).
Definition set_aspathCache st c : Core :=
  mkCore (updCache st) (skiCache st) (rpkiQueue st) c (aspaDBManager st) (svrConnHandler st) (receiverQueue st) (cmdQueue st) (net st).
Definition set_aspaDB st d : Core :=
  mkCore (updCache st) (skiCache st) (rpkiQueue st) (aspathCache st) d (svrConnHandler st) (receiverQueue st) (cmdQueue st) (net st).
Definition set_handler st h : Core :=
  mkCore (updCache st) (skiCache st) (rpkiQueue st) (aspathCache st) (aspaDBManager st) h (receiverQueue st) (cmdQueue st) (net st).
Definition set_receiverQueue st q : Core :=
  mkCore (updCache st) (skiCache st) (rpkiQueue st) (aspathCache st) (aspaDBManager st) (svrConnHandler st) q (cmdQueue st) (net st).
Definition set_cmdQueue st q : Core :=
  mkCore (updCache st) (skiCache st) (rpkiQueue st) (aspathCache st) (aspaDBManager st) (svrConnHandler st) (receiverQueue st) q (net st).
Definition set_net st n : Core :=
  mkCore (updCache st) (skiCache st) (rpkiQueue st) (aspathCache st) (aspaDBManager st) (svrConnHandler st) (receiverQueue st) (cmdQueue st) n.

(** [&self->proxyMap[clientID]] handed to the update cache, which changes the
    [updateCount] of the mapping, and NULL for client 0. *)
Definition clientMapping st clientID : outcome (option Z) :=
  if 0 <? clientID then m ← ProxyMap.get_mapping (svrConnHandler st) clientID; Ok (Some (ProxyMap.updateCount m))
  else Ok None.
Definition set_clientMapping st clientID (count : option Z) : outcome Core :=
  match count with
  | None => Ok st
  | Some n => m ← ProxyMap.get_mapping (svrConnHandler st) clientID;
              Ok (set_handler st (ProxyMap.put_mapping (svrConnHandler st) clientID (ProxyMap.set_updateCount m n)))
  end.

(** ** Notifying the proxies *)

(** The loop of [broadcastResult] over the client identifiers, from the last one
    on. *)
Fixpoint broadcast_loop (ids : list Z) (h : ProxyMap.ServerConnectionHandler) (n : Net) (pdu : list Z) (retVal : bool)
    : outcome (Net * bool) :=
  match ids with
  | [] => Ok (n, retVal)
  | clientID :: ids =>
      m ← ProxyMap.get_mapping h clientID;
      if ProxyMap.isActive m then
        match ProxyMap.socket m with
        | None => Fault NullDeref
        | Some client => '(n, sent) ← sendPacketToClient n client pdu sizeof_VERIFY_NOTIFICATION;
                         broadcast_loop ids h n pdu (retVal || sent)
        end
      else broadcast_loop ids h n pdu retVal
  end.

(** The notification of a result; the request token stays 0. *)
Definition result_pdu (v : SRxValidationResult) : list Z :=
  VERIFY_NOTIFICATION (Z.land (valType v) SRX_FLAG_ROA_BGPSEC_ASPA) (roaResult (valResult v)) (bgpsecResult (valResult v))
    (aspaResult (valResult v)) 0 (valUpdateID v).

(** The array for the clients has as many elements as an entry of the update cache
    has at first, and at most 255. *)
Definition broadcastResult st (v : SRxValidationResult) : outcome (Core * bool) :=
  let clientSize := u8 (UpdateCache.minNumberOfClients (updCache st)) in
  '(u, clientCt, clients) ← UpdateCache.getClientIDsOfUpdate (updCache st) (valUpdateID v) clientSize;
  let st := set_updCache st u in
  if clientCt =? -1 then Ok (st, false)
  else if 0 <? clientCt then
    '(n, retVal) ← broadcast_loop (reverse clients) (svrConnHandler st) (net st) (result_pdu v) false;
    Ok (set_net st n, retVal)
  else Ok (st, true).

(** The calls of the callback, in order. *)
Fixpoint handleUpdateResultChange st (sent : list SRxValidationResult) : outcome Core :=
  match sent with
  | [] => Ok st
  | v :: sent => '(st, _) ← broadcastResult st v; handleUpdateResultChange st sent
  end.

(** [modifyUpdateResult] with the callback. *)
Definition modify_and_notify st (id : Z) (res : SRxResult) (suppressNotification : bool) : outcome (Core * bool) :=
  '(u, retVal, sent) ← UpdateCache.modifyUpdateResult (updCache st) id res suppressNotification;
  st ← handleUpdateResultChange (set_updCache st u) sent;
  Ok (st, retVal).

(** [notifyUpdateCacheForROAChange] of prefix_cache.c. *)
Definition notifyUpdateCacheForROAChange st (updateID newROAResult : Z) (suppressNotification : bool) : outcome Core :=
  '(st, found) ← modify_and_notify st updateID (mkSRxResult newROAResult SRx_RESULT_DONOTUSE SRx_RESULT_DONOTUSE)
                   suppressNotification;
  if (found : bool) && suppressNotification then
    q ← RpkiQueue.rq_queue (rpkiQueue st) RpkiQueue.RQ_ROA updateID; Ok (set_rpkiQueue st q)
  else Ok st.

#[export] Instance core_sink : RoaSink Core := {|
  PrefixCache.notifyUpdateCacheForROAChange := notifyUpdateCacheForROAChange
|}.
End server.
Arguments Core : clear implicits.
End Server.

(** * The running server: the invariant, notifications, and the results of the prefix cache *)

Module ServerLemmas.
Import UpdateCache UpdateCacheLemmas UpdateCacheTheorems SrxPackets PacketSender Server.

(** ** Who hears of an update *)

(** The thread that a notification for the client [c] is written to. *)
Definition listener (h : ProxyMap.ServerConnectionHandler) (n : Net) (c : Z) : option positive :=
  m ← ProxyMap.proxyMap h !! Z.to_nat c;
  if ProxyMap.isActive m then s ← ProxyMap.socket m; if is_active n s then Some s else None else None.
Definition listeners h n (ids : list Z) : list positive := omap (listener h n) (reverse ids).
Definition add_wire (n : Net) (l : list positive) (bs : list Z) : Net :=
  mkNet (threads n) (cthreads n) (SEND_QUEUE n) (wire n ++ ((fun s => (s, bs)) <$> l)).

(** The map has its 256 entries, and an active one a thread. *)
Record conn_ok (h : ProxyMap.ServerConnectionHandler) (n : Net) : Prop := {
  co_length : length (ProxyMap.proxyMap h) = ProxyMap.MAX_PROXY_CLIENT_ELEMENTS;
  co_socket i m : ProxyMap.proxyMap h !! i = Some m -> ProxyMap.isActive m = true ->
    exists s, ProxyMap.socket m = Some s /\ is_Some (threads n !! s)
}.

Lemma listeners_wire h n l bs ids : listeners h (add_wire n l bs) ids = listeners h n ids.
Proof. done. Qed.
Lemma conn_ok_wire h n l bs : conn_ok h n -> conn_ok h (add_wire n l bs).
Proof. intros [? Hs]. split; [done|]. intros i m Hi Ha. apply (Hs i m Hi Ha). Qed.

Lemma broadcast_loop_eq h n ids v b : conn_ok h n -> Forall client_ok ids ->
  broadcast_loop ids h n (result_pdu v) b
  = Ok (add_wire n (omap (listener h n) ids) (result_pdu v), b || negb (bool_decide (omap (listener h n) ids = []))).
Proof.
  intros Hc Hids. revert n b Hc. induction Hids as [|c ids Hcl _ IH]; intros n b Hc; cbn [broadcast_loop].
  - cbn. rewrite orb_false_r. unfold add_wire. cbn. rewrite app_nil_r. by destruct n.
  - unfold client_ok in Hcl. destruct (lookup_lt_is_Some_2 (ProxyMap.proxyMap h) (Z.to_nat c)) as [m Hm].
    { rewrite (co_length _ _ Hc). lia. }
    unfold ProxyMap.get_mapping, arr_get. rewrite Hm. simpl_outcome.
    assert (omap (listener h n) (c :: ids) = match listener h n c with Some y => y :: omap (listener h n) ids
                                             | None => omap (listener h n) ids end) as -> by done.
    destruct (ProxyMap.isActive m) eqn:Ha.
    2: { assert (listener h n c = None) as -> by (unfold listener; rewrite Hm; simpl; by rewrite Ha). by apply IH. }
    destruct (co_socket _ _ Hc _ _ Hm Ha) as (s & Hs & ct & Hct). rewrite Hs, (send_eq n s ct) by done. simpl_outcome.
    assert (listener h n c = if active ct then Some s else None) as ->.
    { unfold listener, is_active. rewrite Hm. simpl. rewrite Ha, Hs. simpl. by rewrite Hct. }
    destruct (active ct) eqn:Hact.
    + simpl_outcome. change (write n s (result_pdu v)) with (add_wire n [s] (result_pdu v)).
      rewrite IH by by apply conn_ok_wire. rewrite (bool_decide_false (_ :: _ = [])) by done. cbn [negb]. rewrite !orb_true_r. cbn [orb].
      f_equal. f_equal. unfold add_wire. cbn [threads cthreads SEND_QUEUE wire fmap list_fmap]. by rewrite <- app_assoc.
    + simpl_outcome. by rewrite orb_false_r, IH.
Qed.

Section server.
Context {H K : Type} `{UTHashLaws H} `{SkiUpdates K}.
Implicit Types (st : Core H K) (id : Z) (e : CacheEntry).

Lemma getClientIDsOfUpdate_eq (self : UpdateCache H) id size : uc_wf self ->
  getClientIDsOfUpdate self id size
  = Ok (match uc_get self id with
        | None => (self, 0, [])
        | Some e => if noPossibleClients e <=? size
                    then (self, Z.of_nat (length (client_list e)), client_list e) else (self, -1, [])
        end).
Proof.
  intros Hw. unfold getClientIDsOfUpdate. rewrite tableFind_eq by done. simpl_outcome.
  pose proof (uc_find self id Hw) as Hf. destruct (ut_find id (table self)) as [p|]; [|by rewrite Hf].
  destruct Hf as (_ & e & He & -> & _ & Hc & _). unfold deref. rewrite He. simpl_outcome.
  destruct (noPossibleClients e <=? size); [|done]. destruct (ca_slots _ _ Hc) as (k & Hcs & Hn).
  rewrite Hcs. rewrite (copy_from_ok _ _ (slots (client_list e) k)) by
    (done || (unfold slots; rewrite length_app, length_replicate; lia)).
  assert (filter (fun c => c <> 0) (slots (client_list e) k) = client_list e) as Hf.
  { unfold client_list at 2. by rewrite Hcs. }
  rewrite take_ge by (unfold slots; rewrite length_app, length_replicate; lia). simpl_outcome. by rewrite Hf.
Qed.

(** The proxies that are told of a result: none when the array of clients was
    enlarged. *)
Definition audience st id : list positive :=
  match uc_get (updCache st) id with
  | None => []
  | Some e => if noPossibleClients e <=? u8 (minNumberOfClients (updCache st))
              then listeners (svrConnHandler st) (net st) (client_list e) else []
  end.
Definition broadcast st (v : SRxValidationResult) : Core H K :=
  set_net st (add_wire (net st) (audience st (valUpdateID v)) (result_pdu v)).
Definition broadcast_ok st (v : SRxValidationResult) : bool :=
  match uc_get (updCache st) (valUpdateID v) with
  | None => true
  | Some e => if noPossibleClients e <=? u8 (minNumberOfClients (updCache st))
              then bool_decide (client_list e = []) || negb (bool_decide (audience st (valUpdateID v) = [])) else false
  end.

Lemma set_net_id st bs : set_net st (add_wire (net st) [] bs) = st.
Proof.
  destruct st as [? ? ? ? ? ? ? ? n]. unfold set_net, add_wire. cbn. rewrite app_nil_r. by destruct n.
Qed.
Lemma set_updCache_id st : set_updCache st (updCache st) = st.
Proof. by destruct st. Qed.

Lemma client_list_ok e : entry_ok e -> Forall client_ok (client_list e).
Proof. intros [Hc _]. apply Hc. Qed.

Lemma broadcastResult_eq st v : uc_wf (updCache st) -> conn_ok (svrConnHandler st) (net st) ->
  broadcastResult st v = Ok (broadcast st v, broadcast_ok st v).
Proof.
  intros Hw Hc. unfold broadcastResult, broadcast, broadcast_ok, audience. rewrite getClientIDsOfUpdate_eq by done.
  pose proof (uc_find (updCache st) (valUpdateID v) Hw) as Hf.
  destruct (uc_get (updCache st) (valUpdateID v)) as [e|] eqn:He.
  2: { simpl_outcome. by rewrite set_updCache_id, set_net_id. }
  destruct (ut_find _ _) as [p|]; [|congruence]. destruct Hf as (_ & e' & _ & [= <-] & _ & Hok).
  destruct (noPossibleClients e <=? _).
  2: { simpl_outcome. by rewrite set_updCache_id, set_net_id. }
  simpl_outcome. rewrite (proj2 (Z.eqb_neq _ _)) by lia. rewrite set_updCache_id.
  destruct (Z.ltb_spec 0 (Z.of_nat (length (client_list e)))) as [Hpos|Hneg].
  - rewrite (broadcast_loop_eq _ _ _ _ _ Hc) by by apply Forall_reverse, client_list_ok.
    simpl_outcome. rewrite (bool_decide_false (client_list e = [])) by (by intros Hn; rewrite Hn in Hpos). done.
  - destruct (client_list e) as [|c l]; [|simpl in Hneg; lia]. by rewrite set_net_id, bool_decide_true.
Qed.

(** ** Storing a result and notifying *)
Record srv_wf st : Prop := {
  sw_uc : uc_wf (updCache st);
  sw_callback : hasCallback (updCache st) = true;
  sw_conn : conn_ok (svrConnHandler st) (net st)
}.
Definition set_result (u : UpdateCache H) id (r : SRxResult) (u' : UpdateCache H) : Prop :=
  uc_wf u' /\ hasCallback u' = hasCallback u /\ minNumberOfClients u' = minNumberOfClients u
  /\ defaultKeepWindow u' = defaultKeepWindow u
  /\ forall k, uc_get u' k = if decide (k = id) then (fun e => set_srxResult e r) <$> uc_get u id else uc_get u k.

Lemma modify_frame (u u' : UpdateCache H) id res sup b sent : modifyUpdateResult u id res sup = Ok (u', b, sent) ->
  hasCallback u' = hasCallback u /\ minNumberOfClients u' = minNumberOfClients u /\ defaultKeepWindow u' = defaultKeepWindow u.
Proof.
  unfold modifyUpdateResult, tableFind, acquireReadLock. intros E.
  destruct (tableLock u); try done; cbn in E; (destruct (ut_find id (table u)) as [p|]; [|by injection E as <- _ _]);
    (destruct (itemMutex u); try done; cbn in E; destruct (deref (entries u) p) as [c|]; [|done]; cbn in E; by injection E as <- _ _).
Qed.

Lemma audience_set_result st u' id r k : set_result (updCache st) id r u' -> audience (set_updCache st u') k = audience st k.
Proof.
  intros (_ & _ & Hm & _ & Hg). unfold audience. cbn [updCache set_updCache svrConnHandler net]. rewrite Hg, Hm.
  case_decide; [|done]. subst. by destruct (uc_get (updCache st) id).
Qed.

(** What is sent after the results of an update were changed to [r]. *)
Definition tell st id (type : Z) (r : SRxResult) : Net :=
  if type =? VRT_NONE then net st
  else add_wire (net st) (audience st id) (result_pdu (mkSRxValidationResult type r id)).

Lemma modify_and_notify_eq st id res sup : srv_wf st ->
  match uc_get (updCache st) id with
  | None => modify_and_notify st id res sup = Ok (st, false)
  | Some e =>
      let new := merge_result (srxResult e) res in
      exists u', set_result (updCache st) id new u'
        /\ modify_and_notify st id res sup
           = Ok (set_net (set_updCache st u')
                   (if sup then net st else tell st id (changed_types (srxResult e) res) new), true)
  end.
Proof.
  intros [Hw Hcb Hc]. unfold modify_and_notify. pose proof (modifyUpdateResult_eq (updCache st) id res sup Hw) as Hm.
  destruct (uc_get (updCache st) id) as [e|] eqn:He.
  - destruct Hm as (u' & E & Hw' & Hg). destruct (modify_frame _ _ _ _ _ _ _ E) as (Hcb' & Hmin & Hkw).
    assert (set_result (updCache st) id (merge_result (srxResult e) res) u') as Hset.
    { split; [done|]. do 3 (split; [done|]). intros k. rewrite Hg, He. by case_decide. }
    exists u'. split; [done|]. rewrite E, Hcb, orb_true_r, andb_true_r. simpl_outcome.
    assert (set_updCache st u' = set_net (set_updCache st u') (net st)) as Hn by by destruct st.
    destruct sup; cbn [negb andb]; [cbn [handleUpdateResultChange]; simpl_outcome; by rewrite <- Hn|].
    unfold tell. destruct (changed_types _ _ =? VRT_NONE); cbn [negb handleUpdateResultChange]; [simpl_outcome; by rewrite <- Hn|].
    rewrite broadcastResult_eq by done. simpl_outcome. unfold broadcast. cbn [valUpdateID].
    by rewrite (audience_set_result _ _ _ _ _ Hset).
  - rewrite Hm. simpl_outcome. cbn [handleUpdateResultChange]. simpl_outcome. by rewrite set_updCache_id.
Qed.

(** ** The server as the sink of the prefix cache *)
Record core_wf st : Prop := {
  cw_srv : srv_wf st;
  cw_queue : RoaNotify.queue_fits (updCache st) (rpkiQueue st)
}.
Definition roa_of st id : option Z := (fun e => roaResult (srxResult e)) <$> uc_get (updCache st) id.

Lemma set_result_stored u id r u' k : set_result u id r u' -> is_Some (uc_get u' k) <-> is_Some (uc_get u k).
Proof.
  intros (_ & _ & _ & _ & Hg). rewrite Hg. case_decide as E; [|done]. subst. by rewrite fmap_is_Some.
Qed.
Lemma srv_wf_result st id r u' n : srv_wf st -> set_result (updCache st) id r u' ->
  conn_ok (svrConnHandler st) n -> srv_wf (set_net (set_updCache st u') n).
Proof. intros [_ Hcb _] (Hw & Hcb' & _) Hc. split; cbn; [done|by rewrite Hcb'|done]. Qed.
Lemma tell_conn_ok st id t r : conn_ok (svrConnHandler st) (net st) -> conn_ok (svrConnHandler st) (tell st id t r).
Proof. intros Hc. unfold tell. destruct (_ =? _); [done|]. by apply conn_ok_wire. Qed.

Lemma core_notify_eq st id e res sup : core_wf st -> uc_get (updCache st) id = Some e -> res <> SRx_RESULT_DONOTUSE ->
  exists u' q', set_result (updCache st) id (srxResult (RoaNotify.with_roa e res)) u'
    /\ notifyUpdateCacheForROAChange st id res sup
       = Ok (set_rpkiQueue (set_net (set_updCache st u')
               (if sup then net st else tell st id (if RoaNotify.roa_changed e res then VRT_ROA else VRT_NONE) (srxResult (RoaNotify.with_roa e res)))) q')
    /\ (sup = false -> q' = rpkiQueue st)
    /\ core_wf (set_rpkiQueue (set_net (set_updCache st u')
               (if sup then net st else tell st id (if RoaNotify.roa_changed e res then VRT_ROA else VRT_NONE) (srxResult (RoaNotify.with_roa e res)))) q').
Proof.
  intros [Hs Hq] He Hres. unfold notifyUpdateCacheForROAChange.
  set (r := mkSRxResult res SRx_RESULT_DONOTUSE SRx_RESULT_DONOTUSE).
  pose proof (modify_and_notify_eq st id r sup Hs) as Hm. rewrite He in Hm.
  assert (merge_result (srxResult e) r = srxResult (RoaNotify.with_roa e res)) as Em.
  { unfold merge_result, r, RoaNotify.with_roa. cbn [roaResult bgpsecResult aspaResult set_srxResult srxResult].
    by rewrite (proj2 (Z.eqb_neq _ _) Hres). }
  assert (changed_types (srxResult e) r = if RoaNotify.roa_changed e res then VRT_ROA else VRT_NONE) as Et.
  { unfold changed_types. rewrite Em. unfold RoaNotify.roa_changed, r, RoaNotify.with_roa. cbn [roaResult bgpsecResult aspaResult set_srxResult srxResult].
    rewrite !Z.eqb_refl. by destruct (res =? _). }
  rewrite Em, Et in Hm. cbv zeta in Hm. destruct Hm as (u' & Hset & E).
  assert (RoaNotify.queue_fits u' (rpkiQueue st)) as Hq'.
  { eapply RoaNotify.queue_fits_same; [exact Hq|]. intros k. by apply (set_result_stored _ _ _ _ _ Hset). }
  assert (forall n, conn_ok (svrConnHandler st) n -> srv_wf (set_net (set_updCache st u') n)) as Hwf.
  { intros n Hn. by eapply srv_wf_result. }
  rewrite E. simpl_outcome. destruct sup; cbn [andb].
  - cbn [rpkiQueue set_net set_updCache]. destruct (RoaNotify.queue_fits_notify u' (rpkiQueue st) id RpkiQueue.RQ_ROA Hq') as (q1 & q2 & E1 & E2 & Hf & _).
    { rewrite (set_result_stored _ _ _ _ _ Hset), He. by eexists. }
    rewrite E2. simpl_outcome. exists u', (Some q2). split; [done|]. split; [done|]. split; [done|].
    split; [|done]. destruct (Hwf (net st) (sw_conn _ Hs)). by split.
  - exists u', (rpkiQueue st). split; [done|]. split; [done|]. split; [done|].
    destruct (Hwf _ (tell_conn_ok st id (if RoaNotify.roa_changed e res then VRT_ROA else VRT_NONE) (srxResult (RoaNotify.with_roa e res)) (sw_conn _ Hs))).
    split; [by split|done].
Qed.

#[export] Program Instance core_sink_laws : RoaSinkLaws (Core H K) := {|
  rs_wf := core_wf;
  roa_result := roa_of
|}.
Next Obligation.
  intros st id res sup Hs [z Hz] Hres. unfold roa_of in Hz. apply fmap_Some in Hz as (e & He & _).
  destruct (core_notify_eq st id e res sup Hs He Hres) as (u' & q' & (_ & _ & _ & _ & Hg) & E & _ & Hw).
  eexists. split; [exact E|]. split; [exact Hw|]. intros k. unfold roa_of. cbn [updCache set_rpkiQueue set_net set_updCache].
  rewrite Hg. case_decide as Ek; [|done]. subst. by rewrite He.
Qed.
End server.
End ServerLemmas.
