(* ===== verification/ValidationRequest.v ===== *)
(** * Packets from the proxies (server/server_connection_handler.c)

    What happens when a packet arrives: it is put on the receiver queue, and its
    handler answers it or leaves a command for the command handler.  A packet is
    the memory block of its bytes. *)
From S2P Require Import Prelude Locks SrxDefs UtHash SrxIdentifier AspathCache UpdateCache.
From S2P Require Import CommandQueue PacketQueue SrxPackets PacketSender ProxyMap Server.

Module ValidationRequest.
Import SrxPackets PacketSender Server.
Implicit Types (client : positive) (pkt : list Z).

Section handler.
Context {H K : Type} `{UTHash H} `{SkiUpdates K}.
Implicit Types (st : Core H K).

(** ** The validation request *)

(** The array of [uint32_t] that starts with the first byte. *)
Fixpoint host_words (bs : list Z) : list Z :=
  match bs with
  | b0 :: b1 :: b2 :: b3 :: bs => le_load32 [b0; b1; b2; b3] :: host_words bs
  | _ => []
  end.

Definition request_prefix (v4 : bool) (addr : list Z) (len : Z) : IPPrefix :=
  mkIPPrefix (mkIPAddress (if v4 then 4 else 6) (addr ++ replicate (16 - length addr) 0)) len.

(** The record [bgpData]: its pointers point into the packet. *)
Definition request_bgpData (v4 : bool) pkt (d : BGPSECValReqData) : BGPSecData :=
  let valPtr := drop (sizeof_VERIFY_REQUEST v4) pkt in
  mkBGPSecData (numHops d) (if numHops d =? 0 then None else Some (host_words valPtr))
    (attrLen d) (val_afi d) (val_safi d) (val_local_as d)
    (if attrLen d =? 0 then None else Some (drop (Z.to_nat (numHops d * 4)) valPtr)).

(** The loop that resolves collisions; the update identifier wraps around. *)
Fixpoint resolve_collision (fuel : nat) (u : UpdateCache.UpdateCache H) (updateID : Z) (prefix : IPPrefix) (originAS : Z)
    (bgpData : BGPSecData) : outcome (UpdateCache.UpdateCache H * Z) :=
  match fuel with
  | O => Fault OutOfFuel
  | S fuel =>
      '(u, collision) ← UpdateCache.detectCollision u updateID prefix originAS bgpData;
      if (collision : bool) then resolve_collision fuel u (u32 (updateID + 1)) prefix originAS bgpData
      else Ok (u, updateID)
  end.
Definition collision_fuel (u : UpdateCache.UpdateCache H) : nat := S (length (ut_items (UpdateCache.table u))).

Definition rel_dir (asRelType : Z) : Z :=
  if asRelType =? AS_REL_CUSTOMER then ASPA_UPSTREAM
  else if asRelType =? AS_REL_PROVIDER then ASPA_DOWNSTREAM
  else if asRelType =? AS_REL_SIBLING then ASPA_DOWNSTREAM
  else if asRelType =? AS_REL_LATERAL then ASPA_UPSTREAM
  else ASPA_UNKNOWNSTREAM.

Definition with_aspa (r : SRxResult) (a : Z) : SRxResult := mkSRxResult (roaResult r) (bgpsecResult r) a.
Definition default_aspa (d : SRxDefaultResult) (src res : Z) : SRxDefaultResult :=
  mkSRxDefaultResult (resSourceROA d) (resSourceBGPSEC d) src (with_aspa (result d) res).
Definition default_roa_bgpsec (d : SRxDefaultResult) (roaSrc secSrc roa sec : Z) : SRxDefaultResult :=
  mkSRxDefaultResult roaSrc secSrc (resSourceASPA d) (mkSRxResult roa sec (aspaResult (result d))).

(** What is known about the update while the request is processed: [srxRes],
    [defResInfo], [pathId] and [modifyUpdateCacheWithAspaValue] with the result to
    store. *)
Record known := mkKnown { srxRes : SRxResult; defRes : SRxDefaultResult; pathId : Z; cached_aspa : option Z }.

(** The part of the request that looks the AS path up and stores it.  The result
    the AS path cache writes is a local variable without a value, whose ASPA result
    is only read when it was written. *)
Definition lookup_path st (hdr : BasicHeader_VerifyRequest) (bgpData : BGPSecData) (asRelDir : Z) (doStoreUpdate : bool)
    (k : known) : outcome (Core H K * known) :=
  if pathId k =? 0 then
    pid ← AspathCache.makePathId (numberHops bgpData) (asPath bgpData) (asType hdr) true;
    '(cache, srxRes_aspa, aspl) ←
      AspathCache.getAspathListFromAspathCache (aspathCache st) pid (mkSRxResult 0 0 0);
    let st := set_aspathCache st cache in
    match aspl with
    | Some _ =>
        let a := aspaResult srxRes_aspa in
        Ok (st, mkKnown (with_aspa (srxRes k) a) (defRes k) pid
                  (if a =? SRx_RESULT_UNDEFINED then None else Some a))
    | None =>
        aspl ← AspathCache.newAspathListEntry (numberHops bgpData) (default [] (asPath bgpData)) pid (asType hdr) asRelDir
                 (bgp_afi bgpData) true;
        let d := if doStoreUpdate then default_aspa (defRes k) (aspaResSrc hdr) (aspaDefRes hdr) else defRes k in
        '(cache, _) ← AspathCache.storeAspathList (aspathCache st) (Some d) pid (asType hdr) aspl;
        Ok (set_aspathCache st cache, mkKnown (with_aspa (srxRes k) (aspaResult (result d))) d pid None)
    end
  else Ok (st, k).

(** The part that stores a new update; [None]: the store failed. *)
Definition store_update st (now : Z) (hdr : BasicHeader_VerifyRequest) (clientID updateID : Z) (prefix : IPPrefix)
    (originAS : Z) (bgpData : BGPSecData) (doStoreUpdate : bool) (k : known) : outcome (Core H K * option known) :=
  if doStoreUpdate then
    let d := default_roa_bgpsec (defRes k) (roaResSrc hdr) (bgpsecResSrc hdr) (roaDefRes hdr) (bgpsecDefRes hdr) in
    mapping ← clientMapping st clientID;
    '(u, ski, mapping, stored) ←
      UpdateCache.storeUpdate (updCache st) (skiCache st) now true clientID mapping updateID (Some prefix) originAS
        (Some d) (Some bgpData) (pathId k);
    st ← set_clientMapping (set_skiCache (set_updCache st u) ski) clientID mapping;
    Ok (st, if stored =? 0 then None
            else Some (mkKnown (mkSRxResult (roaDefRes hdr) (bgpsecDefRes hdr) (aspaResult (srxRes k))) d (pathId k)
                         (cached_aspa k)))
  else Ok (st, Some k).

(** The flags of the initial notification: the receipt, and the requested
    validations whose result differs from the one of the request. *)
Definition is_set (flags bits : Z) : bool := Z.land flags bits =? bits.
Definition send_flags (hdr : BasicHeader_VerifyRequest) (r : SRxResult) : Z :=
  let sendFlags := Z.land (flags hdr) SRX_FLAG_REQUEST_RECEIPT in
  let doOriginVal := is_set (flags hdr) SRX_FLAG_ROA in
  let doPathVal := is_set (flags hdr) SRX_FLAG_BGPSEC in
  let doAspaVal := is_set (flags hdr) SRX_FLAG_ASPA in
  let sendFlags := if doOriginVal && negb (roaDefRes hdr =? roaResult r) then Z.lor sendFlags SRX_FLAG_ROA else sendFlags in
  let sendFlags := if doPathVal && negb (bgpsecDefRes hdr =? bgpsecResult r) then Z.lor sendFlags SRX_FLAG_BGPSEC else sendFlags in
  if 0 <? sendFlags then
    let sendFlags := if doOriginVal then Z.lor sendFlags SRX_FLAG_ROA else sendFlags in
    let sendFlags := if doPathVal then Z.lor sendFlags SRX_FLAG_BGPSEC else sendFlags in
    if doAspaVal then Z.lor sendFlags SRX_FLAG_ASPA else sendFlags
  else sendFlags.

(** The part that answers and queues the command. *)
Definition answer_request st client pkt (hdr : BasicHeader_VerifyRequest) (updateID : Z) (r : SRxResult)
    : outcome (Core H K * bool) :=
  let receipt := is_set (flags hdr) SRX_FLAG_REQUEST_RECEIPT in
  let token := if receipt then requestToken hdr else DONOTUSE_REQUEST_TOKEN in
  let doVal := is_set (flags hdr) SRX_FLAG_ROA || is_set (flags hdr) SRX_FLAG_BGPSEC || is_set (flags hdr) SRX_FLAG_ASPA in
  let sendFlags := send_flags hdr r in
  '(st, retVal) ←
    (if 0 <? sendFlags then
       '(n, sent) ← sendVerifyNotification (net st) client updateID sendFlags token (roaResult r) (bgpsecResult r)
                      (aspaResult r) (negb (ProxyMap.mode_no_sendqueue (ProxyMap.sysConfig (svrConnHandler st))));
       Ok (set_net st n, sent)
     else Ok (st, true));
  if doVal && (0 <? Z.land sendFlags SRX_FLAG_ROA_BGPSEC_ASPA) then
    '(q, queued) ← CommandQueue.queueCommand (cmdQueue st) CommandQueue.COMMAND_TYPE_SRX_PROXY (Some client) updateID
                     (length_ hdr) (Some (set_flags pkt (Z.land sendFlags SRX_FLAG_ROA_BGPSEC_ASPA)));
    Ok (set_cmdQueue st q, if (queued : bool) then retVal else false)
  else Ok (st, retVal).

(** [processValidationRequest] at the time [now].  For an IPv6 request the local
    variables [asType] and [asRelType] have no value when they are read. *)
Definition processValidationRequest st (now : Z) client pkt : outcome (Core H K * bool) :=
  hdr ← read_VerifyRequest pkt;
  ct ← deref (threads (net st)) client;
  let doVal := is_set (flags hdr) SRX_FLAG_ROA || is_set (flags hdr) SRX_FLAG_BGPSEC || is_set (flags hdr) SRX_FLAG_ASPA in
  let v4 := type hdr =? PDU_SRXPROXY_VERIFY_V4_REQUEST in
  let clientID := if doVal then routerID ct else 0 in
  addr ← read_prefixAddress v4 pkt;
  originAS ← read_originAS v4 pkt;
  d ← read_ValReqData v4 pkt;
  let prefix := request_prefix v4 addr (prefixLen hdr) in
  let bgpData := request_bgpData v4 pkt d in
  id ← generateIdentifier originAS prefix bgpData;
  '(u, updateID) ← resolve_collision (collision_fuel (updCache st)) (updCache st) id prefix originAS bgpData;
  mapping ← clientMapping st clientID;
  '(u, mapping, q) ← UpdateCache.getUpdateResult u updateID clientID mapping true;
  st ← set_clientMapping (set_updCache st u) clientID mapping;
  let doStoreUpdate := negb (UpdateCache.q_found q) in
  if negb v4 then Fault UninitRead
  else
    '(st, k) ← lookup_path st hdr bgpData (rel_dir (asRelType hdr)) doStoreUpdate
                 (mkKnown (UpdateCache.q_result q) (UpdateCache.q_default q) (default 0 (UpdateCache.q_pathId q)) None);
    '(st, k) ← store_update st now hdr clientID updateID prefix originAS bgpData doStoreUpdate k;
    match k with
    | None => Ok (st, false)
    | Some k =>
        st ← match cached_aspa k with
             | None => Ok st
             | Some a => '(u, _) ← UpdateCache.modifyUpdateCacheResultWithAspaVal (updCache st) updateID (with_aspa (srxRes k) a);
                         Ok (set_updCache st u)
             end;
        answer_request st client pkt hdr updateID (srxRes k)
    end.

(** ** The signature request *)
Definition processSignatureRequest st client (updateID : Z) pkt : outcome (Core H K * bool) :=
  '(u, signResult) ← UpdateCache.getUpdateSignature (updCache st) updateID;
  let st := set_updCache st u in
  if UpdateCache.containsError signResult then
    '(n, _) ← sendError (UpdateCache.errorCode signResult) (net st) client false;
    if UpdateCache.errorCode signResult =? UpdateCache.SRXERR_UPDATE_NOT_FOUND then
      '(n, sent) ← sendSynchRequest n client false; Ok (set_net st n, sent)
    else Ok (set_net st n, true)
  else match UpdateCache.signatureBlock signResult with
       | Some block =>
           '(n, sent) ← sendSignatureNotification (net st) client updateID (UpdateCache.signatureLength signResult) block false;
           Ok (set_net st n, sent)
       | None =>
           len ← pdu_length pkt;
           '(q, queued) ← CommandQueue.queueCommand (cmdQueue st) CommandQueue.COMMAND_TYPE_SRX_PROXY (Some client) updateID
                            len (Some pkt);
           Ok (set_cmdQueue st q, queued)
       end.

(** ** The packet handler *)

(** An error packet and a goodbye. *)
Definition refuse st (code : Z) client : outcome (Core H K) :=
  '(n, _) ← sendError code (net st) client false;
  '(n, _) ← sendGoodbye n client false;
  Ok (set_net st n).

Definition set_goodBye (ct : ClientThread) : ClientThread :=
  mkClientThread (active ct) (initialized ct) (proxyID ct) true (routerID ct).

(** The default case, and the case of a goodbye, which an acceptable hello falls
    into and which falls into the default case; what is returned is whether to
    queue the packet. *)
Definition default_case st client (ty : Z) : outcome (Core H K * bool) :=
  if ty <=? PDU_SRXPROXY_UNKNOWN then Ok (st, true)
  else st ← refuse st SRXERR_INVALID_PACKET client; Ok (st, false).
Definition goodbye_case st client (ct : ClientThread) (ty : Z) : outcome (Core H K * bool) :=
  let st := if active ct && initialized ct
            then set_net st (set_threads (net st) (<[client := set_goodBye ct]> (threads (net st)))) else st in
  default_case st client ty.

(** [_handlePacket] at the time [now]. *)
Definition _handlePacket st (now : Z) client pkt (len : Z) : outcome (Core H K) :=
  if len <? sizeof_BasicHeader then Ok st
  else
    ty ← pdu_type pkt;
    ct ← deref (threads (net st)) client;
    '(st, addToQueue, dataID) ←
      (if (ty =? PDU_SRXPROXY_VERIFY_V4_REQUEST) || (ty =? PDU_SRXPROXY_VERIFY_V6_REQUEST) then
         if negb (initialized ct) then st ← refuse st SRXERR_INTERNAL_ERROR client; Ok (st, false, 0)
         else '(st, ok) ← processValidationRequest st now client pkt;
              if (ok : bool) then Ok (st, false, 0)
              else st ← refuse st SRXERR_INTERNAL_ERROR client; Ok (st, false, 0)
       else if ty =? PDU_SRXPROXY_SIGN_REQUEST then
         if negb (initialized ct) then st ← refuse st SRXERR_INTERNAL_ERROR client; Ok (st, false, 0)
         else id ← sign_updateIdentifier pkt;
              '(st, ok) ← processSignatureRequest st client id pkt;
              if (ok : bool) then Ok (st, false, 0)
              else st ← refuse st SRXERR_INTERNAL_ERROR client; Ok (st, false, 0)
       else if ty =? PDU_SRXPROXY_DELTE_UPDATE then
         if negb (initialized ct) then st ← refuse st SRXERR_INTERNAL_ERROR client; Ok (st, false, 0)
         else id ← delete_updateIdentifier pkt; Ok (st, true, id)
       else if ty =? PDU_SRXPROXY_HELLO then
         if negb (active ct) || initialized ct then st ← refuse st SRXERR_INVALID_PACKET client; Ok (st, false, 0)
         else '(st, add) ← goodbye_case st client ct ty; Ok (st, add, 0)
       else if ty =? PDU_SRXPROXY_GOODBYE then '(st, add) ← goodbye_case st client ct ty; Ok (st, add, 0)
       else '(st, add) ← default_case st client ty; Ok (st, add, 0));
    if (addToQueue : bool) then
      '(q, _) ← CommandQueue.queueCommand (cmdQueue st) CommandQueue.COMMAND_TYPE_SRX_PROXY (Some client) dataID len (Some pkt);
      Ok (set_cmdQueue st q)
    else Ok st.

(** [handlePacket] *)
Definition handlePacket st (now : Z) client pkt (len : Z) : outcome (Core H K) :=
  match receiverQueue st with
  | None => _handlePacket st now client pkt len
  | Some q => '(q, _) ← PacketQueue.addToQueue pkt client len q; Ok (set_receiverQueue st (Some q))
  end.

(** One round of [schReceiverQueueThreadLoop]. *)
Definition receiverQueueThreadRound st (now : Z) : outcome (Core H K) :=
  match receiverQueue st with
  | None => Ok st
  | Some q =>
      if PacketQueue.running q then
        '(q, f) ← PacketQueue.fetchPacket q;
        let st := set_receiverQueue st (Some q) in
        match f with
        | PacketQueue.GotPacket p => _handlePacket st now (PacketQueue.client p) (PacketQueue.pdu p) (PacketQueue.psize p)
        | _ => Ok st
        end
      else Ok st
  end.

(** ** Connections *)

(** [handleStatusChange] for a new client; the thread is cleared afterwards by the
    caller, [runServerLoop]. *)
Definition handle_connect st client : Core H K :=
  let h := svrConnHandler st in
  set_handler st (ProxyMap.set_clients h (ProxyMap.clients h ++ [client])).
Definition handle_disconnect st (now : Z) client : outcome (Core H K) :=
  let h := svrConnHandler st in
  ct ← deref (threads (net st)) client;
  let h := ProxyMap.set_clients h (delete_client client (ProxyMap.clients h)) in
  let crash := negb (ProxyMap.inShutdown h || goodByeReceived ct) in
  '(h, u) ← ProxyMap.deactivateConnectionMapping h (updCache st) now (routerID ct) crash
              (u16 (ProxyMap.defaultKeepWindow (ProxyMap.sysConfig h)));
  let n := net st in
  Ok (set_net (set_updCache (set_handler st h) u)
        (mkNet (threads n) (delete_client client (cthreads n)) (SEND_QUEUE n) (wire n))).

(** A round of [runServerLoop]: a client connects. *)
Definition accept_client st : Core H K * positive :=
  let n := net st in
  let client := fresh (dom (threads n)) in
  let st := handle_connect st client in
  (set_net st (mkNet (<[client := new_ClientThread]> (threads n)) (cthreads n ++ [client]) (SEND_QUEUE n) (wire n)), client).

(** [clientThreadCleanup]: the thread of a client ends. *)
Definition clientThreadCleanup st (now : Z) client : outcome (Core H K) :=
  st ← handle_disconnect st now client;
  ct ← deref (threads (net st)) client;
  Ok (set_net st (set_threads (net st) (<[client := set_active ct false]> (threads (net st))))).

(** The loop of [broadcastPacket] over the clients; the server uses it to say
    goodbye. *)
Fixpoint broadcast_packet (l : list positive) (n : Net) (pkt : list Z) (len : Z) : outcome Net :=
  match l with
  | [] => Ok n
  | client :: l => '(n, sent) ← sendPacketToClient n client pkt len;
                   if (sent : bool) then broadcast_packet l n pkt len else Ok n
  end.
Definition broadcastPacket st pkt (len : Z) : outcome (Core H K * bool) :=
  n ← broadcast_packet (ProxyMap.clients (svrConnHandler st)) (net st) pkt len;
  Ok (set_net st n, true).
End handler.
End ValidationRequest.
