(* ===== verification/CommandHandler.v ===== *)
(** * Command handler (server/command_handler.c)

    The threads that take the commands off the queue: the handshake with a proxy,
    the validation of an update, the removal of an update, the goodbye. *)
From S2P Require Import Prelude Locks SrxDefs UtHash AspaTrie AspaValidation AspathCache UpdateCache.
From S2P Require Import PrefixCache Patricia.
From S2P Require Import CommandQueue PacketQueue SrxPackets PacketSender ProxyMap BgpsecHandler Server.
From S2P Require Import ValidationRequest.

Module CommandHandler.
Import SrxPackets PacketSender Server CommandQueue BgpsecHandler.

Section handler.
Context {H K T N : Type} `{UTHash H} `{SkiUpdates K} `{Countable N} `{Patricia T N} `{SRxCryptoAPI}.
Implicit Types (st : Core H K) (item : CommandQueueItem).

(** ** Data *)

(** [numThreads] handler threads run. *)
Record CommandHandler := mkCommandHandler {
  core : Core H K;
  prefixCache : PrefixCache.PrefixCache T N;
  numThreads : Z
}.
Implicit Types (self : CommandHandler).
Definition set_core self st : CommandHandler := mkCommandHandler st (prefixCache self) (numThreads self).

Definition initializeCommandHandler st (cache : PrefixCache.PrefixCache T N) : CommandHandler := mkCommandHandler st cache 0.

Definition _isSet (bitmask bits : Z) : bool := Z.land bitmask bits =? bits.

(** The client thread and the packet of an item. *)
Definition item_client item : outcome positive := match client item with Some c => Ok c | None => Fault NullDeref end.
Definition item_data item : outcome (list Z) := match idata item with Some d => Ok d | None => Fault NullDeref end.

(** ** Handshake *)
Definition set_ids (ct : ClientThread) (pid clientID : Z) : ClientThread :=
  mkClientThread (active ct) (initialized ct) pid (goodByeReceived ct) clientID.
Definition set_initialized (ct : ClientThread) : ClientThread :=
  mkClientThread (active ct) true (proxyID ct) (goodByeReceived ct) (routerID ct).

(** The choice of the client identifier; 0 is a failure. *)
Definition choose_client (h : ProxyMap.ServerConnectionHandler) (pid : Z) (c : positive)
    : outcome (ProxyMap.ServerConnectionHandler * Z) :=
  clientID ← ProxyMap.findClientID h pid;
  clientID ← (if clientID =? 0 then ProxyMap.createClientID h else Ok clientID);
  if 0 <? clientID then
    '(h, ok) ← ProxyMap.addMapping h pid clientID (Some c) true;
    Ok (h, if (ok : bool) then clientID else 0)
  else Ok (h, clientID).

(** The answer to an accepted hello. *)
Definition accept_hello st (c : positive) (pid clientID : Z) : outcome (Core H K) :=
  ct ← deref (threads (net st)) c;
  let n := set_threads (net st) (<[c := set_ids ct pid clientID]> (threads (net st))) in
  '(n, sent) ← sendHelloResponse n c pid;
  if (sent : bool) then
    ct ← deref (threads n) c;
    let n := set_threads n (<[c := set_initialized ct]> (threads n)) in
    if ProxyMap.syncAfterConnEstablished (ProxyMap.sysConfig (svrConnHandler st))
    then '(n, _) ← sendSynchRequest n c false; Ok (set_net st n)
    else Ok (set_net st n)
  else Ok (set_net st n).

Definition _processHandshake st item : outcome (Core H K * bool) :=
  hdr ← item_data item;
  c ← item_client item;
  v ← hello_version hdr;
  if negb (v =? SRX_PROTOCOL_VER) then st ← ValidationRequest.refuse st SRXERR_WRONG_VERSION c; Ok (st, false)
  else
    pid ← hello_proxyIdentifier hdr;
    '(h, clientID) ← choose_client (svrConnHandler st) pid c;
    let st := set_handler st h in
    if clientID =? 0 then
      let code := if ProxyMap.noMappings h <? Z.of_nat ProxyMap.MAX_PROXY_CLIENT_ELEMENTS then SRXERR_DUPLICATE_PROXY_ID
                  else SRXERR_INTERNAL_ERROR in
      st ← ValidationRequest.refuse st code c; Ok (st, false)
    else st ← accept_hello st c pid clientID; Ok (st, true).

(** ** Validation of an update *)

(** The BGPsec validation, if it was not performed yet; [None]: the update has no
    data. *)
Definition validate_path st (id : Z) (pathVal : bool) (srxRes : SRxResult) : outcome (Core H K * option Z) :=
  if pathVal && (bgpsecResult srxRes =? SRx_RESULT_UNDEFINED) then
    '(u, uData) ← UpdateCache.getUpdateData (updCache st) id;
    match uData with
    | Some d => r ← validateSignature d; Ok (set_updCache st u, Some r)
    | None => Ok (set_updCache st u, None)
    end
  else Ok (st, Some SRx_RESULT_DONOTUSE).

(** The origin validation: the request to the prefix cache. *)
Definition validate_origin self (id : Z) pkt (originVal : bool) (srxRes : SRxResult) : outcome (CommandHandler * bool) :=
  if originVal && (roaResult srxRes =? SRx_RESULT_UNDEFINED) then
    ty ← pdu_type pkt;
    let v4 := ty =? PDU_SRXPROXY_VERIFY_V4_REQUEST in
    addr ← read_prefixAddress v4 pkt;
    len ← read8 pkt 15;
    asn ← read_originAS v4 pkt;
    '(cache, st, ok) ← PrefixCache.requestUpdateValidation (prefixCache self) (core self) id
                         (ValidationRequest.request_prefix v4 addr len) asn;
    Ok (mkCommandHandler st cache (numThreads self), ok)
  else Ok (self, true).

(** The ASPA validation of a path in the AS path cache at the time [now]: what it
    stores there and the result. *)
Definition validate_aspath st (now pathId : Z) (aspl : AspathCache.AS_PATH_LIST) : outcome (Core H K * Z) :=
  let a := AspathCache.afi aspl in
  let a := if (a =? 0) || (2 <? a) then AFI_IP else a in
  path ← match AspathCache.asPathList aspl with Some l => Ok l | None => Fault NullDeref end;
  '(db, valResult) ← AspaValidation.validateASPA path (AspathCache.asPathLength aspl) (AspathCache.asType aspl)
                       (AspathCache.asRelDir aspl) a (aspaDBManager st);
  let st := set_aspaDB st db in
  if negb (valResult =? AspathCache.aspaValResult aspl) then
    let aspl := AspathCache.mkAS_PATH_LIST (AspathCache.pathID aspl) (AspathCache.asPathLength aspl)
                  (AspathCache.asPathList aspl) (AspathCache.aspaValResult aspl) (AspathCache.asType aspl)
                  (AspathCache.asRelDir aspl) (AspathCache.afi aspl) now in
    '(cache, _) ← AspathCache.modifyAspaValidationResultToAspathCache (aspathCache st) pathId valResult aspl;
    Ok (set_aspathCache st cache, valResult)
  else Ok (st, AspathCache.aspaValResult aspl).

(** The ASPA validation: the ASPA result to store - "do not use" if there is none -
    and the result of the update, which the AS path cache overwrites.  The source
    of the default result is assigned, not compared, in the second case. *)
Definition validate_aspa st (now pathId : Z) (aspaVal : bool) (reqAsType : Z) (srxRes : SRxResult) (defRes : SRxDefaultResult)
    : outcome (Core H K * SRxResult * Z) :=
  let undefined := aspaResult srxRes =? SRx_RESULT_UNDEFINED in
  let default_invalid := aspaResult (result defRes) =? SRx_RESULT_INVALID in
  '(st, srxRes, r) ←
    (if aspaVal && undefined && negb default_invalid then
       '(cache, srxRes, aspl) ← AspathCache.getAspathListFromAspathCache (aspathCache st) pathId srxRes;
       let st := set_aspathCache st cache in
       match aspl with
       | Some aspl => '(st, r) ← validate_aspath st now pathId aspl; Ok (st, srxRes, r)
       | None => Ok (st, srxRes, if (pathId =? 0) && (reqAsType =? AS_SET) then SRx_RESULT_UNVERIFIABLE else SRx_RESULT_DONOTUSE)
       end
     else if aspaVal && undefined && default_invalid then Ok (st, srxRes, SRx_RESULT_INVALID)
     else Ok (st, srxRes, SRx_RESULT_DONOTUSE));
  let decided := aspaVal && negb (aspaResult srxRes =? SRx_RESULT_UNDEFINED) && negb default_invalid in
  Ok (st, srxRes,
      if decided && negb (reqAsType =? AS_SET) then aspaResult srxRes
      else if decided && (reqAsType =? AS_SET) && (pathId =? 0) then SRx_RESULT_UNVERIFIABLE
      else r).

(** [_processUpdateValidation] at the time [now]. *)
Definition _processUpdateValidation self (now : Z) item : outcome (CommandHandler * bool) :=
  pkt ← item_data item;
  bhdr ← read_VerifyRequest pkt;
  let originVal := _isSet (flags bhdr) SRX_PROXY_FLAGS_VERIFY_PREFIX_ORIGIN in
  let pathVal := _isSet (flags bhdr) SRX_PROXY_FLAGS_VERIFY_PATH in
  let aspaVal := _isSet (flags bhdr) SRX_PROXY_FLAGS_VERIFY_ASPA in
  let id := dataID item in
  if negb originVal && negb pathVal && negb aspaVal then Ok (self, false)
  else
    '(u, _, q) ← UpdateCache.getUpdateResult (updCache (core self)) id 0 None true;
    let self := set_core self (set_updCache (core self) u) in
    if negb (UpdateCache.q_found q) then Ok (self, false)
    else
      let srxRes := UpdateCache.q_result q in
      '(st, bgpsec) ← validate_path (core self) id pathVal srxRes;
      let self := set_core self st in
      match bgpsec with
      | None => Ok (self, false)
      | Some bgpsec =>
          '(self, processed) ← validate_origin self id pkt originVal srxRes;
          '(st, srxRes, aspa) ← validate_aspa (core self) now (default 0 (UpdateCache.q_pathId q)) aspaVal (asType bhdr)
                                  srxRes (UpdateCache.q_default q);
          let self := set_core self st in
          if negb (bgpsec =? SRx_RESULT_DONOTUSE) || negb (aspa =? SRx_RESULT_DONOTUSE) then
            '(st, _) ← modify_and_notify (core self) id (mkSRxResult SRx_RESULT_DONOTUSE bgpsec aspa) false;
            Ok (set_core self st, processed)
          else Ok (self, processed)
      end.

(** ** The other commands *)
Definition _processUpdateSigning st item : Core H K := st.
Definition _processPeerChange st item : Core H K := st.

Definition _processDeleteUpdate st (now : Z) item : outcome (Core H K) :=
  pkt ← item_data item;
  c ← item_client item;
  ct ← deref (threads (net st)) c;
  keep ← delete_keepWindow pkt;
  '(u, ski, removed) ← UpdateCache.deleteUpdateFromCache (updCache st) (skiCache st) now (routerID ct) (dataID item) keep;
  let st := set_skiCache (set_updCache st u) ski in
  if (removed : bool) then
    m ← ProxyMap.get_mapping (svrConnHandler st) (routerID ct);
    Ok (set_handler st (ProxyMap.put_mapping (svrConnHandler st) (routerID ct)
          (ProxyMap.set_updateCount m (u32 (ProxyMap.updateCount m - 1)))))
  else '(n, _) ← sendError SRXERR_UPDATE_NOT_FOUND (net st) c false; Ok (set_net st n).

(** [closeClientConnection] and [deleteFromSList] on the list of the clients, which
    follow each other when a connection ends. *)
Definition close_client st (c : positive) : outcome (Core H K) :=
  n ← closeClientConnection (net st) c; Ok (set_net st n).
Definition forget_client st (c : positive) : Core H K :=
  let h := svrConnHandler st in set_handler st (ProxyMap.set_clients h (delete_client c (ProxyMap.clients h))).

(** A connection is closed and its mapping removed, for it did not crash. *)
Definition end_connection st (now : Z) (c : positive) (keepWindow : Z) : outcome (Core H K) :=
  st ← close_client st c;
  ct ← deref (threads (net st)) c;
  '(h, u) ← ProxyMap.deactivateConnectionMapping (svrConnHandler st) (updCache st) now (routerID ct) false keepWindow;
  Ok (forget_client (set_updCache (set_handler st h) u) c).

(** The cases of [handleCommands] for a packet of type [ty]. *)
Definition handle_proxy_command self (now ty : Z) item : outcome CommandHandler :=
  let st := core self in
  if ty =? PDU_SRXPROXY_HELLO then
    '(st, ok) ← _processHandshake st item;
    if (ok : bool) then Ok (set_core self st)
    else c ← item_client item; st ← close_client st c; Ok (set_core self (forget_client st c))
  else if (ty =? PDU_SRXPROXY_VERIFY_V4_REQUEST) || (ty =? PDU_SRXPROXY_VERIFY_V6_REQUEST) then
    '(self, _) ← _processUpdateValidation self now item; Ok self
  else if ty =? PDU_SRXPROXY_SIGN_REQUEST then Ok (set_core self (_processUpdateSigning st item))
  else if ty =? PDU_SRXPROXY_GOODBYE then
    pkt ← item_data item; c ← item_client item; keep ← goodbye_keepWindow pkt;
    st ← end_connection st now c keep; Ok (set_core self st)
  else if ty =? PDU_SRXPROXY_DELTE_UPDATE then st ← _processDeleteUpdate st now item; Ok (set_core self st)
  else if ty =? PDU_SRXPROXY_PEER_CHANGE then Ok (set_core self (_processPeerChange st item))
  else
    c ← item_client item;
    st ← ValidationRequest.refuse st SRXERR_INVALID_PACKET c;
    st ← end_connection st now c (u16 (ProxyMap.defaultKeepWindow (ProxyMap.sysConfig (svrConnHandler st))));
    Ok (set_core self st).

(** What one round of [handleCommands] comes to: the thread waits, it ends, or it
    processed an item. *)
Inductive round := R_waits | R_ends | R_processed.

(** One round of [handleCommands]; a queue that was shut down makes the thread
    read a NULL item. *)
Definition handleCommands_round self (now : Z) : outcome (CommandHandler * round) :=
  '(q, f) ← fetchNextCommand (cmdQueue (core self));
  let self := set_core self (set_cmdQueue (core self) q) in
  match f with
  | Waits => Ok (self, R_waits)
  | Terminated => Fault NullDeref
  | Fetched b item =>
      '(self, r) ←
        (if cmdType item =? COMMAND_TYPE_SHUTDOWN then Ok (self, R_ends)
         else if cmdType item =? COMMAND_TYPE_SRX_PROXY then
           if (dataLength item =? 0) && (match idata item with None => true | Some _ => false end) then Ok (self, R_processed)
           else pkt ← item_data item; ty ← pdu_type pkt;
                self ← handle_proxy_command self now ty item; Ok (self, R_processed)
         else Ok (self, R_processed));
      q ← deleteCommand (cmdQueue (core self)) (Some b);
      Ok (set_core self (set_cmdQueue (core self) q), r)
  end.

(** ** Starting and stopping *)
Definition NUM_COMMAND_HANDLER_THREADS : nat := 1.

(** [startProcessingCommands]; [created] tells which threads can be created. *)
Fixpoint start_threads (idx n : nat) (created : nat -> bool) (numThreads : Z) : Z * bool :=
  match n with
  | O => (numThreads, true)
  | S n => if created idx then start_threads (S idx) n created (numThreads + 1)
           else (numThreads, (0 <? idx)%nat)
  end.
Definition startProcessingCommands self (created : nat -> bool) : CommandHandler * bool :=
  let '(t, ok) := start_threads 0 NUM_COMMAND_HANDLER_THREADS created (numThreads self) in
  (mkCommandHandler (core self) (prefixCache self) t, ok).

(** [stopProcessingCommands] up to the point where it waits for the threads. *)
Fixpoint queue_shutdowns (n : nat) (q : CommandQueue) : outcome CommandQueue :=
  match n with
  | O => Ok q
  | S n => '(q, _) ← queueCommand q COMMAND_TYPE_SHUTDOWN None 0 0 None; queue_shutdowns n q
  end.
Definition stopProcessingCommands self : outcome CommandHandler :=
  q ← removeAllCommands (cmdQueue (core self));
  q ← queue_shutdowns (Z.to_nat (numThreads self)) q;
  Ok (set_core self (set_cmdQueue (core self) q)).

End handler.
Arguments CommandHandler H K T N {_ _}.
End CommandHandler.
