(* ===== verification/CommandTheorems.v ===== *)
(** * Command handler: properties *)
From S2P Require Import Prelude Locks SrxDefs UtHash RpkiQueue UpdateCache UpdateCacheLemmas.
From S2P Require Import UpdateCacheTheorems AspathCache AspaTrie AspaValidation.
From S2P Require Import Patricia PrefixCache PrefixTree PrefixSteps PrefixInv PrefixAnnounce PrefixRequest.
From S2P Require Import PrefixSpec CommandQueue SrxPackets PacketSender ProxyMap.
From S2P Require Import ProxyMapTheorems RoaNotify BgpsecHandler Server ValidationRequest CommandHandler.

Module CommandTheorems.
Import PrefixTree PrefixInv PrefixAnnounce PrefixRequest PrefixSpec SrxPackets PacketSender Server ServerLemmas CommandHandler BgpsecHandler.

(** ** What a request to the prefix cache does to the sink *)
Section request.
Context {T N S : Type} `{Countable N} `{Patricia T N} `{RoaSink S}.
Implicit Types (s : S).





End request.


Section commands.
Context {H K T N : Type} `{UTHashLaws H} `{SkiUpdates K} `{Countable N} `{PatriciaLaws T N} `{SRxCryptoAPI}.
Implicit Types (st : Core H K) (cache : PrefixCache.PrefixCache T N) (id : Z).
Import UpdateCache UpdateCacheTheorems.

(** ** Origin validation *)



(** ** ASPA validation *)
Import AspathCache.
















End commands.
End CommandTheorems.
