(* ===== verification/Handshake.v ===== *)
(** * Handshake (server/command_handler.c): properties

    Which hello is accepted, as which client, and what is answered. *)
From S2P Require Import Prelude Locks SrxDefs UtHash UpdateCache Patricia PrefixCache CommandQueue SrxPackets.
From S2P Require Import PacketSender ProxyMap.
From S2P Require Import ProxyMapTheorems BgpsecHandler Server ValidationRequest CommandHandler.

Module Handshake.
Import SrxPackets PacketSender ProxyMap ProxyMapTheorems Server CommandHandler.

(** ** Sending to a client *)
Definition write_all (n : Net) (c : positive) (l : list (list Z)) : Net :=
  mkNet (threads n) (cthreads n) (SEND_QUEUE n) (wire n ++ ((fun bs => (c, bs)) <$> l)).
Definition reply (n : Net) (c : positive) (ct : ClientThread) (l : list (list Z)) : Net :=
  if active ct then write_all n c l else n.

Lemma write_all_app n c l1 l2 : write_all (write_all n c l1) c l2 = write_all n c (l1 ++ l2).
Proof. unfold write_all. cbn. by rewrite fmap_app, app_assoc. Qed.
Lemma reply_app n c ct l1 l2 : reply (reply n c ct l1) c ct l2 = reply n c ct (l1 ++ l2).
Proof. unfold reply. destruct (active ct); [apply write_all_app|done]. Qed.
Lemma reply_threads n c ct l : threads (reply n c ct l) = threads n.
Proof. unfold reply. by destruct (active ct). Qed.

Lemma send_reply n c ct bs size : threads n !! c = Some ct -> Z.of_nat (length bs) = size ->
  sendPacketToClient n c bs size = Ok (reply n c ct [bs], active ct).
Proof. intros Hc Hs. rewrite (send_eq n c ct) by done. unfold reply. by destruct (active ct). Qed.

Section handshake.
Context {H K T N : Type} `{UTHash H} `{SkiUpdates K} `{Countable N} `{Patricia T N} `{BgpsecHandler.SRxCryptoAPI}.
Implicit Types (st : Core H K) (item : CommandQueue.CommandQueueItem).

Lemma refuse_eq st code c ct : threads (net st) !! c = Some ct ->
  ValidationRequest.refuse st code c = Ok (set_net st (reply (net st) c ct [ERROR code; GOODBYE 0])).
Proof.
  intros Hc. unfold ValidationRequest.refuse, sendError, sendGoodbye, __sendPacketToClient. cbn [negb].
  rewrite (send_reply _ _ ct) by done. simpl_outcome. rewrite (send_reply _ _ ct) by (by rewrite ?reply_threads). simpl_outcome.
  by rewrite reply_app.
Qed.

(** The client a proxy gets; 0 if there is none. *)
Definition chosen (h : ServerConnectionHandler) (pid : Z) : Z :=
  if client_of h pid =? 0 then free_client h else client_of h pid.
(** The client is not in use by another connection. *)
Definition available (h : ServerConnectionHandler) (pid : Z) (c : positive) : bool :=
  match proxyMap h !! Z.to_nat (chosen h pid) with
  | Some m => negb (chosen h pid =? 0) && ((client_of h pid =? 0) || negb (isActive m) || bool_decide (socket m = Some c))
  | None => false
  end.

Lemma chosen_range h pid : pm_wf h -> 0 <= chosen h pid < 256.
Proof.
  intros Hw. unfold chosen, client_of, free_client.
  destruct (index_of_spec (fun m => proxyID m = pid) h (pw_length _ Hw)) as [[-> _]|(Hc & _)];
    destruct (index_of_spec (fun m => proxyID m = 0) h (pw_length _ Hw)) as [[-> _]|(Hf & _)]; cbn; try lia;
    destruct (_ =? 0); lia.
Qed.

Lemma choose_client_eq h pid c m : pm_wf h -> 0 < pid < 2 ^ 32 -> noMappings h < 255 ->
  proxyMap h !! Z.to_nat (chosen h pid) = Some m ->
  let h' := set_map h (<[Z.to_nat (chosen h pid) := new_mapping pid m (Some c) true]> (proxyMap h))
              (noMappings h + if decide (proxyID m = 0) then 1 else 0) in
  choose_client h pid c = Ok (if available h pid c then (h', chosen h pid) else (h, 0))
  /\ (available h pid c = true -> pm_wf h' /\ client_of h' pid = chosen h pid).
Proof.
  intros Hw Hp Hn Hm h'. pose proof (chosen_range h pid Hw) as Hr. unfold choose_client. rewrite findClientID_eq by done.
  replace (pid =? 0) with false by lia. simpl_outcome.
  assert ((if client_of h pid =? 0 then createClientID h else Ok (client_of h pid)) = Ok (chosen h pid)) as ->.
  { unfold chosen. rewrite createClientID_eq by apply Hw. by destruct (_ =? 0). }
  simpl_outcome. unfold available. rewrite Hm. destruct (Z.ltb_spec 0 (chosen h pid)) as [Hpos|Hz].
  - replace (chosen h pid =? 0) with false by lia. cbn [negb andb].
    destruct (addMapping_eq h pid (chosen h pid) m (Some c) true Hw Hp ltac:(lia) Hn Hm) as [E Hacc]. rewrite E.
    assert (accepted h pid m (Some c) = (client_of h pid =? 0) || negb (isActive m) || bool_decide (socket m = Some c)) as Ea.
    { unfold accepted. unfold chosen in Hm. destruct (Z.eqb_spec (client_of h pid) 0) as [Ez|Ez].
      - pose proof (client_of_0 h pid Hw ltac:(lia) Ez _ _ Hm) as Hne. rewrite decide_False by done. apply bool_decide_eq_true.
        split; [|done]. destruct (index_of_spec (fun m => proxyID m = 0) h (pw_length _ Hw)) as [[Hf _]|(_ & (m' & Hm' & E') & _)].
        + exfalso. unfold chosen in Hpos. rewrite Ez in Hpos. cbn in Hpos. unfold free_client in Hpos. lia.
        + fold (free_client h) in Hm'. congruence.
      - destruct (index_of_spec (fun m => proxyID m = pid) h (pw_length _ Hw)) as [[Hf _]|(_ & (m' & Hm' & E') & _)]; [done|].
        fold (client_of h pid) in Hm'. rewrite decide_True by congruence. done. }
    rewrite <- Ea. destruct (accepted h pid m (Some c)) eqn:Hac; simpl_outcome; [|done]. split; [done|]. intros _. by apply Hacc.
  - replace (chosen h pid) with 0 by lia. done.
Qed.

(** The thread of an accepted proxy. *)
Definition greeted (ct : ClientThread) (pid clientID : Z) : ClientThread :=
  mkClientThread (active ct) true pid (goodByeReceived ct) clientID.

Lemma accept_hello_eq st c ct pid clientID : threads (net st) !! c = Some ct -> active ct = true ->
  let n := set_threads (net st) (<[c := greeted ct pid clientID]> (threads (net st))) in
  accept_hello st c pid clientID
  = Ok (set_net st (write_all n c (HELLO_RESPONSE pid
          :: if syncAfterConnEstablished (sysConfig (svrConnHandler st)) then [SYNCH_REQUEST] else []))).
Proof.
  intros Hc Ha n. unfold accept_hello, deref. rewrite Hc. simpl_outcome. unfold sendHelloResponse.
  rewrite (send_reply _ _ (set_ids ct pid clientID)); [|cbn [threads set_threads]; by rewrite lookup_insert_eq|done].
  simpl_outcome. cbn [active set_ids]. rewrite Ha. unfold reply. cbn [active set_ids]. rewrite Ha.
  cbn [write_all threads set_threads]. rewrite lookup_insert_eq. simpl_outcome. cbn [cthreads SEND_QUEUE wire].
  rewrite insert_insert_eq. change (set_initialized (set_ids ct pid clientID)) with (greeted ct pid clientID).
  destruct (syncAfterConnEstablished _); [|done]. unfold sendSynchRequest, __sendPacketToClient. cbn [negb].
  rewrite (send_reply _ _ (greeted ct pid clientID)); [|cbn [threads set_threads]; by rewrite lookup_insert_eq|done].
  simpl_outcome. unfold reply. cbn [active greeted]. rewrite Ha. unfold write_all, set_threads. cbn. by rewrite <- app_assoc.
Qed.

(** C6 A hello of the right version from a proxy with an identifier other than 0, on
    an open connection, the counter of the mappings being below 255 (the counter is
    never decremented): it is accepted exactly when the proxy is unknown and one of
    the 255 clients is free, or the proxy is known and its mapping is not active or
    belongs to the very connection of the hello.  The proxy is mapped to that client
    - the one it had before, or the lowest free one -, the connection is ready for
    requests, and the hello is answered.  Otherwise the proxy gets an error and a
    goodbye, and no mapping changes. *)
Theorem processHandshake_correct st item pkt c ct pid :
  CommandQueue.idata item = Some pkt -> CommandQueue.client item = Some c ->
  threads (net st) !! c = Some ct -> active ct = true ->
  hello_version pkt = Ok SRX_PROTOCOL_VER -> hello_proxyIdentifier pkt = Ok pid -> 0 < pid < 2 ^ 32 ->
  pm_wf (svrConnHandler st) -> noMappings (svrConnHandler st) < 255 ->
  let h := svrConnHandler st in let k := chosen h pid in
  if available h pid c then
    exists h' n, _processHandshake st item = Ok (set_net (set_handler st h') n, true)
      /\ pm_wf h' /\ client_of h' pid = k /\ 1 <= k < 256
      /\ (forall i, i <> Z.to_nat k -> proxyMap h' !! i = proxyMap h !! i)
      /\ (exists m, proxyMap h' !! Z.to_nat k = Some m /\ isActive m = true /\ socket m = Some c)
      /\ threads n = <[c := greeted ct pid k]> (threads (net st))
      /\ wire n = wire (net st) ++ (c, HELLO_RESPONSE pid)
           :: if syncAfterConnEstablished (sysConfig h) then [(c, SYNCH_REQUEST)] else []
  else _processHandshake st item = Ok (set_net st (write_all (net st) c [ERROR SRXERR_DUPLICATE_PROXY_ID; GOODBYE 0]), false).
Proof.
  intros Hd Hi Hc Ha Hv Hpid Hp Hw Hn h k. unfold _processHandshake, item_data, item_client. rewrite Hd, Hi. simpl_outcome.
  rewrite Hv. simpl_outcome. cbn [negb Z.eqb SRX_PROTOCOL_VER Pos.eqb]. rewrite Hpid. simpl_outcome.
  pose proof (chosen_range h pid Hw) as Hr. destruct (lookup_lt_is_Some_2 (proxyMap h) (Z.to_nat k)) as [m Hm].
  { pose proof (pw_length _ Hw) as Hl. fold h in Hl. rewrite Hl. unfold k. lia. }
  destruct (choose_client_eq h pid c m Hw Hp Hn Hm) as [E Hok]. fold h. rewrite E. fold k in E, Hok |- *.
  destruct (available h pid c) eqn:Hav.
  - simpl_outcome. destruct (Hok eq_refl) as [Hw' Hco].
    assert (1 <= k) as Hk.
    { unfold available in Hav. fold k in Hav, Hr. rewrite Hm in Hav. destruct (Z.eqb_spec k 0); [done|]. lia. }
    rewrite (proj2 (Z.eqb_neq _ _)) by lia. rewrite (accept_hello_eq _ c ct) by done. simpl_outcome.
    eexists _, _. split; [done|]. split; [exact Hw'|]. split; [done|]. split; [lia|]. pose proof (lookup_lt_Some _ _ _ Hm).
    split; [intros i Hne; cbn; by rewrite list_lookup_insert_ne|].
    split; [eexists; cbn; by rewrite list_lookup_insert_eq|]. split; [done|]. cbn. fold h. by destruct (syncAfterConnEstablished _).
  - fold h in Hn. simpl_outcome. cbn [Z.eqb]. assert ((noMappings h <? Z.of_nat MAX_PROXY_CLIENT_ELEMENTS) = true) as -> by (apply Z.ltb_lt; clearbody h; lia).
    rewrite (refuse_eq _ _ _ ct) by done. simpl_outcome. unfold reply. rewrite Ha. by destruct st.
Qed.

(** A hello with the proxy identifier 0 is accepted, but the mapping stays in the
    state of a free one: afterwards every proxy without a mapping is refused,
    whichever connection it uses, until that connection ends. *)
Theorem proxy_0_blocks_handshake h c h1 k : pm_wf h -> noMappings h < 255 ->
  choose_client h 0 c = Ok (h1, k) -> 0 < k ->
  forall pid c', pid = 0 \/ (pid <> 0 /\ forall i m, proxyMap h !! i = Some m -> proxyID m <> pid) ->
  choose_client h1 pid c' = Ok (h1, 0).
Proof.
  intros Hw Hn E Hk pid c' Hpid. pose proof (pw_length _ Hw) as Hl.
  assert (k = free_client h) as ->.
  { unfold choose_client in E. rewrite findClientID_eq in E by done. cbn [Z.eqb] in E. simpl_outcome. cbn [Z.eqb] in E.
    rewrite createClientID_eq in E by done. simpl_outcome. destruct (0 <? free_client h) in E; [|simpl in E; congruence].
    apply bind_Ok in E as ([h2 ok] & _ & E). injection E as _ <-. destruct ok; [done|lia]. }
  destruct (index_of_spec (fun m => proxyID m = 0) h Hl) as [[Hz _]|(Hr & (m & Hm & Em) & Hlt)]; fold (free_client h) in *; [lia|].
  assert (h1 = set_map h (<[Z.to_nat (free_client h) := mkProxyClientMapping 0 (Some c) true (preDefined m) 0 (updateCount m)]> (proxyMap h))
                 (noMappings h + 1)) as ->.
  { unfold choose_client in E. rewrite findClientID_eq in E by done. cbn [Z.eqb] in E. simpl_outcome. cbn [Z.eqb] in E.
    rewrite createClientID_eq in E by done. simpl_outcome. replace (0 <? free_client h) with true in E by lia.
    unfold addMapping in E. rewrite findClientID_eq in E by done. cbn [Z.eqb] in E. simpl_outcome. cbn [Z.eqb] in E.
    unfold get_mapping, arr_get in E. rewrite Hm in E. simpl_outcome. unfold can_map in E. rewrite Em in E. cbn [Z.eqb] in E.
    destruct (isActive m) eqn:Ha.
    - exfalso. by apply (proj1 (Forall_lookup _ _) (pw_inactive _ Hw) _ _ Hm Ha).
    - cbn [negb] in E. simpl_outcome. injection E as <-. unfold set_map. f_equal.
      pose proof (pw_count _ Hw). pose proof (used_bound (proxyMap h)). unfold wrap. rewrite Z.mod_small; lia. }
  set (m0 := mkProxyClientMapping 0 (Some c) true (preDefined m) 0 (updateCount m)).
  set (h1 := set_map h _ _). pose proof (lookup_lt_Some _ _ _ Hm) as Hmlt.
  assert (proxyMap h1 !! Z.to_nat (free_client h) = Some m0) as Hm0 by by apply list_lookup_insert_eq.
  assert (findClientID h1 pid = Ok 0) as Hf.
  { unfold findClientID. destruct (Z.eqb_spec pid 0); [done|]. apply find_loop_none.
    - cbn [proxyMap h1 set_map]. rewrite length_insert, Hl. lia.
    - intros i mi Hi. cbn [proxyMap h1 set_map] in Hi. apply list_lookup_insert_Some in Hi as [(_ & <- & _)|[_ Hi]]; [done|].
      destruct Hpid as [?|[_ Hno]]; [done|]. by eapply Hno. }
  assert (createClientID h1 = Ok (free_client h)) as Hcr.
  { rewrite createClientID_eq by (cbn [proxyMap h1 set_map]; by rewrite length_insert). f_equal.
    destruct (index_of_spec (fun m => proxyID m = 0) h1) as [[Hz Hno]|(Hr1 & (m1 & Hm1 & E1) & Hlt1)];
      [cbn [proxyMap h1 set_map]; by rewrite length_insert|..]; fold (free_client h1) in *.
    - exfalso. apply (Hno _ _ Hm0); [lia|done].
    - destruct (Z.lt_trichotomy (free_client h1) (free_client h)) as [Hc|[->|Hc]]; [|done|].
      + exfalso. cbn [proxyMap h1 set_map] in Hm1. rewrite list_lookup_insert_ne in Hm1 by lia.
        apply (Hlt (Z.to_nat (free_client h1)) m1); [lia|done|done].
      + exfalso. apply (Hlt1 (Z.to_nat (free_client h)) m0); [lia|done|done]. }
  unfold choose_client. rewrite Hf. simpl_outcome. change (0 =? 0) with true. rewrite Hcr. simpl_outcome.
  replace (0 <? free_client h) with true by lia. unfold addMapping. rewrite Hf. simpl_outcome.
  unfold get_mapping, arr_get. rewrite Hm0. simpl_outcome. done.
Qed.
End handshake.
End Handshake.
