(* ===== verification/RequestTheorems.v ===== *)
(** * Validation requests (server/server_connection_handler.c): properties *)
From S2P Require Import Prelude Locks SrxDefs UtHash SrxIdentifier AspathCache UpdateCache UpdateCacheLemmas.
From S2P Require Import UpdateCacheTheorems.
From S2P Require Import CommandQueue PacketQueue SrxPackets PacketSender ProxyMap Server ValidationRequest.

Module RequestTheorems.
Import SrxPackets PacketSender Server ServerLemmas ValidationRequest UpdateCacheLemmas UpdateCacheTheorems.

Section requests.
Context {H K : Type} `{UTHashLaws H} `{SkiUpdates K}.
Implicit Types (st : Core H K) (id : Z) (pkt : list Z).

(** ** Unknown updates *)
Lemma detectCollision_unknown (u : UpdateCache.UpdateCache H) id p a b : uc_wf u -> uc_get u id = None ->
  UpdateCache.detectCollision u id p a b = Ok (u, false).
Proof.
  intros Hw Hn. unfold UpdateCache.detectCollision. rewrite tableFind_eq by done. simpl_outcome.
  pose proof (uc_find u id Hw) as Hf. destruct (ut_find id _) as [q|]; [|done]. destruct Hf as (_ & e & _ & He & _). congruence.
Qed.
Lemma getUpdateResult_unknown (u : UpdateCache.UpdateCache H) id c m want : uc_wf u -> uc_get u id = None ->
  UpdateCache.getUpdateResult u id c m want
  = Ok (u, m, UpdateCache.mkQuery false UpdateCache.undefined_result UpdateCache.donotuse_default None).
Proof.
  intros Hw Hn. unfold UpdateCache.getUpdateResult. rewrite tableFind_eq by done. simpl_outcome.
  pose proof (uc_find u id Hw) as Hf. destruct (ut_find id _) as [q|]; [|done]. destruct Hf as (_ & e & _ & He & _). congruence.
Qed.

(** ** The AS path of a new update *)
Definition path_entry (hdr : BasicHeader_VerifyRequest) (b : BGPSecData) (pid : Z) : AspathCache.PathListCacheTable :=
  AspathCache.mkPathListCacheTable pid (numberHops b) (Some (ntohl <$> take (Z.to_nat (numberHops b)) (default [] (asPath b))))
    (aspaDefRes hdr) (asType hdr) (rel_dir (asRelType hdr)) (ntohs (bgp_afi b)) 0.
Definition cached st (pid : Z) : option AspathCache.PathListCacheTable :=
  if pid =? 0 then None else AspathCache.ac_get (aspathCache st) pid.

(** The result, the default result and the cached result of a new update whose
    path has the identifier [pid]. *)
Definition path_known st hdr (pid : Z) : known :=
  match cached st pid with
  | Some pe => let a := AspathCache.e_aspaResult pe in
               mkKnown (with_aspa UpdateCache.undefined_result a) UpdateCache.donotuse_default pid
                 (if a =? SRx_RESULT_UNDEFINED then None else Some a)
  | None => mkKnown (with_aspa UpdateCache.undefined_result (aspaDefRes hdr))
              (default_aspa UpdateCache.donotuse_default (aspaResSrc hdr) (aspaDefRes hdr)) pid None
  end.

Lemma lookup_path_new st hdr b pid : AspathCache.ac_wf (aspathCache st) -> bgp_ok b -> 0 <= numberHops b < 256 ->
  AspathCache.makePathId (numberHops b) (asPath b) (asType hdr) true = Ok pid ->
  exists ac', lookup_path st hdr b (rel_dir (asRelType hdr)) true
                (mkKnown UpdateCache.undefined_result UpdateCache.donotuse_default 0 None)
      = Ok (set_aspathCache st ac', path_known st hdr pid)
    /\ AspathCache.ac_wf ac'
    /\ forall k, AspathCache.ac_get ac' k
       = if decide (k = pid /\ AspathCache.ac_get (aspathCache st) pid = None /\ numberHops b <> 0)
         then Some (path_entry hdr b pid) else AspathCache.ac_get (aspathCache st) k.
Proof.
  intros Hw Hb Hh Hpid. unfold lookup_path. change (pathId _ =? 0) with true. cbv iota. rewrite Hpid. simpl_outcome.
  rewrite AspathCache.getAspathListFromAspathCache_spec by done. simpl_outcome.
  unfold path_known, cached.
  assert (set_aspathCache st (aspathCache st) = st) as Hid by by destruct st.
  destruct (if pid =? 0 then None else AspathCache.ac_get (aspathCache st) pid) as [pe|] eqn:Hc.
  - destruct (Z.eqb_spec pid 0); [done|]. rewrite Hc. cbn [fmap option_fmap option_map aspaResult]. rewrite Hid.
    exists (aspathCache st). rewrite Hid. split; [done|]. split; [done|]. intros k. by rewrite decide_False by (intros (_ & ? & _); congruence).
  - assert ((if pid =? 0 then None else AspathCache.to_list <$> AspathCache.ac_get (aspathCache st) pid) = None) as ->.
    { destruct (pid =? 0); [done|]. by rewrite Hc. }
    rewrite Hid. unfold AspathCache.newAspathListEntry. destruct (Z.eqb_spec (numberHops b) 0) as [Hz|Hnz].
    + simpl_outcome. unfold AspathCache.storeAspathList. simpl_outcome. rewrite Hid. exists (aspathCache st). rewrite Hid. split; [done|]. split; [done|].
      intros k. by rewrite decide_False by naive_solver.
    + destruct Hb as [Hp _ _]. destruct (Hp ltac:(lia)) as (l & El & Hl). rewrite El. change (default [] (Some l)) with l.
      unfold AspathCache.copy_array. rewrite decide_True by lia. simpl_outcome.
      set (d := default_aspa _ _ _). set (ae := AspathCache.mkAS_PATH_LIST _ _ _ _ _ _ _ _).
      assert (u8 (numberHops b) = numberHops b) as Hu by (unfold wrap; apply Z.mod_small; lia).
      destruct (AspathCache.storeAspathList_spec (aspathCache st) (Some d) pid (asType hdr) ae Hw) as (ac' & r & E & Hw' & _ & Hg).
      { split; [unfold in_u; cbn; rewrite Hu; lia|]. eexists. split; [done|]. cbn. rewrite Hu, length_fmap, length_take. lia. }
      rewrite E. simpl_outcome. exists ac'. split; [done|]. split; [done|]. intros k. rewrite Hg.
      destruct (decide (k = pid /\ AspathCache.ac_get (aspathCache st) pid = None)) as [[-> Hn]|Hno].
      * rewrite decide_True by done. unfold AspathCache.to_entry, path_entry, ae. cbn. rewrite Hu, El.
        destruct (Z.ltb_spec 0 (numberHops b)); [done|lia].
      * rewrite decide_False by naive_solver. done.
Qed.

(** ** A request for a new update *)
Definition doVal (hdr : BasicHeader_VerifyRequest) : bool :=
  is_set (flags hdr) SRX_FLAG_ROA || is_set (flags hdr) SRX_FLAG_BGPSEC || is_set (flags hdr) SRX_FLAG_ASPA.

(** The packet [pkt] of the client [c] is an IPv4 request with the header [hdr] for
    the prefix [p] of [a] with the path data [b]; the identifier [id] of the update
    is not known, [pid] is the one of its path. *)
Record new_request st (client : positive) pkt hdr (c : Z) (m : ProxyMap.ProxyClientMapping) (p : IPPrefix) (a : Z)
    (b : BGPSecData) (id pid : Z) : Prop := {
  nr_cache : uc_wf (updCache st);
  nr_paths : AspathCache.ac_wf (aspathCache st);
  nr_thread : routerID <$> threads (net st) !! client = Some c;
  nr_client : client_ok c;
  nr_mapping : ProxyMap.proxyMap (svrConnHandler st) !! Z.to_nat c = Some m;
  nr_hdr : read_VerifyRequest pkt = Ok hdr;
  nr_type : type hdr = PDU_SRXPROXY_VERIFY_V4_REQUEST;
  nr_val : doVal hdr = true;
  nr_data : exists addr d, read_prefixAddress true pkt = Ok addr /\ read_ValReqData true pkt = Ok d
    /\ p = request_prefix true addr (prefixLen hdr) /\ b = request_bgpData true pkt d;
  nr_origin : read_originAS true pkt = Ok a;
  nr_bgp : bgp_ok b;
  nr_hops : 0 <= numberHops b < 256;
  nr_id : generateIdentifier a p b = Ok id;
  nr_unknown : uc_get (updCache st) id = None;
  nr_pid : AspathCache.makePathId (numberHops b) (asPath b) (asType hdr) true = Ok pid
}.

(** The entry of the update, its result for the proxy, and the caches after it. *)
Definition request_default hdr (k : known) : SRxDefaultResult :=
  default_roa_bgpsec (defRes k) (roaResSrc hdr) (bgpsecResSrc hdr) (roaDefRes hdr) (bgpsecDefRes hdr).
Definition stored_aspa (k : known) : Z :=
  match cached_aspa k with
  | Some a => if a =? SRx_RESULT_DONOTUSE then SRx_RESULT_UNDEFINED else a
  | None => SRx_RESULT_UNDEFINED
  end.
Definition request_entry st hdr (now c id a pid : Z) p b : UpdateCache.CacheEntry :=
  let k := path_known st hdr pid in
  let e := new_entry (updCache st) now c id a pid (Some p) (Some (request_default hdr k)) b in
  UpdateCache.set_srxResult e (mkSRxResult SRx_RESULT_UNDEFINED SRx_RESULT_UNDEFINED (stored_aspa k)).
Definition request_result st hdr (pid : Z) : SRxResult :=
  mkSRxResult (roaDefRes hdr) (bgpsecDefRes hdr) (aspaResult (srxRes (path_known st hdr pid))).

Record requested st hdr now c m id a pid p b st1 : Prop := {
  rd_cache : uc_wf (updCache st1);
  rd_entries k : uc_get (updCache st1) k = if decide (k = id) then Some (request_entry st hdr now c id a pid p b) else uc_get (updCache st) k;
  rd_paths : AspathCache.ac_wf (aspathCache st1);
  rd_path k : AspathCache.ac_get (aspathCache st1) k
    = if decide (k = pid /\ AspathCache.ac_get (aspathCache st) pid = None /\ numberHops b <> 0)
      then Some (path_entry hdr b pid) else AspathCache.ac_get (aspathCache st) k;
  rd_handler : svrConnHandler st1 = ProxyMap.put_mapping (svrConnHandler st) c
                                      (ProxyMap.set_updateCount m (u32 (ProxyMap.updateCount m + 1)));
  rd_net : net st1 = net st;
  rd_queue : cmdQueue st1 = cmdQueue st
}.

Lemma set_clientMapping_eq st c m n : client_ok c -> ProxyMap.proxyMap (svrConnHandler st) !! Z.to_nat c = Some m ->
  set_clientMapping st c (Some n)
  = Ok (set_handler st (ProxyMap.put_mapping (svrConnHandler st) c (ProxyMap.set_updateCount m n))).
Proof. intros Hc Hm. unfold set_clientMapping, ProxyMap.get_mapping, arr_get. by rewrite Hm. Qed.
Lemma put_mapping_same h c m : ProxyMap.proxyMap h !! Z.to_nat c = Some m -> ProxyMap.put_mapping h c m = h.
Proof. intros Hm. unfold ProxyMap.put_mapping, ProxyMap.set_map. rewrite list_insert_id by done. by destruct h. Qed.

Lemma new_request_eq st now client pkt hdr c m p a b id pid ski' r : new_request st client pkt hdr c m p a b id pid ->
  ski_registerUpdate (skiCache st) id (bgpsec_path_attr b) = Ok (ski', r) ->
  exists st1, processValidationRequest st now client pkt = answer_request st1 client pkt hdr id (request_result st hdr pid)
    /\ requested st hdr now c m id a pid p b st1.
Proof.
  intros [Hw Hac Hct Hc Hm Hhdr Hty Hval (addr & d & Haddr & Hd & Hp & Hb) Ha Hbgp Hh Hid Hunk Hpid] Hski.
  apply fmap_Some in Hct as (ct & Hct & ->). unfold client_ok in Hc.
  unfold processValidationRequest. rewrite Hhdr. simpl_outcome. unfold deref. rewrite Hct. simpl_outcome.
  rewrite Hty, Z.eqb_refl, Haddr. simpl_outcome. rewrite Ha. simpl_outcome. rewrite Hd. simpl_outcome.
  rewrite <- Hp, <- Hb, Hid. simpl_outcome. cbn [resolve_collision collision_fuel].
  rewrite detectCollision_unknown by done. simpl_outcome. fold (doVal hdr). rewrite Hval.
  assert (clientMapping st (routerID ct) = Ok (Some (ProxyMap.updateCount m))) as Hcm.
  { unfold clientMapping, ProxyMap.get_mapping, arr_get. replace (0 <? routerID ct) with true by lia. by rewrite Hm. }
  rewrite Hcm. simpl_outcome. rewrite getUpdateResult_unknown by done. simpl_outcome.
  assert (set_updCache st (updCache st) = st) as -> by by destruct st.
  rewrite (set_clientMapping_eq _ _ m) by done. simpl_outcome.
  assert (ProxyMap.set_updateCount m (ProxyMap.updateCount m) = m) as -> by by destruct m.
  rewrite put_mapping_same by done. assert (set_handler st (svrConnHandler st) = st) as -> by by destruct st.
  cbn [UpdateCache.q_found UpdateCache.q_result UpdateCache.q_default UpdateCache.q_pathId negb].
  change (default 0 None) with 0.
  destruct (lookup_path_new st hdr b pid Hac Hbgp Hh Hpid) as (ac' & E & Hac' & Hg). rewrite E. simpl_outcome.
  set (k := path_known st hdr pid). assert (pathId k = pid) as Hkp by (subst k; unfold path_known; by destruct (cached st pid)).
  unfold store_update. change (clientMapping (set_aspathCache st ac') (routerID ct)) with (clientMapping st (routerID ct)).
  rewrite Hcm. simpl_outcome. rewrite Hkp.
  pose proof (storeUpdate_eq (updCache st) (skiCache st) ski' r now (routerID ct) (ProxyMap.updateCount m) id (Some p) a
    (Some (request_default hdr k)) b pid Hw ltac:(right; unfold client_ok; lia) Hbgp Hski) as Hs.
  rewrite Hunk in Hs. destruct Hs as (u1 & Es & Hw1 & Hg1). change (updCache (set_aspathCache st ac')) with (updCache st).
  change (skiCache (set_aspathCache st ac')) with (skiCache st). fold (request_default hdr k). rewrite Es.
  simpl_outcome. replace (routerID ct =? 0) with false by lia.
  rewrite (set_clientMapping_eq _ _ m) by done. simpl_outcome. cbn [Z.eqb].
  set (st1 := set_handler _ _). set (e := new_entry (updCache st) now (routerID ct) id a pid (Some p) (Some (request_default hdr k)) b) in *.
  assert (uc_get (updCache st1) id = Some e) as He by (change (updCache st1) with u1; by rewrite Hg1, decide_True).
  cbn [srxRes cached_aspa].
  assert (exists u2, (match cached_aspa k with
                      | None => Ok st1
                      | Some a0 => '(u, _) ← UpdateCache.modifyUpdateCacheResultWithAspaVal (updCache st1) id
                                     (with_aspa (mkSRxResult (roaDefRes hdr) (bgpsecDefRes hdr) (aspaResult (srxRes k))) a0);
                                   Ok (set_updCache st1 u)
                      end) = Ok (set_updCache st1 u2)
    /\ uc_wf u2 /\ forall j, uc_get u2 j = if decide (j = id) then Some (request_entry st hdr now (routerID ct) id a pid p b)
                                           else uc_get (updCache st) j) as (u2 & E2 & Hw2 & Hg2).
  { unfold request_entry. fold k e. unfold stored_aspa. destruct (cached_aspa k) as [x|].
    - pose proof (modifyUpdateCacheResultWithAspaVal_eq (updCache st1) id
        (with_aspa (mkSRxResult (roaDefRes hdr) (bgpsecDefRes hdr) (aspaResult (srxRes k))) x) Hw1) as Hmod.
      rewrite He in Hmod. destruct Hmod as (u2 & E2 & Hw2 & _ & _ & Hg2). rewrite E2. simpl_outcome.
      exists u2. split; [done|]. split; [done|]. intros j. rewrite Hg2. cbn [aspaResult with_aspa].
      change (updCache st1) with u1. rewrite Hg1. change (UpdateCache.srxResult e) with UpdateCache.undefined_result.
      cbn [aspaResult roaResult bgpsecResult UpdateCache.undefined_result].
      destruct (decide (j = id)) as [->|Hne]; [|by rewrite decide_False by (by intros [? _])].
      destruct (Z.eqb_spec x SRx_RESULT_DONOTUSE) as [->|Hx1]; cbn [negb andb].
      { rewrite decide_False by (by intros [_ ?]). done. }
      destruct (Z.eqb_spec x SRx_RESULT_UNDEFINED) as [->|Hx2]; cbn [negb].
      { rewrite decide_False by (by intros [_ ?]). done. }
      by rewrite decide_True.
    - exists u1. assert (set_updCache st1 u1 = st1) as -> by done. split; [done|]. split; [done|]. intros j. rewrite Hg1. by case_decide. }
  rewrite E2. simpl_outcome. exists (set_updCache st1 u2). split; [done|]. split; try done.
Qed.

(** ** The answer *)
Definition requested_flags hdr : Z :=
  Z.lor (Z.lor (if is_set (flags hdr) SRX_FLAG_ROA then SRX_FLAG_ROA else 0)
           (if is_set (flags hdr) SRX_FLAG_BGPSEC then SRX_FLAG_BGPSEC else 0))
    (if is_set (flags hdr) SRX_FLAG_ASPA then SRX_FLAG_ASPA else 0).

Lemma send_flags_new st hdr pid : doVal hdr = true ->
  (Z.land (flags hdr) SRX_FLAG_REQUEST_RECEIPT = 0 -> send_flags hdr (request_result st hdr pid) = 0)
  /\ (Z.land (flags hdr) SRX_FLAG_REQUEST_RECEIPT = SRX_FLAG_REQUEST_RECEIPT ->
      send_flags hdr (request_result st hdr pid) = Z.lor SRX_FLAG_REQUEST_RECEIPT (requested_flags hdr)
      /\ Z.land (Z.lor SRX_FLAG_REQUEST_RECEIPT (requested_flags hdr)) SRX_FLAG_ROA_BGPSEC_ASPA = requested_flags hdr
      /\ 0 < requested_flags hdr < 8).
Proof.
  unfold doVal, send_flags, request_result, requested_flags. cbn [roaResult bgpsecResult]. rewrite !Z.eqb_refl.
  cbn [negb]. rewrite !andb_false_r. intros Hval. split; intros ->; [done|]. change (0 <? SRX_FLAG_REQUEST_RECEIPT) with true. cbv iota.
  destruct (is_set (flags hdr) SRX_FLAG_ROA), (is_set (flags hdr) SRX_FLAG_BGPSEC), (is_set (flags hdr) SRX_FLAG_ASPA); try done;
    (split; [reflexivity|]; split; [reflexivity|]; vm_compute; split; (reflexivity || discriminate)).
Qed.

(** The first request for an update that asks for no receipt stores the update,
    its path and its defaults, and registers the client; but nothing is sent and no
    command is queued, so that the update is not validated. *)
Theorem new_request_without_receipt st now client pkt hdr c m p a b id pid ski' r :
  new_request st client pkt hdr c m p a b id pid -> ski_registerUpdate (skiCache st) id (bgpsec_path_attr b) = Ok (ski', r) ->
  Z.land (flags hdr) SRX_FLAG_REQUEST_RECEIPT = 0 ->
  exists st1, processValidationRequest st now client pkt = Ok (st1, true) /\ requested st hdr now c m id a pid p b st1.
Proof.
  intros Hr Hski Hrec. destruct (new_request_eq st now client pkt hdr c m p a b id pid ski' r Hr Hski) as (st1 & E & Hst1).
  exists st1. split; [|done]. rewrite E. unfold answer_request. fold (doVal hdr).
  destruct (send_flags_new st hdr pid (nr_val _ _ _ _ _ _ _ _ _ _ _ Hr)) as [Hf _]. rewrite (Hf Hrec). change (0 <? 0) with false.
  simpl_outcome. change (0 <? Z.land 0 SRX_FLAG_ROA_BGPSEC_ASPA) with false. by rewrite andb_false_r.
Qed.




(** The identifier of a path does not depend on the relationship to the neighbour:
    for a new update whose path is already in the AS path cache, the result of the
    entry stands, whatever direction the request asks for and whatever ASPA result
    the router has determined; the entry of the path keeps its direction, and the
    default that the router sent is not recorded. *)
Theorem cached_path_wins st now client pkt hdr c m p a b id pid ski' r pe :
  new_request st client pkt hdr c m p a b id pid -> ski_registerUpdate (skiCache st) id (bgpsec_path_attr b) = Ok (ski', r) ->
  pid <> 0 -> AspathCache.ac_get (aspathCache st) pid = Some pe ->
  exists st1 e, processValidationRequest st now client pkt
      = answer_request st1 client pkt hdr id (mkSRxResult (roaDefRes hdr) (bgpsecDefRes hdr) (AspathCache.e_aspaResult pe))
    /\ AspathCache.ac_get (aspathCache st1) pid = Some pe
    /\ uc_get (updCache st1) id = Some e
    /\ (AspathCache.e_aspaResult pe <> SRx_RESULT_DONOTUSE -> aspaResult (UpdateCache.srxResult e) = AspathCache.e_aspaResult pe)
    /\ resSourceASPA (UpdateCache.defaultResult e) = SRxRS_DONOTUSE
    /\ aspaResult (result (UpdateCache.defaultResult e)) = SRx_RESULT_DONOTUSE.
Proof.
  intros Hr Hski Hpid Hpe. destruct (new_request_eq st now client pkt hdr c m p a b id pid ski' r Hr Hski) as (st1 & E & Hst1).
  assert (path_known st hdr pid = mkKnown (with_aspa UpdateCache.undefined_result (AspathCache.e_aspaResult pe)) UpdateCache.donotuse_default pid
            (if AspathCache.e_aspaResult pe =? SRx_RESULT_UNDEFINED then None else Some (AspathCache.e_aspaResult pe))) as Hk.
  { unfold path_known, cached. rewrite (proj2 (Z.eqb_neq _ _) Hpid), Hpe. done. }
  exists st1, (request_entry st hdr now c id a pid p b). split.
  - rewrite E. unfold request_result. by rewrite Hk.
  - split; [rewrite (rd_path _ _ _ _ _ _ _ _ _ _ _ Hst1); by rewrite decide_False by (intros (_ & ? & _); congruence)|].
    split; [rewrite (rd_entries _ _ _ _ _ _ _ _ _ _ _ Hst1); by rewrite decide_True|].
    unfold request_entry. rewrite Hk. unfold stored_aspa. cbn [cached_aspa]. split; [|done].
    intros Hne. cbn. destruct (Z.eqb_spec (AspathCache.e_aspaResult pe) SRx_RESULT_UNDEFINED) as [->|]; [done|].
    by rewrite (proj2 (Z.eqb_neq _ _) Hne).
Qed.
End requests.
End RequestTheorems.
