(* ===== verification/Connections.v ===== *)
(** * Connections: notifications, goodbye, and a connection that ends late *)
From S2P Require Import Prelude Locks SrxDefs UtHash UpdateCache UpdateCacheLemmas UpdateCacheTheorems.
From S2P Require Import Patricia PrefixCache CommandQueue.
From S2P Require Import SrxPackets PacketSender ProxyMap ProxyMapTheorems BgpsecHandler Server.
From S2P Require Import ValidationRequest CommandHandler.

Module Connections.
Import SrxPackets PacketSender ProxyMap ProxyMapTheorems Server ServerLemmas CommandHandler UpdateCacheLemmas UpdateCacheTheorems.

Section connections.
Context {H K T N : Type} `{UTHashLaws H} `{SkiUpdates K} `{Countable N} `{Patricia T N} `{BgpsecHandler.SRxCryptoAPI}.
Implicit Types (st : Core H K) (v : SRxValidationResult) (c : positive).

Lemma elem_of_listeners h n ids s : s ∈ listeners h n ids <-> exists k, k ∈ ids /\ listener h n k = Some s.
Proof.
  unfold listeners. rewrite list_elem_of_omap. by setoid_rewrite elem_of_reverse.
Qed.

(** C5 A changed result is written to exactly the clients that are registered for
    the update, have an active mapping and whose thread runs; without a registered
    client nothing is to be done.  When more clients were registered than the update
    cache reserves at first, no client is told. *)
Theorem broadcastResult_correct st v e :
  UpdateCacheTheorems.uc_wf (updCache st) -> conn_ok (svrConnHandler st) (net st) -> uc_get (updCache st) (valUpdateID v) = Some e ->
  if UpdateCache.noPossibleClients e <=? u8 (UpdateCache.minNumberOfClients (updCache st)) then
    exists l, broadcastResult st v
        = Ok (set_net st (add_wire (net st) l (result_pdu v)), bool_decide (client_list e = []) || negb (bool_decide (l = [])))
      /\ forall s, s ∈ l <-> exists k m ct, k ∈ client_list e /\ proxyMap (svrConnHandler st) !! Z.to_nat k = Some m
           /\ isActive m = true /\ socket m = Some s /\ threads (net st) !! s = Some ct /\ active ct = true
  else broadcastResult st v = Ok (st, false).
Proof.
  intros Hw Hc He. pose proof (broadcastResult_eq st v Hw Hc) as E. unfold broadcast, broadcast_ok, audience in E. rewrite He in E.
  destruct (_ <=? _); [|by rewrite E, set_net_id]. eexists. split; [exact E|]. intros s. rewrite elem_of_listeners.
  unfold listener, is_active. split.
  - intros (k & Hk & Hs). destruct (proxyMap _ !! _) as [m|] eqn:Hm; [|done]. cbn in Hs. destruct (isActive m) eqn:Ha; [|done].
    destruct (socket m) as [s'|] eqn:Hso; [|done]. cbn in Hs. destruct (threads _ !! s') as [ct|] eqn:Hct; [|done].
    destruct (active ct) eqn:Hact; [|done]. injection Hs as ->. by exists k, m, ct.
  - intros (k & m & ct & Hk & Hm & Ha & Hso & Hct & Hact). exists k. split; [done|]. rewrite Hm. cbn. rewrite Ha, Hso. cbn.
    by rewrite Hct, Hact.
Qed.

(** ** A connection that ends *)
Lemma close_client_eq st c ct : threads (net st) !! c = Some ct ->
  close_client st c = Ok (set_net st (mkNet (<[c := set_active ct false]> (threads (net st)))
                            (delete_client c (cthreads (net st))) (SEND_QUEUE (net st)) (wire (net st)))).
Proof.
  intros Hc. unfold close_client, closeClientConnection, _killClientThread, deref. rewrite Hc. simpl_outcome.
  destruct (active ct) eqn:Ha; [done|]. assert (set_active ct false = ct) as -> by (destruct ct; cbn in *; by subst).
  by rewrite insert_id.
Qed.

Lemma end_connection_eq st now c ct m keep uc' : threads (net st) !! c = Some ct -> 0 <= routerID ct ->
  proxyMap (svrConnHandler st) !! Z.to_nat (routerID ct) = Some m ->
  unregistered_by (updCache st) (routerID ct) (updateCount m) (keep_window (svrConnHandler st) keep) uc' ->
  end_connection st now c keep
  = Ok (set_net (set_handler (set_updCache st uc')
          (set_clients (put_mapping (svrConnHandler st) (routerID ct) (deactivated m now false)) (delete_client c (clients (svrConnHandler st)))))
          (mkNet (<[c := set_active ct false]> (threads (net st))) (delete_client c (cthreads (net st))) (SEND_QUEUE (net st)) (wire (net st)))).
Proof.
  intros Hc Hr Hm Hu. unfold end_connection. rewrite (close_client_eq _ _ ct) by done. simpl_outcome. unfold deref.
  cbn [net set_net threads]. rewrite lookup_insert_eq. simpl_outcome. cbn [routerID set_active svrConnHandler set_net updCache].
  rewrite (deactivate_eq _ _ uc' _ _ m) by done. simpl_outcome. by destruct st.
Qed.

(** A goodbye closes the connection of its client and ends its mapping: the
    client loses every update it is registered for, and the client identifier is
    free again unless the mapping is configured.  For the clients below 64 whose
    update count is right. *)
Theorem goodbye_correct (self : CommandHandler H K T N) now item pkt c ct m keep :
  let st := core self in let k := routerID ct in
  CommandQueue.idata item = Some pkt -> CommandQueue.client item = Some c -> goodbye_keepWindow pkt = Ok keep ->
  threads (net st) !! c = Some ct -> client_ok k -> k < 64 -> proxyMap (svrConnHandler st) !! Z.to_nat k = Some m ->
  UpdateCacheTheorems.uc_wf (updCache st) ->
  updateCount m = Z.of_nat (refs (UpdateCache.entries (updCache st)) k (UpdateCache.allItems (updCache st))) -> updateCount m < 2 ^ 32 ->
  exists u' t, let h' := set_clients (put_mapping (svrConnHandler st) k (deactivated m now false)) (delete_client c (clients (svrConnHandler st))) in
    let n' := mkNet (<[c := set_active ct false]> (threads (net st))) (delete_client c (cthreads (net st))) (SEND_QUEUE (net st)) (wire (net st)) in
    handle_proxy_command self now PDU_SRXPROXY_GOODBYE item = Ok (set_core self (set_net (set_handler (set_updCache st u') h') n'))
    /\ (forall i, match uc_get (updCache st) i with
                  | None => uc_get u' i = None
                  | Some e => exists e', uc_get u' i = Some e' /\ left_by k t e e'
                  end)
    /\ proxyMap h' !! Z.to_nat k = Some (mkProxyClientMapping (if preDefined m then proxyID m else 0) None false (preDefined m) 0 0).
Proof.
  intros st k Hd Hi Hkeep Hc Hk Hk64 Hm Hw Hcount Hmax. unfold client_ok in Hk.
  assert (exists u' t, unregistered_by (updCache st) k (updateCount m) (keep_window (svrConnHandler st) keep) u'
    /\ forall i, match uc_get (updCache st) i with
                 | None => uc_get u' i = None
                 | Some e => exists e', uc_get u' i = Some e' /\ left_by k t e e'
                 end) as (u' & t & Hu & Hleft).
  { pose proof (unregisterClientID_eq (updCache st) k (keep_window (svrConnHandler st) keep) Hw Hk) as Hun.
    cbv zeta in Hun. rewrite <- Hcount in Hun. destruct (Hun Hmax) as [Hlow _]. destruct (Hlow Hk64) as (u' & Eu & _ & Hl).
    unfold unregistered_by. destruct (Z.ltb_spec 0 (updateCount m)) as [Hpos|Hz].
    - exists u', (u16 (keep_window (svrConnHandler st) keep)). split; [by eexists _, _|done].
    - exists (updCache st), 0. split; [done|].
      assert (entries_live (UpdateCache.entries (updCache st)) (UpdateCache.allItems (updCache st))) as Hlive.
      { intros p Hp. rewrite <- (uw_items _ Hw) in Hp. apply list_elem_of_fmap in Hp as ([j q] & -> & Hjq).
        destruct (kt_items _ _ _ _ (uw_table _ Hw) j q Hjq) as (e & He & _ & Hcl & _). by exists e. }
      destruct (unregistered_wf (updCache st) k 0 (UpdateCache.entries (updCache st)) Hw) as [_ Hl']; [apply unregistered_absent; [done|lia]|].
      intros i. specialize (Hl' i). by destruct (updCache st). }
  exists u', t. cbv zeta. unfold handle_proxy_command, item_data, item_client. rewrite Hd, Hi.
  change (PDU_SRXPROXY_GOODBYE =? PDU_SRXPROXY_HELLO) with false. change (PDU_SRXPROXY_GOODBYE =? PDU_SRXPROXY_VERIFY_V4_REQUEST) with false.
  change (PDU_SRXPROXY_GOODBYE =? PDU_SRXPROXY_VERIFY_V6_REQUEST) with false. change (PDU_SRXPROXY_GOODBYE =? PDU_SRXPROXY_SIGN_REQUEST) with false.
  change (PDU_SRXPROXY_GOODBYE =? PDU_SRXPROXY_GOODBYE) with true. cbn [orb]. simpl_outcome. rewrite Hkeep. simpl_outcome.
  rewrite (end_connection_eq _ _ _ ct m keep u') by (done || lia). simpl_outcome. split; [done|]. split; [done|].
  cbn [proxyMap put_mapping set_map set_clients]. rewrite list_lookup_insert_eq by (by eapply lookup_lt_Some).
  unfold deactivated. cbn. rewrite andb_true_r. by destruct (preDefined m).
Qed.

(** The thread of a connection that said goodbye still has its client identifier.
    When it ends after the identifier went to another connection, it ends the mapping
    of that connection, which gets no notification any more. *)
Theorem late_disconnect st now old ct new m uc' :
  threads (net st) !! old = Some ct -> 0 <= routerID ct ->
  proxyMap (svrConnHandler st) !! Z.to_nat (routerID ct) = Some m -> socket m = Some new -> new <> old -> isActive m = true ->
  unregistered_by (updCache st) (routerID ct) (updateCount m)
    (keep_window (svrConnHandler st) (u16 (defaultKeepWindow (sysConfig (svrConnHandler st))))) uc' ->
  exists st' m', ValidationRequest.clientThreadCleanup st now old = Ok st'
    /\ proxyMap (svrConnHandler st') !! Z.to_nat (routerID ct) = Some m' /\ isActive m' = false /\ socket m' = None
    /\ listener (svrConnHandler st') (net st') (routerID ct) = None
    /\ is_active (net st') new = is_active (net st) new.
Proof.
  intros Hct Hr Hm Hs Hne Ha Hu. unfold ValidationRequest.clientThreadCleanup, ValidationRequest.handle_disconnect, deref.
  rewrite Hct. simpl_outcome. cbn [proxyMap set_clients inShutdown sysConfig].
  rewrite (deactivate_eq _ _ uc' _ _ m); [|done|done|exact Hu]. simpl_outcome. cbn [net set_net threads]. rewrite Hct. simpl_outcome.
  pose proof (lookup_lt_Some _ _ _ Hm) as Hlt.
  eexists _, _. split; [done|]. cbn [svrConnHandler set_net set_updCache set_handler net threads set_threads].
  split; [cbn [proxyMap put_mapping set_map set_clients]; by apply list_lookup_insert_eq|]. split; [done|]. split; [done|]. split.
  - unfold listener. cbn [proxyMap put_mapping set_map set_clients]. by rewrite list_lookup_insert_eq.
  - unfold is_active, set_threads. cbn [threads]. rewrite lookup_insert_ne; [done|by apply not_eq_sym].
Qed.
End connections.
End Connections.
