(* ===== verification/RpkiHandler.v ===== *)
(** * RPKI handler (server/rpki_handler.c)

    The handler is the user of the client of the RPKI-to-router protocol: its
    callbacks pass prefixes to the prefix cache, router keys to the crypto library
    and the SKI cache, and ASPA objects to the ASPA database, and process the end
    of the data. *)
From S2P Require Import Prelude Bytes Locks SrxDefs BgpsecPath RpkiQueue AspaTrie UtHash AspathCache.
From S2P Require Import UpdateCache UpdateCacheTheorems HashMessage KeyStorage KeyStorageTheorems.
From S2P Require Import BgpsecOpenssl BgpsecHandler AspaPdu ClientSocket RtrClient RtrClientTheorems.
From S2P Require Import RtrSession EndOfData EndOfDataAll SkiCache SkiCacheLemmas SkiRegister Patricia PrefixCache.
From S2P Require Import PrefixTree PrefixInv PrefixAnnounce PrefixSpec RoaNotify.

Module RpkiHandler.
Import BgpsecPath HashMessage KeyStorage RtrClient.
#[local] Existing Instance RoaNotify.server_sink.

Section handler.
Context {H T N E : Type} `{UTHashLaws H} `{Countable N} `{Patricia T N} `{BgpsecOpenssl.Openssl E}.


(** The handler with what it reaches: the prefix cache, the server's caches, its
    queue and notifications, the SKI cache, the crypto library, the address of the
    next ASPA object and the time. *)
Record RPKIHandler := mkHandler {
  prefixCache : PrefixCache.PrefixCache T N;
  server : EndOfData.Server H;
  sCache : SkiCache.SKI_CACHE;
  srxCAPI : BgpsecOpenssl.Bossl E;
  nextObject : Z;
  clock : Z
}.
Implicit Types (self : RPKIHandler).

Definition set_server self st := mkHandler (prefixCache self) st (sCache self) (srxCAPI self) (nextObject self) (clock self).
Definition set_prefixes self c st := mkHandler c st (sCache self) (srxCAPI self) (nextObject self) (clock self).
Definition set_keys self st k c := mkHandler (prefixCache self) st k c (nextObject self) (clock self).

(** The part of the server the prefix cache stores its results in. *)
Definition roa_server (st : EndOfData.Server H) : RoaNotify.Server H :=
  RoaNotify.mkServer (EndOfData.uCache st) (EndOfData.rQueue st) (EndOfData.notified st).
Definition with_roa_server (st : EndOfData.Server H) (r : RoaNotify.Server H) : EndOfData.Server H :=
  EndOfData.mkServer (RoaNotify.updCache r) (RoaNotify.queue r) (EndOfData.aspaDBManager st) (EndOfData.aspathCache st) (RoaNotify.notified r).

Definition handlePrefix self (valCacheID session_id : Z) (isAnn : bool) (prefix : IPPrefix) (maxLen oas : Z) : outcome RPKIHandler :=
  '(c, r) ← PrefixCache.handlePrefix (prefixCache self) (roa_server (server self)) valCacheID session_id isAnn prefix maxLen oas;
  Ok (set_prefixes self c (with_roa_server (server self) r)).

(** Only an error message. *)
Definition handleReset self (valCacheID : Z) : outcome RPKIHandler := Ok self.

Definition KEEP_CONNECTION : bool := true.
Definition handleError self (errNo : Z) (msg : list Z) : outcome (RPKIHandler * bool) := Ok (self, KEEP_CONNECTION).

Definition RECONNECT_DELAY : Z := 30.
Definition handleConnection self : outcome (RPKIHandler * Z) := Ok (self, RECONNECT_DELAY).

Definition getAlgoID (keyInfo : list Z) : Z := SCA_ECDSA_ALGORITHM.

Definition handleRouterKey self (valCacheID session_id : Z) (isAnn : bool) (asn : Z) (ski keyInfo : list Z) : outcome RPKIHandler :=
  let algoID := getAlgoID keyInfo in
  if algoID =? SCA_ECDSA_ALGORITHM then
    ski ← read_bytes ski 0 SKI_LENGTH;
    keyData ← read_bytes keyInfo 0 ECDSA_PUB_KEY_DER_LENGTH;
    let bsKey := mkBGPSecKey algoID (ntohl asn) ski (Z.of_nat ECDSA_PUB_KEY_DER_LENGTH) (Some keyData) in
    let st := server self in
    if isAnn then
      '(api, res, _) ← BgpsecOpenssl.registerPublicKey (srxCAPI self) bsKey (Some API_STATUS_OK);
      if res =? API_SUCCESS then
        '(k, q, _) ← SkiCache.ski_registerKey (sCache self) (EndOfData.rQueue st) asn ski algoID;
        Ok (set_keys self (EndOfData.set_rQueue st q) k api)
      else Ok (set_keys self st (sCache self) api)
    else
      '(api, _, _) ← BgpsecOpenssl.unregisterPublicKey (srxCAPI self) bsKey (Some API_STATUS_OK);
      '(k, q, _) ← SkiCache.ski_unregisterKey (sCache self) (EndOfData.rQueue st) asn ski algoID;
      Ok (set_keys self (EndOfData.set_rQueue st q) k api)
  else Ok self.

(** The callback for ASPA objects; the object is allocated at [nextObject]. *)
Definition cbHandleAspaPdu self (cusAsn pAsCount : Z) (provAsns : list Z) (addrFamilyType announce : Z)
    : outcome (RPKIHandler * Z) :=
  let st := server self in
  '(db, retVal) ← AspaPdu.handleAspaPdu (EndOfData.aspaDBManager st) (nextObject self) cusAsn pAsCount (Some provAsns) addrFamilyType announce;
  Ok (mkHandler (prefixCache self) (EndOfData.set_aspa st db (EndOfData.aspathCache st)) (sCache self) (srxCAPI self)
        (nextObject self + 1) (clock self), retVal).

(** The end of the data; paths are validated with the keys of this moment. *)
Definition handleEndOfData self (valCacheID session_id : Z) : outcome RPKIHandler :=
  st ← EndOfData.handleEndOfData
         (Some (@BgpsecHandler.validateSignature (BgpsecPlugin.openssl_api (srxCAPI self)))) (clock self) (server self);
  Ok (set_server self st).

(** [createRPKIHandler]: the parameters of the client.  What it does not set keeps
    the zero of a static variable. *)
Definition rrclParams (rpki_version : Z) : RPKIRouterClientParams RPKIHandler := {|
  RtrClient.prefixCallback := Some handlePrefix;
  RtrClient.routerKeyCallback := Some handleRouterKey;
  RtrClient.endOfDataCallback := Some handleEndOfData;
  RtrClient.resetCallback := Some handleReset;
  RtrClient.sessionIDChangedCallback := None;
  RtrClient.sessionIDEstablishedCallback := None;
  RtrClient.errorCallback := Some handleError;
  RtrClient.connectionCallback := Some handleConnection;
  RtrClient.cbHandleAspaPdu := Some cbHandleAspaPdu;
  RtrClient.p_version := rpki_version;
  RtrClient.allowDowngrade := false
|}.

(** [None] when the client cannot be created. *)
Definition createRPKIHandler (rpki_version : Z) (env : list ClientSocket.attempt) (resolved : bool) : option RPKIRouterClient :=
  createRPKIRouterClient (rrclParams rpki_version) env resolved.

End handler.
Arguments RPKIHandler _ _ _ _ {_ _}.
End RpkiHandler.

(** * What the server makes of the data of a validation cache

    The octets of a session against the specification of the prefix cache, and
    router keys and ASPA objects on their way into the caches. *)

Module RpkiHandlerTheorems.
Import BgpsecPath ClientSocket.ClientSocket RtrClient RtrClientTheorems RtrSession RpkiHandler.
Import UpdateCacheTheorems PrefixAnnounce PrefixSpec.
#[local] Existing Instance RoaNotify.server_sink.
#[local] Existing Instance RoaNotify.server_sink_laws.

Section handler.
Context {H T N E : Type} `{UTHashLaws H} `{Countable N} `{PatriciaLaws T N} `{BgpsecOpenssl.Openssl E}.
Context (garbage : nat -> Z) (rpki_version : Z).
Abbreviation params := (rrclParams (H := H) (T := T) (N := N) (E := E) rpki_version).
Implicit Types (client : RPKIRouterClient) (self : RPKIHandler H T N E) (p : pdu) (ds : list pdu) (vrps : list vrp) (us : list upd).

(** ** Origin results and the rest of the server

    What storing origin results leaves as it was, seen from the server [s0] before:
    the entries but for their origin results, and the promises of the queue. *)
Definition stored_in (s : RoaNotify.Server H) (id : Z) : Prop := is_Some (uc_get (RoaNotify.updCache s) id).
Record framed (s0 s : RoaNotify.Server H) : Prop := {
  fr_wf : RoaNotify.server_wf s;
  fr_get k : uc_get (RoaNotify.updCache s) k
             = (fun e => RoaNotify.with_roa e (default 0 (RoaNotify.roa_of s k))) <$> uc_get (RoaNotify.updCache s0) k;
  fr_ids : exists X : gset Z, 2 * Z.of_nat (base.size X) < 2 ^ 32 - 1 /\ (forall id, stored_in s id -> id ∈ X)
           /\ forall q id, RoaNotify.queue s = Some q -> id ∈ RpkiQueue.updateID <$> RpkiQueue.elems q -> id ∈ X;
  fr_keys q id r : RoaNotify.queue s = Some q -> RpkiQueue.queued (RpkiQueue.elems q) id = Some r ->
                   EndOfData.has r RpkiQueue.RQ_KEY = true -> stored_in s id
}.

Lemma queued_ids l id : id ∈ RpkiQueue.updateID <$> l <-> RpkiQueue.queued l id <> None.
Proof. rewrite RpkiQueue.queued_None. split; [intros Hi Hn; by destruct Hn|]. intros Hn. by destruct (decide (id ∈ RpkiQueue.updateID <$> l)). Qed.

Lemma framed_notify s0 s id res sup : framed s0 s -> is_Some (RoaNotify.roa_of s id) -> res <> SRx_RESULT_DONOTUSE ->
  exists s', RoaNotify.notifyUpdateCacheForROAChange s id res sup = Ok s' /\ framed s0 s'
    /\ forall k, RoaNotify.roa_of s' k = if decide (k = id) then Some res else RoaNotify.roa_of s k.
Proof.
  intros [F1 F2 (X & HX & HX1 & HX2) F4] [z Hz] Hres. unfold RoaNotify.roa_of in Hz. apply fmap_Some in Hz as (e & He & _).
  destruct (RoaNotify.notify_eq s id e res sup F1 He Hres) as (s' & En & Hw & Hg & _ & Hq).
  assert (forall k, RoaNotify.roa_of s' k = if decide (k = id) then Some res else RoaNotify.roa_of s k) as Hroa.
  { intros k. unfold RoaNotify.roa_of. rewrite Hg. by case_decide. }
  assert (forall k, stored_in s' k <-> stored_in s k) as Hst.
  { intros k. unfold stored_in. rewrite Hg. case_decide as Ek; [subst; rewrite He; split; intros _; by eexists|done]. }
  assert (forall q' k r, RoaNotify.queue s' = Some q' -> RpkiQueue.queued (RpkiQueue.elems q') k = Some r ->
    (k = id) \/ exists q, RoaNotify.queue s = Some q /\ RpkiQueue.queued (RpkiQueue.elems q) k = Some r) as Hqd.
  { intros q' k r Hq' Hk. destruct sup; [|right; exists q'; by rewrite <- Hq].
    destruct Hq as (q & q'' & Hq0 & Hq1 & Hqk). rewrite Hq' in Hq1. injection Hq1 as <-. rewrite Hqk in Hk.
    case_decide as Ek; [by left|]. right. by exists q. }
  exists s'. split; [done|]. split; [|done]. split; [done| | |].
  - intros k. rewrite Hg, Hroa. case_decide as Ek; [|apply F2]. subst k.
    rewrite F2 in He. destruct (uc_get (RoaNotify.updCache s0) id) as [e0|]; [|done]. injection He as <-. done.
  - exists X. split; [done|]. split; [intros k Hk; by apply HX1, Hst|]. intros q' k Hq' Hk%queued_ids.
    destruct (RpkiQueue.queued (RpkiQueue.elems q') k) as [r|] eqn:Er; [|done].
    destruct (Hqd q' k r Hq' Er) as [->|(q & Hq0 & Hk0)]; [by apply HX1; exists e|].
    apply (HX2 q k Hq0), queued_ids. by rewrite Hk0.
  - intros q' k r Hq' Hk Hkey. apply Hst. destruct (Hqd q' k r Hq' Hk) as [->|(q & Hq0 & Hk0)]; [by exists e|].
    by apply (F4 q k r).
Qed.

#[local] Instance framed_laws s0 : RoaSinkLaws (RoaNotify.Server H) | 100 := {|
  rs_wf := framed s0;
  roa_result := RoaNotify.roa_of;
  rs_notify := framed_notify s0
|}.

(** The refinement with either promise of the sink. *)
Lemma refines_framed vrps us (c : PrefixCache.PrefixCache T N) s0 s :
  @refines T N _ _ _ _ _ _ RoaNotify.server_sink_laws vrps us c s -> framed s0 s ->
  @refines T N _ _ _ _ _ _ (framed_laws s0) vrps us c s.
Proof. intros [[P1 P2 P3 P4 P5 P6 _ P8 P9] HR HU] Hf. by split; [split|..]. Qed.
Lemma framed_refines vrps us (c : PrefixCache.PrefixCache T N) s0 s :
  @refines T N _ _ _ _ _ _ (framed_laws s0) vrps us c s ->
  @refines T N _ _ _ _ _ _ RoaNotify.server_sink_laws vrps us c s /\ framed s0 s.
Proof. intros [[P1 P2 P3 P4 P5 P6 P7 P8 P9] HR HU]. split; [|done]. split; [split; try done; apply P7|done|done]. Qed.

(** ** Prefixes *)

(** The white-list entry of a prefix PDU: whether it is announced, the prefix, the
    maximum length and the origin. *)
Definition pdu_prefix p : option (bool * IPPrefix * Z * Z) :=
  match p with
  | IPv4Prefix fl pl ml addr asn => Some (announced fl, prefix_of garbage 4 addr pl, ml, asn)
  | IPv6Prefix fl pl ml addr asn => Some (announced fl, prefix_of garbage 6 addr pl, ml, asn)
  | _ => None
  end.
(** The announced VRPs after a PDU of the cache [cache]; documentation AS numbers
    are refused. *)
Definition vrps_after (cache : Z) vrps p : list vrp :=
  match pdu_prefix p with
  | Some (ann, prefix, ml, asn) =>
      let v := mkVrp (prefix_key prefix) (u8 ml) asn cache in
      if ann : bool then if PrefixCache.belongsToRfc5398 asn then vrps else vrps ++ [v] else withdraw v vrps
  | None => vrps
  end.

Definition prefixes_refine vrps us self : Prop := refines vrps us (prefixCache self) (roa_server (server self)).

(** The counters have room at every step, and every prefix is well-formed. *)
Fixpoint roomy client self ds : Prop :=
  match ds with
  | [] => True
  | p :: ds =>
      match pdu_prefix p with
      | Some (_, prefix, ml, _) => PrefixInv.room (prefixCache self) /\ prefix_ok (PrefixCache.ipPrefixToPrefix_t prefix)
                                   /\ length_bits prefix <= u8 ml
      | None => True
      end
      /\ match apply_data garbage params client self p with Ok self' => roomy client self' ds | Fault _ => True end
  end.

Lemma apply_prefix client self p ann prefix ml asn : pdu_prefix p = Some (ann, prefix, ml, asn) ->
  apply_data garbage params client self p
  = handlePrefix self (routerClientID client) (u16 (sessionID client)) ann prefix ml asn.
Proof. destruct p; cbn [pdu_prefix]; try done; by intros [= <- <- <- <-]. Qed.

Lemma roa_server_same (st : EndOfData.Server H) r : roa_server (with_roa_server st r) = r.
Proof. by destruct r. Qed.

(** What announcing prefixes leaves alone. *)
Definition same_rest self self' : Prop :=
  EndOfData.aspaDBManager (server self') = EndOfData.aspaDBManager (server self)
  /\ EndOfData.aspathCache (server self') = EndOfData.aspathCache (server self)
  /\ srxCAPI self' = srxCAPI self /\ clock self' = clock self.

Lemma apply_prefixes client s0 ds : forall self vrps us,
  prefixes_refine vrps us self -> framed s0 (roa_server (server self)) ->
  roomy client self ds -> Forall (fun p => is_Some (pdu_prefix p)) ds ->
  exists self', apply_all garbage params client self ds = Ok self'
    /\ prefixes_refine (foldl (vrps_after (routerClientID client)) vrps ds) us self'
    /\ framed s0 (roa_server (server self')) /\ same_rest self self'.
Proof.
  induction ds as [|p ds IH]; intros self vrps us Hr Hf Hroom Hp; [by exists self|]. cbn [roomy apply_all foldl] in *.
  apply Forall_cons in Hp as [[[[[ann prefix] ml] asn] Ep] Hp]. rewrite Ep in Hroom.
  destruct Hroom as [(Hrm & Hok & Hl) Hroom]. rewrite (apply_prefix _ _ _ _ _ _ _ Ep) in *. unfold handlePrefix in *.
  pose proof (refines_framed _ _ _ _ _ Hr Hf) as Hrf.
  destruct (@handlePrefix_correct T N _ _ _ _ _ _ (framed_laws s0) vrps us _ _ (routerClientID client) (u16 (sessionID client))
    ann prefix ml asn Hrf Hrm Hok Hl) as (c & s & E1 & Hr1). apply framed_refines in Hr1 as [Hr' Hf'].
  rewrite E1 in *. cbn [mbind outcome_bind] in *. unfold vrps_after at 2. rewrite Ep.
  edestruct IH as (self' & E2 & Hr2 & Hf2 & R1 & R2 & R3 & R4); [| |exact Hroom|exact Hp|].
  - unfold prefixes_refine. cbn [prefixCache server set_prefixes]. rewrite roa_server_same. exact Hr'.
  - cbn [server set_prefixes]. rewrite roa_server_same. exact Hf'.
  - exists self'. split; [exact E2|]. split; [exact Hr2|]. split; [exact Hf2|]. by split.
Qed.

Lemma prefix_is_data v ds : Forall (fun p => is_Some (pdu_prefix p)) ds -> Forall (fun p => is_data v p = true) ds.
Proof. intros Hp. eapply Forall_impl; [exact Hp|]. intros p [x Ep]. by destruct p. Qed.

(** ** The end of the data after prefixes *)
Definition stored_updates self : nat := length (ut_items (UpdateCache.table (EndOfData.uCache (server self)))).

Lemma stored_ids (st : EndOfData.Server H) X : uc_wf (EndOfData.uCache st) ->
  (forall id, is_Some (uc_get (EndOfData.uCache st) id) -> id ∈ X) ->
  (length (ut_items (UpdateCache.table (EndOfData.uCache st))) <= base.size (X : gset Z))%nat.
Proof.
  intros Hw HX. rewrite <- (length_fmap fst), <- length_reverse. apply RoaNotify.in_set_length.
  - rewrite reverse_Permutation. apply (uw_table _ Hw).
  - intros id Hid. apply HX. by apply (EndOfDataAll.stored_items st id Hw).
Qed.

Lemma ready_framed self q : EndOfDataAll.ready (server self) q ->
  EndOfDataAll.keys_stored (server self) (RpkiQueue.elems q) ->
  Z.of_nat (length (RpkiQueue.elems q) + stored_updates self) < 2 ^ 31 - 1 ->
  framed (roa_server (server self)) (roa_server (server self)).
Proof.
  intros R Hk Hn. destruct (EndOfDataAll.rd_queue _ _ R) as [Hq Hqw]. pose proof (EndOfDataAll.rd_uc _ _ R) as Hw.
  set (l := (RpkiQueue.updateID <$> RpkiQueue.elems q) ++ (ut_items (UpdateCache.table (EndOfData.uCache (server self)))).*1).
  set (X := list_to_set l : gset Z).
  assert (2 * Z.of_nat (base.size X) < 2 ^ 32 - 1) as HX.
  { assert (base.size X <= length l)%nat as Hs.
    { unfold X. clear. induction l as [|x l IH]; [apply Nat.le_0_l|]. rewrite list_to_set_cons. cbn [length].
      rewrite size_union_alt, size_singleton. pose proof (subseteq_size (list_to_set l ∖ {[x]} : gset Z) (list_to_set l)) as Hu.
      specialize (Hu ltac:(set_solver)). lia. }
    unfold l in Hs. rewrite length_app, !length_fmap in Hs. unfold stored_updates in Hn. lia. }
  assert (forall id, is_Some (uc_get (EndOfData.uCache (server self)) id) -> id ∈ X) as HX1.
  { intros id Hid. apply elem_of_list_to_set, elem_of_app. right.
    apply (EndOfDataAll.stored_items (server self) id Hw) in Hid. by rewrite elem_of_reverse in Hid. }
  assert (forall id, id ∈ RpkiQueue.updateID <$> RpkiQueue.elems q -> id ∈ X) as HX2.
  { intros id Hid. apply elem_of_list_to_set, elem_of_app. by left. }
  split.
  - split; [done|]. exists q. split; [done|]. split; [done|]. exists X. split; [lia|]. split; [|done].
    intros id Hid. split; [|by apply HX1]. destruct Hid as [e He]. by apply (EndOfDataAll.rd_updates _ _ R id e).
  - intros k. unfold RoaNotify.roa_of. cbn [RoaNotify.updCache roa_server]. destruct (uc_get _ k) as [e|]; [|done]. cbn.
    f_equal. unfold RoaNotify.with_roa. by destruct e as [? ? ? ? ? [] ? ? ? ? ?].
  - exists X. split; [done|]. split; [exact HX1|]. cbn [RoaNotify.queue roa_server]. rewrite Hq. by intros q' id [= <-] Hid; apply HX2.
  - cbn [RoaNotify.queue roa_server]. rewrite Hq. intros q' id r [= <-] (e & He & <- & <-)%RpkiQueue.queued_Some Hr.
    eapply Forall_forall in Hk; [|exact He]. by apply Hk.
Qed.

Lemma framed_ready self self1 q v : EndOfDataAll.ready (server self) q -> same_rest self self1 ->
  framed (roa_server (server self)) (roa_server (server self1)) ->
  (forall id e, uc_get (EndOfData.uCache (server self)) id = Some e -> EndOfData.path_returns v e) ->
  exists q1, EndOfDataAll.ready (server self1) q1 /\ EndOfDataAll.keys_stored (server self1) (RpkiQueue.elems q1)
    /\ EndOfDataAll.paths_return v (server self1) (RpkiQueue.elems q1).
Proof.
  intros R (R1 & R2 & _) [F1 F2 (X & HX & HX1 & HX2) F4] Hv.
  destruct (RoaNotify.sw_queue _ F1) as (q1 & Hq1 & Hqw & Y & _ & Hu & _). cbn [RoaNotify.queue roa_server] in *.
  pose proof (RoaNotify.sw_cache _ F1) as Hw. cbn [RoaNotify.updCache roa_server] in *.
  exists q1. split; [split|split].
  - exact Hw.
  - rewrite R2. apply R.
  - done.
  - pose proof (stored_ids (server self1) X Hw HX1) as L1.
    pose proof (RoaNotify.in_set_length _ X (RpkiQueue.rq_wf_nodup _ Hqw) (fun id => HX2 q1 id Hq1)) as L2.
    rewrite length_fmap in L2. lia.
  - intros id e He. split; [apply Hu; by exists e|]. rewrite F2 in He.
    destruct (uc_get (EndOfData.uCache (server self)) id) as [e0|] eqn:E0; [|done]. injection He as <-.
    destruct (EndOfDataAll.rd_updates _ _ R id e0 E0) as (_ & Hpid & pe & Hpe). unfold EndOfDataAll.synced. rewrite R1, R2.
    split; [exact Hpid|]. exists pe. exact Hpe.
  - apply Forall_forall. intros e He. apply (F4 q1 _ _ Hq1), RpkiQueue.queued_elem; [|done]. by apply RpkiQueue.rq_wf_nodup.
  - apply Forall_forall. intros e _ x Hx. rewrite F2 in Hx.
    destruct (uc_get (EndOfData.uCache (server self)) _) as [e0|] eqn:E0; [|done]. injection Hx as <-. exact (Hv _ e0 E0).
Qed.

(** The end of the data keeps the origin results. *)
Lemma prefixes_refine_end vrps us self st q : prefixes_refine vrps us self -> EndOfDataAll.ready (server self) q ->
  uc_wf (EndOfData.uCache st) -> EndOfData.rQueue st = Some RpkiQueue.rq_createQueue ->
  (forall k, uc_get (EndOfData.uCache st) k = EndOfDataAll.updated (clock self) (server self) <$> uc_get (EndOfData.uCache (server self)) k) ->
  prefixes_refine vrps us (set_server self st).
Proof.
  intros Hr R Hw Hq Hg. destruct Hr as [Hi He Hu].
  assert (forall k, RoaNotify.roa_of (roa_server st) k = RoaNotify.roa_of (roa_server (server self)) k) as Hroa.
  { intros k. unfold RoaNotify.roa_of. cbn [RoaNotify.updCache roa_server]. rewrite Hg. by destruct (uc_get _ k). }
  destruct (RoaNotify.sw_queue _ (PrefixInv.pi_sink _ _ Hi)) as (q1 & Hq1 & _ & X & HX & HX1 & _).
  split; [|exact He|exact Hu]. eapply sink_inv; [exact Hi| |by intros; apply Hroa]. split; [done|].
  exists RpkiQueue.rq_createQueue. split; [done|].
  split; [constructor; simpl; [split; [done|unfold in_u; lia]|constructor|apply NoDup_nil_2|done]|].
  exists X. split; [done|]. split; [|by intros id ?%elem_of_nil]. cbn [RoaNotify.updCache roa_server]. intros id [e Hid].
  apply HX1. cbn [RoaNotify.updCache roa_server]. rewrite Hg in Hid. destruct (uc_get _ id); [by eexists|done].
Qed.

(** C12 A session in which the validation cache sends prefixes and the end of its
    data succeeds and changes the prefix cache from one list of VRPs to the list
    after all announcements and withdrawals, a VRP with the low eight bits of the
    maximum length and no VRP for a reserved AS.  At the end, the origin result
    stored for every requested update is the one of its bits for the new list -
    RFC 6811 where no VRP of the other address family has these leading bits, of
    which the cache does not compare the family -, every stored update carries the
    ASPA result of its path, and the queue of notifications is empty.
    It is the first session of a client that is connected and not told to stop;
    no counter overflows, the low eight bits of a maximum length are not below the
    length of the prefix, the updates carry the results of their paths and the
    crypto library returns for them, an update that is queued for a key is stored,
    and updates and queue together are fewer than 2^31 - 1. *)
Theorem session_announces_vrps client ec k id n timers ds self vrps us q :
  RtrSession.ready client k -> stopAfterEndOfData client = false -> startup client = true ->
  client_incoming client = (CacheResponse id :: ds ++ [EndOfData id n timers]) ≫= enc_pdu (version client) ->
  Forall pdu_wf (CacheResponse id :: ds ++ [EndOfData id n timers]) -> Forall (fun p => is_Some (pdu_prefix p)) ds ->
  prefixes_refine vrps us self -> roomy (set_session client (ntohs id) false false) self ds ->
  EndOfDataAll.ready (server self) q -> EndOfDataAll.keys_stored (server self) (RpkiQueue.elems q) ->
  (forall uid e, uc_get (EndOfData.uCache (server self)) uid = Some e ->
     EndOfData.path_returns (Some (@BgpsecHandler.validateSignature (BgpsecPlugin.openssl_api (srxCAPI self)))) e) ->
  Z.of_nat (length (RpkiQueue.elems q) + stored_updates self) < 2 ^ 31 - 1 ->
  let vrps' := foldl (vrps_after (routerClientID client)) vrps ds in
  exists client' self', manageConnection_round garbage params client self ec = Ok (client', self', ec, false)
    /\ serial client' = ntohl n /\ prefixes_refine vrps' us self'
    /\ (forall uid key a, (uid, key, a) ∈ us -> roa_result (roa_server (server self')) uid = Some (origin_by_bits vrps' key a))
    /\ (forall uid e, uc_get (EndOfData.uCache (server self)) uid = Some e -> exists e',
          uc_get (EndOfData.uCache (server self')) uid = Some e'
          /\ aspaResult (UpdateCache.srxResult e') = EndOfDataAll.target (clock self) (server self) (UpdateCache.aspathCacheID e))
    /\ EndOfData.rQueue (server self') = Some RpkiQueue.rq_createQueue.
Proof.
  intros Hrd Hsa Hst Hi Hw Hp Hr Hroom R Hks Hv Hn vrps'.
  destruct (apply_prefixes (set_session client (ntohs id) false false) (roa_server (server self)) ds self vrps us Hr
    (ready_framed self q R Hks Hn) Hroom Hp) as (self1 & E1 & Hr1 & Hf & Hsame). fold vrps' in Hr1.
  destruct (framed_ready self self1 q _ R Hsame Hf Hv) as (q1 & R1 & Hk1 & Hp1). destruct Hsame as (S1 & S2 & S3 & S4).
  destruct (EndOfDataAll.handleEndOfData_eq _ (clock self1) (server self1) q1 R1 Hk1 Hp1)
    as (st & l & E2 & Hwst & _ & Hg & _ & _ & Hq & _).
  assert (handleEndOfData self1 (routerClientID client) (ntohs id) = Ok (set_server self1 st)) as E3.
  { unfold handleEndOfData. rewrite S3 at 1. rewrite E2. done. }
  destruct (cache_session garbage params client self ec k id n timers ds self1 (set_server self1 st) (set_server self1 st)
    handleEndOfData handleConnection RECONNECT_DELAY) as (client' & s & Er & _ & Hs & _); try done; [by apply prefix_is_data|].
  exists client', (set_server self1 st). pose proof (prefixes_refine_end vrps' us self1 st q1 Hr1 R1 Hwst Hq Hg) as Href.
  split; [done|]. split; [done|]. split; [done|]. split; [intros uid key a Hin; by apply (refines_result vrps' us _ _ _ _ _ Href)|].
  split; [|done]. intros uid e He. cbn [server set_server]. rewrite Hg. pose proof (fr_get _ _ Hf uid) as Hget.
  cbn [RoaNotify.updCache roa_server] in Hget. rewrite Hget, He. eexists. split; [done|]. cbn.
  unfold EndOfDataAll.target. by rewrite S1, S2, S4.
Qed.

(** ** Router keys *)

(** C15 An announced router key of full length that OpenSSL can convert is added to
    the keys of its AS and identifier in the crypto library, counted in the SKI cache,
    modulo 256, and every update registered for it is queued for a new path
    validation.  So it is in a key storage from which no element was removed (a
    removal breaks the links) and with room for the key, when the SKI cache is not in
    use by another thread and its list of algorithms for the AS does not start with a
    larger one ([head_above]: the search would read an uninitialised variable), and the
    queue has room for the updates. *)
Theorem router_key_announced client self fl asn ski key st m c q :
  announced fl = true -> length ski = SKI_LENGTH -> length key = ECDSA_PUB_KEY_DER_LENGTH ->
  BgpsecOpenssl.BOSSL_pubKeys (srxCAPI self) = Some st -> KeyStorageTheorems.refines st m -> KeyStorageTheorems.backward st ->
  KeyStorage.algorithmID st = HashMessage.SCA_ECDSA_ALGORITHM -> KeyStorageTheorems.key_ok (KeyStorage.isPrivate st) (ntohl asn, ski, key) ->
  Z.of_nat (S (length (KeyStorageTheorems.keys_at m (ntohl asn) ski))) < 2 ^ 16 ->
  sCache self = Some c -> SkiRegister.idle c -> EndOfData.rQueue (server self) = Some q -> RpkiQueue.rq_wf q ->
  let k := (asn, ski, HashMessage.SCA_ECDSA_ALGORITHM) in
  SkiCacheLemmas.rkey_wf k -> SkiCacheLemmas.head_above (SkiCache.cacheNode c) asn HashMessage.SCA_ECDSA_ALGORITHM = false ->
  Z.of_nat (length (RpkiQueue.elems q) + length (SkiRegister.uids c k)) < 2 ^ 32 - 1 ->
  exists self' st' c' q', apply_data garbage params client self (RouterKey fl ski asn key) = Ok self'
    /\ BgpsecOpenssl.BOSSL_pubKeys (srxCAPI self') = Some st'
    /\ KeyStorageTheorems.refines st' (KeyStorageTheorems.registered m (ntohl asn) ski key)
    /\ sCache self' = Some c' /\ SkiRegister.key_count c' k = u8 (SkiRegister.key_count c k + 1)
    /\ EndOfData.rQueue (server self') = Some q' /\ SkiRegister.notified q q' (SkiRegister.uids c k).
Proof.
  intros Hfl Hs Hk Hpub Hr Hbw Halgo Hok Hsz Hsc Hidle Hq Hqw k Hkw Habove Hlen.
  cbn [apply_data RtrClient.routerKeyCallback rrclParams call mbind outcome_bind]. unfold handleRouterKey. rewrite Hfl. cbn [getAlgoID].
  rewrite (read_bytes_bytes_at ski 0 ski _ (bytes_at_refl ski)) by done.
  cbn [mbind outcome_bind]. rewrite (read_bytes_bytes_at key 0 key _ (bytes_at_refl key)) by done. cbn [mbind outcome_bind].
  unfold BgpsecOpenssl.registerPublicKey, BgpsecOpenssl._registerKey. cbn [KeyStorage.k_keyLength Z.eqb]. rewrite Hpub.
  destruct (KeyStorageTheorems.storeKey_eq st m (ntohl asn) ski key Hr Hbw Hok Hsz) as (st' & s & E1 & Hr' & _).
  unfold KeyStorageTheorems.key_of in E1. rewrite Halgo, Hk in E1.
  change (getAlgoID key) with HashMessage.SCA_ECDSA_ALGORITHM. rewrite Z.eqb_refl.
  change (Z.of_nat ECDSA_PUB_KEY_DER_LENGTH =? 0) with false. cbv iota. rewrite E1. cbn [mbind outcome_bind]. rewrite Z.eqb_refl, Hsc, Hq.
  destruct (SkiRegister.registerKey_eq c q k Hidle Hkw Hqw Hlen Habove) as (c' & q' & E2 & _ & Hn & Hc & _).
  cbn [fst snd k] in E2. rewrite E2. cbn [mbind outcome_bind].
  eexists _, st', c', q'. split; [done|]. split; [done|]. split; [done|]. split; [done|].
  split; [by rewrite Hc, decide_True|]. done.
Qed.

(** ** ASPA objects *)

(** An ASPA object for IPv6 is dropped: the client passes on the flag as the
    value 2, and the handler knows the values 0 and 1. *)
Theorem ipv6_aspa_dropped client self fl customer providers : Z.testbit fl 1 = true ->
  exists self', apply_data garbage params client self (Aspa fl customer providers) = Ok self' /\ server self' = server self.
Proof.
  intros Hfl. cbn [apply_data RtrClient.cbHandleAspaPdu rrclParams call mbind outcome_bind]. unfold cbHandleAspaPdu, AspaPdu.handleAspaPdu.
  assert (Z.land fl 2 = 2) as ->.
  { apply Z.bits_inj'. intros i Hi. rewrite Z.land_spec. destruct (decide (i = 1)) as [->|Hne]; [by rewrite Hfl|].
    replace (Z.testbit 2 i) with false; [apply andb_false_r|]. symmetry. change 2 with (2 ^ 1). by apply Z.pow2_bits_false. }
  cbn [Z.eqb orb negb mbind outcome_bind]. eexists. split; [done|]. cbn [server]. by destruct (server self).
Qed.

End handler.
End RpkiHandlerTheorems.
