(* ===== verification/ServerWitness.v ===== *)
(** * The server at concrete states: the theorems about connections and requests

    Client 3 is the proxy 7 on the connection 1, which has said hello; the
    connection 2 is new.  The update 77 is registered for client 3. *)
From S2P Require Import Prelude Locks SrxDefs UtHash SrxIdentifier RpkiQueue AspaTrie AspathCache UpdateCache.
From S2P Require Import UpdateCacheLemmas.
From S2P Require Import UpdateCacheTheorems CacheWitness Patricia PrefixCache PrefixTree.
From S2P Require Import PrefixInv PrefixSteps PrefixRequest PrefixSpec PrefixWitness RoaNotify SListHeap.
From S2P Require Import CommandQueue PacketQueue.
From S2P Require Import SrxPackets PacketSender ProxyApi ProxyMap ProxyMapTheorems BgpsecHandler Server.
From S2P Require Import ValidationRequest CommandHandler CommandTheorems Handshake RequestTheorems.
From S2P Require Import Connections.

Module ServerWitness.
Import PrefixTree PrefixInv PrefixSteps PrefixRequest SrxPackets PacketSender ProxyMapTheorems Server ServerLemmas CommandTheorems.

(** ** The libraries below *)

(** The keys registered (positive) and unregistered (negative) at the SKI cache. *)
#[local] Instance log_ski : UpdateCache.SkiUpdates (list Z) := {|
  UpdateCache.ski_registerUpdate l id _ := Ok (l ++ [id], 0);
  UpdateCache.ski_unregisterUpdate l id _ := Ok (l ++ [- id], true);
  UpdateCache.ski_clean_updates l := Ok []
|}.
#[local] Instance api : BgpsecHandler.SRxCryptoAPI := {| BgpsecHandler.validate d := Ok 0 |}.
Abbreviation core := (Core (list (Z * positive)) (list Z)).
Abbreviation handler := (CommandHandler.CommandHandler (list (Z * positive)) (list Z) (list Patricia.prefix_t) (list bool)).

(** ** The state *)
Definition cfg : ProxyMap.Configuration := ProxyMap.mkConfiguration 900 true true true.
Definition mapping3 : ProxyMap.ProxyClientMapping := ProxyMap.mkProxyClientMapping 7 (Some 1%positive) true false 0 1.
Definition map3 : list ProxyMap.ProxyClientMapping :=
  <[3%nat := mapping3]> (replicate ProxyMap.MAX_PROXY_CLIENT_ELEMENTS ProxyMap.zero_mapping).
Definition conn : ProxyMap.ServerConnectionHandler := ProxyMap.mkServerConnectionHandler false [1%positive; 2%positive] map3 1 cfg.
Definition thread3 : ClientThread := mkClientThread true true 7 false 3.
Definition net0 : Net := mkNet {[ 1%positive := thread3; 2%positive := new_ClientThread ]} [1%positive; 2%positive] None [].
Definition queue0 : CommandQueue.CommandQueue :=
  CommandQueue.mkCommandQueue (SListHeap.mkSList None None 0) None MX_free 0 0 true (SListHeap.mkHeap ∅ ∅ ∅).

Definition entry (r : SRxResult) (clients : list Z) : UpdateCache.CacheEntry :=
  UpdateCache.mkCacheEntry (Some clients) 2 77 65002 (Some PrefixWitness.ten) r UpdateCache.unknown_default None (Some 0)
    (Some UpdateCacheWitness.ex_data) 1234.
Definition undefined : SRxResult := mkSRxResult SRx_RESULT_UNDEFINED SRx_RESULT_UNDEFINED SRx_RESULT_UNDEFINED.
Definition ucache (e : UpdateCache.CacheEntry) : UpdateCache.UpdateCache (list (Z * positive)) :=
  UpdateCache.mkUpdateCache true MX_free [1%positive] (Some 1%positive) 1 RW_free [(77, 1%positive)] 2
    UpdateCacheTheorems.all_unlocked 900 {[ 1%positive := e ]}.
Definition entry0 : UpdateCache.CacheEntry := entry undefined [3; 0].
Definition st0 : core :=
  mkCore (ucache entry0) [] (Some RpkiQueue.rq_createQueue) EndOfDataWitness.ex_paths AspaTrie.example_db conn None queue0 net0.
Definition self0 : handler := CommandHandler.mkCommandHandler st0 PrefixCache.initializePrefixCache 1.

(** ** Its invariants *)
Lemma map3_lookup i m : map3 !! i = Some m -> m = mapping3 /\ i = 3%nat \/ m = ProxyMap.zero_mapping.
Proof.
  unfold map3. intros Hm. destruct (decide (i = 3%nat)) as [->|Hne].
  - left. rewrite list_lookup_insert_eq in Hm by (rewrite length_replicate; lia). by injection Hm as <-.
  - right. rewrite list_lookup_insert_ne in Hm by done. by apply lookup_replicate in Hm as [-> _].
Qed.
Lemma conn_wf : pm_wf conn.
Proof.
  split; cbn [ProxyMap.proxyMap ProxyMap.noMappings conn]; try done.
  - apply Forall_lookup. intros i m [[-> _]| ->]%map3_lookup; unfold in_u; cbn; lia.
  - apply Forall_lookup. intros i m [[-> _]| ->]%map3_lookup; [|done]. intros _ Hm. done.
  - intros i j m m' [[-> Hi]| ->]%map3_lookup [[-> Hj]| ->]%map3_lookup Hmap E; [congruence|done|done|by destruct Hmap].
Qed.
Lemma conn0_ok : conn_ok conn net0.
Proof.
  split; [done|]. intros i m [[-> _]| ->]%map3_lookup Ha; [|done]. by exists 1%positive.
Qed.
Lemma clients_ok r : UpdateCacheLemmas.clients_are (entry r [3; 0]) [3].
Proof.
  constructor; simpl; [by exists 1%nat|lia| |repeat constructor; lia].
  by apply (bool_decide_unpack _), I.
Qed.
Lemma entry_client_list r : UpdateCacheTheorems.client_list (entry r [3; 0]) = [3].
Proof. done. Qed.
Lemma ucache_wf r : UpdateCacheTheorems.uc_wf (ucache (entry r [3; 0])).
Proof.
  constructor; try done. constructor; [by apply NoDup_singleton|].
  intros k p Hin. apply list_elem_of_singleton in Hin. simplify_eq.
  exists (entry r [3; 0]). split; [done|]. split; [done|]. apply (UpdateCacheTheorems.entry_ok_intro _ [3] (clients_ok r)). by eexists.
Qed.

(** ** The request of client 3 *)
Definition bgpsec_data : BGPSecData := mkBGPSecData 2 (Some [ntohl 65001; ntohl 65002]) 0 256 1 0 None.
Definition get {A} (d : A) (o : outcome A) : A := match o with Ok x => x | Fault _ => d end.
Definition request (localID : Z) : list Z :=
  get [] (ProxyApi.verifyUpdate localID true true true (mkSRxDefaultResult 1 1 1 (mkSRxResult 3 3 3)) PrefixWitness.ten 65002
            (Some bgpsec_data) (ProxyApi.mkSRxASPathList AS_SEQUENCE AS_REL_CUSTOMER)).
Definition no_hdr : BasicHeader_VerifyRequest := mkVerifyRequest 0 0 0 0 0 0 0 0 0 0 0 0 0.
Definition header (localID : Z) : BasicHeader_VerifyRequest := get no_hdr (read_VerifyRequest (request localID)).


(** ** Connections *)
Lemma broadcastResult_witness : exists l,
  broadcastResult st0 (mkSRxValidationResult VRT_ROA undefined 77)
  = Ok (set_net st0 (add_wire net0 l (result_pdu (mkSRxValidationResult VRT_ROA undefined 77))), negb (bool_decide (l = [])))
  /\ 1%positive ∈ l.
Proof.
  destruct (Connections.broadcastResult_correct st0 (mkSRxValidationResult VRT_ROA undefined 77) entry0
    (ucache_wf undefined) conn0_ok eq_refl) as (l & E & Hl).
  exists l. split; [exact E|]. apply Hl. exists 3, mapping3, thread3. split; [by apply list_elem_of_singleton|]. by repeat split.
Defined.

Definition goodbye : CommandQueue.CommandQueueItem :=
  CommandQueue.mkCommandQueueItem (Some 1%positive) CommandQueue.COMMAND_TYPE_SRX_PROXY 0 true 12 (Some (GOODBYE (htons 3))).
Lemma goodbye_witness : exists self', CommandHandler.handle_proxy_command self0 100 PDU_SRXPROXY_GOODBYE goodbye = Ok self'
  /\ ProxyMap.proxyMap (svrConnHandler (CommandHandler.core self')) !! 3%nat = Some ProxyMap.zero_mapping.
Proof.
  destruct (Connections.goodbye_correct self0 100 goodbye (GOODBYE (htons 3)) 1%positive thread3 mapping3 3 eq_refl eq_refl)
    as (u & t & E & _ & Hm).
  - vm_compute. reflexivity.
  - reflexivity.
  - by split.
  - reflexivity.
  - reflexivity.
  - apply ucache_wf.
  - vm_compute. reflexivity.
  - reflexivity.
  - eexists. split; [exact E|exact Hm].
Defined.

(** The connection 2 has taken over the identifier 3. *)
Definition reused : core :=
  set_net (set_handler st0 (ProxyMap.set_map conn
      (<[3%nat := ProxyMap.mkProxyClientMapping 9 (Some 2%positive) true false 0 0]> map3) 1))
    (mkNet {[ 1%positive := set_active thread3 false; 2%positive := mkClientThread true true 9 false 3 ]} [2%positive] None []).
Lemma late_disconnect_witness : exists st' m', ValidationRequest.clientThreadCleanup reused 100 1%positive = Ok st'
  /\ ProxyMap.proxyMap (svrConnHandler st') !! 3%nat = Some m' /\ ProxyMap.isActive m' = false.
Proof.
  destruct (Connections.late_disconnect reused 100 1%positive (set_active thread3 false) 2%positive
    (ProxyMap.mkProxyClientMapping 9 (Some 2%positive) true false 0 0) (updCache st0)) as (st' & m' & E & Hm & Ha & _).
  - reflexivity.
  - vm_compute. discriminate.
  - reflexivity.
  - reflexivity.
  - discriminate.
  - reflexivity.
  - reflexivity.
  - exists st', m'. split; [exact E|]. split; [exact Hm|exact Ha].
Defined.

(** ** Handshake *)
Definition hello (pid : Z) : list Z := [0; 0; 3; 0; 0; 0; 0; 0; 0; 0; 0; 20] ++ be32 pid ++ [0; 0; 0; 0].
Definition hello_item (pid : Z) : CommandQueue.CommandQueueItem :=
  CommandQueue.mkCommandQueueItem (Some 2%positive) CommandQueue.COMMAND_TYPE_SRX_PROXY 0 true 20 (Some (hello pid)).
Lemma processHandshake_witness : exists h n,
  CommandHandler._processHandshake st0 (hello_item 8) = Ok (set_net (set_handler st0 h) n, true) /\ client_of h 8 = 1
  /\ wire n = [(2%positive, HELLO_RESPONSE 8); (2%positive, SYNCH_REQUEST)].
Proof.
  destruct (Handshake.processHandshake_correct st0 (hello_item 8) (hello 8) 2%positive new_ClientThread 8)
    as (h & n & E & _ & Hc & _ & _ & _ & _ & Hw); try reflexivity.
  - split; reflexivity.
  - apply conn_wf.
  - exists h, n. split; [exact E|]. split; [exact Hc|exact Hw].
Defined.

Lemma proxy_0_witness : exists h, CommandHandler.choose_client conn 0 2%positive = Ok (h, 1)
  /\ CommandHandler.choose_client h 8 2%positive = Ok (h, 0).
Proof.
  destruct (CommandHandler.choose_client conn 0 2%positive) as [[h k]|] eqn:E; [|discriminate].
  assert (k = 1) as -> by (vm_compute in E; congruence).
  exists h. split; [reflexivity|].
  apply (Handshake.proxy_0_blocks_handshake conn 2%positive h 1 conn_wf ltac:(done) E ltac:(lia) 8 2%positive).
  right. split; [done|]. intros i m [[-> _]| ->]%map3_lookup; done.
Defined.

(** ** Requests *)

(** A server that knows no update, and one that knows the path of the request. *)
Definition no_updates : core :=
  set_updCache st0 (UpdateCache.createUpdateCache true 2 900).
Definition bgp_data (localID : Z) : BGPSecData :=
  ValidationRequest.request_bgpData true (request localID) (get (mkValReqData 0 0 0 0 0) (read_ValReqData true (request localID))).
Definition pathID : Z := Eval vm_compute in get 0 (AspathCache.makePathId 2 (asPath (bgp_data 5)) AS_SEQUENCE true).
Definition path : AspathCache.PathListCacheTable :=
  AspathCache.mkPathListCacheTable pathID 2 (Some [65001; 65002]) SRx_RESULT_VALID AS_SEQUENCE ASPA_DOWNSTREAM AFI_IP 100.
Definition path_cached : core :=
  set_aspathCache no_updates (AspathCache.mkAspathCache [(pathID, 1%positive)] {[ 1%positive := path ]} RW_free).
Definition id : Z := Eval vm_compute in
  get 0 (generateIdentifier 65002 PrefixWitness.ten (bgp_data 5)).

Lemma no_updates_wf : UpdateCacheTheorems.uc_wf (updCache no_updates).
Proof. apply UpdateCacheTheorems.createUpdateCache_wf. lia. Qed.
Lemma path_cached_wf : AspathCache.ac_wf (aspathCache path_cached).
Proof.
  constructor; [constructor; [by apply NoDup_singleton|]|done].
  intros k p Hin. apply list_elem_of_singleton in Hin. injection Hin as -> ->.
  exists path. split; [done|]. split; [done|]. split; [unfold in_u; simpl; lia|]. intros l [= <-]. done.
Qed.
Lemma request_new (st : core) localID : updCache st = updCache no_updates -> AspathCache.ac_wf (aspathCache st) -> net st = net0 ->
  svrConnHandler st = conn -> localID = 0 \/ localID = 5 ->
  RequestTheorems.new_request st 1%positive (request localID) (header localID) 3 mapping3 PrefixWitness.ten 65002
    (bgp_data localID) id pathID.
Proof.
  intros Hu Hp Hn Hc Hid. split; rewrite ?Hu, ?Hn, ?Hc; try done; try apply no_updates_wf; destruct Hid as [->| ->]; try (by vm_compute).
  - exists [10; 0; 0; 0], (get (mkValReqData 0 0 0 0 0) (read_ValReqData true (request 0))). by vm_compute.
  - exists [10; 0; 0; 0], (get (mkValReqData 0 0 0 0 0) (read_ValReqData true (request 5))). by vm_compute.
  - split; [|by vm_compute|by vm_compute]. intros _. eexists. split; [done|]. by vm_compute.
  - split; [|by vm_compute|by vm_compute]. intros _. eexists. split; [done|]. by vm_compute.
Qed.

Lemma new_request_without_receipt_witness : exists st1 : core,
  ValidationRequest.processValidationRequest no_updates 100 1%positive (request 0) = Ok (st1, true)
  /\ net st1 = net0 /\ cmdQueue st1 = queue0 /\ is_Some (UpdateCacheTheorems.uc_get (updCache st1) id).
Proof.
  destruct (RequestTheorems.new_request_without_receipt no_updates 100 1%positive (request 0) (header 0) 3 mapping3 PrefixWitness.ten
    65002 (bgp_data 0) id pathID [id] 0) as (st1 & E & [_ He _ _ _ Hn Hq]).
  - apply request_new; try done; [apply EndOfDataWitness.ex_paths_wf|by left].
  - reflexivity.
  - vm_compute. reflexivity.
  - exists st1. split; [exact E|]. split; [exact Hn|]. split; [exact Hq|]. rewrite He, decide_True by done. by eexists.
Defined.


Lemma cached_path_wins_witness : exists (st1 : core) e,
  AspathCache.ac_get (aspathCache st1) pathID = Some path /\ UpdateCacheTheorems.uc_get (updCache st1) id = Some e
  /\ aspaResult (UpdateCache.srxResult e) = SRx_RESULT_VALID.
Proof.
  destruct (RequestTheorems.cached_path_wins path_cached 100 1%positive (request 5) (header 5) 3 mapping3 PrefixWitness.ten
    65002 (bgp_data 5) id pathID [id] 0 path) as (st1 & e & _ & Hp & He & Ha & _).
  - apply request_new; try done; [apply path_cached_wf|by right].
  - reflexivity.
  - discriminate.
  - reflexivity.
  - exists st1, e. split; [exact Hp|]. split; [exact He|]. by apply Ha.
Defined.
End ServerWitness.
