(* ===== verification/CryptoWitness.v ===== *)
(** * Concrete instances of the theorems about the SRx crypto API

    Keys are byte lists, a digest is the message and a signature is the sum of the
    digest with the key behind it. *)
From S2P Require Import Prelude Bytes SrxDefs BgpsecPath UpdateCache HashMessage HashMessageTheorems.
From S2P Require Import KeyStorage KeyStorageTheorems KeyRemoval BgpsecOpenssl BgpsecOpensslTheorems.
From S2P Require Import BgpsecHandler.

Module CryptoWitness.
Import BgpsecPath HashMessage HashMessageTheorems KeyStorage KeyStorageTheorems KeyRemoval BgpsecOpenssl BgpsecOpensslTheorems BgpsecPlugin.

#[local] Instance toy_keys : EcKeys (list Z) := {|
  d2i _ d _ := d;
  EC_KEY_check_key k := negb (bool_decide (k = []));
  impl_loadKey _ _ := None
|}.
Definition toy_sign (digest k : list Z) : option (list Z) := Some (foldr Z.add 0 digest mod 256 :: k).
#[local] Instance toy_ssl : Openssl (list Z) := {|
  SHA256 m := m;
  ECDSA_verify digest s k := if decide (Some s = toy_sign digest k) then 1 else 0;
  ECDSA_sign := toy_sign
|}.

Definition nlri0 : UpdateCache.SCA_Prefix := UpdateCache.mkSCA_Prefix 256 1 24 ([10; 0; 0] ++ replicate 13 0).
Lemma nlri0_wf : nlri_wf nlri0.
Proof. split; [done|reflexivity]. Qed.
Lemma block_ex_wf a : block_wf (length seg_ex) (block_ex a).
Proof.
  split; [done|]. apply Forall_cons; split; [by vm_compute|]. apply Forall_cons; split; [by vm_compute|done].
Qed.

(** ** Messages *)
Definition data0 (attr : list Z) : SCA_BGPSecValidationData := mkValidationData 77 0 (Some attr) (Some nlri0) None.

Lemma generateHashMessage_witness :
  let d := data0 (enc_attr true seg_ex [block_ex 2; block_ex 1]) in
  exists hm, sca_generateHashMessage (Some d) 1 (Some 0) = Ok (bufferSize hm, Some (set_v_hashMessage d (Some hm)), Some API_STATUS_OK)
    /\ describes hm 77 seg_ex (sb_sigs (block_ex 1)) 1 nlri0.
Proof.
  intros d. pose proof (generateHashMessage_correct d true seg_ex [block_ex 2; block_ex 1] [] 1 nlri0 0) as Hg.
  apply Hg; [by rewrite app_nil_r|done|done|apply nlri0_wf|done| |by vm_compute].
  apply Forall_cons; split; [apply block_ex_wf|]. apply Forall_cons; split; [apply block_ex_wf|done].
Defined.

(** A signature segment that claims 200 octets in a block of 30. *)
Definition claim_attr : list Z :=
  enc_hdr true 38 ++ be16 8 ++ enc_segment (mkSegment 1 0 65010) ++ be16 30 ++ [1] ++ replicate 20 7 ++ be16 200 ++ replicate 500 1.
Lemma claimed_length_witness :
  sca_generateHashMessage (Some (data0 claim_attr)) 1 (Some 0) = Fault BufferOverflow
  /\ (sca_generateHashMessage (Some (data0 claim_attr)) 1 (Some 0) = Fault OutOfBounds
      \/ sca_generateHashMessage (Some (data0 claim_attr)) 1 (Some 0) = Fault BufferOverflow).
Proof.
  split; [by vm_compute|].
  by apply (claimed_length_overflows (data0 claim_attr) true (mkSegment 1 0 65010) 30 1 (replicate 20 7) 200 (replicate 500 1) nlri0 0).
Defined.

(** ** Keys *)
Definition ski1 : list Z := replicate 20 7.
Definition ski2 : list Z := replicate 20 9.
(** Two keys of one AS under one SKI, one under another SKI, one of another AS. *)
Definition keys0 : list (Z * list Z * list Z) := [(11, ski1, [1; 2]); (12, ski1, [5]); (11, ski1, [3]); (11, ski1, [1; 2])].
Lemma keys0_ok ip : Forall (key_ok ip) keys0.
Proof.
  repeat (apply Forall_cons; split; [split; [split; [by vm_compute|by vm_compute]|by vm_compute]|]). done.
Qed.

Lemma registered_keys_witness : exists st : KeyStorage (list Z),
  store_keys (ks_init 1 false) keys0 = Ok st
  /\ ks_getKey (Some st) ski1 11 ks_eckey_e
     = Ok (Some st, Some (EcArray [Slot (Some [1; 2]); Slot (Some [3])]), Some 2, API_STATUS_OK)
  /\ ks_getKey (Some st) ski2 11 ks_eckey_e = Ok (Some st, None, None, API_STATUS_INFO_KEY_NOTFOUND).
Proof.
  destruct (registered_keys_found 1 false keys0) as (st & E1 & Hg); [apply keys0_ok|done|].
  exists st. split; [done|]. split; by rewrite Hg by done.
Defined.

(** A storage with the keys of a list. *)
Lemma stored (ip : bool) (keys : list (Z * list Z * list Z)) : Forall (key_ok ip) keys -> Z.of_nat (length keys) < 2 ^ 16 ->
  exists st : KeyStorage (list Z), refines st (registered_all ∅ keys) /\ backward st /\ algorithmID st = 1 /\ isPrivate st = ip.
Proof.
  intros Hok Hsz. destruct (ks_init_refines (E := list Z) 1 ip) as [Hr Hbw].
  destruct (store_keys_eq keys (ks_init 1 ip) ∅ 0) as (st & _ & Hr' & Hbw' & Ha & Hi); [done..|]. by exists st.
Qed.

Lemma keys0_map : registered_all ∅ keys0 = <[(12, ski1) := [[5]]]> {[(11, ski1) := [[1; 2]; [3]]]}.
Proof. apply (bool_decide_unpack _). vm_compute. exact I. Qed.

Lemma delKey_witness : exists st st' : KeyStorage (list Z),
  ks_delKey (Some st) (mkBGPSecKey 1 12 ski1 0 None) = Ok (Some st', API_SUCCESS, API_STATUS_OK)
  /\ size st' = u32 (size st - 2)
  /\ ks_getKey (Some st') ski1 12 ks_eckey_e = Ok (Some st', None, None, API_STATUS_INFO_KEY_NOTFOUND).
Proof.
  destruct (stored false keys0) as (st & Hr & Hbw & Ha & Hi); [apply keys0_ok|done|].
  destruct (delKey_correct st (registered_all ∅ keys0) 12 ski1 [[5]] 0 None) as (st' & E1 & _ & Es & Hg);
    [done|done|by vm_compute|done| |by left|].
  { intros ski' [ds Hs]. rewrite keys0_map in Hs. apply lookup_insert_Some in Hs as [[[= <-] _]|[_ Hs]]; [done|].
    by apply lookup_singleton_Some in Hs as [[=] _]. }
  exists st, st'. rewrite Ha in E1. split; [done|]. split; [exact Es|]. rewrite Hg by done. by vm_compute.
Defined.

(** The AS 11 registers a second SKI and removes it; its bucket is lost. *)
Lemma key_rollover_witness : exists st st1 st2 : KeyStorage (list Z),
  ks_storeKey (Some st) (key_of 1 11 ski2 [8]) true = Ok (Some st1, API_SUCCESS, API_STATUS_OK)
  /\ ks_delKey (Some st1) (key_of 1 11 ski2 [8]) = Ok (Some st2, API_SUCCESS, API_STATUS_OK)
  /\ ks_getKey (Some st) ski1 11 ks_eckey_e
     = Ok (Some st, Some (EcArray [Slot (Some [1; 2]); Slot (Some [3])]), Some 2, API_STATUS_OK)
  /\ ks_getKey (Some st2) ski1 11 ks_eckey_e = Ok (Some st2, None, None, API_STATUS_INFO_KEY_NOTFOUND).
Proof.
  destruct (stored false keys0) as (st & Hr & Hbw & Ha & Hi); [apply keys0_ok|done|].
  destruct (key_rollover_loses_keys st (registered_all ∅ keys0) 11 ski1 ski2 [8]) as (st1 & st2 & E1 & E2 & Hg);
    [done|done|by vm_compute; eexists|by vm_compute| | |].
  { rewrite Hi. split; [split; by vm_compute|by vm_compute]. }
  { intros [asn ski] Hb [ds Hs]. rewrite keys0_map in Hs. apply lookup_insert_Some in Hs as [[[= <- <-] _]|[_ Hs]]; [by vm_compute in Hb|].
    by apply lookup_singleton_Some in Hs as [[= <- <-] _]. }
  exists st, st1, st2. rewrite Ha in E1, E2. split; [done|]. split; [done|]. split; [|by apply Hg].
  rewrite (getKey_eq st _ ski1 11 Hr), Hi by done. by vm_compute.
Defined.

Lemma remove_first_witness : exists st st' : KeyStorage (list Z),
  ks_delKey (Some st) (key_of 1 11 ski1 [1; 2]) = Ok (Some st', API_SUCCESS, API_STATUS_OK)
  /\ ks_getKey (Some st') ski1 11 ks_eckey_e = Ok (Some st', Some (EcArray [Slot None]), Some 1, API_STATUS_ERR_USER1)
  /\ ks_storeKey (Some st') (key_of (algorithmID st') 11 ski1 [3]) true = Fault NullDeref.
Proof.
  destruct (stored false keys0) as (st & Hr & Hbw & Ha & Hi); [apply keys0_ok|done|].
  destruct (remove_first_of_two st (registered_all ∅ keys0) 11 ski1 [1; 2] [3]) as (st' & E1 & E2 & E3); [done|done|by vm_compute|done|done|].
  exists st, st'. by rewrite Ha in E1.
Defined.

(** ** Validation *)
Definition sg0 : segment := mkSegment 1 0 65010.
Definition keys1 : list (Z * list Z * list Z) := [(host_asn sg0, ski1, [4; 2])].
Lemma keys1_ok ip : Forall (key_ok ip) keys1.
Proof. apply Forall_cons; split; [split; [split; by vm_compute|by vm_compute]|done]. Qed.
Definition octets0 : list Z := octets_to_sign 77 sg0 [] [] 1 nlri0.
Definition sig0 : list Z := Eval vm_compute in default [] (toy_sign octets0 [4; 2]).
Definition block0 (s : list Z) : sig_block := mkBlock 1 [mkSig ski1 s].
Definition attr0 (s : list Z) : list Z := enc_attr true [sg0] [block0 s].
Lemma block0_wf s : Z.of_nat (length s) < 2 ^ 16 -> block_wf 1 (block0 s).
Proof. intros Hs. split; [done|]. by apply Forall_cons; split; [split|]. Qed.

(** A plug-in with the public key. *)
Lemma plugin : exists st ks pk : _, BOSSL_pubKeys (E := list Z) st = Some ks /\ BOSSL_privKeys st = Some pk
  /\ refines ks (registered_all ∅ keys1) /\ isPrivate ks = false
  /\ refines pk (registered_all ∅ keys1) /\ isPrivate pk = true /\ algorithmID pk = 1.
Proof.
  destruct (stored false keys1) as (ks & Hr & _ & _ & Hi); [apply keys1_ok|done|].
  destruct (stored true keys1) as (pk & Hr' & _ & Ha & Hi'); [apply keys1_ok|done|].
  by exists (mkBossl true (Some ks) (Some pk)), ks, pk.
Qed.

Lemma validate_witness : exists st data1 data2,
  BgpsecOpenssl.validate st (Some (data0 (attr0 sig0))) = Ok (st, API_VALRESULT_VALID, Some data1)
  /\ BgpsecOpenssl.validate st (Some (data0 (attr0 [1]))) = Ok (st, API_VALRESULT_INVALID, Some data2).
Proof.
  destruct plugin as (st & ks & pk & Hk & _ & Hr & Hi & _).
  assert (forall s, Z.of_nat (length s) < 10 -> exists data, BgpsecOpenssl.validate st (Some (data0 (attr0 s)))
            = Ok (st, if path_valid (registered_all ∅ keys1) 77 [sg0] [block0 s] nlri0 then API_VALRESULT_VALID else API_VALRESULT_INVALID, Some data)) as Hv.
  { intros s Hs. apply (validate_correct st ks (registered_all ∅ keys1) (data0 (attr0 s)) true [sg0] [block0 s] [] nlri0);
      [by rewrite app_nil_r|done|done|apply nlri0_wf|done| | |done|done|done].
    - apply Forall_cons; split; [apply block0_wf; lia|done].
    - rewrite length_enc_body. cbn [length mbind list_bind]. rewrite app_nil_r, length_enc_block. cbn [sb_sigs block0 mbind list_bind].
      rewrite app_nil_r, length_enc_sig by done. cbn [ss_signature]. lia. }
  destruct (Hv sig0) as [d1 E1]; [done|]. destruct (Hv [1]) as [d2 E2]; [done|]. exists st, d1, d2. split.
  - rewrite E1. by vm_compute.
  - rewrite E2. by vm_compute.
Defined.

(** An empty path: a signature block of 30 octets of any content; the plug-in has no
    key at all. *)
Definition empty_attr : list Z := enc_hdr true 32 ++ be16 2 ++ be16 30 ++ [1] ++ replicate 27 0.
Lemma empty_path_witness : exists data,
  BgpsecOpenssl.validate (mkBossl (E := list Z) true (Some (ks_init 1 false)) None) (Some (data0 empty_attr))
  = Ok (mkBossl true (Some (ks_init 1 false)) None, API_VALRESULT_VALID, Some data).
Proof.
  apply (empty_path_is_valid _ (data0 empty_attr) true 30 (replicate 27 0) nlri0);
    [done|done|done|apply nlri0_wf|done|done|by apply Nat.leb_le].
Defined.

(** ** Signing *)
Definition sign0 : SCA_BGPSecSignData := mkSignData 77 (Some (enc_segment sg0)) (Some nlri0) (Some ski1) 1 0 None None.
Lemma toy_correct digest s : toy_sign digest [4; 2] = Some s -> ECDSA_verify digest s [4; 2] = 1.
Proof. intros Hs. cbn. by rewrite Hs, decide_True by done. Qed.

Lemma sign_then_validate_witness : exists st d' data,
  _sign st (Some sign0) = Ok (st, API_SUCCESS, Some d')
  /\ d_signature d' = Some (mkSignature true 1 ski1 3 (Some sig0))
  /\ BgpsecOpenssl.validate st (Some (data0 (attr0 sig0))) = Ok (st, API_VALRESULT_VALID, Some data).
Proof.
  destruct plugin as (st & ks & pk & Hk & Hpk & Hr & Hi & Hr' & Hi' & Ha).
  destruct (sign_then_validate st pk (registered_all ∅ keys1) (registered_all ∅ keys1) sign0 sg0 [] [] ski1 nlri0
              [4; 2] [4; 2] [4; 2] [4; 2] [] [] sig0) as (d' & E1 & Hsig & Hv);
    [done|done|done|by rewrite Ha|done|done|done|done|done|apply nlri0_wf|done|by vm_compute|done|by vm_compute|done|apply toy_correct
    |by vm_compute|done|].
  destruct (Hv st ks (data0 (attr0 sig0)) true []) as [data E2];
    [done|done|done|by rewrite app_nil_r|done|done|done|by apply block0_wf|by vm_compute|].
  exists st, d', data. split; [done|]. split; [exact Hsig|done].
Defined.

Lemma sign_again_witness : exists st d',
  _sign st (Some sign0) = Ok (st, API_SUCCESS, Some d') /\ _sign st (Some d') = Fault BufferOverflow.
Proof.
  destruct plugin as (st & ks & pk & Hk & Hpk & Hr & Hi & Hr' & Hi' & Ha). exists st.
  apply (sign_again_overflows st pk (registered_all ∅ keys1) sign0 sg0 ski1 nlri0 sig0);
    [done|done|done|by rewrite Ha|done|done|done|done|apply nlri0_wf|done|by vm_compute].
Defined.

(** ** The server *)
Definition update0 (s : list Z) : UpdateCache.UC_UpdateData :=
  UpdateCache.mkUC_UpdateData 1 None 77 nlri0 (Z.of_nat (length (attr0 s))) (Some (attr0 s)).
Lemma server_verdict_witness : exists st : Bossl (list Z),
  @BgpsecHandler.validateSignature (openssl_api st) (update0 sig0) = Ok SRx_RESULT_VALID
  /\ @BgpsecHandler.validateSignature (openssl_api st) (update0 [1]) = Ok SRx_RESULT_INVALID.
Proof.
  destruct plugin as (st & ks & pk & Hk & _ & Hr & Hi & _). exists st. split.
  - rewrite (server_verdict st ks (registered_all ∅ keys1) (update0 sig0) true [sg0] [block0 sig0] []);
      [by vm_compute|by rewrite app_nil_r|apply nlri0_wf|done| |by vm_compute|done|done|done].
    apply Forall_cons; split; [by apply block0_wf|done].
  - rewrite (server_verdict st ks (registered_all ∅ keys1) (update0 [1]) true [sg0] [block0 [1]] []);
      [by vm_compute|by rewrite app_nil_r|apply nlri0_wf|done| |by vm_compute|done|done|done].
    apply Forall_cons; split; [by apply block0_wf|done].
Defined.

End CryptoWitness.
