(* ===== verification/RtrWitness.v ===== *)
(** * Concrete sessions with a validation cache

    The theorems about the client of the RPKI-to-router protocol and the RPKI
    handler at a server that knows one VRP and one update. *)
From S2P Require Import Prelude Bytes Locks SrxDefs UtHash Patricia UpdateCache UpdateCacheLemmas UpdateCacheTheorems.
From S2P Require Import CacheWitness RpkiQueue.
From S2P Require Import PrefixCache PrefixInv PrefixAnnounce PrefixSpec PrefixWitness RoaNotify AspaTrie.
From S2P Require Import EndOfData EndOfDataAll.
From S2P Require Import SkiCache SkiCacheLemmas SkiRegister KeyStorage KeyStorageTheorems BgpsecOpenssl.
From S2P Require Import CryptoWitness.
From S2P Require Import BgpsecPath ClientSocket RtrClient RtrClientTheorems RtrSession RpkiHandler.

Module RtrWitness.
Import BgpsecPath ClientSocket.ClientSocket RtrClient RtrClientTheorems RtrSession RpkiHandler RpkiHandlerTheorems UpdateCacheTheorems PrefixSpec.
#[local] Existing Instances CryptoWitness.toy_keys CryptoWitness.toy_ssl.
#[local] Existing Instances RoaNotify.server_sink RoaNotify.server_sink_laws.

Definition zeros (_ : nat) : Z := 0.
Abbreviation handler := (RPKIHandler (list (Z * positive)) (list prefix_t) (list bool) (list Z)).
Abbreviation params := (rrclParams (H := list (Z * positive)) (T := list prefix_t) (N := list bool) (E := list Z) 1).

(** The VRP 10.0.0.0/8-16 AS 65002 is announced and makes the update 77 valid. *)
Definition server1 : EndOfData.Server (list (Z * positive)) :=
  EndOfData.mkServer (RoaNotify.updCache PrefixWitness.st2.2) (RoaNotify.queue PrefixWitness.st2.2) AspaTrie.example_db
    EndOfDataWitness.ex_paths (RoaNotify.notified PrefixWitness.st2.2).
Definition keys1 : BgpsecOpenssl.Bossl (list Z) :=
  BgpsecOpenssl.mkBossl true (Some (KeyStorage.ks_init 1 false)) (Some (KeyStorage.ks_init 1 true)).
Definition handler1 : handler := mkHandler PrefixWitness.st2.1 server1 (Some SkiWitness.cache_ex) keys1 1 200.

(** A client on a new connection that delivers [ps] and takes five writes. *)
Definition socket1 (bytes : list Z) : ClientSocket := mkClientSocket true true true true (mkConnection bytes 5) [] [].
Definition client1 (bytes : list Z) : RPKIRouterClient :=
  mkClient 1 (socket1 bytes) false MX_free 0 0 0 0xffff false true false 1.
(** The same client after a session. *)
Definition client2 (bytes : list Z) : RPKIRouterClient :=
  mkClient 1 (socket1 bytes) false MX_free 5 2 7 (ntohs 9) false false false 1.

Lemma ready1 bytes : RtrSession.ready (client1 bytes) 4.
Proof. by split. Qed.
Lemma ready2 bytes : RtrSession.ready (client2 bytes) 4.
Proof. by split. Qed.

Definition ten_pdu (flags : Z) : pdu := IPv4Prefix flags 8 16 [10; 0; 0; 0] 65002.
Definition session1 (flags : Z) : list pdu := [CacheResponse 9; ten_pdu flags; EndOfData 9 6 []].

Lemma session1_wf flags : Forall pdu_wf (session1 flags).
Proof. repeat (apply Forall_cons; split; [by vm_compute|]). done. Qed.

(** ** Receiving *)
Lemma receivePDUs_witness :
  exists client', receivePDUs zeros params (client1 (session1 1 ≫= enc_pdu 1)) handler1 false true = Ok (client', handler1, -1, true)
    /\ sessionID client' = ntohs 9.
Proof.
  destruct (receivePDUs_correct zeros params (client1 (session1 1 ≫= enc_pdu 1)) handler1 (session1 1) false true) as [E _];
    [reflexivity|apply session1_wf|]. rewrite E.
  eexists. split; [vm_compute; reflexivity|reflexivity].
Defined.

(** ** The withdrawal of the VRP

    The update 77 is one without a BGPsec path. *)
Definition entry2 : UpdateCache.CacheEntry :=
  UpdateCache.mkCacheEntry (Some [3; 5]) 2 77 65002 (Some UpdateCacheWitness.ex_prefix) UpdateCacheWitness.ex_result
    UpdateCache.unknown_default None (Some 0)
    (Some (UpdateCache.mkUC_UpdateData 0 None 0 (UpdateCache.nlri UpdateCacheWitness.ex_data) 0 None)) 1234.
Definition cache2 : UpdateCache.UpdateCache (list (Z * positive)) :=
  UpdateCache.mkUpdateCache true MX_free [1%positive] (Some 1%positive) 1 RW_free [(77, 1%positive)] 2
    UpdateCacheTheorems.all_unlocked 900 {[ 1%positive := entry2 ]}.
Lemma cache2_wf : uc_wf cache2.
Proof.
  constructor; try done. constructor; [by apply NoDup_singleton|].
  intros k p Hin. apply list_elem_of_singleton in Hin. simplify_eq.
  exists entry2. split; [done|]. split; [done|]. apply (entry_ok_intro _ [3; 5]); [|by eexists].
  constructor; simpl; [by exists 0%nat|lia| |repeat constructor; lia]. by apply (bool_decide_unpack _), I.
Qed.
Definition server2 : EndOfData.Server (list (Z * positive)) :=
  EndOfData.mkServer cache2 (Some RpkiQueue.rq_createQueue) AspaTrie.example_db EndOfDataWitness.ex_paths [].
Definition handler2 : handler := mkHandler PrefixWitness.st2.1 server2 (Some SkiWitness.cache_ex) keys1 1 200.

Lemma entry2_only k e : uc_get cache2 k = Some e -> k = 77 /\ e = entry2.
Proof.
  intros He. apply (kt_get_items UpdateCache.updateID entry_ok) in He as (p & Hin & He); [|apply cache2_wf].
  apply list_elem_of_singleton in Hin. injection Hin as -> ->. split; [done|]. vm_compute in He. by injection He as <-.
Qed.
Lemma ready_server2 : EndOfDataAll.ready server2 RpkiQueue.rq_createQueue.
Proof.
  constructor.
  - exact cache2_wf.
  - exact EndOfDataWitness.ex_paths_wf.
  - split; [done|exact EndOfDataWitness.empty_queue_wf].
  - simpl. lia.
  - intros k e [-> ->]%entry2_only. split; [unfold in_u; lia|]. split; [done|]. exists EndOfDataWitness.ex_path.
    split; [done|]. split; [done|]. split; [done|]. by split; vm_compute.
Qed.
Lemma refines2 : prefixes_refine [PrefixWitness.ten_vrp] [PrefixWitness.ten_update] handler2.
Proof.
  destruct (PrefixSpec.reach_refines _ _ _ _ PrefixWitness.reach2) as [Hi He Hu].
  split; [|exact He|exact Hu]. eapply sink_inv; [exact Hi| |].
  - apply (ready_framed handler2 _ ready_server2); [apply Forall_nil_2|by vm_compute].
  - intros id k a Hin%Hu. apply list_elem_of_singleton in Hin. injection Hin as -> _ _. by vm_compute.
Qed.
Lemma room2 : PrefixInv.room PrefixWitness.st2.1.
Proof.
  apply (PrefixWitness.room_check_correct _ PrefixWitness.st2.2); [apply (PrefixSpec.reach_refines _ _ _ _ PrefixWitness.reach2)|by vm_compute].
Qed.

Lemma session_witness : exists self' client',
  manageConnection_round zeros params (client1 (session1 0 ≫= enc_pdu 1)) handler2 0 = Ok (client', self', 0, false)
  /\ serial client' = ntohl 6
  /\ roa_result (roa_server (server self')) 77 = Some SRx_RESULT_NOTFOUND
  /\ exists e, uc_get (EndOfData.uCache (server self')) 77 = Some e /\ aspaResult (UpdateCache.srxResult e) = SRx_RESULT_VALID.
Proof.
  destruct (session_announces_vrps zeros 1 (client1 (session1 0 ≫= enc_pdu 1)) 0 4 9 6 [] [ten_pdu 0] handler2
              [PrefixWitness.ten_vrp] [PrefixWitness.ten_update] RpkiQueue.rq_createQueue)
    as (client' & self' & Er & Hs & _ & Hres & Hasp & _).
  - apply ready1.
  - done.
  - done.
  - reflexivity.
  - apply (session1_wf 0).
  - apply Forall_cons. split; [by eexists|done].
  - exact refines2.
  - cbn [roomy]. split; [split; [apply room2|split; [apply PrefixWitness.ten_ok|by vm_compute]]|by destruct (apply_data _ _ _ _ _)].
  - exact ready_server2.
  - apply Forall_nil_2.
  - intros uid e [-> ->]%entry2_only. done.
  - by vm_compute.
  - exists self', client'. split; [exact Er|]. split; [exact Hs|]. split.
    + etransitivity; [apply (Hres 77 (PrefixAnnounce.prefix_key PrefixWitness.ten) 65002); by left|by vm_compute].
    + destruct (Hasp 77 entry2 eq_refl) as (e & He & Ha). exists e. split; [exact He|]. rewrite Ha. by vm_compute.
Defined.

(** ** Connections that end badly *)
Lemma silent_witness : exists client',
  manageConnection_round zeros params (client2 []) handler1 0 = Ok (client', handler1, 0, true) /\ stop client' = true.
Proof. apply (silent_connection_stops zeros params (client2 []) handler1 0 4); [apply ready2|done|done|done]. Defined.

Lemma new_session_witness :
  manageConnection_round zeros params (client2 (enc_pdu 1 (CacheResponse 10))) handler1 0 = Fault NullDeref.
Proof.
  apply (new_session_crashes zeros params (client2 (enc_pdu 1 (CacheResponse 10))) handler1 0 4 10 []);
    [apply ready2|done|done|reflexivity| |done].
  apply Forall_cons. split; [by vm_compute|done].
Defined.

(** The connection is lost behind the address: AS 0 is taken for the origin. *)
Definition cut_client : RPKIRouterClient := client2 (take 16 (enc_pdu 1 (ten_pdu 1))).
Lemma truncated_witness : exists h client' err,
  apply_data zeros params cut_client handler1 (IPv4Prefix 1 8 16 [10; 0; 0; 0] 0) = Ok h
  /\ receivePDUs zeros params cut_client handler1 false false = Ok (client', h, err, err =? RRC_RCV_PDU_NO_ERROR).
Proof.
  destruct (apply_data zeros params cut_client handler1 (IPv4Prefix 1 8 16 [10; 0; 0; 0] 0)) as [h|] eqn:Ea;
    [|exfalso; revert Ea; vm_compute; discriminate].
  pose proof (truncated_prefix_processed zeros params cut_client handler1 false 8
              1 8 16 [10; 0; 0; 0] 65002 1 8 16 [10; 0; 0; 0] 0 h) as Ht. cbv zeta in Ht.
  destruct Ht as (client' & err & E).
  - reflexivity.
  - reflexivity.
  - lia.
  - split; [reflexivity|reflexivity].
  - split; [reflexivity|reflexivity].
  - reflexivity.
  - reflexivity.
  - exact Ea.
  - exists h, client', err. split; [reflexivity|exact E].
Defined.

(** ** A router key *)
Definition key_pdu : pdu := RouterKey 1 (replicate 20 7) 65010 (replicate 91 3).
Lemma router_key_witness : exists self' st' c' q',
  apply_data zeros params (client1 []) handler1 key_pdu = Ok self'
  /\ BgpsecOpenssl.BOSSL_pubKeys (srxCAPI self') = Some st'
  /\ KeyStorageTheorems.refines st' {[(ntohl 65010, replicate 20 7) := [replicate 91 3]]}
  /\ sCache self' = Some c' /\ SkiRegister.key_count c' SkiWitness.key1 = 1
  /\ EndOfData.rQueue (server self') = Some q' /\ RpkiQueue.queued (RpkiQueue.elems q') 77 = Some RpkiQueue.RQ_KEY.
Proof.
  destruct (KeyStorageTheorems.ks_init_refines (E := list Z) 1 false) as [Hr Hbw].
  destruct (router_key_announced zeros 1 (client1 []) handler1 1 65010 (replicate 20 7) (replicate 91 3)
    (KeyStorage.ks_init 1 false) ∅ SkiWitness.cache_ex RpkiQueue.rq_createQueue)
    as (self' & st' & c' & q' & E & Ep & Hrf & Es & Hc & Eq & _ & Hn).
  - reflexivity.
  - reflexivity.
  - reflexivity.
  - reflexivity.
  - exact Hr.
  - exact Hbw.
  - reflexivity.
  - split; [split; by vm_compute|reflexivity].
  - by vm_compute.
  - reflexivity.
  - apply SkiWitness.cache_ex_idle.
  - reflexivity.
  - apply EndOfDataWitness.empty_queue_wf.
  - split; by vm_compute.
  - by vm_compute.
  - by vm_compute.
  - exists self', st', c', q'. split; [exact E|]. split; [exact Ep|]. split; [exact Hrf|]. split; [exact Es|].
    split; [etransitivity; [exact Hc|vm_compute; reflexivity]|]. split; [exact Eq|].
    etransitivity; [apply Hn|vm_compute; reflexivity].
Defined.

End RtrWitness.
