(* ===== verification/RouterConfig.v ===== *)
(** * The SRx configuration of the router (quagga-srx/bgpd: bgpd.h, bgpd.c, bgp_vty.c)

    The router side of BGP-SRx is a modified Quagga.  This file holds the settings
    of a BGP instance that concern validation, the commands of the terminal that
    change them, and the invariant of the settings: distributed path validation
    never is on without path validation, and the policy arrays keep their sizes.
    Module ConfigFile writes the settings to the configuration file and reads them
    back. *)
From S2P Require Import Prelude Bytes SrxDefs.

Module RouterConfig.

(** ** Constants *)
Definition CMD_SUCCESS : Z := 0.
Definition CMD_WARNING : Z := 1.
Definition CMD_ERR_NO_MATCH : Z := 2.
Definition CMD_ERR_INCOMPLETE : Z := 4.
Definition CMD_ERR_EXEED_ARGC_MAX : Z := 5.

Definition SRX_CONFIG_EVAL_ASPA : Z := 2 ^ 0.
Definition SRX_CONFIG_EVAL_ORIGIN : Z := 2 ^ 1.
Definition SRX_CONFIG_EVAL_PATH : Z := 2 ^ 2.
Definition SRX_CONFIG_EVAL_PATH_DISTR : Z := 2 ^ 3.
Definition SRX_CONFIG_DISPLAY_INFO : Z := 2 ^ 4.

Definition SRX_HANDHAKE_TIMEOUT : Z := 30.
Definition SRX_KEEP_WINDOW : Z := 900.

Definition LOCPRF_TYPE_ROA : Z := 0.
Definition LOCPRF_TYPE_BGPSEC : Z := 1.
Definition LOCPRF_TYPE_ASPA : Z := 2.
Definition VAL_LOCPRF_CT_ROA : Z := 4.
Definition VAL_LOCPRF_CT_BGPSEC : Z := 3.
Definition VAL_LOCPRF_CT_ASPA : Z := 5.
Definition VAL_LOCPRF_UNDEFINED : Z := 0.
Definition VAL_LOCPRF_VALID : Z := 1.
Definition VAL_LOCPRF_INVALID : Z := 2.
Definition VAL_LOCPRF_NOTFOUND : Z := 3.
Definition VAL_LOCPRF_UNKNOWN : Z := 3.
Definition VAL_LOCPRF_UNVERIFIABLE : Z := 4.

Definition SRX_VAL_POLICY_ORIGIN_IGNORE_NOTFOUND : Z := 2 ^ 0.
Definition SRX_VAL_POLICY_ORIGIN_IGNORE_INVALID : Z := 2 ^ 1.
Definition SRX_VAL_POLICY_ORIGIN_IGNORE_UNDEFINED : Z := 2 ^ 2.
Definition SRX_VAL_POLICY_BGPSEC_IGNORE_INVALID : Z := 2 ^ 3.
Definition SRX_VAL_POLICY_BGPSEC_IGNORE_UNDEFINED : Z := 2 ^ 4.
Definition SRX_VAL_POLICY_ASPA_IGNORE_UNKNOWN : Z := 2 ^ 5.
Definition SRX_VAL_POLICY_ASPA_IGNORE_INVALID : Z := 2 ^ 6.
Definition SRX_VAL_POLICY_ASPA_IGNORE_UNVERIFIABLE : Z := 2 ^ 7.
Definition SRX_VAL_POLICY_ASPA_IGNORE_UNDEFINED : Z := 2 ^ 8.

Definition SRX_VTY_PARAM_ORIGIN_VALUE : Z := 0.
Definition SRX_VTY_PARAM_BGPSEC_VALUE : Z := 1.
Definition SRX_VTY_PARAM_ASPA_VALUE : Z := 2.

Definition SRX_BGP_FLAG_ECOMMUNITY : Z := 2 ^ 0.
Definition SRX_BGP_FLAG_ECOMMUNITY_EBGP : Z := 2 ^ 1.

(** ** Data *)
Record srx_local_pref := mkLocalPref { lp_enable : bool; lp_add : bool; lp_value : Z }.
#[global] Instance srx_local_pref_eq_dec : EqDecision srx_local_pref.
Proof. solve_decision. Defined.
#[global] Instance srx_local_pref_inhabited : Inhabited srx_local_pref := populate (mkLocalPref false false 0).

(** The members of [struct bgp] the validation uses.  The proxy is NULL or its
    identifier and whether it is connected ([isConnected]). *)
Record bgp := mkBgp {
  b_as : Z;
  router_id : Z;
  bgp_flags : Z;
  default_local_pref : Z;
  srx_config : Z;
  srx_keepWindow : Z;
  srx_handshakeTimeout : Z;
  srx_proxyID : Z;
  srx_loc_pref_roa : list srx_local_pref;
  srx_loc_pref_bgpsec : list srx_local_pref;
  srx_loc_pref_aspa : list srx_local_pref;
  srx_val_policy : Z;
  srx_default_roaVal : Z;
  srx_default_bgpsecVal : Z;
  srx_default_aspaVal : Z;
  srxProxy : option (Z * bool);
  srx_ecommunity_flags : Z;
  srx_ecommunity_subcode : Z
}.
Implicit Types (b : bgp).

Definition with_config b c := mkBgp (b_as b) (router_id b) (bgp_flags b) (default_local_pref b) c (srx_keepWindow b)
  (srx_handshakeTimeout b) (srx_proxyID b) (srx_loc_pref_roa b) (srx_loc_pref_bgpsec b) (srx_loc_pref_aspa b) (srx_val_policy b)
  (srx_default_roaVal b) (srx_default_bgpsecVal b) (srx_default_aspaVal b) (srxProxy b) (srx_ecommunity_flags b) (srx_ecommunity_subcode b).
Definition with_proxy b id p := mkBgp (b_as b) (router_id b) (bgp_flags b) (default_local_pref b) (srx_config b) (srx_keepWindow b)
  (srx_handshakeTimeout b) id (srx_loc_pref_roa b) (srx_loc_pref_bgpsec b) (srx_loc_pref_aspa b) (srx_val_policy b)
  (srx_default_roaVal b) (srx_default_bgpsecVal b) (srx_default_aspaVal b) p (srx_ecommunity_flags b) (srx_ecommunity_subcode b).
Definition with_loc_pref b roa sec aspa := mkBgp (b_as b) (router_id b) (bgp_flags b) (default_local_pref b) (srx_config b)
  (srx_keepWindow b) (srx_handshakeTimeout b) (srx_proxyID b) roa sec aspa (srx_val_policy b) (srx_default_roaVal b)
  (srx_default_bgpsecVal b) (srx_default_aspaVal b) (srxProxy b) (srx_ecommunity_flags b) (srx_ecommunity_subcode b).
Definition with_policy b p := mkBgp (b_as b) (router_id b) (bgp_flags b) (default_local_pref b) (srx_config b) (srx_keepWindow b)
  (srx_handshakeTimeout b) (srx_proxyID b) (srx_loc_pref_roa b) (srx_loc_pref_bgpsec b) (srx_loc_pref_aspa b) p
  (srx_default_roaVal b) (srx_default_bgpsecVal b) (srx_default_aspaVal b) (srxProxy b) (srx_ecommunity_flags b) (srx_ecommunity_subcode b).
Definition with_defaults b roa sec aspa := mkBgp (b_as b) (router_id b) (bgp_flags b) (default_local_pref b) (srx_config b)
  (srx_keepWindow b) (srx_handshakeTimeout b) (srx_proxyID b) (srx_loc_pref_roa b) (srx_loc_pref_bgpsec b) (srx_loc_pref_aspa b)
  (srx_val_policy b) roa sec aspa (srxProxy b) (srx_ecommunity_flags b) (srx_ecommunity_subcode b).
Definition with_window b w t := mkBgp (b_as b) (router_id b) (bgp_flags b) (default_local_pref b) (srx_config b) w t (srx_proxyID b)
  (srx_loc_pref_roa b) (srx_loc_pref_bgpsec b) (srx_loc_pref_aspa b) (srx_val_policy b) (srx_default_roaVal b)
  (srx_default_bgpsecVal b) (srx_default_aspaVal b) (srxProxy b) (srx_ecommunity_flags b) (srx_ecommunity_subcode b).
Definition with_ecommunity b f s := mkBgp (b_as b) (router_id b) (bgp_flags b) (default_local_pref b) (srx_config b) (srx_keepWindow b)
  (srx_handshakeTimeout b) (srx_proxyID b) (srx_loc_pref_roa b) (srx_loc_pref_bgpsec b) (srx_loc_pref_aspa b) (srx_val_policy b)
  (srx_default_roaVal b) (srx_default_bgpsecVal b) (srx_default_aspaVal b) (srxProxy b) f s.

(** ** bgpd.c *)
Definition srx_config_set b (flags : Z) : bgp := with_config b (u16 (SET_FLAG (srx_config b) flags)).
Definition srx_config_unset b (flags : Z) : bgp := with_config b (u16 (UNSET_FLAG (srx_config b) flags)).
(** All the flags, not any of them. *)
Definition srx_config_check b (flags : Z) : bool := Z.land (srx_config b) flags =? flags.

Definition isConnected (proxy : option (Z * bool)) : bool := match proxy with Some (_, c) => c | None => false end.
Definition srx_set_proxyID b (proxyID : Z) : bgp * Z :=
  if negb (isConnected (srxProxy b)) then
    (with_proxy b proxyID (match srxProxy b with Some (_, c) => Some (proxyID, c) | None => None end), CMD_SUCCESS)
  else (b, CMD_WARNING).

Definition bgp_srx_set_evaluation b (mode : Z) : bgp * Z :=
  if negb (mode =? 0) then
    if CHECK_FLAG mode SRX_CONFIG_EVAL_ORIGIN || CHECK_FLAG mode SRX_CONFIG_EVAL_PATH
       || CHECK_FLAG mode SRX_CONFIG_EVAL_PATH_DISTR || CHECK_FLAG mode SRX_CONFIG_EVAL_ASPA then
      if CHECK_FLAG mode (Z.lor SRX_CONFIG_EVAL_PATH SRX_CONFIG_EVAL_PATH_DISTR) then
        let mode := SET_FLAG mode SRX_CONFIG_EVAL_PATH in
        let b := if CHECK_FLAG mode SRX_CONFIG_EVAL_PATH_DISTR then b else srx_config_unset b SRX_CONFIG_EVAL_PATH_DISTR in
        (srx_config_set b mode, CMD_SUCCESS)
      else (srx_config_set b mode, CMD_SUCCESS)
    else (b, CMD_ERR_NO_MATCH)
  else (b, CMD_ERR_NO_MATCH).

Definition bgp_srx_unset_evaluation b (mode : Z) : bgp * Z :=
  let path := CHECK_FLAG mode (Z.lor SRX_CONFIG_EVAL_PATH SRX_CONFIG_EVAL_PATH_DISTR) in
  let mode' := if path then SET_FLAG mode (Z.lor SRX_CONFIG_EVAL_PATH SRX_CONFIG_EVAL_PATH_DISTR) else mode in
  if CHECK_FLAG mode SRX_CONFIG_EVAL_ORIGIN || CHECK_FLAG mode SRX_CONFIG_EVAL_ASPA || path
  then (srx_config_unset b mode', CMD_SUCCESS)
  else (b, CMD_ERR_NO_MATCH).

Definition bgp_srx_display b (enable : bool) : bgp * Z :=
  (if enable then srx_config_set b SRX_CONFIG_DISPLAY_INFO else srx_config_unset b SRX_CONFIG_DISPLAY_INFO, CMD_SUCCESS).

(** The defaults have 16 bits. *)
Definition bgp_srx_conf_default_result b (type def_value : Z) : bgp * Z :=
  let v := u16 def_value in
  if type =? SRX_VTY_PARAM_ORIGIN_VALUE then (with_defaults b v (srx_default_bgpsecVal b) (srx_default_aspaVal b), CMD_SUCCESS)
  else if type =? SRX_VTY_PARAM_BGPSEC_VALUE then (with_defaults b (srx_default_roaVal b) v (srx_default_aspaVal b), CMD_SUCCESS)
  else if type =? SRX_VTY_PARAM_ASPA_VALUE then (with_defaults b (srx_default_roaVal b) (srx_default_bgpsecVal b) v, CMD_SUCCESS)
  else (b, CMD_ERR_NO_MATCH).

(** An element of the array [valType] names: the types are told apart by the sizes
    of the arrays. *)
Definition set_loc_pref b (valType : Z) (resultType : nat) (p : srx_local_pref) : bgp :=
  if valType =? LOCPRF_TYPE_ROA then with_loc_pref b (<[resultType := p]> (srx_loc_pref_roa b)) (srx_loc_pref_bgpsec b) (srx_loc_pref_aspa b)
  else if valType =? LOCPRF_TYPE_BGPSEC then with_loc_pref b (srx_loc_pref_roa b) (<[resultType := p]> (srx_loc_pref_bgpsec b)) (srx_loc_pref_aspa b)
  else with_loc_pref b (srx_loc_pref_roa b) (srx_loc_pref_bgpsec b) (<[resultType := p]> (srx_loc_pref_aspa b)).
Definition srx_val_local_preference_set b (valType resultType : Z) (doAdd : bool) (value : Z) : bgp * Z :=
  let p := mkLocalPref (negb (value =? 0)) doAdd value in
  if valType =? VAL_LOCPRF_CT_ROA then
    if valType <? VAL_LOCPRF_CT_ROA then (set_loc_pref b LOCPRF_TYPE_ROA (Z.to_nat resultType) p, CMD_SUCCESS)
    else (b, CMD_ERR_EXEED_ARGC_MAX)
  else if valType =? VAL_LOCPRF_CT_BGPSEC then
    if valType <? VAL_LOCPRF_CT_BGPSEC then (set_loc_pref b LOCPRF_TYPE_BGPSEC (Z.to_nat resultType) p, CMD_SUCCESS)
    else (b, CMD_ERR_EXEED_ARGC_MAX)
  else if valType =? VAL_LOCPRF_CT_ASPA then
    if valType <? VAL_LOCPRF_CT_ASPA then (set_loc_pref b LOCPRF_TYPE_ASPA (Z.to_nat resultType) p, CMD_SUCCESS)
    else (b, CMD_ERR_EXEED_ARGC_MAX)
  else (b, CMD_ERR_NO_MATCH).
Definition srx_val_local_preference_unset b (valType resultType : Z) : bgp * Z :=
  srx_val_local_preference_set b valType resultType true 0.

Definition srx_val_policy_set b (policy : Z) : bgp := with_policy b (u16 (SET_FLAG (srx_val_policy b) policy)).
Definition srx_val_policy_unset b (policy : Z) : bgp := with_policy b (u16 (UNSET_FLAG (srx_val_policy b) policy)).

(** [strncmp(s, t, n) == 0] for strings without NUL *)
Definition strncmp0 (s t : string) (n : nat) : bool := String.eqb (String.substring 0 n s) (String.substring 0 n t).

Definition srx_extcommunity_set b (subcode : Z) (cmd : string) : bgp :=
  let f := SET_FLAG (srx_ecommunity_flags b) SRX_BGP_FLAG_ECOMMUNITY in
  let f := if (0 <? String.length cmd)%nat then
             if strncmp0 "inc" cmd 3 then SET_FLAG f SRX_BGP_FLAG_ECOMMUNITY_EBGP else UNSET_FLAG f SRX_BGP_FLAG_ECOMMUNITY_EBGP
           else f in
  with_ecommunity b (u8 f) subcode.
Definition srx_extcommunity_unset b : bgp :=
  with_ecommunity b (u8 (UNSET_FLAG (UNSET_FLAG (srx_ecommunity_flags b) SRX_BGP_FLAG_ECOMMUNITY) SRX_BGP_FLAG_ECOMMUNITY_EBGP)) 0.

(** [srx_set_default]; the proxy it creates is not connected. *)
Definition srx_set_default b : bgp :=
  let '(b, _) := srx_set_proxyID b (ntohl (router_id b)) in
  let b := with_window b SRX_KEEP_WINDOW SRX_HANDHAKE_TIMEOUT in
  let b := with_config b SRX_CONFIG_DISPLAY_INFO in
  let b := with_policy b (Z.lor (Z.lor SRX_VAL_POLICY_ORIGIN_IGNORE_UNDEFINED SRX_VAL_POLICY_BGPSEC_IGNORE_UNDEFINED)
                            SRX_VAL_POLICY_ASPA_IGNORE_UNDEFINED) in
  let off n := replicate (Z.to_nat n) (mkLocalPref false false 0) in
  let b := with_loc_pref b (off VAL_LOCPRF_CT_ROA) (off VAL_LOCPRF_CT_BGPSEC) (off VAL_LOCPRF_CT_ASPA) in
  let b := with_defaults b SRx_RESULT_UNDEFINED SRx_RESULT_UNDEFINED SRx_RESULT_UNDEFINED in
  with_proxy b (srx_proxyID b) (Some (srx_proxyID b, false)).

(** ** The commands of the terminal (bgp_vty.c)

    The parser of the terminal only passes words of the command's grammar on. *)
Definition evaluation_mode (arg : string) : Z :=
  if strncmp0 arg "origin" 1 then SRX_CONFIG_EVAL_ORIGIN
  else if strncmp0 arg "bgpsec" 1 then SRX_CONFIG_EVAL_PATH
  else if strncmp0 arg "aspa" 1 then SRX_CONFIG_EVAL_ASPA else 0.
Definition srx_evaluation b (arg : string) : bgp * Z :=
  let mode := evaluation_mode arg in
  if negb (mode =? 0) then ((bgp_srx_set_evaluation b mode).1, CMD_SUCCESS) else (b, CMD_ERR_NO_MATCH).
Definition no_srx_evaluation b (arg : string) : bgp * Z :=
  let mode := evaluation_mode arg in
  if negb (mode =? 0) then ((bgp_srx_unset_evaluation b mode).1, CMD_SUCCESS) else (b, CMD_ERR_NO_MATCH).
(** Without a [return]; the terminal gets whatever the register holds. *)
Definition srx_evaluation_bgpsec_distribute b : bgp := (bgp_srx_set_evaluation b SRX_CONFIG_EVAL_PATH_DISTR).1.

Definition srx_conf_default_roa_result b (arg : string) : bgp * Z :=
  let set v := ((bgp_srx_conf_default_result b SRX_VTY_PARAM_ORIGIN_VALUE v).1, CMD_SUCCESS) in
  if strncmp0 arg "valid" 1 then set SRx_RESULT_VALID
  else if strncmp0 arg "notfound" 1 then set SRx_RESULT_NOTFOUND
  else if strncmp0 arg "invalid" 1 then set SRx_RESULT_INVALID
  else if strncmp0 arg "undefined" 1 then set SRx_RESULT_UNDEFINED
  else (b, CMD_ERR_NO_MATCH).
Definition srx_conf_default_bgpsec_result b (arg : string) : bgp * Z :=
  let set v := ((bgp_srx_conf_default_result b SRX_VTY_PARAM_BGPSEC_VALUE v).1, CMD_SUCCESS) in
  if strncmp0 arg "valid" 1 then set SRx_RESULT_VALID
  else if strncmp0 arg "invalid" 1 then set SRx_RESULT_INVALID
  else if strncmp0 arg "undefined" 1 then set SRx_RESULT_UNDEFINED
  else (b, CMD_ERR_NO_MATCH).
Definition srx_conf_default_aspa_result b (arg : string) : bgp * Z :=
  let set v := bgp_srx_conf_default_result b SRX_VTY_PARAM_ASPA_VALUE v in
  if strncmp0 arg "valid" 1 then set SRx_RESULT_VALID
  else if strncmp0 arg "unknown" 3 then set SRx_RESULT_UNKNOWN
  else if strncmp0 arg "invalid" 1 then set SRx_RESULT_INVALID
  else if strncmp0 arg "unverifiable" 3 then set SRx_RESULT_UNVERIFIABLE
  else if strncmp0 arg "undefined" 3 then set SRx_RESULT_UNDEFINED
  else (b, CMD_ERR_NO_MATCH).

(** [strtoul(s, NULL, 10)] of a word of digits: the value, at most [ULONG_MAX]. *)
Fixpoint digits_value (acc : Z) (s : string) : Z :=
  match s with
  | String.String c s =>
      let d := ascii_code c - 48 in
      if (0 <=? d) && (d <=? 9) then digits_value (10 * acc + d) s else acc
  | String.EmptyString => acc
  end.
Definition strtoul (s : string) : Z := Z.min (digits_value 0 s) (2 ^ 64 - 1).
Definition srx_keepwindow b (arg : string) : bgp * Z := (with_window b (signed 32 (strtoul arg)) (srx_handshakeTimeout b), CMD_SUCCESS).
(** The address [inet_aton] read, in network byte order, when it read one. *)
Definition srx_proxyid b (address : option Z) : bgp * Z :=
  match address with
  | Some a => srx_set_proxyID b (ntohl a)
  | None => (b, CMD_WARNING)
  end.

Definition parse_local_pref_index (str : string) : Z :=
  if strncmp0 str "v" 1 then VAL_LOCPRF_VALID
  else if strncmp0 str "i" 1 then VAL_LOCPRF_INVALID
  else if strncmp0 str "n" 1 then VAL_LOCPRF_NOTFOUND
  else if strncmp0 str "und" 3 then VAL_LOCPRF_UNDEFINED
  else if strncmp0 str "unk" 3 then VAL_LOCPRF_UNKNOWN
  else if strncmp0 str "unv" 3 then VAL_LOCPRF_UNVERIFIABLE
  else -1.
Definition parse_local_pref_type (str : string) : Z :=
  if strncmp0 str "r" 1 then LOCPRF_TYPE_ROA
  else if strncmp0 str "b" 1 then LOCPRF_TYPE_BGPSEC else LOCPRF_TYPE_ASPA.

(** The results a type of validation has a policy for. *)
Definition has_loc_pref (valType resultType : Z) : bool :=
  if valType =? LOCPRF_TYPE_ROA then
    bool_decide (resultType ∈ [VAL_LOCPRF_VALID; VAL_LOCPRF_NOTFOUND; VAL_LOCPRF_INVALID; VAL_LOCPRF_UNDEFINED])
  else if valType =? LOCPRF_TYPE_BGPSEC then bool_decide (resultType ∈ [VAL_LOCPRF_VALID; VAL_LOCPRF_INVALID; VAL_LOCPRF_UNDEFINED])
  else if valType =? LOCPRF_TYPE_ASPA then
    bool_decide (resultType ∈ [VAL_LOCPRF_VALID; VAL_LOCPRF_UNKNOWN; VAL_LOCPRF_INVALID; VAL_LOCPRF_UNVERIFIABLE; VAL_LOCPRF_UNDEFINED])
  else false.
(** A result without a policy leaves the pointer NULL, and it is written to. *)
Definition validation_local_preference b (valType : Z) (argv : list string) (set : bool) : outcome (bgp * Z) :=
  let argc := length argv in
  let argNum := (if set then 3 else 1)%nat in
  if (argc <? argNum)%nat then Ok (b, CMD_ERR_INCOMPLETE)
  else if (argc =? argNum)%nat then
    argv0 ← arr_get argv 0;
    let resultType := parse_local_pref_index argv0 in
    if has_loc_pref valType resultType then
      argv1 ← (if set then arr_get argv 1 else Ok EmptyString);
      argv2 ← (if set then arr_get argv 2 else Ok EmptyString);
      let p := mkLocalPref set (set && strncmp0 argv1 "a" 1) (if set then u32 (strtoul argv2) else 0) in
      Ok (set_loc_pref b valType (Z.to_nat resultType) p, CMD_SUCCESS)
    else Fault NullDeref
  else Ok (b, CMD_ERR_EXEED_ARGC_MAX).

Definition roa_ignore_policy (arg : string) : option Z :=
  if strncmp0 arg "invalid" 1 then Some SRX_VAL_POLICY_ORIGIN_IGNORE_INVALID
  else if strncmp0 arg "notfound" 1 then Some SRX_VAL_POLICY_ORIGIN_IGNORE_NOTFOUND
  else if strncmp0 arg "undefined" 1 then Some SRX_VAL_POLICY_ORIGIN_IGNORE_UNDEFINED else None.
(** The number of characters compared differs between the command and its negation. *)
Definition bgpsec_ignore_policy (n : nat) (arg : string) : option Z :=
  if strncmp0 arg "invalid" 1 then Some SRX_VAL_POLICY_BGPSEC_IGNORE_INVALID
  else if strncmp0 arg "undefined" n then Some SRX_VAL_POLICY_BGPSEC_IGNORE_UNDEFINED else None.
Definition aspa_ignore_policy (arg : string) : option Z :=
  if strncmp0 arg "unknown" 3 then Some SRX_VAL_POLICY_ASPA_IGNORE_UNKNOWN
  else if strncmp0 arg "invalid" 1 then Some SRX_VAL_POLICY_ASPA_IGNORE_INVALID
  else if strncmp0 arg "unverifiable" 3 then Some SRX_VAL_POLICY_ASPA_IGNORE_UNVERIFIABLE
  else if strncmp0 arg "undefined" 3 then Some SRX_VAL_POLICY_ASPA_IGNORE_UNDEFINED else None.
Definition change_policy b (f : bgp -> Z -> bgp) (policy : option Z) : bgp * Z :=
  match policy with Some p => (f b p, CMD_SUCCESS) | None => (b, CMD_ERR_NO_MATCH) end.
Definition srx_policy_roa_ignore b arg := change_policy b srx_val_policy_set (roa_ignore_policy arg).
Definition no_srx_policy_roa_ignore b arg := change_policy b srx_val_policy_unset (roa_ignore_policy arg).
Definition srx_policy_bgpsec_ignore b arg := change_policy b srx_val_policy_set (bgpsec_ignore_policy 1 arg).
Definition no_srx_policy_bgpsec_ignore b arg := change_policy b srx_val_policy_unset (bgpsec_ignore_policy 3 arg).
Definition srx_policy_aspa_ignore b arg := change_policy b srx_val_policy_set (aspa_ignore_policy arg).
Definition no_srx_policy_aspa_ignore b arg := change_policy b srx_val_policy_unset (aspa_ignore_policy arg).

(** The commands as data: what a configuration file or a user enters. *)
Inductive command :=
| Evaluation (arg : string)
| NoEvaluation (arg : string)
| EvaluationDistributed
| DefaultRoa (arg : string)
| DefaultBgpsec (arg : string)
| DefaultAspa (arg : string)
| Display (enable : bool)
| KeepWindow (arg : string)
| ProxyId (address : option Z)
| LocalPreference (valType : Z) (argv : list string) (set : bool)
| RoaIgnore (set : bool) (arg : string)
| BgpsecIgnore (set : bool) (arg : string)
| AspaIgnore (set : bool) (arg : string)
| ExtCommunity (subcode : Z) (arg : string)
| NoExtCommunity.
Definition run_command b (c : command) : outcome bgp :=
  match c with
  | Evaluation a => Ok (srx_evaluation b a).1
  | NoEvaluation a => Ok (no_srx_evaluation b a).1
  | EvaluationDistributed => Ok (srx_evaluation_bgpsec_distribute b)
  | DefaultRoa a => Ok (srx_conf_default_roa_result b a).1
  | DefaultBgpsec a => Ok (srx_conf_default_bgpsec_result b a).1
  | DefaultAspa a => Ok (srx_conf_default_aspa_result b a).1
  | Display e => Ok (bgp_srx_display b e).1
  | KeepWindow a => Ok (srx_keepwindow b a).1
  | ProxyId a => Ok (srx_proxyid b a).1
  | LocalPreference t argv set => '(b, _) ← validation_local_preference b t argv set; Ok b
  | RoaIgnore set a => Ok (if set then srx_policy_roa_ignore b a else no_srx_policy_roa_ignore b a).1
  | BgpsecIgnore set a => Ok (if set then srx_policy_bgpsec_ignore b a else no_srx_policy_bgpsec_ignore b a).1
  | AspaIgnore set a => Ok (if set then srx_policy_aspa_ignore b a else no_srx_policy_aspa_ignore b a).1
  | ExtCommunity s a => Ok (srx_extcommunity_set b s a)
  | NoExtCommunity => Ok (srx_extcommunity_unset b)
  end.
Fixpoint run_commands b (cs : list command) : outcome bgp :=
  match cs with [] => Ok b | c :: cs => b ← run_command b c; run_commands b cs end.

(** ** The evaluations as booleans

    What the commands do to the four bits of the evaluation. *)
Record modes := mkModes { eval_origin : bool; eval_path : bool; eval_distr : bool; eval_aspa : bool }.
Definition modes_of b : modes :=
  mkModes (Z.testbit (srx_config b) 1) (Z.testbit (srx_config b) 2) (Z.testbit (srx_config b) 3) (Z.testbit (srx_config b) 0).
Definition eval_spec (m : modes) (c : command) : modes :=
  match c with
  | Evaluation a =>
      if strncmp0 a "origin" 1 then mkModes true (eval_path m) (eval_distr m) (eval_aspa m)
      else if strncmp0 a "bgpsec" 1 then mkModes (eval_origin m) true false (eval_aspa m)
      else if strncmp0 a "aspa" 1 then mkModes (eval_origin m) (eval_path m) (eval_distr m) true else m
  | NoEvaluation a =>
      if strncmp0 a "origin" 1 then mkModes false (eval_path m) (eval_distr m) (eval_aspa m)
      else if strncmp0 a "bgpsec" 1 then mkModes (eval_origin m) false false (eval_aspa m)
      else if strncmp0 a "aspa" 1 then mkModes (eval_origin m) (eval_path m) (eval_distr m) false else m
  | EvaluationDistributed => mkModes (eval_origin m) true true (eval_aspa m)
  | _ => m
  end.

#[local] Arguments Z.testbit : simpl never.
#[local] Arguments srx_config_set : simpl never.
#[local] Arguments srx_config_unset : simpl never.

Lemma testbit_config_set b f i : 0 <= i < 16 -> Z.testbit (srx_config (srx_config_set b f)) i = Z.testbit (srx_config b) i || Z.testbit f i.
Proof. intros Hi. unfold srx_config_set; cbn [srx_config with_config]. rewrite testbit_wrap by lia. apply Z.lor_spec. Qed.
Lemma testbit_config_unset b f i :
  0 <= i < 16 -> Z.testbit (srx_config (srx_config_unset b f)) i = Z.testbit (srx_config b) i && negb (Z.testbit f i).
Proof. intros Hi. unfold srx_config_unset; cbn [srx_config with_config]. rewrite testbit_wrap by lia. unfold UNSET_FLAG. rewrite Z.land_spec, Z.lnot_spec by lia. done. Qed.

Ltac closed_bits :=
  repeat match goal with
  | |- context [Z.testbit ?m ?i] =>
      lazymatch m with context [srx_config] => fail | _ => let r := eval vm_compute in (Z.testbit m i) in change (Z.testbit m i) with r end
  end.
Ltac eval_bits :=
  unfold modes_of; rewrite ?testbit_config_set, ?testbit_config_unset by lia; closed_bits;
  cbn [negb]; rewrite ?orb_false_r, ?orb_true_r, ?andb_true_r, ?andb_false_r.

Definition path_modes : Z := Z.lor SRX_CONFIG_EVAL_PATH SRX_CONFIG_EVAL_PATH_DISTR.
Lemma set_evaluation_eq b :
  srx_evaluation b "origin" = (srx_config_set b SRX_CONFIG_EVAL_ORIGIN, CMD_SUCCESS)
  /\ srx_evaluation b "bgpsec" = (srx_config_set (srx_config_unset b SRX_CONFIG_EVAL_PATH_DISTR) SRX_CONFIG_EVAL_PATH, CMD_SUCCESS)
  /\ srx_evaluation b "aspa" = (srx_config_set b SRX_CONFIG_EVAL_ASPA, CMD_SUCCESS)
  /\ no_srx_evaluation b "origin" = (srx_config_unset b SRX_CONFIG_EVAL_ORIGIN, CMD_SUCCESS)
  /\ no_srx_evaluation b "bgpsec" = (srx_config_unset b path_modes, CMD_SUCCESS)
  /\ no_srx_evaluation b "aspa" = (srx_config_unset b SRX_CONFIG_EVAL_ASPA, CMD_SUCCESS).
Proof. done. Qed.
(** Only the first letter counts. *)
Lemma evaluation_word b a :
  let w := if strncmp0 a "origin" 1 then "origin" else if strncmp0 a "bgpsec" 1 then "bgpsec" else if strncmp0 a "aspa" 1 then "aspa" else "" in
  srx_evaluation b a = srx_evaluation b w /\ no_srx_evaluation b a = no_srx_evaluation b w.
Proof. unfold srx_evaluation, no_srx_evaluation, evaluation_mode. repeat case_match; try done. Qed.

Lemma modes_of_config b b' : srx_config b' = srx_config b -> modes_of b' = modes_of b.
Proof. unfold modes_of. by intros ->. Qed.

(** ** What the other commands leave alone *)
Lemma set_loc_pref_config b t n p : srx_config (set_loc_pref b t n p) = srx_config b /\ srx_val_policy (set_loc_pref b t n p) = srx_val_policy b.
Proof. unfold set_loc_pref. by repeat case_match. Qed.
Lemma conf_default_config b t v : srx_config (bgp_srx_conf_default_result b t v).1 = srx_config b.
Proof. unfold bgp_srx_conf_default_result. by repeat case_match. Qed.
Lemma change_policy_config b f p : (forall b v, srx_config (f b v) = srx_config b) -> srx_config (change_policy b f p).1 = srx_config b.
Proof. intros Hf. unfold change_policy. destruct p; [apply Hf|done]. Qed.
Lemma set_proxyID_config b v : srx_config (srx_set_proxyID b v).1 = srx_config b.
Proof. unfold srx_set_proxyID. by destruct (negb _). Qed.
Lemma local_preference_inv b t argv set b' r : validation_local_preference b t argv set = Ok (b', r) ->
  b' = b \/ exists i p, has_loc_pref t i = true /\ in_u 32 (lp_value p) /\ b' = set_loc_pref b t (Z.to_nat i) p.
Proof.
  unfold validation_local_preference. destruct (_ <? _)%nat; [intros [= <- _]; by left|].
  destruct (_ =? _)%nat; [|intros [= <- _]; by left]. intros H. bind_inv H.
  destruct (has_loc_pref t _) eqn:Ep; [|done]. right.
  destruct set; repeat bind_inv H; injection H as <- _; eexists _, _; (split; [exact Ep|]); (split; [|reflexivity]); [by apply wrap_in_u|done].
Qed.

Lemma eval_command b c b' : run_command b c = Ok b' -> modes_of b' = eval_spec (modes_of b) c.
Proof.
  destruct (set_evaluation_eq b) as (E1 & E2 & E3 & E4 & E5 & E6).
  destruct c as [a|a| | | | | | | |? ? ?| | | | |]; cbn [run_command eval_spec].
  - intros [= <-]. rewrite (proj1 (evaluation_word b a)). repeat case_match; rewrite ?E1, ?E2, ?E3; cbn [fst]; eval_bits; done.
  - intros [= <-]. rewrite (proj2 (evaluation_word b a)). repeat case_match; rewrite ?E4, ?E5, ?E6; cbn [fst]; eval_bits; done.
  - intros [= <-]. change (srx_evaluation_bgpsec_distribute b) with (srx_config_set b path_modes). eval_bits; done.
  - intros [= <-]. apply modes_of_config. unfold srx_conf_default_roa_result. repeat case_match; try done; apply conf_default_config.
  - intros [= <-]. apply modes_of_config. unfold srx_conf_default_bgpsec_result. repeat case_match; try done; apply conf_default_config.
  - intros [= <-]. apply modes_of_config. unfold srx_conf_default_aspa_result. repeat case_match; try done; apply conf_default_config.
  - intros [= <-]. destruct enable; cbn [bgp_srx_display fst]; eval_bits; done.
  - intros [= <-]. by apply modes_of_config.
  - intros [= <-]. apply modes_of_config. unfold srx_proxyid. destruct address; [apply set_proxyID_config|done].
  - intros H. bind_inv H. destruct a as [b1 r]. simplify_eq/=. apply modes_of_config.
    destruct (local_preference_inv _ _ _ _ _ _ E) as [->|(i & p & _ & _ & ->)]; [done|apply set_loc_pref_config].
  - intros [= <-]. apply modes_of_config. destruct set; by apply change_policy_config.
  - intros [= <-]. apply modes_of_config. destruct set; by apply change_policy_config.
  - intros [= <-]. apply modes_of_config. destruct set; by apply change_policy_config.
  - intros [= <-]. by apply modes_of_config.
  - intros [= <-]. by apply modes_of_config.
Qed.

(** ** The invariant of the settings *)
Record cfg_wf b : Prop := mk_cfg_wf {
  cw_config : in_u 16 (srx_config b);
  cw_policy : in_u 16 (srx_val_policy b);
  cw_distr : eval_distr (modes_of b) = true -> eval_path (modes_of b) = true;
  cw_roa : length (srx_loc_pref_roa b) = Z.to_nat VAL_LOCPRF_CT_ROA;
  cw_bgpsec : length (srx_loc_pref_bgpsec b) = Z.to_nat VAL_LOCPRF_CT_BGPSEC;
  cw_aspa : length (srx_loc_pref_aspa b) = Z.to_nat VAL_LOCPRF_CT_ASPA;
  cw_values : Forall (fun p => in_u 32 (lp_value p)) (srx_loc_pref_roa b ++ srx_loc_pref_bgpsec b ++ srx_loc_pref_aspa b)
}.

Lemma default_wf b : cfg_wf (srx_set_default b) /\ modes_of (srx_set_default b) = mkModes false false false false.
Proof.
  unfold srx_set_default. destruct (srx_set_proxyID b _) as [c r]. split; [|done].
  constructor; try done. by repeat constructor.
Qed.

(** A command either changes the flags of the evaluation, or the ignore policies, or
    one local preference, or nothing of the invariant. *)
Inductive same_prefs b b' : Prop := mk_same
  (same_roa : srx_loc_pref_roa b' = srx_loc_pref_roa b) (same_sec : srx_loc_pref_bgpsec b' = srx_loc_pref_bgpsec b)
  (same_aspa : srx_loc_pref_aspa b' = srx_loc_pref_aspa b)
  (same_config : srx_config b' = srx_config b \/ in_u 16 (srx_config b')) (same_policy : srx_val_policy b' = srx_val_policy b \/ in_u 16 (srx_val_policy b')).
#[local] Hint Constructors same_prefs : core.

Lemma change_policy_same b f p : (forall v, same_prefs b (f b v)) -> same_prefs b (change_policy b f p).1.
Proof. intros Hf. destruct p; cbn; auto. Qed.
Lemma config_set_same b f : same_prefs b (srx_config_set b f).
Proof. constructor; auto. right. by apply wrap_in_u. Qed.
Lemma config_unset_same b f : same_prefs b (srx_config_unset b f).
Proof. constructor; auto. right. by apply wrap_in_u. Qed.
Lemma default_same b t v : same_prefs b (bgp_srx_conf_default_result b t v).1.
Proof. unfold bgp_srx_conf_default_result. repeat case_match; auto. Qed.
Lemma policy_set_same b v : same_prefs b (srx_val_policy_set b v).
Proof. constructor; auto. right. by apply wrap_in_u. Qed.
Lemma policy_unset_same b v : same_prefs b (srx_val_policy_unset b v).
Proof. constructor; auto. right. by apply wrap_in_u. Qed.
#[local] Hint Resolve change_policy_same config_set_same config_unset_same default_same policy_set_same policy_unset_same : core.

Lemma evaluation_same b a : same_prefs b (srx_evaluation b a).1 /\ same_prefs b (no_srx_evaluation b a).1.
Proof.
  destruct (set_evaluation_eq b) as (E1 & E2 & E3 & E4 & E5 & E6). destruct (evaluation_word b a) as [-> ->].
  repeat case_match; rewrite ?E1, ?E2, ?E3, ?E4, ?E5, ?E6; cbn [fst]; auto.
  split; auto. constructor; auto. right. by apply wrap_in_u.
Qed.

Lemma command_same b c b' : run_command b c = Ok b' ->
  same_prefs b b' \/ exists t i p, has_loc_pref t i = true /\ in_u 32 (lp_value p) /\ b' = set_loc_pref b t (Z.to_nat i) p.
Proof.
  destruct c; cbn [run_command]; try (intros [= <-]; left); try (by auto).
  - apply evaluation_same.
  - apply evaluation_same.
  - apply (config_set_same b path_modes).
  - unfold srx_conf_default_roa_result. repeat case_match; auto.
  - unfold srx_conf_default_bgpsec_result. repeat case_match; auto.
  - unfold srx_conf_default_aspa_result. repeat case_match; auto.
  - destruct enable; cbn; auto.
  - unfold srx_proxyid, srx_set_proxyID. repeat case_match; cbn; auto.
  - intros H. bind_inv H. destruct a as [b1 r]. injection H as <-.
    destruct (local_preference_inv _ _ _ _ _ _ E) as [->|(i & p & Hp)]; [left; auto|right; by exists valType, i, p].
  - destruct set; apply change_policy_same; auto.
  - destruct set; apply change_policy_same; auto.
  - destruct set; apply change_policy_same; auto.
Qed.

Lemma Forall_insert_u32 (l : list srx_local_pref) i p :
  in_u 32 (lp_value p) -> Forall (fun p => in_u 32 (lp_value p)) l -> Forall (fun p => in_u 32 (lp_value p)) (<[i := p]> l).
Proof. intros Hp Hl. by apply Forall_insert. Qed.

Lemma command_wf b c b' : cfg_wf b -> run_command b c = Ok b' -> cfg_wf b'.
Proof.
  intros [H1 H2 H3 H4 H5 H6 H7] Hr. pose proof (eval_command _ _ _ Hr) as Hm.
  assert (eval_distr (modes_of b') = true -> eval_path (modes_of b') = true) as H3'.
  { rewrite Hm. destruct c; cbn [eval_spec]; try done; by repeat case_match. }
  apply Forall_app in H7 as [Ha [Hb Hc]%Forall_app].
  destruct (command_same _ _ _ Hr) as [[Er Es Ea Ec Ep]|(t & i & p & _ & Hp & ->)].
  - constructor; rewrite ?Er, ?Es, ?Ea; try done; [by destruct Ec as [->|]|by destruct Ep as [->|]|by rewrite !Forall_app].
  - destruct (set_loc_pref_config b t (Z.to_nat i) p) as [E1 E2]. constructor; rewrite ?E1, ?E2; try done;
      unfold set_loc_pref; repeat case_match; cbn; rewrite ?length_insert, ?Forall_app; auto using Forall_insert_u32.
Qed.

Lemma commands_inv cs : forall b b', cfg_wf b -> run_commands b cs = Ok b' ->
  modes_of b' = fold_left eval_spec cs (modes_of b) /\ cfg_wf b'.
Proof.
  induction cs as [|c cs IH]; intros b b' Hw; cbn [run_commands fold_left]; [by intros [= <-]|].
  intros H. destruct (run_command b c) as [b1|] eqn:E; [|done]. cbn [mbind outcome_bind] in H.
  rewrite <- (eval_command _ _ _ E). apply IH; [by apply (command_wf _ _ _ Hw E)|done].
Qed.
Lemma commands_wf b cs b' : run_commands (srx_set_default b) cs = Ok b' -> cfg_wf b'.
Proof. intros E. by apply (commands_inv cs (srx_set_default b)); [apply default_wf|]. Qed.

(** C23  From the defaults, any list of configuration commands turns the evaluations on
    and off as the commands say; distributed path validation implies path validation and
    every policy stays in its array and its range. *)
Theorem commands_modes b cs b' : run_commands (srx_set_default b) cs = Ok b' ->
  modes_of b' = fold_left eval_spec cs (mkModes false false false false) /\ cfg_wf b'.
Proof. intros E. destruct (default_wf b) as [Hw <-]. by apply commands_inv. Qed.
End RouterConfig.

(** * The configuration file

    What [srx_config_write_configuration] of bgpd.c writes and what the start of the
    router reads back.  A line is the list of its words; the lines that are comments,
    and those for the address of the server, are left out. *)
Module ConfigFile.
Import RouterConfig.

(** A word, the text of a [%d] or of four octets. *)
Inductive token := W (s : string) | D (n : Z) | IP (a b c d : Z).
Definition text (n : Z) : string := String.string_of_list_ascii ((fun c => Ascii.ascii_of_nat (Z.to_nat c)) <$> fmt_d n).

(** ** Writing *)
Definition write_evaluation (b : bgp) : list (list token) :=
  if srx_config_check b (Z.lor (Z.lor SRX_CONFIG_EVAL_ORIGIN SRX_CONFIG_EVAL_PATH) SRX_CONFIG_EVAL_ASPA) then
    (if srx_config_check b SRX_CONFIG_EVAL_ORIGIN then [[W "srx"; W "evaluation"; W "origin"]]
     else [[W "no"; W "srx"; W "evaluation"; W "origin"]])
    ++ (if srx_config_check b SRX_CONFIG_EVAL_PATH then
          if srx_config_check b SRX_CONFIG_EVAL_PATH_DISTR then [[W "srx"; W "evaluation"; W "bgpsec"; W "distributed"]]
          else [[W "srx"; W "evaluation"; W "bgpsec"]]
        else [[W "no"; W "srx"; W "evaluation"; W "bgpsec"]])
    ++ (if srx_config_check b SRX_CONFIG_EVAL_ASPA then [[W "srx"; W "evaluation"; W "aspa"]]
        else [[W "no"; W "srx"; W "evaluation"; W "aspa"]])
  else [[W "no"; W "srx"; W "evaluation"; W "origin"]; [W "no"; W "srx"; W "evaluation"; W "bgpsec"];
        [W "no"; W "srx"; W "evaluation"; W "aspa"]].
Definition write_community (b : bgp) : list (list token) :=
  if CHECK_FLAG (srx_ecommunity_flags b) SRX_BGP_FLAG_ECOMMUNITY then
    if CHECK_FLAG (srx_ecommunity_flags b) SRX_BGP_FLAG_ECOMMUNITY_EBGP
    then [[W "srx"; W "extcommunity"; D (srx_ecommunity_subcode b); W "include_ebgp"]]
    else [[W "srx"; W "extcommunity"; D (srx_ecommunity_subcode b); W "only_ibgp"]]
  else [[W "no"; W "srx"; W "extcommunity"]].
Definition write_display (b : bgp) : list (list token) :=
  [(if srx_config_check b SRX_CONFIG_DISPLAY_INFO then [] else [W "no"]) ++ [W "srx"; W "display"]].
(** The default of ASPA is written from the one of BGPsec. *)
Definition write_defaults (b : bgp) : list (list token) :=
  let roa v := if v =? SRx_RESULT_VALID then "valid" else if v =? SRx_RESULT_NOTFOUND then "notfound"
               else if v =? SRx_RESULT_INVALID then "invalid" else "undefined" in
  let bgpsec v := if v =? SRx_RESULT_VALID then "valid" else if v =? SRx_RESULT_UNKNOWN then "unknown"
                  else if v =? SRx_RESULT_UNVERIFIABLE then "unverifiable" else if v =? SRx_RESULT_INVALID then "invalid" else "undefined" in
  let aspa v := if v =? SRx_RESULT_VALID then "valid" else if v =? SRx_RESULT_INVALID then "invalid" else "undefined" in
  [[W "srx"; W "set-origin-value"; W (roa (srx_default_roaVal b))];
   [W "srx"; W "set-bgpsec-value"; W (bgpsec (srx_default_bgpsecVal b))];
   [W "srx"; W "set-aspa-value"; W (aspa (srx_default_bgpsecVal b))]].
(** The word for the origin is [roa] in one line. *)
Definition write_ignore (b : bgp) : list (list token) :=
  let on f := CHECK_FLAG (srx_val_policy b) f in
  (if on SRX_VAL_POLICY_ORIGIN_IGNORE_INVALID then [[W "srx"; W "policy"; W "origin"; W "ignore"; W "invalid"]] else [])
  ++ (if on SRX_VAL_POLICY_ORIGIN_IGNORE_NOTFOUND then [[W "srx"; W "policy"; W "origin"; W "ignore"; W "notfound"]] else [])
  ++ (if on SRX_VAL_POLICY_ORIGIN_IGNORE_UNDEFINED then [[W "srx"; W "policy"; W "origin"; W "ignore"; W "undefined"]]
      else [[W "no"; W "srx"; W "policy"; W "roa"; W "ignore"; W "undefined"]])
  ++ (if on SRX_VAL_POLICY_BGPSEC_IGNORE_INVALID then [[W "srx"; W "policy"; W "bgpsec"; W "ignore"; W "invalid"]] else [])
  ++ (if on SRX_VAL_POLICY_BGPSEC_IGNORE_UNDEFINED then [[W "srx"; W "policy"; W "bgpsec"; W "ignore"; W "undefined"]]
      else [[W "no"; W "srx"; W "policy"; W "bgpsec"; W "ignore"; W "undefined"]])
  ++ (if on SRX_VAL_POLICY_ASPA_IGNORE_INVALID then [[W "srx"; W "policy"; W "aspa"; W "ignore"; W "invalid"]] else [])
  ++ (if on SRX_VAL_POLICY_ASPA_IGNORE_UNKNOWN then [[W "srx"; W "policy"; W "aspa"; W "ignore"; W "unknown"]] else [])
  ++ (if on SRX_VAL_POLICY_ASPA_IGNORE_UNVERIFIABLE then [[W "srx"; W "policy"; W "aspa"; W "ignore"; W "unverifiable"]] else [])
  ++ (if on SRX_VAL_POLICY_ASPA_IGNORE_UNDEFINED then [[W "srx"; W "policy"; W "aspa"; W "ignore"; W "undefined"]]
      else [[W "no"; W "srx"; W "policy"; W "aspa"; W "ignore"; W "undefined"]]).
(** It ends without a [return]; the result only decides about an empty line. *)
Definition _srx_write_config_loc_pref (locPref : outcome srx_local_pref) (type valState : string) : outcome (list (list token)) :=
  p ← locPref;
  Ok (if lp_enable p
      then [[W "srx"; W "policy"; W type; W "local-preference"; W valState; W (if lp_add p then "add" else "subtract"); D (signed 32 (lp_value p))]]
      else []).
Fixpoint write_loc_prefs (l : list srx_local_pref) (type : string) (states : list (Z * string)) : outcome (list (list token)) :=
  match states with
  | [] => Ok []
  | (i, st) :: states =>
      ls ← _srx_write_config_loc_pref (arr_get l (Z.to_nat i)) type st;
      rest ← write_loc_prefs l type states;
      Ok (ls ++ rest)
  end.
Definition roa_states : list (Z * string) :=
  [(VAL_LOCPRF_VALID, "valid"); (VAL_LOCPRF_NOTFOUND, "notfound"); (VAL_LOCPRF_INVALID, "invalid"); (VAL_LOCPRF_UNDEFINED, "undefined")].
Definition bgpsec_states : list (Z * string) :=
  [(VAL_LOCPRF_VALID, "valid"); (VAL_LOCPRF_INVALID, "invalid"); (VAL_LOCPRF_UNDEFINED, "undefined")].
Definition aspa_states : list (Z * string) :=
  [(VAL_LOCPRF_VALID, "valid"); (VAL_LOCPRF_UNKNOWN, "unknown"); (VAL_LOCPRF_INVALID, "invalid");
   (VAL_LOCPRF_UNVERIFIABLE, "unverifiable"); (VAL_LOCPRF_UNDEFINED, "undefined")].
Definition octet (x i : Z) : Z := Z.land (Z.shiftr x i) 0xFF.
Definition srx_config_write_configuration (b : bgp) : outcome (list (list token)) :=
  roa ← write_loc_prefs (srx_loc_pref_roa b) "origin" roa_states;
  bgpsec ← write_loc_prefs (srx_loc_pref_bgpsec b) "bgpsec" bgpsec_states;
  aspa ← write_loc_prefs (srx_loc_pref_aspa b) "aspa" aspa_states;
  let id := srx_proxyID b in
  Ok ([[W "srx"; W "set-proxy-id"; IP (octet id 24) (octet id 16) (octet id 8) (Z.land id 0xFF)]]
      ++ [[W "srx"; W "keep-window"; D (srx_keepWindow b)]]
      ++ write_evaluation b ++ write_community b ++ write_display b ++ write_defaults b ++ write_ignore b ++ roa ++ bgpsec ++ aspa).

(** ** Reading

    A command is a list of keywords and variable words; what the variable words match
    are the arguments of its function. *)
Inductive item := Kw (s : string) | Choice (l : list string) | Range (lo hi : Z).
Fixpoint match_items (g : list item) (l : list token) : option (list string) :=
  match g, l with
  | [], [] => Some []
  | Kw s :: g, W t :: l => if String.eqb s t then match_items g l else None
  | Choice c :: g, W t :: l => if existsb (String.eqb t) c then cons t <$> match_items g l else None
  | Range lo hi :: g, D n :: l => if (lo <=? n) && (n <=? hi) then cons (text n) <$> match_items g l else None
  | _, _ => None
  end.
Definition arg0 (argv : list string) : string := default "" (argv !! 0%nat).
Definition local_preference (name : string) (type : Z) (states no_states : list string) : list (list item * (list string -> command)) :=
  [([Kw "srx"; Kw "policy"; Kw name; Kw "local-preference"; Choice states; Choice ["add"; "subtract"]; Range 0 4294967295],
    fun argv => LocalPreference type argv true);
   ([Kw "no"; Kw "srx"; Kw "policy"; Kw name; Kw "local-preference"; Choice no_states], fun argv => LocalPreference type argv false)].
Definition ignore_policy (name : string) (states : list string) (c : bool -> string -> command) : list (list item * (list string -> command)) :=
  [([Kw "srx"; Kw "policy"; Kw name; Kw "ignore"; Choice states], fun argv => c true (arg0 argv));
   ([Kw "no"; Kw "srx"; Kw "policy"; Kw name; Kw "ignore"; Choice states], fun argv => c false (arg0 argv))].
Definition grammar : list (list item * (list string -> command)) :=
  [([Kw "srx"; Kw "evaluation"; Choice ["origin"; "bgpsec"; "aspa"]], fun argv => Evaluation (arg0 argv));
   ([Kw "no"; Kw "srx"; Kw "evaluation"; Choice ["origin"; "bgpsec"; "aspa"]], fun argv => NoEvaluation (arg0 argv));
   ([Kw "srx"; Kw "evaluation"; Kw "bgpsec"; Kw "distributed"], fun _ => EvaluationDistributed);
   ([Kw "srx"; Kw "set-origin-value"; Choice ["valid"; "notfound"; "invalid"; "undefined"]], fun argv => DefaultRoa (arg0 argv));
   ([Kw "srx"; Kw "set-bgpsec-value"; Choice ["valid"; "invalid"; "undefined"]], fun argv => DefaultBgpsec (arg0 argv));
   ([Kw "srx"; Kw "set-aspa-value"; Choice ["valid"; "unknown"; "invalid"; "unverifiable"; "undefined"]], fun argv => DefaultAspa (arg0 argv));
   ([Kw "srx"; Kw "display"], fun _ => Display true);
   ([Kw "no"; Kw "srx"; Kw "display"], fun _ => Display false);
   ([Kw "srx"; Kw "keep-window"; Range 0 65535], fun argv => KeepWindow (arg0 argv));
   ([Kw "srx"; Kw "extcommunity"; Range 0 255], fun argv => ExtCommunity (strtoul (arg0 argv)) "");
   ([Kw "srx"; Kw "extcommunity"; Range 0 255; Choice ["include_ebgp"; "only_ibgp"]],
    fun argv => ExtCommunity (strtoul (arg0 argv)) (default "" (argv !! 1%nat)));
   ([Kw "no"; Kw "srx"; Kw "extcommunity"], fun _ => NoExtCommunity)]
  ++ local_preference "origin" LOCPRF_TYPE_ROA ["valid"; "notfound"; "invalid"; "undefined"] ["valid"; "notfound"; "invalid"; "undefined"]
  ++ local_preference "bgpsec" LOCPRF_TYPE_BGPSEC ["valid"; "invalid"; "undefined"] ["valid"; "invalid"; "undefined"]
  ++ local_preference "aspa" LOCPRF_TYPE_ASPA ["valid"; "unknown"; "invalid"; "unverifiable"; "undefined"]
       ["unknown"; "invalid"; "unverifiable"; "undefined"]
  ++ ignore_policy "origin" ["notfound"; "invalid"; "undefined"] RoaIgnore
  ++ ignore_policy "bgpsec" ["invalid"; "undefined"] BgpsecIgnore
  ++ ignore_policy "aspa" ["unknown"; "invalid"; "unverifiable"; "undefined"] AspaIgnore.
(** The router wants exactly one command to match; the commands exclude each other
    ([commands_unambiguous]), so the first one is it. *)
Fixpoint find_command (cs : list (list item * (list string -> command))) (l : list token) : option command :=
  match cs with
  | [] => None
  | (g, f) :: cs => match match_items g l with Some argv => Some (f argv) | None => find_command cs l end
  end.
(** [inet_aton] of the address is in network byte order. *)
Definition read_line (l : list token) : option command :=
  match l with
  | [W s; W t; IP a b c d] =>
      if String.eqb s "srx" && String.eqb t "set-proxy-id"
      then Some (ProxyId (Some (ntohl (Z.shiftl a 24 + Z.shiftl b 16 + Z.shiftl c 8 + d)))) else None
  | _ => find_command grammar l
  end.
(** What a command returns; the one for distributed evaluation has no [return]. *)
Definition command_ret (b : bgp) (c : command) : outcome Z :=
  match c with
  | Evaluation a => Ok (srx_evaluation b a).2
  | NoEvaluation a => Ok (no_srx_evaluation b a).2
  | EvaluationDistributed => Fault UninitRead
  | DefaultRoa a => Ok (srx_conf_default_roa_result b a).2
  | DefaultBgpsec a => Ok (srx_conf_default_bgpsec_result b a).2
  | DefaultAspa a => Ok (srx_conf_default_aspa_result b a).2
  | Display e => Ok (bgp_srx_display b e).2
  | KeepWindow a => Ok (srx_keepwindow b a).2
  | ProxyId a => Ok (srx_proxyid b a).2
  | LocalPreference t argv set => '(_, r) ← validation_local_preference b t argv set; Ok r
  | RoaIgnore set a => Ok (if set then srx_policy_roa_ignore b a else no_srx_policy_roa_ignore b a).2
  | BgpsecIgnore set a => Ok (if set then srx_policy_bgpsec_ignore b a else no_srx_policy_bgpsec_ignore b a).2
  | AspaIgnore set a => Ok (if set then srx_policy_aspa_ignore b a else no_srx_policy_aspa_ignore b a).2
  | ExtCommunity _ _ | NoExtCommunity => Ok CMD_SUCCESS
  end.
(** [config_from_file] of lib/command.c: [None] when a line is not a command or its
    command fails, and the router exits. *)
Fixpoint config_from_file (b : bgp) (ls : list (list token)) : outcome (option bgp) :=
  match ls with
  | [] => Ok (Some b)
  | l :: ls =>
      match read_line l with
      | None => Ok None
      | Some c =>
          b' ← run_command b c;
          ret ← command_ret b c;
          if negb (ret =? CMD_SUCCESS) && negb (ret =? CMD_WARNING) then Ok None else config_from_file b' ls
      end
  end.

(** ** No line matches two commands *)
Definition item_disjoint (a b : item) : bool :=
  match a, b with
  | Kw s, Kw t => negb (String.eqb s t)
  | Kw s, Choice c | Choice c, Kw s => negb (existsb (String.eqb s) c)
  | Choice c, Choice d => forallb (fun s => negb (existsb (String.eqb s) d)) c
  | Range _ _, Range _ _ => false
  | _, _ => true
  end.
Fixpoint disjoint_items (g h : list item) : bool :=
  match g, h with
  | [], [] => false
  | a :: g, b :: h => item_disjoint a b || disjoint_items g h
  | _, _ => true
  end.
Lemma disjoint_items_sound g : forall h l, disjoint_items g h = true -> is_Some (match_items g l) -> match_items h l = None.
Proof.
  induction g as [|a g IH]; intros [|b h] [|t l] Hd Hm; cbn in *; try done; try (by apply is_Some_None in Hm); try (by destruct b); try (by destruct a; apply is_Some_None in Hm).
  apply orb_true_iff in Hd as [Hd|Hd].
  - destruct a as [s|c|lo hi], b as [s'|c'|lo' hi'], t as [w|n|]; cbn in Hd, Hm |- *; try done; try by apply is_Some_None in Hm.
    + destruct (String.eqb_spec s w) as [<-|]; [|by apply is_Some_None in Hm]. rewrite String.eqb_sym. by destruct (String.eqb s s').
    + destruct (String.eqb_spec s w) as [<-|]; [|by apply is_Some_None in Hm]. by destruct (existsb _ c').
    + destruct (existsb (String.eqb w) c) eqn:E; [|by apply is_Some_None in Hm]. destruct (String.eqb_spec s' w) as [<-|]; [|done]. by rewrite E in Hd.
    + destruct (existsb (String.eqb w) c) eqn:E; [|by apply is_Some_None in Hm]. apply existsb_exists in E as (x & Hx & <-%String.eqb_eq).
      rewrite forallb_forall in Hd. specialize (Hd _ Hx). by destruct (existsb _ c').
  - assert (is_Some (match_items g l)) as Hg.
    { destruct a, t; cbn in Hm; try by apply is_Some_None in Hm.
      all: match type of Hm with context [if ?c then _ else _] => destruct c end; try by apply is_Some_None in Hm.
      all: by rewrite ?fmap_is_Some in Hm. }
    specialize (IH _ _ Hd Hg). destruct b, t; try done; cbn; rewrite IH; match goal with |- context [if ?c then _ else _] => by destruct c | |- _ => done end.
Qed.
Lemma commands_unambiguous i j c d l : grammar !! i = Some c -> grammar !! j = Some d ->
  is_Some (match_items c.1 l) -> is_Some (match_items d.1 l) -> i = j.
Proof.
  intros Hc Hd Hm Hn. destruct (decide (i = j)) as [|Hij]; [done|exfalso].
  assert (forallb (fun p => forallb (fun q => bool_decide (p = q)
            || match grammar !! p, grammar !! q with Some a, Some b => disjoint_items a.1 b.1 | _, _ => true end)
          (seq 0 (length grammar))) (seq 0 (length grammar)) = true) as E by by vm_compute.
  rewrite forallb_forall in E. specialize (E i). rewrite forallb_forall in E.
  assert (disjoint_items c.1 d.1 = true) as Hdj.
  { pose proof (lookup_lt_Some _ _ _ Hc). pose proof (lookup_lt_Some _ _ _ Hd). specialize (E ltac:(apply in_seq; lia) j ltac:(apply in_seq; lia)).
    rewrite bool_decide_false in E by done. by rewrite Hc, Hd in E. }
  rewrite (disjoint_items_sound _ _ _ Hdj Hm) in Hn. by apply is_Some_None in Hn.
Qed.

(** ** Writing and reading *)

(** Settings the commands produce, with the evaluation of paths not distributed and
    no change of the local preference of 2^31 or more. *)
Definition pref_ok (p : srx_local_pref) : Prop := if lp_enable p then 0 <= lp_value p < 2 ^ 31 else p = mkLocalPref false false 0.
Record saved_ok (b : bgp) : Prop := mk_saved_ok {
  so_wf : cfg_wf b;
  so_config : 0 <= srx_config b < 32 /\ eval_distr (modes_of b) = false;
  so_window : 0 <= srx_keepWindow b <= 65535;
  so_proxy : in_u 32 (srx_proxyID b);
  so_policy : 0 <= srx_val_policy b < 512;
  so_prefs : Forall pref_ok (srx_loc_pref_roa b ++ srx_loc_pref_bgpsec b ++ srx_loc_pref_aspa b);
  so_roa : srx_default_roaVal b ∈ [SRx_RESULT_VALID; SRx_RESULT_NOTFOUND; SRx_RESULT_INVALID; SRx_RESULT_UNDEFINED];
  so_bgpsec : srx_default_bgpsecVal b ∈ [SRx_RESULT_VALID; SRx_RESULT_INVALID; SRx_RESULT_UNDEFINED];
  so_community : srx_ecommunity_flags b = 0 /\ srx_ecommunity_subcode b = 0
                 \/ (srx_ecommunity_flags b = 1 \/ srx_ecommunity_flags b = 3) /\ 0 <= srx_ecommunity_subcode b <= 255
}.
(** The settings that come back. *)
Definition restored (base b : bgp) : bgp :=
  let m := modes_of b in
  let evals := if eval_origin m && eval_path m && eval_aspa m then 7 else 0 in
  mkBgp (b_as base) (router_id base) (bgp_flags base) (default_local_pref base)
    (if srx_config_check b SRX_CONFIG_DISPLAY_INFO then evals + 16 else evals)
    (srx_keepWindow b) SRX_HANDHAKE_TIMEOUT (srx_proxyID b) (srx_loc_pref_roa b) (srx_loc_pref_bgpsec b) (srx_loc_pref_aspa b)
    (srx_val_policy b) (srx_default_roaVal b) (srx_default_bgpsecVal b) (srx_default_bgpsecVal b)
    (Some (srx_proxyID b, false)) (srx_ecommunity_flags b) (srx_ecommunity_subcode b).

Lemma load_app b ls ls' b' : config_from_file b ls = Ok (Some b') -> config_from_file b (ls ++ ls') = config_from_file b' ls'.
Proof.
  revert b. induction ls as [|l ls IH]; intros b; cbn [config_from_file app]; [by intros [= ->]|].
  destruct (read_line l) as [c|]; [|done]. destruct (run_command b c) as [b1|]; [|done]. destruct (command_ret b c) as [ret|]; [|done].
  cbn [mbind outcome_bind]. destruct (negb _ && _); [done|apply IH].
Qed.

Lemma load_line b l c b' : read_line l = Some c -> run_command b c = Ok b' -> command_ret b c = Ok CMD_SUCCESS ->
  config_from_file b [l] = Ok (Some b').
Proof. intros Hl Hb Hr. cbn [config_from_file]. by rewrite Hl, Hb, Hr. Qed.

Lemma digits_value_codes ds : Forall (fun d => 48 <= d <= 57) ds -> forall acc,
  digits_value acc (String.string_of_list_ascii ((fun c => Ascii.ascii_of_nat (Z.to_nat c)) <$> ds)) = fold_left (fun a d => 10 * a + (d - 48)) ds acc.
Proof.
  induction 1 as [|d ds Hd _ IH]; intros acc; [done|]. cbn [fmap list_fmap String.string_of_list_ascii digits_value fold_left].
  unfold ascii_code. rewrite Ascii.nat_ascii_embedding by lia. rewrite Z2Nat.id by lia.
  rewrite (proj2 (Z.leb_le 0 (d - 48))), (proj2 (Z.leb_le (d - 48) 9)) by lia. cbn [andb]. by rewrite IH.
Qed.
Lemma strtoul_text n : 0 <= n < 2 ^ 32 -> strtoul (text n) = n.
Proof.
  intros Hn. unfold strtoul, text. rewrite fmt_d_nonneg by lia. rewrite digits_value_codes by (apply dec_digits_digit; lia).
  change (fold_left _ _ 0) with (dec_value (dec_digits 10 n)). rewrite dec_value_digits by (cbn; lia). lia.
Qed.
#[local] Arguments text : simpl never.
#[local] Arguments strtoul : simpl never.

Lemma range_true lo hi n : lo <= n <= hi -> (lo <=? n) && (n <=? hi) = true.
Proof. intros. apply andb_true_iff. split; apply Z.leb_le; lia. Qed.

(** *** The lines *)
Lemma load_proxy b id c : in_u 32 id -> srxProxy b = Some (c, false) ->
  config_from_file b [[W "srx"; W "set-proxy-id"; IP (octet id 24) (octet id 16) (octet id 8) (Z.land id 0xFF)]]
  = Ok (Some (with_proxy b id (Some (id, false)))).
Proof.
  intros Hid Hp. apply (load_line _ _ (ProxyId (Some (ntohl id)))).
  - assert (Z.shiftl (octet id 24) 24 + Z.shiftl (octet id 16) 16 + Z.shiftl (octet id 8) 8 + Z.land id 0xFF = id) as E; [|cbn -[Z.shiftl Z.land ntohl octet]; by rewrite E].
    unfold octet, in_u in *. rewrite !Z.shiftr_div_pow2, !Z.shiftl_mul_pow2 by lia. change 0xFF with (Z.ones 8). rewrite !Z.land_ones by lia. zdiv.
  - cbn [run_command srx_proxyid]. rewrite ntohl_involutive by done. unfold srx_set_proxyID. by rewrite Hp.
  - cbn [command_ret srx_proxyid]. unfold srx_set_proxyID. by rewrite Hp.
Qed.
Lemma load_window b n : 0 <= n <= 65535 ->
  config_from_file b [[W "srx"; W "keep-window"; D n]] = Ok (Some (with_window b n (srx_handshakeTimeout b))).
Proof.
  intros Hn. apply (load_line _ _ (KeepWindow (text n))); [|cbn [run_command]|done].
  - cbn -[Z.leb]. by rewrite range_true.
  - unfold srx_keepwindow. cbn [fst]. rewrite strtoul_text by lia. by rewrite signed_small by lia.
Qed.

Definition evals (b : bgp) : Z := if eval_origin (modes_of b) && eval_path (modes_of b) && eval_aspa (modes_of b) then 7 else 0.
Lemma evals_cases b : evals b = 0 \/ evals b = 7.
Proof. unfold evals. destruct (_ && _); auto. Qed.
Lemma small_config c : 0 <= c < 32 -> exists n, c = Z.of_nat n /\ (n < 32)%nat.
Proof. intros Hc. exists (Z.to_nat c). split; lia. Qed.
Lemma load_evaluation b b1 : saved_ok b -> srx_config b1 = 16 ->
  config_from_file b1 (write_evaluation b) = Ok (Some (with_config b1 (16 + evals b))).
Proof.
  intros Hb H1. destruct (so_config _ Hb) as [Hc Hd]. unfold write_evaluation, evals, modes_of, srx_config_check in *. cbn [eval_origin eval_path eval_aspa eval_distr] in *.
  destruct b1. cbn [srx_config] in H1. subst. destruct (small_config _ Hc) as (n & E & Hn). rewrite E in *. clear Hc E.
  do 32 (destruct n as [|n]; [first [by vm_compute in Hd | vm_compute; reflexivity]|]). lia.
Qed.
Lemma load_community b b1 : saved_ok b -> srx_ecommunity_flags b1 = 0 ->
  config_from_file b1 (write_community b) = Ok (Some (with_ecommunity b1 (srx_ecommunity_flags b) (srx_ecommunity_subcode b))).
Proof.
  intros Hb H1. unfold write_community. destruct b1. cbn [srx_ecommunity_flags] in H1. subst.
  destruct (so_community _ Hb) as [[-> ->]|[Hf Hs]]; [done|]. set (n := srx_ecommunity_subcode b) in *.
  assert (forall w, existsb (String.eqb w) ["include_ebgp"; "only_ibgp"] = true ->
            read_line [W "srx"; W "extcommunity"; D n; W w] = Some (ExtCommunity (strtoul (text n)) w)) as Hr.
  { intros w Hw. cbn -[Z.leb existsb]. rewrite range_true by done. cbn [andb match_items]. by rewrite Hw. }
  destruct Hf as [-> | ->].
  - change (CHECK_FLAG 1 SRX_BGP_FLAG_ECOMMUNITY) with true. change (CHECK_FLAG 1 SRX_BGP_FLAG_ECOMMUNITY_EBGP) with false.
    eapply load_line; [by apply Hr| |done]. cbn [run_command]. by rewrite strtoul_text by lia.
  - change (CHECK_FLAG 3 SRX_BGP_FLAG_ECOMMUNITY) with true. change (CHECK_FLAG 3 SRX_BGP_FLAG_ECOMMUNITY_EBGP) with true.
    eapply load_line; [by apply Hr| |done]. cbn [run_command]. by rewrite strtoul_text by lia.
Qed.
Lemma load_display b b1 e : srx_config b1 = 16 + e -> e = 0 \/ e = 7 ->
  config_from_file b1 (write_display b) = Ok (Some (with_config b1 (if srx_config_check b SRX_CONFIG_DISPLAY_INFO then e + 16 else e))).
Proof.
  intros H1 He. unfold write_display. destruct b1. cbn [srx_config] in H1. subst. by destruct (srx_config_check b _), He as [-> | ->].
Qed.
Lemma load_defaults b b1 : saved_ok b ->
  config_from_file b1 (write_defaults b) = Ok (Some (with_defaults b1 (srx_default_roaVal b) (srx_default_bgpsecVal b) (srx_default_bgpsecVal b))).
Proof.
  intros Hb. pose proof (so_roa _ Hb) as Hr. pose proof (so_bgpsec _ Hb) as Hs. unfold write_defaults.
  repeat (apply elem_of_cons in Hr as [-> | Hr]; [|]); try by apply elem_of_nil in Hr.
  all: repeat (apply elem_of_cons in Hs as [-> | Hs]; [|]); try by apply elem_of_nil in Hs.
  all: by destruct b1.
Qed.

(** *** The ignore policies *)
Definition apply_ignore (c0 c1 c2 c3 c4 c5 c6 c7 c8 : bool) : Z :=
  let set (c : bool) f v := if c then u16 (SET_FLAG v f) else v in
  let put (c : bool) f v := u16 (if c then SET_FLAG v f else UNSET_FLAG v f) in
  put c8 SRX_VAL_POLICY_ASPA_IGNORE_UNDEFINED (set c7 SRX_VAL_POLICY_ASPA_IGNORE_UNVERIFIABLE (set c5 SRX_VAL_POLICY_ASPA_IGNORE_UNKNOWN
    (set c6 SRX_VAL_POLICY_ASPA_IGNORE_INVALID (put c4 SRX_VAL_POLICY_BGPSEC_IGNORE_UNDEFINED (set c3 SRX_VAL_POLICY_BGPSEC_IGNORE_INVALID
      (put c2 SRX_VAL_POLICY_ORIGIN_IGNORE_UNDEFINED (set c0 SRX_VAL_POLICY_ORIGIN_IGNORE_NOTFOUND (set c1 SRX_VAL_POLICY_ORIGIN_IGNORE_INVALID 276)))))))).
Definition weight (c : bool) (k : Z) : Z := if c then 2 ^ k else 0.
Lemma apply_ignore_eq c0 c1 c3 c4 c5 c6 c7 c8 :
  apply_ignore c0 c1 true c3 c4 c5 c6 c7 c8
  = weight c0 0 + weight c1 1 + 4 + weight c3 3 + weight c4 4 + weight c5 5 + weight c6 6 + weight c7 7 + weight c8 8.
Proof. by destruct c0, c1, c3, c4, c5, c6, c7, c8. Qed.
Lemma bit_weight p k : weight (Z.testbit p k) k = if Z.testbit p k then 2 ^ k else 0.
Proof. done. Qed.
Lemma policy_bits p : 0 <= p < 512 -> p = weight (Z.testbit p 0) 0 + weight (Z.testbit p 1) 1 + weight (Z.testbit p 2) 2 + weight (Z.testbit p 3) 3
  + weight (Z.testbit p 4) 4 + weight (Z.testbit p 5) 5 + weight (Z.testbit p 6) 6 + weight (Z.testbit p 7) 7 + weight (Z.testbit p 8) 8.
Proof.
  intros Hp. assert (forall k, 0 <= k -> weight (Z.testbit p k) k = 2 ^ k * ((p / 2 ^ k) mod 2)) as E.
  { intros k Hk. unfold weight. rewrite Z.testbit_odd, Z.shiftr_div_pow2 by lia. rewrite Zmod_odd. destruct (Z.odd _); lia. }
  rewrite !E by lia. clear E. zdiv.
Qed.
Lemma load_ignore b b1 rest : saved_ok b -> srx_val_policy b1 = 276 ->
  config_from_file b1 (write_ignore b ++ rest)
  = if Z.testbit (srx_val_policy b) 2 then config_from_file (with_policy b1 (srx_val_policy b)) rest else Ok None.
Proof.
  intros Hb H1. pose proof (policy_bits _ (so_policy _ Hb)) as Hp. destruct b1. cbn [srx_val_policy] in H1. subst. unfold write_ignore.
  rewrite (CHECK_FLAG_bit _ 0), (CHECK_FLAG_bit _ 1), (CHECK_FLAG_bit _ 2), (CHECK_FLAG_bit _ 3), (CHECK_FLAG_bit _ 4), (CHECK_FLAG_bit _ 5), (CHECK_FLAG_bit _ 6), (CHECK_FLAG_bit _ 7),
    (CHECK_FLAG_bit _ 8) by done. revert Hp. generalize (srx_val_policy b). intros p.
  destruct (Z.testbit p 2); [|by destruct (Z.testbit p 0), (Z.testbit p 1)].
  destruct (Z.testbit p 0), (Z.testbit p 1), (Z.testbit p 3), (Z.testbit p 4), (Z.testbit p 5), (Z.testbit p 6), (Z.testbit p 7), (Z.testbit p 8);
    intros ->; reflexivity.
Qed.

(** *** The changes of the local preference *)
Definition states_of (t : Z) : string * list (Z * string) :=
  if t =? LOCPRF_TYPE_ROA then ("origin", roa_states) else if t =? LOCPRF_TYPE_BGPSEC then ("bgpsec", bgpsec_states) else ("aspa", aspa_states).
Definition prefs_of (t : Z) (b : bgp) : list srx_local_pref :=
  if t =? LOCPRF_TYPE_ROA then srx_loc_pref_roa b else if t =? LOCPRF_TYPE_BGPSEC then srx_loc_pref_bgpsec b else srx_loc_pref_aspa b.
Lemma load_pref_line t i st b p : t ∈ [LOCPRF_TYPE_ROA; LOCPRF_TYPE_BGPSEC; LOCPRF_TYPE_ASPA] -> (i, st) ∈ (states_of t).2 ->
  lp_enable p = true -> 0 <= lp_value p < 2 ^ 31 ->
  exists ls, _srx_write_config_loc_pref (Ok p) (states_of t).1 st = Ok ls /\ config_from_file b ls = Ok (Some (set_loc_pref b t (Z.to_nat i) p)).
Proof.
  destruct p as [e a n]. cbn [lp_enable lp_value]. intros Ht Hi -> Hn.
  eexists. split; [reflexivity|]. cbn [lp_enable lp_add lp_value]. rewrite signed_small by lia.
  assert (read_line [W "srx"; W "policy"; W (states_of t).1; W "local-preference"; W st; W (if a then "add" else "subtract"); D n]
          = Some (LocalPreference t [st; if a then "add" else "subtract"; text n] true) /\ has_loc_pref t (parse_local_pref_index st) = true
          /\ parse_local_pref_index st = i) as (Hr & Hh & Hs).
  { repeat (apply elem_of_cons in Ht as [-> | Ht]); try by apply elem_of_nil in Ht.
    all: cbn [states_of Z.eqb Pos.eqb fst snd] in *; repeat (apply elem_of_cons in Hi as [[= -> ->] | Hi]); try by apply elem_of_nil in Hi.
    all: (split; [|by vm_compute]); destruct a; cbn -[Z.leb]; by rewrite range_true by lia. }
  assert (validation_local_preference b t [st; if a then "add" else "subtract"; text n] true
          = Ok (set_loc_pref b t (Z.to_nat i) (mkLocalPref true a n), CMD_SUCCESS)) as Hv.
  { unfold validation_local_preference. cbn [length Nat.ltb Nat.leb Nat.eqb].
    change (arr_get [st; if a then "add" else "subtract"; text n] 0) with (Ok st).
    change (arr_get [st; if a then "add" else "subtract"; text n] 1) with (Ok (if a then "add" else "subtract")).
    change (arr_get [st; if a then "add" else "subtract"; text n] 2) with (Ok (text n)).
    cbn [mbind outcome_bind]. rewrite Hh. cbn [mbind outcome_bind]. rewrite strtoul_text, Hs by lia. change u32 with (wrap 32).
    rewrite wrap_small by (unfold in_u; lia). by destruct a. }
  eapply load_line; [exact Hr| |]; cbn [run_command command_ret]; by rewrite Hv.
Qed.

Definition set_pref (l : list srx_local_pref) (t : Z) (b : bgp) (s : Z * string) : bgp :=
  match l !! Z.to_nat s.1 with Some p => if lp_enable p then set_loc_pref b t (Z.to_nat s.1) p else b | None => b end.
Lemma load_prefs_fold t l : t ∈ [LOCPRF_TYPE_ROA; LOCPRF_TYPE_BGPSEC; LOCPRF_TYPE_ASPA] -> Forall pref_ok l ->
  forall states, states ⊆ (states_of t).2 -> Forall (fun s => Z.to_nat s.1 < length l)%nat states ->
  exists ls, write_loc_prefs l (states_of t).1 states = Ok ls
    /\ forall b, config_from_file b ls = Ok (Some (fold_left (set_pref l t) states b)).
Proof.
  intros Ht Hl. induction states as [|[i st] states IH]; intros Hs Hn; [by exists []|]. apply Forall_cons in Hn as [Hi Hn]. cbn [fst] in Hi.
  destruct (IH (fun x Hx => Hs x (list_elem_of_further _ _ _ Hx)) Hn) as (rest & Hw & Hr). destruct (lookup_lt_is_Some_2 l _ Hi) as [p Hp].
  assert (pref_ok p) as Hok by (by eapply Forall_lookup_1). unfold pref_ok in Hok.
  assert (exists ls, _srx_write_config_loc_pref (Ok p) (states_of t).1 st = Ok ls
            /\ forall b, config_from_file b ls = Ok (Some (if lp_enable p then set_loc_pref b t (Z.to_nat i) p else b))) as (ls & Hls & Hld).
  { destruct (lp_enable p) eqn:He; [|subst p; by exists []].
    eexists. split; [|intros b; destruct (load_pref_line t i st b p Ht) as (ls & E & Hload); [apply Hs, elem_of_cons; by left|done|done|]].
    - cbn [_srx_write_config_loc_pref mbind outcome_bind]. by rewrite He.
    - cbn [_srx_write_config_loc_pref mbind outcome_bind] in E. rewrite He in E. injection E as <-. exact Hload. }
  exists (ls ++ rest). cbn [write_loc_prefs]. unfold arr_get. rewrite Hp, Hls. cbn [mbind outcome_bind]. rewrite Hw. split; [done|].
  intros b. rewrite (load_app _ _ _ _ (Hld b)), Hr. cbn [fold_left]. unfold set_pref at 3. cbn [fst]. by rewrite Hp.
Qed.
Lemma pref_cases p : pref_ok p -> p = mkLocalPref false false 0 \/ exists a n, p = mkLocalPref true a n.
Proof. destruct p as [[] a n]; unfold pref_ok; cbn; eauto. Qed.
Ltac split_prefs :=
  repeat match goal with
  | Hf : Forall pref_ok (_ :: _) |- _ => apply Forall_cons in Hf as [?Hp Hf]
  | Hp : pref_ok ?p |- _ => apply pref_cases in Hp as [-> | (? & ? & ->)]
  end.
Definition with_prefs (t : Z) (l : list srx_local_pref) (b : bgp) : bgp :=
  if t =? LOCPRF_TYPE_ROA then with_loc_pref b l (srx_loc_pref_bgpsec b) (srx_loc_pref_aspa b)
  else if t =? LOCPRF_TYPE_BGPSEC then with_loc_pref b (srx_loc_pref_roa b) l (srx_loc_pref_aspa b)
  else with_loc_pref b (srx_loc_pref_roa b) (srx_loc_pref_bgpsec b) l.
Definition put_pref (l arr : list srx_local_pref) (s : Z * string) : list srx_local_pref :=
  match l !! Z.to_nat s.1 with Some p => if lp_enable p then <[Z.to_nat s.1 := p]> arr else arr | None => arr end.
Lemma set_pref_array l t states : forall b, fold_left (set_pref l t) states b = with_prefs t (fold_left (put_pref l) states (prefs_of t b)) b.
Proof.
  induction states as [|s states IH]; intros b; cbn [fold_left].
  - destruct b. unfold with_prefs, prefs_of. by repeat case_match.
  - rewrite IH. replace (prefs_of t (set_pref l t b s)) with (put_pref l (prefs_of t b) s).
    all: unfold set_pref, put_pref, set_loc_pref, prefs_of, with_prefs; by repeat case_match.
Qed.
Lemma put_all t l : t ∈ [LOCPRF_TYPE_ROA; LOCPRF_TYPE_BGPSEC; LOCPRF_TYPE_ASPA] -> Forall pref_ok l ->
  length l = length (states_of t).2 -> fold_left (put_pref l) (states_of t).2 (replicate (length l) (mkLocalPref false false 0)) = l.
Proof.
  intros Ht Hl Hn. repeat (apply elem_of_cons in Ht as [-> | Ht]); try by apply elem_of_nil in Ht.
  1: destruct l as [|p0 [|p1 [|p2 [|p3 []]]]]; try discriminate Hn.
  2: destruct l as [|p0 [|p1 [|p2 []]]]; try discriminate Hn.
  3: destruct l as [|p0 [|p1 [|p2 [|p3 [|p4 []]]]]]; try discriminate Hn.
  all: split_prefs; reflexivity.
Qed.
Lemma load_prefs t l : t ∈ [LOCPRF_TYPE_ROA; LOCPRF_TYPE_BGPSEC; LOCPRF_TYPE_ASPA] -> Forall pref_ok l ->
  length l = length (states_of t).2 ->
  exists ls, write_loc_prefs l (states_of t).1 (states_of t).2 = Ok ls
    /\ forall b, prefs_of t b = replicate (length l) (mkLocalPref false false 0) -> config_from_file b ls = Ok (Some (with_prefs t l b)).
Proof.
  intros Ht Hl Hn. destruct (load_prefs_fold t l Ht Hl (states_of t).2) as (ls & Hw & Hr); [done| |].
  { rewrite Hn. repeat (apply elem_of_cons in Ht as [-> | Ht]; [repeat constructor; cbn; lia|]). by apply elem_of_nil in Ht. }
  exists ls. split; [done|]. intros b Hb. by rewrite Hr, set_pref_array, Hb, put_all.
Qed.

(** The settings [srx_set_default] leaves, field by field. *)
Lemma default_fields b : exists c, srxProxy (srx_set_default b) = Some (c, false) /\ srx_config (srx_set_default b) = 16
  /\ srx_handshakeTimeout (srx_set_default b) = SRX_HANDHAKE_TIMEOUT /\ srx_val_policy (srx_set_default b) = 276
  /\ (forall t, t ∈ [LOCPRF_TYPE_ROA; LOCPRF_TYPE_BGPSEC; LOCPRF_TYPE_ASPA] ->
       prefs_of t (srx_set_default b) = replicate (length (states_of t).2) (mkLocalPref false false 0))
  /\ srx_ecommunity_flags (srx_set_default b) = srx_ecommunity_flags b /\ b_as (srx_set_default b) = b_as b
  /\ router_id (srx_set_default b) = router_id b /\ bgp_flags (srx_set_default b) = bgp_flags b
  /\ default_local_pref (srx_set_default b) = default_local_pref b.
Proof.
  exists (srx_proxyID (srx_set_default b)). unfold srx_set_default, srx_set_proxyID. destruct (negb _); cbn.
  all: repeat split; intros t Ht; repeat (apply elem_of_cons in Ht as [-> | Ht]; [done|]); by apply elem_of_nil in Ht.
Qed.

(** C24  Writing the configuration and starting the router with it, from the default
    settings and without an extended community set: the settings come back, but the
    evaluations only when all three are on, and the default for ASPA is the one for
    BGPsec; when the policy that ignores routes of undefined origin is unset, a line is
    written that no command accepts and the router exits.  So it is for settings the
    commands produce, without the distributed evaluation of paths, with changes of the
    local preference below 2^31 and with a default for BGPsec that is valid, invalid or
    undefined: others are written in a way that is not read back as it was set. *)
Theorem written_configuration b : saved_ok b ->
  exists ls, srx_config_write_configuration b = Ok ls
    /\ forall base, srx_ecommunity_flags base = 0 ->
         config_from_file (srx_set_default base) ls
         = Ok (if Z.testbit (srx_val_policy b) 2 then Some (restored base b) else None).
Proof.
  intros Hb. destruct (so_wf _ Hb) as [_ _ _ Hl1 Hl2 Hl3 _]. destruct (proj1 (Forall_app _ _ _) (so_prefs _ Hb)) as [Hp1 [Hp2 Hp3]%Forall_app].
  destruct (load_prefs LOCPRF_TYPE_ROA (srx_loc_pref_roa b)) as (l1 & Hw1 & Hr1); [by left|done|done|].
  destruct (load_prefs LOCPRF_TYPE_BGPSEC (srx_loc_pref_bgpsec b)) as (l2 & Hw2 & Hr2); [by right; left|done|done|].
  destruct (load_prefs LOCPRF_TYPE_ASPA (srx_loc_pref_aspa b)) as (l3 & Hw3 & Hr3); [by right; right; left|done|done|].
  change (write_loc_prefs (srx_loc_pref_roa b) "origin" roa_states = Ok l1) in Hw1.
  change (write_loc_prefs (srx_loc_pref_bgpsec b) "bgpsec" bgpsec_states = Ok l2) in Hw2.
  change (write_loc_prefs (srx_loc_pref_aspa b) "aspa" aspa_states = Ok l3) in Hw3.
  eexists. split.
  { unfold srx_config_write_configuration. rewrite Hw1, Hw2, Hw3. cbn [mbind outcome_bind]. reflexivity. }
  intros base Hc. destruct (default_fields base) as (c & F1 & F2 & F3 & F4 & F5 & F6 & F7 & F8 & F9 & F10).
  rewrite (load_app _ _ _ _ (load_proxy _ _ c (so_proxy _ Hb) F1)), (load_app _ _ _ _ (load_window _ _ (so_window _ Hb))).
  erewrite load_app; [|by apply load_evaluation; [|exact F2]].
  erewrite load_app; [|by apply load_community; [|exact (eq_trans F6 Hc)]].
  erewrite load_app; [|by apply (load_display b _ (evals b)); [|apply evals_cases]].
  erewrite load_app; [|by apply load_defaults]. rewrite load_ignore by done. destruct (Z.testbit _ 2); [|done].
  erewrite load_app; [|apply Hr1; rewrite Hl1; apply (F5 LOCPRF_TYPE_ROA); by left].
  erewrite load_app; [|apply Hr2; rewrite Hl2; apply (F5 LOCPRF_TYPE_BGPSEC); by right; left].
  rewrite Hr3 by (rewrite Hl3; apply (F5 LOCPRF_TYPE_ASPA); by right; right; left).
  unfold restored. fold (evals b). destruct (srx_set_default base). cbn in F3, F7, F8, F9, F10. by subst.
Qed.
End ConfigFile.
