(* ===== verification/RouterAsPath.v ===== *)
(** * AS paths of the router (quagga-srx/bgpd/bgp_aspath.c)

    A path is the list of its segments; an [as] array is the list of its numbers.  Module
    RouterAsPath holds the functions the decision process and the validation requests
    use: lengths, comparisons and the origin.  Module AsPathWire is the attribute: parsing
    it from a stream, the normal form, and writing it.  Module AsPathOps has the checks
    and the operations that build paths. *)
From S2P Require Import Prelude Bytes SrxDefs.

Module RouterAsPath.

Record assegment := mkSeg { seg_type : Z; seg_as : list Z }.
#[global] Instance assegment_eq_dec : EqDecision assegment.
Proof. solve_decision. Defined.
Implicit Types (seg : assegment) (segments : list assegment).

Definition UNKNOWN_ASN : Z := 65536.
Definition seg_length seg : Z := Z.of_nat (length (seg_as seg)).
Definition is_confed seg : bool := (seg_type seg =? AS_CONFED_SEQUENCE) || (seg_type seg =? AS_CONFED_SET).

Fixpoint aspath_count_confeds segments : Z :=
  match segments with
  | [] => 0
  | seg :: segs =>
      (if seg_type seg =? AS_CONFED_SEQUENCE then seg_length seg else if seg_type seg =? AS_CONFED_SET then 1 else 0)
      + aspath_count_confeds segs
  end.
Fixpoint aspath_count_hops segments : Z :=
  match segments with
  | [] => 0
  | seg :: segs =>
      (if seg_type seg =? AS_SEQUENCE then seg_length seg else if seg_type seg =? AS_SET then 1 else 0)
      + aspath_count_hops segs
  end.

(** Reading [as[0]] of a segment. *)
Definition first_as seg : outcome Z := arr_get (seg_as seg) 0.

Fixpoint skip_confeds segments : list assegment :=
  match segments with
  | seg :: segs => if is_confed seg then skip_confeds segs else segments
  | [] => []
  end.
Definition aspath_cmp_left (path1 path2 : list assegment) : outcome bool :=
  match skip_confeds path1, skip_confeds path2 with
  | seg1 :: _, seg2 :: _ =>
      if (seg_type seg1 =? AS_SEQUENCE) && (seg_type seg2 =? AS_SEQUENCE) then
        a ← first_as seg1; b ← first_as seg2; Ok (a =? b)
      else Ok false
  | _, _ => Ok false
  end.
Definition aspath_cmp_left_confed (path1 path2 : list assegment) : outcome bool :=
  match path1, path2 with
  | seg1 :: _, seg2 :: _ =>
      if negb (seg_type seg1 =? AS_CONFED_SEQUENCE) || negb (seg_type seg2 =? AS_CONFED_SEQUENCE) then Ok false
      else a ← first_as seg1; b ← first_as seg2; Ok (a =? b)
  | _, _ => Ok false
  end.

Fixpoint aspath_cmp (path1 path2 : list assegment) : bool :=
  match path1, path2 with
  | [], [] => true
  | seg1 :: path1, seg2 :: path2 =>
      (seg_type seg1 =? seg_type seg2) && (seg_length seg1 =? seg_length seg2)
      && bool_decide (seg_as seg1 = seg_as seg2) && aspath_cmp path1 path2
  | _, _ => false
  end.

(** [aspath_origin_as]: the last AS of the last sequence, or the reserved number when
    there is a set. *)
Fixpoint origin_loop (oas : Z) segments : outcome Z :=
  match segments with
  | [] => Ok oas
  | seg :: segs =>
      if seg_type seg =? AS_SEQUENCE then
        match last (seg_as seg) with
        | Some a => origin_loop a segs
        | None => Fault OutOfBounds
        end
      else if seg_type seg =? AS_SET then Ok UNKNOWN_ASN
      else origin_loop oas segs
  end.
Definition aspath_origin_as (path : option (list assegment)) : outcome Z :=
  match path with None => Ok 0 | Some segments => origin_loop 0 segments end.

(** ** Well-formed paths: the parser rejects empty segments. *)
Definition path_wf segments : Prop := Forall (fun seg => seg_as seg <> []) segments.
#[global] Instance path_wf_dec segments : Decision (path_wf segments).
Proof. unfold path_wf. apply _. Defined.

Lemma first_as_ok seg : seg_as seg <> [] -> exists a, first_as seg = Ok a.
Proof. unfold first_as, arr_get. destruct (seg_as seg) as [|a l]; [done|]. by exists a. Qed.
Lemma skip_confeds_wf segments : path_wf segments -> path_wf (skip_confeds segments).
Proof. unfold path_wf. induction 1 as [|seg segs Hs Hw IH]; cbn; [done|]. destruct (is_confed seg); [done|by constructor]. Qed.

(** The leftmost AS outside the confederation. *)
Definition neighbor_as segments : option Z :=
  match skip_confeds segments with
  | seg :: _ => if seg_type seg =? AS_SEQUENCE then head (seg_as seg) else None
  | [] => None
  end.
(** The leftmost AS of a path that starts with a sequence of the confederation. *)
Definition confed_as segments : option Z :=
  match segments with
  | seg :: _ => if seg_type seg =? AS_CONFED_SEQUENCE then head (seg_as seg) else None
  | [] => None
  end.
Definition same_as (a b : option Z) : bool := match a, b with Some x, Some y => x =? y | _, _ => false end.

Lemma same_as_None_r a : same_as a None = false.
Proof. by destruct a. Qed.

Lemma cmp_left_eq p1 p2 : path_wf p1 -> path_wf p2 -> aspath_cmp_left p1 p2 = Ok (same_as (neighbor_as p1) (neighbor_as p2)).
Proof.
  intros H1%skip_confeds_wf H2%skip_confeds_wf. unfold aspath_cmp_left, neighbor_as.
  destruct (skip_confeds p1) as [|s1 l1]; [done|]. destruct (skip_confeds p2) as [|s2 l2].
  { by rewrite same_as_None_r. }
  apply Forall_cons in H1 as [H1 _]. apply Forall_cons in H2 as [H2 _]. unfold first_as, arr_get.
  destruct (seg_as s1), (seg_as s2); try done. by destruct (seg_type s1 =? _), (seg_type s2 =? _).
Qed.
Lemma cmp_left_confed_eq p1 p2 :
  path_wf p1 -> path_wf p2 -> aspath_cmp_left_confed p1 p2 = Ok (same_as (confed_as p1) (confed_as p2)).
Proof.
  intros H1 H2. unfold aspath_cmp_left_confed, confed_as. destruct p1 as [|s1 l1]; [done|]. destruct p2 as [|s2 l2].
  { by rewrite same_as_None_r. }
  apply Forall_cons in H1 as [H1 _]. apply Forall_cons in H2 as [H2 _]. unfold first_as, arr_get.
  destruct (seg_as s1), (seg_as s2); try done. by destruct (seg_type s1 =? _), (seg_type s2 =? _).
Qed.

Lemma aspath_cmp_refl p : aspath_cmp p p = true.
Proof. induction p as [|s p IH]; [done|]. cbn. by rewrite !Z.eqb_refl, bool_decide_eq_true_2, IH by done. Qed.
Lemma aspath_cmp_eq p1 p2 : aspath_cmp p1 p2 = true <-> p1 = p2.
Proof.
  split; [|intros ->; apply aspath_cmp_refl]. revert p2. induction p1 as [|s1 p1 IH]; intros [|s2 p2]; cbn; try done.
  rewrite !andb_true_iff, !Z.eqb_eq, bool_decide_eq_true. intros [[[Ht _] Ha] Hp]. f_equal; [|by apply IH].
  destruct s1, s2; cbn in *; congruence.
Qed.

(** The origin of a path that is one sequence. *)
Lemma origin_sequence l a : last l = Some a -> aspath_origin_as (Some [mkSeg AS_SEQUENCE l]) = Ok a.
Proof. intros H. cbn. by rewrite H. Qed.
End RouterAsPath.

(** * AS paths on the wire

    Streams (lib/stream.c), the segments of an AS_PATH attribute, the normal form of a
    path and its encoding.  The length of a segment has 16 bits in memory; a message has
    at most 4096 octets, so it does not wrap around. *)
Module AsPathWire.
Import RouterAsPath.

Definition AS_HEADER_SIZE : Z := 2.
Definition AS_VALUE_SIZE : Z := 4.
Definition AS16_VALUE_SIZE : Z := 2.
Definition AS_SEGMENT_MAX : Z := 255.
Definition BGP_AS_MAX : Z := 65535.
Definition BGP_AS_TRANS : Z := 23456.

(** ** Streams

    The octets up to [endp]; a read or write beyond the bounds is an assertion. *)
Record stream := mkStream { st_size : Z; st_data : list Z; getp : nat }.
Implicit Types (s : stream).
Definition stream_get_endp s : Z := Z.of_nat (length (st_data s)).
Definition STREAM_READABLE s : Z := stream_get_endp s - Z.of_nat (getp s).
Definition STREAM_WRITEABLE s : Z := st_size s - stream_get_endp s.
Definition unread s : list Z := drop (getp s) (st_data s).
Definition forward s (n : nat) : stream := mkStream (st_size s) (st_data s) (getp s + n).
Definition stream_getc s : outcome (Z * stream) :=
  match unread s with
  | c :: _ => Ok (c, forward s 1)
  | _ => Fault AssertFailed
  end.
Definition stream_getw s : outcome (Z * stream) :=
  match unread s with
  | a :: b :: _ => Ok (Z.lor (Z.shiftl a 8) b, forward s 2)
  | _ => Fault AssertFailed
  end.
Definition stream_getl s : outcome (Z * stream) :=
  match unread s with
  | a :: b :: c :: d :: _ => Ok (Z.lor (Z.lor (Z.lor (Z.shiftl a 24) (Z.shiftl b 16)) (Z.shiftl c 8)) d, forward s 4)
  | _ => Fault AssertFailed
  end.
Definition put s (l : list Z) : outcome stream :=
  if STREAM_WRITEABLE s <? Z.of_nat (length l) then Fault AssertFailed else Ok (mkStream (st_size s) (st_data s ++ l) (getp s)).
Definition stream_putc s (c : Z) : outcome stream := put s [u8 c].
Definition stream_putw s (w : Z) : outcome stream := put s [u8 (Z.shiftr w 8); u8 w].
Definition stream_putl s (l : Z) : outcome stream := put s [u8 (Z.shiftr l 24); u8 (Z.shiftr l 16); u8 (Z.shiftr l 8); u8 l].
Definition stream_putc_at s (putp : nat) (c : Z) : outcome stream :=
  if stream_get_endp s <? Z.of_nat putp + 1 then Fault AssertFailed
  else Ok (mkStream (st_size s) (<[putp := u8 c]> (st_data s)) (getp s)).

(** ** The normal form *)
Definition ASSEGMENT_SIZE (n : Z) (use32bit : bool) : Z :=
  AS_HEADER_SIZE + n * (if use32bit then AS_VALUE_SIZE else AS16_VALUE_SIZE).
Definition ASSEGMENT_TYPES_PACKABLE (x y : assegment) : bool := (seg_type x =? seg_type y) && (seg_type x =? AS_SEQUENCE).
Definition ASSEGMENTS_PACKABLE (x y : assegment) : bool :=
  ASSEGMENT_TYPES_PACKABLE x y && (seg_length x + seg_length y <=? AS_SEGMENT_MAX).
(** The length of a segment has 16 bits, so that it hides what is behind its last
    number. *)
Definition seg16 (type : Z) (l : list Z) : assegment := mkSeg type (take (Z.to_nat (u16 (Z.of_nat (length l)))) l).
Definition assegment_append_asns (seg : assegment) (asnos : list Z) : assegment := seg16 (seg_type seg) (seg_as seg ++ asnos).

Definition is_set seg : bool := (seg_type seg =? AS_SET) || (seg_type seg =? AS_CONFED_SET).
(** Weeding out the duplicates of a sorted array, behind the element [tail]. *)
Fixpoint weed_dupes (tail : Z) (l : list Z) : list Z :=
  match l with
  | [] => [tail]
  | a :: l => if tail =? a then weed_dupes tail l else tail :: weed_dupes a l
  end.
Definition sort_set seg : assegment :=
  if is_set seg then
    mkSeg (seg_type seg) (match merge_sort Z.le (seg_as seg) with [] => [] | a :: l => weed_dupes a l end)
  else seg.
(** [pin] is the segment the following ones are appended to. *)
Fixpoint normalise_from (pin : assegment) (segments : list assegment) : list assegment :=
  match segments with
  | [] => [pin]
  | seg :: segs =>
      if ASSEGMENT_TYPES_PACKABLE pin seg then normalise_from (assegment_append_asns pin (seg_as seg)) segs
      else pin :: normalise_from (sort_set seg) segs
  end.
Definition assegment_normalise (segments : list assegment) : list assegment :=
  match segments with [] => [] | seg :: segs => normalise_from (sort_set seg) segs end.

(** ** Parsing *)
Definition known_type (t : Z) : bool :=
  (t =? AS_SEQUENCE) || (t =? AS_SET) || (t =? AS_CONFED_SEQUENCE) || (t =? AS_CONFED_SET).
Fixpoint read_numbers (n : nat) s (use32bit : bool) : outcome (list Z * stream) :=
  match n with
  | O => Ok ([], s)
  | S n =>
      '(a, s) ← (if use32bit then stream_getl s else stream_getw s);
      '(l, s) ← read_numbers n s use32bit;
      Ok (a :: l, s)
  end.
Fixpoint parse_loop (fuel : nat) s (bytes len : Z) (use32bit : bool) (segs : list assegment) : outcome (stream * option (list assegment)) :=
  match fuel with
  | O => Fault OutOfFuel
  | S fuel =>
      if bytes <? len then
        if len - bytes <=? AS_HEADER_SIZE then Ok (s, None)
        else
          '(t, s) ← stream_getc s;
          '(n, s) ← stream_getc s;
          let seg_size := ASSEGMENT_SIZE n use32bit in
          if (len <? bytes + seg_size) || (n =? 0) then Ok (s, None)
          else if negb (known_type t) then Ok (s, None)
          else
            '(l, s) ← read_numbers (Z.to_nat n) s use32bit;
            parse_loop fuel s (bytes + seg_size) len use32bit (segs ++ [mkSeg t l])
      else Ok (s, Some segs)
  end.
(** The segments, or [None] for a malformed attribute. *)
Definition assegments_parse s (len : Z) (use32bit : bool) : outcome (stream * option (list assegment)) :=
  if len =? 0 then Ok (s, Some [])
  else if (STREAM_READABLE s <? len) || (STREAM_READABLE s <? AS_HEADER_SIZE) || negb (len mod AS16_VALUE_SIZE =? 0)
  then Ok (s, None)
  else
    '(s, segs) ← parse_loop (S (Z.to_nat len)) s 0 len use32bit [];
    Ok (s, option_map assegment_normalise segs).

(** ** Writing *)
Fixpoint assegment_data_loop s (l : list Z) (use32bit : bool) : outcome stream :=
  match l with
  | [] => Ok s
  | a :: l =>
      s ← (if use32bit then stream_putl s a else if a <=? BGP_AS_MAX then stream_putw s a else stream_putw s BGP_AS_TRANS);
      assegment_data_loop s l use32bit
  end.
Definition assegment_data_put s (l : list Z) (use32bit : bool) : outcome stream :=
  if AS_SEGMENT_MAX <? Z.of_nat (length l) then Fault AssertFailed else assegment_data_loop s l use32bit.
(** With the position of the length. *)
Definition assegment_header_put s (type len : Z) : outcome (stream * nat) :=
  if AS_SEGMENT_MAX <? len then Fault AssertFailed
  else
    s ← stream_putc s type;
    let lenp := length (st_data s) in
    s ← stream_putc s len;
    Ok (s, lenp).
(** Splitting a long segment: every part has the first 255 numbers. *)
Fixpoint split_loop (fuel : nat) s seg (written bytes : Z) (use32bit : bool) : outcome (stream * Z * Z) :=
  match fuel with
  | O => Fault OutOfFuel
  | S fuel =>
      if AS_SEGMENT_MAX <? seg_length seg - written then
        '(s, _) ← assegment_header_put s (seg_type seg) AS_SEGMENT_MAX;
        s ← assegment_data_put s (take (Z.to_nat AS_SEGMENT_MAX) (seg_as seg)) use32bit;
        let written := written + AS_SEGMENT_MAX in
        split_loop fuel s seg written (bytes + ASSEGMENT_SIZE written use32bit) use32bit
      else Ok (s, written, bytes)
  end.
(** Packing the following segments into [seg]: the stream, the rest and how many numbers
    were packed. *)
Fixpoint pack_loop s seg (written : Z) (lenp : nat) (asns_packed : Z) (next : list assegment) (use32bit : bool) :
  outcome (stream * list assegment * Z) :=
  match next with
  | [] => Ok (s, [], asns_packed)
  | n :: next' =>
      if ASSEGMENTS_PACKABLE seg n then
        s ← assegment_data_put s (seg_as n) use32bit;
        s ← stream_putc_at s lenp (seg_length seg - written + seg_length n);
        pack_loop s seg written lenp (asns_packed + seg_length n) next' use32bit
      else Ok (s, next, asns_packed)
  end.
Fixpoint put_loop (fuel : nat) s (segments : list assegment) (bytes : Z) (use32bit : bool) : outcome (stream * Z) :=
  match fuel with
  | O => Fault OutOfFuel
  | S fuel =>
      match segments with
      | [] => Ok (s, bytes)
      | seg :: next =>
          if ASSEGMENT_SIZE (seg_length seg) use32bit <=? STREAM_WRITEABLE s then
            '(s, written, bytes) ← split_loop (S (length (seg_as seg))) s seg 0 bytes use32bit;
            '(s, lenp) ← assegment_header_put s (seg_type seg) (seg_length seg - written);
            s ← assegment_data_put s (drop (Z.to_nat written) (seg_as seg)) use32bit;
            '(s, next, asns_packed) ← pack_loop s seg written lenp 0 next use32bit;
            put_loop fuel s next (bytes + ASSEGMENT_SIZE (seg_length seg - written + asns_packed) use32bit) use32bit
          else Ok (s, bytes)
      end
  end.
(** The stream and the number of octets the caller takes for the length. *)
Definition aspath_put s (segments : list assegment) (use32bit : bool) : outcome (stream * Z) :=
  match segments with
  | [] => Ok (s, 0)
  | seg :: _ => if seg_length seg =? 0 then Ok (s, 0) else put_loop (S (length segments)) s segments 0 use32bit
  end.

Example put_ex : (p ← aspath_put (mkStream 100 [] 0) [mkSeg AS_SEQUENCE [65536; 2]; mkSeg AS_SET [7]] false; Ok (st_data p.1, p.2))
  = Ok ([2; 2; 91; 160; 0; 2; 1; 1; 0; 7], 10).
Proof. by vm_compute. Qed.
Example parse_ex : (p ← assegments_parse (mkStream 100 [2; 1; 0; 1; 2; 1; 0; 5; 1; 3; 0; 9; 0; 7; 0; 9] 0) 16 false; Ok p.2)
  = Ok (Some [mkSeg AS_SEQUENCE [1; 5]; mkSeg AS_SET [7; 9]]).
Proof. by vm_compute. Qed.

(** ** What the parser accepts *)
Definition num_octets (use32bit : bool) (a : Z) : list Z := if use32bit then be32 a else be16 a.
Definition encode (use32bit : bool) seg : list Z :=
  seg_type seg :: seg_length seg :: concat (num_octets use32bit <$> seg_as seg).
Definition num_ok (use32bit : bool) (a : Z) : Prop := in_u (if use32bit then 32 else 16) a.
Record seg_ok (use32bit : bool) seg : Prop := mk_seg_ok {
  sk_type : known_type (seg_type seg) = true;
  sk_length : 1 <= seg_length seg <= AS_SEGMENT_MAX;
  sk_numbers : Forall (num_ok use32bit) (seg_as seg)
}.

Definition width (use32bit : bool) : nat := if use32bit then 4 else 2.
Lemma num_octets_length w a : length (num_octets w a) = width w.
Proof. by destruct w. Qed.
Lemma numbers_length w l : length (concat (num_octets w <$> l)) = (width w * length l)%nat.
Proof. induction l as [|a l IH]; cbn [fmap list_fmap concat length]; [lia|]. rewrite length_app, num_octets_length, IH. lia. Qed.
Lemma encode_length w seg : Z.of_nat (length (encode w seg)) = ASSEGMENT_SIZE (seg_length seg) w.
Proof.
  unfold encode, ASSEGMENT_SIZE, seg_length, AS_HEADER_SIZE, AS_VALUE_SIZE, AS16_VALUE_SIZE. cbn [length]. rewrite numbers_length.
  destruct w; cbn [width]; lia.
Qed.

Lemma unread_forward s l rest : unread s = l ++ rest -> unread (forward s (length l)) = rest.
Proof. unfold unread, forward. cbn [getp st_data]. intros E. by rewrite <- drop_drop, E, drop_app_length. Qed.
Lemma forward_forward s n m : forward (forward s n) m = forward s (n + m).
Proof. unfold forward. cbn. f_equal. lia. Qed.
Lemma forward_0 s : forward s 0 = s.
Proof. destruct s. unfold forward. cbn. f_equal. lia. Qed.

Lemma lor_add x b k : 0 <= k -> x mod 2 ^ k = 0 -> 0 <= b < 2 ^ k -> Z.lor x b = x + b.
Proof.
  intros Hk Hx Hb. symmetry. apply Z.add_nocarry_lor. apply Z.bits_inj'. intros i Hi. rewrite Z.land_spec, Z.bits_0.
  destruct (Z.lt_ge_cases i k) as [Hik|Hik].
  - rewrite <- (Z.mod_pow2_bits_low x k i) by lia. by rewrite Hx, Z.bits_0.
  - rewrite <- (Z.mod_small b (2 ^ k)), Z.mod_pow2_bits_high by lia. apply andb_false_r.
Qed.
Lemma lor_octets a b c d : in_u 8 b -> in_u 8 c -> in_u 8 d ->
  Z.lor (Z.lor (Z.lor (Z.shiftl a 24) (Z.shiftl b 16)) (Z.shiftl c 8)) d = a * 2 ^ 24 + b * 2 ^ 16 + c * 2 ^ 8 + d.
Proof.
  unfold in_u. intros Hb Hc Hd. rewrite !Z.shiftl_mul_pow2 by lia.
  rewrite (lor_add (a * 2 ^ 24) _ 24) by (lia || zdiv). rewrite (lor_add _ (c * 2 ^ 8) 16) by (lia || zdiv).
  rewrite (lor_add _ d 8) by (lia || zdiv). done.
Qed.
Lemma getc_spec s c rest : unread s = c :: rest -> stream_getc s = Ok (c, forward s 1).
Proof. unfold stream_getc. by intros ->. Qed.
Lemma get_number s w a rest : num_ok w a -> unread s = num_octets w a ++ rest ->
  (if w then stream_getl s else stream_getw s) = Ok (a, forward s (width w)).
Proof.
  unfold num_ok, in_u. intros Ha E. destruct w; unfold stream_getl, stream_getw; rewrite E; cbn [num_octets be32 be16 app width]; do 2 f_equal.
  - rewrite lor_octets by (unfold in_u; zdiv). zdiv.
  - rewrite Z.shiftl_mul_pow2, (lor_add _ _ 8) by (lia || zdiv). zdiv.
Qed.
Lemma read_numbers_spec w l : Forall (num_ok w) l -> forall s rest, unread s = concat (num_octets w <$> l) ++ rest ->
  read_numbers (length l) s w = Ok (l, forward s (length (concat (num_octets w <$> l)))).
Proof.
  induction 1 as [|a l Ha _ IH]; intros s rest E; cbn [length read_numbers fmap list_fmap concat]; [by rewrite forward_0|].
  cbn [fmap list_fmap concat] in E. rewrite <- (assoc_L (++)) in E. rewrite (get_number _ _ _ _ Ha E). cbn [mbind outcome_bind].
  apply unread_forward in E. rewrite num_octets_length in E. rewrite (IH _ _ E). cbn [mbind outcome_bind].
  by rewrite length_app, num_octets_length, forward_forward.
Qed.
(** Octets are numbers. *)
Lemma be16_pair a b : in_u 8 b -> be16 (a * 2 ^ 8 + b) = [a; b].
Proof. unfold in_u, be16. intros. repeat f_equal; zdiv. Qed.
Lemma be32_pair x y : in_u 16 y -> be32 (x * 2 ^ 16 + y) = be16 x ++ be16 y.
Proof. unfold in_u, be32. intros. do 2 f_equal; zdiv. Qed.
Lemma number_of w bs : Forall (in_u 8) bs -> length bs = width w -> exists a, num_ok w a /\ bs = num_octets w a.
Proof.
  intros Hb Hl. unfold num_ok, in_u in *. destruct w; cbn [width] in Hl.
  - destruct bs as [|a [|b [|c [|d []]]]]; try discriminate Hl. rewrite !Forall_cons in Hb. destruct Hb as (Ha & Hb & Hc & Hd & _).
    exists ((a * 2 ^ 8 + b) * 2 ^ 16 + (c * 2 ^ 8 + d)). split; [lia|]. cbn [num_octets]. by rewrite be32_pair, !be16_pair by (unfold in_u; lia).
  - destruct bs as [|a [|b []]]; try discriminate Hl. rewrite !Forall_cons in Hb. destruct Hb as (Ha & Hb & _).
    exists (a * 2 ^ 8 + b). split; [lia|]. cbn [num_octets]. by rewrite be16_pair by (unfold in_u; lia).
Qed.
Lemma numbers_of w n : forall bs, Forall (in_u 8) bs -> (width w * n <= length bs)%nat ->
  exists l rest, bs = concat (num_octets w <$> l) ++ rest /\ length l = n /\ Forall (num_ok w) l.
Proof.
  induction n as [|n IH]; intros bs Hb Hl; [by exists [], bs|].
  destruct (number_of w (take (width w) bs)) as (a & Ha & E); [by apply Forall_take|rewrite length_take; lia|].
  destruct (IH (drop (width w) bs)) as (l & rest & El & Hn & Hf); [by apply Forall_drop|rewrite length_drop; lia|].
  exists (a :: l), rest. cbn [fmap list_fmap concat]. rewrite <- (assoc_L (++)), <- E, <- El, take_drop. split_and!; [done|cbn; lia|by constructor].
Qed.

Lemma numbers_inj w l : forall l' r r', Forall (num_ok w) l -> Forall (num_ok w) l' -> length l = length l' ->
  concat (num_octets w <$> l) ++ r = concat (num_octets w <$> l') ++ r' -> l = l' /\ r = r'.
Proof.
  induction l as [|a l IH]; intros [|a' l'] r r' Hf Hf' Hl; try done. cbn [fmap list_fmap concat]. rewrite <- !(assoc_L (++)).
  apply Forall_cons in Hf as [Ha Hf]. apply Forall_cons in Hf' as [Ha' Hf']. intros [E1 E2]%app_inj_1; [|by rewrite !num_octets_length].
  destruct (IH l' r r' Hf Hf' ltac:(cbn in Hl; lia) E2) as [-> ->]. split; [|done]. f_equal. unfold num_ok, in_u in *.
  destruct w; cbn [num_octets be32 be16 app] in E1; injection E1; zdiv.
Qed.
Lemma encode_inj w seg seg' r r' : seg_ok w seg -> seg_ok w seg' -> encode w seg ++ r = encode w seg' ++ r' -> seg = seg' /\ r = r'.
Proof.
  intros [_ _ Hn] [_ _ Hn']. unfold encode, seg_length. cbn [app]. intros [= Et El E].
  destruct (numbers_inj w _ _ _ _ Hn Hn' ltac:(lia) E) as [Ea ->]. destruct seg, seg'; cbn in *. by subst.
Qed.
Lemma encode_ok_length w seg : seg_ok w seg -> (4 <= length (encode w seg) <= 2 + 255 * 4)%nat /\ Z.of_nat (length (encode w seg)) mod 2 = 0.
Proof.
  intros [_ Hl _]. pose proof (encode_length w seg) as E. unfold ASSEGMENT_SIZE, AS_HEADER_SIZE, AS_VALUE_SIZE, AS16_VALUE_SIZE, AS_SEGMENT_MAX in *.
  rewrite E. destruct w; (split; [lia|zdiv]).
Qed.
Lemma decode_unique w l : forall l', Forall (seg_ok w) l -> Forall (seg_ok w) l' ->
  concat (encode w <$> l) = concat (encode w <$> l') -> l = l'.
Proof.
  induction l as [|seg l IH]; intros [|seg' l'] Hf Hf'; cbn [fmap list_fmap concat]; try done.
  apply Forall_cons in Hf as [Ho Hf]. apply Forall_cons in Hf' as [Ho' Hf']. intros E.
  destruct (encode_inj w _ _ _ _ Ho Ho' E) as [-> E']. f_equal. by apply IH.
Qed.

Definition encoded (w : bool) (r : list Z) (l : list assegment) : Prop := Forall (seg_ok w) l /\ r = concat (encode w <$> l).
Lemma encoded_cons w r seg l : encoded w r (seg :: l) -> exists r', r = encode w seg ++ r' /\ seg_ok w seg /\ encoded w r' l.
Proof. intros [[Ho Hf]%Forall_cons ->]. eexists. split; [reflexivity|]. split; [done|by split]. Qed.
Lemma parse_loop_spec w fuel : forall r s rest bytes len segs, Forall (in_u 8) r -> unread s = r ++ rest ->
  len - bytes = Z.of_nat (length r) -> (length r < fuel)%nat ->
  exists s' res, parse_loop fuel s bytes len w segs = Ok (s', res)
    /\ match res with
       | Some p => s' = forward s (length r) /\ exists l, encoded w r l /\ p = segs ++ l
       | None => forall l, ~ encoded w r l
       end.
Proof.
  induction fuel as [|fuel IH]; intros r s rest bytes len segs Hr Hu Hl Hfu; [lia|]. cbn [parse_loop].
  destruct (Z.ltb_spec bytes len) as [Hlt|Hge].
  2: { destruct r; cbn [length] in Hl; [|lia]. eexists _, _. split; [done|]. cbn [length]. rewrite forward_0. split; [done|].
       exists []. split; [by split|by rewrite app_nil_r]. }
  destruct (Z.leb_spec (len - bytes) AS_HEADER_SIZE) as [Hh|Hh]; unfold AS_HEADER_SIZE in Hh.
  { eexists _, None. split; [done|]. intros [|seg l] He; [by destruct He as [_ ->]; cbn in Hl; lia|].
    apply encoded_cons in He as (r' & -> & Ho & _). apply encode_ok_length in Ho as [[Hlo _] _]. rewrite length_app in Hl. lia. }
  destruct r as [|t [|n r]]; cbn [length] in Hl, Hfu; try lia. apply Forall_cons in Hr as [Ht Hr]. apply Forall_cons in Hr as [Hn Hr].
  cbn [app] in Hu. rewrite (getc_spec _ _ _ Hu). cbn [mbind outcome_bind]. rewrite (getc_spec (forward s 1) n _ (unread_forward _ [t] _ Hu)). cbn [mbind outcome_bind].
  rewrite forward_forward. change (1 + 1)%nat with (length [t; n]). pose proof (unread_forward s [t; n] (r ++ rest) Hu) as Hu2.
  destruct ((len <? bytes + ASSEGMENT_SIZE n w) || (n =? 0)) eqn:E1; [|destruct (negb (known_type t)) eqn:E2].
  - eexists _, None. split; [done|]. intros [|seg l] He; [by destruct He|]. apply encoded_cons in He as (r' & E & Ho & _).
    pose proof (encode_length w seg) as Hel. pose proof (f_equal length E) as El. rewrite length_app in El. cbn [length] in El.
    injection E as -> -> _. destruct Ho as [_ Hsl _]. apply orb_true_iff in E1 as [E1%Z.ltb_lt|E1%Z.eqb_eq]; lia.
  - eexists _, None. split; [done|]. intros [|seg l] He; [by destruct He|]. apply encoded_cons in He as (r' & E & [Ho _ _] & _).
    injection E as -> _ _. by rewrite Ho in E2.
  - apply orb_false_iff in E1 as [E1%Z.ltb_ge E1'%Z.eqb_neq]. apply negb_false_iff in E2. unfold in_u in Hn.
    destruct (numbers_of w (Z.to_nat n) r Hr) as (l & r' & -> & Hln & Hlf).
    { unfold ASSEGMENT_SIZE, AS_HEADER_SIZE, AS_VALUE_SIZE, AS16_VALUE_SIZE in E1. destruct w; cbn [width]; lia. }
    rewrite <- (assoc_L (++)) in Hu2. rewrite <- Hln, (read_numbers_spec w l Hlf _ _ Hu2). cbn [mbind outcome_bind].
    apply Forall_app in Hr as [_ Hr]. rewrite length_app in Hl, Hfu. pose proof (numbers_length w l) as Hnl.
    assert (ASSEGMENT_SIZE n w = 2 + Z.of_nat (width w * length l)) as Hsz.
    { unfold ASSEGMENT_SIZE, AS_HEADER_SIZE, AS_VALUE_SIZE, AS16_VALUE_SIZE. destruct w; cbn [width]; lia. }
    assert (seg_ok w (mkSeg t l)) as Hok.
    { constructor; [done| |done]. unfold seg_length, AS_SEGMENT_MAX. cbn [seg_as]. lia. }
    assert (encode w (mkSeg t l) = t :: n :: concat (num_octets w <$> l)) as Henc.
    { unfold encode, seg_length. cbn [seg_type seg_as]. by rewrite Hln, Z2Nat.id by lia. }
    destruct (IH r' (forward (forward s (length [t; n])) (length (concat (num_octets w <$> l)))) rest (bytes + ASSEGMENT_SIZE n w) len (segs ++ [mkSeg t l]))
      as (s' & res & Hp & Hres); [done|by apply unread_forward|lia|lia|].
    exists s', res. split; [exact Hp|]. destruct res as [p|].
    + destruct Hres as [-> (l' & [Hf ->] & ->)]. split.
      { rewrite !forward_forward. f_equal. cbn [length]. rewrite length_app. lia. }
      exists (mkSeg t l :: l'). rewrite <- (assoc_L (++)). split; [|done]. split; [by constructor|]. cbn [fmap list_fmap concat]. by rewrite Henc.
    + intros [|seg l'] He; [by destruct He|]. apply encoded_cons in He as (r2 & E & Ho & He).
      change (t :: n :: concat (num_octets w <$> l) ++ r') with ((t :: n :: concat (num_octets w <$> l)) ++ r') in E. rewrite <- Henc in E.
      destruct (encode_inj w _ _ _ _ Hok Ho E) as [_ ->]. by apply (Hres l').
Qed.
Lemma encoded_even w r l : encoded w r l -> Z.of_nat (length r) mod 2 = 0.
Proof.
  revert r. induction l as [|seg l IH]; intros r He; [by destruct He as [_ ->]|].
  apply encoded_cons in He as (r' & -> & Ho & He). apply encode_ok_length in Ho as [_ Ho]. apply IH in He. rewrite length_app. zdiv.
Qed.

Lemma assegments_parse_spec s len use32bit : (getp s <= length (st_data s))%nat -> Forall (in_u 8) (unread s) -> 0 <= len ->
  exists s' result, assegments_parse s len use32bit = Ok (s', result)
    /\ (forall p, result = Some p <-> exists segs, Forall (seg_ok use32bit) segs /\ len <= Z.of_nat (length (unread s))
           /\ take (Z.to_nat len) (unread s) = concat (encode use32bit <$> segs) /\ p = assegment_normalise segs)
    /\ (result <> None -> s' = forward s (Z.to_nat len)).
Proof.
  intros Hg Hb Hl. set (r := take (Z.to_nat len) (unread s)). unfold assegments_parse.
  assert (STREAM_READABLE s = Z.of_nat (length (unread s))) as Hrd.
  { unfold STREAM_READABLE, stream_get_endp, unread. rewrite length_drop. lia. }
  destruct (Z.eqb_spec len 0) as [-> | Hn0].
  { eexists _, _. split; [done|]. cbn [Z.to_nat]. rewrite forward_0. split; [|done]. intros p. split.
    - intros [= <-]. exists []. split_and!; [done|lia|by subst r|done].
    - intros (l & Hf & _ & E & ->). subst r. cbn [Z.to_nat take] in E. by rewrite (decode_unique use32bit l [] Hf ltac:(done) (eq_sym E)). }
  rewrite Hrd. change AS16_VALUE_SIZE with 2. destruct (_ || _ || _) eqn:E.
  - eexists s, None. split; [done|]. split; [|done]. intros p. split; [done|]. intros (l & Hf & Hle & El & _). exfalso.
    assert (length r = Z.to_nat len) as Hrl by (subst r; rewrite length_take; lia).
    assert (encoded use32bit r l) as He by done. pose proof (encoded_even _ _ _ He) as Hev. rewrite Hrl, Z2Nat.id in Hev by lia.
    rewrite Hev in E. unfold AS_HEADER_SIZE in E. destruct (Z.ltb_spec (Z.of_nat (length (unread s))) len); [lia|].
    destruct (Z.ltb_spec (Z.of_nat (length (unread s))) 2); [|done]. assert (len = 1) as -> by lia. done.
  - apply orb_false_iff in E as [[E%Z.ltb_ge _]%orb_false_iff _].
    assert (length r = Z.to_nat len) as Hrl by (subst r; rewrite length_take; lia).
    destruct (parse_loop_spec use32bit (S (Z.to_nat len)) r s (drop (Z.to_nat len) (unread s)) 0 len []) as (s' & res & Hp & Hres);
      [by apply Forall_take|by subst r; rewrite take_drop|lia|lia|].
    rewrite Hp. cbn [mbind outcome_bind]. eexists _, _. split; [done|]. rewrite Hrl in Hres. destruct res as [p0|]; cbn [option_map].
    + destruct Hres as [-> (l & He & ->)]. split; [|done]. intros p. split.
      * intros [= <-]. exists l. by destruct He.
      * intros (l' & Hf & _ & E' & ->). do 2 f_equal. destruct He as [Hf2 E2]. apply (decode_unique use32bit l l' Hf2 Hf). by rewrite <- E2, <- E'.
    + split; [|done]. intros p. split; [done|]. intros (l & Hf & _ & E' & _). by destruct (Hres l).
Qed.

(** ** The normal form *)
(** All numbers of a path. *)
Definition asns (segments : list assegment) : list Z := concat (seg_as <$> segments).
Lemma asns_app p q : asns (p ++ q) = asns p ++ asns q.
Proof. unfold asns. by rewrite fmap_app, concat_app. Qed.
Lemma asns_cons seg p : asns (seg :: p) = seg_as seg ++ asns p.
Proof. done. Qed.
Definition small (segments : list assegment) : Prop := Z.of_nat (length (asns segments)) <= 65535.

Lemma seg16_small type l : Z.of_nat (length l) <= 65535 -> seg16 type l = mkSeg type l.
Proof. intros Hl. unfold seg16, u16, wrap. rewrite Z.mod_small by lia. by rewrite Nat2Z.id, firstn_all. Qed.
(** Normalising without the limit. *)
Definition join (seg : assegment) (asnos : list Z) : assegment := mkSeg (seg_type seg) (seg_as seg ++ asnos).
Fixpoint normal_from (pin : assegment) (segments : list assegment) : list assegment :=
  match segments with
  | [] => [pin]
  | seg :: segs => if ASSEGMENT_TYPES_PACKABLE pin seg then normal_from (join pin (seg_as seg)) segs else pin :: normal_from (sort_set seg) segs
  end.
Definition normal_form (segments : list assegment) : list assegment :=
  match segments with [] => [] | seg :: segs => normal_from (sort_set seg) segs end.

Lemma weed_elem x l : forall tail, x ∈ weed_dupes tail l <-> x ∈ tail :: l.
Proof.
  induction l as [|a l IH]; intros tail; cbn [weed_dupes]; [done|]. destruct (Z.eqb_spec tail a) as [<-|]; rewrite ?elem_of_cons, IH, !elem_of_cons; tauto.
Qed.
Lemma weed_length l : forall tail, (1 <= length (weed_dupes tail l) <= S (length l))%nat.
Proof.
  induction l as [|a l IH]; intros tail; cbn [weed_dupes length]; [lia|]. destruct (tail =? a); cbn [length]; [specialize (IH tail)|specialize (IH a)]; lia.
Qed.
Lemma weed_strict l : forall tail, StronglySorted Z.le (tail :: l) -> StronglySorted Z.lt (weed_dupes tail l).
Proof.
  induction l as [|a l IH]; intros tail Hs; cbn [weed_dupes]; [by repeat constructor|].
  apply StronglySorted_inv in Hs as [Hs Hle]. pose proof Hs as [Hs' Hle']%StronglySorted_inv. destruct (Z.eqb_spec tail a) as [<-|Hne]; [by apply IH|].
  constructor; [by apply IH|]. apply Forall_forall. intros x Hx%weed_elem. apply Forall_cons in Hle as [Hta _].
  apply elem_of_cons in Hx as [->|Hx]; [lia|]. rewrite Forall_forall in Hle'. specialize (Hle' _ Hx). lia.
Qed.
Lemma weed_id l : forall tail, StronglySorted Z.lt (tail :: l) -> weed_dupes tail l = tail :: l.
Proof.
  induction l as [|a l IH]; intros tail Hs; cbn [weed_dupes]; [done|]. apply StronglySorted_inv in Hs as [Hs Hlt]. apply Forall_cons in Hlt as [Hta _].
  rewrite (proj2 (Z.eqb_neq tail a)) by lia. by rewrite IH.
Qed.
Lemma sort_id l : StronglySorted Z.lt l -> merge_sort Z.le l = l.
Proof.
  intros Hs. apply (StronglySorted_unique Z.le); [apply (StronglySorted_merge_sort Z.le)| |apply merge_sort_Permutation].
  revert Hs. induction 1 as [|a l Hs IH Hf]; constructor; [done|]. eapply Forall_impl; [exact Hf|]. cbn. lia.
Qed.
Lemma sort_set_type seg : seg_type (sort_set seg) = seg_type seg.
Proof. unfold sort_set. by destruct (is_set seg). Qed.
Lemma sort_set_elem seg x : x ∈ seg_as (sort_set seg) <-> x ∈ seg_as seg.
Proof.
  unfold sort_set. destruct (is_set seg); [|done]. cbn [seg_as]. rewrite <- (merge_sort_Permutation Z.le (seg_as seg)) at 2.
  destruct (merge_sort Z.le (seg_as seg)); [done|]. apply weed_elem.
Qed.
Lemma sort_set_sorted seg : is_set seg = true -> StronglySorted Z.lt (seg_as (sort_set seg)).
Proof.
  intros Hs. unfold sort_set. rewrite Hs. cbn [seg_as]. pose proof (StronglySorted_merge_sort Z.le (seg_as seg)) as Hm.
  destruct (merge_sort Z.le (seg_as seg)); [constructor|by apply weed_strict].
Qed.
Lemma sort_set_idem seg : sort_set (sort_set seg) = sort_set seg.
Proof.
  destruct (is_set seg) eqn:E; [|unfold sort_set; by rewrite !E]. pose proof (sort_set_sorted seg E) as Hs.
  unfold sort_set at 1. assert (is_set (sort_set seg) = true) as -> by (unfold is_set in *; by rewrite sort_set_type).
  rewrite sort_id by done. destruct (sort_set seg) as [t [|a l]]; [done|]. cbn [seg_as seg_type] in *. by rewrite weed_id.
Qed.
Lemma sort_set_length seg : (length (seg_as (sort_set seg)) <= length (seg_as seg))%nat /\ (seg_as seg <> [] -> seg_as (sort_set seg) <> []).
Proof.
  unfold sort_set. destruct (is_set seg); [|done]. cbn [seg_as]. rewrite <- (Permutation_length (merge_sort_Permutation Z.le (seg_as seg))).
  pose proof (merge_sort_Permutation Z.le (seg_as seg)) as Hp. destruct (merge_sort Z.le (seg_as seg)) as [|a l].
  - apply Permutation_nil_l in Hp as <-. done.
  - pose proof (weed_length l a). split; [cbn [length]; lia|]. intros _ E. rewrite E in *. cbn in *. lia.
Qed.

(** No two sequences are neighbors. *)
Fixpoint separated (segments : list assegment) : Prop :=
  match segments with
  | x :: ((y :: _) as segs) => ASSEGMENT_TYPES_PACKABLE x y = false /\ separated segs
  | _ => True
  end.
(** A segment as the parser leaves it. *)
Record kept_seg seg : Prop := mk_kept_seg {
  ks_type : known_type (seg_type seg) = true;
  ks_numbers : Forall (in_u 32) (seg_as seg);
  ks_nonempty : seg_as seg <> [];
  ks_other : seg_type seg <> AS_SEQUENCE -> seg_length seg <= AS_SEGMENT_MAX;
  ks_sorted : sort_set seg = seg
}.
Lemma sort_set_kept seg : seg_ok true seg -> kept_seg (sort_set seg).
Proof.
  intros [Ht Hl Hn]. destruct (sort_set_length seg) as [Hle Hne]. unfold seg_length, AS_SEGMENT_MAX in *. constructor.
  - by rewrite sort_set_type.
  - rewrite Forall_forall in Hn |- *. intros x Hx. exact (Hn x (proj1 (sort_set_elem seg x) Hx)).
  - apply Hne. intros E. rewrite E in Hl. cbn in Hl. lia.
  - intros _. unfold seg_length, AS_SEGMENT_MAX. lia.
  - apply sort_set_idem.
Qed.
Lemma packable_types x y : ASSEGMENT_TYPES_PACKABLE x y = true -> seg_type x = AS_SEQUENCE /\ seg_type y = AS_SEQUENCE.
Proof. unfold ASSEGMENT_TYPES_PACKABLE. intros [Hx%Z.eqb_eq Hy%Z.eqb_eq]%andb_true_iff. split; congruence. Qed.
Lemma sort_set_sequence seg : seg_type seg = AS_SEQUENCE -> sort_set seg = seg.
Proof. unfold sort_set, is_set. by intros ->. Qed.
Lemma append_kept pin seg : kept_seg pin -> seg_ok true seg -> seg_type pin = AS_SEQUENCE -> kept_seg (join pin (seg_as seg)).
Proof.
  intros [Ht Hn Hne Ho Hs] [Ht' Hl' Hn'] Hp. constructor; cbn [join seg_type seg_as]; try done.
  - by apply Forall_app.
  - intros [E _]%app_eq_nil. by apply Hne.
  - by apply sort_set_sequence.
Qed.
Lemma normalise_from_kept segs : forall pin, kept_seg pin -> Forall (seg_ok true) segs -> Forall kept_seg (normal_from pin segs).
Proof.
  induction segs as [|seg segs IH]; intros pin Hp Hf; cbn [normal_from]; [by constructor|]. apply Forall_cons in Hf as [Ho Hf].
  destruct (ASSEGMENT_TYPES_PACKABLE pin seg) eqn:E.
  - apply packable_types in E as [Ep _]. apply IH; [by apply append_kept|done].
  - constructor; [done|]. apply IH; [by apply sort_set_kept|done].
Qed.
Lemma normalise_from_head segs : forall pin, exists l segs', normal_from pin segs = mkSeg (seg_type pin) l :: segs'.
Proof.
  induction segs as [|seg segs IH]; intros pin; cbn [normal_from]; [destruct pin; by eexists _, _|].
  destruct (ASSEGMENT_TYPES_PACKABLE pin seg); [apply (IH (join pin (seg_as seg)))|destruct pin; by eexists _, _].
Qed.
Lemma normalise_from_separated segs : forall pin, separated (normal_from pin segs).
Proof.
  induction segs as [|seg segs IH]; intros pin; cbn [normal_from]; [done|]. destruct (ASSEGMENT_TYPES_PACKABLE pin seg) eqn:E; [apply IH|].
  specialize (IH (sort_set seg)). destruct (normalise_from_head segs (sort_set seg)) as (l & segs' & Eh). rewrite Eh in *. split; [|done].
  unfold ASSEGMENT_TYPES_PACKABLE in *. cbn [seg_type]. by rewrite sort_set_type.
Qed.
Lemma normalise_kept segs : Forall (seg_ok true) segs -> Forall kept_seg (normal_form segs) /\ separated (normal_form segs).
Proof.
  destruct segs as [|seg segs]; [done|]. intros [Ho Hf]%Forall_cons. cbn [normal_form].
  split; [apply normalise_from_kept; [by apply sort_set_kept|done]|apply normalise_from_separated].
Qed.
Lemma normalise_from_id segs : forall pin, Forall (fun seg => sort_set seg = seg) segs -> separated (pin :: segs) -> normal_from pin segs = pin :: segs.
Proof.
  induction segs as [|seg segs IH]; intros pin Hf Hs; cbn [normal_from]; [done|]. apply Forall_cons in Hf as [E Hf]. destruct Hs as [Hp Hs].
  rewrite Hp, E. f_equal. by apply IH.
Qed.
Lemma normalise_id segs : Forall kept_seg segs -> separated segs -> normal_form segs = segs.
Proof.
  destruct segs as [|seg segs]; [done|]. intros [Ho Hf]%Forall_cons Hs. cbn [normal_form]. rewrite (ks_sorted _ Ho).
  apply normalise_from_id; [|done]. eapply Forall_impl; [exact Hf|]. intros x Hx. apply ks_sorted, Hx.
Qed.

(** Up to 65535 numbers the limit of a segment is not reached. *)
Lemma sort_set_asns seg segs : (length (asns (sort_set seg :: segs)) <= length (asns (seg :: segs)))%nat.
Proof. rewrite !asns_cons, !length_app. destruct (sort_set_length seg). lia. Qed.
Lemma normalise_from_small segs : forall pin, small (pin :: segs) -> normalise_from pin segs = normal_from pin segs.
Proof.
  unfold small. induction segs as [|seg segs IH]; intros pin Hs; cbn [normalise_from normal_from]; [done|].
  pose proof (sort_set_asns seg segs) as Hle. rewrite asns_cons, length_app in Hs. destruct (ASSEGMENT_TYPES_PACKABLE pin seg).
  - rewrite !asns_cons, !length_app in Hs. unfold assegment_append_asns. rewrite seg16_small by (rewrite length_app; lia).
    fold (join pin (seg_as seg)). apply IH. rewrite asns_cons, length_app. cbn [join seg_as]. rewrite length_app. lia.
  - f_equal. apply IH. lia.
Qed.
Lemma assegment_normalise_small segs : small segs -> assegment_normalise segs = normal_form segs.
Proof.
  destruct segs as [|seg segs]; [done|]. intros Hs. cbn [assegment_normalise normal_form]. apply normalise_from_small. unfold small in *.
  pose proof (sort_set_asns seg segs). lia.
Qed.
Lemma encoded_small w segs : Z.of_nat (length (concat (encode w <$> segs))) <= 65535 -> small segs.
Proof.
  intros Hl. unfold small. assert (length (asns segs) <= length (concat (encode w <$> segs)))%nat as Hle; [|lia]. clear Hl.
  induction segs as [|seg segs IH]; [done|]. rewrite asns_cons. cbn [fmap list_fmap concat]. rewrite !length_app.
  unfold encode at 1. cbn [length]. rewrite numbers_length. unfold width. destruct w; lia.
Qed.

(** What a path says: the autonomous systems one after the other, whatever the segments
    they come in, and sets as sets. *)
Inductive hop :=
| One (a : Z)
| OneOf (type : Z) (s : gset Z)
| Other (type : Z) (l : list Z).
Definition hops_of seg : list hop :=
  if seg_type seg =? AS_SEQUENCE then One <$> seg_as seg
  else if is_set seg then [OneOf (seg_type seg) (list_to_set (seg_as seg))] else [Other (seg_type seg) (seg_as seg)].
Definition route segments : list hop := concat (hops_of <$> segments).
(** No two sequences are neighbors, no segment is empty, and sets are sorted without
    duplicates. *)
Definition normal segments : Prop :=
  separated segments /\ Forall (fun seg => seg_as seg <> [] /\ (is_set seg = true -> StronglySorted Z.lt (seg_as seg))) segments.

Lemma hops_of_sort_set seg : hops_of (sort_set seg) = hops_of seg.
Proof.
  unfold hops_of. destruct (Z.eqb_spec (seg_type seg) AS_SEQUENCE) as [Ht|Ht]; [by rewrite sort_set_sequence, Ht|].
  rewrite sort_set_type, (proj2 (Z.eqb_neq _ _) Ht). unfold is_set. rewrite sort_set_type. fold (is_set seg). destruct (is_set seg) eqn:Es.
  - do 2 f_equal. apply set_eq. intros x. by rewrite !elem_of_list_to_set, sort_set_elem.
  - unfold sort_set. by rewrite Es.
Qed.
Lemma normal_from_route segs : forall pin, route (normal_from pin segs) = hops_of pin ++ route segs.
Proof.
  induction segs as [|seg segs IH]; intros pin; cbn [normal_from]; [done|]. destruct (ASSEGMENT_TYPES_PACKABLE pin seg) eqn:E.
  - apply packable_types in E as [E1 E2]. rewrite IH. unfold route. cbn [fmap list_fmap concat]. rewrite (assoc_L (++)). f_equal.
    unfold hops_of. cbn [join seg_type seg_as]. rewrite E1, E2. change (AS_SEQUENCE =? AS_SEQUENCE) with true. cbn iota. by rewrite fmap_app.
  - change (route (pin :: ?l)) with (hops_of pin ++ route l). by rewrite IH, hops_of_sort_set.
Qed.
Lemma normal_form_route segs : route (normal_form segs) = route segs.
Proof. destruct segs as [|seg segs]; [done|]. cbn [normal_form]. by rewrite normal_from_route, hops_of_sort_set. Qed.
Lemma normal_from_normal segs : forall pin, seg_as pin <> [] -> (is_set pin = true -> StronglySorted Z.lt (seg_as pin)) ->
  Forall (fun seg => seg_as seg <> []) segs ->
  Forall (fun seg => seg_as seg <> [] /\ (is_set seg = true -> StronglySorted Z.lt (seg_as seg))) (normal_from pin segs).
Proof.
  induction segs as [|seg segs IH]; intros pin Hne Hs Hf; cbn [normal_from]; [by repeat constructor|]. apply Forall_cons in Hf as [Ho Hf].
  destruct (ASSEGMENT_TYPES_PACKABLE pin seg) eqn:E.
  - apply packable_types in E as [E _]. apply IH; [|unfold is_set; cbn [join seg_type]; by rewrite E|done]. by intros [? _]%app_eq_nil.
  - constructor; [done|]. apply IH; [by apply sort_set_length| |done]. intros Es. apply sort_set_sorted. unfold is_set in *. by rewrite sort_set_type in Es.
Qed.
Lemma normal_form_normal segs : Forall (fun seg => seg_as seg <> []) segs -> normal (normal_form segs).
Proof.
  destruct segs as [|seg segs]; [done|]. intros [Ho Hf]%Forall_cons. split; [apply normalise_from_separated|]. cbn [normal_form].
  apply normal_from_normal; [by apply sort_set_length| |done]. intros Es. apply sort_set_sorted. unfold is_set in *. by rewrite sort_set_type in Es.
Qed.

(** A path has one normal form. *)
Lemma hops_of_nonempty seg : seg_as seg <> [] -> hops_of seg <> [].
Proof. unfold hops_of. repeat case_match; try done. by destruct (seg_as seg). Qed.
Lemma fmap_one_inj l : forall l' r r', (forall a r2, r <> One a :: r2) -> (forall a r2, r' <> One a :: r2) ->
  (One <$> l) ++ r = (One <$> l') ++ r' -> l = l' /\ r = r'.
Proof.
  induction l as [|a l IH]; intros [|a' l'] r r' Hr Hr' E; cbn [fmap list_fmap app] in E.
  - done.
  - by destruct (Hr a' ((One <$> l') ++ r')).
  - by destruct (Hr' a ((One <$> l) ++ r)).
  - injection E as -> E. by destruct (IH l' r r' Hr Hr' E) as [-> ->].
Qed.
Lemma after_sequence seg p a r : normal (seg :: p) -> seg_type seg = AS_SEQUENCE -> route p <> One a :: r.
Proof.
  intros [Hs Hf] Ht E. destruct p as [|seg2 p]; [done|]. destruct Hs as [Hk _]. apply Forall_cons in Hf as [_ [[Hne _] _]%Forall_cons].
  unfold ASSEGMENT_TYPES_PACKABLE in Hk. rewrite Ht, andb_true_r in Hk. apply Z.eqb_neq in Hk. revert E. unfold route. cbn [fmap list_fmap concat]. unfold hops_of at 1.
  rewrite (proj2 (Z.eqb_neq (seg_type seg2) AS_SEQUENCE)) by congruence. by destruct (is_set seg2).
Qed.
Lemma normal_tail seg p : normal (seg :: p) -> normal p.
Proof.
  intros [Hs Hf]. apply Forall_cons in Hf as [_ Hf]. split; [|done]. destruct p; [done|apply Hs].
Qed.
Lemma sorted_set_unique (l l' : list Z) : StronglySorted Z.lt l -> StronglySorted Z.lt l' -> list_to_set (C := gset Z) l = list_to_set l' -> l = l'.
Proof.
  intros Hl Hl' E. apply (StronglySorted_unique_strong Z.lt); [intros; lia|done|done|].
  assert (forall k : list Z, StronglySorted Z.lt k -> NoDup k) as Hnd.
  { induction 1 as [|a k _ IH Hf]; constructor; [|done]. intros Hin. rewrite Forall_forall in Hf. specialize (Hf _ Hin). lia. }
  apply NoDup_Permutation; [by apply Hnd..|]. intros x. by rewrite <- !(elem_of_list_to_set (C := gset Z)), E.
Qed.
Lemma normal_unique p : forall q, normal p -> normal q -> route p = route q -> p = q.
Proof.
  induction p as [|seg p IH]; intros [|seg' q] Hp Hq E; try done.
  - destruct Hq as [_ [[Hne _] _]%Forall_cons]. apply hops_of_nonempty in Hne. unfold route in E. cbn [fmap list_fmap concat] in E. symmetry in E. by apply app_eq_nil in E as [? _].
  - destruct Hp as [_ [[Hne _] _]%Forall_cons]. apply hops_of_nonempty in Hne. unfold route in E. cbn [fmap list_fmap concat] in E. by apply app_eq_nil in E as [? _].
  - assert (seg = seg' /\ route p = route q) as [-> E2]; [|f_equal; apply IH; [by eapply normal_tail|by eapply normal_tail|done]].
    pose proof (after_sequence seg p) as Hap. pose proof (after_sequence seg' q) as Haq.
    pose proof (proj2 Hp) as [[Hne Hso] _]%Forall_cons. pose proof (proj2 Hq) as [[Hne' Hso'] _]%Forall_cons.
    change (hops_of seg ++ route p = hops_of seg' ++ route q) in E. revert E. unfold hops_of.
    destruct seg as [t l], seg' as [t' l']. cbn [seg_type seg_as] in *.
    destruct (Z.eqb_spec t AS_SEQUENCE) as [Ht|Ht], (Z.eqb_spec t' AS_SEQUENCE) as [Ht'|Ht']; intros E.
    + destruct (fmap_one_inj l l' (route p) (route q)) as [-> ->]; [by intros; apply Hap|by intros; apply Haq|done|]. split; [congruence|done].
    + destruct l as [|a l]; [done|]. revert E. destruct (is_set (mkSeg t' l')); intros E; discriminate E.
    + destruct l' as [|a l']; [done|]. revert E. destruct (is_set (mkSeg t l)); intros E; discriminate E.
    + destruct (is_set (mkSeg t l)) eqn:E1, (is_set (mkSeg t' l')) eqn:E2; cbn [app] in E; try discriminate E; injection E as <- El Er; (split; [|done]).
      * f_equal. apply sorted_set_unique; auto.
      * by f_equal.
Qed.

(** C21  The parser of the AS_PATH attribute fails no assertion, whatever the octets.  It
    accepts an attribute, of at most 65535 octets as its length has 16 bits, exactly when
    the stream holds that many octets and they are the encoding of segments of known
    types with 1 to 255 numbers each.  Then it has read all of the attribute, and the
    result is the one path in normal form (no sequence next to another, sets sorted
    without duplicates) with the same autonomous systems in the same order. *)
Theorem assegments_parse_correct s len use32bit : (getp s <= length (st_data s))%nat -> Forall (in_u 8) (unread s) -> 0 <= len <= 65535 ->
  exists s' result, assegments_parse s len use32bit = Ok (s', result)
    /\ (forall p, result = Some p <-> exists segs, Forall (seg_ok use32bit) segs /\ len <= Z.of_nat (length (unread s))
           /\ take (Z.to_nat len) (unread s) = concat (encode use32bit <$> segs) /\ normal p /\ route p = route segs)
    /\ (result <> None -> s' = forward s (Z.to_nat len)).
Proof.
  intros Hg Hb Hl. destruct (assegments_parse_spec s len use32bit Hg Hb ltac:(lia)) as (s' & result & Ep & Hr & Hf).
  exists s', result. split; [done|]. split; [|done]. intros p. rewrite (Hr p). clear Ep Hr Hf.
  assert (forall segs, Forall (seg_ok use32bit) segs -> take (Z.to_nat len) (unread s) = concat (encode use32bit <$> segs) ->
    assegment_normalise segs = normal_form segs /\ normal (normal_form segs)) as Hn.
  { intros segs Hf E. split.
    - apply assegment_normalise_small, (encoded_small use32bit). rewrite <- E, length_take. lia.
    - apply normal_form_normal. eapply Forall_impl; [exact Hf|]. intros seg [_ Hs _] En. unfold seg_length in Hs. rewrite En in Hs. cbn in Hs. lia. }
  split; intros (segs & Hf & Hle & E & Hp); exists segs; do 3 (split; [done|]); destruct (Hn segs Hf E) as [En Hno]; rewrite En in *.
  - subst p. split; [done|apply normal_form_route].
  - destruct Hp as [Hp Er]. apply normal_unique; [done|done|]. by rewrite normal_form_route.
Qed.

(** The parts a segment of at most 510 numbers is sent in. *)
Definition pieces seg : list assegment :=
  if seg_length seg <=? AS_SEGMENT_MAX then [seg]
  else [mkSeg (seg_type seg) (take 255 (seg_as seg)); mkSeg (seg_type seg) (drop 255 (seg_as seg))].
Lemma pieces_sequence seg : kept_seg seg -> AS_SEGMENT_MAX < seg_length seg -> seg_type seg = AS_SEQUENCE.
Proof. intros [_ _ _ Ho _] Hl. destruct (decide (seg_type seg = AS_SEQUENCE)); [done|]. specialize (Ho ltac:(done)). lia. Qed.
Lemma normalise_from_pieces segs : forall pin, Forall kept_seg segs ->
  normal_from pin (concat (pieces <$> segs)) = normal_from pin segs.
Proof.
  induction segs as [|seg segs IH]; intros pin Hf; [done|]. apply Forall_cons in Hf as [Ho Hf]. cbn [fmap list_fmap concat normal_from].
  unfold pieces at 1. destruct (Z.leb_spec (seg_length seg) AS_SEGMENT_MAX) as [Hle|Hgt]; cbn [app normal_from]; [by rewrite !IH|].
  pose proof (pieces_sequence _ Ho Hgt) as Ht. unfold ASSEGMENT_TYPES_PACKABLE. rewrite Ht. cbn [seg_type].
  rewrite (sort_set_sequence seg), (sort_set_sequence (mkSeg AS_SEQUENCE (take 255 (seg_as seg)))) by done.
  destruct ((seg_type pin =? AS_SEQUENCE) && (seg_type pin =? AS_SEQUENCE)) eqn:E; unfold join; cbn [seg_type seg_as].
  - rewrite E, <- (assoc_L (++)), take_drop. apply IH, Hf.
  - change ((AS_SEQUENCE =? AS_SEQUENCE) && (AS_SEQUENCE =? AS_SEQUENCE)) with true. cbn iota. f_equal.
    rewrite take_drop, IH by done. f_equal. destruct seg; cbn in *. by subst.
Qed.
Lemma normalise_pieces segs : Forall kept_seg segs -> separated segs -> normal_form (concat (pieces <$> segs)) = segs.
Proof.
  intros Hf Hs. rewrite <- (normalise_id segs Hf Hs) at 2. destruct segs as [|seg segs]; [done|]. apply Forall_cons in Hf as [Ho Hf].
  cbn [fmap list_fmap concat normal_form]. unfold pieces at 1.
  destruct (Z.leb_spec (seg_length seg) AS_SEGMENT_MAX) as [Hle|Hgt]; cbn [app normal_form normal_from]; [by rewrite normalise_from_pieces|].
  pose proof (pieces_sequence _ Ho Hgt) as Ht. rewrite !sort_set_sequence by done. unfold ASSEGMENT_TYPES_PACKABLE, join. cbn [seg_type seg_as].
  rewrite Ht. change ((AS_SEQUENCE =? AS_SEQUENCE) && (AS_SEQUENCE =? AS_SEQUENCE)) with true. cbn iota.
  rewrite take_drop, normalise_from_pieces by done. f_equal. destruct seg; cbn in *. by subst.
Qed.
Lemma pieces_ok segs : Forall kept_seg segs -> Forall (fun seg => seg_length seg <= 510) segs -> Forall (seg_ok true) (concat (pieces <$> segs)).
Proof.
  induction 1 as [|seg segs Ho _ IH]; intros Hl; [done|]. apply Forall_cons in Hl as [Hl Hls]. cbn [fmap list_fmap concat]. apply Forall_app. split; [|by apply IH].
  destruct Ho as [Ht Hn Hne Hot _]. unfold pieces, seg_length, AS_SEGMENT_MAX in *.
  assert (1 <= Z.of_nat (length (seg_as seg))) as Hpos by (destruct (seg_as seg); [done|cbn [length]; lia]).
  destruct (Z.leb_spec (Z.of_nat (length (seg_as seg))) 255); repeat apply Forall_cons_2; try apply Forall_nil_2.
  - constructor; [done| |done]. unfold seg_length, AS_SEGMENT_MAX. lia.
  - constructor; [done| |by apply Forall_take]. unfold seg_length, AS_SEGMENT_MAX. cbn [seg_as]. rewrite length_take. lia.
  - constructor; [done| |by apply Forall_drop]. unfold seg_length, AS_SEGMENT_MAX. cbn [seg_as]. rewrite length_drop. lia.
Qed.

Lemma normal_from_length segs : forall pin, (length (asns (normal_from pin segs)) <= length (asns (pin :: segs)))%nat.
Proof.
  induction segs as [|seg segs IH]; intros pin; cbn [normal_from]; [done|]. destruct (ASSEGMENT_TYPES_PACKABLE pin seg).
  - etransitivity; [apply IH|]. rewrite !asns_cons. cbn [join seg_as]. rewrite !length_app. lia.
  - rewrite !asns_cons, !length_app. specialize (IH (sort_set seg)). pose proof (sort_set_asns seg segs) as Hs. rewrite !asns_cons, !length_app in *. lia.
Qed.
Lemma normal_form_small segs : small segs -> small (normal_form segs).
Proof.
  unfold small. destruct segs as [|seg segs]; [done|]. cbn [normal_form]. pose proof (normal_from_length segs (sort_set seg)).
  pose proof (sort_set_asns seg segs). lia.
Qed.
Lemma asns_pieces p : asns (concat (pieces <$> p)) = asns p.
Proof.
  induction p as [|seg p IH]; [done|]. cbn [fmap list_fmap concat]. rewrite asns_app, asns_cons, IH. f_equal. unfold pieces.
  destruct (_ <=? _); rewrite !asns_cons; cbn [seg_as]; [by rewrite app_nil_r|]. by rewrite app_nil_r, take_drop.
Qed.
Lemma small_pieces segs : small segs -> small (concat (pieces <$> normal_form segs)).
Proof. intros Hs%normal_form_small. unfold small in *. by rewrite asns_pieces. Qed.

(** ** What is written *)
Definition appended s (l : list Z) : stream := mkStream (st_size s) (st_data s ++ l) (getp s).
Lemma appended_appended s l l' : appended (appended s l) l' = appended s (l ++ l').
Proof. unfold appended. cbn. by rewrite (assoc_L (++)). Qed.
Lemma writeable_appended s l : STREAM_WRITEABLE (appended s l) = STREAM_WRITEABLE s - Z.of_nat (length l).
Proof. unfold STREAM_WRITEABLE, stream_get_endp, appended. cbn. rewrite length_app. lia. Qed.
Lemma put_ok s l : Z.of_nat (length l) <= STREAM_WRITEABLE s -> put s l = Ok (appended s l).
Proof. intros Hl. unfold put. by rewrite (proj2 (Z.ltb_ge _ _)) by lia. Qed.

(** A number with 16 bits when the peer has no room for more. *)
Definition clip (use32bit : bool) (a : Z) : Z := if use32bit then a else if a <=? BGP_AS_MAX then a else BGP_AS_TRANS.
Definition wire (use32bit : bool) seg : assegment := mkSeg (seg_type seg) (clip use32bit <$> seg_as seg).
Lemma wire_length w seg : seg_length (wire w seg) = seg_length seg.
Proof. unfold seg_length, wire. cbn. by rewrite length_fmap. Qed.
Lemma wire_true seg : wire true seg = seg.
Proof. destruct seg as [t l]. unfold wire. cbn. f_equal. induction l as [|a l IH]; [done|]. cbn. by rewrite IH. Qed.

Lemma putw_ok s a : in_u 16 a -> 2 <= STREAM_WRITEABLE s -> stream_putw s a = Ok (appended s (be16 a)).
Proof.
  unfold in_u. intros Ha Hs. unfold stream_putw. rewrite put_ok by (cbn [length]; lia). do 2 f_equal. unfold be16, u8, wrap.
  rewrite Z.shiftr_div_pow2 by lia. f_equal. zdiv.
Qed.
Lemma putl_ok s a : in_u 32 a -> 4 <= STREAM_WRITEABLE s -> stream_putl s a = Ok (appended s (be32 a)).
Proof.
  unfold in_u. intros Ha Hs. unfold stream_putl. rewrite put_ok by (cbn [length]; lia). do 2 f_equal. unfold be32, be16, u8, wrap. cbn [app].
  rewrite !Z.shiftr_div_pow2 by lia. apply (f_equal2 cons); [zdiv|]. apply (f_equal2 cons); [done|]. apply (f_equal2 cons); [zdiv|].
  apply (f_equal2 cons); [zdiv|done].
Qed.
Lemma data_loop_ok w l : Forall (in_u 32) l -> forall s, Z.of_nat (width w * length l) <= STREAM_WRITEABLE s ->
  assegment_data_loop s l w = Ok (appended s (concat (num_octets w <$> (clip w <$> l)))).
Proof.
  induction 1 as [|a l Ha _ IH]; intros s Hs; cbn [assegment_data_loop fmap list_fmap concat].
  { unfold appended. rewrite app_nil_r. by destruct s. }
  cbn [length] in Hs. assert ((if w then stream_putl s a else if a <=? BGP_AS_MAX then stream_putw s a else stream_putw s BGP_AS_TRANS)
          = Ok (appended s (num_octets w (clip w a)))) as ->.
  { unfold clip, num_octets. destruct w; cbn [width] in Hs; [apply putl_ok; [done|lia]|]. unfold in_u in *.
    destruct (Z.leb_spec a BGP_AS_MAX) as [Hle|_]; apply putw_ok; unfold in_u, BGP_AS_MAX, BGP_AS_TRANS in *; lia. }
  cbn [mbind outcome_bind]. rewrite IH, appended_appended; [done|]. rewrite writeable_appended, num_octets_length. lia.
Qed.
Lemma data_put_ok w l s : Forall (in_u 32) l -> (length l <= 255)%nat -> Z.of_nat (width w * length l) <= STREAM_WRITEABLE s ->
  assegment_data_put s l w = Ok (appended s (concat (num_octets w <$> (clip w <$> l)))).
Proof. intros Hf Hl Hs. unfold assegment_data_put, AS_SEGMENT_MAX. rewrite (proj2 (Z.ltb_ge _ _)) by lia. by apply data_loop_ok. Qed.
Lemma known_type_range t : known_type t = true -> 1 <= t <= 4.
Proof. unfold known_type, AS_SEQUENCE, AS_SET, AS_CONFED_SEQUENCE, AS_CONFED_SET. intros E. repeat apply orb_true_iff in E as [E|E]; apply Z.eqb_eq in E; lia. Qed.
Lemma header_put_ok s t n : known_type t = true -> 0 <= n <= 255 -> 2 <= STREAM_WRITEABLE s ->
  assegment_header_put s t n = Ok (appended s [t; n], S (length (st_data s))).
Proof.
  intros Ht%known_type_range Hn Hs. unfold assegment_header_put, AS_SEGMENT_MAX. rewrite (proj2 (Z.ltb_ge _ _)) by lia. unfold stream_putc.
  assert (forall x, 0 <= x <= 255 -> u8 x = x) as Hu by (intros; apply wrap_small; unfold in_u; lia). rewrite !Hu by lia.
  rewrite put_ok by (cbn [length]; lia). cbn [mbind outcome_bind]. rewrite put_ok by (rewrite writeable_appended; cbn [length]; lia).
  cbn [mbind outcome_bind]. rewrite appended_appended. unfold appended at 2. cbn [st_data]. rewrite length_app. cbn [length]. do 3 f_equal. lia.
Qed.

Record put_seg_ok seg : Prop := mk_put_seg_ok {
  ps_type : known_type (seg_type seg) = true;
  ps_numbers : Forall (in_u 32) (seg_as seg);
  ps_nonempty : seg_as seg <> []
}.
(** How many full parts come before the last one. *)
Definition rounds seg : nat := Z.to_nat ((seg_length seg - 1) / 255).
Definition full_part (w : bool) seg : list Z := encode w (wire w (mkSeg (seg_type seg) (take 255 (seg_as seg)))).
Definition last_part (w : bool) seg : list Z := encode w (wire w (mkSeg (seg_type seg) (drop (255 * rounds seg) (seg_as seg)))).
Definition part (w : bool) seg : list Z := concat (replicate (rounds seg) (full_part w seg)) ++ last_part w seg.
Fixpoint split_bytes (k : nat) (written : Z) (w : bool) : Z :=
  match k with O => 0 | S k => ASSEGMENT_SIZE (written + 255) w + split_bytes k (written + 255) w end.
(** What [aspath_put] counts for a segment. *)
Definition counted (w : bool) seg : Z := split_bytes (rounds seg) 0 w + ASSEGMENT_SIZE (seg_length seg - 255 * Z.of_nat (rounds seg)) w.

Lemma rounds_spec seg : seg_as seg <> [] -> 255 * Z.of_nat (rounds seg) < seg_length seg <= 255 * Z.of_nat (rounds seg) + 255.
Proof.
  intros Hne. unfold rounds, seg_length. assert (1 <= Z.of_nat (length (seg_as seg))) by (destruct (seg_as seg); [done|cbn [length]; lia]).
  rewrite Z2Nat.id by zdiv. zdiv.
Qed.
Lemma size_width n w : ASSEGMENT_SIZE n w = 2 + n * Z.of_nat (width w).
Proof. unfold ASSEGMENT_SIZE, AS_HEADER_SIZE, AS_VALUE_SIZE, AS16_VALUE_SIZE. destruct w; cbn [width]; lia. Qed.
Lemma encode_wire_length w seg : Z.of_nat (length (encode w (wire w seg))) = ASSEGMENT_SIZE (seg_length seg) w.
Proof. by rewrite encode_length, wire_length. Qed.
(** A header and its numbers. *)
Lemma put_part w s t l : known_type t = true -> Forall (in_u 32) l -> (length l <= 255)%nat ->
  ASSEGMENT_SIZE (Z.of_nat (length l)) w <= STREAM_WRITEABLE s ->
  ('(s, _) ← assegment_header_put s t (Z.of_nat (length l)); assegment_data_put s l w) = Ok (appended s (encode w (wire w (mkSeg t l)))).
Proof.
  intros Ht Hf Hl Hs. rewrite size_width in Hs. rewrite header_put_ok by (done || lia). cbn [mbind outcome_bind].
  rewrite data_put_ok, appended_appended; [|done|done|rewrite writeable_appended; cbn [length]; lia]. do 2 f_equal.
  unfold encode, wire, seg_length. cbn [seg_type seg_as app]. by rewrite length_fmap.
Qed.
Lemma split_loop_spec w seg (Hp : put_seg_ok seg) k : forall fuel s written bytes, (k < fuel)%nat -> 0 <= written ->
  written + 255 * Z.of_nat k < seg_length seg <= written + 255 * Z.of_nat k + 255 ->
  Z.of_nat k * ASSEGMENT_SIZE 255 w <= STREAM_WRITEABLE s ->
  split_loop fuel s seg written bytes w
  = Ok (appended s (concat (replicate k (full_part w seg))), written + 255 * Z.of_nat k, bytes + split_bytes k written w).
Proof.
  induction k as [|k IH]; intros [|fuel] s written bytes Hfu Hw Hl Hs; try lia; cbn [split_loop].
  - change AS_SEGMENT_MAX with 255. rewrite (proj2 (Z.ltb_ge _ _)) by lia. cbn [replicate concat split_bytes]. unfold appended. rewrite app_nil_r.
    destruct s. cbn. do 3 f_equal; lia.
  - change AS_SEGMENT_MAX with 255. rewrite (proj2 (Z.ltb_lt _ _)) by lia. change (Z.to_nat 255) with 255%nat.
    assert (length (take 255 (seg_as seg)) = 255%nat) as Ht by (unfold seg_length in Hl; rewrite length_take; lia).
    assert (Z.of_nat (length (full_part w seg)) = ASSEGMENT_SIZE 255 w) as Hfl.
    { unfold full_part. rewrite encode_wire_length. unfold seg_length. cbn [seg_as]. by rewrite Ht. }
    pose proof (put_part w s (seg_type seg) (take 255 (seg_as seg)) (ps_type _ Hp)) as Hpart. rewrite Ht in Hpart.
    rewrite size_width in *. specialize (Hpart ltac:(apply Forall_take, ps_numbers, Hp) ltac:(lia) ltac:(lia)).
    change (Z.of_nat 255) with 255 in Hpart. destruct (assegment_header_put s (seg_type seg) 255) as [[s1 lenp]|]; [|done].
    cbn [mbind outcome_bind] in *. rewrite Hpart. cbn [mbind outcome_bind]. rewrite IH.
    + cbn [replicate concat split_bytes]. rewrite appended_appended, size_width. do 2 f_equal; [f_equal; lia|lia].
    + lia.
    + lia.
    + lia.
    + rewrite writeable_appended. fold (full_part w seg). rewrite Nat2Z.inj_succ, Z.mul_succ_l in Hs. lia.
Qed.
Lemma pack_none s seg written lenp next w : separated (seg :: next) -> pack_loop s seg written lenp 0 next w = Ok (s, next, 0).
Proof. destruct next as [|n next]; [done|]. intros [E _]. cbn [pack_loop]. unfold ASSEGMENTS_PACKABLE. by rewrite E. Qed.

Lemma part_length w seg : put_seg_ok seg -> Z.of_nat (length (part w seg))
  = Z.of_nat (rounds seg) * ASSEGMENT_SIZE 255 w + ASSEGMENT_SIZE (seg_length seg - 255 * Z.of_nat (rounds seg)) w.
Proof.
  intros Hp. pose proof (rounds_spec _ (ps_nonempty _ Hp)) as Hr. unfold part, last_part. rewrite length_app, Nat2Z.inj_add, encode_wire_length.
  unfold seg_length in *. cbn [seg_as]. rewrite length_drop. f_equal.
  - destruct (rounds seg) as [|k]; [done|]. assert (Z.of_nat (length (full_part w seg)) = ASSEGMENT_SIZE 255 w) as Hfl.
    { unfold full_part. rewrite encode_wire_length. unfold seg_length. cbn [seg_as]. rewrite length_take. f_equal. lia. }
    rewrite <- Hfl. clear. generalize (full_part w seg). intros l. induction (S k) as [|n IH]; [done|]. cbn [replicate concat]. rewrite length_app. lia.
  - f_equal. lia.
Qed.
Lemma put_loop_spec w segs : forall fuel s bytes, Forall put_seg_ok segs -> separated segs -> (length segs < fuel)%nat ->
  Z.of_nat (length (concat (part w <$> segs))) <= STREAM_WRITEABLE s ->
  put_loop fuel s segs bytes w = Ok (appended s (concat (part w <$> segs)), bytes + foldr (fun seg n => counted w seg + n) 0 segs).
Proof.
  induction segs as [|seg segs IH]; intros [|fuel] s bytes Hf Hs Hfu Hr; try (cbn in Hfu; lia); cbn [put_loop].
  { cbn [fmap list_fmap concat foldr]. unfold appended. rewrite app_nil_r. destruct s. cbn. do 2 f_equal. lia. }
  apply Forall_cons in Hf as [Hp Hf]. cbn [fmap list_fmap concat] in Hr |- *. rewrite length_app in Hr.
  pose proof (rounds_spec _ (ps_nonempty _ Hp)) as Hrd. pose proof (part_length w seg Hp) as Hpl. pose proof (size_width 255 w) as Hz.
  pose proof (size_width (seg_length seg) w) as Hz1. pose proof (size_width (seg_length seg - 255 * Z.of_nat (rounds seg)) w) as Hz2.
  rewrite (proj2 (Z.leb_le _ _)) by (destruct w; cbn [width] in *; lia).
  assert (rounds seg < S (length (seg_as seg)))%nat as Hrf by (unfold seg_length in Hrd; lia).
  rewrite (split_loop_spec w seg Hp (rounds seg)) by (lia || (destruct w; cbn [width] in *; lia)). cbn [mbind outcome_bind]. rewrite Z.add_0_l.
  replace (Z.to_nat (255 * Z.of_nat (rounds seg))) with (255 * rounds seg)%nat by lia.
  set (s1 := appended s (concat (replicate (rounds seg) (full_part w seg)))).
  assert (length (drop (255 * rounds seg) (seg_as seg)) = Z.to_nat (seg_length seg - 255 * Z.of_nat (rounds seg))) as Hdl.
  { rewrite length_drop. unfold seg_length. lia. }
  pose proof (put_part w s1 (seg_type seg) (drop (255 * rounds seg) (seg_as seg)) (ps_type _ Hp)) as Hpart. rewrite Hdl, Z2Nat.id in Hpart by lia.
  specialize (Hpart ltac:(apply Forall_drop, ps_numbers, Hp) ltac:(lia)).
  assert (STREAM_WRITEABLE s1 = STREAM_WRITEABLE s - Z.of_nat (length (concat (replicate (rounds seg) (full_part w seg))))) as Hw1 by apply writeable_appended.
  assert (length (part w seg) = length (concat (replicate (rounds seg) (full_part w seg))) + length (last_part w seg))%nat as Hpt by apply length_app.
  assert (Z.of_nat (length (last_part w seg)) = ASSEGMENT_SIZE (seg_length seg - 255 * Z.of_nat (rounds seg)) w) as Hll.
  { unfold last_part. rewrite encode_wire_length. unfold seg_length at 1. cbn [seg_as]. by rewrite Hdl, Z2Nat.id by lia. }
  specialize (Hpart ltac:(lia)).
  destruct (assegment_header_put s1 (seg_type seg) _) as [[s2 lenp]|]; [|done]. cbn [mbind outcome_bind] in *. rewrite Hpart. cbn [mbind outcome_bind].
  rewrite pack_none by done. cbn [mbind outcome_bind]. fold (last_part w seg). subst s1. rewrite appended_appended. fold (part w seg).
  rewrite IH, appended_appended; [|done|by destruct segs; [|apply Hs]|cbn in Hfu; lia|].
  - cbn [foldr]. unfold counted. rewrite Z.add_0_r. do 2 f_equal. lia.
  - rewrite writeable_appended. lia.
Qed.
Lemma aspath_put_spec w s segs : Forall put_seg_ok segs -> separated segs -> Z.of_nat (length (concat (part w <$> segs))) <= STREAM_WRITEABLE s ->
  aspath_put s segs w = Ok (appended s (concat (part w <$> segs)), foldr (fun seg n => counted w seg + n) 0 segs).
Proof.
  intros Hf Hs Hr. unfold aspath_put. destruct segs as [|seg segs].
  { cbn. unfold appended. rewrite app_nil_r. by destruct s. }
  pose proof Hf as [Hp _]%Forall_cons. pose proof (rounds_spec _ (ps_nonempty _ Hp)). rewrite (proj2 (Z.eqb_neq _ _)) by lia.
  rewrite put_loop_spec by (done || (cbn [length]; lia)). done.
Qed.

(** [aspath_size], an estimate. *)
Fixpoint aspath_size (segments : list assegment) : Z :=
  match segments with [] => 0 | seg :: segs => ASSEGMENT_SIZE (seg_length seg) true + aspath_size segs end.
Lemma kept_put seg : kept_seg seg -> put_seg_ok seg.
Proof. by intros [Ht Hn Hne _ _]. Qed.
Lemma part_pieces seg : kept_seg seg -> seg_length seg <= 510 ->
  part true seg = concat (encode true <$> pieces seg) /\ counted true seg = Z.of_nat (length (part true seg))
  /\ Z.of_nat (length (part true seg)) <= ASSEGMENT_SIZE (seg_length seg) true + 2.
Proof.
  intros Hk Hl. pose proof (rounds_spec _ (ks_nonempty _ Hk)) as Hr. rewrite part_length by by apply kept_put.
  unfold part, counted, last_part, full_part, pieces. change AS_SEGMENT_MAX with 255. rewrite !size_width. cbn [width].
  destruct (Z.leb_spec (seg_length seg) 255) as [Hle|Hgt].
  - assert (rounds seg = 0%nat) as -> by lia. cbn [Nat.mul drop replicate concat app fmap list_fmap split_bytes]. rewrite wire_true, app_nil_r.
    split; [by destruct seg|]. lia.
  - assert (rounds seg = 1%nat) as -> by lia. cbn [Nat.mul Nat.add replicate concat app fmap list_fmap split_bytes]. rewrite !wire_true, !app_nil_r, size_width.
    cbn [width]. split; [done|]. lia.
Qed.
Lemma path_parts p : Forall kept_seg p -> Forall (fun seg => seg_length seg <= 510) p ->
  concat (part true <$> p) = concat (encode true <$> concat (pieces <$> p))
  /\ foldr (fun seg n => counted true seg + n) 0 p = Z.of_nat (length (concat (part true <$> p)))
  /\ Z.of_nat (length (concat (part true <$> p))) <= aspath_size p + 2 * Z.of_nat (length p).
Proof.
  induction 1 as [|seg p Hk _ IH]; intros Hl; [done|]. apply Forall_cons in Hl as [Hs Hl]. destruct (IH Hl) as (E1 & E2 & E3).
  destruct (part_pieces seg Hk Hs) as (F1 & F2 & F3). cbn [fmap list_fmap concat foldr aspath_size length]. rewrite E1, E2, length_app.
  rewrite fmap_app, concat_app, <- F1, E1. split; [done|]. rewrite E1 in *. cbn [fmap] in *. lia.
Qed.
Lemma wire_parse_encoded u l rest : Forall (seg_ok true) l -> unread u = concat (encode true <$> l) ++ rest -> Forall (in_u 8) (unread u) ->
  (getp u <= length (st_data u))%nat ->
  let n := length (concat (encode true <$> l)) in
  assegments_parse u (Z.of_nat n) true = Ok (forward u n, Some (assegment_normalise l)).
Proof.
  intros Hf Hu Hb Hg n. destruct (assegments_parse_spec u (Z.of_nat n) true Hg Hb ltac:(lia)) as (u' & res & -> & Hres & Hfw).
  assert (res = Some (assegment_normalise l)) as ->.
  { apply Hres. exists l. rewrite Hu, Nat2Z.id. subst n. rewrite take_app_length, length_app. split_and!; [done|lia|done|done]. }
  rewrite Hfw by done. by rewrite Nat2Z.id.
Qed.

(** C22  A path the router has received and parsed with four octets for a number, from an
    attribute of at most 65535 octets, is sent on as it is: when no segment of it has more
    than 510 numbers and the message has room for [aspath_size] octets and two more for
    each segment, [aspath_put] writes the path with four octets for a number and returns
    how many octets that are, and a router that parses them gets the same path. *)
Theorem received_path_sent_on s len s' path t : (getp s <= length (st_data s))%nat -> Forall (in_u 8) (unread s) -> 0 <= len <= 65535 ->
  assegments_parse s len true = Ok (s', Some path) -> Forall (fun seg => seg_length seg <= 510) path ->
  aspath_size path + 2 * Z.of_nat (length path) <= STREAM_WRITEABLE t ->
  exists l, aspath_put t path true = Ok (appended t l, Z.of_nat (length l))
    /\ forall u rest, (getp u <= length (st_data u))%nat -> Forall (in_u 8) (unread u) -> unread u = l ++ rest ->
         assegments_parse u (Z.of_nat (length l)) true = Ok (forward u (length l), Some path).
Proof.
  intros Hg Hb Hlen Hp Hl Hroom. destruct (assegments_parse_spec s len true Hg Hb ltac:(lia)) as (s2 & res & E & Hres & _).
  rewrite E in Hp. injection Hp as -> ->. destruct (proj1 (Hres path) eq_refl) as (segs & Hf & _ & Eo & Ep).
  assert (small segs) as Hsm by (apply (encoded_small true); rewrite <- Eo, length_take; lia).
  rewrite (assegment_normalise_small _ Hsm) in Ep. subst path. clear E Hres.
  destruct (normalise_kept segs Hf) as [Hk Hs]. destruct (path_parts _ Hk Hl) as (E1 & E2 & E3).
  exists (concat (part true <$> normal_form segs)). split.
  - rewrite aspath_put_spec; [by rewrite E2| |done|lia]. eapply Forall_impl; [exact Hk|apply kept_put].
  - intros u rest Hgu Hbu Hu. rewrite E1 in *. rewrite (wire_parse_encoded u (concat (pieces <$> normal_form segs)) rest); try done.
    + by rewrite assegment_normalise_small, normalise_pieces by (done || apply (small_pieces segs Hsm)).
    + by apply pieces_ok.
Qed.

(** Longer sequences are not: for 511 to 765 numbers the first 255 are sent twice, the
    second 255 never, and the length that is returned is 1020 octets too long. *)
Lemma long_sequence_sent t l : Forall (in_u 32) l -> (510 < length l <= 765)%nat -> Z.of_nat (length l) * 4 + 6 <= STREAM_WRITEABLE t ->
  let sent := [mkSeg AS_SEQUENCE (take 255 l); mkSeg AS_SEQUENCE (take 255 l); mkSeg AS_SEQUENCE (drop 510 l)] in
  let octets := concat (encode true <$> sent) in
  aspath_put t [mkSeg AS_SEQUENCE l] true = Ok (appended t octets, Z.of_nat (length octets) + 1020)
  /\ forall u rest, (getp u <= length (st_data u))%nat -> Forall (in_u 8) (unread u) -> unread u = octets ++ rest ->
       assegments_parse u (Z.of_nat (length octets)) true
       = Ok (forward u (length octets), Some [mkSeg AS_SEQUENCE (take 255 l ++ take 255 l ++ drop 510 l)]).
Proof.
  intros Hf Hl Hroom sent octets.
  assert (l <> []) as Hne by (intros ->; cbn in Hl; lia).
  assert (put_seg_ok (mkSeg AS_SEQUENCE l)) as Hp by (by constructor).
  assert (rounds (mkSeg AS_SEQUENCE l) = 2%nat) as Hr by (pose proof (rounds_spec (mkSeg AS_SEQUENCE l) Hne) as Hr; unfold seg_length in Hr; cbn [seg_as] in Hr; lia).
  assert (part true (mkSeg AS_SEQUENCE l) = octets) as Ho.
  { unfold part, last_part, full_part. rewrite Hr. cbn [Nat.mul Nat.add replicate concat app seg_as seg_type]. rewrite !wire_true, app_nil_r.
    subst octets sent. cbn [fmap list_fmap concat]. by rewrite app_nil_r, (assoc_L (++)). }
  pose proof (part_length true _ Hp) as Hpl. rewrite Ho, Hr, !size_width in Hpl. unfold seg_length in Hpl. cbn [seg_as width] in Hpl. split.
  - rewrite aspath_put_spec; [|by constructor|done|cbn [fmap list_fmap concat]; rewrite app_nil_r, Ho; lia]. cbn [fmap list_fmap concat foldr]. rewrite app_nil_r, Ho.
    do 2 f_equal. unfold counted. rewrite Hr. cbn [split_bytes]. rewrite !size_width. unfold seg_length. cbn [seg_as width]. lia.
  - intros u rest Hgu Hbu Hu. assert (Forall (seg_ok true) sent) as Hs.
    { subst sent. repeat apply Forall_cons_2; try apply Forall_nil_2; (constructor; [done| |]); unfold seg_length, AS_SEGMENT_MAX; cbn [seg_as];
        rewrite ?length_take, ?length_drop; try lia; [by apply Forall_take|by apply Forall_take|by apply Forall_drop]. }
    rewrite (assoc_L (++)). pose proof (wire_parse_encoded u sent rest Hs Hu Hbu Hgu) as Hw. cbn zeta in Hw. fold octets in Hw. rewrite Hw, assegment_normalise_small; [done|].
    unfold small. subst sent. rewrite !asns_cons, !length_app. cbn [seg_as asns fmap list_fmap concat length]. rewrite !length_take, length_drop. lia.
Qed.
End AsPathWire.

(** * Operations on AS paths

    The rest of bgp_aspath.c that computes with paths.  [None] is the NULL pointer; a
    path is the list of its segments; the text that goes with it is left out. *)
Module AsPathOps.
Import RouterAsPath AsPathWire.

Definition BGP_PRIVATE_AS_MIN : Z := 64512.
Definition BGP_PRIVATE_AS_MAX : Z := 65535.
Definition private_as (a : Z) : bool := (BGP_PRIVATE_AS_MIN <=? a) && (a <=? BGP_PRIVATE_AS_MAX).

(** ** Counting and checks *)
Definition assegment_count_asns (segments : list assegment) (from : Z) : Z :=
  match segments with
  | [] => 0
  | seg :: segs => (seg_length seg - from) + foldr (fun seg n => seg_length seg + n) 0 segs
  end.
Definition aspath_highest (segments : list assegment) : Z :=
  fold_left (fun highest a => if (highest <? a) && negb (private_as a) then a else highest) (asns segments) 0.
Definition aspath_has_as4 (segments : list assegment) : bool := existsb (fun a => BGP_AS_MAX <? a) (asns segments).
Definition aspath_firstas_check (path : option (list assegment)) (asno : Z) : outcome bool :=
  match path with
  | None | Some [] => Ok false
  | Some (seg :: _) => if seg_type seg =? AS_SEQUENCE then a ← first_as seg; Ok (a =? asno) else Ok false
  end.
Definition aspath_loop_check (path : option (list assegment)) (asno : Z) : Z :=
  match path with
  | None => 0
  | Some segments => fold_left (fun count a => if a =? asno then count + 1 else count) (asns segments) 0
  end.
Definition aspath_private_as_check (path : option (list assegment)) : bool :=
  match path with
  | None | Some [] => false
  | Some segments => forallb private_as (asns segments)
  end.
Definition aspath_confed_check (path : option (list assegment)) : bool :=
  match path with None => false | Some segments => existsb is_confed segments end.
Definition aspath_left_confed_check (path : option (list assegment)) : bool :=
  match path with Some (seg :: _) => is_confed seg | _ => false end.

(** ** Building *)
Definition assegment_prepend_asns (seg : assegment) (asnum num : Z) : assegment :=
  if (num =? 0) || (AS_SEGMENT_MAX <=? num) then seg else seg16 (seg_type seg) (replicate (Z.to_nat num) asnum ++ seg_as seg).
Definition aspath_add_one_as (segments : list assegment) (asno type : Z) : list assegment :=
  match segments with
  | [] => [mkSeg type [asno]]
  | seg :: segs =>
      if seg_length seg =? 0 then [mkSeg type [asno]]
      else if seg_type seg =? type then assegment_prepend_asns seg asno 1 :: segs
      else mkSeg type [asno] :: segments
  end.
Definition aspath_add_seq (segments : list assegment) (asno : Z) : list assegment := aspath_add_one_as segments asno AS_SEQUENCE.
Definition aspath_add_confed_seq (segments : list assegment) (asno : Z) : list assegment := aspath_add_one_as segments asno AS_CONFED_SEQUENCE.
(** With a sequence of the confederation in front, it and what follows of the
    confederation go. *)
Definition aspath_delete_confed_seq (segments : list assegment) : list assegment :=
  match segments with
  | seg :: _ => if seg_type seg =? AS_CONFED_SEQUENCE then skip_confeds segments else segments
  | [] => []
  end.
Definition aspath_merge (as1 as2 : list assegment) : outcome (list assegment) :=
  match as1 with [] => Fault NullDeref | _ => Ok (as1 ++ as2) end.
(** The first segment of [as2] is used after [aspath_delete_confed_seq] has freed it. *)
Definition aspath_prepend (as1 as2 : list assegment) : outcome (list assegment) :=
  match as2 with
  | [] => Ok as1
  | seg2 :: next2 =>
      match last as1 with
      | None => Ok as2
      | Some seg1 =>
          if (seg_type seg1 =? AS_SEQUENCE) && (seg_type seg2 =? AS_CONFED_SEQUENCE) then Fault UseAfterDestroy
          else if negb (seg_type seg1 =? seg_type seg2) then aspath_merge as1 as2
          else if seg_type seg1 =? AS_SEQUENCE then
            Ok (take (length as1 - 1) as1 ++ assegment_append_asns seg1 (seg_as seg2) :: next2)
          else aspath_merge as1 as2
      end
  end.
Definition aspath_filter_exclude (source exclude_list : list assegment) : list assegment :=
  filter (fun seg => seg_as seg <> [])
    ((fun seg => mkSeg (seg_type seg) (filter (fun a => a ∉ asns exclude_list) (seg_as seg))) <$> source).

(** ** Paths of two and four octets *)
Definition aspath_dup (segments : list assegment) : list assegment := segments.
(** The first [hops] hops, with the numbers the last segment had copied in [cpasns]. *)
Fixpoint front_hops (hops cpasns : Z) (segments : list assegment) : outcome (list assegment) :=
  match segments with
  | [] => Ok []
  | seg :: segs =>
      if 0 <? hops then
        let '(hops, cpasns) :=
          if is_set seg then (hops - 1, seg_length seg)
          else if seg_type seg =? AS_CONFED_SEQUENCE then
            let hops := if hops <? seg_length seg then seg_length seg else hops in
            (hops - seg_length seg, Z.min (seg_length seg) hops)
          else if seg_type seg =? AS_SEQUENCE then (hops - seg_length seg, Z.min (seg_length seg) hops)
          else (hops, cpasns) in
        if seg_length seg <? cpasns then Fault AssertFailed
        else
          rest ← front_hops hops cpasns segs;
          Ok (mkSeg (seg_type seg) (take (Z.to_nat cpasns) (seg_as seg)) :: rest)
      else Ok []
  end.
Definition aspath_reconcile_as4 (aspath : option (list assegment)) (as4path : list assegment) : outcome (option (list assegment)) :=
  match aspath with
  | None => Ok None
  | Some segments =>
      let hops := aspath_count_hops segments + aspath_count_confeds segments - aspath_count_hops as4path in
      let hops := if hops <? 0 then aspath_count_hops segments else hops in
      if hops =? 0 then Ok (Some (aspath_dup as4path))
      else
        newpath ← front_hops hops 0 segments;
        mergedpath ← aspath_merge newpath (aspath_dup as4path);
        Ok (Some (assegment_normalise mergedpath))
  end.

(** ** Aggregation *)
Fixpoint common_length (l1 l2 : list Z) : nat :=
  match l1, l2 with
  | a :: l1, b :: l2 => if a =? b then S (common_length l1 l2) else O
  | _, _ => O
  end.
(** The common segments in front, the numbers that matched in the last one that was
    compared, and what is left of either path. *)
Fixpoint common_front (mtch : nat) (segs1 segs2 : list assegment) : list assegment * nat * list assegment * list assegment :=
  match segs1, segs2 with
  | seg1 :: next1, seg2 :: next2 =>
      if negb (seg_type seg1 =? seg_type seg2) then ([], mtch, segs1, segs2)
      else
        let mtch := common_length (seg_as seg1) (seg_as seg2) in
        let minlen := Z.min (seg_length seg1) (seg_length seg2) in
        let new := match mtch with O => [] | _ => [mkSeg (seg_type seg1) (take mtch (seg_as seg1))] end in
        if negb (Z.of_nat mtch =? minlen) || negb (Z.of_nat mtch =? seg_length seg1) || negb (seg_length seg1 =? seg_length seg2)
        then (new, mtch, segs1, segs2)
        else let '(front, mtch, segs1, segs2) := common_front mtch next1 next2 in (new ++ front, mtch, segs1, segs2)
  | _, _ => ([], mtch, segs1, segs2)
  end.
(** A set of 65535 members is taken for an empty one, and the number is written in front
    of its array. *)
Definition aspath_aggregate_as_set_add (asset : list Z) (a : Z) : outcome (list Z) :=
  if existsb (Z.eqb a) asset then Ok asset
  else if u16 (Z.of_nat (length asset) + 1) =? 0 then Fault OutOfBounds
  else Ok (asset ++ [a]).
Fixpoint set_add_all (asset l : list Z) : outcome (list Z) :=
  match l with [] => Ok asset | a :: l => asset ← aspath_aggregate_as_set_add asset a; set_add_all asset l end.
(** The numbers the set gets from a path. *)
Definition rest_asns (from : nat) (segs : list assegment) : list Z :=
  match segs with [] => [] | seg :: segs => drop from (seg_as seg) ++ asns segs end.
Definition aspath_aggregate (as1 as2 : list assegment) : outcome (list assegment) :=
  let '(front, mtch, segs1, segs2) := common_front 0 as1 as2 in
  asset ← set_add_all [] (rest_asns mtch segs1);
  asset ← set_add_all asset (rest_asns mtch segs2);
  Ok (assegment_normalise (front ++ match asset with [] => [] | _ => [mkSeg AS_SET asset] end)).

Example aggregate_ex : aspath_aggregate [mkSeg AS_SEQUENCE [1; 2; 3]] [mkSeg AS_SEQUENCE [1; 2; 5; 4]] = Ok [mkSeg AS_SEQUENCE [1; 2]; mkSeg AS_SET [3; 4; 5]].
Proof. by vm_compute. Qed.
Example reconcile_ex : aspath_reconcile_as4 (Some [mkSeg AS_SEQUENCE [1; 23456; 3]]) [mkSeg AS_SEQUENCE [70000; 3]] = Ok (Some [mkSeg AS_SEQUENCE [1; 70000; 3]]).
Proof. by vm_compute. Qed.

(** ** Numbers and hops *)
Lemma hops_app p q : aspath_count_hops (p ++ q) = aspath_count_hops p + aspath_count_hops q.
Proof. induction p as [|seg p IH]; cbn [app aspath_count_hops]; [done|]. rewrite IH. lia. Qed.
Lemma normalise_from_asns segs x : forall pin, x ∈ asns (normal_from pin segs) <-> x ∈ asns (pin :: segs).
Proof.
  induction segs as [|seg segs IH]; intros pin; cbn [normal_from]; [done|]. destruct (ASSEGMENT_TYPES_PACKABLE pin seg).
  - rewrite IH. unfold asns. cbn [fmap list_fmap concat join seg_as]. by rewrite (assoc_L (++)).
  - change (asns (pin :: ?l)) with (seg_as pin ++ asns l). change (asns (pin :: seg :: segs)) with (seg_as pin ++ asns (seg :: segs)).
    change (asns (pin :: normal_from (sort_set seg) segs)) with (seg_as pin ++ asns (normal_from (sort_set seg) segs)).
    rewrite !elem_of_app, IH. change (asns (sort_set seg :: segs)) with (seg_as (sort_set seg) ++ asns segs).
    change (asns (seg :: segs)) with (seg_as seg ++ asns segs). by rewrite !elem_of_app, sort_set_elem.
Qed.
Lemma normal_form_asns segs x : x ∈ asns (normal_form segs) <-> x ∈ asns segs.
Proof.
  destruct segs as [|seg segs]; [done|]. cbn [normal_form]. rewrite normalise_from_asns.
  change (asns (sort_set seg :: segs)) with (seg_as (sort_set seg) ++ asns segs). change (asns (seg :: segs)) with (seg_as seg ++ asns segs).
  by rewrite !elem_of_app, sort_set_elem.
Qed.
Lemma normalise_asns segs x : small segs -> x ∈ asns (assegment_normalise segs) <-> x ∈ asns segs.
Proof. intros Hs. by rewrite assegment_normalise_small, normal_form_asns. Qed.
Lemma hops_sort_set seg segs : aspath_count_hops (sort_set seg :: segs) = aspath_count_hops (seg :: segs).
Proof.
  cbn [aspath_count_hops]. rewrite sort_set_type. destruct (Z.eqb_spec (seg_type seg) AS_SEQUENCE); [|done]. by rewrite sort_set_sequence.
Qed.
Lemma normalise_from_hops segs : forall pin, aspath_count_hops (normal_from pin segs) = aspath_count_hops (pin :: segs).
Proof.
  induction segs as [|seg segs IH]; intros pin; cbn [normal_from]; [done|]. destruct (ASSEGMENT_TYPES_PACKABLE pin seg) eqn:E.
  - rewrite IH. apply packable_types in E as [E1 E2]. cbn [aspath_count_hops join seg_type].
    rewrite E1, E2. change (AS_SEQUENCE =? AS_SEQUENCE) with true. cbn iota. unfold seg_length. cbn [seg_as join]. rewrite length_app. lia.
  - cbn [aspath_count_hops] in *. rewrite IH, sort_set_type. destruct (Z.eqb_spec (seg_type seg) AS_SEQUENCE); [by rewrite sort_set_sequence|done].
Qed.
Lemma normal_form_hops segs : aspath_count_hops (normal_form segs) = aspath_count_hops segs.
Proof. destruct segs as [|seg segs]; [done|]. cbn [normal_form]. by rewrite normalise_from_hops, hops_sort_set. Qed.
Lemma normalise_hops segs : small segs -> aspath_count_hops (assegment_normalise segs) = aspath_count_hops segs.
Proof. intros Hs. by rewrite assegment_normalise_small, normal_form_hops. Qed.

(** ** Reconciliation *)
Definition plain segments : Prop := Forall (fun seg => seg_type seg = AS_SEQUENCE \/ seg_type seg = AS_SET) segments.
Lemma plain_confeds p : plain p -> aspath_count_confeds p = 0.
Proof. induction 1 as [|seg p [E|E] _ IH]; [done| |]; cbn [aspath_count_confeds]; by rewrite E. Qed.
Lemma hops_nonneg p : 0 <= aspath_count_hops p.
Proof. induction p as [|seg p IH]; cbn [aspath_count_hops]; [done|]. unfold seg_length. repeat case_match; lia. Qed.
Lemma plain_no_hops p : plain p -> aspath_count_hops p = 0 -> asns p = [].
Proof.
  induction 1 as [|[t l] p Ht _ IH]; [done|]. cbn [aspath_count_hops seg_type] in *. pose proof (hops_nonneg p). unfold seg_length. cbn [seg_as].
  destruct Ht as [-> | ->]; cbn; [|lia]. intros E. destruct l; cbn [length] in E; [|lia]. by apply IH.
Qed.
Lemma front_hops_spec p : plain p -> forall hops c, hops <= aspath_count_hops p ->
  exists front, front_hops hops c p = Ok front /\ aspath_count_hops front = Z.max 0 hops /\ asns front `prefix_of` asns p
    /\ (0 < hops -> front <> []) /\ (hops <= 0 -> front = []) /\ (hops = aspath_count_hops p -> asns front = asns p).
Proof.
  induction 1 as [|seg p Ht Hp IH]; intros hops c Hh; cbn [front_hops aspath_count_hops] in *.
  { exists []. by split_and!; [|cbn; lia| |lia| |]. }
  destruct (Z.ltb_spec 0 hops) as [Hpos|Hneg].
  2: { exists []. split_and!; [done|cbn; lia|apply prefix_nil|lia|done|]. intros ->. symmetry. apply plain_no_hops; [by constructor|].
       pose proof (hops_nonneg (seg :: p)) as Hnn. cbn [aspath_count_hops] in *. lia. }
  change (asns (seg :: p)) with (seg_as seg ++ asns p). destruct seg as [t l]. cbn [seg_type] in *. unfold is_set, seg_length in *. cbn [seg_type seg_as] in *.
  destruct Ht as [-> | ->]; cbn iota in *.
  - change ((AS_SEQUENCE =? AS_SET) || (AS_SEQUENCE =? AS_CONFED_SET)) with false. change (AS_SEQUENCE =? AS_CONFED_SEQUENCE) with false.
    change (AS_SEQUENCE =? AS_SEQUENCE) with true in *. cbn iota in *. rewrite (proj2 (Z.ltb_ge _ _)) by lia.
    destruct (IH (hops - Z.of_nat (length l)) (Z.min (Z.of_nat (length l)) hops) ltac:(lia)) as (f & -> & Hf & Hpre & _ & Hnil & Hall).
    cbn [mbind outcome_bind]. eexists. split; [done|]. change (asns (mkSeg AS_SEQUENCE (take (Z.to_nat (Z.min (Z.of_nat (length l)) hops)) l) :: f))
        with (take (Z.to_nat (Z.min (Z.of_nat (length l)) hops)) l ++ asns f). split_and!; [| |done|lia|].
    + cbn [aspath_count_hops seg_type]. change (AS_SEQUENCE =? AS_SEQUENCE) with true. cbn iota. rewrite Hf. unfold seg_length. cbn [seg_as]. rewrite length_take. lia.
    + destruct (Z.leb_spec hops (Z.of_nat (length l))) as [Hle|Hgt].
      * rewrite Hnil by lia. change (asns []) with (@nil Z). rewrite app_nil_r. apply prefix_app_r, prefix_take.
      * rewrite take_ge by lia. by apply prefix_app.
    + intros ->. pose proof (hops_nonneg p). rewrite take_ge by lia. by rewrite Hall by lia.
  - change ((AS_SET =? AS_SET) || (AS_SET =? AS_CONFED_SET)) with true. cbn iota. rewrite Z.ltb_irrefl.
    change (AS_SET =? AS_SEQUENCE) with false in *. change (AS_SET =? AS_SET) with true in *. cbn iota in *.
    destruct (IH (hops - 1) (Z.of_nat (length l)) ltac:(lia)) as (f & -> & Hf & Hpre & _ & Hnil & Hall).
    cbn [mbind outcome_bind]. eexists. split; [done|]. rewrite Nat2Z.id, firstn_all. change (asns (mkSeg AS_SET l :: f)) with (l ++ asns f).
    split_and!; [| |done|lia|].
    + cbn [aspath_count_hops seg_type]. change (AS_SET =? AS_SEQUENCE) with false. change (AS_SET =? AS_SET) with true. cbn iota. lia.
    + by apply prefix_app.
    + intros ->. by rewrite Hall by lia.
Qed.

(** Reconciling the path of a router with two-octet numbers and the AS4_PATH: when
    the path has at least as many hops, the result has exactly the hops of the path,
    the first ones from the path and behind them the AS4_PATH; otherwise (the code notes
    that the RFC wants the AS4_PATH ignored) it is the path followed by the AS4_PATH,
    with the numbers of both. *)
Theorem aspath_reconcile_as4_correct path as4path : plain path -> small (path ++ as4path) ->
  exists result, aspath_reconcile_as4 (Some path) as4path = Ok (Some result)
    /\ if aspath_count_hops as4path <=? aspath_count_hops path
       then aspath_count_hops result = aspath_count_hops path
            /\ exists front, asns front `prefix_of` asns path /\ aspath_count_hops front = aspath_count_hops path - aspath_count_hops as4path
               /\ (result = assegment_normalise (front ++ as4path) \/ front = [] /\ result = as4path)
       else 0 < aspath_count_hops path -> aspath_count_hops result = aspath_count_hops path + aspath_count_hops as4path
            /\ forall a, a ∈ asns result <-> a ∈ asns path \/ a ∈ asns as4path.
Proof.
  intros Hp Hsm. unfold aspath_reconcile_as4.
  assert (forall front, asns front `prefix_of` asns path -> small (front ++ as4path)) as Hfs.
  { intros front Hpre%prefix_length. unfold small in *. rewrite asns_app, length_app in *. lia. } rewrite (plain_confeds _ Hp), Z.add_0_r.
  set (h := aspath_count_hops path - aspath_count_hops as4path). pose proof (hops_nonneg path) as Hn. pose proof (hops_nonneg as4path) as Hn4.
  destruct (Z.leb_spec (aspath_count_hops as4path) (aspath_count_hops path)) as [Hle|Hgt].
  - rewrite (proj2 (Z.ltb_ge h 0)) by lia. destruct (Z.eqb_spec h 0) as [E|E].
    + exists as4path. split; [done|]. split; [lia|]. exists []. split_and!; [apply prefix_nil|cbn; lia|by right].
    + destruct (front_hops_spec path Hp h 0 ltac:(lia)) as (front & -> & Hf & Hpre & Hfn & _ & Hall). cbn [mbind outcome_bind].
      unfold aspath_merge. destruct front as [|seg front]; [by destruct (Hfn ltac:(lia))|]. cbn [mbind outcome_bind]. eexists. split; [done|].
      unfold aspath_dup. rewrite normalise_hops, hops_app by by apply Hfs. split; [lia|]. exists (seg :: front). split_and!; [done|lia|by left].
  - rewrite (proj2 (Z.ltb_lt h 0)) by lia. destruct (Z.eqb_spec (aspath_count_hops path) 0) as [E|E].
    + eexists. split; [done|]. lia.
    + destruct (front_hops_spec path Hp (aspath_count_hops path) 0 ltac:(lia)) as (front & -> & Hf & Hpre & Hfn & _ & Hall). cbn [mbind outcome_bind].
      unfold aspath_merge. destruct front as [|seg front]; [by destruct (Hfn ltac:(lia))|]. cbn [mbind outcome_bind]. eexists. split; [done|].
      intros _. unfold aspath_dup. rewrite normalise_hops, hops_app by by apply Hfs. split; [lia|]. intros a. rewrite normalise_asns by by apply Hfs. by rewrite asns_app, elem_of_app, Hall.
Qed.

(** ** Aggregation *)
Lemma set_add_all_spec l : forall asset, Z.of_nat (length asset + length l) <= 65535 ->
  exists r, set_add_all asset l = Ok r /\ (length r <= length asset + length l)%nat /\ forall x, x ∈ r <-> x ∈ asset \/ x ∈ l.
Proof.
  induction l as [|a l IH]; intros asset Hl; cbn [set_add_all length] in *.
  { exists asset. split_and!; [done|lia|]. intros x. rewrite elem_of_nil. tauto. }
  unfold aspath_aggregate_as_set_add. destruct (existsb (Z.eqb a) asset) eqn:E; cbn [mbind outcome_bind].
  - destruct (IH asset ltac:(lia)) as (r & -> & Hlen & Hr). exists r. split_and!; [done|lia|]. intros x. rewrite Hr, elem_of_cons.
    apply existsb_exists in E as (b & Hb & <-%Z.eqb_eq). apply list_elem_of_In in Hb. split; [tauto|]. intros [?|[->|?]]; auto.
  - unfold wrap. rewrite Z.mod_small, (proj2 (Z.eqb_neq _ _)) by lia. cbn [mbind outcome_bind].
    destruct (IH (asset ++ [a])) as (r & -> & Hlen & Hr); [rewrite length_app; cbn [length]; lia|]. rewrite length_app in Hlen. cbn [length] in Hlen.
    exists r. split_and!; [done|lia|]. intros x. rewrite Hr, elem_of_app, list_elem_of_singleton, elem_of_cons. tauto.
Qed.
Lemma common_length_spec l1 : forall l2, take (common_length l1 l2) l1 = take (common_length l1 l2) l2
  /\ (common_length l1 l2 <= length l1)%nat /\ (common_length l1 l2 <= length l2)%nat.
Proof.
  induction l1 as [|a l1 IH]; intros [|b l2]; cbn [common_length length]; try (split_and!; [done|lia|lia]).
  destruct (Z.eqb_spec a b) as [<-|]; [|split_and!; [done|lia|lia]]. destruct (IH l2) as (E & H1 & H2). cbn [take]. rewrite E. split_and!; [done|lia|lia].
Qed.
Lemma common_length_same l : common_length l l = length l.
Proof. induction l as [|a l IH]; [done|]. cbn. by rewrite Z.eqb_refl, IH. Qed.
(** Through equal segments and up to the first difference inside of one. *)
Lemma common_front_parted c : forall m seg1 t1 seg2 t2, seg_type seg1 = seg_type seg2 -> seg_as seg1 <> seg_as seg2 ->
  let n := common_length (seg_as seg1) (seg_as seg2) in
  exists front, common_front m (c ++ seg1 :: t1) (c ++ seg2 :: t2) = (front, n, seg1 :: t1, seg2 :: t2)
    /\ asns front = asns c ++ take n (seg_as seg1).
Proof.
  induction c as [|seg c IH]; intros m seg1 t1 seg2 t2 Ht Hne n; cbn [app common_front].
  - rewrite Ht, Z.eqb_refl. cbn [negb]. fold n. destruct (common_length_spec (seg_as seg1) (seg_as seg2)) as (E & H1 & H2). fold n in E, H1, H2.
    assert (negb (Z.of_nat n =? Z.min (seg_length seg1) (seg_length seg2)) || negb (Z.of_nat n =? seg_length seg1)
            || negb (seg_length seg1 =? seg_length seg2) = true) as ->.
    { destruct (Z.eqb_spec (Z.of_nat n) (seg_length seg1)) as [El|]; [|apply orb_true_iff; left; apply orb_true_r].
      destruct (Z.eqb_spec (seg_length seg1) (seg_length seg2)) as [El'|]; [|apply orb_true_r].
      exfalso. unfold seg_length in *. rewrite !take_ge in E by lia. done. }
    eexists. split; [reflexivity|]. cbn [asns]. unfold asns. destruct n; [done|]. cbn. by rewrite app_nil_r.
  - rewrite Z.eqb_refl, common_length_same, Z.min_id. fold (seg_length seg). rewrite !Z.eqb_refl. cbn [negb orb].
    destruct (IH (length (seg_as seg)) seg1 t1 seg2 t2 Ht Hne) as (front & E & Hf). cbn beta zeta in E. rewrite E.
    eexists. split; [reflexivity|]. rewrite asns_app, Hf. change (asns (seg :: c)) with (seg_as seg ++ asns c). rewrite <- (assoc_L (++)). f_equal.
    destruct (seg_as seg) as [|a l]; [done|]. unfold asns. cbn [fmap list_fmap concat length seg_as]. rewrite app_nil_r. apply (firstn_all (a :: l)).
Qed.
Lemma asset_asns (l : list Z) : asns match l with [] => [] | _ => [mkSeg AS_SET l] end = l.
Proof. destruct l as [|a l]; [done|]. unfold asns. cbn. by rewrite app_nil_r. Qed.

(** The aggregate of two paths that part inside a segment, of at most 65535 numbers
    together, has exactly the numbers of the two, so that no loop is overlooked. *)
Theorem aspath_aggregate_correct c seg1 t1 seg2 t2 :
  seg_type seg1 = seg_type seg2 -> seg_as seg1 <> seg_as seg2 -> small ((c ++ seg1 :: t1) ++ c ++ seg2 :: t2) ->
  exists p, aspath_aggregate (c ++ seg1 :: t1) (c ++ seg2 :: t2) = Ok p
    /\ forall a, a ∈ asns p <-> a ∈ asns (c ++ seg1 :: t1) \/ a ∈ asns (c ++ seg2 :: t2).
Proof.
  intros Ht Hne Hs. unfold aspath_aggregate. destruct (common_front_parted c 0 seg1 t1 seg2 t2 Ht Hne) as (front & -> & Hf).
  set (n := common_length (seg_as seg1) (seg_as seg2)) in *. destruct (common_length_spec (seg_as seg1) (seg_as seg2)) as (E & H1 & H2). fold n in E, H1, H2.
  unfold small in *. rewrite !asns_app, !asns_cons, !length_app in Hs. unfold rest_asns.
  destruct (set_add_all_spec (drop n (seg_as seg1) ++ asns t1) []) as (r1 & -> & Hl1 & Hr1); [rewrite length_app, length_drop; cbn [length]; lia|].
  rewrite length_app, length_drop in Hl1. cbn [length] in Hl1. cbn [mbind outcome_bind].
  destruct (set_add_all_spec (drop n (seg_as seg2) ++ asns t2) r1) as (r2 & -> & Hl2 & Hr2); [rewrite length_app, length_drop; lia|].
  rewrite length_app, length_drop in Hl2. cbn [mbind outcome_bind]. eexists. split; [done|]. intros a.
  rewrite normalise_asns; [|unfold small; rewrite asns_app, asset_asns, Hf, !length_app, length_take; lia].
  rewrite asns_app, asset_asns, elem_of_app, Hr2, Hr1, elem_of_nil, Hf, !asns_app, !asns_cons.
  rewrite <- (take_drop n (seg_as seg1)) at 3. rewrite <- (take_drop n (seg_as seg2)) at 2. rewrite <- E. rewrite !elem_of_app. tauto.
Qed.
(** When one of them only continues, with a set, behind the whole of the other, the
    members of the set up to the length of the other path are lost. *)
Lemma aspath_aggregate_loses l m : l <> [] -> (length m <= length l)%nat ->
  aspath_aggregate [mkSeg AS_SEQUENCE l] [mkSeg AS_SEQUENCE l; mkSeg AS_SET m] = Ok [mkSeg AS_SEQUENCE l].
Proof.
  intros Hl Hm. unfold aspath_aggregate. cbn [common_front seg_type seg_as]. rewrite Z.eqb_refl, common_length_same. unfold seg_length. cbn [seg_as].
  rewrite Z.min_id, !Z.eqb_refl. cbn [negb orb]. unfold rest_asns. cbn [seg_as]. rewrite drop_ge by done. rewrite firstn_all. destruct l; [done|]. reflexivity.
Qed.

(** ** The other operations *)
Lemma count_loop a l : forall n, fold_left (fun count b => if b =? a then count + 1 else count) l n = n + Z.of_nat (length (filter (fun b => b = a) l)).
Proof.
  induction l as [|b l IH]; intros n; cbn [fold_left]; [cbn; lia|]. rewrite IH, filter_cons. destruct (Z.eqb_spec b a) as [->|Hne].
  - rewrite decide_True by done. cbn [length]. lia.
  - by rewrite decide_False by done.
Qed.
(** The loop check counts the number, so that it is positive exactly for a loop. *)
Lemma aspath_loop_check_correct path a : aspath_loop_check (Some path) a = Z.of_nat (length (filter (fun b => b = a) (asns path)))
  /\ (0 < aspath_loop_check (Some path) a <-> a ∈ asns path).
Proof.
  cbn [aspath_loop_check]. rewrite count_loop, Z.add_0_l. split; [done|]. split.
  - intros Hp. destruct (filter (fun b => b = a) (asns path)) as [|b l] eqn:E; [done|].
    assert (b ∈ filter (fun b => b = a) (asns path)) as Hb by (rewrite E; by left). by apply list_elem_of_filter in Hb as [-> ?].
  - intros Ha. assert (a ∈ filter (fun b => b = a) (asns path)) as Hb by by apply list_elem_of_filter.
    destruct (filter _ _); [by apply elem_of_nil in Hb|cbn; lia].
Qed.
(** Prepending, up to 65535 numbers: all numbers and hops of both, but for a path that starts with a sequence
    of the confederation behind one that ends with a sequence, which is freed before it
    is looked at. *)
Lemma aspath_prepend_correct as1 as2 :
  let freed := match last as1, as2 with
               | Some seg1, seg2 :: _ => (seg_type seg1 =? AS_SEQUENCE) && (seg_type seg2 =? AS_CONFED_SEQUENCE)
               | _, _ => false
               end in
  small (as1 ++ as2) ->
  if freed then aspath_prepend as1 as2 = Fault UseAfterDestroy
  else exists p, aspath_prepend as1 as2 = Ok p /\ asns p = asns as1 ++ asns as2
                 /\ aspath_count_hops p = aspath_count_hops as1 + aspath_count_hops as2.
Proof.
  cbn zeta. intros Hsm. unfold aspath_prepend. destruct as2 as [|seg2 next2].
  { destruct (last as1); exists as1; rewrite app_nil_r; cbn [aspath_count_hops]; split_and!; done || lia. }
  destruct (last as1) as [seg1|] eqn:El; [|apply last_None in El as ->; by exists (seg2 :: next2)].
  apply last_Some in El as [pre ->]. destruct ((seg_type seg1 =? AS_SEQUENCE) && (seg_type seg2 =? AS_CONFED_SEQUENCE)); [done|].
  assert (aspath_merge (pre ++ [seg1]) (seg2 :: next2) = Ok ((pre ++ [seg1]) ++ seg2 :: next2)) as Hm.
  { unfold aspath_merge. by destruct (pre ++ [seg1]) as [|? ?] eqn:E; [apply app_eq_nil in E as [_ ?]|]. }
  destruct (Z.eqb_spec (seg_type seg1) (seg_type seg2)) as [Ht|Ht]; cbn [negb]; [destruct (Z.eqb_spec (seg_type seg1) AS_SEQUENCE) as [Hs|Hs]|].
  - unfold assegment_append_asns. rewrite seg16_small; [fold (join seg1 (seg_as seg2))|unfold small in Hsm; rewrite !asns_app, !asns_cons, !length_app in Hsm; rewrite length_app; lia].
    eexists. split; [reflexivity|]. rewrite length_app. cbn [length]. replace (length pre + 1 - 1)%nat with (length pre) by lia. rewrite take_app_length.
    rewrite !asns_app, !hops_app. change (asns (join seg1 (seg_as seg2) :: next2)) with ((seg_as seg1 ++ seg_as seg2) ++ asns next2).
    change (asns [seg1]) with (seg_as seg1 ++ []). change (asns (seg2 :: next2)) with (seg_as seg2 ++ asns next2). rewrite app_nil_r, <- !(assoc_L (++)).
    split; [done|]. cbn [aspath_count_hops join seg_type]. rewrite <- Ht, Hs. change (AS_SEQUENCE =? AS_SEQUENCE) with true. cbn iota.
    unfold seg_length. cbn [seg_as join]. rewrite length_app. lia.
  - rewrite Hm. eexists. split; [done|]. by rewrite asns_app, hops_app.
  - rewrite Hm. eexists. split; [done|]. by rewrite asns_app, hops_app.
Qed.
Lemma aspath_filter_exclude_correct source exclude_list :
  asns (aspath_filter_exclude source exclude_list) = filter (fun a => a ∉ asns exclude_list) (asns source).
Proof.
  unfold aspath_filter_exclude. induction source as [|seg source IH]; [done|]. cbn [fmap list_fmap]. rewrite filter_cons. cbn [seg_as].
  change (asns (seg :: source)) with (seg_as seg ++ asns source). rewrite filter_app, <- IH.
  destruct (decide _) as [Hne|He]; cbn [seg_as] in *; [done|]. by apply dec_stable in He as ->.
Qed.
Lemma aspath_add_seq_correct path a : path_wf path -> Z.of_nat (length (asns path)) < 65535 ->
  asns (aspath_add_seq path a) = a :: asns path /\ aspath_count_hops (aspath_add_seq path a) = aspath_count_hops path + 1.
Proof.
  unfold aspath_add_seq, aspath_add_one_as. destruct path as [|seg path]; [done|]. intros [Hne _]%Forall_cons Hsm. rewrite asns_cons, length_app in Hsm.
  assert ((seg_length seg =? 0) = false) as -> by (unfold seg_length; destruct (seg_as seg); [done|apply Z.eqb_neq; cbn [length]; lia]).
  destruct (Z.eqb_spec (seg_type seg) AS_SEQUENCE) as [Ht|Ht]; cbn [aspath_count_hops seg_type]; [|split; [done|cbn [aspath_count_hops]; change (AS_SEQUENCE =? AS_SEQUENCE) with true; cbn iota; unfold seg_length; cbn [seg_as length]; lia]].
  unfold assegment_prepend_asns. change ((1 =? 0) || (AS_SEGMENT_MAX <=? 1)) with false. cbn iota. rewrite seg16_small by (rewrite length_app, length_replicate; lia).
  split; [done|]. cbn [seg_type]. rewrite Ht.
  change (AS_SEQUENCE =? AS_SEQUENCE) with true. cbn iota. unfold seg_length. cbn [seg_as]. rewrite length_app, length_replicate. lia.
Qed.
End AsPathOps.
