(* ===== verification/RouterTable.v ===== *)
(** * The routing table of the router and its validation (quagga-srx/bgpd: bgp_route.c, bgpd.c, bgp_info_hash.c)

    A route (struct bgp_info) is a heap object in the list of its node, the prefix.
    A route that waits for an identifier of the server is registered under a local
    identifier, afterwards under the one of the server.  This file holds the data,
    the life of a route, the request to the server and its answers, and what an
    update or a withdrawal of a peer does.  Left out: filters, route maps, dampening,
    aggregation, the limit for prefixes, multiple paths ([maximum-paths] is 1) and
    references by outgoing advertisements. *)
From S2P Require Import Prelude Bytes SrxDefs UtHash UpdateCache SrxPackets ProxyApi HashMessage.
From S2P Require Import RouterConfig RouterAsPath.

Module RouterTable.
Import SrxPackets HashMessage RouterConfig RouterAsPath.

(** ** Constants *)
Definition BGP_INFO_IGP_CHANGED : Z := 2 ^ 0.
Definition BGP_INFO_DAMPED : Z := 2 ^ 1.
Definition BGP_INFO_HISTORY : Z := 2 ^ 2.
Definition BGP_INFO_SELECTED : Z := 2 ^ 3.
Definition BGP_INFO_VALID : Z := 2 ^ 4.
Definition BGP_INFO_ATTR_CHANGED : Z := 2 ^ 5.
Definition BGP_INFO_DMED_CHECK : Z := 2 ^ 6.
Definition BGP_INFO_DMED_SELECTED : Z := 2 ^ 7.
Definition BGP_INFO_STALE : Z := 2 ^ 8.
Definition BGP_INFO_REMOVED : Z := 2 ^ 9.
Definition BGP_INFO_COUNTED : Z := 2 ^ 10.
Definition BGP_INFO_MULTIPATH_CHG : Z := 2 ^ 12.
Definition BGP_INFO_IGNORE : Z := 2 ^ 13.
Definition BGP_INFO_UNUSEABLE : Z :=
  Z.lor (Z.lor (Z.lor BGP_INFO_HISTORY BGP_INFO_DAMPED) BGP_INFO_REMOVED) BGP_INFO_IGNORE.

Definition BGP_PEER_IBGP : Z := 1.
Definition BGP_PEER_EBGP : Z := 2.
Definition BGP_PEER_CONFED : Z := 4.
Definition PEER_FLAG_DISABLE_CONNECTED_CHECK : Z := 2 ^ 6.
Definition PEER_FLAG_ASPA_RELATIONSHIP_PROV : Z := 2 ^ 16.
Definition PEER_FLAG_ASPA_RELATIONSHIP_CUST : Z := 2 ^ 17.
Definition PEER_FLAG_ASPA_RELATIONSHIP_SIBL : Z := 2 ^ 18.
Definition PEER_FLAG_ASPA_RELATIONSHIP_LATL : Z := 2 ^ 19.
Definition AS_REL_UNKNOWN : Z := 0.
Definition ECOMMUNITY_BGPSEC_VALID : Z := 0.
Definition ECOMMUNITY_BGPSEC_NOT_FOUND : Z := 1.
Definition ECOMMUNITY_BGPSEC_INVALID : Z := 2.
Definition ECOMMUNITY_BGPSEC_UNDEFINED : Z := 3.
Definition SAFI_UNICAST : Z := 1.
Definition SAFI_MULTICAST : Z := 2.
Definition ZEBRA_ROUTE_BGP : Z := 9.
Definition BGP_ROUTE_NORMAL : Z := 0.
Definition MAX_VALUE_INT : Z := 0x0FFFFFFF.

(** ** Data *)

(** [union sockunion]: the family and the address in network order. *)
Record sockunion := mkSockunion { sa_family : Z; sa_addr : list Z }.
(** [ttl] and the AS the peer is told are the only other members that matter here. *)
Record peer := mkPeer {
  sort : Z; peer_as : Z; peer_local_as : Z; remote_id : Z; su_remote : sockunion; ttl : Z; peer_flags : Z
}.

(** [str] is NULL or not; [val] holds the communities of eight octets. *)
Record ecommunity := mkEcommunity { ec_str : bool; ec_val : option (list Z) }.
(** [cluster] is the length of the list.  What neither the validation nor the decision
    process reads is kept as the octets [attrhash_cmp] compares. *)
Record attr_extra := mkExtra {
  weight : Z; originator_id : Z; cluster : option Z; ecom : option ecommunity; extra_rest : list Z
}.
Record attr := mkAttr {
  attr_flag : Z; origin : Z; aspath : option (list assegment); med : Z; local_pref : Z;
  extra : option attr_extra; attr_rest : list Z; bgpsec_validationData : option SCA_BGPSecValidationData
}.

(** The two tables a route can be registered in. *)
Inductive hash_id := UidHash | LidHash.
#[global] Instance hash_id_eq_dec : EqDecision hash_id.
Proof. solve_decision. Defined.

(** [igpmetric] is the member of [struct bgp_info_extra]. *)
Record bgp_info := mkInfo {
  info_peer : positive; info_attr : attr; igpmetric : option Z; lock : Z; flags : Z; type : Z; sub_type : Z;
  node : option positive; info_hash : option hash_id; updateID : Z; localID : Z;
  val_res_ROA : Z; val_res_BGPSEC : Z; val_res_ASPA : Z
}.
Implicit Types (info : bgp_info).

(** The table of a node: its kind and address family. *)
Record bgp_table := mkTable { rsclient : bool; afi : Z; safi : Z }.
#[global] Instance bgp_table_eq_dec : EqDecision bgp_table.
Proof. solve_decision. Defined.
#[global] Instance bgp_table_countable : Countable bgp_table.
Proof.
  refine (inj_countable' (fun t => (rsclient t, afi t, safi t)) (fun p => mkTable p.1.1 p.1.2 p.2) _). by intros [].
Defined.
(** [n_info] is the list of the routes; the prefix has the 16 octets that are read. *)
Record bgp_node := mkNode { n_family : Z; n_prefixlen : Z; n_u : list Z; n_table : bgp_table; n_info : list positive; scheduled : bool }.
Implicit Types (rn : positive).

Record bgp_info_hash_item := mkItem { identifier : Z; item_info : positive }.
Record bgp_info_hash (H : Type) := mkHash { table : H; h_items : gmap positive bgp_info_hash_item }.
Arguments mkHash {H} _ _.
Arguments table {H} _.
Arguments h_items {H} _.

(** What the rest of the router is told: the selected route for the peers, and the
    changes of the forwarding table. *)
Inductive output :=
| Announce (rn : positive) (selected : option positive)
| ZebraAnnounce (rn i : positive)
| ZebraWithdraw (rn i : positive).

(** [srxCAPI] tells whether a crypto library is loaded; [rib_multicast] and
    [rib_unicast] are the nodes of the IPv4 tables in the order of a walk; [fib]
    stands for an unnamed instance without the option [no FIB]. *)
Record router (H : Type) := mkRouter {
  r_bgp : bgp;
  srxCAPI : bool;
  fib : bool;
  peers : gmap positive peer;
  peer_self : positive;
  infos : gmap positive bgp_info;
  nodes : gmap positive bgp_node;
  rib_multicast : list positive;
  rib_unicast : list positive;
  info_uid_hash : bgp_info_hash H;
  info_lid_hash : bgp_info_hash H;
  suiLocalID : Z;
  pcount : gmap (positive * bgp_table) Z;
  process_main_queue : list positive;
  process_rsclient_queue : list positive;
  sent : list (list Z);
  outputs : list output
}.
Arguments mkRouter {H} _ _ _ _ _ _ _ _ _ _ _ _ _ _ _ _ _.
Arguments r_bgp {H} _.
Arguments srxCAPI {H} _.
Arguments fib {H} _.
Arguments peers {H} _.
Arguments peer_self {H} _.
Arguments infos {H} _.
Arguments nodes {H} _.
Arguments rib_multicast {H} _.
Arguments rib_unicast {H} _.
Arguments info_uid_hash {H} _.
Arguments info_lid_hash {H} _.
Arguments suiLocalID {H} _.
Arguments pcount {H} _.
Arguments process_main_queue {H} _.
Arguments process_rsclient_queue {H} _.
Arguments sent {H} _.
Arguments outputs {H} _.

(** ** Changing members *)
Definition with_flags info f := mkInfo (info_peer info) (info_attr info) (igpmetric info) (lock info) f (type info) (sub_type info)
  (node info) (info_hash info) (updateID info) (localID info) (val_res_ROA info) (val_res_BGPSEC info) (val_res_ASPA info).
Definition with_lock info n := mkInfo (info_peer info) (info_attr info) (igpmetric info) n (flags info) (type info) (sub_type info)
  (node info) (info_hash info) (updateID info) (localID info) (val_res_ROA info) (val_res_BGPSEC info) (val_res_ASPA info).
Definition with_node info n := mkInfo (info_peer info) (info_attr info) (igpmetric info) (lock info) (flags info) (type info) (sub_type info)
  n (info_hash info) (updateID info) (localID info) (val_res_ROA info) (val_res_BGPSEC info) (val_res_ASPA info).
Definition with_hash info h := mkInfo (info_peer info) (info_attr info) (igpmetric info) (lock info) (flags info) (type info) (sub_type info)
  (node info) h (updateID info) (localID info) (val_res_ROA info) (val_res_BGPSEC info) (val_res_ASPA info).
Definition with_ids info u l := mkInfo (info_peer info) (info_attr info) (igpmetric info) (lock info) (flags info) (type info) (sub_type info)
  (node info) (info_hash info) u l (val_res_ROA info) (val_res_BGPSEC info) (val_res_ASPA info).
Definition with_results info (v : SRxResult) := mkInfo (info_peer info) (info_attr info) (igpmetric info) (lock info) (flags info) (type info)
  (sub_type info) (node info) (info_hash info) (updateID info) (localID info) (roaResult v) (bgpsecResult v) (aspaResult v).
Definition with_attr info a := mkInfo (info_peer info) a (igpmetric info) (lock info) (flags info) (type info) (sub_type info)
  (node info) (info_hash info) (updateID info) (localID info) (val_res_ROA info) (val_res_BGPSEC info) (val_res_ASPA info).
Definition with_info_list (n : bgp_node) l := mkNode (n_family n) (n_prefixlen n) (n_u n) (n_table n) l (scheduled n).
Definition with_scheduled (n : bgp_node) b := mkNode (n_family n) (n_prefixlen n) (n_u n) (n_table n) (n_info n) b.

(** The crypto library that the router loads for itself; it gives a verdict for
    everything it is asked. *)
Class LocalCrypto := { local_validate : SCA_BGPSecValidationData -> Z }.

Section router.
Context {H : Type} `{UTHash H} `{LocalCrypto}.
Implicit Types (r : router H).

Definition set_infos r m := mkRouter (r_bgp r) (srxCAPI r) (fib r) (peers r) (peer_self r) m (nodes r) (rib_multicast r) (rib_unicast r)
  (info_uid_hash r) (info_lid_hash r) (suiLocalID r) (pcount r) (process_main_queue r) (process_rsclient_queue r) (sent r) (outputs r).
Definition set_nodes r m := mkRouter (r_bgp r) (srxCAPI r) (fib r) (peers r) (peer_self r) (infos r) m (rib_multicast r) (rib_unicast r)
  (info_uid_hash r) (info_lid_hash r) (suiLocalID r) (pcount r) (process_main_queue r) (process_rsclient_queue r) (sent r) (outputs r).
Definition set_hash r (h : hash_id) t := mkRouter (r_bgp r) (srxCAPI r) (fib r) (peers r) (peer_self r) (infos r) (nodes r)
  (rib_multicast r) (rib_unicast r) (if h then t else info_uid_hash r) (if h then info_lid_hash r else t)
  (suiLocalID r) (pcount r) (process_main_queue r) (process_rsclient_queue r) (sent r) (outputs r).
Definition set_localID r n := mkRouter (r_bgp r) (srxCAPI r) (fib r) (peers r) (peer_self r) (infos r) (nodes r) (rib_multicast r)
  (rib_unicast r) (info_uid_hash r) (info_lid_hash r) n (pcount r) (process_main_queue r) (process_rsclient_queue r) (sent r) (outputs r).
Definition set_pcount r m := mkRouter (r_bgp r) (srxCAPI r) (fib r) (peers r) (peer_self r) (infos r) (nodes r) (rib_multicast r)
  (rib_unicast r) (info_uid_hash r) (info_lid_hash r) (suiLocalID r) m (process_main_queue r) (process_rsclient_queue r) (sent r) (outputs r).
Definition set_queues r q qc := mkRouter (r_bgp r) (srxCAPI r) (fib r) (peers r) (peer_self r) (infos r) (nodes r) (rib_multicast r)
  (rib_unicast r) (info_uid_hash r) (info_lid_hash r) (suiLocalID r) (pcount r) q qc (sent r) (outputs r).
Definition set_sent r l := mkRouter (r_bgp r) (srxCAPI r) (fib r) (peers r) (peer_self r) (infos r) (nodes r) (rib_multicast r)
  (rib_unicast r) (info_uid_hash r) (info_lid_hash r) (suiLocalID r) (pcount r) (process_main_queue r) (process_rsclient_queue r) l (outputs r).
Definition put r (o : output) := mkRouter (r_bgp r) (srxCAPI r) (fib r) (peers r) (peer_self r) (infos r) (nodes r) (rib_multicast r)
  (rib_unicast r) (info_uid_hash r) (info_lid_hash r) (suiLocalID r) (pcount r) (process_main_queue r) (process_rsclient_queue r) (sent r)
  (outputs r ++ [o]).

Definition get_hash r (h : hash_id) : bgp_info_hash H := if h then info_uid_hash r else info_lid_hash r.
Definition get_info r i : outcome bgp_info := deref (infos r) i.
Definition get_node r rn : outcome bgp_node := deref (nodes r) rn.
Definition put_info r i info := set_infos r (<[i := info]> (infos r)).
Definition put_node r rn n := set_nodes r (<[rn := n]> (nodes r)).
Definition update_info r i (f : bgp_info -> bgp_info) : outcome (router H) := info ← get_info r i; Ok (put_info r i (f info)).

(** The packet [deleteUpdate] of the proxy library sends when it is connected; without
    a proxy it dereferences NULL. *)
Definition proxy_deleteUpdate r (updateID : Z) : outcome (router H) :=
  match srxProxy (r_bgp r) with
  | None => Fault NullDeref
  | Some (_, true) => Ok (set_sent r (sent r ++ [ProxyApi.deleteUpdate (u16 (srx_keepWindow (r_bgp r))) updateID]))
  | Some (_, false) => Ok r
  end.

(** ** The tables of identifiers (bgp_info_hash.c) *)
Definition bgp_info_register r (h : hash_id) (i : positive) (id : Z) : outcome (router H * Z) :=
  if id =? 0 then Ok (r, 0) else
  let t := get_hash r h in
  let p := fresh (dom (h_items t)) in
  let r := set_hash r h (mkHash (ut_add id p (table t)) (<[p := mkItem id i]> (h_items t))) in
  r ← update_info r i (fun info => with_hash info (Some h));
  Ok (r, 1).
Definition bgp_info_unregister r (h : hash_id) (id : Z) : router H :=
  let t := get_hash r h in
  match ut_find id (table t) with
  | Some p => set_hash r h (mkHash (ut_del p (table t)) (delete p (h_items t)))
  | None => r
  end.
Definition bgp_info_fetch r (h : hash_id) (id : Z) : outcome (option positive) :=
  let t := get_hash r h in
  match ut_find id (table t) with
  | Some p => item ← deref (h_items t) p; Ok (Some (item_info item))
  | None => Ok None
  end.

(** ** The life of a route *)
Definition bgp_info_new (pr : positive) (ty sub : Z) (a : attr) : bgp_info :=
  mkInfo pr a None 0 0 ty sub None None 0 0 0 0 0.

Definition bgp_info_free r (i : positive) : outcome (router H) :=
  binfo ← get_info r i;
  r ← match info_hash binfo with
      | Some h =>
          if negb (updateID binfo =? 0) then proxy_deleteUpdate (bgp_info_unregister r h (updateID binfo)) (updateID binfo)
          else Ok (bgp_info_unregister r h (localID binfo))
      | None => Ok r
      end;
  Ok (set_infos r (delete i (infos r))).
Definition bgp_info_lock r (i : positive) : outcome (router H) := update_info r i (fun binfo => with_lock binfo (lock binfo + 1)).
Definition bgp_info_unlock r (i : positive) : outcome (router H) :=
  binfo ← get_info r i;
  if 0 <? lock binfo then
    let r := put_info r i (with_lock binfo (lock binfo - 1)) in
    if lock binfo - 1 =? 0 then bgp_info_free r i else Ok r
  else Fault AssertFailed.

Definition bgp_info_add r (rn ri : positive) : outcome (router H) :=
  n ← get_node r rn;
  let r := put_node r rn (with_info_list n (ri :: n_info n)) in
  r ← update_info r ri (fun info => with_node info (Some rn));
  bgp_info_lock r ri.
Definition bgp_info_reap r (rn ri : positive) : outcome (router H) :=
  n ← get_node r rn;
  let r := put_node r rn (with_info_list n (filter (fun i => i <> ri) (n_info n))) in
  bgp_info_unlock r ri.

Definition BGP_INFO_HOLDDOWN info : bool := negb (CHECK_FLAG (flags info) BGP_INFO_VALID) || CHECK_FLAG (flags info) BGP_INFO_UNUSEABLE.

(** The counter of a peer is unsigned and is not decremented below 0. *)
Definition bgp_pcount_adjust r (rn : option positive) (ri : positive) : outcome (router H) :=
  match rn with
  | None => Fault AssertFailed
  | Some rn =>
      n ← get_node r rn;
      info ← get_info r ri;
      if rsclient (n_table n) || bool_decide (info_peer info = peer_self r) then Ok r
      else
        let key := (info_peer info, n_table n) in
        let count := default 0 (pcount r !! key) in
        if BGP_INFO_HOLDDOWN info && CHECK_FLAG (flags info) BGP_INFO_COUNTED then
          let r := put_info r ri (with_flags info (u16 (UNSET_FLAG (flags info) BGP_INFO_COUNTED))) in
          Ok (if negb (count =? 0) then set_pcount r (<[key := count - 1]> (pcount r)) else r)
        else if negb (BGP_INFO_HOLDDOWN info) && negb (CHECK_FLAG (flags info) BGP_INFO_COUNTED) then
          let r := put_info r ri (with_flags info (u16 (SET_FLAG (flags info) BGP_INFO_COUNTED))) in
          Ok (set_pcount r (<[key := wrap 64 (count + 1)]> (pcount r)))
        else Ok r
  end.
Definition changes_use (flag : Z) : bool := CHECK_FLAG flag (Z.lor BGP_INFO_VALID BGP_INFO_UNUSEABLE).
Definition bgp_info_set_flag r (rn : option positive) (ri : positive) (flag : Z) : outcome (router H) :=
  r ← update_info r ri (fun info => with_flags info (u16 (SET_FLAG (flags info) flag)));
  if changes_use flag then bgp_pcount_adjust r rn ri else Ok r.
Definition bgp_info_unset_flag r (rn : option positive) (ri : positive) (flag : Z) : outcome (router H) :=
  r ← update_info r ri (fun info => with_flags info (u16 (UNSET_FLAG (flags info) flag)));
  if changes_use flag then bgp_pcount_adjust r rn ri else Ok r.
Definition bgp_info_delete r (rn ri : positive) : outcome (router H) :=
  r ← bgp_info_set_flag r (Some rn) ri BGP_INFO_REMOVED;
  update_info r ri (fun info => with_flags info (u16 (UNSET_FLAG (flags info) BGP_INFO_VALID))).
Definition bgp_info_restore r (rn ri : positive) : outcome (router H) :=
  r ← bgp_info_unset_flag r (Some rn) ri BGP_INFO_REMOVED;
  update_info r ri (fun info => with_flags info (u16 (SET_FLAG (flags info) BGP_INFO_VALID))).

(** A node is queued once. *)
Definition bgp_process r (rn : positive) : outcome (router H) :=
  n ← get_node r rn;
  if scheduled n then Ok r
  else
    let r := if rsclient (n_table n) then set_queues r (process_main_queue r) (process_rsclient_queue r ++ [rn])
             else set_queues r (process_main_queue r ++ [rn]) (process_rsclient_queue r) in
    Ok (put_node r rn (with_scheduled n true)).
Definition srx_bgp_requeue_update r (i : positive) : outcome (router H) :=
  info ← get_info r i;
  match node info with None => Fault NullDeref | Some rn => bgp_process r rn end.
(** The nodes of a table with a route, its first one. *)
Fixpoint requeue_table r (rns : list positive) : outcome (router H) :=
  match rns with
  | [] => Ok r
  | rn :: rns =>
      n ← get_node r rn;
      r ← match n_info n with [] => Ok r | i :: _ => srx_bgp_requeue_update r i end;
      requeue_table r rns
  end.
Definition srx_bgp_requeue_all r : outcome (router H) :=
  r ← requeue_table r (rib_multicast r); requeue_table r (rib_unicast r).

(** ** The results of a route *)
Definition getInfoToSrxVal info : SRxResult := mkSRxResult (val_res_ROA info) (val_res_BGPSEC info) (val_res_ASPA info).
Definition isSrxValChanged (old new : SRxResult) : bool :=
  if negb (roaResult old =? roaResult new) then true
  else if negb (bgpsecResult old =? bgpsecResult new) then true
  else negb (aspaResult old =? aspaResult new).

(** The three [switch] statements of [bgp_info_set_ignore_flag]; the case of an
    unverifiable ASPA result falls through to the one of an undefined result. *)
Definition ignore_origin (b : bgp) (res : Z) : bool :=
  if res =? SRx_RESULT_INVALID then CHECK_FLAG (srx_val_policy b) SRX_VAL_POLICY_ORIGIN_IGNORE_INVALID
  else if res =? SRx_RESULT_NOTFOUND then CHECK_FLAG (srx_val_policy b) SRX_VAL_POLICY_ORIGIN_IGNORE_NOTFOUND
  else if res =? SRx_RESULT_UNDEFINED then CHECK_FLAG (srx_val_policy b) SRX_VAL_POLICY_ORIGIN_IGNORE_UNDEFINED
  else false.
Definition ignore_bgpsec (b : bgp) (res : Z) : bool :=
  if res =? SRx_RESULT_INVALID then CHECK_FLAG (srx_val_policy b) SRX_VAL_POLICY_BGPSEC_IGNORE_INVALID
  else if res =? SRx_RESULT_UNDEFINED then CHECK_FLAG (srx_val_policy b) SRX_VAL_POLICY_BGPSEC_IGNORE_UNDEFINED
  else false.
Definition ignore_aspa (b : bgp) (res : Z) : bool :=
  if res =? SRx_RESULT_INVALID then CHECK_FLAG (srx_val_policy b) SRX_VAL_POLICY_ASPA_IGNORE_INVALID
  else if res =? SRx_RESULT_UNKNOWN then CHECK_FLAG (srx_val_policy b) SRX_VAL_POLICY_ASPA_IGNORE_UNKNOWN
  else if res =? SRx_RESULT_UNVERIFIABLE then
    CHECK_FLAG (srx_val_policy b) SRX_VAL_POLICY_ASPA_IGNORE_UNVERIFIABLE
    || CHECK_FLAG (srx_val_policy b) SRX_VAL_POLICY_ASPA_IGNORE_UNDEFINED
  else if res =? SRx_RESULT_UNDEFINED then CHECK_FLAG (srx_val_policy b) SRX_VAL_POLICY_ASPA_IGNORE_UNDEFINED
  else false.
Definition ignored_by (b : bgp) (v : SRxResult) : bool :=
  let ignore := CHECK_FLAG (srx_config b) SRX_CONFIG_EVAL_ORIGIN && ignore_origin b (roaResult v) in
  let ignore := if negb ignore && CHECK_FLAG (srx_config b) SRX_CONFIG_EVAL_PATH then ignore_bgpsec b (bgpsecResult v) else ignore in
  if negb ignore && CHECK_FLAG (srx_config b) SRX_CONFIG_EVAL_ASPA then ignore_aspa b (aspaResult v) else ignore.
Definition bgp_info_set_ignore_flag r (i : positive) : outcome (router H * Z) :=
  info ← get_info r i;
  let ignore := ignored_by (r_bgp r) (getInfoToSrxVal info) in
  r ← (if CHECK_FLAG (flags info) BGP_INFO_IGNORE then
         if negb ignore then bgp_info_unset_flag r (node info) i BGP_INFO_IGNORE else Ok r
       else if ignore then bgp_info_set_flag r (node info) i BGP_INFO_IGNORE else Ok r);
  Ok (r, if ignore then 1 else 0).

Definition store_results (resType roa sec aspa : Z) info : bgp_info :=
  with_results info
    (mkSRxResult (if ProxyApi.isSet resType SRX_FLAG_ROA then roa else val_res_ROA info)
       (if ProxyApi.isSet resType SRX_FLAG_BGPSEC then sec else val_res_BGPSEC info)
       (if ProxyApi.isSet resType SRX_FLAG_ASPA then aspa else val_res_ASPA info)).
Definition bgp_info_set_validation_result r (i : positive) (resType roa sec aspa : Z) : outcome (router H) :=
  if Z.land resType SRX_FLAG_ROA_BGPSEC_ASPA =? 0 then Ok r
  else
    info ← get_info r i;
    let oldValResult := getInfoToSrxVal info in
    let oldIgnore := if CHECK_FLAG (flags info) BGP_INFO_IGNORE then 1 else 0 in
    let r := put_info r i (store_results resType roa sec aspa info) in
    '(r, ignore) ← bgp_info_set_ignore_flag r i;
    info ← get_info r i;
    let ignoreChanged := negb (ignore =? oldIgnore) in
    let resultChanged := isSrxValChanged oldValResult (getInfoToSrxVal info) in
    if ignoreChanged || resultChanged then srx_bgp_requeue_update r i else Ok r.

(** ** The request to the server *)

(** The status octet of the extended community; -1 when there is none that is known. *)
Definition checkEcomSRxValid (a : attr) : outcome Z :=
  match extra a with
  | None => Ok (-1)
  | Some attre =>
      match ecom attre with
      | None => Ok (-1)
      | Some e =>
          match ec_val e with
          | Some val =>
              if negb (ec_str e) then Ok (-1)
              else
                status ← read8 val 7;
                Ok (if status =? ECOMMUNITY_BGPSEC_VALID then ECOMMUNITY_BGPSEC_VALID
                    else if status =? ECOMMUNITY_BGPSEC_NOT_FOUND then ECOMMUNITY_BGPSEC_NOT_FOUND
                    else if status =? ECOMMUNITY_BGPSEC_INVALID then ECOMMUNITY_BGPSEC_INVALID
                    else if status =? 0xAB then ECOMMUNITY_BGPSEC_UNDEFINED
                    else -1)
          | None => Ok (-1)
          end
      end
  end.

(** [suiLocalID] wraps around before it needs more than 28 bits. *)
Definition getNextLocalID r : router H * Z :=
  let n := if suiLocalID r <? MAX_VALUE_INT then suiLocalID r + 1 else 1 in (set_localID r n, n).

Definition prefix_to_IPPrefix (n : bgp_node) : IPPrefix :=
  mkIPPrefix (mkIPAddress (if n_family n =? 2 then 4 else 6) (n_u n)) (n_prefixlen n).

(** The AS numbers of all sequences; [numberHops] is the length of the last one. *)
Fixpoint path_data (numberHops : Z) (asPath : option (list Z)) (segments : list assegment) : Z * option (list Z) :=
  match segments with
  | [] => (numberHops, asPath)
  | seg :: segments =>
      if seg_type seg =? AS_SEQUENCE then path_data (seg_length seg) (Some (default [] asPath ++ (htonl <$> seg_as seg))) segments
      else path_data numberHops asPath segments
  end.
(** The attribute without [distributed] evaluation: as many octets as its value has,
    from its first octet. *)
Definition srx_create_bgpsec_data (b : bgp) (local_as : Z) (a : attr) : outcome BGPSecData :=
  let '(hops, path) := path_data 0 None (default [] (aspath a)) in
  match bgpsec_validationData a with
  | None => Ok (mkBGPSecData hops path 0 0 0 0 None)
  | Some vd =>
      match v_bgpsec_path_attr vd with
      | None => Fault NullDeref
      | Some pa =>
          fl ← read8 pa 0;
          size ← (if CHECK_FLAG fl 0x10 then read16be pa 2 else read8 pa 2);
          let distr := CHECK_FLAG (srx_config b) SRX_CONFIG_EVAL_PATH_DISTR in
          let size := if distr then size + 4 else size in
          data ← read_bytes pa 0 (Z.to_nat size);
          if distr then
            match v_nlri vd with
            | None => Fault NullDeref
            | Some p => Ok (mkBGPSecData hops path (u16 size) (UpdateCache.s_afi p) (UpdateCache.s_safi p) local_as (Some data))
            end
          else Ok (mkBGPSecData hops path (u16 size) 0 0 0 (Some data))
      end
  end.

Definition relationship (fl : Z) : Z :=
  if CHECK_FLAG fl PEER_FLAG_ASPA_RELATIONSHIP_PROV then AS_REL_PROVIDER
  else if CHECK_FLAG fl PEER_FLAG_ASPA_RELATIONSHIP_CUST then AS_REL_CUSTOMER
  else if CHECK_FLAG fl PEER_FLAG_ASPA_RELATIONSHIP_SIBL then AS_REL_SIBLING
  else if CHECK_FLAG fl PEER_FLAG_ASPA_RELATIONSHIP_LATL then AS_REL_LATERAL
  else AS_REL_UNKNOWN.
(** The path list of the request: the first set of the path, or its first segment.  Its
    length has 8 bits and is what is allocated; all numbers of the segment are copied. *)
Definition path_list (rel : Z) (path : option (list assegment)) : outcome ProxyApi.SRxASPathList :=
  match default [] path with
  | [] => Ok (ProxyApi.mkSRxASPathList 0 rel)
  | (first :: _) as segments =>
      let cseg := default first (head (filter (fun seg => seg_type seg = AS_SET) segments)) in
      if u8 (seg_length cseg) <? seg_length cseg then Fault BufferOverflow
      else Ok (ProxyApi.mkSRxASPathList (seg_type cseg) rel)
  end.

(** The default results, with the origin result of the community when that is asked
    for. *)
Definition community_result (b : bgp) (a : attr) (defResult : SRxDefaultResult) : outcome SRxDefaultResult :=
  if CHECK_FLAG (srx_ecommunity_flags b) SRX_BGP_FLAG_ECOMMUNITY then
    retValid ← checkEcomSRxValid a;
    let set v := Ok (mkSRxDefaultResult (resSourceROA defResult) (resSourceBGPSEC defResult) (resSourceASPA defResult)
                       (mkSRxResult v (bgpsecResult (result defResult)) (aspaResult (result defResult)))) in
    if retValid =? ECOMMUNITY_BGPSEC_VALID then set SRx_RESULT_VALID
    else if retValid =? ECOMMUNITY_BGPSEC_NOT_FOUND then set SRx_RESULT_NOTFOUND
    else if retValid =? ECOMMUNITY_BGPSEC_INVALID then set SRx_RESULT_INVALID
    else if retValid =? ECOMMUNITY_BGPSEC_UNDEFINED then set SRx_RESULT_UNDEFINED
    else Ok defResult
  else Ok defResult.
Definition default_results (v : SRxResult) info : bgp_info :=
  let use d old := if negb (d =? SRx_RESULT_DONOTUSE) then d else old in
  with_results info (mkSRxResult (use (roaResult v) (val_res_ROA info)) (use (bgpsecResult v) (val_res_BGPSEC info))
                       (use (aspaResult v) (val_res_ASPA info))).

(** The packet [verifyUpdate] sends for a route with the attribute [a] on the node [n]. *)
Definition request_packet (b : bgp) (p : peer) (n : bgp_node) (a : attr) (localID : Z) (defResult : SRxDefaultResult)
    : outcome (list Z) :=
  oas ← aspath_origin_as (aspath a);
  asPathList ← path_list (relationship (peer_flags p)) (aspath a);
  bgpsec ← srx_create_bgpsec_data b (peer_local_as p) a;
  ProxyApi.verifyUpdate localID (CHECK_FLAG (srx_config b) SRX_CONFIG_EVAL_ORIGIN)
    (CHECK_FLAG (srx_config b) SRX_CONFIG_EVAL_PATH_DISTR) (CHECK_FLAG (srx_config b) SRX_CONFIG_EVAL_ASPA)
    defResult (prefix_to_IPPrefix n) oas (Some bgpsec) asPathList.
Definition verify_packet r info (defResult : SRxDefaultResult) : outcome (list Z) :=
  p ← deref (peers r) (info_peer info);
  n ← (match node info with None => Fault NullDeref | Some rn => get_node r rn end);
  request_packet (r_bgp r) p n (info_attr info) (localID info) defResult.
Definition verify_update r (i : positive) (defResult : SRxDefaultResult) (doRegisterLocalID : bool) : outcome (router H) :=
  info ← get_info r i;
  defResult ← community_result (r_bgp r) (info_attr info) defResult;
  let r := put_info r i (default_results (result defResult) info) in
  r ← (if (0 <? localID info) && doRegisterLocalID then '(r, _) ← bgp_info_register r LidHash i (localID info); Ok r else Ok r);
  info ← get_info r i;
  r ← (if isConnected (srxProxy (r_bgp r)) && (negb (localID info =? 0) || negb (updateID info =? 0)) then
         packet ← verify_packet r info defResult; Ok (set_sent r (sent r ++ [packet]))
       else Ok r);
  '(r, _) ← bgp_info_set_ignore_flag r i;
  Ok r.

(** ** The answers of the server (bgpd.c) *)

(** The path validation of the router itself. *)
Definition local_bgpsec r (a : attr) (valType bgpsecResult : Z) : Z * Z :=
  if negb (CHECK_FLAG (srx_config (r_bgp r)) SRX_CONFIG_EVAL_PATH_DISTR) then
    (Z.lor valType VRT_BGPSEC,
     match bgpsec_validationData a with
     | Some vd =>
         if srxCAPI r then if local_validate vd =? API_VALRESULT_VALID then SRx_RESULT_VALID else SRx_RESULT_INVALID
         else bgpsecResult
     | None => bgpsecResult
     end)
  else (valType, bgpsecResult).
Definition handleSRxValidationResult r (updateID localID valType roa sec aspa : Z) : outcome (router H * bool) :=
  let unknown r := r ← proxy_deleteUpdate r updateID; Ok (r, false) in
  if negb (localID =? 0) then
    found ← bgp_info_fetch r LidHash localID;
    match found with
    | Some i =>
        r ← update_info r i (fun info => with_ids info updateID (RouterTable.localID info));
        '(r, _) ← bgp_info_register r UidHash i updateID;
        let r := bgp_info_unregister r LidHash localID in
        r ← update_info r i (fun info => with_ids info (RouterTable.updateID info) 0);
        info ← get_info r i;
        let '(valType, sec) := local_bgpsec r (info_attr info) valType sec in
        r ← bgp_info_set_validation_result r i valType roa sec aspa;
        Ok (r, true)
    | None => unknown r
    end
  else
    found ← bgp_info_fetch r UidHash updateID;
    match found with
    | Some i => r ← bgp_info_set_validation_result r i valType roa sec aspa; Ok (r, true)
    | None => unknown r
    end.

(** The first route of every node is verified again. *)
Definition router_result info : SRxDefaultResult :=
  mkSRxDefaultResult SRxRS_ROUTER SRxRS_ROUTER SRxRS_ROUTER (getInfoToSrxVal info).
Fixpoint _handleSRxSynchRequest_processTable r (rns : list positive) : outcome (router H) :=
  match rns with
  | [] => Ok r
  | rn :: rns =>
      n ← get_node r rn;
      r ← (match n_info n with
           | [] => Ok r
           | i :: _ => binfo ← get_info r i; verify_update r i (router_result binfo) false
           end);
      _handleSRxSynchRequest_processTable r rns
  end.
Definition handleSRxSynchRequest r : outcome (router H) :=
  r ← _handleSRxSynchRequest_processTable r (rib_multicast r);
  _handleSRxSynchRequest_processTable r (rib_unicast r).

(** ** Updates and withdrawals of the peers *)
Fixpoint find_route r (pr : positive) (ty sub : Z) (l : list positive) : outcome (option positive) :=
  match l with
  | [] => Ok None
  | i :: l =>
      ri ← get_info r i;
      if bool_decide (info_peer ri = pr) && (type ri =? ty) && (sub_type ri =? sub) then Ok (Some i) else find_route r pr ty sub l
  end.

Definition extra_cmp (e1 e2 : option attr_extra) : bool :=
  match e1, e2 with
  | Some ae1, Some ae2 =>
      (weight ae1 =? weight ae2) && bool_decide (extra_rest ae1 = extra_rest ae2)
      && match ecom ae1, ecom ae2 with
         | None, None => true
         | Some c1, Some c2 => Bool.eqb (ec_str c1) (ec_str c2) && bool_decide (ec_val c1 = ec_val c2)
         | _, _ => false
         end
      && bool_decide (cluster ae1 = cluster ae2)
  | None, None => true
  | _, _ => false
  end.
(** Shared members are compared by their addresses in the code; they are interned, so
    equal members have equal addresses. *)
Definition attrhash_cmp (a1 a2 : attr) : bool :=
  (attr_flag a1 =? attr_flag a2) && (origin a1 =? origin a2) && bool_decide (aspath a1 = aspath a2) && (med a1 =? med a2)
  && (local_pref a1 =? local_pref a2) && bool_decide (attr_rest a1 = attr_rest a2) && extra_cmp (extra a1) (extra a2).

(** [reachable] is the result of [bgp_nexthop_lookup], which is asked for some sessions
    only. *)
Definition nexthop_checked (p : peer) (t : bgp_table) : bool :=
  ((afi t =? AFI_IP) || (afi t =? AFI_IP6)) && (safi t =? SAFI_UNICAST)
  && ((sort p =? BGP_PEER_IBGP) || (sort p =? BGP_PEER_CONFED) || ((sort p =? BGP_PEER_EBGP) && negb (ttl p =? 1))
      || CHECK_FLAG (peer_flags p) PEER_FLAG_DISABLE_CONNECTED_CHECK).
Definition set_reachable r (rn i : positive) (p : peer) (reachable : bool) : outcome (router H) :=
  n ← get_node r rn;
  if nexthop_checked p (n_table n) && negb reachable then bgp_info_unset_flag r (Some rn) i BGP_INFO_VALID
  else bgp_info_set_flag r (Some rn) i BGP_INFO_VALID.

Definition configured_result (b : bgp) : SRxDefaultResult :=
  mkSRxDefaultResult SRxRS_ROUTER SRxRS_ROUTER SRxRS_ROUTER
    (mkSRxResult (srx_default_roaVal b) (srx_default_bgpsecVal b) (srx_default_aspaVal b)).

(** The validation of the former attributes ends: the route leaves the table of its
    identifier ([localID == 0] where [localID] is meant), and the ASPA result stays. *)
Definition forget_validation r (ri : positive) : outcome (router H) :=
  info ← get_info r ri;
  match info_hash info with
  | None => Ok r
  | Some h =>
      let r := bgp_info_unregister r h (if negb (localID info =? 0) then if localID info =? 0 then 1 else 0 else updateID info) in
      r ← update_info r ri (fun info => with_hash info None);
      r ← (if 0 <? updateID info then
             r ← proxy_deleteUpdate r (updateID info);
             update_info r ri (fun info => with_ids info 0 (localID info))
           else update_info r ri (fun info => with_ids info (updateID info) 0));
      update_info r ri (fun info => with_results info
        (mkSRxResult (srx_default_roaVal (r_bgp r)) (srx_default_bgpsecVal (r_bgp r)) (val_res_ASPA info)))
  end.

Definition update_duplicate r (rn ri : positive) : outcome (router H) :=
  r ← bgp_info_unset_flag r (Some rn) ri BGP_INFO_ATTR_CHANGED;
  info ← get_info r ri;
  if CHECK_FLAG (flags info) BGP_INFO_STALE then
    r ← bgp_info_unset_flag r (Some rn) ri BGP_INFO_STALE; bgp_process r rn
  else Ok r.
Definition update_changed r (rn ri : positive) (p : peer) (attr_new : attr) (reachable : bool) : outcome (router H) :=
  info ← get_info r ri;
  r ← (if CHECK_FLAG (flags info) BGP_INFO_REMOVED then bgp_info_restore r rn ri else Ok r);
  info ← get_info r ri;
  r ← (if CHECK_FLAG (flags info) BGP_INFO_STALE then bgp_info_unset_flag r (Some rn) ri BGP_INFO_STALE else Ok r);
  r ← bgp_info_set_flag r (Some rn) ri BGP_INFO_ATTR_CHANGED;
  r ← update_info r ri (fun info => with_attr info attr_new);
  r ← forget_validation r ri;
  r ← set_reachable r rn ri p reachable;
  let '(r, id) := getNextLocalID r in
  r ← update_info r ri (fun info => with_ids info (updateID info) id);
  r ← verify_update r ri (configured_result (r_bgp r)) true;
  bgp_process r rn.
(** The new route is not counted before it has its flags; it is added to the node
    afterwards. *)
Definition update_new r (rn pr : positive) (p : peer) (ty sub : Z) (attr_new : attr) (reachable : bool) : outcome (router H) :=
  let i := fresh (dom (infos r)) in
  let r := put_info r i (bgp_info_new pr ty sub attr_new) in
  r ← set_reachable r rn i p reachable;
  r ← bgp_info_add r rn i;
  let '(r, id) := getNextLocalID r in
  r ← update_info r i (fun info => with_ids info (updateID info) id);
  r ← update_info r i (fun info => with_results info (result (configured_result (r_bgp r))));
  r ← verify_update r i (configured_result (r_bgp r)) true;
  bgp_process r rn.
(** [bgp_update_main] for an update that passes the filters. *)
Definition bgp_update_main r (rn pr : positive) (ty sub : Z) (attr_new : attr) (reachable : bool) : outcome (router H) :=
  p ← deref (peers r) pr;
  n ← get_node r rn;
  ri ← find_route r pr ty sub (n_info n);
  match ri with
  | Some ri =>
      info ← get_info r ri;
      if negb (CHECK_FLAG (flags info) BGP_INFO_REMOVED) && attrhash_cmp (info_attr info) attr_new then update_duplicate r rn ri
      else update_changed r rn ri p attr_new reachable
  | None => update_new r rn pr p ty sub attr_new reachable
  end.

Definition bgp_rib_remove r (rn ri : positive) : outcome (router H) :=
  info ← get_info r ri;
  r ← (if negb (CHECK_FLAG (flags info) BGP_INFO_HISTORY) then bgp_info_delete r rn ri else Ok r);
  bgp_process r rn.
Definition bgp_withdraw r (rn pr : positive) (ty sub : Z) : outcome (router H) :=
  n ← get_node r rn;
  ri ← find_route r pr ty sub (n_info n);
  match ri with
  | Some ri =>
      info ← get_info r ri;
      if negb (CHECK_FLAG (flags info) BGP_INFO_HISTORY) then bgp_rib_remove r rn ri else Ok r
  | None => Ok r
  end.
End router.
End RouterTable.
