(* ===== verification/RouterDecision.v ===== *)
(** * The decision process of the router (quagga-srx/bgpd/bgp_route.c)

    How the validation results enter the choice among the routes of a prefix: the
    policies for the local preference, the comparison of two routes, the selection of
    the best one and the processing of a node.  Only one path is used
    ([maximum-paths 1]), so the list of equal paths stays empty and the functions of
    bgp_mpath.c change nothing. *)
From S2P Require Import Prelude Lists Bytes SrxDefs UtHash UpdateCache HashMessage.
From S2P Require Import RouterConfig RouterAsPath RouterTable.

Module RouterDecision.
Import RouterConfig RouterAsPath RouterTable.

Definition BGP_FLAG_ALWAYS_COMPARE_MED : Z := 2 ^ 0.
Definition BGP_FLAG_DETERMINISTIC_MED : Z := 2 ^ 1.
Definition BGP_FLAG_MED_MISSING_AS_WORST : Z := 2 ^ 2.
Definition BGP_FLAG_MED_CONFED : Z := 2 ^ 3.
Definition BGP_FLAG_COMPARE_ROUTER_ID : Z := 2 ^ 7.
Definition BGP_FLAG_ASPATH_IGNORE : Z := 2 ^ 8.
Definition BGP_FLAG_ASPATH_CONFED : Z := 2 ^ 13.
Definition BGP_ATTR_MULTI_EXIT_DISC : Z := 4.
Definition BGP_ATTR_LOCAL_PREF : Z := 5.
Definition BGP_ATTR_ORIGINATOR_ID : Z := 9.
Definition BGP_ATTR_CLUSTER_LIST : Z := 10.
Definition ATTR_FLAG_BIT (x : Z) : Z := Z.shiftl 1 (x - 1).
Definition BGP_MED_MAX : Z := 2 ^ 32 - 1.

Definition srx_use_evaluation (b : bgp) : bool :=
  srx_config_check b SRX_CONFIG_EVAL_ORIGIN || srx_config_check b SRX_CONFIG_EVAL_PATH || srx_config_check b SRX_CONFIG_EVAL_ASPA.
Definition bgp_flag_check (b : bgp) (flag : Z) : bool := CHECK_FLAG (bgp_flags b) flag.

Definition bgp_med_value (a : attr) (b : bgp) : Z :=
  if CHECK_FLAG (attr_flag a) (ATTR_FLAG_BIT BGP_ATTR_MULTI_EXIT_DISC) then med a
  else if bgp_flag_check b BGP_FLAG_MED_MISSING_AS_WORST then BGP_MED_MAX else 0.

(** ** The policies for the local preference *)

(** The two sums have 32 bits and stop at the largest number. *)
Definition _srx_policy_getLocPrevValue (p : srx_local_pref) (incdec : Z * Z) : Z * Z :=
  let '(prevInc, prevDec) := incdec in
  if lp_enable p then
    let incVal := if lp_add p then u32 (prevInc + lp_value p) else prevInc in
    let decVal := if lp_add p then prevDec else u32 (prevDec + lp_value p) in
    (if incVal <? prevInc then 0xFFFFFFFF else incVal, if decVal <? prevDec then 0xFFFFFFFF else decVal)
  else incdec.

(** The index of a result in the array of its type; a result without one is only
    reported. *)
Definition roa_index (res : Z) : option Z :=
  if res =? SRx_RESULT_VALID then Some VAL_LOCPRF_VALID
  else if res =? SRx_RESULT_NOTFOUND then Some VAL_LOCPRF_NOTFOUND
  else if res =? SRx_RESULT_INVALID then Some VAL_LOCPRF_INVALID
  else if res =? SRx_RESULT_UNDEFINED then Some VAL_LOCPRF_UNDEFINED else None.
Definition bgpsec_index (res : Z) : option Z :=
  if res =? SRx_RESULT_VALID then Some VAL_LOCPRF_VALID
  else if res =? SRx_RESULT_INVALID then Some VAL_LOCPRF_INVALID
  else if res =? SRx_RESULT_UNDEFINED then Some VAL_LOCPRF_UNDEFINED else None.
Definition aspa_index (res : Z) : option Z :=
  if res =? SRx_RESULT_VALID then Some VAL_LOCPRF_VALID
  else if res =? SRx_RESULT_UNKNOWN then Some VAL_LOCPRF_UNKNOWN
  else if res =? SRx_RESULT_INVALID then Some VAL_LOCPRF_INVALID
  else if res =? SRx_RESULT_UNVERIFIABLE then Some VAL_LOCPRF_UNVERIFIABLE
  else if res =? SRx_RESULT_UNDEFINED then Some VAL_LOCPRF_UNDEFINED else None.
Definition apply_policy (on : bool) (l : list srx_local_pref) (idx : option Z) (incdec : Z * Z) : outcome (Z * Z) :=
  match idx with
  | Some i => if on then p ← arr_get l (Z.to_nat i); Ok (_srx_policy_getLocPrevValue p incdec) else Ok incdec
  | None => Ok incdec
  end.
Definition srx_calc_loc_prev_delta_value (b : bgp) (v : SRxResult) : outcome (bool * Z) :=
  s ← apply_policy (CHECK_FLAG (srx_config b) SRX_CONFIG_EVAL_ORIGIN) (srx_loc_pref_roa b) (roa_index (roaResult v)) (0, 0);
  s ← apply_policy (CHECK_FLAG (srx_config b) SRX_CONFIG_EVAL_PATH) (srx_loc_pref_bgpsec b) (bgpsec_index (bgpsecResult v)) s;
  '(incVal, decVal) ← apply_policy (CHECK_FLAG (srx_config b) SRX_CONFIG_EVAL_ASPA) (srx_loc_pref_aspa b) (aspa_index (aspaResult v)) s;
  let doAdd := decVal <=? incVal in
  Ok (doAdd, if doAdd then incVal - decVal else decVal - incVal).

Definition _srx_is_localPrefEnabled (b : bgp) (validationType : Z) : bool :=
  let any maxIdx l := existsb lp_enable (take (Z.to_nat maxIdx) l) in
  if validationType =? LOCPRF_TYPE_ROA then any VAL_LOCPRF_CT_ROA (srx_loc_pref_roa b)
  else if validationType =? LOCPRF_TYPE_BGPSEC then any VAL_LOCPRF_CT_BGPSEC (srx_loc_pref_bgpsec b)
  else if validationType =? LOCPRF_TYPE_ASPA then any VAL_LOCPRF_CT_ASPA (srx_loc_pref_aspa b)
  else false.
(** The last check looks at the policies of BGPsec, not at those of ASPA. *)
Definition isSetPrefPolicy (b : bgp) : bool :=
  let doValidation := if CHECK_FLAG (srx_config b) SRX_CONFIG_EVAL_ORIGIN then _srx_is_localPrefEnabled b LOCPRF_TYPE_ROA else false in
  let doValidation := if negb doValidation && CHECK_FLAG (srx_config b) SRX_CONFIG_EVAL_PATH
                      then _srx_is_localPrefEnabled b LOCPRF_TYPE_BGPSEC else doValidation in
  if negb doValidation && CHECK_FLAG (srx_config b) SRX_CONFIG_EVAL_ASPA
  then _srx_is_localPrefEnabled b LOCPRF_TYPE_BGPSEC else doValidation.

Definition _srx_combine_local_preference (locPref delta : Z) (add : bool) : Z :=
  if add then if u32 (locPref + delta) <? locPref then 0xFFFFFFFF else locPref + delta
  else if locPref <? u32 (locPref - delta) then 0 else locPref - delta.

(** ** Comparing two routes *)

(** A criterion: the larger (the smaller) value wins, equal ones go on. *)
Definition more (new existing : Z) (otherwise : outcome bool) : outcome bool :=
  if existing <? new then Ok true else if new <? existing then Ok false else otherwise.
Definition less (new existing : Z) (otherwise : outcome bool) : outcome bool :=
  if new <? existing then Ok true else if existing <? new then Ok false else otherwise.

Definition sockunion_cmp (su1 su2 : sockunion) : Z :=
  if sa_family su2 <? sa_family su1 then 1
  else if sa_family su1 <? sa_family su2 then -1
  else if (sa_family su1 =? 2) || (sa_family su1 =? 10) then
    let c := memcmp (sa_addr su1) (sa_addr su2) in if c =? 0 then 0 else if 0 <? c then 1 else -1
  else 0.

Definition route_weight (a : attr) : Z := match extra a with Some e => weight e | None => 0 end.
Definition route_pref (b : bgp) (a : attr) : Z :=
  if CHECK_FLAG (attr_flag a) (ATTR_FLAG_BIT BGP_ATTR_LOCAL_PREF) then local_pref a else default_local_pref b.
(** The local preference with the policies for the validation results. *)
Definition validated_pref (b : bgp) (info : bgp_info) : outcome Z :=
  let pref := route_pref b (info_attr info) in
  if srx_use_evaluation b && isSetPrefPolicy b then
    '(doAdd, delta) ← srx_calc_loc_prev_delta_value b (getInfoToSrxVal info);
    Ok (_srx_combine_local_preference pref delta doAdd)
  else Ok pref.

(** The members a criterion reads behind a flag of the attribute; the flag without the
    extra attributes is a NULL pointer. *)
Definition router_id_of (a : attr) (p : peer) : outcome Z :=
  if CHECK_FLAG (attr_flag a) (ATTR_FLAG_BIT BGP_ATTR_ORIGINATOR_ID) then
    match extra a with Some e => Ok (originator_id e) | None => Fault NullDeref end
  else Ok (remote_id p).
Definition cluster_length (a : attr) : outcome Z :=
  if CHECK_FLAG (attr_flag a) (ATTR_FLAG_BIT BGP_ATTR_CLUSTER_LIST) then
    match extra a with Some e => match cluster e with Some n => Ok n | None => Fault NullDeref end | None => Fault NullDeref end
  else Ok 0.
Definition segments_of (a : attr) : outcome (list assegment) := match aspath a with Some l => Ok l | None => Fault NullDeref end.

Section decision.
Context {H : Type} `{UTHash H} `{LocalCrypto}.
Implicit Types (r : router H).

(** Steps 10 to 13 *)
Definition cmp_ids r (new existing : bgp_info) (newp existp : peer) : outcome bool :=
  let ids :=
    new_id ← router_id_of (info_attr new) newp;
    exist_id ← router_id_of (info_attr existing) existp;
    less (ntohl new_id) (ntohl exist_id)
      (new_cluster ← cluster_length (info_attr new);
       exist_cluster ← cluster_length (info_attr existing);
       less new_cluster exist_cluster
         (Ok (negb (sockunion_cmp (su_remote newp) (su_remote existp) =? 1)))) in
  if negb (bgp_flag_check (r_bgp r) BGP_FLAG_COMPARE_ROUTER_ID) && (sort newp =? BGP_PEER_EBGP) && (sort existp =? BGP_PEER_EBGP) then
    if CHECK_FLAG (flags new) BGP_INFO_SELECTED then Ok true
    else if CHECK_FLAG (flags existing) BGP_INFO_SELECTED then Ok false
    else ids
  else ids.
(** Steps 7 to 9 *)
Definition cmp_peers r (new existing : bgp_info) : outcome bool :=
  newp ← deref (peers r) (info_peer new);
  existp ← deref (peers r) (info_peer existing);
  if (sort newp =? BGP_PEER_EBGP) && ((sort existp =? BGP_PEER_IBGP) || (sort existp =? BGP_PEER_CONFED)) then Ok true
  else if (sort existp =? BGP_PEER_EBGP) && ((sort newp =? BGP_PEER_IBGP) || (sort newp =? BGP_PEER_CONFED)) then Ok false
  else less (default 0 (igpmetric new)) (default 0 (igpmetric existing)) (cmp_ids r new existing newp existp).
(** Steps 4 to 6 *)
Definition cmp_paths r (new existing : bgp_info) : outcome bool :=
  let b := r_bgp r in
  newpath ← segments_of (info_attr new);
  existpath ← segments_of (info_attr existing);
  let hops := aspath_count_hops in let confeds := aspath_count_confeds in
  let len path := if bgp_flag_check b BGP_FLAG_ASPATH_CONFED then hops path + confeds path else hops path in
  let meds :=
    let internal_as_route := (hops newpath =? 0) && (hops existpath =? 0) in
    let confed_as_route := (0 <? confeds newpath) && (0 <? confeds existpath) && internal_as_route in
    left ← aspath_cmp_left newpath existpath;
    left_confed ← aspath_cmp_left_confed newpath existpath;
    if bgp_flag_check b BGP_FLAG_ALWAYS_COMPARE_MED || (bgp_flag_check b BGP_FLAG_MED_CONFED && confed_as_route)
       || left || left_confed || internal_as_route then
      less (bgp_med_value (info_attr new) b) (bgp_med_value (info_attr existing) b) (cmp_peers r new existing)
    else cmp_peers r new existing in
  let origins := less (origin (info_attr new)) (origin (info_attr existing)) meds in
  if negb (bgp_flag_check b BGP_FLAG_ASPATH_IGNORE) then less (len newpath) (len existpath) origins else origins.
Definition bgp_info_cmp r (new : bgp_info) (existing : option bgp_info) : outcome bool :=
  match existing with
  | None => Ok true
  | Some existing =>
      let b := r_bgp r in
      if srx_use_evaluation b && CHECK_FLAG (flags new) BGP_INFO_IGNORE then Ok false
      else
        more (route_weight (info_attr new)) (route_weight (info_attr existing))
          (new_pref ← validated_pref b new;
           exist_pref ← validated_pref b existing;
           more new_pref exist_pref
             (if negb (sub_type new =? BGP_ROUTE_NORMAL) then Ok true
              else if negb (sub_type existing =? BGP_ROUTE_NORMAL) then Ok false
              else cmp_paths r new existing))
  end.

(** ** Selecting the best route of a node *)

(** [deterministic-med]: the routes behind [ri1] with its neighbor AS. *)
Fixpoint dmed_group r (rn ri1 new_select : positive) (l : list positive) : outcome (router H * positive) :=
  match l with
  | [] => Ok (r, new_select)
  | ri2 :: l =>
      i2 ← get_info r ri2;
      if CHECK_FLAG (flags i2) BGP_INFO_DMED_CHECK || BGP_INFO_HOLDDOWN i2 then dmed_group r rn ri1 new_select l
      else
        i1 ← get_info r ri1;
        path1 ← segments_of (info_attr i1);
        path2 ← segments_of (info_attr i2);
        left ← aspath_cmp_left path1 path2;
        left_confed ← aspath_cmp_left_confed path1 path2;
        if left || left_confed then
          s ← get_info r new_select;
          better ← bgp_info_cmp r i2 (Some s);
          r ← (if better : bool then bgp_info_unset_flag r (Some rn) new_select BGP_INFO_DMED_SELECTED else Ok r);
          let new_select := if better : bool then ri2 else new_select in
          r ← bgp_info_set_flag r (Some rn) ri2 BGP_INFO_DMED_CHECK;
          dmed_group r rn ri1 new_select l
        else dmed_group r rn ri1 new_select l
  end.
Fixpoint dmed_groups r (rn : positive) (l : list positive) : outcome (router H) :=
  match l with
  | [] => Ok r
  | ri1 :: l =>
      i1 ← get_info r ri1;
      if CHECK_FLAG (flags i1) BGP_INFO_DMED_CHECK || BGP_INFO_HOLDDOWN i1 then dmed_groups r rn l
      else
        '(r, new_select) ← dmed_group r rn ri1 ri1 l;
        r ← bgp_info_set_flag r (Some rn) new_select BGP_INFO_DMED_CHECK;
        r ← bgp_info_set_flag r (Some rn) new_select BGP_INFO_DMED_SELECTED;
        dmed_groups r rn l
  end.

(** The loop over the routes; the next one is read before a route is reaped. *)
Fixpoint select_loop r (rn : positive) (old_select new_select : option positive) (l : list positive)
    : outcome (router H * option positive * option positive) :=
  match l with
  | [] => Ok (r, old_select, new_select)
  | ri :: l =>
      info ← get_info r ri;
      let old_select := if CHECK_FLAG (flags info) BGP_INFO_SELECTED then Some ri else old_select in
      if BGP_INFO_HOLDDOWN info then
        r ← (if CHECK_FLAG (flags info) BGP_INFO_REMOVED && negb (bool_decide (Some ri = old_select)) then bgp_info_reap r rn ri else Ok r);
        select_loop r rn old_select new_select l
      else if bgp_flag_check (r_bgp r) BGP_FLAG_DETERMINISTIC_MED && negb (CHECK_FLAG (flags info) BGP_INFO_DMED_SELECTED) then
        r ← bgp_info_unset_flag r (Some rn) ri BGP_INFO_DMED_CHECK;
        select_loop r rn old_select new_select l
      else
        r ← bgp_info_unset_flag r (Some rn) ri BGP_INFO_DMED_CHECK;
        r ← bgp_info_unset_flag r (Some rn) ri BGP_INFO_DMED_SELECTED;
        info ← get_info r ri;
        existing ← (match new_select with Some s => Some <$> get_info r s | None => Ok None end);
        better ← bgp_info_cmp r info existing;
        select_loop r rn old_select (if better : bool then Some ri else new_select) l
  end.
Definition bgp_best_selection r (rn : positive) : outcome (router H * option positive * option positive) :=
  n ← get_node r rn;
  r ← (if bgp_flag_check (r_bgp r) BGP_FLAG_DETERMINISTIC_MED then dmed_groups r rn (n_info n) else Ok r);
  select_loop r rn None None (n_info n).

(** ** Processing a node *)
Definition unschedule r (rn : positive) : outcome (router H) := n ← get_node r rn; Ok (put_node r rn (with_scheduled n false)).
Definition mark_selected r (rn : positive) (old_select new_select : option positive) : outcome (router H) :=
  r ← (match old_select with Some i => bgp_info_unset_flag r (Some rn) i BGP_INFO_SELECTED | None => Ok r end);
  match new_select with
  | Some i =>
      r ← bgp_info_set_flag r (Some rn) i BGP_INFO_SELECTED;
      r ← bgp_info_unset_flag r (Some rn) i BGP_INFO_ATTR_CHANGED;
      update_info r i (fun info => with_flags info (u16 (UNSET_FLAG (flags info) BGP_INFO_MULTIPATH_CHG)))
  | None => Ok r
  end.
Definition is_bgp_route info : bool := (type info =? ZEBRA_ROUTE_BGP) && (sub_type info =? BGP_ROUTE_NORMAL).
Definition update_fib r (rn : positive) (old_select new_select : option positive) : outcome (router H) :=
  n ← get_node r rn;
  if ((safi (n_table n) =? SAFI_UNICAST) || (safi (n_table n) =? SAFI_MULTICAST)) && fib r then
    installed ← (match new_select with Some i => info ← get_info r i; Ok (is_bgp_route info) | None => Ok false end);
    match new_select, old_select, installed with
    | Some i, _, true => Ok (put r (ZebraAnnounce rn i))
    | _, Some o, _ => info ← get_info r o; Ok (if is_bgp_route info then put r (ZebraWithdraw rn o) else r)
    | _, None, _ => Ok r
    end
  else Ok r.
Definition bgp_process_main r (rn : positive) : outcome (router H) :=
  '(r, old_select, new_select) ← bgp_best_selection r rn;
  same ← (match old_select with
          | Some o => info ← get_info r o;
                      Ok (bool_decide (old_select = new_select) && negb (CHECK_FLAG (flags info) BGP_INFO_ATTR_CHANGED))
          | None => Ok false
          end);
  match old_select, same with
  | Some o, true =>
      info ← get_info r o;
      let r := if CHECK_FLAG (flags info) BGP_INFO_IGP_CHANGED || CHECK_FLAG (flags info) BGP_INFO_MULTIPATH_CHG
               then put r (ZebraAnnounce rn o) else r in
      r ← update_info r o (fun info => with_flags info (u16 (UNSET_FLAG (flags info) BGP_INFO_MULTIPATH_CHG)));
      unschedule r rn
  | _, _ =>
      r ← mark_selected r rn old_select new_select;
      r ← update_fib (put r (Announce rn new_select)) rn old_select new_select;
      r ← (match old_select with
           | Some o => info ← get_info r o; if CHECK_FLAG (flags info) BGP_INFO_REMOVED then bgp_info_reap r rn o else Ok r
           | None => Ok r
           end);
      unschedule r rn
  end.
(** One item of the work queue. *)
Definition process_next r : outcome (router H) :=
  match process_main_queue r with
  | [] => Ok r
  | rn :: q => bgp_process_main (set_queues r q (process_rsclient_queue r)) rn
  end.
End decision.

(** ** The local preference after validation

    The policies that apply to the results of a route add and subtract; both sums and
    the result stop at the ends of the 32-bit range. *)
Definition max32 : Z := 0xFFFFFFFF.
Definition policy_at (on : bool) (l : list srx_local_pref) (idx : option Z) : list srx_local_pref :=
  match idx with Some i => if on then option_list (l !! Z.to_nat i) else [] | None => [] end.
Definition policies (b : bgp) (v : SRxResult) : list srx_local_pref :=
  policy_at (CHECK_FLAG (srx_config b) SRX_CONFIG_EVAL_ORIGIN) (srx_loc_pref_roa b) (roa_index (roaResult v))
  ++ policy_at (CHECK_FLAG (srx_config b) SRX_CONFIG_EVAL_PATH) (srx_loc_pref_bgpsec b) (bgpsec_index (bgpsecResult v))
  ++ policy_at (CHECK_FLAG (srx_config b) SRX_CONFIG_EVAL_ASPA) (srx_loc_pref_aspa b) (aspa_index (aspaResult v)).
Definition added (p : srx_local_pref) : Z := if lp_enable p && lp_add p then lp_value p else 0.
Definition subtracted (p : srx_local_pref) : Z := if lp_enable p && negb (lp_add p) then lp_value p else 0.
Definition clamp (x : Z) : Z := Z.max 0 (Z.min max32 x).
Definition vpref (b : bgp) (info : bgp_info) : Z :=
  let pref := route_pref b (info_attr info) in
  let ps := policies b (getInfoToSrxVal info) in
  if srx_use_evaluation b && isSetPrefPolicy b
  then clamp (pref + Z.min max32 (zsum added ps) - Z.min max32 (zsum subtracted ps)) else pref.

Lemma sat_add a x : in_u 32 a -> in_u 32 x -> (if u32 (a + x) <? a then max32 else u32 (a + x)) = Z.min max32 (a + x).
Proof.
  unfold in_u, wrap, max32. intros Ha Hx. destruct (decide (a + x < 2 ^ 32)).
  - rewrite Z.mod_small by lia. destruct (Z.ltb_spec (a + x) a); lia.
  - replace ((a + x) mod 2 ^ 32) with (a + x - 2 ^ 32) by (apply (Z.mod_unique _ _ 1); lia).
    destruct (Z.ltb_spec (a + x - 2 ^ 32) a); lia.
Qed.

(** Both sums so far. *)
Definition sums (ps : list srx_local_pref) : Z * Z := (Z.min max32 (zsum added ps), Z.min max32 (zsum subtracted ps)).
Definition values_ok (ps : list srx_local_pref) : Prop := Forall (fun p => in_u 32 (lp_value p)) ps.
Lemma sums_in_u ps : values_ok ps -> 0 <= zsum added ps /\ 0 <= zsum subtracted ps.
Proof.
  intros Hv. unfold values_ok in Hv. rewrite Forall_forall in Hv. split; apply zsum_nonneg; intros p Hp; specialize (Hv p Hp); unfold in_u in Hv;
    unfold added, subtracted; case_match; lia.
Qed.
Lemma getLocPrevValue_sums ps p : values_ok (ps ++ [p]) -> _srx_policy_getLocPrevValue p (sums ps) = sums (ps ++ [p]).
Proof.
  intros Hv. pose proof Hv as [Hv1 [Hp _]%Forall_cons]%Forall_app. destruct (sums_in_u ps Hv1) as [H1 H2].
  unfold _srx_policy_getLocPrevValue, sums. rewrite !zsum_app, !zsum_cons.
  assert (added p = if lp_enable p && lp_add p then lp_value p else 0) as -> by done.
  assert (subtracted p = if lp_enable p && negb (lp_add p) then lp_value p else 0) as -> by done.
  change (zsum added []) with 0. change (zsum subtracted []) with 0.
  destruct (lp_enable p); [|cbn [andb]; f_equal; lia]. destruct (lp_add p); cbn [andb negb].
  - f_equal.
    + rewrite sat_add by (unfold in_u, max32 in *; lia). unfold max32, in_u in *. lia.
    + rewrite Z.ltb_irrefl. lia.
  - f_equal.
    + rewrite Z.ltb_irrefl. lia.
    + rewrite sat_add by (unfold in_u, max32 in *; lia). unfold max32, in_u in *. lia.
Qed.

Lemma apply_policy_sums on l idx ps :
  values_ok ps -> values_ok l -> (forall i, idx = Some i -> (Z.to_nat i < length l)%nat) ->
  apply_policy on l idx (sums ps) = Ok (sums (ps ++ policy_at on l idx)) /\ values_ok (ps ++ policy_at on l idx).
Proof.
  intros Hps Hl Hi. unfold apply_policy, policy_at. destruct idx as [i|]; [|by rewrite app_nil_r].
  destruct on; [|by rewrite app_nil_r]. destruct (lookup_lt_is_Some_2 l _ (Hi i eq_refl)) as [p Hp].
  unfold arr_get. rewrite Hp. cbn [mbind outcome_bind option_list].
  assert (values_ok (ps ++ [p])) as Hv.
  { apply Forall_app. split; [done|]. apply Forall_singleton. unfold values_ok in Hl. rewrite Forall_forall in Hl. apply Hl.
    by apply list_elem_of_lookup_2 in Hp. }
  by rewrite getLocPrevValue_sums.
Qed.

Lemma index_bounds res i :
  (roa_index res = Some i -> 0 <= i < 4) /\ (bgpsec_index res = Some i -> 0 <= i < 3) /\ (aspa_index res = Some i -> 0 <= i < 5).
Proof. unfold roa_index, bgpsec_index, aspa_index. repeat split; repeat case_match; simplify_eq; done. Qed.

Lemma calc_delta_eq b v : cfg_wf b ->
  let inc := Z.min max32 (zsum added (policies b v)) in let dec := Z.min max32 (zsum subtracted (policies b v)) in
  srx_calc_loc_prev_delta_value b v = Ok (dec <=? inc, if dec <=? inc then inc - dec else dec - inc)
  /\ values_ok (policies b v).
Proof.
  intros [_ _ _ Hr Hs Ha Hv]. apply Forall_app in Hv as [Hvr [Hvs Hva]%Forall_app]. unfold srx_calc_loc_prev_delta_value.
  destruct (apply_policy_sums (CHECK_FLAG (srx_config b) SRX_CONFIG_EVAL_ORIGIN) (srx_loc_pref_roa b) (roa_index (roaResult v)) [])
    as [E1 V1]; [constructor|done|intros i Hi; apply (index_bounds (roaResult v) i) in Hi; rewrite Hr; vm_compute (Z.to_nat VAL_LOCPRF_CT_ROA); lia|].
  change (0, 0) with (sums []). rewrite E1. cbn [mbind outcome_bind].
  destruct (apply_policy_sums (CHECK_FLAG (srx_config b) SRX_CONFIG_EVAL_PATH) (srx_loc_pref_bgpsec b) (bgpsec_index (bgpsecResult v)) _ V1)
    as [E2 V2]; [done|intros i Hi; apply (index_bounds (bgpsecResult v) i) in Hi; rewrite Hs; vm_compute (Z.to_nat VAL_LOCPRF_CT_BGPSEC); lia|].
  rewrite E2. cbn [mbind outcome_bind].
  destruct (apply_policy_sums (CHECK_FLAG (srx_config b) SRX_CONFIG_EVAL_ASPA) (srx_loc_pref_aspa b) (aspa_index (aspaResult v)) _ V2)
    as [E3 V3]; [done|intros i Hi; apply (index_bounds (aspaResult v) i) in Hi; rewrite Ha; vm_compute (Z.to_nat VAL_LOCPRF_CT_ASPA); lia|].
  rewrite E3. unfold policies. rewrite <- !app_assoc in *. by split.
Qed.

Lemma combine_eq pref inc dec : in_u 32 pref -> 0 <= inc <= max32 -> 0 <= dec <= max32 ->
  _srx_combine_local_preference pref (if dec <=? inc then inc - dec else dec - inc) (dec <=? inc) = clamp (pref + inc - dec).
Proof.
  unfold in_u. intros Hp Hi Hd. unfold _srx_combine_local_preference, clamp. destruct (Z.leb_spec dec inc).
  - pose proof (sat_add pref (inc - dec)) as Hs. unfold in_u, max32 in *. specialize (Hs Hp ltac:(lia)).
    destruct (u32 (pref + (inc - dec)) <? pref) eqn:E; [lia|]. rewrite (wrap_small 32 (pref + (inc - dec))) in Hs; [lia|].
    unfold in_u. split; [lia|]. apply Z.nle_gt. intros Ho. apply Z.ltb_ge in E. unfold wrap in E.
    rewrite <- (Z.mod_unique (pref + (inc - dec)) (2 ^ 32) 1 (pref + (inc - dec) - 2 ^ 32)) in E by lia. lia.
  - unfold wrap, max32 in *. destruct (decide (dec - inc <= pref)).
    + rewrite Z.mod_small by lia. destruct (Z.ltb_spec pref (pref - (dec - inc))); lia.
    + rewrite <- (Z.mod_unique (pref - (dec - inc)) (2 ^ 32) (-1) (pref - (dec - inc) + 2 ^ 32)) by lia.
      destruct (Z.ltb_spec pref (pref - (dec - inc) + 2 ^ 32)); lia.
Qed.

Lemma validated_pref_eq b info : cfg_wf b -> in_u 32 (route_pref b (info_attr info)) -> validated_pref b info = Ok (vpref b info).
Proof.
  intros Hb Hp. unfold validated_pref, vpref. destruct (_ && _); [|done].
  destruct (calc_delta_eq b (getInfoToSrxVal info) Hb) as [-> Hv]. cbn [mbind outcome_bind].
  destruct (sums_in_u _ Hv) as [H1 H2]. by rewrite combine_eq by first [done|unfold max32; lia].
Qed.

(** The policies are looked at: an origin policy is enabled and origins are
    evaluated, or a BGPsec policy is enabled and paths or ASPA objects are. *)
Definition policy_enabled (l : list srx_local_pref) : Prop := exists p, p ∈ l /\ lp_enable p = true.
Definition policies_apply (b : bgp) : Prop :=
  srx_use_evaluation b = true
  /\ (CHECK_FLAG (srx_config b) SRX_CONFIG_EVAL_ORIGIN = true /\ policy_enabled (srx_loc_pref_roa b)
      \/ (CHECK_FLAG (srx_config b) SRX_CONFIG_EVAL_PATH = true \/ CHECK_FLAG (srx_config b) SRX_CONFIG_EVAL_ASPA = true)
         /\ policy_enabled (srx_loc_pref_bgpsec b)).

Lemma enabled_spec n l : (length l <= n)%nat -> existsb lp_enable (take n l) = true <-> policy_enabled l.
Proof.
  intros Hl. rewrite take_ge by done. rewrite existsb_exists. unfold policy_enabled. setoid_rewrite list_elem_of_In. done.
Qed.
Lemma policies_apply_spec b : cfg_wf b -> srx_use_evaluation b && isSetPrefPolicy b = true <-> policies_apply b.
Proof.
  intros [_ _ _ Hr Hs _ _]. rewrite andb_true_iff. unfold policies_apply.
  rewrite <- (enabled_spec (Z.to_nat VAL_LOCPRF_CT_ROA) (srx_loc_pref_roa b)) by (by rewrite Hr).
  rewrite <- (enabled_spec (Z.to_nat VAL_LOCPRF_CT_BGPSEC) (srx_loc_pref_bgpsec b)) by (by rewrite Hs).
  unfold isSetPrefPolicy, _srx_is_localPrefEnabled. rewrite Z.eqb_refl.
  change (LOCPRF_TYPE_BGPSEC =? LOCPRF_TYPE_ROA) with false. change (LOCPRF_TYPE_BGPSEC =? LOCPRF_TYPE_BGPSEC) with true. cbn iota zeta.
  destruct (existsb _ (take _ (srx_loc_pref_roa b))), (existsb _ (take _ (srx_loc_pref_bgpsec b))),
    (CHECK_FLAG _ SRX_CONFIG_EVAL_ORIGIN), (CHECK_FLAG _ SRX_CONFIG_EVAL_PATH), (CHECK_FLAG _ SRX_CONFIG_EVAL_ASPA); cbn; naive_solver.
Qed.

(** C14  The local preference that enters the comparison is, in a configuration the
    commands produce, the one of the route plus what the policies for its results add,
    less what they subtract: each of the two sums is cut at the largest number, and the
    result at both ends of the 32-bit range, so that no arithmetic wraps around.  The
    policies are looked at when the evaluation of results is in use and an origin policy
    is enabled and origins are evaluated, or a BGPsec policy is enabled and paths or ASPA
    objects are evaluated.  Otherwise the preference is that of the route: policies for
    ASPA results alone have no effect, since the test for them asks for a BGPsec policy. *)
Theorem validated_pref_correct b info : cfg_wf b -> in_u 32 (route_pref b (info_attr info)) ->
  exists pref, validated_pref b info = Ok pref /\ in_u 32 pref
    /\ (policies_apply b -> let ps := policies b (getInfoToSrxVal info) in
         pref = clamp (route_pref b (info_attr info) + Z.min max32 (zsum added ps) - Z.min max32 (zsum subtracted ps)))
    /\ (~ policies_apply b -> pref = route_pref b (info_attr info)).
Proof.
  intros Hb Hp. exists (vpref b info). rewrite validated_pref_eq by done. split; [done|].
  pose proof (policies_apply_spec b Hb) as Ha. unfold vpref. destruct (_ && _).
  - split; [unfold clamp, in_u, max32; lia|]. split; [done|]. intros Hn. by destruct Hn; apply Ha.
  - split; [done|]. split; [|done]. by intros Hy%Ha.
Qed.

(** Policies for the ASPA results alone change nothing. *)
Lemma aspa_policies_unused b info : CHECK_FLAG (srx_config b) SRX_CONFIG_EVAL_ORIGIN = false ->
  existsb lp_enable (take (Z.to_nat VAL_LOCPRF_CT_BGPSEC) (srx_loc_pref_bgpsec b)) = false ->
  validated_pref b info = Ok (route_pref b (info_attr info)).
Proof.
  intros Ho Hs. unfold validated_pref. assert (isSetPrefPolicy b = false) as ->; [|by rewrite andb_false_r].
  unfold isSetPrefPolicy, _srx_is_localPrefEnabled. rewrite Ho. cbn [negb andb Z.eqb LOCPRF_TYPE_BGPSEC LOCPRF_TYPE_ROA]. 
  change (LOCPRF_TYPE_BGPSEC =? LOCPRF_TYPE_ROA) with false. change (LOCPRF_TYPE_BGPSEC =? LOCPRF_TYPE_BGPSEC) with true. cbn iota. rewrite Hs.
  by repeat case_match.
Qed.

(** ** The first two criteria

    Whatever the later criteria say, the route that wins a comparison does not rank
    lower by weight and validated local preference. *)
Record attr_wf (b : bgp) (a : attr) : Prop := mk_attr_wf {
  aw_path : exists path, aspath a = Some path /\ path_wf path;
  aw_originator : CHECK_FLAG (attr_flag a) (ATTR_FLAG_BIT BGP_ATTR_ORIGINATOR_ID) = true -> is_Some (extra a);
  aw_cluster : CHECK_FLAG (attr_flag a) (ATTR_FLAG_BIT BGP_ATTR_CLUSTER_LIST) = true -> is_Some (extra a ≫= cluster);
  aw_pref : in_u 32 (route_pref b a)
}.
Definition rank_le (b : bgp) (i1 i2 : bgp_info) : Prop :=
  route_weight (info_attr i1) < route_weight (info_attr i2)
  \/ route_weight (info_attr i1) = route_weight (info_attr i2) /\ vpref b i1 <= vpref b i2.
#[global] Instance rank_le_dec b i1 i2 : Decision (rank_le b i1 i2).
Proof. unfold rank_le. apply _. Defined.
Lemma rank_le_refl b i : rank_le b i i.
Proof. right. lia. Qed.
Lemma rank_le_trans b i1 i2 i3 : rank_le b i1 i2 -> rank_le b i2 i3 -> rank_le b i1 i3.
Proof. unfold rank_le. lia. Qed.
(** Flags do not matter. *)
Lemma rank_le_flags b i1 i2 f : rank_le b (with_flags i1 f) i2 <-> rank_le b i1 i2.
Proof. done. Qed.
Lemma rank_le_flags_r b i1 i2 f : rank_le b i1 (with_flags i2 f) <-> rank_le b i1 i2.
Proof. done. Qed.

Definition total (m : outcome bool) : Prop := exists x, m = Ok x.
Lemma less_total x y m : total m -> total (less x y m).
Proof. unfold less, total. intros Hm. repeat case_match; eauto. Qed.
Lemma Ok_total x : total (Ok x).
Proof. by exists x. Qed.

Section ranks.
Context {H : Type}.
Implicit Types (r : router H).

Lemma ids_total r new existing p q : attr_wf (r_bgp r) (info_attr new) -> attr_wf (r_bgp r) (info_attr existing) ->
  total (cmp_ids r new existing p q).
Proof.
  intros [_ Ho1 Hc1 _] [_ Ho2 Hc2 _]. unfold cmp_ids.
  assert (forall a p, (CHECK_FLAG (attr_flag a) (ATTR_FLAG_BIT BGP_ATTR_ORIGINATOR_ID) = true -> is_Some (extra a)) ->
            exists x, router_id_of a p = Ok x) as Hid.
  { intros a p' Ha. unfold router_id_of. destruct (CHECK_FLAG (attr_flag a) _); [|eauto]. destruct (Ha eq_refl) as [e ->]. eauto. }
  assert (forall a, (CHECK_FLAG (attr_flag a) (ATTR_FLAG_BIT BGP_ATTR_CLUSTER_LIST) = true -> is_Some (extra a ≫= cluster)) ->
            exists x, cluster_length a = Ok x) as Hcl.
  { intros a Ha. unfold cluster_length. destruct (CHECK_FLAG (attr_flag a) _); [|eauto]. destruct (Ha eq_refl) as [c Hc].
    destruct (extra a); [|done]. cbn in Hc. rewrite Hc. eauto. }
  destruct (Hid _ p Ho1) as [x1 ->], (Hid _ q Ho2) as [x2 ->], (Hcl _ Hc1) as [c1 ->], (Hcl _ Hc2) as [c2 ->]. simpl_outcome.
  repeat case_match; try apply Ok_total; apply less_total, less_total, Ok_total.
Qed.

Lemma paths_total r new existing :
  attr_wf (r_bgp r) (info_attr new) -> attr_wf (r_bgp r) (info_attr existing) ->
  is_Some (peers r !! info_peer new) -> is_Some (peers r !! info_peer existing) -> total (cmp_paths r new existing).
Proof.
  intros W1 W2 [p Hp] [q Hq]. destruct (aw_path _ _ W1) as (l1 & E1 & L1), (aw_path _ _ W2) as (l2 & E2 & L2).
  assert (total (cmp_peers r new existing)) as Ht.
  { unfold cmp_peers, deref. rewrite Hp, Hq. simpl_outcome. repeat case_match; try apply Ok_total.
    by apply less_total, ids_total. }
  unfold cmp_paths, segments_of. rewrite E1, E2. simpl_outcome. rewrite (cmp_left_eq l1 l2 L1 L2), (cmp_left_confed_eq l1 l2 L1 L2).
  simpl_outcome. repeat (case_match; try apply less_total); done || by repeat apply less_total.
Qed.

(** The outcome of a comparison. *)
Lemma info_cmp_rank r new existing :
  cfg_wf (r_bgp r) -> attr_wf (r_bgp r) (info_attr new) -> attr_wf (r_bgp r) (info_attr existing) ->
  is_Some (peers r !! info_peer new) -> is_Some (peers r !! info_peer existing) -> CHECK_FLAG (flags new) BGP_INFO_IGNORE = false ->
  exists res : bool, bgp_info_cmp r new (Some existing) = Ok res
    /\ if res then rank_le (r_bgp r) existing new else rank_le (r_bgp r) new existing.
Proof.
  intros Hb W1 W2 P1 P2 Hi. unfold bgp_info_cmp. rewrite Hi, andb_false_r.
  rewrite !validated_pref_eq by first [done|apply W1|apply W2]. simpl_outcome. unfold more, rank_le.
  repeat match goal with |- context [?x <? ?y] => destruct (Z.ltb_spec x y) end; try (by eexists; split; [done|]; cbn; lia).
  destruct (paths_total r new existing W1 W2 P1 P2) as [x Hx].
  destruct (negb (sub_type new =? _)); [by eexists; split; [done|]; cbn; lia|].
  destruct (negb (sub_type existing =? _)); [by eexists; split; [done|]; cbn; lia|].
  exists x. split; [done|]. destruct x; lia.
Qed.
End ranks.
End RouterDecision.
