(* ===== verification/RouterState.v ===== *)
(** * The routing table: the operations as changes of the state

    What the operations of RouterTable change: one route, the schedule of a node, a
    table of identifiers.  [ctx] is everything but the routes, the counters, the
    packets and the outputs; [reg] the route an identifier stands for. *)
From S2P Require Import Prelude Lists Bytes SrxDefs UtHash UpdateCache SrxPackets ProxyApi HashMessage.
From S2P Require Import RouterConfig RouterAsPath RouterTable RouterDecision.

Module RouterState.
Import SrxPackets RouterConfig RouterAsPath RouterTable RouterDecision.

(** ** Flags *)
Definition selected info : bool := Z.testbit (flags info) 3.
Definition removed info : bool := Z.testbit (flags info) 9.
Definition ignored info : bool := Z.testbit (flags info) 13.
Definition usable info : bool := negb (BGP_INFO_HOLDDOWN info).

(** [f] has the bits of [g] but for the one that tells whether a route is counted. *)
Definition but_counted (f : Z) (g : Z -> bool) : Prop := forall k, 0 <= k < 16 -> k <> 10 -> Z.testbit f k = g k.

Lemma usable_bits info :
  usable info = Z.testbit (flags info) 4
                && negb (Z.testbit (flags info) 2 || Z.testbit (flags info) 1 || removed info || ignored info).
Proof.
  unfold usable, BGP_INFO_HOLDDOWN, BGP_INFO_UNUSEABLE. rewrite !CHECK_FLAG_lor.
  unfold BGP_INFO_VALID, BGP_INFO_HISTORY, BGP_INFO_DAMPED, BGP_INFO_REMOVED, BGP_INFO_IGNORE.
  rewrite !CHECK_FLAG_bit by lia. rewrite negb_orb, negb_involutive. done.
Qed.
Lemma holddown_usable info : BGP_INFO_HOLDDOWN info = negb (usable info).
Proof. unfold usable. by rewrite negb_involutive. Qed.

Section state.
Context {H : Type} `{UTHashLaws H} `{LocalCrypto}.
Implicit Types (r : router H) (h : hash_id).

(** ** The context of the routes *)
Definition env r := (r_bgp r, srxCAPI r, fib r, peers r, peer_self r, rib_multicast r, rib_unicast r).
Definition ids r := (info_uid_hash r, info_lid_hash r, suiLocalID r).
Definition sched r := (nodes r, process_main_queue r, process_rsclient_queue r).
Definition ctx r := (env r, ids r, sched r).

Lemma ctx_split r r' : ctx r' = ctx r <-> env r' = env r /\ ids r' = ids r /\ sched r' = sched r.
Proof.
  unfold ctx. split; [|by intros (-> & -> & ->)].
  intros E. by rewrite (f_equal (fun x => x.1.1) E : env r' = _), (f_equal (fun x => x.1.2) E : ids r' = _), (f_equal snd E : sched r' = _).
Qed.
Lemma env_fields r r' : env r' = env r -> r_bgp r' = r_bgp r /\ srxCAPI r' = srxCAPI r /\ peers r' = peers r /\ peer_self r' = peer_self r
  /\ fib r' = fib r /\ rib_multicast r' = rib_multicast r /\ rib_unicast r' = rib_unicast r.
Proof. unfold env. intros [=]. repeat (split; [done|]). done. Qed.
Lemma sched_fields r r' : sched r' = sched r -> nodes r' = nodes r /\ process_main_queue r' = process_main_queue r.
Proof. unfold sched. intros [=]. done. Qed.
Lemma ids_hash r r' h : ids r' = ids r -> get_hash r' h = get_hash r h.
Proof. unfold ids. intros [=]. by destruct h. Qed.
Lemma ctx_nodes r r' : ctx r' = ctx r -> nodes r' = nodes r.
Proof. intros (_ & _ & [? _]%sched_fields)%ctx_split. done. Qed.
Lemma ctx_bgp r r' : ctx r' = ctx r -> r_bgp r' = r_bgp r.
Proof. intros ([? _]%env_fields & _ & _)%ctx_split. done. Qed.

Lemma update_info_eq r i info f : infos r !! i = Some info -> update_info r i f = Ok (put_info r i (f info)).
Proof. intros Hi. unfold update_info, get_info, deref. by rewrite Hi. Qed.
Lemma get_info_eq r i info : infos r !! i = Some info -> get_info r i = Ok info.
Proof. intros Hi. unfold get_info, deref. by rewrite Hi. Qed.
Lemma get_node_eq r rn n : nodes r !! rn = Some n -> get_node r rn = Ok n.
Proof. intros Hi. unfold get_node, deref. by rewrite Hi. Qed.

(** Only the flags of a route change. *)
Definition flags_post r i info (g : Z -> bool) r' : Prop :=
  ctx r' = ctx r /\ exists f, infos r' = <[i := with_flags info f]> (infos r) /\ in_u 16 f /\ but_counted f g.

Lemma pcount_adjust_spec r rn n i info :
  infos r !! i = Some info -> nodes r !! rn = Some n -> in_u 16 (flags info) ->
  returns (bgp_pcount_adjust r (Some rn) i) (flags_post r i info (Z.testbit (flags info))).
Proof.
  intros Hi Hn Hf. unfold bgp_pcount_adjust. rewrite (get_node_eq _ _ _ Hn), (get_info_eq _ _ _ Hi). simpl_outcome.
  assert (flags_post r i info (Z.testbit (flags info)) r) as Hsame.
  { split; [done|]. exists (flags info). split; [|done]. rewrite insert_id; [done|]. rewrite Hi. by destruct info. }
  assert (forall f pc, in_u 16 f -> but_counted f (Z.testbit (flags info)) ->
            flags_post r i info (Z.testbit (flags info)) (set_pcount (put_info r i (with_flags info f)) pc)) as Hput.
  { intros f pc Hf' Hb. split; [done|]. by exists f. }
  assert (forall f, in_u 16 f -> but_counted f (Z.testbit (flags info)) ->
            flags_post r i info (Z.testbit (flags info)) (put_info r i (with_flags info f))) as Hput'.
  { intros f Hf' Hb. split; [done|]. by exists f. }
  assert (but_counted (u16 (UNSET_FLAG (flags info) BGP_INFO_COUNTED)) (Z.testbit (flags info))
          /\ but_counted (u16 (SET_FLAG (flags info) BGP_INFO_COUNTED)) (Z.testbit (flags info))) as [B1 B2].
  { split; intros k Hk Hne; rewrite testbit_wrap by lia; unfold BGP_INFO_COUNTED;
      rewrite ?testbit_UNSET_FLAG, ?testbit_SET_FLAG by lia; rewrite bool_decide_eq_false_2 by done;
      [apply andb_true_r|apply orb_false_r]. }
  repeat case_match; apply returns_Ok; try done; first [apply Hput|apply Hput']; done || by apply wrap_in_u.
Qed.

Lemma change_flags_spec r rn n i info f flag g :
  infos r !! i = Some info -> nodes r !! rn = Some n -> in_u 16 f -> but_counted f g ->
  returns (let r' := put_info r i (with_flags info f) in if changes_use flag then bgp_pcount_adjust r' (Some rn) i else Ok r')
    (flags_post r i info g).
Proof.
  intros Hi Hn Hf Hg. cbn zeta. destruct (changes_use flag).
  - eapply returns_mono; [apply (pcount_adjust_spec _ rn n i (with_flags info f)); [apply lookup_insert_eq|done|done]|].
    intros r' (Hc & f' & Hi' & Hf' & Hb). split; [done|]. exists f'. split; [|split; [done|]].
    + rewrite Hi'. cbn [infos put_info set_infos]. by rewrite insert_insert_eq.
    + intros k Hk Hne. rewrite Hb by done. by apply Hg.
  - apply returns_Ok. split; [done|]. by exists f.
Qed.

Lemma set_flag_spec r rn n i info j :
  infos r !! i = Some info -> nodes r !! rn = Some n -> 0 <= j < 16 ->
  returns (bgp_info_set_flag r (Some rn) i (2 ^ j)) (flags_post r i info (fun k => Z.testbit (flags info) k || bool_decide (k = j))).
Proof.
  intros Hi Hn Hj. unfold bgp_info_set_flag. rewrite (update_info_eq _ _ _ _ Hi). simpl_outcome.
  apply (change_flags_spec r rn n i info _ (2 ^ j)); try done; [by apply wrap_in_u|].
  intros k Hk _. by rewrite testbit_wrap, testbit_SET_FLAG by lia.
Qed.
Lemma unset_flag_spec r rn n i info j :
  infos r !! i = Some info -> nodes r !! rn = Some n -> 0 <= j < 16 ->
  returns (bgp_info_unset_flag r (Some rn) i (2 ^ j))
    (flags_post r i info (fun k => Z.testbit (flags info) k && negb (bool_decide (k = j)))).
Proof.
  intros Hi Hn Hj. unfold bgp_info_unset_flag. rewrite (update_info_eq _ _ _ _ Hi). simpl_outcome.
  apply (change_flags_spec r rn n i info _ (2 ^ j)); try done; [by apply wrap_in_u|].
  intros k Hk _. by rewrite testbit_wrap, testbit_UNSET_FLAG by lia.
Qed.

(** ** The ignore flag follows the results *)
Definition ignore_bits (b : bgp) info (k : Z) : bool :=
  if bool_decide (k = 13) then ignored_by b (getInfoToSrxVal info) else Z.testbit (flags info) k.
Lemma set_ignore_flag_spec r rn n i info :
  infos r !! i = Some info -> node info = Some rn -> nodes r !! rn = Some n -> in_u 16 (flags info) ->
  returns (bgp_info_set_ignore_flag r i)
    (fun res => flags_post r i info (ignore_bits (r_bgp r) info) res.1
                /\ res.2 = if ignored_by (r_bgp r) (getInfoToSrxVal info) then 1 else 0).
Proof.
  intros Hi Hr Hn Hf. unfold bgp_info_set_ignore_flag. rewrite (get_info_eq _ _ _ Hi). simpl_outcome. rewrite Hr.
  set (ig := ignored_by _ _).
  assert (CHECK_FLAG (flags info) BGP_INFO_IGNORE = Z.testbit (flags info) 13) as -> by by apply CHECK_FLAG_bit.
  assert (returns (if Z.testbit (flags info) 13 then if negb ig then bgp_info_unset_flag r (Some rn) i BGP_INFO_IGNORE else Ok r
                   else if ig then bgp_info_set_flag r (Some rn) i BGP_INFO_IGNORE else Ok r)
            (flags_post r i info (ignore_bits (r_bgp r) info))) as Hret.
  { assert (Z.testbit (flags info) 13 = ig -> flags_post r i info (ignore_bits (r_bgp r) info) r) as Hsame.
    { intros E. split; [done|]. exists (flags info). split; [|split; [done|]].
      - rewrite insert_id; [done|]. rewrite Hi. by destruct info.
      - intros k Hk _. unfold ignore_bits. case_bool_decide; [by subst|done]. }
    destruct (Z.testbit (flags info) 13) eqn:E, ig eqn:Eg; cbn [negb]; try (apply returns_Ok; by apply Hsame);
      (eapply returns_mono; [first [apply (unset_flag_spec r rn n i info 13)|apply (set_flag_spec r rn n i info 13)]; done|]);
      intros r' (Hc & f & Hi' & Hf' & Hb); (split; [done|]); exists f; (split; [done|]); (split; [done|]); intros k Hk Hne;
      rewrite Hb by done; unfold ignore_bits; change (ignored_by (r_bgp r) (getInfoToSrxVal info)) with ig; rewrite Eg; case_bool_decide; try subst; rewrite ?E; cbn;
      rewrite ?andb_true_r, ?orb_false_r; done. }
  eapply returns_bind; [exact Hret|]. intros r' Hr'. by apply returns_Ok.
Qed.

(** ** Scheduling a node *)
Definition schedule_post r rn (n : bgp_node) r' : Prop :=
  env r' = env r /\ ids r' = ids r /\ infos r' = infos r
  /\ sched r' = (<[rn := with_scheduled n true]> (nodes r),
                 if scheduled n then process_main_queue r else process_main_queue r ++ [rn], process_rsclient_queue r).
Lemma bgp_process_spec r rn n : nodes r !! rn = Some n -> rsclient (n_table n) = false ->
  returns (bgp_process r rn) (schedule_post r rn n).
Proof.
  intros Hn Ht. unfold bgp_process. rewrite (get_node_eq _ _ _ Hn). simpl_outcome. destruct (scheduled n) eqn:E.
  - apply returns_Ok. repeat split. unfold sched. rewrite E, insert_id; [done|]. rewrite Hn. by destruct n; cbn in *; subst.
  - apply returns_Ok. rewrite Ht. repeat split. unfold sched. by rewrite E.
Qed.
Lemma requeue_spec r i info rn n : infos r !! i = Some info -> node info = Some rn -> nodes r !! rn = Some n ->
  rsclient (n_table n) = false -> returns (srx_bgp_requeue_update r i) (schedule_post r rn n).
Proof.
  intros Hi Hr Hn Ht. unfold srx_bgp_requeue_update. rewrite (get_info_eq _ _ _ Hi). simpl_outcome. rewrite Hr. by apply bgp_process_spec.
Qed.

(** ** The tables of identifiers *)
Definition hash_wf r h : Prop := kt_wf identifier (fun _ => True) (table (get_hash r h)) (h_items (get_hash r h)).
(** The route an identifier stands for. *)
Definition reg r h (id : Z) : option positive := item_info <$> kt_get (table (get_hash r h)) (h_items (get_hash r h)) id.

Lemma ids_reg r r' h id : ids r' = ids r -> reg r' h id = reg r h id.
Proof. intros E. unfold reg. by rewrite (ids_hash _ _ h E). Qed.
Lemma ids_hash_wf r r' h : ids r' = ids r -> hash_wf r h -> hash_wf r' h.
Proof. intros E. unfold hash_wf. by rewrite (ids_hash _ _ h E). Qed.

Lemma bgp_info_fetch_eq r h id : hash_wf r h -> bgp_info_fetch r h id = Ok (reg r h id).
Proof.
  intros Hw. unfold bgp_info_fetch, reg, kt_get. pose proof (kt_find _ _ _ _ id Hw) as Hf.
  destruct (ut_find id _) as [p|]; [|done]. destruct Hf as (_ & e & He & _). unfold deref. by rewrite He.
Qed.

(** A new identifier. *)
Lemma register_spec r h i info id : infos r !! i = Some info -> hash_wf r h -> id <> 0 -> reg r h id = None ->
  returns (bgp_info_register r h i id)
    (fun res => let r' := res.1 in
       env r' = env r /\ sched r' = sched r /\ suiLocalID r' = suiLocalID r /\ infos r' = <[i := with_hash info (Some h)]> (infos r)
       /\ (forall h', hash_wf r h' -> hash_wf r' h')
       /\ (forall h' k, reg r' h' k = if decide (h' = h /\ k = id) then Some i else reg r h' k)).
Proof.
  intros Hi Hw Hid Hnew. unfold bgp_info_register. rewrite (proj2 (Z.eqb_neq id 0) Hid). set (t := get_hash r h).
  set (p := fresh (dom (h_items t))).
  assert (h_items t !! p = None) as Hp by apply not_elem_of_dom, is_fresh.
  destruct (kt_add identifier (fun _ => True) (table t) (h_items t) p (mkItem id i)) as [Hw' Hg]; [done| |done|done|].
  { unfold reg in Hnew. by destruct (kt_get _ _ _). }
  set (t' := mkHash _ _).
  assert (get_hash (set_hash r h t') h = t') as E1 by by destruct h.
  assert (forall h', h' <> h -> get_hash (set_hash r h t') h' = get_hash r h') as E2 by (by intros [] ?; destruct h).
  assert (forall r'', ids r'' = ids (set_hash r h t') -> (forall h', hash_wf r h' -> hash_wf r'' h') /\
            forall h' k, reg r'' h' k = if decide (h' = h /\ k = id) then Some i else reg r h' k) as Hids.
  { intros r'' E. split.
    - intros h' Hh. unfold hash_wf. rewrite (ids_hash _ _ h' E). destruct (decide (h' = h)) as [->|Hne]; [by rewrite E1|by rewrite E2].
    - intros h' k. unfold reg. rewrite (ids_hash _ _ h' E). destruct (decide (h' = h)) as [->|Hne].
      + rewrite E1. cbn [table h_items t']. rewrite Hg. cbn [identifier]. destruct (decide (k = id)).
        * by rewrite decide_True.
        * rewrite decide_False by tauto. done.
      + rewrite E2 by done. rewrite decide_False by tauto. done. }
  rewrite (update_info_eq _ i info) by by destruct h. simpl_outcome. apply returns_Ok.
  destruct (Hids (put_info (set_hash r h t') i (with_hash info (Some h))) eq_refl) as [Hok Hreg].
  split_and!; [by destruct h|by destruct h|by destruct h|by destruct h|exact Hok|exact Hreg].
Qed.

(** Removing an identifier, known or not. *)
Lemma kt_drop (t : H) (m : gmap positive bgp_info_hash_item) p :
  kt_wf identifier (fun _ => True) t m -> (forall k, (k, p) ∉ ut_items t) ->
  kt_wf identifier (fun _ => True) t (delete p m) /\ forall k, kt_get t (delete p m) k = kt_get t m k.
Proof.
  intros Hw Hp. assert (forall k q, (k, q) ∈ ut_items t -> delete p m !! q = m !! q) as Hold.
  { intros k q Hin. rewrite lookup_delete_ne; [done|]. intros ->. by apply (Hp k). }
  assert (kt_wf identifier (fun _ => True) t (delete p m)) as Hw'.
  { constructor; [apply Hw|]. intros k q Hin. rewrite (Hold k q Hin). by apply Hw. }
  split; [done|]. intros k. pose proof (kt_find _ _ _ _ k Hw) as Hf. unfold kt_get. destruct (ut_find k t) as [q|]; [|done].
  destruct Hf as [Hin _]. by apply (Hold k q).
Qed.
Lemma unregister_spec r h id : hash_wf r h ->
  let r' := bgp_info_unregister r h id in
  env r' = env r /\ sched r' = sched r /\ suiLocalID r' = suiLocalID r /\ infos r' = infos r
  /\ (forall h', hash_wf r h' -> hash_wf r' h')
  /\ (forall h' k, reg r' h' k = if decide (h' = h /\ k = id) then None else reg r h' k).
Proof.
  intros Hw. cbn zeta. unfold bgp_info_unregister. set (t := get_hash r h). pose proof (kt_find _ _ _ _ id Hw) as Hf.
  fold t in Hf. destruct (ut_find id (table t)) as [p|] eqn:F.
  - destruct Hf as (Hin & _). destruct (kt_del _ _ _ _ id p Hw Hin) as [Hw1 Hg1]. fold t in Hw1, Hg1.
    destruct (kt_drop (ut_del p (table t)) (h_items t) p Hw1) as [Hw2 Hg2].
    { intros k. rewrite ut_items_del, list_elem_of_filter. naive_solver. }
    set (t' := mkHash _ _).
    assert (get_hash (set_hash r h t') h = t') as E1 by by destruct h.
    assert (forall h', h' <> h -> get_hash (set_hash r h t') h' = get_hash r h') as E2 by (by intros [] ?; destruct h).
    repeat (split; [by destruct h|]). split.
    + intros h' Hh. unfold hash_wf. destruct (decide (h' = h)) as [->|Hne]; [by rewrite E1|by rewrite E2].
    + intros h' k. unfold reg. destruct (decide (h' = h)) as [->|Hne].
      * rewrite E1. cbn [table h_items t']. rewrite Hg2, Hg1. destruct (decide (k = id)).
        -- by rewrite decide_True.
        -- rewrite decide_False by tauto. done.
      * rewrite E2 by done. rewrite decide_False by tauto. done.
  - destruct Hf as (_ & Hg). repeat (split; [done|]). intros h' k. case_decide as Hk; [|done]. destruct Hk as [-> ->].
    unfold reg. fold t. by rewrite Hg.
Qed.

(** ** The end of a route *)
Definition id_of info : Z := if updateID info =? 0 then localID info else updateID info.
Lemma proxy_deleteUpdate_spec r id : is_Some (srxProxy (r_bgp r)) ->
  returns (proxy_deleteUpdate r id) (fun r' => ctx r' = ctx r /\ infos r' = infos r).
Proof. intros [[pid []] Hp]; unfold proxy_deleteUpdate; rewrite Hp; by apply returns_Ok. Qed.

Definition unreg (o : option hash_id) (id : Z) (f : hash_id -> Z -> option positive) h (k : Z) : option positive :=
  if decide (o = Some h /\ k = id) then None else f h k.
Lemma reap_spec r rn n i info :
  nodes r !! rn = Some n -> infos r !! i = Some info -> lock info = 1 -> is_Some (srxProxy (r_bgp r)) ->
  (forall h, hash_wf r h) ->
  returns (bgp_info_reap r rn i) (fun r' =>
    env r' = env r /\ suiLocalID r' = suiLocalID r /\ infos r' = delete i (infos r)
    /\ sched r' = (<[rn := with_info_list n (filter (fun j => j <> i) (n_info n))]> (nodes r), process_main_queue r, process_rsclient_queue r)
    /\ (forall h, hash_wf r' h)
    /\ (forall h k, reg r' h k = unreg (info_hash info) (id_of info) (reg r) h k)).
Proof.
  intros Hn Hi Hl Hp Hw. unfold bgp_info_reap. rewrite (get_node_eq _ _ _ Hn). simpl_outcome.
  set (r1 := put_node r rn _). unfold bgp_info_unlock. rewrite (get_info_eq r1 i info Hi). simpl_outcome. rewrite Hl. cbn [Z.ltb Z.compare Z.sub Z.add Z.opp Z.pos_sub Z.eqb].
  set (r2 := put_info r1 i _). unfold bgp_info_free. rewrite (get_info_eq r2 i (with_lock info 0)) by apply lookup_insert_eq. simpl_outcome.
  cbn [info_hash updateID localID with_lock].
  assert (returns (match info_hash info with
                   | Some h => if negb (updateID info =? 0)
                               then proxy_deleteUpdate (bgp_info_unregister r2 h (updateID info)) (updateID info)
                               else Ok (bgp_info_unregister r2 h (localID info))
                   | None => Ok r2 end)
            (fun r' => env r' = env r /\ suiLocalID r' = suiLocalID r /\ infos r' = infos r2 /\ sched r' = sched r1
               /\ (forall h, hash_wf r' h)
               /\ (forall h k, reg r' h k = unreg (info_hash info) (id_of info) (reg r) h k))) as Hret.
  { unfold id_of. destruct (info_hash info) as [h|].
    - destruct (unregister_spec r2 h (id_of info) (Hw h)) as (E1 & E2 & E3 & E4 & E5 & E6). unfold id_of in *.
      set (r3 := bgp_info_unregister r2 h _) in *.
      assert (forall r', ctx r' = ctx r3 -> infos r' = infos r3 -> env r' = env r /\ suiLocalID r' = suiLocalID r /\ infos r' = infos r2 /\ sched r' = sched r1
               /\ (forall h, hash_wf r' h)
               /\ (forall h' k, reg r' h' k = unreg (Some h) (if updateID info =? 0 then localID info else updateID info) (reg r) h' k)) as Hpost.
      { intros r' (Ce & Ci & Cs)%ctx_split Hi'. split_and!; [by rewrite Ce, E1|by injection Ci as _ _ ->; rewrite E3|by rewrite Hi', E4|by rewrite Cs, E2| |].
        - intros h'. apply (ids_hash_wf r3); [done|]. apply E5, Hw.
        - intros h' k. rewrite (ids_reg r3) by done. rewrite E6. unfold unreg. change (reg r2 h' k) with (reg r h' k).
          repeat case_decide; naive_solver. }
      destruct (updateID info =? 0) eqn:Eu; cbn [negb]; [by apply returns_Ok, Hpost|].
      eapply returns_mono; [apply (proxy_deleteUpdate_spec r3)|intros r' [? ?]; by apply Hpost].
      apply env_fields in E1 as (-> & _). exact Hp.
    - by apply returns_Ok. }
  eapply returns_bind; [exact Hret|]. intros r3 (E1 & E2 & E3 & E4 & E5 & E6). apply returns_Ok.
  split_and!; [exact E1|exact E2| |exact E4|exact E5|exact E6]. cbn [infos set_infos]. rewrite E3. cbn [infos r2 put_info set_infos r1 put_node set_nodes].
  by rewrite delete_insert_eq.
Qed.
End state.

(** ** Asking the server *)
Record input_ok (b : bgp) (p : peer) (n : bgp_node) (a : attr) : Prop := mk_input_ok {
  in_attr : attr_wf b a;
  in_community : forall e c val, extra a = Some e -> ecom e = Some c -> ec_val c = Some val -> (8 <= length val)%nat;
  in_request : forall id def, is_ok (request_packet b p n a id def) = true
}.

Section verify.
Context {H : Type} `{UTHashLaws H} `{LocalCrypto}.
Implicit Types (r : router H).

Lemma community_returns b p n a def : input_ok b p n a -> exists def', community_result b a def = Ok def'.
Proof.
  intros [_ Hc _]. unfold community_result, checkEcomSRxValid. destruct (CHECK_FLAG _ _); [|eauto].
  destruct (extra a) as [e|]; [|by eexists].
  destruct (ecom e) as [c|] eqn:Ec; [|eexists; reflexivity]. destruct (ec_val c) as [val|] eqn:Ev; [|eexists; reflexivity].
  destruct (ec_str c); cbn [negb]; [|eexists; reflexivity]. unfold read8.
  destruct (lookup_lt_is_Some_2 val 7) as [x ->]; [specialize (Hc e c val eq_refl Ec Ev); lia|]. simpl_outcome.
  repeat case_match; eauto.
Qed.

(** The route is asked for and gets the results it has until the answer. *)
Definition verified_info info (def : SRxDefaultResult) (hash : option hash_id) : bgp_info :=
  with_hash (default_results (result def) info) hash.
Lemma verify_update_spec r i info p rn n def :
  infos r !! i = Some info -> peers r !! info_peer info = Some p -> node info = Some rn -> nodes r !! rn = Some n ->
  in_u 16 (flags info) -> input_ok (r_bgp r) p n (info_attr info) -> 0 < localID info ->
  (forall h, hash_wf r h) -> reg r LidHash (localID info) = None ->
  returns (verify_update r i def true) (fun r' =>
    env r' = env r /\ sched r' = sched r /\ suiLocalID r' = suiLocalID r
    /\ (exists def' f, community_result (r_bgp r) (info_attr info) def = Ok def'
          /\ infos r' = <[i := with_flags (verified_info info def' (Some LidHash)) f]> (infos r)
          /\ in_u 16 f /\ but_counted f (ignore_bits (r_bgp r) (default_results (result def') info)))
    /\ (forall h, hash_wf r' h)
    /\ (forall h k, reg r' h k = if decide (h = LidHash /\ k = localID info) then Some i else reg r h k)).
Proof.
  intros Hi Hp Hr Hn Hf Hin Hl Hw Hreg. unfold verify_update. rewrite (get_info_eq _ _ _ Hi). simpl_outcome.
  destruct (community_returns _ _ _ _ def Hin) as [def' Ed]. rewrite Ed. simpl_outcome.
  rewrite (proj2 (Z.ltb_lt 0 (localID info)) Hl). cbn [andb]. set (info1 := default_results (result def') info).
  set (r1 := put_info r i info1).
  assert (infos r1 !! i = Some info1) as Hi1 by apply lookup_insert_eq.
  destruct (register_spec r1 LidHash i info1 (localID info) Hi1 (Hw LidHash)) as ([r2 z] & E2 & R1 & R2 & R3 & R4 & R5 & R6);
    [lia|exact Hreg|]. cbn [fst] in *. rewrite E2. simpl_outcome.
  assert (infos r2 !! i = Some (verified_info info def' (Some LidHash))) as Hi2 by (rewrite R4; apply lookup_insert_eq).
  rewrite (get_info_eq _ _ _ Hi2). simpl_outcome. pose proof R1 as (Eb & _ & Ep & _)%env_fields.
  change (r_bgp r1) with (r_bgp r) in Eb. change (peers r1) with (peers r) in Ep. pose proof R2 as [En _]%sched_fields.
  change (nodes r1) with (nodes r) in En.
  set (m := if isConnected _ && _ then _ else _).
  assert (exists r3, m = Ok r3 /\ ctx r3 = ctx r2 /\ infos r3 = infos r2) as (r3 & -> & Hc3 & Hi3).
  { unfold m. destruct (isConnected _ && _); [|by exists r2]. unfold verify_packet. cbn [info_peer verified_info with_hash default_results with_results node].
    rewrite Ep. unfold deref. rewrite Hp. simpl_outcome. rewrite Hr, (get_node_eq r2 rn n) by by rewrite En. simpl_outcome.
    cbn [info_attr localID]. rewrite Eb. pose proof (in_request _ _ _ _ Hin (localID info) def') as Hq.
    destruct (request_packet _ _ _ _ _ _); [|done]. simpl_outcome. by eexists. }
  simpl_outcome. rewrite <- Hi3 in Hi2.
  destruct (set_ignore_flag_spec r3 rn n i _ Hi2) as ([r4 z'] & E4 & [(Hc4 & f & Hi4 & Hf4 & Hb4) _]); [done| |done|].
  { rewrite (ctx_nodes _ _ Hc3), En. done. }
  rewrite E4. simpl_outcome. cbn [fst] in *. apply returns_Ok.
  apply ctx_split in Hc3 as (C1 & C2 & C3). apply ctx_split in Hc4 as (D1 & D2 & D3).
  assert (forall h k, reg r4 h k = reg r2 h k) as Er by (intros h k; rewrite (ids_reg r3), (ids_reg r2); done).
  split_and!.
  - by rewrite D1, C1, R1.
  - by rewrite D3, C3, R2.
  - unfold ids in *. injection D2 as _ _ ->. by injection C2 as _ _ ->.
  - exists def', f. split; [done|]. split.
    + rewrite Hi4, Hi3, R4. cbn [infos put_info set_infos r1]. by rewrite !insert_insert_eq.
    + split; [done|]. intros k Hk Hne. rewrite Hb4 by done.
      assert (r_bgp r3 = r_bgp r) as -> by by apply env_fields in C1 as [-> _]. done.
  - intros h. apply (ids_hash_wf r3); [done|]. apply (ids_hash_wf r2); [done|]. apply R5, Hw.
  - intros h k. rewrite Er, R6. done.
Qed.

(** The next hop decides whether the route is valid. *)
Lemma set_reachable_spec r rn n i info p reachable :
  infos r !! i = Some info -> nodes r !! rn = Some n ->
  returns (set_reachable r rn i p reachable) (flags_post r i info
    (fun k => if bool_decide (k = 4) then negb (nexthop_checked p (n_table n) && negb reachable) else Z.testbit (flags info) k)).
Proof.
  intros Hi Hn. unfold set_reachable. rewrite (get_node_eq _ _ _ Hn). simpl_outcome. destruct (_ && _).
  - eapply returns_mono; [by apply (unset_flag_spec r rn n i info 4)|]. intros r' (Hc & f & Hi' & Hf & Hb). split; [done|].
    exists f. split; [done|]. split; [done|]. intros k Hk Hne. rewrite Hb by done. case_bool_decide; [by rewrite andb_false_r|apply andb_true_r].
  - eapply returns_mono; [by apply (set_flag_spec r rn n i info 4)|]. intros r' (Hc & f & Hi' & Hf & Hb). split; [done|].
    exists f. split; [done|]. split; [done|]. intros k Hk Hne. rewrite Hb by done. case_bool_decide; [by rewrite orb_true_r|apply orb_false_r].
Qed.

Lemma find_route_spec r pr ty sub l : (forall i, i ∈ l -> is_Some (infos r !! i)) ->
  returns (find_route r pr ty sub l) (fun o => forall i, o = Some i -> i ∈ l).
Proof.
  induction l as [|i l IH]; intros Hl; [by apply returns_Ok|]. cbn [find_route]. destruct (Hl i) as [info Hi]; [by left|].
  rewrite (get_info_eq _ _ _ Hi). simpl_outcome. destruct (_ && _).
  - apply returns_Ok. intros j [= <-]. by left.
  - eapply returns_mono; [apply IH; intros j Hj; apply Hl; by right|]. intros o Ho j Hj. right. by apply Ho.
Qed.

(** ** Storing results *)
Lemma validation_result_spec r i info rn n ty roa sec aspa :
  infos r !! i = Some info -> node info = Some rn -> nodes r !! rn = Some n -> rsclient (n_table n) = false -> in_u 16 (flags info) ->
  Z.land ty SRX_FLAG_ROA_BGPSEC_ASPA <> 0 ->
  let info1 := store_results ty roa sec aspa info in
  let changed := negb (Bool.eqb (ignored info) (ignored_by (r_bgp r) (getInfoToSrxVal info1)))
                 || isSrxValChanged (getInfoToSrxVal info) (getInfoToSrxVal info1) in
  returns (bgp_info_set_validation_result r i ty roa sec aspa) (fun r' =>
    env r' = env r /\ ids r' = ids r
    /\ (exists f, infos r' = <[i := with_flags info1 f]> (infos r) /\ in_u 16 f /\ but_counted f (ignore_bits (r_bgp r) info1))
    /\ sched r' = if changed then (<[rn := with_scheduled n true]> (nodes r),
                                   if scheduled n then process_main_queue r else process_main_queue r ++ [rn], process_rsclient_queue r)
                  else sched r).
Proof.
  intros Hi Hr Hn Ht Hf Hty info1 changed. unfold bgp_info_set_validation_result. rewrite (proj2 (Z.eqb_neq _ 0) Hty).
  rewrite (get_info_eq _ _ _ Hi). simpl_outcome. fold info1.
  destruct (set_ignore_flag_spec (put_info r i info1) rn n i info1) as ([r1 z] & E1 & [(Hc & f & Hi1 & Hf1 & Hb1) Hz]);
    [apply lookup_insert_eq|done|done|done|]. cbn [fst snd] in *.
  rewrite E1. simpl_outcome. change (r_bgp (put_info r i info1)) with (r_bgp r) in *.
  assert (infos r1 = <[i := with_flags info1 f]> (infos r)) as Hi1'.
  { rewrite Hi1. cbn [infos put_info set_infos]. by rewrite insert_insert_eq. }
  assert (infos r1 !! i = Some (with_flags info1 f)) as Hi2 by (rewrite Hi1'; apply lookup_insert_eq).
  rewrite (get_info_eq _ _ _ Hi2). simpl_outcome. change (getInfoToSrxVal (with_flags info1 f)) with (getInfoToSrxVal info1).
  assert (negb (z =? (if CHECK_FLAG (flags info) BGP_INFO_IGNORE then 1 else 0)) = negb (Bool.eqb (ignored info) (ignored_by (r_bgp r) (getInfoToSrxVal info1)))) as ->.
  { rewrite Hz. unfold ignored. change BGP_INFO_IGNORE with (2 ^ 13). rewrite CHECK_FLAG_bit by lia.
    by destruct (ignored_by _ _), (Z.testbit _ 13). }
  fold changed. apply ctx_split in Hc as (C1 & C2 & C3). destruct changed.
  - eapply returns_mono; [apply (requeue_spec r1 i _ rn n Hi2); [done| |done]|].
    + apply sched_fields in C3 as [-> _]. done.
    + intros r' (P1 & P2 & P3 & P4). split_and!; [by rewrite P1, C1|by rewrite P2, C2|exists f; by rewrite P3|].
      rewrite P4. injection C3 as -> -> ->. done.
  - apply returns_Ok. split_and!; [done|done|by exists f|done].
Qed.
End verify.

(** ** The invariant *)

(** Which identifier a route is known by. *)
Definition ids_wf info : Prop :=
  match info_hash info with
  | Some UidHash => 0 < updateID info /\ localID info = 0
  | Some LidHash => updateID info = 0 /\ 0 < localID info
  | None => False
  end.
Record route_wf {H} (r : router H) info : Prop := mk_route_wf {
  rw_peer : is_Some (peers r !! info_peer info);
  rw_attr : attr_wf (r_bgp r) (info_attr info);
  rw_lock : lock info = 1;
  rw_flags : in_u 16 (flags info);
  rw_ignored : ignored info = ignored_by (r_bgp r) (getInfoToSrxVal info);
  rw_ids : ids_wf info
}.
(** The selected route is usable and no usable one ranks higher; a route is selected
    when there is a usable one; the removed ones are gone. *)
Record settled {H} (r : router H) (l : list positive) : Prop := mk_settled {
  st_usable : forall i info, i ∈ l -> infos r !! i = Some info -> selected info = true -> usable info = true;
  st_best : forall i info j jnfo, i ∈ l -> infos r !! i = Some info -> selected info = true ->
              j ∈ l -> infos r !! j = Some jnfo -> usable jnfo = true -> rank_le (r_bgp r) jnfo info;
  st_some : forall j jnfo, j ∈ l -> infos r !! j = Some jnfo -> usable jnfo = true ->
              exists i info, i ∈ l /\ infos r !! i = Some info /\ selected info = true;
  st_removed : forall i info, i ∈ l -> infos r !! i = Some info -> removed info = false
}.
Record node_wf {H} (r : router H) (rn : positive) (n : bgp_node) : Prop := mk_node_wf {
  nw_nodup : NoDup (n_info n);
  nw_main : rsclient (n_table n) = false;
  nw_routes : forall i, i ∈ n_info n -> exists info, infos r !! i = Some info /\ node info = Some rn;
  nw_selected : forall i j info jnfo, i ∈ n_info n -> j ∈ n_info n -> infos r !! i = Some info -> infos r !! j = Some jnfo ->
                  selected info = true -> selected jnfo = true -> i = j;
  nw_settled : scheduled n = false -> settled r (n_info n)
}.
Record router_wf {H} `{UTHash H} (r : router H) : Prop := mk_router_wf {
  ro_config : cfg_wf (r_bgp r);
  ro_med : bgp_flag_check (r_bgp r) BGP_FLAG_DETERMINISTIC_MED = false;
  ro_proxy : is_Some (srxProxy (r_bgp r));
  ro_routes : forall i info, infos r !! i = Some info ->
                route_wf r info /\ exists rn n, node info = Some rn /\ nodes r !! rn = Some n /\ i ∈ n_info n;
  ro_nodes : forall rn n, nodes r !! rn = Some n -> node_wf r rn n;
  ro_queue : NoDup (process_main_queue r)
             /\ forall rn, rn ∈ process_main_queue r <-> exists n, nodes r !! rn = Some n /\ scheduled n = true;
  ro_hash : forall h, hash_wf r h;
  ro_reg : forall h k i, reg r h k = Some i <-> exists info, infos r !! i = Some info /\ info_hash info = Some h /\ id_of info = k
}.
End RouterState.
