(* ===== verification/RouterRun.v ===== *)
(** * Runs of the router: the selected routes follow the validation

    The router as a sequence of events: updates and withdrawals of the peers, answers
    of the server, and the processing of scheduled nodes.  The events keep the
    invariant of RouterState; the rules say which ones the code handles, and the last
    part shows what it does with two of the others. *)
From S2P Require Import Prelude Lists Bytes SrxDefs UtHash UpdateCache SrxPackets ProxyApi HashMessage.
From S2P Require Import RouterConfig RouterAsPath RouterTable RouterDecision RouterState.

Module RouterRun.
Import SrxPackets RouterConfig RouterAsPath RouterTable RouterDecision RouterState.

(** ** Events *)
Inductive event :=
| Update (rn pr : positive) (ty sub : Z) (a : attr) (reachable : bool)
| Withdraw (rn pr : positive) (ty sub : Z)
| Notify (updateID localID valType roa sec aspa : Z)
| Process.

Section run.
Context {H : Type} `{UTHashLaws H} `{LocalCrypto}.
Implicit Types (r : router H) (e : event).

Definition step r e : outcome (router H) :=
  match e with
  | Update rn pr ty sub a reachable => bgp_update_main r rn pr ty sub a reachable
  | Withdraw rn pr ty sub => bgp_withdraw r rn pr ty sub
  | Notify u l ty roa sec aspa => '(r, _) ← handleSRxValidationResult r u l ty roa sec aspa; Ok r
  | Process => process_next r
  end.
Fixpoint run r (es : list event) : outcome (router H) :=
  match es with [] => Ok r | e :: es => r ← step r e; run r es end.

(** An update is for a known node and peer, its request can be built and gets a local
    identifier that is not waiting for an answer; when it changes a route, the server
    has answered for the former attributes.  The first answer has an identifier that no
    other route has. *)
Definition event_ok r e : Prop :=
  match e with
  | Update rn pr ty sub a reachable =>
      exists n p, nodes r !! rn = Some n /\ peers r !! pr = Some p /\ input_ok (r_bgp r) p n a
        /\ reg r LidHash (getNextLocalID r).2 = None /\ 0 <= suiLocalID r
        /\ forall ri info, find_route r pr ty sub (n_info n) = Ok (Some ri) -> infos r !! ri = Some info ->
             info_hash info = Some UidHash
  | Withdraw rn pr ty sub => is_Some (nodes r !! rn)
  | Notify u l ty roa sec aspa => l <> 0 -> is_Some (reg r LidHash l) -> 0 < u /\ reg r UidHash u = None
  | Process => True
  end.
Fixpoint run_ok r (es : list event) : Prop :=
  match es with [] => True | e :: es => event_ok r e /\ forall r', step r e = Ok r' -> run_ok r' es end.

(** ** Changing one route *)
Lemma reg_update r r' i info info' h1 h2 :
  (forall h k j, reg r h k = Some j <-> exists jnfo, infos r !! j = Some jnfo /\ info_hash jnfo = Some h /\ id_of jnfo = k) ->
  infos r !! i = Some info -> infos r' = <[i := info']> (infos r) -> info_hash info = Some h1 -> info_hash info' = Some h2 ->
  (reg r h2 (id_of info') = None \/ h2 = h1 /\ id_of info' = id_of info) ->
  (forall h k, reg r' h k = if decide (h = h2 /\ k = id_of info') then Some i
                           else if decide (h = h1 /\ k = id_of info) then None else reg r h k) ->
  forall h k j, reg r' h k = Some j <-> exists jnfo, infos r' !! j = Some jnfo /\ info_hash jnfo = Some h /\ id_of jnfo = k.
Proof.
  intros Hr Hi Hi' Hh1 Hh2 Hnew Hreg h k j. rewrite Hreg, Hi'.
  assert (reg r h1 (id_of info) = Some i) as Hold by (apply Hr; by exists info).
  destruct (decide (h = h2 /\ k = id_of info')) as [[-> ->]|Hne2].
  - split.
    + intros [= <-]. exists info'. by rewrite lookup_insert_eq.
    + intros (jnfo & Hj & Ha & Hb). destruct (decide (j = i)) as [->|Hji]; [done|]. rewrite lookup_insert_ne in Hj by done.
      assert (reg r h2 (id_of info') = Some j) as Hrj by (apply Hr; by exists jnfo).
      destruct Hnew as [Hnew|[-> Hid]]; [congruence|]. rewrite Hid in Hrj. congruence.
  - destruct (decide (h = h1 /\ k = id_of info)) as [[-> ->]|Hne1].
    + split; [done|]. intros (jnfo & Hj & Ha & Hb). exfalso. destruct (decide (j = i)) as [->|Hji].
      * rewrite lookup_insert_eq in Hj. injection Hj as <-. apply Hne2. split; [congruence|done].
      * rewrite lookup_insert_ne in Hj by done. assert (reg r h1 (id_of info) = Some j) by (apply Hr; by exists jnfo). congruence.
    + rewrite Hr. split; intros (jnfo & Hj & Ha & Hb); exists jnfo; (split; [|done]).
      * rewrite lookup_insert_ne; [done|]. intros <-. apply Hne1. rewrite Hi in Hj. injection Hj as <-. split; [congruence|done].
      * destruct (decide (j = i)) as [->|Hji]; [|by rewrite lookup_insert_ne in Hj]. exfalso. apply Hne2.
        rewrite lookup_insert_eq in Hj. injection Hj as <-. split; [congruence|done].
Qed.

Definition sched_if (changed : bool) r rn n :=
  if changed then (<[rn := with_scheduled n true]> (nodes r),
                   if scheduled n then process_main_queue r else process_main_queue r ++ [rn], process_rsclient_queue r)
  else sched r.

Lemma sched_if_eq b (r1 : router H) r rn n : sched r1 = sched r -> sched_if b r1 rn n = sched_if b r rn n.
Proof. unfold sched_if, sched. destruct b; [|done]. by intros [= -> -> ->]. Qed.

(** What the process does not see. *)
Definition looks_same (b : bgp) info info' : Prop :=
  usable info' = usable info /\ selected info' = selected info /\ removed info' = removed info
  /\ (forall j, rank_le b j info' <-> rank_le b j info) /\ (forall j, rank_le b info' j <-> rank_le b info j).

Lemma queue_push r (s : router H) rn n q : router_wf r -> nodes r !! rn = Some n -> nodes s = <[rn := with_scheduled n true]> (nodes r) ->
  q = (if scheduled n then process_main_queue r else process_main_queue r ++ [rn]) ->
  NoDup q /\ forall k, k ∈ q <-> exists m, nodes s !! k = Some m /\ scheduled m = true.
Proof.
  intros Hw Hn -> ->. destruct (ro_queue _ Hw) as [Hq1 Hq2]. split.
  - destruct (scheduled n) eqn:E; [done|]. apply NoDup_app. split; [done|]. split; [|apply NoDup_singleton].
    intros k Hk ->%list_elem_of_singleton. apply Hq2 in Hk as (m & Hm & Hs). congruence.
  - intros k. destruct (decide (k = rn)) as [->|Hne].
    + rewrite lookup_insert_eq. split; [intros _; by eexists|]. intros _. destruct (scheduled n) eqn:E.
      * apply Hq2. by exists n.
      * apply elem_of_app. right. by left.
    + rewrite lookup_insert_ne by done. rewrite <- Hq2. destruct (scheduled n); [done|]. rewrite elem_of_app, list_elem_of_singleton. tauto.
Qed.

Lemma route_wf_env r r' info : env r' = env r -> route_wf r info -> route_wf r' info.
Proof. intros (E1 & _ & E2 & _)%env_fields [W1 W2 W3 W4 W5 W6]. by constructor; rewrite ?E1, ?E2. Qed.

Lemma settled_touch r r' l i info info' :
  settled r l -> r_bgp r' = r_bgp r -> infos r !! i = Some info -> infos r' = <[i := info']> (infos r) -> looks_same (r_bgp r) info info' ->
  settled r' l.
Proof.
  intros [S1 S2 S3 S4] Eb Hi Hi' (L1 & L2 & L3 & L4 & L5).
  assert (forall j jnfo, infos r' !! j = Some jnfo -> exists jn, infos r !! j = Some jn /\ looks_same (r_bgp r) jn jnfo) as Hback.
  { intros j jnfo. rewrite Hi'. destruct (decide (j = i)) as [->|Hji].
    - rewrite lookup_insert_eq. intros [= <-]. by exists info.
    - rewrite lookup_insert_ne by done. intros Hj. exists jnfo. by repeat split. }
  constructor; rewrite ?Eb.
  - intros j jnfo Hj (jn & Hjn & Lu & Ls & _)%Hback. rewrite Lu, Ls. by apply (S1 j).
  - intros j jnfo k knfo Hj (jn & Hjn & Lu & Ls & _ & Lr & _)%Hback. rewrite Ls. intros Hs Hk (kn & Hkn & Ku & _ & _ & _ & Kr)%Hback.
    rewrite Ku, Lr, Kr. by apply (S2 j jn k kn).
  - intros j jnfo Hj (jn & Hjn & Lu & _)%Hback. rewrite Lu. intros Hu. destruct (S3 j jn Hj Hjn Hu) as (k & kn & Hk & Hkn & Hs).
    destruct (decide (k = i)) as [->|Hki].
    + exists i, info'. rewrite Hi', lookup_insert_eq, L2. split; [done|]. split; [done|]. by rewrite Hi in Hkn; injection Hkn as ->.
    + exists k, kn. by rewrite Hi', lookup_insert_ne.
  - intros j jnfo Hj (jn & Hjn & _ & _ & Lm & _)%Hback. rewrite Lm. by apply (S4 j).
Qed.

Lemma settled_others r r' l i info info' :
  settled r l -> r_bgp r' = r_bgp r -> i ∉ l -> infos r' = <[i := info']> (infos r) -> infos r !! i = Some info -> settled r' l.
Proof.
  intros [S1 S2 S3 S4] Eb Hil Hi' Hi.
  assert (forall j, j ∈ l -> infos r' !! j = infos r !! j) as E.
  { intros j Hj. rewrite Hi', lookup_insert_ne; [done|]. by intros ->. }
  constructor; rewrite ?Eb.
  - intros j jnfo Hj. rewrite (E j Hj). by apply (S1 j).
  - intros j jnfo k knfo Hj Hjn Hs Hk. rewrite (E j Hj) in Hjn. rewrite (E k Hk). by apply (S2 j jnfo k knfo).
  - intros j jnfo Hj. rewrite (E j Hj). intros Hjn Hu. destruct (S3 j jnfo Hj Hjn Hu) as (k & kn & Hk & Hkn & Hs). exists k, kn. by rewrite (E k Hk).
  - intros j jnfo Hj. rewrite (E j Hj). by apply (S4 j).
Qed.

Lemma touch_wf r r' rn n i info info' changed :
  router_wf r -> infos r !! i = Some info -> node info = Some rn -> nodes r !! rn = Some n ->
  env r' = env r -> infos r' = <[i := info']> (infos r) -> node info' = Some rn -> route_wf r info' ->
  sched r' = sched_if changed r rn n ->
  (selected info' = true -> selected info = true
     \/ forall j jnfo, j ∈ n_info n -> infos r !! j = Some jnfo -> selected jnfo = false) ->
  (changed = false -> scheduled n = true \/ looks_same (r_bgp r) info info') ->
  (forall h, hash_wf r' h) ->
  (forall h k j, reg r' h k = Some j <-> exists jnfo, infos r' !! j = Some jnfo /\ info_hash jnfo = Some h /\ id_of jnfo = k) ->
  router_wf r'.
Proof.
  intros Hw Hi Hr Hn He Hi' Hr' Hwf Hs Hsel Hsame Hh Hreg. pose proof (env_fields _ _ He) as (Eb & _ & Ep & _).
  destruct (ro_routes _ Hw i info Hi) as [_ (rn0 & n0 & Hr0 & Hn0 & Hin)]. assert (rn0 = rn) as -> by congruence. assert (n0 = n) as -> by congruence.
  assert (forall k m, nodes r' !! k = Some m -> exists m0, nodes r !! k = Some m0 /\ n_info m = n_info m0 /\ n_table m = n_table m0
            /\ (scheduled m = false -> scheduled m0 = false /\ (k = rn -> changed = false))) as Hnodes.
  { intros k m. unfold sched, sched_if in Hs. destruct changed.
    - injection Hs as -> _ _. destruct (decide (k = rn)) as [->|Hne].
      + rewrite lookup_insert_eq. intros [= <-]. by exists n.
      + rewrite lookup_insert_ne by done. intros Hm. exists m. naive_solver.
    - injection Hs as -> _ _. intros Hm. exists m. naive_solver. }
  assert (exists s, nodes r' !! rn = Some (with_scheduled n s)) as [s Hrn].
  { unfold sched, sched_if in Hs. destruct changed; injection Hs as -> _ _.
    - exists true. by rewrite lookup_insert_eq.
    - exists (scheduled n). rewrite Hn. by destruct n. }
  assert (forall j jnfo, infos r' !! j = Some jnfo -> exists jn, infos r !! j = Some jn /\ node jnfo = node jn
            /\ (j = i /\ jnfo = info' \/ j <> i /\ jnfo = jn)) as Hback.
  { intros j jnfo. rewrite Hi'. destruct (decide (j = i)) as [->|Hji].
    - rewrite lookup_insert_eq. intros [= <-]. exists info. split; [done|]. split; [congruence|by left].
    - rewrite lookup_insert_ne by done. intros Hj. exists jnfo. auto. }
  constructor; rewrite ?Eb; try apply Hw; try done.
  - intros j jnfo Hj. split.
    + apply (route_wf_env r); [done|]. rewrite Hi' in Hj. apply lookup_insert_Some in Hj as [[<- <-]|[_ Hj]]; [done|by apply (ro_routes _ Hw j)].
    + destruct (Hback _ _ Hj) as (jn & Hjn & Ern & _). destruct (ro_routes _ Hw j jn Hjn) as [_ (rnj & nj & Hrj & Hnj & Hij)].
      rewrite Ern. exists rnj. destruct (decide (rnj = rn)) as [->|Hne].
      * exists (with_scheduled n s). assert (nj = n) as -> by congruence. done.
      * exists nj. split; [done|]. split; [|done]. unfold sched, sched_if in Hs. destruct changed; injection Hs as -> _ _; by rewrite ?lookup_insert_ne.
  - intros k m Hm. destruct (Hnodes k m Hm) as (m0 & Hm0 & El & Et & Esch). destruct (ro_nodes _ Hw k m0 Hm0) as [N1 N2 N3 N4 N5].
    constructor; rewrite ?El, ?Et; try done.
    + intros j Hj. destruct (N3 j Hj) as (jn & Hjn & Hrj). destruct (decide (j = i)) as [->|Hji].
      * exists info'. rewrite Hi', lookup_insert_eq. split; [done|]. congruence.
      * exists jn. by rewrite Hi', lookup_insert_ne.
    + intros j1 j2 b1 b2 Hj1 Hj2 (c1 & C1 & _ & D1)%Hback (c2 & C2 & _ & D2)%Hback Hs1 Hs2.
      assert (i ∈ n_info m0 -> m0 = n) as Hmn.
      { intros Hin'. destruct (N3 i Hin') as (jn & Hjn & Hrj). assert (k = rn) by congruence. subst. congruence. }
      destruct D1 as [[-> ->]|[Hne1 ->]], D2 as [[-> ->]|[Hne2 ->]]; [done| | |by apply (N4 j1 j2 c1 c2)].
      * destruct (Hsel Hs1) as [Hso|Hno]; [apply (N4 i j2 info c2); done|]. rewrite (Hmn Hj1) in *. by rewrite (Hno j2 c2) in Hs2.
      * destruct (Hsel Hs2) as [Hso|Hno]; [apply (N4 j1 i c1 info); done|]. rewrite (Hmn Hj2) in *. by rewrite (Hno j1 c1) in Hs1.
    + intros Hsm. destruct (Esch Hsm) as [Hsm0 Hch]. specialize (N5 Hsm0). destruct (decide (k = rn)) as [->|Hne].
      * assert (m0 = n) as -> by congruence. apply (settled_touch r r' _ i info info'); try done.
        destruct (Hsame (Hch eq_refl)) as [?|?]; [congruence|done].
      * apply (settled_others r r' _ i info info'); try done. intros Hk. apply N3 in Hk as (jn & Hjn & Hrj). congruence.
  - unfold sched, sched_if in Hs. destruct changed; injection Hs as Hs1 Hs2 _.
    + rewrite Hs2. by apply (queue_push r _ rn n).
    + rewrite Hs1, Hs2. apply Hw.
Qed.

(** ** Flags, results, schedules *)
Lemma usable_same f info : (forall k, k ∈ [1; 2; 4; 9; 13] -> Z.testbit f k = Z.testbit (flags info) k) -> usable (with_flags info f) = usable info.
Proof. intros E. rewrite !usable_bits. unfold removed, ignored. cbn [flags with_flags]. by rewrite !E by set_solver. Qed.
Lemma looks_same_bits b info info' :
  getInfoToSrxVal info' = getInfoToSrxVal info -> info_attr info' = info_attr info ->
  (forall k, k ∈ [1; 2; 3; 4; 9; 13] -> Z.testbit (flags info') k = Z.testbit (flags info) k) -> looks_same b info info'.
Proof.
  intros Ev Ea Ef. split_and!.
  - rewrite !usable_bits. unfold removed, ignored. by rewrite !Ef by set_solver.
  - unfold selected. by rewrite Ef by set_solver.
  - unfold removed. by rewrite Ef by set_solver.
  - intros j. unfold rank_le, vpref. by rewrite Ev, Ea.
  - intros j. unfold rank_le, vpref. by rewrite Ev, Ea.
Qed.

Lemma route_at r i info : router_wf r -> infos r !! i = Some info ->
  exists rn n, node info = Some rn /\ nodes r !! rn = Some n /\ i ∈ n_info n /\ route_wf r info /\ rsclient (n_table n) = false.
Proof.
  intros Hw Hi. destruct (ro_routes _ Hw i info Hi) as [Hr (rn & n & H1' & H2' & H3')]. exists rn, n.
  split_and!; try done. apply (ro_nodes _ Hw rn n H2').
Qed.
Lemma node_route r rn n i : router_wf r -> nodes r !! rn = Some n -> i ∈ n_info n ->
  exists info, infos r !! i = Some info /\ node info = Some rn /\ route_wf r info.
Proof.
  intros Hw Hn Hi. destruct (nw_routes _ _ _ (ro_nodes _ Hw rn n Hn) i Hi) as (info & Hinfo & Hr).
  exists info. split_and!; try done. by apply (ro_routes _ Hw i).
Qed.

(** The registrations of a route that keeps its identifier. *)
Lemma reg_keep r r' i info info' :
  router_wf r -> infos r !! i = Some info -> infos r' = <[i := info']> (infos r) -> info_hash info' = info_hash info -> id_of info' = id_of info ->
  (forall h k, reg r' h k = reg r h k) ->
  forall h k j, reg r' h k = Some j <-> exists jnfo, infos r' !! j = Some jnfo /\ info_hash jnfo = Some h /\ id_of jnfo = k.
Proof.
  intros Hw Hi Hi' Eh Ei Hreg. destruct (ro_routes _ Hw i info Hi) as [Hr _]. pose proof (rw_ids _ _ Hr) as Hids. unfold ids_wf in Hids.
  destruct (info_hash info) as [h1|] eqn:E1; [|done]. apply (reg_update r r' i info info' h1 h1); try done; [apply Hw|by right|].
  intros h k. rewrite Ei. case_decide as Hd; [|done]. destruct Hd as [-> ->]. rewrite Hreg. apply (ro_reg _ Hw). by exists info.
Qed.

Lemma flags_touch_wf r r' rn n i info f changed :
  router_wf r -> infos r !! i = Some info -> node info = Some rn -> nodes r !! rn = Some n ->
  env r' = env r -> ids r' = ids r -> sched r' = sched_if changed r rn n -> infos r' = <[i := with_flags info f]> (infos r) -> in_u 16 f ->
  Z.testbit f 13 = Z.testbit (flags info) 13 ->
  (Z.testbit f 3 = true -> Z.testbit (flags info) 3 = true
     \/ forall j jnfo, j ∈ n_info n -> infos r !! j = Some jnfo -> selected jnfo = false) ->
  (changed = false -> scheduled n = true \/ looks_same (r_bgp r) info (with_flags info f)) -> router_wf r'.
Proof.
  intros Hw Hi Hr Hn He Hids Hs Hi' Hf H13 H3 Hsame. destruct (ro_routes _ Hw i info Hi) as [[W1 W2 W3 W4 W5 W6] _].
  apply (touch_wf r r' rn n i info (with_flags info f) changed); try done.
  - constructor; try done. unfold ignored. cbn [flags with_flags]. by rewrite H13.
  - intros h. apply (ids_hash_wf r); [done|apply Hw].
  - apply (reg_keep r r' i info (with_flags info f)); try done. intros h k. by apply ids_reg.
Qed.
Lemma schedule_wf r r' rn n : router_wf r -> nodes r !! rn = Some n -> schedule_post r rn n r' -> router_wf r'.
Proof.
  intros Hw Hn (He & Hids & Hi & Hs). pose proof (env_fields _ _ He) as (Eb & _ & Ep & _). injection Hs as Hs1 Hs2 _.
  constructor; rewrite ?Eb; try apply Hw.
  - intros i info. rewrite Hi. intros Hinfo. destruct (ro_routes _ Hw i info Hinfo) as [Hr (rk & m & Hk & Hm & Hin)]. split; [by apply (route_wf_env r)|].
    exists rk. destruct (decide (rk = rn)) as [->|Hne].
    + assert (m = n) as -> by congruence. exists (with_scheduled n true). by rewrite Hs1, lookup_insert_eq.
    + exists m. by rewrite Hs1, lookup_insert_ne.
  - intros k m. rewrite Hs1. destruct (decide (k = rn)) as [->|Hne].
    + rewrite lookup_insert_eq. intros [= <-]. destruct (ro_nodes _ Hw rn n Hn) as [N1 N2 N3 N4 N5]. constructor; rewrite ?Hi; done.
    + rewrite lookup_insert_ne by done. intros Hm. destruct (ro_nodes _ Hw k m Hm) as [N1 N2 N3 N4 N5]. constructor; rewrite ?Hi; try done.
      intros Hsm. destruct (N5 Hsm) as [S1 S2 S3 S4]. by constructor; rewrite ?Hi, ?Eb.
  - by apply (queue_push r r' rn n).
  - intros h. apply (ids_hash_wf r); [done|apply Hw].
  - intros h k i. rewrite Hi, (ids_reg r) by done. apply Hw.
Qed.

(** ** Answers of the server *)
Lemma val_changed_false a b : isSrxValChanged a b = false <-> a = b.
Proof.
  unfold isSrxValChanged. destruct a as [a1 a2 a3], b as [b1 b2 b3]. cbn. split.
  - destruct (Z.eqb_spec a1 b1), (Z.eqb_spec a2 b2), (Z.eqb_spec a3 b3); cbn; congruence.
  - intros [= -> -> ->]. by rewrite !Z.eqb_refl.
Qed.

(** The results are stored, the route is ignored or not as the policies say, and the
    node is scheduled when either changes. *)
Lemma validation_wf r i info ty roa sec aspa : router_wf r -> infos r !! i = Some info ->
  returns (bgp_info_set_validation_result r i ty roa sec aspa) (fun r' => router_wf r' /\ env r' = env r
    /\ exists info', infos r' = <[i := info']> (infos r)
         /\ getInfoToSrxVal info' = getInfoToSrxVal (store_results ty roa sec aspa info)
         /\ updateID info' = updateID info /\ localID info' = localID info
         /\ forall rn n, node info = Some rn -> nodes r !! rn = Some n -> getInfoToSrxVal info' <> getInfoToSrxVal info ->
              exists n', nodes r' !! rn = Some n' /\ scheduled n' = true).
Proof.
  intros Hw Hi. destruct (route_at r i info Hw Hi) as (rn & n & Hr & Hn & Hin & [W1 W2 W3 W4 W5 W6] & Ht).
  destruct (decide (Z.land ty SRX_FLAG_ROA_BGPSEC_ASPA = 0)) as [E0|Hty].
  { unfold bgp_info_set_validation_result. rewrite E0. apply returns_Ok. split; [done|]. split; [done|]. exists info.
    rewrite insert_id by done. split; [done|].
    assert (forall f, Z.land f SRX_FLAG_ROA_BGPSEC_ASPA = f -> f <> 0 -> ProxyApi.isSet ty f = false) as Hset.
    { intros f Hf Hne. unfold ProxyApi.isSet. apply Z.eqb_neq. intros E. apply Hne. rewrite <- E, <- Hf, Z.land_assoc, (Z.land_comm ty f), <- Z.land_assoc, E0.
      by rewrite Z.land_0_r. }
    split_and!; try done. unfold store_results, getInfoToSrxVal. by rewrite !Hset. }
  eapply returns_mono; [by apply (validation_result_spec r i info rn n)|]. cbn zeta.
  set (info1 := store_results ty roa sec aspa info). intros r' (He & Hids & (f & Hi' & Hf & Hb) & Hs).
  split; [|split; [done|]].
  - set (ch := negb _ || _) in Hs. apply (touch_wf r r' rn n i info (with_flags info1 f) ch); try done.
    + constructor; try done. unfold ignored. cbn [flags with_flags]. by rewrite Hb by done.
    + left. unfold selected in *. cbn [flags with_flags] in *. by rewrite Hb in *.
    + intros Hch. right. apply orb_false_iff in Hch as [Hc1 Hc2]. apply val_changed_false in Hc2. apply negb_false_iff, eqb_prop in Hc1.
      apply looks_same_bits; [done|done|]. intros k Hk. cbn [flags with_flags].
      rewrite Hb by (repeat (apply elem_of_cons in Hk as [->|Hk]; [done|]); by apply elem_of_nil in Hk).
      unfold ignore_bits. case_bool_decide; [subst; by rewrite <- Hc1|done].
    + intros h. apply (ids_hash_wf r); [done|apply Hw].
    + apply (reg_keep r r' i info (with_flags info1 f)); try done. intros h k. by apply ids_reg.
  - exists (with_flags info1 f). split_and!; try done. intros rn' n' Hr' Hn' Hne. assert (rn' = rn) as -> by congruence. assert (n' = n) as -> by congruence.
    destruct (isSrxValChanged (getInfoToSrxVal info) (getInfoToSrxVal info1)) eqn:Ec.
    + rewrite orb_true_r in Hs. injection Hs as -> _ _. exists (with_scheduled n true). by rewrite lookup_insert_eq.
    + apply val_changed_false in Ec. by rewrite Ec in Hne.
Qed.

(** The first answer gives the route the identifier of the server. *)
Lemma first_answer_wf r i info u :
  router_wf r -> infos r !! i = Some info -> info_hash info = Some LidHash -> 0 < u -> reg r UidHash u = None ->
  returns (r1 ← update_info r i (fun info => with_ids info u (localID info));
           '(r1, _) ← bgp_info_register r1 UidHash i u;
           update_info (bgp_info_unregister r1 LidHash (localID info)) i (fun info => with_ids info (updateID info) 0))
    (fun r' => router_wf r' /\ env r' = env r /\ sched r' = sched r
       /\ infos r' = <[i := with_ids (with_hash info (Some UidHash)) u 0]> (infos r)).
Proof.
  intros Hw Hi Hh Hu Hnew. destruct (route_at r i info Hw Hi) as (rn & n & Hr & Hn & Hin & [W1 W2 W3 W4 W5 W6] & Ht).
  unfold ids_wf in W6. rewrite Hh in W6. destruct W6 as [Eu El]. assert (u <> 0) as Hu0 by lia.
  rewrite (update_info_eq _ _ _ _ Hi). simpl_outcome. set (r1 := put_info r i _).
  destruct (register_spec r1 UidHash i (with_ids info u (localID info)) u) as ([r2 z] & E2 & R1 & R2 & R3 & R4 & R5 & R6);
    [apply lookup_insert_eq|exact (ro_hash _ Hw UidHash)|exact Hu0|exact Hnew|]. cbn [fst] in *. rewrite E2. simpl_outcome.
  assert (forall h, hash_wf r2 h) as Hw2 by (intros h; apply R5; exact (ro_hash _ Hw h)).
  destruct (unregister_spec r2 LidHash (localID info) (Hw2 LidHash)) as (U1 & U2 & U3 & U4 & U5 & U6).
  set (r3 := bgp_info_unregister r2 LidHash (localID info)) in *.
  assert (infos r3 !! i = Some (with_hash (with_ids info u (localID info)) (Some UidHash))) as Hi3 by (rewrite U4, R4; apply lookup_insert_eq).
  rewrite (update_info_eq _ _ _ _ Hi3). apply returns_Ok. set (r4 := put_info r3 i _).
  assert (env r4 = env r) as He by (change (env r3 = env r); by rewrite U1, R1).
  assert (sched r4 = sched r) as Hs by (change (sched r3 = sched r); by rewrite U2, R2).
  assert (infos r4 = <[i := with_ids (with_hash info (Some UidHash)) u 0]> (infos r)) as Hi4.
  { cbn [infos r4 put_info set_infos]. rewrite U4, R4. cbn [infos r1 put_info set_infos]. by rewrite !insert_insert_eq. }
  split; [|done].
  apply (touch_wf r r4 rn n i info (with_ids (with_hash info (Some UidHash)) u 0) false); try done.
  - by left.
  - intros _. right. by apply looks_same_bits.
  - intros h. apply (ids_hash_wf r3); [done|]. apply U5, Hw2.
  - apply (reg_update r r4 i info (with_ids (with_hash info (Some UidHash)) u 0) LidHash UidHash); try done; [apply Hw| |].
    + left. unfold id_of. cbn [updateID with_ids]. by rewrite (proj2 (Z.eqb_neq u 0) Hu0).
    + intros h k. change (reg r4 h k) with (reg r3 h k). rewrite U6, R6. change (reg r1 h k) with (reg r h k).
      unfold id_of. cbn [updateID with_ids]. rewrite (proj2 (Z.eqb_neq u 0) Hu0), Eu. cbn [Z.eqb].
      repeat case_decide; naive_solver.
Qed.

(** The route an answer is for, and the results it brings. *)
Definition addressed r (u l : Z) : option positive := if negb (l =? 0) then reg r LidHash l else reg r UidHash u.
Definition brought r info (l ty sec : Z) : Z * Z := if negb (l =? 0) then local_bgpsec r (info_attr info) ty sec else (ty, sec).
Definition answered r info (u l ty roa sec aspa : Z) i (res : router H * bool) : Prop :=
  let '(ty, sec) := brought r info l ty sec in
  res.2 = true /\ router_wf res.1 /\ env res.1 = env r
  /\ exists info', infos res.1 = <[i := info']> (infos r) /\ updateID info' = u /\ localID info' = 0
       /\ getInfoToSrxVal info' = getInfoToSrxVal (store_results ty roa sec aspa info)
       /\ forall rn n, node info = Some rn -> nodes r !! rn = Some n -> getInfoToSrxVal info' <> getInfoToSrxVal info ->
            exists n', nodes res.1 !! rn = Some n' /\ scheduled n' = true.

Lemma known_answer_spec r u l ty roa sec aspa i :
  router_wf r -> addressed r u l = Some i -> (l <> 0 -> 0 < u /\ reg r UidHash u = None) ->
  exists info, infos r !! i = Some info
    /\ returns (handleSRxValidationResult r u l ty roa sec aspa) (answered r info u l ty roa sec aspa i).
Proof.
  intros Hw Ha Hl. unfold addressed in Ha. unfold handleSRxValidationResult, answered, brought.
  destruct (Z.eqb_spec l 0) as [El|El]; cbn [negb] in *.
  - destruct (proj1 (ro_reg _ Hw UidHash u i) Ha) as (info & Hi & Hh & Hid). exists info. split; [done|].
    rewrite bgp_info_fetch_eq, Ha by apply (ro_hash _ Hw). simpl_outcome.
    destruct (ro_routes _ Hw i info Hi) as [[_ _ _ _ _ W6] _]. unfold ids_wf in W6. rewrite Hh in W6. destruct W6 as [Wu Wl].
    unfold id_of in Hid. rewrite (proj2 (Z.eqb_neq (updateID info) 0) ltac:(lia)) in Hid.
    eapply returns_bind; [by apply (validation_wf r i info ty roa sec aspa)|]. intros r' (Hw' & He & info' & Hi' & Hv & Hu' & Hl' & Hs).
    apply returns_Ok. split_and!; try done. exists info'. split_and!; try done; congruence.
  - destruct (Hl El) as [Hu Hnew]. destruct (proj1 (ro_reg _ Hw LidHash l i) Ha) as (info & Hi & Hh & Hid). exists info. split; [done|].
    rewrite bgp_info_fetch_eq, Ha by apply (ro_hash _ Hw). simpl_outcome.
    destruct (ro_routes _ Hw i info Hi) as [[_ _ _ _ _ W6] _]. unfold ids_wf in W6. rewrite Hh in W6. destruct W6 as [Wu Wl].
    unfold id_of in Hid. rewrite Wu in Hid. cbn [Z.eqb] in Hid. subst l.
    destruct (first_answer_wf r i info u Hw Hi Hh Hu Hnew) as (r1 & E1 & Hw1 & He1 & Hs1 & Hi1).
    destruct (update_info r i _) as [ra|] eqn:Ea; [|done]. cbn [mbind outcome_bind] in E1 |- *.
    destruct (bgp_info_register ra UidHash i u) as [[rb z]|] eqn:Eb; [|done]. cbn [mbind outcome_bind] in E1 |- *.
    rewrite E1. simpl_outcome. set (info1 := with_ids (with_hash info (Some UidHash)) u 0) in *.
    assert (infos r1 !! i = Some info1) as Hi1' by (rewrite Hi1; apply lookup_insert_eq). rewrite (get_info_eq _ _ _ Hi1'). simpl_outcome.
    pose proof He1 as (Eb1 & Ec1 & _)%env_fields.
    assert (local_bgpsec r1 (info_attr info1) ty sec = local_bgpsec r (info_attr info) ty sec) as -> by (unfold local_bgpsec; by rewrite Eb1, Ec1).
    destruct (local_bgpsec r (info_attr info) ty sec) as [ty' sec'].
    eapply returns_bind; [by apply (validation_wf r1 i info1 ty' roa sec' aspa)|]. intros r' (Hw' & He & info' & Hi' & Hv & Hu' & Hl' & Hs).
    apply returns_Ok. split_and!; [done|done|by rewrite <- He1|]. exists info'. split_and!; try done.
    + cbn [fst]. rewrite Hi', Hi1. by rewrite insert_insert_eq.
    + intros rn n Hr Hn Hne. apply (Hs rn n); [done| |done]. apply sched_fields in Hs1 as [-> _]. done.
Qed.

Lemma unknown_answer_spec r u l ty roa sec aspa : router_wf r -> addressed r u l = None ->
  returns (handleSRxValidationResult r u l ty roa sec aspa) (fun res =>
    res.2 = false /\ ctx res.1 = ctx r /\ infos res.1 = infos r
    /\ sent res.1 = sent r ++ (if isConnected (srxProxy (r_bgp r)) then [ProxyApi.deleteUpdate (u16 (srx_keepWindow (r_bgp r))) u] else [])).
Proof.
  intros Hw Ha. unfold addressed in Ha. unfold handleSRxValidationResult. destruct (ro_proxy _ Hw) as [[pid c] Hp].
  assert (returns (r ← proxy_deleteUpdate r u; Ok (r, false)) (fun res => res.2 = false /\ ctx res.1 = ctx r /\ infos res.1 = infos r
    /\ sent res.1 = sent r ++ (if isConnected (srxProxy (r_bgp r)) then [ProxyApi.deleteUpdate (u16 (srx_keepWindow (r_bgp r))) u] else []))) as Hd.
  { unfold proxy_deleteUpdate. rewrite Hp. cbn [isConnected]. destruct c; by apply returns_Ok; rewrite ?app_nil_r. }
  destruct (l =? 0); cbn [negb] in *; rewrite bgp_info_fetch_eq, Ha by apply (ro_hash _ Hw); exact Hd.
Qed.

Lemma same_wf r r' : router_wf r -> ctx r' = ctx r -> infos r' = infos r -> router_wf r'.
Proof.
  intros Hw (He & Hids & Hs)%ctx_split Hi. pose proof (env_fields _ _ He) as (Eb & _ & Ep & _). pose proof (sched_fields _ _ Hs) as [En Eq].
  constructor; rewrite ?Eb, ?Eq; try apply Hw.
  - intros i info. rewrite Hi, En. intros Hinfo. destruct (ro_routes _ Hw i info Hinfo) as [Hr ?]. split; [by apply (route_wf_env r)|done].
  - intros rn n. rewrite En. intros Hn. destruct (ro_nodes _ Hw rn n Hn) as [N1 N2 N3 N4 N5]. constructor; rewrite ?Hi; try done.
    intros Hsm. destruct (N5 Hsm) as [S1 S2 S3 S4]. by constructor; rewrite ?Hi, ?Eb.
  - rewrite En. apply Hw.
  - intros h. apply (ids_hash_wf r); [done|apply Hw].
  - intros h k i. rewrite Hi, (ids_reg r) by done. apply Hw.
Qed.

Lemma notify_wf r u l ty roa sec aspa : router_wf r -> event_ok r (Notify u l ty roa sec aspa) ->
  returns (step r (Notify u l ty roa sec aspa)) router_wf.
Proof.
  intros Hw Hok. cbn [step event_ok] in *. destruct (addressed r u l) as [i|] eqn:Ea.
  - destruct (known_answer_spec r u l ty roa sec aspa i Hw Ea) as (info & Hi & Hret).
    { intros Hl. apply Hok; [done|]. unfold addressed in Ea. rewrite (proj2 (Z.eqb_neq _ _) Hl) in Ea. cbn [negb] in Ea. by rewrite Ea. }
    eapply returns_bind; [exact Hret|]. intros [r' b]. unfold answered. destruct (brought _ _ _ _ _). intros (_ & Hw' & _). by apply returns_Ok.
  - eapply returns_bind; [by apply unknown_answer_spec|]. intros [r' b] (_ & Hc & Hi & _). apply returns_Ok. by apply (same_wf r).
Qed.

(** ** Updates and withdrawals *)

(** Only the flags changed, and the route is selected as before. *)
Definition flagged r i info r' : Prop :=
  ctx r' = ctx r /\ exists f, infos r' = <[i := with_flags info f]> (infos r) /\ in_u 16 f /\ Z.testbit f 3 = Z.testbit (flags info) 3.
Lemma flagged_refl r i info : infos r !! i = Some info -> in_u 16 (flags info) -> flagged r i info r.
Proof. intros Hi Hf. split; [done|]. exists (flags info). split; [|done]. rewrite insert_id; [done|]. rewrite Hi. by destruct info. Qed.
Lemma flagged_post r i info g r' : flags_post r i info g r' -> g 3 = Z.testbit (flags info) 3 -> flagged r i info r'.
Proof. intros (Hc & f & Hi & Hf & Hb) Hg. split; [done|]. exists f. split_and!; try done. by rewrite Hb. Qed.
Lemma u16_unset_bit f j k : 0 <= j -> 0 <= k < 16 -> k <> j -> Z.testbit (u16 (UNSET_FLAG f (2 ^ j))) k = Z.testbit f k.
Proof. intros Hj Hk Hne. rewrite testbit_wrap, testbit_UNSET_FLAG by lia. rewrite bool_decide_eq_false_2 by done. apply andb_true_r. Qed.
Lemma u16_set_bit f j k : 0 <= j -> 0 <= k < 16 -> k <> j -> Z.testbit (u16 (SET_FLAG f (2 ^ j))) k = Z.testbit f k.
Proof. intros Hj Hk Hne. rewrite testbit_wrap, testbit_SET_FLAG by lia. rewrite bool_decide_eq_false_2 by done. apply orb_false_r. Qed.

Lemma restore_flagged r rn n i info : infos r !! i = Some info -> nodes r !! rn = Some n -> in_u 16 (flags info) ->
  returns (bgp_info_restore r rn i) (flagged r i info).
Proof.
  intros Hi Hn Hf. unfold bgp_info_restore. eapply returns_bind; [by apply (unset_flag_spec r rn n i info 9)|].
  intros r1 (Hc & f & Hi1 & Hf1 & Hb). rewrite (update_info_eq _ i (with_flags info f)) by by rewrite Hi1, lookup_insert_eq.
  apply returns_Ok. split; [done|]. eexists. split_and!; [cbn [infos put_info set_infos]; rewrite Hi1, insert_insert_eq; done|by apply wrap_in_u|].
  cbn [flags with_flags]. change BGP_INFO_VALID with (2 ^ 4). rewrite u16_set_bit, Hb by done. by rewrite andb_true_r.
Qed.

(** The beginning of a changed update: flags of a route that stays selected. *)
Lemma changed_flags r rn n i info :
  infos r !! i = Some info -> nodes r !! rn = Some n -> in_u 16 (flags info) ->
  returns (r ← (if CHECK_FLAG (flags info) BGP_INFO_REMOVED then bgp_info_restore r rn i else Ok r);
           info ← get_info r i;
           r ← (if CHECK_FLAG (flags info) BGP_INFO_STALE then bgp_info_unset_flag r (Some rn) i BGP_INFO_STALE else Ok r);
           bgp_info_set_flag r (Some rn) i BGP_INFO_ATTR_CHANGED) (flagged r i info).
Proof.
  intros Hi Hn Hf. eapply returns_bind.
  { instantiate (1 := flagged r i info). destruct (CHECK_FLAG _ _); [by apply (restore_flagged r rn n)|apply returns_Ok; by apply flagged_refl]. }
  intros r1 (Hc1 & f1 & Hi1 & Hf1 & Hb1). assert (infos r1 !! i = Some (with_flags info f1)) as Hl1 by (rewrite Hi1; apply lookup_insert_eq).
  assert (nodes r1 !! rn = Some n) as Hn1 by (by rewrite (ctx_nodes _ _ Hc1)). rewrite (get_info_eq _ _ _ Hl1). simpl_outcome.
  eapply returns_bind.
  { instantiate (1 := flagged r1 i (with_flags info f1)). destruct (CHECK_FLAG _ _); [|apply returns_Ok; by apply flagged_refl].
    eapply returns_mono; [by apply (unset_flag_spec r1 rn n i (with_flags info f1) 8)|]. intros r2 Hr2. apply (flagged_post _ _ _ _ _ Hr2). by rewrite andb_true_r. }
  intros r2 (Hc2 & f2 & Hi2 & Hf2 & Hb2). assert (infos r2 !! i = Some (with_flags info f2)) as Hl2 by (rewrite Hi2; apply lookup_insert_eq).
  assert (nodes r2 !! rn = Some n) as Hn2 by (by rewrite (ctx_nodes _ _ Hc2)).
  eapply returns_mono; [by apply (set_flag_spec r2 rn n i (with_flags info f2) 5)|]. intros r3 (Hc3 & f3 & Hi3 & Hf3 & Hb3).
  split; [by rewrite Hc3, Hc2|]. exists f3. split_and!; [|done|].
  - rewrite Hi3, Hi2, Hi1. by rewrite !insert_insert_eq.
  - rewrite Hb3 by done. rewrite orb_false_r. cbn [flags with_flags] in *. by rewrite Hb2.
Qed.

(** The former registration ends; [R] are the identifiers that are registered
    afterwards. *)
Definition forgotten r i info (R : hash_id -> Z -> option positive) r' : Prop :=
  env r' = env r /\ sched r' = sched r /\ suiLocalID r' = suiLocalID r
  /\ (exists v, infos r' = <[i := with_results (with_ids (with_hash info None) 0 0) v]> (infos r))
  /\ (forall h, hash_wf r' h) /\ (forall h k, reg r' h k = R h k).
Lemma forget_validation_spec r i info :
  infos r !! i = Some info -> info_hash info = Some UidHash -> 0 < updateID info -> localID info = 0 ->
  is_Some (srxProxy (r_bgp r)) -> (forall h, hash_wf r h) ->
  returns (forget_validation r i)
    (forgotten r i info (fun h k => if decide (h = UidHash /\ k = updateID info) then None else reg r h k)).
Proof.
  intros Hi Hh Hu Hl Hp Hw. unfold forget_validation. rewrite (get_info_eq _ _ _ Hi). simpl_outcome. rewrite Hh, Hl. cbn [Z.eqb negb].
  destruct (unregister_spec r UidHash (updateID info) (Hw UidHash)) as (U1 & U2 & U3 & U4 & U5 & U6).
  set (r1 := bgp_info_unregister r UidHash (updateID info)) in *.
  assert (infos r1 !! i = Some info) as Hi1 by (by rewrite U4). rewrite (update_info_eq _ _ _ _ Hi1). simpl_outcome.
  rewrite (proj2 (Z.ltb_lt 0 _) Hu). set (r2 := put_info r1 i _).
  destruct (proxy_deleteUpdate_spec r2 (updateID info)) as (r3 & -> & Hc3 & Hi3).
  { change (r_bgp r2) with (r_bgp r1). apply env_fields in U1 as (-> & _). done. }
  simpl_outcome. assert (infos r3 !! i = Some (with_hash info None)) as Hl3 by (rewrite Hi3; apply lookup_insert_eq).
  rewrite (update_info_eq _ _ _ _ Hl3). simpl_outcome. rewrite (update_info_eq _ i (with_ids (with_hash info None) 0 0)) by
    (cbn [infos put_info set_infos]; rewrite lookup_insert_eq; cbn [localID with_hash]; by rewrite Hl).
  apply returns_Ok. apply ctx_split in Hc3 as (C1 & C2 & C3). split_and!.
  - change (env r3 = env r). by rewrite C1.
  - change (sched r3 = sched r). by rewrite C3.
  - change (suiLocalID r3 = suiLocalID r). unfold ids in C2. injection C2 as _ _ ->. done.
  - eexists. cbn [infos put_info set_infos]. rewrite Hi3. cbn [infos r2 put_info set_infos]. by rewrite U4, !insert_insert_eq.
  - intros h. apply (ids_hash_wf r3); [done|]. apply (ids_hash_wf r2); [done|]. exact (U5 h (Hw h)).
  - intros h k. rewrite (ids_reg r3) by done. rewrite (ids_reg r2) by done. change (reg r2 h k) with (reg r1 h k). by rewrite U6.
Qed.

(** A route that waits for its first answer: the identifier [0] leaves the table in the
    place of the local one. *)
Lemma forget_pending_spec r i info :
  infos r !! i = Some info -> info_hash info = Some LidHash -> updateID info = 0 -> 0 < localID info -> (forall h, hash_wf r h) ->
  returns (forget_validation r i)
    (forgotten r i info (fun h k => if decide (h = LidHash /\ k = 0) then None else reg r h k)).
Proof.
  intros Hi Hh Hu Hl Hw. unfold forget_validation. rewrite (get_info_eq _ _ _ Hi). simpl_outcome. rewrite Hh, Hu.
  rewrite (proj2 (Z.eqb_neq (localID info) 0) ltac:(lia)). cbn [negb Z.ltb Z.compare].
  destruct (unregister_spec r LidHash 0 (Hw LidHash)) as (U1 & U2 & U3 & U4 & U5 & U6).
  set (r1 := bgp_info_unregister r LidHash 0) in *.
  assert (infos r1 !! i = Some info) as Hi1 by (by rewrite U4). rewrite (update_info_eq _ _ _ _ Hi1). simpl_outcome.
  rewrite (update_info_eq _ i (with_hash info None)) by apply lookup_insert_eq. simpl_outcome.
  rewrite (update_info_eq _ i (with_ids (with_hash info None) 0 0)) by (cbn [infos put_info set_infos]; rewrite lookup_insert_eq; cbn [updateID with_hash]; by rewrite Hu).
  apply returns_Ok. split_and!; try done.
  - eexists. cbn [infos put_info set_infos]. by rewrite U4, !insert_insert_eq.
  - intros h. exact (U5 h (Hw h)).
Qed.

(** The end of an update: the request, and the node is scheduled. *)
Definition requested r i info (rn : positive) n r' : Prop :=
  env r' = env r /\ suiLocalID r' = suiLocalID r
  /\ sched r' = sched_if true r rn n
  /\ (exists info', infos r' = <[i := info']> (infos r) /\ node info' = Some rn /\ route_wf r info' /\ info_hash info' = Some LidHash
        /\ id_of info' = localID info /\ selected info' = selected info /\ info_attr info' = info_attr info)
  /\ (forall h, hash_wf r' h)
  /\ (forall h k, reg r' h k = if decide (h = LidHash /\ k = localID info) then Some i else reg r h k).
Lemma request_spec r i info p rn n def :
  infos r !! i = Some info -> peers r !! info_peer info = Some p -> node info = Some rn -> nodes r !! rn = Some n ->
  rsclient (n_table n) = false -> in_u 16 (flags info) -> lock info = 1 -> input_ok (r_bgp r) p n (info_attr info) ->
  updateID info = 0 -> 0 < localID info -> (forall h, hash_wf r h) -> reg r LidHash (localID info) = None ->
  returns (r ← verify_update r i def true; bgp_process r rn) (requested r i info rn n).
Proof.
  intros Hi Hp Hr Hn Ht Hf Hlk Hin Hu Hl Hw Hreg.
  eapply returns_bind; [by apply (verify_update_spec r i info p rn n def)|].
  intros r1 (V1 & V2 & V3 & (def' & f & Ed & Hi1 & Hf1 & Hb1) & V5 & V6).
  assert (nodes r1 !! rn = Some n) as Hn1 by (pose proof V2 as [-> _]%sched_fields; done).
  eapply returns_mono; [by apply (bgp_process_spec r1 rn n)|]. intros r2 (P1 & P2 & P3 & P4). unfold requested.
  pose proof V1 as (Eb & _ & Ep & _)%env_fields. split_and!.
  - by rewrite P1, V1.
  - unfold ids in P2. injection P2 as _ _ ->. done.
  - rewrite P4. by apply (sched_if_eq true).
  - eexists. split; [by rewrite P3|]. split; [done|]. split; [|split; [done|]].
    + constructor; try done; [apply Hin|].
      unfold ignored. cbn [flags with_flags]. by rewrite Hb1 by done.
    + split; [unfold id_of; cbn; by rewrite Hu|]. split; [|done]. unfold selected. cbn [flags with_flags]. by rewrite Hb1 by done.
  - intros h. apply (ids_hash_wf r1); [done|]. apply V5.
  - intros h k. rewrite (ids_reg r1) by done. apply V6.
Qed.

Lemma next_local r : 0 <= suiLocalID r -> 0 < (getNextLocalID r).2 <= MAX_VALUE_INT.
Proof. intros Hs. unfold getNextLocalID. cbn [snd]. destruct (Z.ltb_spec (suiLocalID r) MAX_VALUE_INT); unfold MAX_VALUE_INT in *; lia. Qed.

(** A changed update, whatever identifiers stay registered: the route has its new
    attributes and waits under the next local identifier. *)
Lemma update_changed_spec r rn n i info p a reachable (R : hash_id -> Z -> option positive) :
  router_wf r -> infos r !! i = Some info -> node info = Some rn -> nodes r !! rn = Some n -> peers r !! info_peer info = Some p ->
  input_ok (r_bgp r) p n a -> 0 <= suiLocalID r -> R LidHash (getNextLocalID r).2 = None ->
  (forall r2 info2, env r2 = env r -> ids r2 = ids r -> infos r2 !! i = Some info2 ->
     info_hash info2 = info_hash info -> updateID info2 = updateID info -> localID info2 = localID info ->
     returns (forget_validation r2 i) (forgotten r2 i info2 R)) ->
  returns (update_changed r rn i p a reachable) (fun r' =>
    env r' = env r /\ sched r' = sched_if true r rn n
    /\ (exists info', infos r' = <[i := info']> (infos r) /\ node info' = Some rn /\ route_wf r info' /\ info_hash info' = Some LidHash
          /\ id_of info' = (getNextLocalID r).2 /\ selected info' = selected info /\ info_attr info' = a)
    /\ (forall h, hash_wf r' h)
    /\ (forall h k, reg r' h k = if decide (h = LidHash /\ k = (getNextLocalID r).2) then Some i else R h k)).
Proof.
  intros Hw Hi Hr Hn Hp Hin Hs Hnew Hforget. destruct (ro_routes _ Hw i info Hi) as [[W1 W2 W3 W4 W5 W6] _].
  pose proof (nw_main _ _ _ (ro_nodes _ Hw rn n Hn)) as Ht.
  unfold update_changed. rewrite (get_info_eq _ _ _ Hi). simpl_outcome.
  destruct (changed_flags r rn n i info Hi Hn W4) as (r1 & E1 & (Hc1 & f1 & Hi1 & Hf1 & Hb1)).
  destruct (if CHECK_FLAG (flags info) BGP_INFO_REMOVED then bgp_info_restore r rn i else Ok r) as [ra|]; [|done]. cbn [mbind outcome_bind] in E1 |- *.
  destruct (get_info ra i) as [ia|]; [|done]. cbn [mbind outcome_bind] in E1 |- *.
  destruct (if CHECK_FLAG (flags ia) BGP_INFO_STALE then bgp_info_unset_flag ra (Some rn) i BGP_INFO_STALE else Ok ra) as [rb|]; [|done].
  cbn [mbind outcome_bind] in E1 |- *. rewrite E1. simpl_outcome.
  assert (infos r1 !! i = Some (with_flags info f1)) as Hl1 by (rewrite Hi1; apply lookup_insert_eq).
  rewrite (update_info_eq _ _ _ _ Hl1). simpl_outcome. set (r2 := put_info r1 i _). set (info2 := with_attr (with_flags info f1) a).
  assert (infos r2 !! i = Some info2) as Hl2 by apply lookup_insert_eq.
  apply ctx_split in Hc1 as (C1 & C2 & C3). pose proof C1 as (Eb1 & _ & Ep1 & _)%env_fields. pose proof C3 as [En1 _]%sched_fields.
  destruct (Hforget r2 info2 C1 C2 Hl2 eq_refl eq_refl eq_refl) as (r3 & E3 & F1 & F2 & F3 & (v & F4) & F5 & F6).
  rewrite E3. simpl_outcome. set (info3 := with_results _ v) in F4.
  assert (infos r3 !! i = Some info3) as Hl3 by (rewrite F4; apply lookup_insert_eq).
  assert (nodes r3 !! rn = Some n) as Hn3 by (pose proof F2 as [-> _]%sched_fields; change (nodes r2) with (nodes r1); by rewrite En1).
  destruct (set_reachable_spec r3 rn n i info3 p reachable Hl3 Hn3) as (r4 & E4 & (Hc4 & f4 & Hi4 & Hf4 & Hb4)).
  rewrite E4. simpl_outcome. apply ctx_split in Hc4 as (D1 & D2 & D3). pose proof D1 as (Eb4 & _ & Ep4 & _)%env_fields.
  pose proof F1 as (Eb3 & _ & Ep3 & _)%env_fields.
  assert (suiLocalID r4 = suiLocalID r) as Es.
  { unfold ids in D2. injection D2 as _ _ ->. rewrite F3. change (suiLocalID r2) with (suiLocalID r1). unfold ids in C2. by injection C2 as _ _ ->. }
  unfold getNextLocalID in Hnew |- *. rewrite Es. cbn [snd] in Hnew. set (id := if suiLocalID r <? MAX_VALUE_INT then _ else _) in *.
  assert (0 < id) as Hid by exact (proj1 (next_local r Hs)).
  set (r5 := set_localID r4 id).
  assert (infos r5 !! i = Some (with_flags info3 f4)) as Hl5 by (cbn [infos r5 set_localID]; rewrite Hi4; apply lookup_insert_eq).
  rewrite (update_info_eq _ _ _ _ Hl5). simpl_outcome. set (r6 := put_info r5 i _). set (info6 := with_ids (with_flags info3 f4) (updateID (with_flags info3 f4)) id).
  assert (env r6 = env r) as He6 by (change (env r4 = env r); by rewrite D1, F1; change (env r2) with (env r1)).
  assert (sched r6 = sched r) as Hs6 by (change (sched r4 = sched r); by rewrite D3, F2; change (sched r2) with (sched r1)).
  assert (infos r6 = <[i := info6]> (infos r)) as Hi6.
  { cbn [infos r6 put_info set_infos r5 set_localID]. rewrite Hi4, F4. cbn [infos r2 put_info set_infos]. rewrite Hi1. by rewrite !insert_insert_eq. }
  assert (forall h k, reg r6 h k = R h k) as Hreg6.
  { intros h k. change (reg r6 h k) with (reg r4 h k). rewrite (ids_reg r3) by done. apply F6. }
  assert (forall h, hash_wf r6 h) as Hw6 by (intros h; change (hash_wf r4 h); apply (ids_hash_wf r3); [exact D2|apply F5]).
  pose proof He6 as (Eb6 & _ & Ep6 & _)%env_fields. pose proof Hs6 as [En6 _]%sched_fields.
  eapply returns_mono; [apply (request_spec r6 i info6 p rn n)|]; try done.
  - rewrite Hi6. apply lookup_insert_eq.
  - by rewrite Ep6.
  - by rewrite En6.
  - by rewrite Eb6.
  - change (localID info6) with id. by rewrite Hreg6.
  - intros r' (R1 & R2 & R3 & (info' & Hi' & Hr' & Hw' & Hh' & Hid' & Hsel' & Ha') & R5 & R6). change (localID info6) with id in *.
    split_and!; [by rewrite R1|rewrite R3; by apply sched_if_eq| |done|intros h k; by rewrite R6, Hreg6].
    exists info'. split_and!; try done.
    + by rewrite Hi', Hi6, insert_insert_eq.
    + by apply (route_wf_env r6).
    + rewrite Hsel'. unfold selected. change (flags info6) with f4. rewrite Hb4, bool_decide_eq_false_2 by done.
      change (flags info3) with f1. by rewrite Hb1.
Qed.

Lemma update_changed_wf r rn n i info p a reachable :
  router_wf r -> infos r !! i = Some info -> node info = Some rn -> nodes r !! rn = Some n -> peers r !! info_peer info = Some p ->
  input_ok (r_bgp r) p n a -> reg r LidHash (getNextLocalID r).2 = None -> 0 <= suiLocalID r -> info_hash info = Some UidHash ->
  returns (update_changed r rn i p a reachable) router_wf.
Proof.
  intros Hw Hi Hr Hn Hp Hin Hnew Hs Hh. destruct (ro_routes _ Hw i info Hi) as [[_ _ _ _ _ W6] _].
  unfold ids_wf in W6. rewrite Hh in W6. destruct W6 as [Wu Wl].
  eapply returns_mono; [apply (update_changed_spec r rn n i info p a reachable
    (fun h k => if decide (h = UidHash /\ k = updateID info) then None else reg r h k)); try done|].
  - intros r2 info2 He Hids Hi2 Eh Eu El. pose proof He as (Eb & _)%env_fields.
    destruct (forget_validation_spec r2 i info2 Hi2) as (r3 & E3 & F1 & F2 & F3 & F4 & F5 & F6); [congruence|lia|congruence|rewrite Eb; apply Hw| |].
    { intros h. apply (ids_hash_wf r); [done|apply Hw]. }
    exists r3. split; [done|]. split_and!; try done. intros h k. rewrite F6, Eu. by rewrite (ids_reg r) by done.
  - intros r' (R1 & R3 & (info' & Hi' & Hr' & Hw' & Hh' & Hid' & Hsel' & _) & R5 & R6).
    apply (touch_wf r r' rn n i info info' true); try done; [intros Hs1; left; congruence|].
    apply (reg_update r r' i info info' UidHash LidHash); try done; [apply Hw|rewrite Hid'; by left|].
    intros h k. rewrite R6, Hid'. unfold id_of. by rewrite (proj2 (Z.eqb_neq (updateID info) 0)) by lia.
Qed.

Lemma update_duplicate_wf r rn n i info : router_wf r -> infos r !! i = Some info -> node info = Some rn -> nodes r !! rn = Some n ->
  returns (update_duplicate r rn i) router_wf.
Proof.
  intros Hw Hi Hr Hn. unfold update_duplicate.
  assert (forall r0 info0 j n0, router_wf r0 -> infos r0 !! i = Some info0 -> node info0 = Some rn -> nodes r0 !! rn = Some n0 -> j ∈ [5; 8] ->
            returns (bgp_info_unset_flag r0 (Some rn) i (2 ^ j))
              (fun r' => router_wf r' /\ nodes r' = nodes r0 /\ exists f, infos r' !! i = Some (with_flags info0 f))) as Hclear.
  { intros r0 info0 j n0 Hw0 Hi0 Hr0 Hn0 Hj.
    assert (0 <= j < 16 /\ forall k, k ∈ [1; 2; 3; 4; 9; 13] -> 0 <= k < 16 /\ k <> 10 /\ k <> j) as [Hjr Hk].
    { repeat (apply elem_of_cons in Hj as [->|Hj]; [split; [done|]; intros k Hk; repeat (apply elem_of_cons in Hk as [->|Hk]; [done|]); by apply elem_of_nil in Hk|]).
      by apply elem_of_nil in Hj. }
    eapply returns_mono; [by apply (unset_flag_spec r0 rn n0 i info0 j)|]. intros r' (Hc & f & Hi' & Hf & Hb).
    apply ctx_split in Hc as (C1 & C2 & C3). assert (forall k, k ∈ [1; 2; 3; 4; 9; 13] -> Z.testbit f k = Z.testbit (flags info0) k) as Hbits.
    { intros k Hkk. destruct (Hk k Hkk) as (? & ? & ?). rewrite Hb, bool_decide_eq_false_2 by done. apply andb_true_r. }
    split; [|split; [by apply sched_fields in C3 as [-> _]|exists f; rewrite Hi'; apply lookup_insert_eq]].
    apply (flags_touch_wf r0 r' rn n0 i info0 f false); try done.
    - apply Hbits. set_solver.
    - rewrite Hbits by set_solver. by left.
    - intros _. right. by apply looks_same_bits. }
  eapply returns_bind; [apply (Hclear r info 5 n); [done..|set_solver]|]. intros r1 (Hw1 & Hn1 & f & Hi1).
  rewrite (get_info_eq _ _ _ Hi1). simpl_outcome. destruct (CHECK_FLAG _ _); [|by apply returns_Ok].
  eapply returns_bind; [apply (Hclear r1 (with_flags info f) 8 n); [done..|by rewrite Hn1|set_solver]|]. intros r2 (Hw2 & Hn2 & _).
  assert (nodes r2 !! rn = Some n) as Hn2' by (by rewrite Hn2, Hn1).
  eapply returns_mono; [apply (bgp_process_spec r2 rn n); [done|apply (ro_nodes _ Hw2 rn n Hn2')]|]. intros r3. by apply schedule_wf.
Qed.

Lemma withdraw_wf r rn pr ty sub : router_wf r -> event_ok r (Withdraw rn pr ty sub) -> returns (step r (Withdraw rn pr ty sub)) router_wf.
Proof.
  intros Hw [n Hn]. cbn [step]. unfold bgp_withdraw. rewrite (get_node_eq _ _ _ Hn). simpl_outcome.
  eapply returns_bind; [apply find_route_spec; intros i Hi; destruct (node_route r rn n i Hw Hn Hi) as (info & -> & _); by eexists|].
  intros [i|] Hf; [|by apply returns_Ok]. specialize (Hf i eq_refl). destruct (node_route r rn n i Hw Hn Hf) as (info & Hi & Hr & [W1 W2 W3 W4 W5 W6]).
  rewrite (get_info_eq _ _ _ Hi). simpl_outcome. destruct (CHECK_FLAG (flags info) BGP_INFO_HISTORY) eqn:Eh; cbn [negb]; [by apply returns_Ok|].
  unfold bgp_rib_remove. rewrite (get_info_eq _ _ _ Hi). simpl_outcome. rewrite Eh. cbn [negb]. unfold bgp_info_delete.
  destruct (set_flag_spec r rn n i info 9 Hi Hn ltac:(done)) as (r1 & E1 & (Hc1 & f1 & Hi1 & Hf1 & Hb1)). change (2 ^ 9) with BGP_INFO_REMOVED in E1. rewrite E1. simpl_outcome.
  assert (infos r1 !! i = Some (with_flags info f1)) as Hl1 by (rewrite Hi1; apply lookup_insert_eq).
  rewrite (update_info_eq _ _ _ _ Hl1). simpl_outcome. set (f2 := u16 _). set (r2 := put_info r1 i _).
  assert (nodes r2 !! rn = Some n) as Hn2 by (change (nodes r2) with (nodes r1); by rewrite (ctx_nodes _ _ Hc1)).
  pose proof (nw_main _ _ _ (ro_nodes _ Hw rn n Hn)) as Ht.
  eapply returns_mono; [by apply (bgp_process_spec r2 rn n)|]. intros r3 (P1 & P2 & P3 & P4). apply ctx_split in Hc1 as (C1 & C2 & C3).
  assert (forall k, 0 <= k < 16 -> k <> 10 -> k <> 4 -> k <> 9 -> Z.testbit f2 k = Z.testbit (flags info) k) as Hbits.
  { intros k Hk K10 K4 K9. unfold f2. change BGP_INFO_VALID with (2 ^ 4). cbn [flags with_flags]. rewrite u16_unset_bit, Hb1, bool_decide_eq_false_2 by done.
    apply orb_false_r. }
  apply (flags_touch_wf r r3 rn n i info f2 true); try done.
  - by rewrite P1.
  - by rewrite P2.
  - rewrite P4. by apply (sched_if_eq true r2).
  - rewrite P3. cbn [infos r2 put_info set_infos]. by rewrite Hi1, insert_insert_eq.
  - by apply wrap_in_u.
  - by rewrite Hbits.
  - rewrite Hbits by done. by left.
Qed.

(** A new route in front of the others. *)
Lemma add_wf r r' rn n i info' id :
  router_wf r -> infos r !! i = None -> nodes r !! rn = Some n ->
  env r' = env r -> infos r' = <[i := info']> (infos r) ->
  sched r' = sched_if true (put_node r rn (with_info_list n (i :: n_info n))) rn (with_info_list n (i :: n_info n)) ->
  route_wf r info' -> node info' = Some rn -> selected info' = false -> info_hash info' = Some LidHash -> id_of info' = id ->
  reg r LidHash id = None -> (forall h, hash_wf r' h) ->
  (forall h k, reg r' h k = if decide (h = LidHash /\ k = id) then Some i else reg r h k) ->
  router_wf r'.
Proof.
  intros Hw Hi Hn He Hi' Hs Hwf Hr Hsel Hh Hid Hnew Hhw Hreg. pose proof (env_fields _ _ He) as (Eb & _ & Ep & _).
  unfold sched_if, sched in Hs. injection Hs as Hs1 Hs2 _. cbn [nodes put_node set_nodes process_main_queue scheduled with_info_list] in Hs1, Hs2.
  rewrite insert_insert_eq in Hs1.
  assert (forall j, j <> i -> infos r' !! j = infos r !! j) as Hold by (intros j Hj; by rewrite Hi', lookup_insert_ne).
  assert (infos r' !! i = Some info') as Hnewi by (rewrite Hi'; apply lookup_insert_eq).
  assert (forall k m j, nodes r !! k = Some m -> j ∈ n_info m -> j <> i) as Hne.
  { intros k m j Hm Hj ->. destruct (nw_routes _ _ _ (ro_nodes _ Hw k m Hm) i Hj) as (jn & Hjn & _). congruence. }
  constructor; rewrite ?Eb; try apply Hw; try done.
  - intros j jnfo Hj. destruct (decide (j = i)) as [->|Hji].
    + assert (jnfo = info') as -> by congruence. split; [by apply (route_wf_env r)|]. exists rn. eexists. rewrite Hs1, lookup_insert_eq.
      split; [done|]. split; [done|]. by left.
    + rewrite Hold in Hj by done. destruct (ro_routes _ Hw j jnfo Hj) as [Hrj (rk & m & Hk & Hm & Hin)]. split; [by apply (route_wf_env r)|].
      exists rk. destruct (decide (rk = rn)) as [->|Hrk].
      * eexists. rewrite Hs1, lookup_insert_eq. split; [done|]. split; [done|]. assert (m = n) as -> by congruence. by right.
      * exists m. rewrite Hs1, lookup_insert_ne by done. done.
  - intros k m. rewrite Hs1. destruct (decide (k = rn)) as [->|Hk].
    + rewrite lookup_insert_eq. intros [= <-]. destruct (ro_nodes _ Hw rn n Hn) as [N1 N2 N3 N4 N5]. constructor; try done.
      * cbn [n_info with_scheduled with_info_list]. constructor; [|done]. intros Hin. by apply (Hne rn n i Hn Hin).
      * intros j [->|Hj]%elem_of_cons; [by exists info'|]. destruct (N3 j Hj) as (jn & Hjn & Hrj). exists jn. by rewrite Hold by apply (Hne rn n j Hn Hj).
      * intros j1 j2 b1 b2 Hj1 Hj2 Hb1 Hb2 S1 S2.
        apply elem_of_cons in Hj1 as [->|Hj1]; [congruence|]. apply elem_of_cons in Hj2 as [->|Hj2]; [congruence|].
        rewrite Hold in Hb1 by by apply (Hne rn n). rewrite Hold in Hb2 by by apply (Hne rn n). by apply (N4 j1 j2 b1 b2).
    + rewrite lookup_insert_ne by done. intros Hm. destruct (ro_nodes _ Hw k m Hm) as [N1 N2 N3 N4 N5].
      assert (forall j, j ∈ n_info m -> infos r' !! j = infos r !! j) as E by (intros j Hj; by apply Hold, (Hne k m)).
      constructor; try done.
      * intros j Hj. rewrite (E j Hj). by apply N3.
      * intros j1 j2 b1 b2 Hj1 Hj2. rewrite (E j1 Hj1), (E j2 Hj2). by apply N4.
      * intros Hsm. destruct (N5 Hsm) as [S1 S2 S3 S4]. constructor; rewrite ?Eb.
        -- intros j jn Hj. rewrite (E j Hj). by apply S1.
        -- intros j jn k' kn Hj Hjn Hsj Hk'. rewrite (E j Hj) in Hjn. rewrite (E k' Hk'). by apply (S2 j jn k' kn).
        -- intros j jn Hj. rewrite (E j Hj). intros Hjn Hu. destruct (S3 j jn Hj Hjn Hu) as (k' & kn & Hk' & Hkn & Hsk). exists k', kn. by rewrite (E k' Hk').
        -- intros j jn Hj. rewrite (E j Hj). by apply S4.
  - rewrite Hs2. destruct (ro_queue _ Hw) as [Hq1 Hq2]. split.
    + destruct (scheduled n) eqn:E; [done|]. apply NoDup_app. split; [done|]. split; [|apply NoDup_singleton].
      intros k Hk ->%list_elem_of_singleton. apply Hq2 in Hk as (m & Hm & Hsm). congruence.
    + intros k. rewrite Hs1. destruct (decide (k = rn)) as [->|Hk].
      * rewrite lookup_insert_eq. split; [intros _; by eexists|]. intros _. destruct (scheduled n) eqn:E; [apply Hq2; by exists n|].
        apply elem_of_app. right. by left.
      * rewrite lookup_insert_ne by done. rewrite <- Hq2. destruct (scheduled n); [done|]. rewrite elem_of_app, list_elem_of_singleton. tauto.
  - intros h k j. rewrite Hreg. case_decide as Hd.
    + destruct Hd as [-> ->]. split.
      * intros [= <-]. by exists info'.
      * intros (jn & Hjn & Ha & Hb). destruct (decide (j = i)) as [->|Hji]; [done|]. rewrite Hold in Hjn by done.
        assert (reg r LidHash id = Some j) by (apply (ro_reg _ Hw); by exists jn). congruence.
    + rewrite (ro_reg _ Hw). split; intros (jn & Hjn & Ha & Hb); exists jn; (split; [|done]).
      * rewrite Hold; [done|]. intros ->. congruence.
      * destruct (decide (j = i)) as [->|Hji]; [|by rewrite Hold in Hjn]. exfalso. apply Hd. assert (jn = info') as -> by congruence. split; congruence.
Qed.

Lemma input_ok_list b p n l a : input_ok b p n a -> input_ok b p (with_info_list n l) a.
Proof. intros [I1 I2 I3]. by constructor. Qed.

Lemma update_new_wf r rn n pr p ty sub a reachable :
  router_wf r -> nodes r !! rn = Some n -> peers r !! pr = Some p -> input_ok (r_bgp r) p n a ->
  reg r LidHash (getNextLocalID r).2 = None -> 0 <= suiLocalID r ->
  returns (update_new r rn pr p ty sub a reachable) router_wf.
Proof.
  intros Hw Hn Hp Hin Hnew Hs. unfold update_new. set (i := fresh (dom (infos r))).
  assert (infos r !! i = None) as Hfresh by apply not_elem_of_dom, is_fresh. pose proof (nw_main _ _ _ (ro_nodes _ Hw rn n Hn)) as Ht.
  set (new := bgp_info_new pr ty sub a). set (r0 := put_info r i new).
  destruct (set_reachable_spec r0 rn n i new p reachable ltac:(apply lookup_insert_eq) Hn) as (r1 & E1 & (Hc1 & f1 & Hi1 & Hf1 & Hb1)).
  rewrite E1. simpl_outcome. apply ctx_split in Hc1 as (C1 & C2 & C3). pose proof (sched_fields _ _ C3) as [En1 _]. change (nodes r0) with (nodes r) in En1.
  unfold bgp_info_add. rewrite (get_node_eq r1 rn n) by by rewrite En1. simpl_outcome. set (n2 := with_info_list n (i :: n_info n)).
  rewrite (update_info_eq _ i (with_flags new f1)) by (cbn [infos put_node set_nodes]; rewrite Hi1; apply lookup_insert_eq). simpl_outcome.
  unfold bgp_info_lock. rewrite (update_info_eq _ i (with_node (with_flags new f1) (Some rn))) by apply lookup_insert_eq. simpl_outcome.
  set (r2 := put_info (put_info _ _ _) _ _). change (suiLocalID r2) with (suiLocalID r1).
  assert (suiLocalID r1 = suiLocalID r) as Es by (unfold ids in C2; by injection C2 as _ _ ->).
  unfold getNextLocalID in Hnew |- *. change (suiLocalID r2) with (suiLocalID r1). rewrite Es. cbn [snd] in Hnew. set (id := if suiLocalID r <? MAX_VALUE_INT then _ else _) in *.
  assert (0 < id) as Hid by exact (proj1 (next_local r Hs)).
  rewrite (update_info_eq _ i (with_lock (with_node (with_flags new f1) (Some rn)) 1)) by apply lookup_insert_eq. simpl_outcome.
  rewrite (update_info_eq _ i (with_ids (with_lock (with_node (with_flags new f1) (Some rn)) 1) 0 id)) by apply lookup_insert_eq. simpl_outcome.
  set (info3 := with_results _ _). set (r3 := put_info (put_info _ _ _) _ _).
  assert (env r3 = env r) as He3 by exact C1.
  assert (infos r3 = <[i := info3]> (infos r)) as Hi3.
  { unfold r3. cbn [infos put_info set_infos set_localID r2 put_node set_nodes]. rewrite Hi1. cbn [infos put_info set_infos r0]. by rewrite !insert_insert_eq. }
  assert (nodes r3 = <[rn := n2]> (nodes r)) as Hn3 by (change (nodes r3) with (<[rn := n2]> (nodes r1)); by rewrite En1).
  pose proof He3 as (Eb3 & _ & Ep3 & _)%env_fields.
  assert (forall h k, reg r3 h k = reg r h k) as Hreg3 by (intros h k; change (reg r3 h k) with (reg r1 h k); by apply (ids_reg r0)).
  assert (forall h, hash_wf r3 h) as Hw3 by (intros h; change (hash_wf r1 h); apply (ids_hash_wf r0); [exact C2|exact (ro_hash _ Hw h)]).
  eapply returns_mono; [apply (request_spec r3 i info3 p rn n2)|]; try done.
  - rewrite Hi3. apply lookup_insert_eq.
  - by rewrite Ep3.
  - rewrite Hn3. apply lookup_insert_eq.
  - rewrite Eb3. by apply input_ok_list.
  - change (localID info3) with id. by rewrite Hreg3.
  - intros r' (R1 & R2 & R3 & (info' & Hi' & Hr' & Hw' & Hh' & Hid' & Hsel' & _) & R5 & R6). change (localID info3) with id in *.
    apply (add_wf r r' rn n i info' id); try done.
    + by rewrite R1.
    + rewrite Hi', Hi3. by rewrite insert_insert_eq.
    + rewrite R3. apply sched_if_eq. change (sched r3) with (sched (put_node r1 rn n2)). unfold sched in *. cbn [nodes put_node set_nodes process_main_queue process_rsclient_queue].
      by injection C3 as -> -> ->.
    + by apply (route_wf_env r3).
    + rewrite Hsel'. unfold selected. change (flags info3) with f1. rewrite Hb1, bool_decide_eq_false_2 by done. done.
    + intros h k. by rewrite R6, Hreg3.
Qed.

Lemma find_route_peer r pr ty sub l i info : find_route r pr ty sub l = Ok (Some i) -> infos r !! i = Some info -> info_peer info = pr.
Proof.
  intros Hf Hi. induction l as [|j l IH]; [done|]. cbn [find_route] in Hf. unfold get_info, deref in Hf.
  destruct (infos r !! j) as [jn|] eqn:Hj; [|done]. cbn [mbind outcome_bind] in Hf.
  destruct (bool_decide (info_peer jn = pr) && _ && _) eqn:E; [|by apply IH].
  injection Hf as ->. apply andb_true_iff in E as [[E _]%andb_true_iff _]. apply bool_decide_eq_true in E. congruence.
Qed.
Lemma update_wf r rn pr ty sub a reachable : router_wf r -> event_ok r (Update rn pr ty sub a reachable) ->
  returns (step r (Update rn pr ty sub a reachable)) router_wf.
Proof.
  intros Hw (n & p & Hn & Hp & Hin & Hnew & Hs & Hans). cbn [step]. unfold bgp_update_main, deref. rewrite Hp. simpl_outcome.
  rewrite (get_node_eq _ _ _ Hn). simpl_outcome.
  assert (forall i, i ∈ n_info n -> is_Some (infos r !! i)) as Hroutes.
  { intros i Hi. destruct (node_route r rn n i Hw Hn Hi) as (info & -> & _). by eexists. }
  destruct (find_route_spec r pr ty sub (n_info n) Hroutes) as (o & Eo & Hf). rewrite Eo. simpl_outcome. destruct o as [i|]; [|by apply (update_new_wf r rn n)].
  specialize (Hf i eq_refl). destruct (node_route r rn n i Hw Hn Hf) as (info & Hi & Hr & Hwf). rewrite (get_info_eq _ _ _ Hi). simpl_outcome.
  destruct (negb _ && _); [by apply (update_duplicate_wf r rn n i info)|]. apply (update_changed_wf r rn n i info); try done.
  - by rewrite (find_route_peer r pr ty sub (n_info n) i info).
  - by apply (Hans i info).
Qed.
End run.
End RouterRun.
