(* ===== verification/RouterProcess.v ===== *)
(** * The processing of a node: the selected route

    The decision process keeps the invariant of the router, leaves the best usable
    route of the node selected and takes the node from the queue.  With the events of
    RouterRun: in every run the selected routes follow the validation. *)
From S2P Require Import Prelude Lists Bytes SrxDefs UtHash UpdateCache SrxPackets ProxyApi HashMessage.
From S2P Require Import RouterConfig RouterAsPath RouterTable RouterDecision RouterState RouterRun.

Module RouterProcess.
Import SrxPackets RouterConfig RouterAsPath RouterTable RouterDecision RouterState RouterRun.

Section process.
Context {H : Type} `{UTHashLaws H} `{LocalCrypto}.
Implicit Types (r : router H) (e : event).

(** ** Taking a node from the queue *)

(** What the process keeps: the routes that stay differ in their flags. *)
Record frame r r' : Prop := mk_frame {
  fr_env : env r' = env r;
  fr_queue : process_main_queue r' = process_main_queue r;
  fr_infos : forall i info', infos r' !! i = Some info' -> exists info f, infos r !! i = Some info /\ info' = with_flags info f
}.
Lemma with_flags_id info : with_flags info (flags info) = info.
Proof. by destruct info. Qed.
Lemma frame_same r r' : env r' = env r -> process_main_queue r' = process_main_queue r -> infos r' = infos r -> frame r r'.
Proof. intros E1 E2 Ei. constructor; [done|done|]. intros i info. rewrite Ei. intros Hi. exists info, (flags info). by rewrite with_flags_id. Qed.
Lemma frame_refl r r' : ctx r' = ctx r -> infos r' = infos r -> frame r r'.
Proof. intros (E1 & _ & [_ E3]%sched_fields)%ctx_split Ei. by apply frame_same. Qed.
Lemma frame_trans r1 r2 r3 : frame r1 r2 -> frame r2 r3 -> frame r1 r3.
Proof.
  intros [A1 A2 A3] [B1 B2 B3]. constructor; [by rewrite B1|by rewrite B2|]. intros i info (x & f & Hx & ->)%B3.
  destruct (A3 i x Hx) as (y & g & Hy & ->). by exists y, f.
Qed.
Lemma frame_flags r r' i info f : ctx r' = ctx r -> infos r !! i = Some info -> infos r' = <[i := with_flags info f]> (infos r) -> frame r r'.
Proof.
  intros (E1 & _ & [_ E3]%sched_fields)%ctx_split Hi Ei. constructor; [done|done|]. intros j jnfo. rewrite Ei.
  intros [[<- <-]|[_ Hj]]%lookup_insert_Some; [by exists info, f|]. exists jnfo, (flags jnfo). by rewrite with_flags_id.
Qed.
Lemma frame_delete r r' i : env r' = env r -> process_main_queue r' = process_main_queue r -> infos r' = delete i (infos r) -> frame r r'.
Proof.
  intros E1 E2 Ei. constructor; [done|done|]. intros j jnfo. rewrite Ei. intros [_ Hj]%lookup_delete_Some. exists jnfo, (flags jnfo). by rewrite with_flags_id.
Qed.

(** The router while [rn] is taken from the queue and processed. *)
Definition busy (rn : positive) r : router H := set_queues r (rn :: process_main_queue r) (process_rsclient_queue r).

Lemma reap_wf r r' rn n i info :
  router_wf r -> nodes r !! rn = Some n -> scheduled n = true -> i ∈ n_info n -> infos r !! i = Some info ->
  env r' = env r -> infos r' = delete i (infos r) ->
  sched r' = (<[rn := with_info_list n (filter (fun j => j <> i) (n_info n))]> (nodes r), process_main_queue r, process_rsclient_queue r) ->
  (forall h, hash_wf r' h) -> (forall h k, reg r' h k = unreg (info_hash info) (id_of info) (reg r) h k) -> router_wf r'.
Proof.
  intros Hw Hn Hsn Hin Hi He Hi' Hs Hh Hreg. pose proof (env_fields _ _ He) as (Eb & _ & Ep & _). unfold sched in Hs. injection Hs as Hs1 Hs2 _.
  assert (forall j, j <> i -> infos r' !! j = infos r !! j) as Hold by (intros j Hj; by rewrite Hi', lookup_delete_ne).
  assert (infos r' !! i = None) as Hgone by (rewrite Hi'; apply lookup_delete_eq).
  destruct (nw_routes _ _ _ (ro_nodes _ Hw rn n Hn) i Hin) as (info0 & Hi0 & Hr). assert (info0 = info) as -> by congruence.
  constructor; rewrite ?Eb; try apply Hw; try done.
  - intros j jnfo Hj. assert (j <> i) as Hji by (intros ->; congruence). rewrite Hold in Hj by done.
    destruct (ro_routes _ Hw j jnfo Hj) as [Hrj (rk & m & Hk & Hm & Hinj)]. split; [by apply (route_wf_env r)|].
    exists rk. destruct (decide (rk = rn)) as [->|Hne].
    + eexists. rewrite Hs1, lookup_insert_eq. split; [done|]. split; [done|]. cbn [n_info with_info_list].
      apply list_elem_of_filter. split; [done|]. by assert (m = n) as <- by congruence.
    + exists m. rewrite Hs1, lookup_insert_ne by done. done.
  - intros k m. rewrite Hs1. destruct (decide (k = rn)) as [->|Hne].
    + rewrite lookup_insert_eq. intros [= <-]. destruct (ro_nodes _ Hw rn n Hn) as [N1 N2 N3 N4 N5].
      constructor; cbn [n_info with_info_list n_table scheduled]; try done.
      * by apply NoDup_filter.
      * intros j [Hji Hj]%list_elem_of_filter. rewrite Hold by done. by apply N3.
      * intros j1 j2 b1 b2 [Hj1 L1]%list_elem_of_filter [Hj2 L2]%list_elem_of_filter. rewrite !Hold by done. by apply N4.
      * congruence.
    + rewrite lookup_insert_ne by done. intros Hm. destruct (ro_nodes _ Hw k m Hm) as [N1 N2 N3 N4 N5].
      assert (forall j, j ∈ n_info m -> infos r' !! j = infos r !! j) as E.
      { intros j Hj. apply Hold. intros ->. destruct (N3 i Hj) as (jn & Hjn & Hrj). congruence. }
      constructor; try done.
      * intros j Hj. rewrite (E j Hj). by apply N3.
      * intros j1 j2 b1 b2 Hj1 Hj2. rewrite (E j1 Hj1), (E j2 Hj2). by apply N4.
      * intros Hsm. destruct (N5 Hsm) as [S1 S2 S3 S4]. constructor; rewrite ?Eb.
        -- intros j jn Hj. rewrite (E j Hj). by apply S1.
        -- intros j jn k' kn Hj Hjn Hsj Hk'. rewrite (E j Hj) in Hjn. rewrite (E k' Hk'). by apply (S2 j jn k' kn).
        -- intros j jn Hj. rewrite (E j Hj). intros Hjn Hu. destruct (S3 j jn Hj Hjn Hu) as (k' & kn & Hk' & Hkn & Hsk). exists k', kn. by rewrite (E k' Hk').
        -- intros j jn Hj. rewrite (E j Hj). by apply S4.
  - rewrite Hs2. destruct (ro_queue _ Hw) as [Hq1 Hq2]. split; [done|]. intros k. rewrite Hq2, Hs1. destruct (decide (k = rn)) as [->|Hne].
    + rewrite lookup_insert_eq. split; intros _; [eexists; by split|by exists n].
    + by rewrite lookup_insert_ne.
  - intros h k j. rewrite Hreg. unfold unreg. case_decide as Hd.
    + destruct Hd as [Hd ->]. split; [done|]. intros (jn & Hjn & Ha & Hb). assert (j <> i) as Hji by (intros ->; congruence). rewrite Hold in Hjn by done.
      assert (reg r h (id_of info) = Some i) by (apply (ro_reg _ Hw); by exists info).
      assert (reg r h (id_of info) = Some j) by (apply (ro_reg _ Hw); by exists jn). congruence.
    + rewrite (ro_reg _ Hw). split; intros (jn & Hjn & Ha & Hb); exists jn; (split; [|done]).
      * rewrite Hold; [done|]. intros ->. apply Hd. assert (jn = info) as -> by congruence. done.
      * rewrite Hold in Hjn; [done|]. intros ->. congruence.
Qed.

Lemma busy_flags_wf rn r r' n i info f :
  router_wf (busy rn r) -> infos r !! i = Some info -> node info = Some rn -> nodes r !! rn = Some n -> scheduled n = true ->
  ctx r' = ctx r -> infos r' = <[i := with_flags info f]> (infos r) -> in_u 16 f -> Z.testbit f 13 = Z.testbit (flags info) 13 ->
  (Z.testbit f 3 = true -> Z.testbit (flags info) 3 = true
     \/ forall j jnfo, j ∈ n_info n -> infos r !! j = Some jnfo -> selected jnfo = false) ->
  router_wf (busy rn r').
Proof.
  intros Hw Hi Hr Hn Hsn (C1 & C2 & C3)%ctx_split Hi' Hf H13' H3'.
  apply (flags_touch_wf (busy rn r) (busy rn r') rn n i info f false); try done; [|by left].
  unfold sched_if, sched in *. cbn [nodes busy set_queues process_main_queue process_rsclient_queue]. by injection C3 as -> -> ->.
Qed.

(** What the loop has seen of the routes outside [l]. *)
Record loop_inv (rn : positive) r (n : bgp_node) (old new : option positive) (l : list positive) : Prop := mk_loop_inv {
  li_wf : router_wf (busy rn r);
  li_node : nodes r !! rn = Some n;
  li_sched : scheduled n = true;
  li_nodup : NoDup l;
  li_rest : forall i, i ∈ l -> i ∈ n_info n;
  li_old : forall o, old = Some o -> o ∈ n_info n /\ o ∉ l;
  li_selected : forall j jnfo, j ∈ n_info n -> j ∉ l -> infos r !! j = Some jnfo -> (selected jnfo = true <-> old = Some j);
  li_removed : forall j jnfo, j ∈ n_info n -> j ∉ l -> infos r !! j = Some jnfo -> removed jnfo = true -> old = Some j;
  li_new : forall s, new = Some s -> s ∈ n_info n /\ s ∉ l /\ exists snfo, infos r !! s = Some snfo /\ usable snfo = true;
  li_best : forall j jnfo, j ∈ n_info n -> j ∉ l -> infos r !! j = Some jnfo -> usable jnfo = true ->
              exists s snfo, new = Some s /\ infos r !! s = Some snfo /\ rank_le (r_bgp r) jnfo snfo
}.

Lemma usable_facts info : usable info = true -> removed info = false /\ ignored info = false.
Proof. rewrite usable_bits. intros [_ Hn]%andb_true_iff. apply negb_true_iff in Hn. rewrite !orb_false_iff in Hn. naive_solver. Qed.
Lemma removed_unusable info : removed info = true -> usable info = false.
Proof. intros Hr. destruct (usable info) eqn:E; [|done]. apply usable_facts in E as [E _]. congruence. Qed.

(** A route that cannot be used and stays. *)
Lemma loop_skip rn r n old new i l info : loop_inv rn r n old new (i :: l) -> infos r !! i = Some info -> usable info = false ->
  let old' := if selected info then Some i else old in
  (removed info = true -> old' = Some i) -> loop_inv rn r n old' new l.
Proof.
  intros [L1 L2 L3 L4 L5 L6 L7 L8 L9 L10] Hi Hu old' Hrem. apply NoDup_cons in L4 as [Hil Hl].
  assert (forall j, j ∈ n_info n -> j ∉ l -> j <> i -> j ∉ i :: l) as Hout by (intros j Hj Hjl Hji [?|?]%elem_of_cons; done).
  assert (i ∈ n_info n) as Hin by (apply L5; by left).
  constructor; try done.
  - intros j Hj. apply L5. by right.
  - intros o. unfold old'. destruct (selected info); [by intros [= <-]|]. intros Ho. destruct (L6 o Ho) as [? Hn]. split; [done|]. intros ?. apply Hn. by right.
  - intros j jnfo Hj Hjl Hjn. unfold old'. destruct (decide (j = i)) as [->|Hji].
    + assert (jnfo = info) as -> by congruence. destruct (selected info); [done|]. split; [done|]. intros Ho. destruct (L6 i Ho) as [_ Hn]. exfalso. apply Hn. by left.
    + rewrite (L7 j jnfo Hj (Hout j Hj Hjl Hji) Hjn). destruct (selected info) eqn:Es; [|done]. split; [|congruence].
      intros Ho. exfalso. apply Hji. assert (selected jnfo = true) as Hsj by (by apply (L7 j jnfo Hj (Hout j Hj Hjl Hji) Hjn)).
      exact (nw_selected _ _ _ (ro_nodes _ L1 rn n L2) j i jnfo info Hj Hin Hjn Hi Hsj Es).
  - intros j jnfo Hj Hjl Hjn Hrj. destruct (decide (j = i)) as [->|Hji]; [apply Hrem; congruence|].
    pose proof (L8 j jnfo Hj (Hout j Hj Hjl Hji) Hjn Hrj) as Ho. unfold old'. destruct (selected info) eqn:Es; [|done].
    exfalso. apply Hji. assert (selected jnfo = true) as Hsj by (by apply (L7 j jnfo Hj (Hout j Hj Hjl Hji) Hjn)).
    exact (nw_selected _ _ _ (ro_nodes _ L1 rn n L2) j i jnfo info Hj Hin Hjn Hi Hsj Es).
  - intros s Hs. destruct (L9 s Hs) as (? & Hn & ?). split_and!; try done. intros ?. apply Hn. by right.
  - intros j jnfo Hj Hjl Hjn Huj. destruct (decide (j = i)) as [->|Hji]; [congruence|]. by apply (L10 j jnfo Hj (Hout j Hj Hjl Hji)).
Qed.

(** A route that can be used. *)
Lemma loop_use rn r n old new i l info (better : bool) :
  loop_inv rn r n old new (i :: l) -> infos r !! i = Some info -> usable info = true ->
  (better = true -> forall s snfo, new = Some s -> infos r !! s = Some snfo -> rank_le (r_bgp r) snfo info) ->
  (better = false -> exists s snfo, new = Some s /\ infos r !! s = Some snfo /\ rank_le (r_bgp r) info snfo) ->
  loop_inv rn r n (if selected info then Some i else old) (if better then Some i else new) l.
Proof.
  intros [L1 L2 L3 L4 L5 L6 L7 L8 L9 L10] Hi Hu Hb1 Hb2. apply NoDup_cons in L4 as [Hil Hl].
  assert (forall j, j ∈ n_info n -> j ∉ l -> j <> i -> j ∉ i :: l) as Hout by (intros j Hj Hjl Hji [?|?]%elem_of_cons; done).
  assert (i ∈ n_info n) as Hin by (apply L5; by left).
  constructor; try done.
  - intros j Hj. apply L5. by right.
  - intros o. destruct (selected info); [by intros [= <-]|]. intros Ho. destruct (L6 o Ho) as [? Hn]. split; [done|]. intros ?. apply Hn. by right.
  - intros j jnfo Hj Hjl Hjn. destruct (decide (j = i)) as [->|Hji].
    + assert (jnfo = info) as -> by congruence. destruct (selected info); [done|]. split; [done|]. intros Ho. destruct (L6 i Ho) as [_ Hn]. exfalso. apply Hn. by left.
    + rewrite (L7 j jnfo Hj (Hout j Hj Hjl Hji) Hjn). destruct (selected info) eqn:Es; [|done]. split; [|congruence].
      intros Ho. exfalso. apply Hji. assert (selected jnfo = true) as Hsj by (by apply (L7 j jnfo Hj (Hout j Hj Hjl Hji) Hjn)).
      exact (nw_selected _ _ _ (ro_nodes _ L1 rn n L2) j i jnfo info Hj Hin Hjn Hi Hsj Es).
  - intros j jnfo Hj Hjl Hjn Hrj. destruct (decide (j = i)) as [->|Hji].
    + assert (jnfo = info) as -> by congruence. apply usable_facts in Hu as [? _]. congruence.
    + pose proof (L8 j jnfo Hj (Hout j Hj Hjl Hji) Hjn Hrj) as Ho. destruct (selected info) eqn:Es; [|done].
      exfalso. apply Hji. assert (selected jnfo = true) as Hsj by (by apply (L7 j jnfo Hj (Hout j Hj Hjl Hji) Hjn)).
      exact (nw_selected _ _ _ (ro_nodes _ L1 rn n L2) j i jnfo info Hj Hin Hjn Hi Hsj Es).
  - intros s. destruct better; [intros [= <-]; split_and!; try done; by exists info|].
    intros Hs. destruct (L9 s Hs) as (? & Hn & ?). split_and!; try done. intros ?. apply Hn. by right.
  - intros j jnfo Hj Hjl Hjn Huj. destruct better.
    + exists i, info. split; [done|]. split; [done|]. destruct (decide (j = i)) as [->|Hji]; [assert (jnfo = info) as -> by congruence; apply rank_le_refl|].
      destruct (L10 j jnfo Hj (Hout j Hj Hjl Hji) Hjn Huj) as (s & snfo & Hs & Hsn & Hle). eapply rank_le_trans; [exact Hle|]. by apply (Hb1 eq_refl s).
    + destruct (decide (j = i)) as [->|Hji]; [assert (jnfo = info) as -> by congruence; by apply Hb2|]. by apply (L10 j jnfo Hj (Hout j Hj Hjl Hji)).
Qed.

(** Flags the decision does not look at. *)
Lemma loop_flags rn r r' n old new l i info f :
  loop_inv rn r n old new l -> infos r !! i = Some info -> i ∈ n_info n -> ctx r' = ctx r -> infos r' = <[i := with_flags info f]> (infos r) ->
  in_u 16 f -> (forall k, k ∈ [1; 2; 3; 4; 9; 13] -> Z.testbit f k = Z.testbit (flags info) k) -> loop_inv rn r' n old new l.
Proof.
  intros [L1 L2 L3 L4 L5 L6 L7 L8 L9 L10] Hi Hin Hc Hi' Hf Hb.
  destruct (node_route (busy rn r) rn n i L1 L2 Hin) as (info0 & Hi0 & Hr & _). assert (info0 = info) as -> by (cbn in Hi0; congruence).
  assert (forall j jnfo, infos r' !! j = Some jnfo -> exists jn, infos r !! j = Some jn /\ looks_same (r_bgp r) jn jnfo) as Hback.
  { intros j jnfo. rewrite Hi'. destruct (decide (j = i)) as [->|Hji].
    - rewrite lookup_insert_eq. intros [= <-]. exists info. split; [done|]. by apply looks_same_bits.
    - rewrite lookup_insert_ne by done. intros Hj. exists jnfo. by repeat split. }
  assert (forall j jn, infos r !! j = Some jn -> exists jnfo, infos r' !! j = Some jnfo /\ looks_same (r_bgp r) jn jnfo) as Hforth.
  { intros j jn Hj. rewrite Hi'. destruct (decide (j = i)) as [->|Hji].
    - rewrite lookup_insert_eq. exists (with_flags info f). split; [done|]. assert (jn = info) as -> by congruence. by apply looks_same_bits.
    - rewrite lookup_insert_ne by done. exists jn. by repeat split. }
  constructor; try done.
  - apply (busy_flags_wf rn r r' n i info f); try done; [apply Hb; set_solver|]. rewrite Hb by set_solver. by left.
  - by rewrite (ctx_nodes _ _ Hc).
  - intros j jnfo Hj Hjl (jn & Hjn & _ & -> & _)%Hback. by apply L7.
  - intros j jnfo Hj Hjl (jn & Hjn & _ & _ & -> & _)%Hback. by apply (L8 j jn).
  - intros s Hs. destruct (L9 s Hs) as (? & ? & snfo & Hsn & Hu). split; [done|]. split; [done|].
    destruct (Hforth s snfo Hsn) as (snfo' & Hsn' & Lu & _). exists snfo'. by rewrite Lu.
  - intros j jnfo Hj Hjl (jn & Hjn & Lu & _ & _ & _ & Lr)%Hback. rewrite Lu. intros Hu.
    destruct (L10 j jn Hj Hjl Hjn Hu) as (s & snfo & Hs & Hsn & Hle). destruct (Hforth s snfo Hsn) as (snfo' & Hsn' & _ & _ & _ & Lr' & _).
    exists s, snfo'. split; [done|]. split; [done|]. rewrite (ctx_bgp _ _ Hc). by rewrite Lr, Lr'.
Qed.

(** A removed route that is not selected is freed. *)
Lemma loop_reap rn r n old new i l info :
  loop_inv rn r n old new (i :: l) -> infos r !! i = Some info -> removed info = true -> selected info = false ->
  returns (bgp_info_reap r rn i) (fun r' => frame r r'
    /\ loop_inv rn r' (with_info_list n (filter (fun j => j <> i) (n_info n))) old new l).
Proof.
  intros [L1 L2 L3 L4 L5 L6 L7 L8 L9 L10] Hi Hrem Hsel. assert (i ∈ n_info n) as Hin by (apply L5; by left).
  destruct (ro_routes _ L1 i info Hi) as [[W1 W2 W3 W4 W5 W6] _].
  eapply returns_mono; [apply (reap_spec r rn n i info); [done|done|done|exact (ro_proxy _ L1)|exact (ro_hash _ L1)]|].
  intros r' (E1 & E2 & E3 & E4 & E5 & E6).
  assert (process_main_queue r' = process_main_queue r) as Eq by exact (f_equal (fun x => x.1.2) E4).
  split; [by apply (frame_delete r r' i)|]. apply NoDup_cons in L4 as [Hil Hl].
  assert (forall j, j ∈ n_info n -> j ∉ l -> j <> i -> j ∉ i :: l) as Hout by (intros j Hj Hjl Hji [?|?]%elem_of_cons; done).
  assert (forall j, j <> i -> infos r' !! j = infos r !! j) as Hold by (intros j Hj; by rewrite E3, lookup_delete_ne).
  pose proof (env_fields _ _ E1) as (Eb & _). unfold sched in E4. pose proof (f_equal (fun x => x.1.1) E4 : nodes r' = _) as En. cbn in En.
  assert (process_rsclient_queue r' = process_rsclient_queue r) as Eqr by exact (f_equal snd E4).
  constructor; try done.
  - apply (reap_wf (busy rn r) (busy rn r') rn n i info); try done. unfold sched. cbn [nodes busy set_queues process_main_queue process_rsclient_queue].
    by rewrite En, Eq, Eqr.
  - rewrite En. apply lookup_insert_eq.
  - intros j Hj. cbn [n_info with_info_list]. apply list_elem_of_filter. split; [by intros ->|]. apply L5. by right.
  - intros o Ho. destruct (L6 o Ho) as [? Hn]. split; [|intros ?; apply Hn; by right]. apply list_elem_of_filter. split; [|done].
    intros ->. apply Hn. by left.
  - intros j jnfo [Hji Hj]%list_elem_of_filter Hjl. rewrite Hold by done. by apply L7, Hout.
  - intros j jnfo [Hji Hj]%list_elem_of_filter Hjl. rewrite Hold by done. by apply L8, Hout.
  - intros s Hs. destruct (L9 s Hs) as (? & Hn & snfo & Hsn & Hu). assert (s <> i) by (intros ->; apply Hn; by left).
    split_and!; [by apply list_elem_of_filter|intros ?; apply Hn; by right|]. exists snfo. by rewrite Hold.
  - intros j jnfo [Hji Hj]%list_elem_of_filter Hjl. rewrite Hold by done. intros Hjn Hu.
    destruct (L10 j jnfo Hj (Hout j Hj Hjl Hji) Hjn Hu) as (s & snfo & Hs & Hsn & Hle). destruct (L9 s Hs) as (_ & Hn & _).
    exists s, snfo. rewrite Hold by (intros ->; apply Hn; by left). by rewrite Eb.
Qed.

Lemma select_loop_spec rn l : forall r n old new, loop_inv rn r n old new l ->
  returns (select_loop r rn old new l) (fun res => let '(r', old', new') := res in
    frame r r' /\ exists n', loop_inv rn r' n' old' new' []).
Proof.
  induction l as [|i l IH]; intros r n old new HL; [apply returns_Ok; split; [by apply frame_refl|eauto]|]. cbn [select_loop].
  pose proof (li_rest _ _ _ _ _ _ HL i ltac:(by left)) as Hin. pose proof (li_wf _ _ _ _ _ _ HL) as Hw.
  destruct (node_route (busy rn r) rn n i Hw (li_node _ _ _ _ _ _ HL) Hin) as (info & Hi & Hr & Hwf). change (infos (busy rn r)) with (infos r) in Hi.
  rewrite (get_info_eq _ _ _ Hi). simpl_outcome. rewrite holddown_usable.
  change (CHECK_FLAG (flags info) BGP_INFO_SELECTED) with (CHECK_FLAG (flags info) (2 ^ 3)). change (CHECK_FLAG (flags info) BGP_INFO_REMOVED) with (CHECK_FLAG (flags info) (2 ^ 9)).
  rewrite !CHECK_FLAG_bit by done. change (Z.testbit (flags info) 3) with (selected info). change (Z.testbit (flags info) 9) with (removed info).
  set (old' := if selected info then Some i else old).
  assert (forall r' n' new', frame r r' -> loop_inv rn r' n' old' new' l ->
            returns (select_loop r' rn old' new' l) (fun res => let '(r'', old'', new'') := res in frame r r'' /\ exists n', loop_inv rn r'' n' old'' new'' [])) as Hgo.
  { intros r' n' new' He HL'. eapply returns_mono; [by apply (IH r' n')|]. intros [[r2 o2] s2] [He2 Hn2]. split; [by apply (frame_trans _ r')|done]. }
  destruct (usable info) eqn:Hu; cbn [negb].
  - assert (bgp_flag_check (r_bgp r) BGP_FLAG_DETERMINISTIC_MED = false) as -> by exact (ro_med _ Hw). cbn [andb].
    assert (nodes r !! rn = Some n) as Hn by apply HL.
    destruct (unset_flag_spec r rn n i info 6 Hi Hn ltac:(done)) as (r1 & E1 & (Hc1 & f1 & Hi1 & Hf1 & Hb1)). change (2 ^ 6) with BGP_INFO_DMED_CHECK in E1.
    rewrite E1. simpl_outcome. assert (infos r1 !! i = Some (with_flags info f1)) as Hl1 by (rewrite Hi1; apply lookup_insert_eq).
    assert (nodes r1 !! rn = Some n) as Hn1 by (by rewrite (ctx_nodes _ _ Hc1)).
    destruct (unset_flag_spec r1 rn n i (with_flags info f1) 7 Hl1 Hn1 ltac:(done)) as (r2 & E2 & (Hc2 & f2 & Hi2 & Hf2 & Hb2)). change (2 ^ 7) with BGP_INFO_DMED_SELECTED in E2.
    rewrite E2. simpl_outcome. assert (infos r2 = <[i := with_flags info f2]> (infos r)) as Hi2' by (rewrite Hi2, Hi1; by rewrite insert_insert_eq).
    assert (infos r2 !! i = Some (with_flags info f2)) as Hl2 by (rewrite Hi2'; apply lookup_insert_eq). rewrite (get_info_eq _ _ _ Hl2). simpl_outcome.
    assert (ctx r2 = ctx r) as Hc by (by rewrite Hc2, Hc1).
    assert (forall k, k ∈ [1; 2; 3; 4; 9; 13] -> Z.testbit f2 k = Z.testbit (flags info) k) as Hbits.
    { intros k Hk. assert (0 <= k < 16 /\ k <> 10 /\ k <> 6 /\ k <> 7) as (K1 & K2 & K3 & K4).
      { repeat (apply elem_of_cons in Hk as [->|Hk]; [done|]). by apply elem_of_nil in Hk. }
      rewrite Hb2 by done. cbn [flags with_flags]. rewrite Hb1 by done. by rewrite !bool_decide_eq_false_2, !andb_true_r by done. }
    assert (loop_inv rn r2 n old new (i :: l)) as HL2 by (by apply (loop_flags rn r r2 n old new (i :: l) i info f2)).
    set (info2 := with_flags info f2) in *.
    destruct (looks_same_bits (r_bgp r) info info2 eq_refl eq_refl Hbits) as (Lu & Ls & _). rewrite Hu in Lu.
    assert (frame r r2) as He by by apply (frame_flags r r2 i info f2).
    pose proof (li_wf _ _ _ _ _ _ HL2) as Hw2. destruct (ro_routes _ Hw2 i info2 Hl2) as [[P1 P2 _ _ _ _] _].
    change (r_bgp (busy rn r2)) with (r_bgp r2) in *. change (peers (busy rn r2)) with (peers r2) in *.
    destruct (usable_facts _ Lu) as [_ Hig].
    destruct new as [s|].
    + destruct (li_new _ _ _ _ _ _ HL2 s eq_refl) as (Hs1 & Hs2 & snfo & Hs & Hsu). rewrite (get_info_eq _ _ _ Hs). simpl_outcome.
      destruct (ro_routes _ Hw2 s snfo Hs) as [[Q1 Q2 _ _ _ _] _].
      destruct (info_cmp_rank r2 info2 snfo (ro_config _ Hw2) P2 Q2 P1 Q1) as (better & Ec & Hrank).
      { change BGP_INFO_IGNORE with (2 ^ 13). rewrite CHECK_FLAG_bit by done. exact Hig. }
      rewrite Ec. simpl_outcome. apply (Hgo r2 n _ He). unfold old'. rewrite <- Ls. apply loop_use with (info := info2); try done.
      * intros -> s' snfo' [= <-] Hs'. assert (snfo' = snfo) as -> by congruence. exact Hrank.
      * intros ->. by exists s, snfo.
    + cbn [bgp_info_cmp]. simpl_outcome. apply (Hgo r2 n _ He). unfold old'. rewrite <- Ls. by apply (loop_use rn r2 n old None i l info2 true).
  - destruct (removed info) eqn:Erem; cbn [andb].
    + destruct (selected info) eqn:Esel.
      * unfold old'. rewrite bool_decide_eq_true_2 by done. cbn [negb]. simpl_outcome. apply (Hgo r n new (frame_refl r r eq_refl eq_refl)).
        pose proof (loop_skip rn r n old new i l info HL Hi Hu) as Hsk. rewrite Esel in Hsk. by apply Hsk.
      * assert (bool_decide (Some i = old') = false) as ->.
        { apply bool_decide_eq_false_2. unfold old'. intros Ho. symmetry in Ho. apply (li_old _ _ _ _ _ _ HL) in Ho as [_ Hnl]. apply Hnl. by left. }
        cbn [negb]. eapply returns_bind; [by apply (loop_reap rn r n old new i l info)|]. intros r' [He HL']. exact (Hgo r' _ new He HL').
    + simpl_outcome. apply (Hgo r n new (frame_refl r r eq_refl eq_refl)). apply (loop_skip rn r n old new i l info HL Hi Hu). congruence.
Qed.
(** ** Marking the selected route

    [chosen sel old new]: [sel] is the selected route, only [old] may be marked as
    removed and [new] is the best usable one. *)
Record chosen (rn : positive) r (n : bgp_node) (sel old new : option positive) : Prop := mk_chosen {
  ch_wf : router_wf (busy rn r);
  ch_node : nodes r !! rn = Some n;
  ch_sched : scheduled n = true;
  ch_selected : forall j jnfo, j ∈ n_info n -> infos r !! j = Some jnfo -> (selected jnfo = true <-> sel = Some j);
  ch_sel : forall o, sel = Some o -> o ∈ n_info n;
  ch_removed : forall j jnfo, j ∈ n_info n -> infos r !! j = Some jnfo -> removed jnfo = true -> old = Some j;
  ch_new : forall s, new = Some s -> s ∈ n_info n /\ exists snfo, infos r !! s = Some snfo /\ usable snfo = true;
  ch_best : forall j jnfo, j ∈ n_info n -> infos r !! j = Some jnfo -> usable jnfo = true ->
              exists s snfo, new = Some s /\ infos r !! s = Some snfo /\ rank_le (r_bgp r) jnfo snfo
}.
Lemma loop_chosen rn r n old new : loop_inv rn r n old new [] -> chosen rn r n old old new.
Proof.
  intros [L1 L2 L3 L4 L5 L6 L7 L8 L9 L10]. assert (forall j : positive, j ∉ []) as Hnil by (intros j; apply not_elem_of_nil).
  constructor; try done.
  - intros j jnfo Hj. by apply L7.
  - intros o Ho. by apply L6.
  - intros j jnfo Hj. by apply L8.
  - intros s Hs. by destruct (L9 s Hs) as (? & _ & ?).
  - intros j jnfo Hj. by apply L10.
Qed.

Lemma chosen_route rn r n sel old new i : chosen rn r n sel old new -> i ∈ n_info n ->
  exists info, infos r !! i = Some info /\ node info = Some rn /\ in_u 16 (flags info).
Proof.
  intros [C1 C2 _ _ _ _ _ _] Hi. destruct (node_route (busy rn r) rn n i C1 C2 Hi) as (info & Hl & Hr & [_ _ _ W _ _]). by exists info.
Qed.
Lemma chosen_member rn r n sel old new i : chosen rn r n sel old new -> sel = Some i \/ new = Some i -> i ∈ n_info n.
Proof. intros [_ _ _ _ C5 _ C7 _] [?|?]; [by apply C5|by apply C7]. Qed.

(** A change of flags that matters for the selection only. *)
Lemma chosen_flags rn r r' n sel sel' old new i info f :
  chosen rn r n sel old new -> i ∈ n_info n -> infos r !! i = Some info -> ctx r' = ctx r ->
  infos r' = <[i := with_flags info f]> (infos r) -> in_u 16 f -> (forall k, k ∈ [1; 2; 4; 9; 13] -> Z.testbit f k = Z.testbit (flags info) k) ->
  (Z.testbit f 3 = true <-> sel' = Some i) -> (forall j, j <> i -> sel = Some j <-> sel' = Some j) ->
  (sel' = Some i -> sel = Some i \/ sel = None) -> chosen rn r' n sel' old new.
Proof.
  intros HC Hin Hi Hc Hi' Hf Hb H3 Hother Hsel. destruct HC as [C1 C2 C3 C4 C5 C6 C7 C8].
  destruct (node_route (busy rn r) rn n i C1 C2 Hin) as (info0 & Hi0 & Hr & _). assert (info0 = info) as -> by (cbn in Hi0; congruence).
  assert (usable (with_flags info f) = usable info) as Hu by by apply usable_same.
  assert (removed (with_flags info f) = removed info) as Hm by (unfold removed; apply Hb; set_solver).
  assert (forall j jnfo, infos r' !! j = Some jnfo -> exists jn, infos r !! j = Some jn /\ usable jnfo = usable jn /\ removed jnfo = removed jn
            /\ (forall b k, rank_le b jnfo k <-> rank_le b jn k) /\ (j <> i -> jnfo = jn) /\ (j = i -> jnfo = with_flags info f)) as Hback.
  { intros j jnfo. rewrite Hi'. destruct (decide (j = i)) as [->|Hji].
    - rewrite lookup_insert_eq. intros [= <-]. exists info. by rewrite Hu, Hm.
    - rewrite lookup_insert_ne by done. intros Hj. exists jnfo. by repeat split. }
  assert (forall j jn, infos r !! j = Some jn -> exists jnfo, infos r' !! j = Some jnfo /\ usable jnfo = usable jn
            /\ forall b k, rank_le b k jnfo <-> rank_le b k jn) as Hforth.
  { intros j jn Hj. rewrite Hi'. destruct (decide (j = i)) as [->|Hji].
    - rewrite lookup_insert_eq. exists (with_flags info f). split; [done|]. assert (jn = info) as -> by congruence. by rewrite Hu.
    - rewrite lookup_insert_ne by done. by exists jn. }
  constructor; try done.
  - apply (busy_flags_wf rn r r' n i info f); try done; [apply Hb; set_solver|].
    intros Hf3. apply H3, Hsel in Hf3 as [Hs|Hs]; [left; by apply (C4 i info)|right].
    intros j jnfo Hj Hjn. destruct (selected jnfo) eqn:E; [|done]. apply (C4 j jnfo Hj Hjn) in E. congruence.
  - by rewrite (ctx_nodes _ _ Hc).
  - intros j jnfo Hj (jn & Hjn & _ & _ & _ & Hne & Heq)%Hback. destruct (decide (j = i)) as [->|Hji].
    + rewrite (Heq eq_refl). exact H3.
    + rewrite (Hne Hji), <- (Hother j Hji). by apply C4.
  - intros o Ho. destruct (decide (o = i)) as [->|Hoi]; [done|]. apply C5. by apply Hother.
  - intros j jnfo Hj (jn & Hjn & _ & -> & _)%Hback. by apply C6.
  - intros s Hs. destruct (C7 s Hs) as (? & snfo & Hsn & Hsu). split; [done|]. destruct (Hforth s snfo Hsn) as (x & Hx & <- & _) in Hsu. by exists x.
  - intros j jnfo Hj (jn & Hjn & -> & _ & Hrank & _)%Hback Huj. destruct (C8 j jn Hj Hjn Huj) as (s & snfo & Hs & Hsn & Hle).
    destruct (Hforth s snfo Hsn) as (x & Hx & _ & Hxr). exists s, x. split; [done|]. split; [done|]. rewrite (ctx_bgp _ _ Hc). by apply Hxr, Hrank.
Qed.

(** The three changes of [mark_selected] and the one of an unchanged selection. *)
Lemma chosen_unmark rn r n i old new : chosen rn r n (Some i) old new ->
  returns (bgp_info_unset_flag r (Some rn) i BGP_INFO_SELECTED) (fun r' => frame r r' /\ chosen rn r' n None old new).
Proof.
  intros HC. pose proof (chosen_member _ _ _ _ _ _ i HC (or_introl eq_refl)) as Hin. destruct (chosen_route _ _ _ _ _ _ i HC Hin) as (info & Hi & Hr & Hf).
  eapply returns_mono; [apply (unset_flag_spec r rn n i info 3 Hi (ch_node _ _ _ _ _ _ HC) ltac:(done))|].
  intros r' (Hc & f & Hi' & Hf' & Hb). split; [by apply (frame_flags r r' i info f)|]. apply (chosen_flags rn r r' n (Some i) None old new i info f); try done.
  - intros k Hk. assert (0 <= k < 16 /\ k <> 10 /\ k <> 3) as (K1 & K2 & K3).
    { repeat (apply elem_of_cons in Hk as [->|Hk]; [done|]). by apply elem_of_nil in Hk. }
    by rewrite Hb, bool_decide_eq_false_2, andb_true_r by done.
  - rewrite Hb, bool_decide_eq_true_2, andb_false_r by done. done.
  - intros j Hj. split; [|done]. intros [= ->]. done.
Qed.
Lemma chosen_mark rn r n i old : chosen rn r n None old (Some i) ->
  returns (bgp_info_set_flag r (Some rn) i BGP_INFO_SELECTED) (fun r' => frame r r' /\ chosen rn r' n (Some i) old (Some i)).
Proof.
  intros HC. pose proof (chosen_member _ _ _ _ _ _ i HC (or_intror eq_refl)) as Hin. destruct (chosen_route _ _ _ _ _ _ i HC Hin) as (info & Hi & Hr & Hf).
  eapply returns_mono; [apply (set_flag_spec r rn n i info 3 Hi (ch_node _ _ _ _ _ _ HC) ltac:(done))|].
  intros r' (Hc & f & Hi' & Hf' & Hb). split; [by apply (frame_flags r r' i info f)|]. apply (chosen_flags rn r r' n None (Some i) old (Some i) i info f); try done.
  - intros k Hk. assert (0 <= k < 16 /\ k <> 10 /\ k <> 3) as (K1 & K2 & K3).
    { repeat (apply elem_of_cons in Hk as [->|Hk]; [done|]). by apply elem_of_nil in Hk. }
    by rewrite Hb, bool_decide_eq_false_2, orb_false_r by done.
  - rewrite Hb, bool_decide_eq_true_2, orb_true_r by done. done.
  - intros j Hj. split; [done|]. intros [= ->]. done.
  - intros _. by right.
Qed.
Lemma chosen_same rn r r' n sel old new i info f :
  chosen rn r n sel old new -> i ∈ n_info n -> infos r !! i = Some info -> ctx r' = ctx r ->
  infos r' = <[i := with_flags info f]> (infos r) -> in_u 16 f -> (forall k, k ∈ [1; 2; 3; 4; 9; 13] -> Z.testbit f k = Z.testbit (flags info) k) ->
  chosen rn r' n sel old new.
Proof.
  intros HC Hin Hi Hc Hi' Hf Hb. apply (chosen_flags rn r r' n sel sel old new i info f); try done.
  - intros k Hk. apply Hb. set_solver.
  - rewrite Hb by set_solver. exact (ch_selected _ _ _ _ _ _ HC i info Hin Hi).
  - by left.
Qed.
Lemma chosen_clear_mpath rn r n sel old new i : chosen rn r n sel old new -> i ∈ n_info n ->
  returns (update_info r i (fun info => with_flags info (u16 (UNSET_FLAG (flags info) BGP_INFO_MULTIPATH_CHG))))
    (fun r' => frame r r' /\ chosen rn r' n sel old new).
Proof.
  intros HC Hin. destruct (chosen_route _ _ _ _ _ _ i HC Hin) as (info & Hi & Hr & Hf). rewrite (update_info_eq _ _ _ _ Hi). apply returns_Ok.
  split; [by apply (frame_flags r _ i info (u16 (UNSET_FLAG (flags info) BGP_INFO_MULTIPATH_CHG)))|].
  apply (chosen_same rn r _ n sel old new i info (u16 (UNSET_FLAG (flags info) BGP_INFO_MULTIPATH_CHG))); try done; [by apply wrap_in_u|].
  intros k Hk. apply (u16_unset_bit _ 12); [done|..]; repeat (apply elem_of_cons in Hk as [->|Hk]; [done|]); by apply elem_of_nil in Hk.
Qed.
Lemma chosen_clear_attr rn r n sel old new i : chosen rn r n sel old new -> i ∈ n_info n ->
  returns (bgp_info_unset_flag r (Some rn) i BGP_INFO_ATTR_CHANGED) (fun r' => frame r r' /\ chosen rn r' n sel old new).
Proof.
  intros HC Hin. destruct (chosen_route _ _ _ _ _ _ i HC Hin) as (info & Hi & Hr & Hf).
  eapply returns_mono; [apply (unset_flag_spec r rn n i info 5 Hi (ch_node _ _ _ _ _ _ HC) ltac:(done))|].
  intros r' (Hc & f & Hi' & Hf' & Hb). split; [by apply (frame_flags r r' i info f)|]. apply (chosen_same rn r r' n sel old new i info f); try done.
  intros k Hk. assert (0 <= k < 16 /\ k <> 10 /\ k <> 5) as (K1 & K2 & K3).
  { repeat (apply elem_of_cons in Hk as [->|Hk]; [done|]). by apply elem_of_nil in Hk. }
  by rewrite Hb, bool_decide_eq_false_2, andb_true_r by done.
Qed.
Lemma chosen_outputs rn r r' n sel old new : chosen rn r n sel old new -> ctx r' = ctx r -> infos r' = infos r -> chosen rn r' n sel old new.
Proof.
  intros [C1 C2 C3 C4 C5 C6 C7 C8] Hc Hi. pose proof (ctx_nodes _ _ Hc) as En. pose proof (ctx_bgp _ _ Hc) as Eb.
  constructor; rewrite ?Hi, ?En, ?Eb; try done. apply (same_wf (busy rn r)); [done| |done]. apply ctx_split in Hc as (D1 & D2 & D3).
  apply ctx_split. split; [exact D1|]. split; [exact D2|]. unfold sched in *. cbn [nodes busy set_queues process_main_queue process_rsclient_queue].
  by injection D3 as -> -> ->.
Qed.
Lemma mark_selected_spec rn r n old new : chosen rn r n old old new ->
  returns (mark_selected r rn old new) (fun r' => frame r r' /\ chosen rn r' n new old new).
Proof.
  intros HC. unfold mark_selected. eapply returns_bind with (P := fun r' => frame r r' /\ chosen rn r' n None old new).
  { destruct old as [o|]; [by apply chosen_unmark|]. apply returns_Ok. split; [by apply frame_refl|done]. }
  intros r1 [F1 C1]. destruct new as [s|]; [|by apply returns_Ok].
  eapply returns_bind; [by apply (chosen_mark _ _ n _ old)|]. intros r2 [F2 C2].
  pose proof (chosen_member _ _ _ _ _ _ s C2 (or_introl eq_refl)) as Hin.
  eapply returns_bind; [exact (chosen_clear_attr _ _ _ _ _ _ s C2 Hin)|]. intros r3 [F3 C3].
  eapply returns_mono; [exact (chosen_clear_mpath _ _ _ _ _ _ s C3 Hin)|]. intros r4 [F4 C4]. split; [|done].
  eapply frame_trans; [exact F1|]. eapply frame_trans; [exact F2|]. by eapply frame_trans.
Qed.
Lemma update_fib_spec rn r n old new : chosen rn r n new old new -> (forall o, old = Some o -> o ∈ n_info n) ->
  returns (update_fib r rn old new) (fun r' => ctx r' = ctx r /\ infos r' = infos r).
Proof.
  intros HC Hold. unfold update_fib. rewrite (get_node_eq _ _ _ (ch_node _ _ _ _ _ _ HC)). simpl_outcome.
  destruct (_ && fib r); [|by apply returns_Ok].
  eapply returns_bind with (P := fun b => b = true -> is_Some new).
  { destruct new as [s|]; [|by apply returns_Ok]. destruct (chosen_route _ _ _ _ _ _ s HC) as (info & Hi & _).
    { by apply (chosen_member _ _ _ _ _ _ s HC); left. }
    rewrite (get_info_eq _ _ _ Hi). by apply returns_Ok. }
  intros [] Hb.
  - destruct (Hb eq_refl) as [s ->]. destruct old; by apply returns_Ok.
  - destruct old as [o|].
    + destruct (chosen_route _ _ _ _ _ _ o HC (Hold o eq_refl)) as (info & Hi & _).
      destruct new; rewrite (get_info_eq _ _ _ Hi); simpl_outcome; apply returns_Ok; by destruct (is_bgp_route info).
    + destruct new; by apply returns_Ok.
Qed.

(** The removed route goes when it is not selected any more. *)
Lemma chosen_reap rn r n sel new o info : chosen rn r n sel (Some o) new -> o ∈ n_info n -> infos r !! o = Some info ->
  removed info = true -> sel = new ->
  returns (bgp_info_reap r rn o) (fun r' => frame r r' /\ exists n', chosen rn r' n' sel None new).
Proof.
  intros [C1 C2 C3 C4 C5 C6 C7 C8] Hin Hi Hrem ->. destruct (ro_routes _ C1 o info Hi) as [[W1 W2 W3 W4 W5 W6] _].
  assert (new <> Some o) as Hno.
  { intros Hs. destruct (C7 o Hs) as (_ & x & Hx & Hu). assert (x = info) as -> by congruence. apply removed_unusable in Hrem. congruence. }
  eapply returns_mono; [apply (reap_spec r rn n o info); [done|done|done|exact (ro_proxy _ C1)|exact (ro_hash _ C1)]|].
  intros r' (E1 & E2 & E3 & E4 & E5 & E6). pose proof (env_fields _ _ E1) as (Eb & _). pose proof E4 as E4'. unfold sched in E4'. injection E4' as En Eq Eqr.
  split; [by apply (frame_delete r r' o)|]. exists (with_info_list n (filter (fun j => j <> o) (n_info n))).
  assert (forall j, j <> o -> infos r' !! j = infos r !! j) as Hold by (intros j Hj; by rewrite E3, lookup_delete_ne).
  constructor; try done.
  - apply (reap_wf (busy rn r) (busy rn r') rn n o info); try done. unfold sched. cbn [nodes busy set_queues process_main_queue process_rsclient_queue].
    by rewrite En, Eq, Eqr.
  - rewrite En. apply lookup_insert_eq.
  - intros j jnfo [Hjo Hj]%list_elem_of_filter. rewrite Hold by done. by apply C4.
  - intros s Hs. cbn [n_info with_info_list]. apply list_elem_of_filter. split; [congruence|by apply C5].
  - intros j jnfo [Hjo Hj]%list_elem_of_filter. rewrite Hold by done. intros Hjn Hrj. pose proof (C6 j jnfo Hj Hjn Hrj). congruence.
  - intros s Hs. destruct (C7 s Hs) as (? & snfo & Hsn & Hu). assert (s <> o) by congruence. split; [by apply list_elem_of_filter|].
    exists snfo. by rewrite Hold.
  - intros j jnfo [Hjo Hj]%list_elem_of_filter. rewrite Hold by done. intros Hjn Hu.
    destruct (C8 j jnfo Hj Hjn Hu) as (s & snfo & Hs & Hsn & Hle). exists s, snfo. rewrite Hold by congruence. by rewrite Eb.
Qed.

Lemma chosen_settled rn r n old new : chosen rn r n new old new -> old = None \/ old = new -> settled r (n_info n).
Proof.
  intros [C1 C2 C3 C4 C5 C6 C7 C8] Hold.
  assert (forall i info, i ∈ n_info n -> infos r !! i = Some info -> selected info = true -> new = Some i /\ usable info = true) as Hsel.
  { intros i info Hi Hinfo Hs. apply (C4 i info Hi Hinfo) in Hs. split; [done|]. destruct (C7 i Hs) as (_ & x & Hx & Hu). congruence. }
  constructor.
  - intros i info Hi Hinfo Hs. by apply (Hsel i info).
  - intros i info j jnfo Hi Hinfo Hs Hj Hjn Hu. destruct (Hsel i info Hi Hinfo Hs) as [Hn _].
    destruct (C8 j jnfo Hj Hjn Hu) as (s & snfo & Hsn & Hx & Hle). congruence.
  - intros j jnfo Hj Hjn Hu. destruct (C8 j jnfo Hj Hjn Hu) as (s & snfo & Hsn & Hx & Hle). destruct (C7 s Hsn) as (Hs & _).
    exists s, snfo. split; [done|]. split; [done|]. by apply (C4 s snfo).
  - intros i info Hi Hinfo. destruct (removed info) eqn:E; [|done]. pose proof (C6 i info Hi Hinfo E) as Ho.
    destruct Hold as [-> | ->]; [done|]. destruct (C7 i Ho) as (_ & x & Hx & Hu). apply removed_unusable in E. congruence.
Qed.

(** ** A node leaves the queue *)
Lemma unschedule_wf rn r n : router_wf (busy rn r) -> nodes r !! rn = Some n -> settled r (n_info n) ->
  returns (unschedule r rn) (fun r' => frame r r' /\ router_wf r').
Proof.
  intros Hw Hn Hset. unfold unschedule. rewrite (get_node_eq _ _ _ Hn). apply returns_Ok.
  split; [by apply frame_same|].
  destruct (ro_queue _ Hw) as [Hq1 Hq2]. cbn [process_main_queue busy set_queues nodes] in Hq1, Hq2. apply NoDup_cons in Hq1 as [Hnot Hq1].
  constructor; try apply Hw.
  - intros i info Hi. destruct (ro_routes _ Hw i info Hi) as [[] (rk & m & Hk & Hm & Hin)]. split; [by constructor|]. exists rk.
    cbn [nodes busy set_queues] in Hm. destruct (decide (rk = rn)) as [->|Hne].
    + exists (with_scheduled n false). cbn [nodes put_node set_nodes]. rewrite lookup_insert_eq. split; [done|]. split; [done|].
      by assert (m = n) as <- by congruence.
    + exists m. cbn [nodes put_node set_nodes]. by rewrite lookup_insert_ne.
  - intros k m. cbn [nodes put_node set_nodes]. destruct (decide (k = rn)) as [->|Hne].
    + rewrite lookup_insert_eq. intros [= <-]. destruct (ro_nodes _ Hw rn n Hn) as [N1 N2 N3 N4 N5]. constructor; try done.
      intros _. destruct Hset as [S1 S2 S3 S4]. by constructor.
    + rewrite lookup_insert_ne by done. intros Hm. destruct (ro_nodes _ Hw k m Hm) as [N1 N2 N3 N4 N5]. constructor; try done.
      intros Hsm. destruct (N5 Hsm) as [S1 S2 S3 S4]. by constructor.
  - split; [done|]. intros k. cbn [nodes put_node set_nodes process_main_queue]. destruct (decide (k = rn)) as [->|Hne].
    + rewrite lookup_insert_eq. split; [by intros ?%Hnot|]. by intros (m & [= <-] & ?).
    + rewrite lookup_insert_ne by done. rewrite <- Hq2, elem_of_cons. naive_solver.
Qed.

Lemma process_main_wf rn r : router_wf (busy rn r) ->
  returns (bgp_process_main r rn) (fun r' => frame r r' /\ router_wf r').
Proof.
  intros Hw. destruct (proj1 (proj2 (ro_queue _ Hw) rn) ltac:(by left)) as (n & Hn & Hsn). cbn [nodes busy set_queues] in Hn.
  unfold bgp_process_main, bgp_best_selection. rewrite (get_node_eq _ _ _ Hn). simpl_outcome.
  assert (bgp_flag_check (r_bgp r) BGP_FLAG_DETERMINISTIC_MED = false) as -> by exact (ro_med _ Hw). simpl_outcome.
  assert (loop_inv rn r n None None (n_info n)) as HL.
  { constructor; try done. exact (nw_nodup _ _ _ (ro_nodes _ Hw rn n Hn)). }
  eapply returns_bind; [exact (select_loop_spec rn _ r n None None HL)|]. clear n Hn Hsn HL.
  intros [[r1 old] new] (F1 & n & HC%loop_chosen).
  assert (forall r', frame r1 r' -> forall old' n', chosen rn r' n' new old' new -> old' = None \/ old' = new ->
            returns (unschedule r' rn) (fun r'' => frame r r'' /\ router_wf r'')) as Hend.
  { intros r' F' old' n' C' Ho. eapply returns_mono; [apply (unschedule_wf rn r' n'); [apply C'|apply C'|by apply (chosen_settled rn r' n' old' new)]|].
    intros r'' [F'' ?]. split; [|done].
    eapply frame_trans; [exact F1|]. by eapply frame_trans. }
  assert (returns (r ← mark_selected r1 rn old new; r ← update_fib (put r (Announce rn new)) rn old new;
            r ← match old with
                | Some o => info ← get_info r o; if CHECK_FLAG (flags info) BGP_INFO_REMOVED then bgp_info_reap r rn o else Ok r
                | None => Ok r end; unschedule r rn) (fun r' => frame r r' /\ router_wf r')) as Hchange.
  { eapply returns_bind; [by apply (mark_selected_spec rn r1 n)|]. intros r2 [F2 C2].
    assert (forall o, old = Some o -> o ∈ n_info n) as Ho by (intros o Hoo; exact (ch_sel _ _ _ _ _ _ HC o Hoo)).
    assert (chosen rn (put r2 (Announce rn new)) n new old new) as C2' by (by apply (chosen_outputs rn r2)).
    eapply returns_bind; [by apply (update_fib_spec rn _ n)|]. intros r3 [Hc3 Hi3].
    assert (chosen rn r3 n new old new) as C3 by (by apply (chosen_outputs rn (put r2 (Announce rn new)))).
    assert (frame r1 r3) as F3 by (eapply frame_trans; [exact F2|]; by apply frame_refl).
    destruct old as [o|]; [|simpl_outcome; apply (Hend r3 F3 None n); [done|by left]].
    destruct (chosen_route _ _ _ _ _ _ o C3 (Ho o eq_refl)) as (info & Hi & Hr & Hf). rewrite (get_info_eq _ _ _ Hi). simpl_outcome.
    change BGP_INFO_REMOVED with (2 ^ 9). rewrite CHECK_FLAG_bit by done. change (Z.testbit (flags info) 9) with (removed info).
    destruct (removed info) eqn:Erem.
    - eapply returns_bind; [apply (chosen_reap rn r3 n new new o info); [done|by apply Ho|done..]|]. intros r4 [F4 (n' & C4)].
      apply (Hend r4 ltac:(by eapply frame_trans) None n'); [done|by left].
    - simpl_outcome. apply (Hend r3 F3 None n); [|by left]. destruct C3 as [D1 D2 D3 D4 D5 D6 D7 D8]. constructor; try done.
      intros j jnfo Hj Hjn Hrj. pose proof (D6 j jnfo Hj Hjn Hrj). congruence. }
  destruct old as [o|]; [|exact Hchange].
  pose proof (ch_sel _ _ _ _ _ _ HC o eq_refl) as Hin. destruct (chosen_route _ _ _ _ _ _ o HC Hin) as (info & Hi & Hr & Hf).
  cbn [mbind outcome_bind]. rewrite (get_info_eq _ _ _ Hi). simpl_outcome. case_bool_decide as Ho; cbn [andb]; [|exact Hchange].
  destruct (CHECK_FLAG (flags info) BGP_INFO_ATTR_CHANGED); cbn [negb]; [exact Hchange|].
  match goal with |- context [update_info ?x o _] => set (r2 := x) end. assert (ctx r2 = ctx r1 /\ infos r2 = infos r1) as [Hc2 Hi2] by (unfold r2; by destruct (_ || _)).
  assert (chosen rn r2 n (Some o) (Some o) new) as C2 by by apply (chosen_outputs rn r1).
  eapply returns_bind; [exact (chosen_clear_mpath rn r2 n _ _ _ o C2 Hin)|]. intros r3 [F3 C3]. subst new.
  apply (Hend r3 (frame_trans _ _ _ (frame_refl r1 r2 Hc2 Hi2) F3) (Some o) n); [done|by right].
Qed.

Lemma process_wf r : router_wf r -> returns (process_next r) (fun r' =>
  router_wf r' /\ env r' = env r /\ process_main_queue r' = tail (process_main_queue r)
  /\ forall i info', infos r' !! i = Some info' -> exists info f, infos r !! i = Some info /\ info' = with_flags info f).
Proof.
  intros Hw. unfold process_next. destruct (process_main_queue r) as [|rn q] eqn:Eq.
  { apply returns_Ok. split_and!; [done|done|by rewrite Eq|]. intros i info Hi. exists info, (flags info). by rewrite with_flags_id. }
  eapply returns_mono; [apply (process_main_wf rn)|].
  - assert (busy rn (set_queues r q (process_rsclient_queue r)) = r) as ->; [|done]. destruct r. cbn in Eq. by subst.
  - intros r' [[F1 F2 F3] Hr']. by split_and!.
Qed.
Lemma step_wf r e : router_wf r -> event_ok r e -> returns (step r e) router_wf.
Proof.
  intros Hw He. destruct e as [rn pr ty sub a reachable|rn pr ty sub|u l ty roa sec aspa|].
  - by apply update_wf.
  - by apply withdraw_wf.
  - by apply notify_wf.
  - eapply returns_mono; [by apply process_wf|]. by intros r' [? _].
Qed.
Lemma events_wf es : forall r, router_wf r -> run_ok r es -> returns (run r es) router_wf.
Proof.
  induction es as [|e es IH]; intros r Hw; [intros _; by apply returns_Ok|]. intros [He Hes]. cbn [run].
  destruct (step_wf r e Hw He) as (r' & E & Hw'). rewrite E. simpl_outcome. by apply IH, Hes.
Qed.
(** The router before the first update: nodes without routes, nothing registered. *)
Lemma empty_wf r : cfg_wf (r_bgp r) -> bgp_flag_check (r_bgp r) BGP_FLAG_DETERMINISTIC_MED = false -> is_Some (srxProxy (r_bgp r)) ->
  infos r = ∅ -> process_main_queue r = [] -> (forall h, hash_wf r h /\ h_items (get_hash r h) = ∅) ->
  map_Forall (fun _ n => n_info n = [] /\ scheduled n = false /\ rsclient (n_table n) = false) (nodes r) -> router_wf r.
Proof.
  intros Hc Hm Hp Hi Hq Hh Hn. constructor; try done.
  - intros i info. rewrite Hi. by rewrite lookup_empty.
  - intros rn n Hrn. destruct (Hn rn n Hrn) as (El & Es & Et). constructor; rewrite ?El; try done.
    + apply NoDup_nil_2.
    + intros i Hin. by apply not_elem_of_nil in Hin.
    + intros i j info jnfo Hin. by apply not_elem_of_nil in Hin.
    + intros _. constructor; intros; exfalso; match goal with Hx : _ ∈ [] |- _ => by apply not_elem_of_nil in Hx end.
  - rewrite Hq. split; [apply NoDup_nil_2|]. intros rn. split; [intros Hin; by apply not_elem_of_nil in Hin|].
    intros (n & Hrn & Hs). destruct (Hn rn n Hrn) as (_ & Hs' & _). congruence.
  - intros h. apply Hh.
  - intros h k i. destruct (Hh h) as [_ He]. unfold reg, kt_get. rewrite He, Hi. split.
    + destruct (ut_find k _) as [p|]; [|done]. cbn. by rewrite lookup_empty.
    + intros (info & Hinfo & _). by rewrite lookup_empty in Hinfo.
Qed.

Lemma drain_wf k : forall r, router_wf r -> returns (run r (replicate k Process)) (fun r' =>
  router_wf r' /\ env r' = env r /\ process_main_queue r' = drop k (process_main_queue r)
  /\ forall i info', infos r' !! i = Some info' -> exists info f, infos r !! i = Some info /\ info' = with_flags info f).
Proof.
  induction k as [|k IH]; intros r Hw; cbn [replicate run].
  { apply returns_Ok. split_and!; try done. intros i info Hi. exists info, (flags info). by rewrite with_flags_id. }
  eapply returns_bind; [by apply process_wf|]. intros r1 (W1 & E1 & Q1 & I1). eapply returns_mono; [by apply IH|].
  intros r2 (W2 & E2 & Q2 & I2). split_and!; [done|by rewrite E2| |].
  - rewrite Q2, Q1. destruct (process_main_queue r); cbn [tail]; by rewrite ?drop_nil.
  - intros i info (x & f & Hx & ->)%I2. destruct (I1 i x Hx) as (y & g & Hy & ->). by exists y, f.
Qed.

(** The selection of a node follows the validation: the selected routes are usable,
    none of them is ignored, no usable one ranks higher, and one is selected when one
    is usable. *)
Definition follows_validation r (rn : positive) (n : bgp_node) : Prop :=
  (forall i info, i ∈ n_info n -> infos r !! i = Some info -> selected info = true ->
     usable info = true /\ ignored_by (r_bgp r) (getInfoToSrxVal info) = false
     /\ forall j jnfo, j ∈ n_info n -> infos r !! j = Some jnfo -> usable jnfo = true -> rank_le (r_bgp r) jnfo info)
  /\ (forall i j info jnfo, i ∈ n_info n -> j ∈ n_info n -> infos r !! i = Some info -> infos r !! j = Some jnfo ->
        selected info = true -> selected jnfo = true -> i = j)
  /\ (forall j jnfo, j ∈ n_info n -> infos r !! j = Some jnfo -> usable jnfo = true ->
        exists i info, i ∈ n_info n /\ infos r !! i = Some info /\ selected info = true).
Lemma wf_follows r rn n : router_wf r -> nodes r !! rn = Some n -> rn ∉ process_main_queue r -> follows_validation r rn n.
Proof.
  intros Hw Hn Hq. destruct (ro_nodes _ Hw rn n Hn) as [N1 N2 N3 N4 N5].
  assert (scheduled n = false) as Hs.
  { destruct (scheduled n) eqn:E; [|done]. destruct Hq. apply (ro_queue _ Hw). by exists n. }
  destruct (N5 Hs) as [S1 S2 S3 S4]. split_and!; [|done|done].
  intros i info Hi Hinfo Hsel. split_and!; [by apply (S1 i)| |by intros j jnfo; apply (S2 i)].
  destruct (ro_routes _ Hw i info Hinfo) as [[_ _ _ _ <- _] _]. by apply usable_facts, (S1 i).
Qed.

(** C4  From a well-formed router - one without deterministic-med, with a proxy -
    updates, withdrawals, answers of the server and processing steps in any order that
    meets the conditions of the events are all handled, and at the end the selection of
    every node that does not wait for its processing follows the validation.  The
    conditions: nodes and peers are known; the request for an update can be built, whose
    path has no segment above 255 numbers ([long_segment_overflows]); the next local
    identifier is not waiting for an answer; an update that changes a route comes after
    the answer for the route's former attributes ([pending_update_dangles]); and the
    identifier in a first answer is not 0 and not that of another route. *)
Theorem selection_follows_validation r es : router_wf r -> run_ok r es ->
  exists r', run r es = Ok r' /\ router_wf r'
    /\ forall rn n, nodes r' !! rn = Some n -> rn ∉ process_main_queue r' -> follows_validation r' rn n.
Proof.
  intros Hw He. destruct (events_wf es r Hw He) as (r' & E & Hw'). exists r'. split_and!; [done|done|].
  intros rn n Hn Hq. by apply wf_follows.
Qed.

(** C3  When the server answers that the results of a route have changed, its node is
    processed again: after as many steps as nodes are waiting the queue is empty, every
    selection follows the validation, the route has the results of the answer and it is
    not selected when the policies ignore these results. *)
Theorem answer_changes_selection r u l ty roa sec aspa i :
  router_wf r -> addressed r u l = Some i -> (l <> 0 -> 0 < u /\ reg r UidHash u = None) ->
  exists info r1 r2, infos r !! i = Some info /\ step r (Notify u l ty roa sec aspa) = Ok r1
    /\ run r1 (replicate (length (process_main_queue r1)) Process) = Ok r2 /\ router_wf r2 /\ process_main_queue r2 = []
    /\ (forall rn n, nodes r2 !! rn = Some n -> follows_validation r2 rn n)
    /\ forall info2, infos r2 !! i = Some info2 ->
         let '(ty', sec') := brought r info l ty sec in
         getInfoToSrxVal info2 = getInfoToSrxVal (store_results ty' roa sec' aspa info)
         /\ (ignored_by (r_bgp r) (getInfoToSrxVal info2) = true -> selected info2 = false).
Proof.
  intros Hw Ha Hl. destruct (known_answer_spec r u l ty roa sec aspa i Hw Ha Hl) as (info & Hi & ([r1 b] & E1 & P1)).
  exists info, r1. unfold answered in P1. destruct (brought r info l ty sec) as [ty' sec'].
  destruct P1 as (_ & Hw1 & He1 & info1 & Hi1 & _ & _ & Hv1 & _). cbn [fst snd] in *.
  destruct (drain_wf (length (process_main_queue r1)) r1 Hw1) as (r2 & E2 & Hw2 & He2 & Hq2 & Hi2). exists r2.
  rewrite drop_all in Hq2.
  assert (forall rn n, nodes r2 !! rn = Some n -> follows_validation r2 rn n) as Hf.
  { intros rn n Hn. apply wf_follows; [done|done|]. rewrite Hq2. apply not_elem_of_nil. }
  split_and!; try done; [cbn [step]; by rewrite E1|]. intros info2 Hx. destruct (Hi2 i info2 Hx) as (y & f & Hy & ->).
  rewrite Hi1, lookup_insert_eq in Hy. injection Hy as <-. split; [exact Hv1|]. intros Hig.
  destruct (selected (with_flags info1 f)) eqn:Es; [|done]. destruct (ro_routes _ Hw2 i _ Hx) as [_ (rn & n & Hr & Hn & Hin)].
  destruct (Hf rn n Hn) as [Hsel _]. destruct (Hsel i _ Hin Hx Es) as (_ & Hno & _).
  apply env_fields in He1 as (Eb1 & _). apply env_fields in He2 as (Eb2 & _). rewrite Eb2, Eb1 in Hno. congruence.
Qed.

(** C8  An answer reaches the route that waits under its identifier: the route is
    registered under the identifier of the server, gets the results (of the local path
    validation where that is on) and its node is scheduled when they changed; an answer
    nobody waits for changes nothing and is revoked at the server. *)
Theorem handleSRxValidationResult_correct r u l ty roa sec aspa :
  router_wf r -> (l <> 0 -> is_Some (reg r LidHash l) -> 0 < u /\ reg r UidHash u = None) ->
  exists res, handleSRxValidationResult r u l ty roa sec aspa = Ok res
    /\ match addressed r u l with
       | Some i => exists info, infos r !! i = Some info /\ answered r info u l ty roa sec aspa i res
       | None => res.2 = false /\ ctx res.1 = ctx r /\ infos res.1 = infos r
           /\ sent res.1 = sent r ++ (if isConnected (srxProxy (r_bgp r))
                                      then [ProxyApi.deleteUpdate (u16 (srx_keepWindow (r_bgp r))) u] else [])
       end.
Proof.
  intros Hw Hl. destruct (addressed r u l) as [i|] eqn:Ea.
  - destruct (known_answer_spec r u l ty roa sec aspa i Hw Ea) as (info & Hi & (res & E & P)).
    { intros Hne. apply Hl; [done|]. unfold addressed in Ea. rewrite (proj2 (Z.eqb_neq _ _) Hne) in Ea. cbn [negb] in Ea. by rewrite Ea. }
    exists res. split; [done|]. by exists info.
  - by apply unknown_answer_spec.
Qed.
(** C19  A route whose attributes change before the server has answered for the former
    ones stays registered under the former local identifier: the answer for the former
    attributes is taken for the new ones, and after the end of the route it reaches
    freed memory. *)
Theorem pending_update_dangles r rn n i info p a reachable :
  router_wf r -> infos r !! i = Some info -> info_hash info = Some LidHash -> node info = Some rn -> nodes r !! rn = Some n ->
  peers r !! info_peer info = Some p -> input_ok (r_bgp r) p n a -> 0 <= suiLocalID r -> reg r LidHash (getNextLocalID r).2 = None ->
  exists r1 info1 r2, update_changed r rn i p a reachable = Ok r1
    /\ infos r1 !! i = Some info1 /\ info_attr info1 = a /\ bgp_info_fetch r1 LidHash (localID info) = Ok (Some i)
    /\ bgp_info_reap r1 rn i = Ok r2 /\ infos r2 !! i = None
    /\ forall u ty roa sec aspa, handleSRxValidationResult r2 u (localID info) ty roa sec aspa = Fault UseAfterDestroy.
Proof.
  intros Hw Hi Hh Hr Hn Hp Hin Hs Hnew. destruct (ro_routes _ Hw i info Hi) as [[_ _ _ _ _ W6] _].
  unfold ids_wf in W6. rewrite Hh in W6. destruct W6 as [Wu Wl].
  assert (reg r LidHash (localID info) = Some i) as Hold.
  { apply (ro_reg _ Hw). exists info. unfold id_of. by rewrite Wu. }
  destruct (update_changed_spec r rn n i info p a reachable (fun h k => if decide (h = LidHash /\ k = 0) then None else reg r h k))
    as (r1 & E1 & R1 & R3 & (info1 & Hi1 & Hr1 & Hw1 & Hh1 & Hid1 & _ & Ha1) & R5 & R6); try done.
  { cbn beta. by case_decide. }
  { intros r2 info2 He Hids Hi2 Eh Eu El. destruct (forget_pending_spec r2 i info2 Hi2) as (r3 & E3 & F1 & F2 & F3 & F4 & F5 & F6); [congruence|congruence|lia| |].
    { intros h. apply (ids_hash_wf r); [done|apply Hw]. }
    exists r3. split; [done|]. split_and!; try done. intros h k. rewrite F6. by rewrite (ids_reg r) by done. }
  assert (infos r1 !! i = Some info1) as Hl1 by (rewrite Hi1; apply lookup_insert_eq).
  assert (forall h k, localID info <> k -> h = LidHash -> reg r1 h (localID info) = Some i) as Hstale.
  { intros h k _ ->. rewrite R6. case_decide; [done|]. rewrite decide_False by lia. exact Hold. }
  pose proof (env_fields _ _ R1) as (Eb1 & _). unfold sched, sched_if in R3. injection R3 as En1 _ _.
  destruct (reap_spec r1 rn (with_scheduled n true) i info1) as (r2 & E2 & _ & _ & Hi2 & _ & W2 & Hreg2);
    [by rewrite En1, lookup_insert_eq|done|apply Hw1|rewrite Eb1; apply Hw|done|].
  assert (reg r1 LidHash (localID info) = Some i) as Hs1 by (apply (Hstale LidHash (localID info + 1)); [lia|done]).
  exists r1, info1, r2. split_and!; try done.
  - by rewrite bgp_info_fetch_eq, Hs1.
  - rewrite Hi2. apply lookup_delete_eq.
  - intros u ty roa sec aspa. unfold handleSRxValidationResult. rewrite (proj2 (Z.eqb_neq (localID info) 0)) by lia. cbn [negb].
    rewrite bgp_info_fetch_eq, Hreg2 by done. unfold unreg. rewrite decide_False; [|intros [_ Heq]; congruence].
    rewrite Hs1. simpl_outcome. unfold update_info, get_info, deref. by rewrite Hi2, lookup_delete_eq.
Qed.

(** C20  The list for the path in the request has as many entries as 8 bits of the length
    of the segment say, and all numbers of the segment are copied into it: a path of
    more than 255 numbers in one segment overruns the buffer. *)
Theorem long_segment_overflows r i info rn n p l def reg :
  infos r !! i = Some info -> peers r !! info_peer info = Some p -> node info = Some rn -> nodes r !! rn = Some n ->
  aspath (info_attr info) = Some [mkSeg AS_SEQUENCE l] -> 255 < Z.of_nat (length l) ->
  extra (info_attr info) = None -> isConnected (srxProxy (r_bgp r)) = true -> 0 < localID info ->
  verify_update r i def reg = Fault BufferOverflow.
Proof.
  intros Hi Hp Hr Hn Ha Hl He Hc Hid. unfold verify_update. rewrite (get_info_eq _ _ _ Hi). simpl_outcome.
  assert (exists def', community_result (r_bgp r) (info_attr info) def = Ok def') as [def' ->].
  { unfold community_result, checkEcomSRxValid. rewrite He. simpl_outcome. by destruct (CHECK_FLAG _ _); eexists. }
  simpl_outcome. set (info1 := default_results _ info). set (r1 := put_info r i info1).
  assert (returns (if (0 <? localID info) && reg then '(r, _) ← bgp_info_register r1 LidHash i (localID info); Ok r else Ok r1)
            (fun r' => env r' = env r /\ nodes r' = nodes r /\ exists h, infos r' !! i = Some (with_hash info1 h))) as Hreg.
  { assert (env r1 = env r /\ nodes r1 = nodes r /\ exists h, infos r1 !! i = Some (with_hash info1 h)) as Hr1.
    { split; [done|]. split; [done|]. exists (info_hash info1). cbn [infos r1 put_info set_infos]. rewrite lookup_insert_eq. by destruct info1. }
    destruct (_ && _); [|by apply returns_Ok]. unfold bgp_info_register. rewrite (proj2 (Z.eqb_neq (localID info) 0)) by lia.
    rewrite (update_info_eq _ i info1) by apply lookup_insert_eq. simpl_outcome. apply returns_Ok. split; [done|]. split; [done|].
    exists (Some LidHash). apply lookup_insert_eq. }
  destruct Hreg as (r2 & -> & He2 & Hn2 & h & Hi2). simpl_outcome. rewrite (get_info_eq _ _ _ Hi2). simpl_outcome.
  pose proof (env_fields _ _ He2) as (Eb & _ & Ep & _). rewrite Eb, Hc. cbn [localID with_hash info1 default_results with_results].
  rewrite (proj2 (Z.eqb_neq (localID info) 0)) by lia. cbn [negb orb andb]. unfold verify_packet. cbn [info_peer with_hash default_results with_results info1 node].
  unfold deref, get_node, deref. rewrite Ep, Hp. simpl_outcome. cbn [node]. rewrite Hr. unfold deref. rewrite Hn2, Hn. simpl_outcome.
  unfold request_packet. cbn [info_attr with_hash default_results with_results info1]. rewrite Ha.
  destruct l as [|a0 l0]; [cbn in Hl; lia|]. destruct (last (a0 :: l0)) as [z|] eqn:El; [|by apply last_None in El].
  assert (u8 (seg_length (mkSeg AS_SEQUENCE (a0 :: l0))) <? seg_length (mkSeg AS_SEQUENCE (a0 :: l0)) = true) as Hlt.
  { unfold seg_length. cbn [seg_as]. unfold wrap. apply Z.ltb_lt. pose proof (Z.mod_pos_bound (Z.of_nat (length (a0 :: l0))) (2 ^ 8)). lia. }
  assert (forall rel, path_list rel (Some [mkSeg AS_SEQUENCE (a0 :: l0)]) = Fault BufferOverflow) as Hpl.
  { intros rel. unfold path_list. change (default [] (Some [mkSeg AS_SEQUENCE (a0 :: l0)])) with [mkSeg AS_SEQUENCE (a0 :: l0)].
    cbn beta iota zeta. rewrite filter_cons_False by done. change (default _ _) with (mkSeg AS_SEQUENCE (a0 :: l0)). by rewrite Hlt. }
  rewrite (origin_sequence _ _ El). simpl_outcome. by rewrite Hpl.
Qed.
End process.
End RouterProcess.
