(* ===== verification/RouterWitness.v ===== *)
(** * Concrete instances of the theorems about the router

    A router with two neighbors and one IPv4 prefix; its tables of identifiers are
    lists.  Origin validation is on, invalid routes are ignored, and the routes the
    server does not know lose local preference. *)
From S2P Require Import Prelude Lists Bytes SrxDefs UtHash UpdateCache SrxPackets ProxyApi HashMessage.
From S2P Require Import RouterConfig RouterAsPath RouterTable RouterDecision RouterState RouterRun RouterProcess.

Module RouterWitness.
Import SrxPackets RouterConfig RouterAsPath RouterTable RouterDecision RouterState RouterRun RouterProcess.

#[local] Instance api : LocalCrypto := {| local_validate d := 0 |}.
#[local] Abbreviation R := (router (list (Z * positive))).

(** ** Configuration *)
Definition bgp0 : bgp := mkBgp 65000 16777226 0 100 0 0 0 0 [] [] [] 0 0 0 0 None 0 0.
Definition commands0 : list command :=
  [Evaluation "origin"; DefaultRoa "notfound"; LocalPreference LOCPRF_TYPE_ROA ["notfound"; "subtract"; "20"] true; RoaIgnore true "invalid"].
Definition configured : bgp := Eval vm_compute in match run_commands (srx_set_default bgp0) commands0 with Ok b => b | Fault _ => bgp0 end.
Lemma configured_eq : run_commands (srx_set_default bgp0) commands0 = Ok configured.
Proof. by vm_compute. Qed.
Lemma configured_wf : cfg_wf configured.
Proof. by apply (commands_wf bgp0 commands0), configured_eq. Qed.

Lemma commands_modes_witness : exists b, run_commands (srx_set_default bgp0) commands0 = Ok b /\ modes_of b = mkModes true false false false /\ cfg_wf b.
Proof.
  exists configured. split; [exact configured_eq|]. destruct (commands_modes bgp0 commands0 configured configured_eq) as [Hm Hw].
  split; [|exact Hw]. rewrite Hm. by vm_compute.
Defined.

Lemma configured_saved : ConfigFile.saved_ok configured.
Proof.
  constructor; try done; [exact configured_wf| | | |by left].
  - cbn [configured srx_loc_pref_roa srx_loc_pref_bgpsec srx_loc_pref_aspa app].
    repeat (apply Forall_cons_2; [by vm_compute|]). by apply Forall_nil_2.
  - by right; left.
  - by right; right; left.
Qed.
(** Origin validation is not on any more after a restart. *)
Lemma written_configuration_witness : exists ls, ConfigFile.srx_config_write_configuration configured = Ok ls
  /\ exists b, ConfigFile.config_from_file (srx_set_default bgp0) ls = Ok (Some b) /\ srx_loc_pref_roa b = srx_loc_pref_roa configured
     /\ eval_origin (modes_of configured) = true /\ eval_origin (modes_of b) = false.
Proof.
  destruct (ConfigFile.written_configuration configured configured_saved) as (ls & Hw & Hr). exists ls. split; [exact Hw|].
  exists (ConfigFile.restored bgp0 configured). split; [exact (Hr bgp0 eq_refl)|]. split; [reflexivity|]. split; by vm_compute.
Defined.

(** ** The router at the start *)
Definition online (b : bgp) : bgp := with_proxy b (srx_proxyID b) (Some (srx_proxyID b, true)).
Definition peer_ex (n : Z) : peer := mkPeer BGP_PEER_EBGP (65000 + n) 65000 n (mkSockunion 2 [10; 0; 0; n]) 1 PEER_FLAG_ASPA_RELATIONSHIP_PROV.
Definition ipv4 : bgp_table := mkTable false AFI_IP SAFI_UNICAST.
Definition node_ex (l : list positive) (s : bool) : bgp_node := mkNode 2 16 ([10; 0] ++ replicate 14 0) ipv4 l s.
Definition node0 : bgp_node := node_ex [] false.
Definition r0 : R :=
  mkRouter (online configured) false true {[1%positive := peer_ex 1; 2%positive := peer_ex 2]} 3 ∅ {[1%positive := node0]} [] [1%positive]
    (mkHash [] ∅) (mkHash [] ∅) 0 ∅ [] [] [] [].
Definition attr_ex (l : list Z) : attr := mkAttr 0 0 (Some [mkSeg AS_SEQUENCE l]) 0 0 None [] None.

Lemma r0_wf : router_wf r0.
Proof.
  apply empty_wf; try done.
  - pose proof configured_wf as [W1 W2 W3 W4 W5 W6 W7]. by constructor.
  - intros h. split; [|by destruct h]. unfold hash_wf. destruct h; (constructor; [apply NoDup_nil_2|]); intros k p Hin; by apply not_elem_of_nil in Hin.
  - apply map_Forall_singleton. done.
Qed.
Lemma input_ex k l ris s : l <> [] -> (length l <= 3)%nat -> input_ok (online configured) (peer_ex k) (node_ex ris s) (attr_ex l).
Proof.
  intros Hl Hn. constructor.
  - constructor; try done. eexists. split; [done|]. by apply Forall_singleton.
  - done.
  - intros id def. destruct l as [|a [|b [|c [|]]]]; try done; cbn in Hn; lia.
Qed.

(** ** Runs *)
Lemma run_ok_cons (r r' : R) e es : event_ok r e -> step r e = Ok r' -> run_ok r' es -> run_ok r (e :: es).
Proof. intros He Hs Hr. split; [done|]. intros r2 E. congruence. Qed.
Definition after (r : R) (e : event) : R := match step r e with Ok r' => r' | Fault _ => r end.
Definition update_ex (k : positive) (l : list Z) : event := Update 1 k ZEBRA_ROUTE_BGP BGP_ROUTE_NORMAL (attr_ex l) true.

(** Two neighbors announce the prefix, the second one with a longer path; the server
    finds the origin of the first route invalid. *)
Definition r1 : R := Eval vm_compute in after r0 (update_ex 1 [65001]).
Definition r2 : R := Eval vm_compute in after r1 (update_ex 2 [65002; 65003]).
Definition r3 : R := Eval vm_compute in after r2 Process.
Definition invalid_answer : event := Notify 77 1 SRX_FLAG_ROA SRx_RESULT_INVALID SRx_RESULT_UNDEFINED SRx_RESULT_UNDEFINED.
Definition r4 : R := Eval vm_compute in after r3 invalid_answer.
Definition selection (r : R) : list positive := (filter (fun p => selected p.2 = true) (map_to_list (infos r))).*1.

Lemma run_ex_ok : run_ok r0 [update_ex 1 [65001]; update_ex 2 [65002; 65003]; Process; invalid_answer; Process].
Proof.
  apply (run_ok_cons _ r1); [|by vm_compute|].
  { exists node0, (peer_ex 1). split_and!; try done. apply (input_ex 1 _ [] false); [done|cbn; lia]. }
  apply (run_ok_cons _ r2); [|by vm_compute|].
  { eexists _, (peer_ex 2). split_and!; try done. apply (input_ex 2 _ [1%positive] true); [done|cbn; lia]. }
  apply (run_ok_cons _ r3); [done|by vm_compute|]. apply (run_ok_cons _ r4); [intros _ _; split; [done|by vm_compute]|by vm_compute|].
  by split.
Qed.

Lemma selection_follows_validation_witness :
  selection r3 = [1%positive] /\ exists r', run r0 [update_ex 1 [65001]; update_ex 2 [65002; 65003]; Process; invalid_answer; Process] = Ok r'
    /\ router_wf r' /\ selection r' = [2%positive]
    /\ forall rn n, nodes r' !! rn = Some n -> rn ∉ process_main_queue r' -> follows_validation r' rn n.
Proof.
  split; [by vm_compute|].
  destruct (selection_follows_validation r0 _ r0_wf run_ex_ok) as (r' & E & Hw & Hf). exists r'. split_and!; [done|done| |done].
  vm_compute in E. injection E as <-. by vm_compute.
Defined.

Lemma r3_wf : router_wf r3.
Proof.
  destruct (events_wf [update_ex 1 [65001]; update_ex 2 [65002; 65003]; Process] r0 r0_wf) as (r & E & Hw).
  { apply (run_ok_cons _ r1); [apply run_ex_ok|by vm_compute|]. apply (run_ok_cons _ r2); [|by vm_compute|by split].
    apply run_ex_ok. by vm_compute. }
  assert (Ok r = Ok r3) as [= ->]; [|exact Hw]. rewrite <- E. by vm_compute.
Qed.

(** The answer for the first route, and one for a route that does not exist. *)
Lemma handleSRxValidationResult_correct_witness :
  addressed r3 77 1 = Some 1%positive /\ addressed r3 5 0 = None
  /\ (exists res, handleSRxValidationResult r3 77 1 SRX_FLAG_ROA SRx_RESULT_INVALID 0 0 = Ok res /\ res.2 = true)
  /\ exists res, handleSRxValidationResult r3 5 0 SRX_FLAG_ROA SRx_RESULT_INVALID 0 0 = Ok res /\ res.2 = false.
Proof.
  split; [by vm_compute|]. split; [by vm_compute|]. split.
  - destruct (handleSRxValidationResult_correct r3 77 1 SRX_FLAG_ROA SRx_RESULT_INVALID 0 0 r3_wf) as (res & E & P).
    { intros _ _. split; [done|by vm_compute]. }
    assert (addressed r3 77 1 = Some 1%positive) as Ea by by vm_compute. rewrite Ea in P. destruct P as (info & _ & P).
    exists res. split; [done|]. unfold answered in P. destruct (brought _ _ _ _ _). apply P.
  - destruct (handleSRxValidationResult_correct r3 5 0 SRX_FLAG_ROA SRx_RESULT_INVALID 0 0 r3_wf) as (res & E & P); [done|].
    assert (addressed r3 5 0 = None) as Ea by by vm_compute. rewrite Ea in P. exists res. split; [done|]. apply P.
Defined.

Lemma run_step (r r' : R) e es : step r e = Ok r' -> run r (e :: es) = run r' es.
Proof. intros E. cbn [run]. by rewrite E. Qed.
Definition r5 : R := Eval vm_compute in after r4 Process.
Lemma steps_ex : step r3 invalid_answer = Ok r4 /\ step r4 Process = Ok r5 /\ addressed r3 77 1 = Some 1%positive
  /\ reg r3 UidHash 77 = None /\ process_main_queue r4 = [1%positive] /\ nodes r5 !! 1%positive = Some (node_ex [2; 1]%positive false).
Proof. by vm_compute. Qed.
Lemma answer_changes_selection_witness : exists r, run r3 [invalid_answer; Process] = Ok r /\ follows_validation r 1 (node_ex [2; 1]%positive false).
Proof.
  destruct steps_ex as (S1 & S2 & Ha & Hr & Hq & Hn).
  destruct (answer_changes_selection r3 77 1 SRX_FLAG_ROA SRx_RESULT_INVALID SRx_RESULT_UNDEFINED SRx_RESULT_UNDEFINED 1 r3_wf Ha)
    as (info & ra & rb & _ & E1 & E2 & _ & _ & Hf & _); [intros _; split; [reflexivity|exact Hr]|].
  assert (ra = r4) as -> by (unfold invalid_answer in S1; congruence). rewrite Hq in E2.
  change (replicate (length [1%positive]) Process) with [Process] in E2. rewrite (run_step _ _ _ _ S2) in E2. injection E2 as <-.
  exists r5. rewrite (run_step _ _ _ _ S1), (run_step _ _ _ _ S2). split; [reflexivity|exact (Hf _ _ Hn)].
Defined.

Lemma validated_pref_correct_witness :
  exists info, infos r3 !! 1%positive = Some info /\ validated_pref (online configured) info = Ok 80.
Proof.
  destruct (infos r3 !! 1%positive) as [info|] eqn:E; [|by vm_compute in E]. exists info. split; [done|].
  destruct (validated_pref_correct (online configured) info) as (pref & -> & _ & Hp & _); [apply r3_wf|vm_compute in E; by injection E as <-|].
  rewrite Hp; [vm_compute in E; injection E as <-; by vm_compute|]. apply policies_apply_spec; [apply r3_wf|by vm_compute].
Defined.

(** The first neighbor prepends before the server has answered. *)
Lemma pending_update_dangles_witness : exists ra rb, update_changed r3 1 1 (peer_ex 1) (attr_ex [65001; 65001]) true = Ok ra
  /\ bgp_info_reap ra 1 1 = Ok rb /\ handleSRxValidationResult rb 77 1 SRX_FLAG_ROA SRx_RESULT_VALID 0 0 = Fault UseAfterDestroy.
Proof.
  destruct (infos r3 !! 1%positive) as [info|] eqn:E; [|by vm_compute in E].
  assert (info_hash info = Some LidHash /\ node info = Some 1%positive /\ localID info = 1 /\ info_peer info = 1%positive) as (Eh & En & El & Ep).
  { vm_compute in E. by injection E as <-. }
  destruct (pending_update_dangles r3 1 (node_ex [2; 1]%positive false) 1 info (peer_ex 1) (attr_ex [65001; 65001]) true r3_wf E Eh En)
    as (ra & ia & rb & E1 & _ & _ & _ & E2 & _ & Hd); [by vm_compute|rewrite Ep; by vm_compute| |by vm_compute|by vm_compute|].
  { apply (input_ex 1 _ [2; 1]%positive false); [done|cbn; lia]. }
  exists ra, rb. split; [done|]. split; [done|]. rewrite El in Hd. apply Hd.
Defined.

(** A neighbor announces a path of 300 numbers. *)
Lemma long_segment_overflows_witness : step r0 (update_ex 1 (replicate 300 65001)) = Fault BufferOverflow
  /\ let info := with_ids (with_node (bgp_info_new 1 ZEBRA_ROUTE_BGP BGP_ROUTE_NORMAL (attr_ex (replicate 300 65001))) (Some 1%positive)) 0 1 in
     verify_update (put_info r0 1 info) 1 (configured_result (online configured)) true = Fault BufferOverflow.
Proof.
  split; [by vm_compute|]. intros info.
  by apply (long_segment_overflows (put_info r0 1 info) 1 info 1 node0 (peer_ex 1) (replicate 300 65001)).
Defined.

(** ** AS paths *)
Definition path_octets : list Z := [2; 1; 0; 0; 0; 1; 2; 1; 0; 0; 253; 233; 1; 3; 0; 0; 0; 9; 0; 0; 0; 7; 0; 0; 0; 9].
Definition received : AsPathWire.stream := AsPathWire.mkStream 100 path_octets 0.
Definition received_path : list assegment := [mkSeg AS_SEQUENCE [1; 65001]; mkSeg AS_SET [7; 9]].
Lemma received_octets : Forall (in_u 8) path_octets.
Proof. by apply (bool_decide_eq_true_1 (Forall (fun a => 0 <= a < 256) path_octets)); vm_compute. Qed.
(** Two sequences become one, and the duplicate of the set is gone. *)
Lemma assegments_parse_witness : exists s', AsPathWire.assegments_parse received 26 true = Ok (s', Some received_path).
Proof.
  destruct (AsPathWire.assegments_parse_correct received 26 true ltac:(cbn; lia) received_octets ltac:(lia)) as (s' & result & E & Hr & _).
  exists s'. rewrite E. do 2 f_equal. apply Hr.
  exists [mkSeg AS_SEQUENCE [1]; mkSeg AS_SEQUENCE [65001]; mkSeg AS_SET [9; 7; 9]]. split; [|split; [by vm_compute|split; [by vm_compute|split]]].
  - repeat (apply Forall_cons_2; [constructor; [done|by vm_compute|repeat (apply Forall_cons_2; [by vm_compute|]); by apply Forall_nil_2]|]).
    by apply Forall_nil_2.
  - split; [by split|]. repeat (apply Forall_cons_2; [split; [done|]; intros; repeat constructor; lia|]). by apply Forall_nil_2.
  - by vm_compute.
Defined.
Lemma received_path_sent_on_witness : exists l, AsPathWire.aspath_put (AsPathWire.mkStream 100 [] 0) received_path true
    = Ok (AsPathWire.appended (AsPathWire.mkStream 100 [] 0) l, Z.of_nat (length l)).
Proof.
  destruct (AsPathWire.received_path_sent_on received 26 (AsPathWire.forward received 26) received_path (AsPathWire.mkStream 100 [] 0))
    as (l & E & _).
  - cbn; lia.
  - exact received_octets.
  - lia.
  - by vm_compute.
  - by repeat (apply Forall_cons_2; [by vm_compute|]).
  - by vm_compute.
  - by exists l.
Defined.

End RouterWitness.
